(* ===== verification/_CoqProject ===== *)
-Q . S2P
Prelude.v
CString.v
Types.v
Varint.v
Codec.v
Frame.v
Packet.v
Pacing.v
DeliveryRate.v
Bbr.v
Ack.v
Flow.v
Stream.v
LinkedList.v
Scheduler.v
HashMap.v
RateLimit.v
Crc32c.v
Heartbeat.v
Migration.v
PriorityQueue.v
RingBuffer.v
Crypto.v
Tokens.v
Pow.v
Handshake.v
Connection.v
ConnectionSend.v
ConnectionInv.v
ConnectionSafety.v
Session.v
StreamLimits.v
FramedStream.v
FreeList.v
ObjectPools.v
Arena.v
TcpTransport.v
WebSocket.v
WsHandshake.v
Url.v
Sockets.v
Transports.v
EventLoop.v
Epoll.v
ApiObjects.v
ApiIo.v
ApiInv.v
ApiSafety.v
ApiCalls.v
ApiLifecycle.v
ApiHistory.v
ApiSpin.v
SessionExport.v
Listener.v
ListenerSafety.v
ApiServer.v
ApiServerSafety.v
ApiShutdown.v
Scenarios.v
ApiScenarios.v
