(* ===== verification/Prelude.v ===== *)
(** * A verification of the NXP transport

    NXP is a QUIC-like transport protocol in C.  An application reads and
    writes streams; a connection cuts their data into frames, packs frames into
    encrypted packets, and recovers from loss with acknowledgements, congestion
    control and pacing; a listener shares one socket between connections.  These
    parts compute on memory only.  Transports carry the datagrams over UDP, TCP or
    WebSocket, an event loop waits for sockets and timers, and the public API wraps
    connections, streams and listeners and drives the engine from the event loop.

    ** Conventions

    An unsigned integer of the source is a [Z] reduced by [u8], [u32] or [u64]
    after each operation that can leave its type; a byte buffer is a [list Z]; a
    nullable pointer is an [option]; a function that fails returns an [outcome],
    whose third constructor [Ub] stands for undefined behaviour (an access out
    of bounds, a null or dangling pointer).  A loop with fuel that runs out of it
    gives [Ub], or [Err tt] where an error of type [unit] stands for a call that has
    not returned, so that every theorem that a result is [Done] also says that the
    loop terminates; [safe m P] says that [m] is defined and, when it returns, has
    [P].  Guards against null for mandatory arguments are left
    out.  Memory allocation, random bytes, clocks and callbacks are arguments.
    Records are updated by [r <| f := v |>].

    ** Files

    - Prelude: machine integers, buffers, outcomes, the shared tactics.
    - Types: error codes and enumerations (include/nxp/nxp_types.h).
    - Varint: util/varint.c.
    - Codec: writers and parsers over buffers, with the lemmas that make a codec
      round-trip; shared by the frame and packet codecs.
    - Frame: core/frame.c.  Packet: core/packet.c, platform/platform_endian.h.
    - Pacing: congestion/pacing.c and core/stream_rate.h, two instances of the
      [TokenBucket] interface, against which conformance is proved once.
    - DeliveryRate: congestion/delivery_rate.c.  Bbr: congestion/bbr.c and
      windowed_filter.h, with the [nxp_cc_ops] table as a record.
    - Ack: core/ack.c; the acknowledgement and loss callbacks are section
      variables.  Flow: core/flow_control.c.  Stream: core/stream.c.
    - LinkedList: circular doubly linked lists in a heap, util/intrusive_list.h.
      Scheduler: core/scheduler.c.
    - HashMap: util/hash_map.c.  RateLimit: core/rate_limit.h, against the
      [KeyStore] interface that the hash map implements.
    - Crc32c, PriorityQueue, RingBuffer: the files of util/ of those names.
    - Heartbeat: core/heartbeat.c.  Migration: core/migration.c.
    - Crypto: crypto/aead.c, hkdf.c, header_protection.c and the key derivations
      of handshake_crypto.c and session_ticket.c, over the class [OpenSSL] of the
      library's primitives; [OpenSSLLaws] states what is relied on, and the
      module [Sample] is a concrete instance.
    - Tokens: crypto/retry_token.c and session_ticket.c.  Pow:
      crypto/proof_of_work.c.
    - Handshake: core/handshake.c and the X25519 wrappers.
    - Connection: core/connection.c and the connection record, except for the
      sending half, which is ConnectionSend.  The stream table is the finite map
      that HashMap implements.  ConnectionInv: the invariant [conn_ok], what time
      does to a connection ([conn_le]), and that every operation but sending
      keeps them.  ConnectionSafety: the same for sending, the histories of a
      connection as sequences of events, and the properties over all histories.
      Session: two engines that talk to each other, and what is sealed with which
      nonce.  StreamLimits: the frames in the packets that an engine has sent, and
      the flow-control limits on them.
    - Listener: core/listener.c over a heap of connections, with the limiter of
      RateLimit.  ListenerSafety: its invariant [listener_ok], its histories and
      its properties.
    - SessionExport: core/session_export.c.
    - FreeList, ObjectPools and Arena: memory/pool.c, slab.c, packet_buffer.c and
      arena.c, over memory with addresses.
    - FramedStream: message framing over a byte stream that is cut anywhere, which
      TcpTransport (transport/tcp/transport_tcp.c) and WebSocket
      (transport/websocket/ws_frame.c, transport_ws.c) instantiate.  WsHandshake:
      transport/websocket/ws_handshake.c.  CString: the functions of string.h that
      are used.  Url: the URL parsers of the transports.
    - Sockets: platform/linux/posix_socket.c and the resources of the process, as
      tokens in a state monad [io].  Transports: connect, listen, accept and close of
      the three transports, and platform/transport.c.
    - EventLoop: platform/event_loop.c against the [TimerQueue] interface, which
      PriorityQueue implements.  Epoll: platform/linux/epoll_event_loop.c.
    - The public API, src/src/api/nxp_api.c.  ApiObjects: the wrappers in their
      linked lists, and the notifications of streams.  ApiIo: the handlers of
      a connection over the classes [Engine] and [System], which state what the API
      relies on of the engine and of the operating system.  ApiInv and ApiSafety: the
      invariants [api_ok] and [api_rep], which the handlers keep.  ApiCalls: the calls
      on connections and streams.  ApiLifecycle: connecting.  ApiHistory: the
      connection engine as an instance of [Engine], and all histories of a client.
      ApiSpin: the timers of a connection that the peer has closed.  ApiServer and
      ApiServerSafety: the handlers of a listener and their invariant.  ApiShutdown:
      listening, closing a listener and shutting down.
    - Scenarios and ApiScenarios: concrete connections, listeners and processes at
      which the properties of the engine, of the listener and of the API are applied.

    ** Theorems

    Codecs: round trips, and totality and memory safety of the decoders on
    arbitrary bytes.  Reliability: the receive history is exact, an ACK frame
    means on the peer exactly what was received, ACK processing partitions the
    sent packets, the loss timer progresses, and what a stream reader gets is a
    prefix of what was written.  Congestion control: BBR's invariant and state
    graph, soundness of bandwidth samples, conformance of the token buckets.
    Containers: the hash map, heap, lists, scheduler and ring buffer refine
    finite maps, bags and sequences, the ring buffer under every interleaving of
    its two threads.  Safety of path validation, heartbeats and rate limits.
    Security: key expansion is HKDF with separated labels, retry tokens and
    session tickets are exact, used tickets are not replayed, and the two ends
    of a handshake agree on keys and parameters, safely on every history.
    Connection: no sequence of operations within their calling conditions and of
    arbitrary datagrams leads to undefined behaviour, no two packets are sealed with
    the same nonce, stream identifiers are never reused, the data on the wire stays
    within the flow-control limits, sending terminates unless streams are rate
    limited (and may not return if they are), a datagram is received as exactly the
    frames that were sent, and the first data of a stream arrives.  Listener: no history uses a freed
    connection, a datagram touches at most the connection it is addressed to and
    reaches it, polling is fair, and the timer removes exactly the connections
    it closes.  Session export: an exported connection is restored exactly, and what
    it sends after the import is accepted by its peer.  Allocators: what they hand out
    is disjoint and stays untouched.  Transports: messages that a socket
    takes whole arrive whole and in order whatever way the stream is cut, and connecting and listening leak nothing.  Event
    loop: no timer is slept through, and polling calls exactly the registered
    callbacks.  API: over every history of a client that closes no stream no freed
    timer, wrapper, stream or connection is touched, and the application hears of a connection at most once that
    it is established and then that it is closed; the handlers of a listener are safe
    for arbitrary datagrams; connecting and listening give back what they
    hold when they fail, and closing a listener does so except for the wrappers of
    streams and the buckets of its rate limiter.  Theorems also show where the API falls short: closing a stream,
    the timer of a listener with a connection that ends, shutting down with listeners,
    ending a stream without data, and the timers of a connection that the peer closed.

    ** Bounds and fuel

    Loops over an array recurse on the list.  The probe loops of the hash map
    have fuel [capacity], enough because a table is never full; [sift_down] has
    fuel [count], enough because the index grows; the decoder of transport
    parameters has the number of bytes, and HKDF 255 rounds, its own limit.  The
    proof-of-work search has its fuel as an argument, and so has the loop of
    [nxp_conn_send] over the scheduled streams, where [Err tt] means that it is
    still running; the frame loops have the number of bytes.  Times are below [2^62] or
    [2^64] microseconds and buffer sizes below [2^63] where a statement needs
    that sums do not wrap; hash maps have at most [2^25] slots and heaps [2^29],
    where the C code's own 32-bit products stop wrapping.  The loops of the event loop
    and of the API that send, receive or fire until nothing is left have their fuel as
    an argument and give [Err tt] when it is used up; walks over the lists of wrappers
    have the size of the heap, which is enough because the lists have no cycle.  The
    engine as seen by the API ([conn_engine], [within]) also gives [Err tt] beyond
    [2^64 - 1] packets of a connection and 64 timeouts in a row, and when a rate
    limiter has more than [2^25] slots.

    ** Assumptions on memory and sockets

    Two allocations of connections and listeners are used without a check: the array
    of sent packets ([nxp_ack_init]) and the table of a rate limiter
    ([nxp_rate_limiter_create]).  Their failure is modelled and shown to be undefined
    behaviour at the first use ([sent_array_unchecked], [limiter_create_unchecked]);
    the histories of connections, listeners and clients take these two to succeed,
    and let the checked ones fail.  The queue of timers is unchecked as well; the
    histories of the event loop start with one.  The in-order properties of TCP and WebSocket are about sockets
    that take a frame whole or refuse it; [tcp_cut_send] and [ws_cut_send] show what
    a partial send does.  The steps of the ring buffer's threads are its loads, one
    copy and its store, interleaved in sequential consistency.

    ** Not modelled

    The application's callbacks are recorded and not run, so an application that
    calls the library from inside a callback is not covered; the histories of a client
    do not close streams before their last operation, because that is not safe.
    Freeing memory is represented in the allocators, the transports, the event loop
    and the API, and nowhere else; wiping memory is not.  The setters of the
    configuration, threads, the memory orders of atomic operations, logging and the
    event loops of other systems are left out.  System calls are arguments. *)

From Stdlib Require Export ZArith Lia.
From stdpp Require Export base tactics list numbers option.

#[global] Open Scope Z_scope.

(** ** Fixed-width unsigned integers

    A C value of type [uintN_t] is a [Z] in [0, 2^N); every C operation that
    can leave that interval is followed by the reduction of its type. *)

Definition u8 (z : Z) : Z := z mod 256.
Definition u32 (z : Z) : Z := z mod 4294967296.
Definition u64 (z : Z) : Z := z mod 18446744073709551616.

(** [size_t] is 64 bits wide on the supported platforms. *)
Definition UINT64_MAX : Z := 18446744073709551615.
Definition SIZE_MAX : Z := 18446744073709551615.

(** The conversion of a C boolean test to a number, used by encoders. *)
Definition b2z (b : bool) : Z := if b then 1 else 0.

Declare Scope c_scope.
Delimit Scope c_scope with C.
Notation "a &&& b" := (Z.land a b) (at level 40, left associativity) : c_scope.
Notation "a ||| b" := (Z.lor a b) (at level 50, left associativity) : c_scope.
Notation "a <<< n" := (Z.shiftl a n) (at level 33, left associativity) : c_scope.
Notation "a >>> n" := (Z.shiftr a n) (at level 33, left associativity) : c_scope.
#[global] Open Scope c_scope.

Lemma u8_range z : 0 <= u8 z < 256.
Proof. unfold u8. apply Z.mod_pos_bound. lia. Qed.
Lemma u32_range z : 0 <= u32 z < 4294967296.
Proof. unfold u32. apply Z.mod_pos_bound. lia. Qed.
Lemma u64_range z : 0 <= u64 z < 18446744073709551616.
Proof. unfold u64. apply Z.mod_pos_bound. lia. Qed.

Lemma u8_small z : 0 <= z < 256 -> u8 z = z.
Proof. apply Z.mod_small. Qed.
Lemma u32_small z : 0 <= z < 4294967296 -> u32 z = z.
Proof. apply Z.mod_small. Qed.
Lemma u64_small z : 0 <= z < 18446744073709551616 -> u64 z = z.
Proof. apply Z.mod_small. Qed.

(** [lia] with the division and modulo by constants expanded. *)
Ltac zlia := Z.to_euclidean_division_equations; lia.

(** Remove the reductions that [lia] can show to be vacuous. *)
Ltac unwrap :=
  repeat first
    [ rewrite u64_small by lia | rewrite u32_small by lia
    | rewrite u8_small by lia ].

(** Case analysis on the integer comparisons of the goal and hypotheses. *)
Ltac zcase :=
  repeat match goal with
    | |- context [Z.leb ?a ?b] => destruct (Z.leb_spec a b)
    | |- context [Z.ltb ?a ?b] => destruct (Z.ltb_spec a b)
    | |- context [Z.eqb ?a ?b] => destruct (Z.eqb_spec a b)
    end.

(** Decide a closed conjunction of comparisons by evaluation. *)
Ltac by_compute := vm_compute; repeat split; solve [reflexivity | discriminate].

(** ** Bit operations as arithmetic *)

Lemma land_ones_mod z k : 0 <= k -> z &&& (2 ^ k - 1) = z mod 2 ^ k.
Proof. intros. rewrite <- Z.land_ones by lia. f_equal. rewrite Z.ones_equiv. lia. Qed.

Lemma land_63 z : z &&& 63 = z mod 64.
Proof. apply (land_ones_mod z 6). lia. Qed.
Lemma land_255 z : z &&& 255 = z mod 256.
Proof. apply (land_ones_mod z 8). lia. Qed.
Lemma land_3 z : z &&& 3 = z mod 4.
Proof. apply (land_ones_mod z 2). lia. Qed.

(** Disjoint bits add up. *)
Lemma lor_disjoint a b k :
  0 <= k -> a mod 2 ^ k = 0 -> 0 <= b < 2 ^ k -> a ||| b = a + b.
Proof.
  intros Hk Ha Hb.
  assert (a &&& b = 0) as Hab.
  { apply Z.bits_inj_iff'. intros n Hn.
    rewrite Z.land_spec, Z.bits_0.
    destruct (Z.lt_ge_cases n k) as [Hlt | Hge].
    - rewrite <- (Z.mod_pow2_bits_low a k n) by lia.
      rewrite Ha, Z.bits_0. done.
    - rewrite <- (Z.mod_small b (2 ^ k)) by lia.
      rewrite Z.mod_pow2_bits_high by lia. apply andb_false_r. }
  rewrite Z.add_nocarry_lxor by done.
  symmetry. by apply Z.lxor_lor.
Qed.

(** ** Bytes and byte buffers *)

Abbreviation byte z := (0 <= z < 256).
Definition bytes_ok (l : list Z) : Prop := Forall (fun z => byte z) l.

Definition zlen {A} (l : list A) : Z := Z.of_nat (length l).

Lemma zlen_nonneg {A} (l : list A) : 0 <= zlen l.
Proof. unfold zlen. lia. Qed.
Lemma zlen_app {A} (l k : list A) : zlen (l ++ k) = zlen l + zlen k.
Proof. unfold zlen. rewrite length_app. lia. Qed.
Lemma zlen_cons {A} (x : A) l : zlen (x :: l) = 1 + zlen l.
Proof. unfold zlen. simpl. lia. Qed.
Lemma zlen_nil {A} : zlen (@nil A) = 0.
Proof. done. Qed.
Lemma zlen_replicate {A} n (x : A) : zlen (replicate n x) = Z.of_nat n.
Proof. unfold zlen. by rewrite length_replicate. Qed.

(** Normalise the lengths of the goal and call [lia]. *)
Ltac zlen_norm :=
  repeat first
    [ rewrite zlen_app | rewrite zlen_cons | rewrite zlen_replicate
    | match goal with |- context [@zlen ?A []] => change (@zlen A []) with 0 end ].
Ltac lenlia := zlen_norm; lia.

Definition ztake {A} (n : Z) (l : list A) : list A := take (Z.to_nat n) l.
Definition zdrop {A} (n : Z) (l : list A) : list A := drop (Z.to_nat n) l.

Lemma zlen_ztake {A} n (l : list A) : 0 <= n <= zlen l -> zlen (ztake n l) = n.
Proof. unfold zlen, ztake. intros. rewrite length_take. lia. Qed.
Lemma zlen_zdrop {A} n (l : list A) : 0 <= n <= zlen l -> zlen (zdrop n l) = zlen l - n.
Proof. unfold zlen, zdrop. intros. rewrite length_drop. lia. Qed.
Lemma ztake_zdrop {A} n (l : list A) : ztake n l ++ zdrop n l = l.
Proof. apply take_drop. Qed.
Lemma zdrop_app {A} (l k : list A) : zdrop (zlen l) (l ++ k) = k.
Proof. unfold zdrop, zlen. rewrite Nat2Z.id. apply drop_app_length. Qed.
Lemma ztake_app {A} (l k : list A) : ztake (zlen l) (l ++ k) = l.
Proof. unfold ztake, zlen. rewrite Nat2Z.id. apply take_app_length. Qed.
Lemma zdrop_zdrop {A} a b (l : list A) :
  0 <= a -> 0 <= b -> zdrop a (zdrop b l) = zdrop (b + a) l.
Proof. intros. unfold zdrop. rewrite drop_drop. f_equal. lia. Qed.
Lemma ztake_all {A} n (l : list A) : zlen l <= n -> ztake n l = l.
Proof. unfold ztake, zlen. intros. apply take_ge. lia. Qed.
Lemma ztake_app_ge {A} n (l k : list A) : zlen l <= n -> ztake n (l ++ k) = l ++ ztake (n - zlen l) k.
Proof. unfold ztake, zlen. intros. rewrite take_app_ge by lia. do 2 f_equal. lia. Qed.
Lemma zdrop_0 {A} (l : list A) : zdrop 0 l = l.
Proof. done. Qed.

Lemma bytes_ok_app l k : bytes_ok (l ++ k) <-> bytes_ok l /\ bytes_ok k.
Proof. apply Forall_app. Qed.
Lemma bytes_ok_cons b l : bytes_ok (b :: l) <-> byte b /\ bytes_ok l.
Proof. apply Forall_cons_iff. Qed.
Lemma lxor_byte a b : byte a -> byte b -> byte (Z.lxor a b).
Proof.
  intros Ha Hb. assert (0 <= Z.lxor a b) as H0 by (apply Z.lxor_nonneg; lia). split; [done |].
  change 256 with (2 ^ 8). destruct (Z.eq_dec (Z.lxor a b) 0) as [-> | Hne]; [done |].
  apply Z.log2_lt_pow2; [lia |]. pose proof (Z.log2_lxor a b ltac:(lia) ltac:(lia)).
  assert (forall x, 0 <= x < 256 -> Z.log2 x < 8) as Hlog.
  { intros x Hx. destruct (Z.eq_dec x 0) as [-> | ?]; [done |]. apply Z.log2_lt_pow2; [lia |]. change (2 ^ 8) with 256. lia. }
  pose proof (Hlog a ltac:(lia)). pose proof (Hlog b ltac:(lia)). lia.
Qed.
Lemma bytes_ok_drop n l : bytes_ok l -> bytes_ok (zdrop n l).
Proof. apply Forall_drop. Qed.
Lemma bytes_ok_take n l : bytes_ok l -> bytes_ok (ztake n l).
Proof. apply Forall_take. Qed.

(** ** Outcomes of C routines

    [Done a] is a normal return, [Err e] an early return with the error [e],
    and [Ub] an access outside the object a pointer designates. *)

Inductive outcome (E A : Type) : Type :=
| Done (a : A)
| Err (e : E)
| Ub.
Arguments Done {E A} a.
Arguments Err {E A} e.
Arguments Ub {E A}.

Definition obind {E A B} (m : outcome E A) (k : A -> outcome E B) : outcome E B :=
  match m with
  | Done a => k a
  | Err e => Err e
  | Ub => Ub
  end.

Notation "'let!' p := m 'in' k" := (obind m (fun p => k))
  (at level 10, p pattern, m at level 100, k at level 200,
   format "'[v' 'let!'  p  :=  m  'in' '//' k ']'").

(** [guard b e] is the C idiom [if (b) return e;]. *)
Definition guard {E} (b : bool) (e : E) : outcome E unit :=
  if b then Err e else Done tt.

Notation "'return_if' b 'with' e ';;' k" := (if b then Err e else k)
  (at level 10, b at level 100, e at level 99, k at level 200,
   format "'[v' 'return_if'  b  'with'  e  ';;' '//' k ']'").

(** A load and a store through a pointer into the buffer [buf]. *)
Definition rd {E} (buf : list Z) (i : Z) : outcome E Z :=
  if i <? 0 then Ub else
  match buf !! Z.to_nat i with
  | Some b => Done b
  | None => Ub
  end.

Definition wr {E} (buf : list Z) (i v : Z) : outcome E (list Z) :=
  if (0 <=? i) && (i <? zlen buf)
  then Done (<[Z.to_nat i := v]> buf)
  else Ub.

(** [&buf[pos]] used as a buffer of [len] bytes. *)
Definition sub_buf {E} (buf : list Z) (pos len : Z) : outcome E (list Z) :=
  if (0 <=? pos) && (0 <=? len) && (pos + len <=? zlen buf)
  then Done (ztake len (zdrop pos buf))
  else Ub.

(** [memcpy(&buf[pos], src, n)]. *)
Definition memcpy {E} (buf : list Z) (pos : Z) (src : list Z) (n : Z)
  : outcome E (list Z) :=
  if (0 <=? pos) && (0 <=? n) && (pos + n <=? zlen buf) && (n <=? zlen src)
  then Done (ztake pos buf ++ ztake n src ++ zdrop (pos + n) buf)
  else Ub.

(** Appending to an array of [cap] bytes whose written part is [l]. *)
Definition push {E} (cap : Z) (l bs : list Z) : outcome E (list Z) :=
  if zlen l + zlen bs <=? cap then Done (l ++ bs) else Ub.

Lemma push_ok {E} cap l bs : zlen l + zlen bs <= cap -> @push E cap l bs = Done (l ++ bs).
Proof. intros. unfold push. by rewrite (proj2 (Z.leb_le _ _)). Qed.

Lemma rd_Done {E} buf i : 0 <= i < zlen buf ->
  exists b, @rd E buf i = Done b /\ buf !! Z.to_nat i = Some b.
Proof.
  intros Hi. unfold rd. destruct (Z.ltb_spec i 0); [lia |].
  destruct (lookup_lt_is_Some_2 buf (Z.to_nat i)) as [b Hb].
  { unfold zlen in Hi. lia. }
  rewrite Hb. eauto.
Qed.

Lemma rd_byte {E} buf i b : bytes_ok buf -> @rd E buf i = Done b -> byte b.
Proof.
  intros Hok. unfold rd. destruct (i <? 0); [done |].
  destruct (buf !! Z.to_nat i) eqn:Hb; [| done]. intros [= <-].
  by eapply Forall_lookup_1 in Hok.
Qed.

(** Loads at the first addresses of an exposed buffer. *)
Create Rewrite HintDb nxp_rd.
Lemma rd_at0 {E} b0 l : @rd E (b0 :: l) 0 = Done b0.
Proof. done. Qed.
Lemma rd_at1 {E} b0 b1 l : @rd E (b0 :: b1 :: l) 1 = Done b1.
Proof. done. Qed.
Lemma rd_at2 {E} b0 b1 b2 l : @rd E (b0 :: b1 :: b2 :: l) 2 = Done b2.
Proof. done. Qed.
Lemma rd_at3 {E} b0 b1 b2 b3 l : @rd E (b0 :: b1 :: b2 :: b3 :: l) 3 = Done b3.
Proof. done. Qed.
Lemma rd_at4 {E} b0 b1 b2 b3 b4 l : @rd E (b0 :: b1 :: b2 :: b3 :: b4 :: l) 4 = Done b4.
Proof. done. Qed.
Lemma rd_at5 {E} b0 b1 b2 b3 b4 b5 l : @rd E (b0 :: b1 :: b2 :: b3 :: b4 :: b5 :: l) 5 = Done b5.
Proof. done. Qed.
Lemma rd_at6 {E} b0 b1 b2 b3 b4 b5 b6 l : @rd E (b0 :: b1 :: b2 :: b3 :: b4 :: b5 :: b6 :: l) 6 = Done b6.
Proof. done. Qed.
Lemma rd_at7 {E} b0 b1 b2 b3 b4 b5 b6 b7 l : @rd E (b0 :: b1 :: b2 :: b3 :: b4 :: b5 :: b6 :: b7 :: l) 7 = Done b7.
Proof. done. Qed.
#[export] Hint Rewrite @rd_at0 @rd_at1 @rd_at2 @rd_at3 @rd_at4 @rd_at5 @rd_at6 @rd_at7 : nxp_rd.

Lemma rd_app_r {E} pre buf i :
  0 <= i -> @rd E (pre ++ buf) (zlen pre + i) = rd buf i.
Proof.
  intros. unfold rd, zlen.
  destruct (Z.ltb_spec (Z.of_nat (length pre) + i) 0); [lia |].
  destruct (Z.ltb_spec i 0); [lia |].
  rewrite Z2Nat.inj_add, Nat2Z.id by lia.
  by rewrite lookup_app_r, Nat.add_sub' by lia.
Qed.

Lemma sub_buf_Done {E} buf pos len :
  0 <= pos -> 0 <= len -> pos + len <= zlen buf ->
  @sub_buf E buf pos len = Done (ztake len (zdrop pos buf)).
Proof.
  intros. unfold sub_buf.
  repeat (rewrite (proj2 (Z.leb_le _ _)) by lia). done.
Qed.

Lemma sub_buf_app {E} pre l post pos len :
  pos = zlen pre -> len = zlen l ->
  @sub_buf E (pre ++ l ++ post) pos len = Done l.
Proof.
  intros -> ->. pose proof (zlen_nonneg pre). pose proof (zlen_nonneg l).
  pose proof (zlen_nonneg post).
  rewrite sub_buf_Done by (rewrite ?zlen_app; lia).
  by rewrite zdrop_app, ztake_app.
Qed.

(** ** Splicing: the effect of writing [bs] at [pos] *)

Definition splice (buf : list Z) (pos : Z) (bs : list Z) : list Z :=
  ztake pos buf ++ bs ++ zdrop (pos + zlen bs) buf.

Lemma zlen_splice buf pos bs :
  0 <= pos -> pos + zlen bs <= zlen buf -> zlen (splice buf pos bs) = zlen buf.
Proof.
  intros. pose proof (zlen_nonneg bs). unfold splice.
  rewrite !zlen_app, zlen_ztake, zlen_zdrop by lia. lia.
Qed.

Lemma splice_0 buf bs : splice buf 0 bs = bs ++ zdrop (zlen bs) buf.
Proof. done. Qed.

Lemma splice_nil buf pos : splice buf pos [] = buf.
Proof. unfold splice. rewrite zlen_nil, Z.add_0_r. apply ztake_zdrop. Qed.

Lemma splice_splice buf pos a b :
  0 <= pos -> pos + zlen a + zlen b <= zlen buf ->
  splice (splice buf pos a) (pos + zlen a) b = splice buf pos (a ++ b).
Proof.
  intros. pose proof (zlen_nonneg a). pose proof (zlen_nonneg b).
  assert (zlen (ztake pos buf ++ a) = pos + zlen a) as Hpa.
  { rewrite zlen_app, zlen_ztake; lia. }
  assert (splice buf pos a = (ztake pos buf ++ a) ++ zdrop (pos + zlen a) buf) as Hs.
  { unfold splice. by rewrite app_assoc. }
  rewrite Hs. unfold splice. rewrite <- Hpa at 1. rewrite ztake_app, zlen_app.
  rewrite <- !app_assoc. do 3 f_equal.
  rewrite <- (zdrop_zdrop (zlen b) (pos + zlen a)) by lia.
  rewrite app_assoc, <- Hpa at 1. rewrite zdrop_app, zdrop_zdrop by lia.
  f_equal. lia.
Qed.

Lemma wr_splice {E} buf i v : 0 <= i < zlen buf ->
  @wr E buf i v = Done (splice buf i [v]).
Proof.
  intros Hi. unfold wr.
  rewrite (proj2 (Z.leb_le _ _)), (proj2 (Z.ltb_lt _ _)) by lia. simpl. f_equal.
  unfold splice, ztake, zdrop. unfold zlen in Hi.
  rewrite insert_take_drop by lia. simpl. repeat f_equal.
  rewrite zlen_cons, zlen_nil. lia.
Qed.

Lemma memcpy_splice {E} buf pos src n :
  0 <= pos -> 0 <= n -> pos + n <= zlen buf -> n <= zlen src ->
  @memcpy E buf pos src n = Done (splice buf pos (ztake n src)).
Proof.
  intros. unfold memcpy, splice.
  repeat (rewrite (proj2 (Z.leb_le _ _)) by lia). simpl.
  by rewrite zlen_ztake by lia.
Qed.

Lemma ztake_splice buf pos bs :
  0 <= pos -> pos + zlen bs <= zlen buf ->
  ztake (pos + zlen bs) (splice buf pos bs) = ztake pos buf ++ bs.
Proof.
  intros. pose proof (zlen_nonneg bs). unfold splice. rewrite app_assoc.
  replace (pos + zlen bs) with (zlen (ztake pos buf ++ bs)) at 1.
  - apply ztake_app.
  - rewrite zlen_app, zlen_ztake; lia.
Qed.

(** ** Big-endian byte strings *)

Fixpoint be_val (l : list Z) : Z :=
  match l with
  | [] => 0
  | b :: l => b * 256 ^ zlen l + be_val l
  end.

Fixpoint be_bytes (n : nat) (v : Z) : list Z :=
  match n with
  | O => []
  | S n => (v / 256 ^ Z.of_nat n) mod 256 :: be_bytes n v
  end.

Lemma length_be_bytes n v : length (be_bytes n v) = n.
Proof. induction n; simpl; auto. Qed.
Lemma zlen_be_bytes n v : zlen (be_bytes n v) = Z.of_nat n.
Proof. unfold zlen. by rewrite length_be_bytes. Qed.

Lemma be_bytes_ok n v : bytes_ok (be_bytes n v).
Proof.
  induction n; simpl; constructor; auto. apply Z.mod_pos_bound. lia.
Qed.

Lemma be_val_range l : bytes_ok l -> 0 <= be_val l < 256 ^ zlen l.
Proof.
  induction 1 as [| b l Hb Hl IH]; simpl; [unfold zlen; simpl; lia |].
  rewrite zlen_cons, Z.pow_add_r by (pose proof (zlen_nonneg l); lia). nia.
Qed.

Lemma be_val_be_bytes n v : be_val (be_bytes n v) = v mod 256 ^ Z.of_nat n.
Proof.
  induction n as [| n IH]; simpl; [by rewrite Z.mod_1_r |].
  rewrite IH, zlen_be_bytes.
  replace (Z.of_nat (S n)) with (Z.of_nat n + 1) by lia.
  rewrite Z.pow_add_r, Z.pow_1_r by lia.
  rewrite Z.rem_mul_r by (try apply Z.pow_nonzero; lia). lia.
Qed.

Lemma be_val_be_bytes_small n v :
  0 <= v < 256 ^ Z.of_nat n -> be_val (be_bytes n v) = v.
Proof. intros. rewrite be_val_be_bytes. by apply Z.mod_small. Qed.

Lemma be_val_bytes_inj l k : bytes_ok l -> bytes_ok k -> length l = length k ->
  be_val l = be_val k -> l = k.
Proof.
  intros Hl. revert k. induction Hl as [| b l Hb Hl IH]; intros [| c k] Hk Hlen Hv; try done.
  apply Forall_cons_iff in Hk as [Hc Hk]. injection Hlen as Hlen. simpl in Hv.
  assert (zlen l = zlen k) as Hz by (unfold zlen; lia). rewrite Hz in Hv.
  pose proof (be_val_range l Hl) as Hl'. pose proof (be_val_range k Hk) as Hk'. rewrite Hz in Hl'.
  assert (b = c) as -> by nia. f_equal. apply IH; [done.. |]. lia.
Qed.

Lemma be_bytes_be_val l : bytes_ok l -> be_bytes (length l) (be_val l) = l.
Proof.
  intros Hl. apply be_val_bytes_inj; [apply be_bytes_ok | done | apply length_be_bytes |].
  apply be_val_be_bytes_small. apply (be_val_range l Hl).
Qed.

Lemma be_val_snoc l b : be_val (l ++ [b]) = be_val l * 256 + b.
Proof.
  induction l as [| c l IH]; simpl; [unfold zlen; simpl; lia |].
  rewrite IH, zlen_app, zlen_cons, zlen_nil.
  rewrite Z.pow_add_r by (pose proof (zlen_nonneg l); lia). lia.
Qed.

(** The same integers, least significant byte first. *)
Definition le_bytes (n : nat) (v : Z) : list Z := reverse (be_bytes n v).
Definition le_val (l : list Z) : Z := be_val (reverse l).

Lemma zlen_le_bytes n v : zlen (le_bytes n v) = Z.of_nat n.
Proof. unfold le_bytes, zlen. by rewrite length_reverse, length_be_bytes. Qed.

Lemma le_val_le_bytes n v : 0 <= v < 256 ^ Z.of_nat n -> le_val (le_bytes n v) = v.
Proof. intros Hv. unfold le_val, le_bytes. rewrite reverse_involutive. by apply be_val_be_bytes_small. Qed.

Lemma le_val_range l : bytes_ok l -> 0 <= le_val l < 256 ^ zlen l.
Proof.
  intros Hl. unfold le_val. replace (zlen l) with (zlen (reverse l)) by (unfold zlen; by rewrite length_reverse).
  apply be_val_range. by apply Forall_reverse.
Qed.

Definition zeros (n : Z) : list Z := replicate (Z.to_nat n) 0.

Lemma zlen_zeros n : 0 <= n -> zlen (zeros n) = n.
Proof. intros. unfold zeros, zlen. rewrite length_replicate. lia. Qed.

(** The C loop that collects [n] bytes, most significant first. *)
Fixpoint read_be {E} (n : nat) (buf : list Z) (pos acc : Z) : outcome E Z :=
  match n with
  | O => Done acc
  | S n => let! b := rd buf pos in read_be n buf (pos + 1) (acc ||| (b <<< (Z.of_nat n * 8)))
  end.

Lemma read_be_spec {E} l : forall pre post acc, bytes_ok l -> acc mod 256 ^ zlen l = 0 ->
  @read_be E (length l) (pre ++ l ++ post) (zlen pre) acc = Done (acc + be_val l).
Proof.
  induction l as [| b l IH]; intros pre post acc Hok Hacc; simpl; [f_equal; lia |].
  apply Forall_cons_iff in Hok as [Hb Hok]. pose proof (zlen_nonneg l).
  rewrite zlen_cons, Z.pow_add_r, Z.pow_1_r in Hacc by lia.
  assert (256 ^ zlen l = 2 ^ (zlen l * 8)) as Hp
    by (rewrite Z.mul_comm, Z.pow_mul_r by lia; done).
  assert (0 < 256 ^ zlen l) by (apply Z.pow_pos_nonneg; lia).
  rewrite <- (Z.add_0_r (zlen pre)) at 1. rewrite rd_app_r by lia. rewrite rd_at0. cbn [obind].
  replace (pre ++ b :: l ++ post) with ((pre ++ [b]) ++ l ++ post) by (by rewrite <- app_assoc).
  replace (zlen pre + 1) with (zlen (pre ++ [b])) by (by rewrite zlen_app).
  change (Z.of_nat (length l)) with (zlen l). rewrite Z.shiftl_mul_pow2, <- Hp by lia.
  rewrite (lor_disjoint acc _ (zlen l * 8 + 8)).
  - rewrite IH; [f_equal; lia | done |].
    apply Z.mod_divide in Hacc as [q ->]; [| lia].
    replace (q * (256 * 256 ^ zlen l) + b * 256 ^ zlen l) with ((q * 256 + b) * 256 ^ zlen l) by lia.
    apply Z.mod_mul. lia.
  - lia.
  - rewrite Z.pow_add_r, <- Hp by lia. by rewrite Z.mul_comm.
  - rewrite Z.pow_add_r, <- Hp by lia. nia.
Qed.

(** ** Field assignment

    [r <| f := v |>] is the C assignment [r.f = v;].  A record type provides
    its eta-expansion as an instance of [Eta]; the update of one of its fields
    is the eta-expansion with that projection replaced. *)

Class Eta (R : Type) := eta_expand : R -> R.
Class Assign {R T : Type} (f : R -> T) := assign_with : (T -> T) -> R -> R.

Ltac solve_assign :=
  match goal with
  | |- @Assign ?R ?T ?f =>
      let inst := constr:(_ : Eta R) in
      let body := eval red in inst in
      match eval pattern f in body with
      | ?upd _ => let fn := eval cbv beta in (fun (g : T -> T) => upd (fun r => g (f r))) in exact fn
      end
  end.
#[export] Hint Extern 1 (Assign _) => solve_assign : typeclass_instances.

Notation "r <| f := v |>" := (assign_with (f := f) (fun _ => v) r)
  (at level 12, left associativity, format "r  '<|' f  ':='  v '|>'").

(** ** Indexed reads of byte strings *)

Definition zget {A} (l : list A) (i : Z) : option A := l !! Z.to_nat i.

Lemma zget_Some {A} (l : list A) i : 0 <= i < zlen l -> exists x, zget l i = Some x.
Proof. intros. apply lookup_lt_is_Some_2. unfold zlen in *. lia. Qed.
Lemma zget_None {A} (l : list A) i : zlen l <= i -> zget l i = None.
Proof. intros. apply lookup_ge_None_2. unfold zlen in *. lia. Qed.
Lemma zget_app {A} (l k : list A) i : 0 <= i ->
  zget (l ++ k) i = if i <? zlen l then zget l i else zget k (i - zlen l).
Proof.
  intros. unfold zget, zlen. destruct (Z.ltb_spec i (Z.of_nat (length l))).
  - apply lookup_app_l. lia.
  - rewrite lookup_app_r by lia. f_equal. lia.
Qed.
Lemma zget_ztake {A} (l : list A) n i : 0 <= i < n -> zget (ztake n l) i = zget l i.
Proof. intros. unfold zget, ztake. apply lookup_take_lt. lia. Qed.
Lemma zget_zdrop {A} (l : list A) n i : 0 <= n -> 0 <= i -> zget (zdrop n l) i = zget l (n + i).
Proof. intros. unfold zget, zdrop. rewrite lookup_drop. f_equal. lia. Qed.

Lemma zget_splice buf p bs j : 0 <= p -> p + zlen bs <= zlen buf -> 0 <= j ->
  zget (splice buf p bs) j =
    if (p <=? j) && (j <? p + zlen bs) then zget bs (j - p) else zget buf j.
Proof.
  intros Hp Hlen Hj. pose proof (zlen_nonneg bs). unfold splice.
  rewrite zget_app, zlen_ztake by lia. destruct (Z.ltb_spec j p).
  - rewrite (proj2 (Z.leb_gt _ _)), zget_ztake by lia. done.
  - rewrite (proj2 (Z.leb_le _ _)), zget_app by lia. simpl.
    destruct (Z.ltb_spec (j - p) (zlen bs)).
    + by rewrite (proj2 (Z.ltb_lt _ _)) by lia.
    + rewrite (proj2 (Z.ltb_ge _ _)), zget_zdrop by lia. f_equal. lia.
Qed.

(** Extensionality of byte strings. *)
Lemma zget_ext {A} (l k : list A) : zlen l = zlen k ->
  (forall i, 0 <= i < zlen l -> zget l i = zget k i) -> l = k.
Proof.
  intros Hlen H. apply list_eq. intros i. destruct (decide (i < length l)%nat).
  - specialize (H (Z.of_nat i)). unfold zget, zlen in *. rewrite Nat2Z.id in H. apply H. lia.
  - rewrite !lookup_ge_None_2; [done | unfold zlen in *; lia..].
Qed.

(** ** Rounding up to a power of two

    [x | x >> m] copies the leading run of ones; a run that covers the number
    makes it one less than a power of two. *)

Definition leading (L m x : Z) : Prop :=
  0 <= x < 2 ^ (L + 1) /\ forall i, 0 <= i <= L -> L - m < i -> Z.testbit x i = true.

Lemma leading_double L m x : 0 <= L -> 0 < m -> leading L m x -> leading L (2 * m) (x ||| (x >>> m)).
Proof.
  intros HL Hm [Hx Hl]. split.
  - assert (0 <= x >>> m <= x) as Hs.
    { rewrite Z.shiftr_div_pow2 by lia. split; [apply Z.div_pos; lia |].
      apply Z.div_le_upper_bound; [lia |]. nia. }
    split; [apply Z.lor_nonneg; lia |].
    destruct (Z.eq_dec (x ||| (x >>> m)) 0) as [-> | Hne]; [lia |].
    apply Z.log2_lt_pow2; [pose proof (proj2 (Z.lor_nonneg x (x >>> m)) ltac:(lia)); lia |].
    rewrite Z.log2_lor by lia. pose proof (Z.log2_le_mono (x >>> m) x ltac:(lia)).
    destruct (Z.eq_dec x 0) as [-> | Hx0].
    + rewrite Z.shiftr_0_l. simpl. lia.
    + assert (Z.log2 x < L + 1) by (apply Z.log2_lt_pow2; lia). lia.
  - intros i Hi Hlm. rewrite Z.lor_spec, Z.shiftr_spec by lia.
    destruct (Z.le_gt_cases (i + m) L) as [Hle | Hgt].
    + rewrite (Hl (i + m)) by lia. apply orb_true_r.
    + rewrite (Hl i) by lia. done.
Qed.

Lemma leading_log2 x : 0 < x -> leading (Z.log2 x) 1 x.
Proof.
  intros Hx. split.
  - pose proof (Z.log2_spec x Hx). replace (Z.log2 x + 1) with (Z.succ (Z.log2 x)) by lia. lia.
  - intros i Hi Hl. replace i with (Z.log2 x) by lia. by apply Z.bit_log2.
Qed.

Lemma leading_full L m x : 0 <= L -> L < m -> leading L m x -> x = 2 ^ (L + 1) - 1.
Proof.
  intros HL Hm [Hx Hl]. rewrite <- (Z.mod_small x (2 ^ (L + 1))) by lia.
  rewrite <- Z.land_ones by lia. transitivity (Z.ones (L + 1)); [| rewrite Z.ones_equiv; lia].
  apply Z.bits_inj_iff'. intros i Hi. rewrite Z.land_spec.
  destruct (Z.lt_ge_cases i (L + 1)).
  - rewrite Z.ones_spec_low, Hl by lia. done.
  - rewrite Z.ones_spec_high by lia. apply andb_false_r.
Qed.
