(* ===== verification/CString.v ===== *)
(** * C strings (the functions of <string.h>, <stdlib.h> and <stdio.h> that the transports use)

    Memory is a list of bytes from the pointer on.  A string ends at its first
    zero byte; reading past the end of the memory is undefined behaviour. *)

From stdpp Require Import strings.
From S2P Require Import Prelude.

(** A string literal. *)
Definition ascii (s : string) : list Z :=
  (fun a => Z.of_nat (Ascii.nat_of_ascii a)) <$> String.list_ascii_of_string s.

(** The string at the front of the memory. *)
Fixpoint cstr {E} (mem : list Z) : outcome E (list Z) :=
  match mem with
  | [] => Ub
  | b :: mem => if b =? 0 then Done [] else let! s := cstr mem in Done (b :: s)
  end.

(** [strncmp(mem, l, strlen(l)) == 0] *)
Fixpoint strncmp_eq {E} (mem l : list Z) {struct l} : outcome E bool :=
  match l with
  | [] => Done true
  | c :: l =>
      match mem with
      | [] => Ub
      | b :: mem => if b =? c then strncmp_eq mem l else Done false
      end
  end.

Fixpoint is_prefix (p s : list Z) : bool :=
  match p, s with
  | [], _ => true
  | a :: p, b :: s => (a =? b) && is_prefix p s
  | _ :: _, [] => false
  end.

(** The offset of the first occurrence of [p] in [s]. *)
Fixpoint find (p s : list Z) : option Z :=
  if is_prefix p s then Some 0 else
  match s with
  | [] => None
  | _ :: s => (fun i => i + 1) <$> find p s
  end.

Definition strstr {E} (mem p : list Z) : outcome E (option Z) := let! s := cstr mem in Done (find p s).
Definition strchr {E} (mem : list Z) (c : Z) : outcome E (option Z) := strstr mem [c].
Definition strlen {E} (mem : list Z) : outcome E Z := let! s := cstr mem in Done (zlen s).

(** The offset of the last occurrence of a character. *)
Fixpoint find_last (c : Z) (s : list Z) : option Z :=
  match s with
  | [] => None
  | b :: s =>
      match find_last c s with
      | Some i => Some (i + 1)
      | None => if b =? c then Some 0 else None
      end
  end.
Definition strrchr {E} (mem : list Z) (c : Z) : outcome E (option Z) := let! s := cstr mem in Done (find_last c s).

(** [snprintf] of a string that is already composed: what it returns and the bytes
    it stores in a buffer of [cap] bytes. *)
Definition snprintf (s : list Z) (cap : Z) : Z * list Z :=
  (zlen s, if cap =? 0 then [] else ztake (cap - 1) s ++ [0]).

(** [atoi]: white space, a sign and digits; a value outside [int] is undefined. *)
Definition is_digit (c : Z) : bool := (48 <=? c) && (c <=? 57).
Definition is_space (c : Z) : bool := (c =? 32) || ((9 <=? c) && (c <=? 13)).

Fixpoint digits (s : list Z) (acc : Z) : Z :=
  match s with
  | c :: s => if is_digit c then digits s (acc * 10 + (c - 48)) else acc
  | [] => acc
  end.

Fixpoint skip_space (s : list Z) : list Z :=
  match s with
  | c :: s' => if is_space c then skip_space s' else s
  | [] => []
  end.

Definition atoi {E} (mem : list Z) : outcome E Z :=
  let! s := cstr mem in
  let v := match skip_space s with
           | c :: s => if c =? 45 then - digits s 0 else if c =? 43 then digits s 0 else digits (c :: s) 0
           | [] => 0
           end in
  if (- 2 ^ 31 <=? v) && (v <? 2 ^ 31) then Done v else Ub.

(** [%u] *)
Fixpoint dec_loop (fuel : nat) (v : Z) (acc : list Z) : list Z :=
  match fuel with
  | O => acc
  | S fuel => let acc := (48 + v mod 10) :: acc in if v / 10 =? 0 then acc else dec_loop fuel (v / 10) acc
  end.
Definition decimal (v : Z) : list Z := dec_loop 20 v [].

(** ** Strings without a zero byte *)

(** A property of every byte of a literal. *)
Ltac str_lit := vm_compute; repeat constructor; discriminate.

Definition str_ok (s : list Z) : Prop := Forall (fun b => b <> 0) s.

Lemma cstr_app {E} s rest : str_ok s -> @cstr E (s ++ 0 :: rest) = Done s.
Proof.
  induction s as [| b s IH]; intros Hs; [done |]. apply Forall_cons_iff in Hs as [Hb Hs]. simpl.
  rewrite (proj2 (Z.eqb_neq b 0)), IH by done. done.
Qed.

Lemma strncmp_eq_app {E} l rest : @strncmp_eq E (l ++ rest) l = Done true.
Proof. induction l as [| b l IH]; [done |]. simpl. by rewrite Z.eqb_refl. Qed.

Lemma is_prefix_spec p s : is_prefix p s = true <-> exists r, s = p ++ r.
Proof.
  revert s. induction p as [| a p IH]; intros s; simpl; [split; [by exists s | done] |].
  destruct s as [| b s]; [split; [done | by intros [r ?]] |]. rewrite andb_true_iff, Z.eqb_eq, IH. split.
  - intros [-> [r ->]]. by exists r.
  - intros [r [= -> ->]]. split; [done | by exists r].
Qed.

Lemma find_unfold p s : find p s = if is_prefix p s then Some 0 else match s with [] => None | _ :: s => (fun i => i + 1) <$> find p s end.
Proof. by destruct s. Qed.

(** A pattern that is there is found. *)
Lemma find_some p a b : exists i, find p (a ++ p ++ b) = Some i /\ 0 <= i <= zlen a.
Proof.
  induction a as [| x a (i & Hi & Hr)].
  - exists 0. rewrite find_unfold. simpl app. rewrite (proj2 (is_prefix_spec p (p ++ b))) by by exists b. done.
  - rewrite find_unfold. destruct (is_prefix p ((x :: a) ++ p ++ b)).
    + exists 0. rewrite zlen_cons. split; [done | lia].
    + exists (i + 1). cbn [app]. rewrite Hi. split; [done |]. rewrite zlen_cons. lia.
Qed.

(** What is found is there. *)
Lemma find_sound p s i : find p s = Some i -> exists a b, s = a ++ p ++ b /\ zlen a = i.
Proof.
  revert i. induction s as [| x s IH]; intros i; rewrite find_unfold; destruct (is_prefix p _) eqn:Hp; intros Hf; simplify_eq.
  - apply is_prefix_spec in Hp as [r Hr]. by exists [], r.
  - apply is_prefix_spec in Hp as [r Hr]. by exists [], r.
  - destruct (find p s) as [j |] eqn:Hj; [| done]. injection Hf as <-. destruct (IH j eq_refl) as (a & b & -> & <-).
    exists (x :: a), b. split; [done |]. by rewrite zlen_cons, Z.add_comm.
Qed.

(** Two characters in a row. *)
Fixpoint has_pair (x y : Z) (s : list Z) : bool :=
  match s with
  | a :: (b :: _) as s' => ((a =? x) && (b =? y)) || has_pair x y s'
  | _ => false
  end.

Lemma has_pair_app x y u w : has_pair x y (u ++ x :: y :: w) = true.
Proof.
  induction u as [| a u IH]; simpl; [by rewrite !Z.eqb_refl |]. destruct (u ++ x :: y :: w) eqn:Hu; [by destruct u |].
  by rewrite IH, orb_true_r.
Qed.

(** A pattern with a pair of characters that do not occur before is found where it
    was put. *)
Lemma find_pair x y u v a b : has_pair x y (a ++ u ++ [x]) = false ->
  find (u ++ x :: y :: v) (a ++ (u ++ x :: y :: v) ++ b) = Some (zlen a).
Proof.
  set (p := u ++ x :: y :: v). induction a as [| c a IH]; intros Hno.
  - rewrite find_unfold. simpl app. by rewrite (proj2 (is_prefix_spec p (p ++ b))) by by exists b.
  - rewrite find_unfold. destruct (is_prefix p ((c :: a) ++ p ++ b)) eqn:Hp.
    + exfalso. apply is_prefix_spec in Hp as [r Hr]. unfold p in Hr. rewrite <- !app_assoc in Hr.
      assert (take (length u + 2) ((c :: a) ++ u ++ [x]) = u ++ [x; y]) as Ht.
      { transitivity (take (length u + 2) (u ++ (x :: y :: v) ++ r)).
        - rewrite <- Hr.
          replace ((c :: a) ++ u ++ (x :: y :: v) ++ b) with (((c :: a) ++ u ++ [x]) ++ y :: v ++ b) by (rewrite <- !app_assoc; done).
          rewrite (take_app_le ((c :: a) ++ u ++ [x])); [done |]. rewrite !length_app. simpl. lia.
        - rewrite take_app_add. done. }
      rewrite <- (take_drop (length u + 2) ((c :: a) ++ u ++ [x])), Ht, <- app_assoc in Hno. simpl app in Hno.
      by rewrite has_pair_app in Hno.
    + cbn [app] in *. rewrite IH; [by rewrite zlen_cons, Z.add_comm |].
      simpl in Hno. destruct (a ++ u ++ [x]) eqn:He; [done |]. by apply orb_false_iff in Hno as [_ ?].
Qed.

Lemma has_pair_cons x y a s : has_pair x y (a :: s) = ((a =? x) && match s with b :: _ => b =? y | [] => false end) || has_pair x y s.
Proof. destruct s; simpl; [by rewrite andb_false_r | done]. Qed.

Lemma has_pair_join x y a b : match b with c :: _ => c <> y | [] => True end ->
  has_pair x y (a ++ b) = has_pair x y a || has_pair x y b.
Proof.
  intros Hb. induction a as [| c a IH]; [done |]. cbn [app]. rewrite !has_pair_cons, IH. destruct a as [| d a]; cbn [app].
  - rewrite andb_false_r. cbn [orb has_pair]. destruct b as [| d b]; [by rewrite andb_false_r |].
    by rewrite (proj2 (Z.eqb_neq d y)), andb_false_r.
  - by rewrite !orb_assoc.
Qed.

Lemma has_pair_absent x y s : Forall (fun c => c <> y) s -> has_pair x y s = false.
Proof.
  induction s as [| a s IH]; intros Hs; [done |]. apply Forall_cons_iff in Hs as [_ Hs]. rewrite has_pair_cons, IH by done.
  rewrite orb_false_r. destruct s as [| b s]; [by rewrite andb_false_r |]. apply Forall_cons_iff in Hs as [Hb _].
  by rewrite (proj2 (Z.eqb_neq b y)), andb_false_r.
Qed.

Lemma head_absent (y : Z) s : Forall (fun c => c <> y) s -> match s with c :: _ => c <> y | [] => True end.
Proof. by destruct 1. Qed.

(** The string is a prefix of the memory. *)
Lemma cstr_sound {E} mem s : @cstr E mem = Done s -> str_ok s /\ exists rest, mem = s ++ 0 :: rest.
Proof.
  revert s. induction mem as [| b mem IH]; intros s; [done |]. simpl. destruct (Z.eqb_spec b 0) as [-> | Hb].
  - intros [= <-]. split; [constructor | by exists mem].
  - destruct (cstr mem) as [s' | |]; cbn [obind]; [| done | done]. intros [= <-]. destruct (IH s' eq_refl) as (Hs & rest & ->).
    split; [by constructor | by exists rest].
Qed.

Lemma strncmp_eq_sound {E} mem l : @strncmp_eq E mem l = Done true -> exists rest, mem = l ++ rest.
Proof.
  revert mem. induction l as [| c l IH]; intros mem; [by exists mem |]. destruct mem as [| b mem]; [done |]. simpl.
  destruct (Z.eqb_spec b c) as [-> |]; [| done]. intros Hs. destruct (IH mem Hs) as [rest ->]. by exists rest.
Qed.
