(* ===== verification/Types.v ===== *)
(** * Core enumerations (src/include/nxp/nxp_types.h, nxp_error.h)

    The result codes and the enumerations shared by the components, with
    decidable equality. *)

From S2P Require Import Prelude.

(** The error codes; [NXP_OK] is the [Done] of an [outcome]. *)
Inductive nxp_error_code : Type :=
| NXP_ERR_INVALID_ARGUMENT
| NXP_ERR_OUT_OF_MEMORY
| NXP_ERR_BUFFER_TOO_SMALL
| NXP_ERR_WOULD_BLOCK
| NXP_ERR_CONNECTION_CLOSED
| NXP_ERR_STREAM_CLOSED
| NXP_ERR_FLOW_CONTROL
| NXP_ERR_CRYPTO_FAIL
| NXP_ERR_HANDSHAKE_FAIL
| NXP_ERR_INVALID_PACKET
| NXP_ERR_INVALID_FRAME
| NXP_ERR_IDLE_TIMEOUT
| NXP_ERR_VERSION_MISMATCH
| NXP_ERR_INTERNAL
| NXP_ERR_PLATFORM
| NXP_ERR_OVERFLOW
| NXP_ERR_REPLAY_DETECTED
| NXP_ERR_TOKEN_INVALID
| NXP_ERR_STREAM_LIMIT
| NXP_ERR_CONGESTION.

(** A routine that returns [nxp_result] and computes an [A]. *)
Definition nxp_result (A : Type) : Type := outcome nxp_error_code A.

Inductive nxp_stream_type : Type :=
| NXP_STREAM_RELIABLE | NXP_STREAM_FAST | NXP_STREAM_MEDIA | NXP_STREAM_FILE.

Inductive nxp_conn_state : Type :=
| NXP_CONN_IDLE
| NXP_CONN_HANDSHAKE_INITIAL
| NXP_CONN_HANDSHAKE_IN_PROGRESS
| NXP_CONN_ESTABLISHED
| NXP_CONN_CLOSING
| NXP_CONN_DRAINING
| NXP_CONN_CLOSED.

Inductive nxp_stream_state : Type :=
| NXP_STREAM_IDLE
| NXP_STREAM_OPEN
| NXP_STREAM_HALF_CLOSED_LOCAL
| NXP_STREAM_HALF_CLOSED_REMOTE
| NXP_STREAM_CLOSED
| NXP_STREAM_RESET.

Inductive nxp_crypto_level : Type :=
| NXP_CRYPTO_INITIAL | NXP_CRYPTO_HANDSHAKE | NXP_CRYPTO_APPLICATION.

Inductive nxp_packet_type : Type :=
| NXP_PKT_INITIAL | NXP_PKT_HANDSHAKE | NXP_PKT_RETRY | NXP_PKT_ZERO_RTT | NXP_PKT_SHORT.

#[global] Instance nxp_error_code_eq_dec : EqDecision nxp_error_code.
Proof. solve_decision. Defined.
#[global] Instance nxp_stream_type_eq_dec : EqDecision nxp_stream_type.
Proof. solve_decision. Defined.
#[global] Instance nxp_conn_state_eq_dec : EqDecision nxp_conn_state.
Proof. solve_decision. Defined.
#[global] Instance nxp_stream_state_eq_dec : EqDecision nxp_stream_state.
Proof. solve_decision. Defined.
#[global] Instance nxp_crypto_level_eq_dec : EqDecision nxp_crypto_level.
Proof. solve_decision. Defined.
#[global] Instance nxp_packet_type_eq_dec : EqDecision nxp_packet_type.
Proof. solve_decision. Defined.
