(* ===== verification/Varint.v ===== *)
(** * Variable-length integers (src/util/varint.h, varint.c)

    [nxp_varint_encode], [nxp_varint_decode] and [nxp_varint_len]: the
    two-bit-prefix encoding of RFC 9000 section 16.  The wire image of a value
    is [varint_bytes]; the encoder writes exactly that image and the decoder
    inverts it. *)

From S2P Require Import Prelude.

Definition NXP_VARINT_MAX : Z := 4611686018427387903.

Definition nxp_varint_len (value : Z) : Z :=
  if value <=? 63 then 1
  else if value <=? 16383 then 2
  else if value <=? 1073741823 then 4
  else if value <=? NXP_VARINT_MAX then 8
  else 0.

(** Returns the number of bytes written (0 on error) and the buffer. *)
Definition nxp_varint_encode (value : Z) (buf : list Z) : outcome unit (Z * list Z) :=
  let buf_len := zlen buf in
  if value <=? 63 then
    if buf_len <? 1 then Done (0, buf) else
    let! buf := wr buf 0 (u8 value) in
    Done (1, buf)
  else if value <=? 16383 then
    if buf_len <? 2 then Done (0, buf) else
    let! buf := wr buf 0 (u8 (0x40 ||| (value >>> 8))) in
    let! buf := wr buf 1 (u8 (value &&& 0xFF)) in
    Done (2, buf)
  else if value <=? 1073741823 then
    if buf_len <? 4 then Done (0, buf) else
    let! buf := wr buf 0 (u8 (0x80 ||| (value >>> 24))) in
    let! buf := wr buf 1 (u8 ((value >>> 16) &&& 0xFF)) in
    let! buf := wr buf 2 (u8 ((value >>> 8) &&& 0xFF)) in
    let! buf := wr buf 3 (u8 (value &&& 0xFF)) in
    Done (4, buf)
  else if value <=? NXP_VARINT_MAX then
    if buf_len <? 8 then Done (0, buf) else
    let! buf := wr buf 0 (u8 (0xC0 ||| (value >>> 56))) in
    let! buf := wr buf 1 (u8 ((value >>> 48) &&& 0xFF)) in
    let! buf := wr buf 2 (u8 ((value >>> 40) &&& 0xFF)) in
    let! buf := wr buf 3 (u8 ((value >>> 32) &&& 0xFF)) in
    let! buf := wr buf 4 (u8 ((value >>> 24) &&& 0xFF)) in
    let! buf := wr buf 5 (u8 ((value >>> 16) &&& 0xFF)) in
    let! buf := wr buf 6 (u8 ((value >>> 8) &&& 0xFF)) in
    let! buf := wr buf 7 (u8 (value &&& 0xFF)) in
    Done (8, buf)
  else Done (0, buf).

(** Returns the number of bytes consumed and the value written to [*out];
    [Err] is the return value 0, which leaves [*out] alone. *)
Definition nxp_varint_decode (buf : list Z) : outcome unit (Z * Z) :=
  let buf_len := zlen buf in
  if buf_len =? 0 then Err tt else
  let! b0 := rd buf 0 in
  let prefix := b0 >>> 6 in
  if prefix =? 0 then
    Done (1, b0 &&& 0x3F)
  else if prefix =? 1 then
    if buf_len <? 2 then Err tt else
    let! b1 := rd buf 1 in
    Done (2, ((b0 &&& 0x3F) <<< 8) ||| b1)
  else if prefix =? 2 then
    if buf_len <? 4 then Err tt else
    let! b1 := rd buf 1 in
    let! b2 := rd buf 2 in
    let! b3 := rd buf 3 in
    Done (4, ((b0 &&& 0x3F) <<< 24) ||| (b1 <<< 16) ||| (b2 <<< 8) ||| b3)
  else if prefix =? 3 then
    if buf_len <? 8 then Err tt else
    let! b1 := rd buf 1 in
    let! b2 := rd buf 2 in
    let! b3 := rd buf 3 in
    let! b4 := rd buf 4 in
    let! b5 := rd buf 5 in
    let! b6 := rd buf 6 in
    let! b7 := rd buf 7 in
    Done (8, ((b0 &&& 0x3F) <<< 56) ||| (b1 <<< 48) ||| (b2 <<< 40) ||| (b3 <<< 32)
             ||| (b4 <<< 24) ||| (b5 <<< 16) ||| (b6 <<< 8) ||| b7)
  else Err tt.

(** ** The wire image *)

Definition varint_bytes (v : Z) : list Z :=
  if v <=? 63 then be_bytes 1 v
  else if v <=? 16383 then be_bytes 2 (1 * 2 ^ 14 + v)
  else if v <=? 1073741823 then be_bytes 4 (2 * 2 ^ 30 + v)
  else be_bytes 8 (3 * 2 ^ 62 + v).

Definition varint_ok (v : Z) : Prop := 0 <= v <= NXP_VARINT_MAX.

Lemma zlen_varint_bytes v : varint_ok v -> zlen (varint_bytes v) = nxp_varint_len v.
Proof.
  unfold varint_ok, varint_bytes, nxp_varint_len, NXP_VARINT_MAX. intros.
  zcase; rewrite ?zlen_be_bytes; lia.
Qed.

Lemma varint_len_cases v : varint_ok v ->
  nxp_varint_len v = 1 \/ nxp_varint_len v = 2 \/
  nxp_varint_len v = 4 \/ nxp_varint_len v = 8.
Proof.
  unfold varint_ok, nxp_varint_len, NXP_VARINT_MAX. intros. zcase; lia.
Qed.

Lemma varint_bytes_ok v : bytes_ok (varint_bytes v).
Proof. unfold varint_bytes. zcase; apply be_bytes_ok. Qed.

(** A store one past an already written prefix extends it. *)
Lemma wr_prefix buf bs i v :
  i = zlen bs -> zlen bs < zlen buf ->
  @wr unit (splice buf 0 bs) i v = Done (splice buf 0 (bs ++ [v])).
Proof.
  intros -> ?. pose proof (zlen_nonneg bs).
  rewrite wr_splice by (rewrite zlen_splice; lia).
  rewrite <- (splice_splice buf 0 bs [v]) by lenlia.
  done.
Qed.

Lemma wr_first buf v : 0 < zlen buf -> @wr unit buf 0 v = Done (splice buf 0 [v]).
Proof. intros. apply wr_splice. lia. Qed.

Ltac bits_to_arith :=
  repeat first
    [ rewrite Z.shiftr_div_pow2 by lia | rewrite land_255 | rewrite land_63
    | rewrite Z.shiftl_mul_pow2 by lia ].

Ltac wr_chain :=
  rewrite wr_first by lia; cbn [obind];
  repeat (rewrite wr_prefix by lenlia;
          cbn [obind app]).

Ltac be_bytes_eq :=
  cbn [be_bytes];
  repeat match goal with
    | |- _ :: _ = _ :: _ => f_equal
    | |- [] = [] => reflexivity
    | |- context [256 ^ Z.of_nat ?n] =>
        let c := eval vm_compute in (256 ^ Z.of_nat n) in
        change (256 ^ Z.of_nat n) with c
    end;
  unfold u8; bits_to_arith.

Lemma varint_encode_spec v buf : varint_ok v ->
  nxp_varint_encode v buf =
    if zlen buf <? nxp_varint_len v then Done (0, buf)
    else Done (nxp_varint_len v, splice buf 0 (varint_bytes v)).
Proof.
  unfold varint_ok, nxp_varint_encode, nxp_varint_len, varint_bytes, NXP_VARINT_MAX.
  intros Hv.
  destruct (Z.leb_spec v 63); [| destruct (Z.leb_spec v 16383);
    [| destruct (Z.leb_spec v 1073741823); [| destruct (Z.leb_spec v 4611686018427387903); [| lia]]]].
  all: match goal with |- context [?b <? ?n] => destruct (Z.ltb_spec b n) end;
    [done |].
  all: wr_chain; do 3 f_equal; be_bytes_eq.
  all: try zlia.
  all: rewrite (lor_disjoint _ _ 6) by zlia; zlia.
Qed.

(** ** Decoding *)

(** The shift-and-or chains of the decoder are big-endian values. *)
Lemma decode2_val b0 b1 : byte b0 -> byte b1 ->
  ((b0 &&& 0x3F) <<< 8) ||| b1 = b0 mod 64 * 2 ^ 8 + b1.
Proof. intros. bits_to_arith. rewrite (lor_disjoint _ _ 8) by zlia. done. Qed.

Lemma decode4_val b0 b1 b2 b3 : byte b0 -> byte b1 -> byte b2 -> byte b3 ->
  ((b0 &&& 0x3F) <<< 24) ||| (b1 <<< 16) ||| (b2 <<< 8) ||| b3
  = b0 mod 64 * 2 ^ 24 + b1 * 2 ^ 16 + b2 * 2 ^ 8 + b3.
Proof.
  intros. bits_to_arith.
  rewrite (lor_disjoint _ (b1 * _) 24) by zlia.
  rewrite (lor_disjoint _ (b2 * _) 16) by zlia.
  rewrite (lor_disjoint _ b3 8) by zlia. done.
Qed.

Lemma decode8_val b0 b1 b2 b3 b4 b5 b6 b7 :
  byte b0 -> byte b1 -> byte b2 -> byte b3 -> byte b4 -> byte b5 -> byte b6 -> byte b7 ->
  ((b0 &&& 0x3F) <<< 56) ||| (b1 <<< 48) ||| (b2 <<< 40) ||| (b3 <<< 32)
    ||| (b4 <<< 24) ||| (b5 <<< 16) ||| (b6 <<< 8) ||| b7
  = b0 mod 64 * 2 ^ 56 + b1 * 2 ^ 48 + b2 * 2 ^ 40 + b3 * 2 ^ 32
    + b4 * 2 ^ 24 + b5 * 2 ^ 16 + b6 * 2 ^ 8 + b7.
Proof.
  intros. bits_to_arith.
  rewrite (lor_disjoint _ (b1 * _) 56) by zlia.
  rewrite (lor_disjoint _ (b2 * _) 48) by zlia.
  rewrite (lor_disjoint _ (b3 * _) 40) by zlia.
  rewrite (lor_disjoint _ (b4 * _) 32) by zlia.
  rewrite (lor_disjoint _ (b5 * _) 24) by zlia.
  rewrite (lor_disjoint _ (b6 * _) 16) by zlia.
  rewrite (lor_disjoint _ b7 8) by zlia. done.
Qed.

Lemma zlen_ge_cons {A} (l : list A) n :
  1 + n <= zlen l -> 0 <= n -> exists x l', l = x :: l' /\ n <= zlen l'.
Proof.
  destruct l as [| x l]; [rewrite zlen_nil; lia |].
  rewrite zlen_cons. intros. exists x, l. split; [done | lia].
Qed.

(** Expose the first [n] bytes of a long enough buffer. *)
Ltac take_bytes l n :=
  lazymatch n with
  | O => idtac
  | S ?n =>
      let b := fresh "b" in let l' := fresh "l" in let Hl := fresh "Hl" in
      destruct (zlen_ge_cons l (Z.of_nat n)) as (b & l' & -> & Hl); [lia | lia |];
      take_bytes l' n
  end.

(** The decoder never reads out of bounds, and what it accepts is in range. *)
Lemma varint_decode_cases buf : bytes_ok buf ->
  nxp_varint_decode buf = Err tt \/
  exists n v, nxp_varint_decode buf = Done (n, v) /\ varint_ok v /\
    1 <= n <= zlen buf /\ (n = 1 \/ n = 2 \/ n = 4 \/ n = 8).
Proof.
  intros Hok. unfold nxp_varint_decode.
  destruct buf as [| b0 buf]; [left; reflexivity |].
  pose proof (zlen_nonneg buf).
  rewrite zlen_cons. destruct (Z.eqb_spec (1 + zlen buf) 0); [lia |].
  rewrite rd_at0. cbn [obind].
  apply bytes_ok_cons in Hok as [Hb0 Hok].
  assert (0 <= b0 >>> 6 < 4) as Hp by (bits_to_arith; zlia).
  unfold varint_ok, NXP_VARINT_MAX.
  repeat case_match; try (left; reflexivity); right.
  all: rewrite ?Z.eqb_eq, ?Z.eqb_neq, ?Z.ltb_ge in *; try lia.
  - exists 1, (b0 &&& 63). rewrite land_63. split; [done |]. zlia.
  - take_bytes buf 1%nat. apply bytes_ok_cons in Hok as [Hb1 Hok].
    eexists 2, _. split; [reflexivity |]. rewrite decode2_val by done. zlia.
  - take_bytes buf 3%nat. rewrite !bytes_ok_cons in Hok. destruct_and!.
    eexists 4, _. split; [reflexivity |]. rewrite decode4_val by done. zlia.
  - take_bytes buf 7%nat. rewrite !bytes_ok_cons in Hok. destruct_and!.
    eexists 8, _. split; [reflexivity |]. rewrite decode8_val by done. zlia.
Qed.

Ltac be_consts :=
  repeat match goal with
    | |- context [256 ^ Z.of_nat ?n] =>
        let c := eval vm_compute in (256 ^ Z.of_nat n) in
        change (256 ^ Z.of_nat n) with c
    end.

Ltac decode_case k :=
  cbn [be_bytes app]; be_consts; unfold nxp_varint_decode; rewrite !zlen_cons;
  match goal with |- context [zlen ?r] => pose proof (zlen_nonneg r) end;
  rewrite rd_at0; cbn [obind];
  rewrite Z.shiftr_div_pow2 by lia;
  rewrite (proj2 (Z.eqb_neq _ 0)) by lia;
  match goal with |- context [?p / 2 ^ 6] =>
    replace (p / 2 ^ 6) with k by zlia end;
  cbn [Z.eqb Pos.eqb]; rewrite ?(proj2 (Z.ltb_ge _ _)) by lia; cbn [obind].

Lemma varint_decode_bytes v rest : varint_ok v ->
  nxp_varint_decode (varint_bytes v ++ rest) = Done (nxp_varint_len v, v).
Proof.
  unfold varint_ok, NXP_VARINT_MAX, varint_bytes, nxp_varint_len. intros Hv.
  unfold NXP_VARINT_MAX. zcase; try lia.
  - decode_case 0. rewrite land_63. do 2 f_equal. zlia.
  - decode_case 1. autorewrite with nxp_rd. cbn [obind].
    rewrite decode2_val by (apply Z.mod_pos_bound; lia). do 2 f_equal. zlia.
  - decode_case 2. autorewrite with nxp_rd. cbn [obind].
    rewrite decode4_val by (apply Z.mod_pos_bound; lia). do 2 f_equal. zlia.
  - decode_case 3. autorewrite with nxp_rd. cbn [obind].
    rewrite decode8_val by (apply Z.mod_pos_bound; lia). do 2 f_equal. zlia.
Qed.

(** ** Properties *)

(** a value of at most 62 bits written by [nxp_varint_encode] into a buffer
    with enough room is read back unchanged by [nxp_varint_decode], which
    consumes exactly the [nxp_varint_len] bytes the encoder produced; the bytes
    of the buffer past the encoding are left as they were. *)
Theorem varint_roundtrip v buf :
  0 <= v <= NXP_VARINT_MAX -> nxp_varint_len v <= zlen buf ->
  exists buf', nxp_varint_encode v buf = Done (nxp_varint_len v, buf') /\
    nxp_varint_decode buf' = Done (nxp_varint_len v, v) /\
    zdrop (nxp_varint_len v) buf' = zdrop (nxp_varint_len v) buf.
Proof.
  intros Hv Hlen. rewrite varint_encode_spec, (proj2 (Z.ltb_ge _ _)) by (done || lia).
  rewrite <- (zlen_varint_bytes v) in * by done.
  eexists. split; [reflexivity |]. rewrite splice_0.
  split; [by rewrite varint_decode_bytes, zlen_varint_bytes | apply zdrop_app].
Qed.

Lemma varint_roundtrip_witness :
  nxp_varint_encode 494878333 (replicate 6 7) = Done (4, [157; 127; 62; 125; 7; 7]) /\
  exists buf', nxp_varint_encode 494878333 (replicate 6 7) = Done (nxp_varint_len 494878333, buf') /\
    nxp_varint_decode buf' = Done (nxp_varint_len 494878333, 494878333) /\
    zdrop (nxp_varint_len 494878333) buf' = zdrop (nxp_varint_len 494878333) (replicate 6 7).
Proof.
  split; [reflexivity |].
  apply (varint_roundtrip 494878333 (replicate 6 7)); vm_compute; repeat split; discriminate.
Defined.

(** [nxp_varint_decode] is total on arbitrary input: it never reads past
    the buffer, and either returns 0 or a value below 2^62 for which it
    consumed 1, 2, 4 or 8 of the bytes that are there. *)
Theorem varint_decode_total buf :
  bytes_ok buf ->
  nxp_varint_decode buf = Err tt \/
  exists n v, nxp_varint_decode buf = Done (n, v) /\ 0 <= v <= NXP_VARINT_MAX /\
    n <= zlen buf /\ (n = 1 \/ n = 2 \/ n = 4 \/ n = 8).
Proof.
  intros Hok. destruct (varint_decode_cases buf Hok) as [H | (n & v & H & Hv & Hn & Hc)].
  - by left.
  - right. exists n, v. split_and!; (done || lia || apply Hv).
Qed.

Lemma varint_decode_total_witness :
  bytes_ok [192] /\
  (nxp_varint_decode [192] = Err tt \/
   exists n v, nxp_varint_decode [192] = Done (n, v) /\ 0 <= v <= NXP_VARINT_MAX /\
     n <= zlen [192] /\ (n = 1 \/ n = 2 \/ n = 4 \/ n = 8)).
Proof.
  assert (bytes_ok [192]) as H by (constructor; [lia | constructor]).
  split; [exact H | apply (varint_decode_total [192] H)].
Defined.
