(* ===== verification/Codec.v ===== *)
(** * Cursor-based encoding and decoding (helpers of src/core/frame.c)

    [encode_varint] and [decode_varint] are the two static helpers of frame.c.
    The C idiom [n = encode_varint(...); if (n == 0) return 0; pos += n;] is
    the sequencing of [writer]s, and its decoding counterpart the sequencing
    of [parser]s.  A writer has a wire image ([writes]), a parser recognises
    one ([parses]), and both are closed under sequencing. *)

From S2P Require Import Prelude Varint.

Definition encode_varint (val : Z) (buf : list Z) (pos : Z) : outcome unit (Z * list Z) :=
  if pos >=? zlen buf then Done (0, buf) else
  let! (n, sub) := nxp_varint_encode val (zdrop pos buf) in
  Done (n, ztake pos buf ++ sub).

Definition decode_varint (buf : list Z) (pos : Z) : outcome unit (Z * Z) :=
  if pos >=? zlen buf then Err tt else
  nxp_varint_decode (zdrop pos buf).

(** ** Writers *)

(** A writer continues with a new buffer and cursor, makes the encoder return
    0 (the buffer may already be modified), or leaves the buffer's memory. *)
Inductive wout : Type :=
| WOk (buf : list Z) (pos : Z)
| WZero (buf : list Z)
| WUb.

Definition writer : Type := list Z -> Z -> wout.

Definition wdone : writer := fun buf pos => WOk buf pos.

Definition wseq (w k : writer) : writer := fun buf pos =>
  match w buf pos with
  | WOk buf pos => k buf pos
  | o => o
  end.

Declare Scope writer_scope.
Delimit Scope writer_scope with W.
Notation "w ;; k" := (wseq w k) (at level 100, right associativity) : writer_scope.

(** The value an encoder returns, with the buffer it leaves. *)
Definition run_writer (w : writer) (buf : list Z) : outcome unit (Z * list Z) :=
  match w buf 0 with
  | WOk buf pos => Done (pos, buf)
  | WZero buf => Done (0, buf)
  | WUb => Ub
  end.

(** [n = encode_varint(val, buf, buf_len, pos); if (n == 0) return 0; pos += n;] *)
Definition put_varint (val : Z) : writer := fun buf pos =>
  match encode_varint val buf pos with
  | Done (n, buf) => if n =? 0 then WZero buf else WOk buf (pos + n)
  | _ => WUb
  end.

(** [buf[pos++] = b;], with no check. *)
Definition put_byte (b : Z) : writer := fun buf pos =>
  match @wr unit buf pos b with
  | Done buf => WOk buf (pos + 1)
  | _ => WUb
  end.

(** [if (cond) return 0;] on the cursor and the buffer length. *)
Definition wcheck (bad : Z -> Z -> bool) : writer := fun buf pos =>
  if bad pos (zlen buf) then WZero buf else WOk buf pos.

(** [memcpy(&buf[pos], src, n); pos += n;] *)
Definition put_mem (src : list Z) (n : Z) : writer := fun buf pos =>
  match @memcpy unit buf pos src n with
  | Done buf => WOk buf (pos + n)
  | _ => WUb
  end.

(** [if (p != nullptr) memcpy(&buf[pos], p, n); pos += n;]: with a null
    pointer the cursor moves over bytes that are not written. *)
Definition put_ptr (p : option (list Z)) (n : Z) : writer := fun buf pos =>
  match p with
  | Some src => put_mem src n buf pos
  | None => WOk buf (pos + n)
  end.

(** The contract of a writer: it advances the cursor inside the buffer. *)
Definition wsafe (w : writer) : Prop := forall buf pos,
  zlen buf < 2 ^ 63 -> 0 <= pos <= zlen buf ->
  match w buf pos with
  | WOk buf' pos' => zlen buf' = zlen buf /\ pos <= pos' <= zlen buf
  | WZero buf' => zlen buf' = zlen buf
  | WUb => False
  end.

(** The writer emits exactly [bs], or returns 0 when they do not fit. *)
Definition writes (w : writer) (bs : list Z) : Prop := forall buf pos,
  zlen buf < 2 ^ 63 -> 0 <= pos <= zlen buf ->
  if pos + zlen bs <=? zlen buf
  then w buf pos = WOk (splice buf pos bs) (pos + zlen bs)
  else exists buf', w buf pos = WZero buf' /\ zlen buf' = zlen buf.

Create HintDb nxp_codec.

Lemma wsafe_seq w k : wsafe w -> wsafe k -> wsafe (w ;; k)%W.
Proof.
  intros Hw Hk buf pos Hb Hp. specialize (Hw buf pos Hb Hp). unfold wseq.
  destruct (w buf pos) as [buf' pos' | buf' |]; [| done | done].
  destruct Hw as [Hl Hr]. specialize (Hk buf' pos').
  rewrite Hl in Hk. specialize (Hk Hb ltac:(lia)).
  destruct (k buf' pos'); [| done | done]. lia.
Qed.

Lemma wsafe_done : wsafe wdone.
Proof. intros buf pos ? ?. simpl. lia. Qed.

Lemma writes_seq w k a b : writes w a -> writes k b -> writes (w ;; k)%W (a ++ b).
Proof.
  intros Hw Hk buf pos Hb Hp. specialize (Hw buf pos Hb Hp). unfold wseq.
  pose proof (zlen_nonneg a). pose proof (zlen_nonneg b). rewrite zlen_app.
  destruct (Z.leb_spec (pos + zlen a) (zlen buf)) as [Hle | Hgt].
  - rewrite Hw. specialize (Hk (splice buf pos a) (pos + zlen a)).
    rewrite zlen_splice in Hk by lia. specialize (Hk Hb ltac:(lia)).
    replace (pos + (zlen a + zlen b)) with (pos + zlen a + zlen b) by lia.
    destruct (Z.leb_spec (pos + zlen a + zlen b) (zlen buf)); [| done].
    rewrite Hk, splice_splice by lia. done.
  - destruct Hw as (buf' & -> & Hl).
    destruct (Z.leb_spec (pos + (zlen a + zlen b)) (zlen buf)); [lia | eauto].
Qed.

Lemma writes_done : writes wdone [].
Proof.
  intros buf pos ? ?. rewrite zlen_nil, Z.add_0_r, splice_nil.
  by rewrite (proj2 (Z.leb_le _ _)) by lia.
Qed.

Lemma writes_app_nil w a : writes w a -> writes w (a ++ []).
Proof. by rewrite app_nil_r. Qed.

Lemma splice_zdrop buf pos bs : 0 <= pos <= zlen buf ->
  ztake pos buf ++ splice (zdrop pos buf) 0 bs = splice buf pos bs.
Proof.
  intros. pose proof (zlen_nonneg bs). unfold splice.
  rewrite zdrop_zdrop by lia. done.
Qed.

Lemma encode_varint_spec v buf pos : varint_ok v -> 0 <= pos <= zlen buf ->
  encode_varint v buf pos =
    if pos + zlen (varint_bytes v) <=? zlen buf
    then Done (zlen (varint_bytes v), splice buf pos (varint_bytes v))
    else Done (0, buf).
Proof.
  intros Hv Hp. unfold encode_varint. rewrite zlen_varint_bytes by done.
  destruct (varint_len_cases v Hv) as [H | [H | [H | H]]]; rewrite Z.geb_leb.
  all: destruct (Z.leb_spec (zlen buf) pos);
    [rewrite (proj2 (Z.leb_gt _ _)) by lia; done |].
  all: rewrite varint_encode_spec, zlen_zdrop by (done || lia).
  all: destruct (Z.ltb_spec (zlen buf - pos) (nxp_varint_len v)); cbn [obind].
  all: first [rewrite (proj2 (Z.leb_gt _ _)) by lia
             | rewrite (proj2 (Z.leb_le _ _)) by lia].
  all: rewrite ?ztake_zdrop, ?splice_zdrop by lia; done.
Qed.

Lemma varint_encode_too_large v buf : NXP_VARINT_MAX < v ->
  nxp_varint_encode v buf = Done (0, buf).
Proof.
  unfold nxp_varint_encode, NXP_VARINT_MAX. intros.
  by rewrite !(proj2 (Z.leb_gt _ _)) by lia.
Qed.

Lemma writes_varint v : varint_ok v -> writes (put_varint v) (varint_bytes v).
Proof.
  intros Hv buf pos ? ?. unfold put_varint.
  rewrite encode_varint_spec by (done || lia).
  pose proof (varint_len_cases v Hv). rewrite <- zlen_varint_bytes in * by done.
  destruct (Z.leb_spec (pos + zlen (varint_bytes v)) (zlen buf)).
  - rewrite (proj2 (Z.eqb_neq _ 0)) by lia. done.
  - simpl. eauto.
Qed.

(** A value that has no encoding makes the encoder return 0. *)
Lemma put_varint_too_large v buf pos : NXP_VARINT_MAX < v -> 0 <= pos <= zlen buf ->
  put_varint v buf pos = WZero buf.
Proof.
  intros. unfold put_varint, encode_varint.
  destruct (pos >=? zlen buf); [done |].
  rewrite varint_encode_too_large by done. simpl.
  by rewrite ztake_zdrop.
Qed.

Lemma wsafe_writes w bs : writes w bs -> wsafe w.
Proof.
  intros Hw buf pos Hb Hp. specialize (Hw buf pos Hb Hp).
  pose proof (zlen_nonneg bs).
  destruct (Z.leb_spec (pos + zlen bs) (zlen buf)).
  - rewrite Hw, zlen_splice; lia.
  - by destruct Hw as (buf' & -> & ?).
Qed.

Lemma wsafe_varint v : 0 <= v -> wsafe (put_varint v).
Proof.
  intros Hv. destruct (Z.le_gt_cases v NXP_VARINT_MAX).
  - eapply wsafe_writes, writes_varint. done.
  - intros buf pos ? ?. by rewrite put_varint_too_large.
Qed.

(** After a varint was written its value has an encoding. *)
Lemma wsafe_varint_then v k :
  (varint_ok v -> wsafe k) -> 0 <= v -> wsafe (put_varint v ;; k)%W.
Proof.
  intros Hk Hv. destruct (Z.le_gt_cases v NXP_VARINT_MAX).
  - apply wsafe_seq; [by apply wsafe_varint | apply Hk; done].
  - intros buf pos ? ?. unfold wseq. by rewrite put_varint_too_large.
Qed.

(** [if (pos + n > buf_len) return 0;] before [n] bytes are written. *)
Definition wroom (n : Z) : writer := wcheck (fun pos len => u64 (pos + n) >? len).

Lemma writes_room_mem src n : zlen src = n -> n < 2 ^ 63 ->
  writes (wroom n ;; put_mem src n)%W src.
Proof.
  intros Hn Hlt buf pos Hb Hp. pose proof (zlen_nonneg src).
  unfold wseq, wroom, wcheck, put_mem.
  rewrite Z.gtb_ltb, Hn, u64_small by lia.
  destruct (Z.leb_spec (pos + n) (zlen buf)).
  - rewrite (proj2 (Z.ltb_ge _ _)), memcpy_splice by lia.
    unfold ztake. rewrite take_ge by (unfold zlen in *; lia). done.
  - rewrite (proj2 (Z.ltb_lt _ _)) by lia. eauto.
Qed.

Lemma wsafe_room_mem src n : 0 <= n < 2 ^ 63 -> n <= zlen src ->
  wsafe (wroom n ;; put_mem src n)%W.
Proof.
  intros Hn Hsrc buf pos Hb Hp. unfold wseq, wroom, wcheck, put_mem.
  rewrite Z.gtb_ltb, u64_small by lia.
  destruct (Z.ltb_spec (zlen buf) (pos + n)); [done |].
  rewrite memcpy_splice by lia.
  rewrite zlen_splice by (rewrite ?zlen_ztake; lia). lia.
Qed.

Lemma wsafe_room_ptr p n : 0 <= n < 2 ^ 63 ->
  match p with Some src => n <= zlen src | None => True end ->
  wsafe (wroom n ;; put_ptr p n)%W.
Proof.
  intros Hn Hp. destruct p as [src |]; [by apply wsafe_room_mem |].
  intros buf pos Hb Hpos. unfold wseq, wroom, wcheck, put_ptr.
  rewrite Z.gtb_ltb, u64_small by lia.
  destruct (Z.ltb_spec (zlen buf) (pos + n)); [done | lia].
Qed.

Lemma writes_check_byte b bad :
  (forall pos len, 0 <= pos <= len -> len < 2 ^ 63 -> bad pos len = (len <=? pos)) ->
  writes (wcheck bad ;; put_byte b)%W [b].
Proof.
  intros Hbad buf pos Hb Hp. unfold wseq, wcheck, put_byte. rewrite Hbad by lia.
  change (zlen [b]) with 1. destruct (Z.leb_spec (pos + 1) (zlen buf)).
  - rewrite (proj2 (Z.leb_gt _ _)) by lia. by rewrite wr_splice by lia.
  - rewrite (proj2 (Z.leb_le _ _)) by lia. eauto.
Qed.

(** A writer that does not check for room emits [bs] when there is room. *)
Definition wfits (w : writer) (bs : list Z) : Prop := forall buf pos,
  0 <= pos -> pos + zlen bs <= zlen buf ->
  w buf pos = WOk (splice buf pos bs) (pos + zlen bs).

Lemma wfits_seq w k a b : wfits w a -> wfits k b -> wfits (w ;; k)%W (a ++ b).
Proof.
  intros Hw Hk buf pos Hpos Hlen. pose proof (zlen_nonneg a). pose proof (zlen_nonneg b).
  rewrite zlen_app in Hlen. unfold wseq. rewrite Hw by lia.
  rewrite Hk by (rewrite ?zlen_splice; lia). rewrite splice_splice, zlen_app by lia.
  f_equal. lia.
Qed.

Lemma wfits_done : wfits wdone [].
Proof. intros buf pos ? ?. unfold wdone. rewrite splice_nil. f_equal. lenlia. Qed.

Lemma wfits_byte b : wfits (put_byte b) [b].
Proof.
  intros buf pos ?. change (zlen [b]) with 1. intros. unfold put_byte.
  by rewrite wr_splice by lia.
Qed.

Lemma wfits_mem src n : 0 <= n <= zlen src -> wfits (put_mem src n) (ztake n src).
Proof.
  intros Hn buf pos Hpos Hlen. rewrite zlen_ztake in Hlen by done.
  unfold put_mem. rewrite memcpy_splice by lia. by rewrite zlen_ztake.
Qed.

Lemma writes_checked w bs bad : wfits w bs ->
  (forall pos len, 0 <= pos <= len -> len < 2 ^ 63 -> bad pos len = (len <? pos + zlen bs)) ->
  writes (wcheck bad ;; w)%W bs.
Proof.
  intros Hw Hbad buf pos Hb Hpos. unfold wseq, wcheck. rewrite Hbad by done.
  destruct (Z.ltb_spec (zlen buf) (pos + zlen bs)).
  - rewrite (proj2 (Z.leb_gt _ _)) by lia. eauto.
  - rewrite (proj2 (Z.leb_le _ _)) by lia. apply Hw; lia.
Qed.

Lemma run_writer_spec w bs buf : writes w bs -> zlen buf < 2 ^ 63 ->
  if zlen bs <=? zlen buf
  then run_writer w buf = Done (zlen bs, splice buf 0 bs)
  else exists buf', run_writer w buf = Done (0, buf') /\ zlen buf' = zlen buf.
Proof.
  intros Hw Hb. pose proof (zlen_nonneg buf).
  specialize (Hw buf 0 Hb ltac:(lia)). rewrite Z.add_0_l in Hw. unfold run_writer.
  destruct (zlen bs <=? zlen buf); [by rewrite Hw |].
  destruct Hw as (buf' & -> & ?). eauto.
Qed.

Lemma run_writer_safe w buf : wsafe w -> zlen buf < 2 ^ 63 ->
  exists n buf', run_writer w buf = Done (n, buf') /\
    0 <= n <= zlen buf /\ zlen buf' = zlen buf.
Proof.
  intros Hw Hb. pose proof (zlen_nonneg buf).
  specialize (Hw buf 0 Hb ltac:(lia)). unfold run_writer.
  destruct (w buf 0) as [buf' pos' | buf' |]; [| | done].
  - exists pos', buf'. split; [done | lia].
  - exists 0, buf'. split; [done | lia].
Qed.

(** ** Parsers *)

Definition parser (A : Type) : Type := list Z -> Z -> outcome unit (A * Z).

Definition pret {A} (a : A) : parser A := fun _ pos => Done (a, pos).
Definition pfail {A} : parser A := fun _ _ => Err tt.
Definition pbind {A B} (p : parser A) (k : A -> parser B) : parser B := fun buf pos =>
  let! (a, pos) := p buf pos in k a buf pos.

Declare Scope parser_scope.
Delimit Scope parser_scope with P.
Notation "x <- p ;; k" := (pbind p (fun x => k))
  (at level 100, p at next level, right associativity) : parser_scope.

(** [if (bad) return 0;] *)
Definition pcheck (bad : Z -> Z -> bool) : parser unit := fun buf pos =>
  if bad pos (zlen buf) then Err tt else Done (tt, pos).
Definition pguard (bad : bool) : parser unit := pcheck (fun _ _ => bad).

(** [n = decode_varint(buf, buf_len, pos, &x); if (n == 0) return 0; pos += n;] *)
Definition get_varint : parser Z := fun buf pos =>
  let! (n, v) := decode_varint buf pos in Done (v, pos + n).

(** [x = buf[pos++];] *)
Definition get_byte : parser Z := fun buf pos =>
  let! b := rd buf pos in Done (b, pos + 1).

(** [p = &buf[pos]; pos += n;]: the bytes the pointer designates. *)
Definition get_mem (n : Z) : parser (list Z) := fun buf pos =>
  let! l := sub_buf buf pos n in Done (l, pos + n).

(** [if (pos > buf_len || n > buf_len - pos) return 0;] *)
Definition proom (n : Z) : parser unit :=
  pcheck (fun pos len => (pos >? len) || (n >? u64 (len - pos))).

(** The parser stays inside the buffer and its results satisfy [Q]. *)
Definition psafe {A} (p : parser A) (Q : A -> Prop) : Prop := forall buf pos,
  bytes_ok buf -> zlen buf < 2 ^ 63 -> 0 <= pos <= zlen buf ->
  match p buf pos with
  | Done (a, pos') => Q a /\ pos <= pos' <= zlen buf
  | Err _ => True
  | Ub => False
  end.

(** The parser maps the byte string [bs], wherever it is, to [a]. *)
Definition parses {A} (p : parser A) (bs : list Z) (a : A) : Prop := forall pre post,
  zlen (pre ++ bs ++ post) < 2 ^ 63 ->
  p (pre ++ bs ++ post) (zlen pre) = Done (a, zlen pre + zlen bs).

Lemma psafe_bind {A B} (p : parser A) (k : A -> parser B) Q R :
  psafe p Q -> (forall a, Q a -> psafe (k a) R) -> psafe (pbind p k) R.
Proof.
  intros Hp Hk buf pos Hok Hb Hpos. specialize (Hp buf pos Hok Hb Hpos).
  unfold pbind. destruct (p buf pos) as [[a pos'] | |]; [| done | done]. cbn [obind].
  destruct Hp as [HQ Hr]. specialize (Hk a HQ buf pos' Hok Hb ltac:(lia)).
  destruct (k a buf pos') as [[b pos''] | |]; [| done | done]. split; [tauto | lia].
Qed.

Lemma psafe_ret {A} (a : A) (Q : A -> Prop) : Q a -> psafe (pret a) Q.
Proof. intros HQ buf pos ? ? ?. simpl. split; [done | lia]. Qed.

Lemma pbind_Done {A B} (p : parser A) (k : A -> parser B) buf pos r :
  pbind p k buf pos = Done r -> exists a pos', p buf pos = Done (a, pos') /\ k a buf pos' = Done r.
Proof.
  unfold pbind. destruct (p buf pos) as [[a pos'] | |]; simpl; [| done | done]. eauto.
Qed.

Lemma psafe_fail {A} (Q : A -> Prop) : psafe pfail Q.
Proof. intros buf pos ? ? ?. done. Qed.

Lemma psafe_weaken {A} (p : parser A) (Q R : A -> Prop) :
  psafe p Q -> (forall a, Q a -> R a) -> psafe p R.
Proof.
  intros Hp HQR buf pos Hok Hb Hpos. specialize (Hp buf pos Hok Hb Hpos).
  destruct (p buf pos) as [[a pos'] | |]; [| done | done]. intuition.
Qed.

Lemma psafe_guard bad : psafe (pguard bad) (fun _ => bad = false).
Proof. intros buf pos ? ? ?. unfold pguard, pcheck. destruct bad; [done |]. split; [done | lia]. Qed.

Lemma psafe_varint : psafe get_varint varint_ok.
Proof.
  intros buf pos Hok Hb Hpos. unfold get_varint, decode_varint.
  rewrite Z.geb_leb. destruct (Z.leb_spec (zlen buf) pos); [done |].
  destruct (varint_decode_cases (zdrop pos buf)) as [-> | (n & v & -> & Hv & Hn & _)];
    [by apply bytes_ok_drop | done |].
  rewrite zlen_zdrop in Hn by lia. simpl. split; [done | lia].
Qed.

(** A byte after [if (pos >= buf_len) return 0;]. *)
Lemma psafe_check_byte bad :
  (forall pos len, 0 <= pos <= len -> len < 2 ^ 63 -> bad pos len = (len <=? pos)) ->
  psafe (_ <- pcheck bad ;; get_byte)%P (fun b => byte b).
Proof.
  intros Hbad buf pos Hok Hb Hpos. unfold pbind, pcheck, get_byte.
  rewrite Hbad by lia. destruct (Z.leb_spec (zlen buf) pos); [done |]. cbn [obind].
  destruct (@rd_Done unit buf pos) as (b & Hrd & _); [lia |].
  rewrite Hrd. simpl. split; [by eapply rd_byte | lia].
Qed.

(** [n] bytes after a check that they are there. *)
Lemma psafe_check_mem n bad : 0 <= n ->
  (forall pos len, 0 <= pos <= len -> len < 2 ^ 63 -> bad pos len = (len <? pos + n)) ->
  psafe (_ <- pcheck bad ;; get_mem n)%P (fun l => zlen l = n /\ bytes_ok l).
Proof.
  intros Hn Hbad buf pos Hok Hb Hpos. unfold pbind, pcheck, get_mem.
  rewrite Hbad by lia. destruct (Z.ltb_spec (zlen buf) (pos + n)); [done |]. cbn [obind].
  rewrite sub_buf_Done by lia. simpl. repeat split; try lia.
  - rewrite zlen_ztake; [done |]. rewrite zlen_zdrop; lia.
  - by apply bytes_ok_take, bytes_ok_drop.
Qed.

Lemma proom_bad n pos len : 0 <= n -> 0 <= pos <= len -> len < 2 ^ 63 ->
  (pos >? len) || (n >? u64 (len - pos)) = (len <? pos + n).
Proof.
  intros. rewrite u64_small by lia. rewrite !Z.gtb_ltb.
  destruct (Z.ltb_spec len pos); [lia |]. simpl. zcase; lia.
Qed.

Lemma parses_bind {A B} (p : parser A) (k : A -> parser B) bs bs' a b :
  parses p bs a -> parses (k a) bs' b -> parses (pbind p k) (bs ++ bs') b.
Proof.
  intros Hp Hk pre post Hlen. unfold pbind.
  rewrite <- app_assoc in *. rewrite Hp by done. cbn [obind].
  rewrite <- zlen_app, app_assoc. rewrite Hk by (by rewrite <- app_assoc).
  do 2 f_equal. lenlia.
Qed.

Lemma parses_ret {A} (a : A) : parses (pret a) [] a.
Proof. intros pre post _. unfold pret. do 2 f_equal. lenlia. Qed.

Lemma parses_guard bad : bad = false -> parses (pguard bad) [] tt.
Proof.
  intros -> pre post _. unfold pguard, pcheck. do 2 f_equal. lenlia.
Qed.

Lemma parses_varint v : varint_ok v -> parses get_varint (varint_bytes v) v.
Proof.
  intros Hv pre post Hlen. unfold get_varint, decode_varint.
  pose proof (varint_len_cases v Hv) as Hc. rewrite <- zlen_varint_bytes in Hc by done.
  pose proof (zlen_nonneg post).
  rewrite Z.geb_leb, (proj2 (Z.leb_gt _ _)) by lenlia.
  rewrite zdrop_app, varint_decode_bytes by done. cbn [obind].
  by rewrite zlen_varint_bytes.
Qed.

Lemma parses_check_byte b bad :
  (forall pos len, 0 <= pos <= len -> len < 2 ^ 63 -> bad pos len = (len <=? pos)) ->
  parses (_ <- pcheck bad ;; get_byte)%P [b] b.
Proof.
  intros Hbad pre post Hlen. pose proof (zlen_nonneg pre). pose proof (zlen_nonneg post).
  unfold pbind, pcheck, get_byte. rewrite Hbad by (done || lenlia).
  rewrite (proj2 (Z.leb_gt _ _)) by lenlia. cbn [obind].
  replace (zlen pre) with (zlen pre + 0) at 1 by lia.
  rewrite rd_app_r by lia. done.
Qed.

Lemma parses_check_mem l n bad : zlen l = n ->
  (forall pos len, 0 <= pos <= len -> len < 2 ^ 63 -> bad pos len = (len <? pos + n)) ->
  parses (_ <- pcheck bad ;; get_mem n)%P l l.
Proof.
  intros Hn Hbad pre post Hlen. pose proof (zlen_nonneg pre). pose proof (zlen_nonneg post).
  pose proof (zlen_nonneg l).
  unfold pbind, pcheck, get_mem. rewrite Hbad by (done || lenlia).
  rewrite (proj2 (Z.ltb_ge _ _)) by lenlia. cbn [obind].
  rewrite sub_buf_app by done. cbn [obind]. by rewrite Hn.
Qed.

Lemma parses_eq {A} (p : parser A) bs bs' a : bs = bs' -> parses p bs' a -> parses p bs a.
Proof. by intros ->. Qed.

Lemma parses_at_0 {A} (p : parser A) bs a rest :
  parses p bs a -> zlen (bs ++ rest) < 2 ^ 63 -> p (bs ++ rest) 0 = Done (a, zlen bs).
Proof. intros Hp Hlen. apply (Hp [] rest Hlen). Qed.

#[export] Hint Resolve wsafe_done wsafe_varint writes_varint writes_done
  psafe_varint psafe_guard psafe_fail parses_varint : nxp_codec.
