(* ===== verification/Frame.v ===== *)
(** * The frame engine (src/core/frame_internal.h, frame.c)

    The tagged union [nxp_frame], one encoder per frame type and the decoder
    [nxp_frame_decode], whose switch is split into one parser per case. *)

From S2P Require Import Prelude Varint Codec.

(** ** Constants *)

Definition NXP_MAX_CID_LEN : Z := 20.
Definition NXP_MAX_TOKEN_LEN : Z := 1024.
Definition NXP_MAX_CLOSE_REASON_LEN : Z := 1024.
Definition NXP_MAX_CRYPTO_FRAME_DATA : Z := 16384.
Definition NXP_MAX_STREAM_FRAME_DATA : Z := 1048576.
Definition NXP_MAX_DATAGRAM_LEN : Z := 65536.
(** [1ULL << 60] *)
Definition NXP_MAX_STREAM_ID : Z := 1152921504606846976.
Definition NXP_MAX_STREAM_OFFSET : Z := 1152921504606846976.
Definition NXP_ACK_MAX_RANGES : Z := 64.

Definition NXP_FRAME_PADDING : Z := 0x00.
Definition NXP_FRAME_PING : Z := 0x01.
Definition NXP_FRAME_ACK : Z := 0x02.
Definition NXP_FRAME_ACK_ECN : Z := 0x03.
Definition NXP_FRAME_RESET_STREAM : Z := 0x04.
Definition NXP_FRAME_STOP_SENDING : Z := 0x05.
Definition NXP_FRAME_CRYPTO : Z := 0x06.
Definition NXP_FRAME_NEW_TOKEN : Z := 0x07.
Definition NXP_FRAME_STREAM : Z := 0x08.
Definition NXP_FRAME_MAX_DATA : Z := 0x10.
Definition NXP_FRAME_MAX_STREAM_DATA : Z := 0x11.
Definition NXP_FRAME_MAX_STREAMS_BIDI : Z := 0x12.
Definition NXP_FRAME_MAX_STREAMS_UNI : Z := 0x13.
Definition NXP_FRAME_DATA_BLOCKED : Z := 0x14.
Definition NXP_FRAME_STREAM_DATA_BLOCKED : Z := 0x15.
Definition NXP_FRAME_STREAMS_BLOCKED_BIDI : Z := 0x16.
Definition NXP_FRAME_STREAMS_BLOCKED_UNI : Z := 0x17.
Definition NXP_FRAME_NEW_CONNECTION_ID : Z := 0x18.
Definition NXP_FRAME_RETIRE_CONNECTION_ID : Z := 0x19.
Definition NXP_FRAME_PATH_CHALLENGE : Z := 0x1A.
Definition NXP_FRAME_PATH_RESPONSE : Z := 0x1B.
Definition NXP_FRAME_CONNECTION_CLOSE : Z := 0x1C.
Definition NXP_FRAME_CONNECTION_CLOSE_APP : Z := 0x1D.
Definition NXP_FRAME_HANDSHAKE_DONE : Z := 0x1E.
Definition NXP_FRAME_HEARTBEAT : Z := 0x20.
Definition NXP_FRAME_STREAM_PRIORITY : Z := 0x21.
Definition NXP_FRAME_DATAGRAM : Z := 0x22.

Definition NXP_FRAME_STREAM_BASE : Z := 0x08.
Definition NXP_FRAME_STREAM_OFF : Z := 0x04.
Definition NXP_FRAME_STREAM_LEN : Z := 0x02.
Definition NXP_FRAME_STREAM_FIN : Z := 0x01.
Definition NXP_FRAME_STREAM_MASK : Z := 0xF8.

(** ** Parsed frames

    A pointer into the source buffer together with its length field is the
    bytes it designates: [None] is the null pointer. *)

Record nxp_conn_id := ConnId { cid_data : list Z; cid_len : Z }.

Record nxp_ack_range := AckRange { gap : Z; ack_range : Z }.

Record nxp_frame_ack := FrameAck {
  largest_acked : Z;
  ack_delay : Z;
  first_ack_range : Z;
  range_count : Z;
  ranges : list nxp_ack_range;
  has_ecn : bool;
  ect0_count : Z;
  ect1_count : Z;
  ecn_ce_count : Z }.

Record nxp_frame_crypto := FrameCrypto {
  cr_offset : Z; cr_length : Z; cr_data : option (list Z) }.

Record nxp_frame_stream := FrameStream {
  sf_stream_id : Z;
  sf_offset : Z;
  sf_length : Z;
  sf_has_offset : bool;
  sf_has_length : bool;
  sf_fin : bool;
  sf_data : option (list Z) }.

Record nxp_frame_new_connection_id := FrameNewCid {
  nc_seq_num : Z;
  nc_retire_prior_to : Z;
  nc_cid : nxp_conn_id;
  nc_reset_token : list Z }.

Record nxp_frame_connection_close := FrameClose {
  cc_error_code : Z;
  cc_frame_type : Z;
  cc_reason_len : Z;
  cc_reason : option (list Z);
  cc_is_app : bool }.

Inductive nxp_frame : Type :=
| FPadding (count : Z)
| FPing
| FAck (f : nxp_frame_ack)
| FResetStream (stream_id error_code final_size : Z)
| FStopSending (stream_id error_code : Z)
| FCrypto (f : nxp_frame_crypto)
| FNewToken (token_len : Z) (token : option (list Z))
| FStream (f : nxp_frame_stream)
| FMaxData (max_data : Z)
| FMaxStreamData (stream_id max_stream_data : Z)
| FMaxStreams (max_streams : Z) (is_bidi : bool)
| FDataBlocked (max_data : Z)
| FStreamDataBlocked (stream_id max_stream_data : Z)
| FStreamsBlocked (max_streams : Z) (is_bidi : bool)
| FNewConnectionId (f : nxp_frame_new_connection_id)
| FRetireConnectionId (seq_num : Z)
| FPathChallenge (data : list Z)
| FPathResponse (data : list Z)
| FConnectionClose (f : nxp_frame_connection_close)
| FHandshakeDone
| FHeartbeat (timestamp_us : Z)
| FStreamPriority (stream_id priority : Z)
| FDatagram (length : Z) (data : option (list Z)).

(** The [type] member of the tagged union. *)
Definition frame_type (f : nxp_frame) : Z :=
  match f with
  | FPadding _ => NXP_FRAME_PADDING
  | FPing => NXP_FRAME_PING
  | FAck a => if has_ecn a then NXP_FRAME_ACK_ECN else NXP_FRAME_ACK
  | FResetStream _ _ _ => NXP_FRAME_RESET_STREAM
  | FStopSending _ _ => NXP_FRAME_STOP_SENDING
  | FCrypto _ => NXP_FRAME_CRYPTO
  | FNewToken _ _ => NXP_FRAME_NEW_TOKEN
  | FStream _ => NXP_FRAME_STREAM
  | FMaxData _ => NXP_FRAME_MAX_DATA
  | FMaxStreamData _ _ => NXP_FRAME_MAX_STREAM_DATA
  | FMaxStreams _ b => if b then NXP_FRAME_MAX_STREAMS_BIDI else NXP_FRAME_MAX_STREAMS_UNI
  | FDataBlocked _ => NXP_FRAME_DATA_BLOCKED
  | FStreamDataBlocked _ _ => NXP_FRAME_STREAM_DATA_BLOCKED
  | FStreamsBlocked _ b =>
      if b then NXP_FRAME_STREAMS_BLOCKED_BIDI else NXP_FRAME_STREAMS_BLOCKED_UNI
  | FNewConnectionId _ => NXP_FRAME_NEW_CONNECTION_ID
  | FRetireConnectionId _ => NXP_FRAME_RETIRE_CONNECTION_ID
  | FPathChallenge _ => NXP_FRAME_PATH_CHALLENGE
  | FPathResponse _ => NXP_FRAME_PATH_RESPONSE
  | FConnectionClose c =>
      if cc_is_app c then NXP_FRAME_CONNECTION_CLOSE_APP else NXP_FRAME_CONNECTION_CLOSE
  | FHandshakeDone => NXP_FRAME_HANDSHAKE_DONE
  | FHeartbeat _ => NXP_FRAME_HEARTBEAT
  | FStreamPriority _ _ => NXP_FRAME_STREAM_PRIORITY
  | FDatagram _ _ => NXP_FRAME_DATAGRAM
  end.

Definition nxp_frame_is_ack_eliciting (type : Z) : bool :=
  negb (type =? NXP_FRAME_PADDING) && negb (type =? NXP_FRAME_ACK) &&
  negb (type =? NXP_FRAME_ACK_ECN) && negb (type =? NXP_FRAME_CONNECTION_CLOSE) &&
  negb (type =? NXP_FRAME_CONNECTION_CLOSE_APP).

Definition nxp_frame_is_stream (type_byte : Z) : bool :=
  (type_byte &&& NXP_FRAME_STREAM_MASK) =? NXP_FRAME_STREAM_BASE.

(** ** Encoders *)

Open Scope writer_scope.

Definition nxp_frame_encode_padding (count : Z) (buf : list Z) : outcome unit (Z * list Z) :=
  if (count =? 0) || (zlen buf <? count) then Done (0, buf) else
  let! buf := memcpy buf 0 (replicate (Z.to_nat count) 0) count in
  Done (count, buf).

Definition nxp_frame_encode_ping (buf : list Z) : outcome unit (Z * list Z) :=
  if zlen buf <? 1 then Done (0, buf) else
  let! buf := wr buf 0 NXP_FRAME_PING in
  Done (1, buf).

(** The loop over [f->ranges[i]], [i < f->range_count]. *)
Fixpoint put_ranges (n : nat) (rs : list nxp_ack_range) : writer :=
  match n with
  | O => wdone
  | S n =>
      match rs with
      | [] => fun _ _ => WUb
      | r :: rs => put_varint (gap r) ;; put_varint (ack_range r) ;; put_ranges n rs
      end
  end.

Definition ack_writer (f : nxp_frame_ack) : writer :=
  put_varint (if has_ecn f then NXP_FRAME_ACK_ECN else NXP_FRAME_ACK) ;;
  put_varint (largest_acked f) ;;
  put_varint (ack_delay f) ;;
  put_varint (range_count f) ;;
  put_varint (first_ack_range f) ;;
  put_ranges (Z.to_nat (range_count f)) (ranges f) ;;
  if has_ecn f then
    put_varint (ect0_count f) ;;
    put_varint (ect1_count f) ;;
    put_varint (ecn_ce_count f)
  else wdone.
Definition nxp_frame_encode_ack (f : nxp_frame_ack) : list Z -> outcome unit (Z * list Z) :=
  run_writer (ack_writer f).

Definition nxp_frame_encode_reset_stream (stream_id error_code final_size : Z) :=
  run_writer (
    put_varint NXP_FRAME_RESET_STREAM ;;
    put_varint stream_id ;;
    put_varint error_code ;;
    put_varint final_size).

Definition nxp_frame_encode_stop_sending (stream_id error_code : Z) :=
  run_writer (
    put_varint NXP_FRAME_STOP_SENDING ;;
    put_varint stream_id ;;
    put_varint error_code).

Definition crypto_writer (f : nxp_frame_crypto) : writer :=
  put_varint NXP_FRAME_CRYPTO ;;
  put_varint (cr_offset f) ;;
  put_varint (cr_length f) ;;
  wroom (cr_length f) ;;
  put_ptr (if cr_length f >? 0 then cr_data f else None) (cr_length f).
Definition nxp_frame_encode_crypto (f : nxp_frame_crypto) := run_writer (crypto_writer f).

Definition nxp_frame_encode_new_token (token_len : Z) (token : option (list Z)) :=
  run_writer (
    put_varint NXP_FRAME_NEW_TOKEN ;;
    put_varint token_len ;;
    wroom token_len ;;
    put_ptr (if token_len >? 0 then token else None) token_len).

Definition stream_type_byte (f : nxp_frame_stream) : Z :=
  let type_byte := NXP_FRAME_STREAM_BASE in
  let type_byte := if sf_has_offset f then type_byte ||| NXP_FRAME_STREAM_OFF else type_byte in
  let type_byte := if sf_has_length f then type_byte ||| NXP_FRAME_STREAM_LEN else type_byte in
  if sf_fin f then type_byte ||| NXP_FRAME_STREAM_FIN else type_byte.

Definition stream_fields (f : nxp_frame_stream) : writer :=
  put_varint (sf_stream_id f) ;;
  (if sf_has_offset f then put_varint (sf_offset f) else wdone) ;;
  (if sf_has_length f then put_varint (sf_length f) else wdone) ;;
  let data_len := if sf_has_length f then sf_length f else 0 in
  if data_len >? 0 then wroom data_len ;; put_ptr (sf_data f) data_len else wdone.
Definition nxp_frame_encode_stream (f : nxp_frame_stream) :=
  run_writer (
    wcheck (fun _ buf_len => buf_len <? 1) ;;
    put_byte (stream_type_byte f) ;;
    stream_fields f).

Definition nxp_frame_encode_max_data (max_data : Z) :=
  run_writer (put_varint NXP_FRAME_MAX_DATA ;; put_varint max_data).

Definition nxp_frame_encode_max_stream_data (stream_id max_stream_data : Z) :=
  run_writer (
    put_varint NXP_FRAME_MAX_STREAM_DATA ;;
    put_varint stream_id ;;
    put_varint max_stream_data).

Definition nxp_frame_encode_max_streams (max_streams : Z) (is_bidi : bool) :=
  run_writer (
    put_varint (if is_bidi then NXP_FRAME_MAX_STREAMS_BIDI else NXP_FRAME_MAX_STREAMS_UNI) ;;
    put_varint max_streams).

Definition nxp_frame_encode_data_blocked (max_data : Z) :=
  run_writer (put_varint NXP_FRAME_DATA_BLOCKED ;; put_varint max_data).

Definition nxp_frame_encode_stream_data_blocked (stream_id max_stream_data : Z) :=
  run_writer (
    put_varint NXP_FRAME_STREAM_DATA_BLOCKED ;;
    put_varint stream_id ;;
    put_varint max_stream_data).

Definition nxp_frame_encode_streams_blocked (max_streams : Z) (is_bidi : bool) :=
  run_writer (
    put_varint
      (if is_bidi then NXP_FRAME_STREAMS_BLOCKED_BIDI else NXP_FRAME_STREAMS_BLOCKED_UNI) ;;
    put_varint max_streams).

Definition new_cid_writer (f : nxp_frame_new_connection_id) : writer :=
  let len := cid_len (nc_cid f) in
  put_varint NXP_FRAME_NEW_CONNECTION_ID ;;
  put_varint (nc_seq_num f) ;;
  put_varint (nc_retire_prior_to f) ;;
  wcheck (fun pos buf_len => u64 (pos + 1 + len + 16) >? buf_len) ;;
  put_byte len ;;
  (if len >? 0 then put_mem (cid_data (nc_cid f)) len else wdone) ;;
  put_mem (nc_reset_token f) 16.
Definition nxp_frame_encode_new_connection_id (f : nxp_frame_new_connection_id)
    (buf : list Z) : outcome unit (Z * list Z) :=
  if cid_len (nc_cid f) >? NXP_MAX_CID_LEN then Done (0, buf)
  else run_writer (new_cid_writer f) buf.

Definition nxp_frame_encode_retire_connection_id (seq_num : Z) :=
  run_writer (put_varint NXP_FRAME_RETIRE_CONNECTION_ID ;; put_varint seq_num).

Definition nxp_frame_encode_path_challenge (data : list Z) :=
  run_writer (put_varint NXP_FRAME_PATH_CHALLENGE ;; wroom 8 ;; put_mem data 8).

Definition nxp_frame_encode_path_response (data : list Z) :=
  run_writer (put_varint NXP_FRAME_PATH_RESPONSE ;; wroom 8 ;; put_mem data 8).

Definition close_writer (f : nxp_frame_connection_close) : writer :=
  put_varint
    (if cc_is_app f then NXP_FRAME_CONNECTION_CLOSE_APP else NXP_FRAME_CONNECTION_CLOSE) ;;
  put_varint (cc_error_code f) ;;
  (if cc_is_app f then wdone else put_varint (cc_frame_type f)) ;;
  put_varint (cc_reason_len f) ;;
  if cc_reason_len f >? 0
  then wroom (cc_reason_len f) ;; put_ptr (cc_reason f) (cc_reason_len f)
  else wdone.
Definition nxp_frame_encode_connection_close (f : nxp_frame_connection_close) :=
  run_writer (close_writer f).

Definition nxp_frame_encode_handshake_done :=
  run_writer (put_varint NXP_FRAME_HANDSHAKE_DONE).

Definition nxp_frame_encode_heartbeat (timestamp_us : Z) :=
  run_writer (put_varint NXP_FRAME_HEARTBEAT ;; put_varint timestamp_us).

Definition nxp_frame_encode_stream_priority (stream_id priority : Z) :=
  run_writer (
    put_varint NXP_FRAME_STREAM_PRIORITY ;;
    put_varint stream_id ;;
    wcheck (fun pos buf_len => pos >=? buf_len) ;;
    put_byte priority).

Definition nxp_frame_encode_datagram (length : Z) (data : option (list Z)) :=
  run_writer (
    put_varint NXP_FRAME_DATAGRAM ;;
    put_varint length ;;
    if length >? 0 then wroom length ;; put_ptr data length else wdone).

Close Scope writer_scope.

(** ** The decoder *)

Open Scope parser_scope.

(** [if (n > 0) { if (pos > buf_len || n > buf_len - pos) return 0;
                  p = &buf[pos]; pos += n; }] *)
Definition get_ptr (n : Z) : parser (option (list Z)) :=
  if n >? 0 then
    l <- (_ <- proom n ;; get_mem n) ;;
    pret (Some l)
  else pret None.

(** The number of zero bytes at the head of a buffer. *)
Fixpoint count_zeros (l : list Z) : Z :=
  match l with
  | b :: l => if b =? 0 then 1 + count_zeros l else 0
  | [] => 0
  end.

(** Without LEN, data extends to the end of the packet. *)
Definition get_remaining : parser Z := fun buf pos =>
  if zlen buf <? pos then Err tt else
  let remaining := u64 (zlen buf - pos) in
  if remaining >? NXP_MAX_STREAM_FRAME_DATA then Err tt else
  Done (remaining, pos).

Definition decode_stream : parser nxp_frame :=
  type_byte <- get_byte ;;
  let has_off := negb ((type_byte &&& NXP_FRAME_STREAM_OFF) =? 0) in
  let has_len := negb ((type_byte &&& NXP_FRAME_STREAM_LEN) =? 0) in
  let fin := negb ((type_byte &&& NXP_FRAME_STREAM_FIN) =? 0) in
  stream_id <- get_varint ;;
  _ <- pguard (stream_id >? NXP_MAX_STREAM_ID) ;;
  offset <- (if has_off then
               offset <- get_varint ;;
               _ <- pguard (offset >? NXP_MAX_STREAM_OFFSET) ;;
               pret offset
             else pret 0) ;;
  length <- (if has_len then
               length <- get_varint ;;
               _ <- pguard (length >? NXP_MAX_STREAM_FRAME_DATA) ;;
               pret length
             else get_remaining) ;;
  data <- get_ptr length ;;
  pret (FStream (FrameStream stream_id offset length has_off has_len fin data)).

(** The loop that reads [range_count] (gap, range) pairs. *)
Fixpoint get_ranges (n : nat) : parser (list nxp_ack_range) :=
  match n with
  | O => pret []
  | S n =>
      g <- get_varint ;;
      r <- get_varint ;;
      rs <- get_ranges n ;;
      pret (AckRange g r :: rs)
  end.

Definition decode_ack (frame_type : Z) : parser nxp_frame :=
  let has_ecn := frame_type =? NXP_FRAME_ACK_ECN in
  largest_acked <- get_varint ;;
  ack_delay <- get_varint ;;
  range_count <- get_varint ;;
  _ <- pguard (range_count >? NXP_ACK_MAX_RANGES) ;;
  let range_count := u32 range_count in
  first_ack_range <- get_varint ;;
  rs <- get_ranges (Z.to_nat range_count) ;;
  if has_ecn then
    ect0 <- get_varint ;;
    ect1 <- get_varint ;;
    ce <- get_varint ;;
    pret (FAck (FrameAck largest_acked ack_delay first_ack_range range_count rs true
                  ect0 ect1 ce))
  else
    pret (FAck (FrameAck largest_acked ack_delay first_ack_range range_count rs false
                  0 0 0)).

Definition decode_reset_stream : parser nxp_frame :=
  stream_id <- get_varint ;;
  error_code <- get_varint ;;
  final_size <- get_varint ;;
  pret (FResetStream stream_id error_code final_size).

Definition decode_stop_sending : parser nxp_frame :=
  stream_id <- get_varint ;;
  error_code <- get_varint ;;
  pret (FStopSending stream_id error_code).

Definition decode_crypto : parser nxp_frame :=
  offset <- get_varint ;;
  length <- get_varint ;;
  _ <- pguard (length >? NXP_MAX_CRYPTO_FRAME_DATA) ;;
  data <- get_ptr length ;;
  pret (FCrypto (FrameCrypto offset length data)).

Definition decode_new_token : parser nxp_frame :=
  token_len <- get_varint ;;
  _ <- pguard (token_len >? NXP_MAX_TOKEN_LEN) ;;
  token <- get_ptr token_len ;;
  pret (FNewToken token_len token).

(** The cases that read one varint. *)
Definition decode_1 (mk : Z -> nxp_frame) : parser nxp_frame :=
  x <- get_varint ;;
  pret (mk x).

(** The cases that read two varints. *)
Definition decode_2 (mk : Z -> Z -> nxp_frame) : parser nxp_frame :=
  x <- get_varint ;;
  y <- get_varint ;;
  pret (mk x y).

(** A [nxp_conn_id] zeroed by [memset] and filled by [memcpy]. *)
Definition mk_conn_id (l : list Z) : nxp_conn_id :=
  ConnId (l ++ replicate (Z.to_nat (NXP_MAX_CID_LEN - zlen l)) 0) (zlen l).

Definition decode_new_connection_id : parser nxp_frame :=
  seq_num <- get_varint ;;
  retire_prior_to <- get_varint ;;
  cid_len <- (_ <- pcheck (fun pos buf_len => pos >=? buf_len) ;; get_byte) ;;
  _ <- pguard (cid_len >? NXP_MAX_CID_LEN) ;;
  body <- (_ <- pcheck (fun pos buf_len => u64 (pos + cid_len + 16) >? buf_len) ;;
           get_mem (cid_len + 16)) ;;
  pret (FNewConnectionId
          (FrameNewCid seq_num retire_prior_to (mk_conn_id (ztake cid_len body))
             (zdrop cid_len body))).

(** PATH_CHALLENGE and PATH_RESPONSE: eight bytes of data. *)
Definition decode_path (mk : list Z -> nxp_frame) : parser nxp_frame :=
  data <- (_ <- pcheck (fun pos buf_len => u64 (pos + 8) >? buf_len) ;; get_mem 8) ;;
  pret (mk data).

Definition decode_connection_close (frame_type : Z) : parser nxp_frame :=
  let is_app := frame_type =? NXP_FRAME_CONNECTION_CLOSE_APP in
  error_code <- get_varint ;;
  ftype <- (if is_app then pret 0 else get_varint) ;;
  reason_len <- get_varint ;;
  _ <- pguard (reason_len >? NXP_MAX_CLOSE_REASON_LEN) ;;
  reason <- get_ptr reason_len ;;
  pret (FConnectionClose (FrameClose error_code ftype reason_len reason is_app)).

Definition decode_stream_priority : parser nxp_frame :=
  stream_id <- get_varint ;;
  priority <- (_ <- pcheck (fun pos buf_len => pos >=? buf_len) ;; get_byte) ;;
  pret (FStreamPriority stream_id priority).

Definition decode_datagram : parser nxp_frame :=
  length <- get_varint ;;
  _ <- pguard (length >? NXP_MAX_DATAGRAM_LEN) ;;
  data <- get_ptr length ;;
  pret (FDatagram length data).

(** The switch on the frame type. *)
Definition decode_switch (t : Z) : parser nxp_frame :=
  if t =? NXP_FRAME_PING then pret FPing
  else if (t =? NXP_FRAME_ACK) || (t =? NXP_FRAME_ACK_ECN) then decode_ack t
  else if t =? NXP_FRAME_RESET_STREAM then decode_reset_stream
  else if t =? NXP_FRAME_STOP_SENDING then decode_stop_sending
  else if t =? NXP_FRAME_CRYPTO then decode_crypto
  else if t =? NXP_FRAME_NEW_TOKEN then decode_new_token
  else if t =? NXP_FRAME_MAX_DATA then decode_1 FMaxData
  else if t =? NXP_FRAME_MAX_STREAM_DATA then decode_2 FMaxStreamData
  else if t =? NXP_FRAME_MAX_STREAMS_BIDI then decode_1 (fun m => FMaxStreams m true)
  else if t =? NXP_FRAME_MAX_STREAMS_UNI then decode_1 (fun m => FMaxStreams m false)
  else if t =? NXP_FRAME_DATA_BLOCKED then decode_1 FDataBlocked
  else if t =? NXP_FRAME_STREAM_DATA_BLOCKED then decode_2 FStreamDataBlocked
  else if t =? NXP_FRAME_STREAMS_BLOCKED_BIDI then decode_1 (fun m => FStreamsBlocked m true)
  else if t =? NXP_FRAME_STREAMS_BLOCKED_UNI then decode_1 (fun m => FStreamsBlocked m false)
  else if t =? NXP_FRAME_NEW_CONNECTION_ID then decode_new_connection_id
  else if t =? NXP_FRAME_RETIRE_CONNECTION_ID then decode_1 FRetireConnectionId
  else if t =? NXP_FRAME_PATH_CHALLENGE then decode_path FPathChallenge
  else if t =? NXP_FRAME_PATH_RESPONSE then decode_path FPathResponse
  else if (t =? NXP_FRAME_CONNECTION_CLOSE) || (t =? NXP_FRAME_CONNECTION_CLOSE_APP)
    then decode_connection_close t
  else if t =? NXP_FRAME_HANDSHAKE_DONE then pret FHandshakeDone
  else if t =? NXP_FRAME_HEARTBEAT then decode_1 FHeartbeat
  else if t =? NXP_FRAME_STREAM_PRIORITY then decode_stream_priority
  else if t =? NXP_FRAME_DATAGRAM then decode_datagram
  else pfail.

(** Returns the frame and the number of bytes consumed. *)
Definition nxp_frame_decode (buf : list Z) : outcome unit (nxp_frame * Z) :=
  if zlen buf =? 0 then Err tt else
  let! b0 := rd buf 0 in
  if b0 =? NXP_FRAME_PADDING then
    let count := count_zeros buf in Done (FPadding count, count)
  else if nxp_frame_is_stream b0 then decode_stream buf 0
  else (t <- get_varint ;; decode_switch t) buf 0.

Close Scope parser_scope.

(** ** Well-formed frames *)

(** A length field and the pointer it measures. *)
Definition ptr_ok (max n : Z) (p : option (list Z)) : Prop :=
  0 <= n <= max /\
  match p with
  | Some l => 0 < n /\ zlen l = n /\ bytes_ok l
  | None => n = 0
  end.

Definition conn_id_ok (c : nxp_conn_id) : Prop :=
  exists l, c = mk_conn_id l /\ zlen l <= NXP_MAX_CID_LEN /\ bytes_ok l.

Definition range_ok (r : nxp_ack_range) : Prop := varint_ok (gap r) /\ varint_ok (ack_range r).

Definition ack_ok (f : nxp_frame_ack) : Prop :=
  varint_ok (largest_acked f) /\ varint_ok (ack_delay f) /\ varint_ok (first_ack_range f) /\
  range_count f = zlen (ranges f) /\ range_count f <= NXP_ACK_MAX_RANGES /\
  Forall range_ok (ranges f) /\
  (if has_ecn f
   then varint_ok (ect0_count f) /\ varint_ok (ect1_count f) /\ varint_ok (ecn_ce_count f)
   else ect0_count f = 0 /\ ect1_count f = 0 /\ ecn_ce_count f = 0).

Definition stream_ok (f : nxp_frame_stream) : Prop :=
  0 <= sf_stream_id f <= NXP_MAX_STREAM_ID /\
  (if sf_has_offset f then 0 <= sf_offset f <= NXP_MAX_STREAM_OFFSET else sf_offset f = 0) /\
  ptr_ok NXP_MAX_STREAM_FRAME_DATA (sf_length f) (sf_data f).

Definition frame_ok (f : nxp_frame) : Prop :=
  match f with
  | FPadding n => 1 <= n
  | FPing | FHandshakeDone => True
  | FAck a => ack_ok a
  | FResetStream a b c => varint_ok a /\ varint_ok b /\ varint_ok c
  | FStopSending a b | FMaxStreamData a b | FStreamDataBlocked a b =>
      varint_ok a /\ varint_ok b
  | FCrypto c =>
      varint_ok (cr_offset c) /\ ptr_ok NXP_MAX_CRYPTO_FRAME_DATA (cr_length c) (cr_data c)
  | FNewToken n p => ptr_ok NXP_MAX_TOKEN_LEN n p
  | FStream s => stream_ok s
  | FMaxData a | FDataBlocked a | FRetireConnectionId a | FHeartbeat a
  | FMaxStreams a _ | FStreamsBlocked a _ => varint_ok a
  | FNewConnectionId n =>
      varint_ok (nc_seq_num n) /\ varint_ok (nc_retire_prior_to n) /\
      conn_id_ok (nc_cid n) /\ zlen (nc_reset_token n) = 16 /\ bytes_ok (nc_reset_token n)
  | FPathChallenge d | FPathResponse d => zlen d = 8 /\ bytes_ok d
  | FConnectionClose c =>
      varint_ok (cc_error_code c) /\
      (if cc_is_app c then cc_frame_type c = 0 else varint_ok (cc_frame_type c)) /\
      ptr_ok NXP_MAX_CLOSE_REASON_LEN (cc_reason_len c) (cc_reason c)
  | FStreamPriority a p => varint_ok a /\ byte p
  | FDatagram n p => ptr_ok NXP_MAX_DATAGRAM_LEN n p
  end.

(** ** Safety of the decoder *)

(** The bounds checks of the form [pos >= buf_len], [pos + k > buf_len]. *)
Lemma check_ge pos len : 0 <= pos <= len -> len < 2 ^ 63 -> (pos >=? len) = (len <=? pos).
Proof. intros. apply Z.geb_leb. Qed.

Lemma check_room k pos len : 0 <= k < 2 ^ 62 -> 0 <= pos <= len -> len < 2 ^ 63 ->
  (u64 (pos + k) >? len) = (len <? pos + k).
Proof. intros. rewrite Z.gtb_ltb, u64_small by lia. done. Qed.

Lemma psafe_ptr n max : 0 <= n <= max -> psafe (get_ptr n) (fun p => ptr_ok max n p).
Proof.
  intros Hn. unfold get_ptr. rewrite Z.gtb_ltb. destruct (Z.ltb_spec 0 n).
  - eapply psafe_bind.
    + apply (psafe_check_mem n); [lia |]. intros. apply proom_bad; lia.
    + intros l [Hl Hok]. apply psafe_ret. repeat split; (done || lia).
  - apply psafe_ret. split; lia.
Qed.

Lemma psafe_ranges n :
  psafe (get_ranges n) (fun rs => zlen rs = Z.of_nat n /\ Forall range_ok rs).
Proof.
  induction n as [| n IH]; simpl.
  - apply psafe_ret. done.
  - eapply psafe_bind; [apply psafe_varint |]. intros g Hg.
    eapply psafe_bind; [apply psafe_varint |]. intros r Hr.
    eapply psafe_bind; [apply IH |]. intros rs [Hrs Hok].
    apply psafe_ret. rewrite zlen_cons. split; [lia |]. by constructor.
Qed.

#[local] Hint Resolve psafe_ranges : nxp_codec.

(** One step of a safety proof. *)
Ltac psafe_step :=
  first
    [ apply psafe_ret; simpl; unfold varint_ok in *
    | eapply psafe_bind; [solve [eauto with nxp_codec] | intros ? ?; cbv beta zeta in *]
    | eapply psafe_bind;
      [solve [apply (psafe_check_byte _ check_ge)] | intros ? ?; cbv beta zeta in *] ].
Ltac psafe_ptr_step max :=
  eapply psafe_bind; [apply (psafe_ptr _ max); unfold varint_ok in *; lia | intros ? ?].

Lemma gtb_false a b : (a >? b) = false -> a <= b.
Proof. rewrite Z.gtb_ltb. apply Z.ltb_ge. Qed.
#[local] Hint Resolve gtb_false : nxp_codec.

Ltac use_guards :=
  repeat match goal with H : (_ >? _) = false |- _ => apply gtb_false in H end.

Lemma psafe_ack t : psafe (decode_ack t) frame_ok.
Proof.
  unfold decode_ack. repeat psafe_step. use_guards.
  assert (u32 a1 = a1) as Hu
    by (apply u32_small; unfold varint_ok, NXP_ACK_MAX_RANGES in *; lia).
  rewrite Hu in *. rewrite Z2Nat.id in * by (unfold varint_ok in *; lia).
  destruct (t =? NXP_FRAME_ACK_ECN); repeat psafe_step; unfold ack_ok, varint_ok; simpl;
    intuition lia.
Qed.

Lemma psafe_new_connection_id : psafe decode_new_connection_id frame_ok.
Proof.
  unfold decode_new_connection_id. repeat psafe_step. use_guards.
  eapply psafe_bind.
  { apply (psafe_check_mem (a1 + 16)); [lia |]. intros.
    replace (pos + a1 + 16) with (pos + (a1 + 16)) by lia.
    apply check_room; unfold NXP_MAX_CID_LEN in *; lia. }
  intros body [Hb Hok]. psafe_step.
  rewrite zlen_zdrop by lia. split_and!; try lia.
  - exists (ztake a1 body). rewrite zlen_ztake by lia.
    split_and!; [done | lia | by apply bytes_ok_take].
  - by apply bytes_ok_drop.
Qed.

Lemma psafe_path mk : (forall d, frame_ok (mk d) = (zlen d = 8 /\ bytes_ok d)) ->
  psafe (decode_path mk) frame_ok.
Proof.
  intros Hmk. unfold decode_path. eapply psafe_bind.
  { apply (psafe_check_mem 8); [lia |]. intros. apply check_room; lia. }
  intros d Hd. apply psafe_ret. by rewrite Hmk.
Qed.

Lemma psafe_close t : psafe (decode_connection_close t) frame_ok.
Proof.
  unfold decode_connection_close. psafe_step.
  eapply (psafe_bind _ _ (fun x => if t =? NXP_FRAME_CONNECTION_CLOSE_APP
                                   then x = 0 else varint_ok x)).
  { destruct (t =? _); [by apply psafe_ret | apply psafe_varint]. }
  intros ft Hft. repeat psafe_step. use_guards.
  psafe_ptr_step NXP_MAX_CLOSE_REASON_LEN. psafe_step. intuition.
Qed.

#[local] Hint Resolve psafe_ack psafe_new_connection_id psafe_close : nxp_codec.

Lemma psafe_switch t : psafe (decode_switch t) frame_ok.
Proof.
  unfold decode_switch.
  repeat match goal with |- psafe (if ?b then _ else _) _ => destruct b end.
  all: try solve [eauto with nxp_codec | by apply psafe_path].
  all: try solve [repeat psafe_step; intuition lia].
  - unfold decode_crypto. repeat psafe_step. use_guards.
    psafe_ptr_step NXP_MAX_CRYPTO_FRAME_DATA. psafe_step. intuition.
  - unfold decode_new_token. repeat psafe_step. use_guards.
    psafe_ptr_step NXP_MAX_TOKEN_LEN. psafe_step. intuition.
  - unfold decode_datagram. repeat psafe_step. use_guards.
    psafe_ptr_step NXP_MAX_DATAGRAM_LEN. psafe_step. intuition.
Qed.

Lemma psafe_remaining :
  psafe get_remaining (fun n => 0 <= n <= NXP_MAX_STREAM_FRAME_DATA).
Proof.
  intros buf pos Hok Hb Hpos. unfold get_remaining.
  destruct (Z.ltb_spec (zlen buf) pos); [done |].
  rewrite u64_small by lia. destruct (_ >? _) eqn:Hg; [done |]. use_guards. lia.
Qed.

(** [decode_stream] after its type byte. *)
Lemma psafe_stream_body buf pos : bytes_ok buf -> zlen buf < 2 ^ 63 -> 0 <= pos < zlen buf ->
  match decode_stream buf pos with
  | Done (f, pos') => frame_ok f /\ pos < pos' <= zlen buf
  | Err _ => True
  | Ub => False
  end.
Proof.
  intros Hok Hb Hpos. unfold decode_stream, pbind at 1, get_byte.
  destruct (@rd_Done unit buf pos) as (b & -> & _); [lia |]. cbn [obind]. cbv zeta.
  set (has_off := negb (_ =? 0)). set (has_len := negb ((b &&& NXP_FRAME_STREAM_LEN) =? 0)).
  match goal with |- context [?p buf (pos + 1)] =>
    assert (psafe p frame_ok) as Hp end.
  { psafe_step. psafe_step. use_guards.
    eapply (psafe_bind _ _ (fun o => if has_off then 0 <= o <= NXP_MAX_STREAM_OFFSET else o = 0)).
    { destruct has_off; [| by apply psafe_ret].
      repeat psafe_step. use_guards. lia. }
    intros off Hoff.
    eapply (psafe_bind _ _ (fun n => 0 <= n <= NXP_MAX_STREAM_FRAME_DATA)).
    { destruct has_len; [| apply psafe_remaining].
      repeat psafe_step. use_guards. lia. }
    intros len Hlen. psafe_ptr_step NXP_MAX_STREAM_FRAME_DATA. psafe_step.
    unfold stream_ok. simpl. unfold varint_ok in *. split_and!; (done || lia). }
  specialize (Hp buf (pos + 1) Hok Hb ltac:(lia)).
  match goal with |- match ?x with _ => _ end => destruct x as [[f pos'] | |] end; [| done | done].
  split; [tauto | lia].
Qed.

Lemma count_zeros_range l : 0 <= count_zeros l <= zlen l.
Proof.
  induction l as [| b l IH]; simpl; [done |].
  rewrite zlen_cons. destruct (b =? 0); lia.
Qed.

Lemma frame_decode_safe buf : bytes_ok buf -> zlen buf < 2 ^ 63 ->
  match nxp_frame_decode buf with
  | Done (f, n) => frame_ok f /\ 1 <= n <= zlen buf
  | Err _ => True
  | Ub => False
  end.
Proof.
  intros Hok Hb. unfold nxp_frame_decode.
  destruct (Z.eqb_spec (zlen buf) 0) as [| Hne]; [done |].
  pose proof (zlen_nonneg buf).
  destruct (@rd_Done unit buf 0) as (b0 & Hrd & Hb0); [lia |]. rewrite Hrd. cbn [obind].
  destruct (Z.eqb_spec b0 NXP_FRAME_PADDING) as [-> | _].
  { destruct buf as [| b buf]; [done |]. simpl in Hb0. injection Hb0 as ->.
    pose proof (count_zeros_range buf). simpl. rewrite zlen_cons. lia. }
  destruct (nxp_frame_is_stream b0).
  { pose proof (psafe_stream_body buf 0 Hok Hb ltac:(lia)) as Hs.
    destruct (decode_stream buf 0) as [[f n] | |]; [| done | done].
    split; [tauto | lia]. }
  unfold pbind, get_varint, decode_varint. rewrite Z.geb_leb.
  rewrite (proj2 (Z.leb_gt _ _)) by lia. rewrite zdrop_0.
  destruct (varint_decode_cases buf Hok) as [-> | (n & t & -> & Ht & Hn & _)]; [done |].
  cbn [obind]. pose proof (psafe_switch t buf (0 + n) Hok Hb ltac:(lia)) as Hs.
  destruct (decode_switch t buf (0 + n)) as [[f m] | |]; [| done | done].
  split; [tauto | lia].
Qed.

(** The data of a decoded STREAM frame is part of the buffer. *)
Lemma get_ptr_within n buf pos p pos' : get_ptr n buf pos = Done (p, pos') ->
  match p with Some l => zlen l <= zlen buf | None => True end.
Proof.
  unfold get_ptr. destruct (n >? 0); [| by intros [= <- _]]. intros H.
  apply pbind_Done in H as (l & p1 & H & [= <- <-]). apply pbind_Done in H as (_ & p2 & _ & H).
  unfold get_mem in H. destruct (sub_buf buf p2 n) as [l' | |] eqn:Hs; simpl in H; [| done | done].
  injection H as <- _. revert Hs. unfold sub_buf. destruct (_ && _) eqn:Hc; [| done].
  intros [= <-]. rewrite !andb_true_iff, !Z.leb_le in Hc. rewrite zlen_ztake; [lia |].
  rewrite zlen_zdrop by lia. lia.
Qed.

Lemma decode_switch_not_stream t buf pos f pos' : decode_switch t buf pos <> Done (FStream f, pos').
Proof.
  unfold decode_switch, decode_ack, decode_reset_stream, decode_stop_sending, decode_crypto,
    decode_new_token, decode_1, decode_2, decode_new_connection_id, decode_path,
    decode_connection_close, decode_stream_priority, decode_datagram.
  intros Hd.
  repeat match type of Hd with (if ?b then _ else _) _ _ = _ => destruct b end;
    repeat first
      [ apply pbind_Done in Hd as (? & ? & ? & Hd)
      | match type of Hd with (if ?b then _ else _) _ _ = _ => destruct b end ];
    discriminate Hd.
Qed.

Lemma frame_decode_within buf f n : nxp_frame_decode buf = Done (FStream f, n) ->
  match sf_data f with Some l => zlen l <= zlen buf | None => True end.
Proof.
  unfold nxp_frame_decode. destruct (zlen buf =? 0); [done |].
  destruct (rd buf 0) as [b0 | |]; simpl; [| done | done].
  destruct (b0 =? NXP_FRAME_PADDING); [done |].
  destruct (nxp_frame_is_stream b0); intros H.
  - unfold decode_stream in H. do 6 apply pbind_Done in H as (? & ? & ? & H).
    injection H as <- _. simpl. by eapply get_ptr_within.
  - apply pbind_Done in H as (t & p & _ & H). by apply decode_switch_not_stream in H.
Qed.

(** ** Wire images *)

Definition ptr_bytes (p : option (list Z)) : list Z :=
  match p with Some l => l | None => [] end.

Fixpoint ranges_bytes (rs : list nxp_ack_range) : list Z :=
  match rs with
  | [] => []
  | r :: rs => varint_bytes (gap r) ++ varint_bytes (ack_range r) ++ ranges_bytes rs
  end.

Definition cid_bytes (c : nxp_conn_id) : list Z := ztake (cid_len c) (cid_data c).

(** The bytes of the fields that follow the frame type. *)
Definition frame_body (f : nxp_frame) : list Z :=
  match f with
  | FPadding _ | FPing | FHandshakeDone => []
  | FAck a =>
      varint_bytes (largest_acked a) ++ varint_bytes (ack_delay a) ++
      varint_bytes (range_count a) ++ varint_bytes (first_ack_range a) ++
      ranges_bytes (ranges a) ++
      (if has_ecn a
       then varint_bytes (ect0_count a) ++ varint_bytes (ect1_count a) ++
            varint_bytes (ecn_ce_count a)
       else [])
  | FResetStream a b c => varint_bytes a ++ varint_bytes b ++ varint_bytes c
  | FStopSending a b | FMaxStreamData a b | FStreamDataBlocked a b =>
      varint_bytes a ++ varint_bytes b
  | FCrypto c => varint_bytes (cr_offset c) ++ varint_bytes (cr_length c) ++ ptr_bytes (cr_data c)
  | FNewToken n p => varint_bytes n ++ ptr_bytes p
  | FStream s =>
      varint_bytes (sf_stream_id s) ++
      (if sf_has_offset s then varint_bytes (sf_offset s) else []) ++
      (if sf_has_length s then varint_bytes (sf_length s) else []) ++
      ptr_bytes (sf_data s)
  | FMaxData a | FDataBlocked a | FRetireConnectionId a | FHeartbeat a
  | FMaxStreams a _ | FStreamsBlocked a _ => varint_bytes a
  | FNewConnectionId n =>
      varint_bytes (nc_seq_num n) ++ varint_bytes (nc_retire_prior_to n) ++
      [cid_len (nc_cid n)] ++ cid_bytes (nc_cid n) ++ nc_reset_token n
  | FPathChallenge d | FPathResponse d => d
  | FConnectionClose c =>
      varint_bytes (cc_error_code c) ++
      (if cc_is_app c then [] else varint_bytes (cc_frame_type c)) ++
      varint_bytes (cc_reason_len c) ++ ptr_bytes (cc_reason c)
  | FStreamPriority a p => varint_bytes a ++ [p]
  | FDatagram n p => varint_bytes n ++ ptr_bytes p
  end.

Definition frame_bytes (f : nxp_frame) : list Z :=
  match f with
  | FPadding n => replicate (Z.to_nat n) 0
  | FStream s => stream_type_byte s :: frame_body f
  | _ => varint_bytes (frame_type f) ++ frame_body f
  end.

(** Each frame with the encoder of its type. *)
Definition encode_frame (f : nxp_frame) : list Z -> outcome unit (Z * list Z) :=
  match f with
  | FPadding n => nxp_frame_encode_padding n
  | FPing => nxp_frame_encode_ping
  | FAck a => nxp_frame_encode_ack a
  | FResetStream a b c => nxp_frame_encode_reset_stream a b c
  | FStopSending a b => nxp_frame_encode_stop_sending a b
  | FCrypto c => nxp_frame_encode_crypto c
  | FNewToken n p => nxp_frame_encode_new_token n p
  | FStream s => nxp_frame_encode_stream s
  | FMaxData a => nxp_frame_encode_max_data a
  | FMaxStreamData a b => nxp_frame_encode_max_stream_data a b
  | FMaxStreams a b => nxp_frame_encode_max_streams a b
  | FDataBlocked a => nxp_frame_encode_data_blocked a
  | FStreamDataBlocked a b => nxp_frame_encode_stream_data_blocked a b
  | FStreamsBlocked a b => nxp_frame_encode_streams_blocked a b
  | FNewConnectionId n => nxp_frame_encode_new_connection_id n
  | FRetireConnectionId a => nxp_frame_encode_retire_connection_id a
  | FPathChallenge d => nxp_frame_encode_path_challenge d
  | FPathResponse d => nxp_frame_encode_path_response d
  | FConnectionClose c => nxp_frame_encode_connection_close c
  | FHandshakeDone => nxp_frame_encode_handshake_done
  | FHeartbeat t => nxp_frame_encode_heartbeat t
  | FStreamPriority a p => nxp_frame_encode_stream_priority a p
  | FDatagram n p => nxp_frame_encode_datagram n p
  end.

(** The frames whose data is delimited on the wire. *)
Definition delimited (f : nxp_frame) : Prop :=
  match f with FStream s => sf_has_length s = true | _ => True end.

(** An encoder emits exactly [bs], or returns 0 when they do not fit. *)
Definition encodes (enc : list Z -> outcome unit (Z * list Z)) (bs : list Z) : Prop :=
  forall buf, zlen buf < 2 ^ 63 ->
  if zlen bs <=? zlen buf
  then enc buf = Done (zlen bs, splice buf 0 bs)
  else exists buf', enc buf = Done (0, buf') /\ zlen buf' = zlen buf.

Lemma encodes_writer w bs : writes w bs -> encodes (run_writer w) bs.
Proof. intros Hw buf Hb. by apply run_writer_spec. Qed.

(** ** Encoders write the wire image *)

Lemma writes_room_ptr max n p : ptr_ok max n p -> max < 2 ^ 62 ->
  writes (wroom n ;; put_ptr p n)%W (ptr_bytes p).
Proof.
  intros [Hn Hp] Hmax. destruct p as [l |]; simpl.
  - destruct Hp as (? & Hl & _). apply writes_room_mem; lia.
  - subst n. intros buf pos Hb Hpos. unfold wseq, wroom, wcheck, put_ptr.
    change (zlen []) with 0. rewrite !Z.add_0_r, splice_nil, u64_small, Z.gtb_ltb by lia.
    rewrite (proj2 (Z.ltb_ge _ _)), (proj2 (Z.leb_le _ _)) by lia. by rewrite Z.add_0_r.
Qed.

(** The test [n > 0] around a copy makes no difference to the image. *)
Lemma writes_if_ptr max n p : ptr_ok max n p -> max < 2 ^ 62 ->
  writes (if n >? 0 then wroom n ;; put_ptr p n else wdone)%W (ptr_bytes p).
Proof.
  intros Hp Hmax. rewrite Z.gtb_ltb. destruct (Z.ltb_spec 0 n).
  - by eapply writes_room_ptr.
  - destruct Hp as [Hn Hp]. destruct p; [lia |]. apply writes_done.
Qed.

Lemma ptr_if max n p : ptr_ok max n p -> (if n >? 0 then p else None) = p.
Proof.
  intros [Hn Hp]. rewrite Z.gtb_ltb. destruct (Z.ltb_spec 0 n); [done |].
  destruct p; [lia | done].
Qed.

Lemma writes_ranges rs : Forall range_ok rs ->
  writes (put_ranges (length rs) rs) (ranges_bytes rs).
Proof.
  induction 1 as [| r rs [Hg Hr] Hrs IH]; simpl; [apply writes_done |].
  apply writes_seq; [by apply writes_varint |].
  apply writes_seq; [by apply writes_varint | apply IH].
Qed.

Lemma type_ok t : 0 <= t <= 63 -> varint_ok t.
Proof. unfold varint_ok, NXP_VARINT_MAX. lia. Qed.

Lemma ptr_ok_varint max n p : ptr_ok max n p -> max < 2 ^ 62 -> varint_ok n.
Proof. unfold varint_ok, NXP_VARINT_MAX. intros [? _] ?. lia. Qed.

#[local] Hint Resolve writes_ranges ptr_ok_varint : nxp_codec.
#[local] Hint Extern 1 (varint_ok ?c) =>
  is_const c; solve [split; vm_compute; discriminate] : nxp_codec.

(** Decompose a sequence of varints. *)
Ltac writes_step := apply writes_seq; [apply writes_varint; solve [eauto with nxp_codec] |].
Ltac writes_all := repeat writes_step; try (apply writes_varint; solve [eauto with nxp_codec]).

Lemma encodes_padding n : 1 <= n -> encodes (nxp_frame_encode_padding n) (replicate (Z.to_nat n) 0).
Proof.
  intros Hn buf Hb. unfold nxp_frame_encode_padding.
  rewrite zlen_replicate, Z2Nat.id by lia.
  rewrite (proj2 (Z.eqb_neq n 0)) by lia. simpl.
  destruct (Z.leb_spec n (zlen buf)); destruct (Z.ltb_spec (zlen buf) n); try lia; [| eauto].
  rewrite memcpy_splice by (rewrite ?zlen_replicate; lia). cbn [obind].
  unfold ztake at 1. rewrite take_ge by (rewrite length_replicate; lia). done.
Qed.

Lemma encodes_ping : encodes nxp_frame_encode_ping (varint_bytes NXP_FRAME_PING).
Proof.
  intros buf Hb. unfold nxp_frame_encode_ping.
  change (varint_bytes NXP_FRAME_PING) with [NXP_FRAME_PING].
  change (zlen [NXP_FRAME_PING]) with 1.
  destruct (Z.leb_spec 1 (zlen buf)); destruct (Z.ltb_spec (zlen buf) 1); try lia; [| eauto].
  by rewrite wr_splice by lia.
Qed.

(** The fields of a STREAM frame after its type byte. *)
Lemma writes_stream_fields s : stream_ok s -> sf_has_length s = true ->
  writes (stream_fields s) (frame_body (FStream s)).
Proof.
  intros (Hid & Hoff & Hp) Hlen. unfold stream_fields, frame_body. rewrite Hlen.
  unfold NXP_MAX_STREAM_ID, NXP_MAX_STREAM_OFFSET, NXP_MAX_STREAM_FRAME_DATA in *.
  apply writes_seq; [apply writes_varint; unfold varint_ok, NXP_VARINT_MAX; lia |].
  apply writes_seq.
  { destruct (sf_has_offset s); [| apply writes_done].
    apply writes_varint. unfold varint_ok, NXP_VARINT_MAX; lia. }
  apply writes_seq; [apply writes_varint; by eapply ptr_ok_varint |].
  by eapply writes_if_ptr.
Qed.

(** At the start of the buffer the test [buf_len < 1] is a test for room. *)
Lemma encode_stream_at_0 s buf :
  nxp_frame_encode_stream s buf =
  run_writer ((wcheck (fun pos len => len <=? pos) ;; put_byte (stream_type_byte s)) ;;
              stream_fields s)%W buf.
Proof.
  unfold nxp_frame_encode_stream, run_writer, wseq, wcheck.
  by destruct (Z.leb_spec (zlen buf) 0), (Z.ltb_spec (zlen buf) 1); try lia.
Qed.

Lemma writes_type_byte b : writes (wcheck (fun pos len => len <=? pos) ;; put_byte b)%W [b].
Proof. by apply writes_check_byte. Qed.

Lemma encodes_stream s : stream_ok s -> sf_has_length s = true ->
  encodes (nxp_frame_encode_stream s) (frame_bytes (FStream s)).
Proof.
  intros Hok Hlen buf Hb. rewrite encode_stream_at_0.
  apply (encodes_writer _ ([_] ++ _)); [| done].
  apply writes_seq; [apply writes_type_byte | by apply writes_stream_fields].
Qed.

Lemma encodes_new_cid n :
  varint_ok (nc_seq_num n) -> varint_ok (nc_retire_prior_to n) -> conn_id_ok (nc_cid n) ->
  zlen (nc_reset_token n) = 16 ->
  encodes (nxp_frame_encode_new_connection_id n) (frame_bytes (FNewConnectionId n)).
Proof.
  intros Hseq Hret (l & Hc & Hl & _) Htok buf Hb. unfold nxp_frame_encode_new_connection_id.
  rewrite Hc. simpl cid_len. rewrite Z.gtb_ltb, (proj2 (Z.ltb_ge _ _)) by done.
  revert buf Hb. apply encodes_writer. unfold new_cid_writer, frame_bytes, frame_body.
  rewrite Hc. simpl cid_len. simpl cid_data.
  unfold cid_bytes. simpl cid_len. simpl cid_data. rewrite ztake_app.
  simpl frame_type. do 3 writes_step.
  pose proof (zlen_nonneg l). unfold NXP_MAX_CID_LEN in *.
  apply writes_checked.
  - apply wfits_seq; [apply wfits_byte |]. apply wfits_seq.
    + rewrite Z.gtb_ltb. destruct (Z.ltb_spec 0 (zlen l)).
      * pose proof (wfits_mem (l ++ replicate (Z.to_nat (20 - zlen l)) 0) (zlen l)) as Hm.
        rewrite ztake_app in Hm. apply Hm. lenlia.
      * assert (l = []) as -> by (destruct l; [done |]; rewrite zlen_cons in *;
          pose proof (zlen_nonneg l); lia).
        apply wfits_done.
    + pose proof (wfits_mem (nc_reset_token n) 16) as Hm. unfold ztake in Hm.
      rewrite take_ge in Hm by (unfold zlen in Htok; lia). apply Hm. lia.
  - intros. zlen_norm. rewrite Htok, u64_small, Z.gtb_ltb by lia. f_equal. lia.
Qed.

Lemma writes_ack f : ack_ok f -> writes (ack_writer f) (frame_bytes (FAck f)).
Proof.
  intros (Hl & Hd & Hf & Hn & Hmax & Hr & Hecn).
  unfold ack_writer, frame_bytes, frame_body. cbn [frame_type].
  assert (varint_ok (range_count f)) as Hrc.
  { pose proof (zlen_nonneg (ranges f)).
    unfold varint_ok, NXP_VARINT_MAX, NXP_ACK_MAX_RANGES in *. lia. }
  apply writes_seq; [apply writes_varint; destruct (has_ecn f); eauto with nxp_codec |].
  do 4 writes_step. apply writes_seq.
  - rewrite Hn. unfold zlen. rewrite Nat2Z.id. by apply writes_ranges.
  - destruct (has_ecn f); [destruct_and! Hecn; writes_all | apply writes_done].
Qed.

Lemma writes_close c : frame_ok (FConnectionClose c) ->
  writes (close_writer c) (frame_bytes (FConnectionClose c)).
Proof.
  intros (He & Ht & Hp). unfold close_writer, frame_bytes, frame_body. cbn [frame_type].
  unfold NXP_MAX_CLOSE_REASON_LEN in *.
  apply writes_seq; [apply writes_varint; destruct (cc_is_app c); eauto with nxp_codec |].
  writes_step. apply writes_seq.
  { destruct (cc_is_app c); [apply writes_done | by apply writes_varint]. }
  apply writes_seq; [apply writes_varint; by eapply ptr_ok_varint | by eapply writes_if_ptr].
Qed.

Lemma writes_8 d : zlen d = 8 -> writes (wroom 8 ;; put_mem d 8)%W d.
Proof. intros. by apply writes_room_mem. Qed.

Ltac image_unfold := unfold frame_bytes, frame_body; cbn [frame_type].

Lemma encode_frame_spec f : frame_ok f -> delimited f ->
  encodes (encode_frame f) (frame_bytes f).
Proof.
  intros Hok Hdel. destruct f; cbn [encode_frame].
  all: try (destruct is_bidi); try (cbn [frame_ok] in Hok; destruct_and? Hok;
    apply encodes_writer; unfold frame_bytes, frame_body; cbn [frame_type];
    solve [writes_all]).
  - by apply encodes_padding.
  - apply encodes_ping.
  - apply encodes_writer. by apply writes_ack.
  - destruct Hok as [Ho Hp]. apply encodes_writer; image_unfold. unfold crypto_writer.
    erewrite ptr_if by exact Hp. writes_step. writes_step.
    unfold NXP_MAX_CRYPTO_FRAME_DATA in *.
    apply writes_seq; [apply writes_varint; by eapply ptr_ok_varint | by eapply writes_room_ptr].
  - apply encodes_writer; image_unfold. erewrite ptr_if by exact Hok. writes_step.
    cbn [frame_ok] in Hok. unfold NXP_MAX_TOKEN_LEN in *.
    apply writes_seq; [apply writes_varint; by eapply ptr_ok_varint | by eapply writes_room_ptr].
  - by apply encodes_stream.
  - destruct Hok as (? & ? & ? & ? & _). by apply encodes_new_cid.
  - destruct Hok as [Hd _]. apply encodes_writer; image_unfold. writes_step. by apply writes_8.
  - destruct Hok as [Hd _]. apply encodes_writer; image_unfold. writes_step. by apply writes_8.
  - apply encodes_writer. by apply writes_close.
  - destruct Hok as [Ha _]. apply encodes_writer; image_unfold. do 2 writes_step.
    apply writes_check_byte. intros. by apply check_ge.
  - apply encodes_writer; image_unfold. writes_step. cbn [frame_ok] in Hok. unfold NXP_MAX_DATAGRAM_LEN in *.
    apply writes_seq; [apply writes_varint; by eapply ptr_ok_varint | by eapply writes_if_ptr].
Qed.

(** ** The decoder inverts the wire image *)

Lemma parses_ptr max n p : ptr_ok max n p -> max < 2 ^ 62 ->
  parses (get_ptr n) (ptr_bytes p) p.
Proof.
  intros [Hn Hp] Hmax. unfold get_ptr. rewrite Z.gtb_ltb.
  destruct p as [l |]; simpl.
  - destruct Hp as (Hpos & Hl & _). rewrite (proj2 (Z.ltb_lt _ _)) by done.
    rewrite <- (app_nil_r l) at 1. eapply parses_bind; [| apply parses_ret].
    apply parses_check_mem; [done |]. intros. apply proom_bad; lia.
  - subst n. apply parses_ret.
Qed.

Lemma parses_ranges rs : Forall range_ok rs ->
  parses (get_ranges (length rs)) (ranges_bytes rs) rs.
Proof.
  induction 1 as [| [g r] rs [Hg Hr] Hrs IH]; simpl in *; [apply parses_ret |].
  eapply parses_bind; [by apply parses_varint |].
  eapply parses_bind; [by apply parses_varint |].
  eapply parses_eq; [symmetry; apply app_nil_r |].
  eapply parses_bind; [apply IH | apply parses_ret].
Qed.

(** A guard reads nothing. *)
Lemma parses_guard_then {A} bad (k : parser A) bs a :
  bad = false -> parses k bs a -> parses (pbind (pguard bad) (fun _ => k)) bs a.
Proof.
  intros Hbad Hk. change bs with ([] ++ bs).
  eapply parses_bind; [by apply parses_guard | done].
Qed.

(** The last field, followed by the construction of the frame. *)
Lemma parses_last {A B} (p : parser A) (k : A -> B) bs a b :
  parses p bs a -> b = k a -> parses (pbind p (fun x => pret (k x))) bs b.
Proof.
  intros Hp ->. rewrite <- (app_nil_r bs). eapply parses_bind; [done | apply parses_ret].
Qed.

Lemma gtb_le a b : a <= b -> (a >? b) = false.
Proof. intros. rewrite Z.gtb_ltb. by apply Z.ltb_ge. Qed.

Ltac parses_varint_step := eapply parses_bind; [by apply parses_varint |].
Ltac parses_last_varint := eapply parses_last; [by apply parses_varint | reflexivity].
Ltac parses_last_ptr := eapply parses_last; [by eapply parses_ptr | reflexivity].
Ltac limits_unfold :=
  unfold NXP_MAX_CRYPTO_FRAME_DATA, NXP_MAX_TOKEN_LEN, NXP_MAX_DATAGRAM_LEN,
    NXP_MAX_CLOSE_REASON_LEN, NXP_MAX_STREAM_FRAME_DATA, NXP_MAX_STREAM_ID,
    NXP_MAX_STREAM_OFFSET, NXP_MAX_CID_LEN, NXP_ACK_MAX_RANGES in *.
Ltac parses_guard_step := apply parses_guard_then; [apply gtb_le; limits_unfold; lia |].

Lemma parses_ack a : ack_ok a ->
  parses (decode_ack (frame_type (FAck a))) (frame_body (FAck a)) (FAck a).
Proof.
  destruct a as [la ad fr rc rs ecn e0 e1 ce]. unfold ack_ok; simpl.
  intros (Hl & Hd & Hf & Hn & Hmax & Hr & Hecn). unfold decode_ack.
  pose proof (zlen_nonneg rs). unfold NXP_ACK_MAX_RANGES in *.
  assert (varint_ok rc) by (unfold varint_ok, NXP_VARINT_MAX; lia).
  do 3 parses_varint_step. cbv zeta. parses_guard_step.
  rewrite u32_small by lia. parses_varint_step.
  replace (Z.to_nat rc) with (length rs) by (unfold zlen in Hn; lia).
  eapply parses_bind; [by apply parses_ranges |].
  destruct ecn; simpl.
  - destruct_and! Hecn. do 2 parses_varint_step. parses_last_varint.
  - destruct Hecn as (-> & -> & ->). apply parses_ret.
Qed.

Lemma parses_close c : frame_ok (FConnectionClose c) ->
  parses (decode_connection_close (frame_type (FConnectionClose c)))
    (frame_body (FConnectionClose c)) (FConnectionClose c).
Proof.
  destruct c as [e t n p app]. simpl. intros (He & Ht & Hp). unfold decode_connection_close.
  pose proof (proj1 Hp). unfold NXP_MAX_CLOSE_REASON_LEN in *.
  parses_varint_step. cbv zeta. destruct app; simpl.
  - subst t. change (varint_bytes n ++ ptr_bytes p) with ([] ++ varint_bytes n ++ ptr_bytes p).
    eapply parses_bind; [apply parses_ret |].
    eapply parses_bind; [apply parses_varint; by eapply ptr_ok_varint |].
    parses_guard_step. parses_last_ptr.
  - parses_varint_step.
    eapply parses_bind; [apply parses_varint; by eapply ptr_ok_varint |].
    parses_guard_step. parses_last_ptr.
Qed.

Lemma parses_new_cid n : frame_ok (FNewConnectionId n) ->
  parses decode_new_connection_id (frame_body (FNewConnectionId n)) (FNewConnectionId n).
Proof.
  destruct n as [s r c tok]. simpl. intros (Hs & Hr & (l & -> & Hl & Hlok) & Htok & Htokok).
  unfold decode_new_connection_id, cid_bytes. simpl. rewrite ztake_app.
  pose proof (zlen_nonneg l). unfold NXP_MAX_CID_LEN in *.
  do 2 parses_varint_step.
  change (zlen l :: l ++ tok) with ([zlen l] ++ (l ++ tok)).
  eapply parses_bind; [apply parses_check_byte; intros; by apply check_ge |].
  parses_guard_step.
  eapply parses_last; [apply (parses_check_mem (l ++ tok)) | by rewrite ztake_app, zdrop_app].
  - lenlia.
  - intros. replace (pos + zlen l + 16) with (pos + (zlen l + 16)) by lia.
    apply check_room; lia.
Qed.

Lemma parses_path mk d : zlen d = 8 -> parses (decode_path mk) d (mk d).
Proof.
  intros. eapply parses_last; [apply (parses_check_mem d) | reflexivity]; [done |].
  intros. apply check_room; lia.
Qed.

Lemma parses_switch f : frame_ok f ->
  match f with
  | FPadding _ | FStream _ => True
  | _ => parses (decode_switch (frame_type f)) (frame_body f) f
  end.
Proof.
  intros Hok. destruct f; try done; cbn [frame_ok] in Hok.
  all: try destruct is_bidi; try (destruct_and? Hok).
  all: try solve [apply parses_ret].
  all: try solve [cbn; repeat parses_varint_step; parses_last_varint].
  all: try solve [by apply parses_path].
  - pose proof (parses_ack f Hok) as H. unfold decode_switch. simpl in *.
    destruct (has_ecn f); exact H.
  - destruct f as [o n p]. simpl in *. cbn -[varint_bytes].
    unfold NXP_MAX_CRYPTO_FRAME_DATA in *. parses_varint_step.
    eapply parses_bind; [apply parses_varint; by eapply ptr_ok_varint |].
    pose proof (proj1 H0). parses_guard_step. parses_last_ptr.
  - cbn -[varint_bytes]. unfold NXP_MAX_TOKEN_LEN in *.
    eapply parses_bind; [apply parses_varint; by eapply ptr_ok_varint |].
    pose proof (proj1 Hok). parses_guard_step. parses_last_ptr.
  - by apply parses_new_cid.
  - pose proof (parses_close f ltac:(done)) as Hc. unfold decode_switch. simpl in *.
    destruct (cc_is_app f); exact Hc.
  - cbn -[varint_bytes]. parses_varint_step.
    eapply parses_last; [apply parses_check_byte; intros; by apply check_ge | reflexivity].
  - cbn -[varint_bytes]. unfold NXP_MAX_DATAGRAM_LEN in *.
    eapply parses_bind; [apply parses_varint; by eapply ptr_ok_varint |].
    pose proof (proj1 Hok). parses_guard_step. parses_last_ptr.
Qed.

Lemma stream_type_byte_bits s :
  let b := stream_type_byte s in
  nxp_frame_is_stream b = true /\ b <> 0 /\
  negb ((b &&& NXP_FRAME_STREAM_OFF) =? 0) = sf_has_offset s /\
  negb ((b &&& NXP_FRAME_STREAM_LEN) =? 0) = sf_has_length s /\
  negb ((b &&& NXP_FRAME_STREAM_FIN) =? 0) = sf_fin s.
Proof.
  unfold stream_type_byte. destruct (sf_has_offset s), (sf_has_length s), (sf_fin s);
    vm_compute; repeat split; discriminate.
Qed.

(** The fields of a STREAM frame; without LEN it must end the packet. *)
Lemma parses_stream s : stream_ok s -> sf_has_length s = true ->
  parses decode_stream (frame_bytes (FStream s)) (FStream s).
Proof.
  intros (Hid & Hoff & Hp) Hlen.
  pose proof (stream_type_byte_bits s) as (_ & _ & Ho & Hl & Hf).
  destruct s as [id off len ho hl fin p]. simpl in *. subst hl.
  unfold frame_bytes, frame_body. simpl sf_stream_id. simpl sf_has_offset.
  simpl sf_has_length. simpl sf_offset. simpl sf_length. simpl sf_data.
  set (b := stream_type_byte _) in *. unfold decode_stream.
  assert (parses get_byte [b] b) as Hb.
  { intros pre post Hlen. unfold get_byte.
    replace (zlen pre) with (zlen pre + 0) at 1 by lia. rewrite rd_app_r by lia. done. }
  change (b :: ?l) with ([b] ++ l). eapply parses_bind; [exact Hb |]. cbv zeta.
  rewrite Ho, Hl, Hf. pose proof (proj1 Hp). limits_unfold.
  eapply parses_bind; [apply parses_varint; unfold varint_ok, NXP_VARINT_MAX; lia |].
  parses_guard_step.
  eapply (parses_bind _ _ _ _ off).
  { destruct ho; [| subst off; apply parses_ret].
    rewrite <- (app_nil_r (varint_bytes off)).
    eapply parses_bind; [apply parses_varint; unfold varint_ok, NXP_VARINT_MAX; lia |].
    parses_guard_step. apply parses_ret. }
  eapply (parses_bind _ _ _ _ len).
  { rewrite <- (app_nil_r (varint_bytes len)).
    eapply parses_bind; [apply parses_varint; by eapply ptr_ok_varint |].
    parses_guard_step. apply parses_ret. }
  parses_last_ptr.
Qed.

Lemma varint_bytes_small t : 0 <= t <= 63 -> varint_bytes t = [t].
Proof.
  intros. unfold varint_bytes. rewrite (proj2 (Z.leb_le _ _)) by lia.
  cbn [be_bytes]. change (256 ^ Z.of_nat 0) with 1. f_equal. zlia.
Qed.

Lemma count_zeros_replicate n rest :
  match rest with b :: _ => b <> 0 | [] => True end ->
  count_zeros (replicate n 0 ++ rest) = Z.of_nat n.
Proof.
  intros Hr. induction n as [| n IH]; simpl; [| lia].
  destruct rest as [| b rest]; [done |]. simpl. by rewrite (proj2 (Z.eqb_neq _ _)).
Qed.

Lemma decode_padding n rest : 1 <= n ->
  match rest with b :: _ => b <> 0 | [] => True end ->
  nxp_frame_decode (replicate (Z.to_nat n) 0 ++ rest) = Done (FPadding n, n).
Proof.
  intros Hn Hr. pose proof (count_zeros_replicate (Z.to_nat n) rest Hr) as Hc.
  rewrite Z2Nat.id in Hc by lia. pose proof (zlen_nonneg rest).
  unfold nxp_frame_decode. rewrite (proj2 (Z.eqb_neq _ 0)) by lenlia.
  rewrite Hc. destruct (Z.to_nat n) as [| k] eqn:Hk; [lia |]. simpl. done.
Qed.

Lemma decode_switched t body f rest :
  0 < t <= 63 -> nxp_frame_is_stream t = false ->
  parses (decode_switch t) body f ->
  zlen ((varint_bytes t ++ body) ++ rest) < 2 ^ 63 ->
  nxp_frame_decode ((varint_bytes t ++ body) ++ rest) = Done (f, zlen (varint_bytes t ++ body)).
Proof.
  intros Ht Hns Hp Hlen. unfold nxp_frame_decode. rewrite (varint_bytes_small t) in * by lia.
  pose proof (zlen_nonneg body). pose proof (zlen_nonneg rest).
  rewrite (proj2 (Z.eqb_neq _ 0)) by lenlia.
  simpl app at 1. rewrite rd_at0. cbn [obind].
  unfold NXP_FRAME_PADDING. rewrite (proj2 (Z.eqb_neq t 0)), Hns by lia.
  apply parses_at_0; [| done]. eapply parses_bind; [| done].
  rewrite <- (varint_bytes_small t) by lia. apply parses_varint.
  unfold varint_ok, NXP_VARINT_MAX. lia.
Qed.

(** The decoder finds [f] at the head of any buffer that starts with its image. *)
Lemma decode_frame_bytes f rest : frame_ok f -> delimited f ->
  zlen (frame_bytes f ++ rest) < 2 ^ 63 ->
  match f, rest with FPadding _, b :: _ => b <> 0 | _, _ => True end ->
  nxp_frame_decode (frame_bytes f ++ rest) = Done (f, zlen (frame_bytes f)).
Proof.
  intros Hok Hdel Hlen Hpad. pose proof (parses_switch f Hok) as Hsw.
  destruct f; try solve
    [apply decode_switched; [split; vm_compute; (reflexivity || discriminate) | reflexivity
       | exact Hsw | exact Hlen]].
  all: try solve
    [ unfold frame_bytes in *; cbn [frame_type] in *; case_match;
      (apply decode_switched; [split; vm_compute; (reflexivity || discriminate) | reflexivity
       | exact Hsw | exact Hlen])].
  - unfold frame_bytes in *. simpl in Hok. rewrite decode_padding by done.
    rewrite zlen_replicate, Z2Nat.id by lia. done.
  - pose proof (parses_stream f Hok Hdel) as Hs.
    pose proof (stream_type_byte_bits f) as (His & Hnz & _).
    unfold nxp_frame_decode.
    assert (exists l, frame_bytes (FStream f) ++ rest = stream_type_byte f :: l) as [l Hl]
      by (eexists; reflexivity).
    rewrite Hl, zlen_cons. pose proof (zlen_nonneg l).
    rewrite (proj2 (Z.eqb_neq _ 0)) by lia. rewrite rd_at0. cbn [obind].
    unfold NXP_FRAME_PADDING. rewrite (proj2 (Z.eqb_neq _ 0)), His, <- Hl by done.
    by apply parses_at_0.
Qed.

(** ** Encoders stay inside the buffer *)

Definition ptr_mem (n : Z) (p : option (list Z)) : Prop :=
  0 <= n /\ match p with Some l => n <= zlen l | None => True end.

(** What the C types and the callers guarantee about the memory of a frame:
    unsigned fields, and pointers that designate at least as many bytes as
    their length field says.  Values need not be encodable. *)
Definition frame_mem (f : nxp_frame) : Prop :=
  match f with
  | FPadding n => 0 <= n
  | FPing | FHandshakeDone => True
  | FAck a =>
      0 <= largest_acked a /\ 0 <= ack_delay a /\ 0 <= first_ack_range a /\
      0 <= range_count a <= zlen (ranges a) /\
      Forall (fun r => 0 <= gap r /\ 0 <= ack_range r) (ranges a) /\
      0 <= ect0_count a /\ 0 <= ect1_count a /\ 0 <= ecn_ce_count a
  | FResetStream a b c => 0 <= a /\ 0 <= b /\ 0 <= c
  | FStopSending a b | FMaxStreamData a b | FStreamDataBlocked a b => 0 <= a /\ 0 <= b
  | FCrypto c => 0 <= cr_offset c /\ ptr_mem (cr_length c) (cr_data c)
  | FNewToken n p => ptr_mem n p
  | FStream s => 0 <= sf_stream_id s /\ 0 <= sf_offset s /\ ptr_mem (sf_length s) (sf_data s)
  | FMaxData a | FDataBlocked a | FRetireConnectionId a | FHeartbeat a
  | FMaxStreams a _ | FStreamsBlocked a _ => 0 <= a
  | FNewConnectionId n =>
      0 <= nc_seq_num n /\ 0 <= nc_retire_prior_to n /\ byte (cid_len (nc_cid n)) /\
      zlen (cid_data (nc_cid n)) = NXP_MAX_CID_LEN /\ zlen (nc_reset_token n) = 16
  | FPathChallenge d | FPathResponse d => zlen d = 8
  | FConnectionClose c =>
      0 <= cc_error_code c /\ 0 <= cc_frame_type c /\ ptr_mem (cc_reason_len c) (cc_reason c)
  | FStreamPriority a p => 0 <= a /\ byte p
  | FDatagram n p => ptr_mem n p
  end.

Lemma wsafe_ptr n p : ptr_mem n p -> varint_ok n -> wsafe (wroom n ;; put_ptr p n)%W.
Proof.
  intros [? ?] [? Hn]. unfold NXP_VARINT_MAX in Hn. apply wsafe_room_ptr; [lia | done].
Qed.

Lemma wsafe_if (b : bool) w k : (b = true -> wsafe w) -> (b = false -> wsafe k) ->
  wsafe (if b then w else k).
Proof. destruct b; auto. Qed.

Lemma wsafe_ranges n rs : (n <= length rs)%nat ->
  Forall (fun r => 0 <= gap r /\ 0 <= ack_range r) rs -> wsafe (put_ranges n rs).
Proof.
  revert rs. induction n as [| n IH]; intros rs Hn Hrs; simpl; [apply wsafe_done |].
  destruct rs as [| r rs]; simpl in Hn; [lia |]. apply Forall_cons_iff in Hrs as [[? ?] Hrs].
  apply wsafe_seq; [by apply wsafe_varint |]. apply wsafe_seq; [by apply wsafe_varint |].
  apply IH; [lia | done].
Qed.

Lemma wsafe_mem_checked w bs bad : wfits w bs ->
  (forall pos len, 0 <= pos <= len -> len < 2 ^ 63 -> bad pos len = (len <? pos + zlen bs)) ->
  wsafe (wcheck bad ;; w)%W.
Proof. intros. by eapply wsafe_writes, writes_checked. Qed.

Lemma ptr_mem_if n p : ptr_mem n p -> ptr_mem n (if n >? 0 then p else None).
Proof. intros [? ?]. destruct (n >? 0); by split. Qed.

Ltac nonneg :=
  solve [lia | match goal with |- 0 <= ?c => is_const c; vm_compute; discriminate end
        | case_match; vm_compute; discriminate].
Ltac wsafe_varint_step := apply wsafe_seq; [apply wsafe_varint; nonneg |].

Lemma wsafe_stream_fields s : frame_mem (FStream s) -> wsafe (stream_fields s).
Proof.
  intros (Hid & Hoff & Hp). unfold stream_fields. wsafe_varint_step.
  apply wsafe_seq; [destruct (sf_has_offset s); [by apply wsafe_varint | apply wsafe_done] |].
  cbv zeta. destruct (sf_has_length s).
  - apply wsafe_varint_then; [| apply Hp]. intros Hv.
    destruct (_ >? _); [by apply wsafe_ptr | apply wsafe_done].
  - apply wsafe_seq; apply wsafe_done.
Qed.

Lemma wsafe_ack a : frame_mem (FAck a) -> wsafe (ack_writer a).
Proof.
  intros (? & ? & ? & ? & Hr & ? & ? & ?). unfold ack_writer.
  do 5 wsafe_varint_step. apply wsafe_seq.
  - apply wsafe_ranges; [unfold zlen in *; lia | done].
  - destruct (has_ecn a); [| apply wsafe_done].
    do 2 wsafe_varint_step. by apply wsafe_varint.
Qed.

Lemma wsafe_new_cid n : frame_mem (FNewConnectionId n) ->
  cid_len (nc_cid n) <= NXP_MAX_CID_LEN -> wsafe (new_cid_writer n).
Proof.
  intros (? & ? & Hb & Hd & Ht) Hc. unfold new_cid_writer. cbv zeta.
  set (len := cid_len (nc_cid n)) in *. unfold NXP_MAX_CID_LEN in *.
  do 3 wsafe_varint_step.
  apply wsafe_mem_checked with
    ([len] ++ ztake len (cid_data (nc_cid n)) ++ ztake 16 (nc_reset_token n)).
  - apply wfits_seq; [apply wfits_byte |]. apply wfits_seq; [| apply wfits_mem; lia].
    rewrite Z.gtb_ltb. destruct (Z.ltb_spec 0 len); [apply wfits_mem; lia |].
    replace len with 0 by lia. apply wfits_done.
  - intros. zlen_norm. rewrite !zlen_ztake, u64_small, Z.gtb_ltb by lia. f_equal. lia.
Qed.

Lemma wsafe_close c : frame_mem (FConnectionClose c) -> wsafe (close_writer c).
Proof.
  intros (? & ? & Hp). unfold close_writer. do 2 wsafe_varint_step.
  apply wsafe_seq; [destruct (cc_is_app c); [apply wsafe_done | by apply wsafe_varint] |].
  apply wsafe_varint_then; [| apply Hp]. intros Hv.
  destruct (_ >? _); [by apply wsafe_ptr | apply wsafe_done].
Qed.

Lemma wsafe_priority b : wsafe (wcheck (fun pos buf_len => pos >=? buf_len) ;; put_byte b)%W.
Proof. eapply wsafe_writes, writes_check_byte. intros. by apply check_ge. Qed.

Lemma wsafe_8 d : zlen d = 8 -> wsafe (wroom 8 ;; put_mem d 8)%W.
Proof. intros. apply wsafe_room_mem; lia. Qed.

Lemma encode_frame_safe f buf : frame_mem f -> zlen buf < 2 ^ 63 ->
  exists n buf', encode_frame f buf = Done (n, buf') /\
    0 <= n <= zlen buf /\ zlen buf' = zlen buf.
Proof.
  intros Hm Hb. pose proof (zlen_nonneg buf).
  destruct f; cbn [encode_frame]; cbn [frame_mem] in Hm; destruct_and? Hm.
  all: try solve [apply run_writer_safe; [| done]; repeat wsafe_varint_step;
                  apply wsafe_varint; nonneg].
  - unfold nxp_frame_encode_padding. destruct (Z.eqb_spec count 0); simpl.
    { exists 0, buf. split; [done | lia]. }
    destruct (Z.ltb_spec (zlen buf) count).
    { exists 0, buf. split; [done | lia]. }
    rewrite memcpy_splice by (rewrite ?zlen_replicate; lia). cbn [obind].
    eexists count, _. split; [done |]. rewrite zlen_splice; rewrite ?zlen_ztake; lenlia.
  - unfold nxp_frame_encode_ping. destruct (Z.ltb_spec (zlen buf) 1).
    { exists 0, buf. split; [done | lia]. }
    rewrite wr_splice by lia. eexists 1, _. split; [done |].
    rewrite zlen_splice by lenlia. lia.
  - apply run_writer_safe; [apply wsafe_ack | done]. repeat split; (done || lia).
  - apply run_writer_safe; [| done]. unfold crypto_writer. do 2 wsafe_varint_step.
    apply wsafe_varint_then; [| apply H1]. intros. apply wsafe_ptr; [by apply ptr_mem_if | done].
  - apply run_writer_safe; [| done]. wsafe_varint_step.
    apply wsafe_varint_then; [| apply Hm]. intros. apply wsafe_ptr; [by apply ptr_mem_if | done].
  - rewrite encode_stream_at_0. apply run_writer_safe; [| done].
    apply wsafe_seq; [eapply wsafe_writes, writes_type_byte | by apply wsafe_stream_fields].
  - unfold nxp_frame_encode_new_connection_id. rewrite Z.gtb_ltb.
    destruct (Z.ltb_spec NXP_MAX_CID_LEN (cid_len (nc_cid f))).
    { exists 0, buf. split; [done | lia]. }
    apply run_writer_safe; [apply wsafe_new_cid | done]; [| done]. repeat split; (done || lia).
  - apply run_writer_safe; [| done]. wsafe_varint_step. by apply wsafe_8.
  - apply run_writer_safe; [| done]. wsafe_varint_step. by apply wsafe_8.
  - apply run_writer_safe; [by apply wsafe_close | done].
  - apply run_writer_safe; [| done]. do 2 wsafe_varint_step. apply wsafe_priority.
  - apply run_writer_safe; [| done]. wsafe_varint_step.
    apply wsafe_varint_then; [| apply Hm]. intros.
    destruct (_ >? _); [by apply wsafe_ptr | apply wsafe_done].
Qed.

(** ** Properties *)

(** C32: every frame type round-trips.  For a well-formed frame (a STREAM frame
    carries its length), the encoder either returns 0, exactly when the frame's
    image does not fit, or the number of bytes it wrote; [nxp_frame_decode] on
    the resulting buffer returns that very frame and that number, and the rest
    of the buffer is untouched.  PADDING must not be followed by a zero byte,
    which the decoder would count as more padding. *)
Theorem frame_roundtrip f buf :
  frame_ok f -> delimited f -> zlen buf < 2 ^ 63 ->
  match f, zdrop (zlen (frame_bytes f)) buf with FPadding _, b :: _ => b <> 0 | _, _ => True end ->
  if zlen (frame_bytes f) <=? zlen buf then
    exists n buf', encode_frame f buf = Done (n, buf') /\
      nxp_frame_decode buf' = Done (f, n) /\ zdrop n buf' = zdrop n buf
  else exists buf', encode_frame f buf = Done (0, buf').
Proof.
  intros Hok Hdel Hb Hpad. pose proof (encode_frame_spec f Hok Hdel buf Hb) as He.
  destruct (Z.leb_spec (zlen (frame_bytes f)) (zlen buf)) as [Hle |].
  - eexists _, _. split; [exact He |]. rewrite splice_0.
    split; [| apply zdrop_app]. pose proof (zlen_nonneg (frame_bytes f)).
    apply decode_frame_bytes; try done; [rewrite zlen_app, zlen_zdrop; lia | by destruct f].
  - destruct He as (buf' & He & _). eauto.
Qed.

Definition sample_stream : nxp_frame :=
  FStream (FrameStream 20 1000 3 true true true (Some [104; 105; 33])).

Lemma frame_roundtrip_witness :
  encode_frame sample_stream (replicate 9 0) = Done (8, [15; 20; 67; 232; 3; 104; 105; 33; 0]) /\
  (if zlen (frame_bytes sample_stream) <=? zlen (replicate 9 0) then
    exists n buf', encode_frame sample_stream (replicate 9 0) = Done (n, buf') /\
      nxp_frame_decode buf' = Done (sample_stream, n) /\ zdrop n buf' = zdrop n (replicate 9 0)
  else exists buf', encode_frame sample_stream (replicate 9 0) = Done (0, buf')).
Proof.
  split; [reflexivity |]. apply (frame_roundtrip sample_stream).
  - cbn. unfold stream_ok, ptr_ok. cbn. unfold NXP_MAX_STREAM_ID, NXP_MAX_STREAM_OFFSET,
      NXP_MAX_STREAM_FRAME_DATA. repeat split; try lia. repeat constructor; lia.
  - reflexivity.
  - vm_compute. reflexivity.
  - exact I.
Defined.

(** C33: [nxp_frame_decode] is safe on arbitrary bytes.  It never reads outside
    the buffer; when it succeeds it consumed between 1 and [buf_len] bytes (so
    the frame loop makes progress), and the frame respects every limit of
    frame.c: field ranges, stream, token, reason, crypto and datagram sizes, at
    most 64 ACK ranges and 20 connection ID bytes, with each pointer
    designating exactly the bytes its length field announces. *)
Theorem frame_decode_total buf :
  bytes_ok buf -> zlen buf < 2 ^ 63 ->
  nxp_frame_decode buf = Err tt \/
  exists f n, nxp_frame_decode buf = Done (f, n) /\ frame_ok f /\ 1 <= n <= zlen buf.
Proof.
  intros Hok Hb. pose proof (frame_decode_safe buf Hok Hb) as H.
  destruct (nxp_frame_decode buf) as [[f n] | [] |]; [right; eauto | by left | done].
Qed.

Lemma frame_decode_total_witness :
  bytes_ok [2; 9; 0; 1; 3] /\
  (nxp_frame_decode [2; 9; 0; 1; 3] = Err tt \/
   exists f n, nxp_frame_decode [2; 9; 0; 1; 3] = Done (f, n) /\ frame_ok f /\
     1 <= n <= zlen [2; 9; 0; 1; 3]).
Proof.
  assert (bytes_ok [2; 9; 0; 1; 3]) as H by (repeat constructor; lia).
  split; [exact H | apply (frame_decode_total _ H); vm_compute; reflexivity].
Defined.

(** no encoder writes outside its buffer, whatever the field values: for
    every frame whose pointers are valid, encodable or not, the encoder returns
    normally, reports at most [buf_len] bytes and keeps the buffer's size. *)
Theorem frame_encode_safe f buf :
  frame_mem f -> zlen buf < 2 ^ 63 ->
  exists n buf', encode_frame f buf = Done (n, buf') /\
    0 <= n <= zlen buf /\ zlen buf' = zlen buf.
Proof. apply encode_frame_safe. Qed.

Lemma frame_encode_safe_witness :
  encode_frame (FMaxData (2 ^ 63)) [1; 2; 3] = Done (0, [16; 2; 3]) /\
  exists n buf', encode_frame (FMaxData (2 ^ 63)) [1; 2; 3] = Done (n, buf') /\
    0 <= n <= zlen [1; 2; 3] /\ zlen buf' = zlen [1; 2; 3].
Proof.
  split; [reflexivity |].
  apply (frame_encode_safe (FMaxData (2 ^ 63)) [1; 2; 3]);
    vm_compute; (reflexivity || discriminate).
Defined.
