(* ===== verification/Packet.v ===== *)
(** * Packet headers (src/core/packet_internal.h, packet.c)

    The long and short header codecs and the packet number truncation and
    reconstruction. *)

From S2P Require Import Prelude Types Varint Codec Frame.

(** ** Constants and parsed headers *)

Definition NXP_PKT_FORM_BIT : Z := 0x80.
Definition NXP_PKT_FIXED_BIT : Z := 0x40.
Definition NXP_PKT_LONG_TYPE_MASK : Z := 0x30.
Definition NXP_PKT_LONG_TYPE_SHIFT : Z := 4.
Definition NXP_PKT_LONG_PN_LEN : Z := 0x03.
Definition NXP_PKT_SHORT_SPIN : Z := 0x20.
Definition NXP_PKT_SHORT_KEY_PHASE : Z := 0x10.
Definition NXP_PKT_SHORT_PN_LEN : Z := 0x03.
Definition NXP_MAX_PAYLOAD_LEN : Z := 65536.

Record nxp_pkt_long_header := LongHeader {
  lh_type : nxp_packet_type;
  lh_version : Z;
  lh_dcid : nxp_conn_id;
  lh_scid : nxp_conn_id;
  lh_token : option (list Z);
  lh_token_len : Z;
  lh_payload_len : Z;
  lh_pkt_num : Z;
  lh_pkt_num_len : Z;
  lh_header_len : Z;
  lh_pkt_num_offset : Z }.

Record nxp_pkt_short_header := ShortHeader {
  sh_dcid : nxp_conn_id;
  sh_spin_bit : bool;
  sh_key_phase : bool;
  sh_pkt_num : Z;
  sh_pkt_num_len : Z;
  sh_header_len : Z;
  sh_pkt_num_offset : Z }.

(** ** Encoding *)

Open Scope writer_scope.

Definition nxp_write_u32_be (val : Z) : writer :=
  put_byte (u8 (val >>> 24)) ;;
  put_byte (u8 (val >>> 16)) ;;
  put_byte (u8 (val >>> 8)) ;;
  put_byte (u8 val).

(** [pos += nxp_varint_encode(val, &buf[pos], buf_len - pos);] *)
Definition add_varint (val : Z) : writer := fun buf pos =>
  match nxp_varint_encode val (zdrop pos buf) with
  | Done (n, sub) => WOk (ztake pos buf ++ sub) (pos + n)
  | _ => WUb
  end.

(** The loop over the [n] bytes of a packet number that remain. *)
Fixpoint put_pkt_num (n : nat) (pkt_num : Z) : writer :=
  match n with
  | O => wdone
  | S n => put_byte (u8 (pkt_num >>> (Z.of_nat n * 8))) ;; put_pkt_num n pkt_num
  end.

Definition put_cid (c : nxp_conn_id) : writer :=
  put_byte (cid_len c) ;;
  if cid_len c >? 0 then put_mem (cid_data c) (cid_len c) else wdone.

(** The 2-bit type field; there is none for a short header. *)
Definition long_type_bits (t : nxp_packet_type) : option Z :=
  match t with
  | NXP_PKT_INITIAL => Some 0
  | NXP_PKT_HANDSHAKE => Some 1
  | NXP_PKT_RETRY => Some 2
  | NXP_PKT_ZERO_RTT => Some 3
  | NXP_PKT_SHORT => None
  end.

Definition long_first_byte (type_bits pkt_num_len : Z) : Z :=
  u8 (NXP_PKT_FORM_BIT ||| NXP_PKT_FIXED_BIT |||
      (type_bits <<< NXP_PKT_LONG_TYPE_SHIFT) ||| (pkt_num_len - 1)).

Definition put_token (hdr : nxp_pkt_long_header) : writer :=
  if bool_decide (lh_type hdr = NXP_PKT_INITIAL) then
    add_varint (lh_token_len hdr) ;;
    match lh_token hdr with
    | Some token =>
        if lh_token_len hdr >? 0 then put_mem token (lh_token_len hdr) else wdone
    | None => wdone
    end
  else wdone.

Definition long_header_writer (hdr : nxp_pkt_long_header) (type_bits : Z) : writer :=
  put_byte (long_first_byte type_bits (lh_pkt_num_len hdr)) ;;
  nxp_write_u32_be (lh_version hdr) ;;
  put_cid (lh_dcid hdr) ;;
  put_cid (lh_scid hdr) ;;
  put_token hdr ;;
  add_varint (lh_payload_len hdr) ;;
  put_pkt_num (Z.to_nat (lh_pkt_num_len hdr)) (lh_pkt_num hdr).

(** [needed], without the payload length and the packet number. *)
Definition long_needed (hdr : nxp_pkt_long_header) : option Z :=
  let needed := 7 + cid_len (lh_dcid hdr) + cid_len (lh_scid hdr) in
  if bool_decide (lh_type hdr = NXP_PKT_INITIAL) then
    let token_varint_len := nxp_varint_len (lh_token_len hdr) in
    if token_varint_len =? 0 then None
    else Some (u64 (needed + token_varint_len + lh_token_len hdr))
  else Some needed.

Definition nxp_pkt_encode_long_header (hdr : nxp_pkt_long_header) (buf : list Z)
  : outcome unit (Z * list Z) :=
  if (lh_pkt_num_len hdr <? 1) || (lh_pkt_num_len hdr >? 4) then Done (0, buf) else
  if cid_len (lh_dcid hdr) >? NXP_MAX_CID_LEN then Done (0, buf) else
  if cid_len (lh_scid hdr) >? NXP_MAX_CID_LEN then Done (0, buf) else
  match long_type_bits (lh_type hdr), long_needed hdr with
  | Some type_bits, Some needed =>
      let payload_varint_len := nxp_varint_len (lh_payload_len hdr) in
      if payload_varint_len =? 0 then Done (0, buf) else
      if zlen buf <? u64 (needed + payload_varint_len + lh_pkt_num_len hdr)
      then Done (0, buf)
      else run_writer (long_header_writer hdr type_bits) buf
  | _, _ => Done (0, buf)
  end.

Definition short_first_byte (hdr : nxp_pkt_short_header) : Z :=
  let b := NXP_PKT_FIXED_BIT in
  let b := if sh_spin_bit hdr then b ||| NXP_PKT_SHORT_SPIN else b in
  let b := if sh_key_phase hdr then b ||| NXP_PKT_SHORT_KEY_PHASE else b in
  u8 (b ||| (sh_pkt_num_len hdr - 1)).

Definition short_header_writer (hdr : nxp_pkt_short_header) (dcid_len : Z) : writer :=
  put_byte (short_first_byte hdr) ;;
  (if dcid_len >? 0 then put_mem (cid_data (sh_dcid hdr)) dcid_len else wdone) ;;
  put_pkt_num (Z.to_nat (sh_pkt_num_len hdr)) (sh_pkt_num hdr).

Definition nxp_pkt_encode_short_header (hdr : nxp_pkt_short_header) (dcid_len : Z)
    (buf : list Z) : outcome unit (Z * list Z) :=
  if (sh_pkt_num_len hdr <? 1) || (sh_pkt_num_len hdr >? 4) then Done (0, buf) else
  if dcid_len >? NXP_MAX_CID_LEN then Done (0, buf) else
  if zlen buf <? 1 + dcid_len + sh_pkt_num_len hdr then Done (0, buf) else
  run_writer (short_header_writer hdr dcid_len) buf.

Close Scope writer_scope.

(** ** Decoding *)

Definition nxp_pkt_is_long_header (first_byte : Z) : bool :=
  negb ((first_byte &&& NXP_PKT_FORM_BIT) =? 0).

Open Scope parser_scope.

Definition nxp_read_u32_be : parser Z := fun buf pos =>
  let! b0 := rd buf pos in
  let! b1 := rd buf (pos + 1) in
  let! b2 := rd buf (pos + 2) in
  let! b3 := rd buf (pos + 3) in
  Done ((b0 <<< 24) ||| (b1 <<< 16) ||| (b2 <<< 8) ||| b3, pos + 4).

(** [consumed = nxp_varint_decode(&buf[pos], buf_len - pos, &x);
     if (consumed == 0) return ...; pos += consumed;] *)
Definition take_varint : parser Z := fun buf pos =>
  let! (n, v) := nxp_varint_decode (zdrop pos buf) in Done (v, pos + n).

Definition get_version : parser Z :=
  _ <- pcheck (fun pos buf_len => u64 (pos + 4) >? buf_len) ;;
  nxp_read_u32_be.

Definition get_cid : parser nxp_conn_id :=
  len <- (_ <- pcheck (fun pos buf_len => pos >=? buf_len) ;; get_byte) ;;
  _ <- pguard (len >? NXP_MAX_CID_LEN) ;;
  l <- (_ <- pcheck (fun pos buf_len => u64 (pos + len) >? buf_len) ;; get_mem len) ;;
  pret (mk_conn_id l).

Definition get_token (type : nxp_packet_type) : parser (Z * option (list Z)) :=
  if bool_decide (type = NXP_PKT_INITIAL) then
    token_len <- take_varint ;;
    _ <- pguard (token_len >? NXP_MAX_TOKEN_LEN) ;;
    token <- get_ptr token_len ;;
    pret (token_len, token)
  else pret (0, None).

(** [for (i = 0; i < pkt_num_len; i++) pkt_num = (pkt_num << 8) | buf[pos + i];] *)
Fixpoint read_pkt_num (n : nat) (acc : Z) : parser Z :=
  match n with
  | O => pret acc
  | S n => b <- get_byte ;; read_pkt_num n (u64 (acc <<< 8) ||| b)
  end.

Definition get_pkt_num (pkt_num_len : Z) : parser Z :=
  _ <- pcheck (fun pos buf_len => u64 (pos + pkt_num_len) >? buf_len) ;;
  read_pkt_num (Z.to_nat pkt_num_len) 0.

Definition long_type (first : Z) : nxp_packet_type :=
  let type_bits := (first &&& NXP_PKT_LONG_TYPE_MASK) >>> NXP_PKT_LONG_TYPE_SHIFT in
  if type_bits =? 0 then NXP_PKT_INITIAL
  else if type_bits =? 1 then NXP_PKT_HANDSHAKE
  else if type_bits =? 2 then NXP_PKT_RETRY
  else NXP_PKT_ZERO_RTT.

(** The fields from the first byte to the token: first byte, version,
    connection IDs and token. *)
Definition get_long_prefix
  : parser (Z * Z * nxp_conn_id * nxp_conn_id * (Z * option (list Z))) :=
  first <- get_byte ;;
  _ <- pguard ((first &&& NXP_PKT_FORM_BIT) =? 0) ;;
  _ <- pguard ((first &&& NXP_PKT_FIXED_BIT) =? 0) ;;
  version <- get_version ;;
  dcid <- get_cid ;;
  scid <- get_cid ;;
  token <- get_token (long_type first) ;;
  pret (first, version, dcid, scid, token).

Definition get_payload_len : parser Z :=
  payload_len <- take_varint ;;
  _ <- pguard (payload_len >? NXP_MAX_PAYLOAD_LEN) ;;
  pret payload_len.

Definition get_short_prefix (dcid_len : Z) : parser (Z * nxp_conn_id) :=
  first <- get_byte ;;
  _ <- pguard (negb ((first &&& NXP_PKT_FORM_BIT) =? 0)) ;;
  _ <- pguard ((first &&& NXP_PKT_FIXED_BIT) =? 0) ;;
  l <- (if dcid_len >? 0 then
          _ <- pcheck (fun pos buf_len => u64 (pos + dcid_len) >? buf_len) ;;
          get_mem dcid_len
        else pret []) ;;
  pret (first, mk_conn_id l).

Close Scope parser_scope.

(** Every failure of the field parsers is [NXP_ERR_INVALID_PACKET]. *)
Definition or_invalid {A} (m : outcome unit A) : nxp_result A :=
  match m with
  | Done a => Done a
  | Err _ => Err NXP_ERR_INVALID_PACKET
  | Ub => Ub
  end.

Definition nxp_pkt_decode_long_header (buf : list Z) : nxp_result nxp_pkt_long_header :=
  return_if zlen buf <? 7 with NXP_ERR_INVALID_PACKET ;;
  let! (first, version, dcid, scid, (token_len, token), pos) := or_invalid (get_long_prefix buf 0) in
  let type := long_type first in
  if bool_decide (type = NXP_PKT_RETRY) then
    Done (LongHeader type version dcid scid token token_len (zlen buf - pos) 0 0 pos 0)
  else
  let! (payload_len, pos) := or_invalid (get_payload_len buf pos) in
  let pkt_num_len := (first &&& NXP_PKT_LONG_PN_LEN) + 1 in
  let! (pkt_num, header_len) := or_invalid (get_pkt_num pkt_num_len buf pos) in
  Done (LongHeader type version dcid scid token token_len payload_len
          pkt_num pkt_num_len header_len pos).

Definition nxp_pkt_decode_short_header (buf : list Z) (dcid_len : Z)
  : nxp_result nxp_pkt_short_header :=
  return_if dcid_len >? NXP_MAX_CID_LEN with NXP_ERR_INVALID_ARGUMENT ;;
  return_if zlen buf <? 1 + dcid_len + 1 with NXP_ERR_INVALID_PACKET ;;
  let! (first, dcid, pos) := or_invalid (get_short_prefix dcid_len buf 0) in
  let pkt_num_len := (first &&& NXP_PKT_SHORT_PN_LEN) + 1 in
  let! (pkt_num, header_len) := or_invalid (get_pkt_num pkt_num_len buf pos) in
  Done (ShortHeader dcid (negb ((first &&& NXP_PKT_SHORT_SPIN) =? 0))
          (negb ((first &&& NXP_PKT_SHORT_KEY_PHASE) =? 0)) pkt_num pkt_num_len header_len pos).

(** ** Packet numbers *)

Definition nxp_pkt_decode_pkt_num (largest_acked truncated_pn pn_len : Z) : Z :=
  let expected := u64 (largest_acked + 1) in
  let pn_nbits := pn_len * 8 in
  let pn_win := u64 (1 <<< pn_nbits) in
  let pn_hwin := pn_win / 2 in
  let pn_mask := u64 (pn_win - 1) in
  let candidate := (expected &&& (UINT64_MAX - pn_mask)) ||| truncated_pn in
  if (u64 (candidate + pn_hwin) <=? expected) && (u64 (candidate + pn_win) <? (1 <<< 62))
  then u64 (candidate + pn_win)
  else if (candidate >? u64 (expected + pn_hwin)) && (candidate >=? pn_win)
  then u64 (candidate - pn_win)
  else candidate.

Definition nxp_pkt_num_len (pkt_num largest_acked : Z) : Z :=
  let num_unacked := u64 (pkt_num - largest_acked) in
  if num_unacked <? 0x80 then 1
  else if num_unacked <? 0x8000 then 2
  else if num_unacked <? 0x800000 then 3
  else 4.

(** ** Wire images *)

Definition long_header_ok (h : nxp_pkt_long_header) : Prop :=
  lh_type h <> NXP_PKT_SHORT /\ lh_type h <> NXP_PKT_RETRY /\
  0 <= lh_version h < 2 ^ 32 /\ conn_id_ok (lh_dcid h) /\ conn_id_ok (lh_scid h) /\
  (if bool_decide (lh_type h = NXP_PKT_INITIAL)
   then ptr_ok NXP_MAX_TOKEN_LEN (lh_token_len h) (lh_token h)
   else lh_token_len h = 0 /\ lh_token h = None) /\
  0 <= lh_payload_len h <= NXP_MAX_PAYLOAD_LEN /\ 1 <= lh_pkt_num_len h <= 4 /\ 0 <= lh_pkt_num h.

Definition cid_image (c : nxp_conn_id) : list Z := cid_len c :: ztake (cid_len c) (cid_data c).

Definition token_image (h : nxp_pkt_long_header) : list Z :=
  if bool_decide (lh_type h = NXP_PKT_INITIAL)
  then varint_bytes (lh_token_len h) ++ ptr_bytes (lh_token h) else [].

Definition type_code (t : nxp_packet_type) : Z := default 0 (long_type_bits t).

Definition long_prefix_image (h : nxp_pkt_long_header) : list Z :=
  [long_first_byte (type_code (lh_type h)) (lh_pkt_num_len h)] ++
  be_bytes 4 (lh_version h) ++ cid_image (lh_dcid h) ++ cid_image (lh_scid h) ++ token_image h.

Definition long_header_image (h : nxp_pkt_long_header) : list Z :=
  long_prefix_image h ++ varint_bytes (lh_payload_len h) ++
  be_bytes (Z.to_nat (lh_pkt_num_len h)) (lh_pkt_num h).

Definition short_header_image (h : nxp_pkt_short_header) (dcid_len : Z) : list Z :=
  [short_first_byte h] ++ ztake dcid_len (cid_data (sh_dcid h)) ++
  be_bytes (Z.to_nat (sh_pkt_num_len h)) (sh_pkt_num h).

(** ** The encoders emit the images *)

Lemma shiftr_byte v n : u8 (v >>> (Z.of_nat n * 8)) = (v / 256 ^ Z.of_nat n) mod 256.
Proof.
  unfold u8. rewrite Z.shiftr_div_pow2 by lia. do 2 f_equal.
  rewrite (Z.mul_comm _ 8), Z.pow_mul_r by lia. done.
Qed.

Lemma wfits_pkt_num n v : wfits (put_pkt_num n v) (be_bytes n v).
Proof.
  induction n as [| n IH]; [apply wfits_done |].
  cbn [put_pkt_num be_bytes]. rewrite shiftr_byte.
  change (?b :: ?l) with ([b] ++ l). apply wfits_seq; [apply wfits_byte | exact IH].
Qed.

Lemma wfits_u32 v : wfits (nxp_write_u32_be v) (be_bytes 4 v).
Proof.
  intros buf pos Hpos Hlen. rewrite <- wfits_pkt_num by done.
  unfold nxp_write_u32_be, put_pkt_num, wseq, put_byte, wdone.
  change (Z.of_nat 3 * 8) with 24. change (Z.of_nat 2 * 8) with 16.
  change (Z.of_nat 1 * 8) with 8. change (Z.of_nat 0 * 8) with 0.
  rewrite Z.shiftr_0_r. by repeat case_match.
Qed.

Lemma wfits_add_varint v : varint_ok v -> wfits (add_varint v) (varint_bytes v).
Proof.
  intros Hv buf pos Hpos Hlen. unfold add_varint.
  pose proof (varint_len_cases v Hv) as Hc. rewrite zlen_varint_bytes in * by done.
  rewrite varint_encode_spec, zlen_zdrop by (done || lia).
  rewrite (proj2 (Z.ltb_ge _ _)) by lia. by rewrite splice_zdrop by lia.
Qed.

Lemma zlen_mk_conn_id l : zlen l <= NXP_MAX_CID_LEN ->
  zlen (cid_data (mk_conn_id l)) = NXP_MAX_CID_LEN /\ ztake (zlen l) (cid_data (mk_conn_id l)) = l.
Proof.
  intros Hl. simpl. pose proof (zlen_nonneg l). split; [| apply ztake_app].
  zlen_norm. rewrite Z2Nat.id; lia.
Qed.

Lemma wfits_if_mem src n : 0 <= n <= zlen src ->
  wfits (if n >? 0 then put_mem src n else wdone) (ztake n src).
Proof.
  intros Hn. rewrite Z.gtb_ltb. destruct (Z.ltb_spec 0 n); [by apply wfits_mem |].
  replace n with 0 by lia. apply wfits_done.
Qed.

Lemma wfits_cid c : conn_id_ok c -> wfits (put_cid c) (cid_image c).
Proof.
  intros (l & -> & Hl & _). pose proof (zlen_mk_conn_id l Hl) as [Hd _].
  change (cid_image ?c) with ([cid_len c] ++ ztake (cid_len c) (cid_data c)).
  apply wfits_seq; [apply wfits_byte |]. apply wfits_if_mem.
  rewrite Hd. simpl. pose proof (zlen_nonneg l). lia.
Qed.

Lemma wfits_token h : long_header_ok h -> wfits (put_token h) (token_image h).
Proof.
  intros (_ & _ & _ & _ & _ & Ht & _). unfold put_token, token_image.
  destruct (bool_decide _); [| apply wfits_done]. destruct Ht as [Hn Hp].
  apply wfits_seq.
  { apply wfits_add_varint. unfold varint_ok, NXP_VARINT_MAX, NXP_MAX_TOKEN_LEN in *. lia. }
  destruct (lh_token h) as [l |]; [| apply wfits_done]. simpl. destruct Hp as (Hp & Hl & _).
  rewrite <- (ztake_all (lh_token_len h) l) at 2 by lia.
  apply wfits_if_mem. lia.
Qed.

Lemma wfits_long h tb : long_header_ok h -> long_type_bits (lh_type h) = Some tb ->
  wfits (long_header_writer h tb) (long_header_image h).
Proof.
  intros Hok Htb. unfold long_header_image, long_prefix_image. rewrite <- !app_assoc.
  unfold type_code. rewrite Htb. simpl default.
  pose proof Hok as (_ & _ & _ & Hd & Hs & _ & Hp & _).
  repeat apply wfits_seq; eauto using wfits_byte, wfits_u32, wfits_cid, wfits_token, wfits_pkt_num.
  apply wfits_add_varint. unfold varint_ok, NXP_VARINT_MAX, NXP_MAX_PAYLOAD_LEN in *. lia.
Qed.

Lemma zlen_cid_image c : conn_id_ok c ->
  zlen (cid_image c) = 1 + cid_len c /\ 0 <= cid_len c <= NXP_MAX_CID_LEN.
Proof.
  intros (l & -> & Hl & _). pose proof (zlen_mk_conn_id l Hl) as [Hd Ht].
  pose proof (zlen_nonneg l). unfold cid_image. simpl cid_len. rewrite Ht, zlen_cons. lia.
Qed.

Lemma varint_len_pos v : varint_ok v -> (nxp_varint_len v =? 0) = false /\ 1 <= nxp_varint_len v <= 8.
Proof. intros Hv. pose proof (varint_len_cases v Hv). split; [apply Z.eqb_neq; lia | lia]. Qed.

Lemma zlen_token_image h : long_header_ok h ->
  long_needed h = Some (7 + cid_len (lh_dcid h) + cid_len (lh_scid h) + zlen (token_image h)) /\
  zlen (token_image h) <= 8 + NXP_MAX_TOKEN_LEN.
Proof.
  intros (_ & _ & _ & Hd & Hs & Ht & _). unfold long_needed, token_image.
  pose proof (zlen_cid_image _ Hd) as [_ ?]. pose proof (zlen_cid_image _ Hs) as [_ ?].
  unfold NXP_MAX_CID_LEN, NXP_MAX_TOKEN_LEN in *.
  destruct (bool_decide _); [| split; [f_equal; lenlia | vm_compute; discriminate]].
  destruct Ht as [Hn Hp].
  assert (varint_ok (lh_token_len h)) as Hv by (unfold varint_ok, NXP_VARINT_MAX; lia).
  destruct (varint_len_pos _ Hv) as [-> ?]. rewrite zlen_app, zlen_varint_bytes by done.
  assert (zlen (ptr_bytes (lh_token h)) = lh_token_len h) as Hz.
  { destruct (lh_token h); simpl; [tauto | by rewrite Hp]. }
  rewrite Hz. rewrite u64_small by lia. split; [f_equal; lia | lia].
Qed.

Lemma long_encode_spec h buf : long_header_ok h -> zlen buf < 2 ^ 63 ->
  nxp_pkt_encode_long_header h buf =
    if zlen (long_header_image h) <=? zlen buf
    then Done (zlen (long_header_image h), splice buf 0 (long_header_image h))
    else Done (0, buf).
Proof.
  intros Hok Hb. pose proof (zlen_token_image h Hok) as [Hneed Htok].
  pose proof Hok as (Hsh & _ & _ & Hd & Hs & _ & Hp & Hn & _).
  pose proof (zlen_cid_image _ Hd) as [Hdl ?]. pose proof (zlen_cid_image _ Hs) as [Hsl ?].
  pose proof (zlen_nonneg (token_image h)).
  unfold NXP_MAX_CID_LEN, NXP_MAX_TOKEN_LEN, NXP_MAX_PAYLOAD_LEN in *.
  assert (varint_ok (lh_payload_len h)) as Hv by (unfold varint_ok, NXP_VARINT_MAX; lia).
  destruct (varint_len_pos _ Hv) as [Hz ?].
  assert (zlen (long_header_image h) = 7 + cid_len (lh_dcid h) + cid_len (lh_scid h) +
    zlen (token_image h) + nxp_varint_len (lh_payload_len h) + lh_pkt_num_len h) as Hlen.
  { unfold long_header_image, long_prefix_image. zlen_norm.
    rewrite Hdl, Hsl, !zlen_be_bytes, zlen_varint_bytes by done. lia. }
  unfold nxp_pkt_encode_long_header, NXP_MAX_CID_LEN. rewrite !gtb_le by lia.
  rewrite (proj2 (Z.ltb_ge _ _)) by lia. simpl orb.
  destruct (long_type_bits (lh_type h)) as [tb |] eqn:Htb; [| by destruct (lh_type h)].
  rewrite Hneed, Hz, u64_small by lia. rewrite <- Hlen.
  pose proof (wfits_long h tb Hok Htb buf 0 ltac:(lia)) as Hw. unfold run_writer.
  destruct (Z.ltb_spec (zlen buf) (zlen (long_header_image h))).
  - by rewrite (proj2 (Z.leb_gt _ _)) by lia.
  - rewrite (proj2 (Z.leb_le _ _)) by lia. by rewrite Hw by lia.
Qed.

Definition short_header_ok (h : nxp_pkt_short_header) : Prop :=
  conn_id_ok (sh_dcid h) /\ 1 <= sh_pkt_num_len h <= 4 /\ 0 <= sh_pkt_num h.

Lemma short_encode_spec h buf : short_header_ok h -> zlen buf < 2 ^ 63 ->
  let image := short_header_image h (cid_len (sh_dcid h)) in
  nxp_pkt_encode_short_header h (cid_len (sh_dcid h)) buf =
    if zlen image <=? zlen buf then Done (zlen image, splice buf 0 image) else Done (0, buf).
Proof.
  intros (Hd & Hn & _) Hb image. destruct Hd as (l & Hl & Hmax & Hlok).
  pose proof (zlen_mk_conn_id l Hmax) as [Hdl Ht]. pose proof (zlen_nonneg l).
  rewrite Hl in *. simpl cid_len in *. unfold NXP_MAX_CID_LEN in *.
  assert (zlen image = 1 + zlen l + sh_pkt_num_len h) as Hlen.
  { unfold image, short_header_image. rewrite Hl. simpl cid_len. rewrite Ht. zlen_norm. rewrite zlen_be_bytes. lia. }
  unfold nxp_pkt_encode_short_header, NXP_MAX_CID_LEN. rewrite !gtb_le by lia.
  rewrite (proj2 (Z.ltb_ge _ _)) by lia. simpl orb. rewrite <- Hlen.
  assert (wfits (short_header_writer h (zlen l)) image) as Hw.
  { unfold image. rewrite Hl. simpl cid_len. repeat apply wfits_seq; auto using wfits_byte, wfits_pkt_num.
    apply wfits_if_mem. rewrite Hl, Hdl. lia. }
  specialize (Hw buf 0 ltac:(lia)). unfold run_writer.
  destruct (Z.ltb_spec (zlen buf) (zlen image)).
  - by rewrite (proj2 (Z.leb_gt _ _)) by lia.
  - rewrite (proj2 (Z.leb_le _ _)) by lia. by rewrite Hw by lia.
Qed.

(** ** The decoders invert the images *)

Lemma shiftl_lor_byte a b : 0 <= b < 256 -> (a <<< 8) ||| b = a * 256 + b.
Proof.
  intros Hb. rewrite Z.shiftl_mul_pow2 by lia.
  rewrite (lor_disjoint _ b 8); [done | lia | | done].
  apply Z.mod_mul. lia.
Qed.

Lemma parses_byte b : parses get_byte [b] b.
Proof.
  intros pre post Hlen. unfold get_byte.
  replace (zlen pre) with (zlen pre + 0) at 1 by lia. rewrite rd_app_r by lia. done.
Qed.

Lemma read_pkt_num_parses l acc : bytes_ok l -> zlen l <= 4 -> 0 <= acc ->
  acc * 256 ^ zlen l + be_val l < 2 ^ 32 ->
  parses (read_pkt_num (length l) acc) l (acc * 256 ^ zlen l + be_val l).
Proof.
  revert acc. induction l as [| b l IH]; intros acc Hok Hlen Hacc Hv.
  - replace (acc * 256 ^ zlen [] + be_val []) with acc; [apply parses_ret |].
    change (256 ^ zlen (@nil Z)) with 1. simpl. lia.
  - apply bytes_ok_cons in Hok as [Hb Hok]. pose proof (be_val_range l Hok) as Hr.
    pose proof (zlen_nonneg l). rewrite zlen_cons in *. cbn [be_val length read_pkt_num] in *.
    rewrite Z.pow_add_r, Z.pow_1_r in * by lia.
    assert (0 < 256 ^ zlen l) by (apply Z.pow_pos_nonneg; lia).
    assert (acc < 2 ^ 32) by nia.
    change (b :: l) with ([b] ++ l). eapply parses_bind; [apply parses_byte |].
    replace (u64 (acc <<< 8) ||| b) with (acc * 256 + b).
    + replace (acc * (256 * 256 ^ zlen l) + (b * 256 ^ zlen l + be_val l))
        with ((acc * 256 + b) * 256 ^ zlen l + be_val l) by lia.
      apply IH; [done | lia | lia | nia].
    + rewrite u64_small; [by rewrite shiftl_lor_byte |].
      rewrite Z.shiftl_mul_pow2 by lia. lia.
Qed.

Lemma check_room_len n pos len : 0 <= n < 2 ^ 62 -> 0 <= pos <= len -> len < 2 ^ 63 ->
  (u64 (pos + n) >? len) = (len <? pos + n).
Proof. intros. rewrite u64_small by lia. by rewrite Z.gtb_ltb. Qed.

(** A parser after a check that its bytes are there. *)
Lemma parses_checked {A} (p : parser A) bad bs a : parses p bs a ->
  (forall pos len, 0 <= pos <= len -> len < 2 ^ 63 -> bad pos len = (len <? pos + zlen bs)) ->
  parses (pbind (pcheck bad) (fun _ => p)) bs a.
Proof.
  intros Hp Hbad pre post Hlen. pose proof (zlen_nonneg pre). pose proof (zlen_nonneg post).
  pose proof (zlen_nonneg bs). unfold pbind, pcheck. rewrite Hbad by (done || lenlia).
  rewrite (proj2 (Z.ltb_ge _ _)) by lenlia. apply Hp. done.
Qed.

Lemma parses_pkt_num n v : 1 <= n <= 4 ->
  parses (get_pkt_num n) (be_bytes (Z.to_nat n) v) (v mod 256 ^ n).
Proof.
  intros Hn. unfold get_pkt_num. apply parses_checked.
  - pose proof (be_val_range _ (be_bytes_ok (Z.to_nat n) v)) as Hr.
    rewrite zlen_be_bytes, Z2Nat.id in Hr by lia.
    assert (256 ^ n <= 256 ^ 4) by (apply Z.pow_le_mono_r; lia).
    pose proof (read_pkt_num_parses (be_bytes (Z.to_nat n) v) 0 (be_bytes_ok _ _)) as H'.
    rewrite length_be_bytes, zlen_be_bytes, Z2Nat.id, Z.mul_0_l, Z.add_0_l in H' by lia.
    replace (v mod 256 ^ n) with (be_val (be_bytes (Z.to_nat n) v)).
    + apply H'; lia.
    + rewrite be_val_be_bytes, Z2Nat.id by lia. done.
  - intros. rewrite zlen_be_bytes, Z2Nat.id by lia. apply check_room_len; lia.
Qed.

Lemma read_u32_val b0 b1 b2 b3 : byte b0 -> byte b1 -> byte b2 -> byte b3 ->
  (b0 <<< 24) ||| (b1 <<< 16) ||| (b2 <<< 8) ||| b3 = be_val [b0; b1; b2; b3].
Proof.
  intros. replace ((b0 <<< 24) ||| (b1 <<< 16) ||| (b2 <<< 8))
    with (((((b0 <<< 8) ||| b1) <<< 8) ||| b2) <<< 8).
  - rewrite !shiftl_lor_byte by lia. cbn [be_val]. unfold zlen; simpl. lia.
  - rewrite !Z.shiftl_lor, !Z.shiftl_shiftl by lia. done.
Qed.

Lemma parses_version v : 0 <= v < 2 ^ 32 -> parses get_version (be_bytes 4 v) v.
Proof.
  intros Hv. unfold get_version. apply parses_checked.
  - pose proof (be_bytes_ok 4 v) as Hok.
    rewrite <- (be_val_be_bytes_small 4 v) at 2 by (change (256 ^ Z.of_nat 4) with (2 ^ 32); lia).
    destruct (be_bytes 4 v) as [| b0 [| b1 [| b2 [| b3 [| ]]]]] eqn:Hb; try done.
    rewrite !bytes_ok_cons in Hok. destruct_and! Hok.
    intros pre post Hlen. unfold nxp_read_u32_be.
    replace (zlen pre) with (zlen pre + 0) at 1 by lia. rewrite !rd_app_r by lia.
    simpl app. autorewrite with nxp_rd. cbn [obind]. by rewrite read_u32_val.
  - intros. rewrite zlen_be_bytes. apply check_room_len; lia.
Qed.

Lemma parses_take_varint v : varint_ok v -> parses take_varint (varint_bytes v) v.
Proof.
  intros Hv pre post Hlen. unfold take_varint.
  rewrite zdrop_app, varint_decode_bytes by done. cbn [obind]. by rewrite zlen_varint_bytes.
Qed.

Lemma parses_cid c : conn_id_ok c -> parses get_cid (cid_image c) c.
Proof.
  intros (l & -> & Hl & Hok). pose proof (zlen_mk_conn_id l Hl) as [_ Ht].
  unfold cid_image. simpl cid_len. rewrite Ht. change (zlen l :: l) with ([zlen l] ++ l).
  unfold get_cid, NXP_MAX_CID_LEN in *. pose proof (zlen_nonneg l).
  eapply parses_bind; [apply parses_check_byte; intros; by apply check_ge |].
  apply parses_guard_then; [apply gtb_le; lia |].
  eapply parses_last; [| reflexivity]. apply parses_check_mem; [done |].
  intros. apply check_room_len; lia.
Qed.

Lemma parses_token h : long_header_ok h ->
  parses (get_token (lh_type h)) (token_image h) (lh_token_len h, lh_token h).
Proof.
  intros (_ & _ & _ & _ & _ & Ht & _). unfold get_token, token_image.
  destruct (bool_decide _); [| destruct Ht as [-> ->]; apply parses_ret].
  pose proof (proj1 Ht). unfold NXP_MAX_TOKEN_LEN in *.
  eapply parses_bind; [apply parses_take_varint; unfold varint_ok, NXP_VARINT_MAX; lia |].
  apply parses_guard_then; [apply gtb_le; lia |].
  eapply parses_last; [by eapply parses_ptr | reflexivity].
Qed.

Lemma cases_1_4 n : 1 <= n <= 4 -> n = 1 \/ n = 2 \/ n = 3 \/ n = 4.
Proof. lia. Qed.

Lemma long_first_byte_bits t n : t <> NXP_PKT_SHORT -> 1 <= n <= 4 ->
  let b := long_first_byte (type_code t) n in
  ((b &&& NXP_PKT_FORM_BIT) =? 0) = false /\ ((b &&& NXP_PKT_FIXED_BIT) =? 0) = false /\
  long_type b = t /\ (b &&& NXP_PKT_LONG_PN_LEN) + 1 = n.
Proof.
  intros Ht Hn. destruct (cases_1_4 n Hn) as [-> | [-> | [-> | ->]]];
    destruct t; try done; by vm_compute.
Qed.

Lemma short_first_byte_bits h : 1 <= sh_pkt_num_len h <= 4 ->
  let b := short_first_byte h in
  ((b &&& NXP_PKT_FORM_BIT) =? 0) = true /\ ((b &&& NXP_PKT_FIXED_BIT) =? 0) = false /\
  negb ((b &&& NXP_PKT_SHORT_SPIN) =? 0) = sh_spin_bit h /\
  negb ((b &&& NXP_PKT_SHORT_KEY_PHASE) =? 0) = sh_key_phase h /\
  (b &&& NXP_PKT_SHORT_PN_LEN) + 1 = sh_pkt_num_len h.
Proof.
  intros Hn. destruct h as [c s k v n hl po]. simpl in *.
  destruct (cases_1_4 n Hn) as [-> | [-> | [-> | ->]]];
    destruct s, k; by vm_compute.
Qed.

Lemma parses_long_prefix h : long_header_ok h ->
  parses get_long_prefix (long_prefix_image h)
    (long_first_byte (type_code (lh_type h)) (lh_pkt_num_len h), lh_version h,
     lh_dcid h, lh_scid h, (lh_token_len h, lh_token h)).
Proof.
  intros Hok. pose proof Hok as (Hsh & _ & Hv & Hd & Hs & _ & _ & Hn & _).
  pose proof (long_first_byte_bits _ _ Hsh Hn) as (Hform & Hfix & Ht & _).
  unfold get_long_prefix, long_prefix_image.
  eapply parses_bind; [apply parses_byte |].
  do 2 (apply parses_guard_then; [done |]).
  eapply parses_bind; [by apply parses_version |].
  do 2 (eapply parses_bind; [by apply parses_cid |]).
  eapply parses_last; [rewrite Ht; by apply parses_token | reflexivity].
Qed.

(** The header the decoder rebuilds: the packet number is truncated to
    [pkt_num_len] bytes and the offsets are filled in. *)
Definition long_decoded (h : nxp_pkt_long_header) : nxp_pkt_long_header :=
  let len := zlen (long_header_image h) in
  LongHeader (lh_type h) (lh_version h) (lh_dcid h) (lh_scid h) (lh_token h) (lh_token_len h)
    (lh_payload_len h) (lh_pkt_num h mod 256 ^ lh_pkt_num_len h) (lh_pkt_num_len h)
    len (len - lh_pkt_num_len h).

Lemma parses_payload_len v : 0 <= v <= NXP_MAX_PAYLOAD_LEN ->
  parses get_payload_len (varint_bytes v) v.
Proof.
  intros Hv. unfold get_payload_len, NXP_MAX_PAYLOAD_LEN in *.
  rewrite <- (app_nil_r (varint_bytes v)).
  eapply parses_bind; [apply parses_take_varint; unfold varint_ok, NXP_VARINT_MAX; lia |].
  apply parses_guard_then; [apply gtb_le; lia | apply parses_ret].
Qed.

Lemma long_image_min h : long_header_ok h -> 7 <= zlen (long_header_image h).
Proof.
  intros (_ & _ & _ & Hd & Hs & _). unfold long_header_image, long_prefix_image.
  pose proof (zlen_cid_image _ Hd) as [? ?]. pose proof (zlen_cid_image _ Hs) as [? ?].
  pose proof (zlen_nonneg (token_image h)). pose proof (zlen_nonneg (varint_bytes (lh_payload_len h))).
  zlen_norm. rewrite !zlen_be_bytes. lia.
Qed.

Lemma long_decode_image h rest : long_header_ok h ->
  zlen (long_header_image h ++ rest) < 2 ^ 63 ->
  nxp_pkt_decode_long_header (long_header_image h ++ rest) = Done (long_decoded h).
Proof.
  intros Hok Hlen. pose proof (long_image_min h Hok). pose proof (zlen_nonneg rest).
  pose proof Hok as (Hsh & Hre & _ & _ & _ & _ & Hp & Hn & _).
  pose proof (long_first_byte_bits _ _ Hsh Hn) as (_ & _ & Ht & Hpn).
  unfold nxp_pkt_decode_long_header.
  rewrite (proj2 (Z.ltb_ge _ _)) by lenlia.
  unfold long_decoded. unfold long_header_image in Hlen |- *.
  set (pn := be_bytes _ _) in *. set (pl := varint_bytes _) in *.
  assert (zlen pn = lh_pkt_num_len h) as Hpl by (unfold pn; rewrite zlen_be_bytes; lia).
  rewrite <- !app_assoc in *.
  rewrite (parses_at_0 _ _ _ _ (parses_long_prefix h Hok) Hlen). cbn [or_invalid obind].
  rewrite Ht, Hpn. rewrite bool_decide_eq_false_2 by done.
  pose proof (parses_payload_len _ Hp (long_prefix_image h) (pn ++ rest) Hlen) as Hq0. fold pl in Hq0. rewrite Hq0.
  cbn [or_invalid obind].
  pose proof (parses_pkt_num _ (lh_pkt_num h) Hn (long_prefix_image h ++ pl) rest) as Hq.
  rewrite <- !app_assoc in Hq. fold pn in Hq.
  rewrite <- zlen_app, Hq by done. cbn [or_invalid obind]. do 2 f_equal; lenlia.
Qed.

Definition short_decoded (h : nxp_pkt_short_header) : nxp_pkt_short_header :=
  let dcid_len := cid_len (sh_dcid h) in
  ShortHeader (sh_dcid h) (sh_spin_bit h) (sh_key_phase h)
    (sh_pkt_num h mod 256 ^ sh_pkt_num_len h) (sh_pkt_num_len h)
    (1 + dcid_len + sh_pkt_num_len h) (1 + dcid_len).

Lemma parses_short_prefix h : short_header_ok h ->
  parses (get_short_prefix (cid_len (sh_dcid h)))
    ([short_first_byte h] ++ ztake (cid_len (sh_dcid h)) (cid_data (sh_dcid h)))
    (short_first_byte h, sh_dcid h).
Proof.
  intros ((l & Hl & Hmax & Hlok) & Hn & _).
  pose proof (short_first_byte_bits h Hn) as (Hform & Hfix & _).
  pose proof (zlen_mk_conn_id l Hmax) as [_ Ht]. rewrite Hl. simpl cid_len. rewrite Ht.
  unfold get_short_prefix, NXP_MAX_CID_LEN in *. pose proof (zlen_nonneg l).
  eapply parses_bind; [apply parses_byte |].
  apply parses_guard_then; [by rewrite Hform |]. apply parses_guard_then; [done |].
  eapply parses_last; [| reflexivity]. rewrite Z.gtb_ltb.
  destruct (Z.ltb_spec 0 (zlen l)).
  - apply parses_check_mem; [done |]. intros. apply check_room_len; lia.
  - destruct l; [apply parses_ret | rewrite zlen_cons in *; pose proof (zlen_nonneg l); lia].
Qed.

Lemma short_decode_image h rest : short_header_ok h ->
  zlen (short_header_image h (cid_len (sh_dcid h)) ++ rest) < 2 ^ 63 ->
  nxp_pkt_decode_short_header
    (short_header_image h (cid_len (sh_dcid h)) ++ rest) (cid_len (sh_dcid h)) =
  Done (short_decoded h).
Proof.
  intros Hok Hlen. pose proof (parses_short_prefix h Hok) as Hpre.
  pose proof Hok as ((l & Hl & Hmax & _) & Hn & _).
  pose proof (short_first_byte_bits h Hn) as (_ & _ & Hs & Hk & Hpn).
  pose proof (zlen_mk_conn_id l Hmax) as [_ Ht]. pose proof (zlen_nonneg l).
  pose proof (zlen_nonneg rest). unfold NXP_MAX_CID_LEN in *.
  unfold nxp_pkt_decode_short_header, NXP_MAX_CID_LEN.
  assert (cid_len (sh_dcid h) = zlen l) as Hcl by (by rewrite Hl).
  assert (zlen (ztake (cid_len (sh_dcid h)) (cid_data (sh_dcid h))) = zlen l) as Hct
    by (rewrite Hl; simpl cid_len; by rewrite Ht).
  rewrite gtb_le by lia. unfold short_header_image in *. set (pn := be_bytes _ _) in *.
  assert (zlen pn = sh_pkt_num_len h) as Hpl by (unfold pn; rewrite zlen_be_bytes; lia).
  rewrite (proj2 (Z.ltb_ge _ _)) by (zlen_norm; lia).
  rewrite (app_assoc [_]) in *. set (pre := [_] ++ _) in *.
  assert (zlen pre = 1 + zlen l) as Hpr by (unfold pre; zlen_norm; lia).
  rewrite <- app_assoc in *. rewrite (parses_at_0 _ _ _ _ Hpre Hlen). cbn [or_invalid obind].
  rewrite Hpn. pose proof (parses_pkt_num _ (sh_pkt_num h) Hn pre rest Hlen) as Hq.
  fold pn in Hq. rewrite Hq. cbn [or_invalid obind]. rewrite Hs, Hk. unfold short_decoded. do 2 f_equal; lia.
Qed.

(** ** Safety of the decoders *)

Lemma rd_inside {E} buf i : bytes_ok buf -> 0 <= i < zlen buf ->
  exists b, @rd E buf i = Done b /\ byte b.
Proof.
  intros Hok Hi. destruct (@rd_Done E buf i Hi) as (b & Hb & _).
  exists b. split; [done | by eapply rd_byte].
Qed.

Lemma psafe_take_varint : psafe take_varint varint_ok.
Proof.
  intros buf pos Hok Hb Hpos. unfold take_varint.
  destruct (varint_decode_cases (zdrop pos buf)) as [-> | (n & v & -> & Hv & Hn & _)];
    [by apply bytes_ok_drop | done |].
  rewrite zlen_zdrop in Hn by lia. simpl. split; [done | lia].
Qed.

Lemma psafe_version : psafe get_version (fun v => 0 <= v < 2 ^ 32).
Proof.
  intros buf pos Hok Hb Hpos. unfold get_version, pbind, pcheck, nxp_read_u32_be.
  rewrite check_room_len by lia. destruct (Z.ltb_spec (zlen buf) (pos + 4)); [done |].
  cbn [obind].
  destruct (@rd_inside unit buf pos Hok) as (b0 & -> & ?); [lia |].
  destruct (@rd_inside unit buf (pos + 1) Hok) as (b1 & -> & ?); [lia |].
  destruct (@rd_inside unit buf (pos + 2) Hok) as (b2 & -> & ?); [lia |].
  destruct (@rd_inside unit buf (pos + 3) Hok) as (b3 & -> & ?); [lia |].
  cbn [obind]. rewrite read_u32_val by done. split; [| lia].
  apply (be_val_range [b0; b1; b2; b3]). unfold bytes_ok; repeat (apply Forall_cons_2; [done |]); apply Forall_nil_2.
Qed.

Lemma psafe_cid : psafe get_cid conn_id_ok.
Proof.
  unfold get_cid, NXP_MAX_CID_LEN. psafe_step. psafe_step. use_guards.
  eapply psafe_bind.
  { apply (psafe_check_mem a); [lia |]. intros. apply check_room_len; lia. }
  intros l [Hl Hok]. apply psafe_ret. exists l. unfold NXP_MAX_CID_LEN.
  split_and!; (done || lia).
Qed.

Definition token_ok (t : nxp_packet_type) (tok : Z * option (list Z)) : Prop :=
  if bool_decide (t = NXP_PKT_INITIAL)
  then ptr_ok NXP_MAX_TOKEN_LEN (fst tok) (snd tok) else tok = (0, None).

Lemma psafe_token t : psafe (get_token t) (token_ok t).
Proof.
  unfold get_token, token_ok. destruct (bool_decide _); [| by apply psafe_ret].
  eapply psafe_bind; [apply psafe_take_varint | intros n Hn].
  psafe_step. use_guards. psafe_ptr_step NXP_MAX_TOKEN_LEN. by apply psafe_ret.
Qed.

Lemma psafe_payload_len : psafe get_payload_len (fun v => 0 <= v <= NXP_MAX_PAYLOAD_LEN).
Proof.
  unfold get_payload_len. eapply psafe_bind; [apply psafe_take_varint | intros n Hn].
  repeat psafe_step. use_guards. lia.
Qed.

Lemma read_pkt_num_safe n acc buf pos : bytes_ok buf -> 0 <= pos -> pos + Z.of_nat n <= zlen buf ->
  0 <= acc -> exists v, read_pkt_num n acc buf pos = Done (v, pos + Z.of_nat n).
Proof.
  intros Hok. revert acc pos. induction n as [| n IH]; intros acc pos Hpos Hlen Hacc.
  - exists acc. unfold read_pkt_num, pret. do 2 f_equal. lia.
  - cbn [read_pkt_num]. unfold pbind, get_byte.
    destruct (@rd_inside unit buf pos Hok) as (b & -> & Hb); [lia |]. cbn [obind].
    destruct (IH (u64 (acc <<< 8) ||| b) (pos + 1)) as [v ->]; try lia.
    { apply Z.lor_nonneg. pose proof (u64_range (acc <<< 8)). lia. }
    exists v. do 2 f_equal. lia.
Qed.

Lemma pkt_num_safe n buf pos : 1 <= n <= 4 -> bytes_ok buf -> zlen buf < 2 ^ 63 ->
  0 <= pos <= zlen buf ->
  match get_pkt_num n buf pos with
  | Done (v, pos') => 0 <= v < 256 ^ n /\ pos' = pos + n /\ pos' <= zlen buf
  | Err _ => True
  | Ub => False
  end.
Proof.
  intros Hn Hok Hb Hpos. unfold get_pkt_num, pbind, pcheck.
  rewrite check_room_len by lia. destruct (Z.ltb_spec (zlen buf) (pos + n)); [done |].
  cbn [obind]. destruct (read_pkt_num_safe (Z.to_nat n) 0 buf pos Hok) as [v Hv]; try lia.
  rewrite Hv, Z2Nat.id by lia. split; [| lia].
  assert (buf = ztake pos buf ++ ztake n (zdrop pos buf) ++ zdrop (pos + n) buf) as Hsplit.
  { rewrite <- zdrop_zdrop, !ztake_zdrop by lia. done. }
  set (l := ztake n (zdrop pos buf)) in *.
  assert (zlen l = n) as Hl by (unfold l; rewrite zlen_ztake; [done | rewrite zlen_zdrop; lia]).
  assert (bytes_ok l) as Hlok by (by apply bytes_ok_take, bytes_ok_drop).
  pose proof (be_val_range l Hlok) as Hr. rewrite Hl in Hr.
  assert (256 ^ n <= 256 ^ 4) by (apply Z.pow_le_mono_r; lia).
  pose proof (read_pkt_num_parses l 0 Hlok) as Hp. rewrite Hl, Z.mul_0_l, Z.add_0_l in Hp.
  specialize (Hp ltac:(lia) ltac:(lia) ltac:(lia) (ztake pos buf) (zdrop (pos + n) buf)).
  rewrite <- Hsplit, zlen_ztake in Hp by lia.
  replace (length l) with (Z.to_nat n) in Hp by (unfold zlen in Hl; lia).
  rewrite Hp in Hv by done. injection Hv as <- _. lia.
Qed.

(** What a parsed long header of a buffer of [len] bytes satisfies. *)
Definition long_parsed_ok (h : nxp_pkt_long_header) (len : Z) : Prop :=
  lh_type h <> NXP_PKT_SHORT /\ 0 <= lh_version h < 2 ^ 32 /\
  conn_id_ok (lh_dcid h) /\ conn_id_ok (lh_scid h) /\
  token_ok (lh_type h) (lh_token_len h, lh_token h) /\ 0 <= lh_header_len h <= len /\
  if bool_decide (lh_type h = NXP_PKT_RETRY)
  then lh_payload_len h = len - lh_header_len h /\ lh_pkt_num_len h = 0 /\ lh_pkt_num h = 0
  else 0 <= lh_payload_len h <= NXP_MAX_PAYLOAD_LEN /\ 1 <= lh_pkt_num_len h <= 4 /\
       0 <= lh_pkt_num h < 256 ^ lh_pkt_num_len h /\ 1 <= lh_pkt_num_offset h /\
       lh_pkt_num_offset h + lh_pkt_num_len h = lh_header_len h.

Definition short_parsed_ok (h : nxp_pkt_short_header) (dcid_len len : Z) : Prop :=
  conn_id_ok (sh_dcid h) /\ cid_len (sh_dcid h) = dcid_len /\
  1 <= sh_pkt_num_len h <= 4 /\ 0 <= sh_pkt_num h < 256 ^ sh_pkt_num_len h /\
  sh_pkt_num_offset h = 1 + dcid_len /\
  sh_header_len h = sh_pkt_num_offset h + sh_pkt_num_len h /\ sh_header_len h <= len.

Lemma pn_len_range b : 1 <= (b &&& 3) + 1 <= 4.
Proof. rewrite land_3. zlia. Qed.

Lemma long_prefix_safe buf : bytes_ok buf -> 1 <= zlen buf < 2 ^ 63 ->
  match get_long_prefix buf 0 with
  | Done (first, version, dcid, scid, token, pos) =>
      0 <= version < 2 ^ 32 /\ conn_id_ok dcid /\ conn_id_ok scid /\
      token_ok (long_type first) token /\ 1 <= pos <= zlen buf
  | Err _ => True
  | Ub => False
  end.
Proof.
  intros Hok Hb. unfold get_long_prefix, pbind at 1, get_byte.
  destruct (@rd_inside unit buf 0 Hok) as (b & -> & Hbb); [lia |]. cbn [obind].
  match goal with |- context [?p buf (0 + 1)] =>
    assert (psafe p (fun '(first, version, dcid, scid, token) =>
      0 <= version < 2 ^ 32 /\ conn_id_ok dcid /\ conn_id_ok scid /\
      token_ok (long_type first) token)) as Hp end.
  { psafe_step. psafe_step.
    eapply psafe_bind; [apply psafe_version | intros ? ?].
    do 2 (eapply psafe_bind; [apply psafe_cid | intros ? ?]).
    eapply psafe_bind; [apply psafe_token | intros ? ?]. by apply psafe_ret. }
  specialize (Hp buf (0 + 1) Hok ltac:(lia) ltac:(lia)).
  match goal with |- match ?x with _ => _ end =>
    destruct x as [[[[[[f v] d] s] t] pos] | |] end; [| done | done].
  destruct Hp as [(? & ? & ? & ?) ?]. split_and!; (done || lia).
Qed.

Lemma long_decode_safe buf : bytes_ok buf -> zlen buf < 2 ^ 63 ->
  match nxp_pkt_decode_long_header buf with
  | Done h => long_parsed_ok h (zlen buf)
  | Err e => e = NXP_ERR_INVALID_PACKET
  | Ub => False
  end.
Proof.
  intros Hok Hb. unfold nxp_pkt_decode_long_header.
  destruct (Z.ltb_spec (zlen buf) 7); [done |].
  pose proof (long_prefix_safe buf Hok ltac:(lia)) as Hp.
  destruct (get_long_prefix buf 0) as [[[[[[f v] d] s] [tn t]] pos] | |];
    cbn [or_invalid obind]; [| done | done].
  destruct Hp as (Hv & Hd & Hs & Ht & Hpos).
  assert (long_type f <> NXP_PKT_SHORT) as Hsh.
  { unfold long_type. by repeat case_match. }
  destruct (bool_decide (long_type f = NXP_PKT_RETRY)) eqn:Hre.
  { unfold long_parsed_ok. simpl. rewrite Hre. split_and!; (done || lia). }
  pose proof (psafe_payload_len buf pos Hok Hb ltac:(lia)) as Hpl.
  destruct (get_payload_len buf pos) as [[pl pos'] | |]; cbn [or_invalid obind]; [| done | done].
  destruct Hpl as [Hpl Hpos'].
  pose proof (pkt_num_safe _ buf pos' (pn_len_range f) Hok Hb ltac:(lia)) as Hpn.
  unfold NXP_PKT_LONG_PN_LEN.
  destruct (get_pkt_num _ buf pos') as [[pn hl] | |]; cbn [or_invalid obind]; [| done | done].
  unfold long_parsed_ok. simpl. rewrite Hre. pose proof (pn_len_range f).
  split_and!; (done || lia).
Qed.

Lemma short_decode_safe buf dcid_len : bytes_ok buf -> zlen buf < 2 ^ 63 -> 0 <= dcid_len ->
  match nxp_pkt_decode_short_header buf dcid_len with
  | Done h => short_parsed_ok h dcid_len (zlen buf)
  | Err e => e = NXP_ERR_INVALID_PACKET \/ e = NXP_ERR_INVALID_ARGUMENT
  | Ub => False
  end.
Proof.
  intros Hok Hb Hd. unfold nxp_pkt_decode_short_header.
  destruct (dcid_len >? NXP_MAX_CID_LEN) eqn:Hmax; [by right |]. use_guards.
  destruct (Z.ltb_spec (zlen buf) (1 + dcid_len + 1)); [by left |].
  unfold get_short_prefix, pbind at 1, get_byte.
  destruct (@rd_inside unit buf 0 Hok) as (b & -> & Hbb); [lia |]. cbn [obind].
  unfold pbind at 1, pguard, pcheck at 1. destruct (negb _); cbn [obind or_invalid]; [by left |].
  unfold pbind at 1, pcheck at 1. destruct (_ =? 0); cbn [obind or_invalid]; [by left |].
  assert (exists l, (if dcid_len >? 0 then
      pbind (pcheck (fun pos buf_len => u64 (pos + dcid_len) >? buf_len)) (fun _ => get_mem dcid_len)
    else pret []) buf (0 + 1) = Done (l, 1 + dcid_len) /\ zlen l = dcid_len /\ bytes_ok l) as Hl.
  { rewrite Z.gtb_ltb. unfold NXP_MAX_CID_LEN in *. destruct (Z.ltb_spec 0 dcid_len).
    - unfold pbind, pcheck, get_mem. rewrite check_room_len by lia.
      rewrite (proj2 (Z.ltb_ge _ _)) by lia. cbn [obind]. rewrite sub_buf_Done by lia. cbn [obind]. eexists. split; [reflexivity |].
      rewrite zlen_ztake by (rewrite zlen_zdrop; lia).
      split; [done | by apply bytes_ok_take, bytes_ok_drop].
    - exists []. replace dcid_len with 0 by lia. split_and!; [done | done | constructor]. }
  destruct Hl as (l & Hl & Hlen & Hlok). unfold pbind at 1. rewrite Hl. cbn [obind or_invalid pret].
  pose proof (pkt_num_safe _ buf (1 + dcid_len) (pn_len_range b) Hok Hb ltac:(lia)) as Hpn.
  unfold NXP_PKT_SHORT_PN_LEN.
  destruct (get_pkt_num _ buf _) as [[pn hl] | |]; cbn [or_invalid obind]; [| by left | done].
  pose proof (pn_len_range b). unfold short_parsed_ok. simpl.
  split_and!; try (done || lia). exists l. split_and!; (done || lia).
Qed.

(** ** Packet number reconstruction *)

Lemma clear_low e k : 0 <= k <= 64 -> 0 <= e < 2 ^ 64 ->
  e &&& (UINT64_MAX - (2 ^ k - 1)) = e / 2 ^ k * 2 ^ k.
Proof.
  intros Hk He.
  replace (UINT64_MAX - (2 ^ k - 1)) with (Z.ones (64 - k) <<< k).
  - rewrite <- Z.shiftl_mul_pow2, <- Z.shiftr_div_pow2 by lia.
    apply Z.bits_inj_iff'. intros i Hi. rewrite Z.land_spec, !Z.shiftl_spec by lia.
    destruct (Z.lt_ge_cases i k).
    + rewrite !(Z.testbit_neg_r _ (i - k)) by lia. apply andb_false_r.
    + rewrite Z.shiftr_spec, Z.sub_add by lia.
      destruct (Z.lt_ge_cases i 64).
      * rewrite Z.ones_spec_low by lia. apply andb_true_r.
      * rewrite <- (Z.mod_small e (2 ^ 64)) by lia.
        by rewrite Z.mod_pow2_bits_high by lia.
  - rewrite Z.shiftl_mul_pow2, Z.ones_equiv by lia.
    assert (2 ^ 64 = 2 ^ k * 2 ^ (64 - k)) as Hs by (rewrite <- Z.pow_add_r by lia; f_equal; lia).
    unfold UINT64_MAX. lia.
Qed.

(** The candidate: the number with the given low bytes in the window that
    contains [expected]. *)
Lemma candidate_val e t n : 1 <= n <= 4 -> 0 <= e < 2 ^ 64 -> 0 <= t < 256 ^ n ->
  (e &&& (UINT64_MAX - (256 ^ n - 1))) ||| t = e / 256 ^ n * 256 ^ n + t.
Proof.
  intros Hn He Ht. assert (256 ^ n = 2 ^ (8 * n)) as Hw by (rewrite Z.pow_mul_r by lia; done).
  rewrite Hw in *. rewrite clear_low by lia.
  apply (lor_disjoint _ t (8 * n)); [lia | | done]. apply Z.mod_mul. lia.
Qed.

(** Arithmetic core: the value congruent to [pn] in the window of width [w]
    around [e] is [pn] itself. *)
Lemma nearest_in_window e pn w : 0 < w -> w mod 2 = 0 -> 0 <= pn -> 0 <= e ->
  e - w / 2 < pn <= e + w / 2 ->
  let c := e / w * w + pn mod w in
  if c + w / 2 <=? e then pn = c + w
  else if e + w / 2 <? c then pn = c - w /\ w <= c else pn = c.
Proof.
  intros Hw Heven Hpn He Hwin c.
  pose proof (Z.div_mod e w ltac:(lia)). pose proof (Z.div_mod pn w ltac:(lia)).
  pose proof (Z.mod_pos_bound e w Hw). pose proof (Z.mod_pos_bound pn w Hw).
  pose proof (Z.div_mod w 2 ltac:(lia)). set (h := w / 2) in *.
  set (qe := e / w) in *. set (qp := pn / w) in *.
  assert (qp = qe \/ qp = qe + 1 \/ qp = qe - 1) as Hq by nia. unfold c.
  assert (0 <= qp) by (apply Z.div_pos; lia).
  zcase; destruct Hq as [Hq | [Hq | Hq]]; nia.
Qed.

Lemma decode_pkt_num_spec r pn n : 1 <= n <= 4 -> 0 <= r -> r + 1 < 2 ^ 62 -> 0 <= pn < 2 ^ 62 ->
  r + 1 - 256 ^ n / 2 < pn <= r + 1 + 256 ^ n / 2 ->
  nxp_pkt_decode_pkt_num r (pn mod 256 ^ n) n = pn.
Proof.
  intros Hn Hr He Hpn Hwin.
  assert (256 <= 256 ^ n <= 2 ^ 32) as Hw.
  { split; [change 256 with (256 ^ 1) at 1 | change (2 ^ 32) with (256 ^ 4)];
      apply Z.pow_le_mono_r; lia. }
  assert (256 ^ n mod 2 = 0) as Heven.
  { destruct (cases_1_4 n Hn) as [-> | [-> | [-> | ->]]]; done. }
  pose proof (nearest_in_window (r + 1) pn (256 ^ n) ltac:(lia) Heven
                ltac:(lia) ltac:(lia) Hwin) as Hc.
  unfold nxp_pkt_decode_pkt_num. rewrite (u64_small (r + 1)) by lia.
  replace (1 <<< (n * 8)) with (256 ^ n)
    by (rewrite Z.shiftl_mul_pow2, (Z.mul_comm n 8), Z.pow_mul_r, Z.mul_1_l by lia; done).
  pose proof (Z.mod_pos_bound pn (256 ^ n) ltac:(lia)) as Ht.
  rewrite (u64_small (256 ^ n)), (u64_small (256 ^ n - 1)), candidate_val by lia.
  change (1 <<< 62) with (2 ^ 62). set (w := 256 ^ n) in *. cbv zeta in Hc.
  set (c := (r + 1) / w * w + pn mod w) in *.
  assert (0 <= c < 2 ^ 63) as Hcr.
  { pose proof (Z.div_mod (r + 1) w ltac:(lia)). pose proof (Z.mod_pos_bound (r + 1) w ltac:(lia)).
    pose proof (Z.div_pos (r + 1) w ltac:(lia) ltac:(lia)). unfold c. nia. }
  assert (0 <= w / 2 <= w) by (split; [apply Z.div_pos | apply Z.div_le_upper_bound]; lia).
  rewrite (u64_small (c + w / 2)), (u64_small (c + w)), (u64_small (r + 1 + w / 2)) by lia.
  rewrite Z.gtb_ltb, Z.geb_leb. destruct (Z.leb_spec (c + w / 2) (r + 1)); simpl.
  - rewrite (proj2 (Z.ltb_lt _ _)) by lia. done.
  - destruct (Z.ltb_spec (r + 1 + w / 2) c); simpl; [| done].
    destruct Hc as [Hc Hwc]. rewrite (proj2 (Z.leb_le _ _)), u64_small by lia. done.
Qed.

Lemma pkt_num_len_spec pn la : 0 <= la <= pn -> pn - la < 2 ^ 31 -> pn < 2 ^ 64 ->
  1 <= nxp_pkt_num_len pn la <= 4 /\ pn - la < 256 ^ nxp_pkt_num_len pn la / 2.
Proof.
  intros. unfold nxp_pkt_num_len. rewrite u64_small by lia.
  zcase; (split; [lia |]);
    match goal with |- _ < ?x => let y := eval vm_compute in x in replace x with y by done end; lia.
Qed.

(** ** Properties *)

(** the long header codec round-trips.  For a well-formed Initial,
    Handshake or 0-RTT header the encoder returns 0 and leaves the buffer alone
    when the header does not fit; otherwise it reports the bytes written, and
    the decoder rebuilds every field from that buffer, with the packet number
    reduced to its [pkt_num_len] low bytes, [header_len] equal to the number of
    bytes written and [pkt_num_offset] just before the packet number. *)
Theorem long_header_roundtrip h buf :
  long_header_ok h -> zlen buf < 2 ^ 63 ->
  if zlen (long_header_image h) <=? zlen buf then
    exists n buf', nxp_pkt_encode_long_header h buf = Done (n, buf') /\
      nxp_pkt_decode_long_header buf' =
        Done (LongHeader (lh_type h) (lh_version h) (lh_dcid h) (lh_scid h) (lh_token h)
                (lh_token_len h) (lh_payload_len h) (lh_pkt_num h mod 256 ^ lh_pkt_num_len h)
                (lh_pkt_num_len h) n (n - lh_pkt_num_len h))
  else nxp_pkt_encode_long_header h buf = Done (0, buf).
Proof.
  intros Hok Hb. rewrite long_encode_spec by done.
  destruct (Z.leb_spec (zlen (long_header_image h)) (zlen buf)); [| done].
  eexists _, _. split; [reflexivity |]. rewrite splice_0.
  pose proof (zlen_nonneg (long_header_image h)).
  apply long_decode_image; [done |]. rewrite zlen_app, zlen_zdrop; lia.
Qed.

Definition sample_long : nxp_pkt_long_header :=
  LongHeader NXP_PKT_INITIAL 0x4E585001 (mk_conn_id [1; 2; 3]) (mk_conn_id []) (Some [9])
    1 300 0x12345 2 0 0.

Lemma long_header_roundtrip_witness :
  nxp_pkt_encode_long_header sample_long (replicate 17 7) =
    Done (16, [193; 78; 88; 80; 1; 3; 1; 2; 3; 0; 1; 9; 65; 44; 35; 69; 7]) /\
  if zlen (long_header_image sample_long) <=? zlen (replicate 17 7) then
    exists n buf', nxp_pkt_encode_long_header sample_long (replicate 17 7) = Done (n, buf') /\
      nxp_pkt_decode_long_header buf' =
        Done (LongHeader (lh_type sample_long) (lh_version sample_long) (lh_dcid sample_long)
                (lh_scid sample_long) (lh_token sample_long)
                (lh_token_len sample_long) (lh_payload_len sample_long)
                (lh_pkt_num sample_long mod 256 ^ lh_pkt_num_len sample_long)
                (lh_pkt_num_len sample_long) n (n - lh_pkt_num_len sample_long))
  else nxp_pkt_encode_long_header sample_long (replicate 17 7) = Done (0, replicate 17 7).
Proof.
  split; [reflexivity |]. apply (long_header_roundtrip sample_long); [| vm_compute; reflexivity].
  unfold long_header_ok, sample_long, ptr_ok, NXP_MAX_TOKEN_LEN, NXP_MAX_PAYLOAD_LEN; simpl.
  split_and!; try discriminate; try lia; try reflexivity.
  - exists [1; 2; 3]. split_and!; [reflexivity | vm_compute; discriminate | repeat constructor; lia].
  - exists []. split_and!; [reflexivity | vm_compute; discriminate | constructor].
  - repeat constructor; lia.
Defined.

(** a packet number survives truncation.  A short header written for
    packet [pn] with [nxp_pkt_num_len pn la] bytes, decoded by a receiver whose
    largest packet number [r] is at least [la] and whose distance ahead of [pn]
    is within half the truncation window, gives back the connection ID and the
    bits of the header, and [nxp_pkt_decode_pkt_num] recovers exactly [pn]. *)
Theorem short_header_pkt_num_recovered h buf la r :
  let pn := sh_pkt_num h in
  short_header_ok h -> zlen buf < 2 ^ 63 ->
  sh_pkt_num_len h = nxp_pkt_num_len pn la -> 0 <= la <= pn -> pn - la < 2 ^ 31 -> pn < 2 ^ 62 ->
  la <= r -> r + 1 < 2 ^ 62 -> r + 1 < pn + 256 ^ sh_pkt_num_len h / 2 ->
  1 + cid_len (sh_dcid h) + sh_pkt_num_len h <= zlen buf ->
  exists n buf' h', nxp_pkt_encode_short_header h (cid_len (sh_dcid h)) buf = Done (n, buf') /\
    nxp_pkt_decode_short_header buf' (cid_len (sh_dcid h)) = Done h' /\
    sh_dcid h' = sh_dcid h /\ sh_spin_bit h' = sh_spin_bit h /\ sh_key_phase h' = sh_key_phase h /\
    sh_header_len h' = n /\ sh_pkt_num_offset h' + sh_pkt_num_len h' = n /\
    nxp_pkt_decode_pkt_num r (sh_pkt_num h') (sh_pkt_num_len h') = pn.
Proof.
  intros pn Hok Hb Hnl Hla Hdist Hpn Hr Hr62 Hwin Hfit.
  pose proof (short_encode_spec h buf Hok Hb) as He. cbv zeta in He.
  set (image := short_header_image h _) in He.
  assert (zlen image = 1 + cid_len (sh_dcid h) + sh_pkt_num_len h) as Hlen.
  { destruct Hok as ((l & Hl & Hmax & _) & Hn & _). unfold image, short_header_image.
    pose proof (zlen_mk_conn_id l Hmax) as [_ Ht]. rewrite Hl. simpl cid_len. rewrite Ht.
    zlen_norm. rewrite zlen_be_bytes. lia. }
  rewrite (proj2 (Z.leb_le _ _)) in He by lia.
  exists (zlen image), (splice buf 0 image), (short_decoded h). split; [exact He |].
  pose proof (pkt_num_len_spec pn la Hla Hdist ltac:(lia)) as [Hn Hd]. rewrite <- Hnl in *.
  pose proof (zlen_nonneg image). split; [| split_and!; simpl; try (done || lia)].
  - rewrite splice_0. apply short_decode_image; [done |].
    fold image. rewrite zlen_app, zlen_zdrop; lia.
  - apply decode_pkt_num_spec; lia.
Qed.

Definition sample_short : nxp_pkt_short_header :=
  ShortHeader (mk_conn_id [7; 7]) true false 1000 2 0 0.

Lemma short_header_pkt_num_recovered_witness :
  nxp_pkt_encode_short_header sample_short 2 (replicate 5 0) = Done (5, [97; 7; 7; 3; 232]) /\
  exists n buf' h', nxp_pkt_encode_short_header sample_short 2 (replicate 5 0) = Done (n, buf') /\
    nxp_pkt_decode_short_header buf' 2 = Done h' /\
    sh_dcid h' = sh_dcid sample_short /\ sh_spin_bit h' = true /\ sh_key_phase h' = false /\
    sh_header_len h' = n /\ sh_pkt_num_offset h' + sh_pkt_num_len h' = n /\
    nxp_pkt_decode_pkt_num 990 (sh_pkt_num h') (sh_pkt_num_len h') = 1000.
Proof.
  split; [reflexivity |].
  apply (short_header_pkt_num_recovered sample_short (replicate 5 0) 500 990);
    try (vm_compute; split; discriminate); try (vm_compute; (reflexivity || discriminate)).
  split; [| split; vm_compute; [split |]; discriminate].
  exists [7; 7]. split_and!; [reflexivity | vm_compute; discriminate | repeat constructor; lia].
Defined.

(** both header decoders are safe on arbitrary datagrams: they never
    read outside the buffer, they fail only with the documented error codes,
    and a header they return lies within the buffer, with connection IDs of at
    most 20 bytes, tokens of at most 1024, a payload length of at most 65536
    and a packet number of the announced width. *)
Theorem pkt_decode_total buf dcid_len :
  bytes_ok buf -> zlen buf < 2 ^ 63 -> 0 <= dcid_len ->
  (match nxp_pkt_decode_long_header buf with
   | Done h => long_parsed_ok h (zlen buf)
   | Err e => e = NXP_ERR_INVALID_PACKET
   | Ub => False
   end) /\
  (match nxp_pkt_decode_short_header buf dcid_len with
   | Done h => short_parsed_ok h dcid_len (zlen buf)
   | Err e => e = NXP_ERR_INVALID_PACKET \/ e = NXP_ERR_INVALID_ARGUMENT
   | Ub => False
   end).
Proof. intros. split; [by apply long_decode_safe | by apply short_decode_safe]. Qed.

Lemma pkt_decode_total_witness :
  nxp_pkt_decode_short_header [64; 5] 21 = Err NXP_ERR_INVALID_ARGUMENT /\
  (match nxp_pkt_decode_long_header [64; 5] with
   | Done h => long_parsed_ok h (zlen [64; 5])
   | Err e => e = NXP_ERR_INVALID_PACKET
   | Ub => False
   end) /\
  (match nxp_pkt_decode_short_header [64; 5] 0 with
   | Done h => short_parsed_ok h 0 (zlen [64; 5])
   | Err e => e = NXP_ERR_INVALID_PACKET \/ e = NXP_ERR_INVALID_ARGUMENT
   | Ub => False
   end).
Proof.
  split; [reflexivity |]. apply (pkt_decode_total [64; 5] 0);
    [repeat constructor; lia | vm_compute; reflexivity | lia].
Defined.

(** A Retry header does not round-trip: the encoder appends a payload length
    and a packet number, which the decoder takes for retry data. *)
Example retry_header_not_inverted :
  let h := LongHeader NXP_PKT_RETRY 0x4E585001 (mk_conn_id [1]) (mk_conn_id [2]) None 0 300 5 1 0 0 in
  match nxp_pkt_encode_long_header h (replicate 12 0) with
  | Done (n, buf') =>
      match nxp_pkt_decode_long_header buf' with
      | Done h' => (n, lh_header_len h', lh_payload_len h', lh_pkt_num_len h') = (12, 9, 3, 0)
      | _ => False
      end
  | _ => False
  end.
Proof. vm_compute. reflexivity. Qed.
