(* ===== verification/Pacing.v ===== *)
(** * Token buckets: the packet pacer and the per-stream rate limiter
      (src/congestion/pacing.h, pacing.c, src/core/stream_rate.h)

    Both components are token buckets that count milli-bytes.  [TokenBucket]
    states what such a bucket promises; the conformance bound is proved once
    against the class, and each component is an instance. *)

From S2P Require Import Prelude.

(** ** The contract of a token bucket *)

Class TokenBucket (B : Type) := {
  tb_update : Z -> B -> B;
  tb_can_send : B -> Z -> bool;
  tb_on_send : B -> Z -> B;
  tb_rate : B -> Z;
  tb_tokens : B -> Z;
  tb_burst : B -> Z;
  tb_last : B -> Z;
  tb_wf : B -> Prop;
  tb_bounds : forall b, tb_wf b -> 0 <= tb_rate b /\ 0 <= tb_tokens b <= tb_burst b * 1000;
  tb_update_wf : forall b now, tb_wf b -> tb_last b <= now < 2 ^ 64 -> tb_wf (tb_update now b);
  tb_update_frame : forall b now, tb_wf b -> tb_last b <= now < 2 ^ 64 ->
    tb_rate (tb_update now b) = tb_rate b /\ tb_burst (tb_update now b) = tb_burst b /\
    tb_last (tb_update now b) = now;
  tb_update_tokens : forall b now, tb_wf b -> tb_last b <= now < 2 ^ 64 ->
    1000 * tb_tokens (tb_update now b) <= 1000 * tb_tokens b + tb_rate b * (now - tb_last b);
  tb_can_send_tokens : forall b n, tb_wf b -> 0 <= n < 2 ^ 32 ->
    tb_can_send b n = true -> n * 1000 <= tb_tokens b;
  tb_on_send_wf : forall b n, tb_wf b -> 0 <= n < 2 ^ 32 -> tb_wf (tb_on_send b n);
  tb_on_send_spec : forall b n, tb_wf b -> 0 <= n < 2 ^ 32 -> n * 1000 <= tb_tokens b ->
    tb_tokens (tb_on_send b n) = tb_tokens b - n * 1000 /\
    tb_rate (tb_on_send b n) = tb_rate b /\ tb_burst (tb_on_send b n) = tb_burst b /\
    tb_last (tb_on_send b n) = tb_last b }.

Section Conformance.
  Context {B : Type} `{TokenBucket B}.

(** A send attempt of [n] bytes at [now]: refill, check, and charge. *)
Definition attempt (b : B) (ev : Z * Z) : B * Z :=
  let '(now, n) := ev in
  let b := tb_update now b in
  if tb_can_send b n then (tb_on_send b n, n) else (b, 0).

(** The bucket after a sequence of attempts, with the bytes let through. *)
Fixpoint attempts (b : B) (evs : list (Z * Z)) : B * Z :=
  match evs with
  | [] => (b, 0)
  | ev :: evs =>
      let '(b, n) := attempt b ev in
      let '(b, m) := attempts b evs in (b, n + m)
  end.

(** Attempts of 32-bit sizes at times that do not decrease, from [t]. *)
Fixpoint timed (t : Z) (evs : list (Z * Z)) : Prop :=
  match evs with
  | [] => True
  | (now, n) :: evs => t <= now < 2 ^ 64 /\ 0 <= n < 2 ^ 32 /\ timed now evs
  end.

Lemma attempt_spec b now n b' m : tb_wf b -> tb_last b <= now < 2 ^ 64 -> 0 <= n < 2 ^ 32 ->
  attempt b (now, n) = (b', m) ->
  tb_wf b' /\ tb_last b' = now /\ tb_rate b' = tb_rate b /\ tb_burst b' = tb_burst b /\
  1000000 * m + 1000 * tb_tokens b' <= 1000 * tb_tokens b + tb_rate b * (now - tb_last b).
Proof.
  intros Hwf Hnow Hn. unfold attempt.
  pose proof (tb_update_wf b now Hwf Hnow) as Hu.
  pose proof (tb_update_frame b now Hwf Hnow) as (Hr & Hbu & Hl).
  pose proof (tb_update_tokens b now Hwf Hnow) as Ht.
  destruct (tb_can_send _ _) eqn:Hc; intros [= <- <-].
  - pose proof (tb_can_send_tokens _ n Hu Hn Hc) as Hle.
    pose proof (tb_on_send_wf _ n Hu Hn).
    pose proof (tb_on_send_spec _ n Hu Hn Hle) as (-> & -> & -> & ->). split_and!; (done || lia).
  - split_and!; (done || lia).
Qed.

Lemma attempts_bound evs b b' m : tb_wf b -> timed (tb_last b) evs -> attempts b evs = (b', m) ->
  tb_wf b' /\ tb_burst b' = tb_burst b /\ tb_last b <= tb_last b' /\
  1000000 * m + 1000 * tb_tokens b' <= 1000 * tb_tokens b + tb_rate b * (tb_last b' - tb_last b).
Proof.
  revert b b' m. induction evs as [| [now n] evs IH]; intros b b' m Hwf Htimed Hrun.
  - simpl in Hrun. injection Hrun as <- <-. split_and!; (done || lia).
  - destruct Htimed as (Hnow & Hn & Htimed). cbn [attempts] in Hrun.
    destruct (attempt b (now, n)) as [b1 k] eqn:Ha.
    destruct (attempts b1 evs) as [b2 k2] eqn:Hb. injection Hrun as <- <-.
    apply attempt_spec in Ha as (Hwf1 & Hl1 & Hr1 & Hb1 & Hk); [| done..].
    rewrite <- Hl1 in Htimed. apply IH in Hb as (Hwf2 & Hb2 & Hl2 & Hk2); [| done | done].
    rewrite Hr1, Hl1 in *. split_and!; [done | congruence | lia | nia].
Qed.

End Conformance.

(** ** The packet pacer *)

Module Pacer.

Definition NXP_PACER_MAX_BURST : Z := 10 * 1200.
Definition TOKEN_SCALE : Z := 1000.

Record nxp_pacer := Pacer {
  rate_bps : Z;
  tokens : Z;
  last_update : Z;
  max_burst : Z;
  enabled : bool;
  time_initialized : bool }.

Definition nxp_pacer_init : nxp_pacer :=
  Pacer 0 (u64 (NXP_PACER_MAX_BURST * TOKEN_SCALE)) 0 NXP_PACER_MAX_BURST false false.

Definition nxp_pacer_set_rate (p : nxp_pacer) (rate : Z) : nxp_pacer :=
  Pacer rate (tokens p) (last_update p) (max_burst p) (rate >? 0) (time_initialized p).

Definition nxp_pacer_update (p : nxp_pacer) (now_us : Z) : nxp_pacer :=
  if negb (enabled p) || (rate_bps p =? 0) then p else
  if negb (time_initialized p) then
    Pacer (rate_bps p) (tokens p) now_us (max_burst p) (enabled p) true else
  if now_us <=? last_update p then p else
  let elapsed := now_us - last_update p in
  let new_tokens := u64 (u64 (rate_bps p * elapsed) * TOKEN_SCALE) / 1000000 in
  let t := u64 (tokens p + new_tokens) in
  let max_tokens := u64 (max_burst p * TOKEN_SCALE) in
  Pacer (rate_bps p) (if t >? max_tokens then max_tokens else t) now_us (max_burst p)
    (enabled p) (time_initialized p).

Definition nxp_pacer_can_send (p : nxp_pacer) (bytes : Z) : bool :=
  if negb (enabled p) then true else tokens p >=? bytes * TOKEN_SCALE.

Definition nxp_pacer_on_send (p : nxp_pacer) (bytes : Z) : nxp_pacer :=
  if negb (enabled p) then p else
  let cost := bytes * TOKEN_SCALE in
  Pacer (rate_bps p) (if tokens p >=? cost then tokens p - cost else 0) (last_update p)
    (max_burst p) (enabled p) (time_initialized p).

Definition nxp_pacer_next_send_time (p : nxp_pacer) (bytes : Z) : Z :=
  if negb (enabled p) || (rate_bps p =? 0) then 0 else
  let cost := bytes * TOKEN_SCALE in
  if tokens p >=? cost then 0 else
  let deficit := cost - tokens p in
  u64 (deficit * 1000000) / u64 (rate_bps p * TOKEN_SCALE).

(** The bucket never holds more than a burst. *)
Definition pacer_ok (p : nxp_pacer) : Prop :=
  0 <= rate_bps p < 2 ^ 64 /\ 0 <= max_burst p < 2 ^ 53 /\
  0 <= tokens p <= max_burst p * 1000 /\ 0 <= last_update p < 2 ^ 64 /\
  enabled p = (rate_bps p >? 0).

(** A pacer that is limiting sends. *)
Definition pacing (p : nxp_pacer) : Prop :=
  pacer_ok p /\ enabled p = true /\ time_initialized p = true.

End Pacer.

(** ** The per-stream rate limiter *)

Module StreamRate.

Record nxp_stream_rate := StreamRate {
  rate_bps : Z;
  tokens : Z;
  last_update : Z;
  max_burst : Z;
  enabled : bool;
  time_initialized : bool }.

Definition nxp_stream_rate_init : nxp_stream_rate := StreamRate 0 0 0 0 false false.

Definition nxp_stream_rate_set (r : nxp_stream_rate) (rate : Z) : nxp_stream_rate :=
  let burst := if rate >? 0 then rate / 10 else 0 in
  let burst := if burst <? 4800 then 4800 else burst in
  StreamRate rate (u64 (burst * 1000)) (last_update r) burst (rate >? 0) (time_initialized r).

Definition nxp_stream_rate_update (r : nxp_stream_rate) (now_us : Z) : nxp_stream_rate :=
  if negb (enabled r) || (rate_bps r =? 0) then r else
  if negb (time_initialized r) then
    StreamRate (rate_bps r) (tokens r) now_us (max_burst r) (enabled r) true else
  if now_us <=? last_update r then r else
  let elapsed := now_us - last_update r in
  let new_tokens := u64 (u64 (rate_bps r * elapsed) * 1000) / 1000000 in
  let t := u64 (tokens r + new_tokens) in
  let max_tokens := u64 (max_burst r * 1000) in
  StreamRate (rate_bps r) (if t >? max_tokens then max_tokens else t) now_us (max_burst r)
    (enabled r) (time_initialized r).

Definition nxp_stream_rate_can_send (r : nxp_stream_rate) (bytes : Z) : bool :=
  if negb (enabled r) then true else tokens r >=? bytes * 1000.

Definition nxp_stream_rate_on_send (r : nxp_stream_rate) (bytes : Z) : nxp_stream_rate :=
  if negb (enabled r) then r else
  let cost := bytes * 1000 in
  StreamRate (rate_bps r) (if tokens r >=? cost then tokens r - cost else 0) (last_update r)
    (max_burst r) (enabled r) (time_initialized r).

Definition nxp_stream_rate_budget (r : nxp_stream_rate) : Z :=
  if negb (enabled r) then UINT64_MAX else tokens r / 1000.

Definition stream_rate_ok (r : nxp_stream_rate) : Prop :=
  0 <= rate_bps r < 2 ^ 53 /\ 0 <= max_burst r < 2 ^ 53 /\
  0 <= tokens r <= max_burst r * 1000 /\ 0 <= last_update r < 2 ^ 64 /\
  enabled r = (rate_bps r >? 0).

Definition limiting (r : nxp_stream_rate) : Prop :=
  stream_rate_ok r /\ enabled r = true /\ time_initialized r = true.

End StreamRate.

(** ** Refill arithmetic, shared by the two components *)

Lemma u64_le z : 0 <= z -> u64 z <= z.
Proof. intros. unfold u64. apply Z.mod_le; lia. Qed.

(** The refill, even when its product wraps, never exceeds the rate. *)
Lemma refill_le rate e : 0 <= rate -> 0 <= e ->
  0 <= u64 (u64 (rate * e) * 1000) / 1000000 /\
  1000 * (u64 (u64 (rate * e) * 1000) / 1000000) <= rate * e.
Proof.
  intros Hr He. assert (0 <= rate * e) by nia.
  pose proof (u64_range (rate * e)). pose proof (u64_le (rate * e)).
  pose proof (u64_range (u64 (rate * e) * 1000)).
  pose proof (u64_le (u64 (rate * e) * 1000)). zlia.
Qed.

Lemma refill_exact rate e : 0 <= rate -> 0 <= e -> rate * e * 1000 < 2 ^ 64 ->
  u64 (u64 (rate * e) * 1000) / 1000000 = rate * e / 1000.
Proof.
  intros. assert (0 <= rate * e) by nia. rewrite (u64_small (rate * e)) by lia. rewrite u64_small by lia.
  change 1000000 with (1000 * 1000). by rewrite Z.div_mul_cancel_r.
Qed.

(** A refill capped at a burst of [burst] bytes. *)
Lemma refill_capped tokens burst rate e :
  0 <= burst < 2 ^ 53 -> 0 <= tokens <= burst * 1000 -> 0 <= rate -> 0 <= e ->
  let t := u64 (tokens + u64 (u64 (rate * e) * 1000) / 1000000) in
  let t := if t >? u64 (burst * 1000) then u64 (burst * 1000) else t in
  0 <= t <= burst * 1000 /\ 1000 * t <= 1000 * tokens + rate * e.
Proof.
  intros Hb Ht Hr He. pose proof (refill_le rate e Hr He) as [H0 H1].
  pose proof (u64_range (u64 (rate * e) * 1000)).
  assert (u64 (u64 (rate * e) * 1000) / 1000000 < 2 ^ 60) by zlia.
  rewrite (u64_small (burst * 1000)), u64_small by lia. cbv zeta.
  rewrite Z.gtb_ltb. zcase; lia.
Qed.

(** ** The pacer is a token bucket *)

Section PacerLaws.
Import Pacer.

Lemma pacing_enabled p : pacing p -> negb (enabled p) || (rate_bps p =? 0) = false.
Proof.
  intros ((_ & _ & _ & _ & He) & Hen & _). rewrite Hen in *. simpl.
  symmetry in He. rewrite Z.gtb_lt in He. apply Z.eqb_neq. lia.
Qed.

(** The refill step of a pacer whose clock is set. *)
Lemma pacer_update_eq p now : pacing p -> last_update p <= now ->
  nxp_pacer_update p now =
    let t := u64 (tokens p + u64 (u64 (rate_bps p * (now - last_update p)) * 1000) / 1000000) in
    let m := u64 (max_burst p * 1000) in
    if now =? last_update p then p else
    Pacer (rate_bps p) (if t >? m then m else t) now (max_burst p) true true.
Proof.
  intros Hp Hnow. unfold nxp_pacer_update. rewrite (pacing_enabled p Hp).
  destruct Hp as (_ & -> & ->). simpl.
  destruct (Z.leb_spec now (last_update p)), (Z.eqb_spec now (last_update p)); try lia; done.
Qed.

Lemma pacer_update_pacing p now : pacing p -> last_update p <= now < 2 ^ 64 ->
  let p' := nxp_pacer_update p now in
  pacing p' /\ rate_bps p' = rate_bps p /\ max_burst p' = max_burst p /\ last_update p' = now /\
  1000 * tokens p' <= 1000 * tokens p + rate_bps p * (now - last_update p).
Proof.
  intros Hp Hnow p'. unfold p'. rewrite pacer_update_eq by (done || lia). cbv zeta.
  destruct (Z.eqb_spec now (last_update p)) as [-> | Hne]; [split_and!; (done || lia) |].
  pose proof Hp as ((Hr & Hb & Ht & Hl & He) & Hen & _).
  pose proof (refill_capped (tokens p) (max_burst p) (rate_bps p) (now - last_update p)
                Hb Ht ltac:(lia) ltac:(lia)) as [H1 H2].
  cbv zeta in H1, H2. unfold pacing, pacer_ok. simpl.
  split_and!; try (done || lia). by rewrite Hen in He.
Qed.

#[global, refine] Instance pacer_bucket : TokenBucket nxp_pacer := {
  tb_update now p := nxp_pacer_update p now;
  tb_can_send := nxp_pacer_can_send;
  tb_on_send := nxp_pacer_on_send;
  tb_rate := rate_bps; tb_tokens := tokens; tb_burst := max_burst; tb_last := last_update;
  tb_wf := pacing }.
Proof.
  - intros p ((? & ? & ? & _) & _). lia.
  - intros p now Hp Hnow. by apply pacer_update_pacing.
  - intros p now Hp Hnow. apply pacer_update_pacing in Hnow; tauto.
  - intros p now Hp Hnow. by apply pacer_update_pacing.
  - intros p n (_ & Hen & _) Hn. unfold nxp_pacer_can_send, TOKEN_SCALE. rewrite Hen. simpl.
    rewrite Z.geb_le. done.
  - intros p n ((Hr & Hb & Ht & Hl & He) & Hen & Hti) Hn. unfold nxp_pacer_on_send, TOKEN_SCALE.
    rewrite Hen in *. simpl. rewrite Z.geb_leb.
    unfold pacing, pacer_ok. simpl. split_and!; try (done || lia); zcase; lia.
  - intros p n (_ & Hen & _) Hn Hle. unfold nxp_pacer_on_send, TOKEN_SCALE. rewrite Hen. simpl.
    by rewrite Z.geb_leb, (proj2 (Z.leb_le _ _)) by lia.
Defined.

(** Waiting one microsecond more than [nxp_pacer_next_send_time] announces
    makes the pacer let the packet through. *)
Lemma pacer_wait p bytes : pacing p -> 0 <= bytes <= max_burst p -> bytes < 2 ^ 32 ->
  nxp_pacer_can_send p bytes = false ->
  rate_bps p < 2 ^ 53 -> last_update p < 2 ^ 63 ->
  let now := last_update p + nxp_pacer_next_send_time p bytes + 1 in
  rate_bps p * (nxp_pacer_next_send_time p bytes + 1) * 1000 < 2 ^ 64 ->
  nxp_pacer_can_send (nxp_pacer_update p now) bytes = true.
Proof.
  intros Hp Hb Hb32 Hcan Hr Hl now Hov. pose proof Hp as ((Hrr & Hbb & Ht & _ & He) & Hen & Hti).
  pose proof (pacing_enabled p Hp) as Hpe.
  unfold nxp_pacer_can_send, TOKEN_SCALE in *. rewrite Hen in *. simpl in Hcan, Hpe.
  rewrite Z.geb_leb in Hcan. apply Z.leb_gt in Hcan. apply Z.eqb_neq in Hpe.
  assert (nxp_pacer_next_send_time p bytes = (bytes * 1000 - tokens p) * 1000 / rate_bps p) as Hd.
  { unfold nxp_pacer_next_send_time, TOKEN_SCALE. rewrite Hen. simpl.
    rewrite (proj2 (Z.eqb_neq _ _)) by done.
    rewrite Z.geb_leb, (proj2 (Z.leb_gt _ _)) by lia. rewrite !u64_small by lia.
    replace ((bytes * 1000 - tokens p) * 1000000) with ((bytes * 1000 - tokens p) * 1000 * 1000) by lia.
    rewrite Z.div_mul_cancel_r by lia. done. }
  rewrite Hd in *. set (d := _ / _) in *.
  assert (0 <= d) by (apply Z.div_pos; lia).
  assert ((bytes * 1000 - tokens p) * 1000 < rate_bps p * (d + 1)) as Hmore.
  { unfold d. pose proof (Z.mul_succ_div_gt ((bytes * 1000 - tokens p) * 1000) (rate_bps p)).
    rewrite <- Z.add_1_r in *. lia. }
  rewrite pacer_update_eq by (done || lia). cbv zeta.
  replace (now - last_update p) with (d + 1) by lia.
  rewrite (proj2 (Z.eqb_neq _ _)) by lia. cbn [enabled tokens negb].
  rewrite refill_exact by lia. rewrite Z.geb_leb, Z.gtb_ltb. apply Z.leb_le.
  rewrite (u64_small (max_burst p * 1000)) by lia.
  assert (bytes * 1000 - tokens p <= rate_bps p * (d + 1) / 1000) by zlia.
  assert (rate_bps p * (d + 1) / 1000 < 2 ^ 62) by (apply Z.div_lt_upper_bound; lia).
  rewrite u64_small by lia. zcase; lia.
Qed.

End PacerLaws.

(** ** The stream rate limiter is a token bucket *)

Section StreamRateLaws.
Import StreamRate.

Lemma limiting_update r now : limiting r -> last_update r <= now < 2 ^ 64 ->
  let r' := nxp_stream_rate_update r now in
  limiting r' /\ rate_bps r' = rate_bps r /\ max_burst r' = max_burst r /\ last_update r' = now /\
  1000 * tokens r' <= 1000 * tokens r + rate_bps r * (now - last_update r).
Proof.
  intros Hr Hnow r'. unfold r', nxp_stream_rate_update.
  pose proof Hr as ((Hrr & Hb & Ht & Hl & He) & Hen & Hti). rewrite Hen, Hti in *. simpl.
  symmetry in He. rewrite Z.gtb_lt in He. rewrite (proj2 (Z.eqb_neq _ _)) by lia.
  destruct (Z.leb_spec now (last_update r)).
  { replace now with (last_update r) by lia. split_and!; (done || lia). }
  pose proof (refill_capped (tokens r) (max_burst r) (rate_bps r) (now - last_update r)
                Hb Ht ltac:(lia) ltac:(lia)) as [H1 H2].
  cbv zeta in H1, H2. unfold limiting, stream_rate_ok. simpl.
  split_and!; try (done || lia).
Qed.

#[global, refine] Instance stream_rate_bucket : TokenBucket nxp_stream_rate := {
  tb_update now r := nxp_stream_rate_update r now;
  tb_can_send := nxp_stream_rate_can_send;
  tb_on_send := nxp_stream_rate_on_send;
  tb_rate := rate_bps; tb_tokens := tokens; tb_burst := max_burst; tb_last := last_update;
  tb_wf := limiting }.
Proof.
  - intros r ((? & ? & ? & _) & _). lia.
  - intros r now Hr Hnow. by apply limiting_update.
  - intros r now Hr Hnow. apply limiting_update in Hnow; tauto.
  - intros r now Hr Hnow. by apply limiting_update.
  - intros r n (_ & Hen & _) Hn. unfold nxp_stream_rate_can_send. rewrite Hen. simpl.
    rewrite Z.geb_le. done.
  - intros r n ((Hr & Hb & Ht & Hl & He) & Hen & Hti) Hn. unfold nxp_stream_rate_on_send.
    rewrite Hen in *. simpl. rewrite Z.geb_leb.
    unfold limiting, stream_rate_ok. simpl. split_and!; try (done || lia); zcase; lia.
  - intros r n (_ & Hen & _) Hn Hle. unfold nxp_stream_rate_on_send. rewrite Hen. simpl.
    by rewrite Z.geb_leb, (proj2 (Z.leb_le _ _)) by lia.
Defined.

Lemma stream_rate_set_ok r rate : 0 <= rate < 2 ^ 53 -> 0 <= last_update r < 2 ^ 64 ->
  stream_rate_ok (nxp_stream_rate_set r rate).
Proof.
  intros Hr Hl. unfold nxp_stream_rate_set, stream_rate_ok. simpl.
  rewrite Z.gtb_ltb. assert (0 <= rate / 10 < 2 ^ 53) by zlia.
  zcase; rewrite u64_small by lia; split_and!; (done || lia).
Qed.

End StreamRateLaws.

(** ** Properties *)

(** the pacer enforces its rate.  Over any sequence of send attempts at
    non-decreasing times, each refilling, checking and charging the bucket, the
    bytes let through are at most one burst plus the rate times the elapsed
    time (in bytes per second and microseconds), even when the refill product
    wraps around 64 bits. *)
Theorem pacer_conforms (p p' : Pacer.nxp_pacer) evs m :
  Pacer.pacing p -> timed (Pacer.last_update p) evs -> attempts p evs = (p', m) ->
  1000000 * m <= 1000000 * Pacer.max_burst p +
                 Pacer.rate_bps p * (Pacer.last_update p' - Pacer.last_update p) /\
  0 <= Pacer.tokens p' <= Pacer.max_burst p * 1000.
Proof.
  intros Hp Ht Hrun. pose proof (attempts_bound evs p p' m Hp Ht Hrun) as (Hp' & Hb & _ & Hm).
  pose proof (tb_bounds p Hp). pose proof (tb_bounds p' Hp'). simpl in *. lia.
Qed.

Definition sample_pacer : Pacer.nxp_pacer :=
  Pacer.nxp_pacer_update (Pacer.nxp_pacer_set_rate Pacer.nxp_pacer_init 1000000) 50.

Lemma pacer_conforms_witness :
  exists p' m, attempts sample_pacer [(60, 11000); (70, 1400); (1000, 1400)] = (p', m) /\
  m = 12400 /\ 1000000 * m <= 1000000 * Pacer.max_burst sample_pacer +
    Pacer.rate_bps sample_pacer * (Pacer.last_update p' - Pacer.last_update sample_pacer) /\
  0 <= Pacer.tokens p' <= Pacer.max_burst sample_pacer * 1000.
Proof.
  eexists _, _. split; [vm_compute; reflexivity |]. split; [reflexivity |].
  apply (pacer_conforms sample_pacer _ [(60, 11000); (70, 1400); (1000, 1400)]);
    [| | vm_compute; reflexivity].
  - by_compute.
  - by_compute.
Defined.

(** a per-stream limit set with [nxp_stream_rate_set] is enforced: once
    the limiter's clock runs, the bytes it lets through over any sequence of
    attempts are at most its burst (100 ms of traffic, at least 4800 bytes)
    plus the rate times the elapsed time. *)
Theorem stream_rate_conforms (r0 r' : StreamRate.nxp_stream_rate) rate now evs m :
  let r := StreamRate.nxp_stream_rate_set r0 rate in
  0 < rate < 2 ^ 53 -> 0 <= StreamRate.last_update r0 <= now -> now < 2 ^ 64 ->
  timed now evs -> attempts (StreamRate.nxp_stream_rate_update r now) evs = (r', m) ->
  1000000 * m <= 1000000 * Z.max 4800 (rate / 10) + rate * (StreamRate.last_update r' - now) +
    (if StreamRate.time_initialized r0 then rate * (now - StreamRate.last_update r0) else 0).
Proof.
  intros r Hrate Hl Hnow Ht Hrun.
  pose proof (stream_rate_set_ok r0 rate ltac:(lia) ltac:(lia)) as Hok. fold r in Hok.
  assert (StreamRate.enabled r = true) as Hen by (simpl; apply Z.gtb_lt; lia).
  assert (StreamRate.max_burst r = Z.max 4800 (rate / 10)) as Hb.
  { simpl. rewrite Z.gtb_ltb, (proj2 (Z.ltb_lt 0 rate)) by lia. zcase; lia. }
  assert (StreamRate.tokens r <= Z.max 4800 (rate / 10) * 1000) as Htk
    by (rewrite <- Hb; apply Hok).
  set (r1 := StreamRate.nxp_stream_rate_update r now) in *.
  assert (StreamRate.limiting r1 /\ StreamRate.rate_bps r1 = rate /\
    StreamRate.last_update r1 = now /\
    1000 * StreamRate.tokens r1 <= 1000 * StreamRate.tokens r +
      (if StreamRate.time_initialized r0 then rate * (now - StreamRate.last_update r0) else 0)) as H1.
  { destruct (StreamRate.time_initialized r0) eqn:Hti.
    - pose proof (limiting_update r now ltac:(split_and!; done) ltac:(simpl; lia)) as Hu.
      simpl in Hu. fold r r1 in Hu. tauto.
    - unfold r1, StreamRate.nxp_stream_rate_update. rewrite Hen. simpl.
      rewrite (proj2 (Z.eqb_neq _ _)), Hti by lia. simpl. destruct Hok as (? & ? & ? & ? & ?).
      unfold StreamRate.limiting, StreamRate.stream_rate_ok.
      simpl in *. split_and!; try (done || lia). }
  destruct H1 as (Hlim & Hr1 & Hl1 & Ht1). rewrite <- Hl1 in Ht.
  pose proof (attempts_bound evs r1 r' m Hlim Ht Hrun) as (Hp' & _ & _ & Hm).
  pose proof (tb_bounds r' Hp'). simpl in *. rewrite Hr1, Hl1 in Hm. lia.
Qed.

Lemma stream_rate_conforms_witness :
  let r := StreamRate.nxp_stream_rate_set StreamRate.nxp_stream_rate_init 100000 in
  exists r' m, attempts (StreamRate.nxp_stream_rate_update r 5) [(5, 9000); (10, 9000)] = (r', m) /\
  m = 9000 /\
  1000000 * m <= 1000000 * Z.max 4800 (100000 / 10) + 100000 * (StreamRate.last_update r' - 5) +
    (if StreamRate.time_initialized StreamRate.nxp_stream_rate_init
     then 100000 * (5 - StreamRate.last_update StreamRate.nxp_stream_rate_init) else 0).
Proof.
  intros r. eexists _, _. split; [vm_compute; reflexivity |]. split; [reflexivity |].
  apply (stream_rate_conforms StreamRate.nxp_stream_rate_init _ 100000 5 [(5, 9000); (10, 9000)]);
    by_compute.
Defined.

(** pacing never blocks a packet forever.  When the pacer refuses a
    packet no larger than its burst, refilling one microsecond after the delay
    announced by [nxp_pacer_next_send_time] makes it acceptable (as long as the
    refill product stays within 64 bits). *)
Theorem pacer_unblocks p bytes :
  Pacer.pacing p -> 0 <= bytes <= Pacer.max_burst p -> bytes < 2 ^ 32 ->
  Pacer.nxp_pacer_can_send p bytes = false ->
  Pacer.rate_bps p < 2 ^ 53 -> Pacer.last_update p < 2 ^ 63 ->
  Pacer.rate_bps p * (Pacer.nxp_pacer_next_send_time p bytes + 1) * 1000 < 2 ^ 64 ->
  Pacer.nxp_pacer_can_send
    (Pacer.nxp_pacer_update p (Pacer.last_update p + Pacer.nxp_pacer_next_send_time p bytes + 1))
    bytes = true.
Proof. intros. by apply pacer_wait. Qed.

Definition drained_pacer : Pacer.nxp_pacer := Pacer.nxp_pacer_on_send sample_pacer 11999.

Lemma pacer_unblocks_witness :
  Pacer.nxp_pacer_next_send_time drained_pacer 1200 = 1199 /\
  Pacer.nxp_pacer_can_send drained_pacer 1200 = false /\
  Pacer.nxp_pacer_can_send
    (Pacer.nxp_pacer_update drained_pacer
       (Pacer.last_update drained_pacer + Pacer.nxp_pacer_next_send_time drained_pacer 1200 + 1))
    1200 = true.
Proof.
  split; [reflexivity |]. split; [reflexivity |].
  apply (pacer_unblocks drained_pacer 1200);
    by_compute.
Defined.
