(* ===== verification/DeliveryRate.v ===== *)
(** * Delivery rate estimation (src/congestion/delivery_rate.h, delivery_rate.c)

    The per-connection counters, the snapshot stored with each sent packet, and
    the rate sample computed when a packet is acknowledged. *)

From S2P Require Import Prelude.

Record nxp_dr_pkt_state := DrPktState {
  ps_delivered : Z;
  ps_delivered_time : Z;
  ps_first_sent_time : Z;
  ps_is_app_limited : bool;
  ps_app_limited_at : Z }.

Record nxp_delivery_rate := DeliveryRate {
  delivered : Z;
  delivered_time : Z;
  first_sent_time : Z;
  rate_sample_bps : Z;
  rate_interval_us : Z;
  rate_delivered : Z;
  rate_is_app_limited : bool;
  app_limited : bool;
  app_limited_at : Z;
  round_count : Z;
  next_round_delivered : Z;
  round_start : bool }.

Definition nxp_dr_init : nxp_delivery_rate :=
  DeliveryRate 0 0 0 0 0 0 false false 0 0 0 false.

(** [sent_bytes] is ignored by the code. *)
Definition nxp_dr_on_packet_sent (dr : nxp_delivery_rate) (sent_bytes now_us : Z)
  : nxp_delivery_rate * nxp_dr_pkt_state :=
  let '(fst, dtime) :=
    if first_sent_time dr =? 0 then (now_us, now_us)
    else (first_sent_time dr, delivered_time dr) in
  (DeliveryRate (delivered dr) dtime now_us (rate_sample_bps dr) (rate_interval_us dr)
     (rate_delivered dr) (rate_is_app_limited dr) (app_limited dr) (app_limited_at dr)
     (round_count dr) (next_round_delivered dr) (round_start dr),
   DrPktState (delivered dr) dtime fst (app_limited dr) (app_limited_at dr)).

(** The larger of the send interval and the ACK interval. *)
Definition dr_interval (dr : nxp_delivery_rate) (pkt : nxp_dr_pkt_state) (now_us : Z) : Z :=
  let send_elapsed :=
    if first_sent_time dr >? ps_first_sent_time pkt
    then first_sent_time dr - ps_first_sent_time pkt else 0 in
  let ack_elapsed :=
    if now_us >? ps_delivered_time pkt then now_us - ps_delivered_time pkt else 0 in
  if send_elapsed >? ack_elapsed then send_elapsed else ack_elapsed.

Definition nxp_dr_on_packet_acked (dr : nxp_delivery_rate) (pkt : nxp_dr_pkt_state)
    (acked_bytes now_us : Z) : nxp_delivery_rate :=
  let dlv := u64 (delivered dr + acked_bytes) in
  let '(next_round, rounds, start) :=
    if ps_delivered pkt >=? next_round_delivered dr
    then (dlv, u64 (round_count dr + 1), true)
    else (next_round_delivered dr, round_count dr, false) in
  let delta_delivered := u64 (dlv - ps_delivered pkt) in
  let interval := dr_interval dr pkt now_us in
  if (interval =? 0) || (delta_delivered =? 0) then
    DeliveryRate dlv now_us (first_sent_time dr) (rate_sample_bps dr) (rate_interval_us dr)
      (rate_delivered dr) (rate_is_app_limited dr) (app_limited dr) (app_limited_at dr)
      rounds next_round (ps_delivered pkt >=? u64 (next_round - acked_bytes))
  else
    DeliveryRate dlv now_us (first_sent_time dr) (u64 (delta_delivered * 1000000) / interval)
      interval delta_delivered (ps_is_app_limited pkt)
      (app_limited dr && negb (dlv >? app_limited_at dr)) (app_limited_at dr)
      rounds next_round start.

Definition nxp_dr_set_app_limited (dr : nxp_delivery_rate) : nxp_delivery_rate :=
  DeliveryRate (delivered dr) (delivered_time dr) (first_sent_time dr) (rate_sample_bps dr)
    (rate_interval_us dr) (rate_delivered dr) (rate_is_app_limited dr) true (delivered dr)
    (round_count dr) (next_round_delivered dr) (round_start dr).

Definition nxp_dr_clear_app_limited (dr : nxp_delivery_rate) : nxp_delivery_rate :=
  DeliveryRate (delivered dr) (delivered_time dr) (first_sent_time dr) (rate_sample_bps dr)
    (rate_interval_us dr) (rate_delivered dr) (rate_is_app_limited dr) false (app_limited_at dr)
    (round_count dr) (next_round_delivered dr) (round_start dr).

Definition nxp_dr_is_round_start (dr : nxp_delivery_rate) : bool := round_start dr.
Definition nxp_dr_get_rate (dr : nxp_delivery_rate) : Z := rate_sample_bps dr.

(** ** Invariants *)

(** The counters have not wrapped, and the clock reads at least 1. *)
Definition dr_ok (dr : nxp_delivery_rate) : Prop :=
  0 <= delivered dr < 2 ^ 43 /\ 0 <= next_round_delivered dr <= delivered dr /\
  0 <= rate_sample_bps dr < 2 ^ 64 /\ 0 <= round_count dr < 2 ^ 63.

(** A snapshot taken earlier on the same connection. *)
Definition snapshot_of (dr : nxp_delivery_rate) (pkt : nxp_dr_pkt_state) : Prop :=
  0 <= ps_delivered pkt <= delivered dr /\ 0 <= ps_delivered_time pkt.

Lemma dr_interval_ge dr pkt now :
  0 <= dr_interval dr pkt now /\ now - ps_delivered_time pkt <= dr_interval dr pkt now.
Proof.
  unfold dr_interval. rewrite !Z.gtb_ltb.
  destruct (Z.ltb_spec (ps_first_sent_time pkt) (first_sent_time dr)), (Z.ltb_spec (ps_delivered_time pkt) now);
  zcase; lia.
Qed.

Lemma dr_sent_ok dr n now : dr_ok dr -> 0 <= delivered_time dr -> 0 <= now ->
  let '(dr', pkt) := nxp_dr_on_packet_sent dr n now in dr_ok dr' /\ snapshot_of dr' pkt.
Proof.
  intros (? & ? & ? & ?) Ht Hnow. unfold nxp_dr_on_packet_sent, dr_ok, snapshot_of.
  destruct (first_sent_time dr =? 0); simpl; lia.
Qed.

Lemma dr_acked_ok dr pkt n now : dr_ok dr -> snapshot_of dr pkt -> 0 <= n < 2 ^ 32 ->
  delivered dr + n < 2 ^ 43 -> round_count dr + 1 < 2 ^ 63 ->
  dr_ok (nxp_dr_on_packet_acked dr pkt n now).
Proof.
  intros (Hd & Hr & Hs & Hc) (Hp & Ht) Hn Hov Hrc. unfold nxp_dr_on_packet_acked.
  rewrite (u64_small (delivered dr + n)), (u64_small (delivered dr + n - _)) by lia.
  rewrite (u64_small (round_count dr + 1)), (u64_small (_ * 1000000)) by lia.
  pose proof (dr_interval_ge dr pkt now) as [Hiv _]. set (iv := dr_interval dr pkt now) in *.
  destruct (ps_delivered pkt >=? next_round_delivered dr), (Z.eqb_spec iv 0),
    (Z.eqb_spec (delivered dr + n - ps_delivered pkt) 0); simpl; unfold dr_ok; simpl;
    split_and!; try lia.
  all: try (apply Z.div_pos; lia).
  all: apply Z.div_lt_upper_bound; nia.
Qed.

(** The rate never exceeds the bytes delivered since the snapshot over the
    time since it was taken. *)
Lemma dr_rate_bound dr pkt n now : dr_ok dr -> snapshot_of dr pkt -> 0 < n < 2 ^ 32 ->
  delivered dr + n < 2 ^ 43 -> ps_delivered_time pkt < now ->
  let dr' := nxp_dr_on_packet_acked dr pkt n now in
  rate_delivered dr' = delivered dr + n - ps_delivered pkt /\
  now - ps_delivered_time pkt <= rate_interval_us dr' /\
  rate_sample_bps dr' = rate_delivered dr' * 1000000 / rate_interval_us dr' /\
  rate_sample_bps dr' * (now - ps_delivered_time pkt) <= rate_delivered dr' * 1000000.
Proof.
  intros (Hd & Hr & Hs & Hc) (Hp & Ht) Hn Hov Hnow dr'. unfold dr', nxp_dr_on_packet_acked.
  rewrite (u64_small (delivered dr + n)), (u64_small (delivered dr + n - _)) by lia.
  rewrite (u64_small (_ * 1000000)) by lia.
  pose proof (dr_interval_ge dr pkt now) as [_ Hiv]. set (iv := dr_interval dr pkt now) in *.
  rewrite (proj2 (Z.eqb_neq iv 0)), (proj2 (Z.eqb_neq (_ - _) 0)) by lia. simpl orb. cbn iota.
  destruct (ps_delivered pkt >=? next_round_delivered dr); simpl;
    split_and!; try lia.
  all: pose proof (Z.mul_div_le ((delivered dr + n - ps_delivered pkt) * 1000000) iv ltac:(lia)).
  all: assert (0 <= (delivered dr + n - ps_delivered pkt) * 1000000 / iv)
    by (apply Z.div_pos; lia).
  all: nia.
Qed.

(** A round ends exactly when the acknowledged packet was sent at or after the
    point where the round began. *)
Lemma dr_round dr pkt n now : dr_ok dr -> snapshot_of dr pkt -> 0 < n < 2 ^ 32 ->
  delivered dr + n < 2 ^ 43 -> round_count dr + 1 < 2 ^ 63 -> ps_delivered_time pkt < now ->
  let dr' := nxp_dr_on_packet_acked dr pkt n now in
  (round_start dr' = true <-> next_round_delivered dr <= ps_delivered pkt) /\
  round_count dr' = round_count dr + b2z (round_start dr') /\
  (round_start dr' = true -> next_round_delivered dr' = delivered dr').
Proof.
  intros (Hd & Hr & Hs & Hc) (Hp & Ht) Hn Hov Hrc Hnow dr'. unfold dr', nxp_dr_on_packet_acked.
  rewrite (u64_small (delivered dr + n)), (u64_small (delivered dr + n - _)) by lia.
  rewrite (u64_small (round_count dr + 1)) by lia.
  pose proof (dr_interval_ge dr pkt now) as [_ Hiv]. set (iv := dr_interval dr pkt now) in *.
  rewrite (proj2 (Z.eqb_neq iv 0)), (proj2 (Z.eqb_neq (_ - _) 0)) by lia. simpl orb. cbn iota.
  rewrite Z.geb_leb. destruct (Z.leb_spec (next_round_delivered dr) (ps_delivered pkt)); simpl;
    split_and!; try done; lia.
Qed.

(** ** Properties *)

(** bandwidth samples are sound.  When a packet of [n] bytes is
    acknowledged, the sample is the bytes delivered since the packet's snapshot
    over an interval no shorter than the time since the snapshot, so it never
    overestimates the delivery rate of the acknowledgements; and a round trip is
    counted exactly when the packet was sent after the current round began. *)
Theorem dr_sample_sound dr pkt n now :
  dr_ok dr -> snapshot_of dr pkt -> 0 < n < 2 ^ 32 -> delivered dr + n < 2 ^ 43 ->
  round_count dr + 1 < 2 ^ 63 -> ps_delivered_time pkt < now ->
  let dr' := nxp_dr_on_packet_acked dr pkt n now in
  dr_ok dr' /\ rate_delivered dr' = delivered dr + n - ps_delivered pkt /\
  nxp_dr_get_rate dr' * (now - ps_delivered_time pkt) <= rate_delivered dr' * 1000000 /\
  (nxp_dr_is_round_start dr' = true <-> next_round_delivered dr <= ps_delivered pkt) /\
  round_count dr' = round_count dr + b2z (nxp_dr_is_round_start dr').
Proof.
  intros Hd Hp Hn Hov Hrc Hnow dr'. unfold nxp_dr_get_rate, nxp_dr_is_round_start.
  pose proof (dr_rate_bound dr pkt n now Hd Hp Hn Hov Hnow) as (H1 & _ & _ & H2).
  pose proof (dr_round dr pkt n now Hd Hp Hn Hov Hrc Hnow) as (H3 & H4 & _).
  split_and!; try done. apply dr_acked_ok; (done || lia).
Qed.

Lemma dr_sample_sound_witness :
  let '(dr, pkt) := nxp_dr_on_packet_sent nxp_dr_init 1200 100 in
  let dr' := nxp_dr_on_packet_acked dr pkt 1200 2100 in
  nxp_dr_get_rate dr' = 600000 /\
  dr_ok dr' /\ rate_delivered dr' = delivered dr + 1200 - ps_delivered pkt /\
  nxp_dr_get_rate dr' * (2100 - ps_delivered_time pkt) <= rate_delivered dr' * 1000000 /\
  (nxp_dr_is_round_start dr' = true <-> next_round_delivered dr <= ps_delivered pkt) /\
  round_count dr' = round_count dr + b2z (nxp_dr_is_round_start dr').
Proof.
  cbn -[nxp_dr_on_packet_acked]. split; [reflexivity |].
  apply (dr_sample_sound (fst (nxp_dr_on_packet_sent nxp_dr_init 1200 100))
           (snd (nxp_dr_on_packet_sent nxp_dr_init 1200 100)) 1200 2100); by_compute.
Defined.
