(* ===== verification/Bbr.v ===== *)
(** * BBR congestion control (src/congestion/windowed_filter.h, cc_interface.h,
      bbr_internal.h, bbr.c)

    The windowed max filter, the BBR model and its state machine, and the
    congestion control interface the connection calls. *)

From stdpp Require Import relations.
From S2P Require Import Prelude.

(** ** Windowed min/max filter *)

Record nxp_wf_sample := WfSample { wf_value : Z; wf_time : Z }.

Record nxp_windowed_filter := WindowedFilter {
  s0 : nxp_wf_sample;
  s1 : nxp_wf_sample;
  s2 : nxp_wf_sample;
  window : Z;
  is_max : bool;
  wf_initialized : bool }.

#[export] Instance eta_wf : Eta nxp_windowed_filter := fun f =>
  WindowedFilter (s0 f) (s1 f) (s2 f) (window f) (is_max f) (wf_initialized f).

Definition nxp_wf_init (window : Z) (is_max : bool) : nxp_windowed_filter :=
  let z := WfSample 0 0 in WindowedFilter z z z window is_max false.

Definition nxp_wf_reset (f : nxp_windowed_filter) (value now : Z) : nxp_windowed_filter :=
  let s := WfSample value now in
  f <| s0 := s |> <| s1 := s |> <| s2 := s |> <| wf_initialized := true |>.

Definition nxp_wf_get (f : nxp_windowed_filter) : Z := wf_value (s0 f).

Definition nxp_wf_is_better (f : nxp_windowed_filter) (a b : Z) : bool :=
  if is_max f then a >=? b else a <=? b.

(** [now - s.time > limit] on 64-bit integers. *)
Definition wf_expired (s : nxp_wf_sample) (now limit : Z) : bool :=
  u64 (now - wf_time s) >? limit.

Definition nxp_wf_update (f : nxp_windowed_filter) (value now : Z) : nxp_windowed_filter :=
  let new_s := WfSample value now in
  if negb (wf_initialized f) then nxp_wf_reset f value now else
  if nxp_wf_is_better f value (wf_value (s0 f)) then nxp_wf_reset f value now else
  if wf_expired (s0 f) now (window f) then
    let f := f <| s0 := s1 f |> <| s1 := s2 f |> <| s2 := new_s |> in
    let f := if wf_expired (s0 f) now (window f)
             then f <| s0 := s1 f |> <| s1 := s2 f |> else f in
    if wf_expired (s0 f) now (window f)
    then f <| s0 := new_s |> <| s1 := new_s |> else f
  else
  if nxp_wf_is_better f value (wf_value (s1 f)) || wf_expired (s1 f) now (window f / 4) then
    f <| s1 := new_s |> <| s2 := new_s |>
  else if nxp_wf_is_better f value (wf_value (s2 f)) || wf_expired (s2 f) now (window f / 2) then
    f <| s2 := new_s |>
  else f.

(** ** The congestion control interface *)

Record nxp_cc_ack_info := CcAckInfo {
  ai_pkt_num : Z;
  ai_acked_bytes : Z;
  ai_sent_time : Z;
  ai_now_us : Z;
  ai_rtt_us : Z;
  ai_min_rtt_us : Z;
  ai_bytes_in_flight : Z;
  ai_delivery_rate_bps : Z;
  ai_round_count : Z;
  ai_is_app_limited : bool;
  ai_round_start : bool }.

Record nxp_cc_loss_info := CcLossInfo {
  li_lost_bytes : Z;
  li_now_us : Z;
  li_bytes_in_flight : Z }.

(** The vtable: what the connection relies on for its congestion controller. *)
Record nxp_cc_ops (state : Type) := CcOps {
  cc_create : state;
  cc_on_sent : state -> Z -> Z -> Z -> state;
  cc_on_ack : state -> nxp_cc_ack_info -> state;
  cc_on_loss : state -> nxp_cc_loss_info -> state;
  cc_get_cwnd : state -> Z;
  cc_get_pacing_rate : state -> Z;
  cc_in_slow_start : state -> bool;
  cc_get_send_quantum : state -> Z }.

(** ** BBR constants and state *)

Definition NXP_BBR_STARTUP_PACING_GAIN_NUM : Z := 277.
Definition NXP_BBR_STARTUP_PACING_GAIN_DEN : Z := 100.
Definition NXP_BBR_STARTUP_CWND_GAIN_NUM : Z := 200.
Definition NXP_BBR_STARTUP_CWND_GAIN_DEN : Z := 100.
Definition NXP_BBR_DRAIN_PACING_GAIN_NUM : Z := 100.
Definition NXP_BBR_DRAIN_PACING_GAIN_DEN : Z := 277.
Definition NXP_BBR_PROBE_BW_PHASES : Z := 8.
Definition NXP_BBR_PROBE_BW_UP_NUM : Z := 125.
Definition NXP_BBR_PROBE_BW_UP_DEN : Z := 100.
Definition NXP_BBR_PROBE_RTT_CWND_PKTS : Z := 4.
Definition NXP_BBR_PROBE_RTT_DURATION_US : Z := 200000.
Definition NXP_BBR_BW_WINDOW_ROUNDS : Z := 10.
Definition NXP_BBR_RTPROP_WINDOW_US : Z := 10000000.
Definition NXP_BBR_STARTUP_GROWTH_TARGET_NUM : Z := 125.
Definition NXP_BBR_STARTUP_GROWTH_TARGET_DEN : Z := 100.
Definition NXP_BBR_STARTUP_FULL_LOSS_COUNT : Z := 3.
Definition NXP_BBR_MIN_CWND : Z := 4 * 1200.
Definition NXP_BBR_MAX_DATAGRAM_SIZE : Z := 1200.

Inductive nxp_bbr_state : Type :=
| NXP_BBR_STARTUP | NXP_BBR_DRAIN | NXP_BBR_PROBE_BW | NXP_BBR_PROBE_RTT.

#[global] Instance nxp_bbr_state_eq_dec : EqDecision nxp_bbr_state.
Proof. solve_decision. Defined.

Record nxp_bbr := Bbr {
  state : nxp_bbr_state;
  bw_filter : nxp_windowed_filter;
  btl_bw : Z;
  rt_prop_us : Z;
  rt_prop_stamp : Z;
  pacing_rate : Z;
  cwnd : Z;
  send_quantum : Z;
  target_cwnd : Z;
  pacing_gain_num : Z;
  pacing_gain_den : Z;
  cwnd_gain_num : Z;
  cwnd_gain_den : Z;
  cycle_index : Z;
  cycle_stamp : Z;
  filled_pipe : bool;
  full_bw : Z;
  full_bw_count : Z;
  probe_rtt_done : bool;
  probe_rtt_done_stamp : Z;
  rt_prop_expired : bool;
  round_count : Z;
  round_start : bool;
  app_limited : bool;
  bytes_in_flight : Z;
  prior_cwnd : Z;
  loss_in_round : Z;
  loss_round_start : Z;
  initialized : bool }.

#[export] Instance eta_bbr : Eta nxp_bbr := fun b =>
  Bbr (state b) (bw_filter b) (btl_bw b) (rt_prop_us b) (rt_prop_stamp b) (pacing_rate b)
    (cwnd b) (send_quantum b) (target_cwnd b) (pacing_gain_num b) (pacing_gain_den b)
    (cwnd_gain_num b) (cwnd_gain_den b) (cycle_index b) (cycle_stamp b) (filled_pipe b)
    (full_bw b) (full_bw_count b) (probe_rtt_done b) (probe_rtt_done_stamp b)
    (rt_prop_expired b) (round_count b) (round_start b) (app_limited b) (bytes_in_flight b)
    (prior_cwnd b) (loss_in_round b) (loss_round_start b) (initialized b).

(** ** Helpers *)

Definition apply_gain (val num den : Z) : Z :=
  if den =? 0 then val else u64 (val * num) / den.

Definition bbr_bdp (b : nxp_bbr) : Z :=
  if (btl_bw b =? 0) || (rt_prop_us b =? 0) then NXP_BBR_MIN_CWND else
  let bdp := u64 (btl_bw b * rt_prop_us b) / 1000000 in
  if bdp >? NXP_BBR_MIN_CWND then bdp else NXP_BBR_MIN_CWND.

Definition bbr_inflight (b : nxp_bbr) (gain_num gain_den : Z) : Z :=
  apply_gain (bbr_bdp b) gain_num gain_den.

Definition set_pacing_gain (b : nxp_bbr) (num den : Z) : nxp_bbr :=
  b <| pacing_gain_num := num |> <| pacing_gain_den := den |>.
Definition set_cwnd_gain (b : nxp_bbr) (num den : Z) : nxp_bbr :=
  b <| cwnd_gain_num := num |> <| cwnd_gain_den := den |>.

(** ** Operations *)

(** The zeroed state of [calloc] or [memset]. *)
Definition bbr_zero : nxp_bbr :=
  Bbr NXP_BBR_STARTUP (nxp_wf_init 0 false) 0 0 0 0 0 0 0 0 0 0 0 0 0 false 0 0 false 0 false
    0 false false 0 0 0 0 false.

Definition nxp_bbr_init_state : nxp_bbr :=
  let b := bbr_zero in
  let b := b <| bw_filter := nxp_wf_init NXP_BBR_BW_WINDOW_ROUNDS true |> in
  let b := set_pacing_gain b NXP_BBR_STARTUP_PACING_GAIN_NUM NXP_BBR_STARTUP_PACING_GAIN_DEN in
  let b := set_cwnd_gain b NXP_BBR_STARTUP_CWND_GAIN_NUM NXP_BBR_STARTUP_CWND_GAIN_DEN in
  let b := b <| cwnd := 10 * NXP_BBR_MAX_DATAGRAM_SIZE |> in
  let b := b <| send_quantum := NXP_BBR_MAX_DATAGRAM_SIZE |> in
  b <| initialized := true |>.

Definition update_bw (b : nxp_bbr) (info : nxp_cc_ack_info) : nxp_bbr :=
  if ai_delivery_rate_bps info >? 0 then
    let b :=
      if negb (ai_is_app_limited info) || (ai_delivery_rate_bps info >? nxp_wf_get (bw_filter b))
      then b <| bw_filter := nxp_wf_update (bw_filter b) (ai_delivery_rate_bps info) (round_count b) |>
      else b in
    b <| btl_bw := nxp_wf_get (bw_filter b) |>
  else b.

Definition update_rt_prop (b : nxp_bbr) (info : nxp_cc_ack_info) : nxp_bbr :=
  if ai_rtt_us info >? 0 then
    let rtt_expired := u64 (ai_now_us info - rt_prop_stamp b) >? NXP_BBR_RTPROP_WINDOW_US in
    let b :=
      if (ai_rtt_us info <=? rt_prop_us b) || (rt_prop_us b =? 0) || rtt_expired
      then b <| rt_prop_us := ai_rtt_us info |> <| rt_prop_stamp := ai_now_us info |>
      else b in
    b <| rt_prop_expired := rtt_expired |>
  else b.

Definition nxp_bbr_update_model (b : nxp_bbr) (info : nxp_cc_ack_info) : nxp_bbr :=
  let b := b <| round_count := ai_round_count info |> <| round_start := ai_round_start info |>
             <| app_limited := ai_is_app_limited info |> in
  update_rt_prop (update_bw b info) info.

(** STARTUP -> DRAIN, shared by the plateau and the loss exits. *)
Definition enter_drain (b : nxp_bbr) : nxp_bbr :=
  set_pacing_gain (b <| filled_pipe := true |> <| state := NXP_BBR_DRAIN |>)
    NXP_BBR_DRAIN_PACING_GAIN_NUM NXP_BBR_DRAIN_PACING_GAIN_DEN.

Definition nxp_bbr_check_startup_done (b : nxp_bbr) : nxp_bbr :=
  if bool_decide (state b <> NXP_BBR_STARTUP) || filled_pipe b then b else
  if negb (round_start b) then b else
  if btl_bw b >=? apply_gain (full_bw b) NXP_BBR_STARTUP_GROWTH_TARGET_NUM
                    NXP_BBR_STARTUP_GROWTH_TARGET_DEN
  then b <| full_bw := btl_bw b |> <| full_bw_count := 0 |>
  else
  let b := b <| full_bw_count := u32 (full_bw_count b + 1) |> in
  if full_bw_count b >=? NXP_BBR_STARTUP_FULL_LOSS_COUNT then enter_drain b else b.

Definition nxp_bbr_check_drain_done (b : nxp_bbr) : nxp_bbr :=
  if bool_decide (state b <> NXP_BBR_DRAIN) then b else
  if bytes_in_flight b <=? bbr_bdp b then
    let b := b <| state := NXP_BBR_PROBE_BW |> <| cycle_index := 0 |> in
    let b := set_pacing_gain b NXP_BBR_PROBE_BW_UP_NUM NXP_BBR_PROBE_BW_UP_DEN in
    set_cwnd_gain b 200 100
  else b.

Definition probe_bw_gain_num : list Z := [125; 75; 100; 100; 100; 100; 100; 100].
Definition probe_bw_gain_den : list Z := [100; 100; 100; 100; 100; 100; 100; 100].

(** An in-bounds read of a gain table; the index is reduced modulo 8. *)
Definition gain_at (table : list Z) (i : Z) : Z := default 0 (table !! Z.to_nat i).

Definition nxp_bbr_update_probe_bw (b : nxp_bbr) (now_us : Z) : nxp_bbr :=
  if bool_decide (state b <> NXP_BBR_PROBE_BW) then b else
  let advance := (rt_prop_us b >? 0) && (u64 (now_us - cycle_stamp b) >=? rt_prop_us b) in
  if advance then
    let i := u8 ((cycle_index b + 1) mod NXP_BBR_PROBE_BW_PHASES) in
    set_pacing_gain (b <| cycle_index := i |> <| cycle_stamp := now_us |>)
      (gain_at probe_bw_gain_num i) (gain_at probe_bw_gain_den i)
  else b.

(** Back to PROBE_BW, or to STARTUP when the pipe was never filled. *)
Definition leave_probe_rtt (b : nxp_bbr) (now_us : Z) : nxp_bbr :=
  let b := b <| rt_prop_expired := false |>
             <| cwnd := if prior_cwnd b >? NXP_BBR_MIN_CWND then prior_cwnd b
                        else NXP_BBR_MIN_CWND |> in
  if filled_pipe b then
    let b := b <| state := NXP_BBR_PROBE_BW |> <| cycle_index := 0 |> <| cycle_stamp := now_us |> in
    let b := set_pacing_gain b (gain_at probe_bw_gain_num 0) (gain_at probe_bw_gain_den 0) in
    set_cwnd_gain b 200 100
  else
    let b := b <| state := NXP_BBR_STARTUP |> in
    let b := set_pacing_gain b NXP_BBR_STARTUP_PACING_GAIN_NUM NXP_BBR_STARTUP_PACING_GAIN_DEN in
    set_cwnd_gain b NXP_BBR_STARTUP_CWND_GAIN_NUM NXP_BBR_STARTUP_CWND_GAIN_DEN.

(** Enter PROBE_RTT when the min RTT window has expired. *)
Definition enter_probe_rtt (b : nxp_bbr) : nxp_bbr :=
  if bool_decide (state b <> NXP_BBR_PROBE_RTT) && rt_prop_expired b && negb (app_limited b) then
    let b := b <| prior_cwnd := cwnd b |> <| state := NXP_BBR_PROBE_RTT |> in
    set_pacing_gain b 100 100 <| probe_rtt_done := false |>
  else b.

Definition nxp_bbr_check_probe_rtt (b : nxp_bbr) (now_us : Z) : nxp_bbr :=
  let b := enter_probe_rtt b in
  if bool_decide (state b <> NXP_BBR_PROBE_RTT) then b else
  let probe_cwnd := NXP_BBR_PROBE_RTT_CWND_PKTS * NXP_BBR_MAX_DATAGRAM_SIZE in
  let b := if cwnd b >? probe_cwnd then b <| cwnd := probe_cwnd |> else b in
  if bytes_in_flight b <=? probe_cwnd then
    let b := if negb (probe_rtt_done b)
             then b <| probe_rtt_done := true |> <| probe_rtt_done_stamp := now_us |> else b in
    if probe_rtt_done b &&
       (u64 (now_us - probe_rtt_done_stamp b) >=? NXP_BBR_PROBE_RTT_DURATION_US)
    then leave_probe_rtt b now_us else b
  else b.

Definition update_cwnd (b : nxp_bbr) : nxp_bbr :=
  let target := bbr_inflight b (cwnd_gain_num b) (cwnd_gain_den b) in
  let target := if target <? NXP_BBR_MIN_CWND then NXP_BBR_MIN_CWND else target in
  let b := b <| target_cwnd := target |> in
  if bool_decide (state b <> NXP_BBR_PROBE_RTT) then
    let b := if cwnd b <? target_cwnd b then b <| cwnd := target_cwnd b |> else b in
    if filled_pipe b && (cwnd b >? u64 (target_cwnd b * 2))
    then b <| cwnd := target_cwnd b |> else b
  else b.

Definition nxp_bbr_update_control (b : nxp_bbr) : nxp_bbr :=
  let b := b <| pacing_rate := apply_gain (btl_bw b) (pacing_gain_num b) (pacing_gain_den b) |> in
  let b := update_cwnd b in
  let quantum := pacing_rate b / 1000 in
  let quantum := if quantum <? 2 * NXP_BBR_MAX_DATAGRAM_SIZE
                 then 2 * NXP_BBR_MAX_DATAGRAM_SIZE else quantum in
  let quantum := if quantum >? 64 * 1024 then 64 * 1024 else quantum in
  b <| send_quantum := quantum |>.

(** [sent_bytes] and [now_us] are ignored by the code. *)
Definition bbr_on_sent (b : nxp_bbr) (sent_bytes now_us in_flight : Z) : nxp_bbr :=
  b <| bytes_in_flight := in_flight |>.

Definition bbr_on_ack (b : nxp_bbr) (info : nxp_cc_ack_info) : nxp_bbr :=
  let b := b <| bytes_in_flight := ai_bytes_in_flight info |> in
  let b := nxp_bbr_update_model b info in
  let b := nxp_bbr_check_startup_done b in
  let b := nxp_bbr_check_drain_done b in
  let b := nxp_bbr_update_probe_bw b (ai_now_us info) in
  let b := nxp_bbr_check_probe_rtt b (ai_now_us info) in
  nxp_bbr_update_control b.

Definition bbr_on_loss (b : nxp_bbr) (info : nxp_cc_loss_info) : nxp_bbr :=
  let b := b <| bytes_in_flight := li_bytes_in_flight info |>
             <| loss_in_round := u64 (loss_in_round b + li_lost_bytes info) |> in
  if bool_decide (state b = NXP_BBR_STARTUP) && negb (filled_pipe b) then
    if (bytes_in_flight b >? 0) && (loss_in_round b >? bytes_in_flight b / 5)
    then enter_drain b else b
  else b.

Definition bbr_get_cwnd (b : nxp_bbr) : Z := cwnd b.
Definition bbr_get_pacing_rate (b : nxp_bbr) : Z := pacing_rate b.
Definition bbr_in_slow_start (b : nxp_bbr) : bool := bool_decide (state b = NXP_BBR_STARTUP).
Definition bbr_get_send_quantum (b : nxp_bbr) : Z := send_quantum b.

Definition nxp_cc_bbr : nxp_cc_ops nxp_bbr :=
  CcOps _ nxp_bbr_init_state bbr_on_sent bbr_on_ack bbr_on_loss bbr_get_cwnd bbr_get_pacing_rate
    bbr_in_slow_start bbr_get_send_quantum.

(** ** Invariant of the state machine *)

(** The gains that go with each state; PROBE_RTT holds the minimum window. *)
Definition phase_ok (b : nxp_bbr) : Prop :=
  match state b with
  | NXP_BBR_STARTUP =>
      filled_pipe b = false /\ pacing_gain_num b = NXP_BBR_STARTUP_PACING_GAIN_NUM /\
      pacing_gain_den b = NXP_BBR_STARTUP_PACING_GAIN_DEN
  | NXP_BBR_DRAIN =>
      filled_pipe b = true /\ pacing_gain_num b = NXP_BBR_DRAIN_PACING_GAIN_NUM /\
      pacing_gain_den b = NXP_BBR_DRAIN_PACING_GAIN_DEN
  | NXP_BBR_PROBE_BW =>
      filled_pipe b = true /\ pacing_gain_num b = gain_at probe_bw_gain_num (cycle_index b) /\
      pacing_gain_den b = gain_at probe_bw_gain_den (cycle_index b)
  | NXP_BBR_PROBE_RTT =>
      cwnd b = NXP_BBR_MIN_CWND /\ pacing_gain_num b = 100 /\ pacing_gain_den b = 100
  end.

Definition bbr_ok (b : nxp_bbr) : Prop :=
  phase_ok b /\ cwnd_gain_num b = 200 /\ cwnd_gain_den b = 100 /\ 0 <= cycle_index b < 8 /\
  NXP_BBR_MIN_CWND <= cwnd b < 2 ^ 64 /\
  NXP_BBR_MAX_DATAGRAM_SIZE <= send_quantum b <= 64 * 1024 /\
  (state b = NXP_BBR_PROBE_RTT -> NXP_BBR_MIN_CWND <= prior_cwnd b < 2 ^ 64).

(** The documented transitions. *)
Inductive bbr_edge : nxp_bbr_state -> nxp_bbr_state -> Prop :=
| edge_pipe_full : bbr_edge NXP_BBR_STARTUP NXP_BBR_DRAIN
| edge_drained : bbr_edge NXP_BBR_DRAIN NXP_BBR_PROBE_BW
| edge_probe_rtt s : s <> NXP_BBR_PROBE_RTT -> bbr_edge s NXP_BBR_PROBE_RTT
| edge_rtt_bw : bbr_edge NXP_BBR_PROBE_RTT NXP_BBR_PROBE_BW
| edge_rtt_startup : bbr_edge NXP_BBR_PROBE_RTT NXP_BBR_STARTUP.

(** What one stage of the state machine guarantees. *)
Definition bbr_stage (b b' : nxp_bbr) : Prop :=
  bbr_ok b' /\ rtc bbr_edge (state b) (state b') /\ (filled_pipe b = true -> filled_pipe b' = true).

Lemma bbr_stage_trans b b1 b2 : bbr_stage b b1 -> bbr_stage b1 b2 -> bbr_stage b b2.
Proof.
  intros (_ & H1 & F1) (O2 & H2 & F2). split_and!; [done | by etrans | tauto].
Qed.

Lemma bbr_stage_same b : bbr_ok b -> bbr_stage b b.
Proof. intros. split_and!; [done | apply rtc_refl | done]. Qed.

(** A stage that leaves every field of the invariant alone. *)
Lemma bbr_stage_frame b b' : bbr_ok b ->
  state b' = state b -> filled_pipe b' = filled_pipe b -> pacing_gain_num b' = pacing_gain_num b ->
  pacing_gain_den b' = pacing_gain_den b -> cwnd_gain_num b' = cwnd_gain_num b ->
  cwnd_gain_den b' = cwnd_gain_den b -> cycle_index b' = cycle_index b -> cwnd b' = cwnd b ->
  send_quantum b' = send_quantum b -> prior_cwnd b' = prior_cwnd b -> bbr_stage b b'.
Proof.
  intros Hok E1 E2 E3 E4 E5 E6 E7 E8 E9 E10. unfold bbr_stage, bbr_ok, phase_ok in *.
  rewrite E1, E2, E3, E4, E5, E6, E7, E8, E9, E10.
  split_and!; try apply Hok; [apply rtc_refl | done].
Qed.

Ltac frame_stage := apply bbr_stage_frame; [done | reflexivity..].

Lemma update_model_stage b info : bbr_ok b -> bbr_stage b (nxp_bbr_update_model b info).
Proof.
  intros Hok. unfold nxp_bbr_update_model, update_bw, update_rt_prop.
  repeat case_match; frame_stage.
Qed.

Lemma enter_drain_stage b : bbr_ok b -> state b = NXP_BBR_STARTUP -> bbr_stage b (enter_drain b).
Proof.
  intros (Hph & Hg & Hg' & Hi & Hc & Hq & Hp) Hst. unfold bbr_stage, bbr_ok, phase_ok. simpl.
  rewrite Hst. split_and!; try done; try lia. apply rtc_once, edge_pipe_full.
Qed.

Lemma startup_done_stage b : bbr_ok b -> bbr_stage b (nxp_bbr_check_startup_done b).
Proof.
  intros Hok. unfold nxp_bbr_check_startup_done.
  destruct (bool_decide _) eqn:Hst; simpl; [by apply bbr_stage_same |].
  apply bool_decide_eq_false in Hst. apply dec_stable in Hst.
  destruct (filled_pipe b); [by apply bbr_stage_same |].
  destruct (negb _); [by apply bbr_stage_same |].
  destruct (_ >=? _); [frame_stage |]. cbv zeta.
  set (b1 := b <| full_bw_count := _ |>).
  assert (bbr_stage b b1) as H1 by frame_stage. destruct (_ >=? _); [| done].
  eapply bbr_stage_trans; [exact H1 |]. apply enter_drain_stage; [apply H1 | done].
Qed.

Lemma drain_done_stage b : bbr_ok b -> bbr_stage b (nxp_bbr_check_drain_done b).
Proof.
  intros Hok. unfold nxp_bbr_check_drain_done.
  destruct (bool_decide _) eqn:Hst; [by apply bbr_stage_same |].
  apply bool_decide_eq_false in Hst. apply dec_stable in Hst.
  destruct (_ <=? _); [| by apply bbr_stage_same].
  destruct Hok as (Hph & Hg & Hg' & Hi & Hc & Hq & Hp). unfold phase_ok in Hph. rewrite Hst in Hph.
  unfold bbr_stage, bbr_ok, phase_ok. simpl. rewrite Hst.
  split_and!; try tauto; try lia; try done. apply rtc_once, edge_drained.
Qed.

Lemma probe_bw_stage b now : bbr_ok b -> bbr_stage b (nxp_bbr_update_probe_bw b now).
Proof.
  intros Hok. unfold nxp_bbr_update_probe_bw, NXP_BBR_PROBE_BW_PHASES.
  destruct (bool_decide _) eqn:Hst; [by apply bbr_stage_same |].
  apply bool_decide_eq_false in Hst. apply dec_stable in Hst.
  cbv zeta. destruct (_ && _); [| by apply bbr_stage_same].
  destruct Hok as (Hph & Hg & Hg' & Hi & Hc & Hq & Hp). unfold phase_ok in Hph. rewrite Hst in Hph.
  pose proof (Z.mod_pos_bound (cycle_index b + 1) 8 ltac:(lia)).
  rewrite u8_small by lia. unfold bbr_stage, bbr_ok, phase_ok. simpl. rewrite Hst.
  split_and!; try tauto; try lia; try done; apply rtc_refl.
Qed.

Lemma enter_probe_rtt_stage b : bbr_ok b ->
  let b1 := enter_probe_rtt b in
  bbr_stage b (b1 <| cwnd := if bool_decide (state b1 = NXP_BBR_PROBE_RTT) then NXP_BBR_MIN_CWND else cwnd b1 |>).
Proof.
  intros Hok b1. unfold b1, enter_probe_rtt.
  destruct (bool_decide (state b <> _)) eqn:Hst; simpl.
  2: { apply bool_decide_eq_false in Hst. apply dec_stable in Hst.
       rewrite bool_decide_eq_true_2 by done.
       apply bbr_stage_frame; try done. simpl. destruct Hok as [Hph _].
       unfold phase_ok in Hph. rewrite Hst in Hph. symmetry. apply Hph. }
  apply bool_decide_eq_true in Hst.
  destruct (_ && _).
  - destruct Hok as (Hph & Hg & Hg' & Hi & Hc & Hq & Hp).
    unfold bbr_stage, bbr_ok, phase_ok. simpl. unfold NXP_BBR_MIN_CWND in *.
    split_and!; try done; try lia. by apply rtc_once, edge_probe_rtt.
  - rewrite bool_decide_eq_false_2 by done. frame_stage.
Qed.

Lemma leave_probe_rtt_stage b now : bbr_ok b -> state b = NXP_BBR_PROBE_RTT ->
  bbr_stage b (leave_probe_rtt b now).
Proof.
  intros (Hph & Hg & Hg' & Hi & Hc & Hq & Hp) Hst. specialize (Hp Hst).
  assert (NXP_BBR_MIN_CWND <= (if prior_cwnd b >? NXP_BBR_MIN_CWND then prior_cwnd b
            else NXP_BBR_MIN_CWND) < 2 ^ 64) as Hcw.
  { unfold NXP_BBR_MIN_CWND in *. rewrite Z.gtb_ltb. zcase; lia. }
  unfold leave_probe_rtt, bbr_stage, bbr_ok, phase_ok. simpl.
  destruct (filled_pipe b) eqn:Hf; simpl; rewrite Hst, ?Hf.
  - split_and!; try done; try lia. apply rtc_once, edge_rtt_bw.
  - split_and!; try done; try lia. apply rtc_once, edge_rtt_startup.
Qed.

Lemma probe_rtt_stage b now : bbr_ok b -> bbr_stage b (nxp_bbr_check_probe_rtt b now).
Proof.
  intros Hok. pose proof (enter_probe_rtt_stage b Hok) as He. cbv zeta in He.
  unfold nxp_bbr_check_probe_rtt. set (b1 := enter_probe_rtt b) in *.
  destruct (bool_decide (state b1 <> _)) eqn:Hst.
  { apply bool_decide_eq_true in Hst. rewrite bool_decide_eq_false_2 in He by done.
    by destruct b1. }
  apply bool_decide_eq_false in Hst. apply dec_stable in Hst.
  rewrite bool_decide_eq_true_2 in He by done. cbv zeta.
  set (b2 := if cwnd b1 >? _ then _ else b1).
  assert (bbr_stage b b2 /\ state b2 = NXP_BBR_PROBE_RTT) as [H2 Hst2].
  { unfold b2. destruct (cwnd b1 >? _) eqn:Hc; [done |].
    assert (NXP_BBR_MIN_CWND <= cwnd b1) as Hmin.
    { unfold b1, enter_probe_rtt. case_match; simpl; apply Hok. }
    rewrite Z.gtb_ltb in Hc. apply Z.ltb_ge in Hc.
    unfold NXP_BBR_PROBE_RTT_CWND_PKTS, NXP_BBR_MAX_DATAGRAM_SIZE, NXP_BBR_MIN_CWND in *.
    replace b1 with (b1 <| cwnd := 4 * 1200 |>); [done |]. clear -Hc Hmin. clearbody b1. destruct b1; simpl in *.
    unfold assign_with. f_equal. lia. }
  destruct (bytes_in_flight b2 <=? _); [| done].
  set (b3 := if negb (probe_rtt_done b2) then _ else b2).
  assert (bbr_stage b2 b3 /\ state b3 = NXP_BBR_PROBE_RTT) as [H3 Hst3].
  { destruct H2 as [Hok2 _]. unfold b3. case_match; split; (done || frame_stage || by apply bbr_stage_same). }
  pose proof (bbr_stage_trans _ _ _ H2 H3) as H4.
  destruct (_ && _); [| done].
  eapply bbr_stage_trans; [exact H4 |]. apply leave_probe_rtt_stage; [apply H3 | done].
Qed.

Lemma apply_gain_bound v n d : 0 < d -> 0 <= apply_gain v n d < 2 ^ 64.
Proof.
  intros Hd. unfold apply_gain. rewrite (proj2 (Z.eqb_neq _ _)) by lia.
  pose proof (u64_range (v * n)). split; [apply Z.div_pos; lia |].
  apply Z.div_lt_upper_bound; nia.
Qed.

Lemma update_control_stage b : bbr_ok b -> bbr_stage b (nxp_bbr_update_control b).
Proof.
  intros Hok. unfold nxp_bbr_update_control, update_cwnd. simpl.
  pose proof Hok as (Hph & Hg & Hg' & Hi & Hc & Hq & Hp).
  pose proof (apply_gain_bound (bbr_bdp (b <| pacing_rate :=
    apply_gain (btl_bw b) (pacing_gain_num b) (pacing_gain_den b) |>)) (cwnd_gain_num b)
    (cwnd_gain_den b) ltac:(lia)) as Ht.
  unfold bbr_inflight. set (t := apply_gain (bbr_bdp _) _ _) in *. cbv zeta.
  set (t' := if t <? _ then _ else t).
  assert (NXP_BBR_MIN_CWND <= t' < 2 ^ 64) as Ht'.
  { unfold t', NXP_BBR_MIN_CWND in *. zcase; lia. }
  set (q := if _ >? 64 * 1024 then _ else _).
  assert (NXP_BBR_MAX_DATAGRAM_SIZE <= q <= 64 * 1024) as Hq'.
  { unfold q, NXP_BBR_MAX_DATAGRAM_SIZE. rewrite Z.gtb_ltb. zcase; lia. }
  clearbody q t'. clear Ht t.
  destruct (bool_decide _) eqn:Hst; simpl.
  - apply bool_decide_eq_true in Hst.
    assert (forall c, NXP_BBR_MIN_CWND <= c < 2 ^ 64 ->
      bbr_stage b (b <| pacing_rate := apply_gain (btl_bw b) (pacing_gain_num b) (pacing_gain_den b) |>
        <| target_cwnd := t' |> <| cwnd := c |> <| send_quantum := q |>)) as Hc'.
    { intros c Hcc. unfold bbr_stage, bbr_ok, phase_ok in *. simpl.
      destruct (state b); try done; split_and!; try (apply rtc_refl || tauto || lia || done). }
    destruct (cwnd b <? t'), (filled_pipe b); simpl; try case_match; apply Hc'; simpl; done.
  - unfold bbr_stage, bbr_ok, phase_ok in *. simpl. split_and!; try (apply rtc_refl || tauto || lia || done).
Qed.

(** ** Reachable controller states *)

Inductive bbr_step : nxp_bbr -> nxp_bbr -> Prop :=
| step_sent b bytes now in_flight : bbr_step b (bbr_on_sent b bytes now in_flight)
| step_ack b info : bbr_step b (bbr_on_ack b info)
| step_loss b info : bbr_step b (bbr_on_loss b info).

Lemma on_ack_stage b info : bbr_ok b -> bbr_stage b (bbr_on_ack b info).
Proof.
  intros Hok. unfold bbr_on_ack. cbv zeta. set (b0 := b <| bytes_in_flight := _ |>).
  assert (bbr_stage b b0) as H0 by frame_stage.
  pose proof (update_model_stage b0 info (proj1 H0)) as H1.
  pose proof (startup_done_stage _ (proj1 H1)) as H2.
  pose proof (drain_done_stage _ (proj1 H2)) as H3.
  pose proof (probe_bw_stage _ (ai_now_us info) (proj1 H3)) as H4.
  pose proof (probe_rtt_stage _ (ai_now_us info) (proj1 H4)) as H5.
  pose proof (update_control_stage _ (proj1 H5)) as H6.
  eauto 10 using bbr_stage_trans.
Qed.

Lemma bbr_step_stage b b' : bbr_ok b -> bbr_step b b' -> bbr_stage b b'.
Proof.
  intros Hok Hs. revert Hok. destruct Hs; intros Hok; [frame_stage | by apply on_ack_stage |].
  unfold bbr_on_loss. cbv zeta. set (b1 := b <| bytes_in_flight := _ |> <| loss_in_round := _ |>).
  assert (bbr_stage b b1) as H1 by frame_stage.
  destruct (bool_decide _) eqn:Hst; simpl; [| done]. apply bool_decide_eq_true in Hst.
  destruct (negb _); [| done]. destruct (_ && _); [| done].
  eapply bbr_stage_trans; [exact H1 |]. by apply enter_drain_stage; [apply H1 |].
Qed.

Lemma bbr_init_ok : bbr_ok nxp_bbr_init_state.
Proof. unfold bbr_ok, phase_ok. simpl. split_and!; (done || by_compute). Qed.

Lemma bbr_reachable_ok b : rtc bbr_step nxp_bbr_init_state b -> bbr_ok b.
Proof.
  assert (forall b0 b1, rtc bbr_step b0 b1 -> bbr_ok b0 -> bbr_ok b1) as H.
  { induction 1 as [| b0 b1 b2 Hstep _ IH]; [done |]. intros Hok.
    apply IH, (bbr_step_stage b0 b1 Hok Hstep). }
  intros Hr. by eapply H; [| apply bbr_init_ok].
Qed.

Lemma phase_filled b : phase_ok b -> filled_pipe b = true -> bbr_in_slow_start b = false.
Proof.
  unfold phase_ok, bbr_in_slow_start. intros Hph Hf. apply bool_decide_eq_false. intros Hs.
  rewrite Hs in Hph. destruct Hph as [Hph _]. congruence.
Qed.

(** ** The windowed filter *)

(** Samples are stored in the order they were taken, up to [now]. *)
Definition wf_ok (f : nxp_windowed_filter) (now : Z) : Prop :=
  wf_initialized f = true /\ 0 <= window f < 2 ^ 63 /\ 0 <= wf_time (s0 f) /\
  wf_time (s0 f) <= wf_time (s1 f) <= wf_time (s2 f) /\ wf_time (s2 f) <= now < 2 ^ 64.

Lemma wf_expired_spec s now limit : 0 <= wf_time s <= now -> now < 2 ^ 64 ->
  wf_expired s now limit = (limit <? now - wf_time s).
Proof. intros. unfold wf_expired. rewrite u64_small by lia. by rewrite Z.gtb_ltb. Qed.

Lemma wf_update_fresh f last v now : wf_ok f last -> last <= now < 2 ^ 64 ->
  let f' := nxp_wf_update f v now in
  wf_ok f' now /\ window f' = window f /\ is_max f' = is_max f /\
  now - wf_time (s0 f') <= window f /\
  (s0 f' = WfSample v now \/ s0 f' = s0 f \/ s0 f' = s1 f \/ s0 f' = s2 f).
Proof.
  intros (Hi & Hw & H0 & H1 & H2) Hnow f'. unfold f', nxp_wf_update.
  rewrite Hi. simpl negb. cbn iota.
  destruct (nxp_wf_is_better f v (wf_value (s0 f))).
  { unfold wf_ok, nxp_wf_reset. simpl. split_and!; try done; try lia. by left. }
  rewrite (wf_expired_spec (s0 f)) by lia.
  destruct (Z.ltb_spec (window f) (now - wf_time (s0 f))) as [Hexp |].
  - cbn -[wf_expired]. rewrite (wf_expired_spec (s1 f)) by lia.
    destruct (Z.ltb_spec (window f) (now - wf_time (s1 f))); cbn -[wf_expired].
    + rewrite (wf_expired_spec (s2 f)) by lia.
      destruct (Z.ltb_spec (window f) (now - wf_time (s2 f))); unfold wf_ok; simpl;
        split_and!; try done; try lia; auto.
    + rewrite (wf_expired_spec (s1 f)) by lia. rewrite (proj2 (Z.ltb_ge _ _)) by lia.
      unfold wf_ok; simpl; split_and!; try done; try lia; auto.
  - destruct (_ || _); [| destruct (_ || _)]; unfold wf_ok; simpl;
      split_and!; try done; try lia; auto.
Qed.

(** Within one window of its oldest sample, the max filter is exact. *)
Fixpoint wf_feed (f : nxp_windowed_filter) (samples : list (Z * Z)) : nxp_windowed_filter :=
  match samples with
  | [] => f
  | (v, now) :: samples => wf_feed (nxp_wf_update f v now) samples
  end.

Fixpoint samples_within (lo hi : Z) (samples : list (Z * Z)) : Prop :=
  match samples with
  | [] => True
  | (_, now) :: samples => lo <= now <= hi /\ samples_within now hi samples
  end.

Lemma wf_update_max f last v now : wf_ok f last -> last <= now < 2 ^ 64 -> is_max f = true ->
  now <= wf_time (s0 f) + window f ->
  nxp_wf_get (nxp_wf_update f v now) = Z.max (nxp_wf_get f) v /\
  wf_time (s0 f) <= wf_time (s0 (nxp_wf_update f v now)).
Proof.
  intros (Hi & Hw & H0 & H1 & H2) Hnow Hmax Hin. unfold nxp_wf_update, nxp_wf_get.
  rewrite Hi. simpl negb. cbn iota.
  assert (nxp_wf_is_better f v (wf_value (s0 f)) = (wf_value (s0 f) <=? v)) as ->
    by (unfold nxp_wf_is_better; by rewrite Hmax, Z.geb_leb).
  destruct (Z.leb_spec (wf_value (s0 f)) v).
  { unfold nxp_wf_reset. simpl. lia. }
  rewrite wf_expired_spec by lia. rewrite (proj2 (Z.ltb_ge _ _)) by lia.
  destruct (_ || _); [simpl; lia |]. destruct (_ || _); simpl; lia.
Qed.

Lemma wf_feed_max samples f last hi : wf_ok f last -> is_max f = true ->
  samples_within last hi samples -> hi <= wf_time (s0 f) + window f -> hi < 2 ^ 64 ->
  nxp_wf_get (wf_feed f samples) = foldl Z.max (nxp_wf_get f) (fst <$> samples).
Proof.
  revert f last. induction samples as [| [v now] samples IH]; intros f last Hok Hmax Hin Hhi H64;
    [done |]. destruct Hin as [Hnow Hin]. cbn [wf_feed fmap list_fmap foldl fst].
  pose proof (wf_update_fresh f last v now Hok ltac:(lia)) as (Hok' & Hw & Hm & _ & _).
  pose proof (wf_update_max f last v now Hok ltac:(lia) Hmax ltac:(lia)) as [Hget Ht].
  rewrite <- Hget. apply (IH _ now); (done || lia || congruence).
Qed.

(** Once the best sample expires the filter promotes the old runners-up
    without comparing them with the new sample: it can return less than samples
    that are still inside the window. *)
Example wf_forgets_in_window_max :
  let f := nxp_wf_reset (nxp_wf_init 10 true) 100 0 in
  nxp_wf_get (wf_feed f [(50, 3); (40, 9); (90, 11)]) = 40.
Proof. vm_compute. reflexivity. Qed.

(** The loss counter is never reset: losses of different rounds add up until
    STARTUP ends, although each is a small part of the bytes in flight. *)
Example loss_counter_accumulates :
  let lose b := bbr_on_loss b (CcLossInfo 1200 0 60000) in
  let b10 := Nat.iter 10 lose nxp_bbr_init_state in
  bbr_in_slow_start b10 = true /\ bbr_in_slow_start (lose b10) = false.
Proof. vm_compute. done. Qed.

(** ** Properties *)

(** in every state BBR can reach through packets sent, acknowledged and
    lost, with arbitrary (even wrapping) measurements, the congestion window is
    at least four packets and fits 64 bits, the send quantum is between one
    packet and 64 KB, the pacing gain is the one of the current phase, PROBE_RTT
    runs at exactly the minimum window, and STARTUP excludes a filled pipe. *)
Theorem bbr_invariant b : rtc bbr_step nxp_bbr_init_state b -> bbr_ok b.
Proof. apply bbr_reachable_ok. Qed.

Lemma bbr_invariant_witness :
  let b := bbr_on_ack nxp_bbr_init_state (CcAckInfo 1 1200 0 100 50 50 0 600000 1 false true) in
  bbr_get_cwnd b = 12000 /\ bbr_ok b.
Proof.
  split; [reflexivity |]. apply bbr_invariant. apply rtc_once, step_ack.
Defined.

(** the state machine follows the documented graph.  From a reachable
    state, each acknowledgement moves along STARTUP -> DRAIN -> PROBE_BW <->
    PROBE_RTT edges (PROBE_RTT is entered from any state and left to PROBE_BW,
    or to STARTUP only if the pipe was never filled); once the pipe has been
    filled BBR never reports slow start again. *)
Theorem bbr_transitions b info :
  rtc bbr_step nxp_bbr_init_state b ->
  let b' := bbr_on_ack b info in
  rtc bbr_edge (state b) (state b') /\
  (filled_pipe b = true -> filled_pipe b' = true /\ bbr_in_slow_start b' = false).
Proof.
  intros Hr b'. pose proof (on_ack_stage b info (bbr_reachable_ok b Hr)) as (Hok & He & Hf).
  split; [exact He |]. intros Hfull. split; [exact (Hf Hfull) |].
  exact (phase_filled _ (proj1 Hok) (Hf Hfull)).
Qed.

Lemma bbr_transitions_witness :
  let info := CcAckInfo 1 1200 0 100 50 50 0 600000 1 false true in
  let b := bbr_on_loss nxp_bbr_init_state (CcLossInfo 1200 0 2400) in
  state (bbr_on_ack b info) = NXP_BBR_PROBE_BW /\
  rtc bbr_edge (state b) (state (bbr_on_ack b info)) /\
  (filled_pipe b = true -> filled_pipe (bbr_on_ack b info) = true /\
     bbr_in_slow_start (bbr_on_ack b info) = false).
Proof.
  split; [reflexivity |]. apply bbr_transitions. apply rtc_once, step_loss.
Defined.

(** the bandwidth filter returns a fresh sample, and is exact within a
    window: its estimate is always a sample no older than the window, and while
    the samples fit in one window after the filter's best sample, the estimate
    is their exact maximum. *)
Theorem wf_max_exact f last hi samples :
  wf_ok f last -> is_max f = true -> samples_within last hi samples ->
  hi <= wf_time (s0 f) + window f -> hi < 2 ^ 64 ->
  nxp_wf_get (wf_feed f samples) = foldl Z.max (nxp_wf_get f) (fst <$> samples) /\
  (forall v now, last <= now < 2 ^ 64 -> now - wf_time (s0 (nxp_wf_update f v now)) <= window f).
Proof.
  intros Hok Hmax Hin Hhi H64. split; [by eapply wf_feed_max |].
  intros v now Hnow. by apply (wf_update_fresh f last).
Qed.

Lemma wf_max_exact_witness :
  let f := nxp_wf_reset (nxp_wf_init 10 true) 40 0 in
  nxp_wf_get (wf_feed f [(30, 3); (70, 7); (50, 10)]) = 70 /\
  nxp_wf_get (wf_feed f [(30, 3); (70, 7); (50, 10)]) =
    foldl Z.max (nxp_wf_get f) (fst <$> [(30, 3); (70, 7); (50, 10)]) /\
  (forall v now, 0 <= now < 2 ^ 64 -> now - wf_time (s0 (nxp_wf_update f v now)) <= window f).
Proof.
  intros f. split; [reflexivity |].
  apply (wf_max_exact f 0 10); by_compute.
Defined.
