(* ===== verification/Ack.v ===== *)
(** * Acknowledgements and loss detection (src/core/ack.c, and the ACK part of
      src/core/connection_internal.h)

    The receive side records packet numbers as ranges and builds ACK frames;
    the send side records sent packets, consumes ACK frames, estimates the RTT
    and declares losses.  The arrays of [nxp_ack_state] are the lists of their
    live entries, and the callbacks are functions of the context, of the state
    at the time of the call and of the packet. *)

From S2P Require Import Prelude Varint Codec Frame DeliveryRate.

Definition INITIAL_RTT_US : Z := 333000.
Definition NXP_MAX_RECV_RANGES : Z := 64.
Definition NXP_MAX_STREAM_FRAMES_PER_PKT : Z := 8.
Definition NXP_ACK_DELAY_US : Z := 25000.
Definition NXP_LOSS_DELAY_FACTOR : Z := 9.
Definition NXP_PACKET_REORDER_THRESH : Z := 3.

(** ** State *)

Record nxp_stream_frame_record := StreamFrameRecord {
  fr_stream_id : Z; fr_offset : Z; fr_len : Z; fr_fin : bool }.

Record nxp_sent_pkt := SentPkt {
  pkt_num : Z;
  sent_time : Z;
  sent_bytes : Z;
  ack_eliciting : bool;
  in_flight : bool;
  declared_lost : bool;
  frames : list nxp_stream_frame_record;
  dr_state : nxp_dr_pkt_state }.

Record nxp_recv_pn_range := RecvRange { r_start : Z; r_end : Z }.

Record nxp_ack_state := AckState {
  recv_ranges : list nxp_recv_pn_range;
  largest_recv_pn : Z;
  largest_recv_time : Z;
  ack_needed : bool;
  ack_delay_timer : Z;
  smoothed_rtt : Z;
  rtt_var : Z;
  min_rtt : Z;
  latest_rtt : Z;
  has_rtt : bool;
  sent_null : bool;
  sent : list nxp_sent_pkt;
  sent_cap : Z;
  bytes_in_flight : Z;
  loss_time : Z;
  pto_count : Z;
  time_of_last_ack_eliciting : Z }.

#[export] Instance eta_ack : Eta nxp_ack_state := fun a =>
  AckState (recv_ranges a) (largest_recv_pn a) (largest_recv_time a) (ack_needed a)
    (ack_delay_timer a) (smoothed_rtt a) (rtt_var a) (min_rtt a) (latest_rtt a) (has_rtt a)
    (sent_null a) (sent a) (sent_cap a) (bytes_in_flight a) (loss_time a) (pto_count a)
    (time_of_last_ack_eliciting a).

#[export] Instance eta_sent_pkt : Eta nxp_sent_pkt := fun p =>
  SentPkt (pkt_num p) (sent_time p) (sent_bytes p) (ack_eliciting p) (in_flight p)
    (declared_lost p) (frames p) (dr_state p).

Definition u64_max (a b : Z) : Z := if a >? b then a else b.
Definition u64_min (a b : Z) : Z := if a <? b then a else b.

Definition compute_pto (ack : nxp_ack_state) : Z :=
  let rtt := if has_rtt ack then smoothed_rtt ack else INITIAL_RTT_US in
  let var := if has_rtt ack then rtt_var ack else INITIAL_RTT_US / 2 in
  u64 (u64 (rtt + u64_max (u64 (4 * var)) 1000) + NXP_ACK_DELAY_US).

(** [calloc_ok]: the array of sent packets is allocated.  The failure is not
    checked: the pointer stays null, with the capacity of an array. *)
Definition nxp_ack_init (calloc_ok : bool) : nxp_ack_state :=
  AckState [] 0 0 false 0 INITIAL_RTT_US (INITIAL_RTT_US / 2) UINT64_MAX 0 false (negb calloc_ok) [] 256 0
    UINT64_MAX 0 0.

Definition nxp_ack_cleanup (ack : nxp_ack_state) : nxp_ack_state :=
  ack <| sent_null := true |> <| sent := [] |> <| sent_cap := 0 |>.

(** ** Received packets *)

Definition in_range (pn : Z) (r : nxp_recv_pn_range) : bool :=
  (pn >=? r_start r) && (pn <=? r_end r).

(** The loop that extends or merges a range; [passed] are the ranges already
    examined, most recent first.  [None] means that no range was extended. *)
Fixpoint extend_ranges (passed rest : list nxp_recv_pn_range) (pn : Z)
  : option (list nxp_recv_pn_range) :=
  match rest with
  | [] => None
  | r :: rest =>
      if in_range pn r then Some (reverse passed ++ r :: rest)
      else if pn =? u64 (r_end r + 1) then
        let r := RecvRange (r_start r) pn in
        match passed with
        | p :: passed' =>
            if r_start p =? u64 (r_end r + 1)
            then Some (reverse passed' ++ RecvRange (r_start r) (r_end p) :: rest)
            else Some (reverse passed ++ r :: rest)
        | [] => Some (r :: rest)
        end
      else if u64 (pn + 1) =? r_start r then
        let r := RecvRange pn (r_end r) in
        match rest with
        | q :: rest' =>
            if u64 (r_end q + 1) =? r_start r
            then Some (reverse passed ++ RecvRange (r_start q) (r_end r) :: rest')
            else Some (reverse passed ++ r :: rest)
        | [] => Some (reverse passed ++ [r])
        end
      else extend_ranges (r :: passed) rest pn
  end.

(** A new range, in descending order of starts. *)
Fixpoint insert_range (rs : list nxp_recv_pn_range) (pn : Z) : list nxp_recv_pn_range :=
  match rs with
  | r :: rs' => if r_start r >? pn then r :: insert_range rs' pn else RecvRange pn pn :: rs
  | [] => [RecvRange pn pn]
  end.

Definition record_pn (rs : list nxp_recv_pn_range) (pn : Z) : list nxp_recv_pn_range :=
  match extend_ranges [] rs pn with
  | Some rs => rs
  | None => if zlen rs <? NXP_MAX_RECV_RANGES then insert_range rs pn else rs
  end.

Definition nxp_ack_on_pkt_recv (ack : nxp_ack_state) (pn now_us : Z) (eliciting : bool)
  : nxp_ack_state :=
  if existsb (in_range pn) (recv_ranges ack) then ack else
  let ack :=
    if (zlen (recv_ranges ack) =? 0) || (pn >? largest_recv_pn ack)
    then ack <| largest_recv_pn := pn |> <| largest_recv_time := now_us |> else ack in
  let ack := ack <| recv_ranges := record_pn (recv_ranges ack) pn |> in
  if eliciting
  then ack <| ack_needed := true |> <| ack_delay_timer := u64 (now_us + NXP_ACK_DELAY_US) |>
  else ack.

(** ** Sent packets *)

(** [realloc_ok] is the outcome of [realloc], when the array is full; the packet is
    stored without a test of the pointer. *)
Definition nxp_ack_on_pkt_sent (realloc_ok : bool) (ack : nxp_ack_state) (pkt : nxp_sent_pkt)
  : outcome unit nxp_ack_state :=
  let full := zlen (sent ack) >=? sent_cap ack in
  if full && negb realloc_ok then Done ack else
  let ack := if full then ack <| sent_null := false |> <| sent_cap := u32 (sent_cap ack * 2) |> else ack in
  if sent_null ack then Ub else
  let ack := ack <| sent := sent ack ++ [pkt] |> in
  let ack := if in_flight pkt
             then ack <| bytes_in_flight := u64 (bytes_in_flight ack + sent_bytes pkt) |>
             else ack in
  Done (if ack_eliciting pkt then ack <| time_of_last_ack_eliciting := sent_time pkt |> else ack).

Definition update_rtt (ack : nxp_ack_state) (latest ack_delay : Z) : nxp_ack_state :=
  let ack := ack <| latest_rtt := latest |> <| min_rtt := u64_min (min_rtt ack) latest |> in
  let ack_delay := if ack_delay >? NXP_ACK_DELAY_US then NXP_ACK_DELAY_US else ack_delay in
  if negb (has_rtt ack) then
    ack <| smoothed_rtt := latest |> <| rtt_var := latest / 2 |> <| has_rtt := true |>
  else
    let adjusted :=
      if (latest >? ack_delay) && (latest - ack_delay >=? min_rtt ack)
      then latest - ack_delay else latest in
    let diff := if smoothed_rtt ack >? adjusted then smoothed_rtt ack - adjusted
                else adjusted - smoothed_rtt ack in
    ack <| rtt_var := u64 (u64 (3 * rtt_var ack) + diff) / 4 |>
        <| smoothed_rtt := u64 (u64 (7 * smoothed_rtt ack) + adjusted) / 8 |>.

(** [if (bytes_in_flight >= sent_bytes) bytes_in_flight -= sent_bytes;] for a
    packet in flight. *)
Definition leave_flight (ack : nxp_ack_state) (pkt : nxp_sent_pkt) : nxp_ack_state :=
  if in_flight pkt && (bytes_in_flight ack >=? sent_bytes pkt)
  then ack <| bytes_in_flight := bytes_in_flight ack - sent_bytes pkt |> else ack.

Section Callbacks.
  Context {ctx : Type}.
  Variable on_ack on_loss : ctx -> nxp_ack_state -> nxp_sent_pkt -> ctx.

Definition loss_delay (ack : nxp_ack_state) : Z :=
  let max_rtt := u64_max (smoothed_rtt ack) (latest_rtt ack) in
  let d := u64 (max_rtt * NXP_LOSS_DELAY_FACTOR) / 8 in
  if d <? 1000 then 1000 else d.

Definition pkt_lost (delay now_us largest_acked_pn : Z) (pkt : nxp_sent_pkt) : bool :=
  (u64 (pkt_num pkt + NXP_PACKET_REORDER_THRESH) <=? largest_acked_pn) ||
  (u64 (sent_time pkt + delay) <=? now_us).

(** The walk over the sent array; the result is the compacted array. *)
Fixpoint lost_walk (delay now_us largest : Z) (ack : nxp_ack_state) (c : ctx)
    (pkts : list nxp_sent_pkt) : nxp_ack_state * ctx * list nxp_sent_pkt :=
  match pkts with
  | [] => (ack, c, [])
  | pkt :: pkts =>
      if declared_lost pkt then lost_walk delay now_us largest ack c pkts
      else if pkt_num pkt >? largest then
        let '(ack, c, kept) := lost_walk delay now_us largest ack c pkts in (ack, c, pkt :: kept)
      else if pkt_lost delay now_us largest pkt then
        let pkt := pkt <| declared_lost := true |> in
        let ack := leave_flight ack pkt in
        lost_walk delay now_us largest ack (on_loss c ack pkt) pkts
      else
        let ack := ack <| loss_time := u64_min (loss_time ack) (u64 (sent_time pkt + delay)) |> in
        let '(ack, c, kept) := lost_walk delay now_us largest ack c pkts in (ack, c, pkt :: kept)
  end.

Definition detect_lost_packets (ack : nxp_ack_state) (now_us largest_acked_pn : Z) (c : ctx)
  : nxp_ack_state * ctx :=
  let ack := ack <| loss_time := UINT64_MAX |> in
  let '(ack, c, kept) := lost_walk (loss_delay ack) now_us largest_acked_pn ack c (sent ack) in
  (ack <| sent := kept |>, c).

(** The additional ranges of an ACK frame, from [cur_end] down. *)
Fixpoint acked_in (pn cur_end : Z) (rs : list nxp_ack_range) : bool :=
  match rs with
  | [] => false
  | r :: rs =>
      if cur_end <? u64 (gap r + 2) then false else
      let cur_end := u64 (u64 (cur_end - gap r) - 2) in
      let start := if cur_end >=? ack_range r then cur_end - ack_range r else 0 in
      if (pn >=? start) && (pn <=? cur_end) then true else acked_in pn start rs
  end.

(** Does the ACK frame acknowledge packet [pn]? *)
Definition pkt_acked (frame : nxp_frame_ack) (pn : Z) : bool :=
  let re := largest_acked frame in
  let rs := u64 (re - first_ack_range frame) in
  if (pn >=? rs) && (pn <=? re) then true
  else acked_in pn rs (take (Z.to_nat (range_count frame)) (ranges frame)).

(** The walk over the sent array; [rtt] is the sample taken so far. *)
Fixpoint ack_walk (frame : nxp_frame_ack) (now_us : Z) (ack : nxp_ack_state) (c : ctx)
    (rtt : option Z) (pkts : list nxp_sent_pkt)
  : nxp_ack_state * ctx * option Z * list nxp_sent_pkt :=
  match pkts with
  | [] => (ack, c, rtt, [])
  | pkt :: pkts =>
      if pkt_acked frame (pkt_num pkt) then
        let rtt := if (pkt_num pkt =? largest_acked frame) && ack_eliciting pkt
                   then Some (u64 (now_us - sent_time pkt)) else rtt in
        let ack := leave_flight ack pkt in
        ack_walk frame now_us ack (on_ack c ack pkt) rtt pkts
      else
        let '(ack, c, rtt, kept) := ack_walk frame now_us ack c rtt pkts in
        (ack, c, rtt, pkt :: kept)
  end.

Definition nxp_ack_on_ack_recv (ack : nxp_ack_state) (frame : nxp_frame_ack) (now_us : Z) (c : ctx)
  : nxp_ack_state * ctx :=
  let '(ack, c, rtt, kept) := ack_walk frame now_us ack c None (sent ack) in
  let ack := ack <| sent := kept |> in
  let ack := match rtt with
             | Some sample => update_rtt ack sample (ack_delay frame)
             | None => ack
             end in
  let ack := ack <| pto_count := 0 |> in
  detect_lost_packets ack now_us (largest_acked frame) c.

Definition largest_sent (pkts : list nxp_sent_pkt) : Z :=
  foldl (fun m p => if pkt_num p >? m then pkt_num p else m) 0 pkts.

Definition nxp_ack_on_loss_timeout (ack : nxp_ack_state) (now_us : Z) (c : ctx)
  : nxp_ack_state * ctx :=
  if negb (loss_time ack =? UINT64_MAX) && (now_us >=? loss_time ack)
  then detect_lost_packets ack now_us (largest_sent (sent ack)) c
  else (ack <| pto_count := u32 (pto_count ack + 1) |>, c).

End Callbacks.

(** ** Building ACK frames *)

(** The additional ranges, below a range that starts at [prev_start]. *)
Fixpoint build_ranges (prev_start : Z) (rs : list nxp_recv_pn_range) (room : nat)
  : list nxp_ack_range :=
  match rs, room with
  | r :: rs, S room =>
      if prev_start <? u64 (r_end r + 2) then []
      else AckRange (u64 (prev_start - r_end r - 2)) (u64 (r_end r - r_start r))
             :: build_ranges (r_start r) rs room
  | _, _ => []
  end.

Definition nxp_ack_build_frame (ack : nxp_ack_state) (now_us : Z) : option nxp_frame_ack :=
  match recv_ranges ack with
  | [] => None
  | r :: rs =>
      let delay := if now_us >? largest_recv_time ack
                   then now_us - largest_recv_time ack else 0 in
      let extra := build_ranges (r_start r) rs (Z.to_nat NXP_ACK_MAX_RANGES) in
      Some (FrameAck (r_end r) delay (u64 (r_end r - r_start r)) (zlen extra) extra
              false 0 0 0)
  end.

(** ** Timers *)

(** A shift by 64 or more is undefined. *)
Definition nxp_ack_loss_timeout (ack : nxp_ack_state) : outcome unit Z :=
  if negb (loss_time ack =? UINT64_MAX) then Done (loss_time ack) else
  if bytes_in_flight ack =? 0 then Done UINT64_MAX else
  let pto := compute_pto ack in
  if pto_count ack >=? 64 then Ub else
  Done (u64 (time_of_last_ack_eliciting ack + u64 (pto * (1 <<< pto_count ack)))).

(** ** The recorded set of packet numbers *)

(** Packet numbers are below 2^62, as on the wire. *)
Definition PN_LIMIT : Z := 4611686018427387904.

(** Ranges in descending order, below [bound], with at least one missing
    number between two of them. *)
Fixpoint descending (bound : Z) (rs : list nxp_recv_pn_range) : Prop :=
  match rs with
  | [] => True
  | r :: rs => 0 <= r_start r <= r_end r /\ r_end r + 1 < bound /\ descending (r_start r) rs
  end.

Definition ranges_ok (rs : list nxp_recv_pn_range) : Prop :=
  descending (PN_LIMIT + 1) rs /\ zlen rs <= NXP_MAX_RECV_RANGES.

(** The set the ranges denote. *)
Definition recorded (rs : list nxp_recv_pn_range) (pn : Z) : bool := existsb (in_range pn) rs.

(** [pn] neither belongs to the range nor touches it. *)
Definition apart (pn : Z) (r : nxp_recv_pn_range) : Prop :=
  in_range pn r = false /\ pn <> r_end r + 1 /\ pn + 1 <> r_start r.

Definition last_start (bound : Z) (rs : list nxp_recv_pn_range) : Z :=
  foldl (fun _ r => r_start r) bound rs.

Lemma descending_app bound l k :
  descending bound (l ++ k) <-> descending bound l /\ descending (last_start bound l) k.
Proof. revert bound. induction l as [| r l IH]; intros; simpl; [tauto |]. rewrite IH. tauto. Qed.

Lemma descending_range bound rs : descending bound rs ->
  Forall (fun r => 0 <= r_start r <= r_end r /\ r_end r + 1 < bound) rs.
Proof.
  revert bound. induction rs as [| r rs IH]; intros bound; simpl; [constructor |].
  intros (Hr & Hb & Hrs). constructor; [lia |].
  eapply Forall_impl; [| apply IH, Hrs]. simpl. intros. lia.
Qed.

Lemma in_range_spec pn r : in_range pn r = true <-> r_start r <= pn <= r_end r.
Proof. unfold in_range. rewrite andb_true_iff, Z.geb_le, Z.leb_le. tauto. Qed.

Lemma in_range_false pn r : in_range pn r = false <-> pn < r_start r \/ r_end r < pn.
Proof.
  rewrite <- not_true_iff_false, in_range_spec. lia.
Qed.

Lemma recorded_app l k pn : recorded (l ++ k) pn = recorded l pn || recorded k pn.
Proof. apply existsb_app. Qed.

Lemma recorded_cons r l pn : recorded (r :: l) pn = in_range pn r || recorded l pn.
Proof. done. Qed.

Lemma bool_eq_iff (a b : bool) : (a = true <-> b = true) -> a = b.
Proof. destruct a, b; intuition congruence. Qed.

Lemma last_start_snoc bound l r : last_start bound (l ++ [r]) = r_start r.
Proof. unfold last_start. by rewrite foldl_app. Qed.

(** One step of the extension loop, on a range that [pn] touches from above. *)
Lemma extend_up bound l r k pn : descending bound (l ++ r :: k) -> pn = r_end r + 1 ->
  pn + 1 < last_start bound l ->
  descending bound (l ++ RecvRange (r_start r) pn :: k) /\
  forall x, recorded (l ++ RecvRange (r_start r) pn :: k) x = (x =? pn) || recorded (l ++ r :: k) x.
Proof.
  rewrite !descending_app. intros (Hl & Hr & Hb & Hk) Hpn Hroom. simpl in *.
  split; [split_and!; (done || lia) |]. intros x. rewrite !recorded_app, !recorded_cons.
  apply bool_eq_iff. rewrite !orb_true_iff, !in_range_spec, Z.eqb_eq. simpl. intuition lia.
Qed.

(** ... and on a range that it touches from below, with or without a merge. *)
Lemma extend_down bound l r k pn : descending bound (l ++ r :: k) -> pn + 1 = r_start r -> 0 <= pn ->
  match k with q :: _ => r_end q + 1 <> pn | [] => True end ->
  descending bound (l ++ RecvRange pn (r_end r) :: k) /\
  forall x, recorded (l ++ RecvRange pn (r_end r) :: k) x = (x =? pn) || recorded (l ++ r :: k) x.
Proof.
  rewrite !descending_app. intros (Hl & Hr & Hb & Hk) Hpn Hpos Hq. simpl in *. split.
  - split_and!; try (done || lia). destruct k as [| q k]; simpl in *; [done |].
    destruct Hk as (? & ? & ?). split_and!; (done || lia).
  - intros x. rewrite !recorded_app, !recorded_cons. apply bool_eq_iff.
    rewrite !orb_true_iff, !in_range_spec, Z.eqb_eq. simpl. intuition lia.
Qed.

Lemma extend_merge bound l r q k pn : descending bound (l ++ r :: q :: k) ->
  pn + 1 = r_start r -> r_end q + 1 = pn ->
  descending bound (l ++ RecvRange (r_start q) (r_end r) :: k) /\
  forall x, recorded (l ++ RecvRange (r_start q) (r_end r) :: k) x =
    (x =? pn) || recorded (l ++ r :: q :: k) x.
Proof.
  rewrite !descending_app. intros (Hl & Hr & Hb & Hq & Hqb & Hk) Hpn Heq. simpl in *.
  split; [split_and!; (done || lia) |]. intros x. rewrite !recorded_app, !recorded_cons.
  apply bool_eq_iff. rewrite !orb_true_iff, !in_range_spec, Z.eqb_eq. simpl. intuition lia.
Qed.

Lemma last_start_apart bound passed pn : pn + 1 < bound -> Forall (apart pn) passed ->
  pn + 1 <> last_start bound (reverse passed).
Proof.
  intros Hb Hap. destruct passed as [| p passed]; [simpl; lia |].
  rewrite reverse_cons, last_start_snoc. inversion Hap as [| ? ? (_ & _ & H)]; subst. done.
Qed.

(** What the loop computes: the recorded set with [pn] added, or nothing when
    no range touches it. *)
Definition extended (bound pn : Z) (l : list nxp_recv_pn_range)
    (o : option (list nxp_recv_pn_range)) : Prop :=
  match o with
  | Some l' => descending bound l' /\ zlen l' <= zlen l /\
               forall x, recorded l' x = (x =? pn) || recorded l x
  | None => Forall (apart pn) l
  end.

Lemma recorded_already l pn : recorded l pn = true ->
  forall x, recorded l x = (x =? pn) || recorded l x.
Proof. intros H x. destruct (Z.eqb_spec x pn) as [-> |]; [by rewrite H | done]. Qed.

Lemma extend_ranges_spec bound passed rest pn :
  0 <= pn -> pn + 1 < bound -> bound < 2 ^ 63 ->
  descending bound (reverse passed ++ rest) -> Forall (apart pn) passed ->
  extended bound pn (reverse passed ++ rest) (extend_ranges passed rest pn).
Proof.
  intros Hpn Hb Hb63. revert passed. induction rest as [| r rest IH]; intros passed Hd Hap.
  { simpl. rewrite app_nil_r. by apply Forall_reverse. }
  pose proof (proj1 (descending_app _ _ _) Hd) as [_ (Hr & Hrb & Hrest)].
  pose proof (proj1 (Forall_app _ _ _) (descending_range _ _ Hd)) as [_ Hrange].
  inversion Hrange as [| ? ? [Hr1 Hr2] Hrange']; subst. cbn [extend_ranges].
  destruct (in_range pn r) eqn:Hin.
  { simpl. split_and!; [done | lia |]. apply recorded_already.
    rewrite recorded_app, recorded_cons, Hin. by rewrite orb_true_r. }
  rewrite (u64_small (r_end r + 1)), (u64_small (pn + 1)) by lia.
  destruct (Z.eqb_spec pn (r_end r + 1)) as [Hup | Hnup].
  { pose proof (last_start_apart bound passed pn Hb Hap) as Hls.
    pose proof (extend_up bound (reverse passed) r rest pn Hd Hup ltac:(lia)) as [H1 H2].
    destruct passed as [| p passed']; [simpl; split_and!; (done || lenlia) |].
    rewrite reverse_cons, last_start_snoc in Hls. simpl r_end. rewrite u64_small by lia.
    rewrite (proj2 (Z.eqb_neq _ _)) by lia. simpl. split_and!; [done | lenlia | done]. }
  destruct (Z.eqb_spec (pn + 1) (r_start r)) as [Hdown | Hndown].
  { destruct rest as [| q rest'].
    - pose proof (extend_down bound _ r [] pn Hd Hdown Hpn I) as [H1 H2].
      simpl. split_and!; [done | lenlia | done].
    - inversion Hrange' as [| ? ? [Hq1 Hq2] _]; subst. rewrite u64_small by lia. simpl r_start.
      destruct (Z.eqb_spec (r_end q + 1) pn) as [Hm | Hnm].
      + pose proof (extend_merge bound _ r q rest' pn Hd Hdown Hm) as [H1 H2].
        simpl. split_and!; [done | lenlia | done].
      + pose proof (extend_down bound _ r (q :: rest') pn Hd Hdown Hpn Hnm) as [H1 H2].
        simpl. split_and!; [done | lenlia | done]. }
  assert (reverse passed ++ r :: rest = reverse (r :: passed) ++ rest) as Hre.
  { by rewrite reverse_cons, <- app_assoc. }
  rewrite Hre. apply IH; [by rewrite <- Hre | constructor; [done |]; done].
Qed.

Lemma insert_range_spec bound rs pn : 0 <= pn -> pn + 1 < bound -> descending bound rs ->
  Forall (apart pn) rs ->
  descending bound (insert_range rs pn) /\ zlen (insert_range rs pn) = zlen rs + 1 /\
  forall x, recorded (insert_range rs pn) x = (x =? pn) || recorded rs x.
Proof.
  intros Hpn. revert bound. induction rs as [| r rs IH]; intros bound Hb Hd Hap; simpl.
  - split_and!; try (done || lia). intros x. apply bool_eq_iff.
    rewrite !orb_true_iff, in_range_spec, Z.eqb_eq. simpl. intuition lia.
  - destruct Hd as (Hr & Hrb & Hd). apply Forall_cons_iff in Hap as [(Hin & Hup & Hdown) Hap].
    apply in_range_false in Hin. rewrite Z.gtb_ltb. destruct (Z.ltb_spec pn (r_start r)).
    + destruct (IH (r_start r)) as (H1 & H2 & H3); [lia | done | done |]. simpl.
      split_and!; [lia | lia | lia | done | rewrite !zlen_cons; lia |].
      intros x. rewrite H3. destruct (in_range x r), (x =? pn); done.
    + simpl. split_and!; try (done || lia). rewrite !zlen_cons. lia.
      intros x. f_equal. apply bool_eq_iff. rewrite in_range_spec, Z.eqb_eq. simpl. lia.
Qed.

(** The recorded set after a packet: [pn] is added, unless the table is full
    and no range touches it. *)
Lemma record_pn_spec rs pn : ranges_ok rs -> 0 <= pn < PN_LIMIT ->
  ranges_ok (record_pn rs pn) /\ zlen (record_pn rs pn) <= zlen rs + 1 /\
  ((forall x, recorded (record_pn rs pn) x = (x =? pn) || recorded rs x) \/
   (record_pn rs pn = rs /\ zlen rs = NXP_MAX_RECV_RANGES /\ Forall (apart pn) rs)).
Proof.
  intros [Hd Hlen] Hpn. unfold record_pn, PN_LIMIT in *.
  pose proof (extend_ranges_spec (4611686018427387904 + 1) [] rs pn ltac:(lia) ltac:(lia)
                ltac:(lia) Hd (Forall_nil_2 _)) as He. simpl in He.
  destruct (extend_ranges [] rs pn) as [rs' |]; simpl in He.
  { destruct He as (H1 & H2 & H3). split; [split; [done | lia] | split; [lia | by left]]. }
  destruct (Z.ltb_spec (zlen rs) NXP_MAX_RECV_RANGES).
  - destruct (insert_range_spec (4611686018427387904 + 1) rs pn) as (H1 & H2 & H3);
      [lia | lia | done | done |]. split; [split; [done | lia] | split; [lia | by left]].
  - split; [done |]. split; [lia |]. right. split_and!; (done || lia).
Qed.

(** ** ACK frames denote the recorded set *)

Lemma build_ranges_spec prev rs room :
  descending prev rs -> prev < 2 ^ 63 -> (length rs <= room)%nat ->
  let out := build_ranges prev rs room in
  zlen out = zlen rs /\ Forall (fun r => 0 <= gap r < prev /\ 0 <= ack_range r < prev) out /\
  forall x, acked_in x prev out = recorded rs x.
Proof.
  revert prev room. induction rs as [| r rs IH]; intros prev room Hd Hp Hroom; simpl.
  { destruct room; split_and!; (done || constructor). }
  destruct Hd as (Hr & Hb & Hd). destruct room as [| room]; [simpl in *; lia |].
  rewrite !u64_small by lia. rewrite (proj2 (Z.ltb_ge _ _)) by lia.
  destruct (IH (r_start r) room) as (H1 & H2 & H3); [done | lia | simpl in *; lia |].
  split_and!.
  - rewrite !zlen_cons. lia.
  - constructor; [simpl; lia |]. eapply Forall_impl; [| apply H2]. simpl. intros. lia.
  - intros x. cbn [acked_in gap ack_range]. rewrite (u64_small (_ + 2)) by lia.
    rewrite (proj2 (Z.ltb_ge _ _)) by lia.
    rewrite (u64_small (prev - _)), (u64_small (_ - 2)) by lia.
    replace (prev - (prev - r_end r - 2) - 2) with (r_end r) by lia.
    rewrite (Z.geb_leb (r_end r)), (proj2 (Z.leb_le (_ - _) _)) by lia.
    replace (r_end r - (r_end r - r_start r)) with (r_start r) by lia.
    rewrite H3. unfold in_range. by destruct (_ && _).
Qed.

Lemma build_frame_spec ack now : ranges_ok (recv_ranges ack) -> recv_ranges ack <> [] ->
  0 <= now < 2 ^ 62 -> 0 <= largest_recv_time ack ->
  exists f, nxp_ack_build_frame ack now = Some f /\ ack_ok f /\
    forall x, pkt_acked f x = recorded (recv_ranges ack) x.
Proof.
  intros [Hd Hlen] Hne Hnow Hlrt. unfold nxp_ack_build_frame.
  destruct (recv_ranges ack) as [| r rs]; [done |]. destruct Hd as (Hr & Hb & Hd).
  unfold PN_LIMIT in *. rewrite zlen_cons in Hlen. unfold NXP_MAX_RECV_RANGES in *.
  destruct (build_ranges_spec (r_start r) rs (Z.to_nat NXP_ACK_MAX_RANGES)) as (H1 & H2 & H3);
    [done | lia | unfold NXP_ACK_MAX_RANGES, zlen in *; lia |].
  set (extra := build_ranges _ _ _) in *.
  eexists. split; [reflexivity |]. rewrite u64_small by lia. split.
  - unfold ack_ok. simpl. unfold varint_ok, NXP_VARINT_MAX, NXP_ACK_MAX_RANGES.
    rewrite Z.gtb_ltb. split_and!; try (done || lia).
    + zcase; lia.
    + zcase; lia.
    + eapply Forall_impl; [| apply H2]. intros g. unfold range_ok, varint_ok, NXP_VARINT_MAX. lia.
  - intros x. unfold pkt_acked. simpl. rewrite u64_small by lia.
    replace (r_end r - (r_end r - r_start r)) with (r_start r) by lia.
    rewrite take_ge by (unfold zlen in *; lia). rewrite H3. fold (recorded rs x).
    unfold in_range. by destruct (_ && _).
Qed.

Lemma ack_recv_ranges ack pn now e :
  recv_ranges (nxp_ack_on_pkt_recv ack pn now e) =
    if recorded (recv_ranges ack) pn then recv_ranges ack else record_pn (recv_ranges ack) pn.
Proof.
  unfold nxp_ack_on_pkt_recv, recorded. destruct (existsb _ _); [done |].
  destruct e; simpl; by destruct (_ || _).
Qed.

(** ** Invariants of the callbacks' context

    What both callbacks keep of their context and of the packets is kept by
    acknowledgement processing and by the loss timer; the receive side and the
    pointer to the sent packets are not touched. *)

Definition recv_side (ack : nxp_ack_state) :=
  (recv_ranges ack, largest_recv_pn ack, largest_recv_time ack, ack_needed ack, ack_delay_timer ack, sent_null ack).

Section CallbackInvariant.
  Context {ctx : Type} (on_ack on_loss : ctx -> nxp_ack_state -> nxp_sent_pkt -> ctx).
  Context (P : ctx -> Prop) (Q : nxp_sent_pkt -> Prop).
  Hypothesis Qlost : forall p, Q p -> Q (p <| declared_lost := true |>).
  Hypothesis Pack : forall c ack p, P c -> Q p -> P (on_ack c ack p).
  Hypothesis Ploss : forall c ack p, P c -> Q p -> P (on_loss c ack p).

Lemma leave_flight_recv ack p : recv_side (leave_flight ack p) = recv_side ack.
Proof. unfold leave_flight. by destruct (_ && _). Qed.

Lemma lost_walk_inv delay now largest pkts : forall ack c, P c -> Forall Q pkts ->
  let '(ack', c', kept) := lost_walk on_loss delay now largest ack c pkts in
  P c' /\ Forall Q kept /\ recv_side ack' = recv_side ack.
Proof.
  induction pkts as [| p pkts IH]; intros ack c HP HQ; simpl; [done |].
  apply Forall_cons_iff in HQ as [Hp HQ].
  destruct (declared_lost p); [by apply IH |].
  destruct (pkt_num p >? largest).
  { specialize (IH ack c HP HQ). destruct (lost_walk _ _ _ _ _ _ _) as [[a' c'] k].
    destruct IH as (? & ? & ?). split_and!; [done | by constructor | done]. }
  destruct (pkt_lost _ _ _ _).
  - specialize (IH (leave_flight ack (p <| declared_lost := true |>))
      (on_loss c (leave_flight ack (p <| declared_lost := true |>)) (p <| declared_lost := true |>))).
    destruct (lost_walk _ _ _ _ _ _ _) as [[a' c'] k].
    rewrite leave_flight_recv in IH. apply IH; [apply Ploss; [done | by apply Qlost] | done].
  - match goal with |- context [lost_walk _ _ _ _ ?a _ _] => specialize (IH a c HP HQ) end.
    destruct (lost_walk _ _ _ _ _ _ _) as [[a' c'] k].
    destruct IH as (? & ? & ?). split_and!; [done | by constructor | done].
Qed.

Lemma detect_lost_inv ack now largest c : P c -> Forall Q (sent ack) ->
  let '(ack', c') := detect_lost_packets on_loss ack now largest c in
  P c' /\ Forall Q (sent ack') /\ recv_side ack' = recv_side ack.
Proof.
  intros HP HQ. unfold detect_lost_packets.
  pose proof (lost_walk_inv (loss_delay (ack <| loss_time := UINT64_MAX |>)) now largest (sent ack)
    (ack <| loss_time := UINT64_MAX |>) c HP HQ) as Hw.
  cbn [sent] in *. destruct (lost_walk _ _ _ _ _ _ _) as [[a' c'] k]. destruct Hw as (? & ? & ?).
  split_and!; done.
Qed.

Lemma ack_walk_inv frame now pkts : forall ack c rtt, P c -> Forall Q pkts ->
  let '(ack', c', rtt', kept) := ack_walk on_ack frame now ack c rtt pkts in
  P c' /\ Forall Q kept /\ recv_side ack' = recv_side ack.
Proof.
  induction pkts as [| p pkts IH]; intros ack c rtt HP HQ; simpl; [done |].
  apply Forall_cons_iff in HQ as [Hp HQ]. destruct (pkt_acked frame (pkt_num p)).
  - match goal with |- context [ack_walk _ _ _ ?a ?c ?r _] => specialize (IH a c r) end.
    destruct (ack_walk _ _ _ _ _ _ _) as [[[a' c'] r'] k].
    rewrite leave_flight_recv in IH. apply IH; [by apply Pack | done].
  - specialize (IH ack c rtt HP HQ). destruct (ack_walk _ _ _ _ _ _ _) as [[[a' c'] r'] k].
    destruct IH as (? & ? & ?). split_and!; [done | by constructor | done].
Qed.

Lemma update_rtt_fields ack l d : recv_side (update_rtt ack l d) = recv_side ack /\ sent (update_rtt ack l d) = sent ack.
Proof. unfold update_rtt. by destruct (has_rtt _). Qed.

Lemma on_ack_recv_inv ack frame now c : P c -> Forall Q (sent ack) ->
  let '(ack', c') := nxp_ack_on_ack_recv on_ack on_loss ack frame now c in
  P c' /\ Forall Q (sent ack') /\ recv_side ack' = recv_side ack.
Proof.
  intros HP HQ. unfold nxp_ack_on_ack_recv.
  pose proof (ack_walk_inv frame now (sent ack) ack c None HP HQ) as Hw.
  destruct (ack_walk _ _ _ _ _ _ _) as [[[a' c'] rtt] k]. destruct Hw as (HP' & HQ' & Hr).
  set (a1 := match rtt with Some _ => _ | None => _ end).
  assert (recv_side a1 = recv_side ack /\ sent a1 = k) as [Ha1 Hs1].
  { unfold a1. destruct rtt; [| done].
    destruct (update_rtt_fields (a' <| sent := k |>) z (ack_delay frame)) as [-> ->]. done. }
  pose proof (detect_lost_inv (a1 <| pto_count := 0 |>) now (largest_acked frame) c' HP') as Hd.
  cbn [sent] in Hd. specialize (Hd ltac:(simpl; by rewrite Hs1)).
  destruct (detect_lost_packets _ _ _ _ _) as [a2 c2]. destruct Hd as (? & ? & Hd).
  split_and!; [done.. |]. rewrite Hd. exact Ha1.
Qed.

Lemma on_loss_timeout_inv ack now c : P c -> Forall Q (sent ack) ->
  let '(ack', c') := nxp_ack_on_loss_timeout on_loss ack now c in
  P c' /\ Forall Q (sent ack') /\ recv_side ack' = recv_side ack.
Proof.
  intros HP HQ. unfold nxp_ack_on_loss_timeout. destruct (_ && _); [| done].
  by apply detect_lost_inv.
Qed.

End CallbackInvariant.

(** ** The send side: bytes in flight *)

Fixpoint flight_sum (pkts : list nxp_sent_pkt) : Z :=
  match pkts with
  | [] => 0
  | p :: pkts => (if in_flight p then sent_bytes p else 0) + flight_sum pkts
  end.

(** Recorded packets have 32-bit sizes and have not been declared lost. *)
Definition sent_ok (p : nxp_sent_pkt) : Prop := 0 <= sent_bytes p < 2 ^ 32 /\ declared_lost p = false.

Definition flight_ok (ack : nxp_ack_state) : Prop :=
  Forall sent_ok (sent ack) /\ zlen (sent ack) <= sent_cap ack < 2 ^ 31 /\
  bytes_in_flight ack = flight_sum (sent ack).

Lemma flight_sum_app l k : flight_sum (l ++ k) = flight_sum l + flight_sum k.
Proof. induction l as [| p l IH]; simpl; [lia |]. rewrite IH. lia. Qed.

Lemma flight_sum_range l : Forall sent_ok l -> 0 <= flight_sum l <= zlen l * 2 ^ 32.
Proof.
  induction 1 as [| p l [Hp _] _ IH]; simpl; [done |]. rewrite zlen_cons.
  destruct (in_flight p); lia.
Qed.

Lemma on_pkt_sent_flight ok ack pkt : flight_ok ack -> sent_ok pkt -> 0 < sent_cap ack < 2 ^ 30 -> sent_null ack = false ->
  exists ack', nxp_ack_on_pkt_sent ok ack pkt = Done ack' /\ flight_ok ack' /\ sent_null ack' = false /\
  (sent ack' = sent ack ++ [pkt] \/ (ok = false /\ zlen (sent ack) = sent_cap ack /\ ack' = ack)).
Proof.
  intros (Hs & Hc & Hb) Hp Hcap Hnull. unfold nxp_ack_on_pkt_sent.
  pose proof (flight_sum_range _ Hs). pose proof (zlen_nonneg (sent ack)).
  rewrite Z.geb_leb. destruct (Z.leb_spec (sent_cap ack) (zlen (sent ack))) as [Hfull | Hroom]; simpl.
  1: destruct ok; simpl; [| exists ack; split; [done |]; split; [done |]; split; [done |]; right; split_and!; (done || lia)].
  2: rewrite Hnull.
  all: eexists; split; [reflexivity |].
  all: assert (Forall sent_ok (sent ack ++ [pkt])) as Hs'
    by (apply Forall_app; split; [done | constructor; [done | constructor]]).
  all: destruct Hp as [Hp _]; destruct (in_flight pkt) eqn:Hf, (ack_eliciting pkt); simpl;
    unfold flight_ok; simpl; (split; [| by split; [| left]]); split_and!; try done; zlen_norm;
    try (rewrite u32_small by lia; lia); try lia.
  all: rewrite flight_sum_app; simpl; rewrite Hf, Hb; try rewrite u64_small by lia; lia.
Qed.

(** The first packet recorded after the allocation failed is a write through a null
    pointer. *)
Lemma ack_init_unchecked ok pkt : nxp_ack_on_pkt_sent ok (nxp_ack_init false) pkt = Ub.
Proof. done. Qed.

Lemma leave_flight_spec ack p k : sent_ok p -> 0 <= k ->
  bytes_in_flight ack = (if in_flight p then sent_bytes p else 0) + k ->
  leave_flight ack p = ack <| bytes_in_flight := k |>.
Proof.
  intros [Hp _] Hk Hb. unfold leave_flight. destruct (in_flight p); simpl.
  - rewrite Z.geb_leb, (proj2 (Z.leb_le _ _)) by lia.
    by replace (bytes_in_flight ack - sent_bytes p) with k by lia.
  - rewrite Z.add_0_l in Hb. subst k. by destruct ack.
Qed.

Lemma leave_flight_lost ack p :
  leave_flight ack (p <| declared_lost := true |>) = leave_flight ack p.
Proof. done. Qed.

(** The packets an ACK frame leaves unacknowledged. *)
Definition unacked (frame : nxp_frame_ack) (pkts : list nxp_sent_pkt) : list nxp_sent_pkt :=
  List.filter (fun p => negb (pkt_acked frame (pkt_num p))) pkts.
Definition newly_acked (frame : nxp_frame_ack) (pkts : list nxp_sent_pkt) : list nxp_sent_pkt :=
  List.filter (fun p => pkt_acked frame (pkt_num p)) pkts.

(** The packets declared lost, and those kept, by one detection pass. *)
Definition is_lost (delay now largest : Z) (p : nxp_sent_pkt) : bool :=
  (pkt_num p <=? largest) && pkt_lost delay now largest p.
Definition lost (delay now largest : Z) (pkts : list nxp_sent_pkt) : list nxp_sent_pkt :=
  List.filter (is_lost delay now largest) pkts.
Definition kept (delay now largest : Z) (pkts : list nxp_sent_pkt) : list nxp_sent_pkt :=
  List.filter (fun p => negb (is_lost delay now largest p)) pkts.

Lemma loss_delay_range ack : 1000 <= loss_delay ack < 2 ^ 61.
Proof. unfold loss_delay. pose proof (u64_range (u64_max (smoothed_rtt ack) (latest_rtt ack) * NXP_LOSS_DELAY_FACTOR)). zcase; zlia. Qed.

(** The thresholds in plain arithmetic, when nothing wraps around. *)
Lemma is_lost_spec delay now largest p : 1000 <= delay < 2 ^ 61 ->
  0 <= pkt_num p < 2 ^ 62 -> 0 <= sent_time p < 2 ^ 62 ->
  is_lost delay now largest p = true <->
  pkt_num p <= largest /\ (pkt_num p + 3 <= largest \/ sent_time p + delay <= now).
Proof.
  intros ???. unfold is_lost, pkt_lost, NXP_PACKET_REORDER_THRESH.
  rewrite !u64_small by lia. rewrite andb_true_iff, orb_true_iff, !Z.leb_le. done.
Qed.

Lemma kept_cons delay now largest p pkts :
  kept delay now largest (p :: pkts) =
    if is_lost delay now largest p then kept delay now largest pkts
    else p :: kept delay now largest pkts.
Proof. unfold kept. simpl. by destruct (is_lost _ _ _ _). Qed.

(** The deadline of the kept packets that an acknowledged packet overtook. *)
Definition deadline (delay largest : Z) (pkts : list nxp_sent_pkt) (init : Z) : Z :=
  foldl (fun t p => if pkt_num p <=? largest then u64_min t (u64 (sent_time p + delay)) else t)
    init pkts.

(** The RTT sample: from the largest acknowledged packet. *)
Definition rtt_sample (frame : nxp_frame_ack) (now : Z) (pkts : list nxp_sent_pkt)
    (init : option Z) : option Z :=
  foldl (fun o p => if pkt_acked frame (pkt_num p) && (pkt_num p =? largest_acked frame) &&
                       ack_eliciting p
                    then Some (u64 (now - sent_time p)) else o) init pkts.

Lemma Forall_filter_b {A} (P : A -> Prop) f l : Forall P l -> Forall P (List.filter f l).
Proof. induction 1 as [| x l Hx _ IH]; simpl; [constructor |]. destruct (f x); [by constructor | done]. Qed.

Lemma zlen_filter_b {A} f (l : list A) : zlen (List.filter f l) <= zlen l.
Proof.
  induction l as [| x l IH]; simpl; [done |].
  destruct (f x); rewrite ?zlen_cons in *; lia.
Qed.

Section Walks.
  Context {ctx : Type}.
  Variable on_ack on_loss : ctx -> nxp_ack_state -> nxp_sent_pkt -> ctx.

Lemma ack_walk_spec frame now ack c rtt pkts k : Forall sent_ok pkts -> 0 <= k ->
  bytes_in_flight ack = flight_sum pkts + k ->
  exists c', ack_walk on_ack frame now ack c rtt pkts =
    (ack <| bytes_in_flight := flight_sum (unacked frame pkts) + k |>, c',
     rtt_sample frame now pkts rtt, unacked frame pkts).
Proof.
  revert ack c rtt k. induction pkts as [| p pkts IH]; intros ack c rtt k Hok Hk Hb.
  { simpl in *. rewrite Z.add_0_l in *. subst k. exists c. by destruct ack. }
  apply Forall_cons_iff in Hok as [Hp Hok]. pose proof (flight_sum_range _ Hok).
  cbn [ack_walk unacked rtt_sample List.filter foldl] in *. cbn [flight_sum] in Hb.
  destruct (pkt_acked frame (pkt_num p)); simpl negb; cbn iota.
  - rewrite (leave_flight_spec ack p (flight_sum pkts + k)) by (done || lia).
    set (ack1 := ack <| bytes_in_flight := flight_sum pkts + k |>).
    destruct (IH ack1 (on_ack c ack1 p) (if (pkt_num p =? largest_acked frame) && ack_eliciting p
      then Some (u64 (now - sent_time p)) else rtt) k) as [c' Hw]; [done.. |].
    exists c'. exact Hw.
  - destruct (IH ack c rtt ((if in_flight p then sent_bytes p else 0) + k)) as [c' ->]; [done | | lia |].
    { destruct Hp. destruct (in_flight p); lia. }
    exists c'. rewrite Z.add_assoc, (Z.add_comm (flight_sum _) (if in_flight p then _ else _)). done.
Qed.

Lemma lost_walk_spec delay now largest ack c pkts k : Forall sent_ok pkts -> 0 <= k ->
  bytes_in_flight ack = flight_sum pkts + k ->
  exists c', lost_walk on_loss delay now largest ack c pkts =
    (ack <| bytes_in_flight := flight_sum (kept delay now largest pkts) + k |>
         <| loss_time := deadline delay largest (kept delay now largest pkts) (loss_time ack) |>,
     c', kept delay now largest pkts).
Proof.
  revert ack c k. induction pkts as [| p pkts IH]; intros ack c k Hok Hk Hb.
  { simpl in *. rewrite Z.add_0_l in *. subst k. exists c. by destruct ack. }
  apply Forall_cons_iff in Hok as [Hp Hok]. pose proof (flight_sum_range _ Hok).
  assert (0 <= (if in_flight p then sent_bytes p else 0)) by (destruct Hp, (in_flight p); lia).
  cbn [lost_walk flight_sum] in *. rewrite (proj2 Hp). rewrite Z.gtb_ltb.
  rewrite kept_cons. destruct (Z.ltb_spec largest (pkt_num p)) as [Hgt | Hle].
  - assert (is_lost delay now largest p = false) as ->
      by (unfold is_lost; by rewrite (proj2 (Z.leb_gt _ _)) by lia).
    destruct (IH ack c ((if in_flight p then sent_bytes p else 0) + k)) as [c' ->]; [done | lia | lia |].
    exists c'. unfold deadline. simpl. rewrite (proj2 (Z.leb_gt _ _)) by lia.
    by rewrite Z.add_assoc, (Z.add_comm (flight_sum _) (if in_flight p then _ else _)).
  - assert (is_lost delay now largest p = pkt_lost delay now largest p) as ->
      by (unfold is_lost; by rewrite (proj2 (Z.leb_le _ _)) by lia).
    destruct (pkt_lost delay now largest p).
    + rewrite leave_flight_lost, (leave_flight_spec ack p (flight_sum pkts + k)) by (done || lia).
      set (ack1 := ack <| bytes_in_flight := flight_sum pkts + k |>).
      destruct (IH ack1 (on_loss c ack1 (p <| declared_lost := true |>)) k) as [c' Hw]; [done.. |].
      exists c'. exact Hw.
    + set (ack1 := ack <| loss_time := _ |>).
      destruct (IH ack1 c ((if in_flight p then sent_bytes p else 0) + k)) as [c' ->];
        [done | lia | simpl; lia |].
      exists c'. unfold deadline. simpl. rewrite (proj2 (Z.leb_le _ _)) by lia.
      by rewrite Z.add_assoc, (Z.add_comm (flight_sum _) (if in_flight p then _ else _)).
Qed.

Lemma detect_lost_spec ack now largest c : flight_ok ack ->
  let delay := loss_delay ack in
  exists c', detect_lost_packets on_loss ack now largest c =
    (ack <| bytes_in_flight := flight_sum (kept delay now largest (sent ack)) |>
         <| loss_time := deadline delay largest (kept delay now largest (sent ack)) UINT64_MAX |>
         <| sent := kept delay now largest (sent ack) |>, c').
Proof.
  intros (Hs & _ & Hb) delay. unfold detect_lost_packets. cbv zeta.
  destruct (lost_walk_spec (loss_delay (ack <| loss_time := UINT64_MAX |>)) now largest
    (ack <| loss_time := UINT64_MAX |>) c (sent ack) 0 Hs ltac:(lia)) as [c' Hw];
    [simpl; lia |].
  exists c'. cbn [sent] in *. change (sent (ack <| loss_time := UINT64_MAX |>)) with (sent ack).
  rewrite Hw. change (loss_delay (ack <| loss_time := UINT64_MAX |>)) with delay.
  rewrite Z.add_0_r. done.
Qed.

End Walks.

(** ** Processing an ACK frame *)

(** The RTT estimate after the frame. *)
Definition rtt_after (ack : nxp_ack_state) (frame : nxp_frame_ack) (now : Z) : nxp_ack_state :=
  match rtt_sample frame now (sent ack) None with
  | Some s => update_rtt ack s (ack_delay frame)
  | None => ack
  end.

Definition ack_result (ack : nxp_ack_state) (frame : nxp_frame_ack) (now : Z) : nxp_ack_state :=
  let left := unacked frame (sent ack) in
  let ack := rtt_after ack frame now in
  let largest := largest_acked frame in
  let kept := kept (loss_delay ack) now largest left in
  ack <| pto_count := 0 |> <| bytes_in_flight := flight_sum kept |>
      <| loss_time := deadline (loss_delay ack) largest kept UINT64_MAX |> <| sent := kept |>.

Lemma update_rtt_frame ack s d b l :
  update_rtt (ack <| bytes_in_flight := b |> <| sent := l |>) s d =
  update_rtt ack s d <| bytes_in_flight := b |> <| sent := l |>.
Proof. unfold update_rtt. simpl. by destruct (negb (has_rtt ack)). Qed.

Lemma loss_delay_frame ack p b l :
  loss_delay (ack <| bytes_in_flight := b |> <| sent := l |> <| pto_count := p |>) = loss_delay ack.
Proof. done. Qed.

Lemma update_rtt_cap ack s d : sent_cap (update_rtt ack s d) = sent_cap ack.
Proof. unfold update_rtt. simpl. by destruct (negb (has_rtt ack)). Qed.

Section Processing.
  Context {ctx : Type}.
  Variable on_ack on_loss : ctx -> nxp_ack_state -> nxp_sent_pkt -> ctx.

Lemma on_ack_recv_spec ack frame now c : flight_ok ack ->
  exists c', nxp_ack_on_ack_recv on_ack on_loss ack frame now c = (ack_result ack frame now, c') /\
    flight_ok (ack_result ack frame now).
Proof.
  intros (Hs & Hcap & Hb). unfold nxp_ack_on_ack_recv.
  destruct (ack_walk_spec on_ack frame now ack c None (sent ack) 0 Hs ltac:(lia)
              ltac:(lia)) as [c1 ->].
  rewrite Z.add_0_r. cbv zeta. set (rest := unacked frame (sent ack)).
  set (ack1 := match rtt_sample _ _ _ _ with Some _ => _ | None => _ end <| pto_count := 0 |>).
  assert (ack1 = rtt_after ack frame now <| bytes_in_flight := flight_sum rest |>
                   <| sent := rest |> <| pto_count := 0 |>) as ->.
  { unfold ack1, rtt_after. destruct (rtt_sample _ _ _ _); [| done].
    by rewrite update_rtt_frame. }
  assert (Forall sent_ok rest) as Hrest by (by apply Forall_filter_b).
  pose proof (zlen_filter_b (fun p => negb (pkt_acked frame (pkt_num p))) (sent ack)) as Hl.
  fold (unacked frame (sent ack)) rest in Hl.
  assert (sent_cap (rtt_after ack frame now) = sent_cap ack) as Hsc.
  { unfold rtt_after. destruct (rtt_sample _ _ _ _); [apply update_rtt_cap | done]. }
  set (ack2 := rtt_after ack frame now <| bytes_in_flight := flight_sum rest |>
                 <| sent := rest |> <| pto_count := 0 |>).
  assert (flight_ok ack2) as H2.
  { unfold flight_ok. simpl. rewrite Hsc. split_and!; (done || lia). }
  destruct (detect_lost_spec on_loss ack2 now (largest_acked frame) c1 H2) as [c' Hd].
  exists c'. split; [exact Hd |].
  unfold ack_result, flight_ok. simpl. fold rest. rewrite Hsc. split_and!; try done; try lia.
  - by apply Forall_filter_b.
  - etrans; [apply zlen_filter_b | lia].
Qed.

End Processing.

(** Callbacks that record their calls. *)
Definition trace_ack (c : list nxp_sent_pkt * list nxp_sent_pkt) (_ : nxp_ack_state)
  (p : nxp_sent_pkt) : list nxp_sent_pkt * list nxp_sent_pkt := (c.1 ++ [p], c.2).
Definition trace_loss (c : list nxp_sent_pkt * list nxp_sent_pkt) (_ : nxp_ack_state)
  (p : nxp_sent_pkt) : list nxp_sent_pkt * list nxp_sent_pkt := (c.1, c.2 ++ [p]).

Lemma ack_walk_trace frame now ack c rtt pkts :
  (ack_walk trace_ack frame now ack c rtt pkts).1.1.2 = (c.1 ++ newly_acked frame pkts, c.2).
Proof.
  revert ack c rtt. induction pkts as [| p pkts IH]; intros ack c rtt;
    unfold newly_acked in *; simpl.
  { rewrite app_nil_r. by destruct c. }
  destruct (pkt_acked frame (pkt_num p)).
  - rewrite IH. simpl. by rewrite <- app_assoc.
  - rewrite <- (IH ack c rtt). by destruct (ack_walk _ _ _ _ _ _ _) as [[[? ?] ?] ?].
Qed.

Definition mark_lost (p : nxp_sent_pkt) : nxp_sent_pkt := p <| declared_lost := true |>.

Lemma lost_walk_trace delay now largest ack c pkts : Forall sent_ok pkts ->
  (lost_walk trace_loss delay now largest ack c pkts).1.2 =
    (c.1, c.2 ++ (mark_lost <$> lost delay now largest pkts)).
Proof.
  intros Hok. revert ack c. induction Hok as [| p pkts Hp Hok IH]; intros ack c; simpl.
  { rewrite app_nil_r. by destruct c. }
  rewrite (proj2 Hp), Z.gtb_ltb. unfold lost in *. simpl. unfold is_lost at 1.
  destruct (Z.ltb_spec largest (pkt_num p)).
  - rewrite (proj2 (Z.leb_gt _ _)) by lia. simpl. rewrite <- (IH ack c).
    by destruct (lost_walk _ _ _ _ _ _ _) as [[? ?] ?].
  - rewrite (proj2 (Z.leb_le _ _)) by lia. simpl. destruct (pkt_lost delay now largest p).
    + rewrite IH. simpl. by rewrite <- app_assoc.
    + rewrite <- (IH (ack <| loss_time := u64_min (loss_time ack) (u64 (sent_time p + delay)) |>) c).
      by destruct (lost_walk _ _ _ _ _ _ _) as [[? ?] ?].
Qed.

(** The calls the callbacks receive. *)
Lemma on_ack_recv_trace ack frame now : flight_ok ack ->
  nxp_ack_on_ack_recv trace_ack trace_loss ack frame now ([], []) =
    (ack_result ack frame now,
     (newly_acked frame (sent ack),
      mark_lost <$> lost (loss_delay (rtt_after ack frame now)) now (largest_acked frame)
                      (unacked frame (sent ack)))).
Proof.
  intros Hok. destruct (on_ack_recv_spec trace_ack trace_loss ack frame now ([], []) Hok)
    as (c' & Hr & _). rewrite Hr. f_equal.
  assert (c' = (nxp_ack_on_ack_recv trace_ack trace_loss ack frame now ([], [])).2) as ->
    by (by rewrite Hr).
  destruct Hok as (Hs & Hcap & Hb). unfold nxp_ack_on_ack_recv.
  destruct (ack_walk_spec trace_ack frame now ack ([], []) None (sent ack) 0 Hs ltac:(lia)
              ltac:(lia)) as [c1 Hw].
  pose proof (ack_walk_trace frame now ack ([], []) None (sent ack)) as Ht.
  rewrite Hw in *. simpl in Ht. subst c1. unfold detect_lost_packets. cbv zeta.
  set (a := match rtt_sample _ _ _ _ with Some _ => _ | None => _ end <| pto_count := 0 |>
              <| loss_time := UINT64_MAX |>).
  assert (sent a = unacked frame (sent ack) /\
          loss_delay a = loss_delay (rtt_after ack frame now)) as [-> ->].
  { unfold a, rtt_after. destruct (rtt_sample _ _ _ _); [| done]. by rewrite update_rtt_frame. }
  pose proof (lost_walk_trace (loss_delay (rtt_after ack frame now)) now (largest_acked frame) a
    (newly_acked frame (sent ack), []) (unacked frame (sent ack))) as Hl.
  specialize (Hl ltac:(by apply Forall_filter_b)).
  destruct (lost_walk _ _ _ _ _ _ _) as [[? ?] ?]. simpl in *. done.
Qed.

(** ** Timers *)

Lemma deadline_after delay now largest pkts init : now < init ->
  Forall (fun p => pkt_num p <= largest -> now < u64 (sent_time p + delay)) pkts ->
  now < deadline delay largest pkts init.
Proof.
  intros Hi Hall. revert init Hi. induction Hall as [| p pkts Hp _ IH]; intros init Hi; [done |].
  unfold deadline. simpl. apply IH. destruct (Z.leb_spec (pkt_num p) largest); [| done].
  unfold u64_min. zcase; auto.
Qed.

Lemma kept_not_lost delay now largest pkts :
  Forall (fun p => pkt_num p <= largest -> now < u64 (sent_time p + delay))
    (kept delay now largest pkts).
Proof.
  apply Forall_forall. intros p Hp Hle. apply List.filter_In in Hp as [_ Hp].
  unfold is_lost, pkt_lost in Hp. rewrite (proj2 (Z.leb_le _ _)) in Hp by done. simpl in Hp.
  apply negb_true_iff, orb_false_iff in Hp as [_ Hp]. by apply Z.leb_gt in Hp.
Qed.

Lemma largest_sent_ge pkts init p : In p pkts \/ pkt_num p <= init ->
  pkt_num p <= foldl (fun m q => if pkt_num q >? m then pkt_num q else m) init pkts.
Proof.
  revert init. induction pkts as [| q pkts IH]; intros init Hp; simpl.
  { destruct Hp as [[] | Hp]; done. }
  apply IH. rewrite Z.gtb_ltb. destruct Hp as [Hp | Hp]; [| right; zcase; lia].
  destruct Hp as [-> | Hp]; [right; zcase; lia | by left].
Qed.

Lemma on_loss_timeout_spec {ctx} (on_loss : ctx -> nxp_ack_state -> nxp_sent_pkt -> ctx) ack now c :
  flight_ok ack -> 0 <= now < UINT64_MAX -> loss_time ack <> UINT64_MAX -> loss_time ack <= now ->
  exists ack' c', nxp_ack_on_loss_timeout on_loss ack now c = (ack', c') /\ flight_ok ack' /\
    now < loss_time ack' /\
    Forall (fun p => now < u64 (sent_time p + loss_delay ack)) (sent ack') /\
    sent ack' = kept (loss_delay ack) now (largest_sent (sent ack)) (sent ack).
Proof.
  intros Hok Hnow Hne Hle. unfold nxp_ack_on_loss_timeout.
  rewrite (proj2 (Z.eqb_neq _ _)), Z.geb_leb, (proj2 (Z.leb_le _ _)) by done. simpl.
  destruct (detect_lost_spec on_loss ack now (largest_sent (sent ack)) c Hok) as [c' ->].
  eexists _, c'. split; [reflexivity |]. destruct Hok as (Hs & Hcap & Hb). simpl.
  pose proof (kept_not_lost (loss_delay ack) now (largest_sent (sent ack)) (sent ack)) as Hk.
  split_and!; [| apply deadline_after; [lia | done] | | done].
  - unfold flight_ok. simpl. split_and!; [by apply Forall_filter_b | | lia | done].
    etrans; [apply zlen_filter_b | lia].
  - apply Forall_forall. intros p Hp. eapply Forall_forall in Hk; [| exact Hp]. apply Hk.
    apply largest_sent_ge. left. by apply List.filter_In in Hp as [Hp _].
Qed.

(** ** Properties *)

Definition recv_all (ack : nxp_ack_state) (evs : list (Z * Z * bool)) : nxp_ack_state :=
  foldl (fun a '(pn, now, e) => nxp_ack_on_pkt_recv a pn now e) ack evs.

Lemma recv_step ack pn now e : ranges_ok (recv_ranges ack) -> 0 <= pn < PN_LIMIT ->
  let ack' := nxp_ack_on_pkt_recv ack pn now e in
  ranges_ok (recv_ranges ack') /\ zlen (recv_ranges ack') <= zlen (recv_ranges ack) + 1 /\
  (forall x, recorded (recv_ranges ack') x = true -> x = pn \/ recorded (recv_ranges ack) x = true) /\
  (forall x, recorded (recv_ranges ack) x = true -> recorded (recv_ranges ack') x = true) /\
  (zlen (recv_ranges ack) < NXP_MAX_RECV_RANGES -> recorded (recv_ranges ack') pn = true).
Proof.
  intros Hok Hpn ack'. unfold ack'. rewrite ack_recv_ranges.
  destruct (recorded (recv_ranges ack) pn) eqn:Hrec; [split_and!; auto; lia |].
  destruct (record_pn_spec (recv_ranges ack) pn Hok Hpn) as (Hok' & Hlen & Hset).
  destruct Hset as [Hset | (-> & Hfull & _)]; [| split_and!; auto; lia].
  split_and!; auto; intros; rewrite Hset in *.
  - apply orb_true_iff in H as [H%Z.eqb_eq | H]; auto.
  - rewrite H. apply orb_true_r.
  - by rewrite Z.eqb_refl.
Qed.

Lemma recv_all_spec calloc_ok evs : Forall (fun '(pn, _, _) => 0 <= pn < PN_LIMIT) evs ->
  let rs := recv_ranges (recv_all (nxp_ack_init calloc_ok) evs) in
  ranges_ok rs /\ zlen rs <= zlen evs /\
  (forall x, recorded rs x = true -> In x ((fun ev => ev.1.1) <$> evs)) /\
  (zlen evs <= NXP_MAX_RECV_RANGES -> forall x, In x ((fun ev => ev.1.1) <$> evs) -> recorded rs x = true).
Proof.
  induction evs as [| [[pn now] e] evs IH] using rev_ind; intros Hall rs.
  { by split_and!. }
  apply Forall_app in Hall as [Hall Hpn]. apply Forall_cons_iff in Hpn as [Hpn _].
  destruct (IH Hall) as (Hok & Hlen & Hsound & Hcomp). unfold rs, recv_all in *.
  rewrite foldl_app. cbn [foldl]. set (a := foldl _ _ _) in *.
  destruct (recv_step a pn now e Hok Hpn) as (H1 & H2 & H3 & H4 & H5).
  rewrite zlen_app. change (zlen [_]) with 1. split_and!; [done | lia | |].
  - intros x Hx. rewrite fmap_app, in_app_iff. simpl.
    destruct (H3 x Hx); auto.
  - intros Hmax x Hx. rewrite fmap_app, in_app_iff in Hx.
    destruct Hx as [Hx | [<- | []]]; [apply H4, Hcomp; (done || lia) | apply H5; lia].
Qed.

(** the receive history is exact.  Whatever packets arrive, in whatever
    order and with whatever duplicates, the recorded ranges stay sorted,
    disjoint, non-adjacent and at most 64, every recorded number was received,
    nothing recorded is ever forgotten, and the first 64 packets are always
    recorded (later ones unless the table is full). *)
Theorem ack_history_exact calloc_ok evs :
  Forall (fun '(pn, _, _) => 0 <= pn < PN_LIMIT) evs ->
  let rs := recv_ranges (recv_all (nxp_ack_init calloc_ok) evs) in
  ranges_ok rs /\
  (forall x, recorded rs x = true -> In x ((fun ev => ev.1.1) <$> evs)) /\
  (zlen evs <= NXP_MAX_RECV_RANGES -> forall x, In x ((fun ev => ev.1.1) <$> evs) -> recorded rs x = true).
Proof.
  intros Hall rs. destruct (recv_all_spec calloc_ok evs Hall) as (H1 & _ & H2 & H3). by split_and!.
Qed.

Lemma ack_history_exact_witness :
  recv_ranges (recv_all (nxp_ack_init true) [(5, 0, true); (3, 1, true); (9, 2, false); (4, 3, true)]) =
    [RecvRange 9 9; RecvRange 3 5] /\
  let rs := recv_ranges (recv_all (nxp_ack_init true) [(5, 0, true); (3, 1, true); (9, 2, false); (4, 3, true)]) in
  ranges_ok rs /\
  (forall x, recorded rs x = true ->
     In x ((fun ev => ev.1.1) <$> [(5, 0, true); (3, 1, true); (9, 2, false); (4, 3, true)])) /\
  (zlen [(5, 0, true); (3, 1, true); (9, 2, false); (4, 3, true)] <= NXP_MAX_RECV_RANGES ->
   forall x, In x ((fun ev => ev.1.1) <$> [(5, 0, true); (3, 1, true); (9, 2, false); (4, 3, true)]) ->
   recorded rs x = true).
Proof.
  split; [reflexivity |].
  apply (ack_history_exact true [(5, 0, true); (3, 1, true); (9, 2, false); (4, 3, true)]).
  unfold PN_LIMIT. repeat (constructor; [lia |]). constructor.
Defined.

(** C28: an ACK frame means exactly what was received, across the wire.  The
    frame built from the recorded ranges is well-formed; after the encoder has
    written it and the peer's decoder has read it back, the peer's test of
    [nxp_ack_on_ack_recv] acknowledges precisely the recorded packet numbers. *)
Theorem ack_frame_exact ack now buf :
  ranges_ok (recv_ranges ack) -> recv_ranges ack <> [] -> 0 <= now < 2 ^ 62 ->
  0 <= largest_recv_time ack -> zlen buf < 2 ^ 63 ->
  exists f, nxp_ack_build_frame ack now = Some f /\
    (zlen (frame_bytes (FAck f)) <= zlen buf ->
     exists n buf' g, nxp_frame_encode_ack f buf = Done (n, buf') /\
       nxp_frame_decode buf' = Done (FAck g, n) /\
       forall pn, pkt_acked g pn = recorded (recv_ranges ack) pn).
Proof.
  intros Hok Hne Hnow Hlrt Hbuf.
  destruct (build_frame_spec ack now Hok Hne Hnow Hlrt) as (f & Hf & Hack & Hset).
  exists f. split; [done |]. intros Hfit.
  pose proof (encode_frame_spec (FAck f) Hack I buf Hbuf) as He.
  rewrite (proj2 (Z.leb_le _ _)) in He by done. cbn [encode_frame] in He.
  eexists _, _, f. split; [exact He |]. split; [| done].
  rewrite splice_0. pose proof (zlen_nonneg (frame_bytes (FAck f))).
  apply decode_frame_bytes; try done. rewrite zlen_app, zlen_zdrop; lia.
Qed.

Definition sample_ack : nxp_ack_state :=
  recv_all (nxp_ack_init true) [(5, 10, true); (3, 11, true); (9, 12, false); (4, 13, true)].

Lemma ack_frame_exact_witness :
  nxp_ack_build_frame sample_ack 20 =
    Some (FrameAck 9 8 0 1 [AckRange 2 2] false 0 0 0) /\
  exists f, nxp_ack_build_frame sample_ack 20 = Some f /\
    (zlen (frame_bytes (FAck f)) <= zlen (replicate 32 0) ->
     exists n buf' g, nxp_frame_encode_ack f (replicate 32 0) = Done (n, buf') /\
       nxp_frame_decode buf' = Done (FAck g, n) /\
       forall pn, pkt_acked g pn = recorded (recv_ranges sample_ack) pn).
Proof.
  split; [reflexivity |]. apply (ack_frame_exact sample_ack 20 (replicate 32 0)); try by_compute.
Defined.

(** C27: processing an ACK frame partitions the sent packets.  For any frame,
    the acknowledgement callback sees exactly the packets the frame covers, in
    order; the loss callback exactly the remaining packets that are at least
    three numbers or one loss delay behind; the others stay recorded; and
    [bytes_in_flight] is afterwards the sum of the sizes of the packets still
    recorded as in flight. *)
Theorem ack_processing_partitions ack frame now :
  flight_ok ack ->
  let delay := loss_delay (rtt_after ack frame now) in
  let left := unacked frame (sent ack) in
  exists ack', nxp_ack_on_ack_recv trace_ack trace_loss ack frame now ([], []) =
    (ack', (newly_acked frame (sent ack),
            mark_lost <$> lost delay now (largest_acked frame) left)) /\
  sent ack' = kept delay now (largest_acked frame) left /\
  bytes_in_flight ack' = flight_sum (sent ack') /\ flight_ok ack' /\
  recv_ranges ack' = recv_ranges ack /\
  (forall p, 0 <= pkt_num p < 2 ^ 62 -> 0 <= sent_time p < 2 ^ 62 ->
    is_lost delay now (largest_acked frame) p = true <->
    pkt_num p <= largest_acked frame /\
    (pkt_num p + 3 <= largest_acked frame \/ sent_time p + delay <= now)).
Proof.
  intros Hok delay left. exists (ack_result ack frame now).
  destruct (on_ack_recv_spec trace_ack trace_loss ack frame now ([], []) Hok) as (c' & _ & Hok').
  split; [by apply on_ack_recv_trace |]. split_and!; [done | apply Hok' | done | |].
  - unfold ack_result, rtt_after. simpl. destruct (rtt_sample _ _ _ _); [| done].
    unfold update_rtt. simpl. by destruct (negb (has_rtt ack)).
  - intros p Hpn Hst. apply is_lost_spec; [apply loss_delay_range | done..].
Qed.

Definition sample_pkt (pn : Z) : nxp_sent_pkt :=
  SentPkt pn (100 * pn) 1200 true true false [] (DrPktState 0 0 0 false 0).
Definition record_sample (ack : nxp_ack_state) (pkt : nxp_sent_pkt) : nxp_ack_state :=
  match nxp_ack_on_pkt_sent true ack pkt with Done ack' => ack' | _ => ack end.
Definition sample_sent : nxp_ack_state :=
  foldl record_sample (nxp_ack_init true) (sample_pkt <$> [0; 1; 2; 3; 4; 5; 6]).

Lemma ack_processing_partitions_witness :
  let frame := FrameAck 5 0 1 0 [] false 0 0 0 in
  let delay := loss_delay (rtt_after sample_sent frame 2000) in
  let left := unacked frame (sent sample_sent) in
  pkt_num <$> newly_acked frame (sent sample_sent) = [4; 5] /\
  pkt_num <$> lost delay 2000 5 left = [0; 1; 2; 3] /\
  exists ack', nxp_ack_on_ack_recv trace_ack trace_loss sample_sent frame 2000 ([], []) =
    (ack', (newly_acked frame (sent sample_sent),
            mark_lost <$> lost delay 2000 (largest_acked frame) left)) /\
  sent ack' = kept delay 2000 (largest_acked frame) left /\
  bytes_in_flight ack' = flight_sum (sent ack') /\ flight_ok ack' /\
  recv_ranges ack' = recv_ranges sample_sent /\
  (forall p, 0 <= pkt_num p < 2 ^ 62 -> 0 <= sent_time p < 2 ^ 62 ->
    is_lost delay 2000 5 p = true <->
    pkt_num p <= 5 /\ (pkt_num p + 3 <= 5 \/ sent_time p + delay <= 2000)).
Proof.
  split; [reflexivity |]. split; [reflexivity |].
  apply (ack_processing_partitions sample_sent (FrameAck 5 0 1 0 [] false 0 0 0) 2000).
  unfold flight_ok. split; [| by_compute].
  repeat (constructor; [split; [vm_compute; split; [discriminate | reflexivity] | reflexivity] |]).
  constructor.
Defined.

(** the loss timer makes progress.  When it fires, every recorded packet
    whose loss deadline has passed is declared lost and removed, the flight
    accounting stays exact, and the timer is re-armed strictly in the future
    (or disarmed), so it cannot fire again at the same instant. *)
Theorem loss_timer_progress ack now :
  flight_ok ack -> 0 <= now < UINT64_MAX -> loss_time ack <> UINT64_MAX -> loss_time ack <= now ->
  exists ack' c', nxp_ack_on_loss_timeout trace_loss ack now ([], []) = (ack', c') /\
    flight_ok ack' /\ now < loss_time ack' /\
    Forall (fun p => now < u64 (sent_time p + loss_delay ack)) (sent ack').
Proof.
  intros Hok Hnow Hne Hle.
  destruct (on_loss_timeout_spec trace_loss ack now ([], []) Hok Hnow Hne Hle)
    as (ack' & c' & H1 & H2 & H3 & H4 & _). eauto 10.
Qed.

Lemma loss_timer_progress_witness :
  let ack := sample_sent <| loss_time := 375000 |> in
  exists ack' c', nxp_ack_on_loss_timeout trace_loss ack 375000 ([], []) = (ack', c') /\
    flight_ok ack' /\ 375000 < loss_time ack' /\
    Forall (fun p => 375000 < u64 (sent_time p + loss_delay ack)) (sent ack').
Proof.
  apply (loss_timer_progress (sample_sent <| loss_time := 375000 |>) 375000); [| by_compute ..].
  unfold flight_ok. split; [| by_compute].
  repeat (constructor; [split; [vm_compute; split; [discriminate | reflexivity] | reflexivity] |]).
  constructor.
Defined.

(** RTT estimation stays within its samples.  After a sample, the
    smoothed RTT is at least the minimum RTT and at most the larger of its
    previous value and the sample, and the minimum RTT is at most the sample,
    whatever ACK delay the peer reports. *)
Theorem rtt_update_bounds ack s d :
  0 <= s < 2 ^ 60 -> 0 <= d -> 0 <= min_rtt ack <= UINT64_MAX ->
  (has_rtt ack = true -> min_rtt ack <= smoothed_rtt ack < 2 ^ 60) ->
  let ack' := update_rtt ack s d in
  has_rtt ack' = true /\ latest_rtt ack' = s /\ min_rtt ack' = Z.min (min_rtt ack) s /\
  min_rtt ack' <= smoothed_rtt ack' /\
  smoothed_rtt ack' <= (if has_rtt ack then Z.max (smoothed_rtt ack) s else s).
Proof.
  intros Hs Hd Hm Hh ack'. unfold ack', update_rtt. simpl.
  assert (u64_min (min_rtt ack) s = Z.min (min_rtt ack) s) as -> by (unfold u64_min; zcase; lia).
  destruct (has_rtt ack) eqn:Hhas; simpl; [| split_and!; (done || lia)].
  specialize (Hh eq_refl). rewrite !Z.gtb_ltb, Z.geb_leb.
  set (dl := if NXP_ACK_DELAY_US <? d then _ else d).
  set (adj := if _ && _ then s - dl else s).
  assert (Z.min (min_rtt ack) s <= adj <= s) as Hadj.
  { unfold adj. assert (0 <= dl) by (unfold dl, NXP_ACK_DELAY_US; zcase; lia).
    zcase; simpl; lia. }
  rewrite (u64_small (7 * _)), u64_small by lia. split_and!; try done; zlia.
Qed.

Lemma rtt_update_bounds_witness :
  let ack' := update_rtt (update_rtt (nxp_ack_init true) 80000 0) 40000 10000 in
  smoothed_rtt ack' = 75000 /\
  has_rtt ack' = true /\ latest_rtt ack' = 40000 /\
  min_rtt ack' = Z.min (min_rtt (update_rtt (nxp_ack_init true) 80000 0)) 40000 /\
  min_rtt ack' <= smoothed_rtt ack' /\
  smoothed_rtt ack' <= (if has_rtt (update_rtt (nxp_ack_init true) 80000 0)
    then Z.max (smoothed_rtt (update_rtt (nxp_ack_init true) 80000 0)) 40000 else 40000).
Proof.
  split; [reflexivity |].
  apply (rtt_update_bounds (update_rtt (nxp_ack_init true) 80000 0) 40000 10000); try by_compute.
Defined.
