(* ===== verification/Flow.v ===== *)
(** * Flow control (src/core/flow_control.c)

    The credit counters of a connection or of a stream: what the peer allows us
    to send, and what we allow the peer to send. *)

From S2P Require Import Prelude.

Record nxp_flow_ctrl := FlowCtrl {
  peer_max_data : Z;
  data_sent : Z;
  local_max_data : Z;
  data_recv : Z;
  max_data_next : Z;
  send_max_data : bool }.

#[export] Instance eta_flow : Eta nxp_flow_ctrl := fun fc =>
  FlowCtrl (peer_max_data fc) (data_sent fc) (local_max_data fc) (data_recv fc)
    (max_data_next fc) (send_max_data fc).

Definition nxp_flow_init (local_max peer_max : Z) : nxp_flow_ctrl :=
  FlowCtrl peer_max 0 local_max 0 local_max false.

Definition nxp_flow_can_send (fc : nxp_flow_ctrl) (len : Z) : bool :=
  u64 (data_sent fc + len) <=? peer_max_data fc.

Definition nxp_flow_on_send (fc : nxp_flow_ctrl) (len : Z) : nxp_flow_ctrl :=
  fc <| data_sent := u64 (data_sent fc + len) |>.

Definition nxp_flow_on_recv (fc : nxp_flow_ctrl) (len : Z) : nxp_flow_ctrl :=
  fc <| data_recv := u64 (data_recv fc + len) |>.

(** [len] is ignored by the code. *)
Definition nxp_flow_on_consume (fc : nxp_flow_ctrl) (len : Z) : nxp_flow_ctrl :=
  let consumed := data_recv fc in
  let window := local_max_data fc in
  if consumed >? window / 2 then
    let new_max := u64 (data_recv fc + window) in
    if new_max >? max_data_next fc
    then fc <| max_data_next := new_max |> <| send_max_data := true |> else fc
  else fc.

Definition nxp_flow_set_peer_max (fc : nxp_flow_ctrl) (max_data : Z) : nxp_flow_ctrl :=
  if max_data >? peer_max_data fc then fc <| peer_max_data := max_data |> else fc.

Definition nxp_flow_should_update (fc : nxp_flow_ctrl) : bool := send_max_data fc.

Definition nxp_flow_get_update (fc : nxp_flow_ctrl) : nxp_flow_ctrl * Z :=
  let fc := fc <| send_max_data := false |> <| local_max_data := max_data_next fc |> in
  (fc, local_max_data fc).

(** ** Invariant *)

(** We respect the peer's limit, and the limit we advertise next is at least
    the one in force. *)
Definition flow_ctrl_ok (fc : nxp_flow_ctrl) : Prop :=
  0 <= data_sent fc <= peer_max_data fc /\ peer_max_data fc < 2 ^ 63 /\
  0 <= data_recv fc < 2 ^ 64 /\ 0 <= local_max_data fc <= max_data_next fc /\
  max_data_next fc < 2 ^ 64 /\
  (send_max_data fc = false -> max_data_next fc = local_max_data fc).

Inductive flow_op : Type :=
| OpSend (len : Z)
| OpRecv (len : Z)
| OpConsume (len : Z)
| OpPeerMax (max_data : Z)
| OpUpdate.

(** One use of the counters by the connection: a send is attempted only when
    [nxp_flow_can_send] allows it. *)
Definition flow_step (fc : nxp_flow_ctrl) (op : flow_op) : nxp_flow_ctrl :=
  match op with
  | OpSend len => if nxp_flow_can_send fc len then nxp_flow_on_send fc len else fc
  | OpRecv len => nxp_flow_on_recv fc len
  | OpConsume len => nxp_flow_on_consume fc len
  | OpPeerMax m => nxp_flow_set_peer_max fc m
  | OpUpdate => if nxp_flow_should_update fc then (nxp_flow_get_update fc).1 else fc
  end.

Definition flow_op_ok (op : flow_op) : Prop :=
  match op with
  | OpSend len | OpRecv len | OpConsume len => 0 <= len < 2 ^ 62
  | OpPeerMax m => 0 <= m < 2 ^ 62
  | OpUpdate => True
  end.

Lemma flow_step_ok fc op : flow_ctrl_ok fc -> flow_op_ok op ->
  flow_ctrl_ok (flow_step fc op) /\
  peer_max_data fc <= peer_max_data (flow_step fc op) /\
  local_max_data fc <= local_max_data (flow_step fc op) /\
  max_data_next fc <= max_data_next (flow_step fc op).
Proof.
  intros (Hs & Hp & Hr & Hl & Hn & Hb) Hop. unfold flow_ctrl_ok.
  destruct op as [len | len | len | m |]; simpl in Hop; unfold flow_step.
  - unfold nxp_flow_can_send, nxp_flow_on_send.
    destruct (Z.leb_spec (u64 (data_sent fc + len)) (peer_max_data fc)) as [Hle |]; simpl;
      [rewrite u64_small in * by lia |]; split_and!; (done || lia).
  - unfold nxp_flow_on_recv. simpl. pose proof (u64_range (data_recv fc + len)).
    split_and!; (done || lia).
  - unfold nxp_flow_on_consume. pose proof (u64_range (data_recv fc + local_max_data fc)).
    rewrite !Z.gtb_ltb. zcase; simpl; split_and!; (done || lia).
  - unfold nxp_flow_set_peer_max. rewrite Z.gtb_ltb. zcase; simpl; split_and!; (done || lia).
  - unfold nxp_flow_should_update, nxp_flow_get_update.
    destruct (send_max_data fc); simpl; split_and!; (done || lia).
Qed.

(** The window advertised after reads is [data_recv] plus the limit in force,
    not plus the initial window: with 6 bytes received under a limit of 10, the
    update grants 16, and the next one 16 + 16. *)
Example flow_window_grows :
  let read n fc := (nxp_flow_get_update (nxp_flow_on_consume (nxp_flow_on_recv fc n) n)).1 in
  let fc := read 6 (nxp_flow_init 10 0) in
  local_max_data fc = 16 /\ local_max_data (read 10 fc) = 32.
Proof. vm_compute. done. Qed.

(** ** Properties *)

(** flow control is respected and only ever relaxed.  From the initial
    counters, under any sequence of guarded sends, receptions, reads, MAX_DATA
    frames from the peer and MAX_DATA updates to the peer, the bytes sent never
    exceed the peer's limit, and neither the peer's limit nor the limit we
    advertise ever decreases. *)
Theorem flow_limits_respected local peer ops ops' :
  0 <= local < 2 ^ 62 -> 0 <= peer < 2 ^ 62 -> Forall flow_op_ok (ops ++ ops') ->
  let fc := foldl flow_step (nxp_flow_init local peer) ops in
  let fc' := foldl flow_step fc ops' in
  flow_ctrl_ok fc' /\ data_sent fc' <= peer_max_data fc' /\
  peer_max_data fc <= peer_max_data fc' /\ local_max_data fc <= local_max_data fc'.
Proof.
  intros Hl Hp Hops.
  assert (forall ops fc, Forall flow_op_ok ops -> flow_ctrl_ok fc ->
    let fc' := foldl flow_step fc ops in
    flow_ctrl_ok fc' /\ peer_max_data fc <= peer_max_data fc' /\
    local_max_data fc <= local_max_data fc') as Hrun.
  { intros os. induction os as [| op os IH]; intros fc Hall Hok; [split_and!; (done || lia) |].
    apply Forall_cons_iff in Hall as [Hop Hall].
    destruct (flow_step_ok fc op Hok Hop) as (Hok' & H1 & H2 & _).
    destruct (IH (flow_step fc op) Hall Hok') as (? & ? & ?). simpl. split_and!; (done || lia). }
  apply Forall_app in Hops as [H1 H2]. intros fc fc'.
  destruct (Hrun ops (nxp_flow_init local peer) H1) as (Hok & _ & _).
  { unfold flow_ctrl_ok. simpl. split_and!; (done || lia). }
  destruct (Hrun ops' fc H2 Hok) as (Hok' & ? & ?). split_and!; try done. apply Hok'.
Qed.

Lemma flow_limits_respected_witness :
  let fc := foldl flow_step (nxp_flow_init 10 5) [OpSend 4; OpSend 2; OpPeerMax 9] in
  let fc' := foldl flow_step fc [OpSend 5; OpRecv 8; OpConsume 8; OpUpdate] in
  data_sent fc' = 9 /\
  flow_ctrl_ok fc' /\ data_sent fc' <= peer_max_data fc' /\
  peer_max_data fc <= peer_max_data fc' /\ local_max_data fc <= local_max_data fc'.
Proof.
  split; [reflexivity |].
  apply (flow_limits_respected 10 5 [OpSend 4; OpSend 2; OpPeerMax 9]
           [OpSend 5; OpRecv 8; OpConsume 8; OpUpdate]); [by_compute | by_compute |].
  repeat (constructor; [by_compute |]). constructor.
Defined.
