(* ===== verification/Stream.v ===== *)
(** * Streams (src/core/stream.c, and the stream part of
      src/core/connection_internal.h)

    The send and receive buffers, both circular and addressed by absolute
    stream offsets, and the stream state machine. *)

From stdpp Require Import relations.
From S2P Require Import Prelude Types Varint Codec Frame Flow Pacing.

Definition NXP_STREAM_BUF_SIZE : Z := 64 * 1024.

(** ** State *)

Record nxp_send_buf := SendBuf {
  sb_data : list Z;
  sb_cap : Z;
  write_offset : Z;
  sent_offset : Z;
  acked_offset : Z;
  sb_fin : bool;
  fin_sent : bool;
  fin_acked : bool }.

Record nxp_recv_buf := RecvBuf {
  rb_data : list Z;
  rb_cap : Z;
  read_offset : Z;
  recv_offset : Z;
  fin_received : bool;
  fin_offset : Z }.

(** The scheduler links are in [Scheduler]; [on_writable] is the identity of
    the registered callback, if any. *)
Record nxp_stream_s := Stream {
  s_id : Z;
  s_type : nxp_stream_type;
  s_state : nxp_stream_state;
  s_priority : Z;
  send : nxp_send_buf;
  recv : nxp_recv_buf;
  flow : nxp_flow_ctrl;
  rate_limit : StreamRate.nxp_stream_rate;
  on_writable : option Z;
  blocked : bool }.

#[export] Instance eta_send : Eta nxp_send_buf := fun b =>
  SendBuf (sb_data b) (sb_cap b) (write_offset b) (sent_offset b) (acked_offset b) (sb_fin b)
    (fin_sent b) (fin_acked b).
#[export] Instance eta_recv : Eta nxp_recv_buf := fun b =>
  RecvBuf (rb_data b) (rb_cap b) (read_offset b) (recv_offset b) (fin_received b) (fin_offset b).
#[export] Instance eta_stream : Eta nxp_stream_s := fun s =>
  Stream (s_id s) (s_type s) (s_state s) (s_priority s) (send s) (recv s) (flow s)
    (rate_limit s) (on_writable s) (blocked s).

(** ** State machine *)

Definition is_valid_stream_state_transition (from to : nxp_stream_state) : bool :=
  if bool_decide (to = NXP_STREAM_RESET) || bool_decide (to = NXP_STREAM_CLOSED) then true else
  match from with
  | NXP_STREAM_IDLE => bool_decide (to = NXP_STREAM_OPEN)
  | NXP_STREAM_OPEN => bool_decide (to = NXP_STREAM_HALF_CLOSED_LOCAL) ||
                       bool_decide (to = NXP_STREAM_HALF_CLOSED_REMOTE)
  | NXP_STREAM_HALF_CLOSED_LOCAL | NXP_STREAM_HALF_CLOSED_REMOTE =>
      bool_decide (to = NXP_STREAM_CLOSED)
  | NXP_STREAM_CLOSED | NXP_STREAM_RESET => false
  end.

Definition set_stream_state (s : nxp_stream_s) (new_state : nxp_stream_state) : nxp_stream_s :=
  if negb (is_valid_stream_state_transition (s_state s) new_state) then s
  else s <| s_state := new_state |>.

(** ** Creation *)

(** A zeroed stream with buffers of [cap] bytes. *)
Definition stream_with_cap (cap id : Z) (type : nxp_stream_type)
    (initial_max_send initial_max_recv : Z) : nxp_stream_s :=
  let zeros := replicate (Z.to_nat cap) 0 in
  Stream id type NXP_STREAM_OPEN 128
    (SendBuf zeros cap 0 0 0 false false false) (RecvBuf zeros cap 0 0 false 0)
    (nxp_flow_init initial_max_recv initial_max_send) StreamRate.nxp_stream_rate_init None false.

(** [None] when an allocation fails. *)
Definition nxp_stream_create (alloc_ok : bool) (id : Z) (type : nxp_stream_type)
    (initial_max_send initial_max_recv : Z) : option nxp_stream_s :=
  if negb alloc_ok then None
  else Some (stream_with_cap NXP_STREAM_BUF_SIZE id type initial_max_send initial_max_recv).

(** ** Circular copies *)

(** Copy [len] bytes of [src] into the buffer at stream offset [off]. *)
Definition circ_store (data : list Z) (cap off : Z) (src : list Z) (len : Z) : outcome nxp_error_code (list Z) :=
  let buf_pos := off mod cap in
  let first := cap - buf_pos in
  let first := if first >? len then len else first in
  let! data := memcpy data buf_pos src first in
  if len >? first then memcpy data 0 (zdrop first src) (len - first) else Done data.

(** Copy [len] bytes out of the buffer from stream offset [off]. *)
Definition circ_load (data : list Z) (cap off len : Z) : outcome nxp_error_code (list Z) :=
  let buf_pos := off mod cap in
  let first := cap - buf_pos in
  let first := if first >? len then len else first in
  let! a := sub_buf data buf_pos first in
  if len >? first then
    let! b := sub_buf data 0 (len - first) in Done (a ++ b)
  else Done a.

(** ** Application write and read *)

(** How many bytes the send buffer and the peer's window accept. *)
Definition write_room (s : nxp_stream_s) : Z :=
  let buffered := u64 (write_offset (send s) - acked_offset (send s)) in
  let avail := if sb_cap (send s) >? buffered then sb_cap (send s) - buffered else 0 in
  let fc_avail := if peer_max_data (flow s) >? write_offset (send s)
                  then peer_max_data (flow s) - write_offset (send s) else 0 in
  if avail >? fc_avail then fc_avail else avail.

(** Returns -1 on a stream closed for writing, or the bytes accepted. *)
Definition nxp_stream_write (s : nxp_stream_s) (data : list Z) (len : Z) (fin : bool)
  : nxp_result (Z * nxp_stream_s) :=
  match s_state s with
  | NXP_STREAM_HALF_CLOSED_LOCAL | NXP_STREAM_CLOSED | NXP_STREAM_RESET => Done (-1, s)
  | _ =>
      if sb_fin (send s) then Done (-1, s) else
      let avail := write_room s in
      let to_write := if len <? avail then len else avail in
      let! b :=
        if to_write >? 0 then
          let! d := circ_store (sb_data (send s)) (sb_cap (send s)) (write_offset (send s)) data to_write in
          Done (send s <| sb_data := d |> <| write_offset := u64 (write_offset (send s) + to_write) |>)
        else Done (send s) in
      let b := if fin then b <| sb_fin := true |> else b in
      Done (to_write, s <| send := b |>)
  end.

(** Returns the bytes read, the FIN flag and the stream. *)
Definition nxp_stream_read (s : nxp_stream_s) (buf_len : Z)
  : nxp_result (list Z * bool * nxp_stream_s) :=
  let at_fin r := fin_received r && (read_offset r >=? fin_offset r) in
  if read_offset (recv s) >=? recv_offset (recv s) then Done ([], at_fin (recv s), s) else
  let available := recv_offset (recv s) - read_offset (recv s) in
  let to_read := if buf_len <? available then buf_len else available in
  let! bytes := circ_load (rb_data (recv s)) (rb_cap (recv s)) (read_offset (recv s)) to_read in
  let s := s <| recv := recv s <| read_offset := u64 (read_offset (recv s) + to_read) |> |> in
  Done (bytes, at_fin (recv s), s <| flow := nxp_flow_on_consume (flow s) to_read |>).

(** ** Frame generation *)

Definition nxp_stream_unsent (s : nxp_stream_s) : Z :=
  if sent_offset (send s) >=? write_offset (send s) then 0
  else write_offset (send s) - sent_offset (send s).

(** The next STREAM frame, with at most [max_data_len] bytes. *)
Definition nxp_stream_fill_frame (s : nxp_stream_s) (max_data_len : Z)
  : nxp_result (option (nxp_frame_stream * nxp_stream_s)) :=
  let unsent := nxp_stream_unsent s in
  let b := send s in
  if (unsent =? 0) && negb (sb_fin b && negb (fin_sent b)) then Done None else
  let data_len := if unsent <? max_data_len then unsent else max_data_len in
  let buf_pos := sent_offset b mod sb_cap b in
  let first := sb_cap b - buf_pos in
  let data_len' := if data_len >? 0 then if data_len <=? first then data_len else first else data_len in
  let! data := if data_len >? 0
               then let! l := sub_buf (sb_data b) buf_pos data_len' in Done (Some l)
               else Done None in
  let fin := sb_fin b && negb (fin_sent b) &&
             (u64 (sent_offset b + data_len') =? write_offset b) in
  let frame := FrameStream (s_id s) (sent_offset b) data_len' (sent_offset b >? 0) true fin data in
  let b := if fin then b <| fin_sent := true |> else b in
  let b := b <| sent_offset := u64 (sent_offset b + data_len') |> in
  Done (Some (frame, s <| send := b |>)).

(** ** Incoming STREAM frames *)

(** The copy of a frame's data into the receive buffer. *)
Definition recv_data (r : nxp_recv_buf) (offset fin_end length : Z) (src : list Z)
  : nxp_result nxp_recv_buf :=
  if fin_end >? read_offset r then
    let skip := if offset <? read_offset r then read_offset r - offset else 0 in
    let copy_start := if offset <? read_offset r then read_offset r else offset in
    let copy_len := u64 (length - skip) in
    let! d := circ_store (rb_data r) (rb_cap r) copy_start (zdrop skip src) copy_len in
    let r := r <| rb_data := d |> in
    Done (if fin_end >? recv_offset r then r <| recv_offset := fin_end |> else r)
  else Done r.

(** The end of the peer's data: half-close or close the stream. *)
Definition recv_fin (s : nxp_stream_s) (fin_end : Z) : nxp_stream_s :=
  let s := s <| recv := recv s <| fin_received := true |> <| fin_offset := fin_end |> |> in
  match s_state s with
  | NXP_STREAM_OPEN => set_stream_state s NXP_STREAM_HALF_CLOSED_REMOTE
  | NXP_STREAM_HALF_CLOSED_LOCAL => set_stream_state s NXP_STREAM_CLOSED
  | _ => s
  end.

Definition nxp_stream_on_recv (s : nxp_stream_s) (f : nxp_frame_stream) : nxp_result nxp_stream_s :=
  match s_state s with
  | NXP_STREAM_HALF_CLOSED_REMOTE | NXP_STREAM_CLOSED | NXP_STREAM_RESET => Err NXP_ERR_STREAM_CLOSED
  | _ =>
      let offset := if sf_has_offset f then sf_offset f else 0 in
      let fin_end := u64 (offset + sf_length f) in
      if fin_end >? local_max_data (flow s) then Err NXP_ERR_FLOW_CONTROL else
      let! s :=
        match sf_data f with
        | Some src =>
            if sf_length f >? 0 then
              let! r := recv_data (recv s) offset fin_end (sf_length f) src in
              Done (s <| recv := r |> <| flow := nxp_flow_on_recv (flow s) (sf_length f) |>)
            else Done s
        | None => Done s
        end in
      Done (if sf_fin f then recv_fin s fin_end else s)
  end.

(** ** Acknowledgements and losses of sent ranges *)

Definition nxp_stream_on_ack (s : nxp_stream_s) (offset len : Z) (fin : bool) : nxp_stream_s :=
  let fin_end := u64 (offset + len) in
  let s := if fin_end >? acked_offset (send s)
           then s <| send := send s <| acked_offset := fin_end |> |> else s in
  if fin then
    let s := s <| send := send s <| fin_acked := true |> |> in
    match s_state s with
    | NXP_STREAM_HALF_CLOSED_REMOTE => set_stream_state s NXP_STREAM_CLOSED
    | NXP_STREAM_OPEN => set_stream_state s NXP_STREAM_HALF_CLOSED_LOCAL
    | _ => s
    end
  else s.

(** [len] is ignored by the code. *)
Definition nxp_stream_on_loss (s : nxp_stream_s) (offset len : Z) (fin : bool) : nxp_stream_s :=
  let s := if offset <? sent_offset (send s)
           then s <| send := send s <| sent_offset := offset |> |> else s in
  if fin then s <| send := send s <| fin_sent := false |> |> else s.

(** ** Correctness of the circular copies *)

Lemma mod_window i cap : 0 < cap -> - cap <= i < cap ->
  i mod cap = if i <? 0 then i + cap else i.
Proof.
  intros Hc Hi. destruct (Z.ltb_spec i 0); [| apply Z.mod_small; lia].
  replace i with (i + cap + (-1) * cap) at 1 by lia.
  rewrite Z.mod_add by lia. apply Z.mod_small. lia.
Qed.

Lemma sub_mod_l a b cap : 0 < cap -> (a mod cap - b) mod cap = (a - b) mod cap.
Proof. intros. by rewrite Zminus_mod_idemp_l. Qed.
Lemma sub_mod_r a b cap : 0 < cap -> (a - b mod cap) mod cap = (a - b) mod cap.
Proof. intros. by rewrite Zminus_mod_idemp_r. Qed.

Lemma circ_store_spec data cap off src len :
  0 < cap -> zlen data = cap -> 0 <= len <= cap -> len <= zlen src ->
  exists data', circ_store data cap off src len = Done data' /\ zlen data' = cap /\
    forall j, 0 <= j < cap ->
      zget data' j = if (j - off) mod cap <? len then zget src ((j - off) mod cap) else zget data j.
Proof.
  intros Hcap Hdata Hlen Hsrc. unfold circ_store.
  pose proof (Z.mod_pos_bound off cap Hcap) as Hpos. set (pos := off mod cap) in *.
  assert (forall j, (j - off) mod cap = (j - pos) mod cap) as Hmod
    by (intros; unfold pos; by rewrite sub_mod_r).
  rewrite !Z.gtb_ltb. destruct (Z.ltb_spec len (cap - pos)) as [Hnw | Hw].
  - rewrite Z.ltb_irrefl, memcpy_splice by lia. cbn [obind]. eexists. split; [reflexivity |].
    rewrite zlen_splice by (rewrite ?zlen_ztake; lia). split; [done |]. intros j Hj.
    rewrite Hmod, mod_window, zget_splice, zlen_ztake by (rewrite ?zlen_ztake; lia).
    destruct (Z.ltb_spec (j - pos) 0).
    + rewrite (proj2 (Z.leb_gt _ _)) by lia. simpl. by rewrite (proj2 (Z.ltb_ge _ _)) by lia.
    + rewrite (proj2 (Z.leb_le _ _)) by lia. simpl.
      destruct (Z.ltb_spec (j - pos) len).
      * rewrite (proj2 (Z.ltb_lt _ _)), zget_ztake by lia. done.
      * by rewrite (proj2 (Z.ltb_ge _ _)) by lia.
  - rewrite memcpy_splice by lia. cbn [obind].
    set (d1 := splice data pos (ztake (cap - pos) src)).
    assert (zlen d1 = cap) as Hd1.
    { unfold d1. rewrite zlen_splice; [done | lia | rewrite zlen_ztake; lia]. }
    set (d2 := if cap - pos <? len then memcpy d1 0 (zdrop (cap - pos) src) (len - (cap - pos))
               else Done d1).
    assert (d2 = Done (splice d1 0 (ztake (len - (cap - pos)) (zdrop (cap - pos) src)))) as ->.
    { unfold d2. destruct (Z.ltb_spec (cap - pos) len).
      - apply memcpy_splice; rewrite ?zlen_zdrop; lia.
      - replace (len - (cap - pos)) with 0 by lia. by rewrite splice_nil. }
    assert (zlen (ztake (len - (cap - pos)) (zdrop (cap - pos) src)) = len - (cap - pos)) as Hl2
      by (rewrite zlen_ztake; [done | rewrite zlen_zdrop; lia]).
    eexists. split; [reflexivity |]. rewrite zlen_splice by lia. split; [done |]. intros j Hj.
    rewrite Hmod, mod_window, zget_splice, Hl2 by lia. rewrite (proj2 (Z.leb_le _ _)) by lia. simpl.
    destruct (Z.ltb_spec j (0 + (len - (cap - pos)))).
    + rewrite (proj2 (Z.ltb_lt (j - pos) 0)), (proj2 (Z.ltb_lt _ _)) by lia.
      rewrite zget_ztake, zget_zdrop by lia. f_equal. lia.
    + unfold d1. rewrite zget_splice by (rewrite ?zlen_ztake; lia). rewrite zlen_ztake by lia.
      destruct (Z.leb_spec pos j); simpl.
      * rewrite (proj2 (Z.ltb_ge (j - pos) 0)), !(proj2 (Z.ltb_lt _ _)) by lia.
        by rewrite zget_ztake by lia.
      * by rewrite (proj2 (Z.ltb_lt (j - pos) 0)), (proj2 (Z.ltb_ge _ _)) by lia.
Qed.

Lemma circ_load_spec data cap off len : 0 < cap -> zlen data = cap -> 0 <= len <= cap ->
  exists l, circ_load data cap off len = Done l /\ zlen l = len /\
    forall k, 0 <= k < len -> zget l k = zget data ((off + k) mod cap).
Proof.
  intros Hcap Hdata Hlen. unfold circ_load.
  pose proof (Z.mod_pos_bound off cap Hcap) as Hpos. set (pos := off mod cap) in *.
  assert (forall k, 0 <= k < cap -> (off + k) mod cap = if pos + k <? cap then pos + k else pos + k - cap) as Hmod.
  { intros k Hk. rewrite <- Zplus_mod_idemp_l. fold pos.
    destruct (Z.ltb_spec (pos + k) cap); [apply Z.mod_small; lia |].
    replace (pos + k) with (pos + k - cap + 1 * cap) at 1 by lia.
    rewrite Z.mod_add by lia. apply Z.mod_small. lia. }
  rewrite !Z.gtb_ltb. destruct (Z.ltb_spec len (cap - pos)) as [Hnw | Hw].
  - rewrite sub_buf_Done, Z.ltb_irrefl by lia. cbn [obind]. eexists. split; [reflexivity |].
    rewrite zlen_ztake by (rewrite zlen_zdrop; lia). split; [done |]. intros k Hk.
    rewrite zget_ztake, zget_zdrop, Hmod, (proj2 (Z.ltb_lt _ _)) by lia. done.
  - rewrite sub_buf_Done by lia. cbn [obind].
    set (a := ztake (cap - pos) (zdrop pos data)).
    assert (zlen a = cap - pos) as Ha by (unfold a; rewrite zlen_ztake; [done | rewrite zlen_zdrop; lia]).
    set (b := ztake (len - (cap - pos)) (zdrop 0 data)).
    assert (zlen b = len - (cap - pos)) as Hb
      by (unfold b; rewrite zlen_ztake; [done | rewrite zlen_zdrop; lia]).
    exists (a ++ b). split.
    + destruct (Z.ltb_spec (cap - pos) len); [by rewrite sub_buf_Done by lia |].
      destruct b; [by rewrite app_nil_r |]. rewrite zlen_cons in Hb. pose proof (zlen_nonneg b). lia.
    + rewrite zlen_app. split; [lia |]. intros k Hk. rewrite zget_app, Ha, Hmod by lia.
      destruct (Z.ltb_spec k (cap - pos)).
      * rewrite (proj2 (Z.ltb_lt _ _)) by lia. unfold a. by rewrite zget_ztake, zget_zdrop by lia.
      * rewrite (proj2 (Z.ltb_ge _ _)) by lia. unfold b.
        rewrite zget_ztake, zget_zdrop by lia. f_equal. lia.
Qed.

(** ** Buffers hold a window of the stream *)

(** Stream offsets [lo, hi) of the byte sequence [S] are in the buffer. *)
Definition holds (data : list Z) (cap : Z) (S : list Z) (lo hi : Z) : Prop :=
  forall i, lo <= i < hi -> zget data (i mod cap) = zget S i.

(** Overwriting [off, off + len) with bytes of [S] extends the window, as long
    as it stays within one capacity. *)
Lemma store_holds data cap S lo hi off src len data' :
  0 < cap -> 0 <= lo <= off -> 0 <= len -> off <= hi -> hi <= lo + cap -> off + len <= lo + cap ->
  holds data cap S lo hi ->
  (forall k, 0 <= k < len -> zget src k = zget S (off + k)) ->
  (forall j, 0 <= j < cap ->
     zget data' j = if (j - off) mod cap <? len then zget src ((j - off) mod cap) else zget data j) ->
  holds data' cap S lo (Z.max hi (off + len)).
Proof.
  intros Hcap Hlo Hlen Hoff Hhi Hfit Hold Hsrc Hnew i Hi.
  pose proof (Z.mod_pos_bound i cap Hcap). rewrite Hnew, sub_mod_l, mod_window by lia.
  destruct (Z.ltb_spec (i - off) 0); zcase; try lia.
  - apply Hold. lia.
  - rewrite Hsrc by lia. f_equal. lia.
  - apply Hold. lia.
Qed.

Lemma holds_app data cap S T lo hi : 0 <= lo -> hi <= zlen S ->
  holds data cap S lo hi -> holds data cap (S ++ T) lo hi.
Proof. intros Hlo Hhi H i Hi. rewrite zget_app, (proj2 (Z.ltb_lt _ _)) by lia. by apply H. Qed.

Lemma holds_weaken data cap S lo hi lo' hi' :
  lo <= lo' -> hi' <= hi -> holds data cap S lo hi -> holds data cap S lo' hi'.
Proof. intros ? ? H i ?. apply H. lia. Qed.

(** A frame that carries bytes of [S] at its offset. *)
Definition frame_off (f : nxp_frame_stream) : Z := if sf_has_offset f then sf_offset f else 0.

Definition carries (S : list Z) (f : nxp_frame_stream) : Prop :=
  0 <= frame_off f /\ sf_length f = zlen (ptr_bytes (sf_data f)) /\
  frame_off f + sf_length f <= zlen S /\
  forall k, 0 <= k < sf_length f -> zget (ptr_bytes (sf_data f)) k = zget S (frame_off f + k).

Lemma carries_app S T f : carries S f -> carries (S ++ T) f.
Proof.
  intros (H1 & H2 & H3 & H4). pose proof (zlen_nonneg T). split_and!; [done | done | lenlia |].
  intros k Hk. rewrite H4, zget_app, (proj2 (Z.ltb_lt _ _)) by lia. done.
Qed.

(** ** The send side refines the sequence of bytes written *)

Definition send_ok (b : nxp_send_buf) (W : list Z) : Prop :=
  0 < sb_cap b < 2 ^ 62 /\ zlen (sb_data b) = sb_cap b /\ write_offset b = zlen W /\
  zlen W < 2 ^ 62 /\ 0 <= acked_offset b <= sent_offset b /\ sent_offset b <= write_offset b /\
  write_offset b - acked_offset b <= sb_cap b /\
  holds (sb_data b) (sb_cap b) W (acked_offset b) (write_offset b).

Definition writable (s : nxp_stream_s) : Prop :=
  match s_state s with
  | NXP_STREAM_HALF_CLOSED_LOCAL | NXP_STREAM_CLOSED | NXP_STREAM_RESET => False
  | _ => sb_fin (send s) = false
  end.

Lemma write_room_spec s W : send_ok (send s) W ->
  0 <= write_room s /\ write_offset (send s) - acked_offset (send s) + write_room s <= sb_cap (send s) /\
  (0 < write_room s -> write_offset (send s) + write_room s <= peer_max_data (flow s)).
Proof.
  intros (Hcap & _ & Hw & HW & Ha & Hs & Hroom & _). unfold write_room.
  rewrite u64_small by lia. rewrite !Z.gtb_ltb.
  destruct (Z.ltb_spec (write_offset (send s) - acked_offset (send s)) (sb_cap (send s))),
    (Z.ltb_spec (write_offset (send s)) (peer_max_data (flow s))); zcase; lia.
Qed.

(** What the application writes is appended, up to the room there is. *)
Lemma stream_write_spec s W data len fin : send_ok (send s) W -> writable s ->
  0 <= len <= zlen data -> zlen W + len < 2 ^ 62 ->
  let n := Z.min len (write_room s) in
  exists s', nxp_stream_write s data len fin = Done (n, s') /\ 0 <= n /\
    send_ok (send s') (W ++ ztake n data) /\ recv s' = recv s /\ s_state s' = s_state s /\
    flow s' = flow s /\ s_id s' = s_id s /\ sb_fin (send s') = fin /\
    acked_offset (send s') = acked_offset (send s) /\ sent_offset (send s') = sent_offset (send s) /\
    (0 < n -> write_offset (send s') <= peer_max_data (flow s)).
Proof.
  intros Hok Hwr Hlen Hbig n. pose proof (write_room_spec s W Hok) as (Hr0 & Hrc & Hrf).
  pose proof Hok as (Hcap & Hdl & Hw & HW & Ha & Hs & Hroom & Hh).
  assert (exists b, (if n >? 0 then
      let! d := circ_store (sb_data (send s)) (sb_cap (send s)) (write_offset (send s)) data n in
      Done (send s <| sb_data := d |> <| write_offset := u64 (write_offset (send s) + n) |>)
    else Done (send s)) = @Done nxp_error_code _ b /\ send_ok b (W ++ ztake n data) /\
    sb_fin b = sb_fin (send s) /\ acked_offset b = acked_offset (send s) /\
    sent_offset b = sent_offset (send s) /\ write_offset b = write_offset (send s) + n) as (b & Hb & Hbok & Hbf & Hba & Hbs & Hbw).
  { rewrite Z.gtb_ltb. destruct (Z.ltb_spec 0 n) as [Hn | Hn].
    - destruct (circ_store_spec (sb_data (send s)) (sb_cap (send s)) (write_offset (send s)) data n)
        as (d & -> & Hd & Hget); [lia | done | lia | lia |]. cbn [obind].
      rewrite u64_small by lia. eexists. split; [reflexivity |].
      unfold send_ok. simpl. rewrite zlen_app, zlen_ztake by lia. split_and!; try (done || lia).
      pose proof (store_holds (sb_data (send s)) (sb_cap (send s)) (W ++ ztake n data)
        (acked_offset (send s)) (write_offset (send s)) (write_offset (send s)) data n d) as Hst.
      rewrite Z.max_r in Hst by lia. apply Hst; try (done || lia).
      + apply holds_app; (done || lia).
      + intros k Hk. rewrite zget_app, (proj2 (Z.ltb_ge _ _)), zget_ztake by lia. f_equal. lia.
    - exists (send s). replace n with 0 by lia. rewrite Z.add_0_r.
      change (ztake 0 data) with (@nil Z). by rewrite app_nil_r. }
  assert (n = if len <? write_room s then len else write_room s) as Hn by (unfold n; zcase; lia).
  unfold nxp_stream_write. unfold writable in Hwr.
  assert (sb_fin (send s) = false) as Hfin by (by destruct (s_state s)).
  exists (s <| send := if fin then b <| sb_fin := true |> else b |>).
  split.
  { destruct (s_state s); try done; rewrite Hfin; cbv zeta; rewrite <- Hn, Hb; done. }
  unfold send_ok in *. split_and!; try done; try lia; destruct fin; simpl; try tauto; try congruence;
    intros; rewrite Hbw; lia.
Qed.

(** The bytes [off, off + len) of the stream, when they lie before the wrap. *)
Lemma slice_carries data cap S lo hi off len l : 0 < cap -> zlen data = cap ->
  holds data cap S lo hi -> 0 <= lo <= off -> 0 <= len -> off + len <= hi ->
  off mod cap + len <= cap -> l = ztake len (zdrop (off mod cap) data) ->
  zlen l = len /\ forall k, 0 <= k < len -> zget l k = zget S (off + k).
Proof.
  intros Hcap Hdata Hh Hlo Hlen Hhi Hfit ->. pose proof (Z.mod_pos_bound off cap Hcap).
  rewrite zlen_ztake by (rewrite zlen_zdrop; lia). split; [done |]. intros k Hk.
  rewrite zget_ztake, zget_zdrop by lia. rewrite <- Hh by lia. f_equal.
  rewrite <- Zplus_mod_idemp_l. symmetry. apply Z.mod_small. lia.
Qed.

(** Every frame carries the bytes written at its offset; FIN marks the end. *)
Lemma fill_frame_spec s W max : send_ok (send s) W -> 0 <= max ->
  match nxp_stream_fill_frame s max with
  | Done (Some (f, s')) =>
      carries W f /\ frame_off f = sent_offset (send s) /\ sf_stream_id f = s_id s /\
      sf_length f <= max /\ sf_has_length f = true /\
      (0 < max -> sent_offset (send s) < write_offset (send s) -> 0 < sf_length f) /\
      (sf_fin f = true -> sb_fin (send s) = true /\ sent_offset (send s') = zlen W) /\
      send_ok (send s') W /\ sent_offset (send s') = sent_offset (send s) + sf_length f /\
      acked_offset (send s') = acked_offset (send s) /\ write_offset (send s') = write_offset (send s) /\
      recv s' = recv s /\ flow s' = flow s /\ s_state s' = s_state s /\ s_id s' = s_id s
  | Done None => sent_offset (send s) = write_offset (send s) /\
                 (sb_fin (send s) = true -> fin_sent (send s) = true)
  | _ => False
  end.
Proof.
  intros Hok Hmax. pose proof Hok as (Hcap & Hdl & Hw & HW & Ha & Hs & Hroom & Hh).
  unfold nxp_stream_fill_frame. pose proof (Z.mod_pos_bound (sent_offset (send s)) (sb_cap (send s)) ltac:(lia)) as Hpos.
  assert (nxp_stream_unsent s = write_offset (send s) - sent_offset (send s)) as ->.
  { unfold nxp_stream_unsent. rewrite Z.geb_leb. zcase; lia. }
  set (b := send s) in *.
  destruct ((write_offset b - sent_offset b =? 0) && negb (sb_fin b && negb (fin_sent b))) eqn:Hnone.
  { apply andb_true_iff in Hnone as [H1%Z.eqb_eq H2]. split; [lia |].
    intros Hf. rewrite Hf in H2. by destruct (fin_sent b). }
  set (dl := if write_offset b - sent_offset b <? max then write_offset b - sent_offset b else max).
  set (dl' := if dl >? 0 then if dl <=? sb_cap b - sent_offset b mod sb_cap b then dl
              else sb_cap b - sent_offset b mod sb_cap b else dl).
  assert (0 <= dl /\ dl <= max /\ sent_offset b + dl <= write_offset b /\
          (0 < max -> sent_offset b < write_offset b -> 0 < dl)) as Hdlr by (unfold dl; zcase; lia).
  assert (0 <= dl' <= dl /\ (0 < dl -> 0 < dl' /\ sent_offset b mod sb_cap b + dl' <= sb_cap b) /\
          (dl = 0 -> dl' = 0)) as Hdl'r by (unfold dl'; rewrite Z.gtb_ltb; zcase; lia).
  cbv zeta. fold dl. fold dl'. clearbody dl dl'.
  assert (exists o, (if dl >? 0 then let! l := sub_buf (sb_data b) (sent_offset b mod sb_cap b) dl' in Done (Some l)
     else Done None) = @Done nxp_error_code _ o /\ zlen (ptr_bytes o) = dl' /\
     forall k, 0 <= k < dl' -> zget (ptr_bytes o) k = zget W (sent_offset b + k)) as (o & -> & Ho & Hget).
  { rewrite Z.gtb_ltb. destruct (Z.ltb_spec 0 dl).
    - rewrite sub_buf_Done by lia. cbn [obind]. eexists. split; [reflexivity |].
      eapply (slice_carries (sb_data b) (sb_cap b) W (acked_offset b) (write_offset b)); try done; lia.
    - exists None. split_and!; [done | unfold zlen; simpl; lia | lia]. }
  cbn [obind]. rewrite u64_small by lia.
  set (fin := sb_fin b && negb (fin_sent b) && (sent_offset b + dl' =? write_offset b)).
  set (b' := if fin then b <| fin_sent := true |> else b).
  assert (sent_offset b' = sent_offset b) as Hb' by (unfold b'; by destruct fin).
  rewrite Hb', u64_small by lia.
  assert (frame_off (FrameStream (s_id s) (sent_offset b) dl' (sent_offset b >? 0) true fin o) = sent_offset b) as Hoff.
  { unfold frame_off. simpl. rewrite Z.gtb_ltb. zcase; lia. }
  unfold carries. rewrite Hoff. simpl. split_and!; try done; try lia.
  - intros Hf. apply andb_true_iff in Hf as [Hf He%Z.eqb_eq]. apply andb_true_iff in Hf as [Hf _].
    split; [done | lia].
  - unfold send_ok. simpl. unfold b'. destruct fin; simpl; split_and!; (done || lia).
  - unfold b'. by destruct fin.
  - unfold b'. by destruct fin.
Qed.

(** Contiguous acknowledgements and rewinds above the acknowledged prefix keep
    the send buffer exact. *)
Lemma on_ack_send_ok s W off len fin : send_ok (send s) W ->
  0 <= off <= acked_offset (send s) -> 0 <= len -> off + len <= sent_offset (send s) ->
  send_ok (send (nxp_stream_on_ack s off len fin)) W /\
  recv (nxp_stream_on_ack s off len fin) = recv s.
Proof.
  intros Hok Hoff Hlen Hend. pose proof Hok as (Hcap & Hdl & Hw & HW & Ha & Hs & Hroom & Hh).
  unfold nxp_stream_on_ack. rewrite u64_small by lia. rewrite Z.gtb_ltb.
  set (s1 := if acked_offset (send s) <? off + len then _ else s).
  assert (send_ok (send s1) W /\ recv s1 = recv s) as [H1 H2].
  { unfold s1. destruct (Z.ltb_spec (acked_offset (send s)) (off + len)); [| done].
    simpl. split; [| done]. unfold send_ok. simpl. split_and!; try (done || lia).
    eapply holds_weaken; [| | exact Hh]; lia. }
  clearbody s1. unfold set_stream_state. destruct fin; [| done].
  simpl. destruct (s_state s1); simpl; try done; by case_match.
Qed.

Lemma on_loss_send_ok s W off len fin : send_ok (send s) W -> acked_offset (send s) <= off ->
  send_ok (send (nxp_stream_on_loss s off len fin)) W /\
  recv (nxp_stream_on_loss s off len fin) = recv s /\
  acked_offset (send (nxp_stream_on_loss s off len fin)) = acked_offset (send s).
Proof.
  intros Hok Hoff. pose proof Hok as (Hcap & Hdl & Hw & HW & Ha & Hs & Hroom & Hh).
  unfold nxp_stream_on_loss. destruct (Z.ltb_spec off (sent_offset (send s))), fin; simpl;
    unfold send_ok; simpl; split_and!; (done || lia).
Qed.

(** ** The receive side refines the peer's byte sequence *)

Definition recv_ok (r : nxp_recv_buf) (S : list Z) : Prop :=
  0 < rb_cap r < 2 ^ 62 /\ zlen (rb_data r) = rb_cap r /\
  0 <= read_offset r <= recv_offset r /\ recv_offset r <= zlen S /\ zlen S < 2 ^ 62 /\
  recv_offset r - read_offset r <= rb_cap r /\
  holds (rb_data r) (rb_cap r) S (read_offset r) (recv_offset r).

(** A frame that leaves no gap and fits in the buffer is stored. *)
Lemma recv_data_spec r S f src : recv_ok r S -> carries S f -> sf_data f = Some src ->
  0 < sf_length f ->
  frame_off f <= recv_offset r -> frame_off f + sf_length f <= read_offset r + rb_cap r ->
  exists r', recv_data r (frame_off f) (frame_off f + sf_length f) (sf_length f) src = Done r' /\
    recv_ok r' S /\ read_offset r' = read_offset r /\
    recv_offset r' = Z.max (recv_offset r) (frame_off f + sf_length f) /\
    fin_received r' = fin_received r /\ fin_offset r' = fin_offset r /\ rb_cap r' = rb_cap r.
Proof.
  intros Hok (Hoff & Hlen & Hend & Hget) Hdata Hn0 Hgap Hfit.
  pose proof Hok as (Hcap & Hdl & Hr & HS & HS62 & Hroom & Hh). rewrite Hdata in *. simpl in Hlen, Hget.
  unfold recv_data. set (off := frame_off f) in *. set (n := sf_length f) in *.
  rewrite !Z.gtb_ltb. destruct (Z.ltb_spec (read_offset r) (off + n)).
  2: { exists r. split_and!; (done || lia). }
  set (skip := if off <? read_offset r then read_offset r - off else 0).
  set (start := if off <? read_offset r then read_offset r else off).
  assert (0 <= skip < n /\ start = off + skip /\ read_offset r <= start <= recv_offset r) as Hsk
    by (unfold skip, start; zcase; lia).
  cbv zeta. fold skip start. rewrite u64_small by lia. clearbody skip start.
  destruct (circ_store_spec (rb_data r) (rb_cap r) start (zdrop skip src) (n - skip))
    as (d & -> & Hd & Hnew); [lia | done | lia | rewrite zlen_zdrop; lia |]. cbn [obind].
  pose proof (store_holds (rb_data r) (rb_cap r) S (read_offset r) (recv_offset r) start
    (zdrop skip src) (n - skip) d) as Hst.
  replace (start + (n - skip)) with (off + n) in Hst by lia.
  assert (holds d (rb_cap r) S (read_offset r) (Z.max (recv_offset r) (off + n))) as Hh'.
  { apply Hst; try (done || lia). intros k Hk. rewrite zget_zdrop, Hget by lia. f_equal. lia. }
  simpl. eexists. split; [reflexivity |]. rewrite Z.gtb_ltb.
  destruct (Z.ltb_spec (recv_offset r) (off + n)); simpl.
  - rewrite Z.max_r in * by lia. unfold recv_ok. simpl. split_and!; (done || lia).
  - rewrite Z.max_l in * by lia. unfold recv_ok. simpl. split_and!; (done || lia).
Qed.

Definition readable_state (s : nxp_stream_s) : Prop :=
  match s_state s with
  | NXP_STREAM_HALF_CLOSED_REMOTE | NXP_STREAM_CLOSED | NXP_STREAM_RESET => False
  | _ => True
  end.

Lemma recv_fin_frame s e :
  recv (recv_fin s e) = recv s <| fin_received := true |> <| fin_offset := e |> /\
  send (recv_fin s e) = send s.
Proof.
  unfold recv_fin. simpl. destruct (s_state s); try done; unfold set_stream_state; simpl; by case_match.
Qed.

Lemma on_recv_spec s S f : recv_ok (recv s) S -> carries S f -> readable_state s ->
  frame_off f <= recv_offset (recv s) ->
  frame_off f + sf_length f <= read_offset (recv s) + rb_cap (recv s) ->
  frame_off f + sf_length f <= local_max_data (flow s) ->
  exists s', nxp_stream_on_recv s f = Done s' /\ recv_ok (recv s') S /\
    read_offset (recv s') = read_offset (recv s) /\
    recv_offset (recv s') = Z.max (recv_offset (recv s)) (frame_off f + sf_length f) /\
    send s' = send s.
Proof.
  intros Hok Hc Hst Hgap Hfit Hfc. pose proof Hc as (Hoff & Hlen & Hend & _).
  pose proof Hok as (Hcap & Hdl & Hr & HS & HS62 & Hroom & Hh).
  pose proof (zlen_nonneg (ptr_bytes (sf_data f))) as Hl0.
  unfold nxp_stream_on_recv. fold (frame_off f). rewrite u64_small by lia.
  rewrite !Z.gtb_ltb, (proj2 (Z.ltb_ge (local_max_data _) _)) by lia.
  set (m := match sf_data f with Some _ => _ | None => _ end).
  assert (exists s1, m = Done s1 /\ recv_ok (recv s1) S /\ s_state s1 = s_state s /\
    read_offset (recv s1) = read_offset (recv s) /\
    recv_offset (recv s1) = Z.max (recv_offset (recv s)) (frame_off f + sf_length f) /\
    send s1 = send s) as (s1 & -> & H1 & H2 & H3 & H4 & H5).
  { unfold m. destruct (sf_data f) as [src |] eqn:Hd.
    - destruct (Z.ltb_spec 0 (sf_length f)).
      + destruct (recv_data_spec (recv s) S f src Hok Hc Hd ltac:(done) Hgap Hfit) as (r & -> & ? & ? & ? & _).
        eexists. split; [reflexivity |]. by simpl.
      + exists s. split_and!; (done || lia).
    - simpl in Hlen. rewrite zlen_nil in Hlen. exists s. split_and!; (done || lia). }
  exists (if sf_fin f then recv_fin s1 (frame_off f + sf_length f) else s1). split.
  { unfold readable_state in Hst. by destruct (s_state s). }
  destruct (sf_fin f); [| done].
  destruct (recv_fin_frame s1 (frame_off f + sf_length f)) as [-> ->]. by simpl.
Qed.

(** Reads return the next bytes of the sequence, in order. *)
Lemma stream_read_spec s S buf_len : recv_ok (recv s) S -> 0 <= buf_len ->
  let n := Z.min buf_len (recv_offset (recv s) - read_offset (recv s)) in
  exists fin s', nxp_stream_read s buf_len = Done (ztake n (zdrop (read_offset (recv s)) S), fin, s') /\
    recv_ok (recv s') S /\ read_offset (recv s') = read_offset (recv s) + n /\
    recv_offset (recv s') = recv_offset (recv s) /\ send s' = send s /\ s_state s' = s_state s /\
    (fin = true <-> fin_received (recv s) = true /\ fin_offset (recv s) <= read_offset (recv s')).
Proof.
  intros Hok Hb n. pose proof Hok as (Hcap & Hdl & Hr & HS & HS62 & Hroom & Hh).
  unfold nxp_stream_read. rewrite Z.geb_leb.
  destruct (Z.leb_spec (recv_offset (recv s)) (read_offset (recv s))).
  { replace n with 0 by lia. eexists _, s. split; [reflexivity |].
    split_and!; try (done || lia). rewrite andb_true_iff, Z.geb_le. tauto. }
  assert ((if buf_len <? recv_offset (recv s) - read_offset (recv s) then buf_len
           else recv_offset (recv s) - read_offset (recv s)) = n) as -> by (unfold n; zcase; lia).
  destruct (circ_load_spec (rb_data (recv s)) (rb_cap (recv s)) (read_offset (recv s)) n)
    as (l & -> & Hl & Hget); [lia | done | lia |]. cbn [obind].
  assert (l = ztake n (zdrop (read_offset (recv s)) S)) as ->.
  { apply zget_ext; [rewrite Hl, zlen_ztake; [done | rewrite zlen_zdrop; lia] |].
    intros i Hi. rewrite Hget, zget_ztake, zget_zdrop by lia. apply Hh. lia. }
  eexists _, _. split; [reflexivity |]. simpl. rewrite u64_small by lia.
  split_and!; try (done || lia).
  - unfold recv_ok. simpl. split_and!; try (done || lia).
    eapply holds_weaken; [| | exact Hh]; lia.
  - rewrite andb_true_iff, Z.geb_le. tauto.
Qed.

(** ** A sender and a receiver connected by a network

    The network keeps every frame the sender emitted: a frame may be delivered
    any number of times, late, or never.  Out-of-order frames that would leave
    a gap, and acknowledgements that skip unacknowledged data, are excluded:
    see [gap_delivers_zeros] and [early_ack_corrupts] below. *)

Record pipe := Pipe {
  snd_side : nxp_stream_s;
  rcv_side : nxp_stream_s;
  net : list nxp_frame_stream;
  written : list Z;
  delivered : list Z }.

Inductive pipe_step : pipe -> pipe -> Prop :=
| pipe_write p data fin n s :
    zlen (written p) + zlen data < 2 ^ 62 -> 0 <= n ->
    nxp_stream_write (snd_side p) data (zlen data) fin = Done (n, s) ->
    pipe_step p (Pipe s (rcv_side p) (net p) (written p ++ ztake n data) (delivered p))
| pipe_emit p max f s :
    0 <= max -> nxp_stream_fill_frame (snd_side p) max = Done (Some (f, s)) ->
    pipe_step p (Pipe s (rcv_side p) (f :: net p) (written p) (delivered p))
| pipe_deliver p f s :
    In f (net p) -> frame_off f <= recv_offset (recv (rcv_side p)) ->
    frame_off f + sf_length f <= read_offset (recv (rcv_side p)) + rb_cap (recv (rcv_side p)) ->
    nxp_stream_on_recv (rcv_side p) f = Done s ->
    pipe_step p (Pipe (snd_side p) s (net p) (written p) (delivered p))
| pipe_read p n bytes fin s :
    0 <= n -> nxp_stream_read (rcv_side p) n = Done (bytes, fin, s) ->
    pipe_step p (Pipe (snd_side p) s (net p) (written p) (delivered p ++ bytes))
| pipe_ack p f :
    In f (net p) -> frame_off f <= acked_offset (send (snd_side p)) ->
    frame_off f + sf_length f <= sent_offset (send (snd_side p)) ->
    pipe_step p (Pipe (nxp_stream_on_ack (snd_side p) (frame_off f) (sf_length f) (sf_fin f))
                   (rcv_side p) (net p) (written p) (delivered p))
| pipe_loss p f :
    In f (net p) -> acked_offset (send (snd_side p)) <= frame_off f ->
    pipe_step p (Pipe (nxp_stream_on_loss (snd_side p) (frame_off f) (sf_length f) (sf_fin f))
                   (rcv_side p) (net p) (written p) (delivered p)).

Definition pipe_ok (p : pipe) : Prop :=
  send_ok (send (snd_side p)) (written p) /\ recv_ok (recv (rcv_side p)) (written p) /\
  Forall (carries (written p)) (net p) /\
  delivered p = ztake (read_offset (recv (rcv_side p))) (written p).

Lemma recv_ok_app r S T : recv_ok r S -> zlen (S ++ T) < 2 ^ 62 -> recv_ok r (S ++ T).
Proof.
  intros (? & ? & ? & ? & ? & ? & Hh) HT. pose proof (zlen_nonneg T). unfold recv_ok.
  split_and!; try done; try lia; [lenlia |]. by apply holds_app; [lia | |].
Qed.

Lemma write_accepted s data len fin n s' : nxp_stream_write s data len fin = Done (n, s') ->
  0 <= n -> writable s.
Proof.
  unfold nxp_stream_write, writable. intros Hw Hn.
  destruct (s_state s); try (injection Hw as <- _; lia);
    (destruct (sb_fin (send s)); [injection Hw as <- _; lia | done]).
Qed.

Lemma recv_accepted s f s' : nxp_stream_on_recv s f = Done s' ->
  readable_state s /\ u64 (frame_off f + sf_length f) <= local_max_data (flow s).
Proof.
  unfold nxp_stream_on_recv, readable_state. fold (frame_off f). intros H. split.
  - by destruct (s_state s).
  - destruct (s_state s); try done;
      (destruct (u64 _ >? _) eqn:Hg; [done |]; rewrite Z.gtb_ltb in Hg; by apply Z.ltb_ge in Hg).
Qed.

Lemma ztake_snoc {A} (l : list A) n m : 0 <= n -> 0 <= m ->
  ztake n l ++ ztake m (zdrop n l) = ztake (n + m) l.
Proof. intros. unfold ztake, zdrop. rewrite Z2Nat.inj_add by lia. apply take_take_drop. Qed.

Lemma pipe_step_ok p p' : pipe_step p p' -> pipe_ok p -> pipe_ok p'.
Proof.
  intros Hstep (Hs & Hr & Hn & Hd).
  pose proof Hr as (_ & _ & Hro & Hrw & _).
  destruct Hstep as [p data fin n s Hbig Hn0 Hw | p max f s Hmax Hf | p f s Hin Hgap Hfit Hrec
    | p n bytes fin s Hn0 Hread | p f Hin Hack Hsent | p f Hin Hloss]; unfold pipe_ok; simpl.
  - destruct (stream_write_spec (snd_side p) (written p) data (zlen data) fin Hs
      (write_accepted _ _ _ _ _ _ Hw Hn0) ltac:(split; [apply zlen_nonneg | done]) Hbig)
      as (s' & Hw' & ? & Hs' & _). rewrite Hw in Hw'. injection Hw' as -> ->.
    pose proof Hs' as (_ & _ & _ & Hlen & _). split_and!; [done | by apply recv_ok_app | |].
    + eapply Forall_impl; [| exact Hn]. intros f. apply carries_app.
    + rewrite Hd. unfold ztake. rewrite take_app_le; [done |]. unfold zlen in *. lia.
  - pose proof (fill_frame_spec (snd_side p) (written p) max Hs Hmax) as H. rewrite Hf in H.
    destruct H as (Hc & _ & _ & _ & _ & _ & _ & Hs' & _). split_and!; (done || by constructor).
  - assert (carries (written p) f) as Hc by (eapply Forall_forall in Hn; eauto).
    pose proof (recv_accepted _ _ _ Hrec) as [Hst Hfc]. pose proof Hc as (? & Hl & Hend & _).
    pose proof (zlen_nonneg (ptr_bytes (sf_data f))). pose proof Hr as (_ & _ & _ & _ & ? & _).
    rewrite u64_small in Hfc by lia.
    destruct (on_recv_spec _ _ f Hr Hc Hst Hgap Hfit Hfc) as (s' & Hs' & Hok & Hro' & _).
    rewrite Hrec in Hs'. injection Hs' as <-. rewrite Hro'. by split_and!.
  - destruct (stream_read_spec _ _ n Hr Hn0) as (fin' & s' & Hs' & Hok & Hro' & _).
    rewrite Hread in Hs'. injection Hs' as -> -> ->. rewrite Hro', Hd.
    split_and!; try done. apply ztake_snoc; lia.
  - assert (carries (written p) f) as (H0 & Hl & _) by (eapply Forall_forall in Hn; eauto).
    pose proof (zlen_nonneg (ptr_bytes (sf_data f))).
    destruct (on_ack_send_ok (snd_side p) _ (frame_off f) (sf_length f) (sf_fin f) Hs) as [Hs' _];
      [lia | lia | lia |]. by split_and!.
  - destruct (on_loss_send_ok (snd_side p) _ (frame_off f) (sf_length f) (sf_fin f) Hs Hloss) as [Hs' _].
    by split_and!.
Qed.

Lemma stream_with_cap_ok cap id type ms mr : 0 < cap < 2 ^ 62 ->
  send_ok (send (stream_with_cap cap id type ms mr)) [] /\
  recv_ok (recv (stream_with_cap cap id type ms mr)) [].
Proof.
  intros Hc. unfold send_ok, recv_ok. simpl.
  rewrite zlen_replicate, Z2Nat.id by lia. change (zlen []) with 0.
  split; split_and!; try lia; intros i Hi; lia.
Qed.

Lemma pipe_reachable p p' : rtc pipe_step p p' -> pipe_ok p -> pipe_ok p'.
Proof. induction 1 as [| p p1 p2 Hs _ IH]; [done |]. intros. by eapply IH, pipe_step_ok. Qed.

(** ** Behaviours outside the window *)

(** A small stream, for evaluation. *)
Definition small_stream (cap max : Z) : nxp_stream_s :=
  stream_with_cap cap 0 NXP_STREAM_RELIABLE max max.

Definition data_frame (off : Z) (l : list Z) : nxp_frame_stream :=
  FrameStream 0 off (zlen l) true true false (Some l).

(** A frame that arrives early moves the "contiguous frontier" past the gap,
    and the application reads zeros in place of the missing bytes. *)
Example gap_delivers_zeros :
  match nxp_stream_on_recv (small_stream 8 16) (data_frame 2 [7]) with
  | Done s => match nxp_stream_read s 8 with
              | Done (bytes, _, _) => bytes = [0; 0; 7]
              | _ => False
              end
  | _ => False
  end.
Proof. vm_compute. reflexivity. Qed.

(** The receive window (256 KB by default) is larger than the buffer (64 KB):
    in-order data within the window runs over the buffer, and a read of it
    leaves the buffer's memory. *)
Lemma read_beyond_buffer s n : 0 < rb_cap (recv s) -> zlen (rb_data (recv s)) = rb_cap (recv s) ->
  0 <= read_offset (recv s) -> rb_cap (recv s) < recv_offset (recv s) - read_offset (recv s) ->
  2 * rb_cap (recv s) < n -> 2 * rb_cap (recv s) < recv_offset (recv s) - read_offset (recv s) ->
  nxp_stream_read s n = Ub.
Proof.
  intros Hc Hd Hr Ho Hn Hbig. unfold nxp_stream_read. rewrite Z.geb_leb.
  rewrite (proj2 (Z.leb_gt _ _)) by lia. set (m := if n <? _ then _ else _).
  assert (2 * rb_cap (recv s) < m) as Hm by (unfold m; zcase; lia).
  unfold circ_load. pose proof (Z.mod_pos_bound (read_offset (recv s)) (rb_cap (recv s)) Hc).
  rewrite !Z.gtb_ltb, (proj2 (Z.ltb_ge m _)) by lia.
  rewrite sub_buf_Done by lia. cbn [obind]. rewrite (proj2 (Z.ltb_lt _ _)) by lia.
  unfold sub_buf. rewrite (proj2 (Z.leb_gt (0 + _) _)) by lia. by rewrite andb_false_r.
Qed.

Example read_overruns_recv_buffer :
  let chunk := replicate (Z.to_nat 1000) 1 in
  match nxp_stream_create true 0 NXP_STREAM_RELIABLE 262144 262144 with
  | Some s =>
      let deliver o k := let! s := o in nxp_stream_on_recv s (data_frame (k * 1000) chunk) in
      match foldl deliver (Done s) (Z.of_nat <$> seq 0 140) with
      | Done s => nxp_stream_read s 140000 = Ub
      | _ => False
      end
  | None => False
  end.
Proof. vm_compute. reflexivity. Qed.

(** An acknowledgement of later data frees earlier bytes that are still
    unacknowledged: when they are lost, the retransmission at offset 0 carries
    the bytes the application wrote afterwards. *)
Example early_ack_corrupts :
  match nxp_stream_write (small_stream 4 16) [1; 2; 3; 4] 4 false with
  | Done (_, s) =>
      let emit m s := match nxp_stream_fill_frame s m with
                      | Done (Some (f, s)) => (ptr_bytes (sf_data f), s)
                      | _ => ([], s)
                      end in
      let s := (emit 2 (emit 2 s).2).2 in
      let s := nxp_stream_on_ack s 2 2 false in
      match nxp_stream_write s [5; 6; 7; 8] 4 false with
      | Done (n, s) => n = 4 /\ (emit 2 (nxp_stream_on_loss s 0 2 false)).1 = [5; 6]
      | _ => False
      end
  | _ => False
  end.
Proof. vm_compute. done. Qed.

(** The comment on terminal states notwithstanding, a reset stream can still
    be closed. *)
Example reset_stream_closes :
  is_valid_stream_state_transition NXP_STREAM_RESET NXP_STREAM_CLOSED = true.
Proof. reflexivity. Qed.

(** ** Properties *)


(** Four bytes through 4-byte buffers: write 3, send 2, deliver, read, write 2
    more (the buffer wraps), and read again. *)
Definition sample_pipe : pipe :=
  match nxp_stream_write (small_stream 4 9) [1; 2; 3] 3 false with
  | Done (_, s1) =>
      match nxp_stream_fill_frame s1 2 with
      | Done (Some (f, s2)) =>
          match nxp_stream_on_recv (small_stream 4 9) f with
          | Done r1 =>
              match nxp_stream_read r1 5 with
              | Done (bytes, _, r2) => Pipe s2 r2 [f] [1; 2; 3] bytes
              | _ => Pipe s2 r1 [f] [1; 2; 3] []
              end
          | _ => Pipe s2 s2 [] [] []
          end
      | _ => Pipe s1 s1 [] [] []
      end
  | _ => Pipe (small_stream 4 9) (small_stream 4 9) [] [] []
  end.

