(* ===== verification/LinkedList.v ===== *)
(** * Circular doubly-linked lists (src/util/intrusive_list.h)

    Rings of [next]/[prev] pointers, with the lemmas on insertion, removal and
    rotation that the intrusive list and the stream scheduler share, and the
    intrusive list itself: a sentinel, a count, and nodes in a store. *)

From stdpp Require Import gmap.
From S2P Require Import Prelude Types.

(** ** Rings of pointers *)

Section Ring.
Context {A : Type}.
Implicit Types (nx pv : A -> option A) (l : list A).

(** Each node points to its successor, and back. *)
Fixpoint linked nx pv l : Prop :=
  match l with
  | a :: ((b :: _) as t) => nx a = Some b /\ pv b = Some a /\ linked nx pv t
  | _ => True
  end.

(** The last node points to the first. *)
Definition ring nx pv l : Prop :=
  match l with
  | [] => True
  | h :: _ => linked nx pv (l ++ [h])
  end.

Lemma linked_split nx pv l x k :
  linked nx pv (l ++ x :: k) <-> linked nx pv (l ++ [x]) /\ linked nx pv (x :: k).
Proof.
  induction l as [| a [| b l] IH]; simpl in *; [tauto | | tauto].
  destruct k; tauto.
Qed.

Lemma ring_rotate nx pv l k : ring nx pv (l ++ k) -> ring nx pv (k ++ l).
Proof.
  destruct l as [| a l], k as [| b k]; rewrite ?app_nil_r; try done.
  change (linked nx pv (((a :: l) ++ b :: k) ++ [a]) -> linked nx pv (((b :: k) ++ a :: l) ++ [b])).
  rewrite <- !app_assoc. intros H.
  apply (linked_split nx pv (a :: l) b (k ++ [a])) in H as [H1 H2].
  by apply (linked_split nx pv (b :: k) a (l ++ [b])).
Qed.

(** The forward links of all nodes but the last, and the backward links of all
    but the first, are what matters. *)
Lemma linked_frame nx pv nx' pv' l x :
  linked nx pv (l ++ [x]) ->
  (forall a, In a l -> nx' a = nx a) -> (forall a, In a (tail (l ++ [x])) -> pv' a = pv a) ->
  linked nx' pv' (l ++ [x]).
Proof.
  induction l as [| a l IH]; [done |]. intros Hl Hn Hp.
  assert (exists b t, l ++ [x] = b :: t) as (b & t & Ht) by (destruct l; simpl; eauto).
  simpl in *. rewrite Ht in *. destruct Hl as (H1 & H2 & H3).
  rewrite Hn, Hp by (by left). split_and!; [done | done |].
  apply IH; [done | auto | intros c Hc; apply Hp; by right].
Qed.

(** A ring, cut after its last node [t]. *)
Lemma ring_cut nx pv m t h : head (m ++ [t]) = Some h ->
  ring nx pv (m ++ [t]) <-> linked nx pv (m ++ [t]) /\ nx t = Some h /\ pv h = Some t.
Proof.
  intros Hh. assert (ring nx pv (m ++ [t]) <-> linked nx pv ((m ++ [t]) ++ [h])) as ->.
  { unfold ring. destruct (m ++ [t]); [done |]. by injection Hh as ->. }
  rewrite <- app_assoc. rewrite (linked_split nx pv m t [h]). simpl. tauto.
Qed.

Lemma NoDup_snoc_not_In m (t : A) : NoDup (m ++ [t]) -> ~ In t m.
Proof.
  intros (_ & Hd & _)%list.NoDup_app Ht%list_elem_of_In. apply (Hd t Ht), list_elem_of_In. by left.
Qed.

Lemma NoDup_not_In_tail m (h : A) : NoDup m -> head m = Some h -> ~ In h (tail m).
Proof.
  destruct m as [| a m]; [done |]. intros [Hn _]%list.NoDup_cons [= ->] Hin.
  by apply Hn, list_elem_of_In.
Qed.

Lemma In_tail (a : A) m : In a (tail m) -> In a m.
Proof. destruct m; [done |]. by right. Qed.

(** A node [s] inserted after the last node [t]. *)
Lemma ring_insert nx pv nx' pv' m t s h : NoDup (m ++ [t]) -> ~ In s (m ++ [t]) ->
  head (m ++ [t]) = Some h -> ring nx pv (m ++ [t]) ->
  nx' t = Some s -> pv' s = Some t -> nx' s = Some h -> pv' h = Some s ->
  (forall a, a <> t -> a <> s -> nx' a = nx a) -> (forall a, a <> h -> a <> s -> pv' a = pv a) ->
  ring nx' pv' (m ++ [t; s]).
Proof.
  intros Hnd Hs Hh [Hl _]%(ring_cut _ _ _ _ _ Hh) Hnt Hps Hns Hph Hnx Hpv.
  replace (m ++ [t; s]) with ((m ++ [t]) ++ [s]) by (by rewrite <- app_assoc).
  apply (ring_cut _ _ _ _ h); [by destruct m |]. split_and!; [| done | done].
  rewrite <- app_assoc. apply linked_split. split; [| simpl; tauto].
  apply (linked_frame nx pv); [done | |]; intros a Ha.
  - apply Hnx; intros ->; [by eapply NoDup_snoc_not_In |]. apply Hs, in_app_iff. by left.
  - apply Hpv; intros ->; [by eapply NoDup_not_In_tail |]. by apply Hs, In_tail.
Qed.

(** The first node [x] removed. *)
Lemma ring_remove nx pv nx' pv' x m t h : NoDup (x :: m ++ [t]) -> head (m ++ [t]) = Some h ->
  ring nx pv (x :: m ++ [t]) ->
  nx' t = Some h -> pv' h = Some t ->
  (forall a, a <> t -> a <> x -> nx' a = nx a) -> (forall a, a <> h -> a <> x -> pv' a = pv a) ->
  ring nx' pv' (m ++ [t]).
Proof.
  intros [Hx Hnd]%list.NoDup_cons Hh Hr Hnt Hph Hnx Hpv. rewrite list_elem_of_In in Hx.
  apply (ring_cut nx pv (x :: m) t x eq_refl) in Hr as [Hl _].
  assert (linked nx pv (m ++ [t])) as Hl'.
  { simpl in Hl. destruct (m ++ [t]); [done |]. tauto. }
  apply (ring_cut _ _ _ _ h); [done |]. split_and!; [| done | done].
  apply (linked_frame nx pv); [done | |]; intros a Ha.
  - apply Hnx; intros ->; [by eapply NoDup_snoc_not_In |]. apply Hx, in_app_iff. by left.
  - apply Hpv; intros ->; [by eapply NoDup_not_In_tail |]. by apply Hx, In_tail.
Qed.

End Ring.

(** ** Nodes in memory *)

Record nxp_list_node := Node { prev : option Z; next : option Z }.

#[export] Instance eta_node : Eta nxp_list_node := fun n => Node (prev n) (next n).

(** Memory, by address; [None] is the null pointer. *)
Abbreviation node_mem := (gmap Z nxp_list_node).

(** [*p] *)
Definition deref (p : option Z) : nxp_result Z :=
  match p with Some a => Done a | None => Ub end.

(** [a->next] and [a->prev] *)
Definition load_next (m : node_mem) (a : Z) : nxp_result (option Z) :=
  match m !! a with Some n => Done (next n) | None => Ub end.
Definition load_prev (m : node_mem) (a : Z) : nxp_result (option Z) :=
  match m !! a with Some n => Done (prev n) | None => Ub end.

(** [a->next = v] and [a->prev = v] *)
Definition store_next (m : node_mem) (a : Z) (v : option Z) : nxp_result node_mem :=
  match m !! a with Some n => Done (<[a := n <| next := v |>]> m) | None => Ub end.
Definition store_prev (m : node_mem) (a : Z) (v : option Z) : nxp_result node_mem :=
  match m !! a with Some n => Done (<[a := n <| prev := v |>]> m) | None => Ub end.

Definition nx_of (m : node_mem) (a : Z) : option Z := m !! a ≫= next.
Definition pv_of (m : node_mem) (a : Z) : option Z := m !! a ≫= prev.

(** What a sequence of stores has done: the new links, over the same nodes. *)
Definition stored (m m' : node_mem) (nx pv : Z -> option Z) : Prop :=
  (forall a, nx_of m' a = nx a) /\ (forall a, pv_of m' a = pv a) /\
  (forall a, is_Some (m' !! a) <-> is_Some (m !! a)).

Definition fupd (f : Z -> option Z) (a : Z) (v : option Z) (b : Z) : option Z :=
  if decide (b = a) then v else f b.

Lemma stored_refl m : stored m m (nx_of m) (pv_of m).
Proof. done. Qed.

Lemma store_next_stored m0 m nx pv a v : stored m0 m nx pv -> is_Some (m0 !! a) ->
  exists m', store_next m a v = Done m' /\ stored m0 m' (fupd nx a v) pv.
Proof.
  intros (Hn & Hp & Hd) [n Ha]%Hd. unfold store_next. rewrite Ha. eexists. split; [done |].
  unfold stored, fupd, nx_of, pv_of in *. split_and!; intros b.
  - rewrite lookup_insert. repeat case_decide; (congruence || by simpl || auto).
  - rewrite lookup_insert. case_decide as Hb; [| auto]. subst b. rewrite <- Hp, Ha. done.
  - rewrite lookup_insert. case_decide as Hb; [| auto]. subst b. split; intros _; [apply Hd |]; eauto.
Qed.

Lemma store_prev_stored m0 m nx pv a v : stored m0 m nx pv -> is_Some (m0 !! a) ->
  exists m', store_prev m a v = Done m' /\ stored m0 m' nx (fupd pv a v).
Proof.
  intros (Hn & Hp & Hd) [n Ha]%Hd. unfold store_prev. rewrite Ha. eexists. split; [done |].
  unfold stored, fupd, nx_of, pv_of in *. split_and!; intros b.
  - rewrite lookup_insert. case_decide as Hb; [| auto]. subst b. rewrite <- Hn, Ha. done.
  - rewrite lookup_insert. repeat case_decide; (congruence || by simpl || auto).
  - rewrite lookup_insert. case_decide as Hb; [| auto]. subst b. split; intros _; [apply Hd |]; eauto.
Qed.

Lemma load_next_stored m0 m nx pv a : stored m0 m nx pv -> is_Some (m0 !! a) ->
  load_next m a = Done (nx a).
Proof.
  intros (Hn & _ & Hd) [n Ha]%Hd. unfold load_next. rewrite <- Hn. unfold nx_of. by rewrite Ha.
Qed.
Lemma load_prev_stored m0 m nx pv a : stored m0 m nx pv -> is_Some (m0 !! a) ->
  load_prev m a = Done (pv a).
Proof.
  intros (_ & Hp & Hd) [n Ha]%Hd. unfold load_prev. rewrite <- Hp. unfold pv_of. by rewrite Ha.
Qed.

(** The two stores that take a node out of its ring. *)
Definition unlink (m : node_mem) (node : Z) : nxp_result node_mem :=
  let! p := load_prev m node in
  let! n := load_next m node in
  let! p := deref p in
  let! m := store_next m p n in
  let! n := load_next m node in
  let! p := load_prev m node in
  let! n := deref n in
  store_prev m n p.

(** The effect of the stores, when the neighbours exist. *)
Lemma unlink_spec m x t h : nx_of m x = Some h -> pv_of m x = Some t -> x <> t ->
  is_Some (m !! x) -> is_Some (m !! t) -> is_Some (m !! h) ->
  exists m', unlink m x = Done m' /\
    stored m m' (fupd (nx_of m) t (Some h)) (fupd (pv_of m) h (Some t)).
Proof.
  intros Hn Hp Hxt Hx Ht Hh. pose proof (stored_refl m) as S0. unfold unlink.
  rewrite (load_prev_stored _ _ _ _ _ S0 Hx), (load_next_stored _ _ _ _ _ S0 Hx), Hn, Hp. simpl.
  destruct (store_next_stored _ _ _ _ t (Some h) S0 Ht) as (m1 & -> & S1). simpl.
  rewrite (load_next_stored _ _ _ _ _ S1 Hx), (load_prev_stored _ _ _ _ _ S1 Hx).
  unfold fupd at 1. rewrite decide_False by done. rewrite Hn, Hp. simpl.
  exact (store_prev_stored _ _ _ _ h (Some t) S1 Hh).
Qed.

(** Its effect on a ring. *)
Lemma unlink_in_ring m x k t : NoDup (x :: k ++ [t]) -> ring (nx_of m) (pv_of m) (x :: k ++ [t]) ->
  Forall (fun a => is_Some (m !! a)) (x :: k ++ [t]) ->
  exists m' nx pv, unlink m x = Done m' /\ stored m m' nx pv /\ ring nx pv (k ++ [t]) /\
    nx x = List.hd_error (k ++ [t]).
Proof.
  intros Hnd Hr Hpres. pose proof (proj1 (Forall_forall _ _) Hpres) as Hf.
  assert (exists h, List.hd_error (k ++ [t]) = Some h /\ In h (k ++ [t])) as (h & Hh & Hin).
  { destruct k as [| a k]; [exists t | exists a]; (split; [done |]); by left. }
  assert (In t (k ++ [t])) as Ht by (apply in_app_iff; right; by left).
  assert (x <> t) as Hxt.
  { intros ->. apply list.NoDup_cons in Hnd as [Hn _]. by apply Hn, list_elem_of_In. }
  pose proof (proj1 (ring_cut _ _ (x :: k) t x eq_refl) Hr) as (Hl & _ & Hpv).
  assert (nx_of m x = Some h) as Hnx.
  { simpl in Hl. destruct (k ++ [t]); [done |]. injection Hh as ->. apply Hl. }
  destruct (unlink_spec m x t h Hnx Hpv Hxt) as (m1 & Hun & S1);
    [apply Hf; by left | apply Hf; by right | apply Hf; by right |].
  eexists m1, _, _. split; [done |]. split; [exact S1 |]. unfold fupd at 3.
  rewrite decide_False, Hnx by done. split; [| done].
  eapply (ring_remove (nx_of m) (pv_of m)); try done; unfold fupd; intros;
    repeat case_decide; congruence.
Qed.

(** The links of a node outside a ring do not matter to it. *)
Lemma ring_forget nx pv l x v w : ring nx pv l -> ~ In x l -> ring (fupd nx x v) (fupd pv x w) l.
Proof.
  intros Hr Hx. destruct l as [| b l]; [done |].
  destruct (exists_last (l := b :: l)) as (k & t & Hkt); [done |]. rewrite Hkt in *. clear b l Hkt.
  assert (exists h, List.hd_error (k ++ [t]) = Some h /\ In h (k ++ [t])) as (h & Hh & Hin).
  { destruct k as [| a k]; [exists t | exists a]; (split; [done |]); by left. }
  pose proof (proj1 (ring_cut _ _ _ _ _ Hh) Hr) as (Hlk & Hn & Hp). apply (ring_cut _ _ _ _ _ Hh).
  assert (forall a, In a (k ++ [t]) -> a <> x) as Hne by (intros a Ha ->; done).
  unfold fupd. rewrite !decide_False; [| auto | apply Hne, in_app_iff; right; by left].
  split_and!; [| done | done]. apply (linked_frame nx pv); [done | |]; intros a Ha.
  - rewrite decide_False; [done |]. apply Hne, in_app_iff. by left.
  - rewrite decide_False; [done |]. by apply Hne, In_tail.
Qed.

Lemma ring_ext nx pv nx' pv' (l : list Z) : (forall a, nx' a = nx a) -> (forall a, pv' a = pv a) ->
  ring nx pv l -> ring nx' pv' l.
Proof.
  intros Hn Hp. unfold ring. destruct l as [| h l]; [done |]. intros Hl.
  apply (linked_frame nx pv nx' pv' (h :: l) h); auto.
Qed.

(** ** The intrusive list *)

Module IntrusiveList.

(** The sentinel is the node at [head]. *)
Record nxp_list := List { head : Z; count : Z }.

Definition nxp_list_init (m : node_mem) (h : Z) : node_mem * nxp_list :=
  (<[h := Node (Some h) (Some h)]> m, List h 0).

Definition nxp_list_is_empty (m : node_mem) (l : nxp_list) : nxp_result bool :=
  let! n := load_next m (head l) in Done (bool_decide (n = Some (head l))).

Definition nxp_list_count (l : nxp_list) : Z := count l.

Definition nxp_list_insert_after (m : node_mem) (l : nxp_list) (after node : Z)
  : nxp_result (node_mem * nxp_list) :=
  let! m := store_prev m node (Some after) in
  let! an := load_next m after in
  let! m := store_next m node an in
  let! an := load_next m after in
  let! an := deref an in
  let! m := store_prev m an (Some node) in
  let! m := store_next m after (Some node) in
  Done (m, List (head l) (u64 (count l + 1))).

Definition nxp_list_push_front (m : node_mem) (l : nxp_list) (node : Z) :=
  nxp_list_insert_after m l (head l) node.

Definition nxp_list_push_back (m : node_mem) (l : nxp_list) (node : Z) :=
  let! last := load_prev m (head l) in
  let! last := deref last in
  nxp_list_insert_after m l last node.

Definition nxp_list_remove (m : node_mem) (l : nxp_list) (node : Z)
  : nxp_result (node_mem * nxp_list) :=
  let! m := unlink m node in
  let! m := store_prev m node None in
  let! m := store_next m node None in
  Done (m, List (head l) (u64 (count l - 1))).

Definition nxp_list_pop_front (m : node_mem) (l : nxp_list)
  : nxp_result (option Z * node_mem * nxp_list) :=
  let! empty := nxp_list_is_empty m l in
  if (empty : bool) then Done (None, m, l) else
  let! node := load_next m (head l) in
  let! node := deref node in
  let! r := nxp_list_remove m l node in
  Done (Some node, r.1, r.2).

(** ** Refinement to sequences *)

(** The list at [l] holds the nodes [q], in order. *)
Definition list_ok (m : node_mem) (l : nxp_list) (q : list Z) : Prop :=
  NoDup (head l :: q) /\ ring (nx_of m) (pv_of m) (head l :: q) /\
  Forall (fun a => is_Some (m !! a)) (head l :: q) /\ count l = zlen q /\ zlen q < 2 ^ 64.

Lemma list_init_ok m h : let '(m', l) := nxp_list_init m h in list_ok m' l [].
Proof.
  unfold list_ok. simpl. unfold nx_of, pv_of. rewrite lookup_insert_eq. split_and!; try done.
  - apply NoDup_singleton.
  - constructor; [by rewrite lookup_insert_eq |]. constructor.
Qed.

(** Insertion after the last node of a rotation of the ring. *)
Lemma insert_after_ring m l k t node h : NoDup (k ++ [t]) -> List.hd_error (k ++ [t]) = Some h ->
  ring (nx_of m) (pv_of m) (k ++ [t]) -> ~ In node (k ++ [t]) ->
  is_Some (m !! t) -> is_Some (m !! h) -> is_Some (m !! node) ->
  exists m', nxp_list_insert_after m l t node = Done (m', List (head l) (u64 (count l + 1))) /\
    ring (nx_of m') (pv_of m') (k ++ [t; node]) /\
    (forall a, is_Some (m' !! a) <-> is_Some (m !! a)).
Proof.
  intros Hnd Hh Hr Hin Ht Hhd Hno. pose proof (stored_refl m) as S0.
  pose proof (proj1 (ring_cut _ _ _ _ _ Hh) Hr) as (_ & Hnt & _).
  unfold nxp_list_insert_after.
  destruct (store_prev_stored _ _ _ _ node (Some t) S0 Hno) as (m1 & -> & S1). simpl.
  rewrite (load_next_stored _ _ _ _ _ S1 Ht), Hnt. simpl.
  destruct (store_next_stored _ _ _ _ node (Some h) S1 Hno) as (m2 & -> & S2). simpl.
  assert (t <> node) as Htn by (intros ->; apply Hin, in_app_iff; right; by left).
  assert (h <> node) as Hhn.
  { intros ->. apply Hin. destruct (k ++ [t]); [done |]. injection Hh as ->. by left. }
  rewrite (load_next_stored _ _ _ _ _ S2 Ht). unfold fupd at 1. rewrite decide_False by done.
  rewrite Hnt. simpl.
  destruct (store_prev_stored _ _ _ _ h (Some node) S2 Hhd) as (m3 & -> & S3). simpl.
  destruct (store_next_stored _ _ _ _ t (Some node) S3 Ht) as (m4 & -> & S4). simpl.
  exists m4. split; [done |]. destruct S4 as (Hn & Hp & Hd). split; [| done].
  eapply (ring_insert (nx_of m) (pv_of m)); try done; rewrite ?Hn, ?Hp; intros;
    rewrite ?Hn, ?Hp; unfold fupd; repeat case_decide; congruence.
Qed.

(** A list that gained a node, and one that lost it. *)
Lemma list_ok_grow m m' l q q' node : list_ok m l q -> is_Some (m !! node) ->
  ~ In node (head l :: q) -> zlen q + 1 < 2 ^ 64 -> q' ≡ₚ node :: q ->
  ring (nx_of m') (pv_of m') (head l :: q') -> (forall a, is_Some (m' !! a) <-> is_Some (m !! a)) ->
  list_ok m' (List (head l) (u64 (count l + 1))) q'.
Proof.
  intros (Hnd & _ & Hpres & Hc & Hlen) Hnode Hin Hbig Hq Hr Hdom. pose proof (zlen_nonneg q).
  assert (zlen q' = zlen q + 1) as Hl.
  { unfold zlen. rewrite Hq. simpl. lia. }
  unfold list_ok. simpl. rewrite Hl, Hc, u64_small by lia. split_and!; [| done | | done | lia].
  - rewrite Hq, (Permutation_swap node (head l) q). apply list.NoDup_cons.
    by rewrite list_elem_of_In.
  - eapply Forall_impl; [intros a; apply Hdom |].
    rewrite Hq, (Permutation_swap node (head l) q). by constructor.
Qed.

Lemma list_ok_shrink m m' l q q' node : list_ok m l q -> q ≡ₚ node :: q' ->
  ring (nx_of m') (pv_of m') (head l :: q') -> (forall a, is_Some (m' !! a) <-> is_Some (m !! a)) ->
  list_ok m' (List (head l) (u64 (count l - 1))) q'.
Proof.
  intros (Hnd & _ & Hpres & Hc & Hlen) Hq Hr Hdom. pose proof (zlen_nonneg q').
  assert (zlen q = zlen q' + 1) as Hl.
  { unfold zlen. rewrite Hq. simpl. lia. }
  unfold list_ok. simpl. rewrite Hc, u64_small by lia.
  rewrite Hq, (Permutation_swap node (head l) q') in Hnd, Hpres. split_and!; [| done | | lia | lia].
  - by apply list.NoDup_cons in Hnd as [_ Hnd].
  - eapply Forall_impl; [intros a; apply Hdom |].
    by apply Forall_cons_iff in Hpres as [_ Hpres].
Qed.

(** The ring of a list can be entered anywhere. *)
Lemma list_ok_ring m l q k t : list_ok m l q -> k ++ [t] ≡ₚ head l :: q ->
  exists h, List.hd_error (k ++ [t]) = Some h /\ NoDup (k ++ [t]) /\ is_Some (m !! t) /\
    is_Some (m !! h).
Proof.
  intros (Hnd & _ & Hpres & _) Hq.
  assert (exists h, List.hd_error (k ++ [t]) = Some h /\ In h (k ++ [t])) as (h & Hh & Hin).
  { destruct k as [| a k]; [exists t | exists a]; (split; [done |]); by left. }
  rewrite <- Hq in Hnd, Hpres. exists h. pose proof (proj1 (Forall_forall _ _) Hpres) as Hf.
  split_and!; [done | done | | by apply Hf]. apply Hf, in_app_iff. right. by left.
Qed.

Lemma push_front_ok m l q node : list_ok m l q -> is_Some (m !! node) -> ~ In node (head l :: q) ->
  zlen q + 1 < 2 ^ 64 ->
  exists m' l', nxp_list_push_front m l node = Done (m', l') /\ list_ok m' l' (node :: q) /\
    head l' = head l.
Proof.
  intros Hok Hnode Hin Hbig. unfold nxp_list_push_front.
  assert (q ++ [head l] ≡ₚ head l :: q) as Hp by (symmetry; apply Permutation_cons_append).
  destruct (list_ok_ring m l q q (head l) Hok Hp) as (h & Hh & Hnd & H1 & H2).
  destruct (insert_after_ring m l q (head l) node h) as (m' & -> & Hring & Hdom); try done.
  { apply (ring_rotate _ _ [head l] q). apply Hok. }
  { by rewrite Hp. }
  eexists _, _. split; [done |]. split; [| done].
  apply (list_ok_grow m m' l q _ node); try done. apply (ring_rotate _ _ q [head l; node] Hring).
Qed.

Lemma push_back_ok m l q node : list_ok m l q -> is_Some (m !! node) -> ~ In node (head l :: q) ->
  zlen q + 1 < 2 ^ 64 ->
  exists m' l', nxp_list_push_back m l node = Done (m', l') /\ list_ok m' l' (q ++ [node]) /\
    head l' = head l.
Proof.
  intros Hok Hnode Hin Hbig. unfold nxp_list_push_back.
  destruct (exists_last (l := head l :: q)) as (k & t & Hkt); [done |].
  destruct (list_ok_ring m l q k t Hok) as (h & Hh & Hnd & H1 & H2); [by rewrite Hkt |].
  pose proof Hok as (_ & Hr & Hpres & _). apply Forall_cons_iff in Hpres as [Hhd _].
  rewrite Hkt in Hr. pose proof (proj1 (ring_cut _ _ _ _ _ Hh) Hr) as (_ & _ & Hpv).
  assert (h = head l) as -> by (rewrite <- Hkt in Hh; by injection Hh).
  rewrite (load_prev_stored _ _ _ _ _ (stored_refl m) Hhd), Hpv. simpl.
  destruct (insert_after_ring m l k t node (head l)) as (m' & -> & Hring & Hdom); try done.
  { by rewrite <- Hkt. }
  eexists _, _. split; [done |]. split; [| done].
  apply (list_ok_grow m m' l q _ node); try done; [symmetry; apply Permutation_cons_append |].
  rewrite app_comm_cons, Hkt, <- app_assoc. done.
Qed.

Lemma list_remove_ok m l q1 q2 x : list_ok m l (q1 ++ x :: q2) ->
  exists m' l', nxp_list_remove m l x = Done (m', l') /\ list_ok m' l' (q1 ++ q2) /\ head l' = head l.
Proof.
  intros Hok. pose proof Hok as (Hnd & Hr & Hpres & _).
  apply (ring_rotate _ _ (head l :: q1) (x :: q2)) in Hr.
  destruct (exists_last (l := q2 ++ head l :: q1)) as (k & t & Hkt); [by destruct q2 |].
  assert ((x :: q2) ++ head l :: q1 = x :: k ++ [t]) as Hxk by (by rewrite <- Hkt).
  rewrite Hxk in Hr. assert (head l :: q1 ++ x :: q2 ≡ₚ x :: k ++ [t]) as Hp.
  { rewrite <- Hxk. apply (Permutation_app_comm (head l :: q1) (x :: q2)). }
  rewrite Hp in Hnd, Hpres.
  destruct (unlink_in_ring m x k t Hnd Hr Hpres) as (m1 & nx & pv & Hun & S1 & Hr1 & _).
  unfold nxp_list_remove. rewrite Hun. simpl.
  apply list.NoDup_cons in Hnd as [Hx _]. rewrite list_elem_of_In in Hx.
  apply Forall_cons_iff in Hpres as [Hmx _].
  destruct (store_prev_stored _ _ _ _ x None S1 Hmx) as (m2 & -> & S2). simpl.
  destruct (store_next_stored _ _ _ _ x None S2 Hmx) as (m3 & -> & S3). simpl.
  eexists _, _. split; [done |]. split; [| done]. destruct S3 as (Hn3 & Hp3 & Hd3).
  apply (list_ok_shrink m m3 l (q1 ++ x :: q2) _ x Hok); [symmetry; apply Permutation_middle | | done].
  apply (ring_rotate _ _ q2 (head l :: q1)). rewrite Hkt.
  apply (ring_ext _ _ _ _ _ Hn3 Hp3). by apply ring_forget.
Qed.

Lemma pop_front_ok m l q : list_ok m l q ->
  exists m' l', nxp_list_pop_front m l = Done (hd_error q, m', l') /\ list_ok m' l' (tail q) /\
    head l' = head l.
Proof.
  intros Hok. pose proof Hok as (Hnd & Hr & Hpres & _). apply Forall_cons_iff in Hpres as [Hh _].
  unfold nxp_list_pop_front, nxp_list_is_empty.
  rewrite !(load_next_stored _ _ _ _ _ (stored_refl m) Hh). destruct q as [| x q]; simpl.
  { destruct Hr as [-> _]. rewrite bool_decide_true by done. eauto. }
  destruct Hr as [Hnx _]. rewrite Hnx, bool_decide_false; simpl.
  - destruct (list_remove_ok m l [] q x Hok) as (m' & l' & -> & ? & ?). simpl. eauto.
  - intros [= ->]. apply list.NoDup_cons in Hnd as [Hnd _]. apply Hnd. rewrite list_elem_of_In. by left.
Qed.

(** the intrusive list implements a sequence with insertion at both ends
    and removal anywhere, without touching null or dangling pointers. *)
Theorem intrusive_list_refines m l q : list_ok m l q ->
  (forall node, is_Some (m !! node) -> ~ In node (head l :: q) -> zlen q + 1 < 2 ^ 64 ->
    (exists m' l', nxp_list_push_front m l node = Done (m', l') /\ list_ok m' l' (node :: q)) /\
    (exists m' l', nxp_list_push_back m l node = Done (m', l') /\ list_ok m' l' (q ++ [node]))) /\
  (forall q1 x q2, q = q1 ++ x :: q2 ->
    exists m' l', nxp_list_remove m l x = Done (m', l') /\ list_ok m' l' (q1 ++ q2)) /\
  (exists m' l', nxp_list_pop_front m l = Done (hd_error q, m', l') /\ list_ok m' l' (tail q)) /\
  nxp_list_count l = zlen q.
Proof.
  intros Hok. split_and!.
  - intros node H1 H2 H3. split.
    + destruct (push_front_ok m l q node) as (? & ? & ? & ? & _); eauto.
    + destruct (push_back_ok m l q node) as (? & ? & ? & ? & _); eauto.
  - intros q1 x q2 ->. destruct (list_remove_ok _ _ _ _ _ Hok) as (? & ? & ? & ? & _); eauto.
  - destruct (pop_front_ok _ _ _ Hok) as (? & ? & ? & ? & _); eauto.
  - apply Hok.
Qed.

(** A list with sentinel 10 and nodes 11, 12. *)
Definition sample_mem : node_mem := <[12 := Node None None]> (<[11 := Node None None]> ∅).

Lemma intrusive_list_refines_witness :
  exists m l, list_ok m l [] /\
    exists m' l', nxp_list_push_back m l 11 = Done (m', l') /\ list_ok m' l' [11].
Proof.
  exists (fst (nxp_list_init sample_mem 10)), (snd (nxp_list_init sample_mem 10)).
  pose proof (list_init_ok sample_mem 10) as Hok. split; [exact Hok |].
  destruct (intrusive_list_refines _ _ _ Hok) as [Hpush _].
  apply (Hpush 11); [eexists; vm_compute; reflexivity | simpl; lia | by_compute].
Defined.

End IntrusiveList.
