(* ===== verification/Scheduler.v ===== *)
(** * The stream scheduler (src/core/scheduler.c)

    Streams with data to send form a circular doubly-linked list, entered at
    [sched_head]; the round-robin order is a queue. *)

From stdpp Require Import gmap.
From S2P Require Import Prelude Types Flow Stream LinkedList.

(** ** State: the scheduling fields of the connection and of its streams

    [links] holds the [sched_next] and [sched_prev] pointers of every stream,
    by stream id, and [scheduled] the streams whose flag is set. *)

Record nxp_sched := Sched {
  sched_head : option Z;
  links : node_mem;
  scheduled : gset Z }.

#[export] Instance eta_sched : Eta nxp_sched := fun c => Sched (sched_head c) (links c) (scheduled c).

(** ** Operations *)

Definition nxp_sched_add (c : nxp_sched) (s : Z) : nxp_result nxp_sched :=
  if bool_decide (s ∈ scheduled c) then Done c else
  let! c :=
    match sched_head c with
    | None =>
        let! m := store_next (links c) s (Some s) in
        let! m := store_prev m s (Some s) in
        Done (c <| links := m |> <| sched_head := Some s |>)
    | Some h =>
        let! tail := load_prev (links c) h in
        let! m := store_next (links c) s (Some h) in
        let! m := store_prev m s tail in
        let! t := deref tail in
        let! m := store_next m t (Some s) in
        let! m := store_prev m h (Some s) in
        Done (c <| links := m |>)
    end in
  Done (c <| scheduled := {[ s ]} ∪ scheduled c |>).

Definition nxp_sched_remove (c : nxp_sched) (s : Z) : nxp_result nxp_sched :=
  if negb (bool_decide (s ∈ scheduled c)) then Done c else
  let! n := load_next (links c) s in
  let! c :=
    if bool_decide (n = Some s) then Done (c <| sched_head := None |>) else
    let! m := unlink (links c) s in
    if bool_decide (sched_head c = Some s)
    then let! n := load_next m s in Done (c <| links := m |> <| sched_head := n |>)
    else Done (c <| links := m |>) in
  let! m := store_next (links c) s None in
  let! m := store_prev m s None in
  Done (c <| links := m |> <| scheduled := scheduled c ∖ {[ s ]} |>).

(** Whether a stream still has something to send. *)
Definition sched_idle (s : nxp_stream_s) : bool :=
  (nxp_stream_unsent s =? 0) && negb (sb_fin (send s) && negb (fin_sent (send s))).

Definition nxp_sched_next (streams : gmap Z nxp_stream_s) (c : nxp_sched)
  : nxp_result (option Z * nxp_sched) :=
  match sched_head c with
  | None => Done (None, c)
  | Some s =>
      let! n := load_next (links c) s in
      let c := c <| sched_head := n |> in
      match streams !! s with
      | None => Ub
      | Some st =>
          let! c := if sched_idle st then nxp_sched_remove c s else Done c in
          Done (Some s, c)
      end
  end.

(** ** Refinement to a queue *)

Definition sched_ok (c : nxp_sched) (q : list Z) : Prop :=
  NoDup q /\ ring (nx_of (links c)) (pv_of (links c)) q /\
  Forall (fun a => is_Some (links c !! a)) q /\
  sched_head c = hd_error q /\ (forall a, a ∈ scheduled c <-> In a q).

Definition sched_empty (m : node_mem) : nxp_sched := Sched None m ∅.

Lemma sched_empty_ok m : sched_ok (sched_empty m) [].
Proof. unfold sched_ok. simpl. split_and!; try (done || constructor); set_solver. Qed.

Lemma hd_snoc {A} (k : list A) t : exists h, hd_error (k ++ [t]) = Some h /\ In h (k ++ [t]).
Proof. destruct k as [| a k]; [exists t | exists a]; (split; [done |]); by left. Qed.

Lemma sched_grow c q s m : sched_ok c q -> is_Some (links c !! s) -> ~ In s q ->
  ring (nx_of m) (pv_of m) (q ++ [s]) -> (forall a, is_Some (m !! a) <-> is_Some (links c !! a)) ->
  sched_ok (Sched (hd_error (q ++ [s])) m ({[ s ]} ∪ scheduled c)) (q ++ [s]).
Proof.
  intros (Hnd & _ & Hpres & _ & Hsch) Hs Hin Hm Hd.
  unfold sched_ok. simpl. split_and!; [| done | | done |].
  - rewrite <- Permutation_cons_append. apply list.NoDup_cons. by rewrite list_elem_of_In.
  - rewrite <- Permutation_cons_append. constructor; [by apply Hd |].
    eapply Forall_impl; [intros a; apply Hd |]. done.
  - intros a. rewrite in_app_iff, elem_of_union, elem_of_singleton, Hsch. simpl. intuition.
Qed.

Lemma sched_add_ok c q s : sched_ok c q -> is_Some (links c !! s) ->
  exists c', nxp_sched_add c s = Done c' /\
    sched_ok c' (if decide (s ∈ q) then q else q ++ [s]) /\
    (forall a, is_Some (links c' !! a) <-> is_Some (links c !! a)).
Proof.
  intros Hok Hs. pose proof Hok as (Hnd & Hr & Hpres & Hh & Hsch). unfold nxp_sched_add.
  destruct (decide (s ∈ q)) as [Hin | Hin]; rewrite list_elem_of_In in Hin.
  { rewrite bool_decide_true by (by apply Hsch). eauto. }
  rewrite bool_decide_false by (by rewrite Hsch). rewrite Hh.
  pose proof (stored_refl (links c)) as S0.
  pose proof (fun m => sched_grow c q s m Hok Hs Hin) as Hfin.
  destruct q as [| h q]; simpl.
  - destruct (store_next_stored _ _ _ _ s (Some s) S0 Hs) as (m1 & -> & S1). simpl.
    destruct (store_prev_stored _ _ _ _ s (Some s) S1 Hs) as (m2 & -> & S2). simpl.
    eexists. split; [done |]. destruct S2 as (Hn & Hp & Hd). split; [| done].
    apply (Hfin m2); [| done]. simpl. rewrite Hn, Hp. unfold fupd. by rewrite !decide_True.
  - destruct (exists_last (l := h :: q)) as (k & t & Hkt); [done |].
    rewrite Hkt in Hr, Hpres, Hnd, Hin, Hfin. destruct (hd_snoc k t) as (h' & Hh' & Hin').
    assert (h' = h) as -> by (rewrite <- Hkt in Hh'; by injection Hh').
    pose proof (proj1 (ring_cut _ _ _ _ _ Hh') Hr) as (_ & Hnt & Hpv).
    pose proof (proj1 (Forall_forall _ _) Hpres) as Hf.
    assert (In t (k ++ [t])) as Htin by (apply in_app_iff; right; by left).
    rewrite (load_prev_stored _ _ _ _ _ S0 (Hf _ Hin')), Hpv. simpl.
    destruct (store_next_stored _ _ _ _ s (Some h) S0 Hs) as (m1 & -> & S1). simpl.
    destruct (store_prev_stored _ _ _ _ s (Some t) S1 Hs) as (m2 & -> & S2). simpl.
    destruct (store_next_stored _ _ _ _ t (Some s) S2 (Hf _ Htin)) as (m3 & -> & S3). simpl.
    destruct (store_prev_stored _ _ _ _ h (Some s) S3 (Hf _ Hin')) as (m4 & -> & S4). simpl.
    eexists. split; [done |]. destruct S4 as (Hn & Hp & Hd). split; [| done].
    assert (c <| links := m4 |> <| scheduled := {[ s ]} ∪ scheduled c |> =
      Sched (hd_error ((k ++ [t]) ++ [s])) m4 ({[ s ]} ∪ scheduled c)) as ->.
    { unfold assign_with. simpl. by rewrite Hh, <- Hkt. }
    rewrite app_comm_cons, Hkt. apply (Hfin m4); [| done]. rewrite <- app_assoc.
    assert (t <> s) by (intros ->; done). assert (h <> s) by (intros ->; done).
    eapply (ring_insert (nx_of (links c)) (pv_of (links c))); try done; rewrite ?Hn, ?Hp; intros;
      rewrite ?Hn, ?Hp; unfold fupd; repeat case_decide; congruence.
Qed.

Lemma sched_shrink c q1 q2 s m : sched_ok c (q1 ++ s :: q2) ->
  ring (nx_of m) (pv_of m) (q1 ++ q2) -> (forall a, is_Some (m !! a) <-> is_Some (links c !! a)) ->
  sched_ok (Sched (hd_error (q1 ++ q2)) m (scheduled c ∖ {[ s ]})) (q1 ++ q2).
Proof.
  intros (Hnd & _ & Hpres & _ & Hsch) Hr Hd. unfold sched_ok. simpl.
  assert (forall a, a ∈ scheduled c <-> In a (s :: q1 ++ q2)) as Hsch'.
  { intros a. by rewrite Hsch, <- Permutation_middle. }
  rewrite <- Permutation_middle in Hnd, Hpres. apply list.NoDup_cons in Hnd as [Hs Hnd].
  rewrite list_elem_of_In in Hs. apply Forall_cons_iff in Hpres as [_ Hpres].
  split_and!; [done | done | | done |].
  - eapply Forall_impl; [intros a; apply Hd |]. done.
  - intros a. rewrite elem_of_difference, elem_of_singleton, Hsch'. simpl.
    split; [intros [[-> | ?] ?]; done | intros Ha; split; [by right | by intros ->]].
Qed.

Lemma sched_clear c q1 q2 s m nx pv : sched_ok c (q1 ++ s :: q2) ->
  stored (links c) m nx pv -> ring nx pv (q1 ++ q2) ->
  exists m1 m2, store_next m s None = Done m1 /\ store_prev m1 s None = Done m2 /\
    sched_ok (Sched (hd_error (q1 ++ q2)) m2 (scheduled c ∖ {[ s ]})) (q1 ++ q2) /\
    (forall a, is_Some (m2 !! a) <-> is_Some (links c !! a)).
Proof.
  intros Hok S Hrm. pose proof Hok as (Hnd & _ & Hpres & _).
  rewrite <- Permutation_middle in Hnd, Hpres. apply list.NoDup_cons in Hnd as [Hs _].
  apply Forall_cons_iff in Hpres as [Hms _]. rewrite list_elem_of_In in Hs.
  destruct (store_next_stored _ _ _ _ s None S Hms) as (m1 & H1 & S1).
  destruct (store_prev_stored _ _ _ _ s None S1 Hms) as (m2 & H2 & S2).
  exists m1, m2. destruct S2 as (Hn2 & Hp2 & Hd2). split_and!; try done.
  apply sched_shrink; [done | | done]. by apply (ring_ext _ _ _ _ _ Hn2 Hp2), ring_forget.
Qed.

Lemma sched_remove_ok c q1 q2 s : sched_ok c (q1 ++ s :: q2) ->
  exists c', nxp_sched_remove c s = Done c' /\ sched_ok c' (q1 ++ q2) /\
    (forall a, is_Some (links c' !! a) <-> is_Some (links c !! a)).
Proof.
  intros Hok. pose proof Hok as (Hnd & Hr & Hpres & Hh & Hsch). unfold nxp_sched_remove.
  rewrite bool_decide_true by (apply Hsch, in_app_iff; right; by left). simpl.
  apply (ring_rotate _ _ q1 (s :: q2)) in Hr.
  rewrite (Permutation_app_comm q1 (s :: q2)) in Hnd, Hpres. simpl in Hnd, Hpres.
  apply list.NoDup_cons in Hnd as Hnd'. destruct Hnd' as [Hs _]. rewrite list_elem_of_In in Hs.
  pose proof Hpres as Hpres'. apply Forall_cons_iff in Hpres' as [Hms _].
  rewrite (load_next_stored _ _ _ _ _ (stored_refl _) Hms). simpl.
  pose proof (fun m nx pv => sched_clear c q1 q2 s m nx pv Hok) as Hfin.
  destruct (q2 ++ q1) as [| b l] eqn:Hqq.
  - apply app_eq_nil in Hqq as [-> ->]. simpl in *. destruct Hr as [-> _].
    rewrite bool_decide_true by done.
    destruct (Hfin _ _ _ (stored_refl _) I) as (m1 & m2 & H1 & H2 & H3 & H4). simpl.
    rewrite H1. simpl. rewrite H2. simpl. eauto.
  - assert (nx_of (links c) s = Some b) as Hnx.
    { simpl in Hr. rewrite Hqq in Hr. apply Hr. }
    rewrite Hnx, bool_decide_false by (intros [= ->]; apply Hs; by left).
    destruct (exists_last (l := b :: l)) as (k & t & Hkt); [done |].
    simpl in Hr. rewrite Hqq, Hkt in *.
    destruct (unlink_in_ring _ s k t Hnd Hr Hpres) as (m & nx & pv & Hun & S & Hring & Hns).
    rewrite <- Hqq in Hring. apply ring_rotate in Hring.
    destruct (Hfin m nx pv S Hring) as (m1 & m2 & H1 & H2 & H3 & H4).
    rewrite Hun. simpl. rewrite (load_next_stored _ _ _ _ _ S Hms), Hns, Hh. simpl.
    destruct q1 as [| a q1].
    + rewrite bool_decide_true by done. simpl. rewrite H1. simpl. rewrite H2. simpl.
      eexists. split; [done |]. split; [| done]. simpl in H3. rewrite app_nil_r in Hqq.
      unfold assign_with. simpl. by rewrite <- Hqq.
    + rewrite bool_decide_false by (intros [= ->]; apply Hs; rewrite <- Hqq;
        apply in_app_iff; right; by left).
      simpl. rewrite H1. simpl. rewrite H2. simpl.
      eexists. split; [done |]. split; [| done]. unfold assign_with. simpl. by rewrite Hh.
Qed.

(** ** Round-robin service *)

(** The queue after one call: the stream at the front is served, and goes to
    the back if it still has data. *)
Definition rotate (streams : gmap Z nxp_stream_s) (q : list Z) : list Z :=
  match q with
  | [] => []
  | s :: r => if from_option sched_idle true (streams !! s) then r else r ++ [s]
  end.

Lemma sched_next_ok streams c q : sched_ok c q -> (forall a, In a q -> is_Some (streams !! a)) ->
  exists c', nxp_sched_next streams c = Done (hd_error q, c') /\ sched_ok c' (rotate streams q) /\
    (forall a, is_Some (links c' !! a) <-> is_Some (links c !! a)).
Proof.
  intros Hok Hst. pose proof Hok as (Hnd & Hr & Hpres & Hh & Hsch). unfold nxp_sched_next.
  rewrite Hh. destruct q as [| s r]; simpl; [eauto |].
  pose proof Hpres as Hpres'. apply Forall_cons_iff in Hpres' as [Hms _].
  rewrite (load_next_stored _ _ _ _ _ (stored_refl _) Hms). simpl.
  destruct (Hst s) as [st Hs]; [by left |]. rewrite Hs. simpl.
  assert (sched_ok (c <| sched_head := nx_of (links c) s |>) (r ++ [s])) as Hok'.
  { unfold sched_ok. simpl. split_and!; try (rewrite <- Permutation_cons_append; done).
    - by apply (ring_rotate _ _ [s] r).
    - simpl in Hr. destruct r as [| b r]; simpl in *; apply Hr.
    - intros a. by rewrite <- Permutation_cons_append. }
  destruct (sched_idle st); [| eauto].
  destruct (sched_remove_ok _ r [] s Hok') as (c' & -> & Hc' & Hd). simpl. rewrite app_nil_r in Hc'.
  simpl in Hd. eauto.
Qed.

Fixpoint sched_run (n : nat) (streams : gmap Z nxp_stream_s) (c : nxp_sched)
  : nxp_result (list (option Z) * nxp_sched) :=
  match n with
  | O => Done ([], c)
  | S n =>
      let! r := nxp_sched_next streams c in
      let! rs := sched_run n streams r.2 in
      Done (r.1 :: rs.1, rs.2)
  end.

Definition busy (streams : gmap Z nxp_stream_s) (s : Z) : bool :=
  negb (from_option sched_idle true (streams !! s)).

Lemma sched_run_ok streams q : forall done_ c, sched_ok c (q ++ done_) ->
  (forall a, In a (q ++ done_) -> is_Some (streams !! a)) ->
  exists c', sched_run (length q) streams c = Done (Some <$> q, c') /\
    sched_ok c' (done_ ++ List.filter (busy streams) q).
Proof.
  induction q as [| s q IH]; intros d c Hok Hst; simpl; [rewrite app_nil_r; eauto |].
  destruct (sched_next_ok streams c ((s :: q) ++ d) Hok Hst) as (c1 & -> & Hok1 & _). simpl in *.
  unfold busy at 1. destruct (from_option sched_idle true (streams !! s)); simpl.
  - destruct (IH d c1) as (c' & -> & Hok'); [done | auto |]. simpl. eauto.
  - rewrite <- app_assoc in Hok1. destruct (IH (d ++ [s]) c1 Hok1) as (c' & -> & Hok').
    + intros a Ha. apply Hst. rewrite !in_app_iff in *. simpl in *. tauto.
    + simpl. rewrite <- app_assoc in Hok'. eauto.
Qed.

(** the scheduler's circular list implements a queue of stream ids: adding
    enqueues a stream once, removing takes it out wherever it is, and the next
    stream is the front of the queue, which goes to the back if it still has
    data or an unsent FIN and leaves otherwise. *)
Theorem sched_refines_queue streams c q : sched_ok c q ->
  (forall a, In a q -> is_Some (streams !! a)) ->
  (forall s, is_Some (links c !! s) ->
    exists c', nxp_sched_add c s = Done c' /\ sched_ok c' (if decide (s ∈ q) then q else q ++ [s])) /\
  (forall q1 s q2, q = q1 ++ s :: q2 ->
    exists c', nxp_sched_remove c s = Done c' /\ sched_ok c' (q1 ++ q2)) /\
  (forall s, ~ In s q -> nxp_sched_remove c s = Done c) /\
  (exists c', nxp_sched_next streams c = Done (hd_error q, c') /\ sched_ok c' (rotate streams q)).
Proof.
  intros Hok Hst. split_and!.
  - intros s Hs. destruct (sched_add_ok c q s Hok Hs) as (? & ? & ? & _). eauto.
  - intros q1 s q2 ->. destruct (sched_remove_ok c q1 q2 s Hok) as (? & ? & ? & _). eauto.
  - intros s Hs. unfold nxp_sched_remove. destruct Hok as (_ & _ & _ & _ & Hsch).
    by rewrite bool_decide_false by (by rewrite Hsch).
  - destruct (sched_next_ok streams c q Hok Hst) as (? & ? & ? & _). eauto.
Qed.

(** no stream starves: as many calls as there are scheduled streams serve
    each of them exactly once, in order, and keep in the queue exactly those
    that still have something to send. *)
Theorem sched_round_robin streams c q : sched_ok c q ->
  (forall a, In a q -> is_Some (streams !! a)) ->
  exists c', sched_run (length q) streams c = Done (Some <$> q, c') /\
    sched_ok c' (List.filter (busy streams) q).
Proof.
  intros Hok Hst. destruct (sched_run_ok streams q [] c) as (c' & ? & ?); rewrite ?app_nil_r; eauto.
Qed.

(** Three streams, of which the second has nothing to send. *)
Definition sample_streams : gmap Z nxp_stream_s :=
  let busy := small_stream 4 9 <| send := send (small_stream 4 9) <| write_offset := 1 |> |> in
  <[0 := busy]> (<[4 := small_stream 4 9]> (<[8 := busy]> ∅)).

Definition sample_sched : nxp_sched :=
  Sched (Some 0)
    (<[0 := Node (Some 8) (Some 4)]> (<[4 := Node (Some 0) (Some 8)]>
      (<[8 := Node (Some 4) (Some 0)]> ∅)))
    {[0; 4; 8]}.

Lemma sample_sched_ok : sched_ok sample_sched [0; 4; 8].
Proof.
  unfold sched_ok. split_and!; try by_compute.
  - apply (bool_decide_unpack _). vm_compute. exact I.
  - repeat constructor; eexists; by vm_compute.
  - intros a. unfold sample_sched. simpl. rewrite !elem_of_union, !elem_of_singleton. intuition.
Qed.

Lemma sample_streams_ok a : In a [0; 4; 8] -> is_Some (sample_streams !! a).
Proof. intros [<- | [<- | [<- | []]]]; eexists; vm_compute; reflexivity. Qed.

Lemma sched_refines_queue_witness :
  exists c', nxp_sched_next sample_streams sample_sched = Done (Some 0, c') /\ sched_ok c' [4; 8; 0].
Proof. exact (proj2 (proj2 (proj2 (sched_refines_queue _ _ _ sample_sched_ok sample_streams_ok)))). Defined.

Lemma sched_round_robin_witness :
  exists c', sched_run 3 sample_streams sample_sched = Done ([Some 0; Some 4; Some 8], c') /\
    sched_ok c' [0; 8].
Proof. exact (sched_round_robin _ _ _ sample_sched_ok sample_streams_ok). Defined.
