(* ===== verification/HashMap.v ===== *)
(** * The Robin Hood hash map (src/util/hash_map.c)

    Open addressing with linear probing and backward-shift deletion, keyed by
    [uint64_t]; refines a finite map. *)

From stdpp Require Import gmap.
From S2P Require Import Prelude Types.

Definition NXP_HASH_MAP_LOAD_FACTOR : Z := 75.
Definition NXP_HASH_MAP_MIN_CAPACITY : Z := 16.

Definition next_power_of_2 (v : Z) : Z :=
  let v := u32 (v - 1) in
  let v := v ||| (v >>> 1) in
  let v := v ||| (v >>> 2) in
  let v := v ||| (v >>> 4) in
  let v := v ||| (v >>> 8) in
  let v := v ||| (v >>> 16) in
  u32 (v + 1).

(** [~key] is [UINT64_MAX - key]. *)
Definition hash_u64 (key : Z) : Z :=
  let key := u64 (UINT64_MAX - key + u64 (key <<< 21)) in
  let key := Z.lxor key (key >>> 24) in
  let key := u64 (u64 (key + u64 (key <<< 3)) + u64 (key <<< 8)) in
  let key := Z.lxor key (key >>> 14) in
  let key := u64 (u64 (key + u64 (key <<< 2)) + u64 (key <<< 4)) in
  let key := Z.lxor key (key >>> 28) in
  let key := u64 (key + u64 (key <<< 31)) in
  u32 key.

Section HashMap.
Context {V : Type}.

(** The null pointer is [None]. *)
Record nxp_hash_entry := Entry {
  key : Z;
  value : option V;
  psl : Z }.

Record nxp_hash_map := HashMap {
  entries : list nxp_hash_entry;
  capacity : Z;
  count : Z;
  mask : Z }.

Definition empty_entry : nxp_hash_entry := Entry 0 None 0.

(** [entries[idx]] and [entries[idx] = e] *)
Definition load (t : list nxp_hash_entry) (idx : Z) : nxp_result nxp_hash_entry :=
  if idx <? 0 then Ub else match t !! Z.to_nat idx with Some e => Done e | None => Ub end.
Definition store (t : list nxp_hash_entry) (idx : Z) (e : nxp_hash_entry)
  : nxp_result (list nxp_hash_entry) :=
  if (0 <=? idx) && (idx <? zlen t) then Done (<[Z.to_nat idx := e]> t) else Ub.

Definition nxp_hash_map_create (malloc_ok calloc_ok : bool) (initial_capacity : Z)
  : option nxp_hash_map :=
  let cap := if initial_capacity <? NXP_HASH_MAP_MIN_CAPACITY
             then NXP_HASH_MAP_MIN_CAPACITY else initial_capacity in
  let cap := next_power_of_2 cap in
  if negb malloc_ok then None else
  if negb calloc_ok then None else
  Some (HashMap (replicate (Z.to_nat cap) empty_entry) cap 0 (u32 (cap - 1))).

(** The probe loops take fuel; running out of it is non-termination, which the
    theorems exclude with as much fuel as slots. *)
Fixpoint reinsert (fuel : nat) (t : list nxp_hash_entry) (new_mask idx : Z) (entry : nxp_hash_entry)
  : nxp_result (list nxp_hash_entry) :=
  match fuel with
  | O => Ub
  | S fuel =>
      let! cur := load t idx in
      if psl cur =? 0 then store t idx entry else
      let! (t, entry) :=
        if psl cur <? psl entry then let! t := store t idx entry in Done (t, cur)
        else Done (t, entry) in
      reinsert fuel t new_mask (u32 (idx + 1) &&& new_mask)
        (Entry (key entry) (value entry) (u32 (psl entry + 1)))
  end.

Fixpoint reinsert_all (t new_t : list nxp_hash_entry) (new_mask : Z)
  : nxp_result (list nxp_hash_entry) :=
  match t with
  | [] => Done new_t
  | e :: t =>
      if psl e =? 0 then reinsert_all t new_t new_mask else
      let! new_t := reinsert (length new_t) new_t new_mask (hash_u64 (key e) &&& new_mask)
                      (Entry (key e) (value e) 1) in
      reinsert_all t new_t new_mask
  end.

(** [None] when the allocation fails. *)
Definition hash_map_resize (calloc_ok : bool) (m : nxp_hash_map) : nxp_result (option nxp_hash_map) :=
  let new_cap := u32 (capacity m * 2) in
  if negb calloc_ok then Done None else
  let new_mask := u32 (new_cap - 1) in
  let! t := reinsert_all (entries m) (replicate (Z.to_nat new_cap) empty_entry) new_mask in
  Done (Some (HashMap t new_cap (count m) new_mask)).

Fixpoint put_loop (fuel : nat) (m : nxp_hash_map) (k : Z) (v : option V) (idx : Z)
    (entry : nxp_hash_entry) : nxp_result (option V * nxp_hash_map) :=
  match fuel with
  | O => Ub
  | S fuel =>
      let! cur := load (entries m) idx in
      if psl cur =? 0 then
        let! t := store (entries m) idx entry in
        Done (None, HashMap t (capacity m) (u32 (count m + 1)) (mask m))
      else if key cur =? k then
        let! t := store (entries m) idx (Entry (key cur) v (psl cur)) in
        Done (value cur, HashMap t (capacity m) (count m) (mask m))
      else
        let! (t, entry) :=
          if psl cur <? psl entry then let! t := store (entries m) idx entry in Done (t, cur)
          else Done (entries m, entry) in
        put_loop fuel (HashMap t (capacity m) (count m) (mask m)) k v (u32 (idx + 1) &&& mask m)
          (Entry (key entry) (value entry) (u32 (psl entry + 1)))
  end.

Definition nxp_hash_map_put (calloc_ok : bool) (m : nxp_hash_map) (k : Z) (v : option V)
  : nxp_result (option V * nxp_hash_map) :=
  let! resized :=
    if u32 (count m * 100) >=? u32 (capacity m * NXP_HASH_MAP_LOAD_FACTOR)
    then hash_map_resize calloc_ok m else Done (Some m) in
  match resized with
  | None => Done (None, m)
  | Some m => put_loop (length (entries m)) m k v (hash_u64 k &&& mask m) (Entry k v 1)
  end.

(** The slot of a key, searched from [idx] with probe length [p]. *)
Fixpoint find_loop (fuel : nat) (m : nxp_hash_map) (k idx p : Z) : nxp_result (option Z) :=
  match fuel with
  | O => Ub
  | S fuel =>
      let! cur := load (entries m) idx in
      if psl cur =? 0 then Done None else
      if psl cur <? p then Done None else
      if key cur =? k then Done (Some idx) else
      find_loop fuel m k (u32 (idx + 1) &&& mask m) (u32 (p + 1))
  end.

Definition nxp_hash_map_get (m : nxp_hash_map) (k : Z) : nxp_result (option V) :=
  let! slot := find_loop (length (entries m)) m k (hash_u64 k &&& mask m) 1 in
  match slot with
  | None => Done None
  | Some idx => let! e := load (entries m) idx in Done (value e)
  end.

(** Backward shift deletion. *)
Fixpoint shift_loop (fuel : nat) (t : list nxp_hash_entry) (msk idx : Z)
  : nxp_result (list nxp_hash_entry) :=
  match fuel with
  | O => Ub
  | S fuel =>
      let next := u32 (idx + 1) &&& msk in
      let! n := load t next in
      if psl n <=? 1 then
        let! cur := load t idx in
        store t idx (Entry (key cur) None 0)
      else
        let! t := store t idx (Entry (key n) (value n) (u32 (psl n - 1))) in
        shift_loop fuel t msk next
  end.

Definition nxp_hash_map_remove (m : nxp_hash_map) (k : Z) : nxp_result (option V * nxp_hash_map) :=
  let! slot := find_loop (length (entries m)) m k (hash_u64 k &&& mask m) 1 in
  match slot with
  | None => Done (None, m)
  | Some idx =>
      let! old := load (entries m) idx in
      let! t := shift_loop (length (entries m)) (entries m) (mask m) idx in
      Done (value old, HashMap t (capacity m) (u32 (count m - 1)) (mask m))
  end.

Definition nxp_hash_map_contains (m : nxp_hash_map) (k : Z) : nxp_result bool :=
  let! v := nxp_hash_map_get m k in Done (match v with Some _ => true | None => false end).

(** [fn] threads the caller's data and says whether to go on. *)
Fixpoint foreach_loop {U} (fn : Z -> option V -> U -> bool * U) (t : list nxp_hash_entry) (user : U) : U :=
  match t with
  | [] => user
  | e :: t =>
      if psl e >? 0 then
        let '(go, user) := fn (key e) (value e) user in
        if negb go then user else foreach_loop fn t user
      else foreach_loop fn t user
  end.

Definition nxp_hash_map_foreach {U} (m : nxp_hash_map) (fn : Z -> option V -> U -> bool * U) (user : U) : U :=
  foreach_loop fn (entries m) user.

End HashMap.
Arguments nxp_hash_entry : clear implicits.
Arguments nxp_hash_map : clear implicits.

(** ** The circular table

    [ent t i] is the slot [i] modulo the size; the entries of a table are the
    key-value pairs of its occupied slots. *)

Section Table.
Context {V : Type}.
Implicit Types (t : list (nxp_hash_entry V)) (e : nxp_hash_entry V).

Definition slot t (i : Z) : nat := Z.to_nat (i mod zlen t).
Definition ent t (i : Z) : nxp_hash_entry V := nth (slot t i) t empty_entry.
Definition set t (i : Z) e := <[slot t i := e]> t.
Definition pr e : Z * option V := (key e, value e).
Definition pairs t : list (Z * option V) := pr <$> List.filter (fun e => 0 <? psl e) t.
Definition home t (k : Z) : Z := hash_u64 k mod zlen t.

(** Every entry is [psl - 1] slots after its home, probe lengths grow by at
    most one from slot to slot, and there are at least 16 slots. *)
Record robin_hood t : Prop := {
  rh_len : 16 <= zlen t <= 2 ^ 26;
  rh_pow : exists k, 0 <= k /\ zlen t = 2 ^ k;
  rh_nonneg : forall i, 0 <= psl (ent t i);
  rh_home : forall i, 0 < psl (ent t i) -> (i - psl (ent t i) + 1) mod zlen t = home t (key (ent t i));
  rh_step : forall i, psl (ent t (i + 1)) <= psl (ent t i) + 1 }.

Lemma slot_lt t i : 0 < zlen t -> (slot t i < length t)%nat.
Proof. intros. unfold slot, zlen in *. pose proof (Z.mod_pos_bound i (Z.of_nat (length t))). lia. Qed.

Lemma zlen_set t i e : zlen (set t i e) = zlen t.
Proof. unfold zlen, set. by rewrite length_insert. Qed.

Lemma home_set t i e k : home (set t i e) k = home t k.
Proof. unfold home. by rewrite zlen_set. Qed.

Lemma slot_eq t i j : 0 < zlen t -> slot t i = slot t j <-> i mod zlen t = j mod zlen t.
Proof.
  intros. unfold slot. pose proof (Z.mod_pos_bound i (zlen t)). pose proof (Z.mod_pos_bound j (zlen t)).
  split; [intros ?; lia | by intros ->].
Qed.

Lemma lookup_slot t i : 0 < zlen t -> t !! slot t i = Some (ent t i).
Proof.
  intros Hn. unfold ent. destruct (nth_lookup_or_length t (slot t i) empty_entry) as [? | Hl]; [done |].
  pose proof (slot_lt t i Hn). lia.
Qed.

Lemma mod_eq_shift a b n : 0 < n -> a mod n = b mod n <-> exists k, a = b + k * n.
Proof.
  intros Hn. split.
  - intros H. exists (a / n - b / n). rewrite (Z.div_mod a n), (Z.div_mod b n) at 1 by lia. rewrite H. lia.
  - intros [k ->]. apply Z.mod_add. lia.
Qed.

Lemma mod_eq_add a b c n : 0 < n -> a mod n = b mod n -> (a + c) mod n = (b + c) mod n.
Proof. intros Hn [k ->]%mod_eq_shift; [| done]. apply mod_eq_shift; [done |]. exists k. lia. Qed.

Lemma mod_near a b n : 0 < n -> a mod n = b mod n -> - n < a - b < n -> a = b.
Proof. intros Hn [k ->]%mod_eq_shift Hab; [| done]. assert (k = 0) as -> by nia. lia. Qed.

Lemma ent_mod t i j : i mod zlen t = j mod zlen t -> ent t i = ent t j.
Proof. intros H. unfold ent, slot. by rewrite H. Qed.

Lemma ent_set t i e j : 0 < zlen t ->
  ent (set t i e) j = if decide (j mod zlen t = i mod zlen t) then e else ent t j.
Proof.
  intros Hn. pose proof (slot_lt t i Hn) as Hlt.
  pose proof (lookup_slot (set t i e) j ltac:(by rewrite zlen_set)) as Hl.
  assert (slot (set t i e) j = slot t j) as Hs by (unfold slot; by rewrite zlen_set).
  rewrite Hs in Hl. unfold set in Hl at 1. case_decide as Hij.
  - rewrite (proj2 (slot_eq t j i Hn) Hij), list_lookup_insert_eq in Hl by done. by injection Hl.
  - rewrite list_lookup_insert_ne, lookup_slot in Hl; [by injection Hl | done |].
    intros H%slot_eq; [congruence | done].
Qed.

Lemma ent_set_eq t i e : 0 < zlen t -> ent (set t i e) i = e.
Proof. intros. by rewrite ent_set, decide_True. Qed.

Lemma ent_set_near t i e j : 0 < zlen t -> - zlen t < j - i < zlen t -> j <> i ->
  ent (set t i e) j = ent t j.
Proof. intros. rewrite ent_set, decide_False; [done | | done]. by intros ?%mod_near. Qed.

Lemma load_ent t i : 0 < zlen t -> load t (i mod zlen t) = Done (ent t i).
Proof.
  intros Hn. unfold load. pose proof (Z.mod_pos_bound i (zlen t) Hn).
  rewrite (proj2 (Z.ltb_ge _ _)) by lia. fold (slot t i). by rewrite lookup_slot.
Qed.

Lemma store_set t i e : 0 < zlen t -> store t (i mod zlen t) e = Done (set t i e).
Proof.
  intros Hn. unfold store. pose proof (Z.mod_pos_bound i (zlen t) Hn).
  rewrite (proj2 (Z.leb_le _ _)), (proj2 (Z.ltb_lt _ _)) by lia. done.
Qed.

Lemma next_slot t i : robin_hood t -> u32 (i mod zlen t + 1) &&& (zlen t - 1) = (i + 1) mod zlen t.
Proof.
  intros Hrh. pose proof (rh_len t Hrh). destruct (rh_pow t Hrh) as (k & Hk & Hn).
  pose proof (Z.mod_pos_bound i (zlen t)). rewrite u32_small by lia.
  rewrite Hn at 2. rewrite land_ones_mod, <- Hn by done. by rewrite Zplus_mod_idemp_l.
Qed.

Lemma home_slot t k : robin_hood t -> hash_u64 k &&& (zlen t - 1) = home t k.
Proof.
  intros Hrh. destruct (rh_pow t Hrh) as (q & Hq & Hn). unfold home. rewrite Hn.
  by apply land_ones_mod.
Qed.

(** ** Updates and the pairs of a table *)

Definition opt e : list (Z * option V) := if 0 <? psl e then [pr e] else [].

Lemma pairs_app t1 t2 : pairs (t1 ++ t2) = pairs t1 ++ pairs t2.
Proof. unfold pairs. by rewrite List.filter_app, fmap_app. Qed.

Lemma pairs_cons e t : pairs (e :: t) = opt e ++ pairs t.
Proof. unfold pairs, opt. simpl. by destruct (0 <? psl e). Qed.

Lemma pairs_set t i e : 0 < zlen t -> opt (ent t i) ++ pairs (set t i e) ≡ₚ opt e ++ pairs t.
Proof.
  intros Hn. pose proof (slot_lt t i Hn) as Hs. unfold set.
  rewrite insert_take_drop by done.
  pose proof (take_drop_middle t (slot t i) (ent t i) (lookup_slot t i Hn)) as Ht.
  apply (f_equal pairs) in Ht. rewrite pairs_app, pairs_cons in Ht. rewrite <- Ht.
  rewrite pairs_app, pairs_cons.
  generalize (opt (ent t i)) (opt e) (pairs (take (slot t i) t)) (pairs (drop (S (slot t i)) t)).
  intros a b l r. rewrite (Permutation_app_swap_app l b), (Permutation_app_swap_app l a).
  apply Permutation_app_swap_app.
Qed.

Lemma robin_hood_set t i e : robin_hood t -> 0 <= psl e ->
  (0 < psl e -> (i - psl e + 1) mod zlen t = home t (key e)) ->
  psl e <= psl (ent t (i - 1)) + 1 -> psl (ent t (i + 1)) <= psl e + 1 ->
  robin_hood (set t i e).
Proof.
  intros Hrh H0 Hh Hl Hr. pose proof (rh_len t Hrh).
  split; rewrite ?zlen_set; try intros j; rewrite ?home_set, ?ent_set by lia.
  - apply (rh_len t Hrh).
  - apply (rh_pow t Hrh).
  - case_decide; [done | apply (rh_nonneg t Hrh)].
  - case_decide as Hj; [| apply (rh_home t Hrh)]. intros Hp.
    rewrite <- Hh by done.
    replace (j - psl e + 1) with (j + (1 - psl e)) by lia.
    replace (i - psl e + 1) with (i + (1 - psl e)) by lia. by apply mod_eq_add; [lia |].
  - case_decide as Hj1; case_decide as Hj; [lia | | | apply (rh_step t Hrh)].
    + rewrite (ent_mod t j (i - 1)); [lia |].
      replace j with (j + 1 + -1) by lia. replace (i - 1) with (i + -1) by lia.
      by apply mod_eq_add; [lia |].
    + rewrite (ent_mod t (j + 1) (i + 1)); [lia |]. by apply mod_eq_add; [lia |].
Qed.

(** ** Free slots *)

Lemma psl_from_free t x n : robin_hood t -> psl (ent t x) = 0 -> 0 <= n -> psl (ent t (x + n)) <= n.
Proof.
  intros Hrh Hx. revert n. apply (natlike_ind (fun n => psl (ent t (x + n)) <= n)).
  - rewrite Z.add_0_r. lia.
  - intros n Hn IH. pose proof (rh_step t Hrh (x + n)).
    replace (x + Z.succ n) with (x + n + 1) by lia. lia.
Qed.

Lemma psl_bound t x i : robin_hood t -> psl (ent t x) = 0 -> psl (ent t i) < zlen t.
Proof.
  intros Hrh Hx. pose proof (rh_len t Hrh).
  pose proof (psl_from_free t x ((i - x) mod zlen t) Hrh Hx) as Hp.
  pose proof (Z.mod_pos_bound (i - x) (zlen t)).
  rewrite (ent_mod t i (x + (i - x) mod zlen t)); [lia |].
  rewrite Zplus_mod_idemp_r. f_equal. lia.
Qed.

(** The first free slot at or after [i] is [d] slots away. *)
Definition free_at t i d : Prop :=
  0 <= d < zlen t /\ psl (ent t (i + d)) = 0 /\ (forall j, 0 <= j < d -> 0 < psl (ent t (i + j))).

Lemma unfilled t : zlen (pairs t) < zlen t -> exists i e, t !! i = Some e /\ psl e <= 0.
Proof.
  induction t as [| e t IH]; [done |]. rewrite pairs_cons. unfold opt.
  destruct (Z.ltb_spec 0 (psl e)); [| by exists 0%nat, e].
  rewrite zlen_app, !zlen_cons, zlen_nil. intros Hl. destruct IH as (i & e' & ? & ?); [lia |]. by exists (S i), e'.
Qed.

Lemma free_slot t : robin_hood t -> zlen (pairs t) < zlen t -> exists x, psl (ent t x) = 0.
Proof.
  intros Hrh (i & e & Hi & He)%unfilled. pose proof (rh_len t Hrh). exists (Z.of_nat i).
  pose proof (rh_nonneg t Hrh (Z.of_nat i)). apply lookup_lt_Some in Hi as Hlt.
  assert (ent t (Z.of_nat i) = e) as <-; [| lia].
  unfold ent, slot. rewrite Z.mod_small by (unfold zlen; lia). rewrite Nat2Z.id.
  by apply nth_lookup_Some.
Qed.

Lemma first_free t i : robin_hood t -> zlen (pairs t) < zlen t -> exists d, free_at t i d.
Proof.
  intros Hrh Hl. pose proof (rh_len t Hrh). destruct (free_slot t Hrh Hl) as [x Hx].
  assert (psl (ent t (i + (x - i) mod zlen t)) = 0) as H0.
  { rewrite (ent_mod t _ x); [done |]. rewrite Zplus_mod_idemp_r. f_equal. lia. }
  pose proof (Z.mod_pos_bound (x - i) (zlen t)).
  assert (forall n, 0 <= n -> (exists d, 0 <= d < n /\ free_at t i d) \/
    (forall j, 0 <= j < n -> 0 < psl (ent t (i + j))) \/ zlen t < n) as Hsearch.
  { apply natlike_ind; [right; left; lia |]. intros n Hn [(d & ? & ?) | [Hj | ?]].
    - left. exists d. split; [lia | done].
    - destruct (Z.eq_dec (psl (ent t (i + n))) 0) as [Hz | Hz].
      + destruct (Z.lt_ge_cases n (zlen t)).
        * left. exists n. split; [lia |]. done.
        * right. right. lia.
      + right. left. intros j Hjn. pose proof (rh_nonneg t Hrh (i + j)).
        destruct (Z.eq_dec j n) as [-> | ?]; [lia |]. apply Hj. lia.
    - right. right. lia. }
  destruct (Hsearch (zlen t)) as [(d & _ & ?) | [Hj | ?]]; [lia | by exists d | | lia].
  specialize (Hj ((x - i) mod zlen t)). lia.
Qed.

(** ** Insertion *)

(** An entry carried to slot [i] by a probe. *)
Definition carried t i e : Prop :=
  1 <= psl e /\ (i - psl e + 1) mod zlen t = home t (key e) /\ psl e <= psl (ent t (i - 1)) + 1.

Lemma free_at_next t i d e : 0 < d -> free_at t i d -> free_at (set t i e) (i + 1) (d - 1).
Proof.
  intros Hd (Hr & H0 & Hocc). unfold free_at. rewrite zlen_set.
  replace (i + 1 + (d - 1)) with (i + d) by lia. rewrite ent_set_near by lia.
  split_and!; [lia | lia | done |]. intros j Hj. rewrite ent_set_near by lia.
  replace (i + 1 + j) with (i + (j + 1)) by lia. apply Hocc. lia.
Qed.

Lemma free_at_skip t i d : 0 < d -> free_at t i d -> free_at t (i + 1) (d - 1).
Proof.
  intros Hd (Hr & H0 & Hocc). unfold free_at. replace (i + 1 + (d - 1)) with (i + d) by lia.
  split_and!; [lia | lia | done |]. intros j Hj.
  replace (i + 1 + j) with (i + (j + 1)) by lia. apply Hocc. lia.
Qed.

Lemma carried_next t i e k v : robin_hood t -> 1 <= psl e -> psl e <= zlen t ->
  (i - psl e + 1) mod zlen t = home t k -> psl e <= psl (ent t i) ->
  carried t (i + 1) (Entry k v (u32 (psl e + 1))).
Proof.
  intros Hrh Hp Hle Hh Hpsl. pose proof (rh_len t Hrh). unfold carried. simpl.
  rewrite u32_small by lia. replace (i + 1 - 1) with i by lia. split_and!; [lia | | lia].
  rewrite <- Hh. f_equal. lia.
Qed.

Lemma reinsert_spec t : forall fuel i d e, robin_hood t -> carried t i e -> free_at t i d ->
  (Z.to_nat d < fuel)%nat ->
  exists t', reinsert fuel t (zlen t - 1) (i mod zlen t) e = Done t' /\ robin_hood t' /\
    zlen t' = zlen t /\ pairs t' ≡ₚ pr e :: pairs t.
Proof.
  intros fuel. revert t. induction fuel as [| fuel IH]; [lia |].
  intros t i d e Hrh (He & Hh & Hp) Hfree Hf. pose proof (rh_len t Hrh) as Hn.
  pose proof Hfree as (Hd & H0 & Hocc). simpl. rewrite load_ent by lia. simpl.
  pose proof (pairs_set t i e ltac:(lia)) as Hps. unfold opt in Hps at 2.
  rewrite (proj2 (Z.ltb_lt 0 (psl e))) in Hps by lia. unfold opt in Hps.
  pose proof (rh_step t Hrh i) as Hst. pose proof (psl_bound t (i + d) (i - 1) Hrh H0) as Hb.
  destruct (Z.eqb_spec (psl (ent t i)) 0) as [Hz | Hz].
  { rewrite store_set by lia. rewrite (proj2 (Z.ltb_ge _ _)) in Hps by lia.
    eexists. split_and!; [done | | by rewrite zlen_set | done].
    apply robin_hood_set; (done || lia). }
  assert (0 < d) as Hd0.
  { destruct (Z.eq_dec d 0) as [-> | ?]; [rewrite Z.add_0_r in H0; lia | lia]. }
  pose proof (rh_nonneg t Hrh i). rewrite (proj2 (Z.ltb_lt 0 (psl (ent t i)))) in Hps by lia.
  rewrite next_slot by done. destruct (Z.ltb_spec (psl (ent t i)) (psl e)) as [Hswap | Hkeep].
  - rewrite store_set by lia. simpl. pose proof (rh_home t Hrh i ltac:(lia)) as Hhc.
    assert (robin_hood (set t i e)) as Hrh' by (apply robin_hood_set; (done || lia)).
    destruct (IH (set t i e) (i + 1) (d - 1)
      (Entry (key (ent t i)) (value (ent t i)) (u32 (psl (ent t i) + 1)))) as (t' & Ht' & ? & Hz' & Hps');
      [done | | by apply free_at_next | lia |].
    + apply carried_next; rewrite ?zlen_set, ?home_set, ?ent_set_eq by lia; (done || lia).
    + rewrite zlen_set in Ht', Hz'. exists t'. split_and!; try done. by rewrite Hps', <- Hps.
  - simpl. destruct (IH t (i + 1) (d - 1) (Entry (key e) (value e) (u32 (psl e + 1))))
      as (t' & Ht' & ? & ? & ?); [done | | by apply free_at_skip | lia |].
    + apply carried_next; (done || lia).
    + by exists t'.
Qed.

(** ** Search *)

Definition held t (k : Z) : Prop := exists i, 0 < psl (ent t i) /\ key (ent t i) = k.

Lemma in_pairs t k v : 0 < zlen t ->
  (k, v) ∈ pairs t <-> exists i, 0 < psl (ent t i) /\ key (ent t i) = k /\ value (ent t i) = v.
Proof.
  intros Hn. rewrite list_elem_of_In. unfold pairs. rewrite in_map_iff. split.
  - intros (e & [= <- <-] & [Hin He]%filter_In). apply list_elem_of_In in Hin.
    apply list_elem_of_lookup in Hin as [j Hj]. apply lookup_lt_Some in Hj as Hlt.
    assert (ent t (Z.of_nat j) = e) as Hej.
    { unfold ent, slot. rewrite Z.mod_small by (unfold zlen; lia). rewrite Nat2Z.id.
      by apply nth_lookup_Some. }
    exists (Z.of_nat j). rewrite Hej. apply Z.ltb_lt in He. done.
  - intros (i & Hp & <- & <-). exists (ent t i). split; [done |]. apply filter_In.
    split; [| by apply Z.ltb_lt]. apply list_elem_of_In, list_elem_of_lookup. exists (slot t i).
    by apply lookup_slot.
Qed.

(** The probe from the home of a held key meets no shorter probe length. *)
Lemma psl_before t s j : robin_hood t -> 0 <= j -> psl (ent t s) - j <= psl (ent t (s - j)).
Proof.
  intros Hrh. revert j. apply (natlike_ind (fun j => psl (ent t s) - j <= psl (ent t (s - j)))).
  - rewrite !Z.sub_0_r. lia.
  - intros j Hj IH. pose proof (rh_step t Hrh (s - Z.succ j)) as Hst.
    replace (s - Z.succ j + 1) with (s - j) in Hst by lia. lia.
Qed.

Definition shaped (m : nxp_hash_map V) : Prop :=
  robin_hood (entries m) /\ capacity m = zlen (entries m) /\ mask m = zlen (entries m) - 1.

Lemma find_present m k s : forall fuel c, shaped m -> key (ent (entries m) s) = k ->
  1 <= c <= psl (ent (entries m) s) -> psl (ent (entries m) s) < zlen (entries m) ->
  (Z.to_nat (psl (ent (entries m) s) - c) < fuel)%nat ->
  exists i, find_loop fuel m k ((s - psl (ent (entries m) s) + c) mod zlen (entries m)) c
      = Done (Some (i mod zlen (entries m))) /\
    0 < psl (ent (entries m) i) /\ key (ent (entries m) i) = k.
Proof.
  set (t := entries m). induction fuel as [| fuel IH]; [lia |].
  intros c (Hrh & Hcap & Hmask) Hk Hc Hq Hf. fold t in Hrh, Hcap, Hmask.
  pose proof (rh_len t Hrh). set (q := psl (ent t s)) in *.
  pose proof (psl_before t s (q - c) Hrh ltac:(lia)) as Hb. fold q in Hb.
  replace (s - (q - c)) with (s - q + c) in Hb by lia. simpl.
  fold t. rewrite load_ent by lia. simpl.
  rewrite (proj2 (Z.eqb_neq _ 0)), (proj2 (Z.ltb_ge _ c)) by lia.
  destruct (Z.eqb_spec (key (ent t (s - q + c))) k) as [Hkey | Hkey].
  { exists (s - q + c). split_and!; (done || lia). }
  assert (c < q) by (destruct (Z.eq_dec c q) as [-> | ?]; [| lia]; exfalso; apply Hkey;
    by replace (s - q + q) with s by lia).
  rewrite Hmask, next_slot by done. rewrite u32_small by lia.
  destruct (IH (c + 1)) as (i & Hi & ? & ?); [done | done | lia | done | lia |].
  exists i. fold t in Hi. replace (s - q + c + 1) with (s - q + (c + 1)) by lia. done.
Qed.

Lemma find_absent m k : forall fuel i d p, shaped m -> ~ held (entries m) k ->
  free_at (entries m) i d -> 1 <= p -> p + d < 2 ^ 32 -> (Z.to_nat d < fuel)%nat ->
  find_loop fuel m k (i mod zlen (entries m)) p = Done None.
Proof.
  set (t := entries m). induction fuel as [| fuel IH]; [lia |].
  intros i d p (Hrh & Hcap & Hmask) Hk Hfree Hp Hpd Hf. fold t in Hrh, Hcap, Hmask.
  pose proof (rh_len t Hrh). pose proof Hfree as (Hd & H0 & Hocc). simpl.
  fold t. rewrite load_ent by lia. simpl.
  destruct (Z.eqb_spec (psl (ent t i)) 0) as [Hz | Hz]; [done |].
  destruct (psl (ent t i) <? p); [done |]. pose proof (rh_nonneg t Hrh i).
  destruct (Z.eqb_spec (key (ent t i)) k) as [Hkey | _].
  { exfalso. apply Hk. exists i. split; [lia | done]. }
  assert (0 < d) as Hd0.
  { destruct (Z.eq_dec d 0) as [-> | ?]; [rewrite Z.add_0_r in H0; lia | lia]. }
  rewrite Hmask, next_slot, u32_small by (done || lia).
  apply (IH (i + 1) (d - 1)); [done | done | by apply free_at_skip | lia | lia | lia].
Qed.

(** Searching from the home slot finds a held key, and only a held key. *)
Lemma find_spec m k : shaped m -> zlen (pairs (entries m)) < zlen (entries m) ->
  exists r, find_loop (length (entries m)) m k (hash_u64 k &&& mask m) 1 = Done r /\
    match r with
    | Some idx => exists i, idx = i mod zlen (entries m) /\
        0 < psl (ent (entries m) i) /\ key (ent (entries m) i) = k
    | None => ~ held (entries m) k
    end.
Proof.
  intros Hsh Hlt. pose proof Hsh as (Hrh & _ & Hmask). set (t := entries m) in *.
  pose proof (rh_len t Hrh) as Hn. rewrite Hmask, home_slot by done.
  destruct (decide (k ∈ (pairs t).*1)) as [Hin | Hin].
  - apply list_elem_of_fmap in Hin as ([k' v] & -> & Hin). simpl.
    apply in_pairs in Hin as (s & Hp & Hk & Hv); [| lia].
    destruct (free_slot t Hrh Hlt) as [x Hx]. pose proof (psl_bound t x s Hrh Hx) as Hb.
    destruct (find_present m k' s (length t) 1 Hsh Hk) as (i & Hi & ? & ?); fold t; [lia | lia | |].
    { unfold zlen in Hb. lia. }
    fold t in Hi. rewrite (rh_home t Hrh s Hp), Hk in Hi. eexists. split; [exact Hi |]. by exists i.
  - assert (~ held t k) as Hh.
    { intros (i & Hp & Hk). apply Hin, list_elem_of_fmap. exists (k, value (ent t i)).
      split; [done |]. apply in_pairs; [lia |]. by exists i. }
    destruct (first_free t (home t k) Hrh Hlt) as [d Hd]. exists None. split; [| done].
    assert (home t k = home t k mod zlen t) as -> by (unfold home; by rewrite Zmod_mod).
    apply (find_absent m k _ _ d); try done; destruct Hd as [Hd _]; [lia |]. unfold zlen in Hd. lia.
Qed.

(** ** Update and insertion of a key *)

Definition with_entries (m : nxp_hash_map V) t (n : Z) : nxp_hash_map V :=
  HashMap t (capacity m) n (mask m).

Lemma put_present m k v s : forall fuel c, shaped m -> key (ent (entries m) s) = k ->
  1 <= c <= psl (ent (entries m) s) -> psl (ent (entries m) s) < zlen (entries m) ->
  (Z.to_nat (psl (ent (entries m) s) - c) < fuel)%nat ->
  exists i, put_loop fuel m k v ((s - psl (ent (entries m) s) + c) mod zlen (entries m)) (Entry k v c)
      = Done (value (ent (entries m) i), with_entries m
          (set (entries m) i (Entry k v (psl (ent (entries m) i)))) (count m)) /\
    0 < psl (ent (entries m) i) /\ key (ent (entries m) i) = k.
Proof.
  set (t := entries m). induction fuel as [| fuel IH]; [lia |].
  intros c (Hrh & Hcap & Hmask) Hk Hc Hq Hf. fold t in Hrh, Hcap, Hmask.
  pose proof (rh_len t Hrh). set (q := psl (ent t s)) in *.
  pose proof (psl_before t s (q - c) Hrh ltac:(lia)) as Hb. fold q in Hb.
  replace (s - (q - c)) with (s - q + c) in Hb by lia. simpl. fold t. rewrite load_ent by lia. simpl.
  rewrite (proj2 (Z.eqb_neq _ 0)), (proj2 (Z.ltb_ge _ c)) by lia.
  destruct (Z.eqb_spec (key (ent t (s - q + c))) k) as [Hkey | Hkey].
  { rewrite store_set, Hkey by lia. exists (s - q + c). split_and!; (done || lia). }
  assert (c < q) by (destruct (Z.eq_dec c q) as [-> | ?]; [| lia]; exfalso; apply Hkey;
    by replace (s - q + q) with s by lia).
  simpl. rewrite Hmask, next_slot by done. rewrite u32_small by lia.
  replace (HashMap t (capacity m) (count m) (zlen t - 1)) with m by (rewrite <- Hmask; by destruct m).
  destruct (IH (c + 1)) as (i & Hi & ? & ?); [done | done | lia | done | lia |].
  exists i. fold t in Hi. replace (s - q + c + 1) with (s - q + (c + 1)) by lia. done.
Qed.

(** While the probe does not meet the key, insertion is reinsertion. *)
Lemma put_is_reinsert k v : forall fuel m i d e, shaped m -> free_at (entries m) i d ->
  carried (entries m) i e ->
  (forall j, 0 <= j < d -> key (ent (entries m) (i + j)) <> k) ->
  put_loop fuel m k v (i mod zlen (entries m)) e =
    (let! t := reinsert fuel (entries m) (mask m) (i mod zlen (entries m)) e in
     Done (None, with_entries m t (u32 (count m + 1)))).
Proof.
  induction fuel as [| fuel IH]; [done |].
  intros m i d e (Hrh & Hcap & Hmask) Hfree (He & Hh & Hp) Hkeys. simpl.
  set (t := entries m) in *. pose proof (rh_len t Hrh). rewrite load_ent by lia. simpl.
  pose proof Hfree as (Hd & H0 & Hocc). pose proof (rh_step t Hrh i) as Hst.
  pose proof (psl_bound t (i + d) (i - 1) Hrh H0) as Hb.
  destruct (Z.eqb_spec (psl (ent t i)) 0) as [Hz | Hz]; [by rewrite store_set by lia |].
  assert (0 < d) as Hd0.
  { destruct (Z.eq_dec d 0) as [-> | ?]; [rewrite Z.add_0_r in H0; lia | lia]. }
  rewrite (proj2 (Z.eqb_neq _ k)) by (specialize (Hkeys 0); rewrite Z.add_0_r in Hkeys; apply Hkeys; lia).
  pose proof (rh_nonneg t Hrh i). rewrite Hmask, next_slot by done.
  destruct (Z.ltb_spec (psl (ent t i)) (psl e)) as [Hswap | Hkeep].
  - rewrite store_set by lia. simpl. pose proof (rh_home t Hrh i ltac:(lia)) as Hhc.
    assert (robin_hood (set t i e)) as Hrh' by (apply robin_hood_set; (done || lia)).
    pose proof (IH (HashMap (set t i e) (capacity m) (count m) (zlen t - 1)) (i + 1) (d - 1)
      (Entry (key (ent t i)) (value (ent t i)) (u32 (psl (ent t i) + 1)))) as IH'.
    simpl in IH'. rewrite zlen_set in IH'. rewrite IH'; [unfold with_entries; simpl; by rewrite Hmask | | by apply free_at_next | |].
    + unfold shaped. simpl. by rewrite zlen_set.
    + apply carried_next; rewrite ?zlen_set, ?home_set, ?ent_set_eq by lia; (done || lia).
    + intros j Hj. rewrite ent_set_near by lia. replace (i + 1 + j) with (i + (j + 1)) by lia.
      apply Hkeys. lia.
  - simpl. rewrite (IH (HashMap t (capacity m) (count m) (zlen t - 1)) (i + 1) (d - 1));
      [unfold with_entries; simpl; by rewrite Hmask | done | by apply free_at_skip | |].
    + simpl; apply carried_next; (done || lia).
    + intros j Hj. simpl. replace (i + 1 + j) with (i + (j + 1)) by lia. apply Hkeys. lia.
Qed.

(** ** Deletion *)

Lemma shift_spec : forall fuel t i d, robin_hood t -> 0 < psl (ent t i) -> free_at t i d ->
  (Z.to_nat d <= fuel)%nat ->
  exists t', shift_loop fuel t (zlen t - 1) (i mod zlen t) = Done t' /\ robin_hood t' /\
    zlen t' = zlen t /\ pr (ent t i) :: pairs t' ≡ₚ pairs t.
Proof.
  induction fuel as [| fuel IH]; intros t i d Hrh Hi Hfree Hf; pose proof Hfree as (Hd & H0 & Hocc);
    (destruct (Z.eq_dec d 0) as [-> | Hd0]; [rewrite Z.add_0_r in H0; lia |]); [lia |].
  pose proof (rh_len t Hrh) as Hn. simpl. rewrite next_slot, load_ent by (done || lia). simpl.
  pose proof (rh_step t Hrh i). pose proof (rh_step t Hrh (i - 1)) as Hst.
  replace (i - 1 + 1) with i in Hst by lia.
  destruct (Z.leb_spec (psl (ent t (i + 1))) 1) as [Hend | Hmove].
  - rewrite load_ent by lia. simpl. rewrite store_set by lia. eexists.
    split_and!; [done | | by rewrite zlen_set |].
    + pose proof (rh_nonneg t Hrh (i - 1)). apply robin_hood_set; simpl; (done || lia).
    + pose proof (pairs_set t i (Entry (key (ent t i)) None 0) ltac:(lia)) as Hps.
      unfold opt in Hps. by rewrite (proj2 (Z.ltb_lt 0 (psl (ent t i)))) in Hps by lia.
  - rewrite store_set by lia. simpl.
    pose proof (psl_bound t (i + d) (i + 1) Hrh H0) as Hb. rewrite u32_small by lia.
    set (e := Entry (key (ent t (i + 1))) (value (ent t (i + 1))) (psl (ent t (i + 1)) - 1)).
    assert (robin_hood (set t i e)) as Hrh'.
    { apply robin_hood_set; simpl; try (done || lia). intros _.
      rewrite <- (rh_home t Hrh (i + 1)) by lia. f_equal. lia. }
    assert (ent (set t i e) (i + 1) = ent t (i + 1)) as He by (apply ent_set_near; lia).
    destruct (IH (set t i e) (i + 1) (d - 1)) as (t' & Ht' & ? & Hz' & Hps'); rewrite ?He; try lia;
      [done | apply free_at_next; [lia | done] |].
    rewrite zlen_set in Ht', Hz'. exists t'. split_and!; try done. rewrite He in Hps'.
    pose proof (pairs_set t i e ltac:(lia)) as Hps. unfold opt in Hps.
    rewrite (proj2 (Z.ltb_lt 0 (psl (ent t i)))), (proj2 (Z.ltb_lt 0 (psl e))) in Hps by (simpl; lia).
    apply (Permutation_cons_inv (a := pr (ent t (i + 1)))).
    rewrite Permutation_swap, Hps'. exact Hps.
Qed.

End Table.

(** ** Growing *)

Section Resize.
Context {V : Type}.
Implicit Types (t : list (nxp_hash_entry V)).

Lemma ent_replicate n i : 0 < n -> ent (replicate (Z.to_nat n) (@empty_entry V)) i = empty_entry.
Proof.
  intros Hn. pose proof (lookup_slot (replicate (Z.to_nat n) (@empty_entry V)) i) as Hl.
  rewrite lookup_replicate in Hl. apply Hl. rewrite zlen_replicate. lia.
Qed.

Lemma pairs_replicate n : pairs (replicate n (@empty_entry V)) = [].
Proof. by induction n. Qed.

Lemma robin_hood_empty k : 4 <= k <= 26 -> robin_hood (replicate (Z.to_nat (2 ^ k)) (@empty_entry V)).
Proof.
  intros Hk. pose proof (Z.pow_le_mono_r 2 4 k ltac:(lia) ltac:(lia)) as H1.
  pose proof (Z.pow_le_mono_r 2 k 26 ltac:(lia) ltac:(lia)) as H2.
  change (2 ^ 4) with 16 in H1.
  assert (zlen (replicate (Z.to_nat (2 ^ k)) (@empty_entry V)) = 2 ^ k) as Hz
    by (rewrite zlen_replicate; lia).
  split; rewrite ?Hz; [lia | exists k; split; [lia | done] |..]; intros i;
    rewrite ?ent_replicate by lia; simpl; lia.
Qed.

Lemma reinsert_all_spec : forall t nt, robin_hood nt -> Forall (fun e => 0 <= psl e) t ->
  zlen (pairs t) + zlen (pairs nt) < zlen nt ->
  exists nt', reinsert_all t nt (zlen nt - 1) = Done nt' /\ robin_hood nt' /\ zlen nt' = zlen nt /\
    pairs nt' ≡ₚ pairs t ++ pairs nt.
Proof.
  induction t as [| e t IH]; intros nt Hrh Hnn Hlt; simpl.
  { eexists. split_and!; done. }
  apply Forall_cons_iff in Hnn as [He Hnn]. rewrite pairs_cons, zlen_app in Hlt.
  pose proof (zlen_nonneg (pairs t)). unfold opt in Hlt. rewrite pairs_cons. unfold opt.
  destruct (Z.eqb_spec (psl e) 0) as [Hz | Hz].
  { rewrite (proj2 (Z.ltb_ge _ _)) in * by lia. apply IH; [done | done | done]. }
  rewrite (proj2 (Z.ltb_lt 0 (psl e))) in * by lia. rewrite zlen_cons, zlen_nil in Hlt.
  destruct (first_free nt (home nt (key e)) Hrh) as [d Hd]; [lia |].
  pose proof (rh_len nt Hrh). rewrite home_slot by done.
  assert (home nt (key e) = home nt (key e) mod zlen nt) as Hm by (unfold home; by rewrite Zmod_mod).
  destruct (reinsert_spec nt (length nt) (home nt (key e)) d (Entry (key e) (value e) 1) Hrh)
    as (t1 & Ht1 & Hrh1 & Hz1 & Hp1).
  { unfold carried. simpl. pose proof (rh_nonneg nt Hrh (home nt (key e) - 1)).
    split_and!; [lia | | lia]. rewrite Hm at 2. f_equal. lia. }
  { done. }
  { destruct Hd as [Hd _]. unfold zlen in Hd. lia. }
  rewrite Hm, Ht1. simpl. rewrite <- Hz1.
  destruct (IH t1 Hrh1 Hnn) as (t2 & ? & ? & ? & Hp2).
  { rewrite Hz1. unfold zlen in *. rewrite Hp1. simpl. lia. }
  exists t2. split_and!; try done. rewrite Hp2, Hp1.
  symmetry. apply Permutation_middle.
Qed.

End Resize.

(** ** Refinement to finite maps *)

Section Refinement.
Context {V : Type}.
Implicit Types (m : nxp_hash_map V) (M : gmap Z (option V)).

Definition map_ok m M : Prop :=
  shaped m /\ NoDup (pairs (entries m)).*1 /\ list_to_map (pairs (entries m)) = M /\
  count m = zlen (pairs (entries m)) /\ count m * 100 <= capacity m * NXP_HASH_MAP_LOAD_FACTOR.

Lemma map_ok_room m M : map_ok m M -> zlen (pairs (entries m)) < zlen (entries m).
Proof.
  intros ((Hrh & Hcap & _) & _ & _ & Hc & Hl). pose proof (rh_len _ Hrh).
  unfold NXP_HASH_MAP_LOAD_FACTOR in Hl. lia.
Qed.

(** Two tables with the same pairs represent the same map. *)
Lemma map_ok_perm m m' M : map_ok m M -> shaped m' -> pairs (entries m') ≡ₚ pairs (entries m) ->
  count m' = count m -> capacity m <= capacity m' -> map_ok m' M.
Proof.
  intros (_ & Hnd & HM & Hc & Hl) Hsh Hp Hcnt Hcap. unfold map_ok.
  assert (NoDup (pairs (entries m')).*1) as Hnd' by (by rewrite Hp).
  rewrite Hcnt. unfold NXP_HASH_MAP_LOAD_FACTOR, zlen in *. split_and!; try done; [| by rewrite Hp | lia].
  rewrite <- HM. by apply list_to_map_proper.
Qed.

Lemma count_size m M : map_ok m M -> count m = Z.of_nat (size M).
Proof.
  intros (_ & Hnd & <- & -> & _). unfold zlen. f_equal. rewrite <- length_map_to_list.
  apply Permutation_length. symmetry. by apply map_to_list_to_map.
Qed.

Lemma get_ok m M k : map_ok m M -> nxp_hash_map_get m k = Done (mjoin (M !! k)).
Proof.
  intros Hok. pose proof Hok as (Hsh & Hnd & <- & _). pose proof Hsh as (Hrh & _).
  pose proof (rh_len _ Hrh). unfold nxp_hash_map_get.
  destruct (find_spec m k Hsh (map_ok_room m _ Hok)) as (r & -> & Hr). simpl.
  destruct r as [idx |].
  - destruct Hr as (i & -> & Hp & Hk). rewrite load_ent by lia. simpl.
    erewrite (elem_of_list_to_map_1 (M := gmap Z)); [| done | apply in_pairs; [lia |]; by exists i]. done.
  - rewrite (not_elem_of_list_to_map_1 (M := gmap Z)); [done |].
    intros ([k' v] & -> & Hin)%list_elem_of_fmap. apply Hr.
    apply in_pairs in Hin as (i & ? & ? & _); [| lia]. by exists i.
Qed.

(** A map whose pairs gained, changed or lost a key. *)
Lemma map_ok_insert m m' M k v : map_ok m M -> M !! k = None -> shaped m' ->
  pairs (entries m') ≡ₚ (k, v) :: pairs (entries m) -> count m' = count m + 1 ->
  count m' * 100 <= capacity m' * NXP_HASH_MAP_LOAD_FACTOR -> map_ok m' (<[k := v]> M).
Proof.
  intros (_ & Hnd & <- & Hc & _) Hk Hsh Hp Hcnt Hl.
  apply (not_elem_of_list_to_map_2 (M := gmap Z)) in Hk.
  assert (NoDup (pairs (entries m')).*1) as Hnd' by (rewrite Hp; by apply list.NoDup_cons).
  unfold map_ok. split_and!; try done.
  - by rewrite (list_to_map_proper (M := gmap Z) _ _ Hnd' Hp).
  - unfold zlen in *. rewrite Hp. simpl. lia.
Qed.

Lemma map_ok_update m m' M k v v0 : map_ok m M -> shaped m' ->
  (k, v0) :: pairs (entries m') ≡ₚ (k, v) :: pairs (entries m) -> M !! k = Some v0 ->
  count m' = count m -> capacity m' = capacity m -> map_ok m' (<[k := v]> M).
Proof.
  intros (_ & Hnd & HM & Hc & Hl) Hsh Hp Hk Hcnt Hcap.
  rewrite <- HM in Hk. apply (elem_of_list_to_map_2 (M := gmap Z)) in Hk.
  apply elem_of_Permutation in Hk as [l Hl0]. rewrite Hl0 in Hp.
  rewrite Permutation_swap in Hp. apply Permutation_cons_inv in Hp.
  assert (NoDup (pairs (entries m')).*1) as Hnd' by (rewrite Hl0 in Hnd; by rewrite Hp).
  unfold map_ok. rewrite Hcnt, Hcap. split_and!; try done.
  - rewrite (list_to_map_proper (M := gmap Z) _ _ Hnd' Hp), <- HM.
    rewrite (list_to_map_proper (M := gmap Z) _ _ Hnd Hl0). simpl. by rewrite insert_insert_eq.
  - unfold zlen in *. rewrite Hc, Hp, Hl0. done.
Qed.

Lemma map_ok_delete m m' M k v : map_ok m M -> shaped m' ->
  (k, v) :: pairs (entries m') ≡ₚ pairs (entries m) ->
  count m' = count m - 1 -> capacity m' = capacity m -> map_ok m' (delete k M) /\ M !! k = Some v.
Proof.
  intros (_ & Hnd & HM & Hc & Hl) Hsh Hp Hcnt Hcap. rewrite <- Hp in Hnd.
  assert (M = <[k := v]> (list_to_map (pairs (entries m')))) as ->.
  { rewrite <- HM. exact (eq_sym (list_to_map_proper (M := gmap Z) _ _ Hnd Hp)). }
  apply list.NoDup_cons in Hnd as [Hk Hnd]. split; [| by rewrite lookup_insert_eq].
  unfold map_ok, NXP_HASH_MAP_LOAD_FACTOR in *. rewrite Hcnt, Hcap. split_and!; try done; [| | lia].
  - rewrite delete_insert_id; [done |]. by apply (not_elem_of_list_to_map_1 (M := gmap Z)).
  - unfold zlen in *. rewrite Hc, <- Hp. simpl. lia.
Qed.

Lemma not_held m M k : map_ok m M -> ~ held (entries m) k <-> M !! k = None.
Proof.
  intros ((Hrh & _) & Hnd & <- & _). pose proof (rh_len _ Hrh).
  rewrite <- (not_elem_of_list_to_map (M := gmap Z)). apply not_iff_compat. split.
  - intros (i & Hp & Hk). apply list_elem_of_fmap. exists (k, value (ent (entries m) i)).
    split; [done |]. apply in_pairs; [lia |]. by exists i.
  - intros ([k' v] & -> & Hin)%list_elem_of_fmap.
    apply in_pairs in Hin as (i & ? & ? & _); [| lia]. by exists i.
Qed.

Lemma map_remove_ok m M k : map_ok m M ->
  exists m', nxp_hash_map_remove m k = Done (mjoin (M !! k), m') /\ map_ok m' (delete k M).
Proof.
  intros Hok. pose proof Hok as (Hsh & Hnd & HM & Hc & Hl). pose proof Hsh as (Hrh & Hcap & Hmask).
  pose proof (rh_len _ Hrh). pose proof (map_ok_room m _ Hok) as Hroom. unfold nxp_hash_map_remove.
  destruct (find_spec m k Hsh Hroom) as (r & -> & Hr). simpl. destruct r as [idx |].
  - destruct Hr as (i & -> & Hp & Hk). rewrite load_ent by lia. simpl.
    destruct (first_free _ i Hrh Hroom) as [d Hd].
    destruct (shift_spec (length (entries m)) _ i d Hrh Hp Hd) as (t & Ht & Hrh' & Hz & Hps).
    { destruct Hd as [Hd _]. unfold zlen in Hd. lia. }
    rewrite Hmask, Ht. simpl. eexists.
    assert (1 <= count m < 2 ^ 32) as Hcm.
    { apply Permutation_length in Hps. simpl in Hps. unfold zlen in *. lia. }
    destruct (map_ok_delete m (HashMap t (capacity m) (u32 (count m - 1)) (zlen (entries m) - 1)) M k
      (value (ent (entries m) i)) Hok) as [Hok' ->]; simpl; [| by rewrite <- Hk | | done | done].
    + unfold shaped. simpl. by rewrite Hz.
    + apply u32_small. lia.
  - apply (not_held m M k Hok) in Hr. rewrite Hr. eexists. split; [done |]. by rewrite delete_id.
Qed.

Lemma resize_ok m M : map_ok m M -> zlen (entries m) <= 2 ^ 25 ->
  exists m', hash_map_resize true m = Done (Some m') /\ map_ok m' M /\
    count m' = count m /\ capacity m' = 2 * capacity m.
Proof.
  intros Hok Hmax. pose proof Hok as ((Hrh & Hcap & Hmask) & Hnd & HM & Hc & Hl).
  pose proof (rh_len _ Hrh). destruct (rh_pow _ Hrh) as (k & Hk & Hn).
  pose proof (map_ok_room m _ Hok) as Hroom.
  assert (2 * zlen (entries m) = 2 ^ (k + 1)) as Hn2 by (rewrite Hn, Z.pow_add_r; lia).
  assert (4 <= k + 1 <= 26) as Hk26.
  { split; apply (Z.pow_le_mono_r_iff 2); lia. }
  unfold hash_map_resize. simpl. rewrite Hcap, (u32_small (zlen (entries m) * 2)) by lia.
  rewrite (Z.mul_comm (zlen _) 2), u32_small by lia.
  pose proof (robin_hood_empty (V := V) (k + 1) Hk26) as Hrh0. rewrite <- Hn2 in Hrh0.
  set (nt := replicate _ _) in *. assert (zlen nt = 2 * zlen (entries m)) as Hz by (unfold nt; lenlia).
  destruct (reinsert_all_spec (entries m) nt Hrh0) as (t' & Ht' & Hrh' & Hz' & Hp').
  { apply Forall_forall. intros e He. apply list_elem_of_In, list_elem_of_lookup in He as [j Hj].
    apply lookup_lt_Some in Hj as Hlt. pose proof (rh_nonneg _ Hrh (Z.of_nat j)) as H0.
    unfold ent, slot in H0. rewrite Z.mod_small in H0 by (unfold zlen; lia). rewrite Nat2Z.id in H0.
    by rewrite (nth_lookup_Some _ _ _ _ Hj) in H0. }
  { unfold nt at 1. rewrite pairs_replicate, zlen_nil, Hz. lia. }
  rewrite <- Hz, Ht'. simpl. eexists. split; [done |]. simpl. rewrite Hz. split_and!; try lia.
  eapply map_ok_perm; [done | | | done | simpl; lia]; simpl.
  - unfold shaped. simpl. split_and!; (done || lia).
  - rewrite Hp'. unfold nt. by rewrite pairs_replicate, app_nil_r.
Qed.

Lemma create_ok n m : 0 <= n <= 2 ^ 26 -> nxp_hash_map_create true true n = Some m -> map_ok m ∅.
Proof.
  intros Hn. unfold nxp_hash_map_create. simpl. unfold NXP_HASH_MAP_MIN_CAPACITY.
  set (v := if n <? 16 then 16 else n). assert (16 <= v <= 2 ^ 26) as Hv by (unfold v; zcase; lia).
  assert (exists k, 4 <= k <= 26 /\ next_power_of_2 v = 2 ^ k) as (k & Hk & ->).
  { unfold next_power_of_2. rewrite (u32_small (v - 1)) by lia. set (L := Z.log2 (v - 1)).
    assert (3 <= L <= 25) as HL.
    { unfold L. split; [apply Z.log2_le_pow2; lia |].
      assert (Z.log2 (v - 1) < 26) by (apply Z.log2_lt_pow2; lia). lia. }
    pose proof (leading_log2 (v - 1) ltac:(lia)) as H1. fold L in H1.
    do 5 (eapply leading_double in H1; [| lia | lia]).
    apply leading_full in H1; [| lia | lia]. exists (L + 1). split; [lia |].
    change (2 * (2 * (2 * (2 * 1)))) with 16 in H1. change (2 * (2 * (2 * 1))) with 8 in H1.
    change (2 * (2 * 1)) with 4 in H1. change (2 * 1) with 2 in H1. rewrite H1.
    pose proof (Z.pow_le_mono_r 2 (L + 1) 26 ltac:(lia) ltac:(lia)).
    pose proof (Z.pow_pos_nonneg 2 (L + 1)). rewrite u32_small; lia. }
  pose proof (Z.pow_le_mono_r 2 k 26 ltac:(lia) ltac:(lia)). pose proof (Z.pow_pos_nonneg 2 k).
  intros Hm. assert (m = HashMap (replicate (Z.to_nat (2 ^ k)) empty_entry) (2 ^ k) 0 (2 ^ k - 1)) as ->.
  { rewrite u32_small in Hm by lia. congruence. }
  unfold map_ok, shaped, NXP_HASH_MAP_LOAD_FACTOR. simpl. rewrite pairs_replicate, zlen_replicate.
  rewrite Z2Nat.id by lia. split_and!; try (done || lia); [by apply robin_hood_empty | constructor].
Qed.

Lemma put_loop_update m M k v v0 : map_ok m M -> M !! k = Some v0 ->
  exists m', put_loop (length (entries m)) m k v (home (entries m) k) (Entry k v 1) = Done (v0, m') /\
    map_ok m' (<[k := v]> M) /\ capacity m' = capacity m.
Proof.
  intros Hok HMk. pose proof Hok as (Hsh & Hnd & HM & Hc & _). pose proof Hsh as (Hrh & Hcap & Hmask).
  pose proof (rh_len _ Hrh) as Hlen. pose proof (map_ok_room m _ Hok) as Hroom.
  pose proof HMk as Hin. rewrite <- HM in Hin. apply (elem_of_list_to_map_2 (M := gmap Z)) in Hin.
  apply in_pairs in Hin as (s & Hp & Hk & Hv); [| lia].
  destruct (free_slot _ Hrh Hroom) as [x Hx]. pose proof (psl_bound _ x s Hrh Hx) as Hb.
  destruct (put_present m k v s (length (entries m)) 1 Hsh Hk) as (i & Hi & Hpi & Hki);
    [lia | lia | unfold zlen in Hb; lia |].
  rewrite (rh_home _ Hrh s Hp), Hk in Hi. rewrite Hi. clear Hi.
  assert (value (ent (entries m) i) = v0) as Hvi.
  { assert (M !! k = Some (value (ent (entries m) i))) as E; [| congruence]. rewrite <- HM.
    apply elem_of_list_to_map_1; [done |]. apply in_pairs; [lia |]. by exists i. }
  rewrite Hvi. eexists. split; [done |]. split; [| done].
  set (e := Entry k v (psl (ent (entries m) i))).
  apply (map_ok_update m _ M k v v0 Hok); simpl; [| | done | done | done].
  - unfold shaped. simpl. rewrite zlen_set. split_and!; [| done | done].
    pose proof (rh_step _ Hrh i). pose proof (rh_step _ Hrh (i - 1)) as Hst.
    replace (i - 1 + 1) with i in Hst by lia.
    apply robin_hood_set; simpl; try (done || lia). intros _. rewrite <- Hki. by apply rh_home.
  - pose proof (pairs_set (entries m) i e ltac:(lia)) as Hps. unfold opt in Hps. simpl in Hps.
    rewrite (proj2 (Z.ltb_lt 0 _) Hpi) in Hps. unfold pr in Hps. simpl in Hps.
    by rewrite Hki, Hvi in Hps.
Qed.

(** One more entry stays within the load factor: the capacity is a multiple of four. *)
Lemma load_room (t : list (nxp_hash_entry V)) n : robin_hood t -> n * 100 < zlen t * 75 ->
  (n + 1) * 100 <= zlen t * 75.
Proof.
  intros Hrh Hl. pose proof (rh_len _ Hrh). destruct (rh_pow _ Hrh) as (q & Hq & Hn).
  assert (2 <= q) as Hq2.
  { apply (Z.pow_le_mono_r_iff 2); [lia | lia |]. change (2 ^ 2) with 4. lia. }
  assert (zlen t = 4 * 2 ^ (q - 2)); [| lia].
  rewrite Hn. replace q with (2 + (q - 2)) at 1 by lia. rewrite Z.pow_add_r; lia.
Qed.

Lemma put_loop_insert m M k v : map_ok m M -> M !! k = None ->
  count m * 100 < capacity m * NXP_HASH_MAP_LOAD_FACTOR ->
  exists m', put_loop (length (entries m)) m k v (home (entries m) k) (Entry k v 1) = Done (None, m') /\
    map_ok m' (<[k := v]> M) /\ capacity m' = capacity m.
Proof.
  intros Hok HMk Hl. pose proof Hok as (Hsh & _ & _ & Hc & _). pose proof Hsh as (Hrh & Hcap & Hmask).
  pose proof (rh_len _ Hrh) as Hlen. pose proof (map_ok_room m _ Hok) as Hroom.
  assert (~ held (entries m) k) as Hnh by (by apply (not_held m M k Hok)).
  destruct (first_free _ (home (entries m) k) Hrh Hroom) as [d Hd].
  assert (home (entries m) k = home (entries m) k mod zlen (entries m)) as Hm
    by (unfold home; by rewrite Zmod_mod).
  assert (carried (entries m) (home (entries m) k) (Entry k v 1)) as Hcar.
  { unfold carried. simpl. pose proof (rh_nonneg _ Hrh (home (entries m) k - 1)).
    split_and!; [lia | | lia]. rewrite Hm at 2. f_equal. lia. }
  rewrite Hm, (put_is_reinsert k v _ m _ d); [| done | done | done |].
  2: { intros j Hj Hkj. apply Hnh. eexists. split; [| exact Hkj]. by apply Hd. }
  destruct (reinsert_spec (entries m) (length (entries m)) (home (entries m) k) d (Entry k v 1) Hrh)
    as (t' & Ht' & Hrh' & Hz' & Hp'); [done | done | destruct Hd as [Hd _]; unfold zlen in Hd; lia |].
  rewrite Hmask, Ht'. simpl. eexists. split; [done |]. split; [| done].
  assert (0 <= count m < 2 ^ 27) as Hcm by (unfold zlen in *; lia).
  apply (map_ok_insert m _ M k v Hok HMk); simpl; [| done | apply u32_small; lia |].
  - unfold shaped. simpl. by rewrite Hz'.
  - rewrite u32_small, Hcap by lia. apply (load_room _ _ Hrh). rewrite <- Hcap. exact Hl.
Qed.

Lemma put_loop_ok m M k v : map_ok m M -> count m * 100 < capacity m * NXP_HASH_MAP_LOAD_FACTOR ->
  exists m', put_loop (length (entries m)) m k v (hash_u64 k &&& mask m) (Entry k v 1)
    = Done (mjoin (M !! k), m') /\ map_ok m' (<[k := v]> M) /\ capacity m' = capacity m.
Proof.
  intros Hok Hl. pose proof Hok as ((Hrh & _ & Hmask) & _). rewrite Hmask, home_slot by done.
  destruct (M !! k) eqn:HMk; [by apply put_loop_update | by apply put_loop_insert].
Qed.

Lemma put_ok m M k v calloc_ok : map_ok m M -> capacity m <= 2 ^ 25 ->
  exists old m', nxp_hash_map_put calloc_ok m k v = Done (old, m') /\
    ((old = mjoin (M !! k) /\ map_ok m' (<[k := v]> M) /\ capacity m' <= 2 * capacity m) \/
     (calloc_ok = false /\ old = None /\ m' = m)).
Proof.
  intros Hok Hmax. pose proof Hok as ((Hrh & Hcap & _) & _ & _ & Hc & Hl).
  pose proof (rh_len _ Hrh). pose proof (zlen_nonneg (pairs (entries m))).
  unfold nxp_hash_map_put, NXP_HASH_MAP_LOAD_FACTOR in *.
  rewrite (u32_small (count m * 100)), (u32_small (capacity m * 75)), Z.geb_leb by lia.
  destruct (Z.leb_spec (capacity m * 75) (count m * 100)) as [Hfull | Hspace].
  - destruct calloc_ok.
    + destruct (resize_ok m M Hok) as (m1 & -> & Hok1 & Hc1 & Hcap1); [lia |]. simpl.
      destruct (put_loop_ok m1 M k v Hok1) as (m' & -> & ? & ?).
      { unfold NXP_HASH_MAP_LOAD_FACTOR. lia. }
      eexists _, _. split; [done |]. left. split_and!; (done || lia).
    + unfold hash_map_resize. simpl. eexists _, _. split; [done |]. by right.
  - simpl. destruct (put_loop_ok m M k v Hok Hspace) as (m' & -> & ? & ?).
    eexists _, _. split; [done |]. left. split_and!; (done || lia).
Qed.

End Refinement.

(** C35: the Robin Hood table implements a finite map.  A created table is the
    empty map; look-up, insertion (growing the table when it is 75% full) and
    removal terminate, never leave the array, and act as on the map; only a
    failed allocation makes an insertion a no-op.  Capacities up to [2^25], for
    which the 32-bit load test does not wrap around. *)
Theorem hash_map_refines {V} (m : nxp_hash_map V) M : map_ok m M -> capacity m <= 2 ^ 25 ->
  (forall k, nxp_hash_map_get m k = Done (mjoin (M !! k))) /\
  (forall k v calloc_ok, exists old m', nxp_hash_map_put calloc_ok m k v = Done (old, m') /\
    ((old = mjoin (M !! k) /\ map_ok m' (<[k := v]> M)) \/ (calloc_ok = false /\ old = None /\ m' = m))) /\
  (forall k, exists m', nxp_hash_map_remove m k = Done (mjoin (M !! k), m') /\ map_ok m' (delete k M)) /\
  count m = Z.of_nat (size M).
Proof.
  intros Hok Hcap. split_and!.
  - intros k. by apply get_ok.
  - intros k v c. destruct (put_ok m M k v c Hok Hcap) as (o & m' & -> & Hr). exists o, m'.
    split; [done |]. tauto.
  - intros k. by apply map_remove_ok.
  - by apply count_size.
Qed.

Lemma hash_map_refines_witness :
  exists m : nxp_hash_map Z, nxp_hash_map_create true true 20 = Some m /\
    nxp_hash_map_get m 7 = Done None /\
    exists old m', nxp_hash_map_put true m 7 (Some 70) = Done (old, m') /\ map_ok m' {[7 := Some 70]}.
Proof.
  destruct (nxp_hash_map_create true true 20 : option (nxp_hash_map Z)) as [m |] eqn:Hm;
    [| discriminate Hm]. exists m. split; [done |].
  pose proof (create_ok 20 m ltac:(lia) Hm) as Hok.
  assert (capacity m <= 2 ^ 25) as Hcap by (injection Hm as <-; by_compute).
  destruct (hash_map_refines m ∅ Hok Hcap) as (Hget & Hput & _).
  split; [apply Hget |]. destruct (Hput 7 (Some 70) true) as (old & m' & Hp & [[_ H] | [H _]]); [| done].
  by exists old, m'.
Defined.
