(* ===== verification/RateLimit.v ===== *)
(** * The packet rate limiter (src/core/rate_limit.h)

    One fixed-window counter per address hash.  The limiter is a client of the
    hash map through the interface [KeyStore]; its theorems are proved against
    the interface, which the Robin Hood table implements. *)

From stdpp Require Import gmap.
From S2P Require Import Prelude Types HashMap.

(** ** What the limiter needs of the hash map *)

(** [st_rep s M]: the store [s] holds the map [M]; [st_room s]: it can still grow. *)
Class KeyStore (S V : Type) := {
  st_rep : S -> gmap Z (option V) -> Prop;
  st_room : S -> Prop;
  st_get : S -> Z -> nxp_result (option V);
  st_put : bool -> S -> Z -> option V -> nxp_result (option V * S);
  st_get_spec s M k : st_rep s M -> st_get s k = Done (mjoin (M !! k));
  st_put_spec s M k v : st_rep s M -> st_room s ->
    exists s', st_put true s k v = Done (mjoin (M !! k), s') /\ st_rep s' (<[k := v]> M);
  st_put_any ok s M k v : st_rep s M -> st_room s ->
    exists o s', st_put ok s k v = Done (o, s') /\ (st_rep s' (<[k := v]> M) \/ st_rep s' M) }.

(** The Robin Hood table. *)
#[global, refine] Instance hash_store V : KeyStore (nxp_hash_map V) V := {|
  st_rep := map_ok;
  st_room m := capacity m <= 2 ^ 25;
  st_get := nxp_hash_map_get;
  st_put := nxp_hash_map_put |}.
Proof.
  - intros m M k. apply get_ok.
  - intros m M k v Hok Hcap. destruct (put_ok m M k v true Hok Hcap) as (o & m' & -> & [(-> & ? & _) | [? _]]);
      [by exists m' | done].
  - intros ok m M k v Hok Hcap. destruct (put_ok m M k v ok Hok Hcap) as (o & m' & -> & [(_ & ? & _) | (_ & _ & ->)]); eauto.
Defined.

(** A store behind a pointer that may be null: the null pointer holds no map, and
    using it is undefined. *)
#[refine] Definition pointed_store {S V} (K : KeyStore S V) : KeyStore (option S) V := {|
  st_rep o M := match o with Some s => st_rep s M | None => False end;
  st_room o := match o with Some s => st_room s | None => True end;
  st_get o k := match o with Some s => st_get s k | None => Ub end;
  st_put ok o k v := match o with Some s => let! r := st_put ok s k v in Done (r.1, Some r.2) | None => Ub end |}.
Proof.
  - intros [s |] M k; [apply st_get_spec | done].
  - intros [s |] M k v Hr Hroom; [| done]. destruct (st_put_spec s M k v Hr Hroom) as (s' & -> & ?). by exists (Some s').
  - intros ok [s |] M k v Hr Hroom; [| done]. destruct (st_put_any ok s M k v Hr Hroom) as (o & s' & -> & ?). by exists o, (Some s').
Defined.

(** ** The limiter *)

Definition NXP_RATE_LIMIT_WINDOW_US : Z := 1000000.
Definition NXP_RATE_LIMIT_MAX_PPS : Z := 100.

Record nxp_rate_bucket := RateBucket { rb_count : Z; window_start : Z }.

Section Limiter.
Context {S : Type} `{KeyStore S Z}.

(** The map holds pointers to the buckets, which live in [heap] and are
    updated in place. *)
Record nxp_rate_limiter := RateLimiter { ip_buckets : S; heap : gmap Z nxp_rate_bucket }.

(** FNV-1a over the 28 raw bytes of the address. *)
Fixpoint addr_hash_loop (h : Z) (raw : list Z) : Z :=
  match raw with
  | [] => h
  | b :: raw => addr_hash_loop (u64 (Z.lxor h b * 1099511628211)) raw
  end.
Definition addr_hash (raw : list Z) : Z := addr_hash_loop 14695981039346656037 raw.

(** [fresh] is the result of [calloc] for a new bucket, [grow_ok] whether the
    hash map can allocate. *)
Definition nxp_rate_limiter_check (fresh : option Z) (grow_ok : bool) (rl : nxp_rate_limiter)
    (raw : list Z) (now_us : Z) : nxp_result (bool * nxp_rate_limiter) :=
  let key := addr_hash raw in
  let! ptr := st_get (ip_buckets rl) key in
  let! old := match ptr with
              | None => Done None
              | Some p => match heap rl !! p with Some b => Done (Some (p, b)) | None => Ub end
              end in
  let expired := match old with
                 | None => true
                 | Some (_, b) => u64 (now_us - window_start b) >=? NXP_RATE_LIMIT_WINDOW_US
                 end in
  let! found :=
    if expired then
      match old, fresh with
      | None, None => Done None
      | None, Some p =>
          let! r := st_put grow_ok (ip_buckets rl) key (Some p) in
          Done (Some (r.2, p, RateBucket 0 now_us))
      | Some (p, _), _ => Done (Some (ip_buckets rl, p, RateBucket 0 now_us))
      end
    else match old with
         | Some (p, b) => Done (Some (ip_buckets rl, p, b))
         | None => Ub
         end in
  match found with
  | None => Done (true, rl)
  | Some (m, p, b) =>
      if rb_count b >=? NXP_RATE_LIMIT_MAX_PPS
      then Done (false, RateLimiter m (<[p := b]> (heap rl)))
      else Done (true, RateLimiter m (<[p := RateBucket (u32 (rb_count b + 1)) (window_start b)]> (heap rl)))
  end.

(** ** Invariant: distinct keys have distinct buckets *)

Definition limiter_ok (rl : nxp_rate_limiter) (M : gmap Z (option Z)) (now : Z) : Prop :=
  st_rep (ip_buckets rl) M /\
  (forall k k' p, mjoin (M !! k) = Some p -> mjoin (M !! k') = Some p -> k = k') /\
  (forall k p, mjoin (M !! k) = Some p -> exists b, heap rl !! p = Some b /\
    0 <= rb_count b <= NXP_RATE_LIMIT_MAX_PPS /\ 0 <= window_start b <= now).

(** The bucket of a key. *)
Definition bucket (rl : nxp_rate_limiter) (M : gmap Z (option Z)) (k : Z) : option nxp_rate_bucket :=
  mjoin (M !! k) ≫= fun p => heap rl !! p.

(** One check, on the bucket of its key: the answer and the new bucket. *)
Definition bucket_check (b : option nxp_rate_bucket) (now : Z) : bool * nxp_rate_bucket :=
  let b := match b with
           | Some b => if now - window_start b >=? NXP_RATE_LIMIT_WINDOW_US then RateBucket 0 now else b
           | None => RateBucket 0 now
           end in
  if rb_count b >=? NXP_RATE_LIMIT_MAX_PPS then (false, b)
  else (true, RateBucket (rb_count b + 1) (window_start b)).

Lemma limiter_ok_set rl M s M' p b now' now k : limiter_ok rl M now -> now <= now' ->
  st_rep s M' -> mjoin (M' !! k) = Some p ->
  (forall k', k' <> k -> M' !! k' = M !! k') -> (forall k', k' <> k -> mjoin (M !! k') <> Some p) ->
  0 <= rb_count b <= NXP_RATE_LIMIT_MAX_PPS -> 0 <= window_start b <= now' ->
  let rl' := RateLimiter s (<[p := b]> (heap rl)) in
  limiter_ok rl' M' now' /\ bucket rl' M' k = Some b /\
  (forall k', k' <> k -> bucket rl' M' k' = bucket rl M k').
Proof.
  intros (_ & Hinj & Hb) Hnow Hrep Hp Hother Hnp Hc Hw. simpl. unfold limiter_ok, bucket. simpl. split_and!.
  - done.
  - intros k1 k2 q H1 H2. destruct (decide (k1 = k)) as [-> | N1], (decide (k2 = k)) as [-> | N2]; [done | | |].
    + rewrite Hother in H2 by done. exfalso. apply (Hnp k2 N2). congruence.
    + rewrite Hother in H1 by done. exfalso. apply (Hnp k1 N1). congruence.
    + rewrite Hother in H1, H2 by done. by eapply Hinj.
  - intros k1 q H1. destruct (decide (k1 = k)) as [-> | N1].
    + assert (q = p) as -> by congruence. rewrite lookup_insert_eq. eauto.
    + rewrite Hother in H1 by done. destruct (Hb k1 q H1) as (b1 & ? & ? & ?). exists b1.
      rewrite lookup_insert_ne by (intros <-; by eapply Hnp). split_and!; (done || lia).
  - rewrite Hp. simpl. by rewrite lookup_insert_eq.
  - intros k' N. rewrite Hother by done. destruct (mjoin (M !! k')) as [q |] eqn:Hq; [| done]. simpl.
    rewrite lookup_insert_ne; [done |]. intros <-. by apply (Hnp k').
Qed.

Lemma limiter_check_ok rl M raw now now' fresh : limiter_ok rl M now -> now <= now' < 2 ^ 64 -> 0 <= now ->
  st_room (ip_buckets rl) -> heap rl !! fresh = None ->
  exists rl' M', nxp_rate_limiter_check (Some fresh) true rl raw now'
      = Done ((bucket_check (bucket rl M (addr_hash raw)) now').1, rl') /\
    limiter_ok rl' M' now' /\
    bucket rl' M' (addr_hash raw) = Some (bucket_check (bucket rl M (addr_hash raw)) now').2 /\
    (forall k, k <> addr_hash raw -> bucket rl' M' k = bucket rl M k).
Proof.
  intros Hok Hnow H0 Hroom Hfresh. pose proof Hok as (Hrep & Hinj & Hb). set (k := addr_hash raw).
  unfold nxp_rate_limiter_check. fold k. rewrite (st_get_spec _ _ k Hrep). simpl.
  destruct (mjoin (M !! k)) as [p |] eqn:Hp; simpl.
  - destruct (Hb k p Hp) as (b & Hbp & Hc & Hw). rewrite Hbp. simpl. rewrite u64_small by lia.
    assert (bucket rl M k = Some b) as -> by (unfold bucket; by rewrite Hp).
    assert (forall b', 0 <= rb_count b' <= NXP_RATE_LIMIT_MAX_PPS -> 0 <= window_start b' <= now' ->
      let rl' := RateLimiter (ip_buckets rl) (<[p := b']> (heap rl)) in
      limiter_ok rl' M now' /\ bucket rl' M k = Some b' /\
      (forall k', k' <> k -> bucket rl' M k' = bucket rl M k')) as Hset.
    { intros b' ? ?. apply (limiter_ok_set rl M _ M p b' now' now k); try (done || lia).
      intros k' N Hk'. apply N. by eapply Hinj. }
    unfold bucket_check. rewrite !Z.geb_leb.
    destruct (Z.leb_spec NXP_RATE_LIMIT_WINDOW_US (now' - window_start b)); simpl; rewrite ?Z.geb_leb.
    + eexists _, M. split; [done |]. apply (Hset (RateBucket 1 now')); simpl; [| lia].
      unfold NXP_RATE_LIMIT_MAX_PPS. lia.
    + destruct (Z.leb_spec NXP_RATE_LIMIT_MAX_PPS (rb_count b)); simpl.
      * eexists _, M. split; [done |]. apply Hset; lia.
      * unfold NXP_RATE_LIMIT_MAX_PPS in *. rewrite u32_small by lia. eexists _, M. split; [done |].
        apply (Hset (RateBucket (rb_count b + 1) (window_start b))); simpl; lia.
  - destruct (st_put_spec _ _ k (Some fresh) Hrep Hroom) as (s' & -> & Hrep'). simpl.
    assert (bucket rl M k = None) as -> by (unfold bucket; by rewrite Hp).
    eexists _, (<[k := Some fresh]> M). split; [done |].
    apply (limiter_ok_set rl M s' _ fresh _ now' now k); try (done || lia); simpl.
    + by rewrite lookup_insert_eq.
    + intros k' N. by rewrite lookup_insert_ne by done.
    + intros k' N Hk'. destruct (Hb k' fresh Hk') as (? & ? & _). congruence.
    + unfold NXP_RATE_LIMIT_MAX_PPS. lia.
Qed.

(** The buckets the table points to exist, whatever allocations fail. *)
Definition limiter_mem (rl : nxp_rate_limiter) : Prop := exists M, st_rep (ip_buckets rl) M /\
  forall k p, mjoin (M !! k) = Some p -> is_Some (heap rl !! p).

Lemma limiter_mem_set rl s M p b : st_rep s M ->
  (forall k q, mjoin (M !! k) = Some q -> q = p \/ is_Some (heap rl !! q)) ->
  limiter_mem (RateLimiter s (<[p := b]> (heap rl))).
Proof.
  intros Hrep HM. exists M. split; [done |]. intros k q Hq. simpl. rewrite lookup_insert_is_Some'.
  destruct (HM k q Hq) as [-> | ?]; auto.
Qed.

Lemma limiter_check_safe fresh ok rl raw now : limiter_mem rl -> st_room (ip_buckets rl) ->
  exists b rl', nxp_rate_limiter_check fresh ok rl raw now = Done (b, rl') /\ limiter_mem rl'.
Proof.
  intros Hmem Hroom. pose proof Hmem as (M & Hrep & Hp). unfold nxp_rate_limiter_check.
  set (k := addr_hash raw). rewrite (st_get_spec _ _ k Hrep). simpl.
  assert (forall p b', mjoin (M !! k) = Some p -> limiter_mem (RateLimiter (ip_buckets rl) (<[p := b']> (heap rl)))) as Hset.
  { intros p b' _. apply (limiter_mem_set rl _ M); [done | eauto]. }
  destruct (mjoin (M !! k)) as [p |] eqn:Hk; simpl.
  - destruct (Hp k p Hk) as [b Hb]. rewrite Hb. simpl.
    destruct (_ >=? NXP_RATE_LIMIT_WINDOW_US); simpl; [eauto |]. destruct (_ >=? NXP_RATE_LIMIT_MAX_PPS); eauto.
  - destruct fresh as [p |]; simpl; [| eauto].
    destruct (st_put_any ok _ M k (Some p) Hrep Hroom) as (o & s' & -> & [Hr | Hr]); simpl; eexists _, _; (split; [reflexivity |]).
    + apply (limiter_mem_set rl s' (<[k := Some p]> M)); [done |]. intros k' q Hq.
      destruct (decide (k' = k)) as [-> | N].
      * rewrite lookup_insert_eq in Hq. simpl in Hq. left. congruence.
      * rewrite lookup_insert_ne in Hq by done. eauto.
    + apply (limiter_mem_set rl s' M); eauto.
Qed.

(** ** Runs of the limiter *)

(** Checks of packets [(address, time, answer)] in order; allocations succeed. *)
Inductive checks : nxp_rate_limiter -> list (list Z * Z * bool) -> nxp_rate_limiter -> Prop :=
| checks_nil rl : checks rl [] rl
| checks_cons rl rl1 rl2 fresh raw t ok evs :
    heap rl !! fresh = None -> st_room (ip_buckets rl) ->
    nxp_rate_limiter_check (Some fresh) true rl raw t = Done (ok, rl1) ->
    checks rl1 evs rl2 -> checks rl ((raw, t, ok) :: evs) rl2.

Definition accepted (k : Z) (evs : list (list Z * Z * bool)) : Z :=
  zlen (List.filter (fun '(raw, _, ok) => ok && (addr_hash raw =? k)) evs).

(** Times that do not decrease, from [now] on, within the window that starts at [T]. *)
Fixpoint timed_within (T now : Z) (evs : list (list Z * Z * bool)) : Prop :=
  match evs with
  | [] => True
  | (_, t, _) :: evs => now <= t /\ T <= t < T + NXP_RATE_LIMIT_WINDOW_US /\ timed_within T t evs
  end.

(** What a bucket can still accept within the window that starts at [T]. *)
Definition allowance (T : Z) (b : option nxp_rate_bucket) : Z :=
  match b with
  | None => NXP_RATE_LIMIT_MAX_PPS
  | Some b => NXP_RATE_LIMIT_MAX_PPS - rb_count b +
      (if T <=? window_start b then 0 else NXP_RATE_LIMIT_MAX_PPS)
  end.

Lemma bucket_check_allowance T b t : T <= t < T + NXP_RATE_LIMIT_WINDOW_US ->
  (forall b', b = Some b' -> 0 <= rb_count b' <= NXP_RATE_LIMIT_MAX_PPS) ->
  let r := bucket_check b t in
  allowance T (Some r.2) + (if r.1 then 1 else 0) <= allowance T b.
Proof.
  intros Ht Hb r. unfold r, bucket_check, allowance. clear r. rewrite !Z.geb_leb.
  unfold NXP_RATE_LIMIT_WINDOW_US, NXP_RATE_LIMIT_MAX_PPS in *. destruct b as [b |]; simpl.
  - specialize (Hb b eq_refl). rewrite Z.geb_leb. destruct (Z.leb_spec 1000000 (t - window_start b)); simpl.
    + zcase; lia.
    + destruct (Z.leb_spec 100 (rb_count b)); simpl; zcase; lia.
  - zcase; lia.
Qed.

Lemma accepted_bound k T evs : forall rl M now rl', checks rl evs rl' -> limiter_ok rl M now ->
  0 <= now -> T + NXP_RATE_LIMIT_WINDOW_US < 2 ^ 64 -> timed_within T now evs ->
  accepted k evs <= allowance T (bucket rl M k).
Proof.
  induction evs as [| [[raw t] ok] evs IH]; intros rl M now rl' Hrun Hok H0 HT Htimes.
  { unfold accepted, allowance, bucket. simpl. change (zlen []) with 0. destruct Hok as (_ & _ & Hb).
    destruct (mjoin (M !! k)) as [p |] eqn:Hp; simpl; [| by unfold NXP_RATE_LIMIT_MAX_PPS].
    destruct (Hb k p Hp) as (b & -> & Hc & _). unfold NXP_RATE_LIMIT_MAX_PPS in *. zcase; lia. }
  destruct Htimes as (Hnow & Hwin & Htimes). inversion Hrun as [| ? rl1 ? fresh ? ? ? ? Hf Hroom Hchk Hrest]; subst.
  destruct (limiter_check_ok rl M raw now t fresh Hok ltac:(lia) H0 Hroom Hf) as (rl1' & M' & Hchk' & Hok1 & Hk & Hother).
  rewrite Hchk in Hchk'. injection Hchk' as -> <-.
  pose proof (IH rl1 M' t rl' Hrest Hok1 ltac:(lia) HT Htimes) as Hacc.
  unfold accepted in *. simpl. destruct (Z.eqb_spec (addr_hash raw) k) as [<- | Hne].
  - rewrite andb_true_r. pose proof (bucket_check_allowance T (bucket rl M (addr_hash raw)) t Hwin) as Hal.
    rewrite Hk in Hacc. ospecialize (Hal _).
    { intros b Hb. unfold bucket in Hb. destruct (mjoin (M !! addr_hash raw)) as [p |] eqn:Hp; [| done].
      destruct Hok as (_ & _ & Hbs). destruct (Hbs _ p Hp) as (b' & Hb' & ? & _).
      simpl in Hb. congruence. }
    cbv zeta in Hal. destruct (bucket_check _ _).1; [rewrite zlen_cons |]; lia.
  - rewrite andb_false_r. rewrite Hother in Hacc by done. done.
Qed.

(** the rate limit.  Whatever packets arrive, in any interval of one second
    the limiter accepts at most twice [NXP_RATE_LIMIT_MAX_PPS] packets of an
    address hash, and at most [NXP_RATE_LIMIT_MAX_PPS] of a hash it has not seen;
    the state of one hash is not affected by the packets of another. *)
Theorem rate_limit_bound k T evs rl M now rl' : checks rl evs rl' -> limiter_ok rl M now ->
  0 <= now -> T + NXP_RATE_LIMIT_WINDOW_US < 2 ^ 64 -> timed_within T now evs ->
  accepted k evs <= 2 * NXP_RATE_LIMIT_MAX_PPS /\
  (M !! k = None -> accepted k evs <= NXP_RATE_LIMIT_MAX_PPS).
Proof.
  intros Hrun Hok H0 HT Htimes. pose proof (accepted_bound k T evs rl M now rl' Hrun Hok H0 HT Htimes) as Ha.
  split.
  - unfold allowance, bucket in Ha. destruct Hok as (_ & _ & Hb).
    destruct (mjoin (M !! k)) as [p |] eqn:Hp; simpl in Ha; [| unfold NXP_RATE_LIMIT_MAX_PPS in *; lia].
    destruct (Hb k p Hp) as (b & Hbp & Hc & _). rewrite Hbp in Ha. unfold NXP_RATE_LIMIT_MAX_PPS in *.
    revert Ha. zcase; lia.
  - intros Hk. unfold bucket in Ha. by rewrite Hk in Ha.
Qed.

End Limiter.

(** ** Creation *)

Definition pointed_map : KeyStore (option (nxp_hash_map Z)) Z := pointed_store (hash_store Z).

(** Whether the table was allocated is not checked. *)
Definition nxp_rate_limiter_create (calloc_ok map_malloc map_calloc : bool) : option (nxp_rate_limiter (S := option (nxp_hash_map Z))) :=
  if negb calloc_ok then None else Some (RateLimiter (nxp_hash_map_create (V := Z) map_malloc map_calloc 256) ∅).

Lemma limiter_create_ok : exists rl, nxp_rate_limiter_create true true true = Some rl /\
  limiter_mem (H := pointed_map) rl /\ st_room (KeyStore := pointed_map) (ip_buckets rl).
Proof.
  eexists. split; [reflexivity |]. split; [| done]. exists ∅. split; [by apply (create_ok 256) |].
  intros k p Hk. by rewrite lookup_empty in Hk.
Qed.

(** Without its table the limiter exists all the same, and the first datagram is
    checked through a null pointer. *)
Theorem limiter_create_unchecked m c fresh ok raw now : m && c = false ->
  exists rl, nxp_rate_limiter_create true m c = Some rl /\
    nxp_rate_limiter_check (H := pointed_map) fresh ok rl raw now = Ub.
Proof.
  intros Hmc. eexists. split; [reflexivity |]. unfold nxp_rate_limiter_check. cbn [ip_buckets].
  assert (nxp_hash_map_create (V := Z) m c 256 = None) as -> by (by destruct m, c). done.
Qed.

(** A fresh limiter over a hash table of 16 slots. *)
Definition sample_limiter : nxp_rate_limiter :=
  RateLimiter (HashMap (replicate 16 (@empty_entry Z)) 16 0 15) ∅.

Lemma sample_limiter_ok : limiter_ok sample_limiter ∅ 0.
Proof.
  split_and!.
  - apply (create_ok 16); [lia | reflexivity].
  - intros k k' p Hk. rewrite lookup_empty in Hk. discriminate Hk.
  - intros k p Hk. rewrite lookup_empty in Hk. discriminate Hk.
Qed.

(** The limiter after two packets of one address. *)
Definition after_two : nxp_rate_limiter :=
  match nxp_rate_limiter_check (Some 1) true sample_limiter [127; 1] 10 with
  | Done (_, rl) =>
      match nxp_rate_limiter_check (Some 2) true rl [127; 1] 20 with
      | Done (_, rl) => rl
      | _ => sample_limiter
      end
  | _ => sample_limiter
  end.

Lemma rate_limit_bound_witness :
  accepted (addr_hash [127; 1]) [([127; 1], 10, true); ([127; 1], 20, true)] = 2 /\
  2 <= 2 * NXP_RATE_LIMIT_MAX_PPS.
Proof.
  split; [reflexivity |].
  change 2 with (accepted (addr_hash [127; 1]) [([127; 1], 10, true); ([127; 1], 20, true)]) at 1.
  apply (rate_limit_bound _ 0 _ sample_limiter ∅ 0 after_two);
    [| exact sample_limiter_ok | lia | by_compute | simpl; by_compute].
  eapply (checks_cons _ _ _ 1); [reflexivity | by_compute | vm_compute; reflexivity |].
  eapply (checks_cons _ _ _ 2); [reflexivity | by_compute | vm_compute; reflexivity |].
  match goal with |- checks ?a _ ?b => replace b with a by by_compute end. constructor.
Defined.
