(* ===== verification/Crc32c.v ===== *)
(** * CRC-32C (src/util/crc32c.c)

    The table-driven checksum, with its lazily initialised static table, and
    the bit-serial definition it implements. *)

From S2P Require Import Prelude Types.

Definition CRC32C_POLY : Z := 0x82F63B78.

(** ** The program *)

(** One iteration of the inner loop of [crc32c_init_table]. *)
Definition crc_bit (crc : Z) : Z :=
  if Z.odd crc then Z.lxor (crc >>> 1) CRC32C_POLY else crc >>> 1.

Definition table_entry (i : Z) : Z := Nat.iter 8 crc_bit i.

(** The static variables. *)
Record crc_state := CrcState { crc32c_table : list Z; crc32c_table_init : bool }.

Definition crc32c_zero : crc_state := CrcState (replicate 256 0) false.

Definition crc32c_init_table : crc_state := CrcState (table_entry <$> (Z.of_nat <$> seq 0 256)) true.

(** [~x] on [uint32_t]. *)
Definition not32 (x : Z) : Z := 4294967295 - x.

Fixpoint crc_bytes (table : list Z) (crc : Z) (data : list Z) : nxp_result Z :=
  match data with
  | [] => Done crc
  | d :: data =>
      let! e := rd table (Z.lxor crc d &&& 0xFF) in
      crc_bytes table (Z.lxor e (crc >>> 8)) data
  end.

(** The first [len] bytes of [data]. *)
Definition nxp_crc32c_update (st : crc_state) (crc : Z) (data : list Z) (len : Z)
  : nxp_result (Z * crc_state) :=
  let st := if negb (crc32c_table_init st) then crc32c_init_table else st in
  let! bytes := sub_buf data 0 len in
  let! c := crc_bytes (crc32c_table st) (not32 crc) bytes in
  Done (not32 c, st).

Definition nxp_crc32c (st : crc_state) (data : list Z) (len : Z) : nxp_result (Z * crc_state) :=
  nxp_crc32c_update st 0 data len.

(** ** The bit-serial definition *)

Definition crc_step (crc d : Z) : Z := Nat.iter 8 crc_bit (Z.lxor crc d).
Definition crc_ref (crc : Z) (data : list Z) : Z := not32 (foldl crc_step (not32 crc) data).

(** The table is either not there yet, or right. *)
Definition table_ok (st : crc_state) : Prop :=
  crc32c_table_init st = true -> crc32c_table st = crc32c_table crc32c_init_table.

(** ** Linearity of the register *)

Lemma crc_bit_xor a b : crc_bit (Z.lxor a b) = Z.lxor (crc_bit a) (crc_bit b).
Proof.
  unfold crc_bit. rewrite <- !Z.bit0_odd, Z.lxor_spec, Z.shiftr_lxor.
  destruct (Z.testbit a 0), (Z.testbit b 0); simpl; apply Z.bits_inj_iff'; intros i Hi;
    rewrite ?Z.lxor_spec; repeat destruct (Z.testbit _ i); done.
Qed.

Lemma crc_bits_xor n a b : Nat.iter n crc_bit (Z.lxor a b) = Z.lxor (Nat.iter n crc_bit a) (Nat.iter n crc_bit b).
Proof. induction n as [| n IH]; [done |]. simpl. by rewrite IH, crc_bit_xor. Qed.

Lemma crc_bit_even h : crc_bit (2 * h) = h.
Proof.
  unfold crc_bit. rewrite Z.odd_mul. simpl.
  rewrite Z.shiftr_div_pow2, Z.pow_1_r, Z.mul_comm, Z.div_mul by lia. done.
Qed.

Lemma crc_bits_high h : Nat.iter 8 crc_bit (h <<< 8) = h.
Proof.
  rewrite Z.shiftl_mul_pow2 by lia.
  replace (h * 2 ^ 8) with (2 * (2 * (2 * (2 * (2 * (2 * (2 * (2 * h)))))))) by lia.
  simpl. by rewrite !crc_bit_even.
Qed.

Lemma split_byte c : c = Z.lxor (c &&& 255) ((c >>> 8) <<< 8).
Proof.
  change 255 with (Z.ones 8). apply Z.bits_inj_iff'. intros i Hi.
  rewrite Z.lxor_spec, Z.land_spec, Z.shiftl_spec by lia. destruct (Z.lt_ge_cases i 8).
  - rewrite Z.ones_spec_low, (Z.testbit_neg_r _ (i - 8)) by lia. by rewrite andb_true_r, xorb_false_r.
  - rewrite Z.ones_spec_high, Z.shiftr_spec by lia. rewrite andb_false_r. simpl. f_equal. lia.
Qed.

(** Eight steps of the register are one look-up. *)
Lemma crc_bits_lookup c : Nat.iter 8 crc_bit c = Z.lxor (table_entry (c &&& 255)) (c >>> 8).
Proof. rewrite (split_byte c) at 1. rewrite crc_bits_xor, crc_bits_high. done. Qed.

Lemma table_lookup i : 0 <= i < 256 -> rd (crc32c_table crc32c_init_table) i = Done (table_entry i) (E := nxp_error_code).
Proof.
  intros Hi. unfold rd, crc32c_init_table. cbn [crc32c_table].
  rewrite (proj2 (Z.ltb_ge i 0)), !list_lookup_fmap, lookup_seq_lt by lia.
  simpl. f_equal. f_equal. lia.
Qed.

Lemma byte_shift d : byte d -> d >>> 8 = 0.
Proof. intros. rewrite Z.shiftr_div_pow2 by lia. apply Z.div_small. lia. Qed.

Lemma crc_bytes_ref data : forall crc, bytes_ok data ->
  crc_bytes (crc32c_table crc32c_init_table) crc data = Done (foldl crc_step crc data).
Proof.
  induction data as [| d data IH]; intros crc Hok; [done |]. apply Forall_cons_iff in Hok as [Hd Hok].
  cbn [crc_bytes]. rewrite table_lookup.
  - cbn [obind foldl]. rewrite IH by done. do 2 f_equal. unfold crc_step.
    rewrite (crc_bits_lookup (Z.lxor crc d)), Z.shiftr_lxor, (byte_shift d Hd). by rewrite Z.lxor_0_r.
  - rewrite land_255. apply Z.mod_pos_bound. lia.
Qed.

Lemma update_ok st crc data : table_ok st -> bytes_ok data ->
  exists st', nxp_crc32c_update st crc data (zlen data) = Done (crc_ref crc data, st') /\ table_ok st' /\
    crc32c_table_init st' = true.
Proof.
  intros Hst Hok. unfold nxp_crc32c_update.
  assert (crc32c_table (if negb (crc32c_table_init st) then crc32c_init_table else st)
    = crc32c_table crc32c_init_table) as Ht by (destruct (crc32c_table_init st) eqn:E; simpl; auto).
  rewrite sub_buf_Done by (pose proof (zlen_nonneg data); lia). rewrite Ht. cbn [obind].
  assert (ztake (zlen data) (zdrop 0 data) = data) as -> by (by rewrite ztake_all).
  rewrite crc_bytes_ref by done. cbn [obind]. eexists. split; [done |].
  unfold table_ok. destruct (crc32c_table_init st) eqn:E; simpl; auto.
Qed.

Lemma not32_not32 x : not32 (not32 x) = x.
Proof. unfold not32. lia. Qed.

(** the table-driven checksum is CRC-32C.  Whether or not the table has
    been initialised, [nxp_crc32c_update] computes the bit-serial checksum and
    leaves a correct table; and the checksum of a message can be computed piece
    by piece. *)
Theorem crc32c_correct st crc a b : table_ok st -> bytes_ok a -> bytes_ok b ->
  exists st1 st2,
    nxp_crc32c_update st crc a (zlen a) = Done (crc_ref crc a, st1) /\
    nxp_crc32c_update st1 (crc_ref crc a) b (zlen b) = Done (crc_ref crc (a ++ b), st2) /\
    table_ok st2.
Proof.
  intros Hst Ha Hb. destruct (update_ok st crc a Hst Ha) as (st1 & H1 & Hst1 & _).
  destruct (update_ok st1 (crc_ref crc a) b Hst1 Hb) as (st2 & H2 & Hst2 & _).
  exists st1, st2. split_and!; [done | | done]. rewrite H2. do 2 f_equal. unfold crc_ref.
  by rewrite not32_not32, foldl_app.
Qed.

(** The check value of CRC-32C: the digits 1 to 9. *)
Example crc32c_check_value :
  match nxp_crc32c crc32c_zero [49; 50; 51; 52; 53; 54; 55; 56; 57] 9 with
  | Done (c, _) => c = 0xE3069283
  | _ => False
  end.
Proof. vm_compute. reflexivity. Qed.

Lemma crc32c_correct_witness :
  exists st1 st2,
    nxp_crc32c_update crc32c_zero 0 [49; 50; 51; 52] 4 = Done (crc_ref 0 [49; 50; 51; 52], st1) /\
    nxp_crc32c_update st1 (crc_ref 0 [49; 50; 51; 52]) [53; 54; 55; 56; 57] 5 = Done (0xE3069283, st2) /\
    table_ok st2.
Proof.
  change 0xE3069283 with (crc_ref 0 ([49; 50; 51; 52] ++ [53; 54; 55; 56; 57])).
  apply (crc32c_correct crc32c_zero 0 [49; 50; 51; 52] [53; 54; 55; 56; 57]);
    [discriminate | repeat constructor; lia | repeat constructor; lia].
Defined.
