(* ===== verification/Heartbeat.v ===== *)
(** * The heartbeat engine (src/core/heartbeat.c, heartbeat_internal.h)

    Keep-alive probes: a probe every interval, a miss for each interval without
    a response, and a dead connection after three of them. *)

From S2P Require Import Prelude.

Definition NXP_HEARTBEAT_DEFAULT_INTERVAL_US : Z := 5 * 1000000.
Definition NXP_HEARTBEAT_MISS_THRESHOLD : Z := 3.

Record nxp_heartbeat := HB {
  interval_us : Z;
  last_sent_us : Z;
  last_recv_us : Z;
  pending_timestamp : Z;
  consecutive_misses : Z;
  enabled : bool;
  send_heartbeat : bool;
  send_echo : bool;
  echo_timestamp : Z;
  awaiting_response : bool;
  time_initialized : bool }.

#[export] Instance eta_heartbeat : Eta nxp_heartbeat := fun h =>
  HB (interval_us h) (last_sent_us h) (last_recv_us h) (pending_timestamp h) (consecutive_misses h)
    (enabled h) (send_heartbeat h) (send_echo h) (echo_timestamp h) (awaiting_response h)
    (time_initialized h).

Definition nxp_heartbeat_init (interval : Z) : nxp_heartbeat :=
  HB interval 0 0 0 0 (interval >? 0) false false 0 false false.

Definition nxp_heartbeat_check (h : nxp_heartbeat) (now_us : Z) : nxp_heartbeat :=
  if negb (enabled h) then h else
  let '(h, fire) :=
    if negb (time_initialized h) then (h <| time_initialized := true |>, true)
    else (h, now_us >=? u64 (last_sent_us h + interval_us h)) in
  if (fire : bool) then
    let h := if awaiting_response h
             then h <| consecutive_misses := u32 (consecutive_misses h + 1) |> else h in
    h <| send_heartbeat := true |> <| pending_timestamp := now_us |>
      <| awaiting_response := true |> <| last_sent_us := now_us |>
  else h.

Definition nxp_heartbeat_on_recv (h : nxp_heartbeat) (timestamp_us now_us : Z) : nxp_heartbeat :=
  h <| last_recv_us := now_us |> <| send_echo := true |> <| echo_timestamp := timestamp_us |>
    <| consecutive_misses := 0 |> <| awaiting_response := false |>.

(** The time is ignored by the code. *)
Definition nxp_heartbeat_on_echo (h : nxp_heartbeat) (echo now_us : Z) : nxp_heartbeat :=
  if echo =? pending_timestamp h
  then h <| consecutive_misses := 0 |> <| awaiting_response := false |> else h.

Definition nxp_heartbeat_next_timeout (h : nxp_heartbeat) : Z :=
  if negb (enabled h) then UINT64_MAX else u64 (last_sent_us h + interval_us h).

Definition nxp_heartbeat_is_dead (h : nxp_heartbeat) : bool :=
  if negb (enabled h) then false else consecutive_misses h >=? NXP_HEARTBEAT_MISS_THRESHOLD.

Definition nxp_heartbeat_has_pending (h : nxp_heartbeat) : bool := send_heartbeat h || send_echo h.

(** ** Runs *)

Inductive hb_event := HCheck (now : Z) | HRecv (timestamp now : Z) | HEcho (echo now : Z).

Definition ev_time (e : hb_event) : Z :=
  match e with HCheck t | HRecv _ t | HEcho _ t => t end.

(** The engine, with the time it last heard of the peer. *)
Definition hb_step (hl : nxp_heartbeat * Z) (e : hb_event) : nxp_heartbeat * Z :=
  let '(h, heard) := hl in
  match e with
  | HCheck t => (nxp_heartbeat_check h t, heard)
  | HRecv ts t => (nxp_heartbeat_on_recv h ts t, t)
  | HEcho ec t => (nxp_heartbeat_on_echo h ec t, if ec =? pending_timestamp h then t else heard)
  end.

Fixpoint in_order (now : Z) (evs : list hb_event) : Prop :=
  match evs with
  | [] => True
  | e :: evs => now <= ev_time e < 2 ^ 62 /\ in_order (ev_time e) evs
  end.

(** At time [now], every miss accounts for an interval since the peer was
    last heard of. *)
Definition hb_ok (h : nxp_heartbeat) (heard now : Z) : Prop :=
  0 <= interval_us h < 2 ^ 62 /\ 0 <= heard <= now /\ 0 <= last_sent_us h <= now /\
  0 <= consecutive_misses h < 2 ^ 32 /\
  (awaiting_response h = true -> time_initialized h = true /\
    heard + consecutive_misses h * interval_us h <= last_sent_us h) /\
  (awaiting_response h = false -> consecutive_misses h = 0).

Lemma heartbeat_check_ok h heard now t : hb_ok h heard now -> now <= t < 2 ^ 62 ->
  hb_ok (nxp_heartbeat_check h t) heard t.
Proof.
  intros (Hi & Hh & Hl & Hm & Ha & Hn) Ht. unfold nxp_heartbeat_check.
  destruct (enabled h); simpl; [| unfold hb_ok; split_and!; (done || lia)].
  destruct (time_initialized h) eqn:Hinit; simpl.
  - rewrite u64_small, Z.geb_leb by lia.
    destruct (Z.leb_spec (last_sent_us h + interval_us h) t); [| unfold hb_ok; rewrite Hinit; split_and!; (done || lia)].
    pose proof (u32_range (consecutive_misses h + 1)).
    assert (u32 (consecutive_misses h + 1) <= consecutive_misses h + 1) by (apply Z.mod_le; lia).
    destruct (awaiting_response h); unfold hb_ok; simpl; rewrite ?Hinit; split_and!; try (done || lia);
      intros _; (split; [done |]).
    destruct Ha as [_ Ha]; [done |]. nia.
  - destruct (awaiting_response h); [destruct Ha; done |]. unfold hb_ok. simpl.
    split_and!; (done || lia).
Qed.

Lemma hb_step_ok h heard now e h' heard' : hb_ok h heard now -> now <= ev_time e < 2 ^ 62 ->
  hb_step (h, heard) e = (h', heard') -> hb_ok h' heard' (ev_time e).
Proof.
  intros Hok Ht. destruct e as [t | ts t | ec t]; simpl in *; intros [= <- <-].
  - by eapply heartbeat_check_ok.
  - destruct Hok as (? & ? & ? & ? & _). unfold hb_ok. simpl. split_and!; (done || lia).
  - destruct Hok as (? & ? & ? & ? & ? & ?). unfold nxp_heartbeat_on_echo.
    destruct (ec =? pending_timestamp h); unfold hb_ok; simpl; split_and!; (done || lia).
Qed.

Lemma hb_run_ok evs : forall h heard now h' heard', hb_ok h heard now -> in_order now evs ->
  foldl hb_step (h, heard) evs = (h', heard') -> exists now', hb_ok h' heard' now'.
Proof.
  induction evs as [| e evs IH]; intros h heard now h' heard' Hok Hord.
  - intros [= <- <-]. eauto.
  - destruct Hord as [Ht Hord]. cbn [foldl]. destruct (hb_step (h, heard) e) as [h1 heard1] eqn:Hs.
    apply (IH h1 heard1 (ev_time e)); [by eapply hb_step_ok | done].
Qed.

(** no false alarm.  Whatever the order of checks, received heartbeats and
    echoes, a connection is declared dead only after three full intervals have
    passed without news of the peer. *)
Theorem heartbeat_no_false_alarm interval start evs h heard :
  0 <= interval < 2 ^ 62 -> 0 <= start -> in_order start evs ->
  foldl hb_step (nxp_heartbeat_init interval, start) evs = (h, heard) ->
  nxp_heartbeat_is_dead h = true ->
  heard + NXP_HEARTBEAT_MISS_THRESHOLD * interval_us h <= last_sent_us h.
Proof.
  intros Hi Hs Hord Hrun Hdead.
  assert (hb_ok (nxp_heartbeat_init interval) start start) as H0.
  { unfold hb_ok. simpl. split_and!; (done || lia). }
  destruct (hb_run_ok evs _ _ _ _ _ H0 Hord Hrun) as (now & Hok).
  unfold nxp_heartbeat_is_dead, NXP_HEARTBEAT_MISS_THRESHOLD in *.
  destruct (enabled h); [| done]. simpl in Hdead. apply Z.geb_le in Hdead.
  destruct Hok as (? & _ & _ & _ & Ha & Hn). destruct (awaiting_response h).
  - destruct Ha as [_ Ha]; [done |]. nia.
  - rewrite Hn in Hdead by done. lia.
Qed.

(** A check at or after the deadline sends a probe, and counts the previous one
    as missed if it was not answered. *)
Lemma check_fires h t : enabled h = true -> 0 <= last_sent_us h -> 0 <= interval_us h ->
  last_sent_us h + interval_us h <= t < 2 ^ 62 ->
  0 <= consecutive_misses h < 2 ^ 31 ->
  let h' := nxp_heartbeat_check h t in
  send_heartbeat h' = true /\ awaiting_response h' = true /\ last_sent_us h' = t /\
  enabled h' = true /\ interval_us h' = interval_us h /\ time_initialized h' = true /\
  consecutive_misses h' = consecutive_misses h + (if awaiting_response h then 1 else 0).
Proof.
  intros He Hl Hi Ht Hm. unfold nxp_heartbeat_check. rewrite He. simpl.
  destruct (time_initialized h) eqn:Hinit; simpl.
  - rewrite u64_small, Z.geb_leb, (proj2 (Z.leb_le _ _)) by lia.
    destruct (awaiting_response h); simpl; rewrite ?u32_small by lia; split_and!; (done || lia).
  - destruct (awaiting_response h); simpl; rewrite ?u32_small by lia; split_and!; (done || lia).
Qed.

(** detection.  With a silent peer, four checks at least an interval apart
    declare the connection dead, and each of them asks for a probe. *)
Theorem heartbeat_detects h t1 t2 t3 t4 : enabled h = true -> 0 <= interval_us h -> 0 <= last_sent_us h ->
  0 <= consecutive_misses h < 2 ^ 30 ->
  last_sent_us h + interval_us h <= t1 -> t1 + interval_us h <= t2 ->
  t2 + interval_us h <= t3 -> t3 + interval_us h <= t4 -> t4 < 2 ^ 62 ->
  let h4 := foldl nxp_heartbeat_check h [t1; t2; t3; t4] in
  nxp_heartbeat_is_dead h4 = true /\ nxp_heartbeat_has_pending h4 = true.
Proof.
  intros He Hi Hl Hm H1 H2 H3 H4 Hmax. cbn [foldl].
  pose proof (check_fires h t1 He Hl Hi ltac:(lia) ltac:(lia)) as F1. cbv zeta in F1.
  set (h1 := nxp_heartbeat_check h t1) in *. destruct F1 as (_ & A1 & L1 & E1 & I1 & _ & M1).
  pose proof (check_fires h1 t2 E1 ltac:(lia) ltac:(lia) ltac:(lia) ltac:(destruct (awaiting_response h); lia)) as F2.
  cbv zeta in F2. rewrite A1 in F2.
  set (h2 := nxp_heartbeat_check h1 t2) in *. destruct F2 as (_ & A2 & L2 & E2 & I2 & _ & M2).
  pose proof (check_fires h2 t3 E2 ltac:(lia) ltac:(lia) ltac:(lia) ltac:(destruct (awaiting_response h); lia)) as F3.
  cbv zeta in F3. rewrite A2 in F3.
  set (h3 := nxp_heartbeat_check h2 t3) in *. destruct F3 as (_ & A3 & L3 & E3 & I3 & _ & M3).
  pose proof (check_fires h3 t4 E3 ltac:(lia) ltac:(lia) ltac:(lia) ltac:(destruct (awaiting_response h); lia)) as F4.
  cbv zeta in F4. rewrite A3 in F4. destruct F4 as (P4 & _ & _ & E4 & _ & _ & M4).
  unfold nxp_heartbeat_is_dead, nxp_heartbeat_has_pending, NXP_HEARTBEAT_MISS_THRESHOLD.
  rewrite E4, P4. split; [| done]. simpl. apply Z.geb_le. destruct (awaiting_response h); lia.
Qed.

Lemma heartbeat_no_false_alarm_witness :
  let r := foldl hb_step (nxp_heartbeat_init 5, 0) [HCheck 1; HRecv 9 2; HCheck 6; HCheck 11; HCheck 16; HCheck 21] in
  nxp_heartbeat_is_dead r.1 = true /\ r.2 + NXP_HEARTBEAT_MISS_THRESHOLD * interval_us r.1 <= last_sent_us r.1.
Proof.
  split; [reflexivity |].
  apply (heartbeat_no_false_alarm 5 0 [HCheck 1; HRecv 9 2; HCheck 6; HCheck 11; HCheck 16; HCheck 21]);
    (lia || by_compute).
Defined.

Lemma heartbeat_detects_witness :
  nxp_heartbeat_is_dead (foldl nxp_heartbeat_check (nxp_heartbeat_init 5) [5; 10; 15; 20]) = true.
Proof. apply (heartbeat_detects (nxp_heartbeat_init 5) 5 10 15 20); (reflexivity || by_compute). Defined.
