(* ===== verification/Migration.v ===== *)
(** * Connection migration (src/core/migration.c, migration_internal.h)

    Path validation by challenge and response, and the pool of connection ids
    supplied by the peer. *)

From S2P Require Import Prelude Types Varint Codec Frame.

Definition NXP_MAX_CID_POOL_SIZE : Z := 8.
Definition NXP_DEFAULT_ACTIVE_CID_LIMIT : Z := 4.
Definition NXP_PATH_VALIDATION_TIMEOUT_FACTOR : Z := 3.
Definition NXP_STATELESS_RESET_TOKEN_LEN : Z := 16.

(** ** State *)

Record nxp_cid_entry := CidEntry {
  ce_cid : nxp_conn_id;
  ce_seq_num : Z;
  stateless_reset_token : list Z;
  in_use : bool;
  retired : bool }.

(** An address is its 28 raw bytes. *)
Record nxp_path_state := PathState {
  path_addr : list Z;
  challenge_data : list Z;
  challenge_sent_time : Z;
  challenge_pending : bool;
  validated : bool }.

Record nxp_migration_state := Migration {
  peer_cid_pool : list nxp_cid_entry;
  peer_cid_count : Z;
  local_cid_next_seq : Z;
  current_path : nxp_path_state;
  new_path : nxp_path_state;
  migration_in_progress : bool;
  send_path_challenge : bool;
  send_path_response : bool;
  pending_response_data : list Z;
  pending_new_cids : list nxp_cid_entry;
  pending_new_cid_count : Z;
  send_retire_cid : bool;
  retire_seq : Z;
  active_cid_limit : Z;
  mig_enabled : bool }.

#[export] Instance eta_cid_entry : Eta nxp_cid_entry := fun e =>
  CidEntry (ce_cid e) (ce_seq_num e) (stateless_reset_token e) (in_use e) (retired e).
#[export] Instance eta_path : Eta nxp_path_state := fun p =>
  PathState (path_addr p) (challenge_data p) (challenge_sent_time p) (challenge_pending p) (validated p).
#[export] Instance eta_migration : Eta nxp_migration_state := fun m =>
  Migration (peer_cid_pool m) (peer_cid_count m) (local_cid_next_seq m) (current_path m) (new_path m)
    (migration_in_progress m) (send_path_challenge m) (send_path_response m) (pending_response_data m)
    (pending_new_cids m) (pending_new_cid_count m) (send_retire_cid m) (retire_seq m)
    (active_cid_limit m) (mig_enabled m).

(** All zeros, as [memset] leaves them. *)
Definition cid_zero : nxp_cid_entry := CidEntry (ConnId (replicate 20 0) 0) 0 (replicate 16 0) false false.
Definition path_zero : nxp_path_state := PathState (replicate 28 0) (replicate 8 0) 0 false false.

Definition nxp_migration_init : nxp_migration_state :=
  Migration (replicate 8 cid_zero) 0 1 path_zero path_zero false false false (replicate 8 0)
    (replicate 4 cid_zero) 0 false 0 NXP_DEFAULT_ACTIVE_CID_LIMIT true.

(** ** Path validation *)

(** [random] is what [nxp_random_bytes] delivers. *)
Definition nxp_migration_on_peer_addr_change (random : nxp_result (list Z)) (m : nxp_migration_state)
    (new_addr : list Z) (now_us : Z) : nxp_migration_state * nxp_result unit :=
  if negb (mig_enabled m) then (m, Err NXP_ERR_INVALID_ARGUMENT) else
  if migration_in_progress m then (m, Done tt) else
  let m := m <| new_path := new_path m <| path_addr := new_addr |> <| validated := false |> |> in
  match random with
  | Done bytes =>
      (m <| new_path := new_path m <| challenge_data := bytes |> <| challenge_sent_time := now_us |>
              <| challenge_pending := true |> |>
         <| send_path_challenge := true |> <| migration_in_progress := true |>, Done tt)
  | Err e => (m, Err e)
  | Ub => (m, Ub)
  end.

Definition nxp_migration_on_path_challenge (m : nxp_migration_state) (data : list Z) : nxp_migration_state :=
  m <| pending_response_data := data |> <| send_path_response := true |>.

Definition nxp_migration_on_path_response (m : nxp_migration_state) (data : list Z)
  : nxp_migration_state * bool :=
  if negb (challenge_pending (new_path m)) then (m, false) else
  if negb (bool_decide (data = challenge_data (new_path m))) then (m, false) else
  let m := m <| new_path := new_path m <| validated := true |> <| challenge_pending := false |> |> in
  let m := m <| current_path := new_path m |> <| migration_in_progress := false |> in
  (m <| new_path := path_zero |>, true).

Definition nxp_migration_check_timeout (m : nxp_migration_state) (now_us pto_us : Z)
  : nxp_migration_state * bool :=
  if negb (challenge_pending (new_path m)) then (m, false) else
  let timeout := u64 (challenge_sent_time (new_path m) +
                      u64 (pto_us * NXP_PATH_VALIDATION_TIMEOUT_FACTOR)) in
  if now_us >=? timeout
  then (m <| new_path := path_zero |> <| migration_in_progress := false |>, true) else (m, false).

(** ** The pool of connection ids *)

(** The loop [for (i = 0; i < n; i++)] over an array. *)
Definition first_n {A} (n : Z) (f : A -> A) (l : list A) : list A := (f <$> ztake n l) ++ zdrop n l.

Definition retire_below (retire_prior_to : Z) (e : nxp_cid_entry) : nxp_cid_entry :=
  if (ce_seq_num e <? retire_prior_to) && negb (retired e)
  then e <| retired := true |> <| in_use := false |> else e.

Fixpoint find_index {A} (f : A -> bool) (l : list A) (i : Z) : option Z :=
  match l with
  | [] => None
  | x :: l => if f x then Some i else find_index f l (i + 1)
  end.

Definition nxp_migration_on_new_connection_id (m : nxp_migration_state) (cid : nxp_conn_id)
    (seq_num retire_prior_to : Z) (token : list Z) : nxp_migration_state :=
  let m := m <| peer_cid_pool := first_n (peer_cid_count m) (retire_below retire_prior_to) (peer_cid_pool m) |> in
  if existsb (fun e => ce_seq_num e =? seq_num) (ztake (peer_cid_count m) (peer_cid_pool m)) then m else
  let '(m, slot) :=
    if peer_cid_count m <? NXP_MAX_CID_POOL_SIZE
    then (m <| peer_cid_count := peer_cid_count m + 1 |>, Some (peer_cid_count m))
    else (m, find_index (fun e => retired e && negb (in_use e)) (peer_cid_pool m) 0) in
  match slot with
  | None => m
  | Some i => m <| peer_cid_pool := <[Z.to_nat i := CidEntry cid seq_num token false false]> (peer_cid_pool m) |>
  end.

(** The retired id is one of ours; nothing is recorded. *)
Definition nxp_migration_on_retire_connection_id (m : nxp_migration_state) (seq_num : Z) : nxp_migration_state := m.

Definition nxp_migration_get_unused_cid (m : nxp_migration_state) : option nxp_cid_entry :=
  List.find (fun e => negb (in_use e) && negb (retired e)) (ztake (peer_cid_count m) (peer_cid_pool m)).

(** Release the ids in use; the last of them is to be retired. *)
Fixpoint release (l : list nxp_cid_entry) (send : bool) (seq : Z) : list nxp_cid_entry * bool * Z :=
  match l with
  | [] => ([], send, seq)
  | e :: l =>
      if in_use e then
        let '(l, send, seq) := release l true (ce_seq_num e) in (e <| in_use := false |> :: l, send, seq)
      else let '(l, send, seq) := release l send seq in (e :: l, send, seq)
  end.

Fixpoint mark_in_use (seq_num : Z) (l : list nxp_cid_entry) : list nxp_cid_entry :=
  match l with
  | [] => []
  | e :: l => if ce_seq_num e =? seq_num then e <| in_use := true |> :: l else e :: mark_in_use seq_num l
  end.

Definition nxp_migration_use_cid (m : nxp_migration_state) (seq_num : Z) : nxp_migration_state :=
  let n := peer_cid_count m in
  let '(l, send, seq) := release (ztake n (peer_cid_pool m)) (send_retire_cid m) (retire_seq m) in
  m <| peer_cid_pool := mark_in_use seq_num l ++ zdrop n (peer_cid_pool m) |>
    <| send_retire_cid := send |> <| retire_seq := seq |>.

(** ** Our own connection ids

    [rand seq] is what the two calls of [nxp_random_bytes] leave in the entry
    (their results are ignored). *)
Fixpoint generate_loop (fuel : nat) (rand : Z -> list Z * list Z) (m : nxp_migration_state)
    (base_scid : nxp_conn_id) (generated : Z) : nxp_migration_state * Z :=
  match fuel with
  | O => (m, generated)
  | S fuel =>
      if (pending_new_cid_count m <? active_cid_limit m) &&
         (pending_new_cid_count m <? NXP_DEFAULT_ACTIVE_CID_LIMIT) then
        let seq := local_cid_next_seq m in
        let e := CidEntry (ConnId (rand seq).1 (cid_len base_scid)) seq (rand seq).2 false false in
        generate_loop fuel rand
          (m <| pending_new_cids := <[Z.to_nat (pending_new_cid_count m) := e]> (pending_new_cids m) |>
             <| local_cid_next_seq := u64 (seq + 1) |>
             <| pending_new_cid_count := pending_new_cid_count m + 1 |>)
          base_scid (generated + 1)
      else (m, generated)
  end.

(** At most [NXP_DEFAULT_ACTIVE_CID_LIMIT] rounds. *)
Definition nxp_migration_generate_cids (rand : Z -> list Z * list Z) (m : nxp_migration_state)
    (base_scid : nxp_conn_id) : nxp_migration_state * Z :=
  generate_loop (Z.to_nat NXP_DEFAULT_ACTIVE_CID_LIMIT) rand m base_scid 0.

Definition nxp_migration_has_pending (m : nxp_migration_state) : bool :=
  send_path_challenge m || send_path_response m || send_retire_cid m || (pending_new_cid_count m >? 0).

(** ** Runs *)

Inductive mig_event :=
| MAddr (random : nxp_result (list Z)) (addr : list Z) (now : Z)
| MChallenge (data : list Z)
| MResponse (data : list Z)
| MNewCid (cid : nxp_conn_id) (seq_num retire_prior_to : Z) (token : list Z)
| MRetireCid (seq_num : Z)
| MUseCid (seq_num : Z)
| MGenerate (rand : Z -> list Z * list Z) (base_scid : nxp_conn_id)
| MTimeout (now pto : Z).

Definition mig_step (m : nxp_migration_state) (e : mig_event) : nxp_migration_state :=
  match e with
  | MAddr random addr now => (nxp_migration_on_peer_addr_change random m addr now).1
  | MChallenge data => nxp_migration_on_path_challenge m data
  | MResponse data => (nxp_migration_on_path_response m data).1
  | MNewCid cid seq rpt tok => nxp_migration_on_new_connection_id m cid seq rpt tok
  | MRetireCid seq => nxp_migration_on_retire_connection_id m seq
  | MUseCid seq => nxp_migration_use_cid m seq
  | MGenerate rand base => (nxp_migration_generate_cids rand m base).1
  | MTimeout now pto => (nxp_migration_check_timeout m now pto).1
  end.

Definition mig_run (evs : list mig_event) : nxp_migration_state := foldl mig_step nxp_migration_init evs.

(** ** Path validation is sound *)

(** The path fields, which the id operations do not touch. *)
Definition paths (m : nxp_migration_state) := (current_path m, new_path m, migration_in_progress m).

Lemma new_cid_paths m cid seq rpt tok : paths (nxp_migration_on_new_connection_id m cid seq rpt tok) = paths m.
Proof.
  unfold nxp_migration_on_new_connection_id. simpl. case_match; [done |].
  destruct (peer_cid_count m <? NXP_MAX_CID_POOL_SIZE); [done |]. by destruct (find_index _ _ _).
Qed.

Lemma use_cid_paths m seq : paths (nxp_migration_use_cid m seq) = paths m.
Proof. unfold nxp_migration_use_cid. by destruct (release _ _ _) as [[l s] q]. Qed.

Lemma generate_paths rand base n : forall m g, paths (generate_loop n rand m base g).1 = paths m.
Proof.
  induction n as [| n IH]; intros m g; [done |]. simpl. case_match; [| done]. by rewrite IH.
Qed.

(** An outstanding challenge was sent to the new address, and a validated
    current address answered the challenge sent to it. *)
Definition challenged (evs : list mig_event) (addr c : list Z) : Prop :=
  exists pre now mid, evs = pre ++ MAddr (Done c) addr now :: mid.
Definition answered (evs : list mig_event) (addr : list Z) : Prop :=
  exists pre c now mid post, evs = pre ++ MAddr (Done c) addr now :: mid ++ MResponse c :: post.

Definition path_inv (evs : list mig_event) (m : nxp_migration_state) : Prop :=
  (migration_in_progress m = false -> challenge_pending (new_path m) = false) /\
  (challenge_pending (new_path m) = true ->
    challenged evs (path_addr (new_path m)) (challenge_data (new_path m))) /\
  (validated (current_path m) = true -> answered evs (path_addr (current_path m))).

Lemma challenged_snoc evs a c e : challenged evs a c -> challenged (evs ++ [e]) a c.
Proof. intros (pre & now & mid & ->). exists pre, now, (mid ++ [e]). by rewrite <- app_assoc. Qed.
Lemma answered_snoc evs a e : answered evs a -> answered (evs ++ [e]) a.
Proof.
  intros (pre & c & now & mid & post & ->). exists pre, c, now, mid, (post ++ [e]).
  by rewrite <- app_assoc; simpl; rewrite <- app_assoc.
Qed.

Lemma path_inv_same evs e m m' : paths m' = paths m -> path_inv evs m -> path_inv (evs ++ [e]) m'.
Proof.
  unfold paths. intros [= H1 H2 H3] (Ha & Hb & Hc). unfold path_inv. rewrite H1, H2, H3.
  split_and!; auto using challenged_snoc, answered_snoc.
Qed.

Lemma path_inv_step evs m e : path_inv evs m -> path_inv (evs ++ [e]) (mig_step m e).
Proof.
  intros Hinv. pose proof Hinv as (Ha & Hb & Hc).
  destruct e as [random addr now | data | data | cid seq rpt tok | seq | seq | rand base | now pto]; simpl.
  - unfold nxp_migration_on_peer_addr_change. destruct (mig_enabled m); simpl; [| by eapply path_inv_same].
    destruct (migration_in_progress m) eqn:Hp; simpl; [by eapply path_inv_same |].
    destruct random as [c | e |]; simpl; unfold path_inv; simpl; rewrite ?Hp, ?Ha by done;
      split_and!; try done; try (intros _; by apply Ha); auto using answered_snoc.
    intros _. exists evs, now, []. done.
  - by eapply path_inv_same.
  - unfold nxp_migration_on_path_response.
    destruct (challenge_pending (new_path m)) eqn:Hp; simpl; [| by eapply path_inv_same].
    case_bool_decide as Hd; simpl; [| by eapply path_inv_same].
    unfold path_inv. simpl. split_and!; [done | done |]. intros _.
    destruct (Hb eq_refl) as (pre & now & mid & ->). subst data.
    exists pre, (challenge_data (new_path m)), now, mid, []. by rewrite <- app_assoc.
  - eapply path_inv_same; [apply new_cid_paths | done].
  - by eapply path_inv_same.
  - eapply path_inv_same; [apply use_cid_paths | done].
  - eapply path_inv_same; [apply generate_paths | done].
  - unfold nxp_migration_check_timeout. destruct (challenge_pending (new_path m)); simpl; [| by eapply path_inv_same].
    case_match; simpl; [| by eapply path_inv_same].
    unfold path_inv. simpl. split_and!; auto using answered_snoc; done.
Qed.

Lemma path_inv_run evs : path_inv evs (mig_run evs).
Proof.
  induction evs as [| e evs IH] using rev_ind.
  - unfold path_inv. simpl. split_and!; done.
  - unfold mig_run in *. rewrite foldl_snoc. by apply path_inv_step.
Qed.

(** path validation.  In any run of the migration engine, the current path
    counts as validated only if a challenge was issued for its address, with
    random bytes that a later PATH_RESPONSE echoed. *)
Theorem migration_path_validated evs : validated (current_path (mig_run evs)) = true ->
  exists pre c now mid post,
    evs = pre ++ MAddr (Done c) (path_addr (current_path (mig_run evs))) now :: mid ++ MResponse c :: post.
Proof. apply (path_inv_run evs). Qed.

Lemma migration_path_validated_witness :
  let evs := [MAddr (Done [1; 2; 3; 4; 5; 6; 7; 8]) [9; 9] 100; MResponse [0; 0; 0; 0; 0; 0; 0; 0];
              MResponse [1; 2; 3; 4; 5; 6; 7; 8]] in
  exists pre c now mid post,
    evs = pre ++ MAddr (Done c) (path_addr (current_path (mig_run evs))) now :: mid ++ MResponse c :: post.
Proof. apply migration_path_validated. reflexivity. Defined.

(** ** The pool of connection ids *)

Definition active (m : nxp_migration_state) : list nxp_cid_entry := ztake (peer_cid_count m) (peer_cid_pool m).
Definition used (l : list nxp_cid_entry) : list nxp_cid_entry := List.filter in_use l.

(** The pool is within bounds, has each sequence number once, and at most one
    id in use; at most [NXP_DEFAULT_ACTIVE_CID_LIMIT] ids wait to be announced. *)
Record pool_ok (m : nxp_migration_state) : Prop := {
  po_size : zlen (peer_cid_pool m) = NXP_MAX_CID_POOL_SIZE;
  po_count : 0 <= peer_cid_count m <= NXP_MAX_CID_POOL_SIZE;
  po_seqs : NoDup (ce_seq_num <$> active m);
  po_used : zlen (used (active m)) <= 1;
  po_pending : zlen (pending_new_cids m) = NXP_DEFAULT_ACTIVE_CID_LIMIT /\
    0 <= pending_new_cid_count m <= NXP_DEFAULT_ACTIVE_CID_LIMIT }.

Lemma zlen_first_n {A} n (f : A -> A) l : 0 <= n -> zlen (first_n n f l) = zlen l.
Proof. intros. unfold first_n, zlen, ztake, zdrop. rewrite length_app, length_fmap, length_take, length_drop. lia. Qed.

Lemma ztake_first_n {A} n (f : A -> A) l : 0 <= n <= zlen l -> ztake n (first_n n f l) = f <$> ztake n l.
Proof.
  intros Hn. unfold first_n, ztake. rewrite take_app_le.
  - rewrite take_ge; [done |]. rewrite length_fmap, length_take. lia.
  - rewrite length_fmap, length_take. unfold zlen in Hn. lia.
Qed.

Lemma retire_below_seqs rpt (l : list nxp_cid_entry) : ce_seq_num <$> (retire_below rpt <$> l) = ce_seq_num <$> l.
Proof.
  rewrite <- list_fmap_compose. apply list_fmap_ext. intros i e _. unfold retire_below. simpl.
  by case_match.
Qed.

Lemma retire_below_used rpt l : zlen (used (retire_below rpt <$> l)) <= zlen (used l).
Proof.
  induction l as [| e l IH]; [done |]. unfold used in *. rewrite fmap_cons. cbn [List.filter].
  assert (in_use (retire_below rpt e) = true -> in_use e = true) as He
    by (unfold retire_below; by case_match).
  revert He. destruct (in_use (retire_below rpt e)), (in_use e); intros He; rewrite ?zlen_cons;
    lia.
Qed.

Lemma used_insert l i e0 e : l !! i = Some e0 -> in_use e0 = false -> in_use e = false ->
  used (<[i := e]> l) = used l.
Proof.
  revert i. induction l as [| x l IH]; intros i Hi H0 He; [done |]. unfold used in *.
  destruct i as [| i]; simpl in *.
  - injection Hi as ->. by rewrite H0, He.
  - by rewrite IH.
Qed.

Lemma NoDup_insert_fresh (l : list Z) i x : NoDup l -> x ∉ l -> NoDup (<[i := x]> l).
Proof.
  intros Hnd Hx. apply NoDup_alt. intros a b y Ha Hb.
  apply list_lookup_insert_Some in Ha as [(? & ? & _) | [Na Ha]],
    Hb as [(? & ? & _) | [Nb Hb]]; subst; try done.
  - exfalso. apply Hx. by eapply list_elem_of_lookup_2.
  - exfalso. apply Hx. by eapply list_elem_of_lookup_2.
  - by eapply NoDup_lookup.
Qed.

Lemma find_index_spec {A} (f : A -> bool) l : forall i j, find_index f l i = Some j ->
  exists x, 0 <= j - i /\ l !! Z.to_nat (j - i) = Some x /\ f x = true.
Proof.
  induction l as [| x l IH]; intros i j; [done |]. simpl. destruct (f x) eqn:Hf.
  - intros [= <-]. exists x. by rewrite Z.sub_diag.
  - intros (y & Hj & Hl & Hy)%IH. exists y. split_and!; [lia | | done].
    replace (Z.to_nat (j - i)) with (S (Z.to_nat (j - (i + 1)))) by lia. done.
Qed.

(** The effect of the retirements. *)
Lemma retire_ok m rpt : pool_ok m ->
  pool_ok (m <| peer_cid_pool := first_n (peer_cid_count m) (retire_below rpt) (peer_cid_pool m) |>).
Proof.
  intros [Hs Hc Hq Hu Hp]. split; simpl; unfold active; simpl; rewrite ?zlen_first_n, ?ztake_first_n by lia.
  - done.
  - done.
  - by rewrite retire_below_seqs.
  - pose proof (retire_below_used rpt (active m)). unfold active in *. lia.
  - done.
Qed.

Lemma new_cid_ok m cid seq rpt tok : pool_ok m -> pool_ok (nxp_migration_on_new_connection_id m cid seq rpt tok).
Proof.
  intros Hok%(retire_ok m rpt). unfold nxp_migration_on_new_connection_id.
  set (m1 := m <| peer_cid_pool := _ |>) in *. clearbody m1. fold (active m1).
  pose proof Hok as [Hs Hc Hq Hu Hp]. unfold NXP_MAX_CID_POOL_SIZE in *.
  destruct (existsb _ (active m1)) eqn:Hex; [done |].
  assert (seq ∉ ce_seq_num <$> active m1) as Hfresh.
  { intros (e & -> & Hin)%list_elem_of_fmap. apply list_elem_of_In in Hin.
    apply not_true_iff_false in Hex. apply Hex, existsb_exists. exists e. by rewrite Z.eqb_refl. }
  set (e := CidEntry cid seq tok false false).
  destruct (Z.ltb_spec (peer_cid_count m1) 8) as [Hlt | Hge].
  - assert (ztake (peer_cid_count m1 + 1) (<[Z.to_nat (peer_cid_count m1) := e]> (peer_cid_pool m1))
      = active m1 ++ [e]) as Hact.
    { unfold active, ztake. replace (Z.to_nat (peer_cid_count m1 + 1)) with (S (Z.to_nat (peer_cid_count m1))) by lia.
      rewrite (take_S_r _ _ e).
      - by rewrite take_insert_ge by lia.
      - apply list_lookup_insert_eq. unfold zlen in Hs. lia. }
    split; simpl; unfold active; simpl; rewrite ?Hact; unfold NXP_MAX_CID_POOL_SIZE, zlen in *.
    + by rewrite length_insert.
    + lia.
    + rewrite fmap_app. simpl. rewrite <- Permutation_cons_append. by apply list.NoDup_cons.
    + unfold used in *. rewrite List.filter_app. simpl. by rewrite app_nil_r.
    + done.
  - destruct (find_index _ _ 0) as [i |] eqn:Hf; [| done].
    apply find_index_spec in Hf as (e0 & Hi & He0 & [_ Hnu%negb_true_iff]%andb_true_iff).
    rewrite Z.sub_0_r in He0.
    assert (active m1 = peer_cid_pool m1) as Hact.
    { unfold active, ztake. apply take_ge. unfold zlen in Hs. lia. }
    assert (ztake (peer_cid_count m1) (<[Z.to_nat i := e]> (peer_cid_pool m1))
      = <[Z.to_nat i := e]> (peer_cid_pool m1)) as Hact'.
    { unfold ztake. apply take_ge. rewrite length_insert. unfold zlen in Hs. lia. }
    split; simpl; unfold active; simpl; rewrite ?Hact'; rewrite Hact in *; unfold NXP_MAX_CID_POOL_SIZE.
    + unfold zlen in *. by rewrite length_insert.
    + lia.
    + rewrite list_fmap_insert. by apply NoDup_insert_fresh.
    + by rewrite (used_insert _ _ e0).
    + done.
Qed.

Lemma release_spec l : forall send seq,
  let '(l', send', seq') := release l send seq in
  ce_seq_num <$> l' = ce_seq_num <$> l /\ used l' = [] /\ zlen l' = zlen l /\
  (used l = [] -> send' = send /\ seq' = seq) /\
  (forall e, used l = [e] -> send' = true /\ seq' = ce_seq_num e).
Proof.
  induction l as [| e l IH]; intros send seq; simpl; [done |]. unfold used in *. simpl.
  destruct (in_use e) eqn:He.
  - specialize (IH true (ce_seq_num e)). destruct (release l true (ce_seq_num e)) as [[l' s'] q'].
    destruct IH as (H1 & H2 & H3 & H4 & H5). rewrite !fmap_cons, !zlen_cons, H3. simpl. rewrite H1, H2. split_and!; try done.
    intros x [= <- Hnil]. by apply H4.
  - specialize (IH send seq). destruct (release l send seq) as [[l' s'] q'].
    destruct IH as (H1 & H2 & H3 & H4 & H5). rewrite !fmap_cons, !zlen_cons, H3. simpl. rewrite H1, H2, He. done.
Qed.

Lemma mark_spec seq l : used l = [] ->
  ce_seq_num <$> mark_in_use seq l = ce_seq_num <$> l /\ zlen (mark_in_use seq l) = zlen l /\
  zlen (used (mark_in_use seq l)) <= 1 /\
  (seq ∈ ce_seq_num <$> l -> ce_seq_num <$> used (mark_in_use seq l) = [seq]).
Proof.
  induction l as [| e l IH]; [intros _; split_and!; try done; by intros ?%not_elem_of_nil |].
  unfold used in *. cbn [mark_in_use List.filter]. destruct (in_use e) eqn:He; [done |]. intros Hl.
  destruct (Z.eqb_spec (ce_seq_num e) seq) as [<- | Hne]; rewrite !fmap_cons, !zlen_cons; cbn [List.filter].
  - simpl. rewrite Hl. split_and!; done.
  - rewrite He. destruct (IH Hl) as (-> & -> & H3 & H4). split_and!; [done | done | done |].
    intros [? | Hin]%elem_of_cons; [congruence | auto].
Qed.

Lemma use_cid_ok m seq : pool_ok m ->
  pool_ok (nxp_migration_use_cid m seq) /\
  (seq ∈ ce_seq_num <$> active m -> ce_seq_num <$> used (active (nxp_migration_use_cid m seq)) = [seq]) /\
  (forall e, used (active m) = [e] ->
    send_retire_cid (nxp_migration_use_cid m seq) = true /\
    retire_seq (nxp_migration_use_cid m seq) = ce_seq_num e).
Proof.
  intros [Hs Hc Hq Hu Hp]. unfold nxp_migration_use_cid. fold (active m).
  pose proof (release_spec (active m) (send_retire_cid m) (retire_seq m)) as Hr.
  destruct (release _ _ _) as [[l send] q]. destruct Hr as (R1 & R2 & R3 & _ & R5).
  destruct (mark_spec seq l R2) as (K1 & K2 & K3 & K4).
  assert (zlen (active m) = peer_cid_count m) as Hl by (unfold active; rewrite zlen_ztake; lia).
  assert (active (m <| peer_cid_pool := mark_in_use seq l ++ zdrop (peer_cid_count m) (peer_cid_pool m) |>
    <| send_retire_cid := send |> <| retire_seq := q |>) = mark_in_use seq l) as Ha.
  { unfold active. simpl. rewrite <- Hl, <- R3, <- K2. apply ztake_app. }
  split; [split |]; rewrite ?Ha; simpl.
  - rewrite zlen_app, zlen_zdrop by lia. lia.
  - done.
  - by rewrite K1, R1.
  - done.
  - done.
  - split; [| done]. intros Hin. apply K4. by rewrite R1.
Qed.

Lemma generate_ok rand base n : forall m g, pool_ok m -> pool_ok (generate_loop n rand m base g).1.
Proof.
  induction n as [| n IH]; intros m g Hok; [done |]. simpl.
  destruct (_ && _) eqn:Hc; [| done]. apply andb_true_iff in Hc as [_ Hc%Z.ltb_lt]. apply IH.
  destruct Hok as [? ? ? ? [? ?]]. split; try done. simpl.
  split; [| lia]. unfold zlen in *. by rewrite length_insert.
Qed.

Lemma mig_step_pool m e : pool_ok m -> pool_ok (mig_step m e).
Proof.
  intros Hok. destruct e as [random addr now | data | data | cid seq rpt tok | seq | seq | rand base | now pto]; simpl.
  - unfold nxp_migration_on_peer_addr_change. repeat case_match; try done; by destruct Hok.
  - by destruct Hok.
  - unfold nxp_migration_on_path_response. repeat case_match; try done; by destruct Hok.
  - by apply new_cid_ok.
  - done.
  - by apply use_cid_ok.
  - by apply generate_ok.
  - unfold nxp_migration_check_timeout. repeat case_match; try done; by destruct Hok.
Qed.

Lemma pool_ok_run evs : pool_ok (mig_run evs).
Proof.
  induction evs as [| e evs IH] using rev_ind.
  - split; try by_compute. constructor.
  - unfold mig_run in *. rewrite foldl_snoc. by apply mig_step_pool.
Qed.

(** the connection-id pool.  In any run, the pool stays within its array,
    holds each sequence number at most once and has at most one id in use; an id
    offered for use is neither in use nor retired; and switching to it puts
    exactly that id in use and queues the retirement of the previous one. *)
Theorem cid_pool_invariant evs :
  let m := mig_run evs in
  pool_ok m /\
  (forall e, nxp_migration_get_unused_cid m = Some e ->
    In e (active m) /\ in_use e = false /\ retired e = false /\
    let m' := nxp_migration_use_cid m (ce_seq_num e) in
    ce_seq_num <$> used (active m') = [ce_seq_num e] /\
    (forall e0, used (active m) = [e0] -> send_retire_cid m' = true /\ retire_seq m' = ce_seq_num e0)).
Proof.
  intros m. pose proof (pool_ok_run evs) as Hok. fold m in Hok. split; [done |].
  intros e He. unfold nxp_migration_get_unused_cid in He. fold (active m) in He.
  apply find_some in He as [Hin [Hu Hr]%andb_true_iff]. apply negb_true_iff in Hu, Hr.
  split; [done |]. split; [done |]. split; [done |]. intros m'. split.
  - apply use_cid_ok; [done |]. apply list_elem_of_fmap. exists e. by rewrite list_elem_of_In.
  - by apply use_cid_ok.
Qed.
