(* ===== verification/PriorityQueue.v ===== *)
(** * The timer queue (src/util/priority_queue.c)

    A binary min-heap in an array that doubles when it is full; refines a bag
    of keyed values with extraction of a least key. *)

From S2P Require Import Prelude Types.

Section PriorityQueue.
Context {V : Type}.

Record nxp_pq_entry := PqEntry { pq_key : Z; pq_value : V }.

Record nxp_priority_queue := PQ {
  pq_entries : list nxp_pq_entry;
  pq_count : Z;
  pq_capacity : Z }.

Definition PQ_PARENT (i : Z) : Z := u32 (i - 1) / 2.
Definition PQ_LEFT (i : Z) : Z := u32 (2 * i + 1).
Definition PQ_RIGHT (i : Z) : Z := u32 (2 * i + 2).

(** [entries[i]] and [entries[i] = e] *)
Definition pq_load (t : list nxp_pq_entry) (i : Z) : nxp_result nxp_pq_entry :=
  if i <? 0 then Ub else match t !! Z.to_nat i with Some e => Done e | None => Ub end.
Definition pq_store (t : list nxp_pq_entry) (i : Z) (e : nxp_pq_entry) : nxp_result (list nxp_pq_entry) :=
  if (0 <=? i) && (i <? zlen t) then Done (<[Z.to_nat i := e]> t) else Ub.

Definition swap_entries (t : list nxp_pq_entry) (a b : Z) : nxp_result (list nxp_pq_entry) :=
  let! tmp := pq_load t a in
  let! eb := pq_load t b in
  let! t := pq_store t a eb in
  pq_store t b tmp.

(** The loops take fuel: the depth of the index suffices. *)
Fixpoint sift_up (fuel : nat) (t : list nxp_pq_entry) (idx : Z) : nxp_result (list nxp_pq_entry) :=
  if idx >? 0 then
    match fuel with
    | O => Ub
    | S fuel =>
        let parent := PQ_PARENT idx in
        let! ep := pq_load t parent in
        let! ei := pq_load t idx in
        if pq_key ep <=? pq_key ei then Done t else
        let! t := swap_entries t parent idx in
        sift_up fuel t parent
    end
  else Done t.

(** The child to descend to, if smaller: [c] against the best so far. *)
Definition smaller (t : list nxp_pq_entry) (n c best : Z) : nxp_result Z :=
  if c <? n then
    let! ec := pq_load t c in
    let! eb := pq_load t best in
    Done (if pq_key ec <? pq_key eb then c else best)
  else Done best.

Fixpoint sift_down (fuel : nat) (t : list nxp_pq_entry) (n idx : Z) : nxp_result (list nxp_pq_entry) :=
  match fuel with
  | O => Ub
  | S fuel =>
      let! smallest := smaller t n (PQ_LEFT idx) idx in
      let! smallest := smaller t n (PQ_RIGHT idx) smallest in
      if smallest =? idx then Done t else
      let! t := swap_entries t idx smallest in
      sift_down fuel t n smallest
  end.

(** [junk] is the uninitialised memory that [malloc] or [realloc] returns. *)
Definition nxp_pq_create (malloc_ok : bool) (junk : list nxp_pq_entry) (initial_capacity : Z)
  : option nxp_priority_queue :=
  let cap := if initial_capacity <? 16 then 16 else initial_capacity in
  if negb malloc_ok then None else Some (PQ (ztake cap junk) 0 cap).

(** [None] when the allocation fails. *)
Definition nxp_pq_push (realloc_ok : bool) (junk : list nxp_pq_entry) (pq : nxp_priority_queue)
    (key : Z) (value : V) : nxp_result (option nxp_priority_queue) :=
  let grown :=
    if pq_count pq >=? pq_capacity pq then
      let new_cap := u32 (pq_capacity pq * 2) in
      if negb realloc_ok then None
      else Some (PQ (pq_entries pq ++ ztake (new_cap - zlen (pq_entries pq)) junk) (pq_count pq) new_cap)
    else Some pq in
  match grown with
  | None => Done None
  | Some pq =>
      let! t := pq_store (pq_entries pq) (pq_count pq) (PqEntry key value) in
      let! t := sift_up (Z.to_nat (pq_count pq)) t (pq_count pq) in
      Done (Some (PQ t (u32 (pq_count pq + 1)) (pq_capacity pq)))
  end.

Definition nxp_pq_peek (pq : nxp_priority_queue) : nxp_result (option nxp_pq_entry) :=
  if pq_count pq =? 0 then Done None else
  let! e := pq_load (pq_entries pq) 0 in Done (Some e).

Definition nxp_pq_pop (pq : nxp_priority_queue) : nxp_result (option nxp_pq_entry * nxp_priority_queue) :=
  if pq_count pq =? 0 then Done (None, pq) else
  let! e := pq_load (pq_entries pq) 0 in
  let n := pq_count pq - 1 in
  let! t := if n >? 0 then
              let! last := pq_load (pq_entries pq) n in
              let! t := pq_store (pq_entries pq) 0 last in
              sift_down (Z.to_nat n) t n 0
            else Done (pq_entries pq) in
  Done (Some e, PQ t n (pq_capacity pq)).

Definition nxp_pq_is_empty (pq : nxp_priority_queue) : bool := pq_count pq =? 0.

(** ** The keys of the array, by index *)

Implicit Types (t : list nxp_pq_entry) (e : nxp_pq_entry).

Definition key_at t (i : Z) : Z := match t !! Z.to_nat i with Some e => pq_key e | None => 0 end.
Definition par (i : Z) : Z := (i - 1) / 2.
Definition heap t (n : Z) : Prop := forall j, 0 < j < n -> key_at t (par j) <= key_at t j.

Lemma load_at t i : 0 <= i < zlen t ->
  exists e, pq_load t i = Done e /\ t !! Z.to_nat i = Some e /\ pq_key e = key_at t i.
Proof.
  intros Hi. unfold pq_load, key_at. rewrite (proj2 (Z.ltb_ge _ _)) by lia.
  destruct (lookup_lt_is_Some_2 t (Z.to_nat i)) as [e He]; [unfold zlen in Hi; lia |].
  rewrite He. by exists e.
Qed.

Lemma store_at t i e : 0 <= i < zlen t -> pq_store t i e = Done (<[Z.to_nat i := e]> t).
Proof. intros. unfold pq_store. rewrite (proj2 (Z.leb_le _ _)), (proj2 (Z.ltb_lt _ _)) by lia. done. Qed.

Lemma key_at_insert t i e j : 0 <= i < zlen t -> 0 <= j ->
  key_at (<[Z.to_nat i := e]> t) j = if Z.eq_dec j i then pq_key e else key_at t j.
Proof.
  intros Hi Hj. unfold key_at, zlen in *. destruct (Z.eq_dec j i) as [-> | ?].
  - by rewrite list_lookup_insert_eq by lia.
  - by rewrite list_lookup_insert_ne by lia.
Qed.

(** What a swap does: to the keys, and to the first [n] entries as a bag. *)
Lemma swap_spec t a b : 0 <= a < zlen t -> 0 <= b < zlen t -> a <> b ->
  exists t', swap_entries t a b = Done t' /\ zlen t' = zlen t /\
    key_at t' a = key_at t b /\ key_at t' b = key_at t a /\
    (forall j, 0 <= j -> j <> a -> j <> b -> key_at t' j = key_at t j) /\
    (forall n, a < n -> b < n -> ztake n t' ≡ₚ ztake n t).
Proof.
  intros Ha Hb Hab. destruct (load_at t a Ha) as (ea & La & Ta & Ka).
  destruct (load_at t b Hb) as (eb & Lb & Tb & Kb). unfold swap_entries. rewrite La, Lb. simpl.
  rewrite store_at by done. simpl.
  assert (zlen (<[Z.to_nat a := eb]> t) = zlen t) as Hz by (unfold zlen; by rewrite length_insert).
  rewrite store_at by lia. eexists. split; [done |].
  split; [unfold zlen; by rewrite !length_insert |].
  rewrite !key_at_insert by lia. split_and!.
  - destruct (Z.eq_dec a b); [done |]. destruct (Z.eq_dec a a); done.
  - by destruct (Z.eq_dec b b).
  - intros j Hj Hja Hjb. rewrite !key_at_insert by lia.
    destruct (Z.eq_dec j b); [done |]. by destruct (Z.eq_dec j a).
  - intros n Hn1 Hn2. unfold ztake. rewrite !take_insert_lt by lia.
    rewrite list_insert_insert_ne by lia. apply Permutation_insert_swap; rewrite lookup_take_lt; (done || lia).
Qed.

Lemma par_lt i : 0 < i -> 0 <= par i < i.
Proof. intros. unfold par. zlia. Qed.
Lemma par_children i j : 0 < j -> par j = i <-> j = 2 * i + 1 \/ j = 2 * i + 2.
Proof. intros. unfold par. zlia. Qed.

(** ** Insertion: the heap except at [i], whose parent's key may be larger *)

Lemma sift_up_spec : forall fuel t n i, 0 <= i < n -> n <= zlen t -> n < 2 ^ 31 ->
  (forall j, 0 < j < n -> j <> i -> key_at t (par j) <= key_at t j) ->
  (forall j, 0 < j < n -> 0 < i -> par j = i -> key_at t (par i) <= key_at t j) ->
  (Z.to_nat i <= fuel)%nat ->
  exists t', sift_up fuel t i = Done t' /\ zlen t' = zlen t /\ heap t' n /\ ztake n t' ≡ₚ ztake n t.
Proof.
  induction fuel as [| fuel IH]; intros t n i Hi Hn Hmax Hheap Hgp Hf.
  { replace i with 0 in * by lia. simpl. exists t. split_and!; try done.
    intros j Hj. apply Hheap; lia. }
  simpl. rewrite Z.gtb_ltb. destruct (Z.ltb_spec 0 i) as [Hi0 | Hi0].
  2: { exists t. split_and!; try done. intros j Hj. apply Hheap; lia. }
  pose proof (par_lt i Hi0). unfold PQ_PARENT. rewrite u32_small by lia. fold (par i).
  destruct (load_at t (par i)) as (ep & -> & _ & Kp); [lia |].
  destruct (load_at t i) as (ei & -> & _ & Ki); [lia |]. simpl. rewrite Kp, Ki.
  destruct (Z.leb_spec (key_at t (par i)) (key_at t i)) as [Hle | Hgt].
  { exists t. split_and!; try done. intros j Hj. destruct (Z.eq_dec j i) as [-> | ?]; [done | by apply Hheap]. }
  destruct (swap_spec t (par i) i) as (t1 & -> & Hz1 & K1 & K2 & K3 & P1); [lia | lia | lia |]. simpl.
  destruct (IH t1 n (par i)) as (t' & -> & Hz' & Hh' & P'); try lia.
  - intros j Hj Hjp. pose proof (par_lt j ltac:(lia)).
    destruct (Z.eq_dec j i) as [-> | Hji]; [lia |]. rewrite (K3 j) by lia.
    destruct (Z.eq_dec (par j) i) as [Hpi | Hpi]; [rewrite Hpi, K2; apply Hgp; lia |].
    destruct (Z.eq_dec (par j) (par i)) as [Hpp | Hpp].
    + rewrite Hpp, K1. specialize (Hheap j Hj Hji). rewrite Hpp in Hheap. lia.
    + rewrite K3 by lia. apply Hheap; lia.
  - intros j Hj Hp0 Hpj. pose proof (par_lt (par i) Hp0). pose proof (par_lt j ltac:(lia)). rewrite (K3 (par (par i))) by lia.
    pose proof (Hheap (par i) ltac:(lia) ltac:(lia)).
    destruct (Z.eq_dec j i) as [-> | Hji]; [lia |]. rewrite K3 by lia.
    specialize (Hheap j Hj Hji). rewrite Hpj in Hheap. lia.
  - exists t'. split_and!; [done | lia | done |]. rewrite P'. apply P1; lia.
Qed.

(** ** Extraction: the heap except below [i] *)

Lemma smaller_spec t n c best : 0 <= best < zlen t -> 0 <= c -> n <= zlen t ->
  exists s, smaller t n c best = Done s /\ (s = best \/ (s = c /\ c < n)) /\
    key_at t s <= key_at t best /\ (c < n -> key_at t s <= key_at t c).
Proof.
  intros Hb Hc Hn. unfold smaller. destruct (Z.ltb_spec c n) as [Hlt | ?]; [| exists best; split_and!; (auto || lia)].
  destruct (load_at t c) as (ec & -> & _ & Kc); [lia |].
  destruct (load_at t best) as (eb & -> & _ & Kb); [lia |]. simpl. rewrite Kc, Kb.
  destruct (Z.ltb_spec (key_at t c) (key_at t best)); eexists; split_and!; auto; lia.
Qed.

Lemma sift_down_spec : forall fuel t n i, 0 <= i < n -> n <= zlen t -> n < 2 ^ 31 ->
  (forall j, 0 < j < n -> par j <> i -> key_at t (par j) <= key_at t j) ->
  (forall j, 0 < j < n -> 0 < i -> par j = i -> key_at t (par i) <= key_at t j) ->
  (Z.to_nat (n - i) <= fuel)%nat ->
  exists t', sift_down fuel t n i = Done t' /\ zlen t' = zlen t /\ heap t' n /\ ztake n t' ≡ₚ ztake n t.
Proof.
  induction fuel as [| fuel IH]; intros t n i Hi Hn Hmax Hheap Hgp Hf; [lia |]. simpl.
  unfold PQ_LEFT, PQ_RIGHT. rewrite !u32_small by lia.
  destruct (smaller_spec t n (2 * i + 1) i) as (s1 & -> & S1 & L1 & L2); [lia | lia | lia |]. simpl.
  destruct (smaller_spec t n (2 * i + 2) s1) as (s & -> & S2 & L3 & L4); [lia | lia | lia |]. simpl.
  assert (forall j, 0 < j < n -> par j = i -> key_at t s <= key_at t j) as Hmin.
  { intros j Hj Hpj. apply par_children in Hpj as [-> | ->]; lia. }
  destruct (Z.eqb_spec s i) as [-> | Hne].
  { exists t. split_and!; try done. intros j Hj.
    destruct (Z.eq_dec (par j) i) as [Hp | Hp]; [rewrite Hp; auto | by apply Hheap]. }
  assert (0 < s < n /\ par s = i) as [Hs Hps].
  { split; [lia |]. apply par_children; lia. }
  pose proof (par_lt s ltac:(lia)).
  destruct (swap_spec t i s) as (t1 & -> & Hz1 & K1 & K2 & K3 & P1); [lia | lia | lia |]. simpl.
  destruct (IH t1 n s) as (t' & -> & Hz' & Hh' & P'); try lia.
  - intros j Hj Hjp. pose proof (par_lt j ltac:(lia)).
    destruct (Z.eq_dec (par j) i) as [Hpi | Hpi].
    + rewrite Hpi, K1. destruct (Z.eq_dec j s) as [-> | ?]; [lia |]. rewrite K3 by lia. auto.
    + rewrite (K3 (par j)) by lia. destruct (Z.eq_dec j i) as [-> | ?].
      * rewrite K1. apply Hgp; lia.
      * destruct (Z.eq_dec j s) as [-> | ?]; [lia |]. rewrite K3 by lia. by apply Hheap.
  - intros j Hj Hs0 Hpj. pose proof (par_lt j ltac:(lia)). rewrite Hps, K1, K3 by lia.
    specialize (Hheap j Hj ltac:(lia)). rewrite Hpj in Hheap. done.
  - exists t'. split_and!; [done | lia | done |]. rewrite P'. apply P1; lia.
Qed.

(** The root of a heap has the least key. *)
Lemma heap_root t n : heap t n -> forall j, 0 <= j < n -> key_at t 0 <= key_at t j.
Proof.
  intros Hh. intros j Hj. assert (0 <= j) as Hj0 by lia. revert Hj.
  induction j as [j IH] using (well_founded_induction (Z.lt_wf 0)). intros Hj.
  destruct (Z.eq_dec j 0) as [-> | ?]; [lia |]. pose proof (par_lt j ltac:(lia)).
  specialize (IH (par j) ltac:(lia) ltac:(lia) ltac:(lia)). specialize (Hh j ltac:(lia)). lia.
Qed.

(** ** Refinement to a bag *)

Record pq_ok (pq : nxp_priority_queue) (bag : list nxp_pq_entry) : Prop := {
  pq_shape : zlen (pq_entries pq) = pq_capacity pq /\ 16 <= pq_capacity pq <= 2 ^ 30;
  pq_range : 0 <= pq_count pq <= pq_capacity pq;
  pq_heap : heap (pq_entries pq) (pq_count pq);
  pq_bag : ztake (pq_count pq) (pq_entries pq) ≡ₚ bag }.

Lemma pq_create_ok junk n pq : 0 <= n <= 2 ^ 30 -> (if n <? 16 then 16 else n) <= zlen junk ->
  nxp_pq_create true junk n = Some pq -> pq_ok pq [].
Proof.
  intros Hn Hj. unfold nxp_pq_create. simpl. set (cap := if n <? 16 then 16 else n) in *.
  assert (16 <= cap <= 2 ^ 30) by (unfold cap; zcase; lia).
  intros [= <-]. split; simpl; [| lia | intros j; lia | done]. rewrite zlen_ztake by lia. lia.
Qed.

(** [push] on an array with room. *)
Lemma push_room pq bag key value : pq_ok pq bag -> pq_count pq < pq_capacity pq ->
  exists pq', (let! t := pq_store (pq_entries pq) (pq_count pq) (PqEntry key value) in
               let! t := sift_up (Z.to_nat (pq_count pq)) t (pq_count pq) in
               Done (Some (PQ t (u32 (pq_count pq + 1)) (pq_capacity pq)))) = Done (Some pq') /\
    pq_ok pq' (PqEntry key value :: bag).
Proof.
  intros [Hs Hr Hh Hb] Hroom. rewrite store_at by lia. simpl. set (n := pq_count pq) in *.
  set (t1 := <[Z.to_nat n := PqEntry key value]> (pq_entries pq)).
  assert (zlen t1 = zlen (pq_entries pq)) as Hz by (unfold t1, zlen; by rewrite length_insert).
  assert (forall j, 0 <= j -> j <> n -> key_at t1 j = key_at (pq_entries pq) j) as Hk.
  { intros j Hj Hjn. unfold t1. rewrite key_at_insert by lia. by destruct (Z.eq_dec j n). }
  destruct (sift_up_spec (Z.to_nat n) t1 (n + 1) n) as (t' & -> & Hz' & Hh' & P'); try lia.
  - intros j Hj Hjn. pose proof (par_lt j ltac:(lia)). rewrite !Hk by lia. apply Hh. lia.
  - intros j Hj _ Hpj. pose proof (par_lt j ltac:(lia)). lia.
  - simpl. rewrite u32_small by lia. eexists. split; [done |]. split; simpl; [lia | lia | done |].
    rewrite P'. assert (ztake (n + 1) t1 = ztake n (pq_entries pq) ++ [PqEntry key value]) as ->.
    { unfold ztake, t1. replace (Z.to_nat (n + 1)) with (S (Z.to_nat n)) by lia.
      rewrite (take_S_r _ _ (PqEntry key value)).
      - by rewrite take_insert_ge by lia.
      - apply list_lookup_insert_eq. unfold zlen in Hs. lia. }
    rewrite <- Permutation_cons_append. by rewrite Hb.
Qed.

Lemma heap_prefix t t' n : n <= zlen t -> heap t n -> heap (t ++ t') n.
Proof.
  intros Hn Hh j Hj. pose proof (par_lt j ltac:(lia)). specialize (Hh j Hj). unfold key_at, zlen in *.
  rewrite !lookup_app_l by lia. done.
Qed.

Lemma pq_push_keeps pq bag key value realloc_ok junk : pq_ok pq bag -> pq_capacity pq <= 2 ^ 29 ->
  2 * pq_capacity pq <= zlen junk ->
  exists r, nxp_pq_push realloc_ok junk pq key value = Done r /\
    match r with
    | Some pq' => pq_ok pq' (PqEntry key value :: bag)
    | None => realloc_ok = false /\ pq_count pq = pq_capacity pq
    end.
Proof.
  intros Hok Hmax Hjunk. pose proof Hok as [Hs Hr Hh Hb]. unfold nxp_pq_push. rewrite Z.geb_leb.
  destruct (Z.leb_spec (pq_capacity pq) (pq_count pq)) as [Hfull | Hspace].
  - destruct realloc_ok; cbn [negb]; [| exists None; split; [done |]; split; [done | lia]].
    rewrite u32_small by lia.
    destruct (push_room (PQ (pq_entries pq ++ ztake (pq_capacity pq * 2 - zlen (pq_entries pq)) junk)
      (pq_count pq) (pq_capacity pq * 2)) bag key value) as (pq' & -> & ?); [| simpl; lia | by exists (Some pq')].
    split; simpl; [| lia | |].
    + rewrite zlen_app, zlen_ztake by lia. lia.
    + apply heap_prefix; [lia | done].
    + unfold ztake. rewrite take_app_le; [done |]. unfold zlen in Hs. lia.
  - destruct (push_room pq bag key value Hok Hspace) as (pq' & -> & ?). by exists (Some pq').
Qed.

(** Moving the last entry to the root takes the root out of the bag. *)
Lemma root_out t n last root : 0 < n < zlen t -> t !! Z.to_nat n = Some last -> t !! 0%nat = Some root ->
  root :: ztake n (<[0%nat := last]> t) ≡ₚ ztake (n + 1) t.
Proof.
  intros Hn Hl Hr. unfold ztake. replace (Z.to_nat (n + 1)) with (S (Z.to_nat n)) by lia.
  rewrite (take_S_r t _ last Hl). destruct t as [| x t]; [done |]. simpl in Hr. injection Hr as ->.
  replace (Z.to_nat n) with (S (Z.to_nat (n - 1))) by lia. simpl. rewrite <- Permutation_cons_append. done.
Qed.

Lemma pop_ok pq bag : pq_ok pq bag ->
  exists r pq', nxp_pq_pop pq = Done (r, pq') /\ nxp_pq_peek pq = Done r /\
    match r with
    | None => bag = [] /\ pq' = pq
    | Some e => (forall f, In f bag -> pq_key e <= pq_key f) /\
        exists bag', bag ≡ₚ e :: bag' /\ pq_ok pq' bag'
    end.
Proof.
  intros [Hs Hr Hh Hb]. unfold nxp_pq_pop, nxp_pq_peek.
  destruct (Z.eqb_spec (pq_count pq) 0) as [Hz | Hz].
  { exists None, pq. split_and!; try done. rewrite Hz in Hb. by apply Permutation_nil_l in Hb. }
  set (t := pq_entries pq) in *. set (n := pq_count pq) in *.
  destruct (load_at t 0) as (e & -> & Te & Ke); [lia |]. simpl.
  assert (forall f, In f bag -> pq_key e <= pq_key f) as Hmin.
  { intros f Hf. rewrite <- Hb in Hf. apply list_elem_of_In, list_elem_of_lookup in Hf as [j Hj].
    unfold ztake in Hj. apply lookup_take_Some in Hj as [Hj Hlt]. apply lookup_lt_Some in Hj as HL.
    pose proof (heap_root t n Hh (Z.of_nat j) ltac:(lia)) as Hle. unfold key_at in Hle at 2.
    rewrite Nat2Z.id, Hj in Hle. lia. }
  rewrite Z.gtb_ltb. destruct (Z.ltb_spec 0 (n - 1)) as [Hn1 | Hn1]; simpl.
  2: { eexists _, _. split; [done |]. split; [done |]. split; [done |]. exists [].
    replace n with 1 in * by lia. simpl. split.
    - rewrite <- Hb. unfold ztake. change (Z.to_nat 1) with 1%nat. destruct t as [| x t']; [done |].
      simpl in Te. injection Te as ->. done.
    - split; simpl; [done | lia | intros j; lia | done]. }
  destruct (load_at t (n - 1)) as (last & -> & Tl & Kl); [lia |]. simpl.
  rewrite store_at by lia. simpl.
  assert (zlen (<[0%nat := last]> t) = zlen t) as Hzt by (unfold zlen; by rewrite length_insert).
  assert (forall j, 0 < j -> key_at (<[0%nat := last]> t) j = key_at t j) as Hk.
  { intros j Hj. unfold key_at. by rewrite list_lookup_insert_ne by lia. }
  destruct (sift_down_spec (Z.to_nat (n - 1)) (<[0%nat := last]> t) (n - 1) 0)
    as (t' & Ht' & Hz' & Hh' & P'); try lia.
  { intros j Hj Hp. pose proof (par_lt j ltac:(lia)). rewrite !Hk by lia. apply Hh. lia. }
  change (Z.to_nat 0) with 0%nat. rewrite Ht'. simpl.
  eexists _, _. split; [done |]. split; [done |]. split; [done |].
  exists (ztake (n - 1) t'). split; [| split; simpl; [lia | lia | done | done]].
  rewrite <- Hb, P'. symmetry. replace n with (n - 1 + 1) at 2 by lia. apply root_out; [lia | done | done].
Qed.

End PriorityQueue.
Arguments nxp_pq_entry : clear implicits.
Arguments nxp_priority_queue : clear implicits.

(** the heap implements a priority queue.  A created queue is empty; a push
    adds its entry to the bag of pending entries, or fails for want of memory; a
    pop removes and returns an entry with the least key, which a peek shows, and
    reports emptiness exactly when there is none.  Queues of up to [2^29] slots. *)
Theorem pq_refines {V} (pq : nxp_priority_queue V) bag : pq_ok pq bag -> pq_capacity pq <= 2 ^ 29 ->
  (forall realloc_ok junk key value, 2 * pq_capacity pq <= zlen junk ->
    exists r, nxp_pq_push realloc_ok junk pq key value = Done r /\
      match r with
      | Some pq' => pq_ok pq' (PqEntry key value :: bag)
      | None => realloc_ok = false /\ pq_count pq = pq_capacity pq
      end) /\
  (exists r pq', nxp_pq_pop pq = Done (r, pq') /\ nxp_pq_peek pq = Done r /\
    match r with
    | None => bag = [] /\ pq' = pq
    | Some e => (forall f, In f bag -> pq_key e <= pq_key f) /\
        exists bag', bag ≡ₚ e :: bag' /\ pq_ok pq' bag'
    end).
Proof.
  intros Hok Hmax. split.
  - intros. by apply pq_push_keeps.
  - by apply pop_ok.
Qed.

Definition sample_pq : nxp_priority_queue Z :=
  PQ ([PqEntry 3 30; PqEntry 5 50; PqEntry 4 40] ++ replicate 13 (PqEntry 0 0)) 3 16.

Lemma pq_refines_witness :
  exists bag pq', nxp_pq_pop sample_pq = Done (Some (PqEntry 3 30), pq') /\ pq_ok pq' bag.
Proof.
  destruct (pq_refines sample_pq [PqEntry 3 30; PqEntry 5 50; PqEntry 4 40]) as [_ (r & pq' & Hpop & _ & Hr)].
  - split; try by_compute. intros j Hj. simpl in Hj.
    assert (j = 1 \/ j = 2) as [-> | ->] by lia; by_compute.
  - by_compute.
  - assert (r = Some (PqEntry 3 30)) as ->.
    { destruct (nxp_pq_pop sample_pq) as [[r' q] | |] eqn:E; vm_compute in E; congruence. }
    destruct Hr as [_ (bag' & _ & Hok)]. by exists bag', pq'.
Defined.
