(* ===== verification/RingBuffer.v ===== *)
(** * The single-producer single-consumer ring buffer (src/util/ring_buffer.c)

    The operations, and their interleavings: each operation loads both
    positions, copies, and publishes its own position, and the other side may
    run between any two of these. *)

From stdpp Require Import relations.
From S2P Require Import Prelude Types Stream.

Definition next_power_of_2_64 (v : Z) : Z :=
  let v := u64 (v - 1) in
  let v := v ||| (v >>> 1) in
  let v := v ||| (v >>> 2) in
  let v := v ||| (v >>> 4) in
  let v := v ||| (v >>> 8) in
  let v := v ||| (v >>> 16) in
  let v := v ||| (v >>> 32) in
  u64 (v + 1).

Record nxp_ring_buffer := Ring {
  ring_data : list Z;
  ring_capacity : Z;
  ring_mask : Z;
  write_pos : Z;
  read_pos : Z }.

#[export] Instance eta_ring : Eta nxp_ring_buffer := fun r =>
  Ring (ring_data r) (ring_capacity r) (ring_mask r) (write_pos r) (read_pos r).

(** [junk] is the uninitialised memory that [malloc] returns. *)
Definition nxp_ring_buffer_create (malloc_ok : bool) (junk : list Z) (capacity : Z)
  : option nxp_ring_buffer :=
  let capacity := if capacity =? 0 then 4096 else capacity in
  let capacity := next_power_of_2_64 capacity in
  if negb malloc_ok then None
  else Some (Ring (ztake capacity junk) capacity (u64 (capacity - 1)) 0 0).

(** How much a write, or a read, of [len] bytes can transfer. *)
Definition write_len (capacity w r len : Z) : Z :=
  let available := u64 (capacity - u64 (w - r)) in
  if len >? available then available else len.
Definition read_len (w r len : Z) : Z :=
  let available := u64 (w - r) in
  if len >? available then available else len.

(** The copies of [nxp_ring_buffer_write] and [nxp_ring_buffer_read]. *)
Definition copy_in (rb : nxp_ring_buffer) (w : Z) (data : list Z) (len : Z) : nxp_result (list Z) :=
  let w_idx := w &&& ring_mask rb in
  let first := ring_capacity rb - w_idx in
  if first >=? len then memcpy (ring_data rb) w_idx data len
  else let! d := memcpy (ring_data rb) w_idx data first in
       memcpy d 0 (zdrop first data) (len - first).
Definition copy_out (rb : nxp_ring_buffer) (r : Z) (len : Z) : nxp_result (list Z) :=
  let r_idx := r &&& ring_mask rb in
  let first := ring_capacity rb - r_idx in
  if first >=? len then sub_buf (ring_data rb) r_idx len
  else let! a := sub_buf (ring_data rb) r_idx first in
       let! b := sub_buf (ring_data rb) 0 (len - first) in
       Done (a ++ b).

Definition nxp_ring_buffer_write (rb : nxp_ring_buffer) (data : list Z) (len : Z)
  : nxp_result (Z * nxp_ring_buffer) :=
  let w := write_pos rb in
  let r := read_pos rb in
  let len := write_len (ring_capacity rb) w r len in
  if len =? 0 then Done (0, rb) else
  let! d := copy_in rb w data len in
  Done (len, rb <| ring_data := d |> <| write_pos := u64 (w + len) |>).

Definition nxp_ring_buffer_read (rb : nxp_ring_buffer) (len : Z)
  : nxp_result (list Z * nxp_ring_buffer) :=
  let w := write_pos rb in
  let r := read_pos rb in
  let len := read_len w r len in
  if len =? 0 then Done ([], rb) else
  let! bytes := copy_out rb r len in
  Done (bytes, rb <| read_pos := u64 (r + len) |>).

Definition nxp_ring_buffer_readable (rb : nxp_ring_buffer) : Z := u64 (write_pos rb - read_pos rb).
Definition nxp_ring_buffer_writable (rb : nxp_ring_buffer) : Z :=
  u64 (ring_capacity rb - u64 (write_pos rb - read_pos rb)).
Definition nxp_ring_buffer_is_empty (rb : nxp_ring_buffer) : bool := write_pos rb =? read_pos rb.

(** ** Interleavings *)

Inductive producer := PIdle | PLoaded (w r : Z) (data : list Z) (len : Z) | PCopied (w : Z) (data : list Z) (len : Z).
Inductive consumer := CIdle | CLoaded (w r len : Z) | CCopied (r : Z) (bytes : list Z) (len : Z).

(** [wr] and [rdn] are all the bytes written and read so far. *)
Record spsc := Spsc {
  ring : nxp_ring_buffer;
  prod : producer;
  cons_ : consumer;
  wr : list Z;
  rdn : list Z }.

Inductive spsc_step : spsc -> spsc -> Prop :=
| p_load rb c W R data len : 0 <= len <= zlen data ->
    spsc_step (Spsc rb PIdle c W R) (Spsc rb (PLoaded (write_pos rb) (read_pos rb) data len) c W R)
| p_none rb c W R w r data len : write_len (ring_capacity rb) w r len = 0 ->
    spsc_step (Spsc rb (PLoaded w r data len) c W R) (Spsc rb PIdle c W R)
| p_copy rb c W R w r data len n d : write_len (ring_capacity rb) w r len = n -> n <> 0 ->
    copy_in rb w data n = Done d ->
    spsc_step (Spsc rb (PLoaded w r data len) c W R) (Spsc (rb <| ring_data := d |>) (PCopied w data n) c W R)
| p_store rb c W R w data n :
    spsc_step (Spsc rb (PCopied w data n) c W R)
      (Spsc (rb <| write_pos := u64 (w + n) |>) PIdle c (W ++ ztake n data) R)
| c_load rb p W R len : 0 <= len ->
    spsc_step (Spsc rb p CIdle W R) (Spsc rb p (CLoaded (write_pos rb) (read_pos rb) len) W R)
| c_none rb p W R w r len : read_len w r len = 0 ->
    spsc_step (Spsc rb p (CLoaded w r len) W R) (Spsc rb p CIdle W R)
| c_copy rb p W R w r len n bytes : read_len w r len = n -> n <> 0 ->
    copy_out rb r n = Done bytes ->
    spsc_step (Spsc rb p (CLoaded w r len) W R) (Spsc rb p (CCopied r bytes n) W R)
| c_store rb p W R r bytes n :
    spsc_step (Spsc rb p (CCopied r bytes n) W R)
      (Spsc (rb <| read_pos := u64 (r + n) |>) p CIdle W (R ++ bytes)).

(** ** Invariant *)

Definition ring_ok (rb : nxp_ring_buffer) : Prop :=
  (exists k, 0 <= k <= 62 /\ ring_capacity rb = 2 ^ k) /\ ring_mask rb = ring_capacity rb - 1 /\
  zlen (ring_data rb) = ring_capacity rb.

(** Bytes copied into the buffer but not published yet. *)
Definition pending (p : producer) : list Z :=
  match p with PCopied _ data n => ztake n data | _ => [] end.

Definition prod_ok (cap Wp Rp : Z) (p : producer) : Prop :=
  match p with
  | PIdle => True
  | PLoaded w r data len => w = u64 Wp /\ 0 <= len <= zlen data /\
      exists ra, r = u64 ra /\ 0 <= ra <= Rp /\ Wp - ra <= cap
  | PCopied w data n => w = u64 Wp /\ 0 < n <= zlen data
  end.

Definition cons_ok (Wp : Z) (W : list Z) (Rp : Z) (c : consumer) : Prop :=
  match c with
  | CIdle => True
  | CLoaded w r len => r = u64 Rp /\ 0 <= len /\ exists wa, w = u64 wa /\ Rp <= wa <= Wp
  | CCopied r bytes n => r = u64 Rp /\ 0 < n /\ Rp + n <= Wp /\ bytes = ztake n (zdrop Rp W)
  end.

Definition spsc_ok (s : spsc) : Prop :=
  let rb := ring s in
  let cap := ring_capacity rb in
  let Wp := zlen (wr s) in
  let Rp := zlen (rdn s) in
  ring_ok rb /\ write_pos rb = u64 Wp /\ read_pos rb = u64 Rp /\ Rp <= Wp /\
  Wp + zlen (pending (prod s)) <= Rp + cap /\
  rdn s = ztake Rp (wr s) /\
  holds (ring_data rb) cap (wr s ++ pending (prod s)) Rp (Wp + zlen (pending (prod s))) /\
  prod_ok cap Wp Rp (prod s) /\ cons_ok Wp (wr s) Rp (cons_ s).

Lemma ring_cap_range rb : ring_ok rb -> 0 < ring_capacity rb <= 2 ^ 62.
Proof.
  intros ((k & Hk & ->) & _). pose proof (Z.pow_le_mono_r 2 k 62 ltac:(lia) ltac:(lia)).
  pose proof (Z.pow_pos_nonneg 2 k). lia.
Qed.

Lemma u64_mod_cap rb x : ring_ok rb -> u64 x &&& ring_mask rb = x mod ring_capacity rb.
Proof.
  intros ((k & Hk & Hc) & -> & _). rewrite Hc, land_ones_mod by lia. unfold u64.
  change 18446744073709551616 with (2 ^ 64). rewrite Z.mod_mod_divide; [done |].
  exists (2 ^ (64 - k)). rewrite <- Z.pow_add_r by lia. f_equal. lia.
Qed.

(** The copies are the circular copies of the stream buffers. *)
Lemma copy_in_circ rb w data len : ring_ok rb -> 0 <= len ->
  copy_in rb (u64 w) data len = circ_store (ring_data rb) (ring_capacity rb) w data len.
Proof.
  intros Hok Hlen. pose proof (ring_cap_range rb Hok). unfold copy_in, circ_store. rewrite u64_mod_cap by done.
  pose proof (Z.mod_pos_bound w (ring_capacity rb) ltac:(lia)). rewrite Z.geb_leb, !Z.gtb_ltb.
  set (first := ring_capacity rb - w mod ring_capacity rb).
  destruct (Z.ltb_spec len first), (Z.leb_spec len first); try lia.
  - rewrite Z.ltb_irrefl. by destruct (memcpy _ _ _ _).
  - replace first with len by lia. rewrite Z.ltb_irrefl. by destruct (memcpy _ _ _ _).
  - rewrite (proj2 (Z.ltb_lt first len)) by lia. done.
Qed.

Lemma copy_out_circ rb r len : ring_ok rb -> 0 <= len ->
  copy_out rb (u64 r) len = circ_load (ring_data rb) (ring_capacity rb) r len.
Proof.
  intros Hok Hlen. pose proof (ring_cap_range rb Hok). unfold copy_out, circ_load. rewrite u64_mod_cap by done.
  rewrite Z.geb_leb, !Z.gtb_ltb. set (first := ring_capacity rb - r mod ring_capacity rb).
  destruct (Z.ltb_spec len first), (Z.leb_spec len first); try lia.
  - rewrite Z.ltb_irrefl. by destruct (sub_buf _ _ _).
  - replace first with len by lia. rewrite Z.ltb_irrefl. by destruct (sub_buf _ _ _).
  - rewrite (proj2 (Z.ltb_lt first len)) by lia. done.
Qed.

Lemma u64_diff a b : 0 <= a - b < 2 ^ 64 -> u64 (u64 a - u64 b) = a - b.
Proof.
  intros. unfold u64. rewrite Zminus_mod_idemp_l, Zminus_mod_idemp_r. apply Z.mod_small. lia.
Qed.
Lemma u64_add a b : u64 (u64 a + b) = u64 (a + b).
Proof. unfold u64. by rewrite Zplus_mod_idemp_l. Qed.

Lemma write_len_spec cap Wp ra len : 0 < cap <= 2 ^ 62 -> 0 <= Wp - ra <= cap -> 0 <= len ->
  write_len cap (u64 Wp) (u64 ra) len = Z.min len (cap - (Wp - ra)).
Proof.
  intros. unfold write_len. rewrite u64_diff, u64_small, Z.gtb_ltb by lia. zcase; lia.
Qed.
Lemma read_len_spec wa Rp len : 0 <= wa - Rp <= 2 ^ 62 -> 0 <= len ->
  read_len (u64 wa) (u64 Rp) len = Z.min len (wa - Rp).
Proof. intros. unfold read_len. rewrite u64_diff, Z.gtb_ltb by lia. zcase; lia. Qed.

(** A copy into the free part of the buffer. *)
Lemma copy_in_ok rb W Rp n data : ring_ok rb -> 0 <= Rp <= zlen W -> 0 < n <= zlen data ->
  zlen W + n <= Rp + ring_capacity rb -> holds (ring_data rb) (ring_capacity rb) W Rp (zlen W) ->
  exists d, copy_in rb (u64 (zlen W)) data n = Done d /\ ring_ok (rb <| ring_data := d |>) /\
    holds d (ring_capacity rb) (W ++ ztake n data) Rp (zlen W + n).
Proof.
  intros Hok HR Hn Hfit Hh. pose proof (ring_cap_range rb Hok) as Hcap. pose proof Hok as (Hpow & Hmask & Hlen).
  rewrite copy_in_circ by (done || lia).
  destruct (circ_store_spec (ring_data rb) (ring_capacity rb) (zlen W) data n) as (d & -> & Hd & Hget);
    [lia | done | lia | lia |]. exists d. split; [done |]. split; [by unfold ring_ok |].
  replace (zlen W + n) with (Z.max (zlen W) (zlen W + n)) by lia.
  eapply (store_holds _ _ _ _ _ (zlen W) (ztake n data) n); try lia.
  - apply holds_app; [lia | lia | done].
  - intros k Hk. rewrite zget_app, (proj2 (Z.ltb_ge _ _)) by lia. f_equal. lia.
  - intros j Hj. rewrite Hget by done. destruct (Z.ltb_spec ((j - zlen W) mod ring_capacity rb) n); [| done].
    pose proof (Z.mod_pos_bound (j - zlen W) (ring_capacity rb)). by rewrite zget_ztake by lia.
Qed.

(** A copy out of the published part. *)
Lemma copy_out_ok rb W T Rp n hi : ring_ok rb -> 0 <= Rp -> 0 <= n <= ring_capacity rb -> Rp + n <= zlen W ->
  Rp + n <= hi -> holds (ring_data rb) (ring_capacity rb) (W ++ T) Rp hi ->
  copy_out rb (u64 Rp) n = Done (ztake n (zdrop Rp W)).
Proof.
  intros Hok HR Hn Hend Hhi Hh. pose proof (ring_cap_range rb Hok). pose proof Hok as (_ & _ & Hlen).
  rewrite copy_out_circ by (done || lia).
  destruct (circ_load_spec (ring_data rb) (ring_capacity rb) Rp n) as (l & -> & Hl & Hget); [lia | done | lia |].
  f_equal. apply zget_ext; [rewrite Hl, zlen_ztake; [done | rewrite zlen_zdrop; lia] |].
  intros i Hi. rewrite Hget, zget_ztake, zget_zdrop by lia. rewrite Hh by lia.
  by rewrite zget_app, (proj2 (Z.ltb_lt _ _)) by lia.
Qed.

Lemma spsc_step_ok s s' : spsc_step s s' -> spsc_ok s -> spsc_ok s'.
Proof.
  intros Hstep (Hok & Hw & Hr & HRW & Hfit & HR & Hh & Hp & Hc). revert Hok Hw Hr HRW Hfit HR Hh Hp Hc.
  destruct Hstep as [rb c W R data len Hlen | rb c W R w r data len Hn | rb c W R w r data len n d Hn Hn0 Hcp
    | rb c W R w data n | rb p W R len Hlen | rb p W R w r len Hn | rb p W R w r len n bytes Hn Hn0 Hcp
    | rb p W R r bytes n]; simpl; intros Hok Hw Hr HRW Hfit HR Hh Hp Hc; unfold spsc_ok; simpl;
    pose proof (ring_cap_range rb Hok) as Hcap; pose proof (zlen_nonneg R) as HR0.
  - split_and!; try done; [lia | lia |]. exists (zlen R). change (zlen []) with 0 in Hfit. split_and!; (done || lia).
  - done.
  - destruct Hp as (-> & Hl & ra & -> & Hra & Hd). change (zlen []) with 0 in *.
    rewrite write_len_spec in Hn by lia. rewrite app_nil_r, Z.add_0_r in Hh.
    destruct (copy_in_ok rb W (zlen R) n data) as (d' & Hd' & Hok' & Hh'); try done; try lia.
    assert (d' = d) as -> by congruence. rewrite zlen_ztake by lia. split_and!; (done || lia).
  - destruct Hp as [-> Hn]. rewrite zlen_ztake in Hfit, Hh by lia. change (zlen []) with 0.
    rewrite zlen_app, zlen_ztake, u64_add, app_nil_r, Z.add_0_r by lia.
    split_and!; try (done || lia).
    + rewrite HR at 1. unfold ztake. rewrite take_app_le; [done |]. unfold zlen in *. lia.
    + destruct c as [| w' r' len' | r' bytes' n']; simpl in *; [done | |].
      * destruct Hc as (? & ? & wa & ? & ?). split_and!; try done. exists wa. split; [done | lia].
      * destruct Hc as (? & ? & ? & ->). split_and!; try (done || lia). unfold ztake, zdrop.
        rewrite drop_app_le by (unfold zlen in *; lia). rewrite take_app_le; [done |].
        rewrite length_drop. unfold zlen in *. lia.
  - split_and!; try done. exists (zlen W). split; [done | lia].
  - done.
  - destruct Hc as (-> & Hl & wa & -> & Hwa). pose proof (zlen_nonneg (pending p)).
    rewrite read_len_spec in Hn by lia.
    rewrite (copy_out_ok rb W (pending p) (zlen R) n (zlen W + zlen (pending p)) Hok) in Hcp; try done; try lia.
    injection Hcp as <-. split_and!; (done || lia).
  - destruct Hc as (-> & Hn & Hend & ->). pose proof (zlen_nonneg (pending p)).
    assert (zlen (ztake n (zdrop (zlen R) W)) = n) as Hz by (rewrite zlen_ztake; [done | rewrite zlen_zdrop; lia]).
    rewrite zlen_app, Hz, u64_add. split_and!; try (done || lia).
    + rewrite HR at 1. apply ztake_snoc; lia.
    + eapply holds_weaken; [| | exact Hh]; lia.
    + destruct p as [| w' r' data' len' | w' data' n']; simpl in *; [done | | done].
      destruct Hp as (? & ? & ra & ? & ? & ?). split_and!; try (done || lia). exists ra. split_and!; (done || lia).
Qed.

Lemma spsc_reachable s s' : rtc spsc_step s s' -> spsc_ok s -> spsc_ok s'.
Proof. induction 1 as [| s s1 s2 Hs _ IH]; [done |]. intros. by eapply IH, spsc_step_ok. Qed.

Lemma spsc_start rb : ring_ok rb -> write_pos rb = 0 -> read_pos rb = 0 ->
  spsc_ok (Spsc rb PIdle CIdle [] []).
Proof.
  intros Hok Hw Hr. pose proof (ring_cap_range rb Hok). unfold spsc_ok. simpl. rewrite Hw, Hr.
  change (zlen []) with 0. split_and!; try (done || lia). intros i Hi. lia.
Qed.

Lemma ring_create_ok junk capacity rb : 0 <= capacity <= 2 ^ 62 ->
  (if capacity =? 0 then 4096 else 2 * capacity) <= zlen junk ->
  nxp_ring_buffer_create true junk capacity = Some rb ->
  ring_ok rb /\ write_pos rb = 0 /\ read_pos rb = 0.
Proof.
  intros Hc Hj. unfold nxp_ring_buffer_create. cbn [negb].
  set (v := if capacity =? 0 then 4096 else capacity).
  assert (0 < v <= 2 ^ 62) as Hv by (unfold v; destruct (Z.eqb_spec capacity 0); lia).
  assert (exists k, 0 <= k <= 62 /\ next_power_of_2_64 v = 2 ^ k /\ 2 ^ k < 2 * v) as (k & Hk & -> & Hb).
  { unfold next_power_of_2_64. rewrite (u64_small (v - 1)) by lia.
    destruct (Z.eq_dec v 1) as [-> | Hv1]; [exists 0; split_and!; (reflexivity || lia) |].
    set (L := Z.log2 (v - 1)). assert (0 <= L <= 61) as HL.
    { unfold L. split; [apply Z.log2_nonneg |].
      assert (Z.log2 (v - 1) < 62) by (apply Z.log2_lt_pow2; lia). lia. }
    pose proof (leading_log2 (v - 1) ltac:(lia)) as H1. fold L in H1.
    do 6 (eapply leading_double in H1; [| lia | lia]).
    apply leading_full in H1; [| lia | lia]. exists (L + 1). split; [lia |].
    change (2 * (2 * (2 * (2 * (2 * 1))))) with 32 in H1. change (2 * (2 * (2 * (2 * 1)))) with 16 in H1.
    change (2 * (2 * (2 * 1))) with 8 in H1.
    change (2 * (2 * 1)) with 4 in H1. change (2 * 1) with 2 in H1. rewrite H1.
    pose proof (Z.pow_le_mono_r 2 (L + 1) 62 ltac:(lia) ltac:(lia)).
    pose proof (Z.pow_pos_nonneg 2 (L + 1)). rewrite u64_small by lia. split; [lia |].
    pose proof (Z.log2_spec (v - 1) ltac:(lia)) as [Hl _]. fold L in Hl.
    rewrite Z.pow_add_r by lia. lia. }
  pose proof (Z.pow_le_mono_r 2 k 62 ltac:(lia) ltac:(lia)). pose proof (Z.pow_pos_nonneg 2 k).
  rewrite u64_small by lia. intros Hrb.
  assert (rb = Ring (ztake (2 ^ k) junk) (2 ^ k) (2 ^ k - 1) 0 0) as -> by congruence.
  split; [| done]. unfold ring_ok. simpl. split_and!; [by exists k | done |].
  apply zlen_ztake. split; [lia |]. unfold v in Hb. destruct (Z.eqb_spec capacity 0); [| lia].
  change (2 * 4096) with (2 ^ 13) in Hb.
  apply Z.pow_lt_mono_r_iff in Hb; [| lia | lia].
  pose proof (Z.pow_le_mono_r 2 k 12 ltac:(lia) ltac:(lia)) as H2. change (2 ^ 12) with 4096 in H2. lia.
Qed.

(** The sequential operations are the interleaving in which each side runs alone. *)
Lemma write_steps rb c W R data len n rb' : 0 <= len <= zlen data ->
  nxp_ring_buffer_write rb data len = Done (n, rb') -> 0 <= n ->
  rtc spsc_step (Spsc rb PIdle c W R) (Spsc rb' PIdle c (W ++ ztake n data) R).
Proof.
  intros Hlen. unfold nxp_ring_buffer_write.
  destruct (Z.eqb_spec (write_len (ring_capacity rb) (write_pos rb) (read_pos rb) len) 0) as [Hz | Hz].
  - intros [= <- <-] _. eapply rtc_l; [by apply p_load |]. eapply rtc_l; [by apply p_none |].
    change (ztake 0 data) with (@nil Z). rewrite app_nil_r. apply rtc_refl.
  - destruct (copy_in _ _ _ _) as [d | |] eqn:Hc; simpl; try done. intros [= <- <-] _.
    eapply rtc_l; [by apply p_load |]. eapply rtc_l; [by eapply p_copy |].
    apply rtc_once. apply p_store.
Qed.

(** C36: the ring buffer is a FIFO under concurrency.  For one producer and one
    consumer whose loads, copies and stores interleave in any order, the bytes
    read are a prefix of the bytes written, at most [capacity] bytes are in
    flight, and no copy leaves the buffer; positions may wrap around. *)
Theorem ring_buffer_fifo rb s : ring_ok rb -> write_pos rb = 0 -> read_pos rb = 0 ->
  rtc spsc_step (Spsc rb PIdle CIdle [] []) s ->
  rdn s = ztake (zlen (rdn s)) (wr s) /\ 0 <= zlen (wr s) - zlen (rdn s) <= ring_capacity (ring s) /\
  (forall w r data len, prod s = PLoaded w r data len ->
    let n := write_len (ring_capacity (ring s)) w r len in n <> 0 -> copy_in (ring s) w data n <> Ub) /\
  (forall w r len, cons_ s = CLoaded w r len ->
    let n := read_len w r len in n <> 0 -> copy_out (ring s) r n <> Ub).
Proof.
  intros Hok Hw Hr Hrun. pose proof (spsc_reachable _ _ Hrun (spsc_start rb Hok Hw Hr)) as Hs.
  destruct Hs as (Hok' & _ & _ & HRW & Hfit & HR & Hh & Hp & Hc).
  pose proof (ring_cap_range _ Hok'). pose proof (zlen_nonneg (pending (prod s))).
  pose proof (zlen_nonneg (rdn s)). split_and!; [done | lia | lia | |].
  - intros w r data len Hps n Hn. rewrite Hps in *. simpl in *.
    destruct Hp as (-> & Hl & ra & -> & Hra & Hd). change (zlen []) with 0 in *.
    unfold n in *. rewrite write_len_spec in * by lia. rewrite app_nil_r, Z.add_0_r in Hh.
    destruct (copy_in_ok (ring s) (wr s) (zlen (rdn s))
      (Z.min len (ring_capacity (ring s) - (zlen (wr s) - ra))) data) as (d & -> & _); try done; lia.
  - intros w r len Hcs n Hn. rewrite Hcs in Hc. simpl in Hc.
    destruct Hc as (-> & Hl & wa & -> & Hwa). unfold n in *. rewrite read_len_spec in * by lia.
    rewrite (copy_out_ok (ring s) (wr s) (pending (prod s)) (zlen (rdn s)) _
      (zlen (wr s) + zlen (pending (prod s))) Hok'); try done; lia.
Qed.

Definition sample_ring : nxp_ring_buffer := Ring [0; 0; 0; 0] 4 3 0 0.

Lemma ring_buffer_fifo_witness :
  exists s, rtc spsc_step (Spsc sample_ring PIdle CIdle [] []) s /\
    wr s = [1; 2; 3] /\ rdn s = [1; 2] /\ rdn s = ztake (zlen (rdn s)) (wr s).
Proof.
  assert (exists s, rtc spsc_step (Spsc sample_ring PIdle CIdle [] []) s /\
    wr s = [1; 2; 3] /\ rdn s = [1; 2]) as (s & Hrun & Hw & Hr).
  { eexists. split.
    - eapply rtc_l; [apply (p_load _ _ _ _ [1; 2; 3] 3); by_compute |].
      eapply rtc_l; [eapply p_copy; [reflexivity | discriminate | vm_compute; reflexivity] |].
      eapply rtc_l; [apply p_store |].
      eapply rtc_l; [apply (c_load _ _ _ _ 2); by_compute |].
      eapply rtc_l; [eapply c_copy; [reflexivity | discriminate | vm_compute; reflexivity] |].
      eapply rtc_l; [apply c_store |]. apply rtc_refl.
    - split; reflexivity. }
  exists s. split_and!; try done.
  apply (ring_buffer_fifo sample_ring s); [| reflexivity | reflexivity | exact Hrun].
  split_and!; [by exists 2 | reflexivity | reflexivity].
Defined.
