(* ===== verification/Crypto.v ===== *)
(** * Packet protection and key derivation (src/src/crypto/)

    [nxp_aead_encrypt] and [nxp_aead_decrypt] (aead.c), HKDF (hkdf.c), header
    protection (header_protection.c), nonces and traffic keys
    (handshake_crypto.c), and the secrets of session resumption
    (session_ticket.c).  OpenSSL is the class [OpenSSL], with what the code
    relies on in [OpenSSLLaws]. *)

From stdpp Require Import strings.
From S2P Require Import Prelude CString Types Packet.

Definition NXP_AES_256_KEY_LEN : Z := 32.
Definition NXP_AEAD_IV_LEN : Z := 12.
Definition NXP_AEAD_TAG_LEN : Z := 16.
Definition NXP_HASH_LEN : Z := 32.
Definition NXP_X25519_KEY_LEN : Z := 32.
Definition NXP_HP_SAMPLE_LEN : Z := 16.
Definition NXP_HP_MASK_LEN : Z := 5.

(** An [nxp_aead_algo] is stored in a byte on the wire, and any byte can be cast
    to it; the enumeration names two of them. *)
Definition NXP_AEAD_AES_256_GCM : Z := 0.
Definition NXP_AEAD_CHACHA20_POLY1305 : Z := 1.

Record nxp_crypto_keys := CryptoKeys {
  ck_key : list Z;
  ck_iv : list Z;
  ck_hp_key : list Z;
  ck_key_len : Z
}.
#[export] Instance eta_crypto_keys : Eta nxp_crypto_keys := fun k =>
  CryptoKeys (ck_key k) (ck_iv k) (ck_hp_key k) (ck_key_len k).

Record nxp_crypto_state := CryptoState {
  cs_send : nxp_crypto_keys;
  cs_recv : nxp_crypto_keys;
  cs_algo : Z;
  cs_available : bool
}.
#[export] Instance eta_crypto_state : Eta nxp_crypto_state := fun c =>
  CryptoState (cs_send c) (cs_recv c) (cs_algo c) (cs_available c).

Definition keys_zero : nxp_crypto_keys := CryptoKeys (zeros 32) (zeros 12) (zeros 32) 0.
Definition crypto_zero : nxp_crypto_state := CryptoState keys_zero keys_zero 0 false.

(** ** OpenSSL *)

Inductive evp_cipher : Type := EVP_aes_256_gcm | EVP_chacha20_poly1305.

(** Each primitive is a partial function of its inputs: [None] is the failure
    code of the library. *)
Class OpenSSL : Type := {
  (** HMAC-SHA256 of a message under a key, and SHA-256 *)
  EVP_hmac : list Z -> list Z -> option (list Z);
  EVP_sha256 : list Z -> option (list Z);
  (** authenticated encryption: key, nonce, associated data, plaintext *)
  EVP_seal : evp_cipher -> list Z -> list Z -> list Z -> list Z -> option (list Z * list Z);
  EVP_open : evp_cipher -> list Z -> list Z -> list Z -> list Z -> list Z -> option (list Z);
  (** one block of AES-256-ECB, and ChaCha20 with a 16-byte counter and nonce *)
  EVP_aes_256_ecb : list Z -> list Z -> option (list Z);
  EVP_chacha20 : list Z -> list Z -> list Z -> option (list Z);
  (** X25519: the public key of a private key, and the shared secret *)
  EVP_x25519_public : list Z -> list Z;
  EVP_x25519_derive : list Z -> list Z -> option (list Z)
}.

(** What the code relies on: sizes, decryption inverts encryption, and the two
    ends of a key exchange agree. *)
Class OpenSSLLaws `{OpenSSL} : Prop := {
  hmac_size k m t : EVP_hmac k m = Some t -> zlen t = NXP_HASH_LEN /\ bytes_ok t;
  sha256_size m t : EVP_sha256 m = Some t -> zlen t = NXP_HASH_LEN /\ bytes_ok t;
  seal_size c k n a p ct tag : EVP_seal c k n a p = Some (ct, tag) ->
    zlen ct = zlen p /\ zlen tag = NXP_AEAD_TAG_LEN /\ bytes_ok ct /\ bytes_ok tag;
  open_seal c k n a p ct tag : EVP_seal c k n a p = Some (ct, tag) ->
    EVP_open c k n a ct tag = Some p;
  open_size c k n a ct tag p : EVP_open c k n a ct tag = Some p ->
    zlen p = zlen ct /\ bytes_ok p;
  ecb_size k b m : EVP_aes_256_ecb k b = Some m -> zlen m = zlen b /\ bytes_ok m;
  chacha20_size k iv p m : EVP_chacha20 k iv p = Some m -> zlen m = zlen p /\ bytes_ok m;
  x25519_public_size k : zlen (EVP_x25519_public k) = NXP_X25519_KEY_LEN /\
    bytes_ok (EVP_x25519_public k);
  x25519_size k p s : EVP_x25519_derive k p = Some s -> zlen s = NXP_X25519_KEY_LEN;
  x25519_agree k1 k2 : EVP_x25519_derive k1 (EVP_x25519_public k2) =
    EVP_x25519_derive k2 (EVP_x25519_public k1)
}.

Section Crypto.
Context `{OpenSSL}.

(** ** Authenticated encryption *)

Definition get_cipher (algo : Z) : option evp_cipher :=
  if algo =? NXP_AEAD_AES_256_GCM then Some EVP_aes_256_gcm
  else if algo =? NXP_AEAD_CHACHA20_POLY1305 then Some EVP_chacha20_poly1305
  else None.

Definition nxp_aead_encrypt (algo : Z) (key nonce aad plaintext : list Z) : option (list Z) :=
  match get_cipher algo with
  | None => None
  | Some cipher =>
      match EVP_seal cipher key nonce aad plaintext with
      | None => None
      | Some (ciphertext, tag) => Some (ciphertext ++ tag)
      end
  end.

(** The plaintext goes to a buffer of [cap] bytes: the decrypted bytes before
    the tag is verified, and [ct_len] zeros when it is not. *)
Definition nxp_aead_decrypt (algo : Z) (key nonce aad ciphertext : list Z) (cap : Z)
  : outcome unit (list Z) :=
  let ct_len := zlen ciphertext in
  return_if ct_len <? NXP_AEAD_TAG_LEN with tt ;;
  match get_cipher algo with
  | None => Err tt
  | Some cipher =>
      let payload_len := ct_len - NXP_AEAD_TAG_LEN in
      if cap <? payload_len then Ub else
      match EVP_open cipher key nonce aad (ztake payload_len ciphertext) (zdrop payload_len ciphertext) with
      | None => if cap <? ct_len then Ub else Err tt
      | Some plaintext => Done plaintext
      end
  end.

(** ** HKDF *)

Definition checked_hash (t : option (list Z)) : option (list Z) :=
  match t with
  | Some out => if zlen out =? NXP_HASH_LEN then Some out else None
  | None => None
  end.

Definition hmac_sha256 (key data : list Z) : option (list Z) := checked_hash (EVP_hmac key data).
Definition hmac_sha256_multi (key : list Z) (parts : list (list Z)) : option (list Z) :=
  checked_hash (EVP_hmac key (concat parts)).
Definition nxp_crypto_hash (data : list Z) : option (list Z) := checked_hash (EVP_sha256 data).

Definition nxp_hkdf_extract (salt : option (list Z)) (ikm : list Z) : option (list Z) :=
  let salt := match salt with
              | Some s => if zlen s =? 0 then zeros NXP_HASH_LEN else s
              | None => zeros NXP_HASH_LEN
              end in
  hmac_sha256 salt ikm.

(** The loop of [nxp_hkdf_expand]: [okm] is what has been written, so its
    length is [offset]; 255 rounds of fuel cover the longest output. *)
Fixpoint expand_loop (fuel : nat) (prk info t : list Z) (counter : Z) (okm : list Z) (okm_len : Z)
  : outcome unit (list Z) :=
  if negb (zlen okm <? okm_len) then Done okm else
  match fuel with
  | O => Ub
  | S fuel =>
      match hmac_sha256_multi prk [t; info; [counter]] with
      | None => Err tt
      | Some t =>
          let copy_len := okm_len - zlen okm in
          let copy_len := if copy_len >? NXP_HASH_LEN then NXP_HASH_LEN else copy_len in
          expand_loop fuel prk info t (u8 (counter + 1)) (okm ++ ztake copy_len t) okm_len
      end
  end.

Definition nxp_hkdf_expand (prk info : list Z) (okm_len : Z) : outcome unit (list Z) :=
  return_if okm_len >? 255 * NXP_HASH_LEN with tt ;;
  expand_loop 255 prk info [] 1 [] okm_len.

(** The contents of the array [info[512]]. *)
Definition hkdf_info (label : list Z) (context : option (list Z)) (context_len out_len : Z)
  : outcome unit (list Z) :=
  let prefix := ascii "nxp1 " in
  let full_label_len := 5 + zlen label in
  return_if (full_label_len >? 255) || (context_len >? 255) || (out_len >? 65535) with tt ;;
  let! info := push 512 [] [u8 (out_len >>> 8)] in
  let! info := push 512 info [out_len &&& 255] in
  let! info := push 512 info [u8 full_label_len] in
  let! info := push 512 info prefix in
  let! info := push 512 info label in
  let! info := push 512 info [u8 context_len] in
  match context with
  | Some c => if context_len >? 0 then let! c := sub_buf c 0 context_len in push 512 info c else Done info
  | None => Done info
  end.

Definition nxp_hkdf_expand_label (secret : list Z) (label : string) (context : option (list Z))
    (context_len out_len : Z) : outcome unit (list Z) :=
  let! info := hkdf_info (ascii label) context context_len out_len in
  nxp_hkdf_expand secret info out_len.

(** ** Nonces and traffic keys *)

(** [nonce[11 - i] ^= pkt_num >> 8 i] for [i] from 0 to 7. *)
Fixpoint xor_pkt_num (n : nat) (i pkt_num : Z) (nonce : list Z) : list Z :=
  match n with
  | O => nonce
  | S n =>
      let j := Z.to_nat (NXP_AEAD_IV_LEN - 1 - i) in
      xor_pkt_num n (i + 1) pkt_num
        (alter (fun b => Z.lxor b (u8 (pkt_num >>> (8 * i)))) j nonce)
  end.

Definition nxp_crypto_make_nonce (iv : list Z) (pkt_num : Z) : list Z :=
  xor_pkt_num 8 0 pkt_num iv.

Definition nxp_aead_key_len (algo : Z) : Z := 32.

(** Fields are written as far as the derivation goes, so a failure leaves the
    others as they were. *)
Definition nxp_crypto_derive_traffic_keys (secret : list Z) (algo : Z) (out : nxp_crypto_keys)
  : nxp_crypto_keys * bool :=
  let klen := nxp_aead_key_len algo in
  match nxp_hkdf_expand_label secret "key" None 0 klen with
  | Done k =>
      let out := out <| ck_key := k |> in
      match nxp_hkdf_expand_label secret "iv" None 0 NXP_AEAD_IV_LEN with
      | Done v =>
          let out := out <| ck_iv := v |> in
          match nxp_hkdf_expand_label secret "hp" None 0 klen with
          | Done h => (out <| ck_hp_key := h |> <| ck_key_len := klen |>, true)
          | _ => (out, false)
          end
      | _ => (out, false)
      end
  | _ => (out, false)
  end.

Definition NXP_INITIAL_SALT : list Z :=
  [0x4e; 0x58; 0x50; 0x31; 0x2d; 0x69; 0x6e; 0x69; 0x74; 0x69;
   0x61; 0x6c; 0x2d; 0x73; 0x61; 0x6c; 0x74; 0x2d; 0x76; 0x31].

(** The client's keys in [send], the server's in [recv]. *)
Definition nxp_crypto_derive_initial_keys (dcid : list Z) (state : nxp_crypto_state)
  : nxp_crypto_state * bool :=
  match nxp_hkdf_extract (Some NXP_INITIAL_SALT) dcid with
  | None => (state, false)
  | Some initial_secret =>
      match nxp_hkdf_expand_label initial_secret "client in" None 0 NXP_HASH_LEN,
            nxp_hkdf_expand_label initial_secret "server in" None 0 NXP_HASH_LEN with
      | Done client_secret, Done server_secret =>
          let state := state <| cs_algo := NXP_AEAD_AES_256_GCM |> in
          let '(send, ok) := nxp_crypto_derive_traffic_keys client_secret (cs_algo state) (cs_send state) in
          let state := state <| cs_send := send |> in
          if negb ok then (state, false) else
          let '(recv, ok) := nxp_crypto_derive_traffic_keys server_secret (cs_algo state) (cs_recv state) in
          let state := state <| cs_recv := recv |> in
          if negb ok then (state, false) else
          (state <| cs_available := true |>, true)
      | _, _ => (state, false)
      end
  end.

(** ** Header protection *)

Definition generate_hp_mask (algo : Z) (hp_key sample : list Z) : option (list Z) :=
  if algo =? NXP_AEAD_AES_256_GCM then
    match EVP_aes_256_ecb hp_key sample with
    | Some block => Some (ztake NXP_HP_MASK_LEN block)
    | None => None
    end
  else if algo =? NXP_AEAD_CHACHA20_POLY1305 then
    EVP_chacha20 hp_key sample (zeros NXP_HP_MASK_LEN)
  else None.

(** [packet[pn_offset + i] ^= mask[1 + i]] for [n] values of [i]. *)
Fixpoint mask_pkt_num (n : nat) (i : Z) (packet : list Z) (pn_offset : Z) (mask : list Z)
  : outcome unit (list Z) :=
  match n with
  | O => Done packet
  | S n =>
      let! b := rd packet (pn_offset + i) in
      let! m := rd mask (1 + i) in
      let! packet := wr packet (pn_offset + i) (Z.lxor b m) in
      mask_pkt_num n (i + 1) packet pn_offset mask
  end.

(** The lower four bits of a long header's first byte, five of a short one's. *)
Definition mask_first (packet mask : list Z) : outcome unit (list Z) :=
  let! b := rd packet 0 in
  let! m := rd mask 0 in
  let is_long := negb (b &&& NXP_PKT_FORM_BIT =? 0) in
  wr packet 0 (Z.lxor b (m &&& (if is_long then 0x0F else 0x1F))).

Definition nxp_hp_protect (algo : Z) (hp_key packet : list Z) (pn_offset pn_len : Z)
  : outcome unit (list Z) :=
  let sample_offset := u64 (pn_offset + 4) in
  return_if u64 (sample_offset + NXP_HP_SAMPLE_LEN) >? zlen packet with tt ;;
  let! sample := sub_buf packet sample_offset NXP_HP_SAMPLE_LEN in
  match generate_hp_mask algo hp_key sample with
  | None => Err tt
  | Some mask =>
      let! packet := mask_first packet mask in
      mask_pkt_num (Z.to_nat pn_len) 0 packet pn_offset mask
  end.

Definition nxp_hp_unprotect (algo : Z) (hp_key packet : list Z) (pn_offset : Z)
  : outcome unit (Z * list Z) :=
  let sample_offset := u64 (pn_offset + 4) in
  return_if u64 (sample_offset + NXP_HP_SAMPLE_LEN) >? zlen packet with tt ;;
  let! sample := sub_buf packet sample_offset NXP_HP_SAMPLE_LEN in
  match generate_hp_mask algo hp_key sample with
  | None => Err tt
  | Some mask =>
      let! packet := mask_first packet mask in
      let! b := rd packet 0 in
      let pn_len := (b &&& 0x03) + 1 in
      let! packet := mask_pkt_num (Z.to_nat pn_len) 0 packet pn_offset mask in
      Done (pn_len, packet)
  end.

(** ** Secrets of session resumption (session_ticket.c) *)

Definition nxp_crypto_derive_zero_rtt_keys (resumption_secret : list Z) (algo : Z)
  : nxp_crypto_state * bool :=
  let state := crypto_zero in
  match nxp_hkdf_extract (Some NXP_INITIAL_SALT) resumption_secret with
  | None => (state, false)
  | Some early_secret =>
      match nxp_hkdf_expand_label early_secret "c e traffic" None 0 NXP_HASH_LEN with
      | Done client_early_secret =>
          let state := state <| cs_algo := algo |> in
          let '(send, ok) := nxp_crypto_derive_traffic_keys client_early_secret algo (cs_send state) in
          let state := state <| cs_send := send |> in
          if negb ok then (state, false) else
          (state <| cs_recv := cs_send state |> <| cs_available := true |>, true)
      | _ => (state, false)
      end
  end.

Definition nxp_crypto_derive_resumption_secret (master_secret transcript : list Z) : option (list Z) :=
  match nxp_crypto_hash transcript with
  | None => None
  | Some transcript_hash =>
      match nxp_hkdf_expand_label master_secret "resumption" (Some transcript_hash) NXP_HASH_LEN NXP_HASH_LEN with
      | Done s => Some s
      | _ => None
      end
  end.

End Crypto.

(** ** HKDF against RFC 5869 *)

Section HkdfSpec.
Context `{OpenSSLLaws}.

(** [n] blocks of output from the previous block [t] and the counter [c]:
    [T(i) = HMAC(prk, T(i-1) || info || i)]. *)
Fixpoint hkdf_blocks (prk info t : list Z) (c : Z) (n : nat) : option (list Z) :=
  match n with
  | O => Some []
  | S n =>
      t ← EVP_hmac prk (t ++ info ++ [c]);
      rest ← hkdf_blocks prk info t (c + 1) n;
      Some (t ++ rest)
  end.

Lemma checked_hmac k m : checked_hash (EVP_hmac k m) = EVP_hmac k m.
Proof.
  unfold checked_hash. destruct (EVP_hmac k m) as [t |] eqn:Ht; [| done].
  apply hmac_size in Ht as [-> _]. done.
Qed.

Lemma expand_loop_spec fuel : forall prk info t c okm L n,
  0 <= L - zlen okm -> n = Z.to_nat ((L - zlen okm + 31) / 32) -> (n <= fuel)%nat ->
  1 <= c -> c + Z.of_nat n <= 256 ->
  expand_loop fuel prk info t c okm L =
    match hkdf_blocks prk info t c n with
    | Some s => Done (okm ++ ztake (L - zlen okm) s)
    | None => Err tt
    end.
Proof.
  induction fuel as [| fuel IH]; intros prk info t c okm L n Hle Hn Hf Hc1 Hc; simpl.
  all: destruct (Z.ltb_spec (zlen okm) L) as [Hlt | Hge]; simpl.
  - exfalso. zlia.
  - replace (L - zlen okm) with 0 in * by lia. subst n. simpl. by rewrite app_nil_r.
  - destruct n as [| n]; [exfalso; zlia |].
    unfold hmac_sha256_multi. rewrite checked_hmac. simpl.
    destruct (EVP_hmac prk (t ++ info ++ [c])) as [t' |] eqn:Ht; simpl; [| done].
    apply hmac_size in Ht as [Ht Hok]. unfold NXP_HASH_LEN in *.
    destruct (Z.gtb_spec (L - zlen okm) 32).
    + rewrite ztake_all by lia. destruct n as [| n]; [exfalso; zlia |].
      rewrite u8_small by lia. rewrite (IH _ _ _ _ _ _ (S n)); [| rewrite ?zlen_app; zlia..].
      destruct (hkdf_blocks prk info t' (c + 1) (S n)) as [s |]; simpl; [| done].
      rewrite <- app_assoc, ztake_app_ge by lia. rewrite zlen_app. do 4 f_equal. lia.
    + assert (n = O) as -> by zlia. simpl. rewrite app_nil_r.
      destruct fuel; simpl; rewrite zlen_app, zlen_ztake by lia;
        rewrite (proj2 (Z.ltb_ge _ _)) by lia; done.
  - replace (L - zlen okm) with 0 in * by lia. subst n. simpl. by rewrite app_nil_r.
Qed.

(** [nxp_hkdf_expand] is HKDF-Expand: the first [okm_len] bytes of the blocks. *)
Lemma hkdf_expand_spec prk info L : 0 <= L <= 255 * NXP_HASH_LEN ->
  nxp_hkdf_expand prk info L =
    match hkdf_blocks prk info [] 1 (Z.to_nat ((L + 31) / 32)) with
    | Some s => Done (ztake L s)
    | None => Err tt
    end.
Proof.
  unfold NXP_HASH_LEN. intros HL. unfold nxp_hkdf_expand, NXP_HASH_LEN.
  destruct (Z.gtb_spec L (255 * 32)); [lia |].
  rewrite (expand_loop_spec 255 prk info [] 1 [] L (Z.to_nat ((L + 31) / 32)));
    rewrite ?zlen_nil, ?Z.sub_0_r; [done | zlia..].
Qed.

Lemma hkdf_blocks_size prk info t c n s : hkdf_blocks prk info t c n = Some s ->
  zlen s = 32 * Z.of_nat n /\ bytes_ok s.
Proof.
  revert t c s. induction n as [| n IH]; intros t c s; cbn [hkdf_blocks].
  { intros [= <-]. split; [done | constructor]. }
  destruct (EVP_hmac _ _) as [t' |] eqn:Ht; [| done]. cbn [mbind option_bind].
  destruct (hkdf_blocks prk info t' (c + 1) n) as [r |] eqn:Hr; [| done].
  intros [= <-]. apply hmac_size in Ht as [Ht ?]. apply IH in Hr as [Hr ?].
  split; [rewrite zlen_app; unfold NXP_HASH_LEN in *; lia | by apply bytes_ok_app].
Qed.

Lemma hkdf_expand_size prk info L s : 0 <= L -> nxp_hkdf_expand prk info L = Done s ->
  zlen s = L /\ bytes_ok s.
Proof.
  intros HL Hs. assert (L <= 255 * NXP_HASH_LEN) as Hm.
  { unfold nxp_hkdf_expand in Hs. destruct (Z.gtb_spec L (255 * NXP_HASH_LEN)); [done | lia]. }
  rewrite hkdf_expand_spec in Hs by done.
  destruct (hkdf_blocks _ _ _ _ _) as [b |] eqn:Hb; [| done]. injection Hs as <-.
  apply hkdf_blocks_size in Hb as [Hb Hok]. split; [| by apply bytes_ok_take].
  apply zlen_ztake. rewrite Hb. zlia.
Qed.

(** The label structure, when it fits. *)
Definition hkdf_label (label context : list Z) (out_len : Z) : list Z :=
  be_bytes 2 out_len ++ [5 + zlen label] ++ ascii "nxp1 " ++ label ++ [zlen context] ++ context.

Lemma hkdf_info_spec label context len out_len :
  zlen label <= 240 -> zlen (default [] context) = len -> len <= 255 -> 0 <= out_len <= 65535 ->
  hkdf_info label context len out_len = Done (hkdf_label label (default [] context) out_len).
Proof.
  intros Hl Hlen Hc Ho. pose proof (zlen_nonneg label). pose proof (zlen_nonneg (default [] context)).
  unfold hkdf_info, hkdf_label.
  rewrite !Z.gtb_ltb, !(proj2 (Z.ltb_ge _ _)) by lia. cbn [orb].
  assert (zlen (ascii "nxp1 ") = 5) as H5 by done.
  repeat (rewrite push_ok by (rewrite ?zlen_app, ?zlen_cons, ?zlen_nil, ?H5; lia); cbn [obind]).
  rewrite (u8_small (5 + zlen label)), (u8_small len) by lia. rewrite land_255.
  assert (u8 (out_len >>> 8) = u8 (out_len / 256 ^ 1)) as -> by (by rewrite Z.shiftr_div_pow2 by lia).
  unfold be_bytes. rewrite Z.pow_0_r, Z.div_1_r. unfold u8.
  change (Z.of_nat 1) with 1. rewrite app_nil_l.
  destruct context as [c |]; cbn [default from_option id] in *; subst len.
  - destruct (Z.ltb_spec 0 (zlen c)).
    + rewrite sub_buf_Done by lia. rewrite zdrop_0, ztake_all by lia. cbn [obind].
      rewrite push_ok by (zlen_norm; rewrite H5; lia). by rewrite <- !app_assoc.
    + destruct c; [| rewrite zlen_cons in *; pose proof (zlen_nonneg c); lia].
      by rewrite <- !app_assoc.
  - by rewrite <- !app_assoc.
Qed.

(** Domain separation: label, context and length can be read off the bytes. *)
Lemma hkdf_label_inj l c n l' c' n' : zlen l <= 240 -> zlen l' <= 240 ->
  0 <= n <= 65535 -> 0 <= n' <= 65535 ->
  hkdf_label l c n = hkdf_label l' c' n' -> l = l' /\ c = c' /\ n = n'.
Proof.
  unfold hkdf_label. intros Hl Hl' Hn Hn' Heq.
  apply app_inj_1 in Heq as [Hb Heq]; [| by rewrite !length_be_bytes].
  apply (f_equal be_val) in Hb. rewrite !be_val_be_bytes_small in Hb by (simpl; lia).
  injection Heq as Hlen Heq.
  apply app_inj_1 in Heq as [-> Heq]; [| unfold zlen in *; lia].
  injection Heq as _ ->. done.
Qed.

Lemma expand_label_spec secret label context len out_len :
  zlen (ascii label) <= 240 -> zlen (default [] context) = len -> len <= 255 -> 0 <= out_len <= 65535 ->
  nxp_hkdf_expand_label secret label context len out_len =
    nxp_hkdf_expand secret (hkdf_label (ascii label) (default [] context) out_len) out_len.
Proof. intros. unfold nxp_hkdf_expand_label. by rewrite hkdf_info_spec. Qed.

Lemma expand_total prk info L : 0 <= L <= 255 * NXP_HASH_LEN ->
  nxp_hkdf_expand prk info L = Err tt \/
  exists s, nxp_hkdf_expand prk info L = Done s /\ zlen s = L /\ bytes_ok s.
Proof.
  intros HL. destruct (nxp_hkdf_expand prk info L) as [s | [] |] eqn:Hs; [| by left |].
  - right. exists s. split; [done |]. apply hkdf_expand_size in Hs; [done | lia].
  - rewrite hkdf_expand_spec in Hs by done. by destruct (hkdf_blocks _ _ _ _ _).
Qed.

(** ** Sizes of derived keys *)

Definition keys_ok (k : nxp_crypto_keys) : Prop :=
  zlen (ck_key k) = 32 /\ zlen (ck_iv k) = 12 /\ zlen (ck_hp_key k) = 32 /\ ck_key_len k = 32 /\
  bytes_ok (ck_key k) /\ bytes_ok (ck_iv k) /\ bytes_ok (ck_hp_key k).

Lemma traffic_keys_ok secret algo out k :
  nxp_crypto_derive_traffic_keys secret algo out = (k, true) -> keys_ok k.
Proof.
  unfold nxp_crypto_derive_traffic_keys, nxp_aead_key_len, NXP_AEAD_IV_LEN.
  rewrite !expand_label_spec by by_compute.
  generalize (hkdf_label (ascii "key") (default [] None) 32), (hkdf_label (ascii "iv") (default [] None) 12),
    (hkdf_label (ascii "hp") (default [] None) 32). intros i1 i2 i3.
  destruct (nxp_hkdf_expand secret i1 32) as [a | |] eqn:Ha; [| done..].
  destruct (nxp_hkdf_expand secret i2 12) as [b | |] eqn:Hb; [| done..].
  destruct (nxp_hkdf_expand secret i3 32) as [c | |] eqn:Hc; [| done..].
  intros [= <-].
  apply hkdf_expand_size in Ha as [? ?], Hb as [? ?], Hc as [? ?]; [| lia..].
  by repeat split.
Qed.

(** The keys do not depend on what the structure held before. *)
Lemma traffic_keys_fresh secret algo out out' k :
  nxp_crypto_derive_traffic_keys secret algo out = (k, true) ->
  nxp_crypto_derive_traffic_keys secret algo out' = (k, true).
Proof.
  unfold nxp_crypto_derive_traffic_keys.
  destruct (nxp_hkdf_expand_label secret "key" None 0 (nxp_aead_key_len algo)); [| done..].
  destruct (nxp_hkdf_expand_label secret "iv" None 0 NXP_AEAD_IV_LEN); [| done..].
  destruct (nxp_hkdf_expand_label secret "hp" None 0 (nxp_aead_key_len algo)); done.
Qed.

End HkdfSpec.

(** ** Nonces *)

Lemma length_12 (l : list Z) : zlen l = 12 ->
  exists a b c d e f g h i j k m, l = [a; b; c; d; e; f; g; h; i; j; k; m].
Proof.
  unfold zlen. intros Hl. assert (length l = 12%nat) as Hn by lia. clear Hl.
  do 12 (destruct l as [| ? l]; [done |]). destruct l; [| done]. eauto 20.
Qed.

(** The packet number, big-endian, is added bitwise to the last eight bytes. *)
Lemma make_nonce_spec iv pn : zlen iv = NXP_AEAD_IV_LEN ->
  nxp_crypto_make_nonce iv pn = ztake 4 iv ++ zip_with Z.lxor (zdrop 4 iv) (be_bytes 8 pn).
Proof.
  intros Hl. destruct (length_12 iv Hl) as (a & b & c & d & e & f & g & h & i & j & k & m & ->).
  assert (forall n : nat, (pn / 256 ^ Z.of_nat n) mod 256 = u8 (pn >>> (8 * Z.of_nat n))) as Hb
    by (intros n; rewrite Z.mul_comm; symmetry; apply shiftr_byte).
  unfold be_bytes. rewrite !Hb. reflexivity.
Qed.

Lemma zip_lxor_inj (l a b : list Z) : length a = length l -> length b = length l ->
  zip_with Z.lxor l a = zip_with Z.lxor l b -> a = b.
Proof.
  revert a b. induction l as [| x l IH]; intros [| y a] [| z b]; simpl; try done.
  intros Ha Hb [= Hyz Hr]. f_equal; [| apply IH; (done || lia)].
  rewrite <- (Z.lxor_0_l y), <- (Z.lxor_0_l z), <- (Z.lxor_nilpotent x), !Z.lxor_assoc. by f_equal.
Qed.

(** Different packet numbers give different nonces under one key. *)
Lemma make_nonce_inj iv pn pn' : zlen iv = NXP_AEAD_IV_LEN -> 0 <= pn < 2 ^ 64 -> 0 <= pn' < 2 ^ 64 ->
  nxp_crypto_make_nonce iv pn = nxp_crypto_make_nonce iv pn' -> pn = pn'.
Proof.
  intros Hl Hpn Hpn'. rewrite !make_nonce_spec by done. intros Heq%app_inv_head.
  apply zip_lxor_inj in Heq.
  - apply (f_equal be_val) in Heq. rewrite !be_val_be_bytes_small in Heq by (simpl; lia). done.
  - rewrite length_be_bytes. unfold zdrop, zlen, NXP_AEAD_IV_LEN in *. rewrite length_drop. lia.
  - rewrite length_be_bytes. unfold zdrop, zlen, NXP_AEAD_IV_LEN in *. rewrite length_drop. lia.
Qed.

(** ** Header protection *)

Lemma rd_mid {E} pre b post : @rd E (pre ++ b :: post) (zlen pre) = Done b.
Proof. rewrite <- (Z.add_0_r (zlen pre)). rewrite rd_app_r by lia. done. Qed.

Lemma wr_mid {E} pre b post v : @wr E (pre ++ b :: post) (zlen pre) v = Done (pre ++ v :: post).
Proof.
  rewrite wr_splice by (zlen_norm; pose proof (zlen_nonneg pre); pose proof (zlen_nonneg post); lia).
  unfold splice. rewrite ztake_app. f_equal. f_equal. simpl. f_equal.
  replace (pre ++ b :: post) with ((pre ++ [b]) ++ post) by (by rewrite <- app_assoc).
  replace (zlen pre + zlen [v]) with (zlen (pre ++ [b])) by (by rewrite zlen_app). apply zdrop_app.
Qed.

Lemma mask_pkt_num_spec pn : forall i pre rest mask,
  i + zlen pn < zlen mask -> 0 <= i ->
  mask_pkt_num (length pn) i (pre ++ pn ++ rest) (zlen pre - i) mask =
    Done (pre ++ zip_with Z.lxor pn (zdrop (1 + i) mask) ++ rest).
Proof.
  induction pn as [| b pn IH]; intros i pre rest mask Hlen Hi; [done |].
  rewrite zlen_cons in Hlen. pose proof (zlen_nonneg pn).
  destruct (rd_Done (E := unit) mask (1 + i)) as (m & Hm & Hmi); [lia |].
  cbn [length mask_pkt_num app]. replace (zlen pre - i + i) with (zlen pre) by lia.
  rewrite rd_mid. cbn [obind]. rewrite Hm. cbn [obind]. rewrite wr_mid. cbn [obind].
  replace (pre ++ Z.lxor b m :: pn ++ rest) with ((pre ++ [Z.lxor b m]) ++ pn ++ rest)
    by (by rewrite <- app_assoc).
  replace (zlen pre - i) with (zlen (pre ++ [Z.lxor b m]) - (i + 1)) by (zlen_norm; lia).
  rewrite IH by lia.
  assert (zdrop (1 + i) mask = m :: zdrop (1 + (i + 1)) mask) as ->.
  { unfold zdrop. erewrite drop_S by exact Hmi. do 2 f_equal. lia. }
  by rewrite <- app_assoc.
Qed.

Lemma zip_lxor_twice (l m : list Z) : (length l <= length m)%nat ->
  zip_with Z.lxor (zip_with Z.lxor l m) m = l.
Proof.
  revert m. induction l as [| x l IH]; intros [| y m]; simpl; try done; [lia |].
  intros. rewrite IH by lia. f_equal. by rewrite Z.lxor_assoc, Z.lxor_nilpotent, Z.lxor_0_r.
Qed.

(** The first byte keeps its form bit, and masking it twice restores it. *)
Definition masked (b m : Z) : Z :=
  Z.lxor b (m &&& (if negb (b &&& NXP_PKT_FORM_BIT =? 0) then 0x0F else 0x1F)).

Lemma masked_form b m : masked b m &&& NXP_PKT_FORM_BIT = b &&& NXP_PKT_FORM_BIT.
Proof.
  unfold masked, NXP_PKT_FORM_BIT. apply Z.bits_inj_iff'. intros n Hn.
  rewrite !Z.land_spec, Z.lxor_spec, Z.land_spec.
  destruct (Z.eq_dec n 7) as [-> | Hne].
  - destruct (negb _); rewrite andb_false_r, xorb_false_r; done.
  - assert (Z.testbit 128 n = false) as ->; [| by rewrite !andb_false_r].
    change 128 with (2 ^ 7). apply Z.pow2_bits_false. lia.
Qed.

Lemma masked_twice b m : masked (masked b m) m = b.
Proof.
  unfold masked at 1. rewrite masked_form. unfold masked.
  rewrite Z.lxor_assoc, Z.lxor_nilpotent. apply Z.lxor_0_r.
Qed.

Lemma mask_first_spec b rest m ms : mask_first (b :: rest) (m :: ms) = Done (masked b m :: rest).
Proof. unfold mask_first. rewrite !rd_at0. cbn [obind]. apply (wr_mid [] b rest). Qed.

Section HeaderProtection.
Context `{OpenSSLLaws}.

Lemma hp_mask_size algo key sample mask : zlen sample = NXP_HP_SAMPLE_LEN ->
  generate_hp_mask algo key sample = Some mask -> zlen mask = NXP_HP_MASK_LEN /\ bytes_ok mask.
Proof.
  unfold generate_hp_mask, NXP_HP_SAMPLE_LEN, NXP_HP_MASK_LEN. intros Hs.
  destruct (algo =? NXP_AEAD_AES_256_GCM).
  - destruct (EVP_aes_256_ecb key sample) as [b |] eqn:Hb; [| done]. intros [= <-].
    apply ecb_size in Hb as [Hb ?]. split; [apply zlen_ztake; lia | by apply bytes_ok_take].
  - destruct (algo =? NXP_AEAD_CHACHA20_POLY1305); [| done]. intros Hm.
    apply chacha20_size in Hm as [-> ?]. done.
Qed.

(** The sample is the same before and after the packet number is masked. *)
Lemma hp_sample {E} b mid pn rest : zlen pn <= 4 -> 20 <= zlen pn + zlen rest ->
  @sub_buf E (b :: mid ++ pn ++ rest) (1 + zlen mid + 4) NXP_HP_SAMPLE_LEN =
    Done (ztake 16 (zdrop (4 - zlen pn) rest)).
Proof.
  intros Hpn Hr. pose proof (zlen_nonneg mid). pose proof (zlen_nonneg pn).
  unfold NXP_HP_SAMPLE_LEN. rewrite sub_buf_Done by (zlen_norm; lia). do 2 f_equal.
  replace (b :: mid ++ pn ++ rest) with ((b :: mid ++ pn) ++ rest) by (simpl; by rewrite <- app_assoc).
  replace (1 + zlen mid + 4) with (zlen (b :: mid ++ pn) + (4 - zlen pn)) by (zlen_norm; lia).
  rewrite <- zdrop_zdrop by (zlen_norm; lia). by rewrite zdrop_app.
Qed.

Definition hp_mask (algo : Z) (key rest : list Z) (pn_len : Z) : option (list Z) :=
  generate_hp_mask algo key (ztake 16 (zdrop (4 - pn_len) rest)).

Lemma hp_mask_cons algo key rest n mask : 0 <= n <= 4 -> 20 <= n + zlen rest ->
  hp_mask algo key rest n = Some mask ->
  exists m ms, mask = m :: ms /\ zlen ms = 4 /\ bytes_ok (m :: ms).
Proof.
  intros Hn Hr Hm. apply hp_mask_size in Hm as [Hm Hok].
  - destruct mask as [| m ms]; [done |]. exists m, ms. rewrite zlen_cons in Hm.
    unfold NXP_HP_MASK_LEN in Hm. split; [done |]. split; [lia | done].
  - unfold NXP_HP_SAMPLE_LEN. apply zlen_ztake. rewrite zlen_zdrop by lia. lia.
Qed.

Lemma hp_protect_spec algo key b mid pn rest m ms :
  1 <= zlen pn <= 4 -> 20 <= zlen pn + zlen rest -> zlen (mid ++ pn ++ rest) < 2 ^ 62 ->
  hp_mask algo key rest (zlen pn) = Some (m :: ms) -> zlen ms = 4 ->
  nxp_hp_protect algo key (b :: mid ++ pn ++ rest) (1 + zlen mid) (zlen pn) =
    Done (masked b m :: mid ++ zip_with Z.lxor pn ms ++ rest).
Proof.
  intros Hpn Hr Hmax Hm Hms. pose proof (zlen_nonneg mid). rewrite !zlen_app in Hmax.
  pose proof (zlen_nonneg rest). unfold nxp_hp_protect.
  rewrite !u64_small by (unfold NXP_HP_SAMPLE_LEN; rewrite ?u64_small; lia).
  rewrite Z.gtb_ltb, (proj2 (Z.ltb_ge _ _)) by (unfold NXP_HP_SAMPLE_LEN; zlen_norm; lia).
  rewrite hp_sample by lia. cbn [obind]. unfold hp_mask in Hm. rewrite Hm.
  rewrite mask_first_spec. cbn [obind].
  replace (Z.to_nat (zlen pn)) with (length pn) by (unfold zlen; lia).
  pose proof (mask_pkt_num_spec pn 0 (masked b m :: mid) rest (m :: ms)) as Hspec.
  rewrite !zlen_cons, Z.sub_0_r in Hspec. apply Hspec; lia.
Qed.

Lemma hp_unprotect_spec algo key b mid pn rest m ms n :
  n = (masked b m &&& 3) + 1 -> n = zlen pn ->
  20 <= zlen pn + zlen rest -> zlen (mid ++ pn ++ rest) < 2 ^ 62 ->
  hp_mask algo key rest (zlen pn) = Some (m :: ms) -> zlen ms = 4 ->
  nxp_hp_unprotect algo key (b :: mid ++ pn ++ rest) (1 + zlen mid) =
    Done (n, masked b m :: mid ++ zip_with Z.lxor pn ms ++ rest).
Proof.
  intros Hn Hpn Hr Hmax Hm Hms. pose proof (zlen_nonneg mid). rewrite !zlen_app in Hmax.
  pose proof (zlen_nonneg rest). pose proof (zlen_nonneg pn). pose proof (pn_len_range (masked b m)).
  unfold nxp_hp_unprotect.
  rewrite !u64_small by (unfold NXP_HP_SAMPLE_LEN; rewrite ?u64_small; lia).
  rewrite Z.gtb_ltb, (proj2 (Z.ltb_ge _ _)) by (unfold NXP_HP_SAMPLE_LEN; zlen_norm; lia).
  rewrite hp_sample by lia. cbn [obind]. unfold hp_mask in Hm. rewrite Hm.
  rewrite mask_first_spec. cbn [obind]. rewrite rd_at0. cbn [obind].
  rewrite <- Hn, Hpn. replace (Z.to_nat (zlen pn)) with (length pn) by (unfold zlen; lia).
  pose proof (mask_pkt_num_spec pn 0 (masked b m :: mid) rest (m :: ms)) as Hspec.
  rewrite !zlen_cons, Z.sub_0_r in Hspec. cbn [app] in Hspec. rewrite Hspec by lia. done.
Qed.

(** What masking yields when it succeeds. *)
Lemma hp_protect_masked algo key b mid pn rest p :
  1 <= zlen pn <= 4 -> 20 <= zlen pn + zlen rest -> zlen (mid ++ pn ++ rest) < 2 ^ 62 ->
  nxp_hp_protect algo key (b :: mid ++ pn ++ rest) (1 + zlen mid) (zlen pn) = Done p ->
  exists m ms, hp_mask algo key rest (zlen pn) = Some (m :: ms) /\ zlen ms = 4 /\
    p = masked b m :: mid ++ zip_with Z.lxor pn ms ++ rest /\ zlen (zip_with Z.lxor pn ms) = zlen pn.
Proof.
  intros Hpn Hr Hmax Hp. destruct (hp_mask algo key rest (zlen pn)) as [mask |] eqn:Hm.
  - destruct (hp_mask_cons algo key rest (zlen pn) mask ltac:(lia) Hr Hm) as (m & ms & -> & Hms & _).
    rewrite (hp_protect_spec _ _ _ _ _ _ m ms) in Hp by done. injection Hp as <-. exists m, ms.
    split_and!; try done. unfold zlen in *. rewrite length_zip_with. lia.
  - exfalso. revert Hp. unfold nxp_hp_protect. rewrite !zlen_app in Hmax.
    pose proof (zlen_nonneg mid). pose proof (zlen_nonneg rest).
    rewrite !u64_small by (unfold NXP_HP_SAMPLE_LEN; rewrite ?u64_small; lia).
    rewrite Z.gtb_ltb, (proj2 (Z.ltb_ge _ _)) by (unfold NXP_HP_SAMPLE_LEN; rewrite zlen_cons, !zlen_app; lia).
    rewrite hp_sample by lia. cbn [obind]. unfold hp_mask in Hm. by rewrite Hm.
Qed.

(** Header protection is undone by the receiver, which learns the length of the
    packet number from the unmasked first byte. *)
Lemma hp_unprotect_protect algo key b mid pn rest packet :
  zlen pn = (b &&& 3) + 1 -> 20 <= zlen pn + zlen rest -> zlen (mid ++ pn ++ rest) < 2 ^ 62 ->
  nxp_hp_protect algo key (b :: mid ++ pn ++ rest) (1 + zlen mid) (zlen pn) = Done packet ->
  nxp_hp_unprotect algo key packet (1 + zlen mid) = Done (zlen pn, b :: mid ++ pn ++ rest).
Proof.
  intros Hpn Hr Hmax Hp. pose proof (pn_len_range b) as Hrange. rewrite <- Hpn in Hrange.
  destruct (hp_protect_masked _ _ _ _ _ _ _ Hrange Hr Hmax Hp) as (m & ms & Hm & Hms & -> & Hz).
  rewrite !zlen_app in Hmax. rewrite (hp_unprotect_spec _ _ _ _ _ _ m ms (zlen pn)).
  - by rewrite masked_twice, zip_lxor_twice by (unfold zlen in *; lia).
  - by rewrite masked_twice.
  - done.
  - by rewrite Hz.
  - rewrite !zlen_app, Hz. lia.
  - by rewrite Hz.
  - done.
Qed.

Lemma hp_masked_byte b m : byte b -> byte m -> byte (masked b m).
Proof.
  intros Hb Hm. unfold masked. apply lxor_byte; [done |].
  destruct (negb _).
  - change 15 with (2 ^ 4 - 1). rewrite land_ones_mod by lia. zlia.
  - change 31 with (2 ^ 5 - 1). rewrite land_ones_mod by lia. zlia.
Qed.

Lemma zip_lxor_bytes (l m : list Z) : bytes_ok l -> bytes_ok m -> bytes_ok (zip_with Z.lxor l m).
Proof.
  intros Hl. revert m. induction Hl as [| a l Ha Hl IH]; intros m Hm; [constructor |].
  destruct Hm as [| b m Hb Hm]; [constructor |]. simpl. constructor; [by apply lxor_byte | by apply IH].
Qed.

(** Unmasking is memory safe on any packet. *)
Lemma hp_unprotect_safe algo key packet off : bytes_ok packet -> zlen packet < 2 ^ 62 -> 1 <= off < 2 ^ 62 ->
  match nxp_hp_unprotect algo key packet off with
  | Done (n, p) => 1 <= n <= 4 /\ off + 20 <= zlen packet /\ zlen p = zlen packet /\ bytes_ok p
  | Err _ => True
  | Ub => False
  end.
Proof.
  intros Hok Hlen Hoff. destruct (Z.lt_ge_cases (zlen packet) (off + 20)) as [Hs | Hs].
  { unfold nxp_hp_unprotect, NXP_HP_SAMPLE_LEN. rewrite !u64_small by (rewrite ?u64_small; lia).
    by rewrite Z.gtb_ltb, (proj2 (Z.ltb_lt _ _)) by lia. }
  destruct packet as [| b tl]; [rewrite zlen_nil in Hs; lia |]. rewrite zlen_cons in *.
  apply Forall_cons_iff in Hok as [Hb Hok].
  assert (exists mid tl', tl = mid ++ tl' /\ zlen mid = off - 1) as (mid & tl' & -> & Hmid).
  { exists (ztake (off - 1) tl), (zdrop (off - 1) tl). rewrite ztake_zdrop. split; [done |]. apply zlen_ztake. lia. }
  rewrite zlen_app in *. replace off with (1 + zlen mid) by lia.
  pose proof (hp_sample (E := unit) b mid [] tl' ltac:(done) ltac:(rewrite zlen_nil; lia)) as Hsam.
  rewrite zlen_nil, Z.sub_0_r in Hsam. cbn [app] in Hsam.
  destruct (generate_hp_mask algo key (ztake 16 (zdrop 4 tl'))) as [mask |] eqn:Hm.
  - destruct (hp_mask_cons algo key tl' 0 mask ltac:(lia) ltac:(lia) Hm) as (m & ms & -> & Hms & Hmok).
    apply Forall_cons_iff in Hmok as [Hmb Hmok].
    pose proof (pn_len_range (masked b m)) as Hn. set (n := (masked b m &&& 3) + 1) in *.
    assert (zlen (ztake n tl') = n) as Hpn by (apply zlen_ztake; lia).
    replace (b :: mid ++ tl') with (b :: mid ++ ztake n tl' ++ zdrop n tl') by (by rewrite ztake_zdrop).
    rewrite (hp_unprotect_spec _ _ _ _ (ztake n tl') (zdrop n tl') m ms n); try done.
    + apply bytes_ok_app in Hok as [Hok1 Hok2].
      assert (zlen (zip_with Z.lxor (ztake n tl') ms) = n) as Hz.
      { unfold zlen in *. rewrite length_zip_with. lia. }
      split_and!; [lia | lia | lia | |].
      * rewrite zlen_cons, !zlen_app, Hz, zlen_zdrop by lia. lia.
      * constructor; [by apply hp_masked_byte |]. apply bytes_ok_app. split; [done |]. apply bytes_ok_app.
        split; [apply zip_lxor_bytes; [by apply bytes_ok_take | done] | by apply bytes_ok_drop].
    + rewrite Hpn, zlen_zdrop by lia. lia.
    + rewrite !zlen_app, Hpn, zlen_zdrop by lia. lia.
    + unfold hp_mask. rewrite Hpn, zdrop_zdrop by lia. by replace (n + (4 - n)) with 4 by lia.
  - unfold nxp_hp_unprotect, NXP_HP_SAMPLE_LEN in *. rewrite !u64_small by (rewrite ?u64_small; lia).
    rewrite Z.gtb_ltb, (proj2 (Z.ltb_ge _ _)) by (rewrite zlen_cons, zlen_app; lia).
    rewrite Hsam. cbn [obind]. by rewrite Hm.
Qed.

(** Masking keeps the form bit and the length. *)
Lemma hp_protect_form algo key b mid pn rest p :
  1 <= zlen pn <= 4 -> 20 <= zlen pn + zlen rest -> zlen (mid ++ pn ++ rest) < 2 ^ 62 ->
  nxp_hp_protect algo key (b :: mid ++ pn ++ rest) (1 + zlen mid) (zlen pn) = Done p ->
  exists b' tl, p = b' :: mid ++ tl /\ b' &&& NXP_PKT_FORM_BIT = b &&& NXP_PKT_FORM_BIT /\ zlen tl = zlen (pn ++ rest).
Proof.
  intros Hpn Hr Hmax Hp. destruct (hp_protect_masked _ _ _ _ _ _ _ Hpn Hr Hmax Hp) as (m & ms & _ & _ & -> & Hz).
  do 2 eexists. split; [reflexivity |]. split; [apply masked_form |]. by rewrite !zlen_app, Hz.
Qed.

(** So is masking. *)
Lemma hp_protect_safe algo key packet off n : zlen packet < 2 ^ 62 -> 1 <= off < 2 ^ 62 -> 1 <= n <= 4 ->
  match nxp_hp_protect algo key packet off n with
  | Done p => zlen p = zlen packet
  | Err _ => True
  | Ub => False
  end.
Proof.
  intros Hlen Hoff Hn. destruct (Z.lt_ge_cases (zlen packet) (off + 20)) as [Hs | Hs].
  { unfold nxp_hp_protect, NXP_HP_SAMPLE_LEN. rewrite !u64_small by (rewrite ?u64_small; lia).
    by rewrite Z.gtb_ltb, (proj2 (Z.ltb_lt _ _)) by lia. }
  destruct packet as [| b tl]; [rewrite zlen_nil in Hs; lia |]. rewrite zlen_cons in *.
  assert (exists mid pn rest, tl = mid ++ pn ++ rest /\ zlen mid = off - 1 /\ zlen pn = n)
    as (mid & pn & rest & -> & Hmid & Hpn).
  { exists (ztake (off - 1) tl), (ztake n (zdrop (off - 1) tl)), (zdrop n (zdrop (off - 1) tl)).
    rewrite !ztake_zdrop. split; [done |]. rewrite !zlen_ztake by (rewrite ?zlen_zdrop; lia). done. }
  rewrite !zlen_app in *. replace off with (1 + zlen mid) by lia. rewrite <- Hpn in *.
  destruct (hp_mask algo key rest (zlen pn)) as [mask |] eqn:Hm.
  - destruct (hp_mask_cons algo key rest (zlen pn) mask ltac:(lia) ltac:(lia) Hm) as (m & ms & -> & Hms & _).
    rewrite (hp_protect_spec _ _ _ _ _ _ m ms) by (rewrite ?zlen_app; (done || lia)).
    rewrite !zlen_cons, !zlen_app. unfold zlen in *. rewrite length_zip_with. lia.
  - unfold nxp_hp_protect. rewrite !u64_small by (unfold NXP_HP_SAMPLE_LEN; rewrite ?u64_small; lia).
    rewrite Z.gtb_ltb, (proj2 (Z.ltb_ge _ _)) by (unfold NXP_HP_SAMPLE_LEN; rewrite zlen_cons, !zlen_app; lia).
    rewrite hp_sample by lia. cbn [obind]. unfold hp_mask in Hm. by rewrite Hm.
Qed.

(** ** Authenticated encryption *)

Lemma aead_encrypt_size algo key nonce aad p c :
  nxp_aead_encrypt algo key nonce aad p = Some c -> zlen c = zlen p + NXP_AEAD_TAG_LEN /\ bytes_ok c.
Proof.
  unfold nxp_aead_encrypt. destruct (get_cipher algo) as [cph |]; [| done].
  destruct (EVP_seal cph key nonce aad p) as [[ct tag] |] eqn:Hs; [| done]. intros [= <-].
  apply seal_size in Hs as (? & ? & ? & ?). rewrite zlen_app. split; [lia | by apply bytes_ok_app].
Qed.

Lemma aead_decrypt_encrypt algo key nonce aad p c cap :
  nxp_aead_encrypt algo key nonce aad p = Some c -> zlen p <= cap ->
  nxp_aead_decrypt algo key nonce aad c cap = Done p.
Proof.
  unfold nxp_aead_encrypt, nxp_aead_decrypt. destruct (get_cipher algo) as [cph |]; [| done].
  destruct (EVP_seal cph key nonce aad p) as [[ct tag] |] eqn:Hs; [| done]. intros [= <-] Hcap.
  pose proof (open_seal _ _ _ _ _ _ _ Hs) as Ho. apply seal_size in Hs as (Hct & Htag & _ & _).
  pose proof (zlen_nonneg p). rewrite zlen_app, Htag. unfold NXP_AEAD_TAG_LEN in *.
  rewrite (proj2 (Z.ltb_ge _ _)) by lia. replace (zlen ct + 16 - 16) with (zlen ct) by lia.
  rewrite (proj2 (Z.ltb_ge _ _)) by lia. by rewrite ztake_app, zdrop_app, Ho.
Qed.

(** Decryption into a large enough buffer never leaves it. *)
Lemma aead_decrypt_total algo key nonce aad c cap : zlen c <= cap ->
  nxp_aead_decrypt algo key nonce aad c cap = Err tt \/
  exists p, nxp_aead_decrypt algo key nonce aad c cap = Done p /\
    zlen p = zlen c - NXP_AEAD_TAG_LEN /\ bytes_ok p /\ NXP_AEAD_TAG_LEN <= zlen c.
Proof.
  unfold nxp_aead_decrypt, NXP_AEAD_TAG_LEN. intros Hcap.
  destruct (Z.ltb_spec (zlen c) 16); [by left |].
  destruct (get_cipher algo) as [cph |]; [| by left].
  rewrite !(proj2 (Z.ltb_ge _ _)) by lia.
  destruct (EVP_open _ _ _ _ _ _) as [p |] eqn:Ho; [| by left].
  right. exists p. apply open_size in Ho as [Ho ?]. rewrite zlen_ztake in Ho by lia. done.
Qed.

End HeaderProtection.

(** ** A concrete instance

    Arithmetic stand-ins for the primitives, on which the examples run. *)
Module Sample.

Definition all_bytes (l : list Z) : bool := forallb (fun z => (0 <=? z) && (z <? 256)) l.

#[export] Instance sample_openssl : OpenSSL := {|
  EVP_hmac k m := Some (be_bytes 32 (be_val k * 31 + be_val m * 257 + 1));
  EVP_sha256 m := Some (be_bytes 32 (be_val m * 65537 + 3));
  EVP_seal c k n a p := if all_bytes p then Some (p, be_bytes 16 (be_val k + be_val n + be_val a + be_val p)) else None;
  EVP_open c k n a ct tag :=
    if all_bytes ct && bool_decide (tag = be_bytes 16 (be_val k + be_val n + be_val a + be_val ct))
    then Some ct else None;
  EVP_aes_256_ecb k b := Some (u8 <$> b);
  EVP_chacha20 k iv p := Some (u8 <$> p);
  EVP_x25519_public k := be_bytes 32 (be_val k);
  EVP_x25519_derive k p := Some (be_bytes 32 (be_val k * be_val p))
|}.

Lemma all_bytes_ok l : all_bytes l = true -> bytes_ok l.
Proof.
  unfold all_bytes. rewrite forallb_forall. intros Hl. apply Forall_forall. intros z Hz.
  apply Hl in Hz. apply andb_true_iff in Hz as [?%Z.leb_le ?%Z.ltb_lt]. done.
Qed.

Lemma be_bytes_mod n v : be_bytes n (v mod 256 ^ Z.of_nat n) = be_bytes n v.
Proof.
  apply be_val_bytes_inj; [apply be_bytes_ok..| by rewrite !length_be_bytes |].
  rewrite !be_val_be_bytes. by rewrite Z.mod_mod by (apply Z.pow_nonzero; lia).
Qed.

Lemma u8_map_size l : zlen (u8 <$> l) = zlen l /\ bytes_ok (u8 <$> l).
Proof.
  split; [unfold zlen; by rewrite length_fmap |].
  apply Forall_fmap, Forall_true. intros z. apply u8_range.
Qed.

#[export] Instance sample_laws : OpenSSLLaws.
Proof.
  split; cbn -[be_bytes be_val all_bytes zlen].
  - intros k m t <-%(inj Some). split; [apply zlen_be_bytes | apply be_bytes_ok].
  - intros m t <-%(inj Some). split; [apply zlen_be_bytes | apply be_bytes_ok].
  - intros c k n a p ct tag. destruct (all_bytes p) eqn:Hp; [| done]. intros [<- <-]%(inj Some)%(inj2 pair).
    split_and!; [done | apply zlen_be_bytes | by apply all_bytes_ok | apply be_bytes_ok].
  - intros c k n a p ct tag. destruct (all_bytes p) eqn:Hp; [| done]. intros [<- <-]%(inj Some)%(inj2 pair).
    rewrite Hp, bool_decide_eq_true_2; done.
  - intros c k n a ct tag p. destruct (all_bytes ct) eqn:Hp; [| done].
    destruct (bool_decide _); [| done]. intros [= <-]. split; [done | by apply all_bytes_ok].
  - intros k b m [= <-]. apply u8_map_size.
  - intros k iv p m [= <-]. apply u8_map_size.
  - intros k. split; [apply zlen_be_bytes | apply be_bytes_ok].
  - intros k p s <-%(inj Some). apply zlen_be_bytes.
  - intros k1 k2. f_equal. rewrite !be_val_be_bytes.
    rewrite <- (be_bytes_mod 32 (be_val k1 * _)), <- (be_bytes_mod 32 (be_val k2 * _)).
    rewrite !Z.mul_mod_idemp_r by done. by rewrite Z.mul_comm.
Qed.

End Sample.

(** HKDF is HKDF-Expand-Label.  For labels and contexts within the limits
    the output is the first [out_len] bytes of the RFC 5869 blocks over the
    length-prefixed label structure; the structure determines label, context and
    length, so distinct uses of a secret are separated. *)
Theorem hkdf_expand_label_correct `{OpenSSLLaws} secret label context out_len :
  zlen (ascii label) <= 240 -> zlen context <= 255 -> 0 <= out_len <= 255 * NXP_HASH_LEN ->
  nxp_hkdf_expand_label secret label (Some context) (zlen context) out_len =
    match hkdf_blocks secret (hkdf_label (ascii label) context out_len) [] 1
            (Z.to_nat ((out_len + 31) / 32)) with
    | Some s => Done (ztake out_len s)
    | None => Err tt
    end /\
  (forall label' context' out_len', zlen label' <= 240 -> 0 <= out_len' <= 65535 ->
    hkdf_label label' context' out_len' = hkdf_label (ascii label) context out_len ->
    label' = ascii label /\ context' = context /\ out_len' = out_len).
Proof.
  unfold NXP_HASH_LEN. intros Hl Hc Ho. split.
  - rewrite expand_label_spec by (simpl; lia). simpl. by apply hkdf_expand_spec.
  - intros l' c' o' Hl' Ho' Heq. apply hkdf_label_inj in Heq; [done | lia..].
Qed.

Import Sample.

Lemma hkdf_expand_label_correct_witness :
  let context := zeros 32 in
  nxp_hkdf_expand_label (zeros 32) "c hs traffic" (Some context) (zlen context) 32 =
    match hkdf_blocks (zeros 32) (hkdf_label (ascii "c hs traffic") context 32) [] 1 1 with
    | Some s => Done (ztake 32 s)
    | None => Err tt
    end.
Proof.
  apply (hkdf_expand_label_correct (zeros 32) "c hs traffic" (zeros 32) 32); by_compute.
Defined.

(** The array [info[512]] is two bytes short of the longest label and context
    that the checks of [nxp_hkdf_expand_label] let through. *)
Example hkdf_info_overflow :
  hkdf_info (replicate 250 97) (Some (replicate 255 0)) 255 32 = Ub.
Proof. reflexivity. Qed.
