(* ===== verification/Tokens.v ===== *)
(** * Retry tokens, session tickets and replay protection
      (src/src/crypto/retry_token.c, session_ticket.c)

    Both kinds of token are a nonce followed by an AEAD ciphertext under a key of
    the server.  The plaintext is parsed from a fixed array of the stack, whose
    size the model keeps: decryption into it can overflow. *)

From S2P Require Import Prelude Types Frame Packet Crypto.

Definition NXP_RETRY_TOKEN_VERSION : Z := 1.
Definition NXP_RETRY_TOKEN_MAX_AGE_US : Z := 10 * 1000000.
Definition NXP_TICKET_VERSION : Z := 1.
Definition NXP_TICKET_MAX_PLAINTEXT : Z := 512.
Definition NXP_TICKET_DEFAULT_LIFETIME : Z := 3600.
Definition NXP_STRIKE_REGISTER_SIZE : Z := 1024.

(** [(uint8_t)(v >> (i * 8))] for [i] from [n - 1] down to 0. *)
Fixpoint be_field (n : nat) (v : Z) : list Z :=
  match n with
  | O => []
  | S n => u8 (v >>> (Z.of_nat n * 8)) :: be_field n v
  end.

#[global] Instance nxp_conn_id_eq_dec : EqDecision nxp_conn_id.
Proof. solve_decision. Defined.

Section Tokens.
Context `{OpenSSL}.

(** ** Retry tokens *)

(** The address is its 28 raw bytes; [nonce] is what the random source returns. *)
Definition retry_plaintext (client_addr : list Z) (original_dcid : nxp_conn_id) (now_us : Z)
  : nxp_result (list Z) :=
  let! pt := push 128 [] [NXP_RETRY_TOKEN_VERSION] in
  let! pt := push 128 pt (be_field 8 now_us) in
  let! pt := push 128 pt client_addr in
  let! pt := push 128 pt [cid_len original_dcid] in
  if cid_len original_dcid >? 0 then
    let! dcid := sub_buf (cid_data original_dcid) 0 (cid_len original_dcid) in
    push 128 pt dcid
  else Done pt.

Definition nxp_retry_token_create (server_key client_addr : list Z) (original_dcid : nxp_conn_id)
    (now_us token_cap : Z) (nonce : nxp_result (list Z)) : nxp_result (list Z) :=
  let! pt := retry_plaintext client_addr original_dcid now_us in
  return_if token_cap <? NXP_AEAD_IV_LEN + zlen pt + NXP_AEAD_TAG_LEN with NXP_ERR_BUFFER_TOO_SMALL ;;
  let! nonce := nonce in
  match nxp_aead_encrypt NXP_AEAD_AES_256_GCM server_key nonce [] pt with
  | None => Err NXP_ERR_CRYPTO_FAIL
  | Some ct => Done (nonce ++ ct)
  end.

(** A failure of the decryption is reported as an invalid token. *)
Definition open_token (server_key token : list Z) (cap : Z) : nxp_result (list Z) :=
  match nxp_aead_decrypt NXP_AEAD_AES_256_GCM server_key (ztake NXP_AEAD_IV_LEN token) []
          (zdrop NXP_AEAD_IV_LEN token) cap with
  | Done pt => Done pt
  | Err _ => Err NXP_ERR_TOKEN_INVALID
  | Ub => Ub
  end.

(** [memcmp(pt + pos, data, n) == 0] *)
Definition mem_eq {E} (pt : list Z) (pos : Z) (data : list Z) (n : Z) : outcome E bool :=
  let! a := sub_buf pt pos n in
  let! b := sub_buf data 0 n in
  Done (bool_decide (a = b)).

(** The checks on the decrypted token. *)
Definition retry_check (client_addr : list Z) (original_dcid : nxp_conn_id) (pt : list Z) (now_us : Z)
  : nxp_result unit :=
  return_if zlen pt <? 1 + 8 + 28 + 1 with NXP_ERR_TOKEN_INVALID ;;
  let! version := rd pt 0 in
  return_if negb (version =? NXP_RETRY_TOKEN_VERSION) with NXP_ERR_TOKEN_INVALID ;;
  let! creation_time := read_be 8 pt 1 0 in
  return_if now_us >? u64 (creation_time + NXP_RETRY_TOKEN_MAX_AGE_US) with NXP_ERR_TOKEN_INVALID ;;
  let! same := mem_eq pt 9 client_addr 28 in
  return_if negb same with NXP_ERR_TOKEN_INVALID ;;
  let! dcid_len := rd pt 37 in
  return_if negb (dcid_len =? cid_len original_dcid) with NXP_ERR_TOKEN_INVALID ;;
  if dcid_len >? 0 then
    return_if 38 + dcid_len >? zlen pt with NXP_ERR_TOKEN_INVALID ;;
    let! same := mem_eq pt 38 (cid_data original_dcid) dcid_len in
    return_if negb same with NXP_ERR_TOKEN_INVALID ;;
    Done tt
  else Done tt.

Definition nxp_retry_token_validate (server_key client_addr : list Z) (original_dcid : nxp_conn_id)
    (token : list Z) (now_us : Z) : nxp_result unit :=
  let min_len := NXP_AEAD_IV_LEN + 1 + 8 + 28 + 1 + NXP_AEAD_TAG_LEN in
  return_if zlen token <? min_len with NXP_ERR_TOKEN_INVALID ;;
  let! pt := open_token server_key token 128 in
  retry_check client_addr original_dcid pt now_us.

(** ** Session tickets *)

Definition ticket_plaintext (resumption_secret : list Z) (algo : Z) (transport_params : option (list Z))
    (tp_len now_us : Z) : nxp_result (list Z) :=
  let! pt := push NXP_TICKET_MAX_PLAINTEXT [] [NXP_TICKET_VERSION] in
  let! pt := push NXP_TICKET_MAX_PLAINTEXT pt (be_field 8 now_us) in
  let! pt := push NXP_TICKET_MAX_PLAINTEXT pt (be_field 4 NXP_TICKET_DEFAULT_LIFETIME) in
  let! pt := push NXP_TICKET_MAX_PLAINTEXT pt [u8 algo] in
  let! secret := sub_buf resumption_secret 0 NXP_HASH_LEN in
  let! pt := push NXP_TICKET_MAX_PLAINTEXT pt secret in
  return_if tp_len >? 255 with NXP_ERR_INVALID_ARGUMENT ;;
  let! pt := push NXP_TICKET_MAX_PLAINTEXT pt [u8 (tp_len >>> 8); tp_len &&& 255] in
  match transport_params with
  | Some tp =>
      if tp_len >? 0 then
        return_if zlen pt + tp_len >? NXP_TICKET_MAX_PLAINTEXT with NXP_ERR_BUFFER_TOO_SMALL ;;
        let! tp := sub_buf tp 0 tp_len in
        push NXP_TICKET_MAX_PLAINTEXT pt tp
      else Done pt
  | None => Done pt
  end.

Definition nxp_session_ticket_create (server_key resumption_secret : list Z) (algo : Z)
    (transport_params : option (list Z)) (tp_len now_us ticket_cap : Z) (nonce : nxp_result (list Z))
  : nxp_result (list Z) :=
  let! pt := ticket_plaintext resumption_secret algo transport_params tp_len now_us in
  return_if ticket_cap <? NXP_AEAD_IV_LEN + zlen pt + NXP_AEAD_TAG_LEN with NXP_ERR_BUFFER_TOO_SMALL ;;
  let! nonce := nonce in
  match nxp_aead_encrypt NXP_AEAD_AES_256_GCM server_key nonce [] pt with
  | None => Err NXP_ERR_CRYPTO_FAIL
  | Some ct => Done (nonce ++ ct)
  end.

(** What a valid ticket yields: the secret, the algorithm, the announced length
    of the transport parameters and, if the caller's buffer holds them, their
    bytes. *)
Record ticket_contents := TicketContents {
  tk_secret : list Z;
  tk_algo : Z;
  tk_tp_len : Z;
  tk_tp : option (list Z)
}.

(** The decrypted ticket. *)
Definition ticket_parse (pt : list Z) (now_us tp_cap : Z) : nxp_result ticket_contents :=
  return_if zlen pt <? 1 + 8 + 4 + 1 + NXP_HASH_LEN + 2 with NXP_ERR_TOKEN_INVALID ;;
  let! version := rd pt 0 in
  return_if negb (version =? NXP_TICKET_VERSION) with NXP_ERR_TOKEN_INVALID ;;
  let! creation_time := read_be 8 pt 1 0 in
  let! lifetime := read_be 4 pt 9 0 in
  let max_age := lifetime * 1000000 in
  return_if now_us >? u64 (creation_time + max_age) with NXP_ERR_TOKEN_INVALID ;;
  let! algo := rd pt 13 in
  let! secret := sub_buf pt 14 NXP_HASH_LEN in
  let! tp_len_val := read_be 2 pt 46 0 in
  if tp_len_val >? 0 then
    return_if 48 + tp_len_val >? zlen pt with NXP_ERR_TOKEN_INVALID ;;
    if tp_cap >=? tp_len_val then
      let! tp := sub_buf pt 48 tp_len_val in
      Done (TicketContents secret algo tp_len_val (Some tp))
    else Done (TicketContents secret algo tp_len_val None)
  else Done (TicketContents secret algo tp_len_val None).

Definition nxp_session_ticket_validate (server_key ticket : list Z) (now_us tp_cap : Z)
  : nxp_result ticket_contents :=
  let min_len := NXP_AEAD_IV_LEN + 1 + 8 + 4 + 1 + NXP_HASH_LEN + 2 + NXP_AEAD_TAG_LEN in
  return_if zlen ticket <? min_len with NXP_ERR_TOKEN_INVALID ;;
  let! pt := open_token server_key ticket NXP_TICKET_MAX_PLAINTEXT in
  ticket_parse pt now_us tp_cap.

End Tokens.

(** ** The strike register *)

Record nxp_strike_entry := StrikeEntry {
  ticket_hash : Z;
  timestamp : Z;
  occupied : bool
}.

Record nxp_strike_register := StrikeRegister {
  strikes : list nxp_strike_entry;
  strike_count : Z
}.

Definition nxp_strike_register_create : nxp_strike_register :=
  StrikeRegister (replicate (Z.to_nat NXP_STRIKE_REGISTER_SIZE) (StrikeEntry 0 0 false)) 0.

Definition hash_ticket (nonce : list Z) : Z :=
  foldl (fun h b => u64 (Z.lxor h b * 0x00000100000001B3)) 0x517cc1b727220a95 nonce.

Definition nxp_strike_register_check_and_add (reg : nxp_strike_register) (ticket_nonce : list Z) (now_us : Z)
  : outcome unit (bool * nxp_strike_register) :=
  let h := hash_ticket ticket_nonce in
  let idx := h mod NXP_STRIKE_REGISTER_SIZE in
  match zget (strikes reg) idx with
  | None => Ub
  | Some e =>
      if occupied e && (ticket_hash e =? h) then Done (false, reg) else
      Done (true, StrikeRegister (<[Z.to_nat idx := StrikeEntry h now_us true]> (strikes reg))
        (if strike_count reg <? NXP_STRIKE_REGISTER_SIZE then u32 (strike_count reg + 1) else strike_count reg))
  end.

(** ** Images of the plaintexts *)

Lemma be_field_bytes n v : be_field n v = be_bytes n v.
Proof. induction n as [| n IH]; simpl; [done |]. by rewrite IH, shiftr_byte. Qed.

Definition retry_image (time : Z) (addr : list Z) (dcid : nxp_conn_id) : list Z :=
  [NXP_RETRY_TOKEN_VERSION] ++ be_bytes 8 time ++ addr ++ [cid_len dcid] ++ ztake (cid_len dcid) (cid_data dcid).

Lemma conn_id_sizes c : conn_id_ok c ->
  0 <= cid_len c <= 20 /\ zlen (cid_data c) = 20 /\ bytes_ok (cid_data c).
Proof.
  intros (l & -> & Hl & Hok). unfold mk_conn_id, NXP_MAX_CID_LEN in *. pose proof (zlen_nonneg l).
  cbn [cid_len cid_data]. split; [lia |]. split; [rewrite zlen_app, zlen_replicate; lia |].
  apply bytes_ok_app. split; [done |]. apply Forall_replicate. lia.
Qed.

Lemma retry_plaintext_spec addr dcid now : zlen addr = 28 -> conn_id_ok dcid ->
  retry_plaintext addr dcid now = Done (retry_image now addr dcid) /\
  zlen (retry_image now addr dcid) = 38 + cid_len dcid.
Proof.
  intros Ha Hc. destruct (conn_id_sizes dcid Hc) as (Hl & Hd & _).
  assert (zlen (retry_image now addr dcid) = 38 + cid_len dcid) as Hlen.
  { unfold retry_image. zlen_norm. rewrite zlen_be_bytes, zlen_ztake, Ha by lia. lia. }
  split; [| done]. unfold retry_plaintext, retry_image. rewrite be_field_bytes.
  repeat (rewrite push_ok by (zlen_norm; rewrite ?zlen_be_bytes; lia); cbn [obind]).
  destruct (Z.gtb_spec (cid_len dcid) 0).
  - rewrite sub_buf_Done by lia. cbn [obind]. rewrite zdrop_0.
    rewrite push_ok by (zlen_norm; rewrite ?zlen_be_bytes, zlen_ztake; lia).
    by rewrite <- !app_assoc.
  - replace (cid_len dcid) with 0 by lia. unfold ztake. simpl take. rewrite app_nil_r.
    by rewrite <- !app_assoc.
Qed.

(** Reading a field out of a concatenation. *)
Lemma rd_field {E} pre b post i : i = zlen pre -> @rd E (pre ++ b :: post) i = Done b.
Proof. intros ->. apply rd_mid. Qed.
Lemma read_be_field {E} n pre l post i : i = zlen pre -> n = length l -> bytes_ok l ->
  @read_be E n (pre ++ l ++ post) i 0 = Done (be_val l).
Proof. intros -> -> Hok. by rewrite read_be_spec by (done || apply Z.mod_0_l, Z.pow_nonzero; lia). Qed.

Lemma mem_eq_field {E} pre l post i data n : i = zlen pre -> n = zlen l -> n <= zlen data ->
  @mem_eq E (pre ++ l ++ post) i data n = Done (bool_decide (l = ztake n data)).
Proof.
  intros -> -> Hd. unfold mem_eq. rewrite sub_buf_app by done. cbn [obind].
  rewrite sub_buf_Done by (pose proof (zlen_nonneg l); lia). done.
Qed.

(** A plaintext long enough for the fixed fields splits into them. *)
Lemma split_retry pt : 38 <= zlen pt -> exists (v : Z) (time addr : list Z) (dl : Z) (rest : list Z),
  pt = [v] ++ time ++ addr ++ dl :: rest /\ zlen time = 8 /\ zlen addr = 28.
Proof.
  intros Hl. destruct pt as [| v pt]; [rewrite zlen_nil in Hl; lia |]. rewrite zlen_cons in Hl.
  assert (zlen (zdrop 36 pt) = zlen pt - 36) as Hd by (apply zlen_zdrop; lia).
  destruct (zdrop 36 pt) as [| dl rest] eqn:Hr; [rewrite zlen_nil in Hd; lia |].
  exists v, (ztake 8 pt), (ztake 28 (zdrop 8 pt)), dl, rest.
  rewrite !zlen_ztake by (rewrite ?zlen_zdrop; lia). split; [| done].
  rewrite <- Hr. cbn [app]. f_equal. rewrite <- (ztake_zdrop 8 pt) at 1. f_equal.
  rewrite <- (ztake_zdrop 28 (zdrop 8 pt)) at 1. f_equal. rewrite zdrop_zdrop by lia. done.
Qed.

(** What the checks read from such a plaintext. *)
Lemma retry_fields v time addr dl rest : zlen time = 8 -> zlen addr = 28 -> bytes_ok time ->
  let pt := [v] ++ time ++ addr ++ dl :: rest in
  zlen pt = 38 + zlen rest /\ @rd nxp_error_code pt 0 = Done v /\
  @read_be nxp_error_code 8 pt 1 0 = Done (be_val time) /\
  (forall d, zlen d = 28 -> @mem_eq nxp_error_code pt 9 d 28 = Done (bool_decide (addr = d))) /\
  @rd nxp_error_code pt 37 = Done dl /\
  (forall d n, 0 <= n <= zlen rest -> n <= zlen d ->
    @mem_eq nxp_error_code pt 38 d n = Done (bool_decide (ztake n rest = ztake n d))).
Proof.
  intros Ht Ha Hok pt. unfold pt. split_and!.
  - zlen_norm. lia.
  - done.
  - apply read_be_field; [done | unfold zlen in Ht; lia | done].
  - intros d Hd. rewrite app_assoc, mem_eq_field by (zlen_norm; lia). by rewrite ztake_all by lia.
  - rewrite !app_assoc. apply rd_field. zlen_norm. lia.
  - intros d n Hn Hd.
    rewrite <- (mem_eq_field ([v] ++ time ++ addr ++ [dl]) (ztake n rest) (zdrop n rest) 38);
      [| zlen_norm; lia | rewrite zlen_ztake; lia | lia].
    by rewrite ztake_zdrop, <- !app_assoc.
Qed.

Lemma retry_image_split v time ad dl rest t addr dcid junk : zlen time = 8 -> zlen ad = 28 -> zlen addr = 28 ->
  [v] ++ time ++ ad ++ dl :: rest = retry_image t addr dcid ++ junk ->
  v = NXP_RETRY_TOKEN_VERSION /\ time = be_bytes 8 t /\ ad = addr /\ dl = cid_len dcid /\
  rest = ztake (cid_len dcid) (cid_data dcid) ++ junk.
Proof.
  intros Ht Had Ha Heq. unfold retry_image in Heq. rewrite <- !app_assoc in Heq.
  apply app_inj_1 in Heq as [[= ->] Heq]; [| done].
  apply app_inj_1 in Heq as [-> Heq]; [| rewrite length_be_bytes; unfold zlen in *; lia].
  apply app_inj_1 in Heq as [-> Heq]; [| unfold zlen in *; lia].
  injection Heq as -> ->. done.
Qed.

(** The checks succeed exactly on the image of this address and connection ID
    with a time that is recent enough, possibly followed by other bytes. *)
Lemma retry_check_spec addr dcid pt now : zlen addr = 28 -> conn_id_ok dcid -> bytes_ok pt ->
  (retry_check addr dcid pt now = Done tt /\
    exists t junk, 0 <= t < 2 ^ 64 /\ pt = retry_image t addr dcid ++ junk /\
      now <= u64 (t + NXP_RETRY_TOKEN_MAX_AGE_US)) \/
  (retry_check addr dcid pt now = Err NXP_ERR_TOKEN_INVALID /\
    forall t junk, 0 <= t < 2 ^ 64 -> pt = retry_image t addr dcid ++ junk ->
      u64 (t + NXP_RETRY_TOKEN_MAX_AGE_US) < now).
Proof.
  intros Ha Hc Hok. destruct (conn_id_sizes dcid Hc) as (Hl & Hd & _). unfold retry_check.
  destruct (Z.ltb_spec (zlen pt) (1 + 8 + 28 + 1)) as [Hlt | Hge].
  { right. split; [done |]. intros t junk _ ->. exfalso. pose proof (zlen_nonneg junk).
    rewrite zlen_app, (proj2 (retry_plaintext_spec addr dcid t Ha Hc)) in Hlt. lia. }
  destruct (split_retry pt ltac:(lia)) as (v & time & ad & dl & rest & -> & Ht & Had).
  apply bytes_ok_app in Hok as [_ Hok]. apply bytes_ok_app in Hok as [Hokt _].
  destruct (retry_fields v time ad dl rest Ht Had Hokt) as (-> & -> & -> & Hma & -> & Hmc).
  rewrite Hma by done. cbn [obind].
  pose proof (fun t junk => retry_image_split v time ad dl rest t addr dcid junk Ht Had Ha) as Himg.
  assert (0 <= be_val time < 2 ^ 64) as Htr
    by (pose proof (be_val_range time Hokt) as Hr; rewrite Ht in Hr; simpl in Hr |- *; lia).
  assert (forall t, 0 <= t < 2 ^ 64 -> time = be_bytes 8 t -> be_val time = t) as Htime.
  { intros t Hr ->. apply be_val_be_bytes_small. simpl. lia. }
  pose proof (be_bytes_be_val time Hokt) as Hbv.
  replace (length time) with 8%nat in Hbv by (unfold zlen in Ht; lia).
  destruct (Z.eqb_spec v NXP_RETRY_TOKEN_VERSION) as [-> | Hv]; cbn [negb].
  2: { right. split; [done |]. by intros t junk _ (? & _)%Himg. }
  destruct (Z.gtb_spec now (u64 (be_val time + NXP_RETRY_TOKEN_MAX_AGE_US))) as [Hold | Hfresh].
  { right. split; [done |]. intros t junk Hr (_ & <-%Htime & _)%Himg; [lia | done]. }
  case_bool_decide as Haddr; cbn [negb].
  2: { right. split; [done |]. by intros t junk _ (_ & _ & ? & _)%Himg. }
  destruct (Z.eqb_spec dl (cid_len dcid)) as [-> | Hdl]; cbn [negb].
  2: { right. split; [done |]. by intros t junk _ (_ & _ & _ & ? & _)%Himg. }
  subst ad. destruct (Z.gtb_spec (cid_len dcid) 0) as [Hpos | Hzero].
  - destruct (Z.gtb_spec (38 + cid_len dcid) (38 + zlen rest)) as [Hshort | Hlong].
    { right. split; [done |]. intros t junk _ (_ & _ & _ & _ & ->)%Himg. exfalso.
      pose proof (zlen_nonneg junk). rewrite zlen_app, zlen_ztake in Hshort by lia. lia. }
    rewrite Hmc by lia.
    cbn [obind].
    case_bool_decide as Hcid; cbn [negb].
    + left. split; [done |]. exists (be_val time), (zdrop (cid_len dcid) rest).
      split; [done |]. split; [| lia]. unfold retry_image. rewrite Hbv, <- Hcid, <- !app_assoc.
      by rewrite ztake_zdrop.
    + right. split; [done |]. intros t junk _ (_ & _ & _ & _ & ->)%Himg. exfalso. apply Hcid.
      rewrite <- (zlen_ztake (cid_len dcid) (cid_data dcid)) at 1 by lia. by rewrite ztake_app.
  - left. split; [done |]. exists (be_val time), rest. split; [done |]. split; [| lia].
    unfold retry_image. rewrite Hbv, <- !app_assoc. replace (cid_len dcid) with 0 by lia. done.
Qed.

Section TokenLaws.
Context `{OpenSSLLaws}.

Lemma open_token_total key token cap : NXP_AEAD_IV_LEN <= zlen token <= cap + NXP_AEAD_IV_LEN ->
  open_token key token cap = Err NXP_ERR_TOKEN_INVALID \/
  exists pt, open_token key token cap = Done pt /\ bytes_ok pt /\
    let ct := zdrop NXP_AEAD_IV_LEN token in
    EVP_open EVP_aes_256_gcm key (ztake NXP_AEAD_IV_LEN token) []
      (ztake (zlen ct - NXP_AEAD_TAG_LEN) ct) (zdrop (zlen ct - NXP_AEAD_TAG_LEN) ct) = Some pt.
Proof.
  unfold NXP_AEAD_IV_LEN. intros Hl. unfold open_token, nxp_aead_decrypt, NXP_AEAD_IV_LEN.
  assert (zlen (zdrop 12 token) = zlen token - 12) as Hd by (apply zlen_zdrop; lia). rewrite Hd.
  unfold NXP_AEAD_TAG_LEN. destruct (Z.ltb_spec (zlen token - 12) 16); [by left |]. cbn [get_cipher].
  rewrite !(proj2 (Z.ltb_ge _ _)) by lia. simpl.
  destruct (EVP_open _ _ _ _ _ _) as [pt |] eqn:Ho; [| by left].
  right. exists pt. split; [done |]. split; [apply open_size in Ho; apply Ho | done].
Qed.

(** A token longer than the array: the bytes are written before the tag is
    checked, so anyone can overflow it. *)
Lemma open_token_overflow key token cap : 0 <= cap -> cap + NXP_AEAD_TAG_LEN + NXP_AEAD_IV_LEN < zlen token ->
  open_token key token cap = Ub.
Proof.
  unfold NXP_AEAD_IV_LEN, NXP_AEAD_TAG_LEN. intros Hc Hl. unfold open_token, nxp_aead_decrypt, NXP_AEAD_IV_LEN.
  rewrite zlen_zdrop by lia. unfold NXP_AEAD_TAG_LEN.
  rewrite (proj2 (Z.ltb_ge _ _)) by lia. simpl. by rewrite (proj2 (Z.ltb_lt _ _)) by lia.
Qed.

Lemma open_token_sealed key nonce pt ct cap : zlen nonce = NXP_AEAD_IV_LEN -> zlen pt <= cap ->
  nxp_aead_encrypt NXP_AEAD_AES_256_GCM key nonce [] pt = Some ct ->
  open_token key (nonce ++ ct) cap = Done pt /\ zlen (nonce ++ ct) = NXP_AEAD_IV_LEN + zlen pt + NXP_AEAD_TAG_LEN.
Proof.
  intros Hn Hc He. unfold open_token. rewrite <- Hn, ztake_app, zdrop_app, zlen_app.
  rewrite (aead_decrypt_encrypt _ _ _ _ _ _ _ He Hc). apply aead_encrypt_size in He as [-> _].
  split; [done | lia].
Qed.

Lemma conn_id_image_inj c c' : conn_id_ok c -> conn_id_ok c' -> cid_len c = cid_len c' ->
  ztake (cid_len c) (cid_data c) = ztake (cid_len c) (cid_data c') -> c = c'.
Proof.
  intros (l & -> & _ & _) (l' & -> & _ & _). unfold mk_conn_id. cbn [cid_len cid_data].
  intros Hl. rewrite ztake_app, Hl, ztake_app. by intros ->.
Qed.

Lemma retry_image_bytes t addr dcid : bytes_ok addr -> conn_id_ok dcid -> bytes_ok (retry_image t addr dcid).
Proof.
  intros Ha Hc. destruct (conn_id_sizes dcid Hc) as (? & ? & ?). unfold retry_image.
  rewrite !bytes_ok_app. split_and!; [by repeat constructor | apply be_bytes_ok | done | | by apply bytes_ok_take].
  repeat constructor; lia.
Qed.

End TokenLaws.

(** C37: a retry token proves the client's address.  A token made for an address,
    a connection ID and a time is accepted exactly for that address and that
    connection ID during the following ten seconds, and is otherwise reported as
    invalid. *)
Theorem retry_token_exact `{OpenSSLLaws} key addr dcid time cap nonce token addr' dcid' now :
  nxp_retry_token_create key addr dcid time cap (Done nonce) = Done token ->
  zlen nonce = NXP_AEAD_IV_LEN -> zlen addr = 28 -> zlen addr' = 28 -> bytes_ok addr ->
  conn_id_ok dcid -> conn_id_ok dcid' -> 0 <= time < 2 ^ 63 ->
  nxp_retry_token_validate key addr' dcid' token now =
    if decide (addr' = addr) then
      if decide (dcid' = dcid) then
        if decide (now <= time + NXP_RETRY_TOKEN_MAX_AGE_US) then Done tt else Err NXP_ERR_TOKEN_INVALID
      else Err NXP_ERR_TOKEN_INVALID
    else Err NXP_ERR_TOKEN_INVALID.
Proof.
  intros Hcr Hn Ha Ha' Hab Hc Hc' Ht. unfold nxp_retry_token_create in Hcr.
  destruct (retry_plaintext_spec addr dcid time Ha Hc) as [Hpt Hlen]. rewrite Hpt in Hcr. cbn [obind] in Hcr.
  destruct (cap <? _); [done |].
  destruct (nxp_aead_encrypt _ _ _ _ _) as [ct |] eqn:He; [| done]. injection Hcr as <-.
  destruct (conn_id_sizes dcid Hc) as (Hl & Hdd & _).
  destruct (open_token_sealed key nonce (retry_image time addr dcid) ct 128 Hn ltac:(lia) He) as [Ho Hz].
  unfold nxp_retry_token_validate. rewrite Hz, Hlen. unfold NXP_AEAD_IV_LEN, NXP_AEAD_TAG_LEN.
  rewrite (proj2 (Z.ltb_ge _ _)) by lia. rewrite Ho. cbn [obind].
  pose proof (retry_image_bytes time addr dcid Hab Hc) as Hok.
  assert (u64 (time + NXP_RETRY_TOKEN_MAX_AGE_US) = time + NXP_RETRY_TOKEN_MAX_AGE_US) as Hu
    by (apply u64_small; unfold NXP_RETRY_TOKEN_MAX_AGE_US; lia).
  destruct (retry_check_spec addr' dcid' (retry_image time addr dcid) now Ha' Hc' Hok) as [[-> Hex] | [-> Hno]].
  - destruct Hex as (t & junk & Ht' & Heq & Hnow).
    apply (retry_image_split NXP_RETRY_TOKEN_VERSION (be_bytes 8 time) addr (cid_len dcid)) in Heq as (_ & Htb & <- & Hlen' & Hrest); [| by rewrite zlen_be_bytes | done..].
    assert (t = time) as ->.
    { apply (f_equal be_val) in Htb. rewrite !be_val_be_bytes_small in Htb by (simpl; lia). done. }
    rewrite decide_True by done. rewrite Hu in Hnow.
    assert (dcid' = dcid) as ->; [| by rewrite !decide_True].
    symmetry. apply conn_id_image_inj; [done.. |]. destruct (conn_id_sizes dcid' Hc') as (? & ? & _).
    rewrite <- Hlen' in Hrest. apply (f_equal (ztake (cid_len dcid))) in Hrest.
    rewrite (ztake_all _ (ztake (cid_len dcid) (cid_data dcid))) in Hrest by (rewrite zlen_ztake; lia).
    rewrite Hrest. rewrite <- (zlen_ztake (cid_len dcid) (cid_data dcid')) at 1 by lia. apply ztake_app.
  - repeat case_decide; try done. subst. specialize (Hno time [] ltac:(lia)). rewrite app_nil_r in Hno.
    specialize (Hno eq_refl). lia.
Qed.

(** ** Session tickets round-trip *)

Definition ticket_image (time : Z) (algo : Z) (secret tp : list Z) : list Z :=
  [NXP_TICKET_VERSION] ++ be_bytes 8 time ++ be_bytes 4 NXP_TICKET_DEFAULT_LIFETIME ++ [algo] ++
  secret ++ be_bytes 2 (zlen tp) ++ tp.

Lemma zlen_ticket_image time algo secret tp : zlen secret = 32 ->
  zlen (ticket_image time algo secret tp) = 48 + zlen tp.
Proof. intros. unfold ticket_image. zlen_norm. rewrite !zlen_be_bytes. lia. Qed.

Lemma ticket_plaintext_spec secret algo tp now : zlen secret = 32 -> 0 <= algo < 256 -> zlen tp <= 255 ->
  ticket_plaintext secret algo (Some tp) (zlen tp) now = Done (ticket_image now algo secret tp).
Proof.
  intros Hs Ha Htp. pose proof (zlen_nonneg tp). unfold ticket_plaintext, NXP_HASH_LEN, NXP_TICKET_MAX_PLAINTEXT.
  rewrite !be_field_bytes, (u8_small algo) by done.
  do 4 (rewrite push_ok by (zlen_norm; rewrite ?zlen_be_bytes; lia); cbn [obind]).
  rewrite sub_buf_Done by lia. cbn [obind]. rewrite zdrop_0, ztake_all by lia.
  rewrite push_ok by (zlen_norm; rewrite ?zlen_be_bytes; lia). cbn [obind].
  rewrite Z.gtb_ltb, (proj2 (Z.ltb_ge _ _)) by lia.
  rewrite push_ok by (zlen_norm; rewrite ?zlen_be_bytes; lia). cbn [obind].
  assert ([u8 (zlen tp >>> 8); zlen tp &&& 255] = be_bytes 2 (zlen tp)) as ->.
  { unfold be_bytes. by rewrite land_255, <- (shiftr_byte _ 1), Z.pow_0_r, Z.div_1_r. }
  destruct (Z.gtb_spec (zlen tp) 0).
  - rewrite Z.gtb_ltb, (proj2 (Z.ltb_ge _ _)) by (zlen_norm; rewrite ?zlen_be_bytes; lia).
    rewrite sub_buf_Done by lia. cbn [obind]. rewrite zdrop_0, ztake_all by lia.
    rewrite push_ok by (zlen_norm; rewrite ?zlen_be_bytes; lia). unfold ticket_image. by rewrite <- !app_assoc.
  - destruct tp; [| rewrite zlen_cons in *; pose proof (zlen_nonneg tp); lia].
    unfold ticket_image. by rewrite <- !app_assoc.
Qed.

Lemma ticket_parse_image time algo secret tp now cap :
  0 <= time < 2 ^ 63 -> zlen secret = 32 -> zlen tp <= 255 ->
  ticket_parse (ticket_image time algo secret tp) now cap =
    if now <=? time + NXP_TICKET_DEFAULT_LIFETIME * 1000000 then
      Done (TicketContents secret algo (zlen tp)
        (if (0 <? zlen tp) && (zlen tp <=? cap) then Some tp else None))
    else Err NXP_ERR_TOKEN_INVALID.
Proof.
  intros Ht Hs Htp. pose proof (zlen_nonneg tp). unfold ticket_parse, NXP_HASH_LEN.
  rewrite zlen_ticket_image by done. rewrite (proj2 (Z.ltb_ge _ _)) by lia.
  assert (@rd nxp_error_code (ticket_image time algo secret tp) 0 = Done NXP_TICKET_VERSION) as -> by done.
  assert (@read_be nxp_error_code 8 (ticket_image time algo secret tp) 1 0 = Done time) as ->.
  { unfold ticket_image. rewrite read_be_field; [| done | by rewrite length_be_bytes | apply be_bytes_ok].
    f_equal. apply be_val_be_bytes_small. simpl. lia. }
  assert (@read_be nxp_error_code 4 (ticket_image time algo secret tp) 9 0 = Done NXP_TICKET_DEFAULT_LIFETIME) as ->.
  { unfold ticket_image. rewrite app_assoc.
    rewrite read_be_field; [done | zlen_norm; by rewrite zlen_be_bytes | by rewrite length_be_bytes | apply be_bytes_ok]. }
  assert (@rd nxp_error_code (ticket_image time algo secret tp) 13 = Done algo) as ->.
  { unfold ticket_image. rewrite 2!app_assoc. apply rd_field. zlen_norm. by rewrite !zlen_be_bytes. }
  assert (@sub_buf nxp_error_code (ticket_image time algo secret tp) 14 32 = Done secret) as ->.
  { unfold ticket_image. rewrite 3!app_assoc. apply sub_buf_app; [| lia]. zlen_norm. by rewrite !zlen_be_bytes. }
  assert (@read_be nxp_error_code 2 (ticket_image time algo secret tp) 46 0 = Done (zlen tp)) as ->.
  { unfold ticket_image. rewrite 4!app_assoc.
    rewrite read_be_field; [| zlen_norm; rewrite !zlen_be_bytes; lia | by rewrite length_be_bytes | apply be_bytes_ok].
    f_equal. apply be_val_be_bytes_small. simpl. lia. }
  cbn [obind negb Z.eqb]. unfold NXP_TICKET_DEFAULT_LIFETIME. rewrite u64_small by lia.
  rewrite Z.gtb_ltb. destruct (Z.ltb_spec (time + 3600 * 1000000) now) as [Hl | Hl].
  { by rewrite (proj2 (Z.leb_gt _ _)) by lia. }
  rewrite (proj2 (Z.leb_le now _)) by lia.
  rewrite Z.gtb_ltb. destruct (Z.ltb_spec 0 (zlen tp)); [| done].
  rewrite Z.gtb_ltb, (proj2 (Z.ltb_ge _ _)) by lia. rewrite Z.geb_leb.
  destruct (Z.leb_spec (zlen tp) cap); [| done].
  assert (@sub_buf nxp_error_code (ticket_image time algo secret tp) 48 (zlen tp) = Done tp) as ->; [| done].
  unfold ticket_image. rewrite 5!app_assoc. rewrite <- (app_nil_r tp) at 2.
  apply sub_buf_app; [zlen_norm; rewrite !zlen_be_bytes; lia | done].
Qed.

Lemma read_be_total {E} n : forall buf pos acc, 0 <= pos -> pos + Z.of_nat n <= zlen buf ->
  exists v, @read_be E n buf pos acc = Done v.
Proof.
  induction n as [| n IH]; intros buf pos acc Hp Hl; simpl; [eauto |].
  destruct (rd_Done (E := E) buf pos) as (b & -> & _); [lia |]. cbn [obind]. apply IH; lia.
Qed.

(** Parsing stays inside the plaintext, whatever it holds. *)
Lemma ticket_parse_safe pt now cap : ticket_parse pt now cap <> Ub.
Proof.
  unfold ticket_parse, NXP_HASH_LEN. destruct (Z.ltb_spec (zlen pt) (1 + 8 + 4 + 1 + 32 + 2)); [done |].
  destruct (rd_Done (E := nxp_error_code) pt 0) as (v & -> & _); [lia |]. cbn [obind].
  destruct (negb _); [done |].
  destruct (read_be_total (E := nxp_error_code) 8 pt 1 0) as [t ->]; [lia.. |].
  destruct (read_be_total (E := nxp_error_code) 4 pt 9 0) as [l ->]; [lia.. |]. cbn [obind].
  destruct (_ >? _); [done |].
  destruct (rd_Done (E := nxp_error_code) pt 13) as (a & -> & _); [lia |]. cbn [obind].
  rewrite sub_buf_Done by lia. cbn [obind].
  destruct (read_be_total (E := nxp_error_code) 2 pt 46 0) as [n ->]; [lia.. |]. cbn [obind].
  destruct (Z.gtb_spec n 0); [| done]. destruct (Z.gtb_spec (48 + n) (zlen pt)); [done |].
  destruct (cap >=? n); [| done]. by rewrite sub_buf_Done by lia.
Qed.

Lemma ticket_validate_safe `{OpenSSLLaws} key any now cap :
  zlen any <= NXP_TICKET_MAX_PLAINTEXT + NXP_AEAD_IV_LEN -> nxp_session_ticket_validate key any now cap <> Ub.
Proof.
  intros Hany. unfold nxp_session_ticket_validate. destruct (Z.ltb_spec (zlen any)
    (NXP_AEAD_IV_LEN + 1 + 8 + 4 + 1 + NXP_HASH_LEN + 2 + NXP_AEAD_TAG_LEN)) as [? | Hge]; [done |].
  unfold NXP_HASH_LEN, NXP_AEAD_TAG_LEN in Hge.
  destruct (open_token_total key any NXP_TICKET_MAX_PLAINTEXT) as [-> | (pt & -> & _)];
    [lia | done | apply ticket_parse_safe].
Qed.

(** session tickets.  A ticket created by the server yields, for one hour,
    exactly the secret, algorithm and transport parameters it was created with,
    and is invalid afterwards; validation is memory safe on every ticket of at
    most 524 bytes. *)
Theorem session_ticket_exact `{OpenSSLLaws} key secret algo tp time cap nonce ticket now tp_cap :
  nxp_session_ticket_create key secret algo (Some tp) (zlen tp) time cap (Done nonce) = Done ticket ->
  zlen nonce = NXP_AEAD_IV_LEN -> zlen secret = NXP_HASH_LEN -> 0 <= algo < 256 -> 0 <= time < 2 ^ 63 ->
  nxp_session_ticket_validate key ticket now tp_cap =
    (if now <=? time + NXP_TICKET_DEFAULT_LIFETIME * 1000000 then
      Done (TicketContents secret algo (zlen tp)
        (if (0 <? zlen tp) && (zlen tp <=? tp_cap) then Some tp else None))
    else Err NXP_ERR_TOKEN_INVALID) /\
  (forall key' any now' cap', zlen any <= NXP_TICKET_MAX_PLAINTEXT + NXP_AEAD_IV_LEN ->
    nxp_session_ticket_validate key' any now' cap' <> Ub).
Proof.
  unfold NXP_HASH_LEN. intros Hcr Hn Hs Ha Ht. split.
  - unfold nxp_session_ticket_create in Hcr.
    assert (zlen tp <= 255) as Htp.
    { destruct (Z.le_gt_cases (zlen tp) 255); [done | exfalso].
      revert Hcr. unfold ticket_plaintext, NXP_HASH_LEN, NXP_TICKET_MAX_PLAINTEXT. rewrite !be_field_bytes.
      do 4 (rewrite push_ok by (zlen_norm; rewrite ?zlen_be_bytes; lia); cbn [obind]).
      rewrite sub_buf_Done by lia. cbn [obind]. rewrite zdrop_0, ztake_all by lia.
      rewrite push_ok by (zlen_norm; rewrite ?zlen_be_bytes; lia). cbn [obind].
      by rewrite Z.gtb_ltb, (proj2 (Z.ltb_lt _ _)) by lia. }
    rewrite ticket_plaintext_spec in Hcr by done. cbn [obind] in Hcr. destruct (cap <? _); [done |].
    destruct (nxp_aead_encrypt _ _ _ _ _) as [ct |] eqn:He; [| done]. injection Hcr as <-.
    pose proof (zlen_ticket_image time algo secret tp Hs) as Hlen. pose proof (zlen_nonneg tp).
    destruct (open_token_sealed key nonce (ticket_image time algo secret tp) ct NXP_TICKET_MAX_PLAINTEXT Hn
      ltac:(unfold NXP_TICKET_MAX_PLAINTEXT; lia) He) as [Ho Hz].
    unfold nxp_session_ticket_validate. rewrite Hz, Hlen. unfold NXP_AEAD_IV_LEN, NXP_AEAD_TAG_LEN, NXP_HASH_LEN.
    rewrite (proj2 (Z.ltb_ge _ _)) by lia. rewrite Ho. cbn [obind]. by apply ticket_parse_image.
  - intros. by apply ticket_validate_safe.
Qed.

(** memory safety of retry tokens, and its limit.  Tokens of up to 140 bytes
    are validated within the array of 128 bytes, and an accepted one opens under
    the server's key to this address and connection ID with a recent time; but
    every token longer than 156 bytes overflows the array, before its tag is
    checked. *)
Theorem retry_token_memory `{OpenSSLLaws} key addr dcid token now :
  zlen addr = 28 -> conn_id_ok dcid ->
  (zlen token <= 140 ->
    nxp_retry_token_validate key addr dcid token now = Err NXP_ERR_TOKEN_INVALID \/
    nxp_retry_token_validate key addr dcid token now = Done tt /\
    exists ct tag time junk, zdrop NXP_AEAD_IV_LEN token = ct ++ tag /\
      EVP_open EVP_aes_256_gcm key (ztake NXP_AEAD_IV_LEN token) [] ct tag = Some (retry_image time addr dcid ++ junk) /\
      now <= u64 (time + NXP_RETRY_TOKEN_MAX_AGE_US)) /\
  (156 < zlen token -> nxp_retry_token_validate key addr dcid token now = Ub).
Proof.
  intros Ha Hc. unfold nxp_retry_token_validate. split; intros Hl.
  - destruct (Z.ltb_spec (zlen token) (NXP_AEAD_IV_LEN + 1 + 8 + 28 + 1 + NXP_AEAD_TAG_LEN)) as [| Hge]; [by left |].
    unfold NXP_AEAD_TAG_LEN in Hge.
    destruct (open_token_total key token 128) as [-> | (pt & -> & Hok & Hopen)];
      [unfold NXP_AEAD_IV_LEN in *; lia | by left |]. cbn [obind].
    destruct (retry_check_spec addr dcid pt now Ha Hc Hok) as [[-> (t & junk & _ & -> & Hnow)] | [-> _]]; [| by left].
    right. split; [done |]. eexists _, _, t, junk. split; [| split; [exact Hopen | done]].
    by rewrite ztake_zdrop.
  - rewrite (proj2 (Z.ltb_ge _ _)) by (unfold NXP_AEAD_IV_LEN, NXP_AEAD_TAG_LEN; lia).
    by rewrite open_token_overflow by (unfold NXP_AEAD_IV_LEN, NXP_AEAD_TAG_LEN; lia).
Qed.

Import Crypto.Sample.

Definition sample_addr : list Z := replicate 28 7.
Definition sample_cid : nxp_conn_id := mk_conn_id [1; 2; 3; 4; 5; 6; 7; 8].
Definition sample_token : list Z :=
  match nxp_retry_token_create (zeros 32) sample_addr sample_cid 1000 256 (Done (zeros 12)) with
  | Done t => t
  | _ => []
  end.

Lemma sample_cid_ok : conn_id_ok sample_cid.
Proof. exists [1; 2; 3; 4; 5; 6; 7; 8]. split; [done |]. split; [by_compute |]. repeat constructor; lia. Qed.

Lemma retry_token_exact_witness :
  nxp_retry_token_validate (zeros 32) sample_addr sample_cid sample_token 10001000 = Done tt.
Proof.
  rewrite (retry_token_exact (zeros 32) sample_addr sample_cid 1000 256 (zeros 12) sample_token);
    [by_compute | by_compute | by_compute | by_compute | by_compute | | apply sample_cid_ok | apply sample_cid_ok | lia].
  repeat constructor; lia.
Defined.

Lemma session_ticket_exact_witness :
  let ticket := match nxp_session_ticket_create (zeros 32) (replicate 32 9) 1 (Some [1; 2; 3]) 3 5000 256 (Done (zeros 12)) with
                | Done t => t | _ => [] end in
  nxp_session_ticket_validate (zeros 32) ticket 5001 16 = Done (TicketContents (replicate 32 9) 1 3 (Some [1; 2; 3])).
Proof.
  apply (session_ticket_exact (zeros 32) (replicate 32 9) 1 [1; 2; 3] 5000 256 (zeros 12)); by_compute.
Defined.

Lemma retry_token_memory_witness :
  nxp_retry_token_validate (zeros 32) sample_addr sample_cid (replicate 157 0) 0 = Ub.
Proof. apply (retry_token_memory (zeros 32) sample_addr sample_cid (replicate 157 0) 0); [by_compute | apply sample_cid_ok | by_compute]. Defined.

(** ** Replay protection *)

Fixpoint strike_run (reg : nxp_strike_register) (uses : list (list Z * Z))
  : outcome unit (list bool * nxp_strike_register) :=
  match uses with
  | [] => Done ([], reg)
  | (nonce, now) :: uses =>
      let! (ok, reg) := nxp_strike_register_check_and_add reg nonce now in
      let! (oks, reg) := strike_run reg uses in
      Done (ok :: oks, reg)
  end.

Definition register_ok (reg : nxp_strike_register) : Prop := zlen (strikes reg) = NXP_STRIKE_REGISTER_SIZE.

(** The hash [h] is on record. *)
Definition on_record (reg : nxp_strike_register) (h : Z) : Prop :=
  exists e, zget (strikes reg) (h mod NXP_STRIKE_REGISTER_SIZE) = Some e /\ occupied e = true /\ ticket_hash e = h.

Lemma slot_range h : 0 <= h mod NXP_STRIKE_REGISTER_SIZE < NXP_STRIKE_REGISTER_SIZE.
Proof. apply Z.mod_pos_bound. done. Qed.

Lemma zget_insert_eq {A} (l : list A) i x : 0 <= i < zlen l -> zget (<[Z.to_nat i := x]> l) i = Some x.
Proof. intros. unfold zget. apply list_lookup_insert_eq. unfold zlen in *. lia. Qed.
Lemma zget_insert_ne {A} (l : list A) i j x : 0 <= i -> 0 <= j -> i <> j ->
  zget (<[Z.to_nat i := x]> l) j = zget l j.
Proof. intros. unfold zget. apply list_lookup_insert_ne. lia. Qed.

(** One use: it is accepted unless its hash is on record, it is on record
    afterwards, and a hash of another slot stays on record. *)
Lemma strike_spec reg nonce now : register_ok reg ->
  exists ok reg', nxp_strike_register_check_and_add reg nonce now = Done (ok, reg') /\ register_ok reg' /\
    (ok = false <-> on_record reg (hash_ticket nonce)) /\ on_record reg' (hash_ticket nonce) /\
    (ok = false -> reg' = reg) /\
    (forall h, on_record reg h ->
      h = hash_ticket nonce \/ h mod NXP_STRIKE_REGISTER_SIZE <> hash_ticket nonce mod NXP_STRIKE_REGISTER_SIZE ->
      on_record reg' h).
Proof.
  intros Hok. unfold register_ok, nxp_strike_register_check_and_add in *. set (h := hash_ticket nonce).
  pose proof (slot_range h) as Hi. destruct (zget_Some (strikes reg) (h mod NXP_STRIKE_REGISTER_SIZE)) as [e He]; [lia |].
  rewrite He. destruct (occupied e && (ticket_hash e =? h)) eqn:Hhit.
  - apply andb_true_iff in Hhit as [Hocc Hh%Z.eqb_eq].
    assert (on_record reg h) as Hrec by (exists e; done).
    exists false, reg. by split_and!.
  - assert (~ on_record reg h) as Hno.
    { intros (e' & He' & Ho & Hh). rewrite He in He'. injection He' as <-. rewrite Ho, Hh, Z.eqb_refl in Hhit. done. }
    eexists true, _. split; [done |]. cbn [strikes]. split_and!.
    + unfold zlen in *. by rewrite length_insert.
    + split; [done | by intros].
    + eexists. split; [apply zget_insert_eq; lia | done].
    + done.
    + intros h' Hr [-> | Hne]; [done |]. destruct Hr as (e' & He' & Hr). exists e'. split; [| done].
      cbn [strikes]. rewrite zget_insert_ne; [done | lia | pose proof (slot_range h'); lia | done].
Qed.

(** no replay.  Once a ticket nonce has been used, it is rejected as long as
    no nonce with a different hash has been used that falls into the same slot;
    and a nonce whose hash is not on record is accepted. *)
Theorem strike_register_no_replay reg nonce now mid now' : register_ok reg ->
  Forall (fun '(m, _) => hash_ticket m = hash_ticket nonce \/
    hash_ticket m mod NXP_STRIKE_REGISTER_SIZE <> hash_ticket nonce mod NXP_STRIKE_REGISTER_SIZE) mid ->
  exists ok oks reg1 reg2,
    nxp_strike_register_check_and_add reg nonce now = Done (ok, reg1) /\
    (ok = true <-> ~ on_record reg (hash_ticket nonce)) /\
    strike_run reg1 mid = Done (oks, reg2) /\
    nxp_strike_register_check_and_add reg2 nonce now' = Done (false, reg2).
Proof.
  intros Hok Hmid. destruct (strike_spec reg nonce now Hok) as (ok & reg1 & Hc & Hok1 & Hiff & Hrec & _ & _).
  assert (exists oks reg2, strike_run reg1 mid = Done (oks, reg2) /\ register_ok reg2 /\
    on_record reg2 (hash_ticket nonce)) as (oks & reg2 & Hrun & Hok2 & Hrec2).
  { clear Hc Hiff Hok. revert reg1 Hok1 Hrec. induction Hmid as [| [m t] mid Hm Hmid IH]; intros reg1 Hok1 Hrec.
    { exists [], reg1. done. }
    destruct (strike_spec reg1 m t Hok1) as (b & reg2 & Hs & Hok2 & _ & _ & _ & Hkeep). simpl. rewrite Hs. cbn [obind].
    destruct (IH reg2 Hok2) as (oks & reg3 & -> & ? & ?).
    { apply Hkeep; [done |]. destruct Hm; [by left | by right]. }
    eexists _, reg3. done. }
  exists ok, oks, reg1, reg2. split_and!; [done | | done |].
  - destruct ok; [| split; [done | intros Hn; exfalso; by apply Hn, Hiff]].
    split; [| done]. intros _ Hr. by apply Hiff in Hr.
  - destruct (strike_spec reg2 nonce now' Hok2) as (b & reg3 & -> & _ & Hiff2 & _ & Hsame & _).
    apply Hiff2 in Hrec2 as ->. by rewrite Hsame.
Qed.

Lemma strike_register_no_replay_witness :
  exists ok oks reg1 reg2,
    nxp_strike_register_check_and_add nxp_strike_register_create [1; 2] 5 = Done (ok, reg1) /\
    (ok = true <-> ~ on_record nxp_strike_register_create (hash_ticket [1; 2])) /\
    strike_run reg1 [([3; 4], 6)] = Done (oks, reg2) /\
    nxp_strike_register_check_and_add reg2 [1; 2] 7 = Done (false, reg2).
Proof.
  apply (strike_register_no_replay nxp_strike_register_create [1; 2] 5 [([3; 4], 6)] 7); [by_compute |].
  constructor; [right; vm_compute; discriminate | constructor].
Defined.

(** A nonce of the same slot evicts the record although it has not expired, and
    the first ticket can then be replayed. *)
Example strike_register_evicts :
  match strike_run nxp_strike_register_create [([2; 37], 1); ([2; 37], 2); ([5; 0], 3); ([2; 37], 4)] with
  | Done (oks, _) => oks = [true; false; true; true]
  | _ => False
  end.
Proof. vm_compute. reflexivity. Qed.
