(* ===== verification/Pow.v ===== *)
(** * Proof of work (src/src/crypto/proof_of_work.c)

    The challenge of the server, the search of the client and the check of the
    server, over the SHA-256 of the [OpenSSL] interface. *)

From S2P Require Import Prelude Types Packet Crypto.

Definition NXP_POW_CHALLENGE_LEN : Z := 16.
Definition NXP_POW_NONCE_LEN : Z := 8.
Definition NXP_POW_HASH_LEN : Z := 32.
Definition NXP_POW_MAX_DIFFICULTY : Z := 32.

Record nxp_pow_challenge := PowChallenge {
  pc_challenge : list Z;
  pc_difficulty : Z;
  pc_timestamp_us : Z;
  pc_expiry_us : Z
}.

Record nxp_pow_solution := PowSolution {
  ps_challenge : list Z;
  ps_nonce : list Z
}.

(** The loop over the bytes that must be zero. *)
Fixpoint zero_bytes (n : nat) (hash : list Z) : bool :=
  match n, hash with
  | O, _ => true
  | S n, b :: hash => if negb (b =? 0) then false else zero_bytes n hash
  | S _, [] => false
  end.

Definition nxp_pow_check_hash (hash : list Z) (difficulty : Z) : bool :=
  if difficulty =? 0 then true else
  if difficulty >? NXP_POW_MAX_DIFFICULTY then false else
  let full_bytes := difficulty / 8 in
  let remaining_bits := difficulty mod 8 in
  if negb (zero_bytes (Z.to_nat full_bytes) hash) then false else
  if (remaining_bits >? 0) && (full_bytes <? NXP_POW_HASH_LEN) then
    let mask := u8 (0xFF <<< (8 - remaining_bits)) in
    default 0 (zget hash full_bytes) &&& mask =? 0
  else true.

Definition nxp_pow_generate_challenge (random : nxp_result (list Z)) (difficulty now_us validity_us : Z)
  : nxp_result nxp_pow_challenge :=
  return_if difficulty >? NXP_POW_MAX_DIFFICULTY with NXP_ERR_INVALID_ARGUMENT ;;
  let! challenge := random in
  Done (PowChallenge challenge difficulty now_us (u64 (now_us + validity_us))).

(** The eight bytes of a counter in memory, least significant first. *)
Definition le_nonce (n : Z) : list Z := reverse (be_bytes 8 n).

Section Pow.
Context `{OpenSSL}.

Fixpoint solve_loop (fuel : nat) (challenge : list Z) (difficulty nonce iterations max_iterations : Z)
  : nxp_result (list Z) :=
  match fuel with
  | O => Ub
  | S fuel =>
      match nxp_crypto_hash (challenge ++ le_nonce nonce) with
      | None => Err NXP_ERR_CRYPTO_FAIL
      | Some hash =>
          if nxp_pow_check_hash hash difficulty then Done (le_nonce nonce) else
          let nonce := u64 (nonce + 1) in
          let iterations := u64 (iterations + 1) in
          if (max_iterations >? 0) && (iterations >=? max_iterations)
          then Err NXP_ERR_WOULD_BLOCK
          else solve_loop fuel challenge difficulty nonce iterations max_iterations
      end
  end.

Definition nxp_pow_solve (fuel : nat) (challenge : nxp_pow_challenge) (max_iterations : Z)
  : nxp_result nxp_pow_solution :=
  let! nonce := solve_loop fuel (pc_challenge challenge) (pc_difficulty challenge) 0 0 max_iterations in
  Done (PowSolution (pc_challenge challenge) nonce).

Definition nxp_pow_verify (challenge : nxp_pow_challenge) (solution : nxp_pow_solution) (now_us : Z)
  : nxp_result unit :=
  return_if negb (bool_decide (pc_challenge challenge = ps_challenge solution)) with NXP_ERR_INVALID_ARGUMENT ;;
  return_if now_us >? pc_expiry_us challenge with NXP_ERR_TOKEN_INVALID ;;
  match nxp_crypto_hash (ps_challenge solution ++ ps_nonce solution) with
  | None => Err NXP_ERR_CRYPTO_FAIL
  | Some hash =>
      return_if negb (nxp_pow_check_hash hash (pc_difficulty challenge)) with NXP_ERR_CRYPTO_FAIL ;;
      Done tt
  end.

End Pow.

(** ** The test is on the leading bits *)

Lemma zero_bytes_spec n : forall hash, bytes_ok hash -> (n <= length hash)%nat ->
  if zero_bytes n hash then be_val hash = be_val (drop n hash)
  else 256 ^ (zlen hash - Z.of_nat n) <= be_val hash.
Proof.
  induction n as [| n IH]; intros hash Hok Hn; [done |].
  destruct hash as [| b hash]; simpl in Hn; [lia |]. apply Forall_cons_iff in Hok as [Hb Hok]. simpl.
  pose proof (be_val_range hash Hok). specialize (IH hash Hok ltac:(lia)).
  replace (zlen (b :: hash) - Z.of_nat (S n)) with (zlen hash - Z.of_nat n) by (zlen_norm; lia).
  destruct (Z.eqb_spec b 0) as [-> | Hne]; simpl.
  - destruct (zero_bytes n hash); lia.
  - assert (256 ^ (zlen hash - Z.of_nat n) <= 256 ^ zlen hash) by (apply Z.pow_le_mono_r; lia). nia.
Qed.

(** A masked byte vanishes exactly when its value is below the lowest bit. *)
Lemma masked_byte b r : byte b -> 0 < r < 8 ->
  (b &&& u8 (0xFF <<< (8 - r)) =? 0) = (b <? 2 ^ (8 - r)).
Proof.
  intros Hb Hr.
  assert (forallb (fun r => forallb (fun b =>
    Bool.eqb (Z.of_nat b &&& u8 (0xFF <<< (8 - Z.of_nat r)) =? 0) (Z.of_nat b <? 2 ^ (8 - Z.of_nat r)))
    (List.seq 0 256)) (List.seq 1 7) = true) as Hall by (vm_compute; reflexivity).
  rewrite forallb_forall in Hall. specialize (Hall (Z.to_nat r)).
  rewrite in_seq in Hall. specialize (Hall ltac:(lia)). rewrite forallb_forall in Hall.
  specialize (Hall (Z.to_nat b)). rewrite in_seq in Hall. specialize (Hall ltac:(lia)).
  rewrite !Z2Nat.id in Hall by lia. by apply eqb_prop in Hall.
Qed.

Lemma check_hash_spec hash d : zlen hash = NXP_POW_HASH_LEN -> bytes_ok hash -> 0 <= d <= NXP_POW_MAX_DIFFICULTY ->
  nxp_pow_check_hash hash d = true <-> be_val hash < 2 ^ (256 - d).
Proof.
  unfold NXP_POW_HASH_LEN, NXP_POW_MAX_DIFFICULTY. intros Hl Hok Hd. unfold nxp_pow_check_hash, NXP_POW_MAX_DIFFICULTY.
  pose proof (be_val_range hash Hok) as Hr. rewrite Hl in Hr.
  destruct (Z.eqb_spec d 0) as [-> | Hd0]; [split; [intros _; apply Hr | done] |].
  rewrite Z.gtb_ltb, (proj2 (Z.ltb_ge _ _)) by lia.
  assert (exists q r, d / 8 = q /\ d mod 8 = r /\ d = 8 * q + r /\ 0 <= r < 8 /\ 0 <= q <= 4)
    as (q & r & -> & -> & -> & Hr8 & Hq) by (eexists _, _; repeat split; zlia).
  assert (forall k, 0 <= k -> 256 ^ k = 2 ^ (8 * k)) as Hpow by (intros; by rewrite Z.pow_mul_r by lia).
  pose proof (zero_bytes_spec (Z.to_nat q) hash Hok ltac:(unfold zlen in Hl; lia)) as Hz.
  rewrite Hl, Z2Nat.id, Hpow in Hz by lia.
  destruct (zero_bytes (Z.to_nat q) hash); simpl.
  2: { split; [done |]. intros. exfalso.
       assert (2 ^ (256 - (8 * q + r)) <= 2 ^ (8 * (32 - q))) by (apply Z.pow_le_mono_r; lia). lia. }
  destruct (zget_Some hash q) as [b Hb]; [lia |].
  assert (drop (Z.to_nat q) hash = b :: drop (S (Z.to_nat q)) hash) as Hdrop by (by apply drop_S).
  rewrite Hdrop in Hz. cbn [be_val] in Hz. set (rest := drop (S (Z.to_nat q)) hash) in *.
  assert (zlen rest = 31 - q) as Hrl by (unfold rest, zlen in *; rewrite length_drop; lia).
  assert (bytes_ok rest) as Hrok by (by apply Forall_drop). pose proof (be_val_range rest Hrok) as Hrr.
  rewrite Hrl, Hpow in Hz, Hrr by lia. assert (byte b) as Hbb by (by eapply Forall_lookup_1 in Hok).
  assert (2 ^ (256 - (8 * q + r)) = 2 ^ (8 - r) * 2 ^ (8 * (31 - q))) as ->
    by (rewrite <- Z.pow_add_r by lia; f_equal; lia).
  assert (0 < 2 ^ (8 * (31 - q))) by (apply Z.pow_pos_nonneg; lia).
  destruct (Z.gtb_spec r 0); simpl.
  - rewrite (proj2 (Z.ltb_lt _ _)) by (unfold NXP_POW_HASH_LEN; lia). rewrite Hb. simpl.
    rewrite masked_byte, Z.ltb_lt by lia. nia.
  - replace r with 0 by lia. split; [intros _; change (2 ^ (8 - 0)) with 256; nia | done].
Qed.

Section PowLaws.
Context `{OpenSSLLaws}.

Definition tried (challenge : list Z) (d n : Z) (good : bool) : Prop :=
  exists hash, nxp_crypto_hash (challenge ++ le_nonce n) = Some hash /\ nxp_pow_check_hash hash d = good.

(** The search tries the counters in order: what it returns is the first
    success, and a refusal means that every counter below the limit failed. *)
Lemma solve_loop_spec challenge d max : forall fuel k, 0 <= k -> k + Z.of_nat fuel < 2 ^ 64 -> (max = 0 \/ k < max) ->
  match solve_loop fuel challenge d k k max with
  | Done s => exists n, k <= n < k + Z.of_nat fuel /\ s = le_nonce n /\ tried challenge d n true /\
      forall j, k <= j < n -> tried challenge d j false
  | Err NXP_ERR_WOULD_BLOCK => 0 < max /\ forall j, k <= j < max -> tried challenge d j false
  | Err NXP_ERR_CRYPTO_FAIL => exists n, k <= n < k + Z.of_nat fuel /\
      nxp_crypto_hash (challenge ++ le_nonce n) = None /\ forall j, k <= j < n -> tried challenge d j false
  | Err _ => False
  | Ub => (max = 0 \/ k + Z.of_nat fuel < max \/ fuel = O) /\
      forall j, k <= j < k + Z.of_nat fuel -> tried challenge d j false
  end.
Proof.
  induction fuel as [| fuel IH]; intros k Hk Hlim Hmax; simpl.
  { split; [auto |]. intros. lia. }
  destruct (nxp_crypto_hash (challenge ++ le_nonce k)) as [hash |] eqn:Hh; [| exists k; split_and!; [lia | lia | done | intros; lia]].
  destruct (nxp_pow_check_hash hash d) eqn:Hc.
  { exists k. split_and!; [lia | lia | done | by exists hash | intros; lia]. }
  assert (tried challenge d k false) as Htk by (by exists hash).
  assert (forall n j, (forall j, k + 1 <= j < n -> tried challenge d j false) -> k <= j < n -> tried challenge d j false) as Hext.
  { intros n j Hall Hj. destruct (Z.eq_dec j k) as [-> |]; [done |]. apply Hall. lia. }
  rewrite u64_small by lia. rewrite Z.gtb_ltb, Z.geb_leb.
  destruct ((0 <? max) && (max <=? k + 1)) eqn:Hb.
  - apply andb_true_iff in Hb as [?%Z.ltb_lt ?%Z.leb_le]. split; [done |]. intros j. apply Hext. intros; lia.
  - assert (max = 0 \/ k + 1 < max) as Hmax'.
    { destruct (Z.ltb_spec 0 max); [| lia]. simpl in Hb. apply Z.leb_gt in Hb. lia. }
    specialize (IH (k + 1) ltac:(lia) ltac:(lia) Hmax').
    destruct (solve_loop fuel challenge d (k + 1) (k + 1) max) as [s | e |].
    + destruct IH as (n & Hn & -> & ? & Hall). exists n. split_and!; [lia | lia | done | done |]. intros. by apply (Hext n).
    + destruct e; try done.
      * destruct IH as [? Hall]. split; [done |]. intros. by apply (Hext max).
      * destruct IH as (n & Hn & ? & Hall). exists n. split_and!; [lia | lia | done |]. intros. by apply (Hext n).
    + destruct IH as [Hcase Hall]. split; [destruct Hcase as [| [| ->]]; lia |].
      intros j Hj. apply (Hext (k + Z.of_nat (S fuel))); [| lia]. intros. apply Hall. lia.
Qed.

Lemma verify_tried c n now : now <= pc_expiry_us c -> tried (pc_challenge c) (pc_difficulty c) n true ->
  nxp_pow_verify c (PowSolution (pc_challenge c) (le_nonce n)) now = Done tt.
Proof.
  intros Hnow (hash & Hh & Hc). unfold nxp_pow_verify. cbn [ps_challenge ps_nonce].
  rewrite bool_decide_eq_true_2 by done. rewrite Z.gtb_ltb, (proj2 (Z.ltb_ge _ _)) by lia.
  cbn [negb]. rewrite Hh, Hc. done.
Qed.

Lemma crypto_hash_size m h : nxp_crypto_hash m = Some h -> zlen h = 32 /\ bytes_ok h.
Proof.
  unfold nxp_crypto_hash, checked_hash. destruct (EVP_sha256 m) as [t |] eqn:Ht; [| done].
  destruct (zlen t =? NXP_HASH_LEN); [| done]. intros [= <-]. by apply sha256_size in Ht.
Qed.
End PowLaws.

(** proof of work.  Within a positive limit the search terminates; a solution
    it returns is accepted by the server until the challenge expires; a refusal
    means that no counter below the limit works; without a limit it finds the
    first counter that works; and the server accepts a solution only for its
    challenge, in time, and if the hash is below [2 ^ (256 - difficulty)]. *)
Theorem pow_solve_verify `{OpenSSLLaws} c max fuel now :
  0 <= pc_difficulty c <= NXP_POW_MAX_DIFFICULTY -> 0 <= max -> Z.of_nat fuel < 2 ^ 64 ->
  let good n := tried (pc_challenge c) (pc_difficulty c) n true in
  let bad n := tried (pc_challenge c) (pc_difficulty c) n false in
  (0 < max <= Z.of_nat fuel -> nxp_pow_solve fuel c max <> Ub) /\
  (forall s, nxp_pow_solve fuel c max = Done s -> now <= pc_expiry_us c -> nxp_pow_verify c s now = Done tt) /\
  (nxp_pow_solve fuel c max = Err NXP_ERR_WOULD_BLOCK -> forall n, 0 <= n < max -> bad n) /\
  (forall n, max = 0 -> 0 <= n < Z.of_nat fuel -> good n -> (forall j, 0 <= j < n -> bad j) ->
    nxp_pow_solve fuel c max = Done (PowSolution (pc_challenge c) (le_nonce n))) /\
  (forall s, nxp_pow_verify c s now = Done tt ->
    ps_challenge s = pc_challenge c /\ now <= pc_expiry_us c /\
    exists hash, nxp_crypto_hash (ps_challenge s ++ ps_nonce s) = Some hash /\
      be_val hash < 2 ^ (256 - pc_difficulty c)).
Proof.
  intros Hd Hmax Hfuel good bad.
  pose proof (solve_loop_spec (pc_challenge c) (pc_difficulty c) max fuel 0 ltac:(lia) ltac:(lia) ltac:(lia)) as Hs.
  unfold nxp_pow_solve. split_and!.
  - intros Hf. destruct (solve_loop _ _ _ _ _ _); [done.. |]. destruct Hs as [[| []] _]; lia.
  - intros s Heq Hnow. destruct (solve_loop _ _ _ _ _ _) as [nonce | |]; [| done..]. injection Heq as <-.
    destruct Hs as (n & _ & -> & Hg & _). by apply verify_tried.
  - intros Heq. destruct (solve_loop _ _ _ _ _ _) as [| e |]; [done | | done]. injection Heq as ->. apply Hs.
  - intros n -> Hn (h & Hh & Hg) Hbad. destruct (solve_loop _ _ _ _ _ _) as [nonce | e |].
    + destruct Hs as (m & Hm & -> & (h' & Hh' & Hg') & Hall). cbn [obind]. do 2 f_equal.
      destruct (Z.lt_trichotomy m n) as [Hlt | [-> | Hgt]]; [| done |].
      * destruct (Hbad m ltac:(lia)) as (h2 & Hh2 & ?). congruence.
      * destruct (Hall n ltac:(lia)) as (h2 & Hh2 & ?). congruence.
    + destruct e; try done; [lia |]. destruct Hs as (m & Hm & Hnone & Hall).
      destruct (Z.lt_trichotomy m n) as [Hlt | [-> | Hgt]]; [| congruence |].
      * destruct (Hbad m ltac:(lia)) as (h2 & Hh2 & ?). congruence.
      * destruct (Hall n ltac:(lia)) as (h2 & Hh2 & ?). congruence.
    + destruct Hs as [_ Hall]. destruct (Hall n ltac:(lia)) as (h2 & Hh2 & ?). congruence.
  - intros s. unfold nxp_pow_verify. case_bool_decide as Hch; [| done]. cbn [negb].
    destruct (Z.gtb_spec now (pc_expiry_us c)); [done |].
    destruct (nxp_crypto_hash _) as [hash |] eqn:Hh; [| done].
    destruct (nxp_pow_check_hash hash (pc_difficulty c)) eqn:Hg; [| done]. intros _.
    split; [done |]. split; [lia |]. exists hash. split; [done |].
    apply crypto_hash_size in Hh as [? ?]. by apply check_hash_spec.
Qed.

Import Crypto.Sample.

Definition sample_pow : nxp_pow_challenge := PowChallenge (zeros 16) 1 0 1000.

Lemma pow_solve_verify_witness :
  exists s, nxp_pow_solve 4 sample_pow 0 = Done s /\ nxp_pow_verify sample_pow s 10 = Done tt.
Proof.
  eexists. split; [vm_compute; reflexivity |].
  apply (pow_solve_verify sample_pow 0 4 10); [by_compute | by_compute | by_compute | vm_compute; reflexivity | by_compute].
Defined.
