(* ===== verification/Handshake.v ===== *)
(** * The handshake (src/src/core/handshake.c, handshake_internal.h)

    Transport parameters, hello messages, the key schedule and the state machine.
    Every operation returns the context as it is at the return, also on an error:
    the code leaves it partly updated and the caller may use it again. *)

From stdpp Require Import strings.
From S2P Require Import Prelude CString Types Varint Codec Frame Packet Crypto Tokens.

Definition NXP_HS_CLIENT_HELLO : Z := 1.
Definition NXP_HS_SERVER_HELLO : Z := 2.
Definition NXP_HS_BUF_SIZE : Z := 512.

Definition NXP_TP_INITIAL_MAX_DATA : Z := 0x01.
Definition NXP_TP_INITIAL_MAX_STREAM_DATA : Z := 0x02.
Definition NXP_TP_MAX_STREAMS_BIDI : Z := 0x03.
Definition NXP_TP_MAX_STREAMS_UNI : Z := 0x04.
Definition NXP_TP_IDLE_TIMEOUT : Z := 0x05.
Definition NXP_TP_MAX_EARLY_DATA : Z := 0x06.
Definition NXP_TP_ACTIVE_CID_LIMIT : Z := 0x0A.

Inductive nxp_hs_state : Type :=
| NXP_HS_IDLE
| NXP_HS_WAIT_SERVER_HELLO
| NXP_HS_WAIT_CLIENT_HELLO
| NXP_HS_WAIT_HANDSHAKE_DONE
| NXP_HS_ZERO_RTT_SENT
| NXP_HS_COMPLETE.
#[global] Instance nxp_hs_state_eq_dec : EqDecision nxp_hs_state.
Proof. solve_decision. Defined.

Record nxp_transport_params := TransportParams {
  tp_initial_max_data : Z;
  tp_initial_max_stream_data : Z;
  tp_max_streams_bidi : Z;
  tp_max_streams_uni : Z;
  tp_idle_timeout_us : Z;
  tp_max_early_data : Z;
  tp_active_cid_limit : Z
}.
#[export] Instance eta_transport_params : Eta nxp_transport_params := fun t =>
  TransportParams (tp_initial_max_data t) (tp_initial_max_stream_data t) (tp_max_streams_bidi t)
    (tp_max_streams_uni t) (tp_idle_timeout_us t) (tp_max_early_data t) (tp_active_cid_limit t).
Definition params_zero : nxp_transport_params := TransportParams 0 0 0 0 0 0 0.

Record nxp_handshake := Handshake {
  hs_state : nxp_hs_state;
  hs_is_server : bool;
  local_privkey : list Z;
  local_pubkey : list Z;
  peer_pubkey : list Z;
  has_peer_pubkey : bool;
  shared_secret : list Z;
  selected_algo : Z;
  transcript : list Z;
  transcript_len : Z;
  initial_keys : nxp_crypto_state;
  handshake_keys : nxp_crypto_state;
  app_keys : nxp_crypto_state;
  initial_pn : Z;
  handshake_pn : Z;
  send_buf : list Z;
  send_len : Z;
  send_offset : Z;
  send_level : nxp_crypto_level;
  send_handshake_done : bool;
  peer_params : nxp_transport_params;
  has_peer_params : bool;
  local_params : nxp_transport_params;
  resumption_secret : list Z;
  has_resumption_secret : bool;
  master_secret : list Z;
  has_master_secret : bool;
  zero_rtt_keys : nxp_crypto_state;
  zero_rtt_attempted : bool;
  session_ticket : list Z;
  session_ticket_len : Z;
  has_session_ticket : bool
}.
#[export] Instance eta_handshake : Eta nxp_handshake := fun h =>
  Handshake (hs_state h) (hs_is_server h) (local_privkey h) (local_pubkey h) (peer_pubkey h)
    (has_peer_pubkey h) (shared_secret h) (selected_algo h) (transcript h) (transcript_len h)
    (initial_keys h) (handshake_keys h) (app_keys h) (initial_pn h) (handshake_pn h)
    (send_buf h) (send_len h) (send_offset h) (send_level h) (send_handshake_done h)
    (peer_params h) (has_peer_params h) (local_params h) (resumption_secret h)
    (has_resumption_secret h) (master_secret h) (has_master_secret h) (zero_rtt_keys h)
    (zero_rtt_attempted h) (session_ticket h) (session_ticket_len h) (has_session_ticket h).

(** An operation that fails returns its error code and the context it leaves. *)
Definition hs_result : Type := outcome (nxp_error_code * nxp_handshake) nxp_handshake.

(** ** Transport parameters *)

(** The value goes through a local array of eight bytes. *)
Definition encode_tp_varint (param_id value : Z) : writer := fun buf pos =>
  match nxp_varint_encode value (zeros 8) with
  | Done (val_len, val_buf) =>
      if val_len =? 0 then WZero buf else
      let needed := 1 + 1 + val_len in
      (wcheck (fun pos cap => needed >? cap - pos) ;;
       put_byte param_id ;; put_byte (u8 val_len) ;; put_mem val_buf val_len)%W buf pos
  | _ => WUb
  end.

Definition encode_transport_params (tp : nxp_transport_params) : writer :=
  (encode_tp_varint NXP_TP_INITIAL_MAX_DATA (tp_initial_max_data tp) ;;
   encode_tp_varint NXP_TP_INITIAL_MAX_STREAM_DATA (tp_initial_max_stream_data tp) ;;
   encode_tp_varint NXP_TP_MAX_STREAMS_BIDI (tp_max_streams_bidi tp) ;;
   encode_tp_varint NXP_TP_MAX_STREAMS_UNI (tp_max_streams_uni tp) ;;
   encode_tp_varint NXP_TP_IDLE_TIMEOUT (tp_idle_timeout_us tp / 1000) ;;
   (if tp_max_early_data tp >? 0
    then encode_tp_varint NXP_TP_MAX_EARLY_DATA (tp_max_early_data tp) else wdone) ;;
   (if tp_active_cid_limit tp >? 0
    then encode_tp_varint NXP_TP_ACTIVE_CID_LIMIT (tp_active_cid_limit tp) else wdone))%W.

Definition set_param (tp : nxp_transport_params) (param_id val : Z) : nxp_transport_params :=
  if param_id =? NXP_TP_INITIAL_MAX_DATA then tp <| tp_initial_max_data := val |>
  else if param_id =? NXP_TP_INITIAL_MAX_STREAM_DATA then tp <| tp_initial_max_stream_data := val |>
  else if param_id =? NXP_TP_MAX_STREAMS_BIDI then tp <| tp_max_streams_bidi := u32 val |>
  else if param_id =? NXP_TP_MAX_STREAMS_UNI then tp <| tp_max_streams_uni := u32 val |>
  else if param_id =? NXP_TP_IDLE_TIMEOUT then tp <| tp_idle_timeout_us := u64 (val * 1000) |>
  else if param_id =? NXP_TP_MAX_EARLY_DATA then tp <| tp_max_early_data := val |>
  else if param_id =? NXP_TP_ACTIVE_CID_LIMIT then tp <| tp_active_cid_limit := u32 val |>
  else tp.

(** Each round consumes at least two bytes, so the length is enough fuel; a
    failure returns what has been set so far. *)
Fixpoint params_loop (fuel : nat) (buf : list Z) (pos : Z) (tp : nxp_transport_params)
  : outcome nxp_transport_params nxp_transport_params :=
  if negb (pos <? zlen buf) then Done tp else
  match fuel with
  | O => Ub
  | S fuel =>
      return_if pos + 2 >? zlen buf with tp ;;
      let! param_id := rd buf pos in
      let! param_len := rd buf (pos + 1) in
      let pos := pos + 2 in
      return_if pos + param_len >? zlen buf with tp ;;
      let! value := sub_buf buf pos param_len in
      match nxp_varint_decode value with
      | Done (_, val) => params_loop fuel buf (pos + param_len) (set_param tp param_id val)
      | Err _ => Err tp
      | Ub => Ub
      end
  end.

Definition decode_transport_params (buf : list Z) : outcome nxp_transport_params nxp_transport_params :=
  params_loop (length buf) buf 0 params_zero.

(** ** Hello messages *)

(** [pos += encode_transport_params(...)]: a failure adds nothing. *)
Definition put_params (tp : nxp_transport_params) : writer := fun buf pos =>
  match encode_transport_params tp buf pos with
  | WZero buf => WOk buf pos
  | o => o
  end.

(** The part before the transport parameters. *)
Definition client_hello_fixed (hs : nxp_handshake) : writer :=
  (put_byte NXP_HS_CLIENT_HELLO ;; put_mem (local_pubkey hs) NXP_X25519_KEY_LEN ;;
   put_byte 2 ;; put_byte (u8 NXP_AEAD_AES_256_GCM) ;; put_byte (u8 NXP_AEAD_CHACHA20_POLY1305))%W.

Definition encode_client_hello (hs : nxp_handshake) (buf : list Z) : outcome unit (Z * list Z) :=
  run_writer
    (wcheck (fun _ cap => cap <? 36) ;; client_hello_fixed hs ;; put_params (local_params hs))%W buf.

Definition server_hello_fixed (hs : nxp_handshake) : writer :=
  (put_byte NXP_HS_SERVER_HELLO ;; put_mem (local_pubkey hs) NXP_X25519_KEY_LEN ;;
   put_byte (u8 (selected_algo hs)))%W.

Definition encode_server_hello (hs : nxp_handshake) (buf : list Z) : outcome unit (Z * list Z) :=
  run_writer
    (wcheck (fun _ cap => cap <? 35) ;; server_hello_fixed hs ;; put_params (local_params hs))%W buf.

Section Handshake.
Context `{OpenSSL}.

(** ** Key exchange (src/src/crypto/handshake_crypto.c) *)

(** Key generation from the private key that the library draws. *)
Definition nxp_x25519_keygen (random : option (list Z)) : option (list Z * list Z) :=
  match random with
  | Some private_key => Some (EVP_x25519_public private_key, private_key)
  | None => None
  end.

Definition nxp_x25519_shared_secret (private_key peer_public : list Z) : option (list Z) :=
  match EVP_x25519_derive private_key peer_public with
  | Some s => if zlen s =? NXP_X25519_KEY_LEN then Some s else None
  | None => None
  end.

(** ** Key schedule *)

(** [if (!f(...)) goto fail;] with the context of the moment. *)
Definition or_fail {E E' A} (m : outcome E' A) (e : E) : outcome E A :=
  match m with
  | Done a => Done a
  | Err _ => Err e
  | Ub => Ub
  end.
Definition some_or_fail {E A} (m : option A) (e : E) : outcome E A :=
  match m with
  | Some a => Done a
  | None => Err e
  end.

(** The keys of one level: a server sends with the server's secret. *)
Definition derive_level (is_server : bool) (algo : Z) (client_secret server_secret : list Z)
    (keys : nxp_crypto_state) : nxp_crypto_state * bool :=
  let keys := keys <| cs_algo := algo |> in
  let '(k, ok) := nxp_crypto_derive_traffic_keys
                    (if is_server then server_secret else client_secret) algo (cs_send keys) in
  let keys := keys <| cs_send := k |> in
  if negb ok then (keys, false) else
  let '(k, ok) := nxp_crypto_derive_traffic_keys
                    (if is_server then client_secret else server_secret) algo (cs_recv keys) in
  let keys := keys <| cs_recv := k |> in
  if negb ok then (keys, false) else
  (keys <| cs_available := true |>, true).

Definition derive_handshake_and_app_keys (hs : nxp_handshake) : outcome nxp_handshake nxp_handshake :=
  let! messages := sub_buf (transcript hs) 0 (transcript_len hs) in
  let! transcript_hash := some_or_fail (nxp_crypto_hash messages) hs in
  let! handshake_secret := some_or_fail (nxp_hkdf_extract (Some (zeros NXP_HASH_LEN)) (shared_secret hs)) hs in
  let label l := or_fail (nxp_hkdf_expand_label handshake_secret l (Some transcript_hash) NXP_HASH_LEN NXP_HASH_LEN) hs in
  let! client_hs_secret := label "c hs traffic"%string in
  let! server_hs_secret := label "s hs traffic"%string in
  let '(keys, ok) := derive_level (hs_is_server hs) (selected_algo hs) client_hs_secret server_hs_secret
                       (handshake_keys hs) in
  let hs := hs <| handshake_keys := keys |> in
  return_if negb ok with hs ;;
  let! derived := or_fail (nxp_hkdf_expand_label handshake_secret "derived" None 0 NXP_HASH_LEN) hs in
  let! master := some_or_fail (nxp_hkdf_extract (Some derived) (zeros NXP_HASH_LEN)) hs in
  let label l := or_fail (nxp_hkdf_expand_label master l (Some transcript_hash) NXP_HASH_LEN NXP_HASH_LEN) hs in
  let! client_app_secret := label "c ap traffic"%string in
  let! server_app_secret := label "s ap traffic"%string in
  let '(keys, ok) := derive_level (hs_is_server hs) (selected_algo hs) client_app_secret server_app_secret
                       (app_keys hs) in
  let hs := hs <| app_keys := keys |> in
  return_if negb ok with hs ;;
  let hs := hs <| master_secret := master |> <| has_master_secret := true |> in
  Done (match nxp_crypto_derive_resumption_secret master messages with
        | Some s => hs <| resumption_secret := s |> <| has_resumption_secret := true |>
        | None => hs
        end).

(** ** Creation *)

Definition nxp_handshake_create (is_server : bool) (random : option (list Z)) : option nxp_handshake :=
  match nxp_x25519_keygen random with
  | None => None
  | Some (pub, priv) => Some
      (Handshake NXP_HS_IDLE is_server priv pub (zeros 32) false (zeros 32) NXP_AEAD_AES_256_GCM
         (zeros (NXP_HS_BUF_SIZE * 2)) 0 crypto_zero crypto_zero crypto_zero 0 0
         (zeros NXP_HS_BUF_SIZE) 0 0 NXP_CRYPTO_INITIAL false params_zero false params_zero
         (zeros 32) false (zeros 32) false crypto_zero false (zeros 256) 0 false)
  end.

Definition nxp_handshake_set_local_params (hs : nxp_handshake) (params : nxp_transport_params) : nxp_handshake :=
  hs <| local_params := params |>.

(** ** Starting *)

(** [hs->send_len = encode(...); if (hs->send_len == 0) return INTERNAL;] *)
Definition queue_hello (hs : nxp_handshake) (hello : outcome unit (Z * list Z)) : hs_result :=
  match hello with
  | Done (n, buf) =>
      let hs := hs <| send_buf := buf |> <| send_len := n |> in
      return_if n =? 0 with (NXP_ERR_INTERNAL, hs) ;;
      Done (hs <| send_offset := 0 |> <| send_level := NXP_CRYPTO_INITIAL |>)
  | Err _ => Ub
  | Ub => Ub
  end.

(** A client's ClientHello opens the transcript. *)
Definition send_client_hello (hs : nxp_handshake) (next : nxp_hs_state) : hs_result :=
  let! hs := queue_hello hs (encode_client_hello hs (send_buf hs)) in
  let! buf := memcpy (transcript hs) 0 (send_buf hs) (send_len hs) in
  Done (hs <| transcript := buf |> <| transcript_len := send_len hs |> <| hs_state := next |>).

Definition nxp_handshake_start_client (hs : nxp_handshake) (server_dcid : list Z) : hs_result :=
  return_if negb (bool_decide (hs_state hs = NXP_HS_IDLE)) || hs_is_server hs with (NXP_ERR_INVALID_ARGUMENT, hs) ;;
  let '(keys, ok) := nxp_crypto_derive_initial_keys server_dcid (initial_keys hs) in
  let hs := hs <| initial_keys := keys |> in
  return_if negb ok with (NXP_ERR_CRYPTO_FAIL, hs) ;;
  send_client_hello hs NXP_HS_WAIT_SERVER_HELLO.

Definition nxp_handshake_start_server (hs : nxp_handshake) (local_scid : list Z) : hs_result :=
  return_if negb (bool_decide (hs_state hs = NXP_HS_IDLE)) || negb (hs_is_server hs) with (NXP_ERR_INVALID_ARGUMENT, hs) ;;
  let '(keys, ok) := nxp_crypto_derive_initial_keys local_scid (initial_keys hs) in
  let hs := hs <| initial_keys := keys |> in
  return_if negb ok with (NXP_ERR_CRYPTO_FAIL, hs) ;;
  let keys := initial_keys hs in
  let hs := hs <| initial_keys := keys <| cs_send := cs_recv keys |> <| cs_recv := cs_send keys |> |> in
  Done (hs <| hs_state := NXP_HS_WAIT_CLIENT_HELLO |>).

Definition nxp_handshake_start_client_0rtt (hs : nxp_handshake) (server_dcid ticket server_key : list Z) : hs_result :=
  return_if negb (bool_decide (hs_state hs = NXP_HS_IDLE)) || hs_is_server hs with (NXP_ERR_INVALID_ARGUMENT, hs) ;;
  match nxp_session_ticket_validate server_key ticket 0 256 with
  | Err e => Err (e, hs)
  | Ub => Ub
  | Done contents =>
      let '(keys, ok) := nxp_crypto_derive_initial_keys server_dcid (initial_keys hs) in
      let hs := hs <| initial_keys := keys |> in
      return_if negb ok with (NXP_ERR_CRYPTO_FAIL, hs) ;;
      let '(keys, ok) := nxp_crypto_derive_zero_rtt_keys (tk_secret contents) (tk_algo contents) in
      let hs := hs <| zero_rtt_keys := keys |> in
      return_if negb ok with (NXP_ERR_CRYPTO_FAIL, hs) ;;
      let hs := hs <| selected_algo := tk_algo contents |> <| zero_rtt_attempted := true |> in
      let! hs := if zlen ticket <=? 256 then
                   let! buf := memcpy (session_ticket hs) 0 ticket (zlen ticket) in
                   Done (hs <| session_ticket := buf |> <| session_ticket_len := zlen ticket |>
                            <| has_session_ticket := true |>)
                 else Done hs in
      send_client_hello hs NXP_HS_ZERO_RTT_SENT
  end.

(** ** Incoming CRYPTO data *)

(** The first offered cipher that is supported. *)
Fixpoint select_cipher (n : nat) (data : list Z) (pos : Z) : outcome unit (option Z) :=
  match n with
  | O => Done None
  | S n =>
      let! cipher_id := rd data pos in
      if (cipher_id =? NXP_AEAD_AES_256_GCM) || (cipher_id =? NXP_AEAD_CHACHA20_POLY1305)
      then Done (Some cipher_id)
      else select_cipher n data (pos + 1)
  end.

(** [if (pos < len) { decode the parameters; has_peer_params = true; }] *)
Definition recv_params (hs : nxp_handshake) (data : list Z) (pos : Z) : hs_result :=
  if pos <? zlen data then
    match decode_transport_params (zdrop pos data) with
    | Done tp => Done (hs <| peer_params := tp |> <| has_peer_params := true |>)
    | Err tp => Err (NXP_ERR_HANDSHAKE_FAIL, hs <| peer_params := tp |>)
    | Ub => Ub
    end
  else Done hs.

Definition add_transcript (hs : nxp_handshake) (data : list Z) (len : Z) : hs_result :=
  return_if transcript_len hs + len >? NXP_HS_BUF_SIZE * 2 with (NXP_ERR_INTERNAL, hs) ;;
  let! buf := memcpy (transcript hs) (transcript_len hs) data len in
  Done (hs <| transcript := buf |> <| transcript_len := transcript_len hs + len |>).

Definition recv_pubkey (hs : nxp_handshake) (data : list Z) : hs_result :=
  let! key := sub_buf data 1 NXP_X25519_KEY_LEN in
  Done (hs <| peer_pubkey := key |> <| has_peer_pubkey := true |>).

Definition compute_shared (hs : nxp_handshake) : hs_result :=
  match nxp_x25519_shared_secret (local_privkey hs) (peer_pubkey hs) with
  | Some s => Done (hs <| shared_secret := s |>)
  | None => Err (NXP_ERR_CRYPTO_FAIL, hs)
  end.

Definition derive_or_fail (hs : nxp_handshake) : hs_result :=
  match derive_handshake_and_app_keys hs with
  | Done hs => Done hs
  | Err hs => Err (NXP_ERR_CRYPTO_FAIL, hs)
  | Ub => Ub
  end.

Definition process_client_hello (hs : nxp_handshake) (data : list Z) : hs_result :=
  return_if zlen data <? 36 with (NXP_ERR_HANDSHAKE_FAIL, hs) ;;
  let! msg_type := rd data 0 in
  return_if negb (msg_type =? NXP_HS_CLIENT_HELLO) with (NXP_ERR_HANDSHAKE_FAIL, hs) ;;
  let! hs := recv_pubkey hs data in
  let pos := 1 + NXP_X25519_KEY_LEN in
  let! num_ciphers := rd data pos in
  let pos := pos + 1 in
  return_if pos + num_ciphers >? zlen data with (NXP_ERR_HANDSHAKE_FAIL, hs) ;;
  match select_cipher (Z.to_nat num_ciphers) data pos with
  | Ub => Ub
  | Err _ => Ub
  | Done None => Err (NXP_ERR_HANDSHAKE_FAIL, hs)
  | Done (Some cipher_id) =>
      let hs := hs <| selected_algo := cipher_id |> in
      let! hs := recv_params hs data (pos + num_ciphers) in
      let! hs := add_transcript hs data (zlen data) in
      let! hs := compute_shared hs in
      let! hs := queue_hello hs (encode_server_hello hs (send_buf hs)) in
      let! hs := add_transcript hs (send_buf hs) (send_len hs) in
      let! hs := derive_or_fail hs in
      Done (hs <| send_handshake_done := true |> <| hs_state := NXP_HS_COMPLETE |>)
  end.

Definition process_server_hello (hs : nxp_handshake) (data : list Z) : hs_result :=
  return_if zlen data <? 35 with (NXP_ERR_HANDSHAKE_FAIL, hs) ;;
  let! msg_type := rd data 0 in
  return_if negb (msg_type =? NXP_HS_SERVER_HELLO) with (NXP_ERR_HANDSHAKE_FAIL, hs) ;;
  let! hs := recv_pubkey hs data in
  let pos := 1 + NXP_X25519_KEY_LEN in
  let! algo := rd data pos in
  let pos := pos + 1 in
  let hs := hs <| selected_algo := algo |> in
  let! hs := recv_params hs data pos in
  let! hs := add_transcript hs data (zlen data) in
  let! hs := compute_shared hs in
  let! hs := derive_or_fail hs in
  Done (hs <| hs_state := NXP_HS_WAIT_HANDSHAKE_DONE |>).

Definition nxp_handshake_recv_crypto (hs : nxp_handshake) (level : nxp_crypto_level) (data : list Z) : hs_result :=
  match hs_state hs with
  | NXP_HS_WAIT_CLIENT_HELLO =>
      return_if negb (bool_decide (level = NXP_CRYPTO_INITIAL)) with (NXP_ERR_HANDSHAKE_FAIL, hs) ;;
      process_client_hello hs data
  | NXP_HS_WAIT_SERVER_HELLO
  | NXP_HS_ZERO_RTT_SENT =>
      return_if negb (bool_decide (level = NXP_CRYPTO_INITIAL)) with (NXP_ERR_HANDSHAKE_FAIL, hs) ;;
      process_server_hello hs data
  | _ => Err (NXP_ERR_HANDSHAKE_FAIL, hs)
  end.

Definition nxp_handshake_on_handshake_done (hs : nxp_handshake) : hs_result :=
  return_if negb (bool_decide (hs_state hs = NXP_HS_WAIT_HANDSHAKE_DONE)) with (NXP_ERR_HANDSHAKE_FAIL, hs) ;;
  Done (hs <| hs_state := NXP_HS_COMPLETE |>).

End Handshake.

(** ** Outgoing CRYPTO data and queries *)

Definition nxp_handshake_has_data (hs : nxp_handshake) : bool :=
  (send_offset hs <? send_len hs) || send_handshake_done hs.

Definition nxp_handshake_send_level (hs : nxp_handshake) : nxp_crypto_level :=
  if send_offset hs <? send_len hs then send_level hs else NXP_CRYPTO_APPLICATION.

(** The bytes copied to the caller and their offset in the stream of the level. *)
Definition nxp_handshake_fill_crypto (hs : nxp_handshake) (max_len : Z)
  : outcome unit (list Z * option Z * nxp_handshake) :=
  let remaining := u64 (send_len hs - send_offset hs) in
  if remaining =? 0 then Done ([], None, hs) else
  let to_copy := if remaining >? max_len then max_len else remaining in
  let! data := sub_buf (send_buf hs) (send_offset hs) to_copy in
  Done (data, Some (send_offset hs), hs <| send_offset := send_offset hs + to_copy |>).

Definition nxp_handshake_is_complete (hs : nxp_handshake) : bool :=
  bool_decide (hs_state hs = NXP_HS_COMPLETE).
Definition nxp_handshake_has_zero_rtt (hs : nxp_handshake) : bool := cs_available (zero_rtt_keys hs).
Definition nxp_handshake_get_resumption_secret (hs : nxp_handshake) : option (list Z) :=
  if has_resumption_secret hs then Some (resumption_secret hs) else None.

(** ** Transport parameters on the wire *)

Definition param_bytes (p : Z * Z) : list Z :=
  p.1 :: zlen (varint_bytes p.2) :: varint_bytes p.2.

(** The parameters a sender writes, in order. *)
Definition params_sent (tp : nxp_transport_params) : list (Z * Z) :=
  [ (NXP_TP_INITIAL_MAX_DATA, tp_initial_max_data tp);
    (NXP_TP_INITIAL_MAX_STREAM_DATA, tp_initial_max_stream_data tp);
    (NXP_TP_MAX_STREAMS_BIDI, tp_max_streams_bidi tp);
    (NXP_TP_MAX_STREAMS_UNI, tp_max_streams_uni tp);
    (NXP_TP_IDLE_TIMEOUT, tp_idle_timeout_us tp / 1000) ] ++
  (if tp_max_early_data tp >? 0 then [(NXP_TP_MAX_EARLY_DATA, tp_max_early_data tp)] else []) ++
  (if tp_active_cid_limit tp >? 0 then [(NXP_TP_ACTIVE_CID_LIMIT, tp_active_cid_limit tp)] else []).

(** Values of the fields' types, and those that a varint can carry. *)
Definition params_typed (tp : nxp_transport_params) : Prop :=
  0 <= tp_initial_max_data tp < 2 ^ 64 /\ 0 <= tp_initial_max_stream_data tp < 2 ^ 64 /\
  0 <= tp_max_streams_bidi tp < 2 ^ 32 /\ 0 <= tp_max_streams_uni tp < 2 ^ 32 /\
  0 <= tp_idle_timeout_us tp < 2 ^ 64 /\ 0 <= tp_max_early_data tp < 2 ^ 64 /\
  0 <= tp_active_cid_limit tp < 2 ^ 32.
Definition params_ok (tp : nxp_transport_params) : Prop :=
  params_typed tp /\ tp_initial_max_data tp <= NXP_VARINT_MAX /\
  tp_initial_max_stream_data tp <= NXP_VARINT_MAX /\ tp_max_early_data tp <= NXP_VARINT_MAX.

(** What arrives: the idle timeout travels in milliseconds. *)
Definition params_rounded (tp : nxp_transport_params) : nxp_transport_params :=
  tp <| tp_idle_timeout_us := tp_idle_timeout_us tp / 1000 * 1000 |>.

Lemma params_rounded_ok tp : params_ok tp -> params_ok (params_rounded tp).
Proof.
  unfold params_ok, params_typed, params_rounded. destruct tp. simpl. intros Hok.
  destruct_and? Hok. split_and?; try lia; zlia.
Qed.

Lemma writes_tp id v : varint_ok v -> writes (encode_tp_varint id v) (param_bytes (id, v)).
Proof.
  intros Hv. pose proof (varint_len_cases v Hv) as Hn. pose proof (zlen_varint_bytes v Hv) as Hl.
  assert (forall buf pos, encode_tp_varint id v buf pos =
    (wcheck (fun pos cap => 1 + 1 + nxp_varint_len v >? cap - pos) ;;
     put_byte id ;; put_byte (u8 (nxp_varint_len v)) ;;
     put_mem (splice (zeros 8) 0 (varint_bytes v)) (nxp_varint_len v))%W buf pos) as Heq.
  { intros. unfold encode_tp_varint. rewrite varint_encode_spec, zlen_zeros by (done || lia).
    rewrite (proj2 (Z.ltb_ge _ _)), (proj2 (Z.eqb_neq _ _)) by lia. done. }
  intros buf pos Hb Hp. rewrite Heq. revert buf pos Hb Hp. apply writes_checked.
  - unfold param_bytes. cbn [fst snd]. rewrite u8_small, <- Hl by lia.
    change (id :: ?x :: ?l) with ([id] ++ [x] ++ l).
    repeat apply wfits_seq; [apply wfits_byte.. |].
    rewrite <- (ztake_app (varint_bytes v) (zdrop (zlen (varint_bytes v)) (zeros 8))) at 3.
    rewrite splice_0. apply wfits_mem. rewrite zlen_app. pose proof (zlen_nonneg (zdrop (zlen (varint_bytes v)) (zeros 8))). lia.
  - intros pos len ? ?. unfold param_bytes. cbn [fst snd]. rewrite !zlen_cons, Hl, Z.gtb_ltb.
    zcase; lia.
Qed.

Lemma wsafe_tp id v : 0 <= v -> wsafe (encode_tp_varint id v).
Proof.
  intros. destruct (Z.le_gt_cases v NXP_VARINT_MAX).
  - eapply wsafe_writes, writes_tp. done.
  - intros buf pos ? ?. unfold encode_tp_varint. by rewrite varint_encode_too_large.
Qed.

Lemma writes_params tp : params_ok tp ->
  writes (encode_transport_params tp) (flat_map param_bytes (params_sent tp)).
Proof.
  intros [(?&?&?&?&?&?&?) (?&?&?)]. unfold params_sent. rewrite !flat_map_app.
  cbn [flat_map]. rewrite !app_nil_r, <- !app_assoc. unfold NXP_VARINT_MAX in *.
  repeat apply writes_seq.
  all: lazymatch goal with
       | |- writes (if ?b then _ else _) _ => destruct b; cbn [flat_map]; rewrite ?app_nil_r
       | _ => idtac end.
  all: first [apply writes_done | apply writes_tp; unfold varint_ok, NXP_VARINT_MAX; zlia].
Qed.

Lemma wsafe_params tp : params_typed tp -> wsafe (encode_transport_params tp).
Proof.
  intros (?&?&?&?&?&?&?). unfold encode_transport_params.
  repeat apply wsafe_seq; try (destruct (_ >? 0)).
  all: first [apply wsafe_done | apply wsafe_tp; zlia].
Qed.

Lemma params_loop_image ps : forall fuel pre tp, Forall (fun p => varint_ok p.2) ps ->
  (length ps <= fuel)%nat ->
  params_loop fuel (pre ++ flat_map param_bytes ps) (zlen pre) tp =
    Done (fold_left (fun tp p => set_param tp p.1 p.2) ps tp).
Proof.
  induction ps as [| [id v] ps IH]; intros fuel pre tp Hok Hf.
  - cbn [flat_map]. rewrite app_nil_r. destruct fuel; cbn [params_loop]; by rewrite Z.ltb_irrefl.
  - apply Forall_cons_iff in Hok as [Hv Hok]. cbn [snd] in Hv. destruct fuel as [| fuel]; [simpl in Hf; lia |].
    assert (pre ++ flat_map param_bytes ((id, v) :: ps) =
      (pre ++ [id; zlen (varint_bytes v)]) ++ varint_bytes v ++ flat_map param_bytes ps) as Hbuf
      by (rewrite <- !app_assoc; done).
    cbn [params_loop fold_left fst snd]. pose proof (varint_len_cases v Hv). pose proof (zlen_nonneg (flat_map param_bytes ps)).
    assert (zlen (pre ++ flat_map param_bytes ((id, v) :: ps)) =
      zlen pre + 2 + zlen (varint_bytes v) + zlen (flat_map param_bytes ps)) as Hlen by (rewrite Hbuf; zlen_norm; lia).
    pose proof (zlen_varint_bytes v Hv). rewrite Hlen.
    rewrite (proj2 (Z.ltb_lt _ _)), Z.gtb_ltb, (proj2 (Z.ltb_ge _ (zlen pre + 2))) by lia. cbn [negb].
    rewrite (rd_app_r pre _ 1), <- (Z.add_0_r (zlen pre)), (rd_app_r pre _ 0), Z.add_0_r by lia.
    change (rd (flat_map param_bytes ((id, v) :: ps)) 0) with (@Done nxp_transport_params Z id).
    change (rd (flat_map param_bytes ((id, v) :: ps)) 1) with (@Done nxp_transport_params Z (zlen (varint_bytes v))).
    cbn [obind]. rewrite Z.gtb_ltb, (proj2 (Z.ltb_ge _ _)) by lia.
    rewrite Hbuf, sub_buf_app by (zlen_norm; lia). cbn [obind].
    rewrite <- (app_nil_r (varint_bytes v)) at 1. rewrite varint_decode_bytes by done.
    rewrite <- (IH fuel ((pre ++ [id; zlen (varint_bytes v)]) ++ varint_bytes v) _ Hok) by (simpl in Hf; lia).
    f_equal; [by rewrite <- !app_assoc | zlen_norm; lia].
Qed.

Lemma set_params_sent tp : params_ok tp ->
  fold_left (fun tp p => set_param tp p.1 p.2) (params_sent tp) params_zero = params_rounded tp.
Proof.
  destruct tp as [a b c d e f g]. unfold params_ok, params_typed, params_sent, params_rounded. simpl.
  intros [(?&?&?&?&?&?&?) (?&?&?)].
  destruct (Z.gtb_spec f 0), (Z.gtb_spec g 0); cbn -[u64 u32 Z.div Z.mul]; unwrap.
  all: rewrite u64_small by zlia; unfold assign_with; cbn -[Z.div Z.mul]; f_equal; lia.
Qed.

Lemma params_sent_ok tp : params_ok tp -> Forall (fun p => varint_ok p.2) (params_sent tp).
Proof.
  intros [(?&?&?&?&?&?&?) (?&?&?)]. unfold params_sent, NXP_VARINT_MAX in *.
  rewrite !Forall_app. unfold varint_ok, NXP_VARINT_MAX.
  repeat split; [repeat constructor; cbn [snd]; zlia | |].
  all: destruct (_ >? 0); repeat constructor; cbn [snd]; zlia.
Qed.

Lemma params_image_length ps : (length ps <= length (flat_map param_bytes ps))%nat.
Proof. induction ps as [| p ps IH]; cbn [flat_map length]; [lia |]. rewrite length_app. simpl. lia. Qed.

Lemma decode_params_image tp : params_ok tp ->
  decode_transport_params (flat_map param_bytes (params_sent tp)) = Done (params_rounded tp).
Proof.
  intros Hok. rewrite <- set_params_sent by done. unfold decode_transport_params.
  apply (params_loop_image _ _ [] params_zero); [by apply params_sent_ok | apply params_image_length].
Qed.

Lemma set_param_ok tp id v : params_ok tp -> varint_ok v -> params_ok (set_param tp id v).
Proof.
  intros Hok [Hv Hv']. unfold NXP_VARINT_MAX in *. pose proof (u32_range v). pose proof (u64_range (v * 1000)).
  unfold set_param. repeat case_match; try done;
    unfold params_ok, params_typed, NXP_VARINT_MAX in *; destruct tp; simpl in *; destruct_and? Hok; split_and?; lia.
Qed.

(** On any bytes decoding ends, inside the buffer, with values in range. *)
Lemma params_loop_total buf : bytes_ok buf -> forall fuel pos tp, params_ok tp -> 0 <= pos ->
  zlen buf <= pos + Z.of_nat fuel ->
  match params_loop fuel buf pos tp with
  | Done tp' | Err tp' => params_ok tp'
  | Ub => False
  end.
Proof.
  intros Hok. induction fuel as [| fuel IH]; intros pos tp Htp Hpos Hf; cbn [params_loop].
  - by rewrite (proj2 (Z.ltb_ge _ _)) by lia.
  - destruct (Z.ltb_spec pos (zlen buf)); cbn [negb]; [| done].
    rewrite Z.gtb_ltb. destruct (Z.ltb_spec (zlen buf) (pos + 2)); [done |].
    destruct (@rd_Done nxp_transport_params buf pos ltac:(lia)) as (id & -> & _).
    destruct (@rd_Done nxp_transport_params buf (pos + 1) ltac:(lia)) as (n & Hn & _). rewrite Hn. cbn [obind].
    apply rd_byte in Hn; [| done]. rewrite Z.gtb_ltb. destruct (Z.ltb_spec (zlen buf) (pos + 2 + n)); [done |].
    rewrite sub_buf_Done by lia. cbn [obind].
    destruct (varint_decode_cases (ztake n (zdrop (pos + 2) buf))) as [-> | (k & v & -> & Hv & _)];
      [by apply bytes_ok_take, bytes_ok_drop | done |]. apply IH; [by apply set_param_ok | lia | lia].
Qed.

Lemma params_zero_ok : params_ok params_zero.
Proof. by_compute. Qed.

Lemma decode_params_total buf : bytes_ok buf ->
  match decode_transport_params buf with
  | Done tp | Err tp => params_ok tp
  | Ub => False
  end.
Proof. intros. apply params_loop_total; [done | apply params_zero_ok | done | unfold zlen; lia]. Qed.

(** ** Hello messages on the wire *)

Definition client_hello (key : list Z) (tp : nxp_transport_params) : list Z :=
  NXP_HS_CLIENT_HELLO :: key ++ [2; NXP_AEAD_AES_256_GCM; NXP_AEAD_CHACHA20_POLY1305] ++
  flat_map param_bytes (params_sent tp).
Definition server_hello (key : list Z) (algo : Z) (tp : nxp_transport_params) : list Z :=
  NXP_HS_SERVER_HELLO :: key ++ [u8 algo] ++ flat_map param_bytes (params_sent tp).

Lemma params_image_size tp : params_ok tp -> zlen (flat_map param_bytes (params_sent tp)) <= 70.
Proof.
  intros Hok. assert (forall ps, Forall (fun p => varint_ok p.2) ps ->
    zlen (flat_map param_bytes ps) <= 10 * zlen ps) as Hs.
  { induction 1 as [| p ps Hp _ IH]; [by vm_compute |]. cbn [flat_map]. unfold param_bytes at 1.
    rewrite zlen_app, !zlen_cons, zlen_varint_bytes by done.
    pose proof (varint_len_cases _ Hp). lia. }
  specialize (Hs _ (params_sent_ok tp Hok)). unfold params_sent in *.
  destruct (_ >? 0), (_ >? 0); rewrite !zlen_app, !zlen_cons, zlen_nil in Hs; lia.
Qed.

Lemma wfits_params tp : params_ok tp -> forall buf pos, zlen buf < 2 ^ 63 -> 0 <= pos -> pos + zlen (flat_map param_bytes (params_sent tp)) <= zlen buf ->
  put_params tp buf pos = WOk (splice buf pos (flat_map param_bytes (params_sent tp)))
                            (pos + zlen (flat_map param_bytes (params_sent tp))).
Proof.
  intros Hok buf pos Hb Hp Hle. pose proof (zlen_nonneg (flat_map param_bytes (params_sent tp))).
  pose proof (writes_params tp Hok buf pos Hb ltac:(lia)) as Hw.
  rewrite (proj2 (Z.leb_le _ _)) in Hw by lia. unfold put_params. by rewrite Hw.
Qed.

(** A hello is a fixed part followed by the parameters. *)
Lemma hello_spec bad fixed bs tp buf : wfits fixed bs -> params_ok tp ->
  zlen buf = NXP_HS_BUF_SIZE -> zlen bs <= 100 -> bad 0 NXP_HS_BUF_SIZE = false ->
  run_writer (wcheck bad ;; (fixed ;; put_params tp))%W buf =
    Done (zlen (bs ++ flat_map param_bytes (params_sent tp)),
          splice buf 0 (bs ++ flat_map param_bytes (params_sent tp))).
Proof.
  intros Hf Hok Hb Hbs Hbad. pose proof (params_image_size tp Hok). pose proof (zlen_nonneg bs).
  unfold NXP_HS_BUF_SIZE in *. unfold run_writer, wseq, wcheck. rewrite Hb, Hbad, Hf by lia.
  rewrite wfits_params by (rewrite ?zlen_splice; lia || done).
  rewrite splice_splice by lia. by rewrite zlen_app.
Qed.

(** Whatever the parameters, a hello holds its fixed part and fits the buffer. *)
Lemma hello_safe bad fixed bs tp buf : wfits fixed bs -> params_typed tp ->
  zlen buf = NXP_HS_BUF_SIZE -> 0 < zlen bs <= 100 -> bad 0 NXP_HS_BUF_SIZE = false ->
  exists n buf', run_writer (wcheck bad ;; (fixed ;; put_params tp))%W buf = Done (n, buf') /\
    0 < n <= NXP_HS_BUF_SIZE /\ zlen buf' = NXP_HS_BUF_SIZE.
Proof.
  intros Hf Hok Hb Hbs Hbad. unfold NXP_HS_BUF_SIZE in *.
  unfold run_writer, wseq, wcheck. rewrite Hb, Hbad, Hf by lia.
  pose proof (wsafe_params tp Hok (splice buf 0 bs) (0 + zlen bs)) as Hs.
  rewrite zlen_splice in Hs by lia. specialize (Hs ltac:(lia) ltac:(lia)). unfold put_params.
  destruct (encode_transport_params tp (splice buf 0 bs) (0 + zlen bs)) as [b p | b |]; [| | done].
  - eexists _, _. split; [done | lia].
  - eexists _, _. split; [done | lia].
Qed.

Lemma client_fixed_fits hs : zlen (local_pubkey hs) = 32 ->
  wfits (client_hello_fixed hs) (NXP_HS_CLIENT_HELLO :: local_pubkey hs ++ [2; 0; 1]).
Proof.
  intros Hk. apply (wfits_seq _ _ [_] (_ ++ [2; 0; 1]) (wfits_byte _)). apply wfits_seq.
  - rewrite <- (ztake_all 32 (local_pubkey hs)) at 2 by lia. apply wfits_mem. unfold NXP_X25519_KEY_LEN. lia.
  - repeat apply (wfits_seq _ _ [_] _ (wfits_byte _)). apply wfits_byte.
Qed.

Lemma server_fixed_fits hs : zlen (local_pubkey hs) = 32 ->
  wfits (server_hello_fixed hs) (NXP_HS_SERVER_HELLO :: local_pubkey hs ++ [u8 (selected_algo hs)]).
Proof.
  intros Hk. apply (wfits_seq _ _ [_] (_ ++ [_]) (wfits_byte _)). apply wfits_seq; [| apply wfits_byte].
  rewrite <- (ztake_all 32 (local_pubkey hs)) at 2 by lia. apply wfits_mem. unfold NXP_X25519_KEY_LEN. lia.
Qed.

Section HelloSpec.
Context (hs : nxp_handshake) (Hk : zlen (local_pubkey hs) = 32).
Context (buf : list Z) (Hb : zlen buf = NXP_HS_BUF_SIZE).

Lemma client_hello_spec : params_ok (local_params hs) ->
  let hello := client_hello (local_pubkey hs) (local_params hs) in
  encode_client_hello hs buf = Done (zlen hello, splice buf 0 hello).
Proof.
  intros. unfold encode_client_hello. erewrite hello_spec by ((by apply client_fixed_fits) || done || lenlia).
  unfold client_hello. by rewrite <- app_comm_cons, <- app_assoc.
Qed.

Lemma server_hello_spec : params_ok (local_params hs) ->
  let hello := server_hello (local_pubkey hs) (selected_algo hs) (local_params hs) in
  encode_server_hello hs buf = Done (zlen hello, splice buf 0 hello).
Proof.
  intros. unfold encode_server_hello. erewrite hello_spec by ((by apply server_fixed_fits) || done || lenlia).
  unfold server_hello. by rewrite <- app_comm_cons, <- app_assoc.
Qed.

Lemma client_hello_safe : params_typed (local_params hs) ->
  exists n buf', encode_client_hello hs buf = Done (n, buf') /\ 0 < n <= NXP_HS_BUF_SIZE /\
    zlen buf' = NXP_HS_BUF_SIZE.
Proof. intros. eapply hello_safe; [by apply client_fixed_fits | done | done | lenlia | done]. Qed.

Lemma server_hello_safe : params_typed (local_params hs) ->
  exists n buf', encode_server_hello hs buf = Done (n, buf') /\ 0 < n <= NXP_HS_BUF_SIZE /\
    zlen buf' = NXP_HS_BUF_SIZE.
Proof. intros. eapply hello_safe; [by apply server_fixed_fits | done | done | lenlia | done]. Qed.

End HelloSpec.

(** ** The invariant of a handshake context *)

Record hs_ok (hs : nxp_handshake) : Prop := HsOk {
  hs_pubkey_size : zlen (local_pubkey hs) = NXP_X25519_KEY_LEN;
  hs_transcript_size : zlen (transcript hs) = NXP_HS_BUF_SIZE * 2;
  hs_transcript_len : 0 <= transcript_len hs <= NXP_HS_BUF_SIZE * 2;
  hs_send_buf_size : zlen (send_buf hs) = NXP_HS_BUF_SIZE;
  hs_send_len : 0 <= send_offset hs <= send_len hs /\ send_len hs <= NXP_HS_BUF_SIZE;
  hs_local_params : params_typed (local_params hs);
  hs_peer_params : params_ok (peer_params hs);
  hs_ticket_size : zlen (session_ticket hs) = 256;
  hs_pkt_nums : 0 <= initial_pn hs /\ 0 <= handshake_pn hs
}.

(** The other end of a level's keys. *)
Definition crossed (k : nxp_crypto_state) : nxp_crypto_state :=
  CryptoState (cs_recv k) (cs_send k) (cs_algo k) (cs_available k).

(** [hs'] is [hs] but for the keys of the two levels and the secrets. *)
Definition rekeyed (hs hs' : nxp_handshake) : Prop :=
  hs' = hs <| handshake_keys := handshake_keys hs' |> <| app_keys := app_keys hs' |>
           <| master_secret := master_secret hs' |> <| has_master_secret := has_master_secret hs' |>
           <| resumption_secret := resumption_secret hs' |>
           <| has_resumption_secret := has_resumption_secret hs' |>.

(** The keys that processing a hello leaves alone. *)
Definition base_keys (hs : nxp_handshake) := (initial_keys hs, zero_rtt_keys hs).

(** [r] is an operation's result from [hs]: no memory error, the invariant and
    the state kept, [Q] on success. *)
Definition keeps (hs : nxp_handshake) (Q : nxp_handshake -> Prop) (r : hs_result) : Prop :=
  match r with
  | Done hs' => hs_ok hs' /\ hs_state hs' = hs_state hs /\ hs_is_server hs' = hs_is_server hs /\
      base_keys hs' = base_keys hs /\ Q hs'
  | Err (_, hs') => hs_ok hs' /\ hs_state hs' = hs_state hs /\ hs_is_server hs' = hs_is_server hs /\
      base_keys hs' = base_keys hs
  | Ub => False
  end.

Lemma keeps_bind hs Q R r (k : nxp_handshake -> hs_result) :
  keeps hs Q r -> (forall hs', hs_ok hs' -> Q hs' -> keeps hs' R (k hs')) ->
  keeps hs R (let! hs' := r in k hs').
Proof.
  destruct r as [hs' | [e hs'] |]; simpl; [| done..].
  intros (Hok & Hs & Hr & Hi & HQ) Hk. specialize (Hk hs' Hok HQ).
  destruct (k hs') as [hs2 | [e hs2] |]; simpl in *; [| | done].
  - destruct Hk as (? & -> & -> & -> & ?). done.
  - destruct Hk as (? & -> & -> & ->). done.
Qed.

Lemma keeps_err hs Q e : hs_ok hs -> keeps hs Q (Err (e, hs)).
Proof. by simpl. Qed.

Ltac hs_ok_same := destruct 1; split; simpl; assumption.

Section HandshakeSafety.
Context `{OpenSSLLaws}.

Lemma hash_size d h : nxp_crypto_hash d = Some h -> zlen h = NXP_HASH_LEN.
Proof.
  unfold nxp_crypto_hash, checked_hash. destruct (EVP_sha256 d) as [t |] eqn:Ht; [| done].
  destruct (Z.eqb_spec (zlen t) NXP_HASH_LEN); [by intros [= <-] | done].
Qed.

Lemma derive_level_available srv algo a b k k' :
  derive_level srv algo a b k = (k', true) -> cs_available k' = true.
Proof.
  unfold derive_level. destruct (nxp_crypto_derive_traffic_keys _ _ _) as [k1 [|]]; simpl; [| done].
  destruct (nxp_crypto_derive_traffic_keys _ _ _) as [k2 [|]]; simpl; [| done].
  by intros [= <-].
Qed.

(** Key derivation touches keys and secrets only. *)
Definition derived (hs : nxp_handshake) (r : outcome nxp_handshake nxp_handshake) : Prop :=
  match r with
  | Done hs' => rekeyed hs hs' /\ cs_available (handshake_keys hs') = true /\ cs_available (app_keys hs') = true
  | Err hs' => rekeyed hs hs'
  | Ub => False
  end.

Lemma derived_label {A} hs hs1 (m : outcome unit A) k : m <> Ub -> rekeyed hs hs1 ->
  (forall a, m = Done a -> derived hs (k a)) -> derived hs (obind (or_fail m hs1) k).
Proof. destruct m; simpl; auto. Qed.

Lemma derived_some {A} hs hs1 (m : option A) k : rekeyed hs hs1 ->
  (forall a, m = Some a -> derived hs (k a)) -> derived hs (obind (some_or_fail m hs1) k).
Proof. destruct m; simpl; auto. Qed.

Ltac rekey hs := destruct hs; reflexivity.

Lemma label_total secret label (h : option (list Z)) n : zlen (ascii label) <= 240 ->
  zlen (default [] h) = n -> n <= NXP_HASH_LEN ->
  nxp_hkdf_expand_label secret label h n NXP_HASH_LEN <> Ub.
Proof.
  intros Hl Hh Hn. rewrite expand_label_spec; [| done | done | unfold NXP_HASH_LEN in *; lia | by_compute].
  destruct (expand_total secret (hkdf_label (ascii label) (default [] h) NXP_HASH_LEN) NXP_HASH_LEN)
    as [-> | (s & -> & _)]; [by_compute | done..].
Qed.

Lemma derive_spec hs : hs_ok hs -> derived hs (derive_handshake_and_app_keys hs).
Proof.
  intros Hok. unfold derive_handshake_and_app_keys.
  rewrite sub_buf_Done by (destruct Hok; lia). cbn [obind]. set (msgs := ztake _ _). clearbody msgs.
  assert (rekeyed hs hs) as Hr0 by rekey hs.
  apply derived_some; [done |]. intros h Hh. apply hash_size in Hh.
  apply derived_some; [done |]. intros sec _.
  apply derived_label; [by apply label_total | done |]. intros c1 _.
  apply derived_label; [by apply label_total | done |]. intros s1 _.
  destruct (derive_level _ _ c1 s1 _) as [hk ok] eqn:Ehk.
  assert (rekeyed hs (hs <| handshake_keys := hk |>)) as Hr1 by rekey hs.
  destruct ok; cbn [negb]; [| done]. apply derive_level_available in Ehk.
  apply derived_label; [by apply label_total | done |]. intros d _.
  apply derived_some; [done |]. intros m _.
  apply derived_label; [by apply label_total | done |]. intros c2 _.
  apply derived_label; [by apply label_total | done |]. intros s2 _.
  destruct (derive_level _ _ c2 s2 _) as [ak ok] eqn:Eak.
  destruct ok; cbn [negb]; [| rekey hs]. apply derive_level_available in Eak.
  destruct (nxp_crypto_derive_resumption_secret m msgs); (split; [rekey hs | done]).
Qed.

Lemma derive_keeps hs : hs_ok hs ->
  keeps hs (fun hs' => cs_available (handshake_keys hs') = true /\ cs_available (app_keys hs') = true)
    (derive_or_fail hs).
Proof.
  intros Hok. unfold derive_or_fail. pose proof (derive_spec hs Hok) as Hd.
  destruct (derive_handshake_and_app_keys hs) as [hs' | hs' |]; cbn [derived keeps] in *; [| | done].
  - destruct Hd as [-> Hav]. destruct Hok. done.
  - rewrite Hd. destruct Hok. done.
Qed.

Lemma recv_params_keeps hs data pos : hs_ok hs -> bytes_ok data ->
  keeps hs (fun _ => True) (recv_params hs data pos).
Proof.
  intros Hok Hd. unfold recv_params. destruct (pos <? zlen data); [| by simpl].
  pose proof (decode_params_total (zdrop pos data) (bytes_ok_drop _ _ Hd)) as Ht.
  destruct (decode_transport_params _); [| | done]; destruct Hok; split_and!; try done; by split.
Qed.

Lemma add_transcript_spec hs data len : hs_ok hs -> 0 <= len <= zlen data ->
  add_transcript hs data len =
    if transcript_len hs + len <=? NXP_HS_BUF_SIZE * 2
    then Done (hs <| transcript := splice (transcript hs) (transcript_len hs) (ztake len data) |>
                  <| transcript_len := transcript_len hs + len |>)
    else Err (NXP_ERR_INTERNAL, hs).
Proof.
  intros Hok Hl. unfold add_transcript. rewrite Z.gtb_ltb.
  destruct (Z.ltb_spec (NXP_HS_BUF_SIZE * 2) (transcript_len hs + len)) as [Hgt | Hle].
  - by rewrite (proj2 (Z.leb_gt _ _)) by lia.
  - rewrite (proj2 (Z.leb_le _ _)), memcpy_splice by (destruct Hok; lia). done.
Qed.

Lemma add_transcript_keeps hs data len : hs_ok hs -> 0 <= len <= zlen data ->
  keeps hs (fun _ => True) (add_transcript hs data len).
Proof.
  intros Hok Hl. rewrite add_transcript_spec by done.
  destruct (Z.leb_spec (transcript_len hs + len) (NXP_HS_BUF_SIZE * 2)); [| by apply keeps_err].
  destruct Hok. split; [| done]. split; simpl; try done; [| lia].
  rewrite zlen_splice by (rewrite ?zlen_ztake; lia). done.
Qed.

Lemma queue_hello_keeps hs : hs_ok hs ->
  keeps hs (fun hs' => send_offset hs' = 0 /\ 0 < send_len hs' /\ send_level hs' = NXP_CRYPTO_INITIAL)
    (queue_hello hs (encode_server_hello hs (send_buf hs))) /\
  keeps hs (fun hs' => send_offset hs' = 0 /\ 0 < send_len hs' /\ send_level hs' = NXP_CRYPTO_INITIAL)
    (queue_hello hs (encode_client_hello hs (send_buf hs))).
Proof.
  intros Hok. split.
  - destruct (server_hello_safe hs (hs_pubkey_size hs Hok) (send_buf hs) (hs_send_buf_size hs Hok)
      (hs_local_params hs Hok)) as (n & buf & -> & Hn & Hb). cbn [queue_hello].
    rewrite (proj2 (Z.eqb_neq n 0)) by lia. destruct Hok. split; [split; simpl; first [done | lia] | repeat split; simpl; lia].
  - destruct (client_hello_safe hs (hs_pubkey_size hs Hok) (send_buf hs) (hs_send_buf_size hs Hok)
      (hs_local_params hs Hok)) as (n & buf & -> & Hn & Hb). cbn [queue_hello].
    rewrite (proj2 (Z.eqb_neq n 0)) by lia. destruct Hok. split; [split; simpl; first [done | lia] | repeat split; simpl; lia].
Qed.

Lemma select_cipher_total n : forall data pos, 0 <= pos -> pos + Z.of_nat n <= zlen data ->
  select_cipher n data pos = Done None \/
  exists c, select_cipher n data pos = Done (Some c) /\
    (c = NXP_AEAD_AES_256_GCM \/ c = NXP_AEAD_CHACHA20_POLY1305).
Proof.
  induction n as [| n IH]; intros data pos Hp Hl; cbn [select_cipher]; [by left |].
  destruct (@rd_Done unit data pos ltac:(lia)) as (c & -> & _). cbn [obind].
  destruct (Z.eqb_spec c NXP_AEAD_AES_256_GCM); [right; eauto |].
  destruct (Z.eqb_spec c NXP_AEAD_CHACHA20_POLY1305); [right; eauto |].
  apply IH; lia.
Qed.

Lemma compute_shared_keeps hs : hs_ok hs -> keeps hs (fun _ => True) (compute_shared hs).
Proof.
  intros Hok. unfold compute_shared.
  destruct (nxp_x25519_shared_secret _ _); [| by apply keeps_err]. destruct Hok. done.
Qed.

Lemma recv_pubkey_keeps hs data : hs_ok hs -> 33 <= zlen data -> keeps hs (fun _ => True) (recv_pubkey hs data).
Proof.
  intros Hok Hl. unfold recv_pubkey, NXP_X25519_KEY_LEN. rewrite sub_buf_Done by lia. cbn [obind].
  destruct Hok. done.
Qed.

(** Arrival at a new state closes a computation that kept the old one. *)
Definition arrives (hs : nxp_handshake) (st : nxp_hs_state) (r : hs_result) : Prop :=
  match r with
  | Done hs' => hs_ok hs' /\ hs_state hs' = st /\ hs_is_server hs' = hs_is_server hs /\
      base_keys hs' = base_keys hs /\
      cs_available (handshake_keys hs') = true /\ cs_available (app_keys hs') = true
  | Err (_, hs') => hs_ok hs' /\ hs_state hs' = hs_state hs /\ hs_is_server hs' = hs_is_server hs /\
      base_keys hs' = base_keys hs
  | Ub => False
  end.

Lemma arrives_bind hs st Q r (k : nxp_handshake -> hs_result) :
  keeps hs Q r -> (forall hs', hs_ok hs' -> Q hs' -> arrives hs' st (k hs')) ->
  arrives hs st (let! hs' := r in k hs').
Proof.
  destruct r as [hs' | [e hs'] |]; simpl; [| done..].
  intros (Hok & Hs & Hr & Hi & HQ) Hk. specialize (Hk hs' Hok HQ).
  destruct (k hs') as [hs2 | [e hs2] |]; simpl in *; [| | done].
  - destruct Hk as (? & ? & -> & -> & ?). done.
  - destruct Hk as (? & -> & -> & ->). done.
Qed.

Lemma arrives_err hs st e : hs_ok hs -> arrives hs st (Err (e, hs)).
Proof. by simpl. Qed.

Lemma process_server_hello_safe hs data : hs_ok hs -> bytes_ok data ->
  arrives hs NXP_HS_WAIT_HANDSHAKE_DONE (process_server_hello hs data).
Proof.
  intros Hok Hd. unfold process_server_hello.
  destruct (Z.ltb_spec (zlen data) 35); [by apply arrives_err |].
  destruct (@rd_Done (nxp_error_code * nxp_handshake) data 0 ltac:(lia)) as (t & -> & _). cbn [obind].
  destruct (t =? NXP_HS_SERVER_HELLO); cbn [negb]; [| by apply arrives_err].
  eapply arrives_bind; [apply recv_pubkey_keeps; [done | lia] |]. intros hs1 Hok1 _.
  destruct (@rd_Done (nxp_error_code * nxp_handshake) data (1 + NXP_X25519_KEY_LEN)
    ltac:(unfold NXP_X25519_KEY_LEN; lia)) as (a & -> & _). cbn [obind].
  assert (hs_ok (hs1 <| selected_algo := a |>)) as Hok2 by (destruct Hok1; done).
  assert (forall r, arrives (hs1 <| selected_algo := a |>) NXP_HS_WAIT_HANDSHAKE_DONE r ->
    arrives hs1 NXP_HS_WAIT_HANDSHAKE_DONE r) as Hweak by done. apply Hweak.
  eapply arrives_bind; [by apply recv_params_keeps |]. intros hs3 Hok3 _.
  eapply arrives_bind; [apply add_transcript_keeps; [done | pose proof (zlen_nonneg data); lia] |]. intros hs4 Hok4 _.
  eapply arrives_bind; [by apply compute_shared_keeps |]. intros hs5 Hok5 _.
  eapply arrives_bind; [by apply derive_keeps |]. intros hs6 Hok6 [Hh Ha].
  destruct Hok6. done.
Qed.

Lemma process_client_hello_safe hs data : hs_ok hs -> bytes_ok data ->
  arrives hs NXP_HS_COMPLETE (process_client_hello hs data).
Proof.
  intros Hok Hd. unfold process_client_hello.
  destruct (Z.ltb_spec (zlen data) 36); [by apply arrives_err |].
  destruct (@rd_Done (nxp_error_code * nxp_handshake) data 0 ltac:(lia)) as (t & -> & _). cbn [obind].
  destruct (t =? NXP_HS_CLIENT_HELLO); cbn [negb]; [| by apply arrives_err].
  eapply arrives_bind; [apply recv_pubkey_keeps; [done | lia] |]. intros hs1 Hok1 _.
  unfold NXP_X25519_KEY_LEN.
  destruct (@rd_Done (nxp_error_code * nxp_handshake) data (1 + 32) ltac:(lia)) as (n & Hn & _).
  rewrite Hn. cbn [obind]. apply rd_byte in Hn; [| done].
  rewrite Z.gtb_ltb. destruct (Z.ltb_spec (zlen data) (1 + 32 + 1 + n)); [by apply arrives_err |].
  destruct (select_cipher_total (Z.to_nat n) data (1 + 32 + 1)) as [-> | (c & -> & _)];
    [lia | lia | by apply arrives_err |].
  assert (hs_ok (hs1 <| selected_algo := c |>)) as Hok2 by (destruct Hok1; done).
  assert (forall r, arrives (hs1 <| selected_algo := c |>) NXP_HS_COMPLETE r ->
    arrives hs1 NXP_HS_COMPLETE r) as Hweak by done. apply Hweak.
  eapply arrives_bind; [by apply recv_params_keeps |]. intros hs3 Hok3 _.
  eapply arrives_bind; [apply add_transcript_keeps; [done | lia] |]. intros hs4 Hok4 _.
  eapply arrives_bind; [by apply compute_shared_keeps |]. intros hs5 Hok5 _.
  eapply arrives_bind; [by apply queue_hello_keeps |]. intros hs6 Hok6 _.
  eapply arrives_bind; [apply add_transcript_keeps; [done | destruct Hok6; lia] |]. intros hs7 Hok7 _.
  eapply arrives_bind; [by apply derive_keeps |]. intros hs8 Hok8 [Hh Ha].
  destruct Hok8. done.
Qed.

(** ** Every history of a handshake context *)

Inductive hs_event : Type :=
| EvSetParams (params : nxp_transport_params)
| EvStartClient (server_dcid : list Z)
| EvStartClient0rtt (server_dcid ticket server_key : list Z)
| EvStartServer (local_scid : list Z)
| EvCrypto (level : nxp_crypto_level) (data : list Z)
| EvHandshakeDone
| EvFill (max_len : Z).

Definition hs_run (hs : nxp_handshake) (ev : hs_event) : hs_result :=
  match ev with
  | EvSetParams params => Done (nxp_handshake_set_local_params hs params)
  | EvStartClient dcid => nxp_handshake_start_client hs dcid
  | EvStartClient0rtt dcid ticket key => nxp_handshake_start_client_0rtt hs dcid ticket key
  | EvStartServer scid => nxp_handshake_start_server hs scid
  | EvCrypto level data => nxp_handshake_recv_crypto hs level data
  | EvHandshakeDone => nxp_handshake_on_handshake_done hs
  | EvFill max_len =>
      match nxp_handshake_fill_crypto hs max_len with
      | Done (_, _, hs) => Done hs
      | Err _ => Ub
      | Ub => Ub
      end
  end.

(** Arguments of their C types; a ticket that fits the array it is opened in. *)
Definition hs_event_ok (ev : hs_event) : Prop :=
  match ev with
  | EvSetParams params => params_typed params
  | EvStartClient0rtt _ ticket _ => zlen ticket <= NXP_TICKET_MAX_PLAINTEXT + NXP_AEAD_IV_LEN
  | EvCrypto _ data => bytes_ok data
  | EvFill max_len => 0 <= max_len
  | _ => True
  end.

(** A context goes on to exist after an error. *)
Definition hs_after (r : hs_result) : option nxp_handshake :=
  match r with
  | Done hs => Some hs
  | Err (_, hs) => Some hs
  | Ub => None
  end.

Inductive hs_reachable : nxp_handshake -> Prop :=
| hs_created is_server random hs :
    nxp_handshake_create is_server random = Some hs -> hs_reachable hs
| hs_stepped hs ev hs' :
    hs_reachable hs -> hs_event_ok ev -> hs_after (hs_run hs ev) = Some hs' -> hs_reachable hs'.

(** The states of each role. *)
Definition role_state (is_server : bool) (st : nxp_hs_state) : Prop :=
  match st with
  | NXP_HS_IDLE | NXP_HS_COMPLETE => True
  | NXP_HS_WAIT_CLIENT_HELLO => is_server = true
  | NXP_HS_WAIT_SERVER_HELLO | NXP_HS_ZERO_RTT_SENT | NXP_HS_WAIT_HANDSHAKE_DONE => is_server = false
  end.

(** The keys a state promises. *)
Definition state_keys (hs : nxp_handshake) : Prop :=
  match hs_state hs with
  | NXP_HS_IDLE => True
  | NXP_HS_WAIT_SERVER_HELLO | NXP_HS_WAIT_CLIENT_HELLO => cs_available (initial_keys hs) = true
  | NXP_HS_ZERO_RTT_SENT => cs_available (initial_keys hs) = true /\ cs_available (zero_rtt_keys hs) = true
  | NXP_HS_WAIT_HANDSHAKE_DONE | NXP_HS_COMPLETE =>
      cs_available (initial_keys hs) = true /\ cs_available (handshake_keys hs) = true /\
      cs_available (app_keys hs) = true
  end.

Definition hs_inv (hs : nxp_handshake) : Prop :=
  hs_ok hs /\ role_state (hs_is_server hs) (hs_state hs) /\ state_keys hs.

(** The transitions of the state machine; a failing operation makes none. *)
Definition hs_edge (is_server : bool) (st st' : nxp_hs_state) : Prop :=
  match st, st' with
  | NXP_HS_IDLE, NXP_HS_WAIT_SERVER_HELLO
  | NXP_HS_IDLE, NXP_HS_ZERO_RTT_SENT
  | NXP_HS_WAIT_SERVER_HELLO, NXP_HS_WAIT_HANDSHAKE_DONE
  | NXP_HS_ZERO_RTT_SENT, NXP_HS_WAIT_HANDSHAKE_DONE
  | NXP_HS_WAIT_HANDSHAKE_DONE, NXP_HS_COMPLETE => is_server = false
  | NXP_HS_IDLE, NXP_HS_WAIT_CLIENT_HELLO
  | NXP_HS_WAIT_CLIENT_HELLO, NXP_HS_COMPLETE => is_server = true
  | _, _ => st = st'
  end.

(** One operation: memory safe, invariant kept, along an edge. *)
Definition hs_steps (hs : nxp_handshake) (r : hs_result) : Prop :=
  match r with
  | Done hs' => hs_inv hs' /\ hs_is_server hs' = hs_is_server hs /\
      hs_edge (hs_is_server hs) (hs_state hs) (hs_state hs')
  | Err (_, hs') => hs_inv hs' /\ hs_is_server hs' = hs_is_server hs /\ hs_state hs' = hs_state hs
  | Ub => False
  end.

Lemma initial_keys_available dcid k k' : nxp_crypto_derive_initial_keys dcid k = (k', true) -> cs_available k' = true.
Proof.
  unfold nxp_crypto_derive_initial_keys. destruct (nxp_hkdf_extract _ _) as [i |]; [| done].
  destruct (nxp_hkdf_expand_label i "client in" None 0 NXP_HASH_LEN),
    (nxp_hkdf_expand_label i "server in" None 0 NXP_HASH_LEN); try done.
  destruct (nxp_crypto_derive_traffic_keys _ _ _) as [k1 [|]]; simpl; [| done].
  destruct (nxp_crypto_derive_traffic_keys _ _ _) as [k2 [|]]; simpl; [| done].
  by intros [= <-].
Qed.

Lemma zero_rtt_keys_available s a k : nxp_crypto_derive_zero_rtt_keys s a = (k, true) -> cs_available k = true.
Proof.
  unfold nxp_crypto_derive_zero_rtt_keys. destruct (nxp_hkdf_extract _ _); [| done].
  destruct (nxp_hkdf_expand_label _ _ _ _ _); try done.
  destruct (nxp_crypto_derive_traffic_keys _ _ _) as [k1 [|]]; simpl; [| done].
  by intros [= <-].
Qed.

(** Queueing the ClientHello, from a context whose keys fit the next state. *)
Lemma send_client_hello_steps hs next : hs_ok hs -> hs_is_server hs = false -> hs_state hs = NXP_HS_IDLE ->
  cs_available (initial_keys hs) = true ->
  next = NXP_HS_WAIT_SERVER_HELLO \/ (next = NXP_HS_ZERO_RTT_SENT /\ cs_available (zero_rtt_keys hs) = true) ->
  hs_steps hs (send_client_hello hs next).
Proof.
  intros Hok Hr Hs Hi Hn. unfold send_client_hello.
  destruct (queue_hello_keeps hs Hok) as [_ Hq].
  destruct (queue_hello hs (encode_client_hello hs (send_buf hs))) as [h1 | [e h1] |] eqn:Hqe; cbn [keeps] in Hq; [| | done].
  - destruct Hq as (Hok1 & Hs1 & Hr1 & [= Hi1 Hz1] & Hf). cbn [obind].
    assert (0 <= send_len h1 <= 512) as Hsl by (destruct Hok1; unfold NXP_HS_BUF_SIZE in *; lia).
    rewrite memcpy_splice by (destruct Hok1; unfold NXP_HS_BUF_SIZE in *; lia). cbn [obind hs_steps].
    split; [| split; [done | destruct Hn as [-> | [-> _]]; simpl; by rewrite Hs]].
    split; [| split].
    + destruct Hok1. split; simpl; try done; [| unfold NXP_HS_BUF_SIZE; lia].
      rewrite zlen_splice by (rewrite ?zlen_ztake; unfold NXP_HS_BUF_SIZE in *; lia). done.
    + simpl. destruct Hn as [-> | [-> _]]; simpl; congruence.
    + unfold state_keys. simpl. destruct Hn as [-> | [-> Hz]]; rewrite Hi1; [done |]. by rewrite Hz1.
  - destruct Hq as (Hok1 & Hs1 & Hr1 & [= Hi1 Hz1]). cbn [obind hs_steps]. split; [| done].
    split; [done |]. unfold state_keys. rewrite Hs1, Hs. done.
Qed.

Lemma hs_steps_err hs e : hs_inv hs -> hs_steps hs (Err (e, hs)).
Proof. by simpl. Qed.

(** Changing what an idle context promises nothing about. *)
Lemma idle_inv hs hs' : hs_inv hs -> hs_state hs = NXP_HS_IDLE -> hs_state hs' = hs_state hs ->
  hs_ok hs' -> hs_inv hs'.
Proof. intros _ Hs Hs' Hok. split; [done |]. unfold state_keys. by rewrite Hs', Hs. Qed.

Lemma hs_steps_via hs hs1 r : hs_is_server hs1 = hs_is_server hs -> hs_state hs1 = hs_state hs ->
  hs_steps hs1 r -> hs_steps hs r.
Proof. intros Hr Hs. destruct r as [? | [? ?] |]; simpl; by rewrite ?Hr, ?Hs. Qed.

Lemma start_client_steps hs dcid : hs_inv hs -> hs_steps hs (nxp_handshake_start_client hs dcid).
Proof.
  intros Hinv. unfold nxp_handshake_start_client.
  destruct (bool_decide_reflect (hs_state hs = NXP_HS_IDLE)) as [Hs | _]; [| by apply hs_steps_err].
  destruct (hs_is_server hs) eqn:Hr; cbn [negb orb]; [by apply hs_steps_err |].
  destruct (nxp_crypto_derive_initial_keys dcid (initial_keys hs)) as [k ok] eqn:Hk.
  assert (hs_ok (hs <| initial_keys := k |>)) as Hok by (destruct Hinv as [[] _]; done).
  destruct ok; cbn [negb].
  - apply initial_keys_available in Hk.
    apply (hs_steps_via hs (hs <| initial_keys := k |>)); [done.. |].
    apply send_client_hello_steps; [done.. | by left].
  - split; [by eapply idle_inv | done].
Qed.

Lemma start_server_steps hs scid : hs_inv hs -> hs_steps hs (nxp_handshake_start_server hs scid).
Proof.
  intros Hinv. unfold nxp_handshake_start_server.
  destruct (bool_decide_reflect (hs_state hs = NXP_HS_IDLE)) as [Hs | _]; [| by apply hs_steps_err].
  destruct (hs_is_server hs) eqn:Hr; cbn [negb orb]; [| by apply hs_steps_err].
  destruct (nxp_crypto_derive_initial_keys scid (initial_keys hs)) as [k ok] eqn:Hk.
  assert (hs_ok (hs <| initial_keys := k |>)) as Hok by (destruct Hinv as [[] _]; done).
  destruct ok; cbn [negb]; [| split; [by eapply idle_inv | done]].
  apply initial_keys_available in Hk. split; [| split; [done | simpl; by rewrite Hs]].
  split; [destruct Hinv as [[] _]; done | done].
Qed.

Lemma start_0rtt_steps hs dcid ticket key : hs_inv hs ->
  zlen ticket <= NXP_TICKET_MAX_PLAINTEXT + NXP_AEAD_IV_LEN ->
  hs_steps hs (nxp_handshake_start_client_0rtt hs dcid ticket key).
Proof.
  intros Hinv Ht. unfold nxp_handshake_start_client_0rtt.
  destruct (bool_decide_reflect (hs_state hs = NXP_HS_IDLE)) as [Hs | _]; [| by apply hs_steps_err].
  destruct (hs_is_server hs) eqn:Hr; cbn [negb orb]; [by apply hs_steps_err |].
  pose proof (ticket_validate_safe key ticket 0 256 Ht) as Hv.
  destruct (nxp_session_ticket_validate key ticket 0 256) as [tk | e |]; [| by apply hs_steps_err | done].
  destruct (nxp_crypto_derive_initial_keys dcid (initial_keys hs)) as [k ok] eqn:Hk.
  assert (hs_ok (hs <| initial_keys := k |>)) as Hok by (destruct Hinv as [[] _]; done).
  destruct ok; cbn [negb]; [| split; [by eapply idle_inv | done]].
  destruct (nxp_crypto_derive_zero_rtt_keys (tk_secret tk) (tk_algo tk)) as [z ok] eqn:Hz.
  assert (hs_ok (hs <| initial_keys := k |> <| zero_rtt_keys := z |>)) as Hok2 by (destruct Hok; done).
  destruct ok; cbn [negb]; [| split; [by eapply idle_inv | done]].
  apply initial_keys_available in Hk. apply zero_rtt_keys_available in Hz.
  destruct (Z.leb_spec (zlen ticket) 256).
  - pose proof (zlen_nonneg ticket). rewrite memcpy_splice by (destruct Hok2; simpl in *; lia). cbn [obind].
    set (hs1 := assign_with _ _). apply (hs_steps_via hs hs1); [done.. |].
    apply send_client_hello_steps; [| done.. | by right].
    destruct Hok2. split; try done. simpl in *.
    rewrite zlen_splice by (rewrite ?zlen_ztake; lia). done.
  - cbn [obind]. set (hs1 := assign_with _ _). apply (hs_steps_via hs hs1); [done.. |].
    apply send_client_hello_steps; [destruct Hok2; done | done.. | by right].
Qed.

(** An arrival is a step along the edge to the state reached. *)
Lemma arrives_steps hs st r : hs_inv hs -> arrives hs st r -> cs_available (initial_keys hs) = true ->
  role_state (hs_is_server hs) st -> hs_edge (hs_is_server hs) (hs_state hs) st ->
  st = NXP_HS_WAIT_HANDSHAKE_DONE \/ st = NXP_HS_COMPLETE ->
  hs_state hs <> NXP_HS_WAIT_HANDSHAKE_DONE -> hs_state hs <> NXP_HS_COMPLETE -> hs_steps hs r.
Proof.
  intros (Hok & Hrs & Hk) Ha Hi Hst He Hor Hn1 Hn2. destruct r as [hs' | [e hs'] |]; simpl in *; [| | done].
  - destruct Ha as (Hok' & Hs' & Hr' & [= Hi' Hz'] & Hh & Hap). rewrite Hs', Hr'. split; [| done].
    split; [done |]. split; [congruence |]. unfold state_keys. rewrite Hs', Hi'. by destruct Hor as [-> | ->].
  - destruct Ha as (Hok' & Hs' & Hr' & [= Hi' Hz']). split; [| done].
    split; [done |]. split; [congruence |]. unfold state_keys in *. rewrite Hs'.
    by destruct (hs_state hs); rewrite ?Hi', ?Hz'.
Qed.

Lemma fill_steps hs n : hs_inv hs -> 0 <= n -> hs_steps hs (hs_run hs (EvFill n)).
Proof.
  intros Hinv Hn. cbn [hs_run]. unfold nxp_handshake_fill_crypto. pose proof Hinv as (Hok & Hr & Hk).
  assert (0 <= send_offset hs <= send_len hs /\ send_len hs <= 512 /\ zlen (send_buf hs) = 512)
    as (? & ? & ?) by (destruct Hok; unfold NXP_HS_BUF_SIZE in *; lia).
  rewrite u64_small by lia. destruct (Z.eqb_spec (send_len hs - send_offset hs) 0).
  - split; [done |]. split; [done |]. by destruct (hs_state hs).
  - rewrite Z.gtb_ltb, sub_buf_Done by (destruct (Z.ltb_spec n (send_len hs - send_offset hs)); lia).
    cbn [obind hs_steps]. split; [| split; [done | by simpl; destruct (hs_state hs)]].
    split; [| done]. destruct Hok. split; try done. simpl.
    destruct (Z.ltb_spec n (send_len hs - send_offset hs)); lia.
Qed.

Lemma hs_run_steps hs ev : hs_inv hs -> hs_event_ok ev -> hs_steps hs (hs_run hs ev).
Proof.
  intros Hinv Hev. destruct ev as [tp | dcid | dcid ticket key | scid | level data | | n]; cbn [hs_run hs_event_ok] in *.
  - split; [| split; [done | by simpl; destruct (hs_state hs)]].
    destruct Hinv as [[] [? ?]]. split; done.
  - by apply start_client_steps.
  - by apply start_0rtt_steps.
  - by apply start_server_steps.
  - unfold nxp_handshake_recv_crypto. pose proof Hinv as (Hok & Hr & Hk). unfold state_keys in Hk.
    destruct (hs_state hs) eqn:Hs; try by apply hs_steps_err.
    all: destruct (bool_decide _); cbn [negb]; [| by apply hs_steps_err].
    all: eapply arrives_steps;
      [done | first [by apply process_server_hello_safe | by apply process_client_hello_safe] | ..].
    all: rewrite ?Hs; simpl in *; first [done | tauto].
  - unfold nxp_handshake_on_handshake_done. pose proof Hinv as (Hok & Hr & Hk). unfold state_keys in Hk.
    destruct (bool_decide_reflect (hs_state hs = NXP_HS_WAIT_HANDSHAKE_DONE)) as [Hs |]; [| by apply hs_steps_err].
    rewrite Hs in *. cbn [negb]. split; [| split; [done | simpl; by rewrite Hs]].
    destruct Hok. split; [split; done | done].
  - by apply fill_steps.
Qed.

Lemma created_inv is_server random hs : nxp_handshake_create is_server random = Some hs -> hs_inv hs.
Proof.
  destruct random as [k |]; [| done]. intros [= <-]. split; [| done].
  split; try done. apply x25519_public_size.
Qed.

Lemma reachable_inv hs : hs_reachable hs -> hs_inv hs.
Proof.
  induction 1 as [is_server random hs Hc | hs ev hs' _ IH Hev Ha]; [by eapply created_inv |].
  pose proof (hs_run_steps hs ev IH Hev) as Hst.
  destruct (hs_run hs ev) as [h | [e h] |]; simpl in *; [| | done]; injection Ha as <-; tauto.
Qed.

End HandshakeSafety.

(** ** Agreement *)

Section Agreement.
Context `{OpenSSLLaws}.

Lemma derive_level_crossed algo a b k k0 k' : derive_level true algo a b k = (k', true) ->
  derive_level false algo a b k0 = (crossed k', true).
Proof.
  unfold derive_level. destruct (nxp_crypto_derive_traffic_keys b algo _) as [k1 ok1] eqn:E1.
  destruct ok1; cbn [negb]; [| done].
  destruct (nxp_crypto_derive_traffic_keys a algo _) as [k2 ok2] eqn:E2. destruct ok2; cbn [negb]; [| done].
  intros [= <-]. rewrite (traffic_keys_fresh _ _ _ (cs_send (k0 <| cs_algo := algo |>)) _ E2). cbn [negb].
  rewrite (traffic_keys_fresh _ _ _ (cs_recv (k0 <| cs_algo := algo |> <| cs_send := k2 |>)) _ E1). done.
Qed.

(** The secrets two ends share. *)
Definition same_secrets (c s : nxp_handshake) : Prop :=
  master_secret c = master_secret s /\ has_master_secret c = has_master_secret s /\
  resumption_secret c = resumption_secret s /\ has_resumption_secret c = has_resumption_secret s.

Lemma derive_crossed c s s' : hs_ok c -> hs_ok s -> hs_is_server c = false -> hs_is_server s = true ->
  shared_secret c = shared_secret s -> selected_algo c = selected_algo s ->
  ztake (transcript_len c) (transcript c) = ztake (transcript_len s) (transcript s) ->
  same_secrets c s -> derive_handshake_and_app_keys s = Done s' ->
  exists c', derive_handshake_and_app_keys c = Done c' /\ rekeyed c c' /\ rekeyed s s' /\
    handshake_keys c' = crossed (handshake_keys s') /\ app_keys c' = crossed (app_keys s') /\ same_secrets c' s'.
Proof.
  intros Hokc Hoks Hrc Hrs Hsh Hal Hms (Hm1 & Hm2 & Hr1 & Hr2) Hd.
  pose proof (derive_spec s Hoks) as Hds. rewrite Hd in Hds. destruct Hds as [Hks _].
  pose proof (derive_spec c Hokc) as Hdc. revert Hd Hdc. unfold derive_handshake_and_app_keys.
  rewrite !sub_buf_Done by (destruct Hokc, Hoks; lia). cbn [obind]. rewrite !zdrop_0, Hms, Hsh, Hal, Hrc, Hrs.
  set (msgs := ztake _ _). clearbody msgs.
  destruct (nxp_crypto_hash msgs) as [h |]; cbn [some_or_fail obind]; [| done].
  destruct (nxp_hkdf_extract (Some (zeros NXP_HASH_LEN)) (shared_secret s)) as [sec |]; cbn [some_or_fail obind]; [| done].
  destruct (nxp_hkdf_expand_label sec "c hs traffic" (Some h) NXP_HASH_LEN NXP_HASH_LEN) as [a1 | |]; cbn [or_fail obind]; [| done..].
  destruct (nxp_hkdf_expand_label sec "s hs traffic" (Some h) NXP_HASH_LEN NXP_HASH_LEN) as [b1 | |]; cbn [or_fail obind]; [| done..].
  destruct (derive_level true _ a1 b1 _) as [hk [|]] eqn:E1; cbn [negb]; [| done].
  rewrite (derive_level_crossed _ _ _ _ (handshake_keys c) _ E1). cbn [negb].
  destruct (nxp_hkdf_expand_label sec "derived" None 0 NXP_HASH_LEN) as [d | |]; cbn [or_fail obind]; [| done..].
  destruct (nxp_hkdf_extract (Some d) (zeros NXP_HASH_LEN)) as [m |]; cbn [some_or_fail obind]; [| done].
  destruct (nxp_hkdf_expand_label m "c ap traffic" (Some h) NXP_HASH_LEN NXP_HASH_LEN) as [a2 | |]; cbn [or_fail obind]; [| done..].
  destruct (nxp_hkdf_expand_label m "s ap traffic" (Some h) NXP_HASH_LEN NXP_HASH_LEN) as [b2 | |]; cbn [or_fail obind]; [| done..].
  change (hs_is_server (s <| handshake_keys := hk |>)) with (hs_is_server s).
  change (selected_algo (s <| handshake_keys := hk |>)) with (selected_algo s).
  change (hs_is_server (c <| handshake_keys := crossed hk |>)) with (hs_is_server c).
  change (selected_algo (c <| handshake_keys := crossed hk |>)) with (selected_algo c). rewrite Hrs, Hrc, Hal.
  destruct (derive_level true _ a2 b2 _) as [ak [|]] eqn:E2; cbn [negb]; [| done].
  rewrite (derive_level_crossed _ _ _ _ (app_keys (c <| handshake_keys := crossed hk |>)) _ E2). cbn [negb].
  destruct (nxp_crypto_derive_resumption_secret m msgs) as [r |]; intros [= <-] [Hkc _];
    (eexists; split; [reflexivity | split; [exact Hkc | split; [exact Hks | repeat split; assumption]]]).
Qed.

Lemma params_image_nonempty tp : 0 < zlen (flat_map param_bytes (params_sent tp)).
Proof.
  unfold params_sent. cbn [app flat_map param_bytes fst snd]. rewrite zlen_cons.
  match goal with |- context [zlen ?l] => pose proof (zlen_nonneg l) end. lia.
Qed.

Lemma recv_params_image hs pre tp pos : params_ok tp -> pos = zlen pre ->
  recv_params hs (pre ++ flat_map param_bytes (params_sent tp)) pos =
    Done (hs <| peer_params := params_rounded tp |> <| has_peer_params := true |>).
Proof.
  intros Hok ->. unfold recv_params. pose proof (params_image_nonempty tp).
  rewrite zlen_app, (proj2 (Z.ltb_lt _ _)), zdrop_app, decode_params_image by (done || lia). done.
Qed.

Lemma recv_pubkey_hello hs t key rest : zlen key = NXP_X25519_KEY_LEN ->
  recv_pubkey hs (t :: key ++ rest) = Done (hs <| peer_pubkey := key |> <| has_peer_pubkey := true |>).
Proof.
  intros Hk. unfold recv_pubkey. change (t :: key ++ rest) with ([t] ++ key ++ rest).
  by rewrite sub_buf_app by (done || lia).
Qed.

Lemma rd_after_key {E} t key b rest i : zlen key = NXP_X25519_KEY_LEN -> i = 1 + NXP_X25519_KEY_LEN ->
  @rd E (t :: key ++ b :: rest) i = Done b.
Proof.
  intros Hk ->. change (t :: key ++ b :: rest) with ((t :: key) ++ b :: rest).
  rewrite <- Hk. replace (1 + zlen key) with (zlen (t :: key)) by (by rewrite zlen_cons). apply rd_mid.
Qed.

(** The server's context when its keys are derived, from a ClientHello. *)
Definition server_ready (s : nxp_handshake) (key : list Z) (tp : nxp_transport_params) (ss : list Z) : nxp_handshake :=
  let hello := client_hello key tp in
  let reply := server_hello (local_pubkey s) NXP_AEAD_AES_256_GCM (local_params s) in
  s <| peer_pubkey := key |> <| has_peer_pubkey := true |> <| selected_algo := NXP_AEAD_AES_256_GCM |>
    <| peer_params := params_rounded tp |> <| has_peer_params := true |> <| shared_secret := ss |>
    <| send_buf := splice (send_buf s) 0 reply |> <| send_len := zlen reply |>
    <| send_offset := 0 |> <| send_level := NXP_CRYPTO_INITIAL |>
    <| transcript := splice (splice (transcript s) 0 hello) (zlen hello) reply |>
    <| transcript_len := zlen hello + zlen reply |>.

Section Hellos.
Context (key : list Z) (algo : Z) (tp : nxp_transport_params).
Context (Hk : zlen key = NXP_X25519_KEY_LEN) (Hp : params_ok tp).

Lemma client_hello_size : 36 < zlen (client_hello key tp) <= 106.
Proof.
  pose proof (params_image_size _ Hp). pose proof (params_image_nonempty tp).
  unfold client_hello, NXP_X25519_KEY_LEN in *. rewrite zlen_cons, !zlen_app, !zlen_cons, zlen_nil. lia.
Qed.
Lemma server_hello_size : 34 < zlen (server_hello key algo tp) <= 104.
Proof.
  pose proof (params_image_size _ Hp). pose proof (params_image_nonempty tp).
  unfold server_hello, NXP_X25519_KEY_LEN in *. rewrite zlen_cons, !zlen_app, !zlen_cons, zlen_nil. lia.
Qed.

(** What the parsers read in the two hellos. *)
Lemma client_hello_reads :
  (forall E, @rd E (client_hello key tp) 0 = Done NXP_HS_CLIENT_HELLO) /\
  (forall hs, recv_pubkey hs (client_hello key tp) = Done (hs <| peer_pubkey := key |> <| has_peer_pubkey := true |>)) /\
  (forall E, @rd E (client_hello key tp) (1 + NXP_X25519_KEY_LEN) = Done 2) /\
  select_cipher (Z.to_nat 2) (client_hello key tp) (1 + NXP_X25519_KEY_LEN + 1) = Done (Some NXP_AEAD_AES_256_GCM) /\
  forall hs, recv_params hs (client_hello key tp) (1 + NXP_X25519_KEY_LEN + 1 + 2) =
    Done (hs <| peer_params := params_rounded tp |> <| has_peer_params := true |>).
Proof.
  unfold client_hello. set (img := flat_map param_bytes (params_sent tp)).
  split; [done |]. split; [intros; by apply recv_pubkey_hello |]. split; [intros; by apply rd_after_key |]. split.
  - change (Z.to_nat 2) with 2%nat.
    replace (_ :: key ++ _) with
      ((NXP_HS_CLIENT_HELLO :: key ++ [2]) ++ NXP_AEAD_AES_256_GCM :: NXP_AEAD_CHACHA20_POLY1305 :: img)
      by (by rewrite <- app_comm_cons, <- app_assoc).
    replace (1 + NXP_X25519_KEY_LEN + 1) with (zlen (NXP_HS_CLIENT_HELLO :: key ++ [2]))
      by (rewrite zlen_cons, zlen_app, Hk; done).
    cbn [select_cipher]. by rewrite rd_mid.
  - intros hs. rewrite app_assoc, app_comm_cons. apply recv_params_image; [done |].
    rewrite zlen_cons, zlen_app, Hk. done.
Qed.

Lemma server_hello_reads :
  (forall E, @rd E (server_hello key algo tp) 0 = Done NXP_HS_SERVER_HELLO) /\
  (forall hs, recv_pubkey hs (server_hello key algo tp) =
    Done (hs <| peer_pubkey := key |> <| has_peer_pubkey := true |>)) /\
  (forall E, @rd E (server_hello key algo tp) (1 + NXP_X25519_KEY_LEN) = Done (u8 algo)) /\
  forall hs, recv_params hs (server_hello key algo tp) (1 + NXP_X25519_KEY_LEN + 1) =
    Done (hs <| peer_params := params_rounded tp |> <| has_peer_params := true |>).
Proof.
  unfold server_hello.
  split; [done |]. split; [intros; by apply recv_pubkey_hello |]. split; [intros; by apply rd_after_key |].
  intros hs. rewrite app_assoc, app_comm_cons. apply recv_params_image; [done |].
  rewrite zlen_cons, zlen_app, Hk. done.
Qed.

End Hellos.

Lemma queue_server_hello s : hs_ok s -> params_ok (local_params s) ->
  let reply := server_hello (local_pubkey s) (selected_algo s) (local_params s) in
  queue_hello s (encode_server_hello s (send_buf s)) =
    Done (s <| send_buf := splice (send_buf s) 0 reply |> <| send_len := zlen reply |>
            <| send_offset := 0 |> <| send_level := NXP_CRYPTO_INITIAL |>).
Proof.
  intros Hok Hps. cbn zeta. rewrite server_hello_spec by (first [apply Hok | exact Hps]). cbn zeta.
  pose proof (server_hello_size _ (selected_algo s) _ (hs_pubkey_size s Hok) Hps).
  cbn [queue_hello]. by rewrite (proj2 (Z.eqb_neq _ 0)) by lia.
Qed.

(** Replacing fields that the invariant bounds. *)
Lemma hs_ok_transcript hs bs : hs_ok hs -> transcript_len hs + zlen bs <= NXP_HS_BUF_SIZE * 2 ->
  hs_ok (hs <| transcript := splice (transcript hs) (transcript_len hs) bs |>
            <| transcript_len := transcript_len hs + zlen bs |>).
Proof.
  intros [] Hle. pose proof (zlen_nonneg bs). split; simpl; first [done | lia | rewrite zlen_splice; lia].
Qed.

Lemma hs_ok_send hs bs : hs_ok hs -> zlen bs <= NXP_HS_BUF_SIZE ->
  hs_ok (hs <| send_buf := splice (send_buf hs) 0 bs |> <| send_len := zlen bs |>
            <| send_offset := 0 |> <| send_level := NXP_CRYPTO_INITIAL |>).
Proof.
  intros [] Hle. pose proof (zlen_nonneg bs). split; simpl; first [done | lia | rewrite zlen_splice; lia].
Qed.

Lemma hs_ok_shared hs ss : hs_ok hs -> hs_ok (hs <| shared_secret := ss |>).
Proof. by intros []. Qed.

Lemma add_transcript_all hs bs rest : hs_ok hs -> transcript_len hs + zlen bs <= NXP_HS_BUF_SIZE * 2 ->
  add_transcript hs (bs ++ rest) (zlen bs) =
    Done (hs <| transcript := splice (transcript hs) (transcript_len hs) bs |>
             <| transcript_len := transcript_len hs + zlen bs |>).
Proof.
  intros. pose proof (zlen_nonneg bs). pose proof (zlen_nonneg rest).
  rewrite add_transcript_spec by (rewrite ?zlen_app; done || lia).
  by rewrite (proj2 (Z.leb_le _ _)), ztake_app by lia.
Qed.

Lemma process_client_hello_spec s key tp s' : hs_ok s -> transcript_len s = 0 -> params_ok (local_params s) ->
  params_ok tp -> zlen key = NXP_X25519_KEY_LEN ->
  process_client_hello s (client_hello key tp) = Done s' ->
  exists ss s1, nxp_x25519_shared_secret (local_privkey s) key = Some ss /\
    derive_handshake_and_app_keys (server_ready s key tp ss) = Done s1 /\
    s' = s1 <| send_handshake_done := true |> <| hs_state := NXP_HS_COMPLETE |>.
Proof.
  intros Hok Ht Hps Hpc Hk. pose proof (client_hello_size key tp Hk Hpc) as Hch.
  destruct (client_hello_reads key tp Hk Hpc) as (Hr0 & Hpk & Hn & Hsel & Hpar).
  unfold process_client_hello. rewrite (proj2 (Z.ltb_ge _ _)), Hr0 by lia. cbn [obind]. rewrite Z.eqb_refl. cbn [negb].
  rewrite Hpk. cbn [obind]. rewrite Hn. cbn [obind].
  rewrite Z.gtb_ltb, (proj2 (Z.ltb_ge _ _)) by (unfold NXP_X25519_KEY_LEN; lia). rewrite Hsel, Hpar. cbn [obind].
  set (s1 := s <| peer_pubkey := _ |> <| has_peer_pubkey := _ |> <| selected_algo := _ |>
               <| peer_params := _ |> <| has_peer_params := _ |>).
  assert (hs_ok s1) as Hok1 by (destruct Hok; split; first [assumption | by apply params_rounded_ok]).
  rewrite <- (app_nil_r (client_hello key tp)) at 1.
  rewrite add_transcript_all; [| exact Hok1 | change (transcript_len s1) with (transcript_len s); unfold NXP_HS_BUF_SIZE; lia].
  cbn [obind]. change (transcript_len s1) with (transcript_len s). change (transcript s1) with (transcript s).
  rewrite Ht, Z.add_0_l. set (s2 := s1 <| transcript := _ |> <| transcript_len := _ |>).
  assert (hs_ok s2) as Hok2.
  { unfold s2. rewrite <- (Z.add_0_l (zlen (client_hello key tp))), <- Ht.
    apply (hs_ok_transcript s1); [done |]. change (transcript_len s1) with (transcript_len s). unfold NXP_HS_BUF_SIZE. lia. }
  unfold compute_shared. change (local_privkey s2) with (local_privkey s). change (peer_pubkey s2) with key.
  destruct (nxp_x25519_shared_secret (local_privkey s) key) as [ss |]; [| done]. cbn [obind].
  set (s3 := s2 <| shared_secret := _ |>). pose proof (hs_ok_shared s2 ss Hok2 : hs_ok s3) as Hok3.
  rewrite queue_server_hello by (exact Hok3 || exact Hps). cbn zeta. cbn [obind].
  pose proof (server_hello_size _ NXP_AEAD_AES_256_GCM _ (hs_pubkey_size s Hok) Hps) as Hsh.
  change (server_hello (local_pubkey s3) (selected_algo s3) (local_params s3))
    with (server_hello (local_pubkey s) NXP_AEAD_AES_256_GCM (local_params s)).
  set (reply := server_hello (local_pubkey s) NXP_AEAD_AES_256_GCM (local_params s)) in *.
  pose proof (hs_ok_send s3 reply Hok3 ltac:(unfold NXP_HS_BUF_SIZE; lia)) as Hok4. 
  set (s4 := s3 <| send_buf := _ |> <| send_len := _ |> <| send_offset := _ |> <| send_level := _ |>) in *.
  change (send_len s4) with (zlen reply). change (send_buf s4) with (reply ++ zdrop (zlen reply) (send_buf s)).
  rewrite add_transcript_all; [| exact Hok4 |
    change (transcript_len s4) with (zlen (client_hello key tp)); unfold NXP_HS_BUF_SIZE; lia].
  cbn [obind]. unfold derive_or_fail.
  match goal with |- context [derive_handshake_and_app_keys ?x] => assert (x = server_ready s key tp ss) as -> end.
  { unfold server_ready, s4, s3, s2, s1. fold reply. clearbody reply. generalize (client_hello key tp).
    intros hello. clear. destruct s.
    cbv -[splice zlen params_rounded zdrop Z.add app]. reflexivity. }
  destruct (derive_handshake_and_app_keys (server_ready s key tp ss)) as [s5 | |] eqn:Hs5; [| done..].
  intros [= <-]. by exists ss, s5.
Qed.

(** The client's context when its keys are derived, from a ServerHello. *)
Definition client_ready (c : nxp_handshake) (key : list Z) (algo : Z) (tp : nxp_transport_params) (ss : list Z) : nxp_handshake :=
  let reply := server_hello key algo tp in
  c <| peer_pubkey := key |> <| has_peer_pubkey := true |> <| selected_algo := u8 algo |>
    <| peer_params := params_rounded tp |> <| has_peer_params := true |>
    <| transcript := splice (transcript c) (transcript_len c) reply |>
    <| transcript_len := transcript_len c + zlen reply |> <| shared_secret := ss |>.

Lemma process_server_hello_spec c key algo tp ss c1 : hs_ok c -> transcript_len c <= NXP_HS_BUF_SIZE ->
  params_ok tp -> zlen key = NXP_X25519_KEY_LEN ->
  nxp_x25519_shared_secret (local_privkey c) key = Some ss ->
  derive_handshake_and_app_keys (client_ready c key algo tp ss) = Done c1 ->
  process_server_hello c (server_hello key algo tp) = Done (c1 <| hs_state := NXP_HS_WAIT_HANDSHAKE_DONE |>).
Proof.
  intros Hok Ht Hp Hk Hss Hd. pose proof (server_hello_size key algo tp Hk Hp) as Hsh.
  destruct (server_hello_reads key algo tp Hk Hp) as (Hr0 & Hpk & Hn & Hpar).
  unfold process_server_hello. rewrite (proj2 (Z.ltb_ge _ _)), Hr0 by lia. cbn [obind]. rewrite Z.eqb_refl. cbn [negb].
  rewrite Hpk. cbn [obind]. rewrite Hn. cbn [obind]. rewrite Hpar. cbn [obind].
  set (c2 := c <| peer_pubkey := _ |> <| has_peer_pubkey := _ |> <| selected_algo := _ |>
               <| peer_params := _ |> <| has_peer_params := _ |>).
  assert (hs_ok c2) as Hok2 by (destruct Hok; split; first [assumption | by apply params_rounded_ok]).
  rewrite <- (app_nil_r (server_hello key algo tp)) at 1.
  rewrite add_transcript_all; [| exact Hok2 | change (transcript_len c2) with (transcript_len c); unfold NXP_HS_BUF_SIZE in *; lia].
  cbn [obind]. change (transcript_len c2) with (transcript_len c). change (transcript c2) with (transcript c).
  unfold compute_shared. change (local_privkey (c2 <| transcript := _ |> <| transcript_len := _ |>)) with (local_privkey c).
  change (peer_pubkey (c2 <| transcript := _ |> <| transcript_len := _ |>)) with key. rewrite Hss. cbn [obind].
  unfold derive_or_fail.
  match goal with |- context [derive_handshake_and_app_keys ?x] => assert (x = client_ready c key algo tp ss) as -> by reflexivity end.
  by rewrite Hd.
Qed.

(** The client after its start, with its hello queued and in the transcript. *)
Definition client_waiting (c : nxp_handshake) (keys : nxp_crypto_state) : nxp_handshake :=
  let hello := client_hello (local_pubkey c) (local_params c) in
  c <| initial_keys := keys |> <| send_buf := splice (send_buf c) 0 hello |> <| send_len := zlen hello |>
    <| send_offset := 0 |> <| send_level := NXP_CRYPTO_INITIAL |>
    <| transcript := splice (transcript c) 0 hello |> <| transcript_len := zlen hello |>
    <| hs_state := NXP_HS_WAIT_SERVER_HELLO |>.

Lemma start_client_spec c dcid c1 : hs_ok c -> params_ok (local_params c) ->
  nxp_handshake_start_client c dcid = Done c1 ->
  exists keys, nxp_crypto_derive_initial_keys dcid (initial_keys c) = (keys, true) /\ c1 = client_waiting c keys.
Proof.
  intros Hok Hp. unfold nxp_handshake_start_client. destruct (_ || _); [done |].
  destruct (nxp_crypto_derive_initial_keys dcid (initial_keys c)) as [keys ok]. destruct ok; cbn [negb]; [| done].
  pose proof (client_hello_size _ _ (hs_pubkey_size c Hok) Hp) as Hch. pose proof (hs_send_buf_size c Hok) as Hb.
  pose proof (hs_transcript_size c Hok) as Htr. unfold NXP_HS_BUF_SIZE in *.
  unfold send_client_hello. rewrite client_hello_spec by (first [apply Hok | exact Hp]). cbn zeta. cbn [queue_hello].
  change (local_pubkey (c <| initial_keys := keys |>)) with (local_pubkey c).
  change (local_params (c <| initial_keys := keys |>)) with (local_params c).
  change (send_buf (c <| initial_keys := keys |>)) with (send_buf c).
  rewrite (proj2 (Z.eqb_neq _ 0)) by lia. cbn [obind]. set (hello := client_hello _ _) in *.
  set (c2 := c <| initial_keys := _ |> <| send_buf := _ |> <| send_len := _ |> <| send_offset := _ |> <| send_level := _ |>).
  change (transcript c2) with (transcript c). change (send_len c2) with (zlen hello).
  change (send_buf c2) with (hello ++ zdrop (zlen hello) (send_buf c)).
  rewrite memcpy_splice by (rewrite ?zlen_app, ?zlen_zdrop; lia). rewrite ztake_app. cbn [obind].
  intros [= <-]. by exists keys.
Qed.

Lemma client_waiting_fields c keys : hs_ok c -> params_ok (local_params c) ->
  let c1 := client_waiting c keys in let hello := client_hello (local_pubkey c) (local_params c) in
  hs_ok c1 /\ send_offset c1 = 0 /\ send_len c1 = zlen hello /\ 0 < zlen hello /\
  ztake (zlen hello) (send_buf c1) = hello /\ transcript_len c1 = zlen hello /\
  ztake (zlen hello) (transcript c1) = hello /\ initial_keys c1 = keys /\
  local_pubkey c1 = local_pubkey c /\ local_privkey c1 = local_privkey c /\ local_params c1 = local_params c /\
  hs_is_server c1 = hs_is_server c /\ hs_state c1 = NXP_HS_WAIT_SERVER_HELLO /\ same_secrets c1 c.
Proof.
  intros Hok Hp. pose proof (client_hello_size _ _ (hs_pubkey_size c Hok) Hp) as Hz. cbn zeta. unfold client_waiting.
  set (hello := client_hello _ _) in *. clearbody hello. destruct Hok. unfold NXP_HS_BUF_SIZE in *.
  split; [| repeat split; simpl; first [lia | by rewrite splice_0, ztake_app]].
  split; simpl; unfold NXP_HS_BUF_SIZE; first [assumption | lia | rewrite zlen_splice by lia; assumption].
Qed.

Lemma fill_all hs cap : hs_ok hs -> send_offset hs = 0 -> 0 < send_len hs -> NXP_HS_BUF_SIZE <= cap ->
  nxp_handshake_fill_crypto hs cap =
    Done (ztake (send_len hs) (send_buf hs), Some 0, hs <| send_offset := send_len hs |>).
Proof.
  intros Hok Ho Hl Hc. unfold nxp_handshake_fill_crypto. rewrite Ho, Z.sub_0_r.
  assert (send_len hs <= 512 /\ zlen (send_buf hs) = 512) as [? ?] by (destruct Hok; unfold NXP_HS_BUF_SIZE in *; lia).
  unfold NXP_HS_BUF_SIZE in *.
  rewrite u64_small, (proj2 (Z.eqb_neq _ _)), Z.gtb_ltb, (proj2 (Z.ltb_ge _ _)), sub_buf_Done by lia. done.
Qed.

(** The two ends agree: every level's keys cross, the secrets are the same, and
    each end has the other's parameters. *)
Definition ends_agree (c s : nxp_handshake) : Prop :=
  initial_keys c = crossed (initial_keys s) /\
  handshake_keys c = crossed (handshake_keys s) /\ app_keys c = crossed (app_keys s) /\
  selected_algo c = selected_algo s /\ same_secrets c s /\
  peer_params c = params_rounded (local_params s) /\ has_peer_params c = true /\
  peer_params s = params_rounded (local_params c) /\ has_peer_params s = true.

Lemma initial_keys_fresh dcid k k' k0 : nxp_crypto_derive_initial_keys dcid k = (k', true) ->
  nxp_crypto_derive_initial_keys dcid k0 = (k', true).
Proof.
  unfold nxp_crypto_derive_initial_keys. destruct (nxp_hkdf_extract _ _) as [i |]; [| done].
  destruct (nxp_hkdf_expand_label i "client in" None 0 NXP_HASH_LEN) as [cs | |],
    (nxp_hkdf_expand_label i "server in" None 0 NXP_HASH_LEN) as [ss | |]; try done.
  cbn [cs_algo]. change (cs_algo (?k <| cs_algo := ?a |>)) with a.
  destruct (nxp_crypto_derive_traffic_keys cs _ (cs_send (k <| cs_algo := _ |>))) as [k1 [|]] eqn:E1; cbn [negb]; [| done].
  rewrite (traffic_keys_fresh _ _ _ (cs_send (k0 <| cs_algo := NXP_AEAD_AES_256_GCM |>)) _ E1). cbn [negb].
  change (cs_algo (?k <| cs_algo := ?a |> <| cs_send := _ |>)) with a.
  destruct (nxp_crypto_derive_traffic_keys ss _ _) as [k2 [|]] eqn:E2; cbn [negb]; [| done].
  rewrite (traffic_keys_fresh _ _ _ (cs_recv (k0 <| cs_algo := NXP_AEAD_AES_256_GCM |> <| cs_send := k1 |>)) _ E2).
  by intros [= <-].
Qed.

Lemma start_server_spec s dcid keys : hs_state s = NXP_HS_IDLE -> hs_is_server s = true ->
  nxp_crypto_derive_initial_keys dcid (initial_keys s) = (keys, true) ->
  nxp_handshake_start_server s dcid =
    Done (s <| initial_keys := crossed keys |> <| hs_state := NXP_HS_WAIT_CLIENT_HELLO |>).
Proof.
  intros Hs Hr Hk. unfold nxp_handshake_start_server. rewrite Hs, Hr, Hk. cbn [bool_decide negb orb]. destruct s, keys. done.
Qed.

Lemma x25519_shared_agree k1 k2 :
  nxp_x25519_shared_secret k1 (EVP_x25519_public k2) = nxp_x25519_shared_secret k2 (EVP_x25519_public k1).
Proof. unfold nxp_x25519_shared_secret. by rewrite x25519_agree. Qed.

Lemma server_ready_ok s key tp ss : hs_ok s -> params_ok tp -> params_ok (local_params s) ->
  zlen key = NXP_X25519_KEY_LEN -> hs_ok (server_ready s key tp ss) /\
  let s1 := server_ready s key tp ss in
  ztake (transcript_len s1) (transcript s1) =
    client_hello key tp ++ server_hello (local_pubkey s) NXP_AEAD_AES_256_GCM (local_params s).
Proof.
  intros Hok Hp Hps Hk. pose proof (client_hello_size key tp Hk Hp) as Hch.
  pose proof (server_hello_size _ NXP_AEAD_AES_256_GCM _ (hs_pubkey_size s Hok) Hps) as Hsh.
  unfold server_ready. set (hello := client_hello key tp) in *. set (reply := server_hello _ _ _) in *.
  clearbody hello reply. cbn zeta. unfold NXP_HS_BUF_SIZE in *. destruct Hok. unfold NXP_HS_BUF_SIZE in *. split.
  - split; simpl; unfold NXP_HS_BUF_SIZE;
      first [assumption | lia | exact (params_rounded_ok _ Hp) | rewrite !zlen_splice by (rewrite ?zlen_splice; lia); assumption].
  - simpl. rewrite ztake_splice by (rewrite ?zlen_splice; lia). f_equal. by rewrite splice_0, ztake_app.
Qed.

Lemma client_ready_ok c key algo tp ss hello : hs_ok c -> params_ok tp -> zlen key = NXP_X25519_KEY_LEN ->
  transcript_len c = zlen hello -> ztake (zlen hello) (transcript c) = hello -> zlen hello <= NXP_HS_BUF_SIZE ->
  hs_ok (client_ready c key algo tp ss) /\
  let c1 := client_ready c key algo tp ss in
  ztake (transcript_len c1) (transcript c1) = hello ++ server_hello key algo tp.
Proof.
  intros Hok Hp Hk Ht Hpre Hl. pose proof (server_hello_size key algo tp Hk Hp) as Hsh. pose proof (zlen_nonneg hello).
  unfold client_ready. set (reply := server_hello _ _ _) in *. clearbody reply. cbn zeta.
  destruct Hok. unfold NXP_HS_BUF_SIZE in *. split.
  - split; simpl; unfold NXP_HS_BUF_SIZE;
      first [assumption | lia | exact (params_rounded_ok _ Hp) | rewrite !zlen_splice by lia; assumption].
  - simpl. rewrite Ht, ztake_splice by lia. by f_equal.
Qed.

(** What survives key derivation. *)
Lemma rekeyed_fields hs hs' : rekeyed hs hs' ->
  send_buf hs' = send_buf hs /\ send_len hs' = send_len hs /\ send_offset hs' = send_offset hs /\
  initial_keys hs' = initial_keys hs /\ selected_algo hs' = selected_algo hs /\
  peer_params hs' = peer_params hs /\ has_peer_params hs' = has_peer_params hs /\ local_params hs' = local_params hs.
Proof. intros ->. done. Qed.

Lemma rekeyed_ok hs hs' : rekeyed hs hs' -> hs_ok hs -> hs_ok hs'.
Proof. intros -> []. done. Qed.

Lemma server_ready_fields s key tp ss :
  let s1 := server_ready s key tp ss in
  let reply := server_hello (local_pubkey s) NXP_AEAD_AES_256_GCM (local_params s) in
  send_buf s1 = reply ++ zdrop (zlen reply) (send_buf s) /\ send_len s1 = zlen reply /\ send_offset s1 = 0 /\
  initial_keys s1 = initial_keys s /\ selected_algo s1 = NXP_AEAD_AES_256_GCM /\
  peer_params s1 = params_rounded tp /\ has_peer_params s1 = true /\ local_params s1 = local_params s /\
  shared_secret s1 = ss /\ hs_is_server s1 = hs_is_server s.
Proof.
  unfold server_ready. cbn zeta. generalize (server_hello (local_pubkey s) NXP_AEAD_AES_256_GCM (local_params s)).
  generalize (client_hello key tp). done.
Qed.

Lemma client_ready_fields c key tp ss :
  let c1 := client_ready c key NXP_AEAD_AES_256_GCM tp ss in
  initial_keys c1 = initial_keys c /\ selected_algo c1 = NXP_AEAD_AES_256_GCM /\
  peer_params c1 = params_rounded tp /\ has_peer_params c1 = true /\ local_params c1 = local_params c /\
  shared_secret c1 = ss /\ hs_is_server c1 = hs_is_server c.
Proof. unfold client_ready. cbn zeta. generalize (server_hello key NXP_AEAD_AES_256_GCM tp). done. Qed.

Lemma recv_crypto_client_hello s data : hs_state s = NXP_HS_WAIT_CLIENT_HELLO ->
  nxp_handshake_recv_crypto s NXP_CRYPTO_INITIAL data = process_client_hello s data.
Proof. unfold nxp_handshake_recv_crypto. generalize (process_client_hello s data). by intros r ->. Qed.

Lemma recv_crypto_server_hello c data : hs_state c = NXP_HS_WAIT_SERVER_HELLO ->
  nxp_handshake_recv_crypto c NXP_CRYPTO_INITIAL data = process_server_hello c data.
Proof. unfold nxp_handshake_recv_crypto. generalize (process_server_hello c data). by intros r ->. Qed.

(** A context of either role before a hello was processed. *)
Definition unshaken (is_server : bool) (st : nxp_hs_state) (hs : nxp_handshake) : Prop :=
  hs_ok hs /\ params_ok (local_params hs) /\ hs_state hs = st /\ hs_is_server hs = is_server /\
  local_pubkey hs = EVP_x25519_public (local_privkey hs) /\
  master_secret hs = zeros 32 /\ has_master_secret hs = false /\
  resumption_secret hs = zeros 32 /\ has_resumption_secret hs = false.

(** One exchange of hellos, from two contexts that have just started. *)
Lemma hello_exchange c s s2 cap hello :
  unshaken false NXP_HS_WAIT_SERVER_HELLO c -> unshaken true NXP_HS_WAIT_CLIENT_HELLO s -> NXP_HS_BUF_SIZE <= cap ->
  initial_keys c = crossed (initial_keys s) -> transcript_len s = 0 ->
  hello = client_hello (local_pubkey c) (local_params c) ->
  transcript_len c = zlen hello -> ztake (zlen hello) (transcript c) = hello ->
  nxp_handshake_recv_crypto s NXP_CRYPTO_INITIAL hello = Done s2 ->
  exists reply s3 c3, nxp_handshake_fill_crypto s2 cap = Done (reply, Some 0, s3) /\
    nxp_handshake_recv_crypto c NXP_CRYPTO_INITIAL reply = Done c3 /\ ends_agree c3 s3 /\
    hs_state c3 = NXP_HS_WAIT_HANDSHAKE_DONE /\ hs_state s3 = NXP_HS_COMPLETE /\ send_handshake_done s3 = true.
Proof.
  intros (Hokc & Hpc & Hstc & Hrc & Hkc & Hc1 & Hc2 & Hc3 & Hc4) (Hoks & Hps & Hsts & Hrs & Hks & Hs1 & Hs2 & Hs3 & Hs4)
    Hcap Hini Hts Hhello Htc Hpre Hproc.
  pose proof (hs_pubkey_size c Hokc) as Hzc. pose proof (hs_pubkey_size s Hoks) as Hzs.
  rewrite recv_crypto_client_hello, Hhello in Hproc by done. apply process_client_hello_spec in Hproc as (ss & s1 & Hss & Hder & ->); [| done..].
  destruct (server_ready_ok s (local_pubkey c) (local_params c) ss Hoks Hpc Hps Hzc) as [Hokr Htr].
  destruct (client_ready_ok c (local_pubkey s) NXP_AEAD_AES_256_GCM (local_params s) ss hello Hokc Hps Hzs Htc Hpre)
    as [Hokr' Htr']; [pose proof (client_hello_size _ _ Hzc Hpc); rewrite Hhello; unfold NXP_HS_BUF_SIZE; lia |].
  rewrite Hhello in Htr'. pose proof (server_ready_fields s (local_pubkey c) (local_params c) ss) as Hsf.
  pose proof (client_ready_fields c (local_pubkey s) (local_params s) ss) as Hcf. cbn zeta in Hsf, Hcf, Htr, Htr'.
  assert (same_secrets (client_ready c (local_pubkey s) NXP_AEAD_AES_256_GCM (local_params s) ss)
    (server_ready s (local_pubkey c) (local_params c) ss)) as Hsec' by (repeat split; simpl; congruence).
  destruct Hsf as (Hb & Hl & Ho & Hsi & Hsa & Hsp & Hsh & Hslp & Hsss & Hsr).
  destruct Hcf as (Hci & Hca & Hcp & Hch & Hclp & Hcss & Hcr).
  destruct (derive_crossed _ _ s1 Hokr' Hokr ltac:(congruence) ltac:(congruence) ltac:(congruence) ltac:(congruence)
    (eq_trans Htr' (eq_sym Htr)) Hsec' Hder) as (c1 & Hdc & Hrkc & Hrks & Hhk & Hak & Hss').
  destruct (rekeyed_fields _ _ Hrks) as (Hb1 & Hl1 & Ho1 & Hi1 & Ha1 & Hp1 & Hh1 & Hlp1).
  destruct (rekeyed_fields _ _ Hrkc) as (_ & _ & _ & Hi2 & Ha2 & Hp2 & Hh2 & Hlp2).
  pose proof (server_hello_size _ NXP_AEAD_AES_256_GCM _ Hzs Hps) as Hz.
  set (s2 := s1 <| send_handshake_done := true |> <| hs_state := NXP_HS_COMPLETE |>).
  assert (hs_ok s2) as Hok2 by (pose proof (rekeyed_ok _ _ Hrks Hokr) as []; done).
  exists (server_hello (local_pubkey s) NXP_AEAD_AES_256_GCM (local_params s)), (s2 <| send_offset := send_len s2 |>), (c1 <| hs_state := NXP_HS_WAIT_HANDSHAKE_DONE |>).
  split; [| split; [| split; [| done]]].
  - rewrite fill_all; [| done | change (send_offset s2) with (send_offset s1); congruence
      | change (send_len s2) with (send_len s1); rewrite Hl1, Hl; lia | done].
    change (send_len s2) with (send_len s1). change (send_buf s2) with (send_buf s1).
    do 3 f_equal. rewrite Hl1, Hb1, Hl, Hb. by rewrite ztake_app.
  - rewrite recv_crypto_server_hello by done. eapply process_server_hello_spec; [done | | done | done | | exact Hdc].
    + rewrite Htc, Hhello. pose proof (client_hello_size _ _ Hzc Hpc). unfold NXP_HS_BUF_SIZE. lia.
    + rewrite Hks, x25519_shared_agree, <- Hkc. done.
  - unfold ends_agree, s2. repeat split; simpl; try congruence; apply Hss'.
Qed.

Lemma create_unshaken is_server k hs tp : nxp_handshake_create is_server (Some k) = Some hs -> params_ok tp ->
  unshaken is_server NXP_HS_IDLE (nxp_handshake_set_local_params hs tp) /\
  transcript_len (nxp_handshake_set_local_params hs tp) = 0.
Proof.
  intros Hc Hp. pose proof (created_inv _ _ _ Hc) as [[] _]. injection Hc as <-.
  split; [split; [split; first [assumption | apply Hp] | done] | done].
Qed.

Lemma unshaken_started s k : unshaken true NXP_HS_IDLE s ->
  unshaken true NXP_HS_WAIT_CLIENT_HELLO (s <| initial_keys := k |> <| hs_state := NXP_HS_WAIT_CLIENT_HELLO |>).
Proof. intros ([] & Hr). split; [split; assumption |]. by destruct_and!. Qed.

Lemma unshaken_waiting c keys : unshaken false NXP_HS_IDLE c ->
  unshaken false NXP_HS_WAIT_SERVER_HELLO (client_waiting c keys).
Proof.
  intros (Hok & Hp & Hs & Hr & Hk & H1 & H2 & H3 & H4).
  destruct (client_waiting_fields c keys Hok Hp) as
    (Hok1 & _ & _ & _ & _ & _ & _ & _ & Hpub & Hpriv & Hpar & Hsrv & Hstate & Hm1 & Hm2 & Hm3 & Hm4).
  unfold unshaken. rewrite Hpub, Hpriv, Hpar, Hsrv, Hstate, Hm1, Hm2, Hm3, Hm4. done.
Qed.

Lemma unshaken_sent c : unshaken false NXP_HS_WAIT_SERVER_HELLO c ->
  unshaken false NXP_HS_WAIT_SERVER_HELLO (c <| send_offset := send_len c |>).
Proof. intros ([] & Hr). split; [split; simpl; first [assumption | lia] |]. by destruct_and!. Qed.

(** The exchange, with the client's data sent from its buffer. *)
Lemma sent_exchange c s dcid keys hello cap :
  unshaken false NXP_HS_WAIT_SERVER_HELLO c -> send_offset c = 0 -> send_len c = zlen hello -> 0 < zlen hello ->
  ztake (zlen hello) (send_buf c) = hello -> transcript_len c = zlen hello ->
  ztake (zlen hello) (transcript c) = hello -> initial_keys c = keys ->
  hello = client_hello (local_pubkey c) (local_params c) ->
  nxp_crypto_derive_initial_keys dcid (initial_keys s) = (keys, true) ->
  unshaken true NXP_HS_IDLE s -> transcript_len s = 0 -> NXP_HS_BUF_SIZE <= cap ->
  exists s1 c1, nxp_handshake_start_server s dcid = Done s1 /\
    nxp_handshake_fill_crypto c cap = Done (hello, Some 0, c1) /\
    forall s2, nxp_handshake_recv_crypto s1 NXP_CRYPTO_INITIAL hello = Done s2 ->
    exists reply s3 c3, nxp_handshake_fill_crypto s2 cap = Done (reply, Some 0, s3) /\
      nxp_handshake_recv_crypto c1 NXP_CRYPTO_INITIAL reply = Done c3 /\ ends_agree c3 s3 /\
      hs_state c3 = NXP_HS_WAIT_HANDSHAKE_DONE /\ hs_state s3 = NXP_HS_COMPLETE.
Proof.
  intros Hc Ho Hl Hpos Hb Htl Htr Hini Hh Hkeys Hs Hts Hcap. pose proof Hs as (_ & _ & His & Hrs & _).
  pose proof (unshaken_sent c Hc) as Huc. pose proof (unshaken_started s (crossed keys) Hs) as Hus.
  assert (initial_keys (c <| send_offset := send_len c |>) = crossed (crossed keys)) as Hx
    by (simpl; rewrite Hini; by destruct keys).
  exists (s <| initial_keys := crossed keys |> <| hs_state := NXP_HS_WAIT_CLIENT_HELLO |>),
    (c <| send_offset := send_len c |>).
  split; [by apply start_server_spec | split].
  - rewrite fill_all by (done || lia || apply Hc). by rewrite Hl, Hb.
  - intros s2 Hproc. destruct (hello_exchange _ _ s2 cap hello Huc Hus Hcap Hx Hts Hh Htl Htr Hproc)
      as (reply & s3 & c3 & Hf & Hp & Ha & Hst3 & Hst4 & _). by exists reply, s3, c3.
Qed.

End Agreement.

(** ** Properties *)

(** C25: the 1-RTT handshake makes the two ends agree.  When a client has started
    with the server's connection ID, the server starts too; if the server accepts
    the client's hello, the client accepts the server's reply and, after
    HANDSHAKE_DONE, both are complete: the sending keys of each end are the
    receiving keys of the other at the Initial, Handshake and application levels,
    master and resumption secrets are equal, the algorithm is the same, and each
    end holds the other's transport parameters (the idle timeout rounded down to
    milliseconds). *)
Theorem handshake_agreement `{OpenSSLLaws} kc ks pc ps dcid c0 s0 c1 cap :
  params_ok pc -> params_ok ps -> NXP_HS_BUF_SIZE <= cap ->
  nxp_handshake_create false (Some kc) = Some c0 -> nxp_handshake_create true (Some ks) = Some s0 ->
  nxp_handshake_start_client (nxp_handshake_set_local_params c0 pc) dcid = Done c1 ->
  exists s1 hello c2,
    nxp_handshake_start_server (nxp_handshake_set_local_params s0 ps) dcid = Done s1 /\
    nxp_handshake_fill_crypto c1 cap = Done (hello, Some 0, c2) /\
    forall s2, nxp_handshake_recv_crypto s1 NXP_CRYPTO_INITIAL hello = Done s2 ->
    exists reply s3 c3 c4,
      nxp_handshake_fill_crypto s2 cap = Done (reply, Some 0, s3) /\
      nxp_handshake_recv_crypto c2 NXP_CRYPTO_INITIAL reply = Done c3 /\
      nxp_handshake_on_handshake_done c3 = Done c4 /\
      nxp_handshake_is_complete c4 = true /\ nxp_handshake_is_complete s3 = true /\
      ends_agree c4 s3.
Proof.
  intros Hpc Hps Hcap Hc Hs Hst.
  destruct (create_unshaken _ _ _ pc Hc Hpc) as [Huc _]. destruct (create_unshaken _ _ _ ps Hs Hps) as [Hus Hts].
  pose proof Huc as (Hokc & Hpok & _). apply start_client_spec in Hst as (keys & Hkeys & ->); [| done..].
  destruct (client_waiting_fields _ keys Hokc Hpok) as
    (_ & Ho & Hl & Hpos & Hb & Htl & Htr & Hini & Hpub & _ & Hpar & _). rewrite <- Hpub, <- Hpar in *.
  destruct (sent_exchange _ _ dcid keys _ cap (unshaken_waiting _ keys Huc) Ho Hl Hpos Hb Htl Htr Hini eq_refl
    (initial_keys_fresh _ _ _ _ Hkeys) Hus Hts Hcap) as (s1 & c2 & Hss & Hf & Hx).
  eexists s1, _, c2. split; [exact Hss |]. split; [exact Hf |]. intros s2 Hs2.
  destruct (Hx s2 Hs2) as (reply & s3 & c3 & Hf2 & Hr2 & Ha & Hst3 & Hst4).
  exists reply, s3, c3, (c3 <| hs_state := NXP_HS_COMPLETE |>). split; [exact Hf2 |]. split; [exact Hr2 |].
  unfold nxp_handshake_on_handshake_done, nxp_handshake_is_complete. rewrite Hst3, Hst4. done.
Qed.

(** The bound on tickets in [hs_event_ok] is needed: nothing in the code
    compares the length of a ticket with the array it is decrypted into. *)
Theorem long_ticket_overflows `{OpenSSLLaws} hs dcid ticket key : hs_state hs = NXP_HS_IDLE -> hs_is_server hs = false ->
  NXP_TICKET_MAX_PLAINTEXT + NXP_AEAD_TAG_LEN + NXP_AEAD_IV_LEN < zlen ticket ->
  nxp_handshake_start_client_0rtt hs dcid ticket key = Ub.
Proof.
  intros Hst Hrole Hl. unfold nxp_handshake_start_client_0rtt, nxp_session_ticket_validate.
  rewrite Hst, Hrole, (open_token_overflow key ticket) by (done || exact Hl). simpl.
  by rewrite (proj2 (Z.ltb_ge _ _)) by (revert Hl; unfold NXP_TICKET_MAX_PLAINTEXT, NXP_AEAD_TAG_LEN, NXP_AEAD_IV_LEN, NXP_HASH_LEN; lia).
Qed.

(** C26: the handshake state machine is safe on every history with 0-RTT tickets
    of at most 524 bytes, longer ones being opened in an array of 512 bytes
    without a check.  From creation, whatever sequence of operations follows and
    whatever CRYPTO data arrives, no operation leaves its buffers; the transcript
    and the send buffer stay in bounds; client and server move only along the
    edges of their own state diagrams, a failing operation not at all; and a
    context that has left the idle state has Initial keys, one that has processed
    the peer's hello handshake and application keys. *)
Theorem handshake_safe `{OpenSSLLaws} hs ev : hs_reachable hs -> hs_event_ok ev ->
  hs_inv hs /\ hs_steps hs (hs_run hs ev).
Proof. intros Hr Hev. split; [by apply reachable_inv | apply hs_run_steps; [by apply reachable_inv | done]]. Qed.

(** ** Witnesses *)

Import Crypto.Sample.

Definition sample_params : nxp_transport_params := TransportParams 1048576 65536 100 10 30000500 0 4.

Definition sample_context (is_server : bool) (k : Z) : option nxp_handshake :=
  nxp_handshake_create is_server (Some (replicate 32 k)).

Lemma handshake_agreement_witness :
  exists c0 s0 c1, sample_context false 3 = Some c0 /\ sample_context true 5 = Some s0 /\
    nxp_handshake_start_client (nxp_handshake_set_local_params c0 sample_params) [1; 2; 3; 4] = Done c1 /\
    exists s1 hello c2,
      nxp_handshake_start_server (nxp_handshake_set_local_params s0 sample_params) [1; 2; 3; 4] = Done s1 /\
      nxp_handshake_fill_crypto c1 1200 = Done (hello, Some 0, c2) /\
      forall s2, nxp_handshake_recv_crypto s1 NXP_CRYPTO_INITIAL hello = Done s2 ->
      exists reply s3 c3 c4,
        nxp_handshake_fill_crypto s2 1200 = Done (reply, Some 0, s3) /\
        nxp_handshake_recv_crypto c2 NXP_CRYPTO_INITIAL reply = Done c3 /\
        nxp_handshake_on_handshake_done c3 = Done c4 /\
        nxp_handshake_is_complete c4 = true /\ nxp_handshake_is_complete s3 = true /\
        ends_agree c4 s3.
Proof.
  destruct (sample_context false 3) as [c0 |] eqn:Hc; [| exfalso; revert Hc; vm_compute; discriminate].
  destruct (sample_context true 5) as [s0 |] eqn:Hs; [| exfalso; revert Hs; vm_compute; discriminate].
  destruct (nxp_handshake_start_client (nxp_handshake_set_local_params c0 sample_params) [1; 2; 3; 4]) as [c1 | e |] eqn:Hst.
  - exists c0, s0, c1. split; [done |]. split; [done |]. split; [done |].
    apply (handshake_agreement (replicate 32 3) (replicate 32 5) sample_params sample_params [1; 2; 3; 4] c0);
      [by_compute | by_compute | by_compute | exact Hc | exact Hs | exact Hst].
  - exfalso. vm_compute in Hc. injection Hc as <-. revert Hst. vm_compute. discriminate.
  - exfalso. vm_compute in Hc. injection Hc as <-. revert Hst. vm_compute. discriminate.
Defined.

Lemma handshake_safe_witness :
  exists hs, hs_reachable hs /\ hs_state hs = NXP_HS_WAIT_CLIENT_HELLO /\
    hs_inv hs /\ hs_steps hs (hs_run hs (EvCrypto NXP_CRYPTO_INITIAL [1; 2; 3])).
Proof.
  destruct (sample_context true 5) as [s0 |] eqn:Hc; [| exfalso; revert Hc; vm_compute; discriminate].
  destruct (nxp_handshake_start_server s0 [1; 2; 3; 4]) as [s1 | e |] eqn:Hs.
  2,3: exfalso; revert Hs; assert (sample_context true 5 = Some s0) as Hc' by exact Hc;
    vm_compute in Hc'; injection Hc' as <-; vm_compute; discriminate.
  assert (hs_reachable s1) as Hr.
  { apply (hs_stepped s0 (EvStartServer [1; 2; 3; 4])); [exact (hs_created true _ _ Hc) | done |].
    cbn [hs_run]. by rewrite Hs. }
  exists s1. split; [exact Hr |]. split.
  - revert Hs. vm_compute in Hc. injection Hc as <-. vm_compute. intros Hs. injection Hs as <-. reflexivity.
  - apply (handshake_safe s1 (EvCrypto NXP_CRYPTO_INITIAL [1; 2; 3])); [exact Hr | by apply all_bytes_ok].
Defined.
