(* ===== verification/Connection.v ===== *)
(** * The connection engine (src/src/core/connection.c, connection_internal.h)

    State, life cycle, stream operations, timers, and the processing of incoming
    datagrams.  An operation that fails returns its error code and the connection
    it leaves, because the code keeps what it has already changed.

    The stream table is the finite map that [HashMap] implements; the node of a
    stream in the scheduler's list is addressed by the stream's id.  Allocation
    outcomes are parameters.  The application's callbacks are not run: a call is
    recorded in [cn_notices].  The statistics [cwnd] and [handshake_time_us] are
    never written by the engine and are left out. *)

From stdpp Require Import gmap.
From S2P Require Import Prelude Types Varint Codec Frame Packet Pacing DeliveryRate Bbr Ack.
From S2P Require Import Flow Stream LinkedList Scheduler Heartbeat Migration Crypto Tokens.
From S2P Require Import Handshake.

Definition NXP_PACKET_BUF_SIZE : Z := 1536.
Definition NXP_MAX_STREAMS_DEFAULT : Z := 256.
Definition NXP_DEFAULT_MAX_DATA : Z := 1024 * 1024.
Definition NXP_DEFAULT_MAX_STREAM_DATA : Z := 256 * 1024.
Definition NXP_DEFAULT_IDLE_TIMEOUT : Z := 30 * 1000000.

Record nxp_conn_stats := ConnStats {
  st_bytes_sent : Z;
  st_bytes_recv : Z;
  st_packets_sent : Z;
  st_packets_recv : Z;
  st_packets_lost : Z;
  st_rtt_min_us : Z;
  st_rtt_smoothed_us : Z;
  st_rtt_var_us : Z;
  st_bytes_in_flight : Z;
  st_streams_opened : Z
}.
#[export] Instance eta_conn_stats : Eta nxp_conn_stats := fun s =>
  ConnStats (st_bytes_sent s) (st_bytes_recv s) (st_packets_sent s) (st_packets_recv s)
    (st_packets_lost s) (st_rtt_min_us s) (st_rtt_smoothed_us s) (st_rtt_var_us s)
    (st_bytes_in_flight s) (st_streams_opened s).
Definition stats_zero : nxp_conn_stats := ConnStats 0 0 0 0 0 0 0 0 0 0.

Record nxp_conn_config := ConnConfig {
  cf_scid : nxp_conn_id;
  cf_peer_addr : list Z;
  cf_idle_timeout_us : Z;
  cf_initial_max_data : Z;
  cf_initial_max_stream_data : Z;
  cf_max_streams_bidi : Z;
  cf_max_streams_uni : Z
}.

(** Calls of the application's callbacks. *)
Inductive conn_notice : Type :=
| NewStream (stream_id : Z)
| Writable (callback stream_id : Z).

Record nxp_conn := Conn {
  cn_scid : nxp_conn_id;
  cn_dcid : nxp_conn_id;
  cn_state : nxp_conn_state;
  cn_is_server : bool;
  cn_peer_addr : list Z;
  cn_next_pkt_num : Z;
  cn_ack : nxp_ack_state;
  cn_crypto : nxp_crypto_state;
  cn_handshake : option nxp_handshake;
  cn_migration : nxp_migration_state;
  cn_cc_state : option nxp_bbr;
  cn_pacer : Pacer.nxp_pacer;
  cn_delivery_rate : nxp_delivery_rate;
  cn_heartbeat : nxp_heartbeat;
  cn_auto_reconnect : bool;
  cn_max_reconnect_attempts : Z;
  cn_streams : gmap Z nxp_stream_s;
  cn_next_bidi_id : Z;
  cn_next_uni_id : Z;
  cn_local_max_streams_bidi : Z;
  cn_local_max_streams_uni : Z;
  cn_peer_max_streams_bidi : Z;
  cn_peer_max_streams_uni : Z;
  cn_open_bidi_count : Z;
  cn_open_uni_count : Z;
  cn_conn_flow : nxp_flow_ctrl;
  cn_sched : nxp_sched;
  cn_initial_max_stream_data : Z;
  cn_idle_timeout_us : Z;
  cn_last_activity_us : Z;
  cn_send_ping : bool;
  cn_send_conn_close : bool;
  cn_close_error_code : Z;
  cn_on_new_stream : bool;
  cn_stats : nxp_conn_stats;
  cn_notices : list conn_notice
}.
#[export] Instance eta_conn : Eta nxp_conn := fun c =>
  Conn (cn_scid c) (cn_dcid c) (cn_state c) (cn_is_server c) (cn_peer_addr c) (cn_next_pkt_num c)
    (cn_ack c) (cn_crypto c) (cn_handshake c) (cn_migration c) (cn_cc_state c) (cn_pacer c)
    (cn_delivery_rate c) (cn_heartbeat c) (cn_auto_reconnect c) (cn_max_reconnect_attempts c)
    (cn_streams c) (cn_next_bidi_id c) (cn_next_uni_id c) (cn_local_max_streams_bidi c)
    (cn_local_max_streams_uni c) (cn_peer_max_streams_bidi c) (cn_peer_max_streams_uni c)
    (cn_open_bidi_count c) (cn_open_uni_count c) (cn_conn_flow c) (cn_sched c)
    (cn_initial_max_stream_data c) (cn_idle_timeout_us c) (cn_last_activity_us c) (cn_send_ping c)
    (cn_send_conn_close c) (cn_close_error_code c) (cn_on_new_stream c) (cn_stats c) (cn_notices c).

(** Named setters keep the terms of long sequences of assignments small. *)
#[export] Instance set_scid : Assign cn_scid := ltac:(solve_assign).
#[export] Instance set_dcid : Assign cn_dcid := ltac:(solve_assign).
#[export] Instance set_state : Assign cn_state := ltac:(solve_assign).
#[export] Instance set_is_server : Assign cn_is_server := ltac:(solve_assign).
#[export] Instance set_peer_addr : Assign cn_peer_addr := ltac:(solve_assign).
#[export] Instance set_next_pkt_num : Assign cn_next_pkt_num := ltac:(solve_assign).
#[export] Instance set_ack : Assign cn_ack := ltac:(solve_assign).
#[export] Instance set_crypto : Assign cn_crypto := ltac:(solve_assign).
#[export] Instance set_handshake : Assign cn_handshake := ltac:(solve_assign).
#[export] Instance set_migration : Assign cn_migration := ltac:(solve_assign).
#[export] Instance set_cc_state : Assign cn_cc_state := ltac:(solve_assign).
#[export] Instance set_pacer : Assign cn_pacer := ltac:(solve_assign).
#[export] Instance set_delivery_rate : Assign cn_delivery_rate := ltac:(solve_assign).
#[export] Instance set_heartbeat : Assign cn_heartbeat := ltac:(solve_assign).
#[export] Instance set_auto_reconnect : Assign cn_auto_reconnect := ltac:(solve_assign).
#[export] Instance set_max_reconnect_attempts : Assign cn_max_reconnect_attempts := ltac:(solve_assign).
#[export] Instance set_streams : Assign cn_streams := ltac:(solve_assign).
#[export] Instance set_next_bidi_id : Assign cn_next_bidi_id := ltac:(solve_assign).
#[export] Instance set_next_uni_id : Assign cn_next_uni_id := ltac:(solve_assign).
#[export] Instance set_local_max_streams_bidi : Assign cn_local_max_streams_bidi := ltac:(solve_assign).
#[export] Instance set_local_max_streams_uni : Assign cn_local_max_streams_uni := ltac:(solve_assign).
#[export] Instance set_peer_max_streams_bidi : Assign cn_peer_max_streams_bidi := ltac:(solve_assign).
#[export] Instance set_peer_max_streams_uni : Assign cn_peer_max_streams_uni := ltac:(solve_assign).
#[export] Instance set_open_bidi_count : Assign cn_open_bidi_count := ltac:(solve_assign).
#[export] Instance set_open_uni_count : Assign cn_open_uni_count := ltac:(solve_assign).
#[export] Instance set_conn_flow : Assign cn_conn_flow := ltac:(solve_assign).
#[export] Instance set_sched : Assign cn_sched := ltac:(solve_assign).
#[export] Instance set_initial_max_stream_data : Assign cn_initial_max_stream_data := ltac:(solve_assign).
#[export] Instance set_idle_timeout_us : Assign cn_idle_timeout_us := ltac:(solve_assign).
#[export] Instance set_last_activity_us : Assign cn_last_activity_us := ltac:(solve_assign).
#[export] Instance set_send_ping : Assign cn_send_ping := ltac:(solve_assign).
#[export] Instance set_send_conn_close : Assign cn_send_conn_close := ltac:(solve_assign).
#[export] Instance set_close_error_code : Assign cn_close_error_code := ltac:(solve_assign).
#[export] Instance set_on_new_stream : Assign cn_on_new_stream := ltac:(solve_assign).
#[export] Instance set_stats : Assign cn_stats := ltac:(solve_assign).
#[export] Instance set_notices : Assign cn_notices := ltac:(solve_assign).

Definition conn_result : Type := outcome (nxp_error_code * nxp_conn) nxp_conn.

(** Which allocations succeed: the stream with an id, its entry in the table. *)
Class Allocator : Type := {
  alloc_stream : Z -> bool;
  put_stream : Z -> bool
}.

(** ** Connection state *)

Definition is_valid_conn_state_transition (from to : nxp_conn_state) : bool :=
  if bool_decide (to = NXP_CONN_CLOSED) then true else
  match from with
  | NXP_CONN_IDLE =>
      bool_decide (to = NXP_CONN_HANDSHAKE_INITIAL) || bool_decide (to = NXP_CONN_ESTABLISHED)
  | NXP_CONN_HANDSHAKE_INITIAL =>
      bool_decide (to = NXP_CONN_HANDSHAKE_IN_PROGRESS) || bool_decide (to = NXP_CONN_ESTABLISHED) ||
      bool_decide (to = NXP_CONN_HANDSHAKE_INITIAL)
  | NXP_CONN_HANDSHAKE_IN_PROGRESS => bool_decide (to = NXP_CONN_ESTABLISHED)
  | NXP_CONN_ESTABLISHED =>
      bool_decide (to = NXP_CONN_CLOSING) || bool_decide (to = NXP_CONN_DRAINING) ||
      bool_decide (to = NXP_CONN_ESTABLISHED)
  | NXP_CONN_CLOSING => bool_decide (to = NXP_CONN_DRAINING) || bool_decide (to = NXP_CONN_CLOSED)
  | NXP_CONN_DRAINING => bool_decide (to = NXP_CONN_CLOSED)
  | NXP_CONN_CLOSED => false
  end.

Definition set_conn_state (conn : nxp_conn) (new_state : nxp_conn_state) : nxp_conn :=
  if negb (is_valid_conn_state_transition (cn_state conn) new_state) then conn
  else conn <| cn_state := new_state |>.

(** ** Callbacks of acknowledgement processing

    The acknowledgement state that [conn->ack] has at the moment of the call is
    the argument [ack]; the copy in [conn] is out of date until the caller
    stores the final one. *)

(** Acknowledge one recorded STREAM frame, and wake a blocked writer. *)
Definition ack_frame (conn : nxp_conn) (rec : nxp_stream_frame_record) : nxp_conn :=
  match cn_streams conn !! fr_stream_id rec with
  | None => conn
  | Some s =>
      let s := nxp_stream_on_ack s (fr_offset rec) (fr_len rec) (fr_fin rec) in
      match blocked s, on_writable s with
      | true, Some callback =>
          conn <| cn_streams := <[fr_stream_id rec := s <| blocked := false |>]> (cn_streams conn) |>
               <| cn_notices := cn_notices conn ++ [Writable callback (fr_stream_id rec)] |>
      | _, _ => conn <| cn_streams := <[fr_stream_id rec := s]> (cn_streams conn) |>
      end
  end.

Definition on_packet_acked (conn : nxp_conn) (ack : nxp_ack_state) (pkt : nxp_sent_pkt) : nxp_conn :=
  let conn := conn <| cn_stats := cn_stats conn <| st_packets_sent := u64 (st_packets_sent (cn_stats conn) + 1) |> |> in
  let conn := foldl ack_frame conn (frames pkt) in
  match cn_cc_state conn with
  | None => conn
  | Some cc =>
      let now_us := u64 (sent_time pkt + latest_rtt ack) in
      let dr := nxp_dr_on_packet_acked (cn_delivery_rate conn) (dr_state pkt) (sent_bytes pkt) now_us in
      let info := CcAckInfo (pkt_num pkt) (sent_bytes pkt) (sent_time pkt) now_us (latest_rtt ack)
                    (min_rtt ack) (Ack.bytes_in_flight ack) (rate_sample_bps dr)
                    (DeliveryRate.round_count dr) (rate_is_app_limited dr) (DeliveryRate.round_start dr) in
      let cc := cc_on_ack _ nxp_cc_bbr cc info in
      conn <| cn_delivery_rate := dr |> <| cn_cc_state := Some cc |>
           <| cn_pacer := Pacer.nxp_pacer_set_rate (cn_pacer conn) (cc_get_pacing_rate _ nxp_cc_bbr cc) |>
  end.

Definition sched_add (conn : nxp_conn) (id : Z) : conn_result :=
  match nxp_sched_add (cn_sched conn) id with
  | Done q => Done (conn <| cn_sched := q |>)
  | Err e => Err (e, conn)
  | Ub => Ub
  end.

(** Rewind a stream for one recorded STREAM frame and schedule it again. *)
Definition lose_frame (r : conn_result) (rec : nxp_stream_frame_record) : conn_result :=
  let! conn := r in
  match cn_streams conn !! fr_stream_id rec with
  | None => Done conn
  | Some s =>
      let s := nxp_stream_on_loss s (fr_offset rec) (fr_len rec) (fr_fin rec) in
      sched_add (conn <| cn_streams := <[fr_stream_id rec := s]> (cn_streams conn) |>) (fr_stream_id rec)
  end.

Definition on_packet_lost (conn : nxp_conn) (ack : nxp_ack_state) (pkt : nxp_sent_pkt) : conn_result :=
  let conn := conn <| cn_stats := cn_stats conn <| st_packets_lost := u64 (st_packets_lost (cn_stats conn) + 1) |> |> in
  let! conn := foldl lose_frame (Done conn) (frames pkt) in
  match cn_cc_state conn with
  | None => Done conn
  | Some cc =>
      let info := CcLossInfo (sent_bytes pkt) (sent_time pkt) (Ack.bytes_in_flight ack) in
      Done (conn <| cn_cc_state := Some (cc_on_loss _ nxp_cc_bbr cc info) |>)
  end.

(** The two callbacks over a context that may already have failed. *)
Definition acked_cb (r : conn_result) (ack : nxp_ack_state) (pkt : nxp_sent_pkt) : conn_result :=
  let! conn := r in Done (on_packet_acked conn ack pkt).
Definition lost_cb (r : conn_result) (ack : nxp_ack_state) (pkt : nxp_sent_pkt) : conn_result :=
  let! conn := r in on_packet_lost conn ack pkt.

(** ** Stream identifiers *)

(** [type] as the number of its enumerator. *)
Definition stream_type_code (type : nxp_stream_type) : Z :=
  match type with
  | NXP_STREAM_RELIABLE => 0
  | NXP_STREAM_FAST => 1
  | NXP_STREAM_MEDIA => 2
  | NXP_STREAM_FILE => 3
  end.

Definition make_stream_id (seq : Z) (type : nxp_stream_type) (unidirectional is_server : bool) : Z :=
  let id := u64 (seq <<< 4) in
  let id := id ||| ((stream_type_code type &&& 0x3) <<< 2) in
  let id := if unidirectional then id ||| 0x2 else id in
  if is_server then id ||| 0x1 else id.

Definition stream_id_is_local (stream_id : Z) (is_server : bool) : bool :=
  Bool.eqb (negb (stream_id &&& 0x1 =? 0)) is_server.

(** ** Creation *)

Definition or_default (v d : Z) : Z := if v =? 0 then d else v.
Definition cid_none : nxp_conn_id := ConnId (replicate 20 0) 0.

(** [alloc_ok]: the connection and its table are allocated; [cc_ok]: the
    congestion controller is; [sent_ok]: the array of sent packets is (the failure
    of the last two is not checked). *)
Definition nxp_conn_create (alloc_ok cc_ok sent_ok : bool) (config : nxp_conn_config) (is_server : bool) : option nxp_conn :=
  if negb alloc_ok then None else
  let local_max := or_default (cf_initial_max_data config) NXP_DEFAULT_MAX_DATA in
  Some (Conn (cf_scid config) cid_none NXP_CONN_IDLE is_server (cf_peer_addr config) 0
    (nxp_ack_init sent_ok) crypto_zero None nxp_migration_init
    (if cc_ok then Some (cc_create _ nxp_cc_bbr) else None) Pacer.nxp_pacer_init nxp_dr_init
    (nxp_heartbeat_init 0) false 3 ∅ 0 0
    (cf_max_streams_bidi config) (cf_max_streams_uni config)
    (or_default (cf_max_streams_bidi config) NXP_MAX_STREAMS_DEFAULT)
    (or_default (cf_max_streams_uni config) NXP_MAX_STREAMS_DEFAULT)
    0 0 (nxp_flow_init local_max local_max) (sched_empty ∅)
    (or_default (cf_initial_max_stream_data config) NXP_DEFAULT_MAX_STREAM_DATA)
    (or_default (cf_idle_timeout_us config) NXP_DEFAULT_IDLE_TIMEOUT)
    0 false false 0 false stats_zero []).

Definition nxp_conn_set_established (conn : nxp_conn) (dcid : nxp_conn_id) : nxp_conn :=
  set_conn_state (conn <| cn_dcid := dcid |>) NXP_CONN_ESTABLISHED.

(** ** Incoming frames *)

(** Every frame has at least one byte, so the length is enough fuel; the same
    loop serves 1-RTT and handshake packets. *)
Section FrameLoop.
  Variable handle : nxp_conn -> nxp_frame -> conn_result.

Fixpoint frames_loop (fuel : nat) (conn : nxp_conn) (payload : list Z) (pos : Z) : conn_result :=
  if negb (pos <? zlen payload) then Done conn else
  match fuel with
  | O => Ub
  | S fuel =>
      match nxp_frame_decode (zdrop pos payload) with
      | Done (frame, consumed) =>
          let! conn := handle conn frame in
          frames_loop fuel conn payload (pos + consumed)
      | Err _ => Err (NXP_ERR_INVALID_FRAME, conn)
      | Ub => Ub
      end
  end.

End FrameLoop.

(** Apply the peer's transport parameters. *)
Definition apply_peer_params (conn : nxp_conn) (hs : nxp_handshake) : nxp_conn :=
  if negb (has_peer_params hs) then conn else
  let tp := peer_params hs in
  let conn := if tp_initial_max_data tp >? 0
              then conn <| cn_conn_flow := nxp_flow_set_peer_max (cn_conn_flow conn) (tp_initial_max_data tp) |>
              else conn in
  let conn := if tp_max_streams_bidi tp >? 0
              then conn <| cn_peer_max_streams_bidi := tp_max_streams_bidi tp |> else conn in
  if tp_max_streams_uni tp >? 0
  then conn <| cn_peer_max_streams_uni := tp_max_streams_uni tp |> else conn.

Definition on_ack_frame (conn : nxp_conn) (f : nxp_frame_ack) (now_us : Z) : conn_result :=
  let '(ack, r) := nxp_ack_on_ack_recv acked_cb lost_cb (cn_ack conn) f now_us (Done conn) in
  let! conn := r in
  let st := cn_stats conn <| st_rtt_smoothed_us := smoothed_rtt ack |> <| st_rtt_var_us := rtt_var ack |> in
  let st := if negb (min_rtt ack =? UINT64_MAX) then st <| st_rtt_min_us := min_rtt ack |> else st in
  Done (conn <| cn_ack := ack |> <| cn_stats := st <| st_bytes_in_flight := Ack.bytes_in_flight ack |> |>).

Definition on_max_stream_data (conn : nxp_conn) (id max : Z) : conn_result :=
  match cn_streams conn !! id with
  | None => Done conn
  | Some s =>
      let s := s <| flow := nxp_flow_set_peer_max (flow s) max |> in
      let conn := conn <| cn_streams := <[id := s]> (cn_streams conn) |> in
      if nxp_stream_unsent s >? 0 then sched_add conn id else Done conn
  end.

(** A HANDSHAKE_DONE in a 1-RTT packet; an unexpected one is ignored. *)
Definition on_handshake_done_frame (conn : nxp_conn) : nxp_conn :=
  match cn_handshake conn with
  | None => conn
  | Some hs =>
      match nxp_handshake_on_handshake_done hs with
      | Done hs =>
          let conn := set_conn_state (conn <| cn_handshake := Some hs |>) NXP_CONN_ESTABLISHED in
          apply_peer_params conn hs
      | _ => conn
      end
  end.

Definition on_path_response_frame (conn : nxp_conn) (data : list Z) : nxp_conn :=
  let '(m, valid) := nxp_migration_on_path_response (cn_migration conn) data in
  let conn := conn <| cn_migration := m |> in
  if negb valid then conn else
  let conn := conn <| cn_peer_addr := path_addr (current_path m) |> in
  match nxp_migration_get_unused_cid m with
  | None => conn
  | Some new_cid =>
      conn <| cn_dcid := ce_cid new_cid |>
           <| cn_migration := nxp_migration_use_cid m (ce_seq_num new_cid) |>
  end.

Definition on_new_token (conn : nxp_conn) (token_len : Z) (token : option (list Z)) : conn_result :=
  match cn_is_server conn, cn_handshake conn with
  | false, Some hs =>
      if token_len <=? 256 then
        let! ticket := memcpy (session_ticket hs) 0 (ptr_bytes token) token_len in
        Done (conn <| cn_handshake := Some (hs <| session_ticket := ticket |>
                <| session_ticket_len := token_len |> <| has_session_ticket := true |>) |>)
      else Done conn
  | _, _ => Done conn
  end.

Section Engine.
Context `{Allocator} `{OpenSSL}.

(** Deliver a frame to the stream [s]; [stored] says whether [s] is in the table. *)
Definition deliver (conn : nxp_conn) (stored : bool) (s : nxp_stream_s) (f : nxp_frame_stream) : conn_result :=
  match nxp_stream_on_recv s f with
  | Done s => Done (if stored then conn <| cn_streams := <[sf_stream_id f := s]> (cn_streams conn) |> else conn)
  | Err e => Err (e, conn)
  | Ub => Ub
  end.

(** Enter a new stream into the table; its list node is not linked. *)
Definition store_stream (conn : nxp_conn) (id : Z) (s : nxp_stream_s) : nxp_conn :=
  if put_stream id then
    conn <| cn_streams := <[id := s]> (cn_streams conn) |>
         <| cn_sched := cn_sched conn <| links := <[id := Node None None]> (links (cn_sched conn)) |> |>
  else conn.

Definition count_stream (conn : nxp_conn) : nxp_conn :=
  conn <| cn_stats := cn_stats conn <| st_streams_opened := u64 (st_streams_opened (cn_stats conn) + 1) |> |>.

Definition on_stream_frame (conn : nxp_conn) (f : nxp_frame_stream) : conn_result :=
  let id := sf_stream_id f in
  match cn_streams conn !! id with
  | Some s => deliver conn true s f
  | None =>
      return_if stream_id_is_local id (cn_is_server conn) with (NXP_ERR_INVALID_FRAME, conn) ;;
      match nxp_stream_create (alloc_stream id) id NXP_STREAM_RELIABLE
              (cn_initial_max_stream_data conn) (cn_initial_max_stream_data conn) with
      | None => Err (NXP_ERR_OUT_OF_MEMORY, conn)
      | Some s =>
          let conn := count_stream (store_stream conn id s) in
          let conn := if cn_on_new_stream conn
                      then conn <| cn_notices := cn_notices conn ++ [NewStream id] |> else conn in
          deliver conn (put_stream id) s f
      end
  end.

(** The [switch] of [process_frames]. *)
Definition on_frame (now_us : Z) (conn : nxp_conn) (frame : nxp_frame) : conn_result :=
  match frame with
  | FAck f => on_ack_frame conn f now_us
  | FStream f => on_stream_frame conn f
  | FMaxData m => Done (conn <| cn_conn_flow := nxp_flow_set_peer_max (cn_conn_flow conn) m |>)
  | FMaxStreamData id m => on_max_stream_data conn id m
  | FMaxStreams m true => Done (conn <| cn_peer_max_streams_bidi := u32 m |>)
  | FMaxStreams m false => Done (conn <| cn_peer_max_streams_uni := u32 m |>)
  | FConnectionClose _ => Done (set_conn_state conn NXP_CONN_DRAINING)
  | FHandshakeDone => Done (on_handshake_done_frame conn)
  | FPathChallenge d =>
      Done (conn <| cn_migration := nxp_migration_on_path_challenge (cn_migration conn) d |>)
  | FPathResponse d => Done (on_path_response_frame conn d)
  | FNewConnectionId f =>
      Done (conn <| cn_migration := nxp_migration_on_new_connection_id (cn_migration conn) (nc_cid f)
                      (nc_seq_num f) (nc_retire_prior_to f) (nc_reset_token f) |>)
  | FRetireConnectionId seq =>
      Done (conn <| cn_migration := nxp_migration_on_retire_connection_id (cn_migration conn) seq |>)
  | FNewToken n token => on_new_token conn n token
  | FHeartbeat t => Done (conn <| cn_heartbeat := nxp_heartbeat_on_recv (cn_heartbeat conn) t now_us |>)
  | FPadding _ | FPing | FResetStream _ _ _ | FStopSending _ _ | FCrypto _ | FDataBlocked _
  | FStreamDataBlocked _ _ | FStreamsBlocked _ _ | FStreamPriority _ _ | FDatagram _ _ => Done conn
  end.

Definition process_frames (conn : nxp_conn) (payload : list Z) (now_us : Z) : conn_result :=
  frames_loop (on_frame now_us) (length payload) conn payload 0.

(** ** Incoming packets *)

(** A copy into [pkt_buf], which holds 1536 bytes. *)
Definition copy_packet (conn : nxp_conn) (data : list Z) : outcome (nxp_error_code * nxp_conn) (list Z) :=
  return_if zlen data >? NXP_PACKET_BUF_SIZE with (NXP_ERR_INVALID_PACKET, conn) ;;
  Done data.

Definition or_crypto_fail {A} (conn : nxp_conn) (m : outcome unit A) : outcome (nxp_error_code * nxp_conn) A :=
  or_fail m (NXP_ERR_CRYPTO_FAIL, conn).

(** Authenticate and decrypt what follows the [hdr_len] bytes of the header. *)
Definition open_packet (conn : nxp_conn) (keys : nxp_crypto_state) (pkt_buf : list Z) (hdr_len full_pn : Z)
  : outcome (nxp_error_code * nxp_conn) (list Z) :=
  let! aad := sub_buf pkt_buf 0 hdr_len in
  let! ct := sub_buf pkt_buf hdr_len (zlen pkt_buf - hdr_len) in
  let nonce := nxp_crypto_make_nonce (ck_iv (cs_recv keys)) full_pn in
  or_crypto_fail conn
    (nxp_aead_decrypt (cs_algo keys) (ck_key (cs_recv keys)) nonce aad ct NXP_PACKET_BUF_SIZE).

(** Learn the peer's connection ID from a long header. *)
Definition learn_dcid (conn : nxp_conn) (lhdr : nxp_pkt_long_header) : nxp_conn :=
  let initial := bool_decide (lh_type lhdr = NXP_PKT_INITIAL) in
  let handshake := bool_decide (lh_type lhdr = NXP_PKT_HANDSHAKE) in
  let conn := if cn_is_server conn && initial && (cid_len (cn_dcid conn) =? 0)
              then conn <| cn_dcid := lh_scid lhdr |> else conn in
  if negb (cn_is_server conn) && (initial || handshake)
  then conn <| cn_dcid := lh_scid lhdr |> else conn.

(** A CRYPTO frame: feed the handshake, install the application keys as soon as
    they exist, and become established when it is complete. *)
Definition on_crypto_frame (level : nxp_crypto_level) (conn : nxp_conn) (f : nxp_frame_crypto) : conn_result :=
  match cn_handshake conn with
  | None => Ub
  | Some hs =>
      match nxp_handshake_recv_crypto hs level (ptr_bytes (cr_data f)) with
      | Ub => Ub
      | Err (e, hs) => Err (e, conn <| cn_handshake := Some hs |>)
      | Done hs =>
          let conn := conn <| cn_handshake := Some hs |> in
          let conn := if cs_available (app_keys hs) && negb (cs_available (cn_crypto conn))
                      then conn <| cn_crypto := app_keys hs |> else conn in
          Done (if nxp_handshake_is_complete hs
                then apply_peer_params (set_conn_state conn NXP_CONN_ESTABLISHED) hs else conn)
      end
  end.

Definition on_long_handshake_done (conn : nxp_conn) : conn_result :=
  match cn_handshake conn with
  | None => Ub
  | Some hs =>
      match nxp_handshake_on_handshake_done hs with
      | Ub => Ub
      | Err (e, hs) => Err (e, conn <| cn_handshake := Some hs |>)
      | Done hs =>
          let conn := conn <| cn_handshake := Some hs |> <| cn_crypto := app_keys hs |> in
          Done (apply_peer_params (set_conn_state conn NXP_CONN_ESTABLISHED) hs)
      end
  end.

Definition on_handshake_frame (level : nxp_crypto_level) (conn : nxp_conn) (frame : nxp_frame) : conn_result :=
  match frame with
  | FCrypto f => on_crypto_frame level conn f
  | FHandshakeDone => on_long_handshake_done conn
  | _ => Done conn
  end.

(** Level and keys of a long header's packet type. *)
Definition level_keys (hs : nxp_handshake) (type : nxp_packet_type) : option (nxp_crypto_level * nxp_crypto_state) :=
  match type with
  | NXP_PKT_INITIAL => Some (NXP_CRYPTO_INITIAL, initial_keys hs)
  | NXP_PKT_HANDSHAKE => Some (NXP_CRYPTO_HANDSHAKE, handshake_keys hs)
  | _ => None
  end.

Definition recv_handshake_packet (conn : nxp_conn) (data : list Z) : conn_result :=
  match cn_handshake conn with
  | None => Err (NXP_ERR_INVALID_PACKET, conn)
  | Some hs =>
      let! pkt_buf := copy_packet conn data in
      match nxp_pkt_decode_long_header pkt_buf with
      | Ub => Ub
      | Err e => Err (e, conn)
      | Done lhdr =>
          let conn := learn_dcid conn lhdr in
          match level_keys hs (lh_type lhdr) with
          | None => Err (NXP_ERR_INVALID_PACKET, conn)
          | Some (level, keys) =>
              return_if negb (cs_available keys) with (NXP_ERR_CRYPTO_FAIL, conn) ;;
              let! (pn_len, pkt_buf) := or_crypto_fail conn
                (nxp_hp_unprotect (cs_algo keys) (ck_hp_key (cs_recv keys)) pkt_buf (lh_pkt_num_offset lhdr)) in
              let! (trunc_pn, _) := or_crypto_fail conn
                (read_pkt_num (Z.to_nat pn_len) 0 pkt_buf (lh_pkt_num_offset lhdr)) in
              let full_pn := nxp_pkt_decode_pkt_num 0 trunc_pn pn_len in
              let! pt := open_packet conn keys pkt_buf (lh_pkt_num_offset lhdr + pn_len) full_pn in
              frames_loop (on_handshake_frame level) (length pt) conn pt 0
          end
      end
  end.

(** A 1-RTT packet, after the copy. *)
Definition recv_short_packet (conn : nxp_conn) (pkt_buf : list Z) (now_us : Z) : conn_result :=
  let crypto := cn_crypto conn in
  let! pkt_buf :=
    if cs_available crypto then
      let! (_, pkt_buf) := or_crypto_fail conn
        (nxp_hp_unprotect (cs_algo crypto) (ck_hp_key (cs_recv crypto)) pkt_buf (1 + cid_len (cn_scid conn))) in
      Done pkt_buf
    else Done pkt_buf in
  match nxp_pkt_decode_short_header pkt_buf (cid_len (cn_scid conn)) with
  | Ub => Ub
  | Err _ => Err (NXP_ERR_INVALID_PACKET, conn)
  | Done shdr =>
      let full_pn := nxp_pkt_decode_pkt_num (largest_recv_pn (cn_ack conn)) (sh_pkt_num shdr) (sh_pkt_num_len shdr) in
      let conn := conn <| cn_ack := nxp_ack_on_pkt_recv (cn_ack conn) full_pn now_us true |> in
      let! payload :=
        if cs_available crypto then open_packet conn crypto pkt_buf (sh_header_len shdr) full_pn
        else sub_buf pkt_buf (sh_header_len shdr) (zlen pkt_buf - sh_header_len shdr) in
      process_frames conn payload now_us
  end.

Definition nxp_conn_recv (conn : nxp_conn) (data : list Z) (now_us : Z) : conn_result :=
  return_if zlen data =? 0 with (NXP_ERR_INVALID_ARGUMENT, conn) ;;
  return_if bool_decide (cn_state conn = NXP_CONN_CLOSED) || bool_decide (cn_state conn = NXP_CONN_DRAINING)
    with (NXP_ERR_CONNECTION_CLOSED, conn) ;;
  let conn := conn <| cn_last_activity_us := now_us |>
    <| cn_stats := cn_stats conn <| st_bytes_recv := u64 (st_bytes_recv (cn_stats conn) + zlen data) |>
         <| st_packets_recv := u64 (st_packets_recv (cn_stats conn) + 1) |> |> in
  let! first := rd data 0 in
  if nxp_pkt_is_long_header first then recv_handshake_packet conn data else
  let! pkt_buf := copy_packet conn data in
  recv_short_packet conn pkt_buf now_us.

(** ** Handshake start *)

(** [random] is the private key drawn by the key generation. *)
Definition nxp_conn_start_handshake (conn : nxp_conn) (peer_cid : nxp_conn_id) (random : option (list Z)) : conn_result :=
  return_if negb (bool_decide (cn_state conn = NXP_CONN_IDLE)) with (NXP_ERR_INVALID_ARGUMENT, conn) ;;
  match nxp_handshake_create (cn_is_server conn) random with
  | None => Err (NXP_ERR_OUT_OF_MEMORY, conn)
  | Some hs =>
      let tp := TransportParams (local_max_data (cn_conn_flow conn)) (cn_initial_max_stream_data conn)
                  (cn_local_max_streams_bidi conn) (cn_local_max_streams_uni conn)
                  (cn_idle_timeout_us conn) 0 0 in
      let hs := nxp_handshake_set_local_params hs tp in
      let '(conn, r) :=
        if cn_is_server conn
        then (conn, nxp_handshake_start_server hs (cid_bytes peer_cid))
        else (conn <| cn_dcid := peer_cid |>, nxp_handshake_start_client hs (cid_bytes peer_cid)) in
      let conn := set_conn_state conn NXP_CONN_HANDSHAKE_INITIAL in
      match r with
      | Done hs => Done (conn <| cn_handshake := Some hs |>)
      | Err (e, _) => Err (e, set_conn_state conn NXP_CONN_IDLE)
      | Ub => Ub
      end
  end.

(** ** Stream operations *)

Definition nxp_conn_open_stream (conn : nxp_conn) (type : nxp_stream_type) (unidirectional : bool)
  : outcome (nxp_error_code * nxp_conn) (Z * nxp_conn) :=
  return_if (if unidirectional then cn_open_uni_count conn >=? cn_peer_max_streams_uni conn
             else cn_open_bidi_count conn >=? cn_peer_max_streams_bidi conn)
    with (NXP_ERR_STREAM_LIMIT, conn) ;;
  let seq := if unidirectional then cn_next_uni_id conn else cn_next_bidi_id conn in
  let id := make_stream_id seq type unidirectional (cn_is_server conn) in
  match nxp_stream_create (alloc_stream id) id type
          (cn_initial_max_stream_data conn) (cn_initial_max_stream_data conn) with
  | None => Err (NXP_ERR_OUT_OF_MEMORY, conn)
  | Some s =>
      let conn := store_stream conn id s in
      let conn :=
        if unidirectional
        then conn <| cn_next_uni_id := u64 (cn_next_uni_id conn + 1) |>
                  <| cn_open_uni_count := u32 (cn_open_uni_count conn + 1) |>
        else conn <| cn_next_bidi_id := u64 (cn_next_bidi_id conn + 1) |>
                  <| cn_open_bidi_count := u32 (cn_open_bidi_count conn + 1) |> in
      Done (id, count_stream conn)
  end.

End Engine.

(** Returns -1, or the number of bytes accepted. *)
Definition nxp_conn_stream_send (conn : nxp_conn) (stream_id : Z) (data : list Z) (fin : bool)
  : outcome (nxp_error_code * nxp_conn) (Z * nxp_conn) :=
  if negb (bool_decide (cn_state conn = NXP_CONN_ESTABLISHED)) then Done (-1, conn) else
  match cn_streams conn !! stream_id with
  | None => Done (-1, conn)
  | Some s =>
      match nxp_stream_write s data (zlen data) fin with
      | Done (written, s) =>
          let conn := conn <| cn_streams := <[stream_id := s]> (cn_streams conn) |> in
          let! conn := if written >? 0 then sched_add conn stream_id else Done conn in
          Done (written, conn)
      | Err e => Err (e, conn)
      | Ub => Ub
      end
  end.

(** The bytes read ([None] for -1), the FIN flag and the connection. *)
Definition nxp_conn_stream_recv (conn : nxp_conn) (stream_id buf_len : Z)
  : nxp_result (option (list Z) * bool * nxp_conn) :=
  match cn_streams conn !! stream_id with
  | None => Done (None, false, conn)
  | Some s =>
      let! (bytes, fin, s) := nxp_stream_read s buf_len in
      Done (Some bytes, fin, conn <| cn_streams := <[stream_id := s]> (cn_streams conn) |>)
  end.

Definition nxp_conn_set_stream_rate (conn : nxp_conn) (stream_id rate_bps : Z) : nxp_result nxp_conn :=
  match cn_streams conn !! stream_id with
  | None => Err NXP_ERR_STREAM_CLOSED
  | Some s =>
      let s := s <| rate_limit := StreamRate.nxp_stream_rate_set (rate_limit s) rate_bps |> in
      Done (conn <| cn_streams := <[stream_id := s]> (cn_streams conn) |>)
  end.

(** [cb] is the callback with its user data. *)
Definition nxp_conn_set_on_writable (conn : nxp_conn) (stream_id : Z) (cb : option Z) : nxp_result nxp_conn :=
  match cn_streams conn !! stream_id with
  | None => Err NXP_ERR_STREAM_CLOSED
  | Some s => Done (conn <| cn_streams := <[stream_id := s <| on_writable := cb |>]> (cn_streams conn) |>)
  end.

(** ** Timers *)

Definition earlier (t timeout : Z) : Z := if t <? timeout then t else timeout.

Definition nxp_conn_timeout (conn : nxp_conn) (now_us : Z) : outcome unit Z :=
  if bool_decide (cn_state conn = NXP_CONN_CLOSED) then Done UINT64_MAX else
  let! loss_t := nxp_ack_loss_timeout (cn_ack conn) in
  let timeout := earlier loss_t UINT64_MAX in
  let timeout := if cn_last_activity_us conn >? 0
                 then earlier (u64 (cn_last_activity_us conn + cn_idle_timeout_us conn)) timeout else timeout in
  let timeout := if ack_needed (cn_ack conn) then earlier (ack_delay_timer (cn_ack conn)) timeout else timeout in
  let timeout :=
    if Pacer.enabled (cn_pacer conn) then
      let pacing_delay := Pacer.nxp_pacer_next_send_time (cn_pacer conn) NXP_BBR_MAX_DATAGRAM_SIZE in
      if pacing_delay >? 0 then earlier (u64 (now_us + pacing_delay)) timeout else timeout
    else timeout in
  Done (earlier (nxp_heartbeat_next_timeout (cn_heartbeat conn)) timeout).

(** The loss timer: declare losses, and send a probe after a timeout. *)
Definition on_loss_timer (conn : nxp_conn) (now_us : Z) : conn_result :=
  let! loss_t := or_fail (nxp_ack_loss_timeout (cn_ack conn)) (NXP_ERR_INTERNAL, conn) in
  if negb (loss_t =? UINT64_MAX) && (now_us >=? loss_t) then
    let '(ack, r) := nxp_ack_on_loss_timeout lost_cb (cn_ack conn) now_us (Done conn) in
    let! conn := r in
    let conn := conn <| cn_ack := ack |> in
    Done (if pto_count ack >? 0 then conn <| cn_send_ping := true |> else conn)
  else Done conn.

Definition nxp_conn_on_timeout (conn : nxp_conn) (now_us : Z) : conn_result :=
  if (cn_last_activity_us conn >? 0) && (now_us >=? u64 (cn_last_activity_us conn + cn_idle_timeout_us conn))
  then Done (set_conn_state conn NXP_CONN_CLOSED) else
  let! conn := on_loss_timer conn now_us in
  let conn := conn <| cn_heartbeat := nxp_heartbeat_check (cn_heartbeat conn) now_us |> in
  Done (if nxp_heartbeat_is_dead (cn_heartbeat conn) then set_conn_state conn NXP_CONN_CLOSED else conn).

(** ** Closing and settings *)

Definition nxp_conn_get_state (conn : nxp_conn) : nxp_conn_state := cn_state conn.

Definition nxp_conn_initiate_close (conn : nxp_conn) (error_code : Z) : nxp_result nxp_conn :=
  return_if bool_decide (cn_state conn = NXP_CONN_CLOSED) || bool_decide (cn_state conn = NXP_CONN_DRAINING)
    with NXP_ERR_CONNECTION_CLOSED ;;
  Done (conn <| cn_send_conn_close := true |> <| cn_close_error_code := error_code |>).

Definition nxp_conn_set_heartbeat (conn : nxp_conn) (interval_us : Z) : nxp_conn :=
  conn <| cn_heartbeat := nxp_heartbeat_init interval_us |>.

Definition nxp_conn_set_auto_reconnect (conn : nxp_conn) (enable : bool) (max_attempts : Z) : nxp_conn :=
  conn <| cn_auto_reconnect := enable |> <| cn_max_reconnect_attempts := max_attempts |>.
