(* ===== verification/ConnectionSend.v ===== *)
(** * Outgoing datagrams (src/src/core/connection.c, the sending half)

    [nxp_conn_send] fills the caller's buffer [out] and returns the number of
    bytes, 0 when there is nothing to send and -1 on failure, together with the
    buffer and the connection.  Frames are first collected in a local array.

    The loop over scheduled streams has no bound in the code, so it takes fuel
    and [Err tt] means that it is still running when the fuel is used up. *)

From stdpp Require Import gmap.
From S2P Require Import Prelude Types Varint Codec Frame Packet Pacing DeliveryRate Bbr Ack.
From S2P Require Import Flow Stream LinkedList Scheduler Heartbeat Migration Crypto Tokens.
From S2P Require Import Handshake Connection.

(** ** Collecting frames *)

(** The local variables of [nxp_conn_send]: the connection, the array
    [frame_buf] and how much of it is used, whether a frame elicits an
    acknowledgement, and the STREAM frames recorded in [sent_meta]. *)
Record builder := Builder {
  bd_conn : nxp_conn;
  bd_buf : list Z;
  bd_pos : Z;
  bd_eliciting : bool;
  bd_frames : list nxp_stream_frame_record
}.
#[export] Instance eta_builder : Eta builder := fun b =>
  Builder (bd_conn b) (bd_buf b) (bd_pos b) (bd_eliciting b) (bd_frames b).
#[export] Instance set_bd_conn : Assign bd_conn := ltac:(solve_assign).
#[export] Instance set_bd_buf : Assign bd_buf := ltac:(solve_assign).
#[export] Instance set_bd_pos : Assign bd_pos := ltac:(solve_assign).
#[export] Instance set_bd_eliciting : Assign bd_eliciting := ltac:(solve_assign).
#[export] Instance set_bd_frames : Assign bd_frames := ltac:(solve_assign).

Definition encoder : Type := list Z -> outcome unit (Z * list Z).

Section Build.
  Variable frame_space : Z.

(** [n = encode(..., frame_buf + frame_pos, frame_space - frame_pos);] and, when
    [n > 0], [frame_pos += n]. *)
Definition append (enc : encoder) (b : builder) : outcome unit (Z * builder) :=
  let! room := sub_buf (bd_buf b) (bd_pos b) (frame_space - bd_pos b) in
  let! (n, room) := enc room in
  let b := b <| bd_buf := splice (bd_buf b) (bd_pos b) room |> in
  Done (n, if n >? 0 then b <| bd_pos := bd_pos b + n |> else b).

(** A control frame: when it fits, [has_ack_eliciting] is set as the code does,
    and [sent] updates the connection. *)
Definition append_control (enc : encoder) (eliciting : bool) (sent : nxp_conn -> nxp_conn) (b : builder)
  : outcome unit builder :=
  let! (n, b) := append enc b in
  Done (if n >? 0
        then b <| bd_conn := sent (bd_conn b) |> <| bd_eliciting := bd_eliciting b || eliciting |>
        else b).

Definition add_ack (now_us : Z) (b : builder) : outcome unit builder :=
  if ack_needed (cn_ack (bd_conn b)) then
    match nxp_ack_build_frame (cn_ack (bd_conn b)) now_us with
    | Some f => append_control (nxp_frame_encode_ack f) false
                  (fun c => c <| cn_ack := cn_ack c <| ack_needed := false |> |>) b
    | None => Done b
    end
  else Done b.

Definition add_close (b : builder) : outcome unit builder :=
  if cn_send_conn_close (bd_conn b) then
    append_control
      (nxp_frame_encode_connection_close (FrameClose (cn_close_error_code (bd_conn b)) 0 0 None true)) true
      (fun c => set_conn_state (c <| cn_send_conn_close := false |>) NXP_CONN_CLOSING) b
  else Done b.

Definition add_ping (b : builder) : outcome unit builder :=
  if cn_send_ping (bd_conn b)
  then append_control nxp_frame_encode_ping true (fun c => c <| cn_send_ping := false |>) b
  else Done b.

(** The update is taken whether or not the frame fits. *)
Definition add_max_data (b : builder) : outcome unit builder :=
  if nxp_flow_should_update (cn_conn_flow (bd_conn b)) then
    let '(fc, new_max) := nxp_flow_get_update (cn_conn_flow (bd_conn b)) in
    append_control (nxp_frame_encode_max_data new_max) true (fun c => c)
      (b <| bd_conn := bd_conn b <| cn_conn_flow := fc |> |>)
  else Done b.

Definition set_mig (f : nxp_migration_state -> nxp_migration_state) (c : nxp_conn) : nxp_conn :=
  c <| cn_migration := f (cn_migration c) |>.

Definition add_path_response (b : builder) : outcome unit builder :=
  let m := cn_migration (bd_conn b) in
  if send_path_response m
  then append_control (nxp_frame_encode_path_response (pending_response_data m)) true
         (set_mig (fun m => m <| send_path_response := false |>)) b
  else Done b.

Definition add_path_challenge (b : builder) : outcome unit builder :=
  let m := cn_migration (bd_conn b) in
  if send_path_challenge m
  then append_control (nxp_frame_encode_path_challenge (challenge_data (new_path m))) true
         (set_mig (fun m => m <| send_path_challenge := false |>)) b
  else Done b.

(** The loop counts [pending_new_cid_count] down; the entry is read from an
    array of four. *)
Fixpoint add_new_cids (n : nat) (b : builder) : outcome unit builder :=
  match n with
  | O => Done b
  | S n =>
      match pending_new_cids (cn_migration (bd_conn b)) !! n with
      | None => Ub
      | Some e =>
          let f := FrameNewCid (ce_seq_num e) 0 (ce_cid e) (stateless_reset_token e) in
          let! (k, b) := append (nxp_frame_encode_new_connection_id f) b in
          if k =? 0 then Done b else
          add_new_cids n
            (b <| bd_conn := set_mig (fun m => m <| pending_new_cid_count := Z.of_nat n |>) (bd_conn b) |>
               <| bd_eliciting := true |>)
      end
  end.

Definition add_retire_cid (b : builder) : outcome unit builder :=
  let m := cn_migration (bd_conn b) in
  if send_retire_cid m
  then append_control (nxp_frame_encode_retire_connection_id (retire_seq m)) true
         (set_mig (fun m => m <| send_retire_cid := false |>)) b
  else Done b.

Definition set_hb (f : nxp_heartbeat -> nxp_heartbeat) (c : nxp_conn) : nxp_conn :=
  c <| cn_heartbeat := f (cn_heartbeat c) |>.

Definition add_echo (b : builder) : outcome unit builder :=
  let h := cn_heartbeat (bd_conn b) in
  if send_echo h
  then append_control (nxp_frame_encode_heartbeat (echo_timestamp h)) true
         (set_hb (fun h => h <| send_echo := false |>)) b
  else Done b.

Definition add_heartbeat (b : builder) : outcome unit builder :=
  let h := cn_heartbeat (bd_conn b) in
  if send_heartbeat h
  then append_control (nxp_frame_encode_heartbeat (pending_timestamp h)) true
         (set_hb (fun h => h <| send_heartbeat := false |>)) b
  else Done b.

Definition control_frames (now_us : Z) (b : builder) : outcome unit builder :=
  let! b := add_ack now_us b in
  let! b := add_close b in
  let! b := add_ping b in
  let! b := add_max_data b in
  let! b := add_path_response b in
  let! b := add_path_challenge b in
  let! b := add_new_cids (Z.to_nat (pending_new_cid_count (cn_migration (bd_conn b)))) b in
  let! b := add_retire_cid b in
  let! b := add_echo b in
  add_heartbeat b.

(** ** STREAM frames *)

(** The window that connection-level flow control leaves. *)
Definition fc_remain (fc : nxp_flow_ctrl) : Z :=
  if peer_max_data fc >? data_sent fc then peer_max_data fc - data_sent fc else 0.

Definition put_back (id : Z) (s : nxp_stream_s) (b : builder) : builder :=
  b <| bd_conn := bd_conn b <| cn_streams := <[id := s]> (cn_streams (bd_conn b)) |> |>.

(** Emit the frame [sf] that was just taken from stream [id]; the flag says
    whether the loop goes on. *)
Definition emit_frame (id : Z) (sf : nxp_frame_stream) (s : nxp_stream_s) (b : builder)
  : outcome unit (bool * builder) :=
  let! (n, b) := append (nxp_frame_encode_stream sf) b in
  if n =? 0 then
    Done (false, put_back id (nxp_stream_on_loss s (sf_offset sf) (u32 (sf_length sf)) (sf_fin sf)) b)
  else
    let s := s <| flow := nxp_flow_on_send (flow s) (sf_length sf) |> in
    let s := if StreamRate.enabled (rate_limit s)
             then s <| rate_limit := StreamRate.nxp_stream_rate_on_send (rate_limit s) (u32 (sf_length sf)) |>
             else s in
    let b := put_back id s b in
    let conn := bd_conn b <| cn_conn_flow := nxp_flow_on_send (cn_conn_flow (bd_conn b)) (sf_length sf) |> in
    let rec := StreamFrameRecord (sf_stream_id sf) (sf_offset sf) (u32 (sf_length sf)) (sf_fin sf) in
    let! conn := if (nxp_stream_unsent s >? 0) || (sb_fin (send s) && negb (fin_sent (send s)))
                 then or_fail (sched_add conn id) tt else Done conn in
    Done (true, b <| bd_conn := conn |> <| bd_eliciting := true |> <| bd_frames := bd_frames b ++ [rec] |>).

(** The body of the loop, after a stream was taken from the scheduler. *)
Definition serve_stream (now_us id : Z) (s : nxp_stream_s) (b : builder) : outcome unit (bool * builder) :=
  let fc := cn_conn_flow (bd_conn b) in
  if (nxp_stream_unsent s >? 0) && negb (nxp_flow_can_send fc 1) then Done (false, b) else
  let avail := frame_space - bd_pos b in
  let max_data := if avail >? 20 then avail - 20 else 0 in
  let max_data := if max_data >? fc_remain fc then fc_remain fc else max_data in
  let limited := StreamRate.enabled (rate_limit s) in
  let s := if limited then s <| rate_limit := StreamRate.nxp_stream_rate_update (rate_limit s) now_us |> else s in
  let budget := StreamRate.nxp_stream_rate_budget (rate_limit s) in
  if limited && (budget =? 0) then Done (true, put_back id (s <| blocked := true |>) b) else
  let max_data := if limited && (max_data >? budget) then budget else max_data in
  let! filled := or_fail (nxp_stream_fill_frame s max_data) tt in
  match filled with
  | None => Done (true, put_back id s b)
  | Some (sf, s) => emit_frame id sf s b
  end.

Definition stream_step (now_us : Z) (b : builder) : outcome unit (bool * builder) :=
  let! (next, q) := or_fail (nxp_sched_next (cn_streams (bd_conn b)) (cn_sched (bd_conn b))) tt in
  let b := b <| bd_conn := bd_conn b <| cn_sched := q |> |> in
  match next with
  | None => Done (false, b)
  | Some id =>
      match cn_streams (bd_conn b) !! id with
      | None => Ub
      | Some s => serve_stream now_us id s b
      end
  end.

(** Does the congestion window have room? *)
Definition cc_allows (conn : nxp_conn) : bool :=
  match cn_cc_state conn with
  | None => true
  | Some cc => negb (Ack.bytes_in_flight (cn_ack conn) >=? cc_get_cwnd _ nxp_cc_bbr cc)
  end.

Definition loop_open (cc_allows : bool) (b : builder) : bool :=
  cc_allows && (bd_pos b <? frame_space) && (zlen (bd_frames b) <? NXP_MAX_STREAM_FRAMES_PER_PKT).

Fixpoint stream_loop (fuel : nat) (now_us : Z) (cc_allows : bool) (b : builder) : outcome unit builder :=
  if negb (loop_open cc_allows b) then Done b else
  match fuel with
  | O => Err tt
  | S fuel =>
      let! (continue, b) := stream_step now_us b in
      if continue then stream_loop fuel now_us cc_allows b else Done b
  end.

(** All frames of a packet. *)
Definition collect_frames (fuel : nat) (conn : nxp_conn) (now_us : Z) : outcome unit builder :=
  let! b := control_frames now_us (Builder conn (zeros NXP_PACKET_BUF_SIZE) 0 false []) in
  stream_loop fuel now_us (cc_allows (bd_conn b)) b.

End Build.

(** ** Packets *)

(** Return value, buffer and connection. *)
Definition send_result : Type := outcome unit (Z * list Z * nxp_conn).

Section Send.
Context `{OpenSSL}.

(** Encrypt [frames] behind the header of [hdr_written] bytes and protect the
    header; a failure of header protection is ignored.  [None]: encryption
    failed. *)
Definition seal_packet (keys : nxp_crypto_state) (out : list Z) (hdr_written pn_len pkt_num : Z) (frames : list Z)
  : outcome unit (option (Z * list Z)) :=
  let nonce := nxp_crypto_make_nonce (ck_iv (cs_send keys)) pkt_num in
  let! aad := sub_buf out 0 hdr_written in
  match nxp_aead_encrypt (cs_algo keys) (ck_key (cs_send keys)) nonce aad frames with
  | None => Done None
  | Some ct =>
      let! out := memcpy out hdr_written ct (zlen ct) in
      let total := hdr_written + zlen ct in
      let! packet := sub_buf out 0 total in
      match nxp_hp_protect (cs_algo keys) (ck_hp_key (cs_send keys)) packet (hdr_written - pn_len) pn_len with
      | Done packet => Done (Some (total, splice out 0 packet))
      | Err _ => Done (Some (total, out))
      | Ub => Ub
      end
  end.

(** HANDSHAKE_DONE, padded to four bytes, in a 1-RTT packet. *)
Definition send_handshake_done_packet (conn : nxp_conn) (hs : nxp_handshake) (out : list Z) : send_result :=
  if negb (cs_available (app_keys hs)) then Done (0, out, conn) else
  let pn_len := 1 in
  let hdr_size := 1 + cid_len (cn_dcid conn) + pn_len in
  if zlen out <? hdr_size + 4 + NXP_AEAD_TAG_LEN then Done (0, out, conn) else
  let! (frame_len, frame_buf) := nxp_frame_encode_handshake_done (zeros 8) in
  if frame_len =? 0 then Done (0, out, conn) else
  let min_frame_len := 4 - pn_len + 1 in
  let frames := ztake frame_len frame_buf ++ zeros (min_frame_len - frame_len) in
  let shdr := ShortHeader (cn_dcid conn) false false (cn_next_pkt_num conn) pn_len 0 0 in
  let! (hdr_written, out) := nxp_pkt_encode_short_header shdr (cid_len (cn_dcid conn)) out in
  if hdr_written =? 0 then Done (-1, out, conn) else
  let! sealed := seal_packet (app_keys hs) out hdr_written pn_len (cn_next_pkt_num conn) frames in
  match sealed with
  | None => Done (-1, out, conn)
  | Some (total, out) =>
      Done (total, out, conn <| cn_next_pkt_num := u64 (cn_next_pkt_num conn + 1) |>
                             <| cn_handshake := Some (hs <| send_handshake_done := false |>) |>)
  end.

Definition NXP_VERSION_CURRENT : Z := 0x4E585001.

(** CRYPTO data in a long-header packet of the level: its keys, packet type and
    packet number counter. *)
Definition send_crypto_packet (conn : nxp_conn) (hs : nxp_handshake) (level : nxp_crypto_level) (out : list Z)
  : send_result :=
  let initial := bool_decide (level = NXP_CRYPTO_INITIAL) in
  let keys := if initial then initial_keys hs else handshake_keys hs in
  let type := if initial then NXP_PKT_INITIAL else NXP_PKT_HANDSHAKE in
  let pn := if initial then initial_pn hs else handshake_pn hs in
  if negb (cs_available keys) then Done (0, out, conn) else
  let! (data, offset, hs) := nxp_handshake_fill_crypto hs 512 in
  let conn := conn <| cn_handshake := Some hs |> in
  if zlen data =? 0 then Done (0, out, conn) else
  let cf := FrameCrypto (default 0 offset) (zlen data) (Some data) in
  let! (frame_len, frame_buf) := nxp_frame_encode_crypto cf (zeros 1024) in
  if frame_len =? 0 then Done (0, out, conn) else
  let pn_len := 1 in
  let lhdr := LongHeader type NXP_VERSION_CURRENT (cn_dcid conn) (cn_scid conn) None 0
                (frame_len + NXP_AEAD_TAG_LEN + pn_len) pn pn_len 0 0 in
  let! (hdr_written, out) := nxp_pkt_encode_long_header lhdr out in
  if hdr_written =? 0 then Done (0, out, conn) else
  let! sealed := seal_packet keys out hdr_written pn_len pn (ztake frame_len frame_buf) in
  match sealed with
  | None => Done (-1, out, conn)
  | Some (total, out) =>
      let hs := if initial then hs <| initial_pn := u64 (pn + 1) |> else hs <| handshake_pn := u64 (pn + 1) |> in
      Done (total, out, conn <| cn_handshake := Some hs |>)
  end.

Definition send_handshake_packet (conn : nxp_conn) (out : list Z) : send_result :=
  match cn_handshake conn with
  | None => Done (0, out, conn)
  | Some hs =>
      if negb (nxp_handshake_has_data hs) then Done (0, out, conn) else
      let level := nxp_handshake_send_level hs in
      if send_handshake_done hs && bool_decide (level = NXP_CRYPTO_APPLICATION)
      then send_handshake_done_packet conn hs out
      else send_crypto_packet conn hs level out
  end.

(** Has the engine something to send that pacing must not delay? *)
Definition has_control_frames (conn : nxp_conn) : bool :=
  ack_needed (cn_ack conn) || cn_send_conn_close conn || cn_send_ping conn ||
  nxp_flow_should_update (cn_conn_flow conn) || nxp_migration_has_pending (cn_migration conn) ||
  nxp_heartbeat_has_pending (cn_heartbeat conn).

(** Record the packet with the acknowledgement, delivery rate and congestion
    state.  Whether the scheduler is empty is tested by taking a stream from it. *)
Definition record_sent (realloc_ok : bool) (conn : nxp_conn) (frames : list nxp_stream_frame_record)
    (eliciting : bool) (total now_us : Z) : outcome unit nxp_conn :=
  let '(dr, snapshot) := nxp_dr_on_packet_sent (cn_delivery_rate conn) (u32 total) now_us in
  let meta := SentPkt (cn_next_pkt_num conn) now_us (u32 total) eliciting eliciting false frames snapshot in
  let! ack := nxp_ack_on_pkt_sent realloc_ok (cn_ack conn) meta in
  let conn := conn <| cn_delivery_rate := dr |> <| cn_ack := ack |> in
  match cn_cc_state conn with
  | None => Done conn
  | Some cc =>
      let cc := cc_on_sent _ nxp_cc_bbr cc (u32 total) now_us (Ack.bytes_in_flight ack) in
      let conn := conn <| cn_cc_state := Some cc |>
                       <| cn_pacer := Pacer.nxp_pacer_on_send (cn_pacer conn) (u32 total) |> in
      let! (next, q) := or_fail (nxp_sched_next (cn_streams conn) (cn_sched conn)) tt in
      let conn := conn <| cn_sched := q |> in
      Done (match next with
            | None => conn <| cn_delivery_rate := nxp_dr_set_app_limited (cn_delivery_rate conn) |>
            | Some _ => conn
            end)
  end.

(** Header, encryption and bookkeeping for the collected frames. *)
Definition finish_packet (realloc_ok : bool) (b : builder) (out : list Z) (pn_len now_us : Z) : send_result :=
  let conn := bd_conn b in
  let frames := ztake (bd_pos b) (bd_buf b) in
  let shdr := ShortHeader (cn_dcid conn) false false (cn_next_pkt_num conn) pn_len 0 0 in
  let! (hdr_written, out) := nxp_pkt_encode_short_header shdr (cid_len (cn_dcid conn)) out in
  if hdr_written =? 0 then Done (-1, out, conn) else
  let! sealed :=
    if cs_available (cn_crypto conn)
    then seal_packet (cn_crypto conn) out hdr_written pn_len (cn_next_pkt_num conn) frames
    else let! out := memcpy out hdr_written frames (bd_pos b) in Done (Some (hdr_written + bd_pos b, out)) in
  match sealed with
  | None => Done (-1, out, conn)
  | Some (total, out) =>
      let! conn := record_sent realloc_ok conn (bd_frames b) (bd_eliciting b) total now_us in
      Done (total, out, conn <| cn_stats := cn_stats conn <| st_bytes_sent := u64 (st_bytes_sent (cn_stats conn) + total) |> |>
                             <| cn_next_pkt_num := u64 (cn_next_pkt_num conn + 1) |>)
  end.

(** The frames of one packet, and the packet. *)
Definition send_data_packet (fuel : nat) (realloc_ok : bool) (conn : nxp_conn) (out : list Z) (now_us : Z) : send_result :=
  let pn_len := nxp_pkt_num_len (cn_next_pkt_num conn) (largest_recv_pn (cn_ack conn)) in
  let hdr_size := 1 + cid_len (cn_dcid conn) + pn_len in
  let tag_size := if cs_available (cn_crypto conn) then NXP_AEAD_TAG_LEN else 0 in
  if zlen out <? hdr_size + 1 + tag_size then Done (0, out, conn) else
  let frame_space := zlen out - hdr_size - tag_size in
  let frame_space := if frame_space >? NXP_PACKET_BUF_SIZE then NXP_PACKET_BUF_SIZE else frame_space in
  let! b := collect_frames frame_space fuel conn now_us in
  if bd_pos b =? 0 then Done (0, out, bd_conn b) else
  finish_packet realloc_ok b out pn_len now_us.

Definition nxp_conn_send (fuel : nat) (realloc_ok : bool) (conn : nxp_conn) (out : list Z) (now_us : Z) : send_result :=
  if match cn_handshake conn with Some hs => nxp_handshake_has_data hs | None => false end
  then send_handshake_packet (conn <| cn_last_activity_us := now_us |>) out else
  if negb (bool_decide (cn_state conn = NXP_CONN_ESTABLISHED) || bool_decide (cn_state conn = NXP_CONN_CLOSING))
  then Done (0, out, conn) else
  let conn := conn <| cn_last_activity_us := now_us |>
                   <| cn_pacer := Pacer.nxp_pacer_update (cn_pacer conn) now_us |> in
  if negb (Pacer.nxp_pacer_can_send (cn_pacer conn) NXP_BBR_MAX_DATAGRAM_SIZE) && negb (has_control_frames conn)
  then Done (0, out, conn) else
  send_data_packet fuel realloc_ok conn out now_us.

End Send.
