(* ===== verification/ConnectionInv.v ===== *)
(** * Safety of the connection engine

    The invariant of a connection, and that every operation of the engine keeps
    it without undefined behaviour, on arbitrary datagrams and along every
    history; the state changes only along the edges of the state diagram, and
    the peer's flow control limits are respected. *)

From stdpp Require Import gmap.
From S2P Require Import Prelude Types Varint Codec Frame Packet Pacing DeliveryRate Bbr Ack.
From S2P Require Import Flow Stream LinkedList Scheduler Heartbeat Migration Crypto Tokens.
From S2P Require Import Handshake Connection ConnectionSend.

(** ** Streams *)

(** The buffers have their sizes, and nothing beyond the peer's limit has been
    accepted or sent. *)
Record stream_sized (cap id : Z) (s : nxp_stream_s) : Prop := StreamSized {
  sm_id : s_id s = id /\ 0 <= id;
  sm_send : sb_cap (send s) = cap /\ zlen (sb_data (send s)) = cap;
  sm_recv : rb_cap (recv s) = cap /\ zlen (rb_data (recv s)) = cap /\ 0 <= read_offset (recv s);
  sm_window : 0 <= sent_offset (send s) <= write_offset (send s) /\
    write_offset (send s) <= peer_max_data (flow s) < 2 ^ 64;
  sm_rate : 0 <= StreamRate.tokens (rate_limit s)
}.
Definition stream_mem : Z -> nxp_stream_s -> Prop := stream_sized NXP_STREAM_BUF_SIZE.

Lemma buf_size_pos : 0 < NXP_STREAM_BUF_SIZE.
Proof. done. Qed.

(** A packet fits a stream's buffer. *)
Lemma buf_size_packet : NXP_PACKET_BUF_SIZE <= NXP_STREAM_BUF_SIZE < 2 ^ 32.
Proof. done. Qed.

Lemma stream_sized_new cap id type max : 0 < cap -> 0 <= id -> 0 <= max < 2 ^ 64 ->
  stream_sized cap id (stream_with_cap cap id type max max).
Proof. intros. split; simpl; rewrite ?zlen_replicate; lia. Qed.

Lemma stream_mem_new ok id type max s : 0 <= id -> 0 <= max < 2 ^ 64 ->
  nxp_stream_create ok id type max max = Some s -> stream_mem id s.
Proof.
  intros Hid Hmax. unfold nxp_stream_create. destruct ok; [| done]. intros [= <-].
  apply stream_sized_new; [apply buf_size_pos | done | done].
Qed.
#[local] Opaque NXP_STREAM_BUF_SIZE.

Lemma stream_mem_recv id s r f : stream_mem id s ->
  rb_cap r = NXP_STREAM_BUF_SIZE -> zlen (rb_data r) = NXP_STREAM_BUF_SIZE -> 0 <= read_offset r ->
  peer_max_data f = peer_max_data (flow s) ->
  stream_mem id (s <| recv := r |> <| flow := f |>).
Proof. intros [] ? ? ? Hf. split; simpl; rewrite ?Hf; auto. Qed.

Lemma stream_mem_state id s st : stream_mem id s -> stream_mem id (set_stream_state s st).
Proof. intros []. unfold set_stream_state. destruct (negb _); split; assumption. Qed.

Lemma stream_mem_on_ack id s off len fin : stream_mem id s -> stream_mem id (nxp_stream_on_ack s off len fin).
Proof.
  intros Hm. unfold nxp_stream_on_ack.
  set (s1 := if _ >? _ then _ else s).
  assert (stream_mem id s1) as H1 by (unfold s1; destruct (_ >? _); [| done]; by destruct Hm; split).
  clearbody s1. destruct fin; [| done].
  assert (stream_mem id (s1 <| send := send s1 <| fin_acked := true |> |>)) as H2 by (destruct H1; by split).
  destruct (s_state _); [done | by apply stream_mem_state | done | by apply stream_mem_state | done..].
Qed.

Lemma stream_mem_on_loss id s off len fin : 0 <= off -> stream_mem id s ->
  stream_mem id (nxp_stream_on_loss s off len fin).
Proof.
  intros Hoff Hm. unfold nxp_stream_on_loss.
  set (s1 := if _ <? _ then _ else s).
  assert (stream_mem id s1) as H1.
  { unfold s1. destruct (Z.ltb_spec off (sent_offset (send s))); [| done].
    destruct Hm; split; simpl; try assumption. lia. }
  clearbody s1. destruct fin; [| done]. destruct H1; by split.
Qed.

Lemma write_room_bounds id s : stream_mem id s ->
  0 <= write_room s <= NXP_STREAM_BUF_SIZE /\ write_offset (send s) + write_room s <= peer_max_data (flow s).
Proof.
  intros [_ [Hcap _] _ [_ Hw] _]. pose proof buf_size_pos.
  pose proof (u64_range (write_offset (send s) - acked_offset (send s))).
  unfold write_room. cbv zeta. rewrite Hcap, !Z.gtb_ltb. revert H0. generalize (u64 (write_offset (send s) - acked_offset (send s))).
  intros z Hz. destruct (Z.ltb_spec z NXP_STREAM_BUF_SIZE), (Z.ltb_spec (write_offset (send s)) (peer_max_data (flow s)));
    zcase; lia.
Qed.

Lemma stream_write_mem id s data fin : stream_mem id s ->
  exists n s', nxp_stream_write s data (zlen data) fin = Done (n, s') /\ stream_mem id s' /\ n <= zlen data.
Proof.
  intros Hm. pose proof (zlen_nonneg data) as Hd. unfold nxp_stream_write.
  assert (forall s' : nxp_stream_s, stream_mem id s' ->
    exists n s1, @Done nxp_error_code _ (-1, s') = Done (n, s1) /\ stream_mem id s1 /\ n <= zlen data) as Hrej.
  { intros s' ?. exists (-1), s'. split_and!; [done | done | lia]. }
  destruct (s_state s); [| | by apply Hrej | | by apply Hrej | by apply Hrej].
  all: destruct (sb_fin (send s)); [by apply Hrej |].
  all: destruct (write_room_bounds id s Hm) as (Hr0 & Hr2); destruct Hm as [Hid [Hcap Hdata] Hrecv [Hso Hwo] Hrt].
  all: set (w := if zlen data <? write_room s then zlen data else write_room s).
  all: assert (0 <= w <= write_room s /\ w <= zlen data) as [Hw1 Hw2]
    by (unfold w; destruct (Z.ltb_spec (zlen data) (write_room s)); lia).
  all: rewrite Z.gtb_ltb; destruct (Z.ltb_spec 0 w) as [Hpos | Hneg].
  all: try (destruct (circ_store_spec (sb_data (send s)) NXP_STREAM_BUF_SIZE (write_offset (send s)) data w
      ltac:(done) ltac:(done) ltac:(lia) ltac:(lia)) as (d & Hst & Hd' & _);
    rewrite Hcap, Hst; cbn [obind]).
  all: cbn [obind]; eexists w, _; split; [reflexivity |]; split; [| done].
  all: destruct fin; split; simpl; rewrite ?(u64_small (write_offset (send s) + w)) by lia; auto; lia.
Qed.

Lemma stream_fill_mem id s max : stream_mem id s -> 0 <= max ->
  nxp_stream_fill_frame s max = Done None \/
  exists sf s', nxp_stream_fill_frame s max = Done (Some (sf, s')) /\ stream_mem id s' /\
    sf_stream_id sf = id /\ 0 <= sf_offset sf /\ 0 <= sf_length sf <= max /\
    ptr_mem (sf_length sf) (sf_data sf).
Proof.
  intros [Hid [Hcap Hdata] Hrecv [Hso Hwo] Hrt] Hmax. unfold nxp_stream_fill_frame.
  destruct (_ && _); [by left |]. right. rewrite Hcap.
  pose proof buf_size_pos as Hpos. pose proof (Z.mod_pos_bound (sent_offset (send s)) _ Hpos) as Hmod.
  assert (0 <= nxp_stream_unsent s <= write_offset (send s) - sent_offset (send s)) as Hun.
  { unfold nxp_stream_unsent. rewrite Z.geb_leb. zcase; lia. }
  set (dl := if nxp_stream_unsent s <? max then nxp_stream_unsent s else max).
  assert (0 <= dl <= max /\ dl <= nxp_stream_unsent s) as [Hdl Hdl'].
  { unfold dl. zcase; lia. }
  set (first := NXP_STREAM_BUF_SIZE - sent_offset (send s) mod NXP_STREAM_BUF_SIZE).
  set (dl2 := if dl >? 0 then if dl <=? first then dl else first else dl).
  assert (0 <= dl2 <= dl /\ (dl > 0 -> dl2 <= first)) as [Hdl2 Hfirst].
  { unfold dl2. rewrite Z.gtb_ltb. destruct (Z.ltb_spec 0 dl); [| lia]. destruct (Z.leb_spec dl first); lia. }
  rewrite Z.gtb_ltb. destruct (Z.ltb_spec 0 dl) as [Hgt | Hle].
  - rewrite sub_buf_Done by lia. cbn [obind]. do 2 eexists. split; [reflexivity |].
    assert (ptr_mem dl2 (Some (ztake dl2 (zdrop (sent_offset (send s) mod NXP_STREAM_BUF_SIZE) (sb_data (send s)))))) as Hp.
    { split; [lia |]. rewrite zlen_ztake; [lia |]. rewrite zlen_zdrop by lia. lia. }
    split; [| simpl; split_and!; try done; first [apply Hid | lia | apply Hp]].
    destruct (_ && _); split; cbn; rewrite ?(u64_small (sent_offset (send s) + dl2)) by lia; auto; lia.
  - cbn [obind]. do 2 eexists. split; [reflexivity |].
    split; [| simpl; split_and!; try done; first [apply Hid | lia | by split; [lia |]]].
    destruct (_ && _); split; cbn; rewrite ?(u64_small (sent_offset (send s) + dl2)) by lia; auto; lia.
Qed.

Lemma recv_fin_mem id s e : stream_mem id s -> stream_mem id (recv_fin s e).
Proof.
  intros Hm. unfold recv_fin.
  assert (stream_mem id (s <| recv := recv s <| fin_received := true |> <| fin_offset := e |> |>)) as H1.
  { destruct Hm; by split. }
  destruct (s_state _); [done | by apply stream_mem_state | by apply stream_mem_state | done..].
Qed.

(** Frames of at most a packet fit the buffer, whatever their offset. *)
Lemma stream_recv_mem id s f : stream_mem id s -> stream_ok f ->
  match sf_data f with Some l => zlen l <= NXP_STREAM_BUF_SIZE | None => True end ->
  match nxp_stream_on_recv s f with
  | Done s' => stream_mem id s'
  | Err _ => True
  | Ub => False
  end.
Proof.
  intros Hm (_ & Hoff & Hlen & Hptr) Hfit. unfold nxp_stream_on_recv.
  set (off := if sf_has_offset f then sf_offset f else 0).
  assert (0 <= off <= NXP_MAX_STREAM_OFFSET) as Ho.
  { unfold off. destruct (sf_has_offset f); [done |]. done. }
  clearbody off. unfold NXP_MAX_STREAM_OFFSET, NXP_MAX_STREAM_FRAME_DATA in *.
  assert (forall s1 (b : bool) e, stream_mem id s1 -> stream_mem id (if b then recv_fin s1 e else s1)) as Hfin.
  { intros s1 [|] e ?; [by apply recv_fin_mem | done]. }
  assert (match (let! s1 := match sf_data f with
        | Some src =>
            if sf_length f >? 0 then
              let! r := recv_data (recv s) off (u64 (off + sf_length f)) (sf_length f) src in
              Done (s <| recv := r |> <| flow := nxp_flow_on_recv (flow s) (sf_length f) |>)
            else Done s
        | None => Done s
        end in Done (if sf_fin f then recv_fin s1 (u64 (off + sf_length f)) else s1)) with
    | Done s' => stream_mem id s' | Err _ => True | Ub => False end :> Prop) as Hgo.
  2: { destruct (s_state s); try done; destruct (_ >? local_max_data (flow s)); (done || exact Hgo). }
  destruct (sf_data f) as [src |]; [| by apply Hfin].
  destruct Hptr as (Hpos & Hsrc & _). rewrite Z.gtb_ltb, (proj2 (Z.ltb_lt _ _)) by lia.
  pose proof (sm_recv _ _ _ Hm) as (Hcap & Hdata & Hread).
  rewrite u64_small by lia. unfold recv_data. rewrite !Z.gtb_ltb.
  destruct (Z.ltb_spec (read_offset (recv s)) (off + sf_length f)) as [Hnew | Hold].
  - set (skip := if off <? read_offset (recv s) then read_offset (recv s) - off else 0).
    assert (0 <= skip < sf_length f) as Hskip by (unfold skip; destruct (Z.ltb_spec off (read_offset (recv s))); lia).
    rewrite u64_small by lia. rewrite Hcap.
    destruct (circ_store_spec (rb_data (recv s)) NXP_STREAM_BUF_SIZE
      (if off <? read_offset (recv s) then read_offset (recv s) else off) (zdrop skip src) (sf_length f - skip)
      buf_size_pos Hdata ltac:(lia) ltac:(rewrite zlen_zdrop; lia)) as (d & -> & Hd & _).
    cbn [obind]. apply Hfin. match goal with |- context [if ?b then _ else _] => destruct b end; by apply stream_mem_recv.
  - cbn [obind]. apply Hfin. by apply stream_mem_recv.
Qed.

Lemma stream_read_mem id s n : stream_mem id s -> 0 <= n <= NXP_STREAM_BUF_SIZE ->
  exists bytes fin s', nxp_stream_read s n = Done (bytes, fin, s') /\ stream_mem id s'.
Proof.
  intros Hm Hn. unfold nxp_stream_read.
  pose proof (sm_recv _ _ _ Hm) as (Hcap & Hdata & Hread). rewrite Z.geb_leb.
  destruct (Z.leb_spec (recv_offset (recv s)) (read_offset (recv s))); [eauto |].
  set (k := if n <? _ then n else _).
  assert (0 <= k <= NXP_STREAM_BUF_SIZE) as Hk.
  { unfold k. destruct (Z.ltb_spec n (recv_offset (recv s) - read_offset (recv s))); lia. }
  rewrite Hcap. destruct (circ_load_spec (rb_data (recv s)) NXP_STREAM_BUF_SIZE (read_offset (recv s)) k
    buf_size_pos Hdata Hk) as (l & -> & _). cbn [obind]. do 3 eexists. split; [reflexivity |].
  pose proof (u64_range (read_offset (recv s) + k)). apply stream_mem_recv; [done | done | done | simpl; lia |].
  unfold nxp_flow_on_consume. cbv zeta. by repeat case_match.
Qed.

(** ** The table of streams and the scheduler *)

(** Every stream is well formed and has a list node; every scheduled stream is
    in the table. *)
Definition table_ok (streams : gmap Z nxp_stream_s) (sc : nxp_sched) : Prop :=
  map_Forall stream_mem streams /\
  (forall id, is_Some (streams !! id) -> is_Some (links sc !! id)) /\
  exists q, sched_ok sc q /\ forall id, In id q -> is_Some (streams !! id).

Lemma table_stream st sc id s : table_ok st sc -> st !! id = Some s -> stream_mem id s.
Proof. intros (Hm & _) Hs. exact (Hm id s Hs). Qed.

Lemma table_update st sc id s : table_ok st sc -> is_Some (st !! id) -> stream_mem id s ->
  table_ok (<[id := s]> st) sc.
Proof.
  intros (Hm & Hl & q & Hq & Hin) Hid Hs. split_and!.
  - by apply map_Forall_insert_2.
  - intros a. rewrite lookup_insert_is_Some. intros [<- | [_ Ha]]; by apply Hl.
  - exists q. split; [done |]. intros a Ha. rewrite lookup_insert_is_Some.
    destruct (decide (id = a)); [by left | right; auto].
Qed.

Lemma table_add st sc id : table_ok st sc -> is_Some (st !! id) ->
  exists sc', nxp_sched_add sc id = Done sc' /\ table_ok st sc'.
Proof.
  intros (Hm & Hl & q & Hq & Hin) Hid.
  destruct (sched_add_ok sc q id Hq (Hl _ Hid)) as (sc' & -> & Hq' & Hd). exists sc'. split; [done |].
  split_and!; [done | intros a Ha; by apply Hd, Hl |]. eexists. split; [exact Hq' |].
  intros a. case_decide; [apply Hin |]. rewrite in_app_iff. intros [Ha | [<- | []]]; auto.
Qed.

Lemma table_next st sc : table_ok st sc ->
  exists o sc', nxp_sched_next st sc = Done (o, sc') /\ table_ok st sc' /\
    match o with Some id => is_Some (st !! id) | None => True end.
Proof.
  intros (Hm & Hl & q & Hq & Hin). destruct (sched_next_ok st sc q Hq Hin) as (sc' & -> & Hq' & Hd).
  exists (hd_error q), sc'. split; [done |]. split.
  - split_and!; [done | intros a Ha; by apply Hd, Hl |]. eexists. split; [exact Hq' |].
    intros a. unfold rotate. destruct q as [| b q]; [done |].
    destruct (from_option _ _ _); [intros Ha; apply Hin; by right |].
    rewrite in_app_iff. intros [Ha | [<- | []]]; apply Hin; [by right | by left].
  - destruct q as [| b q]; simpl; [done |]. apply Hin. by left.
Qed.

(** A fresh stream enters the table with an unlinked node. *)
Lemma table_new st sc id s : table_ok st sc -> st !! id = None -> stream_mem id s ->
  table_ok (<[id := s]> st) (sc <| links := <[id := Node None None]> (links sc) |>).
Proof.
  intros (Hm & Hl & q & (Hnd & Hr & Hpres & Hh & Hsch) & Hin) Hid Hs.
  assert (~ In id q) as Hnot by (intros Ha%Hin; rewrite Hid in Ha; by destruct Ha).
  assert (forall a, is_Some (links sc !! a) -> is_Some (<[id := Node None None]> (links sc) !! a)) as Hgrow.
  { intros a Ha. rewrite lookup_insert_is_Some. destruct (decide (id = a)); [by left | by right]. }
  split_and!.
  - by apply map_Forall_insert_2.
  - intros a. simpl. rewrite lookup_insert_is_Some. intros [<- | [_ Ha]]; [| by apply Hgrow, Hl].
    rewrite lookup_insert_is_Some. by left.
  - exists q. split; [| intros a Ha; rewrite lookup_insert_is_Some; right; split;
      [by intros <- | by apply Hin]].
    unfold sched_ok. simpl. split_and!; [done | | | done | done].
    + refine (ring_ext _ _ _ _ _ _ _ (ring_forget _ _ q id None None Hr Hnot)); intros a;
        unfold nx_of, pv_of, fupd; rewrite lookup_insert; repeat case_decide; subst; done.
    + eapply Forall_impl; [apply Hgrow | done].
Qed.

(** ** Migration state *)

Definition entry_mem (e : nxp_cid_entry) : Prop :=
  conn_id_ok (ce_cid e) /\ 0 <= ce_seq_num e /\ zlen (stateless_reset_token e) = 16.

Record mig_mem (m : nxp_migration_state) : Prop := MigMem {
  mm_pool : Forall entry_mem (peer_cid_pool m);
  mm_pending : Forall entry_mem (pending_new_cids m) /\ zlen (pending_new_cids m) = 4 /\
    0 <= pending_new_cid_count m <= 4;
  mm_response : zlen (pending_response_data m) = 8;
  mm_challenge : zlen (challenge_data (new_path m)) = 8;
  mm_retire : 0 <= retire_seq m
}.

Lemma cid_none_ok : conn_id_ok cid_none.
Proof. exists []. split_and!; [reflexivity | done | constructor]. Qed.

Lemma mig_init_mem : mig_mem nxp_migration_init.
Proof.
  assert (entry_mem cid_zero) by (split_and!; [apply cid_none_ok | done | done]).
  split; simpl; try done; split_and?; try done; by repeat first [apply Forall_nil_2 | apply Forall_cons_2].
Qed.

Lemma mig_challenge_mem m d : mig_mem m -> zlen d = 8 -> mig_mem (nxp_migration_on_path_challenge m d).
Proof. intros [] ?. by split. Qed.

Lemma mig_response_mem m d : mig_mem m -> mig_mem (nxp_migration_on_path_response m d).1.
Proof.
  intros Hm. unfold nxp_migration_on_path_response. destruct (negb _); [done |]. destruct (negb _); [done |].
  destruct Hm. by split.
Qed.

Lemma Forall_take_drop {A} (P : A -> Prop) n l : Forall P l -> Forall P (ztake n l) /\ Forall P (zdrop n l).
Proof. rewrite <- (ztake_zdrop n l) at 1. apply Forall_app. Qed.

Lemma mig_new_cid_mem m cid seq rpt tok : mig_mem m -> conn_id_ok cid -> 0 <= seq -> zlen tok = 16 ->
  mig_mem (nxp_migration_on_new_connection_id m cid seq rpt tok).
Proof.
  intros [Hp ? ? ? ?] Hc Hs Ht. unfold nxp_migration_on_new_connection_id.
  set (pool := first_n _ _ _).
  assert (Forall entry_mem pool) as Hpool.
  { unfold pool, first_n. apply Forall_app. destruct (Forall_take_drop _ (peer_cid_count m) _ Hp) as [H1 H2].
    split; [| done]. apply Forall_fmap. eapply Forall_impl; [| exact H1]. intros e He. simpl.
    unfold retire_below. by destruct (_ && _). }
  clearbody pool. simpl. destruct (existsb _ _); [by split |].
  destruct (_ <? _); [| destruct (find_index _ _ _)]; split; simpl; try done;
    by apply Forall_insert.
Qed.

Lemma release_mem l : forall send seq, Forall entry_mem l -> 0 <= seq ->
  let '(l', _, seq') := release l send seq in Forall entry_mem l' /\ 0 <= seq'.
Proof.
  induction l as [| e l IH]; intros send seq Hl Hs; simpl; [done |].
  apply Forall_cons_iff in Hl as [He Hl]. destruct (in_use e).
  - specialize (IH true (ce_seq_num e) Hl ltac:(apply He)). destruct (release _ _ _) as [[l' s'] q'].
    destruct IH. split; [by constructor | done].
  - specialize (IH send seq Hl Hs). destruct (release _ _ _) as [[l' s'] q'].
    destruct IH. split; [by constructor | done].
Qed.

Lemma mark_in_use_mem seq l : Forall entry_mem l -> Forall entry_mem (mark_in_use seq l).
Proof. induction 1 as [| e l He Hl IH]; simpl; [done |]. destruct (_ =? _); by constructor. Qed.

Lemma mig_retire_mem m seq : mig_mem m -> mig_mem (nxp_migration_on_retire_connection_id m seq).
Proof. intros []. unfold nxp_migration_on_retire_connection_id. by split. Qed.

Lemma mig_use_cid_mem m seq : mig_mem m -> mig_mem (nxp_migration_use_cid m seq).
Proof.
  intros [Hp ? ? ? Hr]. unfold nxp_migration_use_cid.
  destruct (Forall_take_drop _ (peer_cid_count m) _ Hp) as [H1 H2].
  pose proof (release_mem _ (send_retire_cid m) (retire_seq m) H1 Hr) as Hrel.
  destruct (release _ _ _) as [[l s'] q]. destruct Hrel. split; simpl; try done.
  apply Forall_app. split; [by apply mark_in_use_mem | done].
Qed.

Lemma mig_unused_mem m e : mig_mem m -> nxp_migration_get_unused_cid m = Some e -> entry_mem e.
Proof.
  intros [Hp _ _ _ _] He%List.find_some. destruct He as [He _].
  destruct (Forall_take_drop _ (peer_cid_count m) _ Hp) as [H1 _].
  rewrite Forall_forall in H1. by apply H1.
Qed.

(** ** Acknowledgement state *)

Definition pkt_mem (p : nxp_sent_pkt) : Prop := Forall (fun r => 0 <= fr_offset r) (frames p).

Record ack_mem (ack : nxp_ack_state) : Prop := AckMem {
  am_table : sent_null ack = false;
  am_ranges : Forall (fun r => 0 <= r_end r) (recv_ranges ack);
  am_sent : Forall pkt_mem (sent ack)
}.

Lemma extend_ranges_mem pn rest : forall passed rs, 0 <= pn ->
  Forall (fun r => 0 <= r_end r) passed -> Forall (fun r => 0 <= r_end r) rest ->
  extend_ranges passed rest pn = Some rs -> Forall (fun r => 0 <= r_end r) rs.
Proof.
  induction rest as [| r rest IH]; intros passed rs Hpn Hp Hr; simpl; [done |].
  apply Forall_cons_iff in Hr as [Hr Hrest].
  repeat case_match; try (intros [= <-]); try (by apply IH; try done; constructor).
  all: repeat match goal with
    | H : Forall _ (_ :: _) |- _ => apply Forall_cons_iff in H as [? ?]
    | |- Forall _ (_ ++ _) => apply Forall_app; split
    | |- Forall _ (reverse _) => rewrite reverse_Permutation
    | |- Forall _ (_ :: _) => constructor
    end; simpl in *; try done.
Qed.

Lemma record_pn_mem rs pn : 0 <= pn -> Forall (fun r => 0 <= r_end r) rs ->
  Forall (fun r => 0 <= r_end r) (record_pn rs pn).
Proof.
  intros Hpn Hrs. unfold record_pn. destruct (extend_ranges [] rs pn) as [rs' |] eqn:He.
  - by apply (extend_ranges_mem pn rs [] rs').
  - destruct (_ <? _); [| done]. clear He. induction Hrs as [| r rs Hr Hrs IH]; simpl; [by constructor |].
    destruct (_ >? _); by repeat constructor.
Qed.

Lemma on_pkt_recv_mem ack pn now b : 0 <= pn -> ack_mem ack -> ack_mem (nxp_ack_on_pkt_recv ack pn now b).
Proof.
  intros Hpn [Ht Hr Hs]. unfold nxp_ack_on_pkt_recv. destruct (existsb _ _); [done |].
  pose proof (record_pn_mem _ pn Hpn Hr). destruct (_ || _), b; by split.
Qed.

Lemma decode_pkt_num_nonneg la t n : 0 <= t -> 0 <= nxp_pkt_decode_pkt_num la t n.
Proof.
  intros Ht. unfold nxp_pkt_decode_pkt_num. cbv zeta.
  pose proof (u64_range (la + 1)) as He. set (e := u64 (la + 1)) in *. clearbody e.
  assert (0 <= (e &&& (UINT64_MAX - u64 (u64 (1 <<< (n * 8)) - 1))) ||| t).
  { apply Z.lor_nonneg. split; [| done]. apply Z.land_nonneg. left; lia. }
  repeat case_match; try done; apply u64_range.
Qed.

(** ** Stream identifiers *)

Definition id_is_uni (id : Z) : bool := Z.testbit id 1.

Lemma shiftl_lor_nibble a b : 0 <= b < 16 -> (a <<< 4) ||| b = a * 16 + b.
Proof.
  intros Hb. rewrite Z.shiftl_mul_pow2 by lia.
  rewrite (lor_disjoint _ b 4); [done | lia | | done]. apply Z.mod_mul. lia.
Qed.

(** The four low bits: initiator, direction and type. *)
Definition id_tag (type : nxp_stream_type) (uni srv : bool) : Z :=
  4 * stream_type_code type + 2 * b2z uni + b2z srv.

Lemma make_stream_id_val seq type uni srv : 0 <= seq < 2 ^ 60 ->
  make_stream_id seq type uni srv = seq * 16 + id_tag type uni srv.
Proof.
  intros Hs. unfold make_stream_id. rewrite u64_small by (rewrite Z.shiftl_mul_pow2; lia).
  rewrite <- shiftl_lor_nibble by (destruct type, uni, srv; by_compute).
  destruct type, uni, srv; cbv zeta; rewrite <- ?Z.lor_assoc; reflexivity.
Qed.

Lemma make_stream_id_fields seq type uni srv : 0 <= seq < 2 ^ 60 ->
  let id := make_stream_id seq type uni srv in
  0 <= id < 2 ^ 64 /\ id / 16 = seq /\ id_is_uni id = uni /\ stream_id_is_local id srv = true.
Proof.
  intros Hs id. unfold id. rewrite make_stream_id_val by done.
  assert (0 <= id_tag type uni srv < 16) as Ht by (destruct type, uni, srv; by_compute).
  split_and!; [lia | lia | zlia | |].
  - unfold id_is_uni. rewrite <- shiftl_lor_nibble, Z.lor_spec, Z.shiftl_spec_low by lia.
    by destruct type, uni, srv.
  - unfold stream_id_is_local. change 1 with (2 ^ 1 - 1) at 1. rewrite land_ones_mod by lia.
    replace ((seq * 16 + id_tag type uni srv) mod 2 ^ 1) with (id_tag type uni srv mod 2 ^ 1) by zlia.
    by destruct type, uni, srv.
Qed.

(** ** The invariant *)

Definition handshake_mem (is_server : bool) (o : option nxp_handshake) : Prop :=
  match o with Some hs => hs_inv hs /\ hs_is_server hs = is_server | None => True end.

Definition heartbeat_mem (h : nxp_heartbeat) : Prop := 0 <= echo_timestamp h /\ 0 <= pending_timestamp h.

(** The limits announced to the peer. *)
Definition limits_mem (c : nxp_conn) : Prop :=
  0 <= cn_initial_max_stream_data c < 2 ^ 64 /\ 0 <= cn_idle_timeout_us c < 2 ^ 64 /\
  0 <= cn_local_max_streams_bidi c < 2 ^ 32 /\ 0 <= cn_local_max_streams_uni c < 2 ^ 32.

(** Sequence numbers of local streams are below the counter of their direction,
    which counts the streams opened. *)
Record ids_mem (c : nxp_conn) : Prop := IdsMem {
  im_fresh : forall id, is_Some (cn_streams c !! id) -> stream_id_is_local id (cn_is_server c) = true ->
    id / 16 < (if id_is_uni id then cn_next_uni_id c else cn_next_bidi_id c);
  im_uni : cn_next_uni_id c = cn_open_uni_count c /\ 0 <= cn_open_uni_count c < 2 ^ 32 /\
    0 <= cn_peer_max_streams_uni c < 2 ^ 32;
  im_bidi : cn_next_bidi_id c = cn_open_bidi_count c /\ 0 <= cn_open_bidi_count c < 2 ^ 32 /\
    0 <= cn_peer_max_streams_bidi c < 2 ^ 32
}.

Record conn_ok (c : nxp_conn) : Prop := ConnOk {
  co_table : table_ok (cn_streams c) (cn_sched c);
  co_scid : conn_id_ok (cn_scid c);
  co_dcid : conn_id_ok (cn_dcid c);
  co_handshake : handshake_mem (cn_is_server c) (cn_handshake c);
  co_migration : mig_mem (cn_migration c);
  co_ack : ack_mem (cn_ack c);
  co_flow : flow_ctrl_ok (cn_conn_flow c);
  co_heartbeat : heartbeat_mem (cn_heartbeat c);
  co_limits : limits_mem c;
  co_ids : ids_mem c;
  co_pkt_num : 0 <= cn_next_pkt_num c < 2 ^ 64;
  co_close : 0 <= cn_close_error_code c
}.

(** What time does to a connection. *)
Record conn_le (c c' : nxp_conn) : Prop := ConnLe {
  cl_state : rtc (fun a b => is_valid_conn_state_transition a b = true) (cn_state c) (cn_state c');
  cl_role : cn_is_server c' = cn_is_server c;
  cl_scid : cn_scid c' = cn_scid c;
  cl_streams : forall id, is_Some (cn_streams c !! id) -> is_Some (cn_streams c' !! id);
  cl_ids : cn_next_uni_id c <= cn_next_uni_id c' /\ cn_next_bidi_id c <= cn_next_bidi_id c';
  cl_handshake : is_Some (cn_handshake c) -> is_Some (cn_handshake c');
  cl_pkt_num : cn_next_pkt_num c <= cn_next_pkt_num c';
  cl_sent : data_sent (cn_conn_flow c) <= data_sent (cn_conn_flow c')
}.

Definition conn_next (c c' : nxp_conn) : Prop := conn_ok c' /\ conn_le c c'.

Lemma conn_le_refl c : conn_le c c.
Proof. split; try done. Qed.

Lemma conn_le_trans a b c : conn_le a b -> conn_le b c -> conn_le a c.
Proof.
  intros [S1 R1 I1 T1 [U1 V1] H1 P1 D1] [S2 R2 I2 T2 [U2 V2] H2 P2 D2].
  split; [by etrans | congruence | congruence | auto | lia | auto | lia | lia].
Qed.

Lemma conn_next_refl c : conn_ok c -> conn_next c c.
Proof. intros. split; [done | apply conn_le_refl]. Qed.

Lemma conn_next_trans a b c : conn_next a b -> conn_next b c -> conn_next a c.
Proof. intros [_ ?] [? ?]. split; [done | by eapply conn_le_trans]. Qed.

(** The result is defined; the connection that an error leaves is well formed. *)
Definition conn_keeps {A} (c : nxp_conn) (Q : A -> Prop) (r : outcome (nxp_error_code * nxp_conn) A) : Prop :=
  match r with
  | Done a => Q a
  | Err (_, c') => conn_next c c'
  | Ub => False
  end.

Lemma conn_keeps_bind {A B} c (Q : A -> Prop) (R : B -> Prop) m k :
  conn_keeps c Q m -> (forall a, Q a -> conn_keeps c R (k a)) -> conn_keeps c R (obind m k).
Proof. destruct m as [a | [e c'] |]; simpl; auto. Qed.

Lemma conn_keeps_from c c1 r : conn_next c c1 -> conn_keeps c1 (conn_next c1) r -> conn_keeps c (conn_next c) r.
Proof. intros Hn. destruct r as [a | [e c'] |]; simpl; [| | done]; by apply conn_next_trans. Qed.

(** Assignments to a connection reached from [c0], one lemma for each field. *)
Create HintDb conn discriminated.

Ltac conn_set :=
  intros [Hok Hle]; intros; refine (conn_next_trans _ _ _ (conj Hok Hle) _); clear Hle;
  destruct Hok as [? ? ? ? ? ? ? ? ? [? ? ?] ? ?]; split; split; try done.

Section Assign.
  Context (c0 c : nxp_conn).

Lemma next_streams st sc : conn_next c0 c -> table_ok st sc ->
  (forall id, is_Some (st !! id) <-> is_Some (cn_streams c !! id)) ->
  conn_next c0 (c <| cn_streams := st |> <| cn_sched := sc |>).
Proof.
  conn_set.
  - split; [| done..]. intros id Hid. by apply im_fresh0, H0.
  - intros id. apply H0.
Qed.

Lemma next_state st : conn_next c0 c -> conn_next c0 (set_conn_state c st).
Proof.
  unfold set_conn_state. destruct (is_valid_conn_state_transition _ _) eqn:Hv; [| done].
  cbn [negb]. conn_set. by apply rtc_once.
Qed.

Lemma next_sched sc : conn_next c0 c -> table_ok (cn_streams c) sc -> conn_next c0 (c <| cn_sched := sc |>).
Proof. conn_set. Qed.
Lemma next_dcid v : conn_next c0 c -> conn_id_ok v -> conn_next c0 (c <| cn_dcid := v |>).
Proof. conn_set. Qed.
Lemma next_handshake hs : conn_next c0 c -> hs_inv hs -> hs_is_server hs = cn_is_server c ->
  conn_next c0 (c <| cn_handshake := Some hs |>).
Proof. conn_set. Qed.
Lemma next_migration v : conn_next c0 c -> mig_mem v -> conn_next c0 (c <| cn_migration := v |>).
Proof. conn_set. Qed.
Lemma next_ack v : conn_next c0 c -> ack_mem v -> conn_next c0 (c <| cn_ack := v |>).
Proof. conn_set. Qed.
Lemma next_flow v : conn_next c0 c -> flow_ctrl_ok v -> data_sent (cn_conn_flow c) <= data_sent v -> conn_next c0 (c <| cn_conn_flow := v |>).
Proof. conn_set. Qed.
Lemma next_heartbeat v : conn_next c0 c -> heartbeat_mem v -> conn_next c0 (c <| cn_heartbeat := v |>).
Proof. conn_set. Qed.
Lemma next_peer_bidi v : conn_next c0 c -> 0 <= v < 2 ^ 32 -> conn_next c0 (c <| cn_peer_max_streams_bidi := v |>).
Proof. conn_set. split; [done | done | tauto]. Qed.
Lemma next_peer_uni v : conn_next c0 c -> 0 <= v < 2 ^ 32 -> conn_next c0 (c <| cn_peer_max_streams_uni := v |>).
Proof. conn_set. split; [done | tauto | done]. Qed.
Lemma next_pkt_num v : conn_next c0 c -> cn_next_pkt_num c <= v < 2 ^ 64 -> conn_next c0 (c <| cn_next_pkt_num := v |>).
Proof. conn_set; simpl; lia. Qed.
Lemma next_close_code v : conn_next c0 c -> 0 <= v -> conn_next c0 (c <| cn_close_error_code := v |>).
Proof. conn_set. Qed.

(** Fields that the invariant does not constrain. *)
Lemma next_stats v : conn_next c0 c -> conn_next c0 (c <| cn_stats := v |>).
Proof. conn_set. Qed.
Lemma next_notices v : conn_next c0 c -> conn_next c0 (c <| cn_notices := v |>).
Proof. conn_set. Qed.
Lemma next_activity v : conn_next c0 c -> conn_next c0 (c <| cn_last_activity_us := v |>).
Proof. conn_set. Qed.
Lemma next_notify v : conn_next c0 c -> conn_next c0 (c <| cn_on_new_stream := v |>).
Proof. conn_set. Qed.
Lemma next_crypto v : conn_next c0 c -> conn_next c0 (c <| cn_crypto := v |>).
Proof. conn_set. Qed.
Lemma next_cc v : conn_next c0 c -> conn_next c0 (c <| cn_cc_state := v |>).
Proof. conn_set. Qed.
Lemma next_pacer v : conn_next c0 c -> conn_next c0 (c <| cn_pacer := v |>).
Proof. conn_set. Qed.
Lemma next_rate v : conn_next c0 c -> conn_next c0 (c <| cn_delivery_rate := v |>).
Proof. conn_set. Qed.
Lemma next_ping v : conn_next c0 c -> conn_next c0 (c <| cn_send_ping := v |>).
Proof. conn_set. Qed.
Lemma next_close v : conn_next c0 c -> conn_next c0 (c <| cn_send_conn_close := v |>).
Proof. conn_set. Qed.
Lemma next_addr v : conn_next c0 c -> conn_next c0 (c <| cn_peer_addr := v |>).
Proof. conn_set. Qed.
Lemma next_reconnect b n : conn_next c0 c ->
  conn_next c0 (c <| cn_auto_reconnect := b |> <| cn_max_reconnect_attempts := n |>).
Proof. conn_set. Qed.

End Assign.
#[export] Hint Resolve conn_next_refl next_state next_sched next_dcid next_handshake next_migration next_ack
  next_flow next_heartbeat next_peer_bidi next_peer_uni next_pkt_num next_close_code next_stats next_notices
  next_activity next_crypto next_cc next_pacer next_rate next_ping next_close next_addr next_reconnect next_notify : conn.

(** A stream of the table is replaced; a frame of it is scheduled. *)
Lemma next_put c0 c id s : conn_next c0 c -> is_Some (cn_streams c !! id) -> stream_mem id s ->
  conn_next c0 (c <| cn_streams := <[id := s]> (cn_streams c) |>).
Proof.
  conn_set; [by apply table_update | split; [| done..] |].
  - intros a. simpl. rewrite lookup_insert_is_Some. intros [<- | [_ Ha]]; by apply im_fresh0.
  - intros a Ha. simpl. rewrite lookup_insert_is_Some. destruct (decide (id = a)); [by left | by right].
Qed.
#[export] Hint Resolve next_put : conn.

Lemma next_sched_add c0 c id : conn_next c0 c -> is_Some (cn_streams c !! id) ->
  exists q, sched_add c id = Done (c <| cn_sched := q |>) /\ conn_next c0 (c <| cn_sched := q |>).
Proof.
  intros Hn Hid. pose proof Hn as [Hok _]. destruct (table_add _ _ id (co_table c Hok) Hid) as (q & Hq & Ht).
  exists q. unfold sched_add. rewrite Hq. split; [done |]. by apply next_sched.
Qed.

Lemma next_lookup c0 c id s : conn_next c0 c -> cn_streams c !! id = Some s -> stream_mem id s.
Proof. intros [Hok _]. apply (table_stream _ _ _ _ (co_table c Hok)). Qed.

(** ** Acknowledgements and losses *)

Lemma next_ack_frame c0 c rec : conn_next c0 c -> conn_next c0 (ack_frame c rec).
Proof.
  intros Hn. unfold ack_frame. destruct (cn_streams c !! fr_stream_id rec) as [s |] eqn:Hs; [| done].
  pose proof (next_lookup _ _ _ _ Hn Hs) as Hm.
  pose proof (stream_mem_on_ack _ _ (fr_offset rec) (fr_len rec) (fr_fin rec) Hm) as Hm'.
  assert (is_Some (cn_streams c !! fr_stream_id rec)) by eauto.
  set (s' := nxp_stream_on_ack s _ _ _) in *. clearbody s'.
  assert (stream_mem (fr_stream_id rec) (s' <| blocked := false |>)) by (destruct Hm'; by split).
  destruct (blocked s'), (on_writable s'); auto 12 with conn.
Qed.

Lemma next_packet_acked c0 c ack p : conn_next c0 c -> conn_next c0 (on_packet_acked c ack p).
Proof.
  intros Hn. unfold on_packet_acked.
  set (c1 := foldl ack_frame _ _).
  assert (conn_next c0 c1) as H1.
  { unfold c1. generalize (next_stats _ _ (cn_stats c <| st_packets_sent := u64 (st_packets_sent (cn_stats c) + 1) |>) Hn).
    generalize (c <| cn_stats := cn_stats c <| st_packets_sent := u64 (st_packets_sent (cn_stats c) + 1) |> |>).
    induction (frames p) as [| r rs IH]; intros b Hb; simpl; [done |]. by apply IH, next_ack_frame. }
  clearbody c1. destruct (cn_cc_state c1); auto 12 with conn.
Qed.

Lemma lose_frame_keeps c0 r rec : 0 <= fr_offset rec ->
  conn_keeps c0 (conn_next c0) r -> conn_keeps c0 (conn_next c0) (lose_frame r rec).
Proof.
  intros Ho Hr. apply (conn_keeps_bind _ _ _ _ _ Hr). clear r Hr. intros c Hn. cbv beta zeta.
  destruct (cn_streams c !! fr_stream_id rec) as [s |] eqn:Hs; [| done].
  pose proof (next_lookup _ _ _ _ Hn Hs) as Hm.
  pose proof (stream_mem_on_loss _ _ (fr_offset rec) (fr_len rec) (fr_fin rec) Ho Hm) as Hm'.
  set (s' := nxp_stream_on_loss s _ _ _) in *. clearbody s'.
  assert (conn_next c0 (c <| cn_streams := <[fr_stream_id rec := s']> (cn_streams c) |>)) as Hn' by eauto with conn.
  destruct (next_sched_add _ _ (fr_stream_id rec) Hn') as (q & -> & Hq); [| done].
  simpl. rewrite lookup_insert_is_Some. by left.
Qed.

Lemma packet_lost_keeps c0 c ack p : pkt_mem p -> conn_next c0 c -> conn_keeps c0 (conn_next c0) (on_packet_lost c ack p).
Proof.
  intros Hp Hn. unfold on_packet_lost. apply (conn_keeps_bind _ (conn_next c0)).
  - generalize (next_stats _ _ (cn_stats c <| st_packets_lost := u64 (st_packets_lost (cn_stats c) + 1) |>) Hn).
    generalize (c <| cn_stats := cn_stats c <| st_packets_lost := u64 (st_packets_lost (cn_stats c) + 1) |> |>).
    intros b Hb. assert (conn_keeps c0 (conn_next c0) (Done b)) as Hr by done. revert Hr.
    generalize (@Done (nxp_error_code * nxp_conn) _ b).
    induction Hp as [| r rs Ho _ IH]; intros x Hx; simpl; [done |]. by apply IH, lose_frame_keeps.
  - intros b Hb. destruct (cn_cc_state b); simpl; auto 12 with conn.
Qed.

Lemma acked_cb_keeps c0 r ack p : conn_keeps c0 (conn_next c0) r -> conn_keeps c0 (conn_next c0) (acked_cb r ack p).
Proof. intros Hr. apply (conn_keeps_bind _ _ _ _ _ Hr). intros c Hn. by apply next_packet_acked. Qed.

Lemma lost_cb_keeps c0 r ack p : pkt_mem p ->
  conn_keeps c0 (conn_next c0) r -> conn_keeps c0 (conn_next c0) (lost_cb r ack p).
Proof. intros Hp Hr. apply (conn_keeps_bind _ _ _ _ _ Hr). intros c Hn. by apply packet_lost_keeps. Qed.

Lemma ack_mem_side ack ack' : recv_side ack' = recv_side ack -> Forall pkt_mem (sent ack') -> ack_mem ack -> ack_mem ack'.
Proof. intros [= Hr _ _ _ _ Hn] Hs []. split; [by rewrite Hn | by rewrite Hr | done]. Qed.

Lemma on_ack_frame_keeps c f now : conn_ok c -> conn_keeps c (conn_next c) (on_ack_frame c f now).
Proof.
  intros Hok. unfold on_ack_frame. pose proof (co_ack c Hok) as Ha.
  pose proof (on_ack_recv_inv acked_cb lost_cb (conn_keeps c (conn_next c)) pkt_mem
    ltac:(done) ltac:(intros; by apply acked_cb_keeps) ltac:(intros; by apply lost_cb_keeps)
    (cn_ack c) f now (Done c) (conn_next_refl c Hok) (am_sent _ Ha)) as Hi.
  destruct (nxp_ack_on_ack_recv _ _ _ _ _ _) as [ack r]. destruct Hi as (Hr & Hs & Hside).
  apply (conn_keeps_bind _ _ _ _ _ Hr). intros c1 Hn. simpl.
  pose proof (ack_mem_side _ _ Hside Hs Ha). auto 12 with conn.
Qed.

(** ** Incoming frames *)

Lemma flow_peer_max_mem fc m : flow_ctrl_ok fc -> 0 <= m <= NXP_VARINT_MAX -> flow_ctrl_ok (nxp_flow_set_peer_max fc m).
Proof. intros Hf Hm. apply (flow_step_ok fc (OpPeerMax m) Hf). simpl. unfold NXP_VARINT_MAX in Hm. lia. Qed.

Lemma peer_max_sent fc m : data_sent fc <= data_sent (nxp_flow_set_peer_max fc m).
Proof. unfold nxp_flow_set_peer_max. by destruct (_ >? _). Qed.

Lemma next_peer_params c0 c hs : conn_next c0 c -> hs_inv hs -> conn_next c0 (apply_peer_params c hs).
Proof.
  intros Hn [Hhs _]. pose proof (hs_peer_params hs Hhs) as (Ht & Hmax & _).
  unfold params_typed in Ht. destruct Ht as (Hmd & _ & Hmb & Hmu & _).
  unfold apply_peer_params. destruct (has_peer_params hs); [| done]. cbv zeta. cbn [negb].
  set (c1 := if _ >? _ then _ else c).
  assert (conn_next c0 c1) as Hn1.
  { unfold c1. destruct (_ >? _); [| done]. apply next_flow; [done | | by apply peer_max_sent].
    apply flow_peer_max_mem; [apply co_flow, Hn | lia]. }
  clearbody c1. set (c2 := if _ >? _ then _ else c1).
  assert (conn_next c0 c2) as Hn2 by (unfold c2; destruct (_ >? _); auto 12 with conn).
  clearbody c2. destruct (_ >? _); auto 12 with conn.
Qed.

Lemma set_state_handshake c st : cn_handshake (set_conn_state c st) = cn_handshake c.
Proof. unfold set_conn_state. by destruct (negb _). Qed.

Lemma peer_params_handshake c hs : cn_handshake (apply_peer_params c hs) = cn_handshake c.
Proof. unfold apply_peer_params. by repeat case_match. Qed.

Lemma on_max_stream_data_keeps c id m : conn_ok c -> 0 <= m <= NXP_VARINT_MAX ->
  conn_keeps c (conn_next c) (on_max_stream_data c id m).
Proof.
  intros Hok Hm. unfold on_max_stream_data. pose proof (conn_next_refl c Hok) as Hn.
  destruct (cn_streams c !! id) as [s |] eqn:Hs; [| done]. cbv zeta.
  pose proof (next_lookup _ _ _ _ Hn Hs) as Hsm.
  set (s' := s <| flow := nxp_flow_set_peer_max (flow s) m |>).
  assert (stream_mem id s') as Hs'.
  { unfold s', nxp_flow_set_peer_max, NXP_VARINT_MAX in *. destruct Hsm as [? ? ? [] ?].
    rewrite Z.gtb_ltb. destruct (Z.ltb_spec (peer_max_data (flow s)) m); split; simpl; try done. lia. }
  clearbody s'. assert (conn_next c (c <| cn_streams := <[id := s']> (cn_streams c) |>)) as Hn' by eauto with conn.
  destruct (_ >? _); [| done].
  destruct (next_sched_add _ _ id Hn') as (q & -> & Hq); [| done].
  simpl. rewrite lookup_insert_is_Some. by left.
Qed.

Lemma next_handshake_done c : conn_ok c -> (forall hs, hs_inv hs -> hs_steps hs (nxp_handshake_on_handshake_done hs)) ->
  conn_next c (on_handshake_done_frame c).
Proof.
  intros Hok Hst. unfold on_handshake_done_frame. pose proof (co_handshake c Hok) as Hh.
  destruct (cn_handshake c) as [hs |]; [| auto 12 with conn]. destruct Hh as [Hinv Hr].
  specialize (Hst hs Hinv). destruct (nxp_handshake_on_handshake_done hs) as [hs' | e |]; auto 12 with conn.
  destruct Hst as (Hinv' & Hr' & _). apply next_peer_params; [| done].
  apply next_state, next_handshake; [auto 12 with conn | done | congruence].
Qed.

Lemma next_path_response c d : conn_ok c -> conn_next c (on_path_response_frame c d).
Proof.
  intros Hok. unfold on_path_response_frame.
  pose proof (mig_response_mem (cn_migration c) d (co_migration c Hok)) as Hm.
  destruct (nxp_migration_on_path_response (cn_migration c) d) as [m valid]. simpl in Hm.
  destruct valid; simpl; [| auto 12 with conn].
  destruct (nxp_migration_get_unused_cid m) as [e |] eqn:He; [| auto 12 with conn].
  pose proof (mig_unused_mem m e Hm He) as (? & _ & _). pose proof (mig_use_cid_mem m (ce_seq_num e) Hm).
  auto 12 with conn.
Qed.

Lemma on_new_token_keeps c n p : conn_ok c -> ptr_ok NXP_MAX_TOKEN_LEN n p ->
  conn_keeps c (conn_next c) (on_new_token c n p).
Proof.
  intros Hok (Hn & Hp). unfold on_new_token. pose proof (co_handshake c Hok) as Hh.
  pose proof (conn_next_refl c Hok) as Hc.
  destruct (cn_is_server c) eqn:Hcs, (cn_handshake c) as [hs |]; try done.
  destruct (Z.leb_spec n 256); [| done]. destruct Hh as [(Hhs & Hrole & Hk) Hsrv].
  pose proof (hs_ticket_size hs Hhs) as Ht.
  assert (zlen (ptr_bytes p) = n) as Hl by (destruct p; simpl; [apply Hp | subst; done]).
  rewrite memcpy_splice by lia. cbn [obind]. apply next_handshake; [done | | simpl; congruence].
  split; [| done]. destruct Hhs. split; try done. simpl.
  rewrite zlen_splice by (rewrite ?zlen_ztake; lia). done.
Qed.

Section Safety.
Context `{Allocator} `{OpenSSLLaws}.

(** A new stream, in the table or not. *)
Lemma next_store c0 c id s : conn_next c0 c -> cn_streams c !! id = None -> stream_mem id s ->
  (stream_id_is_local id (cn_is_server c) = true ->
   id / 16 < (if id_is_uni id then cn_next_uni_id c else cn_next_bidi_id c)) ->
  conn_next c0 (store_stream c id s).
Proof.
  intros Hn Hid Hs Hloc. unfold store_stream. destruct (put_stream id); [| done]. revert Hn.
  conn_set; [by apply table_new | split; [| done..] |].
  - intros a. simpl. rewrite lookup_insert_is_Some. intros [<- | [_ Ha]]; [done | by apply im_fresh0].
  - intros a Ha. simpl. rewrite lookup_insert_is_Some. destruct (decide (id = a)); [by left | by right].
Qed.

Lemma deliver_keeps c0 c stored s f : conn_next c0 c -> stream_mem (sf_stream_id f) s ->
  (stored = true -> is_Some (cn_streams c !! sf_stream_id f)) -> stream_ok f ->
  match sf_data f with Some l => zlen l <= NXP_STREAM_BUF_SIZE | None => True end ->
  conn_keeps c0 (conn_next c0) (deliver c stored s f).
Proof.
  intros Hn Hs Hst Hf Hfit. unfold deliver. pose proof (stream_recv_mem _ s f Hs Hf Hfit) as Hr.
  destruct (nxp_stream_on_recv s f) as [s' | e |]; [| done | done].
  destruct stored; simpl; [apply next_put; auto | done].
Qed.

Lemma on_stream_frame_keeps c f : conn_ok c -> stream_ok f ->
  match sf_data f with Some l => zlen l <= NXP_STREAM_BUF_SIZE | None => True end ->
  conn_keeps c (conn_next c) (on_stream_frame c f).
Proof.
  intros Hok Hf Hfit. pose proof (conn_next_refl c Hok) as Hn. unfold on_stream_frame. cbv zeta.
  destruct (cn_streams c !! sf_stream_id f) as [s |] eqn:Hs.
  { apply deliver_keeps; [done | by eapply next_lookup | eauto | done | done]. }
  destruct (stream_id_is_local (sf_stream_id f) (cn_is_server c)) eqn:Hloc; [done |].
  destruct (nxp_stream_create _ _ _ _ _) as [s |] eqn:Hcr; [| done].
  apply stream_mem_new in Hcr; [| apply Hf | apply (co_limits c Hok)].
  pose proof (next_store c c (sf_stream_id f) s Hn Hs Hcr ltac:(congruence)) as Hn1.
  assert (put_stream (sf_stream_id f) = true -> is_Some (cn_streams (store_stream c (sf_stream_id f) s) !! sf_stream_id f)) as Hin.
  { unfold store_stream. intros ->. simpl. rewrite lookup_insert_is_Some. by left. }
  revert Hn1 Hin. generalize (store_stream c (sf_stream_id f) s). intros c1 Hn1 Hin.
  assert (conn_next c (count_stream c1)) as Hn2 by (unfold count_stream; auto with conn).
  assert (put_stream (sf_stream_id f) = true -> is_Some (cn_streams (count_stream c1) !! sf_stream_id f)) as Hin2 by done.
  revert Hn2 Hin2. generalize (count_stream c1). intros c2 Hn2 Hin2.
  destruct (cn_on_new_stream c2); by apply deliver_keeps; auto with conn.
Qed.

Lemma hb_recv_mem h t now : heartbeat_mem h -> 0 <= t -> heartbeat_mem (nxp_heartbeat_on_recv h t now).
Proof. intros [? ?] ?. by split. Qed.

(** A frame decoded from a packet: well formed, and its data fits the buffers. *)
Definition frame_fits (f : nxp_frame) : Prop :=
  frame_ok f /\
  match f with
  | FStream s => match sf_data s with Some l => zlen l <= NXP_STREAM_BUF_SIZE | None => True end
  | _ => True
  end.

Lemma on_frame_keeps now c f : conn_ok c -> frame_fits f -> conn_keeps c (conn_next c) (on_frame now c f).
Proof.
  intros Hok [Hf Hfit]. pose proof (conn_next_refl c Hok) as Hn.
  pose proof (u32_range : forall z, 0 <= u32 z < 2 ^ 32) as Hu.
  destruct f as [| | a | | | | n p | s | m | id m | m bidi | | | | n | r | d | d | cc | | hb | |];
    cbn [on_frame frame_ok] in *; try done.
  - by apply on_ack_frame_keeps.
  - by apply on_new_token_keeps.
  - by apply on_stream_frame_keeps.
  - apply next_flow; [done | by apply flow_peer_max_mem; [apply co_flow |] | by apply peer_max_sent].
  - apply on_max_stream_data_keeps; [done | apply Hf].
  - destruct bidi; simpl; auto with conn.
  - destruct Hf as ([? _] & _ & ? & ? & _). apply next_migration; [done |].
    by apply mig_new_cid_mem; [apply co_migration | ..].
  - apply next_migration; [done |]. apply mig_retire_mem, co_migration, Hok.
  - apply next_migration; [done |]. apply mig_challenge_mem; [apply co_migration, Hok | apply Hf].
  - by apply next_path_response.
  - by apply next_state.
  - apply next_handshake_done; [done |]. intros hs Hinv. by apply (hs_run_steps hs EvHandshakeDone Hinv).
  - apply next_heartbeat; [done |]. apply hb_recv_mem; [apply co_heartbeat, Hok | apply Hf].
Qed.

(** Every frame of a payload of at most a packet fits, and the loop ends. *)
Lemma frames_loop_keeps handle c0 payload : bytes_ok payload -> zlen payload <= NXP_STREAM_BUF_SIZE ->
  (forall c f, conn_ok c -> frame_fits f -> conn_next c0 c -> conn_keeps c0 (conn_next c0) (handle c f)) ->
  forall fuel c pos, conn_next c0 c -> 0 <= pos <= zlen payload -> zlen payload - pos <= Z.of_nat fuel ->
  conn_keeps c0 (conn_next c0) (frames_loop handle fuel c payload pos).
Proof.
  intros Hb Hlen Hh. induction fuel as [| fuel IH]; intros c pos Hn Hpos Hfuel; simpl.
  { rewrite (proj2 (Z.ltb_ge _ _)) by lia. done. }
  destruct (Z.ltb_spec pos (zlen payload)) as [Hlt |]; [| done]. cbn [negb].
  assert (zlen (zdrop pos payload) = zlen payload - pos) as Hd by (apply zlen_zdrop; lia).
  destruct (frame_decode_total (zdrop pos payload)) as [-> | (f & n & Hdec & Hf & Hn')];
    [by apply bytes_ok_drop | pose proof buf_size_packet; lia | done |].
  rewrite Hdec. apply (conn_keeps_bind _ (conn_next c0)).
  - apply Hh; [apply Hn | | done]. split; [done |]. destruct f; try done.
    apply frame_decode_within in Hdec. destruct (sf_data f); [lia | done].
  - intros c1 Hn1. apply IH; [done | lia | lia].
Qed.

Lemma process_frames_keeps c0 c payload now : conn_next c0 c -> bytes_ok payload ->
  zlen payload <= NXP_STREAM_BUF_SIZE -> conn_keeps c0 (conn_next c0) (process_frames c payload now).
Proof.
  intros Hn Hb Hlen. pose proof (zlen_nonneg payload). apply frames_loop_keeps; try done; [| unfold zlen; lia].
  intros c1 f Hok1 Hf Hn1. apply (conn_keeps_from _ c1); [done | by apply on_frame_keeps].
Qed.

(** ** Incoming packets *)

Lemma open_packet_keeps c0 c keys buf hdr pn : conn_next c0 c -> bytes_ok buf ->
  zlen buf <= NXP_PACKET_BUF_SIZE -> 0 <= hdr <= zlen buf ->
  conn_keeps c0 (fun pt => bytes_ok pt /\ zlen pt <= NXP_PACKET_BUF_SIZE) (open_packet c keys buf hdr pn).
Proof.
  intros Hn Hb Hlen Hh. unfold open_packet. rewrite !sub_buf_Done by lia. cbn [obind].
  set (ct := ztake _ (zdrop hdr buf)).
  assert (zlen ct = zlen buf - hdr) as Hct by (apply zlen_ztake; rewrite zlen_zdrop; lia).
  clearbody ct. unfold or_crypto_fail.
  destruct (aead_decrypt_total (cs_algo keys) (ck_key (cs_recv keys))
    (nxp_crypto_make_nonce (ck_iv (cs_recv keys)) pn) (ztake hdr (zdrop 0 buf)) ct NXP_PACKET_BUF_SIZE)
    as [-> | (p & -> & Hp & Hpb & Htag)]; [lia | done |].
  unfold NXP_AEAD_TAG_LEN in *. split; [done | lia].
Qed.

Lemma next_learn_dcid c0 c h : conn_next c0 c -> conn_id_ok (lh_scid h) -> conn_next c0 (learn_dcid c h).
Proof.
  intros Hn Hs. unfold learn_dcid. cbv zeta. set (c1 := if _ && _ && _ then _ else c).
  assert (conn_next c0 c1) as Hn1 by (unfold c1; destruct (_ && _ && _); auto with conn).
  clearbody c1. destruct (_ && _); auto with conn.
Qed.

Lemma on_crypto_frame_keeps level c f : conn_ok c -> is_Some (cn_handshake c) -> bytes_ok (ptr_bytes (cr_data f)) ->
  conn_keeps c (conn_next c) (on_crypto_frame level c f).
Proof.
  intros Hok [hs0 Hs] Hb. unfold on_crypto_frame. pose proof (co_handshake c Hok) as Hh.
  destruct (cn_handshake c) as [hs |]; [| done]. destruct Hh as [Hinv Hr].
  pose proof (hs_run_steps hs (EvCrypto level (ptr_bytes (cr_data f))) Hinv Hb) as Hst. cbn [hs_run] in Hst.
  destruct (nxp_handshake_recv_crypto hs level (ptr_bytes (cr_data f))) as [hs' | [e hs'] |]; [| | done];
    destruct Hst as (Hinv' & Hr' & _);
    assert (conn_next c (c <| cn_handshake := Some hs' |>)) as Hn
      by (apply next_handshake; [auto 12 with conn | done | congruence]); [| done].
  cbv zeta. set (c1 := if _ && _ then _ else _).
  assert (conn_next c c1) as Hn1 by (unfold c1; destruct (_ && _); auto with conn).
  clearbody c1. simpl. destruct (nxp_handshake_is_complete hs'); [| done].
  by apply next_peer_params; [apply next_state |].
Qed.

Lemma on_long_done_keeps c : conn_ok c -> is_Some (cn_handshake c) ->
  conn_keeps c (conn_next c) (on_long_handshake_done c).
Proof.
  intros Hok [hs0 Hs]. unfold on_long_handshake_done. pose proof (co_handshake c Hok) as Hh.
  destruct (cn_handshake c) as [hs |]; [| done]. destruct Hh as [Hinv Hr].
  pose proof (hs_run_steps hs EvHandshakeDone Hinv I) as Hst. cbn [hs_run] in Hst.
  destruct (nxp_handshake_on_handshake_done hs) as [hs' | [e hs'] |]; [| | done];
    destruct Hst as (Hinv' & Hr' & _);
    assert (conn_next c (c <| cn_handshake := Some hs' |>)) as Hn
      by (apply next_handshake; [auto 12 with conn | done | congruence]); [| done].
  simpl. by apply next_peer_params; [apply next_state, next_crypto |].
Qed.

Lemma on_handshake_frame_keeps level c f : conn_ok c -> is_Some (cn_handshake c) -> frame_ok f ->
  conn_keeps c (conn_next c) (on_handshake_frame level c f).
Proof.
  intros Hok Hs Hf. destruct f; simpl; auto using conn_next_refl, on_long_done_keeps.
  apply on_crypto_frame_keeps; [done | done |]. destruct Hf as (_ & _ & Hp).
  destruct (cr_data f); [apply Hp | constructor].
Qed.

Lemma copy_packet_keeps c0 c data : conn_next c0 c -> bytes_ok data ->
  conn_keeps c0 (fun buf => bytes_ok buf /\ zlen buf <= NXP_PACKET_BUF_SIZE) (copy_packet c data).
Proof.
  intros Hn Hb. unfold copy_packet. rewrite Z.gtb_ltb.
  destruct (Z.ltb_spec NXP_PACKET_BUF_SIZE (zlen data)); simpl; done.
Qed.

Lemma unprotect_keeps c0 c algo key buf off : conn_next c0 c -> bytes_ok buf ->
  zlen buf <= NXP_PACKET_BUF_SIZE -> 1 <= off < 2 ^ 62 ->
  conn_keeps c0 (fun '(n, p) => 1 <= n <= 4 /\ off + 20 <= zlen p /\ zlen p <= NXP_PACKET_BUF_SIZE /\ bytes_ok p)
    (or_crypto_fail c (nxp_hp_unprotect algo key buf off)).
Proof.
  intros Hn Hb Hlen Hoff. unfold NXP_PACKET_BUF_SIZE in *.
  pose proof (hp_unprotect_safe algo key buf off Hb ltac:(lia) Hoff) as Hu.
  unfold or_crypto_fail. destruct (nxp_hp_unprotect algo key buf off) as [[n p] | |]; simpl; [| done | done].
  destruct Hu as (? & ? & Hz & ?). rewrite Hz. split_and!; try done; lia.
Qed.

Lemma recv_handshake_keeps c0 c data : conn_next c0 c -> bytes_ok data ->
  conn_keeps c0 (conn_next c0) (recv_handshake_packet c data).
Proof.
  intros Hn Hb. unfold recv_handshake_packet. destruct (cn_handshake c) as [hs |] eqn:Hhs; [| done].
  apply (conn_keeps_bind _ _ _ _ _ (copy_packet_keeps c0 c data Hn Hb)). intros buf [Hbuf Hlen].
  assert (zlen buf < 2 ^ 62) as Hl by (unfold NXP_PACKET_BUF_SIZE in Hlen; lia).
  pose proof (long_decode_safe buf Hbuf ltac:(lia)) as Hd.
  destruct (nxp_pkt_decode_long_header buf) as [h | e |]; [| done | done].
  destruct Hd as (_ & _ & _ & Hsc & _ & Hhl & Hd).
  pose proof (next_learn_dcid c0 c h Hn Hsc) as Hn1.
  assert (is_Some (cn_handshake (learn_dcid c h))) as Hsome.
  { apply (next_learn_dcid c c h (conn_next_refl c (proj1 Hn)) Hsc). by rewrite Hhs. }
  revert Hn1 Hsome. generalize (learn_dcid c h). intros c1 Hn1 Hsome.
  destruct (level_keys hs (lh_type h)) as [[level keys] |] eqn:Hk; [| done].
  assert (1 <= lh_pkt_num_offset h < 2 ^ 62) as Hoff.
  { unfold level_keys in Hk. destruct (lh_type h); try done; simpl in Hd; lia. }
  destruct (cs_available keys); [| done]. cbn [negb].
  apply (conn_keeps_bind _ _ _ _ _ (unprotect_keeps c0 c1 _ _ buf _ Hn1 Hbuf Hlen Hoff)).
  intros [n p] (Hn' & Hp & Hpl & Hpb).
  destruct (read_pkt_num_safe (Z.to_nat n) 0 p (lh_pkt_num_offset h) Hpb) as [v Hv]; [lia.. |].
  rewrite Hv. cbn [or_crypto_fail or_fail obind].
  apply (conn_keeps_bind _ _ _ _ _ (open_packet_keeps c0 c1 keys p (lh_pkt_num_offset h + n) _ Hn1 Hpb Hpl ltac:(lia))).
  intros pt [Hpt Hptl]. pose proof buf_size_packet. pose proof (zlen_nonneg pt).
  apply (conn_keeps_from _ c1); [done |]. pose proof (conn_next_refl c1 (proj1 Hn1)).
  apply frames_loop_keeps; [done | lia | | done | lia | unfold zlen; lia].
  intros c2 f Hok2 [Hf _] Hn2. apply (conn_keeps_from _ c2); [done |].
  apply on_handshake_frame_keeps; [done | by apply Hn2 | done].
Qed.

Lemma recv_short_keeps c0 c buf now : conn_next c0 c -> bytes_ok buf -> zlen buf <= NXP_PACKET_BUF_SIZE ->
  conn_keeps c0 (conn_next c0) (recv_short_packet c buf now).
Proof.
  intros Hn Hb Hlen. unfold recv_short_packet.
  assert (0 <= cid_len (cn_scid c) <= 20) as Hcid.
  { destruct Hn as [[_ (l & -> & Hl & _) _ _ _ _ _ _ _ _ _ _] _]. pose proof (zlen_nonneg l). simpl. done. }
  apply (conn_keeps_bind _ (fun b => bytes_ok b /\ zlen b <= NXP_PACKET_BUF_SIZE)).
  { destruct (cs_available (cn_crypto c)); [| done].
    apply (conn_keeps_bind _ _ _ _ _ (unprotect_keeps c0 c _ _ buf (1 + cid_len (cn_scid c)) Hn Hb Hlen ltac:(lia))).
    intros [n p] (_ & _ & ? & ?). done. }
  clear buf Hb Hlen. intros buf [Hb Hlen]. pose proof buf_size_packet as Hsz.
  pose proof (short_decode_safe buf (cid_len (cn_scid c)) Hb ltac:(lia) ltac:(lia)) as Hd.
  destruct (nxp_pkt_decode_short_header buf (cid_len (cn_scid c))) as [h | e |]; [| done | done].
  destruct Hd as (_ & _ & Hpl & Hpn & Ho & Hhl & Hfit). cbv zeta.
  set (pn := nxp_pkt_decode_pkt_num _ _ _).
  assert (0 <= pn) as Hpn' by (apply decode_pkt_num_nonneg; lia). clearbody pn.
  assert (conn_next c0 (c <| cn_ack := nxp_ack_on_pkt_recv (cn_ack c) pn now true |>)) as Hn1.
  { apply next_ack; [done |]. apply on_pkt_recv_mem; [done |]. apply co_ack, Hn. }
  revert Hn1. generalize (c <| cn_ack := nxp_ack_on_pkt_recv (cn_ack c) pn now true |>). intros c1 Hn1.
  apply (conn_keeps_bind _ (fun pt => bytes_ok pt /\ zlen pt <= NXP_PACKET_BUF_SIZE)).
  { destruct (cs_available (cn_crypto c)); [by apply open_packet_keeps; [.. | lia] |].
    rewrite sub_buf_Done by lia. split; [by apply bytes_ok_take, bytes_ok_drop |].
    rewrite zlen_ztake by (rewrite zlen_zdrop; lia). lia. }
  intros pt [Hpt Hptl]. apply process_frames_keeps; [done | done | lia].
Qed.

Lemma conn_recv_keeps c data now : conn_ok c -> bytes_ok data -> conn_keeps c (conn_next c) (nxp_conn_recv c data now).
Proof.
  intros Hok Hb. pose proof (conn_next_refl c Hok) as Hn. unfold nxp_conn_recv.
  destruct (Z.eqb_spec (zlen data) 0) as [| Hne]; [done |].
  destruct (_ || _); [done |]. cbv zeta.
  set (c1 := c <| cn_last_activity_us := now |> <| cn_stats := _ |>).
  assert (conn_next c c1) as Hn1 by (unfold c1; auto 12 with conn). clearbody c1.
  destruct (@rd_inside (nxp_error_code * nxp_conn) data 0 Hb) as (b & -> & _);
    [pose proof (zlen_nonneg data); lia |]. cbn [obind].
  destruct (nxp_pkt_is_long_header b); [by apply recv_handshake_keeps |].
  apply (conn_keeps_bind _ _ _ _ _ (copy_packet_keeps c c1 data Hn1 Hb)). intros buf [? ?].
  by apply recv_short_keeps.
Qed.

(** ** Operations of the application *)

Lemma start_handshake_keeps c peer random : conn_ok c -> conn_id_ok peer ->
  conn_keeps c (conn_next c) (nxp_conn_start_handshake c peer random).
Proof.
  intros Hok Hp. pose proof (conn_next_refl c Hok) as Hn. unfold nxp_conn_start_handshake.
  destruct (negb _); [done |]. destruct (nxp_handshake_create _ _) as [hs |] eqn:Hcr; [| done].
  pose proof (created_inv _ _ _ Hcr) as Hinv.
  assert (hs_is_server hs = cn_is_server c) as Hr by (destruct random; [| done]; by injection Hcr as <-).
  set (tp := TransportParams _ _ _ _ _ _ _).
  assert (params_typed tp) as Htp.
  { destruct (co_limits c Hok) as (? & ? & ? & ?), (co_flow c Hok) as (? & ? & ? & ? & ? & _).
    unfold params_typed, tp. simpl. lia. }
  destruct (hs_run_steps hs (EvSetParams tp) Hinv Htp) as (Hinv1 & Hr1 & _). cbv zeta.
  set (hs1 := nxp_handshake_set_local_params hs tp) in *. clearbody hs1.
  set (r := if cn_is_server c then _ else _).
  assert (conn_next c r.1 /\ cn_is_server r.1 = cn_is_server c /\ hs_steps hs1 r.2) as (Hn1 & Hs1 & Hst).
  { unfold r. destruct (cn_is_server c) eqn:Hs; simpl; split_and!; auto with conn.
    - by apply start_server_steps.
    - by apply start_client_steps. }
  clearbody r. destruct r as [c1 r]. simpl in *.
  pose proof (next_state _ _ NXP_CONN_HANDSHAKE_INITIAL Hn1) as Hn2.
  assert (cn_is_server (set_conn_state c1 NXP_CONN_HANDSHAKE_INITIAL) = cn_is_server c) as Hs2 by (rewrite (cl_role _ _ (proj2 Hn2)); done).
  revert Hn2 Hs2. generalize (set_conn_state c1 NXP_CONN_HANDSHAKE_INITIAL). intros c2 Hn2 Hs2.
  destruct r as [hs2 | [e hs2] |]; simpl in *; [| by apply next_state | done].
  destruct Hst as (Hinv2 & Hr2 & _). apply next_handshake; [done | done | congruence].
Qed.

(** Storing a local stream and advancing the counters of its direction. *)
Lemma next_opened c id s uni : conn_ok c -> cn_streams c !! id = None -> stream_mem id s ->
  id_is_uni id = uni ->
  id / 16 <= (if uni then cn_next_uni_id c else cn_next_bidi_id c) ->
  (if uni then cn_next_uni_id c else cn_next_bidi_id c) < 2 ^ 32 - 1 ->
  conn_next c
    (if uni
     then store_stream c id s <| cn_next_uni_id := u64 (cn_next_uni_id c + 1) |>
                              <| cn_open_uni_count := u32 (cn_open_uni_count c + 1) |>
     else store_stream c id s <| cn_next_bidi_id := u64 (cn_next_bidi_id c + 1) |>
                              <| cn_open_bidi_count := u32 (cn_open_bidi_count c + 1) |>).
Proof.
  intros Hok Hnone Hs Huni Hq Hlim. pose proof (co_ids c Hok) as [Hfr Hu Hb].
  assert (forall a, is_Some (cn_streams (store_stream c id s) !! a) -> a = id \/ is_Some (cn_streams c !! a)) as Hdom.
  { intros a. unfold store_stream. destruct (put_stream id); [| by right]. simpl. rewrite lookup_insert_is_Some.
    intros [-> | [_ ?]]; [by left | by right]. }
  assert (forall a, is_Some (cn_streams c !! a) -> is_Some (cn_streams (store_stream c id s) !! a)) as Hgrow.
  { intros a Ha. unfold store_stream. destruct (put_stream id); [| done]. simpl. rewrite lookup_insert_is_Some.
    destruct (decide (id = a)); [by left | by right]. }
  assert (table_ok (cn_streams (store_stream c id s)) (cn_sched (store_stream c id s))) as Ht.
  { unfold store_stream. destruct (put_stream id); [by apply table_new; [apply co_table | ..] | apply co_table, Hok]. }
  assert (store_stream c id s = c <| cn_streams := cn_streams (store_stream c id s) |>
    <| cn_sched := cn_sched (store_stream c id s) |>) as Heq.
  { unfold store_stream. destruct c, (put_stream id); done. }
  rewrite Heq. revert Ht Hgrow Hdom.
  generalize (cn_streams (store_stream c id s)), (cn_sched (store_stream c id s)). clear Heq. intros st sc Ht Hgrow Hdom.
  destruct uni; (rewrite u64_small, u32_small by lia); destruct Hok; split; split; try done; try (simpl; lia).
  all: split; simpl; [| lia | lia]; intros a Ha Hl; destruct (Hdom a Ha) as [-> | Hold].
  all: try rewrite Huni; try specialize (Hfr a Hold Hl); repeat case_match; lia.
Qed.

Lemma open_stream_keeps c type uni : conn_ok c ->
  conn_keeps c (fun '(id, c') => conn_next c c' /\ cn_streams c !! id = None /\
    exists seq, id = make_stream_id seq type uni (cn_is_server c) /\ 0 <= seq < 2 ^ 32 /\
      seq = (if uni then cn_next_uni_id c else cn_next_bidi_id c) /\
      (if uni then cn_next_uni_id c' else cn_next_bidi_id c') = seq + 1)
    (nxp_conn_open_stream c type uni).
Proof.
  intros Hok. pose proof (conn_next_refl c Hok) as Hn. unfold nxp_conn_open_stream.
  destruct (if uni then _ >=? _ else _) eqn:Hlim; [done |]. cbv zeta.
  set (seq := if uni then cn_next_uni_id c else cn_next_bidi_id c).
  pose proof (co_ids c Hok) as [Hfr Hu Hb].
  assert (0 <= seq < 2 ^ 32 - 1) as Hseq.
  { unfold seq. destruct uni; rewrite Z.geb_leb in Hlim; apply Z.leb_gt in Hlim; lia. }
  pose proof (make_stream_id_fields seq type uni (cn_is_server c) ltac:(lia)) as (Hid & Hq & Huni & Hloc).
  set (id := make_stream_id seq type uni (cn_is_server c)) in *.
  destruct (nxp_stream_create _ _ _ _ _) as [s |] eqn:Hcr; [| done].
  apply stream_mem_new in Hcr; [| lia | apply (co_limits c Hok)].
  assert (cn_streams c !! id = None) as Hnone.
  { destruct (cn_streams c !! id) eqn:He; [| done]. specialize (Hfr id ltac:(eauto) Hloc).
    rewrite Huni, Hq in Hfr. unfold seq in Hfr. destruct uni; lia. }
  assert (cn_next_uni_id (store_stream c id s) = cn_next_uni_id c /\ cn_open_uni_count (store_stream c id s) = cn_open_uni_count c /\
    cn_next_bidi_id (store_stream c id s) = cn_next_bidi_id c /\ cn_open_bidi_count (store_stream c id s) = cn_open_bidi_count c)
    as (-> & -> & -> & ->) by (unfold store_stream; by destruct (put_stream id)).
  pose proof (next_opened c id s uni Hok Hnone Hcr Huni ltac:(unfold seq in *; lia) ltac:(unfold seq in *; lia)) as Hn1.
  cbn [conn_keeps]. split; [by apply next_stats | split; [done |]]. exists seq. split; [done |].
  split; [lia |]. split; [done |]. unfold seq in *. destruct uni; simpl; apply u64_small; lia.
Qed.

Lemma conn_stream_send_keeps c id data fin : conn_ok c ->
  conn_keeps c (fun '(n, c') => conn_next c c' /\ n <= zlen data) (nxp_conn_stream_send c id data fin).
Proof.
  intros Hok. pose proof (conn_next_refl c Hok) as Hn. unfold nxp_conn_stream_send.
  pose proof (zlen_nonneg data). destruct (negb _); [split; [done | lia] |].
  destruct (cn_streams c !! id) as [s |] eqn:Hs; [| split; [done | lia]].
  destruct (stream_write_mem id s data fin (next_lookup _ _ _ _ Hn Hs)) as (n & s' & -> & Hs' & Hle).
  assert (conn_next c (c <| cn_streams := <[id := s']> (cn_streams c) |>)) as Hn1 by eauto with conn.
  cbn [conn_keeps]. cbv zeta. destruct (_ >? _); [| done].
  destruct (next_sched_add _ _ id Hn1) as (q & -> & Hq); [| done].
  simpl. rewrite lookup_insert_is_Some. by left.
Qed.

Lemma conn_stream_recv_keeps c id n : conn_ok c -> 0 <= n <= NXP_STREAM_BUF_SIZE ->
  exists bytes fin c', nxp_conn_stream_recv c id n = Done (bytes, fin, c') /\ conn_next c c'.
Proof.
  intros Hok Hl. pose proof (conn_next_refl c Hok) as Hn. unfold nxp_conn_stream_recv.
  destruct (cn_streams c !! id) as [s |] eqn:Hs; [| by do 3 eexists].
  destruct (stream_read_mem id s n (next_lookup _ _ _ _ Hn Hs) Hl) as (b & f & s' & -> & Hs').
  cbn [obind]. do 3 eexists. split; [reflexivity |]. eauto with conn.
Qed.

Lemma set_stream_rate_keeps c id rate c' : conn_ok c -> nxp_conn_set_stream_rate c id rate = Done c' -> conn_next c c'.
Proof.
  intros Hok. pose proof (conn_next_refl c Hok) as Hn. unfold nxp_conn_set_stream_rate.
  destruct (cn_streams c !! id) as [s |] eqn:Hs; [| done]. intros [= <-].
  apply next_put; [done | eauto |]. destruct (next_lookup _ _ _ _ Hn Hs). split; try done. apply u64_range.
Qed.

Lemma set_on_writable_keeps c id cb c' : conn_ok c -> nxp_conn_set_on_writable c id cb = Done c' -> conn_next c c'.
Proof.
  intros Hok. pose proof (conn_next_refl c Hok) as Hn. unfold nxp_conn_set_on_writable.
  destruct (cn_streams c !! id) as [s |] eqn:Hs; [| done]. intros [= <-].
  apply next_put; [done | eauto |]. destruct (next_lookup _ _ _ _ Hn Hs). by split.
Qed.

Lemma loss_timeout_defined ack : pto_count ack < 64 -> exists t, nxp_ack_loss_timeout ack = Done t.
Proof.
  intros Hp. unfold nxp_ack_loss_timeout. destruct (negb _); [eauto |]. destruct (_ =? _); [eauto |].
  rewrite Z.geb_leb, (proj2 (Z.leb_gt _ _)) by lia. eauto.
Qed.

Lemma loss_timer_keeps c now : conn_ok c -> pto_count (cn_ack c) < 64 ->
  conn_keeps c (conn_next c) (on_loss_timer c now).
Proof.
  intros Hok Hp. pose proof (conn_next_refl c Hok) as Hn. unfold on_loss_timer.
  destruct (loss_timeout_defined _ Hp) as [t ->]. cbn [or_fail obind]. destruct (_ && _); [| done].
  pose proof (co_ack c Hok) as Ha.
  pose proof (on_loss_timeout_inv lost_cb (conn_keeps c (conn_next c)) pkt_mem
    ltac:(done) ltac:(intros; by apply lost_cb_keeps) (cn_ack c) now (Done c) Hn (am_sent _ Ha)) as Hi.
  destruct (nxp_ack_on_loss_timeout _ _ _ _) as [ack r]. destruct Hi as (Hr & Hs & Hside).
  apply (conn_keeps_bind _ _ _ _ _ Hr). intros c1 Hn1. simpl.
  pose proof (ack_mem_side _ _ Hside Hs Ha). destruct (_ >? _); auto with conn.
Qed.

Lemma hb_check_mem h now : heartbeat_mem h -> 0 <= now -> heartbeat_mem (nxp_heartbeat_check h now).
Proof.
  intros [? ?] ?. unfold nxp_heartbeat_check. destruct (negb (enabled h)); [done |].
  destruct (negb (time_initialized h)); [by destruct (awaiting_response _) |].
  destruct (_ >=? _); [by destruct (awaiting_response _) | done].
Qed.

Lemma on_timeout_keeps c now : conn_ok c -> pto_count (cn_ack c) < 64 -> 0 <= now ->
  conn_keeps c (conn_next c) (nxp_conn_on_timeout c now).
Proof.
  intros Hok Hp Hnow. pose proof (conn_next_refl c Hok) as Hn. unfold nxp_conn_on_timeout.
  destruct (_ && _); [by apply next_state |].
  apply (conn_keeps_bind _ _ _ _ _ (loss_timer_keeps c now Hok Hp)). intros c1 Hn1. cbv zeta.
  assert (conn_next c (c1 <| cn_heartbeat := nxp_heartbeat_check (cn_heartbeat c1) now |>)) as Hn2.
  { apply next_heartbeat; [done |]. apply hb_check_mem; [apply co_heartbeat, Hn1 | done]. }
  simpl. destruct (nxp_heartbeat_is_dead _); auto with conn.
Qed.

End Safety.
