(* ===== verification/ConnectionSafety.v ===== *)
(** * Safety of sending, and of whole histories of a connection

    Building a datagram stays inside the frame array and the caller's buffer of
    at least 1200 bytes, keeps the invariant and respects connection-level flow
    control; the loop over the scheduled streams ends when no stream is
    rate-limited, and does not end when all of them are out of budget.  Then the
    invariant over every history of the connection's operations. *)

From stdpp Require Import gmap.
From S2P Require Import Prelude Types Varint Codec Frame Packet Pacing DeliveryRate Bbr Ack.
From S2P Require Import Flow Stream LinkedList Scheduler Heartbeat Migration Crypto Tokens.
From S2P Require Import Handshake Connection ConnectionSend ConnectionInv.
#[local] Opaque NXP_STREAM_BUF_SIZE.

(** ** Collecting frames *)

(** What the header and the encryption of the packet depend on. *)
Definition header_of (c : nxp_conn) := (cn_dcid c, cn_next_pkt_num c, cn_crypto c).

(** What control frames leave alone. *)
Definition outline (c : nxp_conn) := (header_of c, cn_streams c, cn_sched c).

Lemma outline_state c st : outline (set_conn_state c st) = outline c.
Proof. unfold set_conn_state. by destruct (negb _). Qed.

Section Build.
  Context (c0 : nxp_conn) (space : Z) (Hspace : space <= NXP_PACKET_BUF_SIZE).

Record builder_ok (b : builder) : Prop := BuilderOk {
  bo_conn : conn_next c0 (bd_conn b);
  bo_header : header_of (bd_conn b) = header_of c0;
  bo_buf : zlen (bd_buf b) = NXP_PACKET_BUF_SIZE;
  bo_pos : 0 <= bd_pos b <= space;
  bo_frames : Forall (fun r => 0 <= fr_offset r) (bd_frames b) /\
    zlen (bd_frames b) <= NXP_MAX_STREAM_FRAMES_PER_PKT
}.

Lemma append_ok f b : builder_ok b -> frame_mem f ->
  exists n b', append space (encode_frame f) b = Done (n, b') /\ builder_ok b' /\ 0 <= n /\
    bd_conn b' = bd_conn b /\ bd_frames b' = bd_frames b.
Proof.
  intros [Hn Hhd Hbuf Hpos Hfr] Hf. unfold append, NXP_PACKET_BUF_SIZE in *. rewrite sub_buf_Done by lia. cbn [obind].
  set (room := ztake _ _).
  assert (zlen room = space - bd_pos b) as Hroom by (apply zlen_ztake; rewrite zlen_zdrop; lia).
  clearbody room. destruct (encode_frame_safe f room Hf ltac:(lia)) as (n & room' & -> & Hn' & Hl).
  cbn [obind]. do 2 eexists. split; [reflexivity |].
  assert (zlen (splice (bd_buf b) (bd_pos b) room') = 1536) as Hsp by (rewrite zlen_splice; lia).
  rewrite Z.gtb_ltb. destruct (Z.ltb_spec 0 n); (split; [| split; [lia | done]]); split; simpl; try done; lia.
Qed.

(** An encoder that emits a frame whose memory is valid. *)
Definition encodes_safely (enc : encoder) : Prop := exists f, enc = encode_frame f /\ frame_mem f.

Lemma append_control_ok enc e sent b : builder_ok b -> encodes_safely enc ->
  (forall c, conn_next c0 c -> conn_next c0 (sent c)) -> (forall c, outline (sent c) = outline c) ->
  exists b', append_control space enc e sent b = Done b' /\ builder_ok b' /\ bd_frames b' = bd_frames b /\
    outline (bd_conn b') = outline (bd_conn b).
Proof.
  intros Hb (f & -> & Hf) Hs Hh. unfold append_control.
  destruct (append_ok f b Hb Hf) as (n & b' & -> & Hb' & _ & Hc & Hfr). cbn [obind].
  eexists. split; [reflexivity |]. rewrite <- Hc. destruct (_ >? _); [| done]. split; [| split; [done | apply Hh]].
  destruct Hb' as [? Hhd ? ? ?]. split; simpl; auto. specialize (Hh (bd_conn b')). unfold outline in Hh. congruence.
Qed.

(** A stage that keeps the builder well formed and adds no stream frame. *)
Definition control_only (b : builder) : Prop := bd_frames b = [] /\ outline (bd_conn b) = outline c0.
Definition stage_ok (m : outcome unit builder) : Prop := exists b', m = Done b' /\ builder_ok b' /\ control_only b'.

Lemma stage_bind m k : stage_ok m ->
  (forall b, builder_ok b -> control_only b -> stage_ok (k b)) -> stage_ok (obind m k).
Proof. intros (b & -> & Hb & Hf) Hk. by apply Hk. Qed.

Lemma stage_control enc e sent b : builder_ok b -> control_only b -> encodes_safely enc ->
  (forall c, conn_next c0 c -> conn_next c0 (sent c)) -> (forall c, outline (sent c) = outline c) ->
  stage_ok (append_control space enc e sent b).
Proof.
  intros Hb Hf He Hs Hh. destruct (append_control_ok enc e sent b Hb He Hs Hh) as (b' & -> & Hb' & Hf' & Ho).
  exists b'. split; [done |]. split; [done |]. destruct Hf. split; congruence.
Qed.

Lemma stage_skip b : builder_ok b -> control_only b -> stage_ok (Done b).
Proof. by exists b. Qed.

Lemma build_frame_mem ack now f : ack_mem ack -> nxp_ack_build_frame ack now = Some f -> frame_mem (FAck f).
Proof.
  intros [_ Hr _]. unfold nxp_ack_build_frame. destruct Hr as [| r rs Hr Hrs]; [done |]. intros [= <-]. simpl.
  pose proof (u64_range (r_end r - r_start r)).
  assert (forall room prev, Forall (fun x => 0 <= gap x /\ 0 <= ack_range x) (build_ranges prev rs room)) as Hb.
  { clear. induction rs as [| r rs IH]; intros [| room] prev; simpl; try constructor.
    destruct (_ <? _); constructor; [simpl; split; apply u64_range | done]. }
  split_and!; try done; try lia; try apply zlen_nonneg.
  rewrite Z.gtb_ltb. destruct (Z.ltb_spec (largest_recv_time ack) now); lia.
Qed.

Lemma flow_update_mem fc : flow_ctrl_ok fc -> nxp_flow_should_update fc = true ->
  flow_ctrl_ok (nxp_flow_get_update fc).1 /\ 0 <= (nxp_flow_get_update fc).2.
Proof.
  intros Hf Hs. pose proof (flow_step_ok fc OpUpdate Hf I) as [Hok _]. unfold flow_step in Hok. rewrite Hs in Hok.
  split; [done |]. destruct Hf as (_ & _ & _ & ? & _). simpl. lia.
Qed.

Lemma flow_update_sent fc : data_sent (nxp_flow_get_update fc).1 = data_sent fc.
Proof. done. Qed.

Lemma next_set_mig c f : conn_next c0 c -> (mig_mem (cn_migration c) -> mig_mem (f (cn_migration c))) ->
  conn_next c0 (set_mig f c).
Proof. intros Hn Hf. apply next_migration; [done |]. apply Hf, co_migration, Hn. Qed.

Lemma next_set_hb c f : conn_next c0 c -> (heartbeat_mem (cn_heartbeat c) -> heartbeat_mem (f (cn_heartbeat c))) ->
  conn_next c0 (set_hb f c).
Proof. intros Hn Hf. apply next_heartbeat; [done |]. apply Hf, co_heartbeat, Hn. Qed.

Lemma add_new_cids_ok n : forall b, builder_ok b -> control_only b -> (n <= 4)%nat ->
  stage_ok (add_new_cids space n b).
Proof.
  induction n as [| n IH]; intros b Hb Hf Hn; simpl; [by apply stage_skip |].
  pose proof (co_migration _ (proj1 (bo_conn b Hb))) as [_ (Hpend & Hlen & _) _ _ _].
  destruct (lookup_lt_is_Some_2 (pending_new_cids (cn_migration (bd_conn b))) n) as [e He].
  { unfold zlen in Hlen. lia. }
  rewrite He. rewrite Forall_lookup in Hpend. destruct (Hpend n e He) as ((l & Hcid & Hl & _) & Hseq & Htok).
  assert (frame_mem (FNewConnectionId (FrameNewCid (ce_seq_num e) 0 (ce_cid e) (stateless_reset_token e)))) as Hmem.
  { rewrite Hcid. pose proof (zlen_nonneg l). simpl. unfold NXP_MAX_CID_LEN in *.
    split_and!; try done; try lia. by apply zlen_mk_conn_id. }
  destruct (append_ok _ b Hb Hmem) as (k & b' & Hap & Hb' & _ & Hbc & Hfr). cbn [encode_frame] in Hap.
  rewrite Hap. cbn [obind]. destruct (k =? 0); [exists b'; split_and!; [done | done | by unfold control_only; rewrite Hfr, Hbc] |].
  apply IH; [| unfold control_only in *; rewrite <- Hfr, <- Hbc in Hf; done | lia]. destruct Hb' as [Hc ? ? ? ?]. split; try done. simpl.
  apply next_set_mig; [done |]. intros [? (? & ? & ?) ? ? ?]. split; try done. simpl. split_and!; try done; lia.
Qed.

Lemma add_ack_ok now b : builder_ok b -> control_only b -> stage_ok (add_ack space now b).
Proof.
  intros Hb Hf. unfold add_ack. destruct (ack_needed _); [| by apply stage_skip].
  destruct (nxp_ack_build_frame _ now) as [f |] eqn:Hbf; [| by apply stage_skip].
  apply stage_control; [done | done | | | done].
  - exists (FAck f). split; [done |]. eapply build_frame_mem; [| exact Hbf]. apply co_ack, Hb.
  - intros c Hc. apply next_ack; [done |]. destruct (co_ack c (proj1 Hc)). by split.
Qed.

Lemma add_close_ok b : builder_ok b -> control_only b -> stage_ok (add_close space b).
Proof.
  intros Hb Hf. unfold add_close. destruct (cn_send_conn_close _); [| by apply stage_skip].
  apply stage_control; [done | done | | | intros c; by rewrite outline_state].
  - eexists (FConnectionClose _). split; [reflexivity |]. simpl.
    pose proof (co_close _ (proj1 (bo_conn b Hb))). by split_and!.
  - intros c Hc. by apply next_state, next_close.
Qed.

Lemma add_ping_ok b : builder_ok b -> control_only b -> stage_ok (add_ping space b).
Proof.
  intros Hb Hf. unfold add_ping. destruct (cn_send_ping _); [| by apply stage_skip].
  apply stage_control; [done | done | by exists FPing | auto with conn | done].
Qed.

Lemma add_max_data_ok b : builder_ok b -> control_only b -> stage_ok (add_max_data space b).
Proof.
  intros Hb Hf. unfold add_max_data. destruct (nxp_flow_should_update _) eqn:Hu; [| by apply stage_skip].
  destruct (flow_update_mem _ (co_flow _ (proj1 (bo_conn b Hb))) Hu) as [Hfl Hm].
  pose proof (flow_update_sent (cn_conn_flow (bd_conn b))) as Hsent. destruct (nxp_flow_get_update _) as [fc m]. simpl in *.
  apply stage_control; [| done | by exists (FMaxData m) | done | done].
  destruct Hb. split; try done. simpl. apply next_flow; [done | done | lia].
Qed.

Lemma add_path_response_ok b : builder_ok b -> control_only b -> stage_ok (add_path_response space b).
Proof.
  intros Hb Hf. unfold add_path_response. cbv zeta. destruct (send_path_response _); [| by apply stage_skip].
  apply stage_control; [done | done | | | done].
  - exists (FPathResponse (pending_response_data (cn_migration (bd_conn b)))). split; [done |].
    simpl. apply mm_response, co_migration, Hb.
  - intros c Hc. apply next_set_mig; [done |]. intros []. by split.
Qed.

Lemma add_path_challenge_ok b : builder_ok b -> control_only b -> stage_ok (add_path_challenge space b).
Proof.
  intros Hb Hf. unfold add_path_challenge. cbv zeta. destruct (send_path_challenge _); [| by apply stage_skip].
  apply stage_control; [done | done | | | done].
  - exists (FPathChallenge (challenge_data (new_path (cn_migration (bd_conn b))))). split; [done |].
    simpl. apply mm_challenge, co_migration, Hb.
  - intros c Hc. apply next_set_mig; [done |]. intros []. by split.
Qed.

Lemma add_retire_cid_ok b : builder_ok b -> control_only b -> stage_ok (add_retire_cid space b).
Proof.
  intros Hb Hf. unfold add_retire_cid. cbv zeta. destruct (send_retire_cid _); [| by apply stage_skip].
  apply stage_control; [done | done | | | done].
  - exists (FRetireConnectionId (retire_seq (cn_migration (bd_conn b)))). split; [done |].
    simpl. apply mm_retire, co_migration, Hb.
  - intros c Hc. apply next_set_mig; [done |]. intros []. by split.
Qed.

Lemma add_echo_ok b : builder_ok b -> control_only b -> stage_ok (add_echo space b).
Proof.
  intros Hb Hf. unfold add_echo. cbv zeta. destruct (send_echo _); [| by apply stage_skip].
  apply stage_control; [done | done | | | done].
  - exists (FHeartbeat (echo_timestamp (cn_heartbeat (bd_conn b)))). split; [done |].
    apply (co_heartbeat _ (proj1 (bo_conn b Hb))).
  - intros c Hc. apply next_set_hb; [done |]. intros []. by split.
Qed.

Lemma add_heartbeat_ok b : builder_ok b -> control_only b -> stage_ok (add_heartbeat space b).
Proof.
  intros Hb Hf. unfold add_heartbeat. cbv zeta. destruct (send_heartbeat _); [| by apply stage_skip].
  apply stage_control; [done | done | | | done].
  - exists (FHeartbeat (pending_timestamp (cn_heartbeat (bd_conn b)))). split; [done |].
    apply (co_heartbeat _ (proj1 (bo_conn b Hb))).
  - intros c Hc. apply next_set_hb; [done |]. intros []. by split.
Qed.

Lemma control_frames_ok now b : builder_ok b -> control_only b -> stage_ok (control_frames space now b).
Proof.
  intros Hb Hf. unfold control_frames.
  eapply stage_bind; [by apply add_ack_ok |]. clear b Hb Hf. intros b Hb Hf.
  eapply stage_bind; [by apply add_close_ok |]. clear b Hb Hf. intros b Hb Hf.
  eapply stage_bind; [by apply add_ping_ok |]. clear b Hb Hf. intros b Hb Hf.
  eapply stage_bind; [by apply add_max_data_ok |]. clear b Hb Hf. intros b Hb Hf.
  eapply stage_bind; [by apply add_path_response_ok |]. clear b Hb Hf. intros b Hb Hf.
  eapply stage_bind; [by apply add_path_challenge_ok |]. clear b Hb Hf. intros b Hb Hf.
  eapply stage_bind.
  { apply add_new_cids_ok; [done | done |].
    pose proof (mm_pending _ (co_migration _ (proj1 (bo_conn b Hb)))) as (_ & _ & ?). lia. }
  clear b Hb Hf. intros b Hb Hf.
  eapply stage_bind; [by apply add_retire_cid_ok |]. clear b Hb Hf. intros b Hb Hf.
  eapply stage_bind; [by apply add_echo_ok |]. clear b Hb Hf. intros b Hb Hf.
  by apply add_heartbeat_ok.
Qed.

(** ** STREAM frames *)

(** The scheduler's queue is [q]. *)
Definition queued (c : nxp_conn) (q : list Z) : Prop :=
  sched_ok (cn_sched c) q /\ forall id, In id q -> is_Some (cn_streams c !! id).

(** No stream has a rate limit. *)
Definition unlimited (c : nxp_conn) : Prop :=
  forall id s, cn_streams c !! id = Some s -> StreamRate.enabled (rate_limit s) = false.

(** Iterations that the loop still has, when no stream has a rate limit. *)
Definition rounds (b : builder) (q : list Z) : nat := 8 - length (bd_frames b) + length q.

(** A stream is put back with the same rate limit, or changed otherwise. *)
Lemma put_back_ok id s b q : builder_ok b -> queued (bd_conn b) q -> is_Some (cn_streams (bd_conn b) !! id) ->
  stream_mem id s -> builder_ok (put_back id s b) /\ queued (bd_conn (put_back id s b)) q /\
  (unlimited (bd_conn b) -> StreamRate.enabled (rate_limit s) = false -> unlimited (bd_conn (put_back id s b))).
Proof.
  intros [Hn ? ? ? ?] [Hq Hin] Hid Hs. split_and!.
  - split; try done. simpl. by apply next_put.
  - split; [done |]. intros a Ha. simpl. rewrite lookup_insert_is_Some.
    destruct (decide (id = a)); [by left | right; auto].
  - intros Hun Hs' a x. simpl. rewrite lookup_insert. case_decide; [by intros [= <-] | apply Hun].
Qed.

Lemma flow_send_mem fc len : flow_ctrl_ok fc -> 0 <= len <= fc_remain fc -> flow_ctrl_ok (nxp_flow_on_send fc len).
Proof.
  intros (? & ? & ?) Hl. unfold fc_remain in Hl. rewrite Z.gtb_ltb in Hl.
  unfold flow_ctrl_ok, nxp_flow_on_send. simpl.
  destruct (Z.ltb_spec (data_sent fc) (peer_max_data fc)); rewrite u64_small by lia; split; (lia || done).
Qed.

Lemma flow_send_sent fc len : flow_ctrl_ok fc -> 0 <= len <= fc_remain fc -> data_sent (nxp_flow_on_send fc len) = data_sent fc + len.
Proof.
  intros (? & ? & ?) Hl. unfold fc_remain in Hl. rewrite Z.gtb_ltb in Hl. unfold nxp_flow_on_send. simpl.
  destruct (Z.ltb_spec (data_sent fc) (peer_max_data fc)); apply u64_small; lia.
Qed.

Lemma queue_add c0' c q id : conn_next c0' c -> queued c q -> In id q ->
  sched_add c id = Done c.
Proof.
  intros Hn [Hq _] Hid. unfold sched_add, nxp_sched_add. destruct Hq as (_ & _ & _ & _ & Hsch).
  rewrite bool_decide_true by (by apply Hsch). by destruct c.
Qed.

(** The stream's accounting of a sent frame. *)
Definition stream_sent (s : nxp_stream_s) (len : Z) : nxp_stream_s :=
  let s := s <| flow := nxp_flow_on_send (flow s) len |> in
  if StreamRate.enabled (rate_limit s)
  then s <| rate_limit := StreamRate.nxp_stream_rate_on_send (rate_limit s) (u32 len) |> else s.

Lemma stream_sent_mem id s len : stream_mem id s -> stream_mem id (stream_sent s len) /\
  StreamRate.enabled (rate_limit (stream_sent s len)) = StreamRate.enabled (rate_limit s).
Proof.
  intros []. unfold stream_sent, StreamRate.nxp_stream_rate_on_send. cbv zeta. simpl.
  destruct (StreamRate.enabled (rate_limit s)) eqn:He; [| split; [by split | done]].
  split; [| done]. split; try done. simpl. rewrite Z.geb_leb.
  destruct (Z.leb_spec (u32 len * 1000) (StreamRate.tokens (rate_limit s))); lia.
Qed.

(** The refill before a frame is taken. *)
Lemma stream_rate_updated id s now : stream_mem id s ->
  let s1 := if StreamRate.enabled (rate_limit s)
            then s <| rate_limit := StreamRate.nxp_stream_rate_update (rate_limit s) now |> else s in
  stream_mem id s1 /\ StreamRate.enabled (rate_limit s1) = StreamRate.enabled (rate_limit s) /\
  sched_idle s1 = sched_idle s.
Proof.
  intros [] s1. unfold s1. destruct (StreamRate.enabled (rate_limit s)) eqn:He; [| by split].
  simpl. unfold StreamRate.nxp_stream_rate_update. rewrite He. simpl.
  set (t := u64 (_ + _)). set (m := u64 (_ * 1000)).
  assert (0 <= t /\ 0 <= m) as [? ?] by (split; apply u64_range). clearbody t m.
  repeat case_match; (split; [by split | done]).
Qed.

Lemma fill_none_idle s max : nxp_stream_fill_frame s max = Done None -> sched_idle s = true.
Proof.
  unfold nxp_stream_fill_frame, sched_idle. destruct (_ && negb _); [done |].
  destruct (_ >? 0); [destruct (sub_buf _ _ _) |]; cbn [obind]; done.
Qed.

Lemma fill_some_idle s max sf s' : nxp_stream_fill_frame s max = Done (Some (sf, s')) ->
  sched_idle s = false /\ rate_limit s' = rate_limit s.
Proof.
  unfold nxp_stream_fill_frame, sched_idle. destruct (_ && negb _); [done |].
  destruct (_ >? 0); [destruct (sub_buf _ _ _); [| done | done] |]; cbn [obind]; by intros [= <- <-].
Qed.

(** A frame of stream [id] is emitted, or the loop stops. *)
Lemma emit_frame_ok id sf s b q : builder_ok b -> queued (bd_conn b) q -> In id q -> stream_mem id s ->
  sf_stream_id sf = id -> 0 <= sf_offset sf -> 0 <= sf_length sf <= fc_remain (cn_conn_flow (bd_conn b)) ->
  ptr_mem (sf_length sf) (sf_data sf) -> zlen (bd_frames b) < NXP_MAX_STREAM_FRAMES_PER_PKT ->
  exists go b', emit_frame space id sf s b = Done (go, b') /\ builder_ok b' /\
    (go = true -> queued (bd_conn b') q /\ length (bd_frames b') = S (length (bd_frames b)) /\
      (unlimited (bd_conn b) -> StreamRate.enabled (rate_limit s) = false -> unlimited (bd_conn b'))).
Proof.
  intros Hb Hq Hid Hs Hsf Hoff Hlen Hptr Hroom. unfold emit_frame.
  destruct (append_ok (FStream sf) b Hb) as (n & b1 & Hap & Hb1 & Hn & Hc1 & Hf1).
  { simpl. rewrite Hsf. split_and!; [apply Hs | done | done]. }
  cbn [encode_frame] in Hap. rewrite Hap. cbn [obind].
  assert (queued (bd_conn b1) q) as Hq1 by (by rewrite Hc1).
  assert (is_Some (cn_streams (bd_conn b1) !! id)) as Hid1 by (by apply Hq1).
  destruct (n =? 0).
  { do 2 eexists. split; [reflexivity |]. split; [| done].
    apply (put_back_ok id _ b1 q Hb1 Hq1 Hid1). by apply stream_mem_on_loss. }
  change (if StreamRate.enabled _ then _ else _) with (stream_sent s (sf_length sf)).
  destruct (stream_sent_mem id s (sf_length sf) Hs) as [Hs1 He1]. cbv zeta.
  set (s1 := stream_sent s (sf_length sf)) in *.
  clearbody s1. destruct (put_back_ok id s1 b1 q Hb1 Hq1 Hid1 Hs1) as (Hb2 & Hq2 & Hu2).
  assert (cn_conn_flow (bd_conn (put_back id s1 b1)) = cn_conn_flow (bd_conn b) /\
    bd_frames (put_back id s1 b1) = bd_frames b) as [Hfl Hfr] by (simpl; rewrite Hc1; done).
  rewrite Hc1 in Hu2. revert Hb2 Hq2 Hu2 Hfl Hfr. generalize (put_back id s1 b1). intros b2 Hb2 Hq2 Hu2 Hfl Hfr.
  set (c2 := bd_conn b2 <| cn_conn_flow := _ |>).
  assert (conn_next c0 c2) as Hn2.
  { pose proof (co_flow _ (proj1 (bo_conn b Hb))) as Hfc.
    apply next_flow; [apply Hb2 | rewrite Hfl; by apply flow_send_mem | rewrite Hfl, flow_send_sent by done; lia]. }
  assert (queued c2 q /\ header_of c2 = header_of c0) as [Hq3 Hh2] by (split; [done | apply Hb2]).
  assert (unlimited (bd_conn b) -> StreamRate.enabled (rate_limit s) = false -> unlimited c2) as Hu3
    by (intros; apply Hu2; [done | congruence]).
  clearbody c2. set (r := if _ || _ then _ else _).
  assert (r = Done c2) as ->.
  { unfold r. destruct (_ || _); [| done]. by rewrite (queue_add c0 c2 q id Hn2 Hq3 Hid). }
  cbn [obind]. do 2 eexists. split; [reflexivity |].
  assert (zlen (bd_frames b ++ [StreamFrameRecord (sf_stream_id sf) (sf_offset sf) (u32 (sf_length sf)) (sf_fin sf)])
    = zlen (bd_frames b) + 1) as Hz by apply zlen_app.
  split; [| intros _; simpl; rewrite Hfr, length_app; simpl; split_and!; [done | lia | done]].
  destruct Hb2 as [? ? ? ? [Hall _]]. split; try done. simpl. rewrite Hfr in *. split; [| lia].
  apply Forall_app. split; [done |]. by constructor.
Qed.

(** One stream is served.  [q] is the queue after it was taken; it is in there
    unless it had nothing to send. *)
Lemma serve_stream_ok now id s b q : builder_ok b -> queued (bd_conn b) q ->
  cn_streams (bd_conn b) !! id = Some s -> (sched_idle s = false -> In id q) ->
  zlen (bd_frames b) < NXP_MAX_STREAM_FRAMES_PER_PKT ->
  exists go b', serve_stream space now id s b = Done (go, b') /\ builder_ok b' /\
    (go = true -> queued (bd_conn b') q /\
      (unlimited (bd_conn b) -> unlimited (bd_conn b') /\
        (if sched_idle s then length (bd_frames b') = length (bd_frames b)
         else length (bd_frames b') = S (length (bd_frames b))))).
Proof.
  intros Hb Hq Hs Hin Hroom. unfold serve_stream. cbv zeta.
  destruct (_ && negb _); [do 2 eexists; split; [reflexivity |]; done |].
  set (max1 := if _ >? fc_remain _ then _ else _).
  assert (0 <= max1 <= fc_remain (cn_conn_flow (bd_conn b))) as Hmax1.
  { pose proof (co_flow _ (proj1 (bo_conn b Hb))) as (? & ? & _). unfold max1, fc_remain.
    rewrite !Z.gtb_ltb. zcase; lia. }
  clearbody max1. set (s1 := if StreamRate.enabled (rate_limit s) then _ else s).
  assert (stream_mem id s1 /\ StreamRate.enabled (rate_limit s1) = StreamRate.enabled (rate_limit s) /\
    sched_idle s1 = sched_idle s) as (Hs1 & He1 & Hi1).
  { apply stream_rate_updated. by eapply next_lookup; [apply Hb |]. }
  pose proof (mk_is_Some _ _ Hs) as Hid. pose proof (sm_rate _ _ _ Hs1) as Htok. clearbody s1.
  destruct (StreamRate.enabled (rate_limit s) && _) eqn:Hbud.
  { apply andb_true_iff in Hbud as [Hen _]. do 2 eexists. split; [reflexivity |].
    destruct (put_back_ok id (s1 <| blocked := true |>) b q Hb Hq Hid) as (? & ? & _); [destruct Hs1; by split |].
    split; [done |]. intros _. split; [done |]. intros Hun. specialize (Hun id s Hs). congruence. }
  set (max2 := if StreamRate.enabled (rate_limit s) && _ then _ else max1).
  assert (0 <= max2 <= max1) as Hmax2.
  { unfold max2, StreamRate.nxp_stream_rate_budget. rewrite He1.
    destruct (StreamRate.enabled (rate_limit s)); simpl; [| lia]. rewrite Z.gtb_ltb.
    destruct (Z.ltb_spec (StreamRate.tokens (rate_limit s1) / 1000) max1); zlia. }
  clearbody max2. destruct (stream_fill_mem id s1 max2 Hs1 ltac:(lia)) as [Hnone | (sf & s2 & Hfill & Hs2 & Hsf)].
  - rewrite Hnone. cbn [or_fail obind]. do 2 eexists. split; [reflexivity |].
    destruct (put_back_ok id s1 b q Hb Hq Hid Hs1) as (? & ? & Hu). split; [done |]. intros _. split; [done |].
    intros Hun. pose proof (Hun id s Hs). split; [apply Hu; [done | congruence] |].
    by rewrite <- Hi1, (fill_none_idle s1 max2 Hnone).
  - rewrite Hfill. cbn [or_fail obind]. destruct (fill_some_idle _ _ _ _ Hfill) as [Hni He2]. rewrite <- Hi1, Hni.
    destruct (emit_frame_ok id sf s2 b q Hb Hq ltac:(apply Hin; congruence) Hs2) as (go & b' & -> & Hb' & Hgo);
      try (done || tauto || lia).
    do 2 eexists. split; [reflexivity |]. split; [done |]. intros Hg. destruct (Hgo Hg) as (? & ? & Hu).
    split; [done |]. intros Hun. split; [| done]. apply Hu; [done |]. rewrite He2, He1. by eapply Hun.
Qed.

Lemma stream_step_ok now b q : builder_ok b -> queued (bd_conn b) q ->
  zlen (bd_frames b) < NXP_MAX_STREAM_FRAMES_PER_PKT ->
  exists go b', stream_step space now b = Done (go, b') /\ builder_ok b' /\
    (go = true -> exists q', queued (bd_conn b') q' /\
      (unlimited (bd_conn b) -> unlimited (bd_conn b') /\ (rounds b' q' < rounds b q)%nat)).
Proof.
  intros Hb [Hq Hin] Hroom. unfold stream_step.
  destruct (sched_next_ok _ _ q Hq Hin) as (sc & -> & Hsc & Hl). cbn [or_fail obind].
  set (b1 := b <| bd_conn := _ |>).
  assert (table_ok (cn_streams (bd_conn b)) sc) as Ht.
  { pose proof (co_table _ (proj1 (bo_conn b Hb))) as (Hm & Hlk & _).
    split_and!; [done | intros a Ha; by apply Hl, Hlk |]. eexists. split; [exact Hsc |].
    intros a Ha. destruct q as [| i q]; [done |]. simpl in Ha. apply Hin.
    destruct (from_option _ _ _); [by right |]. apply in_app_iff in Ha as [? | [<- | []]]; [by right | by left]. }
  assert (builder_ok b1) as Hb1.
  { destruct Hb. split; try done. simpl. by apply next_sched. }
  destruct q as [| id q]; simpl hd_error; [do 2 eexists; split; [reflexivity |]; done |].
  destruct (Hin id ltac:(by left)) as [s Hs].
  assert (cn_streams (bd_conn b1) !! id = Some s) as Hs1 by done. rewrite Hs1.
  assert (queued (bd_conn b1) (if sched_idle s then q else q ++ [id])) as Hq1.
  { simpl in Hsc. rewrite Hs in Hsc. simpl in Hsc. split; [done |]. intros a Ha. apply Hin.
    destruct (sched_idle s); [by right |]. apply in_app_iff in Ha as [? | [<- | []]]; [by right | by left]. }
  destruct (serve_stream_ok now id s b1 _ Hb1 Hq1 Hs1) as (go & b' & -> & Hb' & Hgo); [| done |].
  { intros ->. apply in_app_iff. right. by left. }
  do 2 eexists. split; [reflexivity |]. split; [done |]. intros Hg. destruct (Hgo Hg) as [Hq' Hun].
  eexists. split; [exact Hq' |]. intros Hu. destruct (Hun Hu) as [Hu' Hlen]. split; [done |].
  unfold rounds, zlen, NXP_MAX_STREAM_FRAMES_PER_PKT in *. simpl in Hlen.
  destruct (sched_idle s); rewrite Hlen; simpl; rewrite ?length_app; simpl; lia.
Qed.

(** The loop keeps the builder well formed while it runs... *)
Lemma stream_loop_ok now cca fuel : forall b q, builder_ok b -> queued (bd_conn b) q ->
  match stream_loop space fuel now cca b with Done b' => builder_ok b' | Err _ => True | Ub => False end.
Proof.
  induction fuel as [| fuel IH]; intros b q Hb Hq; simpl.
  { by destruct (loop_open _ _ _). }
  destruct (loop_open space cca b) eqn:Ho; [| done]. cbn [negb].
  assert (zlen (bd_frames b) < NXP_MAX_STREAM_FRAMES_PER_PKT) as Hr.
  { unfold loop_open in Ho. apply andb_true_iff in Ho as [_ Ho]. lia. }
  destruct (stream_step_ok now b q Hb Hq Hr) as (go & b' & -> & Hb' & Hgo). cbn [obind].
  destruct go; [| done]. destruct (Hgo eq_refl) as (q' & Hq' & _). by eapply IH.
Qed.

(** ... and ends when no stream has a rate limit. *)
Lemma stream_loop_ends now cca fuel : forall b q, builder_ok b -> queued (bd_conn b) q -> unlimited (bd_conn b) ->
  (rounds b q < fuel)%nat -> exists b', stream_loop space fuel now cca b = Done b' /\ builder_ok b'.
Proof.
  induction fuel as [| fuel IH]; intros b q Hb Hq Hu Hf; [lia |]. simpl.
  destruct (loop_open space cca b) eqn:Ho; [| by eexists]. cbn [negb].
  assert (zlen (bd_frames b) < NXP_MAX_STREAM_FRAMES_PER_PKT) as Hr.
  { unfold loop_open in Ho. apply andb_true_iff in Ho as [_ Ho]. lia. }
  destruct (stream_step_ok now b q Hb Hq Hr) as (go & b' & -> & Hb' & Hgo). cbn [obind].
  destruct go; [| by eexists]. destruct (Hgo eq_refl) as (q' & Hq' & Hun). destruct (Hun Hu) as [Hu' Hlt].
  apply (IH b' q'); [done | done | done | lia].
Qed.

End Build.

(** ** Streams out of budget

    A rate-limited stream without budget stays in the queue and makes the loop
    go on, so that the loop does not end when all scheduled streams are like
    that. *)

Section OutOfBudget.
  Context (space now : Z).

Definition out_of_budget (s : nxp_stream_s) : Prop :=
  StreamRate.enabled (rate_limit s) = true /\ sched_idle s = false /\
  StreamRate.nxp_stream_rate_budget (StreamRate.nxp_stream_rate_update (rate_limit s) now) = 0.

(** Every stream of the queue [id :: q] is out of budget. *)
Definition stuck (b : builder) (id : Z) (q : list Z) : Prop :=
  queued (bd_conn b) (id :: q) /\ nxp_flow_can_send (cn_conn_flow (bd_conn b)) 1 = true /\
  forall a, In a (id :: q) -> exists s, cn_streams (bd_conn b) !! a = Some s /\ out_of_budget s.

Lemma rate_update_idem r : StreamRate.nxp_stream_rate_update (StreamRate.nxp_stream_rate_update r now) now
  = StreamRate.nxp_stream_rate_update r now.
Proof.
  unfold StreamRate.nxp_stream_rate_update.
  destruct (StreamRate.enabled r) eqn:He, (StreamRate.rate_bps r =? 0) eqn:Hr; simpl; rewrite ?He, ?Hr; simpl; try done.
  destruct (StreamRate.time_initialized r) eqn:Ht; simpl; rewrite ?He, ?Hr; simpl.
  - destruct (now <=? StreamRate.last_update r) eqn:Hl; simpl; rewrite ?He, ?Hr, ?Ht, ?Hl; simpl; [done |].
    by rewrite Z.leb_refl.
  - by rewrite Z.leb_refl.
Qed.

Lemma serve_out_of_budget id s b : out_of_budget s -> nxp_flow_can_send (cn_conn_flow (bd_conn b)) 1 = true ->
  exists s', serve_stream space now id s b = Done (true, put_back id s' b) /\ out_of_budget s'.
Proof.
  intros (He & Hi & Hb) Hc. unfold serve_stream. rewrite Hc, He, andb_false_r. simpl. rewrite Hb. simpl.
  eexists. split; [reflexivity |]. unfold out_of_budget. simpl. rewrite rate_update_idem.
  split_and!; [| done | done]. unfold StreamRate.nxp_stream_rate_update. rewrite He. simpl. by repeat case_match.
Qed.

Lemma stuck_step b id q : stuck b id q -> exists b' id' q',
  stream_step space now b = Done (true, b') /\ stuck b' id' q' /\
  bd_pos b' = bd_pos b /\ bd_frames b' = bd_frames b.
Proof.
  intros ([Hq Hin] & Hc & Hall). unfold stream_step.
  destruct (sched_next_ok _ _ _ Hq Hin) as (sc & -> & Hsc & _). cbn [or_fail obind hd_error].
  destruct (Hall id ltac:(by left)) as (s & Hs & Hob). set (b1 := b <| bd_conn := _ |>).
  assert (cn_streams (bd_conn b1) !! id = Some s) as -> by done. simpl in Hsc. rewrite Hs in Hsc. simpl in Hsc. rewrite (proj1 (proj2 Hob)) in Hsc.
  destruct (serve_out_of_budget id s b1 Hob Hc) as (s' & -> & Hob').
  assert (exists id' q', q ++ [id] = id' :: q') as (id' & q' & Hq') by (destruct q; simpl; eauto).
  eexists _, id', q'. split; [reflexivity |]. split; [| done]. rewrite Hq' in Hsc.
  assert (forall a, In a (id' :: q') -> In a (id :: q)) as Hsub.
  { intros a. rewrite <- Hq', in_app_iff. intros [? | [<- | []]]; [by right | by left]. }
  split_and!; [| done |].
  - split; [done |]. intros a Ha. simpl. rewrite lookup_insert_is_Some. destruct (decide (id = a)); [by left | right; auto].
  - intros a Ha. simpl. rewrite lookup_insert. case_decide; [eauto | auto].
Qed.

Lemma stuck_forever cca fuel : forall b id q, stuck b id q -> loop_open space cca b = true ->
  stream_loop space fuel now cca b = Err tt.
Proof.
  induction fuel as [| fuel IH]; intros b id q Hst Ho; simpl; rewrite Ho; [done |]. simpl.
  destruct (stuck_step b id q Hst) as (b' & id' & q' & -> & Hst' & Hp & Hf). simpl.
  apply (IH b' id' q' Hst'). unfold loop_open in *. by rewrite Hp, Hf.
Qed.

End OutOfBudget.

(** ** Packets *)

Section Packets.
Context `{OpenSSLLaws}.

Lemma seal_packet_ok keys out hdr n pn frames : zlen out < 2 ^ 62 -> 1 <= n <= 4 -> 1 + n <= hdr ->
  hdr + zlen frames + NXP_AEAD_TAG_LEN <= zlen out ->
  match seal_packet keys out hdr n pn frames with
  | Done None => True
  | Done (Some (total, out')) => total = hdr + zlen frames + NXP_AEAD_TAG_LEN /\ zlen out' = zlen out
  | _ => False
  end.
Proof.
  intros Hout Hn Hh Hfit. pose proof (zlen_nonneg frames). unfold seal_packet, NXP_AEAD_TAG_LEN in *.
  rewrite sub_buf_Done by lia. cbn [obind]. destruct (nxp_aead_encrypt _ _ _ _ frames) as [ct |] eqn:Hct; [| done].
  apply aead_encrypt_size in Hct as [Hct _]. unfold NXP_AEAD_TAG_LEN in Hct.
  rewrite memcpy_splice by lia. cbn [obind].
  assert (zlen (splice out hdr (ztake (zlen ct) ct)) = zlen out) as Hsp by (rewrite zlen_splice; rewrite ?zlen_ztake; lia).
  revert Hsp. generalize (splice out hdr (ztake (zlen ct) ct)). intros out1 Hsp.
  rewrite sub_buf_Done by lia. cbn [obind]. set (pkt := ztake _ _).
  assert (zlen pkt = hdr + zlen ct) as Hpkt by (apply zlen_ztake; rewrite zlen_zdrop; lia). clearbody pkt.
  pose proof (hp_protect_safe (cs_algo keys) (ck_hp_key (cs_send keys)) pkt (hdr - n) n
    ltac:(lia) ltac:(lia) Hn) as Hp.
  destruct (nxp_hp_protect _ _ _ _ _) as [p | |]; [| split; [lia | done] | done].
  split; [lia |]. rewrite zlen_splice by lia. done.
Qed.

(** A sending operation returns: at most the buffer's size, or -1.  A packet
    under the application keys ([app]) uses up a packet number. *)
Definition sends (app : bool) (c : nxp_conn) (out : list Z) (r : send_result) : Prop :=
  exists n out' c', r = Done (n, out', c') /\ conn_next c c' /\ -1 <= n <= zlen out /\ zlen out' = zlen out /\
    cn_next_pkt_num c' <= cn_next_pkt_num c + 1 /\ (app = true -> 0 < n -> cn_next_pkt_num c' = cn_next_pkt_num c + 1).

Lemma sends_quit app c0 c out out' n : conn_next c0 c -> zlen out' = zlen out -> -1 <= n <= 0 ->
  cn_next_pkt_num c = cn_next_pkt_num c0 -> sends app c0 out (Done (n, out', c)).
Proof. intros Hn Ho Hk Hp. pose proof (zlen_nonneg out). do 3 eexists. split; [reflexivity |]. split_and!; (done || lia). Qed.

(** It returns, or the loop over the streams is still running. *)
Definition send_keeps (app : bool) (c : nxp_conn) (out : list Z) (r : send_result) : Prop :=
  r = Err tt \/ sends app c out r.

Lemma short_header_fits dcid pn n out : conn_id_ok dcid -> 1 <= n <= 4 -> 0 <= pn ->
  zlen out < 2 ^ 62 -> 1 + cid_len dcid + n <= zlen out ->
  exists out', nxp_pkt_encode_short_header (ShortHeader dcid false false pn n 0 0) (cid_len dcid) out
    = Done (1 + cid_len dcid + n, out') /\ zlen out' = zlen out /\ 0 <= cid_len dcid <= 20.
Proof.
  intros Hd Hn Hpn Hout Hfit. set (h := ShortHeader dcid false false pn n 0 0).
  pose proof (short_encode_spec h out (conj Hd (conj Hn Hpn)) ltac:(lia)) as He. cbv zeta in He.
  change (cid_len (sh_dcid h)) with (cid_len dcid) in He.
  assert (zlen (short_header_image h (cid_len dcid)) = 1 + cid_len dcid + n /\ 0 <= cid_len dcid <= 20) as [Hz Hc].
  { destruct Hd as (l & Hl & Hmax & _). pose proof (zlen_nonneg l). unfold short_header_image, h.
    cbn [sh_dcid sh_pkt_num_len sh_pkt_num]. rewrite Hl. change (cid_len (mk_conn_id l)) with (zlen l).
    rewrite (proj2 (zlen_mk_conn_id l Hmax)). zlen_norm. rewrite zlen_be_bytes.
    unfold NXP_MAX_CID_LEN in Hmax. lia. }
  rewrite He, (proj2 (Z.leb_le _ _)) by lia. rewrite Hz. eexists. split; [reflexivity |].
  split; [apply zlen_splice; lia | done].
Qed.

Lemma record_sent_ok ok c0 c frames e total now : conn_next c0 c -> Forall (fun r => 0 <= fr_offset r) frames ->
  exists c', record_sent ok c frames e total now = Done c' /\ conn_next c0 c' /\
    cn_next_pkt_num c' = cn_next_pkt_num c.
Proof.
  intros Hn Hf. unfold record_sent. destruct (nxp_dr_on_packet_sent _ _ _) as [dr snap]. cbv zeta.
  set (meta := SentPkt _ _ _ _ _ _ _ _). 
  assert (exists ack, nxp_ack_on_pkt_sent ok (cn_ack c) meta = Done ack /\ ack_mem ack) as (ack & -> & Ha).
  { destruct (co_ack c (proj1 Hn)) as [Ht Hr Hs]. unfold nxp_ack_on_pkt_sent.
    destruct (_ && _); [by exists (cn_ack c) |].
    assert (Forall pkt_mem (sent (cn_ack c) ++ [meta])) by (apply Forall_app; split; [done | by repeat constructor]).
    destruct (_ >=? _), (in_flight meta), (ack_eliciting meta); (eexists; split; [simpl; rewrite ?Ht; reflexivity | by split]). }
  cbn [obind]. set (c1 := c <| cn_delivery_rate := dr |> <| cn_ack := ack |>).
  assert (conn_next c0 c1 /\ cn_next_pkt_num c1 = cn_next_pkt_num c) as [Hn1 Hp1] by (unfold c1; auto with conn). clearbody c1.
  destruct (cn_cc_state c1) as [cc |]; [| eauto].
  set (c2 := c1 <| cn_cc_state := _ |> <| cn_pacer := _ |>).
  assert (conn_next c0 c2 /\ cn_next_pkt_num c2 = cn_next_pkt_num c) as [Hn2 Hp2] by (unfold c2; auto with conn).
  clearbody c2.
  destruct (table_next _ _ (co_table c2 (proj1 Hn2))) as (o & sc & -> & Ht & _). cbn [or_fail obind].
  eexists. split; [reflexivity |]. destruct o; split; auto with conn.
Qed.

(** The datagram's buffer: at least 1200 bytes. *)
Definition NXP_MIN_DATAGRAM : Z := 1200.

Lemma finish_packet_ok ok c0 space b out n now : builder_ok c0 space b -> zlen out < 2 ^ 62 -> 1 <= n <= 4 ->
  0 < bd_pos b -> space <= NXP_PACKET_BUF_SIZE ->
  1 + cid_len (cn_dcid c0) + n + space + (if cs_available (cn_crypto c0) then NXP_AEAD_TAG_LEN else 0) <= zlen out ->
  cn_next_pkt_num c0 < 2 ^ 64 - 1 -> sends true c0 out (finish_packet ok b out n now).
Proof.
  intros [Hn [= Hd Hp Hcr] Hbuf Hpos [Hfr _]] Hout Hnl Hpos' Hsp Hfit Hlast. unfold finish_packet. cbv zeta.
  unfold NXP_PACKET_BUF_SIZE, NXP_AEAD_TAG_LEN in *.
  pose proof (co_pkt_num _ (proj1 Hn)) as Hpn. rewrite Hd, Hp, Hcr in *.
  destruct (short_header_fits (cn_dcid c0) (cn_next_pkt_num c0) n out) as (out1 & -> & Hl1 & Hc); try done; try lia.
  { rewrite <- Hd. apply co_dcid, Hn. }
  { destruct (cs_available (cn_crypto c0)) in Hfit; lia. }
  cbn [obind]. rewrite (proj2 (Z.eqb_neq _ _)) by lia.
  assert (zlen (ztake (bd_pos b) (bd_buf b)) = bd_pos b) as Hz by (apply zlen_ztake; lia).
  set (sealed := if cs_available (cn_crypto c0) then _ else _).
  assert (match sealed with
    | Done None => True
    | Done (Some (total, out')) => 0 <= total <= zlen out /\ zlen out' = zlen out
    | _ => False end) as Hse.
  { unfold sealed. destruct (cs_available (cn_crypto c0)) in Hfit |- *.
    - pose proof (seal_packet_ok (cn_crypto c0) out1 (1 + cid_len (cn_dcid c0) + n) n (cn_next_pkt_num c0)
        (ztake (bd_pos b) (bd_buf b)) ltac:(lia) Hnl ltac:(lia) ltac:(unfold NXP_AEAD_TAG_LEN; lia)) as Hk.
      destruct (seal_packet _ _ _ _ _ _) as [[[t o] |] | |]; try done. unfold NXP_AEAD_TAG_LEN in Hk. lia.
    - rewrite memcpy_splice by lia. cbn [obind]. rewrite zlen_splice by (rewrite ?zlen_ztake; lia). lia. }
  clearbody sealed. destruct sealed as [[[total out'] |] | |]; try done; cbn [obind].
  - destruct Hse as [Ht Ho]. destruct (record_sent_ok ok c0 (bd_conn b) (bd_frames b) (bd_eliciting b) total now Hn Hfr)
      as (c' & -> & Hn' & Hp'). cbn [obind]. do 3 eexists. split; [reflexivity |]. rewrite Hp', Hp.
    rewrite u64_small by lia. split; [apply next_pkt_num; [by apply next_stats | simpl; lia] |].
    split; [lia |]. split; [lia |]. split; [simpl; lia | done].
  - by apply sends_quit.
Qed.

Lemma pkt_num_len_range pn la : 1 <= nxp_pkt_num_len pn la <= 4.
Proof. unfold nxp_pkt_num_len. zcase; lia. Qed.

(** The builder at the start of a packet. *)
Lemma builder_start c space : conn_ok c -> 0 <= space -> builder_ok c space (Builder c (zeros NXP_PACKET_BUF_SIZE) 0 false []).
Proof.
  intros Hok Hs. split; simpl; [by apply conn_next_refl | done | done | lia |].
  split; [constructor | done].
Qed.

(** Enough iterations for one packet, when no stream has a rate limit. *)
Definition loop_bounded (fuel : nat) (c : nxp_conn) : Prop :=
  unlimited c /\ exists q, queued c q /\ (8 + length q < fuel)%nat.

Lemma collect_frames_ok fuel c space now : conn_ok c -> 0 <= space <= NXP_PACKET_BUF_SIZE ->
  match collect_frames space fuel c now with
  | Done b => builder_ok c space b
  | Err _ => ~ loop_bounded fuel c
  | Ub => False
  end.
Proof.
  intros Hok Hsp.
  destruct (control_frames_ok c space ltac:(lia) now _ (builder_start c space Hok ltac:(lia)) ltac:(done))
    as (b & Hcf & Hb & Hf & [= _ _ _ Hst Hsc]).
  unfold collect_frames. rewrite Hcf. cbn [obind]. destruct (co_table _ (proj1 (bo_conn _ _ _ Hb))) as (_ & _ & q & Hq).
  pose proof (stream_loop_ok c space ltac:(lia) now (cc_allows (bd_conn b)) fuel b q Hb Hq) as Hl.
  destruct (stream_loop _ _ _ _ _) as [b' | [] |] eqn:He; [done | | done].
  intros (Hun & q' & [Hq1 Hq2] & Hfuel).
  destruct (stream_loop_ends c space ltac:(lia) now (cc_allows (bd_conn b)) fuel b q' Hb) as (b' & He' & _);
    [unfold queued; by rewrite Hst, Hsc | intros id s; rewrite Hst; apply Hun | unfold rounds; rewrite Hf; simpl; lia |].
  congruence.
Qed.

(** The room for frames in a datagram. *)
Definition frame_room (c : nxp_conn) (out : list Z) (n : Z) : Z :=
  let space := zlen out - (1 + cid_len (cn_dcid c) + n) - (if cs_available (cn_crypto c) then NXP_AEAD_TAG_LEN else 0) in
  if space >? NXP_PACKET_BUF_SIZE then NXP_PACKET_BUF_SIZE else space.

Lemma send_data_keeps fuel ok c out now : conn_ok c -> zlen out < 2 ^ 62 -> cn_next_pkt_num c < 2 ^ 64 - 1 ->
  send_keeps true c out (send_data_packet fuel ok c out now) /\
  (loop_bounded fuel c -> sends true c out (send_data_packet fuel ok c out now)).
Proof.
  intros Hok Hout Hlast. pose proof (conn_next_refl c Hok) as Hn. pose proof (zlen_nonneg out).
  unfold send_data_packet. cbv zeta. pose proof (pkt_num_len_range (cn_next_pkt_num c) (largest_recv_pn (cn_ack c))) as Hnl.
  set (n := nxp_pkt_num_len _ _) in *. clearbody n. fold (frame_room c out n).
  set (tag := if cs_available (cn_crypto c) then NXP_AEAD_TAG_LEN else 0).
  destruct (Z.ltb_spec (zlen out) (1 + cid_len (cn_dcid c) + n + 1 + tag)).
  { split; intros; [right |]; by apply sends_quit. }
  assert (0 <= frame_room c out n <= NXP_PACKET_BUF_SIZE /\ frame_room c out n <= zlen out - (1 + cid_len (cn_dcid c) + n) - tag)
    as [Hsp Hsp'].
  { unfold frame_room, NXP_PACKET_BUF_SIZE. cbv zeta. fold tag. rewrite Z.gtb_ltb. zcase; lia. }
  pose proof (collect_frames_ok fuel c _ now Hok Hsp) as Hc.
  destruct (collect_frames _ _ _ _) as [b | [] |]; cbn [obind]; [| split; [by left | done] | done].
  assert (sends true c out (if bd_pos b =? 0 then Done (0, out, bd_conn b) else finish_packet ok b out n now)) as Hfin.
  { destruct (Z.eqb_spec (bd_pos b) 0); [pose proof (bo_header _ _ _ Hc) as [= _ Hp _]; by apply sends_quit; [apply Hc | ..] |].
    pose proof (bo_pos _ _ _ Hc). apply (finish_packet_ok ok c (frame_room c out n)); try done; lia. }
  split; [by right | done].
Qed.

Lemma fill_crypto_ok hs max : hs_inv hs -> 0 <= max ->
  exists data off hs', nxp_handshake_fill_crypto hs max = Done (data, off, hs') /\ hs_inv hs' /\
    hs_is_server hs' = hs_is_server hs /\ 0 <= default 0 off /\
    initial_keys hs' = initial_keys hs /\ initial_pn hs' = initial_pn hs /\ handshake_pn hs' = handshake_pn hs.
Proof.
  intros Hinv Hm. pose proof (fill_steps hs max Hinv Hm) as Hst. cbn [hs_run] in Hst.
  unfold nxp_handshake_fill_crypto in *. destruct (_ =? 0).
  - do 3 eexists. split; [reflexivity |]. done.
  - destruct (sub_buf _ _ _) as [data | |]; cbn [obind] in *; [| done | done].
    do 3 eexists. split; [reflexivity |]. destruct Hst as (? & _ & _). destruct Hinv as [[] _].
    split_and!; try done. simpl. lia.
Qed.

Lemma long_header_fits h out : long_header_ok h -> lh_token_len h = 0 -> NXP_MIN_DATAGRAM <= zlen out < 2 ^ 62 ->
  exists k out', nxp_pkt_encode_long_header h out = Done (k, out') /\ zlen out' = zlen out /\ 7 <= k <= 60.
Proof.
  intros Hh Ht Hout. unfold NXP_MIN_DATAGRAM in Hout. rewrite long_encode_spec by (done || lia).
  pose proof (long_image_min h Hh) as Hmin.
  assert (zlen (long_header_image h) <= 60) as Hmax.
  { unfold long_header_image, long_prefix_image, token_image. rewrite !zlen_app.
    destruct Hh as (_ & _ & _ & Hd & Hs & Htok & Hp & Hn & _).
    pose proof (zlen_cid_image _ Hd) as [-> ?]. pose proof (zlen_cid_image _ Hs) as [-> ?].
    rewrite !zlen_be_bytes. unfold NXP_MAX_CID_LEN, NXP_MAX_PAYLOAD_LEN in *.
    rewrite zlen_varint_bytes by (unfold varint_ok, NXP_VARINT_MAX; lia).
    assert (nxp_varint_len (lh_payload_len h) <= 4) as Hv by (unfold nxp_varint_len; zcase; lia).
    destruct (bool_decide _); rewrite ?Ht; [| zlen_norm; lia].
    destruct Htok as [_ Htok]. destruct (lh_token h); [lia |].
    change (varint_bytes 0 ++ ptr_bytes None) with [0]. zlen_norm. lia. }
  rewrite (proj2 (Z.leb_le _ _)) by lia. do 2 eexists. split; [reflexivity |].
  split; [apply zlen_splice; lia | lia].
Qed.

Lemma send_crypto_keeps c0 c hs level out : conn_next c0 c -> hs_inv hs -> hs_is_server hs = cn_is_server c ->
  NXP_MIN_DATAGRAM <= zlen out < 2 ^ 62 -> cn_next_pkt_num c = cn_next_pkt_num c0 ->
  sends false c0 out (send_crypto_packet c hs level out).
Proof.
  intros Hn Hinv Hr Hout Hp0. unfold send_crypto_packet, NXP_MIN_DATAGRAM in *. cbv zeta.
  set (initial := bool_decide _). set (keys := if initial then _ else _).
  set (pn := if initial then initial_pn hs else handshake_pn hs).
  assert (0 <= pn) as Hpn by (destruct Hinv as [[] _]; unfold pn; destruct initial; lia).
  set (type := if initial then NXP_PKT_INITIAL else NXP_PKT_HANDSHAKE).
  destruct (cs_available keys); cbn [negb]; [| by apply sends_quit].
  destruct (fill_crypto_ok hs 512 Hinv ltac:(lia)) as (data & off & hs1 & -> & Hinv1 & Hr1 & Hoff & Hsame).
  cbn [obind]. set (c1 := c <| cn_handshake := Some hs1 |>).
  assert (conn_next c0 c1) as Hn1 by (apply next_handshake; [done | done | congruence]).
  assert (cn_is_server c1 = cn_is_server c) as Hs1 by done.
  assert (cn_next_pkt_num c1 = cn_next_pkt_num c0) as Hp1 by done. clearbody c1.
  destruct (zlen data =? 0); [by apply sends_quit |].
  destruct (encode_frame_safe (FCrypto (FrameCrypto (default 0 off) (zlen data) (Some data))) (zeros 1024)) as (fl & fb & Hfe & Hfl & Hfb).
  { simpl. split; [done |]. split; [apply zlen_nonneg | lia]. }
  { done. }
  cbn [encode_frame] in Hfe. rewrite Hfe. cbn [obind]. change (zlen (zeros 1024)) with 1024 in *.
  destruct (Z.eqb_spec fl 0); [by apply sends_quit |].
  set (h := LongHeader _ _ _ _ _ _ _ _ _ _ _).
  assert (long_header_ok h) as Hh.
  { unfold long_header_ok, h, NXP_AEAD_TAG_LEN, NXP_MAX_PAYLOAD_LEN. simpl. unfold type.
    split_and!; try (by destruct initial); try done; try lia; try (apply Hn1). }
  destruct (long_header_fits h out Hh eq_refl Hout) as (hl & out1 & -> & Ho1 & Hhl). cbn [obind].
  rewrite (proj2 (Z.eqb_neq hl 0)) by lia.
  assert (zlen (ztake fl fb) = fl) as Hz by (apply zlen_ztake; lia).
  pose proof (seal_packet_ok keys out1 hl 1 pn (ztake fl fb) ltac:(lia) ltac:(lia) ltac:(lia)
    ltac:(unfold NXP_AEAD_TAG_LEN; lia)) as Hse.
  destruct (seal_packet _ _ _ _ _ _) as [[[total o] |] | |]; try done; cbn [obind]; [| by apply sends_quit].
  unfold NXP_AEAD_TAG_LEN in Hse. do 3 eexists. split; [reflexivity |]. split; [| split_and!; simpl; (lia || done)].
  pose proof (u64_range (pn + 1)). apply next_handshake; [done | | destruct initial; simpl; congruence].
  destruct Hinv1 as ([] & ? & Hk). unfold state_keys in Hk.
  destruct initial; (split; [split; try done; simpl; lia | done]).
Qed.

Lemma send_done_keeps c0 c hs out : conn_next c0 c -> hs_inv hs -> hs_is_server hs = cn_is_server c ->
  zlen out < 2 ^ 62 -> cn_next_pkt_num c < 2 ^ 64 - 1 -> cn_next_pkt_num c = cn_next_pkt_num c0 ->
  sends true c0 out (send_handshake_done_packet c hs out).
Proof.
  intros Hn Hinv Hr Hout Hlast Hp0. pose proof (zlen_nonneg out). unfold send_handshake_done_packet, NXP_AEAD_TAG_LEN in *. cbv zeta.
  destruct (negb _); [by apply sends_quit |]. destruct (Z.ltb_spec (zlen out) (1 + cid_len (cn_dcid c) + 1 + 4 + 16)); [by apply sends_quit |].
  change (nxp_frame_encode_handshake_done (zeros 8)) with (@Done unit _ (1, NXP_FRAME_HANDSHAKE_DONE :: zeros 7)).
  cbn [obind]. change (1 =? 0) with false. cbv iota.
  destruct (short_header_fits (cn_dcid c) (cn_next_pkt_num c) 1 out (co_dcid c (proj1 Hn))) as (out1 & -> & Ho1 & Hc); try lia.
  { apply (co_pkt_num c (proj1 Hn)). }
  cbn [obind]. rewrite (proj2 (Z.eqb_neq _ 0)) by lia.
  set (fr := ztake 1 _ ++ _). assert (zlen fr = 4) as Hfr by done. clearbody fr.
  pose proof (seal_packet_ok (app_keys hs) out1 (1 + cid_len (cn_dcid c) + 1) 1 (cn_next_pkt_num c) fr
    ltac:(lia) ltac:(lia) ltac:(lia) ltac:(unfold NXP_AEAD_TAG_LEN; lia)) as Hse.
  destruct (seal_packet _ _ _ _ _ _) as [[[total o] |] | |]; try done; cbn [obind]; [| by apply sends_quit].
  pose proof (co_pkt_num c (proj1 Hn)). unfold NXP_AEAD_TAG_LEN in Hse. rewrite u64_small by lia.
  do 3 eexists. split; [reflexivity |]. split; [| simpl; lia].
  apply next_handshake; [apply next_pkt_num; [done | lia] | | done].
  destruct Hinv as ([] & ? & Hk). split; [by split | done].
Qed.

(** The next packet is encrypted under the application keys. *)
Definition sends_app (c : nxp_conn) : bool :=
  match cn_handshake c with
  | Some hs => negb (nxp_handshake_has_data hs) ||
      (send_handshake_done hs && bool_decide (nxp_handshake_send_level hs = NXP_CRYPTO_APPLICATION))
  | None => true
  end.

Lemma send_handshake_keeps c0 c out : conn_next c0 c -> cn_next_pkt_num c = cn_next_pkt_num c0 ->
  NXP_MIN_DATAGRAM <= zlen out < 2 ^ 62 -> cn_next_pkt_num c < 2 ^ 64 - 1 ->
  sends (sends_app c) c0 out (send_handshake_packet c out).
Proof.
  intros Hn Hp Hout Hlast. unfold send_handshake_packet, sends_app. pose proof (co_handshake c (proj1 Hn)) as Hh.
  destruct (cn_handshake c) as [hs |]; [| by apply sends_quit]. destruct Hh as [Hinv Hr].
  destruct (nxp_handshake_has_data hs); cbn [negb orb]; [| by apply sends_quit].
  destruct (_ && _); [apply send_done_keeps | apply send_crypto_keeps]; (done || lia).
Qed.

Lemma conn_send_keeps fuel ok c out now : conn_ok c -> NXP_MIN_DATAGRAM <= zlen out < 2 ^ 62 ->
  cn_next_pkt_num c < 2 ^ 64 - 1 ->
  send_keeps (sends_app c) c out (nxp_conn_send fuel ok c out now) /\
  (loop_bounded fuel c -> sends (sends_app c) c out (nxp_conn_send fuel ok c out now)).
Proof.
  intros Hok Hout Hlast. pose proof (conn_next_refl c Hok) as Hn. unfold nxp_conn_send.
  assert (forall r, sends (sends_app c) c out r ->
    send_keeps (sends_app c) c out r /\ (loop_bounded fuel c -> sends (sends_app c) c out r)) as Hgo by (split; [by right | done]).
  destruct (match cn_handshake c with Some hs => nxp_handshake_has_data hs | None => false end) eqn:Hd.
  { apply Hgo. change (sends_app c) with (sends_app (c <| cn_last_activity_us := now |>)).
    by apply send_handshake_keeps; [auto with conn | ..]. }
  assert (sends_app c = true) as Happ.
  { unfold sends_app. destruct (cn_handshake c); [by rewrite Hd | done]. }
  destruct (negb _); [by apply Hgo, sends_quit |]. cbv zeta.
  set (c1 := c <| cn_last_activity_us := now |> <| cn_pacer := _ |>).
  assert (conn_next c c1 /\ cn_next_pkt_num c1 = cn_next_pkt_num c /\ (loop_bounded fuel c -> loop_bounded fuel c1))
    as (Hn1 & Hp1 & Hl1) by (unfold c1; auto with conn).
  clearbody c1. destruct (negb _ && negb _); [by apply Hgo, sends_quit |]. rewrite Happ.
  assert (forall r, sends true c1 out r -> sends true c out r) as Hback.
  { intros r (n & o & c2 & -> & Hn2 & Hr). do 3 eexists. split; [reflexivity |].
    split; [by eapply conn_next_trans |]. by rewrite <- Hp1. }
  destruct (send_data_keeps fuel ok c1 out now) as [[-> | Hs] Hb]; [apply Hn1 | lia | lia | |].
  - split; [by left |]. intros Hlb. by apply Hback, Hb, Hl1.
  - split; [right |]; auto.
Qed.

End Packets.

(** ** Histories *)

Inductive conn_event : Type :=
| EvRecv (data : list Z) (now : Z)
| EvSend (fuel : nat) (realloc_ok : bool) (out : list Z) (now : Z)
| EvTimer (now : Z)
| EvStartHandshake (peer_cid : nxp_conn_id) (random : option (list Z))
| EvSetEstablished (dcid : nxp_conn_id)
| EvOpenStream (type : nxp_stream_type) (unidirectional : bool)
| EvStreamSend (stream_id : Z) (data : list Z) (fin : bool)
| EvStreamRecv (stream_id buf_len : Z)
| EvStreamRate (stream_id rate : Z)
| EvOnWritable (stream_id : Z) (cb : option Z)
| EvClose (error_code : Z)
| EvHeartbeat (interval : Z)
| EvAutoReconnect (enable : bool) (max_attempts : Z)
| EvOnNewStream (callback : bool).

(** The connection after an operation, whether it succeeds or fails; [None] when
    it does not return. *)
Definition after {A} (get : A -> nxp_conn) (r : outcome (nxp_error_code * nxp_conn) A) : outcome unit nxp_conn :=
  match r with Done a => Done (get a) | Err (_, c) => Done c | Ub => Ub end.
Definition after_result {A} (get : A -> nxp_conn) (c : nxp_conn) (r : nxp_result A) : outcome unit nxp_conn :=
  match r with Done a => Done (get a) | Err _ => Done c | Ub => Ub end.

Definition conn_run `{Allocator} `{OpenSSL} (c : nxp_conn) (ev : conn_event) : outcome unit nxp_conn :=
  match ev with
  | EvRecv data now => after id (nxp_conn_recv c data now)
  | EvSend fuel ok out now => let! (_, _, c) := nxp_conn_send fuel ok c out now in Done c
  | EvTimer now => after id (nxp_conn_on_timeout c now)
  | EvStartHandshake cid random => after id (nxp_conn_start_handshake c cid random)
  | EvSetEstablished dcid => Done (nxp_conn_set_established c dcid)
  | EvOpenStream type uni => after snd (nxp_conn_open_stream c type uni)
  | EvStreamSend id data fin => after snd (nxp_conn_stream_send c id data fin)
  | EvStreamRecv id n => after_result snd c (nxp_conn_stream_recv c id n)
  | EvStreamRate id rate => after_result (fun c => c) c (nxp_conn_set_stream_rate c id rate)
  | EvOnWritable id cb => after_result (fun c => c) c (nxp_conn_set_on_writable c id cb)
  | EvClose e => after_result (fun c => c) c (nxp_conn_initiate_close c e)
  | EvHeartbeat i => Done (nxp_conn_set_heartbeat c i)
  | EvAutoReconnect b n => Done (nxp_conn_set_auto_reconnect c b n)
  | EvOnNewStream b => Done (c <| cn_on_new_stream := b |>)
  end.

(** What the caller must ensure: bytes are bytes, a datagram buffer has at least
    1200 bytes and a read buffer at most 64 KiB, connection IDs are well formed,
    fewer than 2^64 packets are sent, and fewer than 64 probe timeouts follow
    each other. *)
Definition event_ok (c : nxp_conn) (ev : conn_event) : Prop :=
  match ev with
  | EvRecv data _ => bytes_ok data
  | EvSend _ _ out _ => NXP_MIN_DATAGRAM <= zlen out < 2 ^ 62 /\ cn_next_pkt_num c < 2 ^ 64 - 1
  | EvTimer now => 0 <= now /\ pto_count (cn_ack c) < 64
  | EvStartHandshake cid _ | EvSetEstablished cid => conn_id_ok cid
  | EvStreamRecv _ n => 0 <= n <= NXP_STREAM_BUF_SIZE
  | EvClose e => 0 <= e
  | _ => True
  end.

Definition config_ok (cf : nxp_conn_config) : Prop :=
  conn_id_ok (cf_scid cf) /\ 0 <= cf_idle_timeout_us cf < 2 ^ 64 /\
  0 <= cf_initial_max_data cf < 2 ^ 63 /\ 0 <= cf_initial_max_stream_data cf < 2 ^ 64 /\
  0 <= cf_max_streams_bidi cf < 2 ^ 32 /\ 0 <= cf_max_streams_uni cf < 2 ^ 32.

Section Histories.
Context `{Allocator} `{OpenSSLLaws}.

Inductive conn_steps : nxp_conn -> nxp_conn -> Prop :=
| steps_refl c : conn_steps c c
| steps_next c ev c1 c2 : event_ok c ev -> conn_run c ev = Done c1 -> conn_steps c1 c2 -> conn_steps c c2.

Definition conn_reachable (c : nxp_conn) : Prop := exists alloc_ok cc_ok cf is_server c0,
  config_ok cf /\ nxp_conn_create alloc_ok cc_ok true cf is_server = Some c0 /\ conn_steps c0 c.

Lemma or_default_range v d m : 0 <= v < m -> 0 <= d < m -> 0 <= or_default v d < m.
Proof. unfold or_default. destruct (v =? 0); auto. Qed.

Lemma created_ok a b cf s c : config_ok cf -> nxp_conn_create a b true cf s = Some c -> conn_ok c.
Proof.
  intros (Hscid & Hidle & Hmax & Hsd & Hb & Hu). unfold nxp_conn_create. destruct a; [| done]. intros [= <-].
  pose proof (or_default_range _ NXP_DEFAULT_MAX_DATA _ Hmax ltac:(done)).
  split; simpl; try done.
  - split_and!; [apply map_Forall_empty | by intros id [? ?%lookup_empty_Some] |].
    exists []. split; [apply sched_empty_ok | done].
  - apply cid_none_ok.
  - apply mig_init_mem.
  - unfold flow_ctrl_ok, nxp_flow_init. simpl. lia.
  - pose proof (or_default_range _ NXP_DEFAULT_MAX_STREAM_DATA _ Hsd ltac:(done)).
    pose proof (or_default_range _ NXP_DEFAULT_IDLE_TIMEOUT _ Hidle ltac:(done)). unfold limits_mem. simpl. lia.
  - pose proof (or_default_range _ NXP_MAX_STREAMS_DEFAULT _ Hb ltac:(done)).
    pose proof (or_default_range _ NXP_MAX_STREAMS_DEFAULT _ Hu ltac:(done)).
    split; simpl; [by intros id [? ?%lookup_empty_Some] | lia | lia].
Qed.

Lemma after_keeps {A} (get : A -> nxp_conn) c r : conn_keeps c (fun a => conn_next c (get a)) r ->
  exists c', after get r = Done c' /\ conn_next c c'.
Proof. destruct r as [a | [e c'] |]; simpl; [eauto | eauto | done]. Qed.

Lemma conn_keeps_impl {A} c (Q R : A -> Prop) r : (forall a, Q a -> R a) -> conn_keeps c Q r -> conn_keeps c R r.
Proof. intros HQ. destruct r as [a | [e c'] |]; simpl; auto. Qed.

(** No operation is undefined; only sending may fail to return. *)
Lemma conn_run_ok c ev : conn_ok c -> event_ok c ev ->
  (exists c', conn_run c ev = Done c' /\ conn_next c c') \/
  (exists fuel ok out now, ev = EvSend fuel ok out now /\ conn_run c ev = Err tt).
Proof.
  intros Hok Hev. pose proof (conn_next_refl c Hok) as Hn.
  destruct ev as [data now | fuel ok out now | now | cid random | cid | type uni | id data fin | id n | id rate
    | id cb | e | i | b n | b]; cbn [conn_run event_ok] in *.
  2: { destruct Hev as [Hout Hlast]. destruct (conn_send_keeps fuel ok c out now Hok Hout Hlast) as [[-> | (k & o & c' & -> & Hn' & _)] _].
       - right. eauto 10.
       - left. simpl. eauto. }
  all: left.
  - apply (after_keeps id). by apply conn_recv_keeps.
  - apply (after_keeps id). destruct Hev. by apply on_timeout_keeps.
  - apply (after_keeps id). by apply start_handshake_keeps.
  - eexists. split; [reflexivity |]. by apply next_state, next_dcid.
  - apply after_keeps. eapply conn_keeps_impl; [| by apply open_stream_keeps]. by intros [id c'] [? _].
  - apply after_keeps. eapply conn_keeps_impl; [| by apply conn_stream_send_keeps]. by intros [k c'] [? _].
  - destruct (conn_stream_recv_keeps c id n Hok Hev) as (bs & f & c' & -> & Hn'). simpl. eauto.
  - destruct (nxp_conn_set_stream_rate c id rate) eqn:Hr; simpl; [| eauto |].
    + eexists. split; [reflexivity |]. by eapply set_stream_rate_keeps.
    + unfold nxp_conn_set_stream_rate in Hr. by destruct (cn_streams c !! id).
  - destruct (nxp_conn_set_on_writable c id cb) eqn:Hr; simpl; [| eauto |].
    + eexists. split; [reflexivity |]. by eapply set_on_writable_keeps.
    + unfold nxp_conn_set_on_writable in Hr. by destruct (cn_streams c !! id).
  - unfold nxp_conn_initiate_close. destruct (_ || _); simpl; [eauto |]. eexists. split; [reflexivity |].
    auto with conn.
  - eexists. split; [reflexivity |]. by apply next_heartbeat.
  - eexists. split; [reflexivity |]. by apply next_reconnect.
  - eexists. split; [reflexivity |]. by apply next_notify.
Qed.

Lemma conn_steps_ok c c' : conn_ok c -> conn_steps c c' -> conn_next c c'.
Proof.
  intros Hok Hst. induction Hst as [c | c ev c1 c2 Hev Hrun _ IH]; [by apply conn_next_refl |].
  destruct (conn_run_ok c ev Hok Hev) as [(c' & Hc' & Hn) | (? & ? & ? & ? & _ & He)]; [| congruence].
  assert (c1 = c') as -> by congruence. apply (conn_next_trans _ c'); [done |]. apply IH, Hn.
Qed.

Lemma conn_reachable_ok c : conn_reachable c -> conn_ok c.
Proof.
  intros (a & b & cf & s & c0 & Hcf & Hc0 & Hst). pose proof (created_ok _ _ _ _ _ Hcf Hc0) as Hok0.
  by apply (conn_steps_ok c0 c).
Qed.

End Histories.

(** ** Properties *)

Lemma no_control_frames space now b : has_control_frames (bd_conn b) = false -> control_frames space now b = Done b.
Proof.
  unfold has_control_frames, nxp_migration_has_pending, nxp_heartbeat_has_pending.
  rewrite !orb_false_iff. intros (((((Ha & Hc) & Hp) & Hf) & ((Hpc & Hpr) & Hr) & Hn) & Hh & He).
  unfold control_frames, add_ack. rewrite Ha. cbn [obind]. unfold add_close. rewrite Hc. cbn [obind].
  unfold add_ping. rewrite Hp. cbn [obind]. unfold add_max_data. rewrite Hf. cbn [obind].
  unfold add_path_response. rewrite Hpr. cbn [obind]. unfold add_path_challenge. rewrite Hpc. cbn [obind].
  replace (Z.to_nat (pending_new_cid_count (cn_migration (bd_conn b)))) with O by lia. cbn [add_new_cids obind].
  unfold add_retire_cid. rewrite Hr. cbn [obind]. unfold add_echo. rewrite He. cbn [obind].
  unfold add_heartbeat. by rewrite Hh.
Qed.

(** A connection with stream data to send and nothing else. *)
Record data_only (c : nxp_conn) (out : list Z) (now : Z) : Prop := DataOnly {
  do_state : cn_state c = NXP_CONN_ESTABLISHED;
  do_handshake : match cn_handshake c with Some hs => nxp_handshake_has_data hs = false | None => True end;
  do_pacer : Pacer.nxp_pacer_can_send (Pacer.nxp_pacer_update (cn_pacer c) now) NXP_BBR_MAX_DATAGRAM_SIZE = true;
  do_control : has_control_frames c = false;
  do_window : cc_allows c = true /\ nxp_flow_can_send (cn_conn_flow c) 1 = true;
  do_room : cid_len (cn_dcid c) <= 20 /\ NXP_MIN_DATAGRAM <= zlen out
}.

(** C30: sending never returns when every scheduled stream has used up its rate
    limit: whatever number of iterations is allowed, the loop over the streams
    is still running. *)
Theorem send_never_returns `{OpenSSLLaws} fuel ok c out now id q : data_only c out now -> queued c (id :: q) ->
  (forall a, In a (id :: q) -> exists s, cn_streams c !! a = Some s /\ out_of_budget now s) ->
  nxp_conn_send fuel ok c out now = Err tt.
Proof.
  intros [Hst Hhs Hpa Hct [Hcc Hfc] [Hcid Hout]] Hq Hall. unfold nxp_conn_send.
  assert (match cn_handshake c with Some hs => nxp_handshake_has_data hs | None => false end = false) as ->.
  { by destruct (cn_handshake c). }
  rewrite Hst, bool_decide_true by done. cbn [negb orb]. cbv zeta.
  set (c1 := c <| cn_last_activity_us := now |> <| cn_pacer := _ |>).
  change (cn_pacer c1) with (Pacer.nxp_pacer_update (cn_pacer c) now). rewrite Hpa. cbn [negb andb].
  unfold send_data_packet, NXP_MIN_DATAGRAM in *. cbv zeta.
  pose proof (pkt_num_len_range (cn_next_pkt_num c1) (largest_recv_pn (cn_ack c1))) as Hn.
  set (n := nxp_pkt_num_len _ _) in *. clearbody n. change (cn_dcid c1) with (cn_dcid c).
  set (tag := if cs_available _ then _ else 0).
  assert (0 <= tag <= 16) as Ht by (unfold tag, NXP_AEAD_TAG_LEN; destruct (cs_available _); lia). clearbody tag.
  rewrite (proj2 (Z.ltb_ge _ _)) by lia.
  set (space := if _ >? NXP_PACKET_BUF_SIZE then _ else _).
  assert (0 < space) as Hsp by (unfold space, NXP_PACKET_BUF_SIZE; rewrite Z.gtb_ltb; zcase; lia). clearbody space.
  unfold collect_frames. rewrite no_control_frames by done. cbn [obind].
  rewrite (stuck_forever space now _ fuel _ id q); [done | done |].
  unfold loop_open. change (cc_allows (bd_conn _)) with (cc_allows c). rewrite Hcc. simpl.
  by rewrite (proj2 (Z.ltb_lt _ _)).
Qed.

(** C2: within the calling conditions [event_ok] no sequence of operations and of
    arbitrary incoming datagrams leads the connection engine into undefined
    behaviour.  The conditions are: buffers for datagrams of at least 1200 bytes,
    reads of at most 64 KiB, well-formed connection IDs, fewer than 64 probe timeouts
    in a row and fewer than 2^64 packets; and the array of sent packets was allocated
    when the connection was created.  In every connection reached so from its
    creation the invariant holds; each operation on it is defined, keeps the
    invariant also when it reports an error, changes the state only along the edges
    of the state diagram, and never loses a stream, reuses a stream sequence number,
    lowers the packet number or the count of data sent.  Only sending may fail to
    return. *)
Theorem conn_history_safe `{Allocator} `{OpenSSLLaws} c ev : conn_reachable c -> event_ok c ev ->
  conn_ok c /\
  ((exists c', conn_run c ev = Done c' /\ conn_next c c') \/
   (exists fuel ok out now, ev = EvSend fuel ok out now /\ conn_run c ev = Err tt)).
Proof. intros Hr Hev. pose proof (conn_reachable_ok c Hr) as Hok. split; [done | by apply conn_run_ok]. Qed.

(** C29: sending into a buffer of at least 1200 bytes ends when no stream has a rate
    limit: the loop over the streams takes at most nine iterations more than there
    are scheduled streams, and the result is at most the caller's buffer. *)
Theorem conn_send_terminates `{Allocator} `{OpenSSLLaws} fuel ok c out now q : conn_reachable c ->
  NXP_MIN_DATAGRAM <= zlen out < 2 ^ 62 -> cn_next_pkt_num c < 2 ^ 64 - 1 ->
  unlimited c -> queued c q -> (8 + length q < fuel)%nat ->
  exists n out' c', nxp_conn_send fuel ok c out now = Done (n, out', c') /\
    conn_next c c' /\ -1 <= n <= zlen out /\ zlen out' = zlen out.
Proof.
  intros Hr Hout Hlast Hun Hq Hf. pose proof (conn_reachable_ok c Hr) as Hok.
  destruct (conn_send_keeps fuel ok c out now Hok Hout Hlast) as [_ Hs].
  destruct (Hs ltac:(split; eauto)) as (n & o & c' & -> & Hn & Hb & Ho & _). eauto 10.
Qed.

(** a connection never gives out the same stream identifier twice, whatever
    happens in between, and never one that the peer's streams occupy. *)
Theorem stream_ids_unique `{Allocator} `{OpenSSLLaws} c c1 c2 c3 type uni id type' uni' id' :
  conn_reachable c -> nxp_conn_open_stream c type uni = Done (id, c1) -> conn_steps c1 c2 ->
  nxp_conn_open_stream c2 type' uni' = Done (id', c3) ->
  id <> id' /\ cn_streams c2 !! id' = None /\ stream_id_is_local id' (cn_is_server c) = true.
Proof.
  intros Hr Ho1 Hst Ho2. pose proof (conn_reachable_ok c Hr) as Hok.
  pose proof (open_stream_keeps c type uni Hok) as H1'. rewrite Ho1 in H1'.
  destruct H1' as (Hn1 & _ & seq & -> & Hseq & _ & Hnext). pose proof (conn_steps_ok c1 c2 (proj1 Hn1) Hst) as Hn2.
  pose proof (open_stream_keeps c2 type' uni' (proj1 Hn2)) as H2'. rewrite Ho2 in H2'.
  destruct H2' as (_ & Hnone & seq' & -> & Hseq' & Heq & _).
  pose proof (cl_ids _ _ (proj2 Hn2)) as [Hu Hb].
  assert (cn_is_server c2 = cn_is_server c) as Hrole.
  { rewrite (cl_role _ _ (proj2 Hn2)). apply Hn1. }
  rewrite Hrole in *.
  destruct (make_stream_id_fields seq type uni (cn_is_server c) ltac:(lia)) as (_ & Hq & Hun & _).
  destruct (make_stream_id_fields seq' type' uni' (cn_is_server c) ltac:(lia)) as (_ & Hq' & Hun' & Hl).
  split; [| done]. intros Heqid. rewrite Heqid in *. rewrite Hun in Hun'. subst uni'.
  destruct uni; lia.
Qed.
