(* ===== verification/Session.v ===== *)
(** * Two endpoints

    A packet that one engine sends and another receives: which frames the
    receiver handles, what becomes of a packet that is too short for header
    protection, and stream data from one application to the other. *)

From stdpp Require Import gmap.
From S2P Require Import Prelude Types Varint Codec Frame Packet Pacing DeliveryRate Bbr Ack.
From S2P Require Import Flow Stream LinkedList Scheduler Heartbeat Migration Crypto Tokens.
From S2P Require Import Handshake Connection ConnectionSend ConnectionInv ConnectionSafety.
#[local] Opaque NXP_STREAM_BUF_SIZE.

Section Delivery.
Context `{Allocator} `{OpenSSLLaws}.

(** The mask generation of header protection does not fail. *)
Definition hp_works (keys : nxp_crypto_state) : Prop := forall sample,
  zlen sample = NXP_HP_SAMPLE_LEN -> is_Some (generate_hp_mask (cs_algo keys) (ck_hp_key (cs_send keys)) sample).

(** Authenticated encryption of byte strings does not fail. *)
Definition aead_works (keys : nxp_crypto_state) : Prop := forall nonce aad p,
  bytes_ok p -> is_Some (nxp_aead_encrypt (cs_algo keys) (ck_key (cs_send keys)) nonce aad p).

(** ** Sealing *)

Lemma seal_packet_image keys out img n pn frames ct p :
  ztake (zlen img) out = img -> zlen img + zlen ct <= zlen out ->
  nxp_aead_encrypt (cs_algo keys) (ck_key (cs_send keys)) (nxp_crypto_make_nonce (ck_iv (cs_send keys)) pn) img frames = Some ct ->
  match nxp_hp_protect (cs_algo keys) (ck_hp_key (cs_send keys)) (img ++ ct) (zlen img - n) n with
  | Done q => p = q /\ zlen p = zlen img + zlen ct
  | Err _ => p = img ++ ct
  | Ub => False
  end ->
  exists out', seal_packet keys out (zlen img) n pn frames = Done (Some (zlen img + zlen ct, out')) /\
    ztake (zlen img + zlen ct) out' = p.
Proof.
  intros Himg Hfit Hct Hp. pose proof (zlen_nonneg img). pose proof (zlen_nonneg ct). unfold seal_packet.
  rewrite sub_buf_Done by lia. rewrite zdrop_0, Himg. cbn [obind]. rewrite Hct.
  rewrite memcpy_splice by lia. rewrite (ztake_all (zlen ct) ct) by lia. cbn [obind].
  rewrite sub_buf_Done by (rewrite ?zlen_splice; lia). rewrite zdrop_0, ztake_splice, Himg by lia. cbn [obind].
  destruct (nxp_hp_protect _ _ _ _ _) as [q | [] |]; [destruct Hp as [-> Hl] | subst p | done].
  - eexists. split; [reflexivity |]. rewrite <- Hl. rewrite splice_0. apply ztake_app.
  - eexists. split; [reflexivity |]. by rewrite ztake_splice, Himg by lia.
Qed.

(** The image of a 1-RTT header. *)
Definition app_header (dcid : nxp_conn_id) (pn n : Z) : nxp_pkt_short_header := ShortHeader dcid false false pn n 0 0.
Definition app_image (dcid : nxp_conn_id) (pn n : Z) : list Z := short_header_image (app_header dcid pn n) (cid_len dcid).

Lemma app_image_shape dcid pn n : conn_id_ok dcid -> 1 <= n <= 4 -> exists b mid,
  app_image dcid pn n = b :: mid ++ be_bytes (Z.to_nat n) pn /\ zlen mid = cid_len dcid /\
  (b &&& NXP_PKT_FORM_BIT =? 0) = true /\ n = (b &&& 3) + 1 /\ 0 <= cid_len dcid <= 20 /\ mid = cid_bytes dcid.
Proof.
  intros (l & Hl & Hmax & Hok) Hn. pose proof (zlen_mk_conn_id l Hmax) as [_ Ht]. pose proof (zlen_nonneg l).
  exists (short_first_byte (app_header dcid pn n)), l. unfold app_image, short_header_image, app_header. simpl.
  assert (cid_len dcid = zlen l) as -> by (by rewrite Hl). rewrite Hl, Ht.
  pose proof (short_first_byte_bits (app_header dcid pn n) Hn) as (Hf & _ & _ & _ & Hp).
  unfold NXP_MAX_CID_LEN in Hmax. rewrite Hl in *. split_and!; try done; try lia.
Qed.

(** ** Receiving *)

(** The receiver once the packet is recorded. *)
Definition received (r : nxp_conn) (len pn now : Z) : nxp_conn :=
  let r := r <| cn_last_activity_us := now |>
    <| cn_stats := cn_stats r <| st_bytes_recv := u64 (st_bytes_recv (cn_stats r) + len) |>
         <| st_packets_recv := u64 (st_packets_recv (cn_stats r) + 1) |> |> in
  r <| cn_ack := nxp_ack_on_pkt_recv (cn_ack r) pn now true |>.

(** The receiver reconstructs [pn] from [n] bytes of it. *)
Definition pn_recovered (r : nxp_conn) (pn n : Z) : Prop :=
  0 <= largest_recv_pn (cn_ack r) < 2 ^ 62 - 1 /\ 0 <= pn < 2 ^ 62 /\
  largest_recv_pn (cn_ack r) + 1 - 256 ^ n / 2 < pn <= largest_recv_pn (cn_ack r) + 1 + 256 ^ n / 2.

Definition open_state (r : nxp_conn) : Prop := cn_state r <> NXP_CONN_CLOSED /\ cn_state r <> NXP_CONN_DRAINING.

(** The receiver up to the short header, for a packet in 1-RTT form. *)
Lemma recv_short_form b tl r now : open_state r -> (b &&& NXP_PKT_FORM_BIT =? 0) = true ->
  1 + zlen tl <= NXP_PACKET_BUF_SIZE ->
  nxp_conn_recv r (b :: tl) now =
    recv_short_packet (r <| cn_last_activity_us := now |>
      <| cn_stats := cn_stats r <| st_bytes_recv := u64 (st_bytes_recv (cn_stats r) + zlen (b :: tl)) |>
         <| st_packets_recv := u64 (st_packets_recv (cn_stats r) + 1) |> |>) (b :: tl) now.
Proof.
  intros [Hs1 Hs2] Hb Hl. pose proof (zlen_nonneg tl). unfold nxp_conn_recv.
  rewrite (proj2 (Z.eqb_neq _ _)) by (rewrite zlen_cons; lia). rewrite !bool_decide_false by done. cbn [orb].
  change (rd (b :: tl) 0) with (@Done (nxp_error_code * nxp_conn) Z b). cbn [obind].
  unfold nxp_pkt_is_long_header. rewrite Hb. cbn [negb]. unfold copy_packet.
  rewrite gtb_le by (rewrite zlen_cons; lia). done.
Qed.

Lemma hp_protect_works keys b mid pn rest : hp_works keys -> 1 <= zlen pn <= 4 -> 20 <= zlen pn + zlen rest ->
  zlen (mid ++ pn ++ rest) < 2 ^ 62 ->
  exists p, nxp_hp_protect (cs_algo keys) (ck_hp_key (cs_send keys)) (b :: mid ++ pn ++ rest) (1 + zlen mid) (zlen pn) = Done p.
Proof.
  intros Hw Hpn Hr Hmax. destruct (Hw (ztake 16 (zdrop (4 - zlen pn) rest))) as [mask Hm].
  { unfold NXP_HP_SAMPLE_LEN. apply zlen_ztake. rewrite zlen_zdrop by lia. lia. }
  destruct (hp_mask_cons _ _ rest (zlen pn) mask ltac:(lia) Hr Hm) as (m & ms & -> & Hms & _).
  eexists. by apply hp_protect_spec.
Qed.

(** A packet is protected only if it has a sample. *)
Lemma hp_protect_sample algo key p off n q : 0 <= off < 2 ^ 62 -> nxp_hp_protect algo key p off n = Done q -> off + 20 <= zlen p.
Proof.
  intros Hoff. unfold nxp_hp_protect, NXP_HP_SAMPLE_LEN. rewrite !u64_small by (rewrite ?u64_small; lia).
  rewrite Z.gtb_ltb. destruct (Z.ltb_spec (zlen p) (off + 4 + 16)); [done | lia].
Qed.

Section Packet.
  Context (keys : nxp_crypto_state) (r : nxp_conn) (pn n : Z) (frames ct : list Z).
Let img := app_image (cn_scid r) pn n.
  Hypothesis Hcid : conn_id_ok (cn_scid r).
  Hypothesis Hn : 1 <= n <= 4.
  Hypothesis Hkeys : cn_crypto r = crossed keys.
  Hypothesis Havail : cs_available keys = true.
  Hypothesis Hct : nxp_aead_encrypt (cs_algo keys) (ck_key (cs_send keys))
    (nxp_crypto_make_nonce (ck_iv (cs_send keys)) pn) img frames = Some ct.
  Hypothesis Hmax : zlen img + zlen ct <= NXP_PACKET_BUF_SIZE.

Lemma app_image_len : zlen img = 1 + cid_len (cn_scid r) + n.
Proof.
  destruct (app_image_shape (cn_scid r) pn n Hcid Hn) as (b & mid & Hi & Hmid & _). unfold img. rewrite Hi.
  rewrite zlen_cons, zlen_app, zlen_be_bytes. lia.
Qed.

Lemma recv_app_packet p now : open_state r -> pn_recovered r pn n -> 20 <= n + zlen ct ->
  nxp_hp_protect (cs_algo keys) (ck_hp_key (cs_send keys)) (img ++ ct) (zlen img - n) n = Done p ->
  nxp_conn_recv r p now = process_frames (received r (zlen p) pn now) frames now.
Proof.
  intros Hopen Hpn Hlong Hp. destruct (app_image_shape (cn_scid r) pn n Hcid Hn) as (b & mid & Hi & Hmid & Hf & Hb & Hc & _).
  pose proof app_image_len as Hil. fold img in Hi.
  replace (zlen img - n) with (1 + zlen mid) in Hp by lia. rewrite Hi in Hp, Hmax. unfold NXP_PACKET_BUF_SIZE in *.
  assert (zlen (be_bytes (Z.to_nat n) pn) = n) as Hbn by (rewrite zlen_be_bytes; lia).
  rewrite zlen_cons, zlen_app, Hbn in Hmax. cbn [app] in Hp. rewrite <- app_assoc in Hp.
  pose proof (zlen_nonneg ct). pose proof (zlen_nonneg mid).
  pose proof (hp_unprotect_protect (cs_algo keys) (ck_hp_key (cs_send keys)) b mid (be_bytes (Z.to_nat n) pn) ct p
    ltac:(lia) ltac:(lia) ltac:(rewrite !zlen_app; lia)) as Hun. rewrite Hbn in Hun. specialize (Hun Hp).
  pose proof (hp_protect_form (cs_algo keys) (ck_hp_key (cs_send keys)) b mid (be_bytes (Z.to_nat n) pn) ct p
    ltac:(lia) ltac:(lia) ltac:(rewrite !zlen_app; lia)) as Hform. rewrite Hbn in Hform.
  destruct (Hform Hp) as (b' & tl & -> & Hfb & Htl). rewrite zlen_app, Hbn in Htl.
  rewrite recv_short_form by (rewrite ?Hfb, ?zlen_app; (done || unfold NXP_PACKET_BUF_SIZE; lia)).
  unfold recv_short_packet. set (r1 := r <| cn_last_activity_us := now |> <| cn_stats := _ |>).
  change (cn_crypto r1) with (cn_crypto r). change (cn_scid r1) with (cn_scid r). rewrite Hkeys.
  cbn [crossed cs_available cs_recv cs_algo]. rewrite Havail, <- Hmid, Hun. cbn [or_crypto_fail or_fail obind].
  replace (b :: mid ++ be_bytes (Z.to_nat n) pn ++ ct) with (img ++ ct) by (rewrite Hi; cbn [app]; by rewrite <- app_assoc).
  pose proof (short_decode_image (app_header (cn_scid r) pn n) ct (conj Hcid (conj Hn (proj1 (proj1 (proj2 Hpn))))))
    as Hdec. cbn [sh_dcid app_header] in Hdec. fold (app_header (cn_scid r) pn n) in Hdec.
  fold (app_image (cn_scid r) pn n) in Hdec. fold img in Hdec. rewrite Hmid.
  rewrite Hdec by (rewrite zlen_app, Hil; lia).
  unfold short_decoded. cbn [sh_dcid sh_pkt_num sh_pkt_num_len sh_header_len app_header].
  destruct Hpn as (Hlr & Hpn & Hwin).
  change (cn_ack r1) with (cn_ack r). rewrite decode_pkt_num_spec by (done || lia). rewrite <- Hil.
  unfold open_packet. rewrite !sub_buf_Done by (rewrite ?zlen_app; lia). rewrite zdrop_0, ztake_app, zdrop_app. cbn [obind].
  rewrite ztake_all by (rewrite zlen_app; lia). cbn [crossed cs_algo cs_recv].
  apply aead_encrypt_size in Hct as Hsz. destruct Hsz as [Hsz _]. unfold NXP_AEAD_TAG_LEN in Hsz.
  rewrite (aead_decrypt_encrypt _ _ _ _ frames ct) by (done || unfold NXP_PACKET_BUF_SIZE; lia). done.
Qed.

(** A packet too short for a sample of its ciphertext is refused. *)
Lemma recv_too_short now : open_state r -> n + zlen ct < 20 ->
  exists r', nxp_conn_recv r (img ++ ct) now = Err (NXP_ERR_CRYPTO_FAIL, r').
Proof.
  intros Hopen Hshort. destruct (app_image_shape (cn_scid r) pn n Hcid Hn) as (b & mid & Hi & Hmid & Hf & _).
  pose proof app_image_len as Hil. fold img in Hi. pose proof (zlen_nonneg mid). pose proof (zlen_nonneg ct).
  rewrite Hi in *. cbn [app]. rewrite recv_short_form; [| done | done |].
  2: { rewrite zlen_cons in Hmax. rewrite zlen_app. lia. }
  unfold recv_short_packet. set (r1 := r <| cn_last_activity_us := now |> <| cn_stats := _ |>).
  change (cn_crypto r1) with (cn_crypto r). change (cn_scid r1) with (cn_scid r). rewrite Hkeys.
  cbn [crossed cs_available cs_recv cs_algo]. rewrite Havail.
  unfold nxp_hp_unprotect. unfold NXP_PACKET_BUF_SIZE, NXP_HP_SAMPLE_LEN in *.
  rewrite zlen_cons in Hil, Hmax. rewrite !u64_small by (rewrite ?u64_small; lia).
  rewrite Z.gtb_ltb, (proj2 (Z.ltb_lt _ _)) by (rewrite zlen_cons, zlen_app; lia). cbn. eauto.
Qed.

(** Both cases, for the bytes that sealing leaves in the buffer. *)
Lemma sealed_received p now : open_state r -> pn_recovered r pn n -> hp_works keys ->
  match nxp_hp_protect (cs_algo keys) (ck_hp_key (cs_send keys)) (img ++ ct) (zlen img - n) n with
  | Done q => p = q
  | _ => p = img ++ ct
  end ->
  if n + zlen frames <? 4
  then exists r', nxp_conn_recv r p now = Err (NXP_ERR_CRYPTO_FAIL, r')
  else nxp_conn_recv r p now = process_frames (received r (zlen img + zlen ct) pn now) frames now.
Proof.
  intros Hopen Hpn Hw Hp. pose proof app_image_len as Hil.
  pose proof (proj1 (aead_encrypt_size _ _ _ _ _ _ Hct)) as Hsz. unfold NXP_AEAD_TAG_LEN in Hsz.
  destruct (app_image_shape (cn_scid r) pn n Hcid Hn) as (fb & mid & Hi & Hmid & _ & _ & Hcr & _). fold img in Hi.
  pose proof (hp_protect_safe (cs_algo keys) (ck_hp_key (cs_send keys)) (img ++ ct) (zlen img - n) n) as Hsafe.
  pose proof (zlen_nonneg frames). unfold NXP_PACKET_BUF_SIZE in Hmax.
  destruct (Z.ltb_spec (n + zlen frames) 4) as [Hs | Hl].
  - destruct (nxp_hp_protect _ _ _ _ _) eqn:He; [exfalso | rewrite Hp; apply recv_too_short; [done | lia] ..].
    apply hp_protect_sample in He; [| lia]. rewrite zlen_app in He. lia.
  - assert (zlen (be_bytes (Z.to_nat n) pn) = n) as Hbn by (rewrite zlen_be_bytes; lia).
    destruct (hp_protect_works keys fb mid (be_bytes (Z.to_nat n) pn) ct) as [q Hq];
      [done | lia | lia | rewrite !zlen_app; lia |].
    assert (nxp_hp_protect (cs_algo keys) (ck_hp_key (cs_send keys)) (img ++ ct) (zlen img - n) n = Done q) as He.
    { rewrite Hbn in Hq. replace (zlen img - n) with (1 + zlen mid) by lia. rewrite Hi. cbn [app]. by rewrite <- app_assoc. }
    rewrite He in Hp, Hsafe. subst q. specialize (Hsafe ltac:(rewrite zlen_app; lia) ltac:(lia) Hn).
    rewrite <- zlen_app, <- Hsafe. apply recv_app_packet; (done || lia).
Qed.

End Packet.

(** ** Sending *)

(** What finishing a packet does, by the outcome of its encryption. *)
Lemma finish_packet_eq ok c space b out n now : builder_ok c space b -> cs_available (cn_crypto c) = true ->
  1 <= n <= 4 -> zlen out < 2 ^ 62 -> 0 < bd_pos b -> space <= NXP_PACKET_BUF_SIZE ->
  1 + cid_len (cn_dcid c) + n + space + NXP_AEAD_TAG_LEN <= zlen out ->
  let img := app_image (cn_dcid c) (cn_next_pkt_num c) n in
  let keys := cn_crypto c in
  match nxp_aead_encrypt (cs_algo keys) (ck_key (cs_send keys))
          (nxp_crypto_make_nonce (ck_iv (cs_send keys)) (cn_next_pkt_num c)) img (ztake (bd_pos b) (bd_buf b)) with
  | None => exists out' c', finish_packet ok b out n now = Done (-1, out', c')
  | Some ct => exists out' c', finish_packet ok b out n now = Done (zlen img + zlen ct, out', c') /\
      zlen ct = bd_pos b + NXP_AEAD_TAG_LEN /\ zlen img = 1 + cid_len (cn_dcid c) + n /\
      match nxp_hp_protect (cs_algo keys) (ck_hp_key (cs_send keys)) (img ++ ct) (zlen img - n) n with
      | Done q => ztake (zlen img + zlen ct) out' = q
      | _ => ztake (zlen img + zlen ct) out' = img ++ ct
      end
  end.
Proof.
  intros [Hnx [= Hd Hp Hcr] Hbuf Hpos [Hfr _]] Hav Hn Hout Hpos' Hsp Hfit img keys.
  pose proof (co_pkt_num _ (proj1 Hnx)) as Hpn. rewrite Hp in Hpn.
  assert (conn_id_ok (cn_dcid c)) as Hcid by (rewrite <- Hd; apply co_dcid, Hnx).
  destruct (app_image_shape (cn_dcid c) (cn_next_pkt_num c) n Hcid Hn) as (fb & mid & Hi & Hmid & _ & _ & Hcl & _).
  assert (zlen img = 1 + cid_len (cn_dcid c) + n) as Hil.
  { unfold img. rewrite Hi, zlen_cons, zlen_app, zlen_be_bytes. lia. }
  unfold NXP_PACKET_BUF_SIZE, NXP_AEAD_TAG_LEN in *. unfold finish_packet. rewrite Hd, Hp, Hcr. cbv zeta.
  pose proof (short_encode_spec (app_header (cn_dcid c) (cn_next_pkt_num c) n) out
    (conj Hcid (conj Hn (proj1 Hpn))) ltac:(lia)) as He. cbv zeta in He.
  change (short_header_image _ _) with img in He. change (cid_len (sh_dcid _)) with (cid_len (cn_dcid c)) in He.
  rewrite (proj2 (Z.leb_le _ _)) in He by lia. unfold app_header in He. rewrite He. cbn [obind].
  rewrite (proj2 (Z.eqb_neq _ _)), Hav by lia. fold keys.
  set (frames := ztake (bd_pos b) (bd_buf b)). assert (zlen frames = bd_pos b) as Hfl by (apply zlen_ztake; lia).
  assert (ztake (zlen img) (splice out 0 img) = img /\ zlen (splice out 0 img) = zlen out) as [Ht Hso].
  { rewrite splice_0. split; [apply ztake_app | rewrite <- splice_0; apply zlen_splice; lia]. }
  destruct (nxp_aead_encrypt _ _ _ img frames) as [ct |] eqn:Hct.
  - pose proof Hct as Hsz. apply aead_encrypt_size in Hsz as [Hsz _]. unfold NXP_AEAD_TAG_LEN in Hsz.
    pose proof (hp_protect_safe (cs_algo keys) (ck_hp_key (cs_send keys)) (img ++ ct) (zlen img - n) n
      ltac:(rewrite zlen_app; lia) ltac:(lia) Hn) as Hhp.
    destruct (seal_packet_image keys (splice out 0 img) img n (cn_next_pkt_num c) frames ct
      (match nxp_hp_protect (cs_algo keys) (ck_hp_key (cs_send keys)) (img ++ ct) (zlen img - n) n with
       | Done q => q | _ => img ++ ct end)) as (o & -> & Htake); [done | lia | done | |].
    { destruct (nxp_hp_protect _ _ _ _ _); [| done | done]. split; [done |]. by rewrite <- zlen_app. }
    cbn [obind]. destruct (record_sent_ok ok c (bd_conn b) (bd_frames b) (bd_eliciting b) (zlen img + zlen ct) now Hnx Hfr)
      as (c1 & -> & _). cbn [obind]. do 2 eexists. split; [reflexivity |]. split; [lia |]. split; [done |].
    by destruct (nxp_hp_protect _ _ _ _ _).
  - unfold seal_packet. rewrite sub_buf_Done by lia. rewrite zdrop_0, Ht. cbn [obind]. rewrite Hct. cbn [obind]. eauto.
Qed.

(** [r] is the peer of [c]: its connection ID and the keys of both directions. *)
Definition peers (c r : nxp_conn) : Prop :=
  cn_scid r = cn_dcid c /\ cn_crypto r = crossed (cn_crypto c) /\ cs_available (cn_crypto c) = true.

(** The number of bytes that [c] uses for the next packet number. *)
Definition pn_len (c : nxp_conn) : Z := nxp_pkt_num_len (cn_next_pkt_num c) (largest_recv_pn (cn_ack c)).

(** The sender when it starts to collect frames. *)
Definition sending (c : nxp_conn) (now : Z) : nxp_conn :=
  c <| cn_last_activity_us := now |> <| cn_pacer := Pacer.nxp_pacer_update (cn_pacer c) now |>.

Lemma frame_room_bounds c out n : conn_ok c -> 1 <= n <= 4 -> NXP_MIN_DATAGRAM <= zlen out < 2 ^ 62 ->
  0 <= frame_room c out n <= NXP_PACKET_BUF_SIZE /\
  1 + cid_len (cn_dcid c) + n + frame_room c out n + (if cs_available (cn_crypto c) then NXP_AEAD_TAG_LEN else 0) <= zlen out.
Proof.
  intros Hok Hn Hout. destruct (co_dcid c Hok) as (l & Hl & Hmax & _). pose proof (zlen_nonneg l).
  assert (cid_len (cn_dcid c) = zlen l) as Hcl by (by rewrite Hl).
  unfold frame_room, NXP_PACKET_BUF_SIZE, NXP_MIN_DATAGRAM, NXP_AEAD_TAG_LEN, NXP_MAX_CID_LEN in *. rewrite Z.gtb_ltb.
  destruct (cs_available (cn_crypto c)); zcase; lia.
Qed.

(** What a packet of the engine is, when one is sent. *)
Lemma send_packet_bytes fuel ok c out now k out' c' : conn_ok c ->
  match cn_handshake c with Some hs => nxp_handshake_has_data hs = false | None => True end ->
  NXP_MIN_DATAGRAM <= zlen out < 2 ^ 62 ->
  nxp_conn_send fuel ok c out now = Done (k, out', c') -> 0 < k ->
  exists b, collect_frames (frame_room c out (pn_len c)) fuel (sending c now) now = Done b /\ 0 < bd_pos b /\
    finish_packet ok b out (pn_len c) now = Done (k, out', c').
Proof.
  intros Hok Hhs Hout Hs Hk. unfold nxp_conn_send in Hs.
  assert (match cn_handshake c with Some hs => nxp_handshake_has_data hs | None => false end = false) as Hd
    by (by destruct (cn_handshake c)).
  rewrite Hd in Hs. destruct (negb _) in Hs; [injection Hs as <- _ _; lia |]. cbv zeta in Hs.
  fold (sending c now) in Hs. destruct (negb _ && negb _) in Hs; [injection Hs as <- _ _; lia |].
  unfold send_data_packet in Hs. cbv zeta in Hs.
  change (nxp_pkt_num_len _ _) with (pn_len c) in Hs. destruct (_ <? _) in Hs; [injection Hs as <- _ _; lia |].
  change (if _ >? NXP_PACKET_BUF_SIZE then _ else _) with (frame_room c out (pn_len c)) in Hs.
  destruct (collect_frames _ _ _ _) as [b | |] eqn:Hc; cbn [obind] in Hs; [| done | done].
  destruct (Z.eqb_spec (bd_pos b) 0); [injection Hs as <- _ _; lia |]. exists b. split; [done |]. split; [| done].
  assert (conn_ok (sending c now)) as Hok1 by (apply (next_pacer c), next_activity, conn_next_refl, Hok).
  pose proof (pkt_num_len_range (cn_next_pkt_num c) (largest_recv_pn (cn_ack c))) as Hn. fold (pn_len c) in Hn.
  pose proof (frame_room_bounds c out (pn_len c) Hok Hn Hout) as [Hr _].
  pose proof (collect_frames_ok fuel (sending c now) _ now Hok1 Hr) as Hb. rewrite Hc in Hb.
  pose proof (bo_pos _ _ _ Hb). lia.
Qed.

(** The sealed packet that [c] sends: the image of its header and the ciphertext
    of the frames it collected, with the header protected if possible. *)
Definition sends_sealed (fuel : nat) (c : nxp_conn) (out : list Z) (now k : Z) (out' : list Z) (b : builder) (ct : list Z) : Prop :=
  let img := app_image (cn_dcid c) (cn_next_pkt_num c) (pn_len c) in
  let keys := cn_crypto c in
  collect_frames (frame_room c out (pn_len c)) fuel (sending c now) now = Done b /\
  0 < bd_pos b <= NXP_PACKET_BUF_SIZE /\ zlen (ztake (bd_pos b) (bd_buf b)) = bd_pos b /\
  nxp_aead_encrypt (cs_algo keys) (ck_key (cs_send keys)) (nxp_crypto_make_nonce (ck_iv (cs_send keys)) (cn_next_pkt_num c))
    img (ztake (bd_pos b) (bd_buf b)) = Some ct /\
  k = zlen img + zlen ct /\ zlen ct = bd_pos b + NXP_AEAD_TAG_LEN /\ zlen img = 1 + cid_len (cn_dcid c) + pn_len c /\
  k <= zlen out /\
  match nxp_hp_protect (cs_algo keys) (ck_hp_key (cs_send keys)) (img ++ ct) (zlen img - pn_len c) (pn_len c) with
  | Done q => ztake k out' = q
  | _ => ztake k out' = img ++ ct
  end.

Lemma sent_sealed fuel ok c out now k out' c' : conn_ok c -> cs_available (cn_crypto c) = true ->
  match cn_handshake c with Some hs => nxp_handshake_has_data hs = false | None => True end ->
  NXP_MIN_DATAGRAM <= zlen out < 2 ^ 62 -> nxp_conn_send fuel ok c out now = Done (k, out', c') -> 0 < k ->
  exists b ct, sends_sealed fuel c out now k out' b ct.
Proof.
  intros Hok Hav Hhs Hout Hs Hk.
  destruct (send_packet_bytes fuel ok c out now k out' c' Hok Hhs Hout Hs Hk) as (b & Hc & Hpos & Hfin).
  pose proof (pkt_num_len_range (cn_next_pkt_num c) (largest_recv_pn (cn_ack c))) as Hn. fold (pn_len c) in Hn.
  assert (conn_ok (sending c now)) as Hok1 by (apply (next_pacer c), next_activity, conn_next_refl, Hok).
  pose proof (frame_room_bounds c out (pn_len c) Hok Hn Hout) as [Hr Hr'].
  pose proof (collect_frames_ok fuel (sending c now) _ now Hok1 Hr) as Hb. rewrite Hc in Hb. rewrite Hav in Hr'.
  pose proof (finish_packet_eq ok (sending c now) _ b out (pn_len c) now Hb Hav Hn ltac:(lia) Hpos ltac:(lia)
    ltac:(simpl; lia)) as Heq. cbv zeta in Heq.
  change (cn_dcid (sending c now)) with (cn_dcid c) in *. change (cn_next_pkt_num (sending c now)) with (cn_next_pkt_num c) in *.
  change (cn_crypto (sending c now)) with (cn_crypto c) in *.
  destruct (nxp_aead_encrypt _ _ _ _ _) as [ct |] eqn:Hct in Heq; [| destruct Heq as (? & ? & He); rewrite Hfin in He;
    injection He as -> _ _; lia].
  destruct Heq as (o & c1 & He & Hcl & Hil & Hp). rewrite Hfin in He. injection He as -> <- _.
  pose proof (bo_pos _ _ _ Hb). pose proof (bo_buf _ _ _ Hb) as Hbuf. exists b, ct. unfold sends_sealed. cbv zeta.
  unfold NXP_PACKET_BUF_SIZE, NXP_AEAD_TAG_LEN in *. split_and!; try (done || lia). apply zlen_ztake. lia.
Qed.

(** ** Nonces *)

(** [p] is the packet with the header [img] and the payload [pt], sealed with the
    nonce of the number [pn]: the header and the ciphertext, with the header protected
    if possible. *)
Definition sealed_as (keys : nxp_crypto_state) (nonce : list Z) (n : Z) (img pt p : list Z) : Prop := exists ct,
  nxp_aead_encrypt (cs_algo keys) (ck_key (cs_send keys)) nonce img pt = Some ct /\
  match nxp_hp_protect (cs_algo keys) (ck_hp_key (cs_send keys)) (img ++ ct) (zlen img - n) n with
  | Done q => p = q
  | _ => p = img ++ ct
  end.

Lemma seal_packet_sealed keys out img n pn frames total out' : ztake (zlen img) out = img -> 1 <= n <= 4 -> n < zlen img ->
  zlen img + zlen frames + NXP_AEAD_TAG_LEN <= zlen out < 2 ^ 62 ->
  seal_packet keys out (zlen img) n pn frames = Done (Some (total, out')) ->
  sealed_as keys (nxp_crypto_make_nonce (ck_iv (cs_send keys)) pn) n img frames (ztake total out').
Proof.
  intros Himg Hn Hni Hfit Hs. pose proof (zlen_nonneg frames). unfold NXP_AEAD_TAG_LEN in *.
  destruct (nxp_aead_encrypt (cs_algo keys) (ck_key (cs_send keys)) (nxp_crypto_make_nonce (ck_iv (cs_send keys)) pn) img frames)
    as [ct |] eqn:Hct.
  2: { unfold seal_packet in Hs. rewrite sub_buf_Done, zdrop_0, Himg in Hs by lia. cbn [obind] in Hs. by rewrite Hct in Hs. }
  pose proof Hct as Hsz. apply aead_encrypt_size in Hsz as [Hsz _]. unfold NXP_AEAD_TAG_LEN in Hsz.
  pose proof (hp_protect_safe (cs_algo keys) (ck_hp_key (cs_send keys)) (img ++ ct) (zlen img - n) n
    ltac:(rewrite zlen_app; lia) ltac:(lia) Hn) as Hhp.
  destruct (seal_packet_image keys out img n pn frames ct
    (match nxp_hp_protect (cs_algo keys) (ck_hp_key (cs_send keys)) (img ++ ct) (zlen img - n) n with
     | Done q => q | _ => img ++ ct end)) as (o & Ho & Htake); [done | lia | done | |].
  { destruct (nxp_hp_protect _ _ _ _ _); [| done | done]. split; [done |]. by rewrite <- zlen_app. }
  rewrite Hs in Ho. injection Ho as -> ->. exists ct. split; [done |]. rewrite Htake. by destruct (nxp_hp_protect _ _ _ _ _).
Qed.

(** The keys that protect the next packet, when these are application keys: those of
    the connection, or of the handshake for HANDSHAKE_DONE. *)
Definition app_send_keys (c : nxp_conn) : option nxp_crypto_state :=
  let own := if cs_available (cn_crypto c) then Some (cn_crypto c) else None in
  match cn_handshake c with
  | Some hs =>
      if negb (nxp_handshake_has_data hs) then own else
      if send_handshake_done hs && bool_decide (nxp_handshake_send_level hs = NXP_CRYPTO_APPLICATION)
      then Some (app_keys hs) else None
  | None => own
  end.

Lemma done_packet_sealed c hs out k out' c' : conn_ok c -> zlen out < 2 ^ 62 ->
  send_handshake_done_packet c hs out = Done (k, out', c') -> 0 < k ->
  exists pt, sealed_as (app_keys hs) (nxp_crypto_make_nonce (ck_iv (cs_send (app_keys hs))) (cn_next_pkt_num c)) 1
    (app_image (cn_dcid c) (cn_next_pkt_num c) 1) pt (ztake k out').
Proof.
  intros Hok Hout Hs Hk. unfold send_handshake_done_packet in Hs. cbv zeta in Hs.
  destruct (negb _) in Hs; [injection Hs as <- _ _; lia |].
  destruct (Z.ltb_spec (zlen out) (1 + cid_len (cn_dcid c) + 1 + 4 + NXP_AEAD_TAG_LEN)) as [| Hfit] in Hs; [injection Hs as <- _ _; lia |].
  change (nxp_frame_encode_handshake_done (zeros 8)) with (@Done unit _ (1, NXP_FRAME_HANDSHAKE_DONE :: zeros 7)) in Hs.
  cbn [obind] in Hs. change (1 =? 0) with false in Hs. cbv iota in Hs. set (fr := ztake 1 _ ++ _) in Hs.
  assert (zlen fr = 4) as Hfr by done. clearbody fr. pose proof (co_dcid c Hok) as Hcid. unfold NXP_AEAD_TAG_LEN in Hfit.
  destruct (app_image_shape (cn_dcid c) (cn_next_pkt_num c) 1 Hcid ltac:(lia)) as (fb & mid & Hi & Hmid & _ & _ & Hcl & _).
  set (img := app_image (cn_dcid c) (cn_next_pkt_num c) 1) in *.
  assert (zlen img = 1 + cid_len (cn_dcid c) + 1) as Hil by (rewrite Hi, zlen_cons, zlen_app, zlen_be_bytes; lia).
  pose proof (short_encode_spec (app_header (cn_dcid c) (cn_next_pkt_num c) 1) out
    (conj Hcid (conj (ltac:(lia) : 1 <= 1 <= 4) (proj1 (co_pkt_num c Hok)))) ltac:(lia)) as He. cbv zeta in He.
  change (short_header_image _ _) with img in He. change (cid_len (sh_dcid _)) with (cid_len (cn_dcid c)) in He.
  rewrite (proj2 (Z.leb_le _ _)) in He by lia. unfold app_header in He. rewrite He in Hs. cbn [obind] in Hs.
  rewrite (proj2 (Z.eqb_neq _ _)) in Hs by lia.
  destruct (seal_packet _ _ _ _ _ _) as [[[total o] |] | |] eqn:Hse in Hs; cbn [obind] in Hs; [| injection Hs as <- _ _; lia | done | done].
  injection Hs as <- <- _. exists fr. rewrite splice_0 in Hse.
  apply (seal_packet_sealed _ (img ++ zdrop (zlen img) out) _ 1 (cn_next_pkt_num c) fr); [apply ztake_app | lia | lia | | exact Hse].
  rewrite zlen_app, zlen_zdrop by lia. unfold NXP_AEAD_TAG_LEN. lia.
Qed.

(** What goes out under the application keys. *)
Lemma app_packet_sealed fuel ok c out now k out' c' keys : conn_ok c -> NXP_MIN_DATAGRAM <= zlen out < 2 ^ 62 ->
  app_send_keys c = Some keys -> nxp_conn_send fuel ok c out now = Done (k, out', c') -> 0 < k ->
  exists n pt, sealed_as keys (nxp_crypto_make_nonce (ck_iv (cs_send keys)) (cn_next_pkt_num c)) n
    (app_image (cn_dcid c) (cn_next_pkt_num c) n) pt (ztake k out').
Proof.
  intros Hok Hout Hkeys Hs Hk.
  assert (match cn_handshake c with Some hs => nxp_handshake_has_data hs = false | None => True end ->
    (if cs_available (cn_crypto c) then Some (cn_crypto c) else None) = Some keys ->
    exists n pt, sealed_as keys (nxp_crypto_make_nonce (ck_iv (cs_send keys)) (cn_next_pkt_num c)) n
      (app_image (cn_dcid c) (cn_next_pkt_num c) n) pt (ztake k out')) as Hown.
  { intros Hhs Hav. destruct (cs_available (cn_crypto c)) eqn:Ha; [| done]. injection Hav as <-.
    destruct (sent_sealed fuel ok c out now k out' c' Hok Ha Hhs Hout Hs Hk) as (b & ct & _ & _ & _ & Hct & _ & _ & _ & _ & Hp).
    by exists (pn_len c), (ztake (bd_pos b) (bd_buf b)), ct. }
  unfold app_send_keys in Hkeys. cbv zeta in Hkeys. unfold nxp_conn_send in Hs.
  destruct (cn_handshake c) as [hs |] eqn:Hh; [| by apply Hown].
  destruct (nxp_handshake_has_data hs) eqn:Hd; cbn [negb] in Hkeys; [| by apply Hown].
  destruct (send_handshake_done hs && _) eqn:Hl in Hkeys; [| done]. injection Hkeys as <-. clear Hown.
  unfold send_handshake_packet in Hs. change (cn_handshake (c <| cn_last_activity_us := now |>)) with (cn_handshake c) in Hs.
  rewrite Hh, Hd, Hl in Hs. exists 1. exact (done_packet_sealed (c <| cn_last_activity_us := now |>) hs out k out' c'
    (proj1 (next_activity c c now (conn_next_refl c Hok))) ltac:(lia) Hs Hk).
Qed.

(** C6: no two packets under the application keys are sealed with the same nonce.
    Whatever happens between two packets that go out under such keys, the datagrams
    are sealed with the nonces of the packet numbers at these moments, and if both
    use the same 12-byte IV the two nonces differ. *)
Theorem nonces_unique fuel ok c out now k out' c1 keys c2 fuel' ok' o now' k' o' c3 keys' :
  conn_ok c -> event_ok c (EvSend fuel ok out now) -> app_send_keys c = Some keys ->
  nxp_conn_send fuel ok c out now = Done (k, out', c1) -> 0 < k -> conn_steps c1 c2 ->
  event_ok c2 (EvSend fuel' ok' o now') -> app_send_keys c2 = Some keys' ->
  nxp_conn_send fuel' ok' c2 o now' = Done (k', o', c3) -> 0 < k' ->
  let nonce := nxp_crypto_make_nonce (ck_iv (cs_send keys)) (cn_next_pkt_num c) in
  let nonce' := nxp_crypto_make_nonce (ck_iv (cs_send keys')) (cn_next_pkt_num c2) in
  (exists n img pt, sealed_as keys nonce n img pt (ztake k out')) /\
  (exists n img pt, sealed_as keys' nonce' n img pt (ztake k' o')) /\
  (ck_iv (cs_send keys) = ck_iv (cs_send keys') -> zlen (ck_iv (cs_send keys)) = NXP_AEAD_IV_LEN -> nonce <> nonce').
Proof.
  intros Hok [Hout Hlast] Hkeys Hs Hk Hst [Hout' Hlast'] Hkeys' Hs' Hk' nonce nonce'.
  assert (sends_app c = true) as Happ.
  { unfold app_send_keys, sends_app in *. destruct (cn_handshake c); [| done].
    destruct (nxp_handshake_has_data _); [| done]. cbn [negb orb] in *. by destruct (_ && _). }
  destruct (conn_send_keeps fuel ok c out now Hok Hout Hlast) as [[He | Hse] _]; [congruence |].
  destruct Hse as (n1 & o1 & c1' & Hs1 & Hn1 & _ & _ & _ & Hbump). rewrite Hs in Hs1. injection Hs1 as <- <- <-.
  specialize (Hbump Happ Hk). pose proof (conn_steps_ok c1 c2 (proj1 Hn1) Hst) as Hn2.
  split_and!.
  - destruct (app_packet_sealed fuel ok c out now k out' c1 keys) as (n & pt & ?); eauto.
  - destruct (app_packet_sealed fuel' ok' c2 o now' k' o' c3 keys' (proj1 Hn2)) as (n & pt & ?); eauto.
  - intros Hiv Hl Heq. pose proof (cl_pkt_num _ _ (proj2 Hn2)). pose proof (co_pkt_num c Hok). pose proof (co_pkt_num c2 (proj1 Hn2)).
    unfold nonce, nonce' in Heq. rewrite <- Hiv in Heq. apply make_nonce_inj in Heq; lia.
Qed.

(** The destination connection ID follows the first byte of a packet in clear. *)
Lemma sent_routable fuel c out now k out' b ct : conn_ok c -> zlen out < 2 ^ 62 -> sends_sealed fuel c out now k out' b ct ->
  exists first tl, ztake k out' = first :: cid_bytes (cn_dcid c) ++ tl /\ (first &&& NXP_PKT_FORM_BIT =? 0) = true.
Proof.
  intros Hok Hout (_ & Hpos & _ & _ & -> & Hcl & Hil & Hko & Hp). unfold NXP_AEAD_TAG_LEN, NXP_PACKET_BUF_SIZE in *.
  pose proof (pkt_num_len_range (cn_next_pkt_num c) (largest_recv_pn (cn_ack c))) as Hn. fold (pn_len c) in Hn.
  destruct (app_image_shape (cn_dcid c) (cn_next_pkt_num c) (pn_len c) (co_dcid c Hok) Hn) as (fb & mid & Hi & Hmid & Hf & _ & Hcr & ->).
  assert (app_image (cn_dcid c) (cn_next_pkt_num c) (pn_len c) ++ ct =
    fb :: cid_bytes (cn_dcid c) ++ be_bytes (Z.to_nat (pn_len c)) (cn_next_pkt_num c) ++ ct) as Hpkt by (rewrite Hi; simpl; by rewrite <- app_assoc).
  destruct (nxp_hp_protect _ _ _ _ _) as [q | |] eqn:Hhp in Hp; rewrite Hp; [| eauto | eauto].
  apply hp_protect_sample in Hhp as Hsmp; [| lia].
  assert (zlen (be_bytes (Z.to_nat (pn_len c)) (cn_next_pkt_num c)) = pn_len c) as Hbn by (rewrite zlen_be_bytes; lia).
  rewrite zlen_app in Hsmp. rewrite Hpkt in Hhp. replace (zlen _ - pn_len c) with (1 + zlen (cid_bytes (cn_dcid c))) in Hhp by lia.
  rewrite <- Hbn in Hhp at 2. apply hp_protect_form in Hhp as (b' & tl & -> & Hfb & _); [| lia | lia | rewrite !zlen_app; lia].
  exists b', tl. by rewrite Hfb.
Qed.

Lemma packet_received fuel ok c out now k out' c' r now' :
  conn_ok c -> peers c r -> open_state r -> hp_works (cn_crypto c) ->
  match cn_handshake c with Some hs => nxp_handshake_has_data hs = false | None => True end ->
  NXP_MIN_DATAGRAM <= zlen out <= NXP_PACKET_BUF_SIZE -> pn_recovered r (cn_next_pkt_num c) (pn_len c) ->
  nxp_conn_send fuel ok c out now = Done (k, out', c') -> 0 < k ->
  exists b, collect_frames (frame_room c out (pn_len c)) fuel (sending c now) now = Done b /\
    if pn_len c + bd_pos b <? 4
    then exists r', nxp_conn_recv r (ztake k out') now' = Err (NXP_ERR_CRYPTO_FAIL, r')
    else nxp_conn_recv r (ztake k out') now' =
      process_frames (received r k (cn_next_pkt_num c) now') (ztake (bd_pos b) (bd_buf b)) now'.
Proof.
  intros Hok (Hcid & Hkeys & Hav) Hopen Hw Hhs [Hlo Hhi] Hpn Hs Hk. unfold NXP_PACKET_BUF_SIZE in Hhi.
  destruct (sent_sealed fuel ok c out now k out' c' Hok Hav Hhs ltac:(lia) Hs Hk)
    as (b & ct & Hc & _ & Hz & Hct & -> & Hcl & Hil & Hko & Hp).
  exists b. split; [done |].
  pose proof (pkt_num_len_range (cn_next_pkt_num c) (largest_recv_pn (cn_ack c))) as Hn. fold (pn_len c) in Hn.
  assert (conn_id_ok (cn_scid r)) as Hci by (rewrite Hcid; apply co_dcid, Hok). rewrite <- Hcid in *.
  pose proof (sealed_received (cn_crypto c) r (cn_next_pkt_num c) (pn_len c) _ ct Hci Hn Hkeys Hav Hct
    ltac:(unfold NXP_PACKET_BUF_SIZE; lia) _ now' Hopen Hpn Hw Hp) as Hgo.
  by rewrite Hz in Hgo.
Qed.

(** C3: one engine's packet is the other's frames.  When two engines share keys
    and connection ID and the receiver is close enough to reconstruct the packet
    number, then receiving what [nxp_conn_send] produced is processing exactly
    the frames it collected; but a packet whose packet number and frames have
    less than four bytes together is refused, because the sender leaves the
    header of such a packet unprotected. *)
Theorem datagram_delivered fuel ok c out now k out' c' r now' :
  conn_ok c -> peers c r -> open_state r -> hp_works (cn_crypto c) ->
  match cn_handshake c with Some hs => nxp_handshake_has_data hs = false | None => True end ->
  NXP_MIN_DATAGRAM <= zlen out <= NXP_PACKET_BUF_SIZE -> pn_recovered r (cn_next_pkt_num c) (pn_len c) ->
  nxp_conn_send fuel ok c out now = Done (k, out', c') -> 0 < k ->
  exists b, collect_frames (frame_room c out (pn_len c)) fuel (sending c now) now = Done b /\
    if pn_len c + bd_pos b <? 4
    then exists r', nxp_conn_recv r (ztake k out') now' = Err (NXP_ERR_CRYPTO_FAIL, r')
    else nxp_conn_recv r (ztake k out') now' =
      process_frames (received r k (cn_next_pkt_num c) now') (ztake (bd_pos b) (bd_buf b)) now'.
Proof. apply packet_received. Qed.

End Delivery.

(** ** The first data of a stream *)

(** The send side holds [data], none of it sent; or all of it sent. *)
Definition holds_first (s : nxp_stream_s) (data : list Z) (fin sent : bool) : Prop := exists d,
  send s = SendBuf d NXP_STREAM_BUF_SIZE (zlen data) (if sent then zlen data else 0) 0 fin (fin && sent) false /\
  zlen d = NXP_STREAM_BUF_SIZE /\ ztake (zlen data) d = data /\ 0 < zlen data <= NXP_STREAM_BUF_SIZE.

Definition first_frame (id : Z) (data : list Z) (fin : bool) : nxp_frame_stream :=
  FrameStream id 0 (zlen data) false true fin (Some data).

Lemma write_first s id type max max' data fin : s = stream_with_cap NXP_STREAM_BUF_SIZE id type max max' ->
  0 < zlen data <= NXP_STREAM_BUF_SIZE -> zlen data <= max ->
  exists s', nxp_stream_write s data (zlen data) fin = Done (zlen data, s') /\ holds_first s' data fin false /\
    s_id s' = id /\ rate_limit s' = StreamRate.nxp_stream_rate_init.
Proof.
  intros Hs Hd Hmax. pose proof buf_size_packet as Hsz.
  assert (zlen data <= write_room s) as Hroom.
  { subst s. unfold write_room. cbn [stream_with_cap send flow sb_cap write_offset acked_offset peer_max_data nxp_flow_init].
    change (u64 (0 - 0)) with 0. rewrite !Z.gtb_ltb, !Z.sub_0_r. zcase; lia. }
  unfold nxp_stream_write. revert Hroom. generalize (write_room s). intros room Hroom. subst s.
  unfold stream_with_cap. cbn [s_state sb_fin send sb_cap write_offset]. cbv zeta.
  assert ((if zlen data <? room then zlen data else room) = zlen data) as -> by (zcase; lia).
  rewrite Z.gtb_ltb, (proj2 (Z.ltb_lt 0 (zlen data))) by lia. cbn [sb_data]. set (zs := replicate _ 0).
  assert (zlen zs = NXP_STREAM_BUF_SIZE) as Hzs by (unfold zs; rewrite zlen_replicate; lia). clearbody zs.
  unfold circ_store. rewrite Z.mod_0_l, Z.sub_0_r, Z.gtb_ltb by lia. cbv zeta.
  assert ((if zlen data <? NXP_STREAM_BUF_SIZE then zlen data else NXP_STREAM_BUF_SIZE) = zlen data) as -> by (zcase; lia).
  rewrite memcpy_splice by lia. cbn [obind]. rewrite gtb_le by lia. cbn [obind]. rewrite (ztake_all (zlen data) data) by lia.
  assert (ztake (zlen data) (splice zs 0 data) = data) as Ht by (rewrite splice_0; apply ztake_app).
  eexists. split; [reflexivity |]. rewrite Z.add_0_l, u64_small by lia.
  split; [| by destruct fin]. exists (splice zs 0 data). split; [by destruct fin |].
  split; [rewrite zlen_splice by lia; done | done].
Qed.

Lemma unsent_first s data fin sent : holds_first s data fin sent ->
  nxp_stream_unsent s = (if sent then 0 else zlen data) /\ sched_idle s = sent.
Proof.
  intros (d & Hs & Hl & Ht & Hd). unfold sched_idle, nxp_stream_unsent. rewrite Hs. simpl. rewrite Z.geb_leb.
  destruct sent.
  - rewrite Z.leb_refl. by destruct fin.
  - rewrite (proj2 (Z.leb_gt _ _)), Z.sub_0_r by lia. rewrite (proj2 (Z.eqb_neq _ _)) by lia. done.
Qed.

Lemma fill_first s data fin max : holds_first s data fin false -> zlen data <= max ->
  exists s', nxp_stream_fill_frame s max = Done (Some (first_frame (s_id s) data fin, s')) /\
    holds_first s' data fin true /\ s_id s' = s_id s /\ rate_limit s' = rate_limit s.
Proof.
  intros Hf Hmax. destruct (unsent_first _ _ _ _ Hf) as [Hu Hi]. destruct Hf as (d & Hs & Hl & Ht & Hd).
  pose proof buf_size_packet as Hsz. unfold nxp_stream_fill_frame. fold (sched_idle s). rewrite Hi, Hu, Hs.
  cbn [sent_offset sb_cap sb_data sb_fin fin_sent write_offset]. cbv zeta.
  assert ((if zlen data <? max then zlen data else max) = zlen data) as -> by (zcase; lia).
  rewrite Z.mod_0_l, Z.sub_0_r by lia. rewrite Z.gtb_ltb, (proj2 (Z.ltb_lt 0 (zlen data))) by lia.
  rewrite (proj2 (Z.leb_le _ _)) by lia. rewrite sub_buf_Done by lia. rewrite zdrop_0, Ht. cbn [obind].
  rewrite Z.add_0_l, u64_small, Z.eqb_refl by lia. cbn [andb negb]. rewrite !andb_true_r, andb_false_r.
  destruct fin; cbn [andb negb]; (eexists; split; [reflexivity |]; split; [| done]; exists d; split; [| done]).
  all: simpl; by rewrite u64_small by lia.
Qed.

Lemma fill_sent s data fin max : holds_first s data fin true -> nxp_stream_fill_frame s max = Done None.
Proof.
  intros Hf. destruct (unsent_first _ _ _ _ Hf) as [_ Hi]. unfold nxp_stream_fill_frame.
  unfold sched_idle in Hi. by rewrite Hi.
Qed.

Lemma stream_loop_S space fuel now cca b : stream_loop space (S fuel) now cca b =
  if negb (loop_open space cca b) then Done b else
  let! (continue, b) := stream_step space now b in
  if continue then stream_loop space fuel now cca b else Done b.
Proof. done. Qed.

(** After the data was taken, the loop ends without adding to the packet. *)
Lemma loop_after_first space fuel now cca b id s data fin : queued (bd_conn b) [id] ->
  cn_streams (bd_conn b) !! id = Some s -> holds_first s data fin true -> StreamRate.enabled (rate_limit s) = false ->
  exists b', stream_loop space (S (S fuel)) now cca b = Done b' /\ bd_pos b' = bd_pos b /\ bd_buf b' = bd_buf b.
Proof.
  intros [Hq Hin] Hs Hf Hr. destruct (unsent_first _ _ _ _ Hf) as [Hu Hi].
  rewrite stream_loop_S. destruct (loop_open space cca b) eqn:Ho; [| eauto]. cbn [negb]. unfold stream_step.
  destruct (sched_next_ok _ _ _ Hq Hin) as (sc & -> & Hsc & _). cbn [or_fail obind hd_error].
  set (b1 := b <| bd_conn := bd_conn b <| cn_sched := sc |> |>).
  assert (cn_streams (bd_conn b1) !! id = Some s) as -> by done. simpl in Hsc. rewrite Hs in Hsc. simpl in Hsc. rewrite Hi in Hsc.
  unfold serve_stream. rewrite Hu, Hr, (fill_sent s data fin _ Hf). cbn [andb Z.gtb Z.compare or_fail obind].
  set (b2 := put_back id s b1).
  assert (bd_pos b2 = bd_pos b /\ bd_buf b2 = bd_buf b /\ loop_open space cca b2 = true) as (Hp & Hbf & Ho2) by done.
  assert (queued (bd_conn b2) []) as [Hq2 Hin2] by (split; [exact Hsc | done]). clearbody b2.
  rewrite stream_loop_S, Ho2. cbn [negb]. unfold stream_step. destruct (sched_next_ok _ _ _ Hq2 Hin2) as (sc2 & -> & _).
  cbn [or_fail obind hd_error]. eexists. split; [reflexivity |]. done.
Qed.

(** A stream frame at the start of the packet. *)
Lemma emit_first space id f s b : bd_pos b = 0 -> zlen (bd_buf b) = NXP_PACKET_BUF_SIZE ->
  frame_ok (FStream f) -> sf_has_length f = true -> sf_stream_id f = id ->
  zlen (frame_bytes (FStream f)) <= space <= NXP_PACKET_BUF_SIZE -> sched_idle s = true ->
  StreamRate.enabled (rate_limit s) = false ->
  exists b', emit_frame space id f s b = Done (true, b') /\ bd_pos b' = zlen (frame_bytes (FStream f)) /\
    ztake (bd_pos b') (bd_buf b') = frame_bytes (FStream f) /\
    cn_sched (bd_conn b') = cn_sched (bd_conn b) /\
    cn_streams (bd_conn b') = <[id := s <| flow := nxp_flow_on_send (flow s) (sf_length f) |>]> (cn_streams (bd_conn b)).
Proof.
  intros Hp Hbuf Hf Hl Hid Hsp Hi Hr. unfold NXP_PACKET_BUF_SIZE in *.
  assert (1 <= zlen (frame_bytes (FStream f))) as Hpos.
  { simpl. rewrite zlen_cons. pose proof (zlen_nonneg (frame_body (FStream f))). simpl in *. lia. }
  unfold emit_frame, append. rewrite Hp, Z.sub_0_r, sub_buf_Done by lia. cbn [obind]. rewrite zdrop_0.
  assert (zlen (ztake space (bd_buf b)) = space) as Hz by (apply zlen_ztake; lia).
  pose proof (encode_frame_spec (FStream f) Hf Hl (ztake space (bd_buf b)) ltac:(lia)) as He.
  rewrite Hz, (proj2 (Z.leb_le _ _)) in He by lia. cbn [encode_frame] in He. rewrite He. cbn [obind].
  rewrite Z.gtb_ltb, (proj2 (Z.ltb_lt _ _)) by lia. rewrite (proj2 (Z.eqb_neq _ _)) by lia. cbv zeta. cbn [obind].
  set (s1 := s <| flow := _ |>). assert (StreamRate.enabled (rate_limit s1) = false) as -> by done. cbv iota.
  assert ((nxp_stream_unsent s1 >? 0) || (sb_fin (send s1) && negb (fin_sent (send s1))) = false) as ->.
  { change (nxp_stream_unsent s1) with (nxp_stream_unsent s). change (send s1) with (send s).
    unfold sched_idle in Hi. apply andb_true_iff in Hi as [Hu Hfin]. apply Z.eqb_eq in Hu. rewrite Hu.
    by apply negb_true_iff in Hfin as ->. }
  cbn [obind]. eexists. split; [reflexivity |]. split; [simpl; by rewrite Hp |].
  split; [| done]. cbn [bd_pos bd_buf assign_with]. simpl.
  rewrite ?Hp, ?Z.add_0_l, !splice_0, <- app_assoc. apply ztake_app.
Qed.

Lemma first_frame_fits id data fin : 0 <= id <= NXP_MAX_STREAM_ID -> bytes_ok data -> 0 < zlen data <= NXP_PACKET_BUF_SIZE ->
  let f := FStream (first_frame id data fin) in
  frame_ok f /\ bytes_ok (frame_bytes f) /\ zlen data + 3 <= zlen (frame_bytes f) <= zlen data + 20.
Proof.
  intros Hid Hb Hd f. unfold NXP_PACKET_BUF_SIZE, NXP_MAX_STREAM_ID in *. split; [| split].
  - unfold f, frame_ok, stream_ok, ptr_ok, NXP_MAX_STREAM_ID, NXP_MAX_STREAM_FRAME_DATA. simpl. split_and!; (done || lia).
  - unfold f, frame_bytes, frame_body, first_frame. cbn [sf_stream_id sf_has_offset sf_has_length sf_length sf_data ptr_bytes].
    constructor; [by destruct fin |]. rewrite !bytes_ok_app. split_and!; [apply varint_bytes_ok | constructor | apply varint_bytes_ok | done].
  - assert (varint_ok id /\ varint_ok (zlen data)) as [H1 H2] by (unfold varint_ok, NXP_VARINT_MAX; lia).
    pose proof (varint_len_cases id H1). pose proof (varint_len_cases (zlen data) H2).
    unfold f, frame_bytes, frame_body, first_frame. simpl. rewrite zlen_cons, !zlen_app, !zlen_varint_bytes by done. lia.
Qed.

(** The packet consists of the stream's data. *)
Lemma collect_first space fuel now c id s data fin : conn_ok c -> has_control_frames c = false -> cc_allows c = true ->
  queued c [id] -> cn_streams c !! id = Some s -> s_id s = id -> holds_first s data fin false ->
  StreamRate.enabled (rate_limit s) = false -> 0 <= id <= NXP_MAX_STREAM_ID -> bytes_ok data ->
  zlen data <= fc_remain (cn_conn_flow c) -> zlen data + 20 <= space <= NXP_PACKET_BUF_SIZE ->
  exists b, collect_frames space (S (S (S fuel))) c now = Done b /\
    bd_pos b = zlen (frame_bytes (FStream (first_frame id data fin))) /\
    ztake (bd_pos b) (bd_buf b) = frame_bytes (FStream (first_frame id data fin)).
Proof.
  intros Hok Hct Hcc [Hq Hin] Hs Hsid Hf Hr Hid Hb Hfc Hsp. destruct (unsent_first _ _ _ _ Hf) as [Hu Hi].
  pose proof Hf as (_ & _ & _ & _ & Hd). pose proof (co_flow c Hok) as (Hf1 & Hf2 & _).
  destruct (first_frame_fits id data fin Hid Hb ltac:(lia)) as (Hfok & _ & Hflen).
  unfold collect_frames. rewrite no_control_frames by done. cbn [obind bd_conn].
  set (b := Builder c _ 0 false []). rewrite stream_loop_S.
  assert (loop_open space (cc_allows c) b = true) as ->.
  { unfold loop_open. rewrite Hcc. simpl. rewrite (proj2 (Z.ltb_lt _ _)) by lia. done. }
  cbn [negb]. unfold stream_step. cbn [bd_conn b].
  destruct (sched_next_ok _ _ _ Hq Hin) as (sc & -> & Hsc & _). cbn [or_fail obind hd_error].
  set (b1 := b <| bd_conn := c <| cn_sched := sc |> |>).
  assert (cn_streams (bd_conn b1) !! id = Some s) as -> by done. simpl in Hsc. rewrite Hs in Hsc. simpl in Hsc. rewrite Hi in Hsc.
  unfold serve_stream. change (cn_conn_flow (bd_conn b1)) with (cn_conn_flow c). change (bd_pos b1) with 0. cbv zeta.
  assert (nxp_flow_can_send (cn_conn_flow c) 1 = true) as ->.
  { unfold fc_remain in Hfc. rewrite Z.gtb_ltb in Hfc. unfold nxp_flow_can_send.
    destruct (Z.ltb_spec (data_sent (cn_conn_flow c)) (peer_max_data (cn_conn_flow c))); rewrite ?u64_small by lia; lia. }
  rewrite Hr, andb_false_r. cbn [andb].
  set (max := if _ >? fc_remain _ then _ else _).
  assert (zlen data <= max) as Hmax by (unfold max; rewrite !Z.gtb_ltb, Z.sub_0_r; zcase; lia). clearbody max.
  destruct (fill_first s data fin max Hf Hmax) as (s2 & -> & Hf2' & _ & Hr2). rewrite Hsid. cbn [or_fail obind].
  destruct (emit_first space id (first_frame id data fin) s2 b1) as (b2 & -> & Hp2 & Ht2 & Hsc2 & Hst2); try done;
    [lia | by apply (unsent_first s2 data fin true) | congruence |]. cbn [obind].
  destruct (loop_after_first space fuel now (cc_allows c) b2 id (s2 <| flow := nxp_flow_on_send (flow s2) (zlen data) |>) data fin)
    as (b3 & -> & Hp3 & Hb3).
  - split; [rewrite Hsc2; exact Hsc |]. intros a [<- | []]. rewrite Hst2, lookup_insert_is_Some. by left.
  - rewrite Hst2. by rewrite lookup_insert_eq.
  - exact Hf2'.
  - simpl. congruence.
  - exists b3. rewrite Hp3, Hb3. done.
Qed.

(** ** Receiving it *)

Section Receive.
Context `{Allocator} `{OpenSSLLaws}.

Lemma process_one r f now : frame_ok (FStream f) -> sf_has_length f = true ->
  zlen (frame_bytes (FStream f)) < 2 ^ 63 ->
  process_frames r (frame_bytes (FStream f)) now = on_stream_frame r f.
Proof.
  intros Hf Hl Hlen. unfold process_frames. set (bs := frame_bytes (FStream f)) in *.
  assert (exists k, length bs = S k) as [k ->] by (unfold bs; simpl; eauto).
  assert (0 < zlen bs) as Hpos.
  { unfold bs. simpl. rewrite zlen_cons. pose proof (zlen_nonneg (frame_body (FStream f))). simpl in *. lia. }
  cbn [frames_loop]. rewrite (proj2 (Z.ltb_lt _ _)), zdrop_0 by lia. cbn [negb].
  pose proof (decode_frame_bytes (FStream f) [] Hf Hl) as Hd. rewrite app_nil_r in Hd. fold bs in Hd.
  rewrite Hd by done. cbn [on_frame]. destruct (on_stream_frame r f) as [r' | |]; [| done | done]. cbn [obind].
  destruct k; cbn [frames_loop]; by rewrite Z.add_0_l, (proj2 (Z.ltb_ge _ _)) by lia.
Qed.

Lemma on_recv_first cap id id' type max data fin : 0 < zlen data <= cap -> cap < 2 ^ 32 -> zlen data <= max ->
  exists s', nxp_stream_on_recv (stream_with_cap cap id type max max) (first_frame id' data fin) = Done s' /\
    recv_ok (recv s') data /\ read_offset (recv s') = 0 /\ recv_offset (recv s') = zlen data /\
    fin_received (recv s') = fin /\ fin_offset (recv s') <= zlen data.
Proof.
  intros Hd Hcap Hmax. set (s := stream_with_cap cap id type max max). set (f := first_frame id' data fin).
  assert (recv_ok (recv s) data) as Hr.
  { apply (recv_ok_app _ []); [exact (proj2 (stream_with_cap_ok cap id type max max ltac:(lia))) | cbn [app]; lia]. }
  assert (carries data f) as Hc by (split_and!; [done | done | unfold frame_off; simpl; lia | done]).
  destruct (on_recv_spec s data f Hr Hc I) as (s' & Hs' & Hok & Hrd & Hrv & _);
    [unfold frame_off; simpl; lia.. |].
  exists s'. split; [done |]. split; [done |]. split; [done |]. split; [rewrite Hrv; unfold frame_off; simpl; lia |].
  revert Hs'. unfold nxp_stream_on_recv. cbn [s_state s stream_with_cap sf_has_offset f first_frame sf_length sf_data sf_fin].
  rewrite Z.add_0_l, u64_small by lia. change (local_max_data (flow s)) with max.
  rewrite gtb_le by lia. rewrite Z.gtb_ltb, (proj2 (Z.ltb_lt _ _)) by lia.
  destruct (recv_data_spec (recv s) data f data Hr Hc eq_refl) as (r1 & Hrd1 & _ & _ & _ & Hf1 & Hf2 & _);
    [unfold frame_off; simpl; lia.. |].
  unfold frame_off in Hrd1. cbn [f first_frame sf_length sf_has_offset] in Hrd1. rewrite Z.add_0_l in Hrd1. fold s. rewrite Hrd1. cbn [obind].
  intros He. injection He as He. rewrite <- He. clear He. destruct fin.
  - match goal with |- context [recv_fin ?x ?e] => destruct (recv_fin_frame x e) as [-> _] end.
    simpl. split; [done | lia].
  - simpl. rewrite Hf1, Hf2. simpl. split; [done | lia].
Qed.

(** The frame creates the stream at the receiver, which can read the data. *)
Lemma first_received r id data fin n : cn_streams r !! id = None -> stream_id_is_local id (cn_is_server r) = false ->
  alloc_stream id = true -> put_stream id = true -> 0 < zlen data <= NXP_PACKET_BUF_SIZE ->
  zlen data <= cn_initial_max_stream_data r -> zlen data <= n ->
  exists r' r'', on_stream_frame r (first_frame id data fin) = Done r' /\
    nxp_conn_stream_recv r' id n = Done (Some data, fin, r'').
Proof.
  intros Hnone Hloc Ha Hp Hd Hmax Hn. pose proof buf_size_packet as Hsz. unfold on_stream_frame.
  cbn [first_frame sf_stream_id]. rewrite Hnone, Hloc, Ha. unfold nxp_stream_create. cbn [negb].
  fold (first_frame id data fin).
  destruct (on_recv_first NXP_STREAM_BUF_SIZE id id NXP_STREAM_RELIABLE (cn_initial_max_stream_data r) data fin)
    as (s & Hs & Hok & Hrd & Hrv & Hfin & Hfo); [lia.. |].
  set (fresh := stream_with_cap _ _ _ _ _) in *. clearbody fresh.
  set (r1 := if cn_on_new_stream _ then _ else _). clearbody r1. unfold deliver. rewrite Hs, Hp. cbn [sf_stream_id first_frame].
  destruct (stream_read_spec s data n Hok ltac:(lia)) as (fin' & s' & Hread & _ & Hrd' & _ & _ & _ & Hiff).
  rewrite Hrd, Hrv, Z.sub_0_r, Z.min_r in * by lia. rewrite zdrop_0, ztake_all in Hread by lia.
  assert (fin' = fin) as -> by (destruct fin, fin'; [done | destruct Hiff; intuition lia | destruct Hiff; intuition congruence | done]).
  eexists _, _. split; [reflexivity |]. unfold nxp_conn_stream_recv.
  change (cn_streams (r1 <| cn_streams := ?x |>)) with x. rewrite lookup_insert_eq, Hread. done.
Qed.

(** Both ends of a stream that [c] has opened and not used yet, with nothing
    else to send and nothing that holds the packet back. *)
Record stream_ready (c r : nxp_conn) (id : Z) (data : list Z) (now : Z) : Prop := StreamReady {
  sr_sender : conn_ok c /\ cn_state c = NXP_CONN_ESTABLISHED /\
    match cn_handshake c with Some hs => nxp_handshake_has_data hs = false | None => True end;
  sr_idle : has_control_frames c = false /\ queued c [];
  sr_open : cc_allows c = true /\
    Pacer.nxp_pacer_can_send (Pacer.nxp_pacer_update (cn_pacer c) now) NXP_BBR_MAX_DATAGRAM_SIZE = true;
  sr_stream : exists type max max', cn_streams c !! id = Some (stream_with_cap NXP_STREAM_BUF_SIZE id type max max') /\
    zlen data <= max;
  sr_data : 0 <= id <= NXP_MAX_STREAM_ID /\ bytes_ok data /\ 0 < zlen data <= 1100 /\
    zlen data <= fc_remain (cn_conn_flow c);
  sr_keys : hp_works (cn_crypto c) /\ aead_works (cn_crypto c);
  sr_peers : peers c r /\ open_state r /\ pn_recovered r (cn_next_pkt_num c) (pn_len c);
  sr_receiver : cn_streams r !! id = None /\ stream_id_is_local id (cn_is_server r) = false /\
    alloc_stream id = true /\ put_stream id = true /\ zlen data <= cn_initial_max_stream_data r
}.

(** Writing schedules the stream, and leaves the rest of the connection. *)
Lemma send_first c id type max max' data fin : conn_ok c -> cn_state c = NXP_CONN_ESTABLISHED -> queued c [] ->
  cn_streams c !! id = Some (stream_with_cap NXP_STREAM_BUF_SIZE id type max max') ->
  0 < zlen data <= NXP_PACKET_BUF_SIZE -> zlen data <= max ->
  exists s q, nxp_conn_stream_send c id data fin =
      Done (zlen data, c <| cn_streams := <[id := s]> (cn_streams c) |> <| cn_sched := q |>) /\
    holds_first s data fin false /\ s_id s = id /\ StreamRate.enabled (rate_limit s) = false /\
    sched_ok q [id] /\ conn_ok (c <| cn_streams := <[id := s]> (cn_streams c) |> <| cn_sched := q |>).
Proof.
  intros Hok Hst [Hq _] Hs Hd Hmax. pose proof buf_size_packet as Hsz.
  destruct (write_first _ id type max max' data fin eq_refl ltac:(lia) Hmax) as (s & Hw & Hf & Hid & Hr).
  destruct (sched_add_ok _ _ id Hq) as (q & Hadd & Hq' & _).
  { apply (proj1 (proj2 (co_table c Hok))). eauto. }
  pose proof (conn_stream_send_keeps c id data fin Hok) as Hk.
  unfold nxp_conn_stream_send in *. rewrite Hst, bool_decide_true, Hs in * by done. cbn [negb] in *. cbv iota in *.
  rewrite Hw in *. cbv zeta in *. rewrite Z.gtb_ltb, (proj2 (Z.ltb_lt _ _)) in * by lia.
  unfold sched_add in *. change (cn_sched (c <| cn_streams := ?x |>)) with (cn_sched c) in *.
  rewrite Hadd in *. cbn [obind] in *. exists s, q. split; [reflexivity |]. split; [done |]. split; [done |].
  split; [by rewrite Hr |]. split; [| apply Hk]. by rewrite decide_False in Hq' by apply not_elem_of_nil.
Qed.

(** A packet goes out once its frames are collected. *)
Lemma finish_goes_out ok c space b out n now : builder_ok c space b -> cs_available (cn_crypto c) = true ->
  aead_works (cn_crypto c) -> bytes_ok (ztake (bd_pos b) (bd_buf b)) -> 1 <= n <= 4 -> zlen out < 2 ^ 62 ->
  0 < bd_pos b -> space <= NXP_PACKET_BUF_SIZE ->
  1 + cid_len (cn_dcid c) + n + space + NXP_AEAD_TAG_LEN <= zlen out ->
  exists k out' c', finish_packet ok b out n now = Done (k, out', c') /\ 0 < k.
Proof.
  intros Hb Hav Hae Hbytes Hn Hout Hpos Hsp Hfit.
  pose proof (finish_packet_eq ok c space b out n now Hb Hav Hn Hout Hpos Hsp Hfit) as Heq. cbv zeta in Heq.
  destruct (nxp_aead_encrypt _ _ _ _ _) as [ct |] eqn:Hct in Heq.
  - destruct Heq as (o & c1 & -> & Hcl & _). do 3 eexists. split; [reflexivity |].
    unfold NXP_AEAD_TAG_LEN in Hcl. pose proof (zlen_nonneg (app_image (cn_dcid c) (cn_next_pkt_num c) n)). lia.
  - destruct (Hae (nxp_crypto_make_nonce (ck_iv (cs_send (cn_crypto c))) (cn_next_pkt_num c))
      (app_image (cn_dcid c) (cn_next_pkt_num c) n) _ Hbytes) as [x Hx]. congruence.
Qed.

(** The packet of a stream that was just written to. *)
Lemma first_packet fuel ok c id s data fin out now : conn_ok c -> cn_state c = NXP_CONN_ESTABLISHED ->
  match cn_handshake c with Some hs => nxp_handshake_has_data hs = false | None => True end ->
  has_control_frames c = false -> cc_allows c = true ->
  Pacer.nxp_pacer_can_send (Pacer.nxp_pacer_update (cn_pacer c) now) NXP_BBR_MAX_DATAGRAM_SIZE = true ->
  queued c [id] -> cn_streams c !! id = Some s -> s_id s = id -> holds_first s data fin false ->
  StreamRate.enabled (rate_limit s) = false -> 0 <= id <= NXP_MAX_STREAM_ID -> bytes_ok data ->
  0 < zlen data <= 1100 -> zlen data <= fc_remain (cn_conn_flow c) ->
  cs_available (cn_crypto c) = true -> aead_works (cn_crypto c) ->
  NXP_MIN_DATAGRAM <= zlen out < 2 ^ 62 ->
  exists b k out' c', nxp_conn_send (S (S (S fuel))) ok c out now = Done (k, out', c') /\ 0 < k /\
    collect_frames (frame_room c out (pn_len c)) (S (S (S fuel))) (sending c now) now = Done b /\
    ztake (bd_pos b) (bd_buf b) = frame_bytes (FStream (first_frame id data fin)) /\ 4 <= bd_pos b.
Proof.
  intros Hok Hst Hhs Hct Hcc Hpa Hq Hs Hsid Hf Hr Hid Hb Hd Hfc Hav Hae Hout.
  pose proof (pkt_num_len_range (cn_next_pkt_num c) (largest_recv_pn (cn_ack c))) as Hn. fold (pn_len c) in Hn.
  assert (conn_ok (sending c now)) as Hok1 by (apply (next_pacer c), next_activity, conn_next_refl, Hok).
  pose proof (frame_room_bounds c out (pn_len c) Hok Hn Hout) as [Hroom Hroom']. rewrite Hav in Hroom'.
  assert (zlen data + 20 <= frame_room c out (pn_len c)) as Hspace.
  { destruct (co_dcid c Hok) as (l & Hl & Hlm & _).
    unfold frame_room, NXP_MIN_DATAGRAM, NXP_PACKET_BUF_SIZE, NXP_AEAD_TAG_LEN, NXP_MAX_CID_LEN in *.
    rewrite Hl. simpl cid_len. rewrite Z.gtb_ltb. destruct (cs_available _); zcase; lia. }
  destruct (collect_first (frame_room c out (pn_len c)) fuel now (sending c now) id s data fin) as (b & Hc & Hpos & Htake);
    try done; [lia |].
  destruct (first_frame_fits id data fin Hid Hb ltac:(unfold NXP_PACKET_BUF_SIZE; lia)) as (_ & Hbytes & Hflen).
  pose proof (collect_frames_ok (S (S (S fuel))) (sending c now) _ now Hok1 Hroom) as Hbo. rewrite Hc in Hbo.
  destruct (finish_goes_out ok (sending c now) _ b out (pn_len c) now Hbo Hav Hae) as (k & out' & c' & Hfin & Hk);
    [by rewrite Htake | done | lia | lia | lia | simpl; lia |].
  exists b, k, out', c'. split; [| split_and!; (done || lia)]. unfold nxp_conn_send.
  assert (match cn_handshake c with Some hs => nxp_handshake_has_data hs | None => false end = false) as ->
    by (by destruct (cn_handshake c)).
  rewrite Hst, bool_decide_true by done. cbn [negb orb]. cbv zeta. fold (sending c now).
  change (cn_pacer (sending c now)) with (Pacer.nxp_pacer_update (cn_pacer c) now). rewrite Hpa. cbn [negb andb].
  unfold send_data_packet. cbv zeta. change (nxp_pkt_num_len _ _) with (pn_len c).
  change (cn_crypto (sending c now)) with (cn_crypto c). change (cn_dcid (sending c now)) with (cn_dcid c).
  change (if _ >? NXP_PACKET_BUF_SIZE then _ else _) with (frame_room c out (pn_len c)).
  rewrite Hav, (proj2 (Z.ltb_ge _ _)), Hc by lia. cbn [obind]. by rewrite (proj2 (Z.eqb_neq _ _)) by lia.
Qed.

(** Data written to a fresh stream leaves in the next packet and can be read. *)
Lemma first_data_delivered c r id data fin fuel ok out now now' n : stream_ready c r id data now ->
  NXP_MIN_DATAGRAM <= zlen out <= NXP_PACKET_BUF_SIZE -> zlen data <= n ->
  exists c1 k out' c2 r' r'', nxp_conn_stream_send c id data fin = Done (zlen data, c1) /\
    nxp_conn_send (S (S (S fuel))) ok c1 out now = Done (k, out', c2) /\
    nxp_conn_recv r (ztake k out') now' = Done r' /\
    nxp_conn_stream_recv r' id n = Done (Some data, fin, r'').
Proof.
  intros [(Hok & Hst & Hhs) (Hct & Hq) (Hcc & Hpa) (type & max & max' & Hs & Hmax) (Hid & Hb & Hd & Hfc)
    (Hw & Hae) (Hp & Ho & Hpn) (Hnone & Hloc & Ha & Hput & Hrmax)] Hout Hn.
  assert (NXP_PACKET_BUF_SIZE = 1536) as Hsz by done.
  destruct (send_first c id type max max' data fin Hok Hst Hq Hs ltac:(lia) Hmax)
    as (s & q & Hsend & Hf & Hsid & Hr & Hq' & Hok1).
  set (c1 := c <| cn_streams := _ |> <| cn_sched := q |>) in *.
  assert (queued c1 [id]) as Hqd.
  { split; [done |]. intros x [<- | []]. exists s. apply lookup_insert_eq. }
  destruct (first_packet fuel ok c1 id s data fin out now) as (b & k & out' & c2 & Hgo & Hk & Hcol & Htake & Hb4);
    try done; [apply lookup_insert_eq | apply Hp | lia |].
  destruct (packet_received _ ok c1 out now k out' c2 r now' Hok1 Hp Ho Hw Hhs Hout Hpn Hgo Hk) as (b' & Hcol' & Hrecv).
  rewrite Hcol in Hcol'. injection Hcol' as <-.
  pose proof (pkt_num_len_range (cn_next_pkt_num c1) (largest_recv_pn (cn_ack c1))) as Hpl. fold (pn_len c1) in Hpl.
  rewrite (proj2 (Z.ltb_ge _ _)), Htake in Hrecv by lia.
  destruct (first_frame_fits id data fin Hid Hb ltac:(lia)) as (Hfok & _ & Hflen).
  rewrite process_one in Hrecv by (done || lia).
  destruct (first_received (received r k (cn_next_pkt_num c1) now') id data fin n) as (r' & r'' & Hon & Hrd); try done; [lia.. |].
  exists c1, k, out', c2, r', r''. rewrite Hrecv. done.
Qed.

(** C1: the first data of a stream arrives.  What an application writes to a
    stream that it has opened and not used, 1 to 1100 bytes, is accepted
    completely, goes out in the next packet, and is what the application at the
    other end reads from the stream of the same identifier, with the FIN flag if
    it was the end of the data.  [stream_ready] says when: the connection is
    established with nothing else to send and no other stream scheduled, its
    congestion window, pacer and flow-control windows leave room, its ciphers
    work, the peer holds the matching keys and a receive history that recovers
    the packet number, does not have the stream yet and can allocate it. *)
Theorem stream_data_delivered c r id data fin fuel ok out now now' n : stream_ready c r id data now ->
  NXP_MIN_DATAGRAM <= zlen out <= NXP_PACKET_BUF_SIZE -> zlen data <= n ->
  exists c1 k out' c2 r' r'', nxp_conn_stream_send c id data fin = Done (zlen data, c1) /\
    nxp_conn_send (S (S (S fuel))) ok c1 out now = Done (k, out', c2) /\
    nxp_conn_recv r (ztake k out') now' = Done r' /\
    nxp_conn_stream_recv r' id n = Done (Some data, fin, r'').
Proof. apply first_data_delivered. Qed.

(** ** Opening a stream *)

Definition next_stream (c : nxp_conn) : Z := make_stream_id (cn_next_bidi_id c) NXP_STREAM_RELIABLE false (cn_is_server c).

(** The new stream, and what opening it leaves. *)
Lemma open_stream_form c : cn_open_bidi_count c < cn_peer_max_streams_bidi c ->
  alloc_stream (next_stream c) = true -> put_stream (next_stream c) = true ->
  exists c', nxp_conn_open_stream c NXP_STREAM_RELIABLE false = Done (next_stream c, c') /\
  let id := next_stream c in
  let max := cn_initial_max_stream_data c in
  cn_streams c' = <[id := stream_with_cap NXP_STREAM_BUF_SIZE id NXP_STREAM_RELIABLE max max]> (cn_streams c) /\
  cn_sched c' = cn_sched c <| links := <[id := Node None None]> (links (cn_sched c)) |> /\
  cn_open_bidi_count c' = u32 (cn_open_bidi_count c + 1) /\
  cn_peer_max_streams_bidi c' = cn_peer_max_streams_bidi c /\
  cn_state c' = cn_state c /\ cn_handshake c' = cn_handshake c /\
  has_control_frames c' = has_control_frames c /\ cc_allows c' = cc_allows c /\
  cn_pacer c' = cn_pacer c /\ cn_conn_flow c' = cn_conn_flow c /\
  cn_crypto c' = cn_crypto c /\ cn_dcid c' = cn_dcid c /\
  cn_next_pkt_num c' = cn_next_pkt_num c /\ cn_ack c' = cn_ack c.
Proof.
  intros Hlim Ha Hp. unfold nxp_conn_open_stream. rewrite Z.geb_leb, (proj2 (Z.leb_gt _ _)) by done. cbn [negb]. cbv zeta.
  fold (next_stream c). rewrite Ha. unfold nxp_stream_create, store_stream. cbn [negb]. rewrite Hp. eexists. split; [reflexivity |]. split_and!; reflexivity.
Qed.

End Receive.
