(* ===== verification/StreamLimits.v ===== *)
(** * Flow control on the wire

    The STREAM frames in the packets that a connection sends, and the limits that
    the peer gave it: every packet is followed from the frames in its payload to
    the counters of flow control, over whole histories. *)

From stdpp Require Import gmap.
From S2P Require Import Prelude Types Varint Codec Frame Packet Pacing DeliveryRate Bbr Ack.
From S2P Require Import Flow Stream LinkedList Scheduler Heartbeat Migration Crypto Tokens.
From S2P Require Import Handshake Connection ConnectionSend ConnectionInv ConnectionSafety Session.
#[local] Opaque NXP_STREAM_BUF_SIZE.

(** ** What a STREAM frame writes

    The values of a frame need not be encodable; but when the encoder succeeds, it
    has written the wire image. *)

Definition emits (w : writer) (bs : list Z) : Prop := forall buf pos buf' pos',
  zlen buf < 2 ^ 63 -> 0 <= pos <= zlen buf -> w buf pos = WOk buf' pos' ->
  pos + zlen bs <= zlen buf /\ buf' = splice buf pos bs /\ pos' = pos + zlen bs.

Lemma emits_writes w bs : writes w bs -> emits w bs.
Proof.
  intros Hw buf pos buf' pos' Hb Hp Hr. specialize (Hw buf pos Hb Hp).
  destruct (Z.leb_spec (pos + zlen bs) (zlen buf)); [| destruct Hw as (? & Hw & _); congruence].
  rewrite Hw in Hr. by injection Hr as <- <-.
Qed.

Lemma emits_seq w k a b : emits w a -> emits k b -> emits (w ;; k)%W (a ++ b).
Proof.
  intros Hw Hk buf pos buf' pos' Hb Hp. unfold wseq. destruct (w buf pos) as [buf1 pos1 | |] eqn:E; [| done..].
  destruct (Hw buf pos buf1 pos1 Hb Hp E) as (Hl & -> & ->). pose proof (zlen_nonneg a). pose proof (zlen_nonneg b).
  intros Hr. apply Hk in Hr as (Hl' & -> & ->); [| rewrite zlen_splice; lia..]. rewrite zlen_splice in Hl' by lia.
  rewrite zlen_app, splice_splice by lia. split; [lia |]. split; [done | lia].
Qed.

Lemma emits_varint v : 0 <= v -> emits (put_varint v) (varint_bytes v).
Proof.
  intros Hv. destruct (Z.leb_spec v NXP_VARINT_MAX) as [Hle | Hgt]; [by apply emits_writes, writes_varint |].
  intros buf pos buf' pos' Hb Hp. unfold put_varint, encode_varint, nxp_varint_encode, NXP_VARINT_MAX in *.
  destruct (_ >=? _); [done |]. rewrite !(proj2 (Z.leb_gt v _)) by lia. done.
Qed.

(** The frames that [nxp_stream_fill_frame] makes. *)
Definition filled_frame (f : nxp_frame_stream) : Prop :=
  0 <= sf_stream_id f /\ 0 <= sf_offset f /\ 0 <= sf_length f < 2 ^ 62 /\ sf_has_length f = true /\
  match sf_data f with Some l => zlen l = sf_length f /\ 0 < zlen l | None => sf_length f = 0 end.

Lemma emits_fields f : filled_frame f -> emits (stream_fields f) (frame_body (FStream f)).
Proof.
  intros (Hid & Hoff & Hl & Hhl & Hd). unfold stream_fields, frame_body. rewrite Hhl. cbv zeta.
  apply emits_seq; [by apply emits_varint |].
  apply emits_seq; [destruct (sf_has_offset f); [by apply emits_varint | apply emits_writes, writes_done] |].
  apply emits_seq; [apply emits_varint; lia |]. rewrite Z.gtb_ltb.
  destruct (sf_data f) as [l |]; simpl.
  - rewrite (proj2 (Z.ltb_lt _ _)) by lia. apply emits_writes. destruct Hd as [Hd _]. rewrite <- Hd. apply writes_room_mem; lia.
  - rewrite Hd, Z.ltb_irrefl. apply emits_writes, writes_done.
Qed.

Lemma encode_stream_emits f buf n buf' : filled_frame f -> zlen buf < 2 ^ 63 -> nxp_frame_encode_stream f buf = Done (n, buf') ->
  n = 0 \/ (n = zlen (frame_bytes (FStream f)) /\ n <= zlen buf /\ buf' = splice buf 0 (frame_bytes (FStream f))).
Proof.
  intros Hf Hb. rewrite encode_stream_at_0. unfold run_writer.
  set (w := (_ ;; stream_fields f)%W). destruct (w buf 0) as [b p | b |] eqn:E; intros [= <- <-]; [right | by left].
  pose proof (zlen_nonneg buf).
  assert (emits w ([stream_type_byte f] ++ frame_body (FStream f))) as Hw
    by (apply emits_seq; [apply emits_writes, writes_type_byte | by apply emits_fields]).
  apply Hw in E as (Hl & -> & ->); [| done | lia]. change (frame_bytes (FStream f)) with ([stream_type_byte f] ++ frame_body (FStream f)).
  split; [lia |]. split; [lia | done].
Qed.

(** The frame is within what the application wrote, which is within the limit of the
    stream. *)
Lemma fill_filled id s max f s' : stream_mem id s -> 0 <= max < 2 ^ 62 -> nxp_stream_fill_frame s max = Done (Some (f, s')) ->
  filled_frame f /\ sf_stream_id f = id /\ sf_offset f + sf_length f <= peer_max_data (flow s) /\ flow s' = flow s.
Proof.
  intros [Hid [Hcap Hdata] Hrecv [Hso Hwo] Hrt] Hmax. unfold nxp_stream_fill_frame.
  destruct (_ && negb _); [done |]. rewrite Hcap.
  pose proof buf_size_pos as Hpos. pose proof (Z.mod_pos_bound (sent_offset (send s)) _ Hpos) as Hmod.
  assert (0 <= nxp_stream_unsent s <= write_offset (send s) - sent_offset (send s)) as Hun.
  { unfold nxp_stream_unsent. rewrite Z.geb_leb. zcase; lia. }
  set (dl := if nxp_stream_unsent s <? max then nxp_stream_unsent s else max).
  assert (0 <= dl <= max /\ dl <= nxp_stream_unsent s) as [Hdl Hdl'] by (unfold dl; zcase; lia).
  set (first := NXP_STREAM_BUF_SIZE - sent_offset (send s) mod NXP_STREAM_BUF_SIZE).
  rewrite Z.gtb_ltb. destruct (Z.ltb_spec 0 dl) as [Hgt | Hle].
  - set (dl2 := if dl <=? first then dl else first).
    assert (0 < dl2 <= dl /\ dl2 <= first) as [Hdl2 Hfirst] by (unfold dl2; destruct (Z.leb_spec dl first); lia).
    clearbody dl2. rewrite sub_buf_Done by lia. cbn [obind]. intros [= <- <-]. unfold filled_frame. simpl.
    rewrite zlen_ztake by (rewrite zlen_zdrop; lia). destruct Hid. split_and!; (done || lia).
  - cbn [obind]. intros [= <- <-]. unfold filled_frame. simpl. destruct Hid. split_and!; (done || lia).
Qed.

(** ** The frames of a packet *)

Definition payload (b : builder) : list Z := ztake (bd_pos b) (bd_buf b).

Definition images (fs : list nxp_frame_stream) : list Z := concat ((fun f => frame_bytes (FStream f)) <$> fs).

Definition total_data (fs : list nxp_frame_stream) : Z := foldr (fun f n => sf_length f + n) 0 fs.

Lemma total_data_app fs gs : total_data (fs ++ gs) = total_data fs + total_data gs.
Proof. induction fs as [| f fs IH]; simpl; [done | rewrite IH; lia]. Qed.

Lemma splice_front pos buf bs : 0 <= pos <= zlen buf -> ztake pos (splice buf pos bs) = ztake pos buf.
Proof.
  intros Hp. unfold splice. assert (zlen (ztake pos buf) = pos) as Hl by (apply zlen_ztake; lia).
  rewrite <- Hl at 1. apply ztake_app.
Qed.

Section Builder.
  Context (c0 : nxp_conn) (space : Z) (Hspace : space <= NXP_PACKET_BUF_SIZE).

(** What the steps below need of a builder. *)
Definition roomy (b : builder) : Prop := zlen (bd_buf b) = NXP_PACKET_BUF_SIZE /\ 0 <= bd_pos b <= space /\
  flow_ctrl_ok (cn_conn_flow (bd_conn b)) /\ forall id s, cn_streams (bd_conn b) !! id = Some s -> stream_mem id s.

Lemma builder_roomy b : builder_ok c0 space b -> roomy b.
Proof.
  intros [Hn _ Hbuf Hpos _]. split; [done |]. split; [done |]. split; [apply co_flow, Hn |]. intros id s. by apply next_lookup with c0.
Qed.

(** The limit of the stream when the packet was begun. *)
Definition within_stream (f : nxp_frame_stream) : Prop := exists s,
  cn_streams c0 !! sf_stream_id f = Some s /\ sf_offset f + sf_length f <= peer_max_data (flow s).

Definition limits_kept (b : builder) : Prop := forall id s, cn_streams (bd_conn b) !! id = Some s ->
  exists s0, cn_streams c0 !! id = Some s0 /\ peer_max_data (flow s) = peer_max_data (flow s0).

(** From [b] to [b'] the frames [fs] were added. *)
Record added (b b' : builder) (fs : list nxp_frame_stream) : Prop := Added {
  ad_payload : payload b' = payload b ++ images fs;
  ad_sent : data_sent (cn_conn_flow (bd_conn b')) = data_sent (cn_conn_flow (bd_conn b)) + total_data fs;
  ad_streams : Forall within_stream fs;
  ad_limits : limits_kept b'
}.

Lemma added_none b b' : limits_kept b' -> payload b' = payload b -> cn_conn_flow (bd_conn b') = cn_conn_flow (bd_conn b) -> added b b' [].
Proof. intros Hk Hp Hf. split; [by rewrite app_nil_r | rewrite Hf; simpl; lia | constructor | done]. Qed.

Lemma added_trans b b1 b2 fs gs : added b b1 fs -> added b1 b2 gs -> added b b2 (fs ++ gs).
Proof.
  intros [P1 S1 F1 _] [P2 S2 F2 L2]. split; [| | by apply Forall_app | done].
  - rewrite P2, P1. unfold images. by rewrite fmap_app, concat_app, app_assoc.
  - rewrite S2, S1, total_data_app. lia.
Qed.

(** A stream is put back with the limit it had. *)
Lemma limits_put b b1 id s s1 : limits_kept b -> cn_streams (bd_conn b) !! id = Some s ->
  peer_max_data (flow s1) = peer_max_data (flow s) -> cn_streams (bd_conn b1) = <[id := s1]> (cn_streams (bd_conn b)) -> limits_kept b1.
Proof.
  intros Hk Hs Hf Hb a x. rewrite Hb, lookup_insert. case_decide as Ha; [| apply Hk]. subst a. intros [= <-]. rewrite Hf. by apply Hk.
Qed.

(** What appending a STREAM frame does to the payload. *)
Lemma append_payload f b n b' : roomy b -> filled_frame f -> append space (nxp_frame_encode_stream f) b = Done (n, b') ->
  bd_conn b' = bd_conn b /\ payload b' = payload b ++ if n =? 0 then [] else images [f].
Proof.
  intros (Hbuf & Hpos & _) Hf. unfold append, NXP_PACKET_BUF_SIZE in *. rewrite sub_buf_Done by lia. cbn [obind].
  set (room := ztake _ _). assert (zlen room = space - bd_pos b) as Hroom by (apply zlen_ztake; rewrite zlen_zdrop; lia).
  destruct (nxp_frame_encode_stream f room) as [[m room'] | |] eqn:He; cbn [obind]; [| done..]. intros [= <- <-].
  assert (zlen room' = zlen room) as Hl.
  { destruct (encode_frame_safe (FStream f) room) as (m' & r & Hr & _ & Hl); [| lia |].
    - destruct Hf as (? & ? & ? & ? & Hd). simpl. unfold ptr_mem. destruct (sf_data f); split_and!; (done || lia).
    - cbn [encode_frame] in Hr. rewrite He in Hr. by injection Hr as _ ->. }
  destruct (encode_stream_emits f room m room' Hf ltac:(lia) He) as [-> | (Hm & Hfit & ->)].
  - cbn [Z.gtb Z.compare Z.eqb]. split; [done |]. rewrite app_nil_r. unfold payload. cbn. apply splice_front. lia.
  - set (img := frame_bytes (FStream f)) in *. assert (0 < m) as Hm0 by (unfold img in Hm; cbn in Hm; rewrite zlen_cons in Hm; pose proof (zlen_nonneg (frame_body (FStream f))); cbn in *; lia).
    rewrite Z.gtb_ltb, (proj2 (Z.ltb_lt _ _)), (proj2 (Z.eqb_neq _ _)) by lia. split; [done |]. unfold payload, images. cbn.
    fold img. rewrite app_nil_r, Hm. rewrite splice_0 in Hl |- *.
    unfold splice. rewrite <- app_assoc, app_assoc.
    replace (bd_pos b + zlen img) with (zlen (ztake (bd_pos b) (bd_buf b) ++ img)) by (rewrite zlen_app, zlen_ztake; lia).
    apply ztake_app.
Qed.

Lemma on_loss_flow s off len fin : flow (nxp_stream_on_loss s off len fin) = flow s.
Proof. unfold nxp_stream_on_loss. by repeat case_match. Qed.

Lemma stream_sent_limit s len : peer_max_data (flow (stream_sent s len)) = peer_max_data (flow s).
Proof. unfold stream_sent. cbv zeta. by destruct (StreamRate.enabled _). Qed.

Lemma sched_add_frame c id c' : sched_add c id = Done c' -> cn_streams c' = cn_streams c /\ cn_conn_flow c' = cn_conn_flow c.
Proof. unfold sched_add. destruct (nxp_sched_add _ _); [intros [= <-]; done | done..]. Qed.

Lemma emit_added id f s s0 b go b' : roomy b -> limits_kept b -> cn_streams (bd_conn b) !! id = Some s0 ->
  flow s = flow s0 -> filled_frame f -> sf_stream_id f = id -> sf_offset f + sf_length f <= peer_max_data (flow s0) ->
  sf_length f <= fc_remain (cn_conn_flow (bd_conn b)) -> emit_frame space id f s b = Done (go, b') -> exists fs, added b b' fs.
Proof.
  intros Hb Hk Hs0 Hfl Hf Hid Hlim Hrem. unfold emit_frame.
  destruct (append space (nxp_frame_encode_stream f) b) as [[n b1] | |] eqn:Ha; cbn [obind]; [| done..].
  destruct (append_payload f b n b1 Hb Hf Ha) as [Hc1 Hp1]. destruct (n =? 0).
  { intros [= _ <-]. exists []. rewrite app_nil_r in Hp1. apply added_none; [| done | cbn; by rewrite Hc1].
    apply (limits_put b _ id s0 (nxp_stream_on_loss s (sf_offset f) (u32 (sf_length f)) (sf_fin f))); try done; cbn; [by rewrite on_loss_flow, Hfl | by rewrite Hc1]. }
  change (if StreamRate.enabled _ then _ else _) with (stream_sent s (sf_length f)). cbv zeta.
  set (s1 := stream_sent s (sf_length f)). pose proof (stream_sent_limit s (sf_length f)) as Hl1. fold s1 in Hl1. clearbody s1.
  set (c2 := bd_conn (put_back id s1 b1) <| cn_conn_flow := _ |>). set (r := if _ || _ then _ else _).
  intros Hr. assert (exists c3, r = Done c3 /\ cn_streams c3 = cn_streams c2 /\ cn_conn_flow c3 = cn_conn_flow c2) as (c3 & Hr3 & Hs3 & Hf3).
  { unfold r in *. destruct (_ || _); [| by exists c2]. destruct (sched_add c2 id) as [c3 | |] eqn:Hsa; [| done..].
    exists c3. split; [done |]. by apply (sched_add_frame c2 id). }
  rewrite Hr3 in Hr. cbn [obind] in Hr. injection Hr as _ <-. exists [f].
  destruct (Hk id s0 Hs0) as (sc & Hsc & Hpm). destruct Hf as (_ & _ & Hlen & _). split.
  - exact Hp1.
  - cbn [bd_conn total_data foldr]. change (cn_conn_flow (bd_conn _)) with (cn_conn_flow c3) at 1. rewrite Hf3.
    change (cn_conn_flow c2) with (nxp_flow_on_send (cn_conn_flow (bd_conn b1)) (sf_length f)).
    rewrite Hc1, flow_send_sent; [lia | apply Hb | lia].
  - constructor; [| constructor]. exists sc. rewrite Hid. split; [done | lia].
  - apply (limits_put b _ id s0 s1); try done; [congruence |]. cbn. rewrite Hs3. unfold c2. cbn. by rewrite Hc1.
Qed.

Lemma serve_added now id s b go b' : roomy b -> limits_kept b -> cn_streams (bd_conn b) !! id = Some s ->
  serve_stream space now id s b = Done (go, b') -> exists fs, added b b' fs.
Proof.
  intros Hb Hk Hs. pose proof Hb as (Hbuf & Hpos & (Hf0 & Hf1 & _) & Hmem). unfold serve_stream. cbv zeta.
  destruct (_ && negb _); [intros [= _ <-]; exists []; by apply added_none |].
  set (max0 := if _ >? 20 then _ else 0).
  assert (0 <= max0 <= 1536) as Hmax0 by (unfold max0, NXP_PACKET_BUF_SIZE in *; rewrite Z.gtb_ltb; zcase; lia).
  clearbody max0. set (max1 := if _ >? fc_remain _ then _ else _).
  assert (0 <= max1 <= fc_remain (cn_conn_flow (bd_conn b)) /\ max1 < 2 ^ 62) as [Hmax1 Hm62].
  { unfold max1, fc_remain. rewrite !Z.gtb_ltb. zcase; lia. }
  clearbody max1. set (s1 := if StreamRate.enabled (rate_limit s) then _ else s).
  destruct (stream_rate_updated id s now (Hmem id s Hs)) as (Hs1 & He1 & _). fold s1 in Hs1, He1.
  assert (flow s1 = flow s) as Hfl by (unfold s1; by destruct (StreamRate.enabled _)).
  pose proof (sm_rate _ _ _ Hs1) as Htok. clearbody s1.
  assert (forall s2, flow s2 = flow s -> exists fs, added b (put_back id s2 b) fs) as Hput.
  { intros s2 H2. exists []. apply added_none; [| done | done]. apply (limits_put b _ id s s2); try done. by rewrite H2. }
  destruct (StreamRate.enabled (rate_limit s) && _) eqn:Hbud; [intros [= _ <-]; by apply Hput |].
  set (max2 := if StreamRate.enabled (rate_limit s) && _ then _ else max1).
  assert (0 <= max2 <= max1) as Hmax2.
  { unfold max2, StreamRate.nxp_stream_rate_budget. rewrite He1.
    destruct (StreamRate.enabled (rate_limit s)); simpl; [| lia]. rewrite Z.gtb_ltb.
    destruct (Z.ltb_spec (StreamRate.tokens (rate_limit s1) / 1000) max1); zlia. }
  clearbody max2. destruct (stream_fill_mem id s1 max2 Hs1 ltac:(lia)) as [-> | (f & s2 & Hfill & _ & _ & _ & Hlen & _)];
    cbn [or_fail obind]; [intros [= _ <-]; by apply Hput |]. rewrite Hfill. cbn [or_fail obind].
  destruct (fill_filled id s1 max2 f s2 Hs1 ltac:(lia) Hfill) as (Hff & Hid & Hlim & Hfl2).
  apply (emit_added id f s2 s); try done; [congruence | by rewrite <- Hfl | lia].
Qed.

Lemma step_added now b go b' : roomy b -> limits_kept b -> stream_step space now b = Done (go, b') -> exists fs, added b b' fs.
Proof.
  intros Hb Hk. unfold stream_step. destruct (nxp_sched_next _ _) as [[next q] | |]; cbn [or_fail obind]; [| done..].
  destruct next as [id |]; [| intros [= _ <-]; exists []; by apply added_none].
  destruct (cn_streams (bd_conn _) !! id) as [s |] eqn:Hs; [| done]. set (b1 := b <| bd_conn := _ |>) in *.
  intros Hr. destruct (serve_added now id s b1 go b') as (fs & [P S F L]); [done.. |]. exists fs. by split.
Qed.

Lemma loop_added now cca fuel : forall b q b', builder_ok c0 space b -> queued (bd_conn b) q -> limits_kept b ->
  stream_loop space fuel now cca b = Done b' -> exists fs, added b b' fs.
Proof.
  induction fuel as [| fuel IH]; intros b q b' Hb Hq Hk; simpl.
  { destruct (loop_open _ _ _); [done |]. intros [= <-]. exists []. by apply added_none. }
  destruct (loop_open space cca b) eqn:Ho; cbn [negb]; [| intros [= <-]; exists []; by apply added_none].
  assert (zlen (bd_frames b) < NXP_MAX_STREAM_FRAMES_PER_PKT) as Hr.
  { unfold loop_open in Ho. apply andb_true_iff in Ho as [_ Ho]. lia. }
  destruct (stream_step_ok c0 space Hspace now b q Hb Hq Hr) as (go & b1 & Hst & Hb1 & Hgo).
  rewrite Hst. cbn [obind]. destruct (step_added now b go b1 (builder_roomy b Hb) Hk Hst) as (fs & Hfs).
  destruct go; [| intros [= <-]; by exists fs]. destruct (Hgo eq_refl) as (q' & Hq' & _). intros Hl.
  destruct (IH b1 q' b' Hb1 Hq' (ad_limits _ _ _ Hfs) Hl) as (gs & Hgs). exists (fs ++ gs). by eapply added_trans.
Qed.

End Builder.

(** ** Packets *)

Section Wire.
Context `{Allocator} `{OpenSSLLaws}.

Definition empty_builder (c : nxp_conn) : builder := Builder c (zeros NXP_PACKET_BUF_SIZE) 0 false [].

Lemma collect_added fuel c room now b : conn_ok c -> 0 <= room <= NXP_PACKET_BUF_SIZE -> collect_frames room fuel c now = Done b ->
  exists b0 fs, control_frames room now (empty_builder c) = Done b0 /\ builder_ok c room b0 /\ added c b0 b fs.
Proof.
  intros Hok Hr. unfold collect_frames. fold (empty_builder c).
  destruct (control_frames_ok c room ltac:(lia) now (empty_builder c) (builder_start c room Hok ltac:(lia)) ltac:(done)) as (b0 & -> & Hb0 & _ & Hol).
  cbn [obind]. intros Hl. injection Hol as _ _ _ Hst Hsc.
  destruct (co_table c Hok) as (_ & _ & q & Hq & Hin).
  destruct (loop_added c room ltac:(lia) now (cc_allows (bd_conn b0)) fuel b0 q b Hb0) as (fs & Hfs); [| | exact Hl |].
  - split; [by rewrite Hsc | intros id Hid; rewrite Hst; by apply Hin].
  - intros id s Hs. rewrite Hst in Hs. by exists s.
  - by exists b0, fs.
Qed.

(** [p] is the packet of [c] with the payload [pt], sealed when there are keys. *)
Definition packet_of (c : nxp_conn) (n : Z) (pt p : list Z) : Prop :=
  let img := app_image (cn_dcid c) (cn_next_pkt_num c) n in
  if cs_available (cn_crypto c)
  then sealed_as (cn_crypto c) (nxp_crypto_make_nonce (ck_iv (cs_send (cn_crypto c))) (cn_next_pkt_num c)) n img pt p
  else p = img ++ pt.

Lemma finish_plain ok c space b out n now k out' c' : builder_ok c space b -> cs_available (cn_crypto c) = false ->
  1 <= n <= 4 -> zlen out < 2 ^ 62 -> 0 < bd_pos b -> space <= NXP_PACKET_BUF_SIZE -> 1 + cid_len (cn_dcid c) + n + space <= zlen out ->
  finish_packet ok b out n now = Done (k, out', c') -> ztake k out' = app_image (cn_dcid c) (cn_next_pkt_num c) n ++ payload b.
Proof.
  intros [Hnx [= Hd Hp Hcr] Hbuf Hpos [Hfr _]] Hav Hn Hout Hpos' Hsp Hfit.
  pose proof (co_pkt_num _ (proj1 Hnx)) as Hpn. rewrite Hp in Hpn. unfold NXP_PACKET_BUF_SIZE in *.
  assert (conn_id_ok (cn_dcid c)) as Hcid by (rewrite <- Hd; apply co_dcid, Hnx).
  destruct (app_image_shape (cn_dcid c) (cn_next_pkt_num c) n Hcid Hn) as (fb & mid & Hi & Hmid & _ & _ & Hcl & _).
  set (img := app_image (cn_dcid c) (cn_next_pkt_num c) n) in *.
  assert (zlen img = 1 + cid_len (cn_dcid c) + n) as Hil by (rewrite Hi, zlen_cons, zlen_app, zlen_be_bytes; lia).
  unfold finish_packet. rewrite Hd, Hp, Hcr. cbv zeta.
  pose proof (short_encode_spec (app_header (cn_dcid c) (cn_next_pkt_num c) n) out
    (conj Hcid (conj Hn (proj1 Hpn))) ltac:(lia)) as He. cbv zeta in He.
  change (short_header_image _ _) with img in He. change (cid_len (sh_dcid _)) with (cid_len (cn_dcid c)) in He.
  rewrite (proj2 (Z.leb_le _ _)) in He by lia. unfold app_header in He. rewrite He. cbn [obind].
  rewrite (proj2 (Z.eqb_neq _ _)), Hav by lia. fold (payload b).
  assert (zlen (payload b) = bd_pos b) as Hfl by (apply zlen_ztake; lia).
  rewrite memcpy_splice by (rewrite ?zlen_splice; lia). cbn [obind]. rewrite <- Hfl, ztake_all by lia.
  destruct (record_sent _ _ _ _ _ _) as [c1 | |]; cbn [obind]; [| done..]. intros [= <- <- _].
  replace (splice (splice out 0 img) (zlen img) (payload b)) with (splice out 0 (img ++ payload b)) by (symmetry; apply (splice_splice out 0); lia).
  rewrite splice_0, <- zlen_app. apply ztake_app.
Qed.

Lemma finish_packet_of ok c space b out n now k out' c' : builder_ok c space b ->
  1 <= n <= 4 -> zlen out < 2 ^ 62 -> 0 < bd_pos b -> space <= NXP_PACKET_BUF_SIZE ->
  1 + cid_len (cn_dcid c) + n + space + (if cs_available (cn_crypto c) then NXP_AEAD_TAG_LEN else 0) <= zlen out ->
  finish_packet ok b out n now = Done (k, out', c') -> 0 < k -> packet_of c n (payload b) (ztake k out').
Proof.
  intros Hb Hn Hout Hpos Hsp Hfit Hs Hk. unfold packet_of. cbv zeta. destruct (cs_available (cn_crypto c)) eqn:Hav.
  - pose proof (finish_packet_eq ok c space b out n now Hb Hav Hn Hout Hpos Hsp Hfit) as Heq. cbv zeta in Heq.
    destruct (nxp_aead_encrypt _ _ _ _ _) as [ct |] eqn:Hct in Heq.
    2: { destruct Heq as (? & ? & He). rewrite Hs in He. injection He as -> _ _. lia. }
    destruct Heq as (o & c1 & He & _ & _ & Hp). rewrite Hs in He. injection He as -> -> _. by exists ct.
  - eapply finish_plain; try done; lia.
Qed.

(** ** Histories *)

(** A packet with frames of the application: the connection that sent it, the size of
    the caller's buffer, the time, and its bytes. *)
Record data_packet := DataPacket {
  dp_conn : nxp_conn;
  dp_out : list Z;
  dp_now : Z;
  dp_bytes : list Z
}.

(** The packets that an event sends, but for those of the handshake, which carry
    CRYPTO and HANDSHAKE_DONE frames only. *)
Definition sent_data (c : nxp_conn) (ev : conn_event) : list data_packet :=
  match ev with
  | EvSend fuel ok out now =>
      if match cn_handshake c with Some hs => nxp_handshake_has_data hs | None => false end then [] else
      match nxp_conn_send fuel ok c out now with
      | Done (k, out', _) => if 0 <? k then [DataPacket c out now (ztake k out')] else []
      | _ => []
      end
  | _ => []
  end.

Inductive conn_log : nxp_conn -> list data_packet -> nxp_conn -> Prop :=
| log_nil c : conn_log c [] c
| log_step c ev c1 log c2 : event_ok c ev -> conn_run c ev = Done c1 -> conn_log c1 log c2 -> conn_log c (sent_data c ev ++ log) c2.

(** The payload of the packet is what [control_frames] wrote, followed by the STREAM
    frames [fs], each within the limit of its stream. *)
Definition carries (pk : data_packet) (fs : list nxp_frame_stream) : Prop :=
  let c := dp_conn pk in
  exists b0, control_frames (frame_room c (dp_out pk) (pn_len c)) (dp_now pk) (empty_builder (sending c (dp_now pk))) = Done b0 /\
    packet_of c (pn_len c) (payload b0 ++ images fs) (dp_bytes pk) /\ Forall (within_stream c) fs.

(** A packet: its STREAM frames are counted against the limit of the connection. *)
Lemma packet_counted fuel ok c out now k out' c' : conn_ok c -> event_ok c (EvSend fuel ok out now) ->
  match cn_handshake c with Some hs => nxp_handshake_has_data hs = false | None => True end ->
  nxp_conn_send fuel ok c out now = Done (k, out', c') -> 0 < k ->
  exists fs, carries (DataPacket c out now (ztake k out')) fs /\
    data_sent (cn_conn_flow c) + total_data fs <= data_sent (cn_conn_flow c').
Proof.
  intros Hok [Hout Hlast] Hhs Hs Hk.
  destruct (send_packet_bytes fuel ok c out now k out' c' Hok Hhs Hout Hs Hk) as (b & Hc & Hpos & Hfin).
  pose proof (pkt_num_len_range (cn_next_pkt_num c) (largest_recv_pn (cn_ack c))) as Hn. fold (pn_len c) in Hn.
  assert (conn_ok (sending c now)) as Hok1 by (apply (next_pacer c), next_activity, conn_next_refl, Hok).
  pose proof (frame_room_bounds c out (pn_len c) Hok Hn Hout) as [Hr Hr'].
  pose proof (collect_frames_ok fuel (sending c now) _ now Hok1 Hr) as Hb. rewrite Hc in Hb.
  destruct (collect_added fuel (sending c now) _ now b Hok1 Hr Hc) as (b0 & fs & Hb0 & Hok0 & [Hp Hd Hw _]).
  exists fs. split.
  - exists b0. split; [exact Hb0 |]. split; [| exact Hw]. cbn [dp_conn dp_bytes]. rewrite <- Hp.
    exact (finish_packet_of ok (sending c now) _ b out (pn_len c) now k out' c' Hb Hn ltac:(lia) Hpos ltac:(lia) Hr' Hfin Hk).
  - assert (builder_ok (bd_conn b) (frame_room c out (pn_len c)) b) as Hbb.
    { destruct Hb as [Hnx _ ? ? ?]. split; try done. apply conn_next_refl, Hnx. }
    pose proof (bo_header _ _ _ Hb) as [= Hdc Hpn Hcr].
    destruct (finish_packet_ok ok (bd_conn b) _ b out (pn_len c) now Hbb) as (n1 & o1 & c1 & He & Hn1 & _);
      rewrite ?Hdc, ?Hpn, ?Hcr; try (done || lia).
    rewrite Hfin in He. injection He as _ _ <-.
    pose proof (cl_sent _ _ (proj2 Hn1)). pose proof (cl_sent _ _ (proj2 (bo_conn _ _ _ Hok0))) as Hs0. cbn in Hs0. lia.
Qed.

Lemma log_counted c log c' : conn_log c log c' -> conn_ok c ->
  conn_ok c' /\ exists fss, Forall2 carries log fss /\
    data_sent (cn_conn_flow c) + total_data (concat fss) <= data_sent (cn_conn_flow c').
Proof.
  induction 1 as [c | c ev c1 log c2 He Hr _ IH]; intros Hok; [split; [done |]; exists []; split; [constructor | cbn; lia] |].
  destruct (conn_run_ok c ev Hok He) as [(c1' & Hr' & Hn) | (? & ? & ? & ? & -> & Hr')]; rewrite Hr in Hr'; [| done].
  injection Hr' as <-. destruct (IH (proj1 Hn)) as (Hok2 & fss & Hf & Hd). split; [done |].
  pose proof (cl_sent _ _ (proj2 Hn)) as Hmono.
  assert (sent_data c ev = [] \/ exists pk fs, sent_data c ev = [pk] /\ carries pk fs /\
    data_sent (cn_conn_flow c) + total_data fs <= data_sent (cn_conn_flow c1)) as [-> | (pk & fs & -> & Hpk & Hfs)].
  { destruct ev as [| fuel ok out now | | | | | | | | | | | |]; try by left. unfold sent_data.
    destruct (match cn_handshake c with Some hs => nxp_handshake_has_data hs | None => false end) eqn:Hh; [by left |].
    cbn [conn_run] in Hr. destruct (nxp_conn_send fuel ok c out now) as [[[k out'] c'] | |] eqn:Hs; [| by left..].
    destruct (Z.ltb_spec 0 k) as [Hk |]; [right | by left]. cbn [obind] in Hr. injection Hr as <-.
    destruct (packet_counted fuel ok c out now k out' c' Hok He) as (fs & ? & ?); [by destruct (cn_handshake c) | done | done |]. eauto. }
  - exists fss. split; [done | lia].
  - exists (fs :: fss). split; [by constructor |]. cbn [concat]. rewrite total_data_app. lia.
Qed.


End Wire.
