(* ===== verification/FramedStream.v ===== *)
(** * Datagrams over a byte stream

    The TCP and the WebSocket transport turn datagrams into a stream of bytes and
    back.  [StreamFraming] is what either promises about one call; the theorem
    about a whole connection, however the stream cuts the bytes into pieces, is
    proved once against it. *)

From S2P Require Import Prelude.

(** What the socket's [recv] returns: an error (or the end of the stream, 0), or
    bytes that it has stored. *)
Inductive os_recv : Type :=
| OsNone (n : Z)
| OsBytes (l : list Z).

(** ** The receive buffer

    The bytes [q] that have arrived are in its front. *)

Lemma memcpy_all {E} buf pos l : 0 <= pos -> pos + zlen l <= zlen buf ->
  @memcpy E buf pos l (zlen l) = Done (splice buf pos l).
Proof. intros Hp Hl. pose proof (zlen_nonneg l). rewrite memcpy_splice by lia. by rewrite ztake_all. Qed.

Lemma zdrop_front {A} n (q tail : list A) : 0 <= n <= zlen q -> zdrop n (q ++ tail) = zdrop n q ++ tail.
Proof. intros Hn. unfold zdrop. apply drop_app_le. unfold zlen in *. lia. Qed.

Lemma sub_buf_front {E} q tail pos n : 0 <= pos -> 0 <= n -> pos + n <= zlen q ->
  @sub_buf E (q ++ tail) pos n = Done (ztake n (zdrop pos q)).
Proof.
  intros Hp Hn Hl. pose proof (zlen_nonneg tail). rewrite sub_buf_Done by (rewrite ?zlen_app; lia). rewrite zdrop_front by lia.
  f_equal. unfold ztake. apply take_app_le. unfold zdrop, zlen in *. rewrite length_drop. lia.
Qed.

(** The first [n] bytes are removed and the others moved to the front. *)
Lemma consume_front {E} q tail n : 0 <= n <= zlen q ->
  @sub_buf E (q ++ tail) n (zlen q - n) = Done (zdrop n q) /\
  @memcpy E (q ++ tail) 0 (zdrop n q) (zlen q - n) = Done (zdrop n q ++ zdrop (zlen q - n) (q ++ tail)).
Proof.
  intros Hn. pose proof (zlen_nonneg tail). assert (zlen (zdrop n q) = zlen q - n) as Hz by (apply zlen_zdrop; lia). split.
  - rewrite sub_buf_front by lia. f_equal. apply ztake_all. lia.
  - rewrite <- Hz at 1. rewrite memcpy_all by (rewrite ?zlen_app; lia). by rewrite splice_0, Hz.
Qed.

Lemma ztake_neg {A} n (l : list A) : n <= 0 -> ztake n l = [].
Proof. intros Hn. unfold ztake. by replace (Z.to_nat n) with 0%nat by lia. Qed.

(** ** What a transport promises *)

(** A socket that takes all of what it is given or nothing: its [send] returns the
    length, or 0 or an error.  Neither transport sends the rest of a frame that the
    socket took in part. *)
Definition whole_sends (os_send : list Z -> Z) : Prop := forall f, os_send f = zlen f \/ os_send f <= 0.

(** [T] is the state of an endpoint and [K] what its encoding may choose. *)
Class StreamFraming (T K : Type) := {
  fr_new : T;
  fr_send : K -> (list Z -> Z) -> T -> list Z -> outcome unit (Z * T * list Z);
  fr_recv : T -> Z -> os_recv -> outcome unit (Z * list Z * T);
  fr_ok : T -> Prop;
  fr_pending : T -> list Z;
  fr_size : Z;
  fr_max : Z;
  fr_key : K -> Prop;
  fr_image : K -> list Z -> list Z;
  fr_new_law : fr_ok fr_new /\ fr_pending fr_new = [];
  fr_room_law t : fr_ok t -> zlen (fr_pending t) <= fr_size;
  fr_image_law k m : fr_key k -> bytes_ok m -> 0 < zlen m <= fr_max -> bytes_ok (fr_image k m);
  fr_send_law k os_send t m : fr_ok t -> fr_key k -> bytes_ok m -> 0 < zlen m <= fr_max -> whole_sends os_send ->
    exists n t' wire, fr_send k os_send t m = Done (n, t', wire) /\ fr_ok t' /\
      ((n = zlen m /\ wire = fr_image k m) \/ (n <= 0 /\ wire = []));
  fr_none_law t cap n : fr_ok t -> n <= 0 -> fr_recv t cap (OsNone n) = Done (n, [], t);
  fr_empty_law t cap : fr_ok t -> fr_recv t cap (OsBytes []) = Done (0, [], t);
  fr_partial_law t cap l k m w z : fr_ok t -> fr_key k -> bytes_ok m -> 0 < zlen m <= fr_max ->
    bytes_ok l -> 0 < zlen l -> zlen (fr_pending t ++ l) <= fr_size ->
    (fr_pending t ++ l) ++ w = fr_image k m ++ z -> zlen (fr_pending t ++ l) < zlen (fr_image k m) ->
    exists t', fr_recv t cap (OsBytes l) = Done (0, [], t') /\ fr_ok t' /\ fr_pending t' = fr_pending t ++ l;
  fr_complete_law t cap l k m rest : fr_ok t -> fr_key k -> bytes_ok m -> 0 < zlen m <= fr_max -> zlen m <= cap ->
    bytes_ok l -> 0 < zlen l -> zlen (fr_pending t ++ l) <= fr_size -> fr_pending t ++ l = fr_image k m ++ rest ->
    exists t', fr_recv t cap (OsBytes l) = Done (zlen m, m, t') /\ fr_ok t' /\ fr_pending t' = rest
}.

Section Channel.
Context {T K : Type} {F : StreamFraming T K}.
Variable cap : Z.

(** Both endpoints, the bytes in flight, the datagrams that a send reported as sent,
    with the choices of the encoder, and those returned. *)
Record channel := Channel {
  ch_from : T;
  ch_to : T;
  ch_wire : list Z;
  ch_sent : list (K * list Z);
  ch_got : list (list Z)
}.

(** A datagram is sent, on a socket that takes of it what it will; or the receiver is called and its socket stores at most
    [n] bytes, as many as there are and as fit; or the socket has nothing. *)
Inductive stream_op : Type :=
| StreamWrite (k : K) (os_send : list Z -> Z) (m : list Z)
| StreamRead (n : Z)
| StreamIdle (n : Z).

Definition stream_step (ch : channel) (op : stream_op) : outcome unit channel :=
  match op with
  | StreamWrite k os_send m =>
      let! (n, t, wire) := fr_send k os_send (ch_from ch) m in
      Done (Channel t (ch_to ch) (ch_wire ch ++ wire) (if n >? 0 then ch_sent ch ++ [(k, m)] else ch_sent ch) (ch_got ch))
  | StreamRead n =>
      let l := ztake (Z.min n (fr_size - zlen (fr_pending (ch_to ch)))) (ch_wire ch) in
      let! (n, out, t) := fr_recv (ch_to ch) cap (OsBytes l) in
      Done (Channel (ch_from ch) t (zdrop (zlen l) (ch_wire ch)) (ch_sent ch)
              (if n >? 0 then ch_got ch ++ [out] else ch_got ch))
  | StreamIdle n =>
      let! (n, out, t) := fr_recv (ch_to ch) cap (OsNone n) in
      Done (Channel (ch_from ch) t (ch_wire ch) (ch_sent ch) (if n >? 0 then ch_got ch ++ [out] else ch_got ch))
  end.

Fixpoint stream_run (ch : channel) (ops : list stream_op) : outcome unit channel :=
  match ops with
  | [] => Done ch
  | op :: ops => let! ch := stream_step ch op in stream_run ch ops
  end.

Definition stream_start : channel := Channel fr_new fr_new [] [] [].

Definition message_ok (km : K * list Z) : Prop :=
  fr_key km.1 /\ bytes_ok km.2 /\ 0 < zlen km.2 <= fr_max /\ zlen km.2 <= cap.

Definition stream_op_ok (op : stream_op) : Prop :=
  match op with
  | StreamWrite k os_send m => message_ok (k, m) /\ whole_sends os_send
  | StreamRead n => True
  | StreamIdle n => n <= 0
  end.

Definition images (l : list (K * list Z)) : list Z := concat ((fun km => fr_image km.1 km.2) <$> l).

(** Nothing is lost: what is still in the buffer and in flight is what was sent
    and not returned. *)
Record channel_ok (ch : channel) (rest : list (K * list Z)) : Prop := ChannelOk {
  ck_ends : fr_ok (ch_from ch) /\ fr_ok (ch_to ch) /\ bytes_ok (ch_wire ch);
  ck_sent : (ch_sent ch).*2 = ch_got ch ++ rest.*2;
  ck_sizes : Forall message_ok rest;
  ck_bytes : fr_pending (ch_to ch) ++ ch_wire ch = images rest
}.

Lemma ztake_len {A} n (l : list A) : ztake (zlen (ztake n l)) l = ztake n l.
Proof.
  unfold ztake, zlen. rewrite Nat2Z.id, length_take. destruct (Nat.le_ge_cases (Z.to_nat n) (length l)).
  - by rewrite Nat.min_l.
  - by rewrite Nat.min_r, !take_ge.
Qed.

(** The receiver holding [q = pending ++ l] returns the next datagram exactly when
    it is complete. *)
Lemma recv_next ch rest l w : channel_ok ch rest -> ch_wire ch = l ++ w -> 0 < zlen l ->
  zlen (fr_pending (ch_to ch) ++ l) <= fr_size ->
  exists n out t rest', fr_recv (ch_to ch) cap (OsBytes l) = Done (n, out, t) /\
    channel_ok (Channel (ch_from ch) t w (ch_sent ch) (if n >? 0 then ch_got ch ++ [out] else ch_got ch)) rest' /\
    forall k m rest1, rest = (k, m) :: rest1 -> zlen (fr_image k m) <= zlen (fr_pending (ch_to ch) ++ l) -> n = zlen m /\ out = m.
Proof.
  intros [(Hf & Ht & Hw) Hs Hz Hb] Hsplit Hl Hfit. rewrite Hsplit in Hb, Hw. apply bytes_ok_app in Hw as [Hlb Hwb].
  rewrite app_assoc in Hb. set (q := fr_pending (ch_to ch) ++ l) in *. destruct rest as [| [k m] rest].
  { assert (zlen (q ++ w) = 0) as Hn by by rewrite Hb. unfold q in Hn. rewrite !zlen_app in Hn.
    pose proof (zlen_nonneg (fr_pending (ch_to ch))). pose proof (zlen_nonneg w). lia. }
  pose proof Hz as Hz0. apply Forall_cons_iff in Hz0 as [(Hk & Hmb & Hm & Hcap) Hz']. cbn [fst snd] in *.
  unfold images in Hb. rewrite fmap_cons in Hb. cbn [concat fst snd] in Hb. fold (images rest) in Hb.
  destruct (Z.ltb_spec (zlen q) (zlen (fr_image k m))) as [Hlt | Hge].
  - destruct (fr_partial_law (ch_to ch) cap l k m w (images rest)) as (t & Hr & Hok & Hp); [done.. |].
    eexists _, _, t, ((k, m) :: rest). split; [exact Hr |]. split; [| by intros ? ? ? [= <- <- <-] ?; lia].
    split; cbn; [done | done | done |]. rewrite Hp. exact Hb.
  - assert (exists r, q = fr_image k m ++ r /\ r ++ w = images rest) as (r & Hq & Hr).
    { exists (zdrop (zlen (fr_image k m)) q).
      assert (ztake (zlen (fr_image k m)) q = fr_image k m) as Htk.
      { rewrite <- (ztake_app (fr_image k m) (images rest)) at 2. rewrite <- Hb. unfold ztake, zlen in *. by rewrite take_app_le by lia. }
      assert (q = fr_image k m ++ zdrop (zlen (fr_image k m)) q) as Hq by (rewrite <- Htk at 1; by rewrite ztake_zdrop).
      split; [done |]. apply (app_inv_head (fr_image k m)). rewrite app_assoc, <- Hq. done. }
    destruct (fr_complete_law (ch_to ch) cap l k m r) as (t & Hrv & Hok & Hp); [done.. |].
    eexists _, _, t, rest. split; [exact Hrv |]. split; [| by intros ? ? ? [= <- <- <-] _].
    rewrite Z.gtb_ltb, (proj2 (Z.ltb_lt _ _)) by lia. split; cbn; [done | | done | by rewrite Hp].
    rewrite Hs, <- app_assoc. done.
Qed.

Lemma channel_step ch rest op : channel_ok ch rest -> stream_op_ok op ->
  exists ch' rest', stream_step ch op = Done ch' /\ channel_ok ch' rest'.
Proof.
  intros Hok Hop. pose proof Hok as [(Hf & Ht & Hw) Hs Hz Hb]. destruct op as [k os m | n | n]; cbn [stream_step stream_op_ok] in Hop |- *.
  - destruct Hop as [Hmk Hos]. pose proof Hmk as (Hk & Hmb & Hm & Hcap). cbn [fst snd] in *.
    destruct (fr_send_law k os (ch_from ch) m Hf Hk Hmb Hm Hos) as (n & t & wire & -> & Hok' & [[-> ->] | [Hn ->]]); cbn [obind]; cycle 1.
    { rewrite Z.gtb_ltb, (proj2 (Z.ltb_ge _ _)), app_nil_r by lia. by eexists _, rest. }
    rewrite Z.gtb_ltb, (proj2 (Z.ltb_lt _ _)) by lia. eexists _, (rest ++ [(k, m)]). split; [reflexivity |]. split; cbn.
    + split; [done |]. split; [done |]. apply bytes_ok_app. split; [done | by apply fr_image_law].
    + rewrite !fmap_app, Hs, app_assoc. done.
    + apply Forall_app. split; [done |]. by constructor.
    + rewrite app_assoc, Hb. unfold images. rewrite fmap_app, concat_app. simpl. by rewrite app_nil_r.
  - set (l := ztake _ (ch_wire ch)). pose proof (fr_room_law _ Ht) as Hroom.
    assert (ch_wire ch = l ++ zdrop (zlen l) (ch_wire ch)) as Hsplit.
    { rewrite <- (ztake_zdrop (zlen l) (ch_wire ch)) at 1. f_equal. apply ztake_len. }
    pose proof (zlen_nonneg l). destruct (Z.eqb_spec (zlen l) 0) as [Hl | Hl].
    + assert (l = []) as Hn by (destruct l; [done |]; rewrite zlen_cons in Hl; pose proof (zlen_nonneg l); lia).
      rewrite Hn, fr_empty_law by done. cbn [obind]. eexists _, rest. split; [done |]. by split.
    + destruct (recv_next ch rest l _ Hok Hsplit) as (n' & out & t & rest' & -> & Hok' & _); [lia | |].
      * rewrite zlen_app. assert (zlen l <= Z.max 0 (fr_size - zlen (fr_pending (ch_to ch)))); [| lia].
        unfold l, ztake, zlen. rewrite length_take. unfold zlen. lia.
      * cbn [obind]. eexists _, rest'. done.
  - rewrite fr_none_law by done. cbn [obind]. eexists _, rest. split; [reflexivity |].
    rewrite Z.gtb_ltb, (proj2 (Z.ltb_ge _ _)) by lia. by split.
Qed.

Lemma channel_run ops : forall ch rest, channel_ok ch rest -> Forall stream_op_ok ops ->
  exists ch' rest', stream_run ch ops = Done ch' /\ channel_ok ch' rest'.
Proof.
  induction ops as [| op ops IH]; intros ch rest Hok Hops; [by exists ch, rest |].
  apply Forall_cons_iff in Hops as [Hop Hops]. destruct (channel_step ch rest op Hok Hop) as (ch1 & rest1 & Hs & Hok1).
  cbn [stream_run]. rewrite Hs. by apply (IH ch1 rest1).
Qed.

Lemma channel_start : channel_ok stream_start [].
Proof.
  destruct fr_new_law as [Hok Hp]. split; [split; [done |]; split; [done | constructor] | done | done |].
  cbn. by rewrite Hp.
Qed.

(** What a connection delivers: a prefix of what was sent, and the next datagram as
    soon as all its bytes have arrived. *)
Definition delivers_in_order (ch : channel) : Prop :=
  exists rest, (ch_sent ch).*2 = ch_got ch ++ rest.*2 /\ fr_pending (ch_to ch) ++ ch_wire ch = images rest /\
    forall k m rest' l w, rest = (k, m) :: rest' -> ch_wire ch = l ++ w -> 0 < zlen l ->
      zlen (fr_pending (ch_to ch) ++ l) <= fr_size -> zlen (fr_image k m) <= zlen (fr_pending (ch_to ch) ++ l) ->
      exists t, fr_recv (ch_to ch) cap (OsBytes l) = Done (zlen m, m, t).

Lemma framed_in_order ops : Forall stream_op_ok ops ->
  exists ch, stream_run stream_start ops = Done ch /\ delivers_in_order ch.
Proof.
  intros Hops. destruct (channel_run ops stream_start [] channel_start Hops) as (ch & rest & Hrun & Hok).
  exists ch. split; [done |]. exists rest. split; [apply Hok |]. split; [apply Hok |].
  intros k m rest' l w Hr Hsplit Hl Hfit Hfull.
  destruct (recv_next ch rest l w Hok Hsplit Hl Hfit) as (n & out & t & _ & Hrecv & _ & Hn).
  destruct (Hn k m rest' Hr Hfull) as [-> ->]. by exists t.
Qed.

End Channel.
