(* ===== verification/FreeList.v ===== *)
(** * Free lists of fixed-size objects (src/src/memory/pool.c, slab.c, packet_buffer.c)

    Three allocators hand out objects of one size and keep the free ones in a
    list whose links are stored in the objects themselves.  The memory of the
    objects is a finite map from addresses to nodes: dereferencing any other
    address is undefined behaviour.  What an allocator promises is the class
    [ObjectAllocator], against which the histories of allocations, writes by the
    application and frees are studied once; pool, slab and packet pool are its
    instances. *)

From stdpp Require Import gmap.
From S2P Require Import Prelude.

(** ** Rounding up to an alignment *)

Definition align_up (value align : Z) : Z :=
  u64 (u64 (value + align) - 1) &&& (UINT64_MAX - u64 (align - 1)).

Lemma land_high x k : 0 <= k <= 64 -> 0 <= x < 2 ^ 64 -> x &&& (UINT64_MAX - (2 ^ k - 1)) = x / 2 ^ k * 2 ^ k.
Proof.
  intros Hk Hx. change UINT64_MAX with (Z.ones 64). replace (2 ^ k - 1) with (Z.ones k) by (rewrite Z.ones_equiv; lia).
  rewrite <- (Z.shiftl_mul_pow2 _ k), <- Z.shiftr_div_pow2 by lia. rewrite <- Z.ldiff_ones_r by lia.
  rewrite Z.sub_nocarry_ldiff.
  - rewrite !Z.ldiff_land, Z.land_assoc, Z.land_ones by lia. by rewrite Z.mod_small by lia.
  - apply Z.bits_inj'. intros i Hi. rewrite Z.ldiff_spec, Z.bits_0, !Z.testbit_ones_nonneg by lia.
    destruct (Z.ltb_spec i k), (Z.ltb_spec i 64); (done || lia).
Qed.

(** For a power of two the result is the next multiple. *)
Lemma align_up_spec v k : 0 <= k <= 63 -> 0 <= v -> v + 2 ^ k <= 2 ^ 64 ->
  v <= align_up v (2 ^ k) < v + 2 ^ k /\ align_up v (2 ^ k) mod 2 ^ k = 0.
Proof.
  intros Hk Hv Hmax. assert (0 < 2 ^ k) by (apply Z.pow_pos_nonneg; lia).
  assert (2 ^ k <= 2 ^ 63) by (apply Z.pow_le_mono_r; lia). unfold align_up.
  assert (u64 (u64 (v + 2 ^ k) - 1) = v + 2 ^ k - 1) as ->.
  { unfold u64. change 18446744073709551616 with (2 ^ 64).
    destruct (Z.eq_dec (v + 2 ^ k) (2 ^ 64)) as [-> | Hne]; [done |]. 
    rewrite (Z.mod_small (v + 2 ^ k)), Z.mod_small; lia. }
  rewrite (u64_small (2 ^ k - 1)), land_high by lia. split; [| by apply Z.mod_mul; lia].
  pose proof (Z.div_mod (v + 2 ^ k - 1) (2 ^ k) ltac:(lia)). pose proof (Z.mod_pos_bound (v + 2 ^ k - 1) (2 ^ k) ltac:(lia)). nia.
Qed.

(** ** Links in the objects *)

Definition ptr (p : Z) : Prop := 0 < p < 2 ^ 64.

(** A node of [n] bytes holds the address of the next free node. *)
Class FreeNode (V : Type) := {
  node_ok : Z -> V -> Prop;
  node_next : V -> option Z
}.

(** Storing a link with [link], and reading it back. *)
Definition links {V} `{FreeNode V} (link : option Z -> V -> V) : Prop :=
  forall n p v, node_ok n v -> (forall q, p = Some q -> ptr q) -> node_ok n (link p v) /\ node_next (link p v) = p.

(** Raw memory: the address is in the first eight bytes, 0 is the null pointer. *)
Definition load_ptr (v : list Z) : option Z :=
  let p := le_val (ztake 8 v) in if p =? 0 then None else Some p.
Definition store_ptr (p : option Z) (v : list Z) : list Z := le_bytes 8 (default 0 p) ++ zdrop 8 v.

#[export] Instance raw_node : FreeNode (list Z) := {| node_ok n v := 8 <= n /\ zlen v = n; node_next := load_ptr |}.

Lemma links_store_ptr : links store_ptr.
Proof.
  intros n p v [Hn Hv] Hp. cbn [node_ok node_next raw_node]. unfold store_ptr, load_ptr.
  rewrite zlen_app, zlen_le_bytes, zlen_zdrop by lia.
  split; [lia |].
  pose proof (ztake_app (le_bytes 8 (default 0 p)) (zdrop 8 v)) as Ht. rewrite zlen_le_bytes in Ht.
  change (Z.of_nat 8) with 8 in Ht. rewrite Ht.
  destruct p as [q |]; cbn [default id]; rewrite le_val_le_bytes by (try destruct (Hp q eq_refl); lia); [| done].
  destruct (Hp q eq_refl). by destruct (Z.eqb_spec q 0); [lia |].
Qed.

Section Chain.
Context {V : Type} `{FreeNode V} (link : option Z -> V -> V) (Hlinks : links link).
Implicit Types (mem live : gmap Z V) (l : list Z).

(** [obj->next = head;] *)
Definition fl_link mem (head : option Z) (obj : Z) : outcome unit (gmap Z V) :=
  match mem !! obj with
  | Some v => Done (<[obj := link head v]> mem)
  | None => Ub
  end.

(** The nodes of a new block are linked one after the other. *)
Fixpoint fl_build mem (head : option Z) (ps : list Z) : outcome unit (gmap Z V * option Z) :=
  match ps with
  | [] => Done (mem, head)
  | p :: ps => let! mem := fl_link mem head p in fl_build mem (Some p) ps
  end.

(** The free nodes, in the order of the list. *)
Fixpoint chain mem (head : option Z) l : Prop :=
  match l with
  | [] => head = None
  | p :: l => head = Some p /\ exists v, mem !! p = Some v /\ chain mem (node_next v) l
  end.

Lemma chain_frame mem head l p v : chain mem head l -> p ∉ l -> chain (<[p := v]> mem) head l.
Proof.
  revert head. induction l as [| q l IH]; intros head Hc Hp; [done |]. destruct Hc as (-> & w & Hw & Hc).
  apply not_elem_of_cons in Hp as [Hne Hp]. split; [done |]. exists w. rewrite lookup_insert_ne by done. auto.
Qed.

Lemma chain_weaken mem mem' head l : mem ⊆ mem' -> chain mem head l -> chain mem' head l.
Proof.
  intros Hm. revert head. induction l as [| p l IH]; intros head Hc; [done |]. destruct Hc as (-> & v & Hv & Hc).
  split; [done |]. exists v. split; [by eapply lookup_weaken | auto].
Qed.

(** ** The state of a free list

    The nodes of the memory [mem] are the free ones, which form the list from
    [head], and the live ones, whose contents are [live]. *)

Record fl_inv (n : Z) mem (head : option Z) live l : Prop := FlInv {
  fi_chain : chain mem head l;
  fi_nodup : NoDup l;
  fi_free p : p ∈ l -> is_Some (mem !! p) /\ live !! p = None;
  fi_live : live ⊆ mem;
  fi_cover p v : mem !! p = Some v -> ptr p /\ node_ok n v /\ (p ∈ l \/ is_Some (live !! p))
}.

Lemma fl_head_ptr n mem head live l : fl_inv n mem head live l -> forall q, head = Some q -> ptr q.
Proof.
  intros [Hc _ Hf _ Hcov] q ->. destruct l as [| p l]; [done |]. destruct Hc as ([= ->] & v & Hv & _). by apply (Hcov _ v).
Qed.

(** Live nodes can be written. *)
Lemma fl_write n mem head live l p v : fl_inv n mem head live l -> is_Some (live !! p) -> node_ok n v ->
  fl_inv n (<[p := v]> mem) head (<[p := v]> live) l.
Proof.
  intros [Hc Hnd Hf Hl Hcov] [w Hw] Hv. assert (p ∉ l) as Hp by (intros Hin; destruct (Hf p Hin); congruence).
  split; [by apply chain_frame | done | | by apply insert_mono |].
  - intros q Hq. rewrite !lookup_insert_ne by (by intros ->). auto.
  - intros q u. destruct (decide (q = p)) as [-> | Hne].
    + rewrite !lookup_insert_eq. intros [= ->]. split; [| by eauto]. eapply (Hcov p w), lookup_weaken; eauto.
    + rewrite !lookup_insert_ne by done. auto.
Qed.

(** The first free node becomes live. *)
Lemma fl_pop n mem p live l : fl_inv n mem (Some p) live l -> exists v l', mem !! p = Some v /\ live !! p = None /\ l = p :: l' /\
  forall u, node_ok n u -> fl_inv n (<[p := u]> mem) (node_next v) (<[p := u]> live) l'.
Proof.
  intros [Hc Hnd Hf Hl Hcov]. destruct l as [| p' l]; [done |]. destruct Hc as ([= <-] & v & Hv & Hc).
  apply list.NoDup_cons in Hnd as [Hp Hnd]. exists v, l. destruct (Hf p) as [_ Hpl]; [by left |].
  split_and!; [done | done | done |]. intros u Hu. split; [by apply chain_frame | done | | by apply insert_mono |].
  - intros q Hq. rewrite !lookup_insert_ne by (by intros ->). apply Hf. by right.
  - intros q w. destruct (decide (q = p)) as [-> | Hne].
    + rewrite !lookup_insert_eq. intros [= <-]. split; [by apply (Hcov p v) | eauto].
    + rewrite !lookup_insert_ne by done. intros Hw. destruct (Hcov q w Hw) as (? & ? & Hor). split_and!; [done.. |].
      rewrite elem_of_cons in Hor. tauto.
Qed.

(** A live node becomes the first free one. *)
Lemma fl_push n mem head live l p : fl_inv n mem head live l -> is_Some (live !! p) ->
  exists mem', fl_link mem head p = Done mem' /\ dom mem' = dom mem /\ fl_inv n mem' (Some p) (delete p live) (p :: l).
Proof.
  intros Hinv [w Hw]. pose proof (fl_head_ptr _ _ _ _ _ Hinv) as Hh. destruct Hinv as [Hc Hnd Hf Hl Hcov].
  assert (mem !! p = Some w) as Hm by by eapply lookup_weaken. destruct (Hcov p w Hm) as (Hpp & Hok & _).
  assert (p ∉ l) as Hp by (intros Hin; destruct (Hf p Hin); congruence).
  destruct (Hlinks n head w Hok Hh) as [Hok' Hnext]. unfold fl_link. rewrite Hm. eexists. split; [done |]. split.
  { rewrite dom_insert_L. apply subseteq_union_1_L, singleton_subseteq_l, elem_of_dom. eauto. }
  split.
  - split; [done |]. exists (link head w). rewrite lookup_insert_eq, Hnext. split; [done | by apply chain_frame].
  - by apply list.NoDup_cons.
  - intros q Hq. apply elem_of_cons in Hq as [-> | Hq]; [by rewrite lookup_insert_eq, lookup_delete_eq |].
    rewrite lookup_insert_ne, lookup_delete_ne by (by intros ->). auto.
  - apply map_subseteq_spec. intros q u Hu. destruct (decide (q = p)) as [-> | Hne]; [by rewrite lookup_delete_eq in Hu |].
    rewrite lookup_delete_ne in Hu by done. rewrite lookup_insert_ne by done. by eapply lookup_weaken.
  - intros q u. rewrite elem_of_cons. destruct (decide (q = p)) as [-> | Hne].
    + rewrite lookup_insert_eq. intros [= <-]. auto.
    + rewrite lookup_insert_ne, lookup_delete_ne by done. intros Hu. destruct (Hcov q u Hu) as (? & ? & Hor). tauto.
Qed.

Definition without (live : gmap Z V) (ps : list Z) : gmap Z V := foldl (fun m p => delete p m) live ps.

Lemma lookup_without ps : forall live q, without live ps !! q = if decide (q ∈ ps) then None else live !! q.
Proof.
  induction ps as [| p ps IH]; intros live q; [by rewrite decide_False by apply not_elem_of_nil |].
  unfold without. cbn [foldl]. fold (without (delete p live) ps). rewrite IH. destruct (decide (q = p)) as [-> | Hne].
  - rewrite lookup_delete_eq, (decide_True (P := p ∈ p :: ps)) by by left. by case_decide.
  - rewrite lookup_delete_ne by done. apply decide_ext. rewrite elem_of_cons. tauto.
Qed.

(** Building a list is pushing nodes that nobody else uses. *)
Lemma fl_build_spec n ps : forall mem head live l, fl_inv n mem head live l -> NoDup ps ->
  (forall p, p ∈ ps -> is_Some (live !! p)) ->
  exists mem' head', fl_build mem head ps = Done (mem', head') /\ dom mem' = dom mem /\
    fl_inv n mem' head' (without live ps) (reverse ps ++ l).
Proof.
  induction ps as [| p ps IH]; intros mem head live l Hinv Hnd Hin; [by exists mem, head |].
  apply list.NoDup_cons in Hnd as [Hp Hnd].
  destruct (fl_push n mem head live l p Hinv) as (mem1 & Hl & Hd & Hinv1); [apply Hin; by left |].
  destruct (IH mem1 (Some p) (delete p live) (p :: l)) as (mem2 & head2 & Hb & Hd2 & Hinv2); [done | done | |].
  { intros q Hq. rewrite lookup_delete_ne by (by intros ->). apply Hin. by right. }
  exists mem2, head2. cbn [fl_build]. rewrite Hl. cbn [obind]. rewrite Hd2, reverse_cons, <- app_assoc. done.
Qed.

(** A node outside the memory is written to all the same. *)
Lemma fl_build_ub ps : forall mem head p, p ∈ ps -> mem !! p = None -> fl_build mem head ps = Ub.
Proof.
  induction ps as [| q ps IH]; intros mem head p Hp Hn; [by apply not_elem_of_nil in Hp |]. cbn [fl_build].
  unfold fl_link. destruct (mem !! q) as [v |] eqn:Hq; [| done]. cbn [obind].
  apply elem_of_cons in Hp as [-> | Hp]; [congruence |]. apply (IH _ _ p Hp). rewrite lookup_insert_ne by congruence. done.
Qed.

(** A new block [blk] is threaded into the list. *)
Lemma fl_grow n mem head live l blk ps : fl_inv n mem head live l -> mem ##ₘ blk ->
  map_Forall (fun p v => ptr p /\ node_ok n v) blk -> NoDup ps -> (forall p, p ∈ ps <-> is_Some (blk !! p)) ->
  exists mem' head', fl_build (mem ∪ blk) head ps = Done (mem', head') /\ dom mem' = dom mem ∪ dom blk /\
    fl_inv n mem' head' live (reverse ps ++ l).
Proof.
  intros [Hc Hnd Hf Hl Hcov] Hdis Hblk Hps Hdom.
  assert (live ##ₘ blk) as Hdl by (eapply map_disjoint_weaken_l; eauto).
  assert (forall p, p ∈ ps -> live !! p = None) as Hnl.
  { intros p Hp. apply Hdom in Hp as [v Hv]. by eapply map_disjoint_Some_r. }
  destruct (fl_build_spec n ps (mem ∪ blk) head (live ∪ blk) l) as (mem' & head' & Hb & Hd & Hinv); [| done | |].
  - split; [by eapply chain_weaken; [apply map_union_subseteq_l |] | done | | by apply map_union_mono_r |].
    + intros p Hp. destruct (Hf p Hp) as [[v Hv] Hn]. rewrite (lookup_union_Some_l mem _ _ v Hv). split; [eauto |].
      rewrite lookup_union_None. split; [done |]. by apply (map_disjoint_Some_l mem blk p v).
    + intros p v Hv. apply lookup_union_Some in Hv as [Hv | Hv]; [| | done].
      * destruct (Hcov p v Hv) as (? & ? & [? | [u Hu]]); split_and!; auto.
        right. exists u. by apply lookup_union_Some_l.
      * destruct (Hblk p v Hv). split_and!; auto. right. exists v. by apply lookup_union_Some_r.
  - intros p Hp. apply Hdom in Hp as [v Hv]. exists v. by apply lookup_union_Some_r.
  - exists mem', head'. rewrite Hb, Hd, dom_union_L. split_and!; [done | done |].
    replace live with (without (live ∪ blk) ps); [done |].
    apply map_eq. intros q. rewrite lookup_without. case_decide as Hq; [by rewrite Hnl |].
    rewrite Hdom, <- eq_None_not_Some in Hq. destruct (live !! q) eqn:Hlq; [by apply lookup_union_Some_l |].
    by apply lookup_union_None.
Qed.

Lemma fl_size n mem head live l : fl_inv n mem head live l -> size mem = (length l + size live)%nat.
Proof.
  intros [Hc Hnd Hf Hl Hcov]. rewrite <- !size_dom.
  replace (dom mem) with (list_to_set (C := gset Z) l ∪ dom live).
  - rewrite size_union by (intros p; rewrite elem_of_list_to_set, elem_of_dom; intros Hp [v Hv]; destruct (Hf p Hp); congruence).
    by rewrite size_list_to_set.
  - apply set_eq. intros p. rewrite elem_of_union, elem_of_list_to_set, !elem_of_dom. split.
    + intros [Hp | [v Hv]]; [by apply Hf | exists v; by eapply lookup_weaken].
    + intros [v Hv]. by apply (Hcov p v).
Qed.

End Chain.

(** ** Blocks of objects *)

Section Blocks.
Context {V : Type}.

(** The objects of [n] bytes that lie in a block of [bytes] bytes, each with the
    content [z]. *)
Definition carve (z : V) (base n bytes : Z) : gmap Z V :=
  list_to_map ((fun i => (base + i * n, z)) <$> seqZ 0 (bytes / n)).

Lemma lookup_carve z base n bytes p v : 0 < n -> carve z base n bytes !! p = Some v <->
  v = z /\ exists i, 0 <= i < bytes / n /\ p = base + i * n.
Proof.
  intros Hn. unfold carve. rewrite <- elem_of_list_to_map.
  - rewrite list_elem_of_fmap. split.
    + intros (i & [= -> ->] & Hi). apply elem_of_seqZ in Hi. split; [done |]. exists i. auto with lia.
    + intros (-> & i & Hi & ->). exists i. split; [done |]. apply elem_of_seqZ. lia.
  - rewrite <- list_fmap_compose. apply NoDup_fmap_2_strong; [| apply NoDup_seqZ]. simpl. intros i j _ _ ?. nia.
Qed.

(** Distinct objects do not overlap. *)
Definition spaced (n : Z) (mem : gmap Z V) : Prop :=
  forall p q, is_Some (mem !! p) -> is_Some (mem !! q) -> p <> q -> p + n <= q \/ q + n <= p.

Lemma spaced_carve z base n bytes : 0 < n -> spaced n (carve z base n bytes).
Proof.
  intros Hn p q [v Hv] [w Hw] Hne. apply lookup_carve in Hv as (-> & i & Hi & ->); [| done].
  apply lookup_carve in Hw as (-> & j & Hj & ->); [| done]. assert (i < j \/ j < i) as [] by nia; nia.
Qed.

Lemma spaced_dom n mem mem' : dom mem' = dom mem -> spaced n mem -> spaced n mem'.
Proof.
  intros Hd Hs p q. rewrite <- !elem_of_dom, Hd, !elem_of_dom. apply Hs.
Qed.

(** The addresses that a loop counting down from [count] visits. *)
Definition slots_down (base n : Z) (count : Z) : list Z :=
  (fun i => base + u64 (i * n)) <$> reverse (seqZ 0 count).

End Blocks.

(** ** What an allocator of objects promises

    To the application an allocator is a finite map [live] from the addresses of
    its objects to what it wrote there. *)

Class ObjectAllocator (A V E : Type) `{FreeNode V} := {
  oa_alloc : E -> A -> outcome unit (option Z * A);
  oa_free : A -> Z -> outcome unit A;
  oa_mem : A -> gmap Z V;
  oa_with_mem : gmap Z V -> A -> A;
  oa_size : A -> Z;
  oa_in_use : A -> Z;
  oa_fresh : E -> A -> Prop;
  oa_full : E -> A -> gmap Z V -> Prop;
  oa_new : A -> V -> Prop;
  oa_inv : A -> gmap Z V -> Prop;
  oa_inv_sound a live : oa_inv a live ->
    live ⊆ oa_mem a /\ spaced (oa_size a) (oa_mem a) /\ oa_in_use a = u32 (Z.of_nat (size live));
  oa_alloc_law e a live : oa_inv a live -> oa_fresh e a ->
    (oa_full e a live /\ oa_alloc e a = Done (None, a)) \/
    (exists p v a', oa_alloc e a = Done (Some p, a') /\ live !! p = None /\ ~ oa_full e a live /\ oa_new a v /\
       oa_inv a' (<[p := v]> live));
  oa_free_law a live p : oa_inv a live -> is_Some (live !! p) ->
    exists a', oa_free a p = Done a' /\ oa_inv a' (delete p live);
  oa_write_law a live p v : oa_inv a live -> is_Some (live !! p) -> node_ok (oa_size a) v ->
    oa_inv (oa_with_mem (<[p := v]> (oa_mem a)) a) (<[p := v]> live)
}.

Section Histories.
Context {A V E : Type} `{FreeNode V} {OA : ObjectAllocator A V E}.

(** The application allocates, writes to its objects and frees them, in any
    order. *)
Inductive obj_step : A * gmap Z V -> A * gmap Z V -> Prop :=
| step_alloc e a live p v a' : oa_fresh e a -> oa_alloc e a = Done (Some p, a') -> oa_mem a' !! p = Some v ->
    obj_step (a, live) (a', <[p := v]> live)
| step_refused e a live a' : oa_fresh e a -> oa_alloc e a = Done (None, a') -> obj_step (a, live) (a', live)
| step_write a live p v : is_Some (live !! p) -> node_ok (oa_size a) v ->
    obj_step (a, live) (oa_with_mem (<[p := v]> (oa_mem a)) a, <[p := v]> live)
| step_free a live p a' : is_Some (live !! p) -> oa_free a p = Done a' -> obj_step (a, live) (a', delete p live).

(** Objects keep what was written to them, do not overlap and are counted; the
    next allocation gives a blank object that is not in use, or none when there is
    none; every object can be freed. *)
Record serves (a : A) (live : gmap Z V) : Prop := Serves {
  sv_contents p v : live !! p = Some v -> oa_mem a !! p = Some v;
  sv_separate p q : is_Some (live !! p) -> is_Some (live !! q) -> p <> q -> p + oa_size a <= q \/ q + oa_size a <= p;
  sv_count : oa_in_use a = u32 (Z.of_nat (size live));
  sv_alloc e : oa_fresh e a ->
    (oa_full e a live /\ oa_alloc e a = Done (None, a)) \/
    (exists p v a', oa_alloc e a = Done (Some p, a') /\ live !! p = None /\ ~ oa_full e a live /\
       oa_mem a' !! p = Some v /\ oa_new a v);
  sv_free p : is_Some (live !! p) -> exists a', oa_free a p = Done a'
}.

Lemma inv_step st st' : obj_step st st' -> oa_inv st.1 st.2 -> oa_inv st'.1 st'.2.
Proof.
  intros Hs. destruct Hs as [e a live p v a' Hf Ha Hv | e a live a' Hf Ha | a live p v Hp Hv | a live p a' Hp Ha]; cbn [fst snd]; intros Hinv.
  - destruct (oa_alloc_law e a live Hinv Hf) as [[_ Ha'] | (p' & v' & a'' & Ha' & _ & _ & _ & Hi)]; simplify_eq; [congruence |].
    rewrite Ha in Ha'. simplify_eq. destruct (oa_inv_sound _ _ Hi) as (Hsub & _).
    pose proof (lookup_weaken _ _ p' v' (lookup_insert_eq _ _ _) Hsub) as Hv'. rewrite Hv in Hv'. by simplify_eq.
  - destruct (oa_alloc_law e a live Hinv Hf) as [[_ Ha'] | (p' & v' & a'' & Ha' & _)]; congruence.
  - by apply oa_write_law.
  - destruct (oa_free_law a live p Hinv Hp) as (a'' & Ha' & Hi). congruence.
Qed.

Lemma inv_history st st' : rtc obj_step st st' -> oa_inv st.1 st.2 -> oa_inv st'.1 st'.2.
Proof. induction 1; eauto using inv_step. Qed.

Lemma inv_serves a live : oa_inv a live -> serves a live.
Proof.
  intros Hinv. destruct (oa_inv_sound _ _ Hinv) as (Hsub & Hsp & Hc). split; [| | done | |].
  - intros p v Hv. by eapply lookup_weaken.
  - intros p q [v Hv] [w Hw]. apply Hsp; eexists; by eapply lookup_weaken.
  - intros e He. destruct (oa_alloc_law e a live Hinv He) as [? | (p & v & a' & Ha & Hp & Hf & Hn & Hi)]; [by left | right].
    exists p, v, a'. split_and!; [done.. | | done]. destruct (oa_inv_sound _ _ Hi) as (Hsub' & _).
    eapply lookup_weaken; [apply lookup_insert_eq | done].
  - intros p Hp. destruct (oa_free_law a live p Hinv Hp) as (a' & Ha & _). eauto.
Qed.

Lemma history_serves a0 a live : oa_inv a0 ∅ -> rtc obj_step (a0, ∅) (a, live) -> serves a live.
Proof. intros Hinv Hr. apply inv_serves. apply (inv_history _ _ Hr Hinv). Qed.

End Histories.
