(* ===== verification/ObjectPools.v ===== *)
(** * Allocators of objects of one size (src/src/memory/pool.c, slab.c, packet_buffer.c)

    The fixed pool, the growing slab and the pool of packet buffers over the free
    lists of FreeList, as instances of its allocator class.  The addresses that
    [malloc] returns are arguments; giving the blocks back to the system is not
    represented. *)

From stdpp Require Import gmap.
From S2P Require Import Prelude FreeList.

(** A block that the system returned. *)
Definition block (base bytes : Z) : Prop := 0 < base /\ base + bytes <= 2 ^ 64.

Definition SIZEOF_PTR : Z := 8.

(** [obj_size] becomes room for a pointer, a multiple of its size. *)
Definition round_size (obj_size : Z) : Z :=
  align_up (if obj_size <? SIZEOF_PTR then SIZEOF_PTR else obj_size) SIZEOF_PTR.

(** ** The pool *)

Record nxp_pool := Pool {
  pl_mem : gmap Z (list Z);
  pl_backing : Z;
  pl_free_list : option Z;
  pl_obj_size : Z;
  pl_capacity : Z;
  pl_in_use : Z
}.
#[export] Instance eta_pool : Eta nxp_pool := fun p =>
  Pool (pl_mem p) (pl_backing p) (pl_free_list p) (pl_obj_size p) (pl_capacity p) (pl_in_use p).

(** Whether the pool itself was allocated, and the address of its memory. *)
Definition nxp_pool_create (pool_ok : bool) (backing : option Z) (obj_size capacity : Z) : outcome unit (option nxp_pool) :=
  if capacity =? 0 then Done None else
  let obj_size := round_size obj_size in
  if negb pool_ok then Done None else
  match backing with
  | None => Done None
  | Some base =>
      let mem := carve (zeros obj_size) base obj_size (u64 (obj_size * capacity)) in
      let! (mem, free_list) := fl_build store_ptr mem None (slots_down base obj_size capacity) in
      Done (Some (Pool mem base free_list obj_size capacity 0))
  end.

Definition nxp_pool_alloc (pool : nxp_pool) : outcome unit (option Z * nxp_pool) :=
  match pl_free_list pool with
  | None => Done (None, pool)
  | Some obj =>
      match pl_mem pool !! obj with
      | None => Ub
      | Some v =>
          Done (Some obj, pool <| pl_free_list := load_ptr v |> <| pl_in_use := u32 (pl_in_use pool + 1) |>
                               <| pl_mem := <[obj := zeros (pl_obj_size pool)]> (pl_mem pool) |>)
      end
  end.

(** With [NXP_DEBUG] an address outside the pool is ignored. *)
Definition nxp_pool_free (NXP_DEBUG : bool) (pool : nxp_pool) (obj : Z) : outcome unit nxp_pool :=
  if obj =? 0 then Done pool else
  if NXP_DEBUG && ((obj <? pl_backing pool) || (obj >=? pl_backing pool + u64 (pl_obj_size pool * pl_capacity pool)))
  then Done pool else
  let! mem := fl_link store_ptr (pl_mem pool) (pl_free_list pool) obj in
  Done (pool <| pl_mem := mem |> <| pl_free_list := Some obj |> <| pl_in_use := u32 (pl_in_use pool - 1) |>).

Definition nxp_pool_is_empty (pool : nxp_pool) : bool := pl_in_use pool =? pl_capacity pool.
Definition nxp_pool_available (pool : nxp_pool) : Z := u32 (pl_capacity pool - pl_in_use pool).

(** ** The slab *)

Record nxp_slab_chunk := SlabChunk {
  sc_data : Z;
  sc_capacity : Z
}.

Record nxp_slab := Slab {
  sb_mem : gmap Z (list Z);
  sb_chunks : list nxp_slab_chunk;
  sb_free_list : option Z;
  sb_obj_size : Z;
  sb_chunk_count : Z;
  sb_total_alloc : Z;
  sb_in_use : Z
}.
#[export] Instance eta_slab : Eta nxp_slab := fun s =>
  Slab (sb_mem s) (sb_chunks s) (sb_free_list s) (sb_obj_size s) (sb_chunk_count s) (sb_total_alloc s) (sb_in_use s).

(** The allocations of one call: whether the chunk record could be allocated and
    the address of its data. *)
Record chunk_env := ChunkEnv {
  ce_chunk : bool;
  ce_data : option Z
}.

Definition slab_grow (env : chunk_env) (slab : nxp_slab) : outcome unit (bool * nxp_slab) :=
  let obj_size := sb_obj_size slab in
  let chunk_count := sb_chunk_count slab in
  let data_size := u64 (obj_size * chunk_count) in
  if negb (ce_chunk env) then Done (false, slab) else
  match ce_data env with
  | None => Done (false, slab)
  | Some data =>
      let mem := sb_mem slab ∪ carve (zeros obj_size) data obj_size data_size in
      let! (mem, free_list) := fl_build store_ptr mem (sb_free_list slab) (slots_down data obj_size chunk_count) in
      Done (true, slab <| sb_mem := mem |> <| sb_chunks := SlabChunk data chunk_count :: sb_chunks slab |>
                       <| sb_free_list := free_list |> <| sb_total_alloc := u32 (sb_total_alloc slab + chunk_count) |>)
  end.

Definition nxp_slab_create (slab_ok : bool) (env : chunk_env) (obj_size chunk_count : Z) : outcome unit (option nxp_slab) :=
  if chunk_count =? 0 then Done None else
  let obj_size := round_size obj_size in
  if negb slab_ok then Done None else
  let! (grown, slab) := slab_grow env (Slab ∅ [] None obj_size chunk_count 0 0) in
  if grown then Done (Some slab) else Done None.

Definition slab_take (slab : nxp_slab) : outcome unit (option Z * nxp_slab) :=
  match sb_free_list slab with
  | None => Ub
  | Some obj =>
      match sb_mem slab !! obj with
      | None => Ub
      | Some v =>
          Done (Some obj, slab <| sb_free_list := load_ptr v |> <| sb_in_use := u32 (sb_in_use slab + 1) |>
                               <| sb_mem := <[obj := zeros (sb_obj_size slab)]> (sb_mem slab) |>)
      end
  end.

Definition nxp_slab_alloc (env : chunk_env) (slab : nxp_slab) : outcome unit (option Z * nxp_slab) :=
  match sb_free_list slab with
  | None =>
      let! (grown, slab) := slab_grow env slab in
      if negb grown then Done (None, slab) else slab_take slab
  | Some _ => slab_take slab
  end.

Definition nxp_slab_free (slab : nxp_slab) (obj : Z) : outcome unit nxp_slab :=
  if obj =? 0 then Done slab else
  let! mem := fl_link store_ptr (sb_mem slab) (sb_free_list slab) obj in
  Done (slab <| sb_mem := mem |> <| sb_free_list := Some obj |> <| sb_in_use := u32 (sb_in_use slab - 1) |>).

(** ** The pool of packet buffers *)

Record nxp_packet_buf := PacketBuf {
  pb_data : list Z;
  pb_len : Z;
  pb_addr : list Z;
  pb_timestamp_us : Z;
  pb_next : option Z
}.
#[export] Instance eta_packet_buf : Eta nxp_packet_buf := fun b =>
  PacketBuf (pb_data b) (pb_len b) (pb_addr b) (pb_timestamp_us b) (pb_next b).

(** The data is aligned to 64 bytes. *)
Definition SIZEOF_PACKET_BUF : Z := 1600.
Definition packet_zero : nxp_packet_buf := PacketBuf (zeros 1536) 0 (zeros 28) 0 None.

Record nxp_packet_pool := PacketPool {
  pp_mem : gmap Z nxp_packet_buf;
  pp_free_list : option Z;
  pp_free_count : Z;
  pp_capacity : Z
}.
#[export] Instance eta_packet_pool : Eta nxp_packet_pool := fun p =>
  PacketPool (pp_mem p) (pp_free_list p) (pp_free_count p) (pp_capacity p).

Definition nxp_packet_pool_create (pool_ok : bool) (backing : option Z) (capacity : Z) : outcome unit (option nxp_packet_pool) :=
  if capacity =? 0 then Done None else
  if negb pool_ok then Done None else
  let alloc_size := u64 (capacity * SIZEOF_PACKET_BUF) in
  let alloc_size := u64 (alloc_size + 63) &&& (UINT64_MAX - 63) in
  match backing with
  | None => Done None
  | Some base =>
      let mem := carve packet_zero base SIZEOF_PACKET_BUF alloc_size in
      let init free_list buf := buf <| pb_next := free_list |> <| pb_len := 0 |> in
      let! (mem, free_list) := fl_build init mem None (slots_down base SIZEOF_PACKET_BUF capacity) in
      Done (Some (PacketPool mem free_list capacity capacity))
  end.

Definition nxp_packet_pool_get (pool : nxp_packet_pool) : outcome unit (option Z * nxp_packet_pool) :=
  match pp_free_list pool with
  | None => Done (None, pool)
  | Some p =>
      match pp_mem pool !! p with
      | None => Ub
      | Some buf =>
          let buf' := buf <| pb_next := None |> <| pb_len := 0 |> <| pb_timestamp_us := 0 |> <| pb_addr := zeros 28 |> in
          Done (Some p, pool <| pp_free_list := pb_next buf |> <| pp_free_count := u32 (pp_free_count pool - 1) |>
                             <| pp_mem := <[p := buf']> (pp_mem pool) |>)
      end
  end.

Definition nxp_packet_pool_put (pool : nxp_packet_pool) (buf : Z) : outcome unit nxp_packet_pool :=
  if buf =? 0 then Done pool else
  let! mem := fl_link (fun free_list b => b <| pb_next := free_list |>) (pp_mem pool) (pp_free_list pool) buf in
  Done (pool <| pp_mem := mem |> <| pp_free_list := Some buf |> <| pp_free_count := u32 (pp_free_count pool + 1) |>).

(** ** Blocks *)

Lemma round_size_spec obj_size : 0 <= obj_size -> obj_size + 8 <= 2 ^ 64 ->
  8 <= round_size obj_size < obj_size + 16 /\ obj_size <= round_size obj_size /\ round_size obj_size mod 8 = 0.
Proof.
  intros H0 H1. unfold round_size, SIZEOF_PTR. set (v := if obj_size <? 8 then 8 else obj_size).
  assert (v = Z.max 8 obj_size) as -> by (subst v; destruct (Z.ltb_spec obj_size 8); lia).
  pose proof (align_up_spec (Z.max 8 obj_size) 3 ltac:(lia) ltac:(lia)) as H. change (2 ^ 3) with 8 in H.
  destruct H as [? ?]; lia.
Qed.

Section Block.
Context {V : Type} (z : V) (base n count : Z).
Hypothesis Hn : 0 < n.
Hypothesis Hcount : 0 <= count.
Hypothesis Hmax : n * count < 2 ^ 64.

Lemma slots_exact p : p ∈ slots_down base n count <-> is_Some (carve z base n (u64 (n * count)) !! p).
Proof.
  rewrite u64_small by nia. unfold slots_down. rewrite list_elem_of_fmap. split.
  - intros (i & -> & Hi). rewrite elem_of_reverse, elem_of_seqZ in Hi. rewrite u64_small by nia. exists z.
    apply lookup_carve; [done |]. split; [done |]. exists i. rewrite Z.mul_comm, Z.div_mul by lia. lia.
  - intros [v Hv]. apply lookup_carve in Hv as (-> & i & Hi & ->); [| done]. rewrite Z.mul_comm, Z.div_mul in Hi by lia.
    exists i. rewrite u64_small, elem_of_reverse, elem_of_seqZ by nia. lia.
Qed.

Lemma slots_nodup : NoDup (slots_down base n count).
Proof.
  unfold slots_down. apply NoDup_fmap_2_strong; [| rewrite (reverse_Permutation (seqZ 0 count)); apply NoDup_seqZ].
  intros i j. rewrite !elem_of_reverse, !elem_of_seqZ. intros Hi Hj. rewrite !u64_small by nia. nia.
Qed.

Lemma size_carve : size (carve z base n (u64 (n * count))) = Z.to_nat count.
Proof.
  rewrite u64_small by nia. unfold carve. rewrite map_size_list_to_map.
  - rewrite length_fmap, length_seqZ, Z.mul_comm, Z.div_mul by lia. done.
  - rewrite <- list_fmap_compose. apply NoDup_fmap_2_strong; [| apply NoDup_seqZ]. simpl. intros i j _ _ ?. nia.
Qed.

Lemma carve_in p v : block base (n * count) -> carve z base n (u64 (n * count)) !! p = Some v ->
  v = z /\ ptr p /\ base <= p /\ p + n <= base + n * count.
Proof.
  intros [Hb He]. rewrite u64_small by nia. intros (-> & i & Hi & ->)%lookup_carve; [| done].
  rewrite Z.mul_comm, Z.div_mul in Hi by lia. unfold ptr. split; [done |]. nia.
Qed.

End Block.

Lemma fl_empty {V} `{FreeNode V} n : fl_inv n (∅ : gmap Z V) None ∅ [].
Proof. split; [done | by apply list.NoDup_nil | by intros ? ?%not_elem_of_nil | done | by intros p v Hv]. Qed.

Lemma zeros_node n : 8 <= n -> node_ok n (zeros n).
Proof. intros Hn. split; [done |]. apply zlen_zeros. lia. Qed.

Lemma fl_null n (mem live : gmap Z (list Z)) head l p : fl_inv n mem head live l -> is_Some (live !! p) -> (p =? 0) = false.
Proof.
  intros Hinv [v Hv]. destruct (fi_cover _ _ _ _ _ Hinv p v) as [[? ?] _]; [| apply Z.eqb_neq; lia].
  eapply lookup_weaken; [done |]. by apply Hinv.
Qed.

Lemma u32_add_l a b : u32 (u32 a + b) = u32 (a + b).
Proof. apply Zplus_mod_idemp_l. Qed.

Lemma size_insert_new {V} (m : gmap Z V) p v : m !! p = None -> Z.of_nat (size (<[p := v]> m)) = Z.of_nat (size m) + 1.
Proof. intros Hp. rewrite map_size_insert, Hp. lia. Qed.

Lemma size_insert_old {V} (m : gmap Z V) p v : is_Some (m !! p) -> size (<[p := v]> m) = size m.
Proof. intros [w Hw]. by rewrite map_size_insert, Hw. Qed.

Lemma size_delete_old {V} (m : gmap Z V) p : is_Some (m !! p) -> Z.of_nat (size (delete p m)) = Z.of_nat (size m) - 1.
Proof.
  intros [w Hw]. rewrite map_size_delete, Hw. assert (size m <> 0%nat); [| lia].
  intros Hz%map_size_empty_inv. subst. by rewrite lookup_empty in Hw.
Qed.

Lemma dom_insert_old {V} (m : gmap Z V) p v : is_Some (m !! p) -> dom (<[p := v]> m) = dom m.
Proof. intros Hp. rewrite dom_insert_L. apply subseteq_union_1_L, singleton_subseteq_l. by apply elem_of_dom. Qed.

Lemma size_same_dom {V} (m m' : gmap Z V) : dom m' = dom m -> size m' = size m.
Proof. intros Hd. by rewrite <- !size_dom, Hd. Qed.

(** ** The pool is an allocator *)

Record pool_inv (pool : nxp_pool) (live : gmap Z (list Z)) : Prop := PoolInv {
  pi_list : exists l, fl_inv (pl_obj_size pool) (pl_mem pool) (pl_free_list pool) live l;
  pi_size : 8 <= pl_obj_size pool;
  pi_spaced : spaced (pl_obj_size pool) (pl_mem pool);
  pi_in_use : pl_in_use pool = u32 (Z.of_nat (size live));
  pi_capacity : Z.of_nat (size (pl_mem pool)) = pl_capacity pool;
  pi_backing p : is_Some (pl_mem pool !! p) ->
    pl_backing pool <= p < pl_backing pool + u64 (pl_obj_size pool * pl_capacity pool)
}.

(** The memory changes at live or free objects only. *)
Lemma pool_inv_update pool mem live live' head k l : pool_inv pool live -> dom mem = dom (pl_mem pool) ->
  fl_inv (pl_obj_size pool) mem head live' l -> k = u32 (Z.of_nat (size live')) ->
  pool_inv (pool <| pl_mem := mem |> <| pl_free_list := head |> <| pl_in_use := k |>) live'.
Proof.
  intros [_ Hs Hsp _ Hc Hb] Hd Hl Hk. split; cbn; [eauto | done | by eapply spaced_dom | done | |].
  - by rewrite (size_same_dom (pl_mem pool)).
  - intros p. rewrite <- elem_of_dom, Hd, elem_of_dom. apply Hb.
Qed.

Lemma pool_alloc_law pool live : pool_inv pool live ->
  (size live = size (pl_mem pool) /\ nxp_pool_alloc pool = Done (None, pool)) \/
  (exists p v pool', nxp_pool_alloc pool = Done (Some p, pool') /\ live !! p = None /\ size live <> size (pl_mem pool) /\
     v = zeros (pl_obj_size pool) /\ pool_inv pool' (<[p := v]> live)).
Proof.
  intros Hinv. destruct (pi_list _ _ Hinv) as [l Hl]. unfold nxp_pool_alloc. pose proof (fl_size _ _ _ _ _ Hl) as Hsz.
  destruct (pl_free_list pool) as [p |] eqn:Hh.
  - right. destruct (fl_pop _ _ _ _ _ Hl) as (v & l' & Hv & Hp & -> & Hpop). rewrite Hv.
    eexists p, _, _. split_and!; [done | done | simpl in Hsz; lia | done |].
    apply (pool_inv_update pool (<[p := zeros (pl_obj_size pool)]> (pl_mem pool)) live _ (load_ptr v)
      (u32 (pl_in_use pool + 1)) l' Hinv); [| apply Hpop, zeros_node, Hinv |].
    + apply dom_insert_old. eauto.
    + rewrite size_insert_new, (pi_in_use _ _ Hinv) by done. by apply u32_add_l.
  - left. destruct Hl as [Hc _ _ _ _]. destruct l; [| by destruct Hc]. split; [simpl in Hsz; lia | done].
Qed.

Lemma pool_free_law debug pool live p : pool_inv pool live -> is_Some (live !! p) ->
  exists pool', nxp_pool_free debug pool p = Done pool' /\ pool_inv pool' (delete p live).
Proof.
  intros Hinv Hp. destruct (pi_list _ _ Hinv) as [l Hl]. unfold nxp_pool_free. rewrite (fl_null _ _ _ _ _ _ Hl Hp).
  assert (is_Some (pl_mem pool !! p)) as Hm by (destruct Hp as [v Hv]; exists v; eapply lookup_weaken, Hl; done).
  pose proof (pi_backing _ _ Hinv p Hm) as Hb. rewrite Z.geb_leb.
  destruct (Z.ltb_spec p (pl_backing pool)); [lia |]. destruct (Z.leb_spec (pl_backing pool + u64 (pl_obj_size pool * pl_capacity pool)) p); [lia |].
  rewrite andb_false_r. destruct (fl_push store_ptr links_store_ptr _ _ _ _ _ _ Hl Hp) as (mem & -> & Hd & Hl'). cbn [obind].
  eexists. split; [done |]. eapply (pool_inv_update pool mem live); [done | done | done |].
  rewrite size_delete_old, (pi_in_use _ _ Hinv) by done. by apply u32_add_l.
Qed.

Lemma pool_write_law pool live p v : pool_inv pool live -> is_Some (live !! p) -> node_ok (pl_obj_size pool) v ->
  pool_inv (pool <| pl_mem := <[p := v]> (pl_mem pool) |>) (<[p := v]> live).
Proof.
  intros Hinv Hp Hv. destruct (pi_list _ _ Hinv) as [l Hl].
  apply (pool_inv_update pool (<[p := v]> (pl_mem pool)) live _ (pl_free_list pool) (pl_in_use pool) l Hinv).
  - apply dom_insert_old. destruct Hp as [w Hw]. exists w. eapply lookup_weaken, Hl. done.
  - by apply fl_write.
  - rewrite size_insert_old by done. apply Hinv.
Qed.

Lemma pool_sound pool live : pool_inv pool live ->
  live ⊆ pl_mem pool /\ spaced (pl_obj_size pool) (pl_mem pool) /\ pl_in_use pool = u32 (Z.of_nat (size live)).
Proof. intros [[l Hl] _ Hs Hu _ _]. split_and!; [apply Hl | done | done]. Qed.

#[export] Instance pool_allocator (debug : bool) : ObjectAllocator nxp_pool (list Z) unit := {|
  oa_alloc _ := nxp_pool_alloc;
  oa_free := nxp_pool_free debug;
  oa_mem := pl_mem;
  oa_with_mem mem pool := pool <| pl_mem := mem |>;
  oa_size := pl_obj_size;
  oa_in_use := pl_in_use;
  oa_fresh _ _ := True;
  oa_full _ pool live := size live = size (pl_mem pool);
  oa_new pool v := v = zeros (pl_obj_size pool);
  oa_inv := pool_inv;
  oa_inv_sound := pool_sound;
  oa_alloc_law _ pool live Hinv _ := pool_alloc_law pool live Hinv;
  oa_free_law := pool_free_law debug;
  oa_write_law := pool_write_law
|}.

Lemma pool_created base obj_size capacity : 0 <= obj_size -> 0 < capacity < 2 ^ 32 ->
  obj_size + 8 <= 2 ^ 64 -> round_size obj_size * capacity < 2 ^ 64 -> block base (round_size obj_size * capacity) ->
  exists pool, nxp_pool_create true (Some base) obj_size capacity = Done (Some pool) /\ pool_inv pool ∅ /\
    pl_capacity pool = capacity /\ pl_obj_size pool = round_size obj_size.
Proof.
  intros H0 Hc Hs Hmax Hb. destruct (round_size_spec obj_size H0 Hs) as (Hr & _ & _). unfold nxp_pool_create.
  destruct (Z.eqb_spec capacity 0) as [-> | _]; [lia |]. cbn [negb]. set (n := round_size obj_size) in *.
  destruct (fl_grow store_ptr links_store_ptr n ∅ None ∅ [] (carve (zeros n) base n (u64 (n * capacity))) (slots_down base n capacity))
    as (mem & head & Hg & Hd & Hl); [apply fl_empty | apply map_disjoint_empty_l | | apply slots_nodup; lia | apply slots_exact; lia |].
  { intros p v Hv. apply carve_in in Hv as (-> & ? & _); [| lia.. | done]. split; [done | by apply zeros_node; lia]. }
  rewrite (left_id_L ∅ (∪)) in Hg. rewrite Hg. cbn [obind]. eexists. split; [done |].
  rewrite dom_empty_L, (left_id_L ∅ (∪)) in Hd. split; [| done]. split; cbn.
  - eauto.
  - lia.
  - eapply spaced_dom; [done |]. apply spaced_carve. lia.
  - done.
  - rewrite (size_same_dom _ _ Hd), size_carve by lia. lia.
  - intros p. rewrite <- elem_of_dom, Hd, elem_of_dom. intros [v Hv].
    apply carve_in in Hv as (_ & _ & ? & ?); [| lia.. | done]. rewrite u64_small by nia. lia.
Qed.

Lemma pool_step_const debug st st' : obj_step (OA := pool_allocator debug) st st' ->
  pl_capacity st'.1 = pl_capacity st.1 /\ pl_obj_size st'.1 = pl_obj_size st.1.
Proof.
  destruct 1 as [e a live p v a' _ Ha _ | e a live a' _ Ha | a live p v _ _ | a live p a' _ Ha]; cbn in *; [| | done |].
  - unfold nxp_pool_alloc in Ha. repeat case_match; by simplify_eq.
  - unfold nxp_pool_alloc in Ha. repeat case_match; by simplify_eq.
  - unfold nxp_pool_free in Ha. destruct (p =? 0); [by simplify_eq |].
    match type of Ha with (if ?b then _ else _) = _ => destruct b end; [by simplify_eq |].
    destruct (fl_link _ _ _ _); cbn [obind] in Ha; by simplify_eq.
Qed.

Lemma pool_history_const debug st st' : rtc (obj_step (OA := pool_allocator debug)) st st' ->
  pl_capacity st'.1 = pl_capacity st.1 /\ pl_obj_size st'.1 = pl_obj_size st.1.
Proof.
  induction 1 as [| x y z Hs _ IH]; [done |]. destruct (pool_step_const _ _ _ Hs), IH. split; congruence.
Qed.

Lemma pool_counts pool live : pool_inv pool live -> pl_capacity pool < 2 ^ 32 ->
  nxp_pool_available pool = pl_capacity pool - Z.of_nat (size live) /\
  nxp_pool_is_empty pool = bool_decide (size live = size (pl_mem pool)).
Proof.
  intros [[l Hl] _ _ Hu Hc _] Hm. pose proof (fl_size _ _ _ _ _ Hl). unfold nxp_pool_available, nxp_pool_is_empty.
  rewrite Hu, !u32_small by (try rewrite u32_small; lia). split; [done |].
  apply eq_bool_prop_intro. rewrite bool_decide_spec, Is_true_true, Z.eqb_eq. lia.
Qed.

(** A pool whose objects fit the address space is built, and serves: in every
    history of allocations, writes and frees by the application its objects keep
    what was written to them and never overlap, a new object is blank and not in
    use, an allocation is refused exactly when all [capacity] objects are live, and
    the counters are exact. *)
Theorem pool_correct debug base obj_size capacity : 0 <= obj_size -> 0 < capacity < 2 ^ 32 ->
  obj_size + 8 <= 2 ^ 64 -> round_size obj_size * capacity < 2 ^ 64 -> block base (round_size obj_size * capacity) ->
  exists pool, nxp_pool_create true (Some base) obj_size capacity = Done (Some pool) /\
    obj_size <= pl_obj_size pool /\ pl_obj_size pool mod 8 = 0 /\
    forall pool' live, rtc (obj_step (OA := pool_allocator debug)) (pool, ∅) (pool', live) ->
      serves (OA := pool_allocator debug) pool' live /\
      nxp_pool_available pool' = capacity - Z.of_nat (size live) /\
      nxp_pool_is_empty pool' = bool_decide (Z.of_nat (size live) = capacity).
Proof.
  intros H0 Hc Hs Hmax Hb. destruct (pool_created base obj_size capacity H0 Hc Hs Hmax Hb) as (pool & Hcr & Hinv & Hcap & Hsz).
  destruct (round_size_spec obj_size H0 Hs) as (_ & Hge & Hal). exists pool. rewrite Hsz. split_and!; [done.. |].
  intros pool' live Hr. split; [by eapply history_serves |].
  pose proof (pool_history_const _ _ _ Hr) as [Hk _]. cbn in Hk. rewrite Hcap in Hk.
  pose proof (inv_history _ _ Hr Hinv) as Hinv'. cbn in Hinv'. pose proof (pi_capacity _ _ Hinv') as Hpc.
  destruct (pool_counts pool' live Hinv') as [-> ->]; [lia |]. rewrite Hk. split; [done |].
  apply bool_decide_ext. lia.
Qed.

Lemma pool_correct_witness : exists pool, nxp_pool_create true (Some 4096) 20 3 = Done (Some pool) /\
  20 <= pl_obj_size pool.
Proof.
  destruct (pool_correct true 4096 20 3) as (pool & Hc & Hs & _).
  1-4: by_compute.
  - split; by_compute.
  - by exists pool.
Defined.

(** When the size of all objects overflows, building the free list writes
    outside the memory of the pool. *)
Theorem pool_overflow base obj_size capacity : 0 <= obj_size -> 0 < capacity < 2 ^ 32 ->
  obj_size + 8 <= 2 ^ 64 -> 2 ^ 64 <= round_size obj_size * capacity ->
  nxp_pool_create true (Some base) obj_size capacity = Ub.
Proof.
  intros H0 Hc Hs Hmax. destruct (round_size_spec obj_size H0 Hs) as (Hr & _ & _). unfold nxp_pool_create.
  destruct (Z.eqb_spec capacity 0) as [-> | _]; [lia |]. cbn [negb]. set (n := round_size obj_size) in *.
  pose proof (u64_range (n * capacity)) as Hu. set (bytes := u64 (n * capacity)) in *.
  pose proof (Z.mul_div_le bytes n ltac:(lia)). pose proof (Z.div_pos bytes n ltac:(lia) ltac:(lia)).
  rewrite (fl_build_ub _ _ _ _ (base + bytes / n * n)); [done | |].
  - unfold slots_down. apply list_elem_of_fmap. exists (bytes / n). rewrite u64_small, elem_of_reverse, elem_of_seqZ by lia. nia.
  - apply eq_None_not_Some. intros [v Hv]. apply lookup_carve in Hv as (_ & i & Hi & He); nia.
Qed.

Lemma pool_overflow_witness : nxp_pool_create true (Some 4096) (2 ^ 33) (2 ^ 31) = Ub.
Proof. apply (pool_overflow 4096 (2 ^ 33) (2 ^ 31)); by_compute. Defined.

(** ** The slab is an allocator *)

Definition chunk_bytes (slab : nxp_slab) : Z := sb_obj_size slab * sb_chunk_count slab.

Record slab_inv (slab : nxp_slab) (live : gmap Z (list Z)) : Prop := SlabInv {
  si_list : exists l, fl_inv (sb_obj_size slab) (sb_mem slab) (sb_free_list slab) live l;
  si_size : 8 <= sb_obj_size slab;
  si_count : 0 < sb_chunk_count slab;
  si_bytes : chunk_bytes slab < 2 ^ 64;
  si_spaced : spaced (sb_obj_size slab) (sb_mem slab);
  si_in_use : sb_in_use slab = u32 (Z.of_nat (size live));
  si_total : sb_total_alloc slab = u32 (Z.of_nat (size (sb_mem slab)))
}.

(** The system never returns memory that overlaps objects of the slab. *)
Definition chunk_fresh (env : chunk_env) (slab : nxp_slab) : Prop :=
  forall data, ce_data env = Some data -> block data (chunk_bytes slab) /\
    forall p, is_Some (sb_mem slab !! p) -> p + sb_obj_size slab <= data \/ data + chunk_bytes slab <= p.

Definition chunk_refused (env : chunk_env) : Prop := ce_chunk env = false \/ ce_data env = None.

Lemma slab_inv_update slab mem live live' head k l : slab_inv slab live -> dom mem = dom (sb_mem slab) ->
  fl_inv (sb_obj_size slab) mem head live' l -> k = u32 (Z.of_nat (size live')) ->
  slab_inv (slab <| sb_mem := mem |> <| sb_free_list := head |> <| sb_in_use := k |>) live'.
Proof.
  intros [_ Hs Hc Hb Hsp _ Ht] Hd Hl Hk. split; cbn; [eauto | done | done | done | by eapply spaced_dom | done |].
  by rewrite (size_same_dom (sb_mem slab)).
Qed.

Lemma spaced_union {V} n (mem blk : gmap Z V) data bytes : spaced n mem -> spaced n blk ->
  (forall p, is_Some (mem !! p) -> p + n <= data \/ data + bytes <= p) ->
  (forall p, is_Some (blk !! p) -> data <= p /\ p + n <= data + bytes) -> spaced n (mem ∪ blk).
Proof.
  intros Hm Hb Hout Hin p q Hp Hq Hne.
  assert (forall r, is_Some ((mem ∪ blk) !! r) -> is_Some (mem !! r) \/ is_Some (blk !! r)) as Hor.
  { intros r [v Hv]. apply lookup_union_Some_raw in Hv as [Hv | [_ Hv]]; eauto. }
  destruct (Hor p Hp) as [Hp' | Hp'], (Hor q Hq) as [Hq' | Hq']; [by apply Hm | | | by apply Hb].
  - pose proof (Hout p Hp'). pose proof (Hin q Hq'). lia.
  - pose proof (Hout q Hq'). pose proof (Hin p Hp'). lia.
Qed.

Lemma slab_grow_spec env slab live : slab_inv slab live -> chunk_fresh env slab -> ~ chunk_refused env ->
  exists slab', slab_grow env slab = Done (true, slab') /\ slab_inv slab' live /\
    is_Some (sb_free_list slab') /\ sb_obj_size slab' = sb_obj_size slab /\ sb_chunk_count slab' = sb_chunk_count slab /\
    Z.of_nat (size (sb_mem slab')) = Z.of_nat (size (sb_mem slab)) + sb_chunk_count slab.
Proof.
  intros Hinv Hf Hr. unfold slab_grow, chunk_refused in *. destruct (ce_chunk env); [| tauto].
  destruct (ce_data env) as [data |] eqn:He; [| tauto]. destruct (Hf data He) as [Hb Hout]. cbn [negb].
  destruct (si_list _ _ Hinv) as [l Hl]. destruct Hinv as [_ Hs Hc Hmax Hsp Hu Ht]. unfold chunk_bytes in *.
  set (n := sb_obj_size slab) in *. set (count := sb_chunk_count slab) in *.
  set (blk := carve (zeros n) data n (u64 (n * count))).
  assert (forall p v, blk !! p = Some v -> v = zeros n /\ ptr p /\ data <= p /\ p + n <= data + n * count) as Hblk.
  { intros p v Hv. apply carve_in in Hv; [done | lia.. | done]. }
  assert (sb_mem slab ##ₘ blk) as Hdis.
  { apply map_disjoint_spec. intros p v w Hv Hw. pose proof (Hblk p w Hw). pose proof (Hout p ltac:(eauto)). lia. }
  destruct (fl_grow store_ptr links_store_ptr n (sb_mem slab) (sb_free_list slab) live l blk (slots_down data n count))
    as (mem & head & -> & Hd & Hl'); [done | done | | apply slots_nodup; lia | intros p; apply slots_exact; lia |].
  { intros p v Hv. destruct (Hblk p v Hv) as (-> & ? & _). split; [done | by apply zeros_node]. }
  assert (Z.of_nat (size mem) = Z.of_nat (size (sb_mem slab)) + count) as Hsz.
  { rewrite <- dom_union_L in Hd. rewrite (size_same_dom _ _ Hd), map_size_disj_union by done. subst blk.
    rewrite size_carve by lia. lia. }
  cbn [obind]. eexists. split; [done |]. split; [| split_and!; cbn; [| done | done | done]].
  - split; cbn; [eauto | done | done | done | | done |].
    + rewrite <- dom_union_L in Hd. eapply spaced_dom; [done |].
      apply (spaced_union n (sb_mem slab) blk data (n * count)); [done | by apply spaced_carve; lia | done |].
      intros p [v Hv]. pose proof (Hblk p v Hv). lia.
    + rewrite Ht, u32_add_l. by rewrite Hsz.
  - destruct Hl' as [Hch _ _ _ _]. destruct head; [by eexists |].
    pose proof (size_carve (zeros n) data n count ltac:(lia) ltac:(lia) ltac:(lia)) as Hsc. fold blk in Hsc.
    assert (reverse (slots_down data n count) <> []) as Hne.
    { unfold slots_down. rewrite <- fmap_reverse, reverse_involutive. rewrite seqZ_cons by lia. done. }
    destruct (reverse (slots_down data n count)) as [| p ps]; [done |]. by destruct Hch.
Qed.

Lemma slab_take_spec slab live : slab_inv slab live -> is_Some (sb_free_list slab) ->
  exists p slab', slab_take slab = Done (Some p, slab') /\ live !! p = None /\ size live <> size (sb_mem slab) /\
    slab_inv slab' (<[p := zeros (sb_obj_size slab)]> live).
Proof.
  intros Hinv [p Hh]. destruct (si_list _ _ Hinv) as [l Hl]. pose proof (fl_size _ _ _ _ _ Hl) as Hsz. unfold slab_take.
  rewrite Hh in *. destruct (fl_pop _ _ _ _ _ Hl) as (v & l' & Hv & Hp & -> & Hpop). rewrite Hv.
  eexists p, _. split_and!; [done | done | simpl in Hsz; lia |].
  apply (slab_inv_update slab (<[p := zeros (sb_obj_size slab)]> (sb_mem slab)) live _ (load_ptr v)
    (u32 (sb_in_use slab + 1)) l' Hinv); [| apply Hpop, zeros_node, Hinv |].
  - apply dom_insert_old. eauto.
  - rewrite size_insert_new, (si_in_use _ _ Hinv) by done. by apply u32_add_l.
Qed.

Lemma slab_alloc_law env slab live : slab_inv slab live -> chunk_fresh env slab ->
  ((size live = size (sb_mem slab) /\ chunk_refused env) /\ nxp_slab_alloc env slab = Done (None, slab)) \/
  (exists p v slab', nxp_slab_alloc env slab = Done (Some p, slab') /\ live !! p = None /\
     ~ (size live = size (sb_mem slab) /\ chunk_refused env) /\ v = zeros (sb_obj_size slab) /\ slab_inv slab' (<[p := v]> live)).
Proof.
  intros Hinv Hf. unfold nxp_slab_alloc. destruct (sb_free_list slab) as [q |] eqn:Hh.
  - right. destruct (slab_take_spec slab live Hinv) as (p & slab' & Ht & Hp & Hn & Hi); [by eexists |].
    exists p, (zeros (sb_obj_size slab)), slab'. tauto.
  - destruct (si_list _ _ Hinv) as [l Hl]. pose proof (fl_size _ _ _ _ _ Hl) as Hsz. rewrite Hh in Hl.
    destruct Hl as [Hc _ _ _ _]. destruct l; [| by destruct Hc]. simpl in Hsz.
    destruct (decide (ce_chunk env = false \/ ce_data env = None)) as [Hr | Hr].
    + left. split; [done |]. unfold slab_grow. destruct Hr as [-> | ->]; [done |]. by destruct (ce_chunk env).
    + right. destruct (slab_grow_spec env slab live Hinv Hf Hr) as (slab1 & -> & Hi1 & Hs1 & Ho & _). cbn [obind negb].
      destruct (slab_take_spec slab1 live Hi1 Hs1) as (p & slab' & Ht & Hp & Hn & Hi).
      exists p, (zeros (sb_obj_size slab)), slab'. rewrite <- Ho. unfold chunk_refused. tauto.
Qed.

Lemma slab_free_law slab live p : slab_inv slab live -> is_Some (live !! p) ->
  exists slab', nxp_slab_free slab p = Done slab' /\ slab_inv slab' (delete p live).
Proof.
  intros Hinv Hp. destruct (si_list _ _ Hinv) as [l Hl]. unfold nxp_slab_free. rewrite (fl_null _ _ _ _ _ _ Hl Hp).
  destruct (fl_push store_ptr links_store_ptr _ _ _ _ _ _ Hl Hp) as (mem & -> & Hd & Hl'). cbn [obind].
  eexists. split; [done |]. eapply (slab_inv_update slab mem live); [done | done | done |].
  rewrite size_delete_old, (si_in_use _ _ Hinv) by done. by apply u32_add_l.
Qed.

Lemma slab_write_law slab live p v : slab_inv slab live -> is_Some (live !! p) -> node_ok (sb_obj_size slab) v ->
  slab_inv (slab <| sb_mem := <[p := v]> (sb_mem slab) |>) (<[p := v]> live).
Proof.
  intros Hinv Hp Hv. destruct (si_list _ _ Hinv) as [l Hl].
  apply (slab_inv_update slab (<[p := v]> (sb_mem slab)) live _ (sb_free_list slab) (sb_in_use slab) l Hinv).
  - apply dom_insert_old. destruct Hp as [w Hw]. exists w. eapply lookup_weaken, Hl. done.
  - by apply fl_write.
  - rewrite size_insert_old by done. apply Hinv.
Qed.

Lemma slab_sound slab live : slab_inv slab live ->
  live ⊆ sb_mem slab /\ spaced (sb_obj_size slab) (sb_mem slab) /\ sb_in_use slab = u32 (Z.of_nat (size live)).
Proof. intros [[l Hl] _ _ _ Hs Hu _]. split_and!; [apply Hl | done | done]. Qed.

#[export] Instance slab_allocator : ObjectAllocator nxp_slab (list Z) chunk_env := {|
  oa_alloc := nxp_slab_alloc;
  oa_free := nxp_slab_free;
  oa_mem := sb_mem;
  oa_with_mem mem slab := slab <| sb_mem := mem |>;
  oa_size := sb_obj_size;
  oa_in_use := sb_in_use;
  oa_fresh := chunk_fresh;
  oa_full env slab live := size live = size (sb_mem slab) /\ chunk_refused env;
  oa_new slab v := v = zeros (sb_obj_size slab);
  oa_inv := slab_inv;
  oa_inv_sound := slab_sound;
  oa_alloc_law := slab_alloc_law;
  oa_free_law := slab_free_law;
  oa_write_law := slab_write_law
|}.

(** C14: A slab serves like a pool, and grows: in every history its objects keep
    their contents and never overlap, a new object is blank and not in use, and an
    allocation is refused only when all objects are live and the system gives no
    memory for another chunk. *)
Theorem slab_correct data obj_size chunk_count : 0 <= obj_size -> 0 < chunk_count < 2 ^ 32 ->
  obj_size + 8 <= 2 ^ 64 -> round_size obj_size * chunk_count < 2 ^ 64 -> block data (round_size obj_size * chunk_count) ->
  exists slab, nxp_slab_create true (ChunkEnv true (Some data)) obj_size chunk_count = Done (Some slab) /\
    obj_size <= sb_obj_size slab /\ sb_total_alloc slab = chunk_count /\
    forall slab' live, rtc obj_step (slab, ∅) (slab', live) -> serves slab' live /\
      forall env, chunk_fresh env slab' -> chunk_refused env \/ exists p slab'', nxp_slab_alloc env slab' = Done (Some p, slab'').
Proof.
  intros H0 Hc Hs Hmax Hb. destruct (round_size_spec obj_size H0 Hs) as (Hr & Hge & _). unfold nxp_slab_create.
  destruct (Z.eqb_spec chunk_count 0) as [-> | _]; [lia |]. cbn [negb]. set (slab0 := Slab ∅ [] None (round_size obj_size) chunk_count 0 0).
  assert (slab_inv slab0 ∅) as Hinv0.
  { split; cbn; try done; [exists []; apply fl_empty | lia | lia |].
    intros p q [v Hv]. by rewrite lookup_empty in Hv. }
  destruct (slab_grow_spec (ChunkEnv true (Some data)) slab0 ∅ Hinv0) as (slab & -> & Hinv & _ & Hsz & _ & Hn).
  - intros d [= <-]. split; [done |]. intros p [v Hv]. change ((∅ : gmap Z (list Z)) !! p = Some v) in Hv.
    by rewrite lookup_empty in Hv.
  - intros [? | ?]; done.
  - exists slab. cbn [obind]. rewrite Hsz. split_and!; [done | done | |].
    { rewrite (si_total _ _ Hinv), Hn. apply u32_small. cbn. lia. }
    intros slab' live Hrun. pose proof (history_serves _ _ _ Hinv Hrun) as Hsv. split; [done |].
    intros env He. destruct (sv_alloc _ _ Hsv env He) as [[[_ ?] _] | (p & v & slab'' & ? & _)]; [by left | right; by exists p, slab''].
Qed.

Lemma slab_correct_witness : exists slab, nxp_slab_create true (ChunkEnv true (Some 4096)) 20 3 = Done (Some slab) /\
  sb_total_alloc slab = 3.
Proof.
  destruct (slab_correct 4096 20 3) as (slab & Hc & _ & Ht & _).
  1-4: by_compute.
  - split; by_compute.
  - by exists slab.
Defined.

(** ** The pool of packet buffers is an allocator *)

#[export] Instance packet_node : FreeNode nxp_packet_buf := {| node_ok n _ := n = SIZEOF_PACKET_BUF; node_next := pb_next |}.

Record packet_inv (pool : nxp_packet_pool) (live : gmap Z nxp_packet_buf) : Prop := PacketInv {
  ki_list : exists l, fl_inv SIZEOF_PACKET_BUF (pp_mem pool) (pp_free_list pool) live l;
  ki_spaced : spaced SIZEOF_PACKET_BUF (pp_mem pool);
  ki_count : pp_free_count pool = u32 (pp_capacity pool - Z.of_nat (size live));
  ki_capacity : Z.of_nat (size (pp_mem pool)) = pp_capacity pool
}.

Lemma packet_inv_update pool mem live live' head k l : packet_inv pool live -> dom mem = dom (pp_mem pool) ->
  fl_inv SIZEOF_PACKET_BUF mem head live' l -> k = u32 (pp_capacity pool - Z.of_nat (size live')) ->
  packet_inv (pool <| pp_mem := mem |> <| pp_free_list := head |> <| pp_free_count := k |>) live'.
Proof.
  intros [_ Hsp _ Hc] Hd Hl Hk. split; cbn; [eauto | by eapply spaced_dom | done |].
  by rewrite (size_same_dom (pp_mem pool)).
Qed.

Definition packet_blank (buf : nxp_packet_buf) : Prop :=
  pb_next buf = None /\ pb_len buf = 0 /\ pb_timestamp_us buf = 0 /\ pb_addr buf = zeros 28.

Lemma packet_get_law pool live : packet_inv pool live ->
  (size live = size (pp_mem pool) /\ nxp_packet_pool_get pool = Done (None, pool)) \/
  (exists p v pool', nxp_packet_pool_get pool = Done (Some p, pool') /\ live !! p = None /\ size live <> size (pp_mem pool) /\
     packet_blank v /\ packet_inv pool' (<[p := v]> live)).
Proof.
  intros Hinv. destruct (ki_list _ _ Hinv) as [l Hl]. unfold nxp_packet_pool_get. pose proof (fl_size _ _ _ _ _ Hl) as Hsz.
  destruct (pp_free_list pool) as [p |] eqn:Hh.
  - right. destruct (fl_pop _ _ _ _ _ Hl) as (v & l' & Hv & Hp & -> & Hpop). rewrite Hv.
    set (buf := v <| pb_next := None |> <| pb_len := 0 |> <| pb_timestamp_us := 0 |> <| pb_addr := zeros 28 |>).
    eexists p, buf, _. split_and!; [done | done | simpl in Hsz; lia | done |].
    apply (packet_inv_update pool (<[p := buf]> (pp_mem pool)) live _ (pb_next v)
      (u32 (pp_free_count pool - 1)) l' Hinv); [| by apply Hpop |].
    + apply dom_insert_old. eauto.
    + rewrite size_insert_new, (ki_count _ _ Hinv) by done. unfold Z.sub at 1. rewrite u32_add_l. f_equal. lia.
  - left. destruct Hl as [Hc _ _ _ _]. destruct l; [| by destruct Hc]. split; [simpl in Hsz; lia | done].
Qed.

Lemma links_packet_next : links (fun free_list (b : nxp_packet_buf) => b <| pb_next := free_list |>).
Proof. by intros n p v Hn _. Qed.

Lemma links_packet_init : links (fun free_list (b : nxp_packet_buf) => b <| pb_next := free_list |> <| pb_len := 0 |>).
Proof. by intros n p v Hn _. Qed.

Lemma packet_put_law pool live p : packet_inv pool live -> is_Some (live !! p) ->
  exists pool', nxp_packet_pool_put pool p = Done pool' /\ packet_inv pool' (delete p live).
Proof.
  intros Hinv Hp. destruct (ki_list _ _ Hinv) as [l Hl]. unfold nxp_packet_pool_put.
  assert ((p =? 0) = false) as ->.
  { destruct Hp as [v Hv]. destruct (fi_cover _ _ _ _ _ Hl p v) as [[? ?] _]; [| apply Z.eqb_neq; lia].
    eapply lookup_weaken; [done | apply Hl]. }
  destruct (fl_push _ links_packet_next _ _ _ _ _ _ Hl Hp) as (mem & -> & Hd & Hl'). cbn [obind].
  eexists. split; [done |]. eapply (packet_inv_update pool mem live); [done | done | done |].
  rewrite size_delete_old, (ki_count _ _ Hinv), u32_add_l by done. f_equal. lia.
Qed.

Lemma packet_write_law pool live p v : packet_inv pool live -> is_Some (live !! p) -> node_ok SIZEOF_PACKET_BUF v ->
  packet_inv (pool <| pp_mem := <[p := v]> (pp_mem pool) |>) (<[p := v]> live).
Proof.
  intros Hinv Hp Hv. destruct (ki_list _ _ Hinv) as [l Hl].
  apply (packet_inv_update pool (<[p := v]> (pp_mem pool)) live _ (pp_free_list pool) (pp_free_count pool) l Hinv).
  - apply dom_insert_old. destruct Hp as [w Hw]. exists w. eapply lookup_weaken, Hl. done.
  - by apply fl_write.
  - rewrite size_insert_old by done. apply Hinv.
Qed.

Lemma packet_sound pool live : packet_inv pool live -> live ⊆ pp_mem pool /\ spaced SIZEOF_PACKET_BUF (pp_mem pool) /\
  u32 (pp_capacity pool - pp_free_count pool) = u32 (Z.of_nat (size live)).
Proof.
  intros [[l Hl] Hs Hc _]. split_and!; [apply Hl | done |]. rewrite Hc. unfold u32. rewrite Zminus_mod_idemp_r. f_equal. lia.
Qed.

#[export] Instance packet_allocator : ObjectAllocator nxp_packet_pool nxp_packet_buf unit := {|
  oa_alloc _ := nxp_packet_pool_get;
  oa_free := nxp_packet_pool_put;
  oa_mem := pp_mem;
  oa_with_mem mem pool := pool <| pp_mem := mem |>;
  oa_size _ := SIZEOF_PACKET_BUF;
  oa_in_use pool := u32 (pp_capacity pool - pp_free_count pool);
  oa_fresh _ _ := True;
  oa_full _ pool live := size live = size (pp_mem pool);
  oa_new _ := packet_blank;
  oa_inv := packet_inv;
  oa_inv_sound := packet_sound;
  oa_alloc_law _ pool live Hinv _ := packet_get_law pool live Hinv;
  oa_free_law := packet_put_law;
  oa_write_law := packet_write_law
|}.

Lemma packet_alloc_size capacity : 0 <= capacity < 2 ^ 32 ->
  u64 (u64 (capacity * SIZEOF_PACKET_BUF) + 63) &&& (UINT64_MAX - 63) = u64 (SIZEOF_PACKET_BUF * capacity).
Proof.
  intros Hc. unfold SIZEOF_PACKET_BUF. rewrite (u64_small (capacity * 1600)), (u64_small (1600 * capacity)), u64_small by lia.
  change 63 with (2 ^ 6 - 1) at 2. rewrite land_high by lia. change (2 ^ 6) with 64.
  replace (capacity * 1600 + 63) with (63 + (25 * capacity) * 64) by lia. rewrite Z.div_add by lia. change (63 / 64) with 0. lia.
Qed.

(** The pool of packet buffers serves: a buffer that was handed out is left
    alone until it is put back, a new one has no length, time or address, and the
    pool is exhausted exactly when all buffers are in use. *)
Theorem packet_pool_correct base capacity : 0 < capacity < 2 ^ 32 -> block base (SIZEOF_PACKET_BUF * capacity) ->
  exists pool, nxp_packet_pool_create true (Some base) capacity = Done (Some pool) /\
    forall pool' live, rtc obj_step (pool, ∅) (pool', live) -> serves pool' live.
Proof.
  intros Hc Hb. unfold nxp_packet_pool_create. destruct (Z.eqb_spec capacity 0) as [-> | _]; [lia |]. cbn [negb].
  rewrite packet_alloc_size by lia. set (n := SIZEOF_PACKET_BUF) in *.
  assert (0 < n) by by_compute. assert (n * capacity < 2 ^ 64) by (unfold n, SIZEOF_PACKET_BUF; lia).
  destruct (fl_grow _ links_packet_init n ∅ None ∅ [] (carve packet_zero base n (u64 (n * capacity))) (slots_down base n capacity))
    as (mem & head & Hg & Hd & Hl);
    [apply fl_empty | apply map_disjoint_empty_l | | apply slots_nodup; lia | intros p; apply slots_exact; lia |].
  { intros p v Hv. apply carve_in in Hv as (-> & ? & _); [done | lia.. | done]. }
  rewrite (left_id_L ∅ (∪)) in Hg. rewrite Hg. cbn [obind]. eexists. split; [done |].
  rewrite dom_empty_L, (left_id_L ∅ (∪)) in Hd. intros pool' live. apply history_serves. split; cbn.
  - eauto.
  - eapply spaced_dom; [done |]. by apply spaced_carve.
  - rewrite map_size_empty, u32_small; cbn; lia.
  - rewrite (size_same_dom _ _ Hd), size_carve by lia. lia.
Qed.

Lemma packet_pool_correct_witness : exists pool, nxp_packet_pool_create true (Some 4096) 3 = Done (Some pool).
Proof.
  destruct (packet_pool_correct 4096 3) as (pool & Hc & _); [by_compute | split; by_compute |]. by exists pool.
Defined.
