(* ===== verification/Arena.v ===== *)
(** * Arena allocator (src/src/memory/arena.c)

    Memory of any size and alignment is taken from the current block by moving its
    [used] mark; when it does not fit a new block becomes the current one.  A block
    is known by the address [malloc] gave it; its data follows a header of 32 bytes. *)

From stdpp Require Import relations.
From S2P Require Import Prelude FreeList.

Definition NXP_ARENA_DEFAULT_BLOCK_SIZE : Z := 64 * 1024.
Definition BLOCK_HEADER : Z := 32.

Record nxp_arena_block := ArenaBlock {
  ab_addr : Z;
  ab_capacity : Z;
  ab_used : Z
}.
#[export] Instance eta_arena_block : Eta nxp_arena_block := fun b => ArenaBlock (ab_addr b) (ab_capacity b) (ab_used b).

Record nxp_arena := Arena {
  ar_current : Z;
  ar_blocks : list nxp_arena_block;
  ar_block_size : Z;
  ar_total_allocated : Z;
  ar_total_used : Z
}.
#[export] Instance eta_arena : Eta nxp_arena := fun a =>
  Arena (ar_current a) (ar_blocks a) (ar_block_size a) (ar_total_allocated a) (ar_total_used a).

Definition ab_data (b : nxp_arena_block) : Z := ab_addr b + BLOCK_HEADER.

(** [mem] is the address that [malloc] returns for the header and [capacity] bytes;
    a block in which the header does not fit is written out of bounds. *)
Definition arena_block_new (mem : option Z) (capacity : Z) : outcome unit (option nxp_arena_block) :=
  match mem with
  | None => Done None
  | Some addr => if u64 (BLOCK_HEADER + capacity) <? BLOCK_HEADER then Ub else Done (Some (ArenaBlock addr capacity 0))
  end.

Definition nxp_arena_create (arena_ok : bool) (mem : option Z) (block_size : Z) : outcome unit (option nxp_arena) :=
  let block_size := if block_size =? 0 then NXP_ARENA_DEFAULT_BLOCK_SIZE else block_size in
  if negb arena_ok then Done None else
  let! first := arena_block_new mem block_size in
  match first with
  | None => Done None
  | Some first => Done (Some (Arena (ab_addr first) [first] block_size block_size 0))
  end.

Definition find_block (addr : Z) (blocks : list nxp_arena_block) : option nxp_arena_block :=
  List.find (fun b => ab_addr b =? addr) blocks.

Definition set_used (addr used : Z) (blocks : list nxp_arena_block) : list nxp_arena_block :=
  (fun b => if ab_addr b =? addr then b <| ab_used := used |> else b) <$> blocks.

(** The second half: the request opens a new block. *)
Definition arena_alloc_new (mem : option Z) (arena : nxp_arena) (size align : Z) : outcome unit (option Z * nxp_arena) :=
  let needed := u64 (align_up 0 align + size) in
  let new_cap := if needed >? ar_block_size arena then needed else ar_block_size arena in
  let! new_block := arena_block_new mem new_cap in
  match new_block with
  | None => Done (None, arena)
  | Some new_block =>
      let off := align_up 0 align in
      let used := u64 (off + size) in
      Done (Some (ab_data new_block + off),
            arena <| ar_blocks := new_block <| ab_used := used |> :: ar_blocks arena |>
                  <| ar_current := ab_addr new_block |>
                  <| ar_total_allocated := u64 (ar_total_allocated arena + new_cap) |>
                  <| ar_total_used := u64 (ar_total_used arena + used) |>)
  end.

Definition nxp_arena_alloc (mem : option Z) (arena : nxp_arena) (size align : Z) : outcome unit (option Z * nxp_arena) :=
  if size =? 0 then Done (None, arena) else
  match find_block (ar_current arena) (ar_blocks arena) with
  | None => Ub
  | Some block =>
      let aligned_offset := align_up (ab_used block) align in
      if u64 (aligned_offset + size) <=? ab_capacity block then
        let ptr := ab_data block + aligned_offset in
        let used := u64 (aligned_offset + size) in
        Done (Some ptr, arena <| ar_blocks := set_used (ab_addr block) used (ar_blocks arena) |>
                              <| ar_total_used := u64 (ar_total_used arena + u64 (aligned_offset - used + size)) |>)
      else arena_alloc_new mem arena size align
  end.

Definition nxp_arena_reset (arena : nxp_arena) : outcome unit nxp_arena :=
  match ar_blocks arena with
  | [] => Done (arena <| ar_current := 0 |> <| ar_total_used := 0 |>)
  | first :: _ =>
      Done (arena <| ar_blocks := (fun b => b <| ab_used := 0 |>) <$> ar_blocks arena |>
                  <| ar_current := ab_addr first |> <| ar_total_used := 0 |>)
  end.

(** ** Invariant *)

(** Largest sizes for which no sum wraps around. *)
Definition ARENA_MAX : Z := 2 ^ 62.

(** Two regions [(address, bytes)] do not overlap. *)
Definition apart (r s : Z * Z) : Prop := r.1 + r.2 <= s.1 \/ s.1 + s.2 <= r.1.

Definition region (b : nxp_arena_block) : Z * Z := (ab_addr b, BLOCK_HEADER + ab_capacity b).

Record block_ok (b : nxp_arena_block) : Prop := BlockOk {
  bo_used : 0 <= ab_used b <= ab_capacity b;
  bo_cap : ab_capacity b <= ARENA_MAX;
  bo_aligned : ab_addr b mod 16 = 0
}.

(** The memory [r] handed out lies below the mark of a block. *)
Definition inside (blocks : list nxp_arena_block) (r : Z * Z) : Prop :=
  exists b, b ∈ blocks /\ ab_data b <= r.1 /\ r.1 + r.2 <= ab_data b + ab_used b.

Record arena_inv (arena : nxp_arena) (live : list (Z * Z)) : Prop := ArenaInv {
  ai_current : exists b bs, ar_blocks arena = b :: bs /\ ar_current arena = ab_addr b;
  ai_blocks : Forall block_ok (ar_blocks arena);
  ai_apart : ForallOrdPairs apart (region <$> ar_blocks arena);
  ai_size : 0 < ar_block_size arena <= ARENA_MAX;
  ai_live : Forall (inside (ar_blocks arena)) live;
  ai_disjoint : ForallOrdPairs apart live;
  ai_total : ar_total_allocated arena = u64 (foldr Z.add 0 (ab_capacity <$> ar_blocks arena))
}.

(** What [malloc] promises for a block of [bytes] bytes. *)
Definition malloc_fresh (mem : option Z) (arena : nxp_arena) (bytes : Z) : Prop :=
  forall addr, mem = Some addr -> addr mod 16 = 0 /\ 0 < addr /\ Forall (apart (addr, bytes)) (region <$> ar_blocks arena).

(** The size of a block opened for a request. *)
Definition new_bytes (arena : nxp_arena) (size : Z) : Z := BLOCK_HEADER + Z.max size (ar_block_size arena).

Definition request (size k : Z) : Prop := 0 < size <= ARENA_MAX /\ 0 <= k <= 61.

Lemma apart_sym r s : apart r s -> apart s r.
Proof. unfold apart. tauto. Qed.

Lemma align_up_0 k : 0 <= k <= 61 -> align_up 0 (2 ^ k) = 0.
Proof.
  intros Hk. assert (2 ^ k <= 2 ^ 61) by (apply Z.pow_le_mono_r; lia).
  destruct (align_up_spec 0 k) as [Hr Hm]; [lia.. |].
  rewrite Z.mod_small in Hm by lia. done.
Qed.

(** ** The blocks *)

Lemma head_apart b bs b' : ForallOrdPairs apart (region <$> b :: bs) -> b' ∈ bs -> apart (region b) (region b').
Proof.
  intros Hp Hb. inversion Hp as [| ? ? Hf _]; subst. rewrite list.Forall_forall in Hf. apply Hf. by apply list_elem_of_fmap_2.
Qed.

Lemma blocks_distinct b bs : Forall block_ok (b :: bs) -> ForallOrdPairs apart (region <$> b :: bs) ->
  Forall (fun b' => ab_addr b' <> ab_addr b) bs.
Proof.
  intros Hok Hp. rewrite list.Forall_forall in Hok. apply list.Forall_forall. intros b' Hb.
  pose proof (head_apart b bs b' Hp Hb) as Ha.
  pose proof (bo_used _ (Hok b' ltac:(by right))). pose proof (bo_used _ (Hok b ltac:(by left))).
  unfold apart, region, BLOCK_HEADER in Ha. cbn in Ha. lia.
Qed.

Lemma set_used_head b bs used : Forall (fun b' => ab_addr b' <> ab_addr b) bs ->
  set_used (ab_addr b) used (b :: bs) = b <| ab_used := used |> :: bs.
Proof.
  intros Hne. unfold set_used. cbn [fmap list_fmap]. rewrite Z.eqb_refl. f_equal.
  rewrite <- (list_fmap_id bs) at 2. apply list_fmap_ext. intros i b' Hb. apply list_elem_of_lookup_2 in Hb.
  rewrite list.Forall_forall in Hne. by rewrite (proj2 (Z.eqb_neq _ _) (Hne b' Hb)).
Qed.

(** A request served from the current block. *)
Lemma arena_take mem arena b bs size align : size <> 0 -> ar_blocks arena = b :: bs -> ar_current arena = ab_addr b ->
  Forall (fun b' => ab_addr b' <> ab_addr b) bs -> u64 (align_up (ab_used b) align + size) <= ab_capacity b ->
  exists arena', nxp_arena_alloc mem arena size align = Done (Some (ab_data b + align_up (ab_used b) align), arena') /\
    ar_blocks arena' = b <| ab_used := u64 (align_up (ab_used b) align + size) |> :: bs /\
    ar_current arena' = ab_addr b /\ ar_block_size arena' = ar_block_size arena /\
    ar_total_allocated arena' = ar_total_allocated arena.
Proof.
  intros Hs Hbs Hcur Hne Hfit. unfold nxp_arena_alloc. rewrite (proj2 (Z.eqb_neq _ _) Hs), Hbs, Hcur. unfold find_block.
  cbn [List.find]. rewrite Z.eqb_refl, (proj2 (Z.leb_le _ _) Hfit), set_used_head by done. by eexists.
Qed.

(** Moving the mark of the first block forward hands out the memory between. *)
Lemma arena_extend b bs live used p size : Forall block_ok (b :: bs) -> ForallOrdPairs apart (region <$> b :: bs) ->
  Forall (inside (b :: bs)) live -> ForallOrdPairs apart live -> 0 < size ->
  ab_data b + ab_used b <= p -> p + size = ab_data b + used -> used <= ab_capacity b ->
  Forall block_ok (b <| ab_used := used |> :: bs) /\ Forall (inside (b <| ab_used := used |> :: bs)) ((p, size) :: live) /\
  ForallOrdPairs apart ((p, size) :: live).
Proof.
  intros Hok Hp Hin Hd Hs Hlo Hhi Hcap. inversion Hok as [| ? ? [Hu Hc Ha] Hoks]; subst. split_and!.
  - constructor; [| done]. split; cbn; [lia | done | done].
  - constructor.
    + eexists. split; [by left |]. unfold ab_data in *. cbn. lia.
    + eapply list.Forall_impl; [done |]. intros r (b' & Hb' & Hr). apply elem_of_cons in Hb' as [-> | Hb'].
      * eexists. split; [by left |]. unfold ab_data in *. cbn. lia.
      * exists b'. split; [by right | done].
  - constructor; [| done]. rewrite list.Forall_forall in Hin. rewrite list.Forall_forall in Hoks. apply list.Forall_forall. intros r Hr. destruct (Hin r Hr) as (b' & Hb' & Hr').
    apply elem_of_cons in Hb' as [-> | Hb']; [right; cbn; unfold ab_data in *; lia |].
    pose proof (head_apart b bs b' Hp Hb') as Hab. pose proof (bo_used _ (Hoks b' Hb')).
    unfold apart, region, ab_data, BLOCK_HEADER in *. cbn in *. lia.
Qed.

(** ** Allocation *)

Lemma aligned_sum a b j k : 0 <= j <= k -> a mod 2 ^ j = 0 -> b mod 2 ^ k = 0 -> (a + b) mod 2 ^ j = 0.
Proof.
  intros Hj Ha Hb. assert (0 < 2 ^ j) by (apply Z.pow_pos_nonneg; lia).
  rewrite Z.add_mod, Ha by lia. rewrite Z.add_0_l, Z.mod_mod by lia.
  rewrite <- (Z.mod_mod_divide b (2 ^ k)), Hb by (exists (2 ^ (k - j)); rewrite <- Z.pow_add_r by lia; f_equal; lia).
  apply Z.mod_0_l. lia.
Qed.

(** Addresses are aligned as requested, up to the 16 bytes that [malloc] gives. *)
Lemma data_aligned b off k : block_ok b -> 0 <= k -> off mod 2 ^ k = 0 -> (ab_data b + off) mod 2 ^ Z.min k 4 = 0.
Proof.
  intros [_ _ Ha] Hk Ho. apply (aligned_sum _ _ _ k); [lia | | done]. unfold ab_data.
  apply (aligned_sum _ _ _ 4); [lia | | done]. replace (ab_addr b) with (0 + ab_addr b) by lia.
  apply (aligned_sum _ _ _ 4); [lia | | done]. by apply Z.mod_0_l, Z.pow_nonzero; lia.
Qed.

Lemma arena_new_spec mem arena live size k : arena_inv arena live -> request size k ->
  malloc_fresh mem arena (new_bytes arena size) ->
  (mem = None /\ arena_alloc_new mem arena size (2 ^ k) = Done (None, arena)) \/
  (exists p arena', arena_alloc_new mem arena size (2 ^ k) = Done (Some p, arena') /\ p mod 2 ^ Z.min k 4 = 0 /\
     arena_inv arena' ((p, size) :: live)).
Proof.
  intros Hinv [Hs Hk] Hm. unfold arena_alloc_new. rewrite align_up_0, Z.add_0_l by done.
  pose proof (ai_size _ _ Hinv) as Hbs. unfold ARENA_MAX in *. rewrite (u64_small size) by lia.
  destruct mem as [addr |]; [right | by left]. destruct (Hm addr eq_refl) as (Hal & Hpos & Hap). unfold new_bytes in Hap.
  set (cap := if size >? ar_block_size arena then size else ar_block_size arena).
  assert (cap = Z.max size (ar_block_size arena)) as Hcap by (subst cap; rewrite Z.gtb_ltb; destruct (Z.ltb_spec (ar_block_size arena) size); lia).
  unfold arena_block_new, BLOCK_HEADER in *. rewrite u64_small by lia. destruct (Z.ltb_spec (32 + cap) 32); [lia |]. cbn [obind].
  set (b := ArenaBlock addr cap 0).
  assert (block_ok b) as Hb by (split; cbn; unfold ARENA_MAX; [lia | lia | done]).
  eexists _, _. split; [done |]. split; [apply data_aligned; [done | lia | apply Z.mod_0_l, Z.pow_nonzero; lia] |].
  destruct Hinv as [_ Hbl Hpairs _ Hl Hd Ht].
  assert (ForallOrdPairs apart (region <$> b :: ar_blocks arena)) as Hpairs'.
  { cbn [fmap list_fmap]. constructor; [| done]. unfold region at 1, BLOCK_HEADER. cbn [ab_addr ab_capacity b]. by rewrite Hcap. }
  destruct (arena_extend b (ar_blocks arena) live size (ab_data b + 0) size) as (Hx & Hy & Hz);
    [by constructor | done | | done | lia | cbn; lia | lia | cbn; lia |].
  { eapply list.Forall_impl; [done |]. intros r (b' & ? & ?). exists b'. split; [by right | done]. }
  rewrite Z.add_0_r in *. split.
  - by eexists _, _.
  - exact Hx.
  - exact Hpairs'.
  - unfold ARENA_MAX. cbn. lia.
  - exact Hy.
  - exact Hz.
  - cbn. rewrite Ht. unfold u64. rewrite Zplus_mod_idemp_l. f_equal. lia.
Qed.

Lemma arena_alloc_spec mem arena live size k : arena_inv arena live -> request size k ->
  malloc_fresh mem arena (new_bytes arena size) ->
  (mem = None /\ nxp_arena_alloc mem arena size (2 ^ k) = Done (None, arena)) \/
  (exists p arena', nxp_arena_alloc mem arena size (2 ^ k) = Done (Some p, arena') /\ p mod 2 ^ Z.min k 4 = 0 /\
     arena_inv arena' ((p, size) :: live)).
Proof.
  intros Hinv Hreq Hm. pose proof (arena_new_spec mem arena live size k Hinv Hreq Hm) as Hnew.
  destruct Hreq as [Hs Hk]. destruct (ai_current _ _ Hinv) as (b & bs & Hbs & Hcur).
  destruct Hinv as [_ Hbl Hpairs Hsize Hl Hd Ht]. rewrite Hbs in *. inversion Hbl as [| ? ? Hb _]; subst.
  assert (2 ^ k <= 2 ^ 61) by (apply Z.pow_le_mono_r; lia). unfold ARENA_MAX in *. pose proof (bo_used _ Hb) as Hu.
  pose proof (bo_cap _ Hb) as Hc. unfold ARENA_MAX in Hc. destruct (align_up_spec (ab_used b) k) as [Hoff Hal]; [lia.. |].
  destruct (Z.leb_spec (align_up (ab_used b) (2 ^ k) + size) (ab_capacity b)).
  - right. destruct (arena_take mem arena b bs size (2 ^ k)) as (arena' & Ha & Hbs' & Hcur' & Hz' & Ht');
      [lia | done | done | by apply blocks_distinct | rewrite u64_small by lia; lia |].
    eexists _, arena'. split; [done |]. split; [by apply data_aligned; [| lia |] |]. rewrite u64_small in Hbs' by lia.
    destruct (arena_extend b bs live (align_up (ab_used b) (2 ^ k) + size) (ab_data b + align_up (ab_used b) (2 ^ k)) size Hbl Hpairs Hl Hd) as (Hx & Hy & Hdis);
      [lia.. |]. split; rewrite ?Hbs', ?Hz', ?Ht'; [by eexists _, _ | exact Hx | exact Hpairs | exact Hsize | exact Hy | exact Hdis | exact Ht].
  - unfold nxp_arena_alloc. rewrite (proj2 (Z.eqb_neq size 0)), Hcur, Hbs by lia. unfold find_block. cbn [List.find].
    rewrite Z.eqb_refl, u64_small, (proj2 (Z.leb_gt _ _)) by lia. exact Hnew.
Qed.

Lemma arena_reset_spec arena live : arena_inv arena live -> exists arena', nxp_arena_reset arena = Done arena' /\
  arena_inv arena' [] /\ ar_total_used arena' = 0.
Proof.
  intros [(b & bs & Hbs & Hcur) Hbl Hpairs Hsize _ _ Ht]. unfold nxp_arena_reset. rewrite Hbs in *.
  set (clear b := b <| ab_used := 0 |> : nxp_arena_block). eexists. split; [done |]. split; [| done]. split.
  - by eexists _, _.
  - cbn [ar_blocks]. apply Forall_fmap. eapply list.Forall_impl; [exact Hbl |]. intros b' [? ? ?]. split; cbn; [lia | done | done].
  - change (ForallOrdPairs apart (region <$> (clear <$> b :: bs))). rewrite <- list_fmap_compose. exact Hpairs.
  - exact Hsize.
  - constructor.
  - constructor.
  - change (ar_total_allocated arena = u64 (foldr Z.add 0 (ab_capacity <$> (clear <$> b :: bs)))).
    rewrite <- list_fmap_compose. exact Ht.
Qed.

(** ** Histories *)

(** Requests within the bounds of [request], in any order, with [malloc] failing or
    returning memory that nobody else uses; a reset takes everything back. *)
Inductive arena_step : nxp_arena * list (Z * Z) -> nxp_arena * list (Z * Z) -> Prop :=
| arena_step_alloc mem arena live size k r arena' : request size k -> malloc_fresh mem arena (new_bytes arena size) ->
    nxp_arena_alloc mem arena size (2 ^ k) = Done (r, arena') ->
    arena_step (arena, live) (arena', match r with Some p => (p, size) :: live | None => live end)
| arena_step_reset arena live arena' : nxp_arena_reset arena = Done arena' -> arena_step (arena, live) (arena', []).

Lemma arena_history st st' : rtc arena_step st st' -> arena_inv st.1 st.2 -> arena_inv st'.1 st'.2.
Proof.
  induction 1 as [| x y z Hs _ IH]; [done |]. intros Hx. apply IH. clear IH z.
  destruct Hs as [mem arena live size k r arena' Hreq Hm Ha | arena live arena' Ha]; cbn [fst snd] in *.
  - destruct (arena_alloc_spec mem arena live size k Hx Hreq Hm) as [[_ Ha'] | (p & a & Ha' & _ & Hi)];
      rewrite Ha in Ha'; by simplify_eq.
  - destruct (arena_reset_spec arena live Hx) as (a & Ha' & Hi & _). rewrite Ha in Ha'. by simplify_eq.
Qed.

Lemma arena_created addr block_size : 0 <= block_size <= ARENA_MAX -> addr mod 16 = 0 ->
  exists arena, nxp_arena_create true (Some addr) block_size = Done (Some arena) /\ arena_inv arena [].
Proof.
  intros Hb Ha. unfold nxp_arena_create, arena_block_new. unfold ARENA_MAX, BLOCK_HEADER in *. cbn [negb].
  set (size := if block_size =? 0 then NXP_ARENA_DEFAULT_BLOCK_SIZE else block_size).
  assert (0 < size <= 2 ^ 62) as Hsz by (subst size; unfold NXP_ARENA_DEFAULT_BLOCK_SIZE; destruct (Z.eqb_spec block_size 0); lia).
  rewrite u64_small by lia. destruct (Z.ltb_spec (32 + size) 32); [lia |]. cbn [obind]. eexists. split; [done |]. split.
  - by eexists _, _.
  - constructor; [| constructor]. split; cbn; unfold ARENA_MAX; [lia | lia | done].
  - constructor; constructor.
  - cbn. unfold ARENA_MAX. lia.
  - constructor.
  - constructor.
  - cbn. rewrite u64_small; lia.
Qed.

(** C15: In every history of an arena with blocks and requests of at most 2^62 bytes
    and alignments that are powers of two up to 2^61, the memory it has handed out
    since the last reset consists of pairwise disjoint regions inside blocks it got
    from the system; every request that the system has memory for is served with an
    address aligned as requested, but at most to 16 bytes, and apart from what was
    handed out; a request that it has no memory for changes nothing. *)
Theorem arena_correct addr block_size : 0 <= block_size <= ARENA_MAX -> addr mod 16 = 0 ->
  exists arena, nxp_arena_create true (Some addr) block_size = Done (Some arena) /\
    forall arena' live, rtc arena_step (arena, []) (arena', live) ->
      ForallOrdPairs apart live /\
      Forall (fun r => exists b, b ∈ ar_blocks arena' /\ ab_data b <= r.1 /\ r.1 + r.2 <= ab_data b + ab_capacity b) live /\
      (exists arena'', nxp_arena_reset arena' = Done arena'') /\
      forall mem size k, request size k -> malloc_fresh mem arena' (new_bytes arena' size) ->
        (mem = None /\ nxp_arena_alloc mem arena' size (2 ^ k) = Done (None, arena')) \/
        exists p arena'', nxp_arena_alloc mem arena' size (2 ^ k) = Done (Some p, arena'') /\
          p mod 2 ^ Z.min k 4 = 0 /\ Forall (apart (p, size)) live.
Proof.
  intros Hb Ha. destruct (arena_created addr block_size Hb Ha) as (arena & Hc & Hinv). exists arena. split; [done |].
  intros arena' live Hr. pose proof (arena_history _ _ Hr Hinv) as Hi. cbn [fst snd] in Hi. split_and!.
  - apply Hi.
  - eapply list.Forall_impl; [apply Hi |]. intros r (b & Hbin & ? & ?). exists b. split; [done |].
    pose proof (ai_blocks _ _ Hi) as Hok. rewrite list.Forall_forall in Hok. pose proof (bo_used _ (Hok b Hbin)). lia.
  - destruct (arena_reset_spec _ _ Hi) as (a & ? & _). eauto.
  - intros mem size k Hreq Hm. destruct (arena_alloc_spec mem arena' live size k Hi Hreq Hm) as [? | (p & a & ? & ? & Hi')]; [by left | right].
    exists p, a. split_and!; [done | done |]. pose proof (ai_disjoint _ _ Hi') as Hd. by inversion Hd.
Qed.

(** Three requests; the last one opens a second block. *)
Definition small_arena : nxp_arena := Arena 4096 [ArenaBlock 4096 64 0] 64 64 0.
Definition small_live : list (Z * Z) := [(8224, 100); (4144, 40); (4128, 10)].

Lemma small_arena_history : exists arena', rtc arena_step (small_arena, []) (arena', small_live).
Proof.
  eexists. eapply rtc_l; [eapply (arena_step_alloc None _ _ 10 0) |].
  { split; by_compute. } { done. } { vm_compute. reflexivity. }
  eapply rtc_l; [eapply (arena_step_alloc None _ _ 40 4) |].
  { split; by_compute. } { done. } { vm_compute. reflexivity. }
  eapply rtc_l; [eapply (arena_step_alloc (Some 8192) _ _ 100 3) |].
  { split; by_compute. }
  { intros addr [= <-]. split; [done |]. split; [done |]. constructor; [right; by_compute | constructor]. }
  { vm_compute. reflexivity. }
  apply rtc_refl.
Qed.

Lemma arena_correct_witness : nxp_arena_create true (Some 4096) 64 = Done (Some small_arena) /\ exists arena',
  rtc arena_step (small_arena, []) (arena', small_live) /\ ForallOrdPairs apart small_live /\
  Forall (fun r => exists b, b ∈ ar_blocks arena' /\ ab_data b <= r.1 /\ r.1 + r.2 <= ab_data b + ab_capacity b) small_live.
Proof.
  destruct (arena_correct 4096 64) as (arena & Hc & Hall); [split; by_compute | by_compute |].
  assert (arena = small_arena) as -> by (vm_compute in Hc; by injection Hc as <-). split; [exact Hc |].
  destruct small_arena_history as (arena' & Hr). exists arena'. split; [exact Hr |].
  destruct (Hall arena' small_live Hr) as (H1 & H2 & _). split; [exact H1 | exact H2].
Defined.

(** ** Where it fails *)

(** A request close to 2^64 bytes is granted although the block has no room
    for it: the sum wraps around, the mark moves back, and the next request returns
    memory that was handed out before. *)
Theorem arena_wraps arena live b bs : arena_inv arena live -> ar_blocks arena = b :: bs ->
  ab_used b mod 16 = 0 -> 16 <= ab_used b ->
  exists arena1 arena2,
    nxp_arena_alloc None arena (2 ^ 64 - 16) 16 = Done (Some (ab_data b + ab_used b), arena1) /\
    nxp_arena_alloc None arena1 16 16 = Done (Some (ab_data b + ab_used b - 16), arena2).
Proof.
  intros Hinv Hbs Hal Hu. destruct (ai_current _ _ Hinv) as (b' & bs' & Hbs' & Hcur). rewrite Hbs in Hbs'. simplify_eq.
  destruct Hinv as [_ Hbl Hpairs _ _ _ _]. rewrite Hbs in *. inversion Hbl as [| ? ? Hb _]; subst.
  pose proof (bo_used _ Hb). pose proof (bo_cap _ Hb) as Hc. unfold ARENA_MAX in Hc.
  assert (forall u, u mod 16 = 0 -> 0 <= u <= 2 ^ 62 -> align_up u 16 = u) as Hexact.
  { intros u Hm Hr. change 16 with (2 ^ 4). destruct (align_up_spec u 4) as [? Ha]; [lia.. |]. change (2 ^ 4) with 16 in *.
    apply Z.mod_divide in Hm as [x ->]; [| lia]. apply Z.mod_divide in Ha as [y Hy]; [| lia]. lia. }
  assert (u64 (ab_used b' + (2 ^ 64 - 16)) = ab_used b' - 16) as Hw.
  { unfold u64. change 18446744073709551616 with (2 ^ 64).
    replace (ab_used b' + (2 ^ 64 - 16)) with (ab_used b' - 16 + 1 * 2 ^ 64) by lia. rewrite Z.mod_add, Z.mod_small; lia. }
  pose proof (blocks_distinct b' bs' Hbl Hpairs) as Hne. set (b1 := b' <| ab_used := ab_used b' - 16 |>).
  destruct (arena_take None arena b' bs' (2 ^ 64 - 16) 16) as (arena1 & Ha1 & Hbs1 & Hcur1 & _);
    [done | done | done | done | rewrite Hexact, Hw by (done || lia); lia |].
  rewrite Hexact in Ha1, Hbs1 by (done || lia). rewrite Hw in Hbs1. change (ar_blocks arena1 = b1 :: bs') in Hbs1.
  assert (align_up (ab_used b1) 16 = ab_used b' - 16) as H1 by (apply Hexact; cbn; [rewrite Zminus_mod, Hal; done | lia]).
  destruct (arena_take None arena1 b1 bs' 16 16) as (arena2 & Ha2 & _);
    [done | done | done | done | rewrite H1, u64_small by lia; cbn; lia |].
  exists arena1, arena2. split; [done |]. rewrite Ha2, H1. change (ab_data b1) with (ab_data b'). by rewrite Z.add_sub_assoc.
Qed.

(** Memory taken from the current block is not counted as used. *)
Lemma arena_total_used_frozen mem arena size align b : find_block (ar_current arena) (ar_blocks arena) = Some b ->
  0 <= ar_total_used arena < 2 ^ 64 -> 0 < size < 2 ^ 64 -> 0 <= align_up (ab_used b) align ->
  align_up (ab_used b) align + size <= ab_capacity b < 2 ^ 64 ->
  exists p arena', nxp_arena_alloc mem arena size align = Done (Some p, arena') /\ ar_total_used arena' = ar_total_used arena.
Proof.
  intros Hf Ht Hs Ho Hc. unfold nxp_arena_alloc. destruct (Z.eqb_spec size 0); [lia |]. rewrite Hf.
  rewrite (u64_small (_ + size)) by lia. destruct (Z.leb_spec (align_up (ab_used b) align + size) (ab_capacity b)); [| lia].
  eexists _, _. split; [done |]. cbn. replace (align_up (ab_used b) align - (align_up (ab_used b) align + size) + size) with 0 by lia.
  rewrite Z.add_0_r. apply u64_small. lia.
Qed.

Definition sample_arena : nxp_arena := Arena 4096 [ArenaBlock 4096 256 64] 256 256 64.

Lemma sample_arena_ok : arena_inv sample_arena [(4128, 64)].
Proof.
  split.
  - by eexists _, _.
  - constructor; [split; vm_compute; intuition discriminate | constructor].
  - constructor; constructor.
  - split; by_compute.
  - constructor; [| constructor]. exists (ArenaBlock 4096 256 64). split; [by left |]. vm_compute. intuition discriminate.
  - constructor; constructor.
  - reflexivity.
Qed.

Lemma arena_wraps_witness : exists arena1 arena2,
  nxp_arena_alloc None sample_arena (2 ^ 64 - 16) 16 = Done (Some 4192, arena1) /\
  nxp_arena_alloc None arena1 16 16 = Done (Some 4176, arena2).
Proof.
  destruct (arena_wraps sample_arena [(4128, 64)] (ArenaBlock 4096 256 64) [] sample_arena_ok) as (a1 & a2 & H1 & H2);
    [reflexivity | reflexivity | by_compute |]. exists a1, a2. by split.
Defined.
