(* ===== verification/TcpTransport.v ===== *)
(** * The TCP transport (src/src/transport/tcp/transport_tcp.c)

    TCP carries a stream of bytes, so every datagram of the protocol is framed
    with its length in two bytes.  The receiver accumulates bytes in a buffer and
    returns at most one datagram per call.  The socket is outside the model: what
    its [send] and [recv] return are arguments.  However the stream is cut, the
    datagrams that come out are a prefix of those that went in; two lengths that
    the sender accepts block the receiver for good. *)

From S2P Require Import Prelude FramedStream.

Definition TCP_BUF_SIZE : Z := 65536.

Record tcp_transport := TcpTransport {
  tc_recv_buf : list Z;
  tc_recv_pos : Z;
  tc_send_buf : list Z
}.
#[export] Instance eta_tcp : Eta tcp_transport := fun t =>
  TcpTransport (tc_recv_buf t) (tc_recv_pos t) (tc_send_buf t).

Definition tcp_new : tcp_transport :=
  TcpTransport (replicate (Z.to_nat TCP_BUF_SIZE) 0) 0 (replicate (Z.to_nat (TCP_BUF_SIZE + 2)) 0).

(** The result, the transport, and what was handed to the socket; [os_send] is
    the number of bytes the socket takes, or -1. *)
Definition tcp_send (os_send : list Z -> Z) (tc : tcp_transport) (data : list Z)
  : outcome unit (Z * tcp_transport * list Z) :=
  let len := zlen data in
  if len >? 65535 then Done (-1, tc, []) else
  let! buf := wr (tc_send_buf tc) 0 (u8 (len >>> 8)) in
  let! buf := wr buf 1 (u8 len) in
  let! buf := memcpy buf 2 data len in
  let tc := tc <| tc_send_buf := buf |> in
  let! frame := sub_buf buf 0 (len + 2) in
  let sent := os_send frame in
  let wire := ztake sent frame in
  if sent <=? 2 then Done (-1, tc, wire) else Done (sent - 2, tc, wire).

(** Return the first datagram of the buffer, when it is complete, in a buffer of
    [cap] bytes. *)
Definition tcp_extract (tc : tcp_transport) (cap : Z) : outcome unit (Z * list Z * tcp_transport) :=
  if tc_recv_pos tc <? 2 then Done (0, [], tc) else
  let! hi := rd (tc_recv_buf tc) 0 in
  let! lo := rd (tc_recv_buf tc) 1 in
  let msg_len := (hi <<< 8) ||| lo in
  if msg_len =? 0 then Done (0, [], tc) else
  if tc_recv_pos tc <? msg_len + 2 then Done (0, [], tc) else
  let extract := if msg_len >? cap then cap else msg_len in
  let! out := sub_buf (tc_recv_buf tc) 2 extract in
  let total := msg_len + 2 in
  let! rest := sub_buf (tc_recv_buf tc) total (tc_recv_pos tc - total) in
  let! buf := memcpy (tc_recv_buf tc) 0 rest (tc_recv_pos tc - total) in
  Done (extract, out, tc <| tc_recv_buf := buf |> <| tc_recv_pos := tc_recv_pos tc - total |>).

(** The result, the bytes stored in the caller's buffer, and the transport.  A
    socket that stores more than it was asked for is undefined behaviour. *)
Definition tcp_recv (tc : tcp_transport) (cap : Z) (os : os_recv) : outcome unit (Z * list Z * tcp_transport) :=
  match os with
  | OsNone n => Done (n, [], tc)
  | OsBytes l =>
      let n := zlen l in
      let! buf := memcpy (tc_recv_buf tc) (tc_recv_pos tc) l n in
      let tc := tc <| tc_recv_buf := buf |> in
      if n <=? 0 then Done (n, [], tc) else
      tcp_extract (tc <| tc_recv_pos := tc_recv_pos tc + n |>) cap
  end.

(** ** One call *)

(** The bytes received and not yet returned. *)
Definition pending (tc : tcp_transport) : list Z := ztake (tc_recv_pos tc) (tc_recv_buf tc).

Record tcp_ok (tc : tcp_transport) : Prop := TcpOk {
  to_recv : zlen (tc_recv_buf tc) = TCP_BUF_SIZE /\ 0 <= tc_recv_pos tc <= TCP_BUF_SIZE;
  to_bytes : bytes_ok (pending tc);
  to_send : zlen (tc_send_buf tc) = TCP_BUF_SIZE + 2
}.

Definition framed (m : list Z) : list Z := zlen m / 256 :: zlen m mod 256 :: m.

(** What a call makes of the bytes [q] in the buffer: the datagram and the bytes
    that stay. *)
Definition unframe (q : list Z) : option (list Z * list Z) :=
  match q with
  | hi :: lo :: rest =>
      let len := hi * 256 + lo in
      if (len =? 0) || (zlen rest <? len) then None else Some (ztake len rest, zdrop len rest)
  | _ => None
  end.

Lemma zlen_pending tc : tcp_ok tc -> zlen (pending tc) = tc_recv_pos tc.
Proof. intros [[Hl Hp] _ _]. apply zlen_ztake. lia. Qed.

Lemma tcp_new_ok : tcp_ok tcp_new /\ pending tcp_new = [].
Proof.
  split; [| reflexivity]. split; [| constructor |]; cbn [tcp_new tc_recv_buf tc_recv_pos tc_send_buf];
    rewrite zlen_replicate; unfold TCP_BUF_SIZE; lia.
Qed.

(** The front of the buffer after the socket has stored [l]. *)
Lemma pending_store tc l : tcp_ok tc -> tc_recv_pos tc + zlen l <= TCP_BUF_SIZE ->
  exists tail, splice (tc_recv_buf tc) (tc_recv_pos tc) l = (pending tc ++ l) ++ tail /\
    zlen (splice (tc_recv_buf tc) (tc_recv_pos tc) l) = TCP_BUF_SIZE.
Proof.
  intros [[Hl Hp] _ _] Hfit. exists (zdrop (tc_recv_pos tc + zlen l) (tc_recv_buf tc)).
  split; [unfold splice, pending; by rewrite <- app_assoc |]. rewrite zlen_splice; lia.
Qed.

Lemma shift_byte hi lo : byte hi -> byte lo -> (hi <<< 8) ||| lo = hi * 256 + lo.
Proof.
  intros Hh Hl. rewrite Z.shiftl_mul_pow2 by lia. change (2 ^ 8) with 256. apply (lor_disjoint _ _ 8); [lia | | done].
  change (2 ^ 8) with 256. by apply Z.mod_mul.
Qed.

(** The transport with [q] in the front of its buffer. *)
Definition holding (tc : tcp_transport) (q tail : list Z) : tcp_transport :=
  tc <| tc_recv_buf := q ++ tail |> <| tc_recv_pos := zlen q |>.

Lemma holding_ok tc q tail : tcp_ok tc -> bytes_ok q -> zlen (q ++ tail) = TCP_BUF_SIZE ->
  tcp_ok (holding tc q tail) /\ pending (holding tc q tail) = q.
Proof.
  intros [_ _ Hs] Hq Hl. pose proof (zlen_nonneg q). pose proof (zlen_nonneg tail). rewrite zlen_app in Hl.
  assert (pending (holding tc q tail) = q) as Hp by apply ztake_app.
  split; [| done]. split; [| by rewrite Hp | done]. simpl. rewrite zlen_app. lia.
Qed.

(** A datagram is taken from the front of the buffer. *)
Lemma tcp_take {E} q tail len : 0 < len -> 2 + len <= zlen q ->
  @sub_buf E (q ++ tail) 2 len = Done (ztake len (zdrop 2 q)) /\
  @sub_buf E (q ++ tail) (len + 2) (zlen q - (len + 2)) = Done (zdrop len (zdrop 2 q)) /\
  @memcpy E (q ++ tail) 0 (zdrop len (zdrop 2 q)) (zlen q - (len + 2)) =
    Done (zdrop len (zdrop 2 q) ++ zdrop (zlen q - (len + 2)) (q ++ tail)).
Proof.
  intros Hl Hq. destruct (@consume_front E q tail (len + 2)) as [E1 E2]; [lia |].
  rewrite zdrop_zdrop, (Z.add_comm 2 len) by lia. split; [by apply sub_buf_front; lia | done].
Qed.

Lemma unframe_bytes q m rest : bytes_ok q -> unframe q = Some (m, rest) -> bytes_ok m /\ bytes_ok rest.
Proof.
  intros Hq. destruct q as [| hi [| lo q]]; [done | done |]. simpl. destruct (_ || _); [done |]. intros [= <- <-].
  apply bytes_ok_cons in Hq as [_ Hq]. apply bytes_ok_cons in Hq as [_ Hq]. split; [by apply bytes_ok_take | by apply bytes_ok_drop].
Qed.

Lemma tcp_extract_spec tc cap q tail : tcp_ok tc -> bytes_ok q -> zlen (q ++ tail) = TCP_BUF_SIZE ->
  match unframe q with
  | None => tcp_extract (holding tc q tail) cap = Done (0, [], holding tc q tail)
  | Some (m, rest) => exists tail', zlen (rest ++ tail') = TCP_BUF_SIZE /\
      (zlen m <= cap -> tcp_extract (holding tc q tail) cap = Done (zlen m, m, holding tc rest tail'))
  end.
Proof.
  intros Hok Hq Hsz. unfold tcp_extract.
  change (tc_recv_pos (holding tc q tail)) with (zlen q). change (tc_recv_buf (holding tc q tail)) with (q ++ tail).
  destruct q as [| hi [| lo rest]]; [done | done |].
  apply bytes_ok_cons in Hq as [Hhi Hq]. apply bytes_ok_cons in Hq as [Hlo Hrest]. pose proof (zlen_nonneg rest).
  rewrite (proj2 (Z.ltb_ge (zlen (hi :: lo :: rest)) 2)) by lenlia. simpl app. rewrite rd_at0, rd_at1. cbn [obind].
  rewrite shift_byte by done. unfold unframe. set (len := hi * 256 + lo). destruct (Z.eqb_spec len 0); [done |].
  cbn [orb]. replace (zlen (hi :: lo :: rest) <? len + 2) with (zlen rest <? len) by (rewrite !zlen_cons; zcase; lia).
  destruct (Z.ltb_spec (zlen rest) len) as [| Hfull]; [done |].
  destruct (@tcp_take unit (hi :: lo :: rest) tail len) as (E1 & E2 & E3); [lia | rewrite !zlen_cons; lia |].
  change (zdrop 2 (hi :: lo :: rest)) with rest in *. simpl app in E1, E2, E3, Hsz.
  assert (zlen (zdrop len rest) = zlen (hi :: lo :: rest) - (len + 2)) as Hz by (rewrite zlen_zdrop, !zlen_cons; lia).
  eexists. split; cycle 1.
  - intros Hcap. rewrite zlen_ztake in * by lia. rewrite Z.gtb_ltb, (proj2 (Z.ltb_ge _ _)) by lia.
    rewrite E1. cbn [obind]. rewrite E2. cbn [obind]. rewrite E3. cbn [obind]. unfold holding. by rewrite Hz.
  - rewrite zlen_app, Hz, zlen_zdrop, Hsz; [lia |]. rewrite Hsz, !zlen_cons, zlen_app in *.
    pose proof (zlen_nonneg tail). lia.
Qed.

Lemma tcp_recv_spec tc cap l : tcp_ok tc -> bytes_ok l -> 0 < zlen l -> tc_recv_pos tc + zlen l <= TCP_BUF_SIZE ->
  exists tc', tcp_ok tc' /\
    match unframe (pending tc ++ l) with
    | Some (m, rest) => pending tc' = rest /\ (zlen m <= cap -> tcp_recv tc cap (OsBytes l) = Done (zlen m, m, tc'))
    | None => pending tc' = pending tc ++ l /\ tcp_recv tc cap (OsBytes l) = Done (0, [], tc')
    end.
Proof.
  intros Hok Hb Hl Hfit. pose proof (zlen_pending tc Hok) as Hpl. pose proof (to_recv tc Hok) as [Hlen Hpos].
  destruct (pending_store tc l Hok Hfit) as (tail & Hst & Hsz). unfold tcp_recv. rewrite memcpy_all by lia. cbn [obind].
  rewrite (proj2 (Z.leb_gt _ _)) by lia. rewrite Hst in Hsz |- *.
  assert (bytes_ok (pending tc ++ l)) as Hq by (apply bytes_ok_app; split; [apply Hok | done]).
  assert (tc_recv_pos tc + zlen l = zlen (pending tc ++ l)) as Hpl' by lenlia.
  set (tc1 := (tc <| tc_recv_buf := _ |>) <| tc_recv_pos := _ |>).
  assert (tc1 = holding tc (pending tc ++ l) tail) as -> by (unfold tc1, holding; by rewrite <- Hpl').
  pose proof (tcp_extract_spec tc cap (pending tc ++ l) tail Hok Hq Hsz) as Hx.
  destruct (unframe (pending tc ++ l)) as [[m rest] |] eqn:Hu.
  - destruct Hx as (tail' & Hsz' & Hx). exists (holding tc rest tail').
    destruct (holding_ok tc rest tail' Hok) as [? ?]; [by apply (unframe_bytes _ _ _ Hq Hu) | done | done].
  - exists (holding tc (pending tc ++ l) tail). destruct (holding_ok tc (pending tc ++ l) tail Hok Hq Hsz) as [? ?]. done.
Qed.

Lemma tcp_recv_none tc cap : tcp_ok tc -> tcp_recv tc cap (OsBytes []) = Done (0, [], tc).
Proof.
  intros [[Hl Hp] _ _]. unfold tcp_recv. rewrite memcpy_all by (change (zlen []) with 0; lia).
  cbn [obind]. rewrite splice_nil. by destruct tc.
Qed.

(** The socket is offered the framed datagram; what it takes beyond the prefix is
    reported. *)
Lemma tcp_send_spec os_send tc m : tcp_ok tc -> zlen m <= 65535 ->
  exists tc', tcp_ok tc' /\ pending tc' = pending tc /\
    tcp_send os_send tc m =
      Done (if os_send (framed m) <=? 2 then -1 else os_send (framed m) - 2, tc', ztake (os_send (framed m)) (framed m)).
Proof.
  intros [Hr Hb Hs] Hm. pose proof (zlen_nonneg m). unfold tcp_send, TCP_BUF_SIZE in *.
  rewrite Z.gtb_ltb, (proj2 (Z.ltb_ge _ _)) by lia. rewrite wr_splice by lia. cbn [obind].
  assert (forall x : Z, zlen [x] = 1) as L by done.
  rewrite wr_splice by (rewrite zlen_splice; rewrite ?L; lia). cbn [obind].
  rewrite (splice_splice _ 0 [_] [_]) by (rewrite ?L; lia). simpl app.
  set (h := [u8 (zlen m >>> 8); u8 (zlen m)]). assert (zlen h = 2) as Hh by done.
  rewrite memcpy_all by (rewrite ?zlen_splice; lia). cbn [obind].
  assert (splice (splice (tc_send_buf tc) 0 h) 2 m = splice (tc_send_buf tc) 0 (framed m)) as ->.
  { change 2 with (0 + zlen h). rewrite splice_splice by lia. f_equal. unfold h, framed, u8.
    rewrite Z.shiftr_div_pow2 by lia. simpl. f_equal. apply Z.mod_small. zlia. }
  assert (zlen (framed m) = zlen m + 2) as Hf by (unfold framed; rewrite !zlen_cons; lia).
  rewrite sub_buf_Done by (rewrite ?zlen_splice; lia). cbn [obind].
  rewrite zdrop_0, splice_0, <- Hf, ztake_app, Hf by lia.
  exists (tc <| tc_send_buf := framed m ++ zdrop (zlen m + 2) (tc_send_buf tc) |>). split; [| split; [reflexivity |]].
  - split; [done | done |]. change (zlen (framed m ++ zdrop (zlen m + 2) (tc_send_buf tc)) = TCP_BUF_SIZE + 2).
    rewrite zlen_app, zlen_zdrop; unfold TCP_BUF_SIZE; lia.
  - by destruct (_ <=? 2).
Qed.

(** ** A connection *)

Lemma unframe_prefix m q w z : 0 < zlen m <= 65534 -> q ++ w = framed m ++ z -> zlen q < zlen (framed m) -> unframe q = None.
Proof.
  intros Hm Hq Hlt. destruct q as [| hi [| lo q]]; [done | done |]. injection Hq as -> -> Hq. unfold unframe.
  replace (zlen m / 256 * 256 + zlen m mod 256) with (zlen m) by zlia. unfold framed in Hlt. rewrite !zlen_cons in Hlt.
  by rewrite (proj2 (Z.ltb_lt (zlen q) (zlen m))), orb_true_r by lia.
Qed.

Lemma unframe_image m rest : 0 < zlen m <= 65534 -> unframe (framed m ++ rest) = Some (m, rest).
Proof.
  intros Hm. unfold framed, unframe. simpl app. cbv beta iota zeta. replace (zlen m / 256 * 256 + zlen m mod 256) with (zlen m) by zlia.
  pose proof (zlen_nonneg rest). rewrite (proj2 (Z.eqb_neq _ 0)), (proj2 (Z.ltb_ge _ _)) by (rewrite ?zlen_app; lia). cbn [orb].
  by rewrite ztake_app, zdrop_app.
Qed.

Lemma framed_bytes (k : unit) m : True -> bytes_ok m -> 0 < zlen m <= 65534 -> bytes_ok (framed m).
Proof. intros _ Hb Hm. do 2 (constructor; [zlia |]). done. Qed.

Lemma zlen_framed m : zlen (framed m) = zlen m + 2.
Proof. unfold framed. rewrite !zlen_cons. lia. Qed.

Lemma tcp_send_message (k : unit) os_send tc m : tcp_ok tc -> True -> bytes_ok m -> 0 < zlen m <= 65534 -> whole_sends os_send ->
  exists n tc' wire, tcp_send os_send tc m = Done (n, tc', wire) /\ tcp_ok tc' /\
    ((n = zlen m /\ wire = framed m) \/ (n <= 0 /\ wire = [])).
Proof.
  intros Hok _ _ Hm Hos. destruct (tcp_send_spec os_send tc m Hok ltac:(lia)) as (tc' & Hok' & _ & ->).
  eexists _, tc', _. split; [reflexivity |]. split; [done |]. destruct (Hos (framed m)) as [-> | Hn].
  - left. rewrite zlen_framed, (proj2 (Z.leb_gt _ _)) by lia. split; [lia |]. rewrite <- zlen_framed. by apply ztake_all.
  - right. rewrite (proj2 (Z.leb_le _ _)) by lia. split; [lia |]. by apply ztake_neg.
Qed.

Lemma tcp_recv_partial tc cap l (k : unit) m w z : tcp_ok tc -> True -> bytes_ok m -> 0 < zlen m <= 65534 ->
  bytes_ok l -> 0 < zlen l -> zlen (pending tc ++ l) <= TCP_BUF_SIZE ->
  (pending tc ++ l) ++ w = framed m ++ z -> zlen (pending tc ++ l) < zlen (framed m) ->
  exists tc', tcp_recv tc cap (OsBytes l) = Done (0, [], tc') /\ tcp_ok tc' /\ pending tc' = pending tc ++ l.
Proof.
  intros Hok _ _ Hm Hl Hpos Hfit Hq Hlt. rewrite zlen_app, zlen_pending in Hfit by done.
  destruct (tcp_recv_spec tc cap l Hok Hl Hpos Hfit) as (tc' & Hok' & Hr).
  rewrite (unframe_prefix m _ w z Hm Hq Hlt) in Hr. exists tc'. tauto.
Qed.

Lemma tcp_recv_complete tc cap l (k : unit) m rest : tcp_ok tc -> True -> bytes_ok m -> 0 < zlen m <= 65534 -> zlen m <= cap ->
  bytes_ok l -> 0 < zlen l -> zlen (pending tc ++ l) <= TCP_BUF_SIZE -> pending tc ++ l = framed m ++ rest ->
  exists tc', tcp_recv tc cap (OsBytes l) = Done (zlen m, m, tc') /\ tcp_ok tc' /\ pending tc' = rest.
Proof.
  intros Hok _ _ Hm Hcap Hl Hpos Hfit Hq. rewrite zlen_app, zlen_pending in Hfit by done.
  destruct (tcp_recv_spec tc cap l Hok Hl Hpos Hfit) as (tc' & Hok' & Hr).
  rewrite Hq, unframe_image in Hr by done. destruct Hr as [Hp Hr]. exists tc'. auto.
Qed.

Lemma tcp_room tc : tcp_ok tc -> zlen (pending tc) <= TCP_BUF_SIZE.
Proof. intros Hok. rewrite zlen_pending by done. apply Hok. Qed.

Lemma tcp_recv_idle tc cap n : tcp_ok tc -> n <= 0 -> tcp_recv tc cap (OsNone n) = Done (n, [], tc).
Proof. done. Qed.

#[export] Instance tcp_framing : StreamFraming tcp_transport unit := {|
  fr_new := tcp_new;
  fr_send _ := tcp_send;
  fr_recv := tcp_recv;
  fr_ok := tcp_ok;
  fr_pending := pending;
  fr_size := TCP_BUF_SIZE;
  fr_max := 65534;
  fr_key _ := True;
  fr_image _ := framed;
  fr_new_law := tcp_new_ok;
  fr_room_law := tcp_room;
  fr_image_law := framed_bytes;
  fr_send_law := tcp_send_message;
  fr_none_law := tcp_recv_idle;
  fr_empty_law := tcp_recv_none;
  fr_partial_law := tcp_recv_partial;
  fr_complete_law := tcp_recv_complete
|}.

(** C12: the TCP framing preserves datagrams of 1 to 65534 bytes that fit the
    receiver's buffer, on a socket that takes a whole frame or refuses it.  However
    the byte stream is then cut into pieces, every call is defined, and the datagrams
    that the receiver returns are the first of those whose send succeeded, in order
    and unchanged; the bytes in its buffer and in flight are exactly the others.  As
    soon as a call completes the next datagram, it returns it. *)
Theorem tcp_in_order cap ops : Forall (stream_op_ok cap) ops ->
  exists ch, stream_run (F := tcp_framing) cap stream_start ops = Done ch /\ delivers_in_order cap ch.
Proof. apply framed_in_order. Qed.

(** The condition on the socket is needed: of a frame that it takes in part the rest
    is never sent, although the call reports success. *)
Theorem tcp_cut_send os_send tc m : tcp_ok tc -> zlen m <= 65535 -> 2 < os_send (framed m) < zlen (framed m) ->
  exists n tc' wire, tcp_send os_send tc m = Done (n, tc', wire) /\ 0 < n < zlen m /\ zlen wire < zlen (framed m).
Proof.
  intros Hok Hm Hos. destruct (tcp_send_spec os_send tc m Hok Hm) as (tc' & _ & _ & ->).
  eexists _, tc', _. split; [reflexivity |]. rewrite (proj2 (Z.leb_gt _ _)), zlen_ztake by lia. rewrite zlen_framed in Hos. rewrite zlen_framed. lia.
Qed.

(** ** Lengths that block the receiver *)

(** The receiver holds an empty datagram, or the buffer is full of a datagram
    that does not fit. *)
Definition blocked (tc : tcp_transport) : Prop := tcp_ok tc /\
  exists hi lo rest, pending tc = hi :: lo :: rest /\
    (hi * 256 + lo = 0 \/ (tc_recv_pos tc = TCP_BUF_SIZE /\ hi * 256 + lo = 65535)).

Lemma blocked_recv tc cap l : blocked tc -> bytes_ok l -> tc_recv_pos tc + zlen l <= TCP_BUF_SIZE ->
  exists tc', tcp_recv tc cap (OsBytes l) = Done (0, [], tc') /\ blocked tc'.
Proof.
  intros [Hok (hi & lo & rest & Hp & Hb)] Hl Hfit. pose proof (zlen_nonneg l). pose proof (zlen_pending tc Hok) as Hpl.
  destruct (Z.eqb_spec (zlen l) 0) as [Hz | Hz].
  - assert (l = []) as -> by (destruct l; [done |]; rewrite zlen_cons in Hz; pose proof (zlen_nonneg l); lia).
    exists tc. split; [by apply tcp_recv_none |]. split; [done |]. eauto 10.
  - destruct Hb as [Hb | [Hb _]]; [| unfold TCP_BUF_SIZE in *; lia].
    destruct (tcp_recv_spec tc cap l Hok Hl ltac:(lia) Hfit) as (tc' & Hok' & Hr). rewrite Hp in Hr. simpl app in Hr.
    unfold unframe in Hr. rewrite Hb in Hr. cbn [Z.eqb orb] in Hr. destruct Hr as [Hp' ->]. exists tc'. split; [done |]. split; [done |].
    exists hi, lo, (rest ++ l). split; [done |]. by left.
Qed.

(** The receiver called again and again, on what arrives. *)
Fixpoint tcp_poll (cap : Z) (tc : tcp_transport) (arriving : list (list Z)) : outcome unit (list (Z * list Z) * tcp_transport) :=
  match arriving with
  | [] => Done ([], tc)
  | l :: arriving =>
      let! (n, out, tc) := tcp_recv tc cap (OsBytes (ztake (TCP_BUF_SIZE - tc_recv_pos tc) l)) in
      let! (rs, tc) := tcp_poll cap tc arriving in
      Done ((n, out) :: rs, tc)
  end.

Lemma blocked_poll cap arriving : forall tc, blocked tc -> Forall bytes_ok arriving ->
  exists tc', tcp_poll cap tc arriving = Done (replicate (length arriving) (0, []), tc') /\ blocked tc'.
Proof.
  induction arriving as [| l arriving IH]; intros tc Hb Ha; [by exists tc |].
  apply Forall_cons_iff in Ha as [Hl Ha]. pose proof (to_recv _ (proj1 Hb)) as [_ Hpos].
  destruct (blocked_recv tc cap (ztake (TCP_BUF_SIZE - tc_recv_pos tc) l) Hb) as (tc1 & Hr & Hb1).
  { by apply bytes_ok_take. } { unfold ztake, zlen. rewrite length_take. lia. }
  destruct (IH tc1 Hb1 Ha) as (tc2 & Hp & Hb2). exists tc2. split; [| done].
  cbn [tcp_poll]. rewrite Hr. cbn [obind]. by rewrite Hp.
Qed.

Lemma take_framed n m : 2 <= n -> ztake n (framed m) = zlen m / 256 :: zlen m mod 256 :: ztake (n - 2) m.
Proof.
  intros Hn. unfold ztake. replace (Z.to_nat n) with (S (S (Z.to_nat (n - 2)))) by lia. done.
Qed.

Lemma unframe_framed m : zlen m <= 65535 -> unframe (framed m) = if zlen m =? 0 then None else Some (m, []).
Proof.
  intros Hm. pose proof (zlen_nonneg m). unfold unframe, framed. replace (zlen m / 256 * 256 + zlen m mod 256) with (zlen m) by zlia.
  rewrite Z.ltb_irrefl, orb_false_r. destruct (zlen m =? 0); [done |]. rewrite ztake_all by lia.
  do 2 f_equal. unfold zdrop, zlen. apply drop_ge. lia.
Qed.

(** two lengths that the sender accepts block the connection for good.
    The receiver that gets an empty datagram (which is put on the wire although
    the sender returns -1), or the first 65536 bytes of one of 65535, returns 0
    then and on every later call, whatever arrives. *)
Theorem tcp_blocked cap m first arriving : bytes_ok m -> Forall bytes_ok arriving ->
  (zlen m = 0 /\ first = framed m) \/ (zlen m = 65535 /\ first = ztake TCP_BUF_SIZE (framed m)) ->
  (exists n tc, tcp_send zlen tcp_new m = Done (n, tc, framed m)) /\
  exists tc', tcp_poll cap tcp_new (first :: arriving) = Done (replicate (S (length arriving)) (0, []), tc').
Proof.
  intros Hm Ha Hf. destruct tcp_new_ok as [Hok Hnil]. split.
  { destruct (tcp_send_spec zlen tcp_new m Hok) as (tc & _ & _ & ->); [lia |]. rewrite ztake_all by done. eauto. }
  assert (bytes_ok (framed m)) as Hfb.
  { do 2 (constructor; [pose proof (zlen_nonneg m); zlia |]). done. }
  assert (zlen (framed m) = 2 + zlen m) as Hfl by (unfold framed; rewrite !zlen_cons; lia).
  assert (bytes_ok first /\ 0 < zlen first <= TCP_BUF_SIZE /\ unframe first = None) as (Hb1 & Hl1 & Hu1).
  { unfold TCP_BUF_SIZE in *. destruct Hf as [[Hz ->] | [Hz ->]].
    - split; [done |]. split; [lia |]. by rewrite unframe_framed, Hz by lia.
    - split; [by apply bytes_ok_take |]. rewrite zlen_ztake by lia. split; [lia |].
      rewrite take_framed by lia. unfold unframe. rewrite Hz, zlen_ztake by lia. done. }
  cbn [tcp_poll]. rewrite ztake_all by (simpl tc_recv_pos; lia).
  destruct (tcp_recv_spec tcp_new cap first Hok Hb1 ltac:(lia) ltac:(simpl tc_recv_pos; lia)) as (tc & Hok1 & Hr).
  rewrite Hnil in Hr. simpl app in Hr. rewrite Hu1 in Hr. destruct Hr as [Hp ->]. cbn [obind].
  destruct (blocked_poll cap arriving tc) as (tc' & -> & _); [| done | by exists tc'].
  split; [done |]. pose proof (zlen_pending tc Hok1) as Hpl. rewrite Hp in Hpl. destruct Hf as [[Hz Hf] | [Hz Hf]]; rewrite Hp, Hf.
  - exists (zlen m / 256), (zlen m mod 256), m. split; [done |]. left. rewrite Hz. done.
  - exists (zlen m / 256), (zlen m mod 256), (ztake (TCP_BUF_SIZE - 2) m). rewrite take_framed by (unfold TCP_BUF_SIZE; lia).
    split; [reflexivity |]. right. rewrite Hz. split; [| done].
    rewrite <- Hpl, Hf, zlen_ztake; unfold TCP_BUF_SIZE; lia.
Qed.

(** ** Concrete runs *)

Definition sample_ops : list (stream_op (K := unit)) :=
  [StreamWrite tt zlen [1; 2; 3]; StreamRead 2; StreamIdle (-1); StreamWrite tt (const (-1)) [9]; StreamWrite tt zlen [4]; StreamRead 6].

Lemma sample_ops_ok : Forall (stream_op_ok (F := tcp_framing) 1536) sample_ops.
Proof.
  unfold sample_ops. repeat apply list.Forall_cons_2; try done; (split; [repeat constructor; done |]); [by left | by right | by left].
Qed.

Lemma tcp_in_order_witness : exists ch, stream_run (F := tcp_framing) 1536 stream_start sample_ops = Done ch /\
  delivers_in_order 1536 ch.
Proof. exact (tcp_in_order 1536 sample_ops sample_ops_ok). Defined.

Lemma tcp_blocked_witness : (exists n tc, tcp_send zlen tcp_new [] = Done (n, tc, framed [])) /\
  exists tc', tcp_poll 1536 tcp_new ([0; 0] :: [[0; 1; 7]]) = Done (replicate 2 (0, []), tc').
Proof.
  apply (tcp_blocked 1536 [] [0; 0] [[0; 1; 7]]).
  - constructor.
  - repeat constructor; done.
  - left. split; reflexivity.
Defined.
