(* ===== verification/WebSocket.v ===== *)
(** * WebSocket framing (src/src/transport/websocket/ws_frame.c, transport_ws.c)

    The frame encoder and decoder of RFC 6455 and the transport on top of them:
    datagrams as masked binary frames, control frames handled on the way.  Random
    masks and the socket calls are arguments; what is read through a pointer into
    the receive buffer is read when the source reads it. *)

From S2P Require Import Prelude Codec FramedStream.

Definition WS_OP_BINARY : Z := 0x2.
Definition WS_OP_CLOSE : Z := 0x8.
Definition WS_OP_PING : Z := 0x9.
Definition WS_OP_PONG : Z := 0xA.
Definition WS_MAX_FRAME_HEADER : Z := 14.
Definition WS_MAX_PAYLOAD : Z := 65536.

(** The payload is a pointer: [P] is the memory it points to for the encoder
    ([None] for null) and an offset in the buffer for the decoder. *)
Record ws_frame (P : Type) := WsFrame {
  wf_opcode : Z;
  wf_fin : bool;
  wf_masked : bool;
  wf_mask_key : list Z;
  wf_payload_len : Z;
  wf_payload : P
}.
Arguments WsFrame {P}.
Arguments wf_opcode {P}.
Arguments wf_fin {P}.
Arguments wf_masked {P}.
Arguments wf_mask_key {P}.
Arguments wf_payload_len {P}.
Arguments wf_payload {P}.

(** [for (i = 0; i < n; i++) buf[pos + i] ^= mask_key[i % 4];] *)
Fixpoint mask_loop {E} (n : nat) (buf : list Z) (pos i : Z) (mask_key : list Z) : outcome E (list Z) :=
  match n with
  | O => Done buf
  | S n =>
      let! b := rd buf (pos + i) in
      let! k := rd mask_key (i mod 4) in
      let! buf := wr buf (pos + i) (Z.lxor b k) in
      mask_loop n buf pos (i + 1) mask_key
  end.

(** ** Encoding *)

Definition put_length (masked : bool) (p_len : Z) : writer :=
  let mask_bit := if masked then 0x80 else 0 in
  if p_len <=? 125 then put_byte (mask_bit ||| p_len)
  else if p_len <=? 65535 then
    (put_byte (mask_bit ||| 126) ;; put_byte (u8 (p_len >>> 8)) ;; put_byte (u8 p_len))%W
  else
    (put_byte (mask_bit ||| 127) ;;
     put_byte (u8 (p_len >>> 56)) ;; put_byte (u8 (p_len >>> 48)) ;; put_byte (u8 (p_len >>> 40)) ;;
     put_byte (u8 (p_len >>> 32)) ;; put_byte (u8 (p_len >>> 24)) ;; put_byte (u8 (p_len >>> 16)) ;;
     put_byte (u8 (p_len >>> 8)) ;; put_byte (u8 (p_len >>> 0)))%W.

Definition ws_put_payload (f : ws_frame (option (list Z))) : writer := fun buf pos =>
  let p_len := wf_payload_len f in
  match wf_payload f with
  | Some payload =>
      if p_len >? 0 then
        if u64 (pos + p_len) >? zlen buf then WZero buf else
        match put_mem payload p_len buf pos with
        | WOk buf pos' =>
            if wf_masked f then
              match @mask_loop unit (Z.to_nat p_len) buf pos 0 (wf_mask_key f) with
              | Done buf => WOk buf pos'
              | _ => WUb
              end
            else WOk buf pos'
        | o => o
        end
      else WOk buf pos
  | None => WOk buf pos
  end.

Definition ws_frame_encode (f : ws_frame (option (list Z))) (buf : list Z) : outcome unit (Z * list Z) :=
  run_writer
    (put_byte ((if wf_fin f then 0x80 else 0) ||| (wf_opcode f &&& 0x0F)) ;;
     put_length (wf_masked f) (wf_payload_len f) ;;
     (if wf_masked f then put_mem (wf_mask_key f) 4 else wdone) ;;
     ws_put_payload f)%W buf.

(** ** Decoding *)

(** [for (i = 0; i < n; i++) p_len = (p_len << 8) | buf[pos + i];] *)
Fixpoint length_loop (n : nat) (buf : list Z) (pos p_len : Z) : outcome unit Z :=
  match n with
  | O => Done p_len
  | S n => let! b := rd buf pos in length_loop n buf (pos + 1) (u64 (p_len <<< 8) ||| b)
  end.

(** The payload length and the position after it; [None] is an incomplete frame. *)
Definition decode_length (p_len : Z) (buf : list Z) (buf_len : Z) : outcome unit (option (Z * Z)) :=
  if p_len =? 126 then
    if buf_len <? 4 then Done None else
    let! hi := rd buf 2 in
    let! lo := rd buf 3 in
    Done (Some ((hi <<< 8) ||| lo, 4))
  else if p_len =? 127 then
    if buf_len <? 10 then Done None else
    let! p_len := length_loop 8 buf 2 0 in
    Done (Some (p_len, 10))
  else Done (Some (p_len, 2)).

(** The number of bytes of the frame (0 when it is incomplete), the frame, and the
    buffer, in which the payload is unmasked.  Without a mask the key stays what it
    was, which nothing reads. *)
Definition ws_frame_decode (buf : list Z) (buf_len : Z) : outcome unit (Z * option (ws_frame Z) * list Z) :=
  if buf_len <? 2 then Done (0, None, buf) else
  let! b0 := rd buf 0 in
  let! b1 := rd buf 1 in
  let fin := negb ((b0 &&& 0x80) =? 0) in
  let opcode := b0 &&& 0x0F in
  let masked := negb ((b1 &&& 0x80) =? 0) in
  let! len := decode_length (b1 &&& 0x7F) buf buf_len in
  match len with
  | None => Done (0, None, buf)
  | Some (p_len, pos) =>
      if masked && (buf_len <? pos + 4) then Done (0, None, buf) else
      let! mask_key := if masked then sub_buf buf pos 4 else Done [] in
      let pos := if masked then pos + 4 else pos in
      if buf_len <? u64 (pos + p_len) then Done (0, None, buf) else
      let! buf := if masked then mask_loop (Z.to_nat p_len) buf pos 0 mask_key else Done buf in
      Done (u64 (pos + p_len), Some (WsFrame opcode fin masked mask_key p_len pos), buf)
  end.

(** ** The transport *)

Definition WS_BUF_SIZE : Z := WS_MAX_PAYLOAD + WS_MAX_FRAME_HEADER.

Record ws_transport := WsTransport {
  ws_connected : bool;
  ws_recv_buf : list Z;
  ws_recv_pos : Z;
  ws_send_buf : list Z
}.
#[export] Instance eta_ws : Eta ws_transport := fun t =>
  WsTransport (ws_connected t) (ws_recv_buf t) (ws_recv_pos t) (ws_send_buf t).

(** [rand] gives the mask, [os_send] how many bytes the socket takes (or -1); the
    last component is what it took. *)
Definition ws_send (rand : list Z) (os_send : list Z -> Z) (ws : ws_transport) (data : list Z)
  : outcome unit (Z * ws_transport * list Z) :=
  if negb (ws_connected ws) then Done (-1, ws, []) else
  let len := zlen data in
  let f := WsFrame WS_OP_BINARY true true rand len (Some data) in
  let! buf := wr (ws_send_buf ws) 0 0 in
  let! (frame_len, buf) := ws_frame_encode f buf in
  let ws := ws <| ws_send_buf := buf |> in
  if frame_len =? 0 then Done (-1, ws, []) else
  let! frame := sub_buf buf 0 frame_len in
  let sent := os_send frame in
  Done (if sent >? 0 then len else sent, ws, ztake sent frame).

(** The answer to a PING; its payload is read through the pointer that the decoder
    set, after the receive buffer was moved. *)
Definition ws_pong (f : ws_frame Z) (recv_buf : list Z) : outcome unit (list Z) :=
  let! payload := sub_buf recv_buf (wf_payload f) (Z.min (wf_payload_len f) (zlen recv_buf - wf_payload f)) in
  let pong := WsFrame WS_OP_PONG true false [0; 0; 0; 0] (wf_payload_len f) (Some payload) in
  let! (c_len, ctrl_buf) := ws_frame_encode pong (zeros 128) in
  Done (ztake c_len ctrl_buf).

(** The result, what is stored in the caller's buffer of [cap] bytes, the
    transport, and what was sent in answer to a control frame. *)
Definition ws_take (ws : ws_transport) (cap : Z) : outcome unit (Z * list Z * ws_transport * list Z) :=
  let! (consumed, frame, buf) := ws_frame_decode (ws_recv_buf ws) (ws_recv_pos ws) in
  let ws := ws <| ws_recv_buf := buf |> in
  match frame with
  | None => Done (0, [], ws, [])
  | Some f =>
      if consumed =? 0 then Done (0, [], ws, []) else
      let payload_len := if wf_payload_len f >? cap then cap else wf_payload_len f in
      let! out := sub_buf buf (wf_payload f) payload_len in
      let! rest := sub_buf buf consumed (ws_recv_pos ws - consumed) in
      let! buf := memcpy buf 0 rest (ws_recv_pos ws - consumed) in
      let ws := ws <| ws_recv_buf := buf |> <| ws_recv_pos := ws_recv_pos ws - consumed |> in
      if wf_opcode f =? WS_OP_PING then
        let! sent := ws_pong f buf in
        Done (0, out, ws, sent)
      else if wf_opcode f =? WS_OP_CLOSE then Done (-1, out, ws <| ws_connected := false |>, [])
      else if wf_opcode f =? WS_OP_PONG then Done (0, out, ws, [])
      else Done (payload_len, out, ws, [])
  end.

Definition ws_recv (ws : ws_transport) (cap : Z) (os : os_recv) : outcome unit (Z * list Z * ws_transport * list Z) :=
  if negb (ws_connected ws) then Done (-1, [], ws, []) else
  match os with
  | OsNone n => Done (n, [], ws, [])
  | OsBytes l =>
      let n := zlen l in
      let! buf := memcpy (ws_recv_buf ws) (ws_recv_pos ws) l n in
      let ws := ws <| ws_recv_buf := buf |> in
      if n <=? 0 then Done (n, [], ws, []) else
      ws_take (ws <| ws_recv_pos := ws_recv_pos ws + n |>) cap
  end.

(** The frame that [ws_close] sends on an open connection. *)
Definition ws_close_frame (ws : ws_transport) : outcome unit (list Z) :=
  if ws_connected ws then
    let f := WsFrame WS_OP_CLOSE true true [0; 0; 0; 0] 0 None in
    let! (len, ctrl_buf) := ws_frame_encode f (zeros 32) in
    Done (ztake len ctrl_buf)
  else Done [].

(** ** Masking *)

Fixpoint xor_from (key : list Z) (i : Z) (l : list Z) : list Z :=
  match l with
  | [] => []
  | b :: l => Z.lxor b (default 0 (zget key (i mod 4))) :: xor_from key (i + 1) l
  end.

Definition mask (key l : list Z) : list Z := xor_from key 0 l.

Definition key_ok (key : list Z) : Prop := zlen key = 4 /\ bytes_ok key.

Lemma zlen_xor key l : forall i, zlen (xor_from key i l) = zlen l.
Proof. induction l as [| b l IH]; intros i; [done |]. cbn [xor_from]. by rewrite !zlen_cons, IH. Qed.

Lemma xor_involutive key l : forall i, xor_from key i (xor_from key i l) = l.
Proof.
  induction l as [| b l IH]; intros i; [done |]. cbn [xor_from]. by rewrite IH, Z.lxor_assoc, Z.lxor_nilpotent, Z.lxor_0_r.
Qed.

Lemma key_byte key i : key_ok key -> exists k, zget key (i mod 4) = Some k /\ byte k.
Proof.
  intros [Hl Hb]. pose proof (Z.mod_pos_bound i 4 ltac:(lia)). destruct (zget_Some key (i mod 4)) as [k Hk]; [lia |].
  exists k. split; [done |]. unfold bytes_ok in Hb. rewrite list.Forall_forall in Hb. apply Hb. by eapply list_elem_of_lookup_2.
Qed.

Lemma xor_bytes key l : key_ok key -> bytes_ok l -> forall i, bytes_ok (xor_from key i l).
Proof.
  intros Hk Hl. induction l as [| b l IH]; intros i; [constructor |]. apply bytes_ok_cons in Hl as [Hb Hl]. cbn [xor_from].
  apply bytes_ok_cons. split; [| by apply IH]. destruct (key_byte key i Hk) as (k & -> & Hkb). by apply lxor_byte.
Qed.

Lemma rd_key {E} key i : key_ok key -> @rd E key (i mod 4) = Done (default 0 (zget key (i mod 4))).
Proof.
  intros [Hl _]. pose proof (Z.mod_pos_bound i 4 ltac:(lia)). destruct (@rd_Done E key (i mod 4)) as (b & -> & Hb); [lia |].
  unfold zget. by rewrite Hb.
Qed.

Lemma mask_loop_spec {E} key l : key_ok key -> forall pre post i,
  @mask_loop E (length l) (pre ++ l ++ post) (zlen pre - i) i key = Done (pre ++ xor_from key i l ++ post).
Proof.
  intros Hk. induction l as [| b l IH]; intros pre post i; [done |]. cbn [length mask_loop]. pose proof (zlen_nonneg pre).
  replace (zlen pre - i + i) with (zlen pre + 0) by lia. rewrite rd_app_r by lia. simpl app. rewrite rd_at0. cbn [obind].
  rewrite rd_key by done. cbn [obind]. rewrite wr_splice; [| rewrite zlen_app, zlen_cons; pose proof (zlen_nonneg (l ++ post)); lia].
  cbn [obind]. set (x := Z.lxor b _).
  assert (splice (pre ++ b :: l ++ post) (zlen pre + 0) [x] = (pre ++ [x]) ++ l ++ post) as ->.
  { unfold splice. rewrite Z.add_0_r, ztake_app. change (zlen [x]) with 1. rewrite <- (zdrop_zdrop 1 (zlen pre)), zdrop_app by lia.
    rewrite <- app_assoc. done. }
  replace (zlen pre - i) with (zlen (pre ++ [x]) - (i + 1)) by (rewrite zlen_app; change (zlen [x]) with 1; lia).
  rewrite IH. cbn [xor_from]. rewrite <- app_assoc. done.
Qed.

(** The whole payload [l] of a buffer is masked. *)
Lemma mask_payload {E} key l pre post n pos : key_ok key -> n = length l -> pos = zlen pre ->
  @mask_loop E n (pre ++ l ++ post) pos 0 key = Done (pre ++ mask key l ++ post).
Proof. intros Hk -> ->. pose proof (@mask_loop_spec E key l Hk pre post 0) as H. by rewrite Z.sub_0_r in H. Qed.

(** Masking past the end leaves the buffer. *)
Lemma mask_loop_ub {E} key n : key_ok key -> forall buf pos i, 0 <= pos + i <= zlen buf -> zlen buf < pos + i + Z.of_nat n ->
  @mask_loop E n buf pos i key = Ub.
Proof.
  intros Hk. induction n as [| n IH]; intros buf pos i Hp Hlen; [lia |]. cbn [mask_loop].
  destruct (Z.eq_dec (pos + i) (zlen buf)) as [Heq | Hne].
  - unfold rd at 1. rewrite (proj2 (Z.ltb_ge _ _)) by lia. by rewrite lookup_ge_None_2 by (unfold zlen in *; lia).
  - destruct (@rd_Done E buf (pos + i)) as (b & -> & _); [lia |]. cbn [obind]. rewrite rd_key by done. cbn [obind].
    rewrite wr_splice by lia. cbn [obind]. apply IH; rewrite zlen_splice; change (zlen [_]) with 1; lia.
Qed.

(** ** Wire images *)

Definition len_code (n : Z) : Z := if n <=? 125 then n else if n <=? 65535 then 126 else 127.
Definition len_ext (n : Z) : list Z := if n <=? 125 then [] else if n <=? 65535 then be_bytes 2 n else be_bytes 8 n.

Definition first_byte (fin : bool) (opcode : Z) : Z := (if fin then 0x80 else 0) ||| (opcode &&& 0x0F).
Definition second_byte (masked : bool) (n : Z) : Z := (if masked then 0x80 else 0) ||| len_code n.

Definition ws_header (fin : bool) (opcode : Z) (masked : bool) (key : list Z) (n : Z) : list Z :=
  first_byte fin opcode :: second_byte masked n :: len_ext n ++ (if masked then key else []).

Definition ws_payload (masked : bool) (key p : list Z) : list Z := if masked then mask key p else p.

Definition ws_image (fin : bool) (opcode : Z) (masked : bool) (key p : list Z) : list Z :=
  ws_header fin opcode masked key (zlen p) ++ ws_payload masked key p.

Lemma first_byte_bits fin opcode : 0 <= opcode < 16 -> byte (first_byte fin opcode) /\
  negb ((first_byte fin opcode &&& 0x80) =? 0) = fin /\ first_byte fin opcode &&& 0x0F = opcode.
Proof.
  intros Ho. assert (Forall (fun o => byte (first_byte fin o) /\ negb ((first_byte fin o &&& 0x80) =? 0) = fin /\
    first_byte fin o &&& 0x0F = o) (seqZ 0 16)) as Hall.
  { destruct fin; vm_compute; repeat constructor; (discriminate || done). }
  rewrite list.Forall_forall in Hall. apply Hall. apply elem_of_seqZ. lia.
Qed.

Lemma second_byte_bits masked n : 0 <= n -> byte (second_byte masked n) /\
  negb ((second_byte masked n &&& 0x80) =? 0) = masked /\ second_byte masked n &&& 0x7F = len_code n.
Proof.
  intros Hn. unfold second_byte. assert (0 <= len_code n < 128) as Hc by (unfold len_code; zcase; lia). revert Hc. generalize (len_code n).
  intros c Hc. assert (Forall (fun c => let b := (if masked then 0x80 else 0) ||| c in byte b /\ negb ((b &&& 0x80) =? 0) = masked /\
    b &&& 0x7F = c) (seqZ 0 128)) as Hall.
  { destruct masked; vm_compute; repeat constructor; (discriminate || done). }
  rewrite list.Forall_forall in Hall. apply Hall. apply elem_of_seqZ. lia.
Qed.

Lemma zlen_ext n : zlen (len_ext n) = if n <=? 125 then 0 else if n <=? 65535 then 2 else 8.
Proof. unfold len_ext. repeat case_match; rewrite ?zlen_be_bytes; done. Qed.

(** ** The encoder *)

Lemma wfits_length masked n : 0 <= n < 2 ^ 64 -> wfits (put_length masked n) (second_byte masked n :: len_ext n).
Proof.
  intros Hn. unfold put_length, second_byte, len_code, len_ext.
  destruct (n <=? 125); [apply wfits_byte |]. destruct (n <=? 65535).
  - replace (be_bytes 2 n) with ([u8 (n >>> 8)] ++ [u8 n]).
    + apply (wfits_seq _ _ [_]); [apply wfits_byte |]. apply wfits_seq; apply wfits_byte.
    + cbn [be_bytes app]. unfold u8. rewrite Z.shiftr_div_pow2 by lia. change (256 ^ Z.of_nat 0) with 1. by rewrite Z.div_1_r.
  - replace (be_bytes 8 n) with ([u8 (n >>> 56)] ++ [u8 (n >>> 48)] ++ [u8 (n >>> 40)] ++ [u8 (n >>> 32)] ++
      [u8 (n >>> 24)] ++ [u8 (n >>> 16)] ++ [u8 (n >>> 8)] ++ [u8 (n >>> 0)]).
    + apply (wfits_seq _ _ [_]); [apply wfits_byte |]. repeat (apply wfits_seq; [apply wfits_byte |]). apply wfits_byte.
    + cbn [be_bytes app]. unfold u8. rewrite !Z.shiftr_div_pow2 by lia. done.
Qed.

(** A frame as the application builds it. *)
Record frame_ok (f : ws_frame (option (list Z))) (p : list Z) : Prop := FrameOk {
  fo_opcode : 0 <= wf_opcode f < 16;
  fo_key : wf_masked f = true -> key_ok (wf_mask_key f);
  fo_len : wf_payload_len f = zlen p;
  fo_payload : wf_payload f = Some p \/ (p = [] /\ wf_payload f = None);
  fo_bytes : bytes_ok p
}.

Definition frame_image (f : ws_frame (option (list Z))) (p : list Z) : list Z :=
  ws_image (wf_fin f) (wf_opcode f) (wf_masked f) (wf_mask_key f) p.

Lemma zlen_payload masked key p : zlen (ws_payload masked key p) = zlen p.
Proof. destruct masked; [apply zlen_xor | done]. Qed.

Lemma put_payload_fits f p buf pos : frame_ok f p -> zlen buf < 2 ^ 63 -> 0 <= pos -> pos + zlen p <= zlen buf ->
  ws_put_payload f buf pos = WOk (splice buf pos (ws_payload (wf_masked f) (wf_mask_key f) p)) (pos + zlen p).
Proof.
  intros [_ Hk Hl Hp _] Hb Hpos Hfit. unfold ws_put_payload. rewrite Hl. pose proof (zlen_nonneg p).
  assert (zlen p = 0 -> p = []) as Hnil by (destruct p; [done |]; rewrite zlen_cons; pose proof (zlen_nonneg p); lia).
  destruct (Z.eq_dec (zlen p) 0) as [Hz | Hz].
  { rewrite (Hnil Hz) in *. assert (ws_payload (wf_masked f) (wf_mask_key f) [] = []) as -> by by destruct (wf_masked f).
    rewrite splice_nil, Z.add_0_r. destruct Hp as [-> | [_ ->]]; done. }
  destruct Hp as [-> | [-> _]]; [| done].
  rewrite !Z.gtb_ltb, (proj2 (Z.ltb_lt 0 _)), u64_small, (proj2 (Z.ltb_ge _ _)) by lia.
  pose proof (wfits_mem p (zlen p) ltac:(lia) buf pos Hpos) as Hm. rewrite ztake_all in Hm by lia. rewrite Hm by lia.
  destruct (wf_masked f) eqn:Hmk; [| done]. unfold splice.
  rewrite (@mask_payload unit (wf_mask_key f) p (ztake pos buf)); [| by apply Hk | unfold zlen; lia | rewrite zlen_ztake; lia].
  cbn [ws_payload]. unfold mask. by rewrite zlen_xor.
Qed.

Lemma ws_encode_spec f p buf : frame_ok f p -> zlen buf < 2 ^ 63 -> zlen (frame_image f p) <= zlen buf ->
  ws_frame_encode f buf = Done (zlen (frame_image f p), splice buf 0 (frame_image f p)).
Proof.
  intros Hok Hb Hfit. unfold ws_frame_encode, run_writer. pose proof Hok as [Ho Hk Hl _ _]. pose proof (zlen_nonneg p).
  set (h := ws_header (wf_fin f) (wf_opcode f) (wf_masked f) (wf_mask_key f) (zlen p)).
  unfold frame_image, ws_image in *. fold h in Hfit |- *. rewrite zlen_app, zlen_payload in *. pose proof (zlen_nonneg h).
  set (w := (put_byte (first_byte (wf_fin f) (wf_opcode f)) ;; put_length (wf_masked f) (wf_payload_len f) ;; (if wf_masked f then put_mem (wf_mask_key f) 4 else wdone))%W).
  assert (wfits w h) as Hw.
  { unfold w, h, ws_header. rewrite Hl. apply (wfits_seq _ _ [_]); [apply wfits_byte |].
    apply (wfits_seq _ _ (second_byte (wf_masked f) (zlen p) :: len_ext (zlen p))); [apply wfits_length; lia |].
    destruct (wf_masked f) eqn:Hm; [| apply wfits_done]. destruct (Hk eq_refl) as [Hk4 _].
    rewrite <- (ztake_all 4 (wf_mask_key f)) at 2 by lia. apply wfits_mem. lia. }
  assert (forall a b c d : writer, ((a ;; b ;; c ;; d) buf 0)%W = (((a ;; b ;; c) ;; d) buf 0)%W) as ->.
  { intros a b c d. unfold wseq. destruct (a buf 0) as [b1 p1 | |]; [| done | done]. destruct (b b1 p1) as [b2 p2 | |]; [| done | done].
    by destruct (c b2 p2). }
  fold (first_byte (wf_fin f) (wf_opcode f)). fold w.
  unfold wseq at 1. rewrite Hw by lia. rewrite (put_payload_fits f p) by (done || rewrite ?zlen_splice; lia).
  rewrite splice_splice by (rewrite ?zlen_payload; lia). done.
Qed.

(** ** The decoder on images *)

Lemma length_loop_spec l : forall pre post acc, bytes_ok l -> 0 <= acc -> acc * 256 ^ zlen l + be_val l < 2 ^ 64 ->
  length_loop (length l) (pre ++ l ++ post) (zlen pre) acc = Done (acc * 256 ^ zlen l + be_val l).
Proof.
  induction l as [| b l IH]; intros pre post acc Hl Ha Hmax.
  { cbn [length length_loop]. rewrite zlen_nil. cbn [be_val]. f_equal. lia. }
  apply bytes_ok_cons in Hl as [Hb Hl]. pose proof (be_val_range l Hl) as Hr. pose proof (zlen_nonneg l). pose proof (zlen_nonneg pre).
  assert (0 < 256 ^ zlen l) by (apply Z.pow_pos_nonneg; lia). cbn [be_val] in *. rewrite zlen_cons, Z.pow_add_r in * by lia.
  cbn [length length_loop]. replace (zlen pre) with (zlen pre + 0) at 1 by lia. rewrite rd_app_r by lia. simpl app. rewrite rd_at0. cbn [obind].
  assert (acc * 256 < 2 ^ 64) by nia.
  assert (u64 (acc <<< 8) ||| b = acc * 256 + b) as ->.
  { rewrite Z.shiftl_mul_pow2 by lia. change (2 ^ 8) with 256. rewrite u64_small by lia.
    apply (lor_disjoint _ _ 8); [lia | | done]. change (2 ^ 8) with 256. by apply Z.mod_mul. }
  replace (pre ++ b :: l ++ post) with ((pre ++ [b]) ++ l ++ post) by by rewrite <- app_assoc.
  replace (zlen pre + 1) with (zlen (pre ++ [b])) by (rewrite zlen_app; done).
  rewrite IH; [| done | lia | nia]. f_equal. change (256 ^ 1) with 256. nia.
Qed.

(** The length is read back, once its bytes are there. *)
Lemma decode_length_short n buf buf_len : 0 <= n -> 2 <= buf_len < 2 + zlen (len_ext n) ->
  decode_length (len_code n) buf buf_len = Done None.
Proof.
  intros Hn. rewrite zlen_ext. unfold decode_length, len_code. destruct (Z.leb_spec n 125); [lia |].
  destruct (Z.leb_spec n 65535); intros Hb.
  - change (126 =? 126) with true. cbv iota. by rewrite (proj2 (Z.ltb_lt _ _)) by lia.
  - change (127 =? 126) with false. change (127 =? 127) with true. cbv iota. by rewrite (proj2 (Z.ltb_lt _ _)) by lia.
Qed.

Lemma decode_length_full n b0 b1 tail buf_len : 0 <= n < 2 ^ 64 -> 2 + zlen (len_ext n) <= buf_len ->
  decode_length (len_code n) (b0 :: b1 :: len_ext n ++ tail) buf_len = Done (Some (n, 2 + zlen (len_ext n))).
Proof.
  intros Hn. rewrite zlen_ext. unfold decode_length, len_code, len_ext.
  destruct (Z.leb_spec n 125); [intros _; destruct (Z.eqb_spec n 126), (Z.eqb_spec n 127); (lia || done) |].
  destruct (Z.leb_spec n 65535); intros Hb.
  - change (126 =? 126) with true. cbv iota. rewrite (proj2 (Z.ltb_ge _ _)) by lia. cbn [be_bytes app]. rewrite rd_at2, rd_at3. cbn [obind]. do 3 f_equal.
    rewrite Z.shiftl_mul_pow2, (lor_disjoint _ _ 8); [| lia | by apply Z.mod_mul | apply Z.mod_pos_bound; lia | lia].
    change (256 ^ Z.of_nat 1) with 256. change (256 ^ Z.of_nat 0) with 1. change (2 ^ 8) with 256. rewrite Z.div_1_r.
    rewrite (Z.mod_small (n / 256)) by (split; [apply Z.div_pos | apply Z.div_lt_upper_bound]; lia).
    pose proof (Z.div_mod n 256 ltac:(lia)). lia.
  - change (127 =? 126) with false. change (127 =? 127) with true. cbv iota. rewrite (proj2 (Z.ltb_ge _ _)) by lia.
    pose proof (length_loop_spec (be_bytes 8 n) [b0; b1] tail 0 (be_bytes_ok 8 n) ltac:(lia)) as Hl.
    rewrite length_be_bytes, be_val_be_bytes_small in Hl by (change (256 ^ Z.of_nat 8) with (2 ^ 64); lia).
    change (b0 :: b1 :: be_bytes 8 n ++ tail) with ([b0; b1] ++ be_bytes 8 n ++ tail). change 2 with (zlen [b0; b1]) at 1.
    rewrite Hl by lia. done.
Qed.

Lemma zlen_header fin opcode masked key n : (masked = true -> key_ok key) ->
  zlen (ws_header fin opcode masked key n) = 2 + zlen (len_ext n) + (if masked then 4 else 0).
Proof.
  intros Hk. unfold ws_header. rewrite !zlen_cons, zlen_app. destruct masked; [destruct (Hk eq_refl) as [-> _] |]; rewrite ?zlen_nil; lia.
Qed.

Lemma zlen_ext_range n : 0 <= zlen (len_ext n) <= 8.
Proof. rewrite zlen_ext. repeat case_match; lia. Qed.

(** What the decoder does once the whole header is there. *)
Lemma decode_after_header fin opcode masked key n rest buf_len : 0 <= opcode < 16 -> (masked = true -> key_ok key) ->
  0 <= n < 2 ^ 63 -> let h := ws_header fin opcode masked key n in zlen h <= buf_len ->
  ws_frame_decode (h ++ rest) buf_len =
    if buf_len <? zlen h + n then Done (0, None, h ++ rest) else
    let! buf := if masked then mask_loop (Z.to_nat n) (h ++ rest) (zlen h) 0 key else Done (h ++ rest) in
    Done (zlen h + n, Some (WsFrame opcode fin masked (if masked then key else []) n (zlen h)), buf).
Proof.
  intros Ho Hk Hn h Hh. pose proof (zlen_header fin opcode masked key n Hk) as Hl. fold h in Hl. pose proof (zlen_ext_range n) as Hx.
  destruct (first_byte_bits fin opcode Ho) as (_ & Hf & Hop). destruct (second_byte_bits masked n ltac:(lia)) as (_ & Hm & Hc).
  unfold ws_frame_decode. rewrite (proj2 (Z.ltb_ge _ _)) by (destruct masked; lia).
  assert (h ++ rest = first_byte fin opcode :: second_byte masked n :: len_ext n ++ (if masked then key else []) ++ rest) as Hbuf.
  { unfold h, ws_header. simpl app. by rewrite <- app_assoc. }
  assert (@rd unit (h ++ rest) 0 = Done (first_byte fin opcode)) as -> by by rewrite Hbuf.
  assert (@rd unit (h ++ rest) 1 = Done (second_byte masked n)) as -> by by rewrite Hbuf.
  cbn [obind]. rewrite Hf, Hop, Hm, Hc.
  assert (decode_length (len_code n) (h ++ rest) buf_len = Done (Some (n, 2 + zlen (len_ext n)))) as ->.
  { rewrite Hbuf. apply decode_length_full; destruct masked; lia. }
  cbn [obind]. destruct masked.
  - rewrite (proj2 (Z.ltb_ge _ (_ + 4))) by lia. cbn [andb].
    replace (2 + zlen (len_ext n) + 4) with (zlen h) by lia.
    replace (@sub_buf unit (h ++ rest) (2 + zlen (len_ext n)) 4) with (@Done unit (list Z) key).
    + cbn [obind]. rewrite u64_small by lia. done.
    + symmetry. destruct (Hk eq_refl) as [Hk4 _].
      rewrite Hbuf. change (first_byte fin opcode :: second_byte true n :: len_ext n ++ key ++ rest)
        with ((first_byte fin opcode :: second_byte true n :: len_ext n) ++ key ++ rest).
      apply sub_buf_app; [rewrite !zlen_cons; lia | lia].
  - cbn [andb obind]. replace (2 + zlen (len_ext n)) with (zlen h) by lia. rewrite u64_small by lia. done.
Qed.

(** A complete frame is decoded and unmasked in place. *)
Lemma ws_decode_image fin opcode masked key p tail buf_len : 0 <= opcode < 16 -> (masked = true -> key_ok key) ->
  zlen p < 2 ^ 63 -> let h := ws_header fin opcode masked key (zlen p) in zlen h + zlen p <= buf_len ->
  ws_frame_decode (ws_image fin opcode masked key p ++ tail) buf_len =
    Done (zlen h + zlen p, Some (WsFrame opcode fin masked (if masked then key else []) (zlen p) (zlen h)), h ++ p ++ tail).
Proof.
  intros Ho Hk Hp h Hlen. pose proof (zlen_nonneg p). unfold ws_image. fold h. rewrite <- app_assoc.
  unfold h. rewrite decode_after_header by (done || fold h; lia). fold h. rewrite (proj2 (Z.ltb_ge _ _)) by lia.
  destruct masked; [| done]. cbn [ws_payload].
  rewrite (mask_payload key (mask key p) h) by (auto || rewrite <- (zlen_xor key p 0); unfold mask, zlen; lia).
  unfold mask. by rewrite xor_involutive.
Qed.

Lemma app_prefix {A} (q w a b : list A) : q ++ w = a ++ b -> zlen a <= zlen q -> exists r, q = a ++ r.
Proof.
  intros Hq Hl. exists (zdrop (zlen a) q). rewrite <- (ztake_zdrop (zlen a) q) at 1. f_equal.
  rewrite <- (ztake_app a b) at 2. rewrite <- Hq. unfold ztake, zlen in *. by rewrite take_app_le by lia.
Qed.

(** An incomplete one is left alone. *)
Lemma ws_decode_partial fin opcode masked key p q w z tail : 0 <= opcode < 16 -> (masked = true -> key_ok key) ->
  zlen p < 2 ^ 63 -> q ++ w = ws_image fin opcode masked key p ++ z -> zlen q < zlen (ws_image fin opcode masked key p) ->
  ws_frame_decode (q ++ tail) (zlen q) = Done (0, None, q ++ tail).
Proof.
  intros Ho Hk Hp Hq Hlt. pose proof (zlen_nonneg p). unfold ws_image in *. set (h := ws_header fin opcode masked key (zlen p)) in *.
  rewrite zlen_app, zlen_payload in Hlt. rewrite <- app_assoc in Hq. destruct (Z.le_gt_cases (zlen h) (zlen q)) as [Hge | Hlt'].
  { destruct (app_prefix q w h _ Hq Hge) as [r ->]. rewrite <- app_assoc. unfold h. rewrite decode_after_header by done. fold h.
    by rewrite (proj2 (Z.ltb_lt _ _)) by lia. }
  unfold ws_frame_decode. destruct (Z.ltb_spec (zlen q) 2) as [| H2]; [done |].
  destruct q as [| b0 [| b1 q]]; [by rewrite zlen_nil in H2 | by rewrite zlen_cons, zlen_nil in H2 |].
  simpl app. rewrite rd_at0, rd_at1. cbn [obind]. unfold h, ws_header in Hq. injection Hq as -> -> Hq.
  destruct (second_byte_bits masked (zlen p) ltac:(lia)) as (_ & Hm & Hc). rewrite Hm, Hc.
  pose proof (zlen_header fin opcode masked key (zlen p) Hk) as Hl. fold h in Hl.
  destruct (Z.lt_ge_cases (zlen (first_byte fin opcode :: second_byte masked (zlen p) :: q)) (2 + zlen (len_ext (zlen p)))) as [Hs | Hf].
  { rewrite decode_length_short by lia. done. }
  rewrite <- !app_assoc in Hq. destruct (app_prefix q w (len_ext (zlen p)) _ Hq) as [r ->]; [rewrite !zlen_cons in Hf; lia |].
  rewrite <- app_assoc, decode_length_full by lia. cbn [obind]. rewrite Hl in Hlt'. destruct masked; [| lia].
  by rewrite (proj2 (Z.ltb_lt _ _)) by lia.
Qed.

(** C34: A frame that is encoded, with any payload, mask, opcode and FIN bit, is
    decoded from the front of the receive buffer, with the payload unmasked in
    place and the bytes behind it untouched; the encoder writes exactly its bytes. *)
Theorem ws_frame_roundtrip f p buf tail buf_len : frame_ok f p -> zlen buf < 2 ^ 63 ->
  zlen (frame_image f p) <= zlen buf -> zlen (frame_image f p) <= buf_len ->
  exists out pos, ws_frame_encode f buf = Done (zlen (frame_image f p), out) /\
    zlen out = zlen buf /\ zdrop (zlen (frame_image f p)) out = zdrop (zlen (frame_image f p)) buf /\
    ws_frame_decode (ztake (zlen (frame_image f p)) out ++ tail) buf_len =
      Done (zlen (frame_image f p), Some (WsFrame (wf_opcode f) (wf_fin f) (wf_masked f)
              (if wf_masked f then wf_mask_key f else []) (zlen p) pos), ztake pos out ++ p ++ tail).
Proof.
  intros Hok Hb Hfit Hlen. pose proof Hok as [Ho Hk _ _ _]. pose proof (zlen_nonneg p). rewrite (ws_encode_spec f p buf Hok Hb Hfit).
  set (img := frame_image f p) in *. set (h := ws_header (wf_fin f) (wf_opcode f) (wf_masked f) (wf_mask_key f) (zlen p)).
  assert (zlen img = zlen h + zlen p) as Himg by (unfold img, frame_image, ws_image; by rewrite zlen_app, zlen_payload).
  assert (zlen (splice buf 0 img) = zlen buf) as Hsp by (apply zlen_splice; lia). pose proof (zlen_nonneg h).
  exists (splice buf 0 img), (zlen h). split; [done |]. split; [done |]. rewrite splice_0, zdrop_app, ztake_app. split; [done |].
  unfold img at 1, frame_image. rewrite ws_decode_image by (done || fold h; lia). fold h. rewrite <- Himg. do 2 f_equal.
  unfold img, frame_image, ws_image. fold h. by rewrite <- app_assoc, ztake_app.
Qed.

Definition sample_frame : ws_frame (option (list Z)) := WsFrame WS_OP_BINARY true true [1; 2; 3; 4] 5 (Some [10; 20; 30; 40; 50]).

Lemma sample_frame_ok : frame_ok sample_frame [10; 20; 30; 40; 50].
Proof. split; [by_compute | | done | by left | repeat constructor; done]. intros _. split; [done | repeat constructor; done]. Qed.

Lemma ws_frame_roundtrip_witness : exists out pos, ws_frame_encode sample_frame (zeros 20) = Done (11, out) /\
  ws_frame_decode (ztake 11 out ++ [7]) 12 = Done (11, Some (WsFrame WS_OP_BINARY true true [1; 2; 3; 4] 5 pos), ztake pos out ++ [10; 20; 30; 40; 50] ++ [7]).
Proof.
  destruct (ws_frame_roundtrip sample_frame [10; 20; 30; 40; 50] (zeros 20) [7] 12 sample_frame_ok) as (out & pos & He & _ & _ & Hd);
    [by_compute | by_compute | by_compute |]. by exists out, pos.
Defined.

(** ** The decoder on arbitrary bytes *)

Lemma land_7f b : byte b -> 0 <= b &&& 0x7F < 128.
Proof. intros Hb. change 0x7F with (Z.ones 7). rewrite Z.land_ones by lia. apply Z.mod_pos_bound. done. Qed.

Lemma decode_length_total c b0 b1 l n : bytes_ok l -> 0 <= c < 128 -> 2 <= n <= 2 + zlen l ->
  (decode_length c (b0 :: b1 :: l) n = Done None /\ n < 10) \/
  exists p_len pos, decode_length c (b0 :: b1 :: l) n = Done (Some (p_len, pos)) /\ 2 <= pos <= 10 /\ pos <= n /\
    0 <= p_len < 2 ^ 64 /\ (if c =? 127 then pos = 10 /\ p_len = be_val (ztake 8 l) else p_len < 65536).
Proof.
  intros Hl Hc Hn. unfold decode_length. destruct (Z.eqb_spec c 126) as [-> | Hne].
  - destruct (Z.ltb_spec n 4); [left; split; [done | lia] |]. destruct l as [| hi [| lo l]]; rewrite ?zlen_cons, ?zlen_nil in Hn; [lia.. |].
    apply bytes_ok_cons in Hl as [Hhi Hl]. apply bytes_ok_cons in Hl as [Hlo Hl]. rewrite rd_at2, rd_at3. cbn [obind]. right.
    eexists _, _. split; [reflexivity |]. rewrite Z.shiftl_mul_pow2, (lor_disjoint _ _ 8); [| lia | by apply Z.mod_mul | done | lia].
    change (2 ^ 8) with 256. change (126 =? 127) with false. cbv iota. lia.
  - destruct (Z.eqb_spec c 127) as [-> | Hne']; [| right; eexists _, _; split; [reflexivity |]; lia].
    destruct (Z.ltb_spec n 10); [by left | right].
    assert (zlen (ztake 8 l) = 8) as H8 by (apply zlen_ztake; lia). pose proof (bytes_ok_take 8 l Hl) as Ht.
    pose proof (be_val_range _ Ht) as Hr. rewrite H8 in Hr. change (256 ^ 8) with (2 ^ 64) in Hr.
    pose proof (length_loop_spec (ztake 8 l) [b0; b1] (zdrop 8 l) 0 Ht ltac:(lia) ltac:(lia)) as Hll. rewrite ztake_zdrop in Hll.
    replace (length (ztake 8 l)) with 8%nat in Hll by (unfold zlen in H8; lia). change (zlen [b0; b1]) with 2 in Hll.
    simpl app in Hll. rewrite Hll. cbn [obind]. eexists _, _. split; [reflexivity |]. lia.
Qed.

(** The frame announces so many bytes that adding its header wraps around. *)
Definition ws_oversized (buf : list Z) : bool :=
  match buf with
  | _ :: b1 :: l => ((b1 &&& 0x7F) =? 127) && (2 ^ 64 - 14 <=? be_val (ztake 8 l))
  | _ => false
  end.

Definition ws_masked (buf : list Z) : bool := match buf with _ :: b1 :: _ => negb ((b1 &&& 0x80) =? 0) | _ => false end.

Lemma sub_key {E} buf pos : bytes_ok buf -> 0 <= pos -> pos + 4 <= zlen buf ->
  exists key, @sub_buf E buf pos 4 = Done key /\ key_ok key.
Proof.
  intros Hb Hp Hl. rewrite sub_buf_Done by lia. eexists. split; [done |].
  split; [by rewrite zlen_ztake by (rewrite zlen_zdrop; lia) | by apply bytes_ok_take, bytes_ok_drop].
Qed.

Lemma mask_loop_total {E} buf pos n key : key_ok key -> bytes_ok buf -> 0 <= pos -> 0 <= n -> pos + n <= zlen buf ->
  exists buf', @mask_loop E (Z.to_nat n) buf pos 0 key = Done buf' /\ zlen buf' = zlen buf /\ bytes_ok buf'.
Proof.
  intros Hk Hb Hp Hn Hl. set (pre := ztake pos buf). set (mid := ztake n (zdrop pos buf)). set (post := zdrop n (zdrop pos buf)).
  assert (buf = pre ++ mid ++ post) as Hbuf by (unfold pre, mid, post; by rewrite !ztake_zdrop).
  assert (zlen mid = n) as Hm by (apply zlen_ztake; rewrite zlen_zdrop; lia).
  exists (pre ++ mask key mid ++ post). rewrite Hbuf at 1. rewrite mask_payload; [| done | unfold zlen in Hm; lia | unfold pre; rewrite zlen_ztake; lia].
  split; [done |]. rewrite Hbuf in Hb. rewrite Hbuf. unfold mask. rewrite !zlen_app, zlen_xor. split; [done |].
  apply bytes_ok_app in Hb as [H1 H2]. apply bytes_ok_app in H2 as [H2 H3]. rewrite !bytes_ok_app. split_and!; [done | by apply xor_bytes | done].
Qed.

(** What the decoder returns for a frame inside the first [n] bytes. *)
Definition decoded_inside (buf : list Z) (n : Z) (r : outcome unit (Z * option (ws_frame Z) * list Z)) : Prop :=
  exists c f buf', r = Done (c, f, buf') /\ zlen buf' = zlen buf /\ bytes_ok buf' /\
    match f with
    | None => c = 0 /\ buf' = buf
    | Some f => 2 <= wf_payload f /\ 0 <= wf_payload_len f /\ c = wf_payload f + wf_payload_len f /\ c <= n
    end.

(** Without a mask the buffer is not changed. *)
Lemma decoded_plain buf n opcode fin p_len pos : bytes_ok buf -> 2 <= pos -> 0 <= p_len ->
  decoded_inside buf n (if n <? pos + p_len then Done (0, None, buf) else
    Done (pos + p_len, Some (WsFrame opcode fin false [] p_len pos), buf)).
Proof.
  intros Hb Hpos Hp. unfold decoded_inside. destruct (Z.ltb_spec n (pos + p_len)); [by exists 0, None, buf |].
  eexists _, _, _. split; [done |]. cbn. split_and!; [done | done | lia..].
Qed.

(** On arbitrary bytes the frame decoder stays within the buffer and returns
    a frame that lies within the bytes received, or nothing, unless the announced
    length is so large that the check wraps around; and for those lengths a masked
    frame makes it write past the end of the buffer. *)
Theorem ws_decode_exact buf n : bytes_ok buf -> 0 <= n <= zlen buf -> zlen buf < 2 ^ 62 ->
  (ws_oversized buf = false -> decoded_inside buf n (ws_frame_decode buf n)) /\
  (ws_oversized buf = true -> ws_masked buf = true -> 14 <= n -> ws_frame_decode buf n = Ub).
Proof.
  intros Hb Hn Hz. unfold ws_frame_decode, decoded_inside.
  destruct (Z.ltb_spec n 2); [split; [intros _; by exists 0, None, buf | intros; lia] |].
  destruct buf as [| b0 [| b1 l]]; [unfold zlen in Hn; cbn in Hn; lia.. |]. rewrite !zlen_cons in Hn. rewrite rd_at0, rd_at1. cbn [obind].
  pose proof Hb as Hb'. apply bytes_ok_cons in Hb' as [_ Hb']. apply bytes_ok_cons in Hb' as [Hb1 Hl].
  unfold ws_oversized, ws_masked. set (masked := negb ((b1 &&& 128) =? 0)). pose proof (land_7f b1 Hb1) as Hc.
  set (buf := b0 :: b1 :: l) in *. assert (n <= zlen buf) as Hnb by (unfold buf; rewrite !zlen_cons; lia).
  destruct (decode_length_total (b1 &&& 127) b0 b1 l n Hl Hc ltac:(lia)) as [[Hd Hn10] | (p_len & pos & Hd & Hpos & Hpn & Hp & Hcase)];
    fold buf in Hd; rewrite Hd; cbn [obind]; [split; [intros _; by exists 0, None, buf | intros; lia] |].
  split.
  - intros Hno. assert (p_len < 2 ^ 64 - 14) as Hsmall by (destruct (Z.eqb_spec (b1 &&& 127) 127); [destruct Hcase as [_ ->]; cbn [andb] in Hno; lia | lia]).
    clear Hno. destruct (Z.ltb_spec n (pos + 4)) as [| H4]; destruct masked eqn:Hm; cbn [andb];
      [by exists 0, None, buf | | destruct (@sub_key unit buf pos Hb) as (key & -> & Hk); [lia | lia |] |]; cbn [obind];
      rewrite u64_small by lia.
    + apply decoded_plain; (done || lia).
    + destruct (Z.ltb_spec n (pos + 4 + p_len)); [by exists 0, None, buf |].
      destruct (@mask_loop_total unit buf (pos + 4) p_len key Hk Hb) as (buf' & -> & Hz' & Hb''); [lia.. |]. cbn [obind].
      eexists _, _, _. split; [done |]. cbn. split_and!; [done | done | lia.. ].
    + apply decoded_plain; (done || lia).
  - intros [H127 Hbig]%andb_prop Hm H14. rewrite Hm, H127 in *. destruct Hcase as [-> ->]. set (p_len := be_val _) in *.
    rewrite (proj2 (Z.ltb_ge n _)) by lia. cbn [andb]. destruct (@sub_key unit buf 10 Hb) as (key & -> & Hk); [lia | lia |]. cbn [obind].
    change (10 + 4) with 14. assert (u64 (14 + p_len) = p_len + 14 - 2 ^ 64) as ->.
    { unfold u64. change 18446744073709551616 with (2 ^ 64). replace (14 + p_len) with (p_len + 14 - 2 ^ 64 + 1 * 2 ^ 64) by lia.
      rewrite Z.mod_add by lia. apply Z.mod_small. lia. }
    rewrite (proj2 (Z.ltb_ge n _)) by lia. by rewrite mask_loop_ub by (done || lia).
Qed.

Definition wrapping_frame : list Z := [0x82; 0xFF; 255; 255; 255; 255; 255; 255; 255; 255; 1; 2; 3; 4].

Lemma ws_decode_exact_witness : decoded_inside [0x82; 3; 1; 2; 3] 5 (ws_frame_decode [0x82; 3; 1; 2; 3] 5) /\
  ws_frame_decode wrapping_frame 14 = Ub.
Proof.
  split.
  - apply (ws_decode_exact [0x82; 3; 1; 2; 3] 5); [repeat constructor; done | by_compute | by_compute | done].
  - apply (ws_decode_exact wrapping_frame 14); [repeat constructor; done | by_compute | by_compute | by_compute | done | by_compute].
Defined.

(** ** The transport as a framed stream *)

Definition ws_new : ws_transport := WsTransport true (zeros WS_BUF_SIZE) 0 (zeros WS_BUF_SIZE).
#[local] Opaque WS_BUF_SIZE.

Lemma ws_buf_size : WS_BUF_SIZE = 65550.
Proof. reflexivity. Qed.

(** The bytes received and not yet returned. *)
Definition ws_pending (ws : ws_transport) : list Z := ztake (ws_recv_pos ws) (ws_recv_buf ws).

Record ws_ok (ws : ws_transport) : Prop := WsOk {
  wo_connected : ws_connected ws = true;
  wo_recv : zlen (ws_recv_buf ws) = WS_BUF_SIZE /\ 0 <= ws_recv_pos ws <= WS_BUF_SIZE;
  wo_bytes : bytes_ok (ws_pending ws);
  wo_send : zlen (ws_send_buf ws) = WS_BUF_SIZE
}.

Definition ws_message (key m : list Z) : list Z := ws_image true WS_OP_BINARY true key m.

Lemma ws_new_ok : ws_ok ws_new /\ ws_pending ws_new = [].
Proof.
  split; [| done]. split; cbn [ws_new ws_connected ws_recv_buf ws_recv_pos ws_send_buf]; [done | | constructor |];
    rewrite zlen_zeros; rewrite ws_buf_size; lia.
Qed.

Lemma zlen_ws_pending ws : ws_ok ws -> zlen (ws_pending ws) = ws_recv_pos ws.
Proof. intros [_ [Hl Hp] _ _]. apply zlen_ztake. lia. Qed.

Lemma ws_room ws : ws_ok ws -> zlen (ws_pending ws) <= WS_BUF_SIZE.
Proof. intros Hok. rewrite zlen_ws_pending by done. apply Hok. Qed.

Lemma zlen_message key m : key_ok key -> zlen (ws_message key m) = 6 + zlen (len_ext (zlen m)) + zlen m.
Proof. intros Hk. unfold ws_message, ws_image. rewrite zlen_app, zlen_header, zlen_payload by done. lia. Qed.

Lemma ext_bytes n : bytes_ok (len_ext n).
Proof. unfold len_ext. repeat case_match; [constructor | apply be_bytes_ok..]. Qed.

Lemma message_bytes key m : key_ok key -> bytes_ok m -> 0 < zlen m <= WS_MAX_PAYLOAD -> bytes_ok (ws_message key m).
Proof.
  intros Hk Hm Hl. unfold ws_message, ws_image, ws_header. simpl app.
  destruct (first_byte_bits true WS_OP_BINARY ltac:(by_compute)) as (? & _ & _).
  destruct (second_byte_bits true (zlen m) ltac:(lia)) as (? & _ & _).
  rewrite !bytes_ok_cons, !bytes_ok_app. split; [done |]. split; [done |].
  split; [split; [apply ext_bytes | apply Hk] | by apply xor_bytes].
Qed.

(** The socket is offered the whole frame; the call reports the whole datagram as
    soon as one byte of it was taken. *)
Lemma ws_send_spec key os_send ws m : ws_ok ws -> key_ok key -> bytes_ok m -> 0 < zlen m <= WS_MAX_PAYLOAD ->
  exists ws', ws_ok ws' /\ ws_send key os_send ws m =
    Done (if os_send (ws_message key m) >? 0 then zlen m else os_send (ws_message key m), ws',
          ztake (os_send (ws_message key m)) (ws_message key m)).
Proof.
  intros [Hc Hr Hb Hs] Hk Hm Hl. unfold ws_send. rewrite Hc. cbn [negb]. pose proof ws_buf_size as Hsz. unfold WS_MAX_PAYLOAD in *.
  assert (forall x : Z, zlen [x] = 1) as L by done. rewrite wr_splice by lia. cbn [obind].
  set (f := WsFrame WS_OP_BINARY true true key (zlen m) (Some m)).
  assert (frame_ok f m) as Hf by (split; [by_compute | done | done | by left | done]).
  pose proof (zlen_message key m Hk) as Hlen. pose proof (zlen_ext_range (zlen m)).
  assert (zlen (splice (ws_send_buf ws) 0 [0]) = WS_BUF_SIZE) as Hsp by (rewrite zlen_splice; rewrite ?L; lia).
  assert (zlen (len_ext (zlen m)) <= 8) by lia.
  rewrite (ws_encode_spec f m) by (done || change (frame_image f m) with (ws_message key m); lia). cbn [obind].
  change (frame_image f m) with (ws_message key m). rewrite (proj2 (Z.eqb_neq _ 0)) by lia.
  rewrite splice_0, sub_buf_front by lia. cbn [obind]. rewrite zdrop_0, (ztake_all _ (ws_message key m)) by lia.
  eexists. split; [| reflexivity]. split; [done | done | done |].
  change (zlen (ws_message key m ++ zdrop (zlen (ws_message key m)) (splice (ws_send_buf ws) 0 [0])) = WS_BUF_SIZE).
  rewrite zlen_app, zlen_zdrop; lia.
Qed.

Lemma ws_send_message key os_send ws m : ws_ok ws -> key_ok key -> bytes_ok m -> 0 < zlen m <= WS_MAX_PAYLOAD -> whole_sends os_send ->
  exists n ws' wire, ws_send key os_send ws m = Done (n, ws', wire) /\ ws_ok ws' /\
    ((n = zlen m /\ wire = ws_message key m) \/ (n <= 0 /\ wire = [])).
Proof.
  intros Hok Hk Hm Hl Hos. destruct (ws_send_spec key os_send ws m Hok Hk Hm Hl) as (ws' & Hok' & ->).
  eexists _, ws', _. split; [reflexivity |]. split; [done |]. destruct (Hos (ws_message key m)) as [-> | Hn].
  - left. pose proof (zlen_message key m Hk). pose proof (zlen_ext_range (zlen m)).
    rewrite Z.gtb_ltb, (proj2 (Z.ltb_lt _ _)) by lia. split; [done |]. by apply ztake_all.
  - right. rewrite Z.gtb_ltb, (proj2 (Z.ltb_ge _ _)) by lia. split; [done |]. by apply ztake_neg.
Qed.

(** The transport with [q] in the front of its buffer. *)
Definition ws_holding (ws : ws_transport) (q tail : list Z) : ws_transport :=
  ws <| ws_recv_buf := q ++ tail |> <| ws_recv_pos := zlen q |>.

Lemma ws_holding_ok ws q tail : ws_ok ws -> bytes_ok q -> zlen (q ++ tail) = WS_BUF_SIZE ->
  ws_ok (ws_holding ws q tail) /\ ws_pending (ws_holding ws q tail) = q.
Proof.
  intros [Hc _ _ Hs] Hq Hl. pose proof (zlen_nonneg q). pose proof (zlen_nonneg tail). rewrite zlen_app in Hl.
  assert (ws_pending (ws_holding ws q tail) = q) as Hp by apply ztake_app.
  split; [| done]. split; [done | | by rewrite Hp | done]. cbn. rewrite zlen_app. lia.
Qed.

(** The socket stores [l] behind what is there. *)
Lemma ws_recv_stored ws cap l : ws_ok ws -> 0 < zlen l -> zlen (ws_pending ws ++ l) <= WS_BUF_SIZE ->
  exists tail, zlen ((ws_pending ws ++ l) ++ tail) = WS_BUF_SIZE /\
    ws_recv ws cap (OsBytes l) = ws_take (ws_holding ws (ws_pending ws ++ l) tail) cap.
Proof.
  intros Hok Hl Hfit. pose proof (zlen_ws_pending ws Hok) as Hp. pose proof (wo_recv _ Hok) as [Hlen Hpos].
  rewrite zlen_app in Hfit. unfold ws_recv. rewrite (wo_connected _ Hok). cbn [negb].
  rewrite memcpy_all by lia. cbn [obind]. rewrite (proj2 (Z.leb_gt _ _)) by lia.
  exists (zdrop (ws_recv_pos ws + zlen l) (ws_recv_buf ws)).
  assert (splice (ws_recv_buf ws) (ws_recv_pos ws) l = (ws_pending ws ++ l) ++ zdrop (ws_recv_pos ws + zlen l) (ws_recv_buf ws)) as Hsp
    by (unfold splice, ws_pending; by rewrite <- app_assoc).
  rewrite <- Hsp. split; [rewrite zlen_splice; lia |]. unfold ws_holding. rewrite <- Hsp. do 2 f_equal. by rewrite zlen_app, Hp.
Qed.

(** What is transmitted to the client of the class: replies to control frames are
    left out. *)
Definition ws_recv_data (ws : ws_transport) (cap : Z) (os : os_recv) : outcome unit (Z * list Z * ws_transport) :=
  let! (n, out, ws, _) := ws_recv ws cap os in Done (n, out, ws).

Lemma ws_recv_partial ws cap l key m w z : ws_ok ws -> key_ok key -> bytes_ok m -> 0 < zlen m <= WS_MAX_PAYLOAD ->
  bytes_ok l -> 0 < zlen l -> zlen (ws_pending ws ++ l) <= WS_BUF_SIZE ->
  (ws_pending ws ++ l) ++ w = ws_message key m ++ z -> zlen (ws_pending ws ++ l) < zlen (ws_message key m) ->
  exists ws', ws_recv_data ws cap (OsBytes l) = Done (0, [], ws') /\ ws_ok ws' /\ ws_pending ws' = ws_pending ws ++ l.
Proof.
  intros Hok Hk Hm Hlen Hl Hpos Hfit Hq Hlt. destruct (ws_recv_stored ws cap l Hok Hpos Hfit) as (tail & Hsz & Hr).
  unfold ws_recv_data. rewrite Hr. set (q := ws_pending ws ++ l) in *. unfold WS_MAX_PAYLOAD in *.
  assert (bytes_ok q) as Hqb by (apply bytes_ok_app; split; [apply Hok | done]).
  unfold ws_take. cbn [ws_holding ws_recv_buf ws_recv_pos].
  change (ws_recv_buf (ws_holding ws q tail)) with (q ++ tail). change (ws_recv_pos (ws_holding ws q tail)) with (zlen q).
  rewrite (ws_decode_partial true WS_OP_BINARY true key m q w z tail) by (done || lia). cbn [obind].
  exists (ws_holding ws q tail). split; [done |]. by apply ws_holding_ok.
Qed.

(** A complete frame in the front of the buffer is taken out and handled by its
    opcode; the other bytes move to the front. *)
Lemma ws_take_image ws fin opcode masked key p rest tail cap : 0 <= opcode < 16 -> (masked = true -> key_ok key) ->
  zlen p <= cap -> zlen p < 2 ^ 63 -> let h := ws_header fin opcode masked key (zlen p) in
  let tail' := zdrop (zlen rest) ((h ++ p ++ rest) ++ tail) in let ws' := ws_holding ws rest tail' in
  ws_take (ws_holding ws (ws_image fin opcode masked key p ++ rest) tail) cap =
    if opcode =? WS_OP_PING then
      let! sent := ws_pong (WsFrame opcode fin masked (if masked then key else []) (zlen p) (zlen h)) (rest ++ tail') in
      Done (0, p, ws', sent)
    else if opcode =? WS_OP_CLOSE then Done (-1, p, ws' <| ws_connected := false |>, [])
    else if opcode =? WS_OP_PONG then Done (0, p, ws', [])
    else Done (zlen p, p, ws', []).
Proof.
  intros Ho Hk Hcap Hp h tail' ws'. set (img := ws_image fin opcode masked key p). set (q := img ++ rest).
  assert (zlen img = zlen h + zlen p) as Himg by (unfold img, ws_image; fold h; by rewrite zlen_app, zlen_payload).
  pose proof (zlen_header fin opcode masked key (zlen p) Hk) as Hh. fold h in Hh. pose proof (zlen_ext_range (zlen p)).
  pose proof (zlen_nonneg rest). pose proof (zlen_nonneg p).
  assert (zlen q = zlen h + zlen p + zlen rest) as Hzq by (unfold q; rewrite zlen_app; lia).
  set (q' := h ++ p ++ rest). assert (zlen q' = zlen q) as Hq' by (unfold q'; rewrite !zlen_app; lia).
  unfold ws_take. change (ws_recv_buf (ws_holding ws q tail)) with (q ++ tail). change (ws_recv_pos (ws_holding ws q tail)) with (zlen q).
  assert (q ++ tail = img ++ rest ++ tail) as Hqt by (unfold q; by rewrite <- app_assoc).
  rewrite Hqt. unfold img at 1. rewrite ws_decode_image by (done || fold h; lia). cbn [obind].
  fold h. rewrite (proj2 (Z.eqb_neq _ 0)) by (destruct masked; lia). cbn [wf_payload_len wf_payload wf_opcode].
  rewrite Z.gtb_ltb, (proj2 (Z.ltb_ge _ _)) by lia. rewrite (sub_buf_app h p) by done. cbn [obind].
  replace (h ++ p ++ rest ++ tail) with (q' ++ tail) by (unfold q'; by rewrite <- !app_assoc).
  destruct (@consume_front unit q' tail (zlen h + zlen p)) as [E1 E2]; [destruct masked; lia |].
  assert (zdrop (zlen h + zlen p) q' = rest) as Hrest.
  { unfold q'. rewrite <- (zdrop_zdrop (zlen p) (zlen h)), zdrop_app, zdrop_app by (destruct masked; lia). done. }
  replace (zlen q' - (zlen h + zlen p)) with (zlen rest) in E1, E2 by lia. rewrite Hrest in E1, E2.
  set (ws1 := ws_holding ws q tail <| ws_recv_buf := q' ++ tail |>).
  change (ws_recv_pos ws1) with (zlen q). replace (zlen q - (zlen h + zlen p)) with (zlen rest) by lia.
  rewrite E1. cbn [obind]. rewrite E2. done.
Qed.

Lemma ws_recv_complete ws cap l key m rest : ws_ok ws -> key_ok key -> bytes_ok m -> 0 < zlen m <= WS_MAX_PAYLOAD ->
  zlen m <= cap -> bytes_ok l -> 0 < zlen l -> zlen (ws_pending ws ++ l) <= WS_BUF_SIZE ->
  ws_pending ws ++ l = ws_message key m ++ rest ->
  exists ws', ws_recv_data ws cap (OsBytes l) = Done (zlen m, m, ws') /\ ws_ok ws' /\ ws_pending ws' = rest.
Proof.
  intros Hok Hk Hm Hlen Hcap Hl Hpos Hfit Hq. destruct (ws_recv_stored ws cap l Hok Hpos Hfit) as (tail & Hsz & Hr).
  unfold ws_recv_data. rewrite Hr, Hq. rewrite Hq in Hsz. unfold WS_MAX_PAYLOAD in *.
  assert (bytes_ok (ws_pending ws ++ l)) as Hqb by (apply bytes_ok_app; split; [apply Hok | done]).
  rewrite Hq in Hqb. apply bytes_ok_app in Hqb as [_ Hrb].
  unfold ws_message at 1. rewrite ws_take_image by (done || lia). cbn [obind]. eexists. split; [reflexivity |].
  apply ws_holding_ok; [done | done |]. pose proof (zlen_nonneg rest).
  unfold ws_message, ws_image in Hsz. rewrite !zlen_app, zlen_payload in Hsz. pose proof (zlen_nonneg tail).
  set (h := ws_header _ _ _ _ _) in *. pose proof (zlen_nonneg h). rewrite zlen_app, zlen_zdrop, !zlen_app by (rewrite !zlen_app; lia). lia.
Qed.

Lemma ws_recv_none ws cap n : ws_ok ws -> n <= 0 -> ws_recv_data ws cap (OsNone n) = Done (n, [], ws).
Proof. intros Hok _. unfold ws_recv_data, ws_recv. by rewrite (wo_connected _ Hok). Qed.

Lemma ws_recv_empty ws cap : ws_ok ws -> ws_recv_data ws cap (OsBytes []) = Done (0, [], ws).
Proof.
  intros Hok. pose proof (wo_recv _ Hok) as [Hl Hp]. unfold ws_recv_data, ws_recv. rewrite (wo_connected _ Hok). cbn [negb].
  rewrite memcpy_all by (change (zlen []) with 0; lia). cbn [obind]. rewrite splice_nil. by destruct ws.
Qed.

#[export] Instance ws_framing : StreamFraming ws_transport (list Z) := {|
  fr_new := ws_new;
  fr_send := ws_send;
  fr_recv := ws_recv_data;
  fr_ok := ws_ok;
  fr_pending := ws_pending;
  fr_size := WS_BUF_SIZE;
  fr_max := WS_MAX_PAYLOAD;
  fr_key := key_ok;
  fr_image := ws_message;
  fr_new_law := ws_new_ok;
  fr_room_law := ws_room;
  fr_image_law := message_bytes;
  fr_send_law := ws_send_message;
  fr_none_law := ws_recv_none;
  fr_empty_law := ws_recv_empty;
  fr_partial_law := ws_recv_partial;
  fr_complete_law := ws_recv_complete
|}.

(** C13: the WebSocket transport preserves datagrams of 1 to 65536 bytes that fit
    the receiver's buffer, when the peer sends no other frames, on a socket that
    takes a whole frame or refuses it.  However the byte stream is then cut into
    pieces and whatever masks are drawn, every call is defined and the datagrams that
    the receiver returns are the first of those whose send succeeded, in order and
    unchanged; as soon as a call completes the next datagram, it returns it. *)
Theorem ws_in_order cap ops : Forall (stream_op_ok cap) ops ->
  exists ch, stream_run (F := ws_framing) cap stream_start ops = Done ch /\ delivers_in_order cap ch.
Proof. apply framed_in_order. Qed.

Definition sample_ws_ops : list (stream_op (K := list Z)) :=
  [StreamWrite [1; 2; 3; 4] zlen [1; 2; 3]; StreamRead 2; StreamIdle (-1); StreamWrite [9; 9; 9; 9] (const 0) [4];
   StreamWrite [9; 9; 9; 9] zlen [4]; StreamRead 20].

Lemma sample_ws_ops_ok : Forall (stream_op_ok (F := ws_framing) 1536) sample_ws_ops.
Proof.
  unfold sample_ws_ops. repeat apply list.Forall_cons_2; try done; (split; [repeat constructor; done |]); [by left | by right | by left].
Qed.

Lemma ws_in_order_witness : exists ch, stream_run (F := ws_framing) 1536 stream_start sample_ws_ops = Done ch /\
  delivers_in_order 1536 ch.
Proof. exact (ws_in_order 1536 sample_ws_ops sample_ws_ops_ok). Defined.

(** ** Where it fails *)

(** A frame that the socket takes in part is reported as sent; the rest of it never
    follows. *)
Theorem ws_cut_send key os_send ws m : ws_ok ws -> key_ok key -> bytes_ok m -> 0 < zlen m <= WS_MAX_PAYLOAD ->
  0 < os_send (ws_message key m) < zlen (ws_message key m) ->
  exists ws' wire, ws_send key os_send ws m = Done (zlen m, ws', wire) /\ zlen wire < zlen (ws_message key m).
Proof.
  intros Hok Hk Hm Hl Hos. destruct (ws_send_spec key os_send ws m Hok Hk Hm Hl) as (ws' & _ & ->).
  rewrite Z.gtb_ltb, (proj2 (Z.ltb_lt _ _)) by lia. eexists ws', _. split; [reflexivity |]. rewrite zlen_ztake; lia.
Qed.

(** The answer to a PING that is followed by more data does not echo the PING:
    its payload is read after the data was moved to the front of the buffer, so the
    PONG carries bytes of the next frames instead. *)
Theorem ws_pong_wrong ws p next tail cap : bytes_ok next -> zlen p <= 100 -> zlen p <= cap -> 2 + zlen p <= zlen next ->
  exists ws', ws_take (ws_holding ws (ws_image true WS_OP_PING false [] p ++ next) tail) cap =
    Done (0, p, ws', ws_image true WS_OP_PONG false [] (ztake (zlen p) (zdrop 2 next))).
Proof.
  intros Hnb Hp Hcap Hnext. pose proof (zlen_nonneg p). rewrite ws_take_image by (done || lia). cbv zeta.
  change (WS_OP_PING =? WS_OP_PING) with true. cbv iota. set (tail' := zdrop _ _). unfold ws_pong. cbn [wf_payload wf_payload_len].
  assert (zlen (ws_header true WS_OP_PING false [] (zlen p)) = 2) as -> by (rewrite zlen_header, zlen_ext by done; zcase; lia).
  pose proof (zlen_nonneg tail'). rewrite Z.min_l by (rewrite zlen_app; lia). rewrite sub_buf_front by lia. cbn [obind].
  set (echo := ztake (zlen p) (zdrop 2 next)). assert (zlen echo = zlen p) as He by (apply zlen_ztake; rewrite zlen_zdrop; lia).
  set (pong := WsFrame WS_OP_PONG true false [0; 0; 0; 0] (zlen p) (Some echo)).
  assert (frame_ok pong echo) as Hok by (split; [by_compute | done | done | by left | by apply bytes_ok_take, bytes_ok_drop]).
  assert (zlen (frame_image pong echo) <= 128) as Hfit.
  { unfold frame_image, ws_image. rewrite zlen_app, zlen_header, zlen_payload, zlen_ext by done. cbn [wf_masked pong]. zcase; lia. }
  rewrite (ws_encode_spec pong echo) by (done || rewrite zlen_zeros; lia). cbn [obind]. rewrite splice_0, ztake_app. by eexists.
Qed.

Lemma ws_pong_wrong_witness : exists ws', ws_take (ws_holding ws_new ([0x89; 1; 42] ++ [0x82; 1; 7]) []) 1536 =
  Done (0, [42], ws', [0x8A; 1; 7]).
Proof.
  apply (ws_pong_wrong ws_new [42] [0x82; 1; 7] [] 1536); [repeat constructor; done | by_compute | by_compute | by_compute].
Defined.
