(* ===== verification/WsHandshake.v ===== *)
(** * The HTTP upgrade of a WebSocket (src/src/transport/websocket/ws_handshake.c)

    Requests and responses as byte strings.  SHA-1 and the base64 encoder are those
    of OpenSSL; random bytes and what the socket delivers are arguments. *)

From stdpp Require Import strings.
From S2P Require Import Prelude CString Types FramedStream WebSocket.

(** OpenSSL's [SHA1] and [EVP_EncodeBlock]. *)
Class WsCrypto := {
  SHA1 : list Z -> list Z;
  EVP_EncodeBlock : list Z -> list Z
}.

(** Letters, digits and [+/=]. *)
Definition base64_char (c : Z) : Prop :=
  65 <= c <= 90 \/ 97 <= c <= 122 \/ 48 <= c <= 57 \/ c = 43 \/ c = 47 \/ c = 61.

Class WsCryptoLaws `{WsCrypto} := {
  sha1_len l : zlen (SHA1 l) = 20;
  base64_len l : zlen (EVP_EncodeBlock l) = 4 * ((zlen l + 2) / 3);
  base64_chars l : Forall base64_char (EVP_EncodeBlock l)
}.

Definition WS_GUID : list Z := ascii "258EAFA5-E914-47DA-95CA-C5AB0DC85B11".
Definition crlf : list Z := [13; 10].

Section Handshake.
Context `{WsCrypto}.

(** ** Definitions *)

Definition generate_key (random : list Z) : list Z := ztake 24 (EVP_EncodeBlock random).

Definition compute_accept (key : list Z) : list Z :=
  let combined := ztake 60 (key ++ WS_GUID) in
  ztake 28 (EVP_EncodeBlock (SHA1 combined)).

Definition client_request (path host key : list Z) : list Z :=
  ascii "GET " ++ path ++ ascii " HTTP/1.1" ++ crlf ++
  ascii "Host: " ++ host ++ crlf ++
  ascii "Upgrade: websocket" ++ crlf ++
  ascii "Connection: Upgrade" ++ crlf ++
  ascii "Sec-WebSocket-Key: " ++ key ++ crlf ++
  ascii "Sec-WebSocket-Version: 13" ++ crlf ++ crlf.

(** The number of bytes, 0 when the buffer is too small, and what is stored in it;
    null pointers have defaults. *)
Definition ws_build_client_handshake (random : list Z) (path host : option (list Z)) (out_cap : Z) : Z * list Z :=
  let path := default (ascii "/") path in
  let host := default (ascii "localhost") host in
  let key := generate_key random in
  let '(n, out) := snprintf (client_request path host key) out_cap in
  (if n >=? out_cap then 0 else n, out).

(** The first CR LF, or else the first LF. *)
Definition line_end {E} (mem : list Z) : outcome E (option Z) :=
  let! e := strstr mem crlf in
  match e with
  | Some _ => Done e
  | None => strchr mem 10
  end.

(** [data] is the memory from the pointer on, [len] the number of bytes received. *)
Definition ws_parse_server_handshake (data : list Z) (len : Z) : outcome nxp_error_code (list Z) :=
  return_if len <? 4 with NXP_ERR_INVALID_ARGUMENT ;;
  let! get := strncmp_eq data (ascii "GET ") in
  return_if negb get with NXP_ERR_INVALID_ARGUMENT ;;
  let! upgrade := strstr data (ascii "Upgrade: websocket") in
  let! upgrade := match upgrade with Some _ => Done upgrade | None => strstr data (crlf ++ ascii "Upgrade: websocket") end in
  return_if bool_decide (upgrade = None) with NXP_ERR_INVALID_ARGUMENT ;;
  let! key_hdr := strstr data (ascii "Sec-WebSocket-Key: ") in
  match key_hdr with
  | None => Err NXP_ERR_INVALID_ARGUMENT
  | Some k =>
      let key_hdr := zdrop (k + 19) data in
      let! key_end := line_end key_hdr in
      match key_end with
      | None => Err NXP_ERR_INVALID_ARGUMENT
      | Some klen =>
          return_if (klen =? 0) || (klen >? 24) with NXP_ERR_INVALID_ARGUMENT ;;
          Done (ztake klen key_hdr)
      end
  end.

Definition server_response (accept : list Z) : list Z :=
  ascii "HTTP/1.1 101 Switching Protocols" ++ crlf ++
  ascii "Upgrade: websocket" ++ crlf ++
  ascii "Connection: Upgrade" ++ crlf ++
  ascii "Sec-WebSocket-Accept: " ++ accept ++ crlf ++ crlf.

Definition ws_build_server_response (key : list Z) (out_cap : Z) : Z * list Z :=
  let '(n, out) := snprintf (server_response (compute_accept key)) out_cap in
  (if n >=? out_cap then 0 else n, out).

Definition ws_validate_client_response (data : list Z) (len : Z) (sent_key : list Z) : outcome unit bool :=
  if len <? 12 then Done false else
  let! ok := strncmp_eq data (ascii "HTTP/1.1 101") in
  if negb ok then Done false else
  let! accept_hdr := strstr data (ascii "Sec-WebSocket-Accept: ") in
  match accept_hdr with
  | None => Done false
  | Some a =>
      let accept_hdr := zdrop (a + 22) data in
      let! e := line_end accept_hdr in
      match e with
      | None => Done false
      | Some alen =>
          if negb (alen =? 28) then Done false else
          Done (bool_decide (ztake 28 accept_hdr = compute_accept sent_key))
      end
  end.

(** What the client really calls: [os] is what the socket delivers, at most 2047
    bytes. *)
Definition ws_complete_handshake (ws : ws_transport) (os : os_recv) : outcome unit (Z * ws_transport) :=
  if ws_connected ws then Done (0, ws) else
  match os with
  | OsNone _ => Done (-1, ws)
  | OsBytes l =>
      if zlen l <=? 0 then Done (-1, ws) else
      let! found := strstr (l ++ [0]) (ascii "101") in
      match found with
      | None => Done (-1, ws)
      | Some _ => Done (0, ws <| ws_connected := true |>)
      end
  end.

(** ** Strings *)

(** A path or host: without zero byte and colon. *)
Definition field_ok (s : list Z) : Prop := str_ok s /\ Forall (fun c => c <> 58) s.

Lemma base64_key l : Forall base64_char l -> str_ok l /\ Forall (fun c => c <> 10) l.
Proof.
  intros Hl. split; (eapply list.Forall_impl; [exact Hl |]); unfold base64_char; simpl; lia.
Qed.

Lemma line_end_spec {E} l rest rest' : Forall base64_char l -> str_ok rest -> @line_end E (l ++ crlf ++ rest ++ 0 :: rest') = Done (Some (zlen l)).
Proof.
  intros Hl Hr. destruct (base64_key l Hl) as [Hs Hn]. unfold line_end, strstr.
  replace (l ++ crlf ++ rest ++ 0 :: rest') with ((l ++ crlf ++ rest) ++ 0 :: rest') by by rewrite <- !app_assoc.
  rewrite cstr_app.
  - cbn [obind]. pose proof (find_pair 13 10 [] [] l rest) as Hf. simpl app in Hf. unfold crlf. simpl app. rewrite Hf; [done |].
    rewrite has_pair_join by done. by rewrite has_pair_absent.
  - apply Forall_app. split; [done |]. by repeat constructor.
Qed.

Context `{!WsCryptoLaws}.

Lemma key_spec random : zlen random = 16 -> zlen (generate_key random) = 24 /\ Forall base64_char (generate_key random).
Proof.
  intros Hr. unfold generate_key. pose proof (base64_len random) as Hl. rewrite Hr in Hl. change (4 * ((16 + 2) / 3)) with 24 in Hl.
  rewrite ztake_all by lia. split; [done | apply base64_chars].
Qed.

Lemma accept_spec key : zlen (compute_accept key) = 28 /\ Forall base64_char (compute_accept key).
Proof.
  unfold compute_accept. set (h := SHA1 _). pose proof (base64_len h) as Hl. unfold h at 2 in Hl. rewrite sha1_len in Hl.
  change (4 * ((20 + 2) / 3)) with 28 in Hl. rewrite ztake_all by lia. split; [done | apply base64_chars].
Qed.

(** The request in front of the key. *)
Definition request_head (path host : list Z) : list Z :=
  ascii "GET " ++ path ++ ascii " HTTP/1.1" ++ crlf ++ ascii "Host: " ++ host ++ crlf ++
  ascii "Upgrade: websocket" ++ crlf ++ ascii "Connection: Upgrade" ++ crlf.
Definition request_tail : list Z := ascii "Sec-WebSocket-Version: 13" ++ crlf ++ crlf.

Lemma request_split path host key : client_request path host key =
  request_head path host ++ ascii "Sec-WebSocket-Key: " ++ key ++ crlf ++ request_tail.
Proof. unfold client_request, request_head, request_tail. by rewrite <- !app_assoc. Qed.

Lemma request_str path host key : field_ok path -> field_ok host -> Forall base64_char key -> str_ok (client_request path host key).
Proof.
  intros [Hp _] [Hh _] Hk. apply base64_key in Hk as [Hk _]. unfold client_request, str_ok in *.
  repeat (apply Forall_app; split); first [done | str_lit].
Qed.

(** No [y:] occurs in front of the key header. *)
Lemma request_pairs path host : field_ok path -> field_ok host ->
  has_pair 121 58 (request_head path host ++ ascii "Sec-WebSocket-Ke" ++ [121]) = false.
Proof.
  intros [_ Hp] [_ Hh]. unfold request_head. rewrite <- !app_assoc.
  rewrite (has_pair_join _ _ (ascii "GET ")) by (destruct Hp; done). rewrite (has_pair_join _ _ path) by done.
  rewrite (has_pair_absent _ _ path Hp). set (rest := host ++ _).
  replace (ascii " HTTP/1.1" ++ crlf ++ ascii "Host: " ++ rest) with ((ascii " HTTP/1.1" ++ crlf ++ ascii "Host: ") ++ rest) by by rewrite <- !app_assoc.
  unfold rest. rewrite has_pair_join by (destruct Hh; done). rewrite (has_pair_join _ _ host) by done.
  by rewrite (has_pair_absent _ _ host Hh).
Qed.

Lemma find_key path host key : field_ok path -> field_ok host ->
  find (ascii "Sec-WebSocket-Key: ") (client_request path host key) = Some (zlen (request_head path host)).
Proof.
  intros Hp Hh. rewrite request_split.
  change (ascii "Sec-WebSocket-Key: ") with (ascii "Sec-WebSocket-Ke" ++ 121 :: 58 :: [32]). apply find_pair. by apply request_pairs.
Qed.

Lemma parse_request path host key rest : field_ok path -> field_ok host -> Forall base64_char key -> 0 < zlen key <= 24 ->
  ws_parse_server_handshake (client_request path host key ++ 0 :: rest) (zlen (client_request path host key)) = Done key.
Proof.
  intros Hp Hh Hk Hl. set (req := client_request path host key). unfold ws_parse_server_handshake.
  pose proof (zlen_nonneg path). pose proof (zlen_nonneg host).
  assert (req = ascii "GET " ++ zdrop 4 req) as Hget by reflexivity.
  assert (4 <= zlen req) as H4 by (rewrite Hget, zlen_app; change (zlen (ascii "GET ")) with 4; pose proof (zlen_nonneg (zdrop 4 req)); lia).
  rewrite (proj2 (Z.ltb_ge _ _)) by lia. rewrite Hget at 1. rewrite <- app_assoc, strncmp_eq_app. cbn [obind negb].
  pose proof (request_str path host key Hp Hh Hk) as Hs. fold req in Hs. unfold strstr. rewrite !cstr_app by done. cbn [obind].
  destruct (find_some (ascii "Upgrade: websocket") (ascii "GET " ++ path ++ ascii " HTTP/1.1" ++ crlf ++ ascii "Host: " ++ host ++ crlf)
    (crlf ++ ascii "Connection: Upgrade" ++ crlf ++ ascii "Sec-WebSocket-Key: " ++ key ++ crlf ++ request_tail)) as (i & Hi & _).
  assert (find (ascii "Upgrade: websocket") req = Some i) as ->.
  { rewrite <- Hi. unfold req, client_request, request_tail. by rewrite <- !app_assoc. }
  cbn [obind]. rewrite bool_decide_eq_false_2 by done. unfold req at 1. rewrite find_key by done.
  unfold req. rewrite request_split. set (h := request_head path host). pose proof (zlen_nonneg h).
  replace ((h ++ ascii "Sec-WebSocket-Key: " ++ key ++ crlf ++ request_tail) ++ 0 :: rest)
    with ((h ++ ascii "Sec-WebSocket-Key: ") ++ key ++ crlf ++ request_tail ++ 0 :: rest) by by rewrite <- !app_assoc.
  replace (zlen h + 19) with (zlen (h ++ ascii "Sec-WebSocket-Key: ")) by (rewrite zlen_app; done). rewrite zdrop_app.
  rewrite line_end_spec by (done || str_lit). cbn [obind].
  rewrite (proj2 (Z.eqb_neq _ 0)), Z.gtb_ltb, (proj2 (Z.ltb_ge _ _)) by lia. cbn [orb]. by rewrite ztake_app.
Qed.

Definition response_head : list Z :=
  ascii "HTTP/1.1 101 Switching Protocols" ++ crlf ++ ascii "Upgrade: websocket" ++ crlf ++ ascii "Connection: Upgrade" ++ crlf.

Lemma validate_response key rest : let resp := server_response (compute_accept key) in
  ws_validate_client_response (resp ++ 0 :: rest) (zlen resp) key = Done true.
Proof.
  intros resp. destruct (accept_spec key) as [Hl Hc]. set (acc := compute_accept key) in *. destruct (base64_key acc Hc) as [Ha _].
  assert (resp = response_head ++ ascii "Sec-WebSocket-Accept: " ++ acc ++ crlf ++ crlf) as Hresp
    by (unfold resp, server_response, response_head; by rewrite <- !app_assoc).
  assert (str_ok resp) as Hs by (unfold resp, server_response, str_ok in *; repeat (apply Forall_app; split); first [done | str_lit]).
  unfold ws_validate_client_response. rewrite (proj2 (Z.ltb_ge _ _)) by (rewrite Hresp, !zlen_app; assert (zlen response_head = 75) by reflexivity; pose proof (zlen_nonneg acc); pose proof (zlen_nonneg crlf); pose proof (zlen_nonneg (ascii "Sec-WebSocket-Accept: ")); lia).
  assert (resp = ascii "HTTP/1.1 101" ++ zdrop 12 resp) as Hstart by reflexivity.
  rewrite Hstart at 1. rewrite <- app_assoc, strncmp_eq_app. cbn [obind negb]. unfold strstr. rewrite cstr_app by done. cbn [obind].
  assert (find (ascii "Sec-WebSocket-Accept: ") resp = Some (zlen response_head)) as ->.
  { rewrite Hresp. change (ascii "Sec-WebSocket-Accept: ") with (ascii "Sec-WebSocket-Accep" ++ 116 :: 58 :: [32]).
    apply find_pair. by vm_compute. }
  rewrite Hresp.
  replace ((response_head ++ ascii "Sec-WebSocket-Accept: " ++ acc ++ crlf ++ crlf) ++ 0 :: rest)
    with ((response_head ++ ascii "Sec-WebSocket-Accept: ") ++ acc ++ crlf ++ crlf ++ 0 :: rest) by by rewrite <- !app_assoc.
  replace (zlen response_head + 22) with (zlen (response_head ++ ascii "Sec-WebSocket-Accept: ")) by done. rewrite zdrop_app.
  rewrite line_end_spec by (done || str_lit). cbn [obind]. rewrite Hl. change (28 =? 28) with true. cbn [negb].
  rewrite <- Hl, ztake_app, bool_decide_eq_true_2 by done. done.
Qed.

(** ** Theorems *)

Lemma snprintf_fits s cap : zlen s < cap -> snprintf s cap = (zlen s, s ++ [0]).
Proof.
  intros Hs. pose proof (zlen_nonneg s). unfold snprintf. rewrite (proj2 (Z.eqb_neq cap 0)), ztake_all by lia. done.
Qed.

(** The upgrade completes: for any path and host without colon the server reads
    from the client's request exactly the key the client sent, and the client
    accepts the response that the server builds for it, whatever bytes follow the
    strings in the buffers. *)
Theorem ws_handshake_completes random path host cap cap' rest rest' : zlen random = 16 -> field_ok path -> field_ok host ->
  zlen (client_request path host (generate_key random)) < cap ->
  zlen (server_response (compute_accept (generate_key random))) < cap' ->
  exists n m req resp, ws_build_client_handshake random (Some path) (Some host) cap = (n, req ++ [0]) /\ n = zlen req /\ 0 < n /\
    ws_parse_server_handshake (req ++ 0 :: rest) n = Done (generate_key random) /\
    ws_build_server_response (generate_key random) cap' = (m, resp ++ [0]) /\ m = zlen resp /\ 0 < m /\
    ws_validate_client_response (resp ++ 0 :: rest') m (generate_key random) = Done true.
Proof.
  intros Hr Hp Hh Hc Hc'. destruct (key_spec random Hr) as [Hkl Hk]. set (key := generate_key random) in *.
  exists (zlen (client_request path host key)), (zlen (server_response (compute_accept key))),
    (client_request path host key), (server_response (compute_accept key)).
  unfold ws_build_client_handshake, ws_build_server_response. cbn [default id]. fold key. rewrite !snprintf_fits by done.
  rewrite !Z.geb_leb, !(proj2 (Z.leb_gt _ _)) by lia. pose proof (zlen_nonneg path). pose proof (zlen_nonneg host).
  assert (forall s : list Z, forall c, 0 < zlen (c :: s)) as Hpos by (intros s c; rewrite zlen_cons; pose proof (zlen_nonneg s); lia).
  repeat (split; [first [done | apply Hpos | apply parse_request; (done || lia)] |]). apply validate_response.
Qed.

(** A response passes the client's validation only if it is a 101 response and
    carries the accept value of the key that was sent. *)
Theorem ws_validate_sound data len key : ws_validate_client_response data len key = Done true ->
  (exists rest, data = ascii "HTTP/1.1 101" ++ rest) /\
  exists a b, data = a ++ ascii "Sec-WebSocket-Accept: " ++ compute_accept key ++ b.
Proof.
  unfold ws_validate_client_response. destruct (len <? 12); [done |].
  destruct (strncmp_eq data _) as [ok | |] eqn:Hok; cbn [obind]; [| done | done]. destruct ok; cbn [negb]; [| done].
  intros Hv. split; [by apply (strncmp_eq_sound (E := unit)) |]. revert Hv. unfold strstr.
  destruct (cstr data) as [s | |] eqn:Hs; cbn [obind]; [| done | done]. apply cstr_sound in Hs as (_ & rest & ->).
  destruct (find _ s) as [i |] eqn:Hf; [| done]. apply find_sound in Hf as (a & b & -> & <-).
  replace ((a ++ ascii "Sec-WebSocket-Accept: " ++ b) ++ 0 :: rest) with ((a ++ ascii "Sec-WebSocket-Accept: ") ++ b ++ 0 :: rest)
    by by rewrite <- !app_assoc.
  replace (zlen a + 22) with (zlen (a ++ ascii "Sec-WebSocket-Accept: ")) by (rewrite zlen_app; done). rewrite zdrop_app.
  destruct (line_end _) as [[e |] | |]; cbn [obind]; [| done | done | done]. destruct (negb (e =? 28)); [done |].
  intros [= Heq%bool_decide_eq_true_1]. exists a, (zdrop 28 (b ++ 0 :: rest)). rewrite <- app_assoc, <- Heq, ztake_zdrop. done.
Qed.

(** The function the client really uses accepts any reply that contains the
    characters 101 before its first zero byte, wherever they are: neither the status
    line nor the accept value is looked at. *)
Theorem ws_complete_unverified ws a b : ws_connected ws = false -> str_ok (a ++ ascii "101" ++ b) ->
  exists ws', ws_complete_handshake ws (OsBytes (a ++ ascii "101" ++ b)) = Done (0, ws') /\ ws_connected ws' = true.
Proof.
  intros Hc Hs. unfold ws_complete_handshake. rewrite Hc. pose proof (zlen_nonneg a). pose proof (zlen_nonneg b).
  rewrite (proj2 (Z.leb_gt _ _)) by (rewrite !zlen_app; change (zlen (ascii "101")) with 3; lia).
  unfold strstr. rewrite cstr_app by done. cbn [obind]. destruct (find_some (ascii "101") a b) as (i & -> & _). by eexists.
Qed.

End Handshake.

(** ** A concrete instance *)

Definition sample_ws_crypto : WsCrypto := {|
  SHA1 _ := zeros 20;
  EVP_EncodeBlock l := replicate (Z.to_nat (4 * ((zlen l + 2) / 3))) 65
|}.

Lemma sample_ws_laws : @WsCryptoLaws sample_ws_crypto.
Proof.
  split.
  - done.
  - intros l. unfold EVP_EncodeBlock, sample_ws_crypto. rewrite zlen_replicate. pose proof (zlen_nonneg l).
    pose proof (Z.div_pos (zlen l + 2) 3 ltac:(lia) ltac:(lia)). lia.
  - intros l. apply Forall_replicate. left. lia.
Qed.

Lemma ws_handshake_completes_witness : exists n m req resp,
  @ws_build_client_handshake sample_ws_crypto (zeros 16) (Some (ascii "/chat")) (Some (ascii "example")) 1024 = (n, req ++ [0]) /\ n = zlen req /\ 0 < n /\
  ws_parse_server_handshake (req ++ 0 :: []) n = Done (@generate_key sample_ws_crypto (zeros 16)) /\
  @ws_build_server_response sample_ws_crypto (@generate_key sample_ws_crypto (zeros 16)) 1024 = (m, resp ++ [0]) /\ m = zlen resp /\ 0 < m /\
  @ws_validate_client_response sample_ws_crypto (resp ++ 0 :: []) m (@generate_key sample_ws_crypto (zeros 16)) = Done true.
Proof.
  apply (@ws_handshake_completes sample_ws_crypto sample_ws_laws (zeros 16) (ascii "/chat") (ascii "example") 1024 1024 [] []).
  - done.
  - split; str_lit.
  - split; str_lit.
  - by_compute.
  - by_compute.
Defined.

Lemma ws_validate_sound_witness : exists a b, server_response (replicate 28 65) ++ [0] =
  a ++ ascii "Sec-WebSocket-Accept: " ++ @compute_accept sample_ws_crypto (replicate 24 65) ++ b.
Proof. apply (@ws_validate_sound sample_ws_crypto (server_response (replicate 28 65) ++ [0]) 129 (replicate 24 65)). by_compute. Defined.

Lemma ws_complete_unverified_witness : exists ws', ws_complete_handshake (ws_new <| ws_connected := false |>)
  (OsBytes (ascii "HTTP/1.1 404 " ++ ascii "101" ++ [])) = Done (0, ws') /\ ws_connected ws' = true.
Proof.
  apply (ws_complete_unverified (ws_new <| ws_connected := false |>) (ascii "HTTP/1.1 404 ") []); [done | str_lit].
Defined.
