(* ===== verification/Url.v ===== *)
(** * URLs of transports (src/src/platform/transport.c and the parsers of the backends)

    Scheme detection and the three parsers of [scheme://host:port], on memory that
    holds a string.  The URL that the public API builds is read back. *)

From stdpp Require Import strings.
From S2P Require Import Prelude CString.

Inductive nxp_transport_type : Type :=
| NXP_TRANSPORT_UDP
| NXP_TRANSPORT_WS
| NXP_TRANSPORT_TCP
| NXP_TRANSPORT_RTC.
#[export] Instance transport_type_eq : EqDecision nxp_transport_type.
Proof. solve_decision. Defined.

Definition colon : Z := 58.
Definition slash : Z := 47.

(** [None] is the null pointer. *)
Definition parse_scheme (url : option (list Z)) : outcome unit nxp_transport_type :=
  match url with
  | None => Done NXP_TRANSPORT_UDP
  | Some url =>
      let! b := strncmp_eq url (ascii "nxp://") in
      if (b : bool) then Done NXP_TRANSPORT_UDP else
      let! b := strncmp_eq url (ascii "ws://") in
      if (b : bool) then Done NXP_TRANSPORT_WS else
      let! b := strncmp_eq url (ascii "wss://") in
      if (b : bool) then Done NXP_TRANSPORT_WS else
      let! b := strncmp_eq url (ascii "ntc://") in
      if (b : bool) then Done NXP_TRANSPORT_TCP else
      let! b := strncmp_eq url (ascii "nrtc://") in
      if (b : bool) then Done NXP_TRANSPORT_RTC else
      Done NXP_TRANSPORT_UDP
  end.

(** [if (strncmp(url, s, strlen(s)) == 0) p = url + strlen(s);] *)
Definition skip_scheme (url s p : list Z) : outcome unit (list Z) :=
  let! b := strncmp_eq url s in
  Done (if (b : bool) then zdrop (zlen s) url else p).

(** [if (len > 0 && len < cap) { memcpy(host, p, len); host[len] = 0; }], on arrays
    of 256 bytes of which only the string matters. *)
Definition HOST_CAP : Z := 256.
Definition set_host (host p : list Z) (len : Z) : outcome unit (list Z) :=
  if (len >? 0) && (len <? HOST_CAP) then sub_buf p 0 len else Done host.

Definition u16 (z : Z) : Z := z mod 65536.

(** [port = (uint16_t)atoi(p); if (port == 0) port = default;] *)
Definition set_port (p : list Z) (default : Z) : outcome unit Z :=
  let! v := atoi p in
  let port := u16 v in
  Done (if port =? 0 then default else port).

(** [while (hlen > 0 && p[hlen - 1] == '/') hlen--;] *)
Fixpoint strip_slashes (n : nat) (p : list Z) : outcome unit Z :=
  match n with
  | O => Done 0
  | S n' => let! c := rd p (Z.of_nat n') in if c =? slash then strip_slashes n' p else Done (Z.of_nat n)
  end.

(** ** UDP *)

Definition udp_connect_url (url : list Z) : outcome unit (list Z * Z) :=
  let! host_start := skip_scheme url (ascii "nxp://") url in
  let! c := strrchr host_start colon in
  match c with
  | Some host_len =>
      let! host := set_host (ascii "127.0.0.1") host_start host_len in
      let! port := set_port (zdrop (host_len + 1) host_start) 8443 in
      Done (host, port)
  | None =>
      let! c0 := rd host_start 0 in
      if negb (c0 =? 0) then
        let! hlen := strlen host_start in
        let! hlen := strip_slashes (Z.to_nat hlen) host_start in
        let! host := set_host (ascii "127.0.0.1") host_start hlen in
        Done (host, 8443)
      else Done (ascii "127.0.0.1", 8443)
  end.

Definition udp_listen_url (url : list Z) : outcome unit (list Z * Z) :=
  let! host_start := skip_scheme url (ascii "nxp://") url in
  let! c := strrchr host_start colon in
  match c with
  | Some host_len =>
      let! host := set_host (ascii "0.0.0.0") host_start host_len in
      let! port := set_port (zdrop (host_len + 1) host_start) 8443 in
      Done (host, port)
  | None => Done (ascii "0.0.0.0", 8443)
  end.

(** [colon != nullptr && (slash == nullptr || colon < slash)] *)
Definition colon_first (c s : option Z) : bool :=
  match c, s with
  | Some c, Some s => c <? s
  | Some _, None => true
  | None, _ => false
  end.

(** ** TCP: [host] is what the caller's array holds *)

Definition parse_url (url host : list Z) : outcome unit (list Z * Z) :=
  let! host_start := skip_scheme url (ascii "ntc://") url in
  let! host_start := skip_scheme url (ascii "nxp://") host_start in
  let! c := strrchr host_start colon in
  let! s := strchr host_start slash in
  if colon_first c s then
    let hlen := default 0 c in
    let! host := set_host host host_start hlen in
    let! port := set_port (zdrop (hlen + 1) host_start) 8443 in
    Done (host, port)
  else
    let! c0 := rd host_start 0 in
    if negb (c0 =? 0) then
      let! len := strlen host_start in
      let! host := set_host host host_start (match s with Some s => s | None => len end) in
      Done (host, 8443)
    else Done (ascii "127.0.0.1", 8443).

(** ** WebSocket: host, port and path *)

Definition ws_host_port (host_start : list Z) (c s : option Z) : outcome unit (list Z * Z) :=
  if colon_first c s then
    let hlen := default 0 c in
    let! host := set_host (ascii "127.0.0.1") host_start hlen in
    let! port := set_port (zdrop (hlen + 1) host_start) 80 in
    Done (host, port)
  else
    let! len := strlen host_start in
    let! host := set_host (ascii "127.0.0.1") host_start (match s with Some s => s | None => len end) in
    Done (host, 80).

Definition ws_connect_url (url : list Z) : outcome unit (list Z * Z * list Z) :=
  let! host_start := skip_scheme url (ascii "ws://") url in
  let! host_start := skip_scheme url (ascii "wss://") host_start in
  let! s := strchr host_start slash in
  let! c := strchr host_start colon in
  let! (host, port) := ws_host_port host_start c s in
  match s with
  | Some s =>
      let! plen := strlen (zdrop s host_start) in
      let! path := if plen <? 256 then sub_buf host_start s plen else Done (ascii "/") in
      Done (host, port, path)
  | None => Done (host, port, ascii "/")
  end.

(** ** The URL that [nxp_connect] and [nxp_listen] build: [nxp://%s:%u] in 320 bytes *)

Definition api_url (host : list Z) (port : Z) : list Z :=
  (snprintf (ascii "nxp://" ++ host ++ [colon] ++ decimal port) 320).2.

(** ** Decimal numbers *)

Definition is_digits (s : list Z) : Prop := Forall (fun c => 48 <= c <= 57) s.

Lemma is_digit_true c : 48 <= c <= 57 -> is_digit c = true.
Proof. intros Hc. unfold is_digit. by rewrite !(proj2 (Z.leb_le _ _)) by lia. Qed.

Lemma dec_loop_spec fuel : forall v acc, 0 <= v < 10 ^ Z.of_nat fuel -> (0 < fuel)%nat ->
  exists ds, dec_loop fuel v acc = ds ++ acc /\ (is_digits ds /\ zlen ds <= Z.of_nat fuel) /\ ds <> [] /\
    forall a rest, digits (ds ++ rest) a = digits rest (a * 10 ^ zlen ds + v).
Proof.
  induction fuel as [| fuel IH]; intros v acc Hv Hf; [lia |]. cbn [dec_loop].
  pose proof (Z.mod_pos_bound v 10 ltac:(lia)) as Hm. pose proof (Z.div_mod v 10 ltac:(lia)) as Hd.
  assert (forall a rest, digits ([48 + v mod 10] ++ rest) a = digits rest (a * 10 + v mod 10)) as Hone.
  { intros a rest. cbn [app digits]. rewrite is_digit_true by lia. f_equal. lia. }
  destruct (Z.eqb_spec (v / 10) 0) as [Hz | Hz].
  - exists [48 + v mod 10]. split; [done |]. split; [split; [by constructor; [lia |] | change (zlen [_]) with 1; lia] |]. split; [done |]. intros a rest.
    rewrite Hone. change (10 ^ zlen [48 + v mod 10]) with 10. f_equal. lia.
  - destruct fuel as [| fuel]; [change (10 ^ Z.of_nat 1) with 10 in Hv; rewrite Z.div_small in Hz by lia; done |].
    rewrite Nat2Z.inj_succ, Z.pow_succ_r in Hv by lia.
    destruct (IH (v / 10) ((48 + v mod 10) :: acc)) as (ds & -> & [Hds Hlen] & Hne & Hval); [| lia |].
    { split; [apply Z.div_pos; lia |]. apply Z.div_lt_upper_bound; lia. }
    exists (ds ++ [48 + v mod 10]). split; [by rewrite <- app_assoc |]. split.
    { split; [by apply Forall_app; split; [| constructor; [lia |]] |]. rewrite zlen_app. change (zlen [_]) with 1. lia. }
    split; [by destruct ds |]. intros a rest. rewrite <- app_assoc, Hval, Hone, zlen_app. change (zlen [48 + v mod 10]) with 1.
    pose proof (zlen_nonneg ds). rewrite Z.pow_add_r by lia. change (10 ^ 1) with 10. f_equal. lia.
Qed.

Lemma decimal_spec v : 0 <= v < 2 ^ 31 -> is_digits (decimal v) /\ decimal v <> [] /\ zlen (decimal v) <= 20 /\
  forall rest, digits (decimal v ++ rest) 0 = digits rest v.
Proof.
  intros Hv. destruct (dec_loop_spec 20 v []) as (ds & Hd & [Hds Hlen] & Hne & Hval); [change (10 ^ Z.of_nat 20) with (10 ^ 20); lia | lia |].
  unfold decimal. rewrite Hd. rewrite app_nil_r in *. split; [done |]. split; [done |]. split.
  - exact Hlen.
  - intros rest. apply Hval.
Qed.

(** [atoi] reads a decimal number back, up to the first other character. *)
Lemma atoi_decimal {E} v s rest : 0 <= v < 2 ^ 31 -> str_ok s -> match s with c :: _ => is_digit c = false | [] => True end ->
  @atoi E (decimal v ++ s ++ 0 :: rest) = Done v.
Proof.
  intros Hv Hs Hstop. destruct (decimal_spec v Hv) as (Hd & Hne & _ & Hval). unfold atoi. rewrite app_assoc, cstr_app.
  - cbn [obind]. assert (digits (decimal v ++ s) 0 = v) as Hdig.
    { rewrite Hval. destruct s as [| c s]; [done |]. cbn [digits]. by rewrite Hstop. }
    destruct (decimal v) as [| c ds]; [done |]. cbn [app] in *. apply Forall_cons_iff in Hd as [Hc _].
    assert (skip_space (c :: ds ++ s) = c :: ds ++ s) as ->.
    { cbn [skip_space]. unfold is_space. rewrite (proj2 (Z.eqb_neq c 32)), (proj2 (Z.leb_gt c 13)), andb_false_r by lia. done. }
    rewrite (proj2 (Z.eqb_neq c 45)), (proj2 (Z.eqb_neq c 43)), Hdig by lia.
    rewrite (proj2 (Z.leb_le _ _)), (proj2 (Z.ltb_lt _ _)) by lia. done.
  - apply Forall_app. split; [| done]. eapply list.Forall_impl; [exact Hd |]. simpl. lia.
Qed.

(** ** Parsing *)

Lemma find_last_app c a b : ~ c ∈ b -> find_last c (a ++ c :: b) = Some (zlen a).
Proof.
  intros Hb. assert (find_last c b = None) as Hn.
  { induction b as [| x b IH]; [done |]. apply not_elem_of_cons in Hb as [Hx Hb]. cbn [find_last]. rewrite IH by done.
    by rewrite (proj2 (Z.eqb_neq x c)). }
  induction a as [| x a IH]; cbn [app find_last].
  - by rewrite Hn, Z.eqb_refl.
  - rewrite IH, zlen_cons. f_equal. lia.
Qed.

Lemma find_char c a b : ~ c ∈ a -> find [c] (a ++ c :: b) = Some (zlen a).
Proof.
  intros Ha. induction a as [| x a IH]; rewrite find_unfold; cbn [app is_prefix].
  - by rewrite Z.eqb_refl.
  - apply not_elem_of_cons in Ha as [Hx Ha]. rewrite (proj2 (Z.eqb_neq c x)) by done. cbn [andb].
    rewrite IH, zlen_cons by done. cbn [fmap option_fmap option_map]. f_equal. lia.
Qed.

Lemma find_char_none c a : ~ c ∈ a -> find [c] a = None.
Proof.
  induction a as [| x a IH]; intros Ha; rewrite find_unfold; cbn [is_prefix]; [done |].
  apply not_elem_of_cons in Ha as [Hx Ha]. rewrite (proj2 (Z.eqb_neq c x)), IH by done. done.
Qed.

Lemma digits_no_char c s : is_digits s -> ~ 48 <= c <= 57 -> ~ c ∈ s.
Proof. intros Hs Hc Hin. unfold is_digits in Hs. rewrite list.Forall_forall in Hs. by apply Hc, Hs. Qed.

Lemma digits_str s : is_digits s -> str_ok s.
Proof. intros Hs. eapply list.Forall_impl; [exact Hs |]. simpl. lia. Qed.

(** A host name: what the parsers can represent. *)
Definition host_ok (host : list Z) : Prop := str_ok host /\ 0 < zlen host < HOST_CAP.

Definition port_or (default port : Z) : Z := if port =? 0 then default else port.

Lemma set_port_decimal v d s rest : 0 <= v < 2 ^ 31 -> str_ok s -> match s with c :: _ => is_digit c = false | [] => True end ->
  set_port (decimal v ++ s ++ 0 :: rest) d = Done (port_or d (u16 v)).
Proof. intros Hv Hs Hstop. unfold set_port. by rewrite atoi_decimal. Qed.

Lemma set_host_ok host h rest : host_ok host -> set_host h (host ++ rest) (zlen host) = Done host.
Proof.
  intros [_ Hl]. unfold set_host. rewrite Z.gtb_ltb, (proj2 (Z.ltb_lt _ _)), (proj2 (Z.ltb_lt _ _)) by lia. cbn [andb].
  apply (sub_buf_app [] host rest); [done | done].
Qed.

(** The string [host:port] in front of the memory. *)
Definition authority (host : list Z) (v : Z) : list Z := host ++ colon :: decimal v.

Lemma authority_str host v : host_ok host -> 0 <= v < 2 ^ 31 -> str_ok (authority host v).
Proof.
  intros [Hs _] Hv. destruct (decimal_spec v Hv) as (Hd & _). apply Forall_app. split; [done |].
  constructor; [done | by apply digits_str].
Qed.

Lemma api_url_eq host port : host_ok host -> 0 <= port < 65536 -> api_url host port = ascii "nxp://" ++ authority host port ++ [0].
Proof.
  intros [_ Hl] Hp. destruct (decimal_spec port ltac:(lia)) as (_ & _ & Hd & _). unfold api_url, snprintf, HOST_CAP in *. cbn [snd].
  change (320 =? 0) with false. cbv iota. rewrite ztake_all.
  - unfold authority. by rewrite <- !app_assoc.
  - rewrite !zlen_app. change (zlen (ascii "nxp://")) with 6. change (zlen [colon]) with 1. lia.
Qed.

Lemma strrchr_authority {E} host v : host_ok host -> 0 <= v < 2 ^ 31 ->
  @strrchr E (authority host v ++ [0]) colon = Done (Some (zlen host)).
Proof.
  intros Hh Hv. unfold strrchr. rewrite cstr_app by by apply authority_str. cbn [obind].
  destruct (decimal_spec v Hv) as (Hd & _). unfold authority. rewrite find_last_app; [done |].
  apply digits_no_char; [done | unfold colon; lia].
Qed.

(** Host and port of [host:port], followed by [s]. *)
Lemma authority_parts host v d h s : host_ok host -> 0 <= v < 2 ^ 31 -> str_ok s -> match s with c :: _ => is_digit c = false | [] => True end ->
  set_host h (authority host v ++ s ++ [0]) (zlen host) = Done host /\
  set_port (zdrop (zlen host + 1) (authority host v ++ s ++ [0])) d = Done (port_or d (u16 v)).
Proof.
  intros Hh Hv Hs Hstop. pose proof (zlen_nonneg host).
  replace (authority host v ++ s ++ [0]) with (host ++ colon :: decimal v ++ s ++ [0]) by (unfold authority; by rewrite <- app_assoc).
  split; [by apply set_host_ok |]. rewrite <- (zdrop_zdrop 1 (zlen host)), zdrop_app by lia. by apply set_port_decimal.
Qed.

Lemma slash_free host v : ~ slash ∈ host -> 0 <= v < 2 ^ 31 -> ~ slash ∈ authority host v.
Proof.
  intros Hs Hv. destruct (decimal_spec v Hv) as (Hd & _). unfold authority. rewrite elem_of_app, elem_of_cons.
  intros [? | [? | Hin]]; [done | done |]. by apply (digits_no_char slash (decimal v) Hd) in Hin; [| unfold slash; lia].
Qed.

Lemma skip_done s rest p : skip_scheme (s ++ rest) s p = Done rest.
Proof. unfold skip_scheme. rewrite strncmp_eq_app. cbn [obind]. by rewrite zdrop_app. Qed.

Lemma strchr_none {E} s c rest : str_ok s -> ~ c ∈ s -> @strchr E (s ++ 0 :: rest) c = Done None.
Proof. intros Hs Hc. unfold strchr, strstr. rewrite cstr_app by done. cbn [obind]. by rewrite find_char_none. Qed.

(** The URL that the public API builds from a host and a port is dispatched to
    UDP and read back as the same host and port by its connect and listen parsers,
    also for IPv6 hosts with colons, and by the TCP parser for hosts without a
    slash; only port 0 becomes the default port. *)
Theorem url_roundtrip host port arr : host_ok host -> 0 <= port < 65536 -> let url := api_url host port in
  parse_scheme (Some url) = Done NXP_TRANSPORT_UDP /\
  udp_connect_url url = Done (host, port_or 8443 port) /\
  udp_listen_url url = Done (host, port_or 8443 port) /\
  (~ slash ∈ host -> parse_url url arr = Done (host, port_or 8443 port)).
Proof.
  intros Hh Hp url. unfold url. rewrite api_url_eq by done. assert (0 <= port < 2 ^ 31) as Hv by lia.
  assert (u16 port = port) as Hu by (apply Z.mod_small; lia).
  split; [reflexivity |]. unfold udp_connect_url, udp_listen_url, parse_url. rewrite !skip_done. cbn [obind].
  rewrite !strrchr_authority by done. cbn [obind].
  assert (forall h, set_host h (authority host port ++ [0]) (zlen host) = Done host) as Hhost.
  { intros h. by destruct (authority_parts host port 0 h [] Hh Hv) as [? _]; [constructor | done |]. }
  assert (set_port (zdrop (zlen host + 1) (authority host port ++ [0])) 8443 = Done (port_or 8443 port)) as Hport.
  { destruct (authority_parts host port 8443 [] [] Hh Hv) as [_ Hx]; [constructor | done |]. by rewrite Hu in Hx. }
  rewrite !Hhost. cbn [obind]. rewrite !Hport. split; [done |]. split; [done |].
  intros Hs. change (skip_scheme (ascii "nxp://" ++ authority host port ++ [0]) (ascii "ntc://") (ascii "nxp://" ++ authority host port ++ [0]))
    with (@Done unit (list Z) (ascii "nxp://" ++ authority host port ++ [0])). cbn [obind]. rewrite skip_done. cbn [obind].
  rewrite strrchr_authority by done. cbn [obind]. rewrite strchr_none; [| by apply authority_str | by apply slash_free].
  cbn [obind colon_first default id]. rewrite Hhost. cbn [obind]. by rewrite Hport.
Qed.

Lemma url_roundtrip_witness : udp_connect_url (api_url (ascii "::1") 4433) = Done (ascii "::1", port_or 8443 4433).
Proof.
  destruct (url_roundtrip (ascii "::1") 4433 []) as (_ & Hc & _ & _); [split; [str_lit | split; by_compute] | by_compute |].
  exact Hc.
Defined.

(** A WebSocket URL with host, port and path is taken apart into these. *)
Theorem ws_url_roundtrip host port path : host_ok host -> ~ colon ∈ host -> ~ slash ∈ host -> 0 <= port < 65536 ->
  str_ok path -> zlen path < 255 ->
  ws_connect_url (ascii "ws://" ++ authority host port ++ slash :: path ++ [0]) = Done (host, port_or 80 port, slash :: path).
Proof.
  intros Hh Hc Hs Hp Hpath Hl. assert (0 <= port < 2 ^ 31) as Hv by lia. assert (u16 port = port) as Hu by (apply Z.mod_small; lia).
  unfold ws_connect_url. rewrite skip_done. cbn [obind].
  set (p := authority host port ++ slash :: path ++ [0]).
  change (skip_scheme (ascii "ws://" ++ p) (ascii "wss://") p) with (@Done unit (list Z) p). cbn [obind].
  assert (p = (authority host port ++ slash :: path) ++ [0]) as Hp0 by (unfold p; by rewrite <- app_assoc).
  assert (str_ok (authority host port ++ slash :: path)) as Hstr by (apply Forall_app; split; [by apply authority_str | by constructor]).
  assert (strchr p slash = Done (E := unit) (Some (zlen (authority host port)))) as ->.
  { unfold strchr, strstr. rewrite Hp0, cstr_app by done. cbn [obind]. rewrite find_char; [done | by apply slash_free]. }
  assert (strchr p colon = Done (E := unit) (Some (zlen host))) as ->.
  { unfold strchr, strstr. rewrite Hp0, cstr_app by done. cbn [obind]. unfold authority. rewrite <- app_assoc. simpl app. by rewrite find_char. }
  cbn [obind]. pose proof (zlen_nonneg host). pose proof (zlen_nonneg path).
  assert (zlen host < zlen (authority host port)) as Hlt by (unfold authority; rewrite zlen_app, zlen_cons; pose proof (zlen_nonneg (decimal port)); lia).
  unfold ws_host_port. cbn [colon_first]. rewrite (proj2 (Z.ltb_lt _ _)) by done. cbn [default id].
  destruct (authority_parts host port 80 (ascii "127.0.0.1") (slash :: path) Hh Hv) as [E1 E2]; [by constructor | done |].
  unfold p. change (slash :: path ++ [0]) with ((slash :: path) ++ [0]). rewrite E1. cbn [obind]. rewrite E2, Hu. cbn [obind].
  rewrite zdrop_app. unfold strlen. rewrite cstr_app by by constructor. cbn [obind].
  rewrite (proj2 (Z.ltb_lt _ _)) by (rewrite zlen_cons; lia). rewrite (sub_buf_app (authority host port) (slash :: path)) by done. done.
Qed.

Lemma ws_url_roundtrip_witness : ws_connect_url (ascii "ws://" ++ authority (ascii "10.0.0.1") 9000 ++ slash :: ascii "chat" ++ [0]) =
  Done (ascii "10.0.0.1", port_or 80 9000, slash :: ascii "chat").
Proof.
  apply (ws_url_roundtrip (ascii "10.0.0.1") 9000 (ascii "chat")); [split; [str_lit | split; by_compute] | | | by_compute | str_lit | by_compute];
    by apply (bool_decide_unpack _).
Defined.

(** Ports above 65535 wrap around instead of being refused. *)
Lemma url_port_wraps host port : host_ok host -> 0 < port < 65536 ->
  udp_connect_url (ascii "nxp://" ++ authority host (65536 + port) ++ [0]) = Done (host, port).
Proof.
  intros Hh Hp. unfold udp_connect_url. rewrite skip_done. cbn [obind]. rewrite strrchr_authority by (done || lia). cbn [obind].
  destruct (authority_parts host (65536 + port) 8443 (ascii "127.0.0.1") [] Hh) as [E1 E2]; [lia | constructor | done |].
  simpl app in E1, E2. rewrite E1. cbn [obind]. rewrite E2. cbn [obind]. do 2 f_equal. unfold port_or, u16.
  replace (65536 + port) with (port + 1 * 65536) by lia. rewrite Z.mod_add, Z.mod_small by lia. by rewrite (proj2 (Z.eqb_neq port 0)) by lia.
Qed.
