(* ===== verification/Sockets.v ===== *)
(** * Addresses and sockets (src/src/platform/linux/posix_socket.c)

    Addresses and their conversion to and from the system's socket addresses, and
    the resources that the platform layer acquires: file descriptors and memory are
    tokens of the operating system, and closing or freeing one that is not held is
    undefined behaviour.  What the system calls answer is an argument. *)

From stdpp Require Import gmap strings.
From S2P Require Import Prelude CString Types Url.

(** ** Addresses *)

Definition AF_INET : Z := 2.
Definition AF_INET6 : Z := 10.

(** The 16 bytes of [ip]; an IPv4 address is in the first four. *)
Record nxp_addr := Addr {
  ad_family : Z;
  ad_port : Z;
  ad_ip : list Z
}.

(** [struct sockaddr_in] and [struct sockaddr_in6], the port in network order. *)
Inductive sockaddr : Type :=
| SockIn (port : list Z) (addr : list Z)
| SockIn6 (port : list Z) (flowinfo : Z) (addr : list Z) (scope_id : Z)
| SockOther.

Definition addr_to_sockaddr (addr : nxp_addr) : sockaddr :=
  if ad_family addr =? AF_INET then SockIn (be_bytes 2 (ad_port addr)) (ztake 4 (ad_ip addr))
  else SockIn6 (be_bytes 2 (ad_port addr)) 0 (ztake 16 (ad_ip addr)) 0.

Definition sockaddr_to_addr (ss : sockaddr) : nxp_addr :=
  match ss with
  | SockIn port a => Addr AF_INET (be_val port) (a ++ zeros 12)
  | SockIn6 port _ a _ => Addr AF_INET6 (be_val port) a
  | SockOther => Addr 0 0 (zeros 16)
  end.

Definition nxp_addr_equal (a b : nxp_addr) : bool :=
  if negb (ad_family a =? ad_family b) then false else
  if negb (ad_port a =? ad_port b) then false else
  if ad_family a =? AF_INET then bool_decide (ztake 4 (ad_ip a) = ztake 4 (ad_ip b))
  else bool_decide (ztake 16 (ad_ip a) = ztake 16 (ad_ip b)).

(** [inet_pton] of the system for the two families. *)
Class InetPton := {
  inet_pton4 : list Z -> option (list Z);
  inet_pton6 : list Z -> option (list Z)
}.
Class InetPtonLaws `{InetPton} := {
  inet_pton4_len s a : inet_pton4 s = Some a -> zlen a = 4 /\ bytes_ok a;
  inet_pton6_len s a : inet_pton6 s = Some a -> zlen a = 16 /\ bytes_ok a
}.

Definition nxp_addr_from_string `{InetPton} (str : list Z) (port : Z) : nxp_error_code + nxp_addr :=
  match inet_pton4 str with
  | Some v4 => inr (Addr AF_INET port (v4 ++ zeros 12))
  | None =>
      match inet_pton6 str with
      | Some v6 => inr (Addr AF_INET6 port v6)
      | None => inl NXP_ERR_INVALID_ARGUMENT
      end
  end.

(** [inet_ntop] of the system gives a string shorter than [buf_len], and the port
    is appended when there is room. *)
Definition nxp_addr_to_string (inet_ntop : Z -> list Z -> list Z) (addr : nxp_addr) (buf_len : Z) : list Z :=
  let buf := if ad_family addr =? AF_INET then inet_ntop AF_INET (ztake 4 (ad_ip addr))
             else inet_ntop AF_INET6 (ztake 16 (ad_ip addr)) in
  if zlen buf + 7 <? buf_len then buf ++ ztake (buf_len - zlen buf - 1) ([colon] ++ decimal (ad_port addr)) else buf.

(** Addresses as this file makes them. *)
Record addr_ok (a : nxp_addr) : Prop := AddrOk {
  ao_family : ad_family a = AF_INET \/ ad_family a = AF_INET6;
  ao_port : 0 <= ad_port a < 65536;
  ao_ip : zlen (ad_ip a) = 16;
  ao_v4 : ad_family a = AF_INET -> zdrop 4 (ad_ip a) = zeros 12
}.

Lemma ip_v4 a : addr_ok a -> ad_family a = AF_INET -> ztake 4 (ad_ip a) ++ zeros 12 = ad_ip a.
Proof. intros [_ _ _ H4] Hf. rewrite <- (H4 Hf). apply ztake_zdrop. Qed.

(** An address survives the way through the system: what is received from a
    socket address is what was converted into it, and addresses parsed from text are
    of this form. *)
Theorem addr_roundtrip `{InetPton} `{!InetPtonLaws} a str port : addr_ok a -> 0 <= port < 65536 ->
  sockaddr_to_addr (addr_to_sockaddr a) = a /\
  match nxp_addr_from_string str port with
  | inr b => addr_ok b /\ ad_port b = port
  | inl e => e = NXP_ERR_INVALID_ARGUMENT
  end.
Proof.
  intros Ha Hp. split.
  - pose proof Ha as [Hf Hport Hl H4]. unfold addr_to_sockaddr. destruct Hf as [Hf | Hf]; rewrite Hf.
    + change (AF_INET =? AF_INET) with true. cbn [sockaddr_to_addr]. rewrite be_val_be_bytes_small by (change (256 ^ Z.of_nat 2) with 65536; lia).
      rewrite ip_v4 by done. rewrite <- Hf. by destruct a.
    + change (AF_INET6 =? AF_INET) with false. cbn [sockaddr_to_addr]. rewrite be_val_be_bytes_small by (change (256 ^ Z.of_nat 2) with 65536; lia).
      rewrite ztake_all by lia. rewrite <- Hf. by destruct a.
  - unfold nxp_addr_from_string. destruct (inet_pton4 str) as [v4 |] eqn:H4.
    + apply inet_pton4_len in H4 as [H4 _]. split; [| done]. split; cbn; [by left | done | rewrite zlen_app, H4; done |].
      intros _. rewrite <- H4. apply zdrop_app.
    + destruct (inet_pton6 str) as [v6 |] eqn:H6; [| done]. apply inet_pton6_len in H6 as [H6 _]. split; [| done].
      split; cbn; [by right | done | done | done].
Qed.

(** Comparing addresses is comparing all their fields. *)
Theorem addr_equal_exact a b : addr_ok a -> addr_ok b -> nxp_addr_equal a b = true <-> a = b.
Proof.
  intros Ha Hb. unfold nxp_addr_equal. split; [| intros <-; rewrite !Z.eqb_refl; cbn [negb]; by destruct (_ =? _); apply bool_decide_eq_true_2].
  destruct (Z.eqb_spec (ad_family a) (ad_family b)) as [Hf |]; [cbn [negb] | done].
  destruct (Z.eqb_spec (ad_port a) (ad_port b)) as [Hp |]; [cbn [negb] | done]. intros Hip.
  assert (ad_ip a = ad_ip b) as Hi; [| destruct a, b; cbn in *; congruence].
  pose proof (ao_ip _ Ha). pose proof (ao_ip _ Hb). destruct (Z.eqb_spec (ad_family a) AF_INET) as [H4 |]; apply bool_decide_eq_true_1 in Hip.
  - rewrite <- (ip_v4 a Ha H4), <- (ip_v4 b Hb) by congruence. by rewrite Hip.
  - by rewrite !ztake_all in Hip by lia.
Qed.

Definition sample_pton : InetPton := {|
  inet_pton4 s := if decide (s = ascii "127.0.0.1") then Some [127; 0; 0; 1] else
                   if decide (s = ascii "0.0.0.0") then Some [0; 0; 0; 0] else None;
  inet_pton6 s := None
|}.

Lemma sample_pton_laws : @InetPtonLaws sample_pton.
Proof.
  split; [| done]. intros s a. cbn. repeat case_decide; intros Ha; [injection Ha as <-.. | done]; (split; [done |]; by repeat constructor).
Qed.

Definition sample_addr : nxp_addr := Addr AF_INET 4433 ([10; 0; 0; 7] ++ zeros 12).

Lemma sample_addr_ok : addr_ok sample_addr.
Proof. split; [by left | split; by_compute | done | done]. Qed.

Lemma addr_roundtrip_witness : sockaddr_to_addr (addr_to_sockaddr sample_addr) = sample_addr.
Proof.
  pose proof (@addr_roundtrip sample_pton sample_pton_laws sample_addr (ascii "127.0.0.1") 80 sample_addr_ok ltac:(lia)) as [Hr _]. exact Hr.
Defined.

Lemma addr_equal_exact_witness : nxp_addr_equal sample_addr sample_addr = true <-> sample_addr = sample_addr.
Proof. apply (addr_equal_exact sample_addr sample_addr sample_addr_ok sample_addr_ok). Defined.

(** ** Resources *)

(** The tokens the process holds, and the next one. *)
Record os := Os {
  os_next : Z;
  os_held : list Z
}.

Definition os_ok (s : os) : Prop := NoDup (os_held s) /\ Forall (fun r => r < os_next s) (os_held s).

Definition io (A : Type) : Type := os -> outcome unit (A * os).
#[export] Instance io_ret : MRet io := fun A a s => Done (a, s).
#[export] Instance io_bind : MBind io := fun A B k m s => let! (a, s) := m s in k a s.

Definition lift {A} (m : outcome unit A) : io A := fun s => let! a := m in Done (a, s).

(** [socket], [accept], [malloc], [calloc], [strdup]: a new token, if the system
    grants it. *)
Definition acquire (granted : bool) : io (option Z) := fun s =>
  if granted then Done (Some (os_next s), Os (os_next s + 1) (os_next s :: os_held s)) else Done (None, s).

Fixpoint remove_token (r : Z) (held : list Z) : option (list Z) :=
  match held with
  | [] => None
  | x :: held => if x =? r then Some held else cons x <$> remove_token r held
  end.

(** [close] and [free]. *)
Definition release (r : Z) : io unit := fun s =>
  match remove_token r (os_held s) with
  | Some held => Done (tt, Os (os_next s) held)
  | None => Ub
  end.
Definition release_opt (r : option Z) : io unit := match r with Some r => release r | None => mret tt end.

(** The calls whose answer the system chooses. *)
Inductive call : Type :=
| CSocket
| CBind
| CListen
| CAccept
| CConnect
| CFcntl
| CSend
| CMallocSocket
| CCallocState
| CCallocTransport
| CStrdupHost
| CStrdupPath.

(** ** UDP sockets *)

(** [so_local] is the address the descriptor is bound to. *)
Record nxp_socket := Socket {
  so_mem : Z;
  so_fd : Z;
  so_local : sockaddr
}.

Definition nxp_socket_create_udp (ok : call -> bool) (bind_addr : nxp_addr) : io (nxp_error_code + nxp_socket) :=
  fd ← acquire (ok CSocket);
  match fd with
  | None => mret (inl NXP_ERR_PLATFORM)
  | Some fd =>
      if negb (ok CBind) then _ ← release fd; mret (inl NXP_ERR_PLATFORM) else
      sock ← acquire (ok CMallocSocket);
      match sock with
      | None => _ ← release fd; mret (inl NXP_ERR_OUT_OF_MEMORY)
      | Some m => mret (inr (Socket m fd (addr_to_sockaddr bind_addr)))
      end
  end.

Definition nxp_socket_close (sock : nxp_socket) : io unit :=
  _ ← release (so_fd sock); release (so_mem sock).

Definition nxp_socket_set_nonblocking (ok : call -> bool) : option nxp_error_code :=
  if ok CFcntl then None else Some NXP_ERR_PLATFORM.

(** ** Reasoning about resources *)

(** [m] is defined in [s], and what it returns and leaves satisfies [Q]. *)
Definition wp {A} (m : io A) (Q : A -> os -> Prop) (s : os) : Prop :=
  match m s with
  | Done (a, s') => Q a s'
  | _ => False
  end.

Lemma wp_ret {A} (a : A) Q s : Q a s -> wp (mret a) Q s.
Proof. done. Qed.

Lemma wp_bind {A B} (m : io A) (k : A -> io B) Q s : wp m (fun a s => wp (k a) Q s) s -> wp (m ≫= k) Q s.
Proof.
  unfold wp. change ((m ≫= k) s) with (obind (m s) (fun '(a, s) => k a s)). by destruct (m s) as [[a s'] | |].
Qed.

Lemma wp_lift {A} (m : outcome unit A) a Q s : m = Done a -> Q a s -> wp (lift m) Q s.
Proof. intros -> HQ. done. Qed.

Lemma wp_mono {A} (m : io A) (P Q : A -> os -> Prop) s : wp m P s -> (forall a s', P a s' -> Q a s') -> wp m Q s.
Proof. unfold wp. destruct (m s) as [[a s'] | |]; auto. Qed.

(** A token that is granted is a new one. *)
Lemma wp_acquire ok Q s : os_ok s ->
  (ok = true -> forall r s', os_ok s' -> os_held s' = r :: os_held s -> r ∉ os_held s -> Q (Some r) s') ->
  (ok = false -> Q None s) -> wp (acquire ok) Q s.
Proof.
  intros [Hn Hs] Hyes Hno. unfold wp, acquire. destruct ok; [| by apply Hno].
  assert (os_next s ∉ os_held s) as Hr by (intros Hin; rewrite list.Forall_forall in Hs; specialize (Hs _ Hin); lia).
  apply Hyes; [done | | done | done]. split; cbn; [by apply list.NoDup_cons |].
  constructor; [lia |]. eapply list.Forall_impl; [exact Hs |]. simpl. lia.
Qed.

Lemma remove_token_perm r held : r ∈ held -> exists held', remove_token r held = Some held' /\ held ≡ₚ r :: held'.
Proof.
  induction held as [| x held IH]; intros Hr; [by apply not_elem_of_nil in Hr |]. cbn [remove_token].
  destruct (Z.eqb_spec x r) as [-> | Hne]; [by exists held |]. apply elem_of_cons in Hr as [? | Hr]; [done |].
  destruct (IH Hr) as (held' & -> & Hp). exists (x :: held'). split; [done |]. rewrite Hp. apply Permutation_swap.
Qed.

(** A token that is held is given back, wherever it is. *)
Lemma wp_release r rest Q s : os_ok s -> os_held s ≡ₚ r :: rest ->
  (forall s', os_ok s' -> os_held s' ≡ₚ rest -> Q tt s') -> wp (release r) Q s.
Proof.
  intros [Hn Hs] Hp HQ. unfold wp, release. destruct (remove_token_perm r (os_held s)) as (held & -> & Hp'); [rewrite Hp; by left |].
  assert (held ≡ₚ rest) as Hrest by (apply (Permutation_cons_inv (a := r)); by rewrite <- Hp', Hp).
  apply HQ; [| done]. rewrite Hp' in Hn. apply list.NoDup_cons in Hn as [_ Hn]. split; [done |]. cbn.
  rewrite Hp' in Hs. by apply Forall_cons_iff in Hs as [_ ?].
Qed.
