(* ===== verification/Transports.v ===== *)
(** * Transport factories and their registry (src/src/platform/transport.c and the backends)

    Connecting, listening and closing over UDP, TCP and WebSocket, with every early
    return, as programs that acquire and release tokens of the operating system;
    and the table of backends that dispatches on the scheme of a URL. *)

From stdpp Require Import gmap strings.
From S2P Require Import Prelude CString Types Url Sockets.

(** ** State of the backends: the tokens of their structures and descriptors, and the
    addresses that [connect], [accept] and [bind] tied the descriptors to *)

Inductive nxp_transport : Type :=
| TUdp (t state : Z) (sock : nxp_socket) (owns_socket : bool) (peer_addr : option nxp_addr)
| TTcp (t state fd : Z) (peer : sockaddr)
| TWs (t state fd : Z) (peer : sockaddr) (host path : option Z) (port : Z).

Inductive nxp_transport_listener : Type :=
| LUdp (ln state : Z) (sock : nxp_socket) (bind_host : option Z) (bind_port : Z)
| LTcp (ln state fd : Z) (local : sockaddr) (host : option Z) (port : Z).

Section Backends.
Context `{InetPton}.
Variable ok : call -> bool.

(** Close the descriptor and fail. *)
Definition fail_close {A} (fd : Z) (e : nxp_error_code) : io (nxp_error_code + A) := _ ← release fd; mret (inl e).

(** [set_nonblocking] of the stream transports. *)
Definition set_nonblocking : bool := ok CFcntl.

Definition resolve_addr (host : list Z) (port : Z) : option sockaddr := SockIn (be_bytes 2 port) <$> inet_pton4 host.

(** ** UDP *)

Definition udp_connect_impl (url : list Z) : io (nxp_error_code + nxp_transport) :=
  hp ← lift (udp_connect_url url);
  let '(host, port) := hp : list Z * Z in
  match nxp_addr_from_string (ascii "0.0.0.0") 0 with
  | inl e => mret (inl e)
  | inr bind_addr =>
      r ← nxp_socket_create_udp ok bind_addr;
      match r with
      | inl e => mret (inl e)
      | inr sock =>
          match nxp_socket_set_nonblocking ok with
          | Some e => _ ← nxp_socket_close sock; mret (inl e)
          | None =>
              match nxp_addr_from_string host port with
              | inl e => _ ← nxp_socket_close sock; mret (inl e)
              | inr peer_addr =>
                  ut ← acquire (ok CCallocState);
                  match ut with
                  | None => _ ← nxp_socket_close sock; mret (inl NXP_ERR_OUT_OF_MEMORY)
                  | Some ut =>
                      t ← acquire (ok CCallocTransport);
                      match t with
                      | None => _ ← nxp_socket_close sock; _ ← release ut; mret (inl NXP_ERR_OUT_OF_MEMORY)
                      | Some t => mret (inr (TUdp t ut sock true (Some peer_addr)))
                      end
                  end
              end
          end
      end
  end.

Definition udp_listen_impl (url : list Z) : io (nxp_error_code + nxp_transport_listener) :=
  hp ← lift (udp_listen_url url);
  let '(host, port) := hp : list Z * Z in
  match nxp_addr_from_string host port with
  | inl e => mret (inl e)
  | inr bind_addr =>
      r ← nxp_socket_create_udp ok bind_addr;
      match r with
      | inl e => mret (inl e)
      | inr sock =>
          match nxp_socket_set_nonblocking ok with
          | Some e => _ ← nxp_socket_close sock; mret (inl e)
          | None =>
              ul ← acquire (ok CCallocState);
              match ul with
              | None => _ ← nxp_socket_close sock; mret (inl NXP_ERR_OUT_OF_MEMORY)
              | Some ul =>
                  bind_host ← acquire (ok CStrdupHost);
                  ln ← acquire (ok CCallocTransport);
                  match ln with
                  | None =>
                      _ ← nxp_socket_close sock; _ ← release_opt bind_host; _ ← release ul;
                      mret (inl NXP_ERR_OUT_OF_MEMORY)
                  | Some ln => mret (inr (LUdp ln ul sock bind_host port))
                  end
              end
          end
      end
  end.

(** A transport on the socket of a listener, which keeps it. *)
Definition nxp_udp_transport_from_listener (ln : nxp_transport_listener) : io (option nxp_transport) :=
  match ln with
  | LUdp _ _ sock _ _ =>
      ut ← acquire (ok CCallocState);
      match ut with
      | None => mret None
      | Some ut =>
          t ← acquire (ok CCallocTransport);
          match t with
          | None => _ ← release ut; mret None
          | Some t => mret (Some (TUdp t ut sock false None))
          end
      end
  | LTcp _ _ _ _ _ _ => fun _ => Ub
  end.

(** ** TCP: a host that is not an IPv4 address listens on every interface *)

Definition INADDR_ANY : list Z := zeros 4.

Definition tcp_connect_impl (url : list Z) : io (nxp_error_code + nxp_transport) :=
  hp ← lift (parse_url url (ascii "127.0.0.1"));
  let '(host, port) := hp : list Z * Z in
  fd ← acquire (ok CSocket);
  match fd with
  | None => mret (inl NXP_ERR_PLATFORM)
  | Some fd =>
      match resolve_addr host port with None => fail_close fd NXP_ERR_PLATFORM | Some addr =>
      if negb (ok CConnect) then fail_close fd NXP_ERR_PLATFORM else
      if negb set_nonblocking then fail_close fd NXP_ERR_PLATFORM else
      tc ← acquire (ok CCallocState);
      match tc with
      | None => fail_close fd NXP_ERR_OUT_OF_MEMORY
      | Some tc =>
          t ← acquire (ok CCallocTransport);
          match t with
          | None => _ ← release fd; _ ← release tc; mret (inl NXP_ERR_OUT_OF_MEMORY)
          | Some t => mret (inr (TTcp t tc fd addr))
          end
      end
      end
  end.

Definition tcp_listen_impl (url : list Z) : io (nxp_error_code + nxp_transport_listener) :=
  hp ← lift (parse_url url (ascii "0.0.0.0"));
  let '(host, port) := hp : list Z * Z in
  fd ← acquire (ok CSocket);
  match fd with
  | None => mret (inl NXP_ERR_PLATFORM)
  | Some fd =>
      let addr := SockIn (be_bytes 2 port) (default INADDR_ANY (inet_pton4 host)) in
      if negb (ok CBind) then fail_close fd NXP_ERR_PLATFORM else
      if negb (ok CListen) then fail_close fd NXP_ERR_PLATFORM else
      tl ← acquire (ok CCallocState);
      match tl with
      | None => fail_close fd NXP_ERR_OUT_OF_MEMORY
      | Some tl =>
          host ← acquire (ok CStrdupHost);
          ln ← acquire (ok CCallocTransport);
          match ln with
          | None => _ ← release fd; _ ← release_opt host; _ ← release tl; mret (inl NXP_ERR_OUT_OF_MEMORY)
          | Some ln => mret (inr (LTcp ln tl fd addr host port))
          end
      end
  end.

Definition tcp_accept (addr : sockaddr) (ln : nxp_transport_listener) : io (option nxp_transport) :=
  client ← acquire (ok CAccept);
  match client with
  | None => mret None
  | Some client =>
      tc ← acquire (ok CCallocState);
      match tc with
      | None => _ ← release client; mret None
      | Some tc =>
          t ← acquire (ok CCallocTransport);
          match t with
          | None => _ ← release client; _ ← release tc; mret None
          | Some t => mret (Some (TTcp t tc client addr))
          end
      end
  end.

(** ** WebSocket: [hs_len] is the length of the upgrade request, 0 when it does not
    fit its buffer *)

Definition ws_connect_impl (hs_len : list Z -> list Z -> Z) (url : list Z) : io (nxp_error_code + nxp_transport) :=
  hpp ← lift (ws_connect_url url);
  let '(host, port, path) := hpp : list Z * Z * list Z in
  fd ← acquire (ok CSocket);
  match fd with
  | None => mret (inl NXP_ERR_PLATFORM)
  | Some fd =>
      match resolve_addr host port with None => fail_close fd NXP_ERR_PLATFORM | Some addr =>
      if negb (ok CConnect) then fail_close fd NXP_ERR_PLATFORM else
      if negb set_nonblocking then fail_close fd NXP_ERR_PLATFORM else
      if hs_len path host =? 0 then fail_close fd NXP_ERR_INTERNAL else
      if negb (ok CSend) then fail_close fd NXP_ERR_PLATFORM else
      ws ← acquire (ok CCallocState);
      match ws with
      | None => fail_close fd NXP_ERR_OUT_OF_MEMORY
      | Some ws =>
          h ← acquire (ok CStrdupHost);
          p ← acquire (ok CStrdupPath);
          t ← acquire (ok CCallocTransport);
          match t with
          | None =>
              _ ← release fd; _ ← release_opt h; _ ← release_opt p; _ ← release ws;
              mret (inl NXP_ERR_OUT_OF_MEMORY)
          | Some t => mret (inr (TWs t ws fd addr h p port))
          end
      end
      end
  end.

End Backends.

(** ** Closing: the operations of the tables of functions; [t] and [ln] are not null *)

Definition udp_close (t ut : Z) (sock : nxp_socket) (owns_socket : bool) : io unit :=
  _ ← (if owns_socket then nxp_socket_close sock else mret tt); _ ← release ut; release t.

Definition tcp_close (t tc fd : Z) : io unit := _ ← release fd; _ ← release tc; release t.

Definition ws_close (t ws fd : Z) (host path : option Z) : io unit :=
  _ ← release fd; _ ← release_opt host; _ ← release_opt path; _ ← release ws; release t.

Definition udp_listener_close (ln ul : Z) (sock : nxp_socket) (bind_host : option Z) : io unit :=
  _ ← nxp_socket_close sock; _ ← release_opt bind_host; _ ← release ul; release ln.

Definition tl_close (ln tl fd : Z) (host : option Z) : io unit :=
  _ ← release fd; _ ← release_opt host; _ ← release tl; release ln.

(** [t->ops->close(t)] and [ln->ops->close(ln)] *)
Definition transport_close (t : nxp_transport) : io unit :=
  match t with
  | TUdp t ut sock owns _ => udp_close t ut sock owns
  | TTcp t tc fd _ => tcp_close t tc fd
  | TWs t ws fd _ host path _ => ws_close t ws fd host path
  end.

Definition listener_close (ln : nxp_transport_listener) : io unit :=
  match ln with
  | LUdp ln ul sock bind_host _ => udp_listener_close ln ul sock bind_host
  | LTcp ln tl fd _ host _ => tl_close ln tl fd host
  end.

(** Only the UDP transport has a socket. *)
Definition nxp_transport_get_socket (t : nxp_transport) : option nxp_socket :=
  match t with TUdp _ _ sock _ _ => Some sock | _ => None end.

(** ** Registry *)

(** Function pointers of a backend; [None] is the null pointer. *)
Record nxp_transport_backend := Backend {
  can_connect : option bool;
  connect_impl : option (list Z -> io (nxp_error_code + nxp_transport));
  can_listen : option bool;
  listen_impl : option (list Z -> io (nxp_error_code + nxp_transport_listener))
}.

(** [g_backends], [None] where nothing is registered, and [g_initialized]. *)
Record registry := Registry {
  g_backends : nxp_transport_type -> option nxp_transport_backend;
  g_initialized : bool
}.
#[export] Instance eta_registry : Eta registry := fun g => Registry (g_backends g) (g_initialized g).

Definition nxp_transport_register (ty : nxp_transport_type) (b : nxp_transport_backend) (g : registry) : registry :=
  g <| g_backends := fun ty' => if decide (ty' = ty) then Some b else g_backends g ty' |>.

(** Call through a pointer with a URL that may be null: the backends read it at
    once. *)
Definition call_impl {R} (impl : option (list Z -> io R)) (url : option (list Z)) : io R :=
  match impl, url with
  | Some impl, Some url => impl url
  | _, _ => fun _ => Ub
  end.

Definition nxp_transport_connect (g : registry) (url : option (list Z)) : io (nxp_error_code + nxp_transport) :=
  if negb (g_initialized g) then mret (inl NXP_ERR_INTERNAL) else
  ty ← lift (parse_scheme url);
  match g_backends g ty with
  | None => mret (inl NXP_ERR_INVALID_ARGUMENT)
  | Some b =>
      match can_connect b with
      | Some false => mret (inl NXP_ERR_PLATFORM)
      | _ => call_impl (connect_impl b) url
      end
  end.

Definition nxp_transport_listen (g : registry) (url : option (list Z)) : io (nxp_error_code + nxp_transport_listener) :=
  if negb (g_initialized g) then mret (inl NXP_ERR_INTERNAL) else
  ty ← lift (parse_scheme url);
  match g_backends g ty with
  | None => mret (inl NXP_ERR_INVALID_ARGUMENT)
  | Some b =>
      match can_listen b with
      | Some false => mret (inl NXP_ERR_PLATFORM)
      | _ => call_impl (listen_impl b) url
      end
  end.

Section Registration.
Context `{InetPton}.
Variable ok : call -> bool.
Variable hs_len : list Z -> list Z -> Z.

Definition nxp_transport_udp_register : registry -> registry :=
  nxp_transport_register NXP_TRANSPORT_UDP (Backend None (Some (udp_connect_impl ok)) None (Some (udp_listen_impl ok))).
Definition nxp_transport_ws_register : registry -> registry :=
  nxp_transport_register NXP_TRANSPORT_WS (Backend None (Some (ws_connect_impl ok hs_len)) None None).
Definition nxp_transport_tcp_register : registry -> registry :=
  nxp_transport_register NXP_TRANSPORT_TCP (Backend None (Some (tcp_connect_impl ok)) None (Some (tcp_listen_impl ok))).

Definition nxp_transport_init (g : registry) : registry :=
  if g_initialized g then g else
  nxp_transport_tcp_register (nxp_transport_ws_register (nxp_transport_udp_register g)) <| g_initialized := true |>.

(** Static storage at start. *)
Definition registry_zero : registry := Registry (fun _ => None) false.

End Registration.

(** ** Ownership *)

Definition opt_tokens (r : option Z) : list Z := match r with Some r => [r] | None => [] end.

(** The tokens that closing gives back, in this order. *)
Definition transport_tokens (t : nxp_transport) : list Z :=
  match t with
  | TUdp t ut sock owns _ => (if owns then [so_fd sock; so_mem sock] else []) ++ [ut; t]
  | TTcp t tc fd _ => [fd; tc; t]
  | TWs t ws fd _ host path _ => fd :: opt_tokens host ++ opt_tokens path ++ [ws; t]
  end.

Definition listener_tokens (ln : nxp_transport_listener) : list Z :=
  match ln with
  | LUdp ln ul sock bind_host _ => so_fd sock :: so_mem sock :: opt_tokens bind_host ++ [ul; ln]
  | LTcp ln tl fd _ host _ => fd :: opt_tokens host ++ [tl; ln]
  end.

(** [m] acquires exactly the tokens of its result; a failure has none. *)
Definition acquires {R} (tok : R -> list Z) (m : io R) : Prop := forall s held, os_ok s -> os_held s ≡ₚ held ->
  wp m (fun r s' => os_ok s' /\ os_held s' ≡ₚ tok r ++ held) s.

Definition sum_tokens {A} (tok : A -> list Z) (r : nxp_error_code + A) : list Z :=
  match r with inl _ => [] | inr a => tok a end.
Definition option_tokens {A} (tok : A -> list Z) (r : option A) : list Z :=
  match r with None => [] | Some a => tok a end.

Fixpoint release_all (l : list Z) : io unit :=
  match l with
  | [] => mret tt
  | r :: l => _ ← release r; release_all l
  end.

Lemma wp_release_all l : forall s rest, os_ok s -> os_held s ≡ₚ l ++ rest ->
  wp (release_all l) (fun _ s' => os_ok s' /\ os_held s' ≡ₚ rest) s.
Proof.
  induction l as [| r l IH]; intros s rest Hs Hp; cbn [release_all]; [by apply wp_ret |].
  apply wp_bind, (wp_release r (l ++ rest)); [done | done |]. intros s' Hs' Hp'. by apply IH.
Qed.

(** Run releases step by step. *)
Ltac run_io := unfold udp_close, tcp_close, ws_close, udp_listener_close, tl_close, release_opt, nxp_socket_close, mret, mbind, io_ret, io_bind, release; cbn [obind so_fd so_mem];
  repeat (case_match; cbn [obind os_held os_next so_fd so_mem]); done.

Lemma transport_close_all t s : transport_close t s = release_all (transport_tokens t) s.
Proof.
  destruct t as [t ut [m fd local] owns peer | t tc fd peer | t ws fd peer host path port]; cbn [transport_close transport_tokens].
  - destruct owns; cbn [app release_all so_fd so_mem]; run_io.
  - cbn [release_all]. run_io.
  - destruct host, path; cbn [opt_tokens app release_all release_opt]; run_io.
Qed.

Lemma listener_close_all ln s : listener_close ln s = release_all (listener_tokens ln) s.
Proof.
  destruct ln as [ln ul [m fd local] host port | ln tl fd local host port]; cbn [listener_close listener_tokens];
    destruct host; cbn [opt_tokens app release_all release_opt so_fd so_mem]; run_io.
Qed.

(** One step of a factory: a call, an answer of the system, or the end.  What is
    held is kept as [tokens ++ held]. *)
Lemma wp_acquire_perm ok (Q : option Z -> os -> Prop) s held : os_ok s -> os_held s ≡ₚ held ->
  (forall r s', os_ok s' -> os_held s' ≡ₚ r :: held -> Q (Some r) s') -> Q None s -> wp (acquire ok) Q s.
Proof.
  intros Hs Hp Hyes Hno. apply wp_acquire; [done | | done]. intros _ r s' Hs' Hh _. apply Hyes; [done |]. by rewrite Hh, Hp.
Qed.

Lemma perm_skip (x r : Z) l rest : l ≡ₚ r :: rest -> x :: l ≡ₚ r :: x :: rest.
Proof. intros ->. apply Permutation_swap. Qed.
Ltac perm_front := first [reflexivity | apply perm_skip; perm_front].

Ltac io_step :=
  match goal with
  | |- wp (_ ≫= _) _ _ => apply wp_bind
  | |- wp (mret _) _ _ => apply wp_ret
  | Hh : os_held ?s ≡ₚ _ |- wp (acquire _) _ ?s =>
      eapply wp_acquire_perm; [assumption | exact Hh | clear Hh; intros ? ? ? ? |]
  | Hh : os_held ?s ≡ₚ _ |- wp (release _) _ ?s =>
      eapply wp_release; [assumption | etransitivity; [exact Hh | perm_front] | clear Hh; intros ? ? ?]
  | |- wp (release_opt (Some _)) _ _ => cbn [release_opt]
  | |- wp (release_opt None) _ _ => apply wp_ret
  | |- wp (nxp_socket_close _) _ _ => unfold nxp_socket_close; cbn [so_fd so_mem]
  | |- wp (fail_close _ _) _ _ => unfold fail_close
  | |- wp (if ?b then _ else _) _ _ => destruct b
  | |- wp (match ?m with _ => _ end) _ _ => destruct m
  | Hh : os_held ?s ≡ₚ _ |- os_ok ?s /\ os_held ?s ≡ₚ _ => split; [assumption | rewrite Hh; cbn; solve_Permutation]
  end; cbv beta iota.
Ltac io_run := repeat io_step.

Section Factories.
Context `{InetPton}.
Variable ok : call -> bool.

Definition socket_tokens (sock : nxp_socket) : list Z := [so_fd sock; so_mem sock].

Lemma create_udp_acquires a : acquires (sum_tokens socket_tokens) (nxp_socket_create_udp ok a).
Proof.
  intros s held Hs Hh. unfold nxp_socket_create_udp. io_run.
Qed.

Lemma tcp_connect_acquires url hp : parse_url url (ascii "127.0.0.1") = Done hp ->
  acquires (sum_tokens transport_tokens) (tcp_connect_impl ok url).
Proof.
  intros Hu s held Hs Hh. unfold tcp_connect_impl. apply wp_bind, (wp_lift _ hp); [done |]. destruct hp as [host port]. io_run.
Qed.

Lemma tcp_listen_acquires url hp : parse_url url (ascii "0.0.0.0") = Done hp ->
  acquires (sum_tokens listener_tokens) (tcp_listen_impl ok url).
Proof.
  intros Hu s held Hs Hh. unfold tcp_listen_impl. apply wp_bind, (wp_lift _ hp); [done |]. destruct hp as [host port]. io_run.
Qed.

Lemma tcp_accept_acquires addr ln : acquires (option_tokens transport_tokens) (tcp_accept ok addr ln).
Proof. intros s held Hs Hh. unfold tcp_accept. io_run. Qed.

Lemma ws_connect_acquires hs_len url hpp : ws_connect_url url = Done hpp ->
  acquires (sum_tokens transport_tokens) (ws_connect_impl ok hs_len url).
Proof.
  intros Hu s held Hs Hh. unfold ws_connect_impl. apply wp_bind, (wp_lift _ hpp); [done |]. destruct hpp as [[host port] path]. io_run.
Qed.

Lemma from_listener_acquires ln : match ln with LUdp _ _ _ _ _ => True | _ => False end ->
  acquires (option_tokens transport_tokens) (nxp_udp_transport_from_listener ok ln).
Proof. intros Hln s held Hs Hh. unfold nxp_udp_transport_from_listener. destruct ln; [| done]. io_run. Qed.

Lemma wp_create_udp a (Q : nxp_error_code + nxp_socket -> os -> Prop) s held : os_ok s -> os_held s ≡ₚ held ->
  (forall m fd local s', os_ok s' -> os_held s' ≡ₚ fd :: m :: held -> Q (inr (Socket m fd local)) s') ->
  (forall e s', os_ok s' -> os_held s' ≡ₚ held -> Q (inl e) s') -> wp (nxp_socket_create_udp ok a) Q s.
Proof.
  intros Hs Hh Hyes Hno. eapply wp_mono; [by apply (create_udp_acquires a s held) |]. simpl. intros [e | [m fd local]] s' [Hs' Hp]; [by apply Hno |].
  by apply Hyes.
Qed.

Ltac udp_run := match goal with Hh : os_held ?s ≡ₚ _ |- wp (nxp_socket_create_udp ok _ ≫= _) _ ?s =>
  apply wp_bind; eapply wp_create_udp; [assumption | exact Hh | clear Hh; intros ? ? ? ? ? ? | clear Hh; intros ? ? ? ?] end; io_run.

Lemma udp_connect_acquires url hp : udp_connect_url url = Done hp -> acquires (sum_tokens transport_tokens) (udp_connect_impl ok url).
Proof.
  intros Hu s held Hs Hh. unfold udp_connect_impl. apply wp_bind, (wp_lift _ hp); [done |]. destruct hp as [host port]. io_step.
  - io_run.
  - udp_run.
Qed.

Lemma udp_listen_acquires url hp : udp_listen_url url = Done hp -> acquires (sum_tokens listener_tokens) (udp_listen_impl ok url).
Proof.
  intros Hu s held Hs Hh. unfold udp_listen_impl. apply wp_bind, (wp_lift _ hp); [done |]. destruct hp as [host port]. io_step.
  - io_run.
  - udp_run.
Qed.

(** Whatever [m] returns satisfies [P]. *)
Definition ensures {A} (P : A -> Prop) (m : io A) : Prop := forall s, match m s with Done (a, _) => P a | _ => True end.

Lemma ensures_bind {A B} P (m : io A) (k : A -> io B) : (forall a, ensures P (k a)) -> ensures P (m ≫= k).
Proof.
  intros Hk s. change ((m ≫= k) s) with (obind (m s) (fun '(a, s) => k a s)). destruct (m s) as [[a s'] | |]; [apply Hk | done | done].
Qed.
Lemma ensures_ret {A} (P : A -> Prop) a : P a -> ensures P (mret a).
Proof. intros HP s. exact HP. Qed.

(** A listener on UDP is one of UDP. *)
Lemma udp_listen_kind url :
  ensures (fun r => match r with inr (LTcp _ _ _ _ _ _) => False | _ => True end) (udp_listen_impl ok url).
Proof.
  unfold udp_listen_impl. repeat first [apply ensures_bind; intros ? | by apply ensures_ret | case_match].
Qed.

Lemma ensures_lift {A B} P (m : outcome unit A) a (k : A -> io B) : m = Done a -> ensures P (k a) -> ensures P (lift m ≫= k).
Proof. intros -> Hk s. exact (Hk s). Qed.

Lemma ensures_call {A B} (P : B -> Prop) (Q : A -> Prop) (m : io A) (k : A -> io B) :
  ensures Q m -> (forall a, Q a -> ensures P (k a)) -> ensures P (m ≫= k).
Proof.
  intros Hm Hk s. specialize (Hm s). change ((m ≫= k) s) with (obind (m s) (fun '(a, s) => k a s)).
  destruct (m s) as [[a s'] | |]; [by apply Hk | done | done].
Qed.

Lemma create_udp_local a : ensures (fun r => match r with inr sock => so_local sock = addr_to_sockaddr a | inl _ => True end)
  (nxp_socket_create_udp ok a).
Proof. unfold nxp_socket_create_udp. repeat first [apply ensures_bind; intros ? | by apply ensures_ret | case_match]. Qed.

Ltac endpoint_run := repeat first [apply ensures_bind; intros ? | apply ensures_ret; by eauto 10 | case_match].

Lemma udp_connect_endpoint url host port a wild : udp_connect_url url = Done (host, port) ->
  nxp_addr_from_string host port = inr a -> nxp_addr_from_string (ascii "0.0.0.0") 0 = inr wild ->
  ensures (fun r => match r with
    | inr t => exists m st sock, t = TUdp m st sock true (Some a) /\ so_local sock = addr_to_sockaddr wild
    | inl _ => True end) (udp_connect_impl ok url).
Proof.
  intros Hu Ha Hw. unfold udp_connect_impl. eapply ensures_lift; [exact Hu |]. cbv beta iota. rewrite Hw.
  apply (ensures_call _ _ _ _ (create_udp_local wild)). intros [e | sock] Hl; [by apply ensures_ret |]. rewrite Ha. endpoint_run.
Qed.

Lemma udp_listen_endpoint url host port a : udp_listen_url url = Done (host, port) -> nxp_addr_from_string host port = inr a ->
  ensures (fun r => match r with
    | inr ln => exists m st sock h, ln = LUdp m st sock h port /\ so_local sock = addr_to_sockaddr a
    | inl _ => True end) (udp_listen_impl ok url).
Proof.
  intros Hu Ha. unfold udp_listen_impl. eapply ensures_lift; [exact Hu |]. cbv beta iota. rewrite Ha.
  apply (ensures_call _ _ _ _ (create_udp_local a)). intros [e | sock] Hl; [by apply ensures_ret |]. endpoint_run.
Qed.

(** Nothing refused, nothing fails. *)
Ltac grant_all Hok := unfold nxp_socket_create_udp, nxp_socket_set_nonblocking, acquire, lift, mret, mbind, io_ret, io_bind;
  repeat (rewrite ?Hok; cbn [obind negb]); eauto.

Lemma udp_connect_succeeds url host port a wild s : udp_connect_url url = Done (host, port) ->
  nxp_addr_from_string host port = inr a -> nxp_addr_from_string (ascii "0.0.0.0") 0 = inr wild -> (forall c, ok c = true) ->
  exists t s', udp_connect_impl ok url s = Done (inr t, s').
Proof.
  intros Hu Ha Hw Hok. unfold udp_connect_impl, lift, mbind, io_bind. rewrite Hu. cbn [obind]. rewrite Hw. grant_all Hok. rewrite Ha. grant_all Hok.
Qed.

Lemma udp_listen_succeeds url host port a s : udp_listen_url url = Done (host, port) ->
  nxp_addr_from_string host port = inr a -> (forall c, ok c = true) -> exists ln s', udp_listen_impl ok url s = Done (inr ln, s').
Proof.
  intros Hu Ha Hok. unfold udp_listen_impl, lift, mbind, io_bind. rewrite Hu. cbn [obind]. rewrite Ha. grant_all Hok.
Qed.

End Factories.

(** ** What the registry promises *)

(** The parser of the backend is defined on [url]; only a port outside [int] is not. *)
Definition connect_readable (ty : nxp_transport_type) (url : list Z) : Prop :=
  match ty with
  | NXP_TRANSPORT_UDP => exists r, udp_connect_url url = Done r
  | NXP_TRANSPORT_TCP => exists r, parse_url url (ascii "127.0.0.1") = Done r
  | NXP_TRANSPORT_WS => exists r, ws_connect_url url = Done r
  | NXP_TRANSPORT_RTC => True
  end.
Definition listen_readable (ty : nxp_transport_type) (url : list Z) : Prop :=
  match ty with
  | NXP_TRANSPORT_UDP => exists r, udp_listen_url url = Done r
  | NXP_TRANSPORT_TCP => exists r, parse_url url (ascii "0.0.0.0") = Done r
  | NXP_TRANSPORT_WS => False
  | NXP_TRANSPORT_RTC => True
  end.

(** A failure leaves what was held; a success adds exactly the tokens of the
    result, and closing it leaves what was held. *)
Definition owns_exactly {R} (tok : R -> list Z) (close : R -> io unit) (held : list Z) (r : nxp_error_code + R) (s : os) : Prop :=
  match r with
  | inl _ => os_held s ≡ₚ held
  | inr t => os_held s ≡ₚ tok t ++ held /\ wp (close t) (fun _ s' => os_held s' ≡ₚ held) s
  end.

Lemma wp_close {R} (tok : R -> list Z) (close : R -> io unit) t s rest : (forall s, close t s = release_all (tok t) s) ->
  os_ok s -> os_held s ≡ₚ tok t ++ rest -> wp (close t) (fun _ s' => os_ok s' /\ os_held s' ≡ₚ rest) s.
Proof. intros Hc Hs Hp. unfold wp. rewrite Hc. by apply wp_release_all. Qed.

Lemma acquires_owns {R} (tok : R -> list Z) (close : R -> io unit) m s : (forall t s, close t s = release_all (tok t) s) ->
  acquires (sum_tokens tok) m -> os_ok s -> wp m (owns_exactly tok close (os_held s)) s.
Proof.
  intros Hc Hm Hs. eapply wp_mono; [by apply (Hm s (os_held s)) |]. intros [e | t] s' [Hs' Hp]; [done |]. split; [done |].
  eapply wp_mono; [by eapply (wp_close tok) |]. by intros ? ? [_ ?].
Qed.

Section Promises.
Context `{InetPton}.
Variable ok : call -> bool.
Variable hs_len : list Z -> list Z -> Z.

Let g : registry := nxp_transport_init ok hs_len registry_zero.

Lemma connect_acquires url ty : parse_scheme (Some url) = Done ty -> connect_readable ty url ->
  acquires (sum_tokens transport_tokens) (nxp_transport_connect g (Some url)).
Proof.
  intros Hty Hr s held Hs Hh. unfold nxp_transport_connect. apply wp_bind, (wp_lift _ ty); [done |].
  destruct ty; cbn in Hr |- *; [destruct Hr as [r Hr] | destruct Hr as [r Hr] | destruct Hr as [r Hr] | apply wp_ret; by split].
  - by eapply udp_connect_acquires.
  - by eapply ws_connect_acquires.
  - by eapply tcp_connect_acquires.
Qed.

(** C16: Connecting through the registry neither leaks nor frees twice: whatever the
    system grants or refuses, a failed [nxp_transport_connect] of any scheme has
    given back every descriptor and allocation, a successful one holds exactly
    those of its transport, and closing that transport gives back exactly them;
    the scheme without a backend is refused as an invalid argument. *)
Theorem transport_connect_no_leak url ty s : parse_scheme (Some url) = Done ty -> connect_readable ty url -> os_ok s ->
  wp (nxp_transport_connect g (Some url)) (owns_exactly transport_tokens transport_close (os_held s)) s /\
  (ty = NXP_TRANSPORT_RTC -> nxp_transport_connect g (Some url) s = Done (inl NXP_ERR_INVALID_ARGUMENT, s)).
Proof.
  intros Hty Hr Hs. split.
  - apply acquires_owns; [apply transport_close_all | by apply (connect_acquires url ty) | done].
  - intros ->. unfold nxp_transport_connect, mbind, io_bind, lift. cbn [g_initialized g nxp_transport_init negb]. by rewrite Hty.
Qed.

Lemma listen_acquires url ty : parse_scheme (Some url) = Done ty -> listen_readable ty url ->
  acquires (sum_tokens listener_tokens) (nxp_transport_listen g (Some url)).
Proof.
  intros Hty Hr s held Hs Hh. unfold nxp_transport_listen. apply wp_bind, (wp_lift _ ty); [done |].
  destruct ty; cbn in Hr |- *; [destruct Hr as [r Hr] | done | destruct Hr as [r Hr] | apply wp_ret; by split].
  - by eapply udp_listen_acquires.
  - by eapply tcp_listen_acquires.
Qed.

(** Listening through the registry neither leaks nor frees twice, and closing
    the listener gives back exactly what it holds. *)
Theorem transport_listen_no_leak url ty s : parse_scheme (Some url) = Done ty -> listen_readable ty url -> os_ok s ->
  wp (nxp_transport_listen g (Some url)) (owns_exactly listener_tokens listener_close (os_held s)) s.
Proof. intros Hty Hr Hs. apply acquires_owns; [apply listener_close_all | by apply (listen_acquires url ty) | done]. Qed.

(** Listening on a WebSocket URL calls a null pointer: the backend is
    registered without [listen_impl], and only [can_listen] is tested, which is
    null as well; so does connecting with a null URL. *)
Theorem transport_null_calls s :
  (forall rest, nxp_transport_listen g (Some (ascii "ws://" ++ rest)) s = Ub) /\
  nxp_transport_connect g None s = Ub /\ nxp_transport_listen g None s = Ub.
Proof. split; [| done]. intros rest. reflexivity. Qed.

(** The transport that the server side makes on the socket of its listener
    does not own that socket: the transport and the listener can be closed in
    either order, and the socket is closed once. *)
Theorem udp_shared_socket url r s : udp_listen_url url = Done r -> os_ok s ->
  wp (udp_listen_impl ok url) (fun x s1 =>
    forall ln, x = inr ln ->
    wp (nxp_udp_transport_from_listener ok ln) (fun y s2 =>
      forall t, y = Some t ->
      wp (_ ← transport_close t; listener_close ln) (fun _ s3 => os_held s3 ≡ₚ os_held s) s2 /\
      wp (_ ← listener_close ln; transport_close t) (fun _ s3 => os_held s3 ≡ₚ os_held s) s2) s1) s.
Proof.
  intros Hu Hs. pose proof (udp_listen_kind ok url) as Hk. unfold wp at 1. specialize (Hk s).
  pose proof (udp_listen_acquires ok url r Hu s (os_held s) Hs (Permutation_refl _)) as Ha. unfold wp in Ha.
  destruct (udp_listen_impl ok url s) as [[x s1] | |]; [| done | done]. destruct Ha as [Hs1 Hp1]. intros ln ->.
  eapply wp_mono; [apply (from_listener_acquires ok ln); [by destruct ln | done | exact Hp1] |]. simpl. intros y s2 [Hs2 Hp2] t ->. simpl in Hp1, Hp2.
  split; apply wp_bind.
  - eapply wp_mono; [by eapply (wp_close transport_tokens _ t _ _ (transport_close_all t)) |]. intros [] s3 [Hs3 Hp3].
    eapply wp_mono; [by eapply (wp_close listener_tokens _ ln _ _ (listener_close_all ln)) |]. by intros ? ? [_ ?].
  - eapply wp_mono; [eapply (wp_close listener_tokens _ ln _ (transport_tokens t ++ os_held s) (listener_close_all ln)); [done |] |].
    { rewrite Hp2. solve_Permutation. }
    intros [] s3 [Hs3 Hp3].
    eapply wp_mono; [by eapply (wp_close transport_tokens _ t _ _ (transport_close_all t)) |]. by intros ? ? [_ ?].
Qed.

(** The URL that the public API builds from a host and a port leads to that
    address: a client transport sends to it from its own socket on the IPv4
    wildcard, whatever the family of the address, and a listener is bound to it;
    only port 0 becomes 8443.  When the system grants every call, both succeed. *)
Theorem api_url_endpoints host port a wild s : host_ok host -> 0 <= port < 65536 ->
  nxp_addr_from_string host (port_or 8443 port) = inr a -> nxp_addr_from_string (ascii "0.0.0.0") 0 = inr wild ->
  let url := Some (api_url host port) in
  ensures (fun r => match r with
    | inr t => exists m st sock, t = TUdp m st sock true (Some a) /\ so_local sock = addr_to_sockaddr wild
    | inl _ => True end) (nxp_transport_connect g url) /\
  ensures (fun r => match r with
    | inr ln => exists m st sock h, ln = LUdp m st sock h (port_or 8443 port) /\ so_local sock = addr_to_sockaddr a
    | inl _ => True end) (nxp_transport_listen g url) /\
  ((forall c, ok c = true) -> exists t ln s1 s2,
    nxp_transport_connect g url s = Done (inr t, s1) /\ nxp_transport_listen g url s = Done (inr ln, s2)).
Proof.
  intros Hh Hp Ha Hw url. destruct (url_roundtrip host port [] Hh Hp) as (Hty & Hc & Hl & _).
  assert (forall s, nxp_transport_connect g url s = udp_connect_impl ok (api_url host port) s) as Ec.
  { intros s'. unfold nxp_transport_connect, url, mbind, io_bind, lift. cbn [g_initialized g nxp_transport_init negb]. by rewrite Hty. }
  assert (forall s, nxp_transport_listen g url s = udp_listen_impl ok (api_url host port) s) as El.
  { intros s'. unfold nxp_transport_listen, url, mbind, io_bind, lift. cbn [g_initialized g nxp_transport_init negb]. by rewrite Hty. }
  split; [| split].
  - intros s'. rewrite Ec. by apply (udp_connect_endpoint ok _ host (port_or 8443 port)).
  - intros s'. rewrite El. by apply (udp_listen_endpoint ok _ host (port_or 8443 port)).
  - intros Hok. setoid_rewrite Ec. setoid_rewrite El.
    destruct (udp_connect_succeeds ok (api_url host port) host (port_or 8443 port) a wild s) as (t & s1 & ->); [done.. |].
    destruct (udp_listen_succeeds ok (api_url host port) host (port_or 8443 port) a s) as (ln & s2 & ->); [done.. |]. by exists t, ln, s1, s2.
Qed.

End Promises.

(** ** A process that holds one descriptor and is granted everything *)

Definition os_start : os := Os 1 [0].
Lemma os_start_ok : os_ok os_start.
Proof. split; repeat constructor; by_compute || apply not_elem_of_nil. Qed.

Definition all_granted (c : call) : bool := true.
Definition hs_fits (path host : list Z) : Z := 100.
Definition sample_url (scheme : string) : list Z := ascii scheme ++ ascii "127.0.0.1:443" ++ [0].

Definition sample_registry : registry := nxp_transport_init (H := sample_pton) all_granted hs_fits registry_zero.

Lemma transport_connect_no_leak_witness :
  match nxp_transport_connect sample_registry (Some (sample_url "ws://")) os_start with
  | Done (inr t, s') => length (os_held s') = 6%nat /\ owns_exactly transport_tokens transport_close (os_held os_start) (inr t) s'
  | _ => False
  end.
Proof.
  pose proof (proj1 (@transport_connect_no_leak sample_pton all_granted hs_fits (sample_url "ws://") NXP_TRANSPORT_WS os_start
    ltac:(by vm_compute) ltac:(by eexists; vm_compute) os_start_ok)) as Hw.
  assert (match nxp_transport_connect sample_registry (Some (sample_url "ws://")) os_start with
          | Done (inr t, s') => length (os_held s') = 6%nat | _ => False end) as Hc by by vm_compute.
  unfold wp in Hw. fold sample_registry in Hw.
  destruct (nxp_transport_connect sample_registry _ os_start) as [[[e | t] s'] | |]; [done | by split | done | done].
Defined.

Lemma transport_listen_no_leak_witness :
  match nxp_transport_listen sample_registry (Some (sample_url "ntc://")) os_start with
  | Done (inr ln, s') => length (os_held s') = 5%nat /\ owns_exactly listener_tokens listener_close (os_held os_start) (inr ln) s'
  | _ => False
  end.
Proof.
  pose proof (@transport_listen_no_leak sample_pton all_granted hs_fits (sample_url "ntc://") NXP_TRANSPORT_TCP os_start
    ltac:(by vm_compute) ltac:(by eexists; vm_compute) os_start_ok) as Hw.
  assert (match nxp_transport_listen sample_registry (Some (sample_url "ntc://")) os_start with
          | Done (inr ln, s') => length (os_held s') = 5%nat | _ => False end) as Hc by by vm_compute.
  unfold wp in Hw. fold sample_registry in Hw.
  destruct (nxp_transport_listen sample_registry _ os_start) as [[[e | ln] s'] | |]; [done | by split | done | done].
Defined.

Lemma udp_shared_socket_witness : exists ln s1 t s2,
  udp_listen_impl (H := sample_pton) all_granted (sample_url "nxp://") os_start = Done (inr ln, s1) /\
  nxp_udp_transport_from_listener all_granted ln s1 = Done (Some t, s2) /\
  wp (_ ← listener_close ln; transport_close t) (fun _ s3 => os_held s3 ≡ₚ [0]) s2.
Proof.
  pose proof (@udp_shared_socket sample_pton all_granted (sample_url "nxp://") _ os_start eq_refl os_start_ok) as Hw.
  eexists _, _, _, _. split; [reflexivity |]. split; [reflexivity |]. exact (proj2 (Hw _ eq_refl _ eq_refl)).
Defined.

Lemma api_url_endpoints_witness : exists t s1, nxp_transport_connect sample_registry (Some (api_url (ascii "127.0.0.1") 4433)) os_start = Done (inr t, s1).
Proof.
  edestruct (@api_url_endpoints sample_pton all_granted hs_fits (ascii "127.0.0.1") 4433) with (s := os_start) as (_ & _ & Hok).
  - split; [str_lit | split; by_compute].
  - lia.
  - reflexivity.
  - reflexivity.
  - destruct Hok as (t & ln & s1 & s2 & Hc & _); [done |]. by exists t, s1.
Defined.
