(* ===== verification/EventLoop.v ===== *)
(** * Event loop (src/src/platform/event_loop.c)

    Timers and the run loop, which all backends share.  Timers are allocated on a
    heap and ordered by a priority queue, used through an interface that the binary
    heap of [PriorityQueue] implements.  Callbacks are code of the application, a
    function on the loop.  [fire_timers] is not bounded in the code, so it takes
    fuel, and [Err tt] means that it is still running when the fuel is used up. *)

From stdpp Require Import gmap sorting.
From S2P Require Import Prelude Types PriorityQueue.

(** ** Interface of the timer queue *)

(** A queue of deadlines and addresses represents a bag of them; [E] is what the
    system provides for a push. *)
Class TimerQueue (Q E : Type) := {
  tq_push : E -> Q -> Z -> Z -> outcome unit (option Q);
  tq_peek : Q -> outcome unit (option (Z * Z));
  tq_pop : Q -> outcome unit (option (Z * Z) * Q);
  tq_is_empty : Q -> bool;
  tq_bag : Q -> list (Z * Z) -> Prop;
  tq_room : E -> Q -> Prop;
  tq_push_spec e q bag d t : tq_bag q bag -> tq_room e q ->
    tq_push e q d t = Done None \/ exists q', tq_push e q d t = Done (Some q') /\ tq_bag q' ((d, t) :: bag);
  tq_pop_spec q bag : tq_bag q bag ->
    exists r q', tq_pop q = Done (r, q') /\ tq_peek q = Done r /\
      match r with
      | None => bag = []
      | Some (d, t) => (forall d' t', (d', t') ∈ bag -> d <= d') /\ exists bag', bag ≡ₚ (d, t) :: bag' /\ tq_bag q' bag'
      end;
  tq_empty_spec q bag : tq_bag q bag -> tq_is_empty q = bool_decide (bag = [])
}.

(** ** State *)

(** A callback and its user data are names of code and data of the application. *)
Record nxp_timer := Timer {
  tm_deadline_us : Z;
  tm_cb : Z;
  tm_user_data : Z;
  tm_cancelled : bool
}.
#[export] Instance eta_timer : Eta nxp_timer := fun t =>
  Timer (tm_deadline_us t) (tm_cb t) (tm_user_data t) (tm_cancelled t).

(** The base of a loop, the allocated timers, and the state of the backend. *)
Record nxp_event_loop (Q B : Type) := Loop {
  el_timers : Q;
  el_running : bool;
  el_heap : gmap Z nxp_timer;
  el_backend : B
}.
Arguments Loop {Q B}.
Arguments el_timers {Q B}.
Arguments el_running {Q B}.
Arguments el_heap {Q B}.
Arguments el_backend {Q B}.
#[export] Instance eta_loop Q B : Eta (nxp_event_loop Q B) := fun l =>
  Loop (el_timers l) (el_running l) (el_heap l) (el_backend l).

Section EventLoop.
Context {Q E B : Type} `{TimerQueue Q E}.
Notation loop := (nxp_event_loop Q B).

(** ** Timers *)

(** [mem] is what [malloc] returns. *)
Definition nxp_event_loop_add_timer (mem : option Z) (env : E) (l : loop) (deadline_us cb user_data : Z)
  : outcome unit (option Z * loop) :=
  match mem with
  | None => Done (None, l)
  | Some t =>
      let! q := tq_push env (el_timers l) deadline_us t in
      match q with
      | None => Done (None, l)
      | Some q => Done (Some t, l <| el_heap := <[t := Timer deadline_us cb user_data false]> (el_heap l) |> <| el_timers := q |>)
      end
  end.

Definition nxp_event_loop_cancel_timer (l : loop) (timer : option Z) : outcome unit loop :=
  match timer with
  | None => Done l
  | Some t =>
      match el_heap l !! t with
      | None => Ub
      | Some tm => Done (l <| el_heap := <[t := tm <| tm_cancelled := true |>]> (el_heap l) |>)
      end
  end.

Definition nxp_event_loop_stop (l : loop) : loop := l <| el_running := false |>.

(** The application: what a timer callback does; [Err tt] when it does not return. *)
Variable on_timer : Z -> Z -> loop -> outcome unit loop.

Definition free_timer (l : loop) (t : Z) : outcome unit loop :=
  match el_heap l !! t with
  | None => Ub
  | Some _ => Done (l <| el_heap := delete t (el_heap l) |>)
  end.

(** A timer that was taken from the queue. *)
Definition fire_timer (l : loop) (t : Z) (tm : nxp_timer) : outcome unit loop :=
  let! l := if tm_cancelled tm then Done l else on_timer (tm_cb tm) (tm_user_data tm) l in
  free_timer l t.

(** The timers taken from the queue, as they were then: one that is not cancelled
    has been called. *)
Fixpoint fire_loop (fuel : nat) (now : Z) (l : loop) : outcome unit (list (Z * nxp_timer) * loop) :=
  match fuel with
  | O => Err tt
  | S fuel =>
      if tq_is_empty (el_timers l) then Done ([], l) else
      let! head := tq_peek (el_timers l) in
      match head with
      | None => Done ([], l)
      | Some (deadline, _) =>
          if deadline >? now then Done ([], l) else
          let! (head, q) := tq_pop (el_timers l) in
          match head with
          | None => Ub
          | Some (_, t) =>
              let l := l <| el_timers := q |> in
              match el_heap l !! t with
              | None => Ub
              | Some tm =>
                  let! l := fire_timer l t tm in
                  let! (tr, l) := fire_loop fuel now l in
                  Done ((t, tm) :: tr, l)
              end
          end
      end
  end.

(** [while (nxp_pq_pop(...)) free(val);] *)
Fixpoint nxp_event_loop_cleanup_base (fuel : nat) (l : loop) : outcome unit loop :=
  match fuel with
  | O => Err tt
  | S fuel =>
      let! (head, q) := tq_pop (el_timers l) in
      match head with
      | None => Done (l <| el_timers := q |>)
      | Some (_, t) => let! l := free_timer (l <| el_timers := q |>) t in nxp_event_loop_cleanup_base fuel l
      end
  end.

(** Drain cancelled timers at the head of the queue. *)
Fixpoint drain_cancelled (fuel : nat) (l : loop) : outcome unit loop :=
  match fuel with
  | O => Err tt
  | S fuel =>
      if tq_is_empty (el_timers l) then Done l else
      let! head := tq_peek (el_timers l) in
      match head with
      | None => Done l
      | Some (_, t) =>
          match el_heap l !! t with
          | None => Ub
          | Some tm =>
              if negb (tm_cancelled tm) then Done l else
              let! (_, q) := tq_pop (el_timers l) in
              let! l := free_timer (l <| el_timers := q |>) t in
              drain_cancelled fuel l
          end
      end
  end.

Definition next_timer_timeout_ms (fuel : nat) (now : Z) (l : loop) : outcome unit (Z * loop) :=
  let! l := drain_cancelled fuel l in
  if tq_is_empty (el_timers l) then Done (-1, l) else
  let! head := tq_peek (el_timers l) in
  match head with
  | None => Ub
  | Some (deadline, _) =>
      if deadline <=? now then Done (0, l) else
      let diff_us := u64 (deadline - now) in
      Done (u64 (diff_us + 999) / 1000, l)
  end.

Definition effective_timeout (timeout_ms timer_timeout : Z) : Z :=
  if (timeout_ms <? 0) && (timer_timeout <? 0) then -1
  else if timeout_ms <? 0 then timer_timeout
  else if timer_timeout <? 0 then timeout_ms
  else if timeout_ms <? timer_timeout then timeout_ms else timer_timeout.

(** ** Run loop: [poll] is the backend, [now] and [now'] what the clock shows before
    and after it *)

Variable poll : Z -> loop -> outcome unit (option nxp_error_code * loop).

Definition nxp_event_loop_run_once (fuel : nat) (now now' timeout_ms : Z) (l : loop)
  : outcome unit (option nxp_error_code * list (Z * nxp_timer) * loop) :=
  let! (timer_timeout, l) := next_timer_timeout_ms fuel now l in
  let! (r, l) := poll (effective_timeout timeout_ms timer_timeout) l in
  let! (tr, l) := fire_loop fuel now' l in
  Done (r, tr, l).

(** [clock] gives the two times of every iteration. *)
Fixpoint run_loop (fuel : nat) (clock : nat -> Z * Z) (i : nat) (l : loop) : outcome unit (option nxp_error_code * loop) :=
  match fuel with
  | O => Err tt
  | S fuel' =>
      if negb (el_running l) then Done (None, l) else
      let! (r, _, l) := nxp_event_loop_run_once fuel (clock i).1 (clock i).2 (-1) l in
      match r with
      | Some e => Done (Some e, l)
      | None => run_loop fuel' clock (S i) l
      end
  end.

Definition nxp_event_loop_run (fuel : nat) (clock : nat -> Z * Z) (l : loop) : outcome unit (option nxp_error_code * loop) :=
  run_loop fuel clock 0 (l <| el_running := true |>).

(** ** Invariant *)

(** The queue holds the timers of [bag], which are allocated with their deadlines;
    [held] are the timers that were taken out and are about to be freed; nothing
    else is allocated. *)
Record loop_rep (l : loop) (bag : list (Z * Z)) (held : list Z) : Prop := LoopRep {
  lr_bag : tq_bag (el_timers l) bag;
  lr_nodup : NoDup (bag.*2 ++ held);
  lr_heap : forall d t, (d, t) ∈ bag -> exists tm, el_heap l !! t = Some tm /\ tm_deadline_us tm = d;
  lr_held : forall t, t ∈ held -> is_Some (el_heap l !! t);
  lr_all : forall t, is_Some (el_heap l !! t) -> t ∈ bag.*2 ++ held
}.

(** A timer that is only ever cancelled. *)
Definition same_timer (tm tm' : nxp_timer) : Prop :=
  tm' = tm \/ tm' = tm <| tm_cancelled := true |>.

Definition kept (l l' : loop) : Prop :=
  forall t tm, el_heap l !! t = Some tm -> exists tm', el_heap l' !! t = Some tm' /\ same_timer tm tm'.

Lemma same_trans a b c : same_timer a b -> same_timer b c -> same_timer a c.
Proof. unfold same_timer. intros [-> | ->] [-> | ->]; destruct a; cbn; auto. Qed.
Lemma same_deadline a b : same_timer a b -> tm_deadline_us b = tm_deadline_us a.
Proof. by intros [-> | ->]. Qed.
Lemma kept_refl l : kept l l.
Proof. intros t tm Ht. exists tm. split; [done | by left]. Qed.
Lemma kept_trans l l' l'' : kept l l' -> kept l' l'' -> kept l l''.
Proof.
  intros H1 H2 t tm Ht. destruct (H1 t tm Ht) as (tm' & Ht' & Hs). destruct (H2 t tm' Ht') as (tm'' & Ht'' & Hs').
  exists tm''. split; [done | by eapply same_trans].
Qed.

Lemma add_timer_rep l bag held t env d cb ud : loop_rep l bag held -> tq_room env (el_timers l) -> el_heap l !! t = None ->
  exists r l', nxp_event_loop_add_timer (Some t) env l d cb ud = Done (r, l') /\
    ((r = None /\ l' = l) \/ (r = Some t /\ loop_rep l' ((d, t) :: bag) held /\ kept l l' /\
      forall t', t' <> t -> el_heap l' !! t' = el_heap l !! t')).
Proof.
  intros [Hb Hn Hh He Ha] Hr Ht. unfold nxp_event_loop_add_timer.
  destruct (tq_push_spec env (el_timers l) bag d t Hb Hr) as [-> | (q' & -> & Hq)]; cbn [obind]; [eexists _, _; split; [done | by left] |].
  assert (forall x, is_Some (el_heap l !! x) -> x <> t) as Hne by (intros x [? Hx] ->; congruence).
  assert (t ∉ bag.*2 ++ held) as Hfresh.
  { rewrite elem_of_app, list_elem_of_fmap. intros [([d' t'] & Hx & Hin) | Hin]; [| by destruct (He _ Hin); congruence].
    cbn in Hx. subst t'. destruct (Hh _ _ Hin) as (? & ? & _). congruence. }
  eexists _, _. split; [done |]. right. split; [done |]. split; [| split].
  - split; cbn.
    + done.
    + by apply list.NoDup_cons.
    + intros d' t' [[= -> ->] | Hin]%elem_of_cons; [rewrite lookup_insert_eq; eauto |].
      destruct (Hh _ _ Hin) as (tm & Htm & <-). rewrite lookup_insert_ne; [eauto |]. apply not_eq_sym, Hne. eauto.
    + intros x Hx. rewrite lookup_insert_ne; [by apply He | apply not_eq_sym, Hne, He, Hx].
    + intros x Hx. destruct (decide (x = t)) as [-> | Hxt]; [left |]. rewrite lookup_insert_ne in Hx by done. right. by apply Ha.
  - intros x tm Hx. exists tm. split; [| by left]. cbn. rewrite lookup_insert_ne; [done |]. apply not_eq_sym, Hne. eauto.
  - intros x Hx. cbn. by rewrite lookup_insert_ne.
Qed.

Lemma cancel_rep l bag held t : loop_rep l bag held -> is_Some (el_heap l !! t) ->
  exists l', nxp_event_loop_cancel_timer l (Some t) = Done l' /\ loop_rep l' bag held /\ kept l l' /\
    forall t', t' <> t -> el_heap l' !! t' = el_heap l !! t'.
Proof.
  intros [Hb Hn Hh He Ha] [tm Ht]. unfold nxp_event_loop_cancel_timer. rewrite Ht. eexists. split; [done |].
  assert (forall x, is_Some (<[t := tm <| tm_cancelled := true |>]> (el_heap l) !! x) <-> is_Some (el_heap l !! x)) as Hdom.
  { intros x. destruct (decide (x = t)) as [-> | Hx]; [by rewrite lookup_insert_eq, Ht; split |]. by rewrite lookup_insert_ne. }
  split; [| split].
  - split; cbn; [done | done | | intros x Hx; by apply Hdom, He | intros x Hx; by apply Ha, Hdom].
    intros d x Hin. destruct (Hh _ _ Hin) as (tm' & Htm & <-). destruct (decide (x = t)) as [-> | Hx].
    + rewrite lookup_insert_eq. rewrite Ht in Htm. injection Htm as ->. by eexists.
    + rewrite lookup_insert_ne by done. eauto.
  - intros x tm' Hx. cbn. destruct (decide (x = t)) as [-> | Hne].
    + rewrite Ht in Hx. injection Hx as ->. rewrite lookup_insert_eq. eexists. split; [done | by right].
    + rewrite lookup_insert_ne by done. exists tm'. split; [done | by left].
  - intros x Hx. cbn. by rewrite lookup_insert_ne.
Qed.

(** What a callback leaves alone. *)
Definition spared (t : Z) (l l' : loop) : Prop := forall tm, el_heap l !! t = Some tm -> el_heap l' !! t = Some tm.

Lemma loop_rep_nodup bag bag' (d t : Z) (held : list Z) : bag ≡ₚ (d, t) :: bag' -> NoDup (bag.*2 ++ held) -> NoDup (bag'.*2 ++ t :: held).
Proof.
  intros Hp Hn. rewrite Hp in Hn. cbn in Hn. by rewrite <- Permutation_middle.
Qed.

Lemma pop_rep l bag held d t bag' q : loop_rep l bag held -> bag ≡ₚ (d, t) :: bag' -> tq_bag q bag' ->
  loop_rep (l <| el_timers := q |>) bag' (t :: held).
Proof.
  intros [Hb Hn Hh He Ha] Hp Hq. pose proof (loop_rep_nodup _ _ _ _ _ Hp Hn) as Hn'. split; cbn.
  - done.
  - done.
  - intros d' t' Hin. apply Hh. rewrite Hp. by right.
  - intros x [-> | Hx]%elem_of_cons; [| by apply He]. destruct (Hh d t) as (tm & -> & _); [rewrite Hp; by left | done].
  - intros x Hx. apply Ha in Hx. rewrite Hp in Hx. cbn in Hx. rewrite <- Permutation_middle. done.
Qed.

Lemma free_rep l bag held t : loop_rep l bag (t :: held) ->
  exists l', free_timer l t = Done l' /\ loop_rep l' bag held /\ forall x, x <> t -> el_heap l' !! x = el_heap l !! x.
Proof.
  intros [Hb Hn Hh He Ha]. unfold free_timer. destruct (He t) as [tm Htm]; [by left |]. rewrite Htm. eexists. split; [done |].
  rewrite <- Permutation_middle in Hn. apply list.NoDup_cons in Hn as [Ht Hn].
  assert (forall x, x ∈ bag.*2 ++ held -> x <> t) as Hne by (intros x Hx ->; done).
  split; [| intros x Hx; cbn; by rewrite lookup_delete_ne]. split; cbn.
  - done.
  - done.
  - intros d x Hin. rewrite lookup_delete_ne; [by apply Hh |]. apply not_eq_sym, Hne, elem_of_app. left.
    apply list_elem_of_fmap. by exists (d, x).
  - intros x Hx. rewrite lookup_delete_ne; [apply He; by right |]. apply not_eq_sym, Hne, elem_of_app. by right.
  - intros x Hx. destruct (decide (x = t)) as [-> | Hxt]; [rewrite lookup_delete_eq in Hx; by destruct Hx |].
    rewrite lookup_delete_ne in Hx by done. apply Ha in Hx. rewrite <- Permutation_middle in Hx. apply elem_of_cons in Hx as [? | ?]; [done | done].
Qed.

Lemma bag_size l bag held : loop_rep l bag held -> (length bag <= size (el_heap l))%nat.
Proof.
  intros [_ Hn Hh _ _]. apply list.NoDup_app in Hn as [Hn _]. rewrite <- (length_fmap snd bag), <- size_dom, <- (size_list_to_set (C := gset Z) (bag.*2)) by done. apply subseteq_size.
  intros x Hx. apply elem_of_list_to_set, list_elem_of_fmap in Hx as ([d y] & -> & Hx). destruct (Hh d y Hx) as (tm & Htm & _). apply elem_of_dom. by exists tm.
Qed.

(** Destroying the loop frees every timer, pending or cancelled. *)
Lemma cleanup_frees : forall fuel l bag, loop_rep l bag [] -> (length bag < fuel)%nat ->
  exists l', nxp_event_loop_cleanup_base fuel l = Done l' /\ el_heap l' = ∅.
Proof.
  induction fuel as [| fuel IH]; intros l bag Hl Hf; [lia |]. cbn [nxp_event_loop_cleanup_base].
  destruct (tq_pop_spec _ bag (lr_bag _ _ _ Hl)) as (r & q & -> & _ & Hr). cbn [obind]. destruct r as [[d t] |].
  - destruct Hr as [_ (bag' & Hp & Hq)]. destruct (free_rep _ bag' [] t (pop_rep l bag [] d t bag' q Hl Hp Hq)) as (l1 & -> & Hl1 & _). cbn [obind].
    apply (IH l1 bag' Hl1). rewrite Hp in Hf. cbn in Hf. lia.
  - subst bag. eexists. split; [done |]. apply map_empty. intros t. apply eq_None_not_Some. intros Ht. by apply (lr_all _ _ _ Hl), not_elem_of_nil in Ht.
Qed.

(** ** Callbacks *)

(** An invariant of the application. *)
Variable I : loop -> Prop.

(** [t] is next in the queue of [l], and [q] is the queue without it. *)
Record at_head (l : loop) (bag : list (Z * Z)) (t : Z) (tm : nxp_timer) (bag' : list (Z * Z)) (q : Q) : Prop := AtHead {
  ah_rep : loop_rep l bag [];
  ah_inv : I l;
  ah_timer : el_heap l !! t = Some tm;
  ah_bag : bag ≡ₚ (tm_deadline_us tm, t) :: bag';
  ah_queue : tq_bag q bag'
}.

(** Dropping a cancelled timer keeps the invariant. *)
Definition drop_ok : Prop := forall l bag t tm bag' q l', at_head l bag t tm bag' q -> tm_cancelled tm = true ->
  free_timer (l <| el_timers := q |>) t = Done l' -> I l'.

(** Callbacks that are called with their timer taken from the queue keep to the
    interface of the loop and restore the invariant, when they return; [strict] ones
    arm timers only for later. *)
Record app_ok (strict : bool) (now : Z) : Prop := AppOk {
  ao_drop : drop_ok;
  ao_call l bag t tm bag' q : at_head l bag t tm bag' q -> tm_cancelled tm = false -> tm_deadline_us tm <= now ->
    match on_timer (tm_cb tm) (tm_user_data tm) (l <| el_timers := q |>) with
    | Done l1 => exists new, loop_rep l1 (new ++ bag') [t] /\ kept (l <| el_timers := q |>) l1 /\
        (strict = true -> Forall (fun '(d, _) => now < d) new) /\ forall l', free_timer l1 t = Done l' -> I l'
    | Err _ => True
    | Ub => False
    end
}.

Definition app_returns (now : Z) : Prop := forall l bag t tm bag' q, at_head l bag t tm bag' q -> tm_cancelled tm = false -> tm_deadline_us tm <= now ->
  exists l1, on_timer (tm_cb tm) (tm_user_data tm) (l <| el_timers := q |>) = Done l1.

(** No callback cancels [t]. *)
Definition app_spares (t : Z) : Prop := forall cb ud l l', on_timer cb ud l = Done l' -> spared t l l'.

Definition due (now : Z) (bag : list (Z * Z)) : list (Z * Z) := filter (fun e => e.1 <= now) bag.
Definition entry (e : Z * nxp_timer) : Z * Z := (tm_deadline_us e.2, e.1).

Lemma fire_timer_spec strict now l bag t tm bag' q : app_ok strict now -> at_head l bag t tm bag' q -> tm_deadline_us tm <= now ->
  match fire_timer (l <| el_timers := q |>) t tm with
  | Done l' => exists new, loop_rep l' (new ++ bag') [] /\ I l' /\ (strict = true -> Forall (fun '(d, _) => now < d) new) /\
      forall x tm, x ∈ bag'.*2 -> el_heap l !! x = Some tm ->
        exists tm', el_heap l' !! x = Some tm' /\ same_timer tm tm' /\ (app_spares x -> tm' = tm)
  | Err _ => True
  | Ub => False
  end.
Proof.
  intros Happ Hh Hdue. pose proof Hh as [Hl HI Htm Hp Hq]. pose proof (pop_rep l bag [] _ t bag' q Hl Hp Hq) as Hl1. unfold fire_timer.
  pose proof (loop_rep_nodup _ _ _ _ _ Hp (lr_nodup _ _ _ Hl)) as Hn. rewrite <- Permutation_middle in Hn. apply list.NoDup_cons in Hn as [Hn _].
  set (l1 := l <| el_timers := q |>) in *.
  assert (forall l2 new, loop_rep l2 (new ++ bag') [t] -> kept l1 l2 -> (forall x, app_spares x -> spared x l1 l2) ->
    (forall l', free_timer l2 t = Done l' -> I l') -> (strict = true -> Forall (fun '(d, _) => now < d) new) ->
    match free_timer l2 t with
    | Done l' => exists new, loop_rep l' (new ++ bag') [] /\ I l' /\ (strict = true -> Forall (fun '(d, _) => now < d) new) /\
        forall x tm, x ∈ bag'.*2 -> el_heap l !! x = Some tm ->
          exists tm', el_heap l' !! x = Some tm' /\ same_timer tm tm' /\ (app_spares x -> tm' = tm)
    | Err _ => True
    | Ub => False
    end) as Hgo.
  { intros l2 new Hl2 Hk Hs HI2 Hnew. destruct (free_rep l2 (new ++ bag') [] t Hl2) as (l' & E3 & Hl' & Hsame). rewrite E3.
    exists new. split; [done |]. split; [by apply HI2 |]. split; [done |]. intros x tm0 Hx Hx0.
    assert (x <> t) as Hxt by (intros ->; apply Hn, elem_of_app; by left). rewrite Hsame by done.
    destruct (Hk x tm0 Hx0) as (tm' & Htm' & Hst). exists tm'. split; [done |]. split; [done |]. intros Hsp.
    specialize (Hs x Hsp tm0 Hx0). congruence. }
  destruct (tm_cancelled tm) eqn:Hc; cbn [obind].
  - apply (Hgo l1 []); [done | apply kept_refl | by intros ? _ ? | | intros _; by apply Forall_nil]. intros l' Ef. by apply (ao_drop _ _ Happ l bag t tm bag' q).
  - pose proof (ao_call _ _ Happ l bag t tm bag' q Hh Hc Hdue) as Hcall. destruct (on_timer _ _ _) as [l2 | |] eqn:E2; cbn [obind]; [| done | done].
    destruct Hcall as (new & Hl2 & Hk & Hnew & HI2). apply (Hgo l2 new); try done. intros x Hx. by apply (Hx _ _ _ _ E2).
Qed.

(** [tr] are the timers due in [bag], in the order of their deadlines, as they were
    in [l] except that callbacks may have cancelled some. *)
Record fired (now : Z) (l : loop) (bag : list (Z * Z)) (tr : list (Z * nxp_timer)) : Prop := Fired {
  fd_due : entry <$> tr ≡ₚ due now bag;
  fd_sorted : StronglySorted Z.le (entry <$> tr).*1;
  fd_timer t tm : (t, tm) ∈ tr ->
    exists tm0, el_heap l !! t = Some tm0 /\ same_timer tm0 tm /\ (app_spares t -> tm = tm0)
}.

Lemma due_later now new bag : Forall (fun '(d, _) => now < d) new -> due now (new ++ bag) = due now bag.
Proof.
  intros Hn. unfold due. rewrite list.filter_app. induction Hn as [| [d t] new Hd Hn IH]; [done |].
  rewrite filter_cons. case_decide as Hc; [cbn in Hc; lia |]. done.
Qed.

Lemma fired_cons now l l' bag bag' d t tm new tr : bag ≡ₚ (d, t) :: bag' -> (forall d' t', (d', t') ∈ bag -> d <= d') -> d <= now ->
  el_heap l !! t = Some tm -> tm_deadline_us tm = d -> Forall (fun '(d, _) => now < d) new ->
  (forall x, x ∈ bag'.*2 -> is_Some (el_heap l !! x)) ->
  (forall x tm, x ∈ bag'.*2 -> el_heap l !! x = Some tm ->
     exists tm', el_heap l' !! x = Some tm' /\ same_timer tm tm' /\ (app_spares x -> tm' = tm)) ->
  fired now l' (new ++ bag') tr -> fired now l bag ((t, tm) :: tr).
Proof.
  intros Hp Hmin Hdue Htm Hd Hnew Hsome Hkeep [Hf Hs Ht]. rewrite due_later in Hf by done.
  assert (forall e, e ∈ entry <$> tr -> e ∈ bag') as Hin.
  { intros e He. rewrite Hf in He. unfold due in He. by apply list_elem_of_filter in He as [_ ?]. }
  split.
  - unfold due. rewrite Hp, filter_cons. cbn [fst]. rewrite decide_True by done. cbn [fmap list_fmap]. by rewrite <- Hf, <- Hd.
  - cbn [fmap list_fmap]. constructor; [done |]. apply list.Forall_forall. intros d' Hd'. apply list_elem_of_fmap in Hd' as ([d1 t1] & -> & He).
    cbn. rewrite Hd. apply (Hmin d1 t1). rewrite Hp. right. by apply Hin.
  - intros x tmx [[= -> ->] | Hx]%elem_of_cons; [exists tm; split; [done |]; split; [by left | done] |].
    destruct (Ht x tmx Hx) as (tm1 & H1 & Hs1 & Hsp1).
    assert (x ∈ bag'.*2) as Hxb.
    { apply list_elem_of_fmap. exists (entry (x, tmx)). split; [done |]. apply Hin, list_elem_of_fmap. by exists (x, tmx). }
    destruct (Hsome x Hxb) as [tm0 H0]. destruct (Hkeep x tm0 Hxb H0) as (tm1' & H1' & Hs0 & Hsp0).
    rewrite H1 in H1'. injection H1' as <-. exists tm0. split; [done |]. split; [by eapply same_trans |].
    intros Hsp. rewrite Hsp1 by done. by apply Hsp0.
Qed.

Lemma none_due now rest : due now rest = [] -> Forall (fun '(d, _) => now < d) rest.
Proof.
  intros Hd. apply list.Forall_forall. intros [d t] Hin. destruct (Z.le_gt_cases d now) as [Hle |]; [| done].
  assert ((d, t) ∈ due now rest) as Hin' by by apply list_elem_of_filter. rewrite Hd in Hin'. by apply not_elem_of_nil in Hin'.
Qed.
Lemma head_not_due now bag d : (forall d' t', (d', t') ∈ bag -> d <= d') -> now < d -> due now bag = [].
Proof.
  intros Hmin Hlt. destruct (due now bag) as [| [d' t'] ?] eqn:Hd; [done |].
  assert ((d', t') ∈ due now bag) as Hin by (rewrite Hd; by left). apply list_elem_of_filter in Hin as [Hle Hin].
  specialize (Hmin _ _ Hin). cbn in Hle. lia.
Qed.
Lemma fired_none now l rest : due now rest = [] -> fired now l rest [].
Proof. intros Hd. split; cbn; [by rewrite Hd | constructor | intros t tm Hin; by apply not_elem_of_nil in Hin]. Qed.
Lemma due_head now d t bag bag' : bag ≡ₚ (d, t) :: bag' -> d <= now -> length (due now bag) = S (length (due now bag')).
Proof. intros Hp Hd. unfold due. rewrite Hp, filter_cons, decide_True by done. done. Qed.

(** The head of a queue that is not empty. *)
Lemma at_head_of l bag : loop_rep l bag [] -> I l -> tq_is_empty (el_timers l) = false ->
  exists t tm bag' q, tq_pop (el_timers l) = Done (Some (tm_deadline_us tm, t), q) /\ tq_peek (el_timers l) = Done (Some (tm_deadline_us tm, t)) /\
    (forall d' t', (d', t') ∈ bag -> tm_deadline_us tm <= d') /\ at_head l bag t tm bag' q.
Proof.
  intros Hl HI He. rewrite (tq_empty_spec _ bag (lr_bag _ _ _ Hl)) in He. apply bool_decide_eq_false in He.
  destruct (tq_pop_spec _ bag (lr_bag _ _ _ Hl)) as (r & q & Hpop & Hpeek & Hr). destruct r as [[d t] |]; [| done].
  destruct Hr as [Hmin (bag' & Hp & Hq)]. destruct (lr_heap _ _ _ Hl d t) as (tm & Htm & <-); [rewrite Hp; by left |].
  exists t, tm, bag', q. split; [done |]. split; [done |]. split; [done |]. by split.
Qed.

(** Firing is safe, and exact when callbacks are [strict]. *)
Lemma fire_spec strict now : app_ok strict now -> forall fuel l bag, loop_rep l bag [] -> I l ->
  match fire_loop fuel now l with
  | Done (tr, l') => exists rest, loop_rep l' rest [] /\ I l' /\ Forall (fun '(d, _) => now < d) rest /\
      (strict = true -> fired now l bag tr /\ forall e, e ∈ bag -> now < e.1 -> e ∈ rest)
  | Err _ => True
  | Ub => False
  end.
Proof.
  intros Happ. induction fuel as [| fuel IH]; intros l bag Hl HI; cbn [fire_loop]; [done |].
  destruct (tq_is_empty (el_timers l)) eqn:He.
  { rewrite (tq_empty_spec _ bag (lr_bag _ _ _ Hl)) in He. apply bool_decide_eq_true in He as ->. exists []. split; [done |]. split; [done |].
    split; [by apply Forall_nil |]. intros _. split; [by apply fired_none | done]. }
  destruct (at_head_of l bag Hl HI He) as (t & tm & bag' & q & -> & -> & Hmin & Hh). pose proof Hh as [_ _ Htm Hp Hq]. cbn [obind].
  rewrite Z.gtb_ltb. destruct (Z.ltb_spec now (tm_deadline_us tm)) as [Hlt | Hge].
  { pose proof (head_not_due now bag _ Hmin Hlt) as Hd. exists bag. split; [done |]. split; [done |]. split; [by apply none_due |].
    intros _. split; [by apply fired_none | done]. }
  change (el_heap (l <| el_timers := q |>)) with (el_heap l). rewrite Htm.
  pose proof (fire_timer_spec strict now l bag t tm bag' q Happ Hh Hge) as Hone. destruct (fire_timer _ t tm) as [l1 | |]; cbn [obind]; [| done | done].
  destruct Hone as (new & Hl1 & HI1 & Hnew & Hkeep). specialize (IH l1 (new ++ bag') Hl1 HI1).
  destruct (fire_loop fuel now l1) as [[tr l'] | |]; cbn [obind]; [| done | done]. destruct IH as (rest & Hl' & HI' & Hrest & Hex).
  exists rest. split; [done |]. split; [done |]. split; [done |]. intros Hstrict. destruct (Hex Hstrict) as [Hfd Hpend]. split.
  - eapply fired_cons; [exact Hp | done | lia | done | done | by apply Hnew | | exact Hkeep | done].
    intros x Hx. apply list_elem_of_fmap in Hx as ([d' x'] & -> & Hx). destruct (lr_heap _ _ _ Hl d' x') as (tm' & Hx' & _); [rewrite Hp; by right | by exists tm'].
  - intros e He' Hlt. apply Hpend; [| done]. apply elem_of_app. right. rewrite Hp in He'. apply elem_of_cons in He' as [-> | He']; [cbn in Hlt; lia | done].
Qed.

(** It returns when the callbacks do and are [strict]. *)
Lemma fire_returns now : app_ok true now -> app_returns now -> forall fuel l bag, loop_rep l bag [] -> I l ->
  (length (due now bag) < fuel)%nat -> exists r, fire_loop fuel now l = Done r.
Proof.
  intros Happ Hret. induction fuel as [| fuel IH]; intros l bag Hl HI Hf; [lia |]. cbn [fire_loop].
  destruct (tq_is_empty (el_timers l)) eqn:He; [by eexists |].
  destruct (at_head_of l bag Hl HI He) as (t & tm & bag' & q & -> & -> & Hmin & Hh). pose proof Hh as [_ _ Htm Hp Hq]. cbn [obind].
  rewrite Z.gtb_ltb. destruct (Z.ltb_spec now (tm_deadline_us tm)) as [Hlt | Hge]; [by eexists |].
  change (el_heap (l <| el_timers := q |>)) with (el_heap l). rewrite Htm.
  pose proof (fire_timer_spec true now l bag t tm bag' q Happ Hh Hge) as Hone.
  assert (exists l1, fire_timer (l <| el_timers := q |>) t tm = Done l1) as [l1 E1].
  { destruct (fire_timer _ t tm) as [l1 | |] eqn:Ef; [by exists l1 | | done]. unfold fire_timer in Ef. destruct (tm_cancelled tm) eqn:Hc; cbn [obind] in Ef.
    - unfold free_timer in Ef. by destruct (_ !! t).
    - destruct (Hret l bag t tm bag' q Hh Hc Hge) as [l1 E1]. rewrite E1 in Ef. cbn [obind] in Ef. unfold free_timer in Ef. by destruct (el_heap l1 !! t). }
  rewrite E1 in Hone |- *. cbn [obind]. destruct Hone as (new & Hl1 & HI1 & Hnew & _).
  destruct (IH l1 (new ++ bag') Hl1 HI1) as [[tr l'] ->]; [| by eexists].
  rewrite due_later by by apply Hnew. rewrite (due_head now _ t bag bag' Hp Hge) in Hf. lia.
Qed.

(** ** The next timeout *)

(** A pending timer that is not cancelled. *)
Definition live (l : loop) (bag : list (Z * Z)) (e : Z * Z) : Prop :=
  e ∈ bag /\ exists tm, el_heap l !! e.2 = Some tm /\ tm_cancelled tm = false.

(** Only cancelled timers are dropped, and the head that is left is not cancelled. *)
Record drained (l : loop) (bag : list (Z * Z)) (l' : loop) (bag' : list (Z * Z)) : Prop := Drained {
  dr_backend : el_backend l' = el_backend l /\ el_running l' = el_running l;
  dr_live e : live l bag e -> live l' bag' e;
  dr_back e : live l' bag' e -> live l bag e;
  dr_sub e : e ∈ bag' -> e ∈ bag;
  dr_head : bag' = [] \/ exists e, tq_peek (el_timers l') = Done (Some e) /\ live l' bag' e /\ forall e', e' ∈ bag' -> e.1 <= e'.1
}.

Lemma live_drop l bag held l' bag' d t tm : loop_rep l bag held -> bag ≡ₚ (d, t) :: bag' -> el_heap l !! t = Some tm -> tm_cancelled tm = true ->
  (forall x, x <> t -> el_heap l' !! x = el_heap l !! x) -> forall e, live l bag e <-> live l' bag' e.
Proof.
  intros Hl Hp Htm Hc Hsame [d' x]. pose proof (loop_rep_nodup _ _ _ _ _ Hp (lr_nodup _ _ _ Hl)) as Hn.
  rewrite <- Permutation_middle in Hn. apply list.NoDup_cons in Hn as [Hn _].
  assert ((d', x) ∈ bag' -> x <> t) as Hne.
  { intros Hin ->. apply Hn, elem_of_app. left. apply list_elem_of_fmap. by exists (d', t). }
  unfold live. cbn. rewrite Hp, elem_of_cons. split.
  - intros [[[= -> ->] | Hin] (tm' & Htm' & Hc')]; [congruence |]. split; [done |]. exists tm'. by rewrite Hsame by auto.
  - intros [Hin (tm' & Htm' & Hc')]. rewrite Hsame in Htm' by auto. split; [by right | by exists tm'].
Qed.

Lemma drain_spec : forall fuel l bag, loop_rep l bag [] ->
  match drain_cancelled fuel l with
  | Done l' => exists bag', loop_rep l' bag' [] /\ drained l bag l' bag' /\ (length bag' <= length bag)%nat /\ (drop_ok -> I l -> I l')
  | Err _ => (fuel <= length bag)%nat
  | Ub => False
  end.
Proof.
  induction fuel as [| fuel IH]; intros l bag Hl; [apply Nat.le_0_l |]. cbn [drain_cancelled].
  rewrite (tq_empty_spec _ bag (lr_bag _ _ _ Hl)). case_bool_decide as Hempty.
  { exists bag. split; [done |]. split; [by split; auto | done]. }
  destruct (tq_pop_spec _ bag (lr_bag _ _ _ Hl)) as (r & q & Hpop & Hpeek & Hr). rewrite Hpeek. cbn [obind].
  destruct r as [[d t] |]; [| done]. destruct Hr as [Hmin (bag' & Hp & Hq)].
  destruct (lr_heap _ _ _ Hl d t) as (tm & Htm & Hd); [rewrite Hp; by left |]. rewrite Htm. destruct (tm_cancelled tm) eqn:Hc; cbn [negb].
  - rewrite Hpop. cbn [obind]. destruct (free_rep _ bag' [] t (pop_rep l bag [] d t bag' q Hl Hp Hq)) as (l2 & E2 & Hl2 & Hsame).
    rewrite E2. cbn [obind]. assert (length bag = S (length bag')) as Hlen by (rewrite Hp; done). specialize (IH l2 bag' Hl2).
    destruct (drain_cancelled fuel l2) as [l' | |]; [| lia | done]. destruct IH as (bag'' & Hl' & [Hbk Hdl Hdb Hsub Hhead] & Hle & HI).
    exists bag''. split; [done |]. pose proof (live_drop l bag [] l2 bag' d t tm Hl Hp Htm Hc Hsame) as Hdrop. split; [| split; [lia |]].
    + split; [| intros e He; by apply Hdl, Hdrop | intros e He; by apply Hdrop, Hdb | intros e He; rewrite Hp; right; by apply Hsub | done].
      destruct Hbk as [-> ->]. revert E2. unfold free_timer. destruct (_ !! t); [| done]. by intros [= <-].
    + intros Hok HIl. apply HI; [done |]. eapply Hok; [| exact Hc | exact E2]. split; [exact Hl | done | exact Htm | by rewrite Hd | done].
  - exists bag. split; [done |]. split; [| done]. split; auto. right. exists (d, t). split; [done |]. split.
    + split; [rewrite Hp; by left | by exists tm].
    + intros [d' t'] He. cbn. by eapply Hmin.
Qed.

(** The earliest live timer. *)
Definition earliest (l : loop) (bag : list (Z * Z)) (e : Z * Z) : Prop := live l bag e /\ forall e', live l bag e' -> e.1 <= e'.1.

(** How long the loop may sleep, in milliseconds. *)
Definition sleep_exact (now : Z) (l : loop) (bag : list (Z * Z)) (ms : Z) : Prop :=
  (ms = -1 /\ forall e, ~ live l bag e) \/
  exists d t, earliest l bag (d, t) /\
    (d <= now -> ms = 0) /\
    (now < d -> d - now <= 2 ^ 64 - 1000 -> now + 1000 * (ms - 1) < d <= now + 1000 * ms) /\
    (2 ^ 64 - 1000 < d - now -> ms = 0).

Lemma timeout_spec now fuel l bag : loop_rep l bag [] ->
  match next_timer_timeout_ms fuel now l with
  | Done (ms, l') => exists bag', loop_rep l' bag' [] /\ drained l bag l' bag' /\ (length bag' <= length bag)%nat /\
      (drop_ok -> I l -> I l') /\ (0 <= now < 2 ^ 64 -> (forall e, e ∈ bag -> 0 <= e.1 < 2 ^ 64) -> sleep_exact now l bag ms)
  | Err _ => (fuel <= length bag)%nat
  | Ub => False
  end.
Proof.
  intros Hl. pose proof (drain_spec fuel l bag Hl) as Hdrain. unfold next_timer_timeout_ms.
  destruct (drain_cancelled fuel l) as [l' | |]; cbn [obind]; [| done | done]. destruct Hdrain as (bag' & Hl' & Hdr & Hlen & HI).
  rewrite (tq_empty_spec _ bag' (lr_bag _ _ _ Hl')). case_bool_decide as Hempty.
  { exists bag'. split; [done |]. split; [done |]. split; [done |]. split; [done |]. intros _ _. left. split; [done |].
    intros e He. apply (dr_live _ _ _ _ Hdr) in He as [He _]. subst bag'. by apply not_elem_of_nil in He. }
  pose proof Hdr as [Hbk Hdl Hdb Hsub Hhead]. destruct Hhead as [? | ([d t] & Hpeek & Hlive & Hmin)]; [done |]. rewrite Hpeek. cbn [obind].
  assert (earliest l bag (d, t)) as Hear.
  { split; [by apply Hdb |]. intros e' He'. apply Hmin. by apply Hdl in He' as [? _]. }
  destruct (Z.leb_spec d now) as [Hle | Hlt]; (exists bag'; split; [done |]; split; [done |]; split; [done |]; split; [done |]; intros Hnow Hd; right; exists d, t;
    pose proof (Hd (d, t) (Hsub _ (proj1 Hlive))) as Hdr'; cbn in Hdr'; split; [done |]).
  - split; [done |]. split; lia.
  - rewrite (u64_small (d - now)) by lia. split; [lia |]. split.
    + intros _ Hmax. rewrite u64_small by lia. pose proof (Z.div_mod (d - now + 999) 1000 ltac:(lia)). pose proof (Z.mod_pos_bound (d - now + 999) 1000 ltac:(lia)). lia.
    + intros Hbig. unfold u64. replace (d - now + 999) with ((d - now + 999 - 2 ^ 64) + 1 * 2 ^ 64) by lia. rewrite Z.mod_add, Z.mod_small by lia.
      apply Z.div_small. lia.
Qed.

(** A backend that keeps the invariants. *)
Definition poll_ok : Prop := forall ms l bag, loop_rep l bag [] -> I l ->
  match poll ms l with Done (_, l') => exists bag', loop_rep l' bag' [] /\ I l' | Err _ => True | Ub => False end.

(** One iteration is safe when callbacks and backend are, and so are all. *)
Lemma run_once_safe strict now now' ms fuel l bag : app_ok strict now' -> poll_ok -> loop_rep l bag [] -> I l ->
  match nxp_event_loop_run_once fuel now now' ms l with
  | Done (_, _, l') => exists bag', loop_rep l' bag' [] /\ I l' /\ Forall (fun '(d, _) => now' < d) bag'
  | Err _ => True
  | Ub => False
  end.
Proof.
  intros Happ Hpoll Hl HI. unfold nxp_event_loop_run_once. pose proof (timeout_spec now fuel l bag Hl) as Ht.
  destruct (next_timer_timeout_ms fuel now l) as [[tt' l1] | |]; cbn [obind]; [| done | done]. destruct Ht as (bag1 & Hl1 & _ & _ & HI1 & _).
  specialize (Hpoll (effective_timeout ms tt') l1 bag1 Hl1 (HI1 (ao_drop _ _ Happ) HI)).
  destruct (poll _ l1) as [[r l2] | |]; cbn [obind]; [| done | done]. destruct Hpoll as (bag2 & Hl2 & HI2).
  pose proof (fire_spec strict now' Happ fuel l2 bag2 Hl2 HI2) as Hf. destruct (fire_loop fuel now' l2) as [[tr l3] | |]; cbn [obind]; [| done | done].
  destruct Hf as (rest & ? & ? & ? & _). eauto.
Qed.

Lemma run_loop_safe clock : (forall i, app_ok false (clock i).2) -> poll_ok -> forall fuel i l bag, loop_rep l bag [] -> I l ->
  match run_loop fuel clock i l with Done (_, l') => exists bag', loop_rep l' bag' [] /\ I l' | Err _ => True | Ub => False end.
Proof.
  intros Happ Hpoll. induction fuel as [| fuel IH]; intros i l bag Hl HI; cbn [run_loop]; [done |].
  destruct (el_running l); cbn [negb]; [| by exists bag].
  pose proof (run_once_safe false (clock i).1 (clock i).2 (-1) (S fuel) l bag (Happ i) Hpoll Hl HI) as Hone.
  destruct (nxp_event_loop_run_once _ _ _ _ l) as [[[r tr] l'] | |]; cbn [obind]; [| done | done]. destruct Hone as (bag' & Hl' & HI' & _).
  destruct r as [e |]; [by exists bag' | by eapply IH].
Qed.

(** Firing the timers takes out exactly those whose deadline has come, in the
    order of their deadlines, and calls each that is not cancelled, once, with its own
    callback and user data; afterwards no due timer is left, later ones stay, every
    timer that was taken out is freed, and no freed timer was touched.  Callbacks
    may arm timers for later and cancel timers. *)
Theorem fire_timers_exact now fuel l bag : app_ok true now -> app_returns now -> loop_rep l bag [] -> I l ->
  (length (due now bag) < fuel)%nat ->
  exists tr l' rest, fire_loop fuel now l = Done (tr, l') /\ fired now l bag tr /\ loop_rep l' rest [] /\ I l' /\
    Forall (fun '(d, _) => now < d) rest /\ (forall e, e ∈ bag -> now < e.1 -> e ∈ rest).
Proof.
  intros Happ Hret Hl HI Hf. pose proof (fire_spec true now Happ fuel l bag Hl HI) as Hs.
  destruct (fire_returns now Happ Hret fuel l bag Hl HI Hf) as [[tr l'] Ef]. rewrite Ef in Hs.
  destruct Hs as (rest & ? & ? & ? & Hex). destruct (Hex eq_refl). exists tr, l', rest. auto 10.
Qed.

(** The time the loop may sleep is exact: without a live timer there is no limit;
    otherwise the sleep ends at the deadline of the earliest live timer, rounded up
    to a millisecond, and is 0 when that deadline has come.  Only for deadlines
    within 1000 microseconds of 2^64 after now the rounding wraps, and the loop
    does not sleep at all. *)
Theorem timer_timeout_exact now fuel l bag : loop_rep l bag [] -> (length bag < fuel)%nat -> 0 <= now < 2 ^ 64 ->
  (forall e, e ∈ bag -> 0 <= e.1 < 2 ^ 64) ->
  exists ms l' bag', next_timer_timeout_ms fuel now l = Done (ms, l') /\ loop_rep l' bag' [] /\ drained l bag l' bag' /\ sleep_exact now l bag ms.
Proof.
  intros Hl Hf Hnow Hd. pose proof (timeout_spec now fuel l bag Hl) as Ht.
  destruct (next_timer_timeout_ms fuel now l) as [[ms l'] | |]; [| lia | done]. destruct Ht as (bag' & ? & ? & _ & _ & Hx). specialize (Hx Hnow Hd). eauto 10.
Qed.

(** No socket becomes ready: the backend returns after the time it was told and [late]
    microseconds more; told to wait without limit, or for another time than until
    [now'], it has not returned when the clock shows [now']. *)
Definition sleeps (now late now' : Z) : Prop := forall ms l,
  poll ms l = if (0 <=? ms) && (now + 1000 * ms + late =? now') then Done (None, l) else Err tt.


End EventLoop.

(** ** The binary heap is a timer queue *)

Definition to_entry (e : Z * Z) : nxp_pq_entry Z := PqEntry e.1 e.2.
Definition of_entry (e : nxp_pq_entry Z) : Z * Z := (pq_key e, pq_value e).

(** The queue never reports an error. *)
Definition plain {A} (m : nxp_result A) : outcome unit A := match m with Done a => Done a | Err _ => Err tt | Ub => Ub end.

(** Whether [realloc] succeeds and the memory it returns. *)
Record pq_env := PqEnv { pe_ok : bool; pe_junk : list (nxp_pq_entry Z) }.

#[export, refine] Instance pq_timers : TimerQueue (nxp_priority_queue Z) pq_env := {|
  tq_push e q d t := plain (nxp_pq_push (pe_ok e) (pe_junk e) q d t);
  tq_peek q := let! r := plain (nxp_pq_peek q) in Done (of_entry <$> r);
  tq_pop q := let! (r, q) := plain (nxp_pq_pop q) in Done (of_entry <$> r, q);
  tq_is_empty q := nxp_pq_is_empty q;
  tq_bag q bag := pq_ok q (to_entry <$> bag);
  tq_room e q := pe_ok e = true -> pq_capacity q <= 2 ^ 29 /\ 2 * pq_capacity q <= zlen (pe_junk e)
|}.
Proof.
  - intros [[] junk] q bag d t Hq Hroom; cbn [pe_ok pe_junk] in *.
    + destruct (Hroom eq_refl) as [Hc Hj]. destruct (pq_push_keeps q _ d t true junk Hq Hc Hj) as ([q' |] & -> & Hr); [right; by exists q' | by left].
    + unfold nxp_pq_push. rewrite Z.geb_leb. destruct (Z.leb_spec (pq_capacity q) (pq_count q)) as [Hfull | Hspace]; cbn [negb]; [by left |].
      right. destruct (push_room q _ d t Hq Hspace) as (q' & -> & Hq'). by exists q'.
  - intros q bag Hq. destruct (pop_ok q _ Hq) as (r & q' & -> & -> & Hr). cbn [plain obind]. exists (of_entry <$> r), q'. split; [done |]. split; [done |].
    destruct r as [[d t] |]; cbn in Hr |- *; [| destruct Hr as [Hb _]; by destruct bag].
    destruct Hr as [Hmin (bag' & Hp & Hq')]. split.
    + intros d' t' Hin. apply (Hmin (PqEntry d' t')). apply list_elem_of_In, list_elem_of_fmap. by exists (d', t').
    + exists (of_entry <$> bag').
      assert (forall l : list (nxp_pq_entry Z), to_entry <$> (of_entry <$> l) = l) as Hid by (intros l; rewrite <- list_fmap_compose; induction l as [| [??] l IH]; cbn; [done | by f_equal]).
      rewrite Hid. split; [| done]. rewrite <- (list_fmap_id bag) at 1.
      assert (bag = of_entry <$> (to_entry <$> bag)) as Hb by (rewrite <- list_fmap_compose; clear; induction bag as [| [??] l IH]; cbn; [done | by f_equal]).
      rewrite Hb at 1. rewrite list_fmap_id. rewrite Hp. done.
  - intros q bag [Hs Hr _ Hb]. unfold nxp_pq_is_empty. apply Permutation_length in Hb. rewrite length_fmap in Hb.
    assert (zlen (ztake (pq_count q) (pq_entries q)) = pq_count q) as Hz by (apply zlen_ztake; lia). unfold zlen in Hz. rewrite Hb in Hz.
    destruct bag as [| e bag]; cbn in Hz; case_bool_decide; try done; [apply Z.eqb_eq | apply Z.eqb_neq]; lia.
Defined.

(** ** A loop with three timers: the second is cancelled, the first re-arms itself and
    the third is not yet due *)

Definition sample_loop : nxp_event_loop (nxp_priority_queue Z) unit :=
  Loop (PQ ([PqEntry 10 1; PqEntry 20 2; PqEntry 90 3] ++ replicate 13 (PqEntry 0 0)) 3 16) true
    (<[1 := Timer 10 7 70 false]> (<[2 := Timer 20 8 80 true]> {[3 := Timer 90 9 90 false]})) tt.
Definition sample_bag : list (Z * Z) := [(10, 1); (20, 2); (90, 3)].

(** [realloc] that grants up to 2^30 entries, and [malloc]. *)
Definition pq_grow (q : nxp_priority_queue Z) : pq_env :=
  PqEnv (pq_capacity q <=? 2 ^ 29) (replicate (Z.to_nat (2 * pq_capacity q)) (PqEntry 0 0)).
Lemma pq_grow_room q : tq_room (pq_grow q) q.
Proof.
  change (pe_ok (pq_grow q) = true -> pq_capacity q <= 2 ^ 29 /\ 2 * pq_capacity q <= zlen (pe_junk (pq_grow q))). cbn [pq_grow pe_ok pe_junk].
  intros Hc%Z.leb_le. split; [done |]. unfold zlen. rewrite length_replicate. lia.
Qed.
Definition fresh_timer (h : gmap Z nxp_timer) : option Z := Some (fresh (dom h)).
Lemma fresh_timer_spec h t : fresh_timer h = Some t -> h !! t = None.
Proof. intros [= <-]. apply not_elem_of_dom, is_fresh. Qed.

(** Every callback arms a timer for 1000. *)
Definition sample_app (cb ud : Z) (l : nxp_event_loop (nxp_priority_queue Z) unit) : outcome unit (nxp_event_loop (nxp_priority_queue Z) unit) :=
  let! (_, l) := nxp_event_loop_add_timer (fresh_timer (el_heap l)) (pq_grow (el_timers l)) l 1000 cb ud in Done l.

Lemma sample_rep : loop_rep sample_loop sample_bag [].
Proof.
  split.
  - cbn. split; [by_compute | by_compute | | done]. intros j Hj. simpl in Hj. assert (j = 1 \/ j = 2) as [-> | ->] by lia; by_compute.
  - by apply (bool_decide_unpack _).
  - intros d t Hin. unfold sample_bag in Hin. rewrite !elem_of_cons in Hin.
    destruct Hin as [[= -> ->] | [[= -> ->] | [[= -> ->] | Hin]]]; [by eexists.. | by apply not_elem_of_nil in Hin].
  - intros t Hin. by apply not_elem_of_nil in Hin.
  - intros t Ht. cbn in Ht |- *. rewrite !elem_of_cons.
    destruct (decide (t = 1)) as [-> | ?]; [auto |]. destruct (decide (t = 2)) as [-> | ?]; [auto |]. destruct (decide (t = 3)) as [-> | ?]; [auto |].
    rewrite !lookup_insert_ne, lookup_singleton_ne in Ht by done. by destruct Ht.
Qed.

Definition no_invariant (l : nxp_event_loop (nxp_priority_queue Z) unit) : Prop := True.

Lemma sample_app_ok now : now < 1000 -> app_ok sample_app no_invariant true now.
Proof.
  intros Hnow. split; [done |]. intros l bag t tm bag' q [Hl _ Htm Hp Hq] _ _. unfold sample_app, fresh_timer.
  pose proof (pop_rep l bag [] _ t bag' q Hl Hp Hq) as Hl1. set (l1 := l <| el_timers := q |>) in *.
  destruct (add_timer_rep l1 bag' [t] (fresh (dom (el_heap l1))) (pq_grow (el_timers l1)) 1000 (tm_cb tm) (tm_user_data tm) Hl1 (pq_grow_room _))
    as (r & l2 & -> & Hr); [by apply fresh_timer_spec |]. cbn [obind]. destruct Hr as [[_ ->] | (_ & Hl2 & Hk & _)].
  - exists []. split; [done |]. split; [apply kept_refl |]. split; [intros _; by apply Forall_nil | done].
  - exists [(1000, fresh (dom (el_heap l1)))]. split; [done |]. split; [done |]. split; [intros _; by constructor | done].
Qed.

Lemma sample_app_returns now : app_returns sample_app no_invariant now.
Proof.
  intros l bag t tm bag' q [Hl _ Htm Hp Hq] _ _. unfold sample_app. pose proof (pop_rep l bag [] _ t bag' q Hl Hp Hq) as Hl1.
  set (l1 := l <| el_timers := q |>) in *.
  destruct (add_timer_rep l1 bag' [t] (fresh (dom (el_heap l1))) (pq_grow (el_timers l1)) 1000 (tm_cb tm) (tm_user_data tm) Hl1 (pq_grow_room _))
    as (r & l2 & E2 & _); [by apply fresh_timer_spec |]. unfold fresh_timer. rewrite E2. by eexists.
Qed.

Lemma fire_timers_exact_witness : exists tr l' rest,
  fire_loop sample_app 5 50 sample_loop = Done (tr, l') /\
  entry <$> tr ≡ₚ [(10, 1); (20, 2)] /\ loop_rep l' rest [] /\ (90, 3) ∈ rest.
Proof.
  destruct (fire_timers_exact sample_app no_invariant 50 5 sample_loop sample_bag) as (tr & l' & rest & E & [Hd _ _] & Hl & _ & _ & Hp).
  - by apply sample_app_ok.
  - apply sample_app_returns.
  - apply sample_rep.
  - done.
  - vm_compute. lia.
  - exists tr, l', rest. split; [exact E |]. split; [exact Hd |]. split; [done |]. apply Hp; [by right; right; left | by_compute].
Defined.

Lemma sample_deadlines e : e ∈ sample_bag -> 0 <= e.1 < 2 ^ 64.
Proof.
  unfold sample_bag. rewrite !elem_of_cons. intros [-> | [-> | [-> | Hin]]]; [by_compute.. | by apply not_elem_of_nil in Hin].
Qed.

Lemma timer_timeout_exact_witness : exists ms l' bag', next_timer_timeout_ms 5 5 sample_loop = Done (ms, l') /\ loop_rep l' bag' [].
Proof.
  destruct (timer_timeout_exact no_invariant 5 5 sample_loop sample_bag sample_rep) as (ms & l' & bag' & E & Hl & _).
  - vm_compute. lia.
  - by_compute.
  - apply sample_deadlines.
  - exists ms, l', bag'. by split.
Defined.

(** A backend that is late by 7 microseconds, seen at 1012. *)
Definition sleeping_poll (ms : Z) (l : nxp_event_loop (nxp_priority_queue Z) unit) : outcome unit (option nxp_error_code * nxp_event_loop (nxp_priority_queue Z) unit) :=
  if (0 <=? ms) && (5 + 1000 * ms + 7 =? 1012) then Done (None, l) else Err tt.

Lemma sample_earliest : earliest sample_loop sample_bag (10, 1).
Proof.
  split; [split; [by left | by eexists] |]. intros e' [Hin _]. unfold sample_bag in Hin. rewrite !elem_of_cons in Hin.
  destruct Hin as [-> | [-> | [-> | Hin]]]; [by_compute.. | by apply not_elem_of_nil in Hin].
Qed.

Definition quiet_app (cb ud : Z) (l : nxp_event_loop (nxp_priority_queue Z) unit) : outcome unit (nxp_event_loop (nxp_priority_queue Z) unit) := Done l.

Lemma quiet_app_ok now : app_ok quiet_app no_invariant true now.
Proof.
  split; [done |]. intros l bag t tm bag' q [Hl _ Htm Hp Hq] _ _. exists []. split; [by apply (pop_rep l bag [] _ t bag' q Hl Hp Hq) |].
  split; [apply kept_refl |]. split; [intros _; by apply Forall_nil | done].
Qed.

