(* ===== verification/Epoll.v ===== *)
(** * The epoll backend of the event loop (src/src/platform/linux/epoll_event_loop.c)

    A table of registered sockets indexed by descriptor, kept beside the interest
    list of the kernel, and the dispatch of ready descriptors to callbacks.  The
    system calls' answers are arguments.  *)

From stdpp Require Import gmap.
From S2P Require Import Prelude Types PriorityQueue Sockets Transports EventLoop.

Definition NXP_EVENT_READ : Z := 0x01.
Definition NXP_EVENT_WRITE : Z := 0x02.
Definition NXP_EVENT_ERROR : Z := 0x04.
Definition EPOLLIN : Z := 0x001.
Definition EPOLLOUT : Z := 0x004.
Definition EPOLLERR : Z := 0x008.
Definition EPOLLHUP : Z := 0x010.
Definition INITIAL_SOURCE_CAP : Z := 64.

Record nxp_epoll_source := EpollSource {
  es_sock : option nxp_socket;
  es_cb : Z;
  es_user_data : Z;
  es_events : Z;
  es_active : bool
}.
#[export] Instance eta_epoll_source : Eta nxp_epoll_source := fun s =>
  EpollSource (es_sock s) (es_cb s) (es_user_data s) (es_events s) (es_active s).

(** [calloc] and [memset] *)
Definition source_zero : nxp_epoll_source := EpollSource None 0 0 0 false.

(** [ep_interest] is the kernel's list: descriptors and the events asked for. *)
Record nxp_epoll_loop := EpollLoop {
  ep_wakeup_fd : Z;
  ep_sources : list nxp_epoll_source;
  ep_source_cap : Z;
  ep_interest : gmap Z Z
}.
#[export] Instance eta_epoll : Eta nxp_epoll_loop := fun e =>
  EpollLoop (ep_wakeup_fd e) (ep_sources e) (ep_source_cap e) (ep_interest e).

Definition nxp_to_epoll_events (nxp_events : Z) : Z :=
  (if negb ((nxp_events &&& NXP_EVENT_READ) =? 0) then EPOLLIN else 0) |||
  (if negb ((nxp_events &&& NXP_EVENT_WRITE) =? 0) then EPOLLOUT else 0).

Definition epoll_to_nxp_events (ep : Z) : Z :=
  (if negb ((ep &&& EPOLLIN) =? 0) then NXP_EVENT_READ else 0) |||
  (if negb ((ep &&& EPOLLOUT) =? 0) then NXP_EVENT_WRITE else 0) |||
  (if negb ((ep &&& (EPOLLERR ||| EPOLLHUP)) =? 0) then NXP_EVENT_ERROR else 0).

(** [while (new_cap <= ufd) new_cap *= 2;] *)
Fixpoint grow_cap (fuel : nat) (new_cap ufd : Z) : outcome unit Z :=
  match fuel with
  | O => Err tt
  | S fuel => if new_cap <=? ufd then grow_cap fuel (u32 (new_cap * 2)) ufd else Done new_cap
  end.

(** A result of [None] is success. *)
Definition ensure_source_capacity (realloc_ok : bool) (e : nxp_epoll_loop) (fd : Z) : outcome unit (option nxp_error_code * nxp_epoll_loop) :=
  if fd <? 0 then Done (Some NXP_ERR_INVALID_ARGUMENT, e) else
  if fd <? ep_source_cap e then Done (None, e) else
  let! new_cap := grow_cap 32 (ep_source_cap e) fd in
  if negb realloc_ok then Done (Some NXP_ERR_OUT_OF_MEMORY, e) else
  Done (None, e <| ep_sources := ep_sources e ++ replicate (Z.to_nat (new_cap - ep_source_cap e)) source_zero |>
                <| ep_source_cap := new_cap |>).

(** [epoll_ctl] adds what is not there and modifies what is there, unless the
    system refuses. *)
Definition ctl_add (ok : bool) (e : nxp_epoll_loop) (fd ev : Z) : option nxp_epoll_loop :=
  if negb ok || bool_decide (is_Some (ep_interest e !! fd)) then None
  else Some (e <| ep_interest := <[fd := ev]> (ep_interest e) |>).
Definition ctl_mod (ok : bool) (e : nxp_epoll_loop) (fd ev : Z) : option nxp_epoll_loop :=
  if negb ok || bool_decide (ep_interest e !! fd = None) then None
  else Some (e <| ep_interest := <[fd := ev]> (ep_interest e) |>).

(** An access to [sources[fd]]. *)
Definition set_source (e : nxp_epoll_loop) (fd : Z) (src : nxp_epoll_source) : outcome unit nxp_epoll_loop :=
  match zget (ep_sources e) fd with
  | None => Ub
  | Some _ => Done (e <| ep_sources := <[Z.to_nat fd := src]> (ep_sources e) |>)
  end.

(** [fd >= 0 && fd < source_cap && sources[fd].active] *)
Definition active_source (e : nxp_epoll_loop) (fd : Z) : outcome unit (option nxp_epoll_source) :=
  if (fd <? 0) || (fd >=? ep_source_cap e) then Done None else
  match zget (ep_sources e) fd with
  | None => Ub
  | Some src => Done (if es_active src then Some src else None)
  end.

Definition epoll_add_socket (realloc_ok ctl_ok : bool) (e : nxp_epoll_loop) (sock : option nxp_socket) (events cb ud : Z)
  : outcome unit (option nxp_error_code * nxp_epoll_loop) :=
  match sock with
  | None => Ub
  | Some s =>
      let fd := so_fd s in
      let! (r, e) := ensure_source_capacity realloc_ok e fd in
      match r with
      | Some err => Done (Some err, e)
      | None =>
          match ctl_add ctl_ok e fd (nxp_to_epoll_events events) with
          | None => Done (Some NXP_ERR_PLATFORM, e)
          | Some e => let! e := set_source e fd (EpollSource sock cb ud events true) in Done (None, e)
          end
      end
  end.

Definition epoll_mod_socket (ctl_ok : bool) (e : nxp_epoll_loop) (sock : option nxp_socket) (events : Z)
  : outcome unit (option nxp_error_code * nxp_epoll_loop) :=
  match sock with
  | None => Ub
  | Some s =>
      let fd := so_fd s in
      let! src := active_source e fd in
      match src with
      | None => Done (Some NXP_ERR_INVALID_ARGUMENT, e)
      | Some src =>
          match ctl_mod ctl_ok e fd (nxp_to_epoll_events events) with
          | None => Done (Some NXP_ERR_PLATFORM, e)
          | Some e => let! e := set_source e fd (src <| es_events := events |>) in Done (None, e)
          end
      end
  end.

Definition epoll_del_socket (e : nxp_epoll_loop) (sock : option nxp_socket) : outcome unit nxp_epoll_loop :=
  match sock with
  | None => Ub
  | Some s =>
      let fd := so_fd s in
      let! src := active_source e fd in
      match src with
      | None => Done e
      | Some src => set_source (e <| ep_interest := delete fd (ep_interest e) |>) fd (src <| es_active := false |>)
      end
  end.

(** What [nxp_event_loop_create] sets up when the system grants everything. *)
Definition epoll_create (wakeup_fd : Z) : nxp_epoll_loop :=
  EpollLoop wakeup_fd (replicate (Z.to_nat INITIAL_SOURCE_CAP) source_zero) INITIAL_SOURCE_CAP {[wakeup_fd := EPOLLIN]}.

(** The kernel forgets a closed descriptor. *)
Definition fd_closed (e : nxp_epoll_loop) (fd : Z) : nxp_epoll_loop := e <| ep_interest := delete fd (ep_interest e) |>.

(** ** Polling *)

(** What [epoll_wait] returns: a failure, an interruption, or ready descriptors. *)
Inductive wait_result : Type :=
| WaitFail
| WaitInterrupted
| WaitReady (events : list (Z * Z)).

(** [int timeout = (timeout_ms < 0) ? -1 : (int)timeout_ms;] on a 32-bit [int] *)
Definition epoll_timeout (timeout_ms : Z) : Z :=
  if timeout_ms <? 0 then -1 else let v := u32 timeout_ms in if v <? 2 ^ 31 then v else v - 2 ^ 32.

Section Poll.
Context {Q X : Type}.
Notation loop := (nxp_event_loop Q (nxp_epoll_loop * X)).

(** The loop with the state [X] of the application. *)
Definition el_epoll (l : loop) : nxp_epoll_loop := (el_backend l).1.

(** What the callback of a socket does; [Err tt] when it does not return. *)
Variable on_socket : nxp_epoll_source -> Z -> loop -> outcome unit loop.

(** The calls made, with the source as it was and the events. *)
Fixpoint dispatch (l : loop) (events : list (Z * Z)) : outcome unit (list (nxp_epoll_source * Z) * loop) :=
  match events with
  | [] => Done ([], l)
  | (fd, ev) :: events =>
      if fd =? ep_wakeup_fd (el_epoll l) then dispatch l events else
      let! src := active_source (el_epoll l) fd in
      match src with
      | None => dispatch l events
      | Some src =>
          let nxp_events := epoll_to_nxp_events ev in
          let! l := on_socket src nxp_events l in
          let! (tr, l) := dispatch l events in
          Done ((src, nxp_events) :: tr, l)
      end
  end.

Definition epoll_poll (wait : Z -> wait_result) (timeout_ms : Z) (l : loop)
  : outcome unit (option nxp_error_code * list (nxp_epoll_source * Z) * loop) :=
  match wait (epoll_timeout timeout_ms) with
  | WaitFail => Done (Some NXP_ERR_PLATFORM, [], l)
  | WaitInterrupted => Done (None, [], l)
  | WaitReady events => let! (tr, l) := dispatch l events in Done (None, tr, l)
  end.

End Poll.

(** ** Invariant *)

(** Every descriptor the kernel watches is registered with the same events. *)
Record ep_inv (e : nxp_epoll_loop) : Prop := EpInv {
  ei_len : zlen (ep_sources e) = ep_source_cap e;
  ei_cap : INITIAL_SOURCE_CAP <= ep_source_cap e < 2 ^ 32;
  ei_interest fd ev : ep_interest e !! fd = Some ev -> fd = ep_wakeup_fd e \/
    0 <= fd /\ exists src, zget (ep_sources e) fd = Some src /\ es_active src = true /\ ev = nxp_to_epoll_events (es_events src)
}.

(** What is registered for a descriptor, and what the kernel watches. *)
Definition registered (e : nxp_epoll_loop) (fd : Z) : option nxp_epoll_source :=
  if fd <? 0 then None else
  match zget (ep_sources e) fd with
  | Some src => if es_active src then Some src else None
  | None => None
  end.
Definition view (e : nxp_epoll_loop) (fd : Z) : option nxp_epoll_source * option Z := (registered e fd, ep_interest e !! fd).

(** [e'] is [e] with another entry for [fd]. *)
Definition updates (e e' : nxp_epoll_loop) (fd : Z) (v : option nxp_epoll_source * option Z) : Prop :=
  forall x, view e' x = if decide (x = fd) then v else view e x.

Lemma active_registered e fd : ep_inv e -> active_source e fd = Done (registered e fd).
Proof.
  intros [Hl Hc _]. unfold active_source, registered. destruct (Z.ltb_spec fd 0); [done |]. cbn [orb]. rewrite Z.geb_leb.
  destruct (Z.leb_spec (ep_source_cap e) fd).
  - by rewrite zget_None by lia.
  - destruct (zget_Some (ep_sources e) fd) as [src ->]; [lia | done].
Qed.

Lemma grow_cap_spec fuel : forall cap fd, 0 < cap < 2 ^ 32 -> 0 <= fd < 2 ^ 31 -> fd < cap * 2 ^ (Z.of_nat fuel - 1) -> (0 < fuel)%nat ->
  exists cap', grow_cap fuel cap fd = Done cap' /\ fd < cap' < 2 ^ 32 /\ cap <= cap'.
Proof.
  induction fuel as [| fuel IH]; intros cap fd Hc Hfd Hpow Hf; [lia |]. cbn [grow_cap]. destruct (Z.leb_spec cap fd) as [Hle | Hgt].
  - rewrite u32_small by lia. destruct fuel as [| fuel]; [change (2 ^ (Z.of_nat 1 - 1)) with 1 in Hpow; lia |].
    destruct (IH (cap * 2) fd) as (cap' & -> & ? & ?); [lia | done | | lia | exists cap'; split; [done | lia]].
    replace (Z.of_nat (S (S fuel)) - 1) with (Z.succ (Z.of_nat (S fuel) - 1)) in Hpow by lia. rewrite Z.pow_succ_r in Hpow by lia. lia.
  - exists cap. split; [done | lia].
Qed.

Lemma zget_zeros_source n fd src : zget (replicate n source_zero) fd = Some src -> src = source_zero.
Proof. unfold zget. intros Hl. by apply lookup_replicate in Hl as [-> _]. Qed.

Lemma ensure_spec ok e fd : ep_inv e -> 0 <= fd < 2 ^ 31 ->
  exists r e', ensure_source_capacity ok e fd = Done (r, e') /\ ep_inv e' /\ (forall x, view e' x = view e x) /\
    ep_wakeup_fd e' = ep_wakeup_fd e /\ ep_interest e' = ep_interest e /\
    match r with None => fd < ep_source_cap e' | Some err => err = NXP_ERR_OUT_OF_MEMORY /\ e' = e end.
Proof.
  intros He Hfd. pose proof He as [Hl Hc Hi]. unfold ensure_source_capacity, INITIAL_SOURCE_CAP in *. rewrite (proj2 (Z.ltb_ge fd 0)) by lia.
  destruct (Z.ltb_spec fd (ep_source_cap e)) as [Hlt | Hge]; [exists None, e; auto 10 |].
  destruct (grow_cap_spec 32 (ep_source_cap e) fd) as (cap & -> & Hcap & Hmono); [lia | lia | change (2 ^ (Z.of_nat 32 - 1)) with (2 ^ 31); nia | lia |].
  cbn [obind]. destruct ok; cbn [negb]; [| exists (Some NXP_ERR_OUT_OF_MEMORY), e; auto 10].
  eexists None, _. split; [done |]. set (n := Z.to_nat (cap - ep_source_cap e)).
  assert (forall x, 0 <= x -> zget (ep_sources e ++ replicate n source_zero) x =
    if x <? zlen (ep_sources e) then zget (ep_sources e) x else zget (replicate n source_zero) (x - zlen (ep_sources e))) as Hg
    by (intros x Hx; by apply zget_app).
  split; [| split; [| split; [done | split; [done |]]]].
  - split; cbn.
    + rewrite zlen_app, Hl. unfold n, zlen. rewrite length_replicate. lia.
    + unfold INITIAL_SOURCE_CAP. lia.
    + intros x ev Hx. destruct (Hi x ev Hx) as [? | (Hx0 & src & Hs & Ha & Hev)]; [by left |]. right. split; [done |]. exists src. split; [| done].
      rewrite Hg by done. destruct (Z.ltb_spec x (zlen (ep_sources e))); [done |]. by rewrite zget_None in Hs by lia.
  - intros x. unfold view, registered. cbn. f_equal. destruct (Z.ltb_spec x 0); [done |]. rewrite Hg by done.
    destruct (Z.ltb_spec x (zlen (ep_sources e))); [done |]. rewrite (zget_None (ep_sources e)) by done.
    destruct (zget (replicate n source_zero) _) as [src |] eqn:Hz; [| done]. by rewrite (zget_zeros_source _ _ _ Hz).
  - cbn. lia.
Qed.

(** Both halves of an entry. *)
Lemma put_spec e fd src iv : ep_inv e -> 0 <= fd < ep_source_cap e ->
  match iv with Some ev => es_active src = true /\ ev = nxp_to_epoll_events (es_events src) | None => True end ->
  exists e', set_source (e <| ep_interest := partial_alter (fun _ => iv) fd (ep_interest e) |>) fd src = Done e' /\ ep_inv e' /\
    updates e e' fd (if es_active src then Some src else None, iv) /\ ep_wakeup_fd e' = ep_wakeup_fd e.
Proof.
  intros He Hfd Hiv. pose proof He as [Hl Hc Hi]. unfold set_source.
  change (ep_sources (e <| ep_interest := _ |>)) with (ep_sources e).
  destruct (zget_Some (ep_sources e) fd) as [old Hold]; [lia |]. rewrite Hold. eexists. split; [done |].
  assert (forall x, 0 <= x -> zget (<[Z.to_nat fd := src]> (ep_sources e)) x = if decide (x = fd) then Some src else zget (ep_sources e) x) as Hg.
  { intros x Hx. unfold zget. destruct (decide (x = fd)) as [-> | Hne]; [apply list_lookup_insert_eq; unfold zlen in Hl; lia |].
    apply list_lookup_insert_ne. lia. }
  split; [| split; [| done]].
  - split; cbn.
    + unfold zlen. by rewrite length_insert.
    + done.
    + intros x ev Hx. destruct (decide (x = fd)) as [-> | Hne].
      * rewrite lookup_partial_alter_eq in Hx. subst iv. right. split; [lia |]. exists src. rewrite Hg, decide_True by lia. tauto.
      * rewrite lookup_partial_alter_ne in Hx by done. destruct (Hi x ev Hx) as [? | (Hx0 & s & Hs)]; [by left |]. right. split; [done |].
        exists s. by rewrite Hg, decide_False.
  - intros x. unfold view, registered. cbn. destruct (decide (x = fd)) as [-> | Hne].
    + rewrite lookup_partial_alter_eq, (proj2 (Z.ltb_ge fd 0)), Hg, decide_True by (done || lia). done.
    + rewrite lookup_partial_alter_ne by done. f_equal. destruct (Z.ltb_spec x 0); [done |]. by rewrite Hg, decide_False.
Qed.

Definition fd_ok (sock : nxp_socket) : Prop := 0 <= so_fd sock < 2 ^ 31.

Lemma add_spec realloc_ok ctl_ok e s events cb ud : ep_inv e -> fd_ok s ->
  exists r e', epoll_add_socket realloc_ok ctl_ok e (Some s) events cb ud = Done (r, e') /\ ep_inv e' /\ ep_wakeup_fd e' = ep_wakeup_fd e /\
    match r with
    | None => updates e e' (so_fd s) (Some (EpollSource (Some s) cb ud events true), Some (nxp_to_epoll_events events))
    | Some err => err ∈ [NXP_ERR_OUT_OF_MEMORY; NXP_ERR_PLATFORM] /\ forall x, view e' x = view e x
    end.
Proof.
  intros He Hfd. unfold epoll_add_socket. destruct (ensure_spec realloc_ok e (so_fd s) He Hfd) as (r & e1 & -> & He1 & Hv & Hw & Hint & Hr). cbn [obind].
  destruct r as [err |]; [destruct Hr as [-> ->]; eexists _, _; split; [done |]; split; [done |]; split; [done |]; split; [by left | done] |].
  unfold ctl_add. destruct (negb ctl_ok || _).
  { eexists _, _. split; [done |]. split; [done |]. split; [done |]. split; [by right; left | done]. }
  destruct (put_spec e1 (so_fd s) (EpollSource (Some s) cb ud events true) (Some (nxp_to_epoll_events events)) He1) as (e2 & E2 & He2 & Hu & Hw2);
    [unfold fd_ok in Hfd; lia | done |].
  change (<[so_fd s:=nxp_to_epoll_events events]> (ep_interest e1)) with (partial_alter (fun _ => Some (nxp_to_epoll_events events)) (so_fd s) (ep_interest e1)).
  rewrite E2. cbn [obind]. eexists _, _. split; [done |]. split; [done |]. split; [congruence |]. intros x. rewrite Hu. cbn. by rewrite Hv.
Qed.

Lemma registered_range e fd src : ep_inv e -> registered e fd = Some src -> 0 <= fd < ep_source_cap e /\ es_active src = true.
Proof.
  intros [Hl _ _]. unfold registered. destruct (Z.ltb_spec fd 0); [done |]. destruct (zget (ep_sources e) fd) as [s |] eqn:Hs; [| done].
  destruct (es_active s) eqn:Ha; [| done]. intros [= <-]. split; [| done]. destruct (Z.lt_ge_cases fd (ep_source_cap e)); [lia |].
  by rewrite zget_None in Hs by lia.
Qed.

Lemma mod_spec ctl_ok e s events : ep_inv e ->
  exists r e', epoll_mod_socket ctl_ok e (Some s) events = Done (r, e') /\ ep_inv e' /\ ep_wakeup_fd e' = ep_wakeup_fd e /\
    match r with
    | None => exists src, registered e (so_fd s) = Some src /\
        updates e e' (so_fd s) (Some (src <| es_events := events |>), Some (nxp_to_epoll_events events))
    | Some err => e' = e /\ (registered e (so_fd s) = None -> err = NXP_ERR_INVALID_ARGUMENT)
    end.
Proof.
  intros He. unfold epoll_mod_socket. rewrite active_registered by done. cbn [obind].
  destruct (registered e (so_fd s)) as [src |] eqn:Hreg; [| eexists _, _; split; [done |]; split; [done |]; split; [done |]; done].
  destruct (registered_range _ _ _ He Hreg) as [Hfd Ha]. unfold ctl_mod. destruct (negb ctl_ok || _).
  { eexists _, _. split; [done |]. split; [done |]. split; [done |]. done. }
  destruct (put_spec e (so_fd s) (src <| es_events := events |>) (Some (nxp_to_epoll_events events)) He Hfd) as (e2 & E2 & He2 & Hu & Hw2); [done |].
  change (<[so_fd s:=nxp_to_epoll_events events]> (ep_interest e)) with (partial_alter (fun _ => Some (nxp_to_epoll_events events)) (so_fd s) (ep_interest e)).
  rewrite E2. cbn [obind]. eexists _, _. split; [done |]. split; [done |]. split; [done |]. exists src. split; [done |].
  change (es_active (src <| es_events := events |>)) with (es_active src) in Hu. by rewrite Ha in Hu.
Qed.

Lemma del_spec e s : ep_inv e ->
  exists e', epoll_del_socket e (Some s) = Done e' /\ ep_inv e' /\ ep_wakeup_fd e' = ep_wakeup_fd e /\
    if registered e (so_fd s) then updates e e' (so_fd s) (None, None) else e' = e.
Proof.
  intros He. unfold epoll_del_socket. rewrite active_registered by done. cbn [obind].
  destruct (registered e (so_fd s)) as [src |] eqn:Hreg; [| by exists e].
  destruct (registered_range _ _ _ He Hreg) as [Hfd Ha].
  destruct (put_spec e (so_fd s) (src <| es_active := false |>) None He Hfd) as (e2 & E2 & He2 & Hu & Hw2); [done |].
  exists e2. split; [exact E2 |]. split; [done |]. split; [done |]. exact Hu.
Qed.

(** ** Theorems *)

Lemma closed_inv e fd : ep_inv e -> ep_inv (fd_closed e fd).
Proof. intros [Hl Hc Hi]. split; [done | done |]. intros x ev Hx. cbn in Hx. apply lookup_delete_Some in Hx as [_ Hx]. by apply Hi. Qed.

(** C22: The table of sources implements a finite map from descriptors to sources
    that agrees with the kernel: registering, changing and removing a socket changes
    the entry of its descriptor and no other, growth of the table included, and a
    failure changes nothing; every descriptor that the kernel watches is registered
    with the events asked for, also when descriptors are closed behind the back of
    the loop. *)
Theorem epoll_table_refines e s events cb ud realloc_ok ctl_ok fd : ep_inv e -> fd_ok s ->
  (exists r e', epoll_add_socket realloc_ok ctl_ok e (Some s) events cb ud = Done (r, e') /\ ep_inv e' /\
    match r with
    | None => updates e e' (so_fd s) (Some (EpollSource (Some s) cb ud events true), Some (nxp_to_epoll_events events))
    | Some err => err ∈ [NXP_ERR_OUT_OF_MEMORY; NXP_ERR_PLATFORM] /\ forall x, view e' x = view e x
    end) /\
  (exists r e', epoll_mod_socket ctl_ok e (Some s) events = Done (r, e') /\ ep_inv e' /\
    match r with
    | None => exists src, registered e (so_fd s) = Some src /\
        updates e e' (so_fd s) (Some (src <| es_events := events |>), Some (nxp_to_epoll_events events))
    | Some err => e' = e /\ (registered e (so_fd s) = None -> err = NXP_ERR_INVALID_ARGUMENT)
    end) /\
  (exists e', epoll_del_socket e (Some s) = Done e' /\ ep_inv e' /\
    if registered e (so_fd s) then updates e e' (so_fd s) (None, None) else e' = e) /\
  ep_inv (fd_closed e fd).
Proof.
  intros He Hfd. split; [| split; [| split]].
  - destruct (add_spec realloc_ok ctl_ok e s events cb ud He Hfd) as (r & e' & ? & ? & _ & ?). eauto.
  - destruct (mod_spec ctl_ok e s events He) as (r & e' & ? & ? & _ & ?). eauto.
  - destruct (del_spec e s He) as (e' & ? & ? & _ & ?). eauto.
  - by apply closed_inv.
Qed.

Lemma epoll_create_inv fd : ep_inv (epoll_create fd).
Proof.
  split; [done | split; by_compute |]. cbn. intros x ev Hx. apply lookup_singleton_Some in Hx as [<- _]. by left.
Qed.

Section Dispatch.
Context {Q E X : Type} `{TimerQueue Q E}.
Notation loop := (nxp_event_loop Q (nxp_epoll_loop * X)).
Variable on_socket : nxp_epoll_source -> Z -> loop -> outcome unit loop.
(** An invariant of the application. *)
Variable I : loop -> Prop.

Definition poll_rep (l : loop) : Prop := (exists bag, loop_rep l bag []) /\ ep_inv (el_epoll l) /\ I l.

(** Callbacks of registered sockets keep to the interface of the loop and keep the
    invariant, when they return. *)
Definition handlers_ok : Prop := forall fd src ev l, poll_rep l -> registered (el_epoll l) fd = Some src ->
  match on_socket src ev l with
  | Done l' => poll_rep l' /\ ep_wakeup_fd (el_epoll l') = ep_wakeup_fd (el_epoll l)
  | Err _ => True
  | Ub => False
  end.
Definition handlers_return : Prop := forall fd src ev l, poll_rep l -> registered (el_epoll l) fd = Some src ->
  exists l', on_socket src ev l = Done l'.

(** Callbacks that leave the sockets alone. *)
Definition handlers_quiet : Prop := forall src ev l l', on_socket src ev l = Done l' -> el_epoll l' = el_epoll l.

(** The calls for the reported descriptors. *)
Definition calls (e : nxp_epoll_loop) (events : list (Z * Z)) : list (nxp_epoll_source * Z) :=
  omap (fun '(fd, ev) => if fd =? ep_wakeup_fd e then None else (fun src => (src, epoll_to_nxp_events ev)) <$> registered e fd) events.

Lemma dispatch_spec : handlers_ok -> forall events l, poll_rep l ->
  match dispatch on_socket l events with
  | Done (tr, l') => poll_rep l' /\ (handlers_quiet -> tr = calls (el_epoll l) events)
  | Err _ => ~ handlers_return
  | Ub => False
  end.
Proof.
  intros Hh. induction events as [| [fd ev] events IH]; intros l Hl; cbn [dispatch calls omap list_omap]; [done |].
  unfold calls in IH. destruct (fd =? ep_wakeup_fd (el_epoll l)); [by apply IH |]. rewrite active_registered by apply Hl. cbn [obind].
  destruct (registered (el_epoll l) fd) as [src |] eqn:Hreg; cbn [fmap option_fmap option_map]; [| by apply IH].
  set (x := epoll_to_nxp_events ev). pose proof (Hh fd src x l Hl Hreg) as Hcall.
  destruct (on_socket src x l) as [l1 | [] |] eqn:E1; cbn [obind]; [| | done].
  - destruct Hcall as [Hl1 _]. specialize (IH l1 Hl1). destruct (dispatch on_socket l1 events) as [[tr l'] | |]; cbn [obind]; [| done | done].
    destruct IH as [Hl' Htr]. split; [done |]. intros Hq. rewrite Htr by done. by rewrite (Hq _ _ _ _ E1).
  - intros Hret. destruct (Hret fd src x l Hl Hreg) as [? ?]. congruence.
Qed.

Lemma poll_safe wait ms l : handlers_ok -> poll_rep l ->
  match epoll_poll on_socket wait ms l with
  | Done (r, tr, l') => poll_rep l' /\
      match wait (epoll_timeout ms) with
      | WaitFail => r = Some NXP_ERR_PLATFORM /\ tr = [] /\ l' = l
      | WaitInterrupted => r = None /\ tr = [] /\ l' = l
      | WaitReady events => r = None /\ (handlers_quiet -> tr = calls (el_epoll l) events)
      end
  | Err _ => ~ handlers_return
  | Ub => False
  end.
Proof.
  intros Hh Hl. unfold epoll_poll. destruct (wait (epoll_timeout ms)) as [| | events]; [done | done |].
  pose proof (dispatch_spec Hh events l Hl) as Hd. destruct (dispatch on_socket l events) as [[tr l'] | |]; cbn [obind]; [| done | done].
  by destruct Hd.
Qed.

(** C23: Polling never leaves the table and calls only registered callbacks, whatever
    descriptors the kernel reports, keeps the invariants of timers and table, whatever
    the callbacks do within the interface, and returns when they do.  When the
    callbacks leave the sockets alone, the calls are exactly one for each reported
    descriptor that is registered, in order, with its own socket, callback, user data
    and events; the wakeup descriptor is never dispatched. *)
Theorem epoll_poll_exact wait ms l : handlers_ok -> handlers_return -> poll_rep l ->
  exists r tr l', epoll_poll on_socket wait ms l = Done (r, tr, l') /\ poll_rep l' /\
    match wait (epoll_timeout ms) with
    | WaitFail => r = Some NXP_ERR_PLATFORM /\ tr = [] /\ l' = l
    | WaitInterrupted => r = None /\ tr = [] /\ l' = l
    | WaitReady events => r = None /\ (handlers_quiet -> tr = calls (el_epoll l) events)
    end.
Proof.
  intros Hh Hret Hl. pose proof (poll_safe wait ms l Hh Hl) as Hp.
  destruct (epoll_poll on_socket wait ms l) as [[[r tr] l'] | |]; [| done | done]. destruct Hp. by exists r, tr, l'.
Qed.

End Dispatch.

(** The timeout is handed on exactly below 2^31 milliseconds; for a timer further
    away the loop blocks without limit, or not at all. *)
Lemma epoll_timeout_exact ms : -1 <= ms < 2 ^ 31 -> epoll_timeout ms = ms.
Proof. intros Hms. unfold epoll_timeout. destruct (Z.ltb_spec ms 0); [lia |]. rewrite u32_small by lia. by rewrite (proj2 (Z.ltb_lt _ _)) by lia. Qed.
Lemma epoll_timeout_wraps ms : 2 ^ 31 <= ms < 2 ^ 32 -> epoll_timeout ms < 0.
Proof. intros Hms. unfold epoll_timeout. destruct (Z.ltb_spec ms 0); [lia |]. rewrite u32_small by lia. rewrite (proj2 (Z.ltb_ge _ _)) by lia. lia. Qed.

(** ** Creation and destruction as resources *)

(** The calls of [nxp_event_loop_create]; the timer queue's own allocations are not
    among them. *)
Inductive create_call : Type := CcLoop | CcEpoll | CcEventfd | CcCtl | CcSources.

Record loop_handles := LoopHandles {
  lh_loop : Z;
  lh_epoll_fd : Z;
  lh_wakeup_fd : Z;
  lh_sources : Z
}.

(** The label [fail]. *)
Definition create_fail (eloop : Z) (epoll_fd wakeup_fd sources : option Z) : io (option loop_handles) :=
  _ ← release_opt wakeup_fd; _ ← release_opt epoll_fd; _ ← release_opt sources; _ ← release eloop; mret None.

Definition nxp_event_loop_create (ok : create_call -> bool) : io (option loop_handles) :=
  eloop ← acquire (ok CcLoop);
  match eloop with
  | None => mret None
  | Some eloop =>
      epoll_fd ← acquire (ok CcEpoll);
      match epoll_fd with
      | None => create_fail eloop None None None
      | Some epoll_fd =>
          wakeup_fd ← acquire (ok CcEventfd);
          match wakeup_fd with
          | None => create_fail eloop (Some epoll_fd) None None
          | Some wakeup_fd =>
              if negb (ok CcCtl) then create_fail eloop (Some epoll_fd) (Some wakeup_fd) None else
              sources ← acquire (ok CcSources);
              match sources with
              | None => create_fail eloop (Some epoll_fd) (Some wakeup_fd) None
              | Some sources => mret (Some (LoopHandles eloop epoll_fd wakeup_fd sources))
              end
          end
      end
  end.

Definition epoll_destroy (h : loop_handles) : io unit :=
  _ ← release (lh_wakeup_fd h); _ ← release (lh_epoll_fd h); _ ← release (lh_sources h); release (lh_loop h).

Definition handle_tokens (h : loop_handles) : list Z := [lh_wakeup_fd h; lh_epoll_fd h; lh_sources h; lh_loop h].

(** Creating a loop gives back everything when a call fails, and destroying a loop
    gives back exactly what creating it took. *)
Lemma loop_create_no_leak ok : acquires (option_tokens handle_tokens) (nxp_event_loop_create ok).
Proof. intros s held Hs Hh. unfold nxp_event_loop_create, create_fail. io_run. Qed.

Lemma loop_destroy_all h s rest : os_ok s -> os_held s ≡ₚ handle_tokens h ++ rest ->
  wp (epoll_destroy h) (fun _ s' => os_ok s' /\ os_held s' ≡ₚ rest) s.
Proof. intros Hs Hp. destruct h as [a b c d]. unfold epoll_destroy. cbn [handle_tokens app] in Hp. cbn [lh_wakeup_fd lh_epoll_fd lh_sources lh_loop] in *. io_run. Qed.

(** ** A loop that watches one socket *)

Definition sample_socket : nxp_socket := Socket 1 70 SockOther.

Lemma epoll_table_refines_witness : exists e', epoll_add_socket true true (epoll_create 5) (Some sample_socket) NXP_EVENT_READ 7 8 = Done (None, e') /\
  registered e' 70 = Some (EpollSource (Some sample_socket) 7 8 NXP_EVENT_READ true) /\ ep_source_cap e' = 128.
Proof.
  destruct (epoll_table_refines (epoll_create 5) sample_socket NXP_EVENT_READ 7 8 true true 0 (epoll_create_inv 5)) as [(r & e' & E & _ & Hr) _]; [split; by_compute |].
  assert (r = None /\ ep_source_cap e' = 128) as [-> Hcap].
  { revert E. destruct (epoll_add_socket true true (epoll_create 5) (Some sample_socket) NXP_EVENT_READ 7 8) as [[r0 e0] | |] eqn:E0; vm_compute in E0; [| done | done].
    intros [= <- <-]. injection E0 as <- <-. done. }
  exists e'. split; [exact E |]. split; [| exact Hcap]. specialize (Hr 70). change (so_fd sample_socket) with 70 in Hr.
  rewrite decide_True in Hr by done. by injection Hr.
Defined.

(** The loop that watches [sample_socket]. *)
Definition sample_epoll : nxp_epoll_loop :=
  match epoll_add_socket true true (epoll_create 5) (Some sample_socket) NXP_EVENT_READ 7 8 with Done (_, e) => e | _ => epoll_create 5 end.
Definition sample_epoll_loop : nxp_event_loop (nxp_priority_queue Z) (nxp_epoll_loop * unit) :=
  Loop (PQ (replicate 16 (PqEntry 0 0)) 0 16) true ∅ (sample_epoll, tt).

Lemma sample_epoll_inv : ep_inv sample_epoll.
Proof.
  destruct (add_spec true true (epoll_create 5) sample_socket NXP_EVENT_READ 7 8 (epoll_create_inv 5)) as (r & e' & E' & He' & _); [split; by_compute |].
  unfold sample_epoll. by rewrite E'.
Qed.

Lemma sample_epoll_rep : poll_rep (fun _ => True) sample_epoll_loop.
Proof.
  split; [exists [] | split; [apply sample_epoll_inv | done]]. split.
  - split; [split; by_compute | by_compute | | done]. intros j Hj. cbn in Hj. lia.
  - by apply list.NoDup_nil.
  - intros d t Hin. by apply not_elem_of_nil in Hin.
  - intros t Hin. by apply not_elem_of_nil in Hin.
  - intros t Ht. cbn in Ht. rewrite lookup_empty in Ht. by destruct Ht.
Qed.

Lemma epoll_poll_exact_witness : exists l',
  epoll_poll (fun _ _ l => Done l) (fun _ => WaitReady [(5, EPOLLIN); (9, EPOLLIN); (70, EPOLLIN)]) 10 sample_epoll_loop =
  Done (None, [(EpollSource (Some sample_socket) 7 8 NXP_EVENT_READ true, NXP_EVENT_READ)], l').
Proof.
  destruct (epoll_poll_exact (fun _ _ l => Done l) (fun _ => True) (fun _ => WaitReady [(5, EPOLLIN); (9, EPOLLIN); (70, EPOLLIN)]) 10 sample_epoll_loop)
    as (r & tr & l' & E & _ & -> & Htr).
  - intros fd src ev l Hl _. by split.
  - intros fd src ev l _ _. by eexists.
  - apply sample_epoll_rep.
  - exists l'. rewrite E. rewrite Htr; [by_compute |]. by intros src ev l l2 [= ->].
Defined.
