(* ===== verification/ApiObjects.v ===== *)
(** * Objects of the public API (src/src/api/nxp_api.c, api_internal.h)

    The wrappers of connections, listeners and streams on heaps of addresses, the
    doubly linked lists that connections and listeners are kept in, and the
    notification of streams with new data.  Callbacks of the application are
    recorded, not run.  A null pointer is [None]; following a pointer to a freed
    wrapper is undefined behaviour. *)

From stdpp Require Import gmap.
From S2P Require Import Prelude Types Stream Connection.

(** ** Doubly linked lists that end in null pointers *)

Class Linked (V : Type) := {
  lk_next : V -> option Z;
  lk_prev : V -> option Z;
  lk_set : option Z -> option Z -> V -> V;
  lk_next_set n p v : lk_next (lk_set n p v) = n;
  lk_prev_set n p v : lk_prev (lk_set n p v) = p;
  lk_set_set n p n' p' v : lk_set n p (lk_set n' p' v) = lk_set n p v;
  lk_set_id v : lk_set (lk_next v) (lk_prev v) v = v
}.

Section Lists.
Context {V : Type} `{Linked V}.
Implicit Types (heap : gmap Z V) (l : list Z).

Definition upd heap (p : Z) (f : V -> V) : outcome unit (gmap Z V) :=
  match heap !! p with
  | None => Ub
  | Some v => Done (<[p := f v]> heap)
  end.
(** [if (q != nullptr) q->... = ...;] *)
Definition upd_opt heap (q : option Z) (f : V -> V) : outcome unit (gmap Z V) :=
  match q with None => Done heap | Some q => upd heap q f end.

Definition set_next (n : option Z) (v : V) : V := lk_set n (lk_prev v) v.
Definition set_prev (p : option Z) (v : V) : V := lk_set (lk_next v) p v.

Definition dl_link heap (head : option Z) (p : Z) : outcome unit (gmap Z V * option Z) :=
  let! heap := upd heap p (lk_set head None) in
  let! heap := upd_opt heap head (set_prev (Some p)) in
  Done (heap, Some p).

Definition dl_unlink heap (head : option Z) (p : Z) : outcome unit (gmap Z V * option Z) :=
  match heap !! p with
  | None => Ub
  | Some v =>
      let! heap := upd_opt heap (lk_prev v) (set_next (lk_next v)) in
      let head := match lk_prev v with Some _ => head | None => lk_next v end in
      let! heap := upd_opt heap (lk_next v) (set_prev (lk_prev v)) in
      let! heap := upd heap p (lk_set None None) in
      Done (heap, head)
  end.

(** The nodes from [head] to [nxt] are [l]; the first one points back to [prev]. *)
Fixpoint dl_seg heap (prev head : option Z) l (nxt : option Z) : Prop :=
  match l with
  | [] => head = nxt
  | p :: l => head = Some p /\ exists v, heap !! p = Some v /\ lk_prev v = prev /\ dl_seg heap (Some p) (lk_next v) l nxt
  end.
Definition dl_rep heap (head : option Z) l : Prop := dl_seg heap None head l None /\ NoDup l.

(** The same nodes with the same data. *)
Definition data (v : V) : V := lk_set None None v.
Definition same_data heap heap' : Prop := forall x, data <$> heap !! x = data <$> heap' !! x.

Lemma data_set n p v : data (lk_set n p v) = data v.
Proof. unfold data. by rewrite lk_set_set. Qed.
Lemma same_data_upd heap p v n q : heap !! p = Some v -> same_data heap (<[p := lk_set n q v]> heap).
Proof.
  intros Hp x. destruct (decide (x = p)) as [-> | Hx]; [| by rewrite lookup_insert_ne].
  rewrite lookup_insert_eq, Hp. cbn. by rewrite data_set.
Qed.
Lemma same_data_trans h1 h2 h3 : same_data h1 h2 -> same_data h2 h3 -> same_data h1 h3.
Proof. intros H1 H2 x. by rewrite H1. Qed.
Lemma same_data_some heap heap' x : same_data heap heap' -> is_Some (heap !! x) <-> is_Some (heap' !! x).
Proof. intros Hs. specialize (Hs x). destruct (heap !! x), (heap' !! x); cbn in Hs; try done; split; eauto. Qed.

Lemma dl_seg_frame heap heap' prev head l nxt : dl_seg heap prev head l nxt -> (forall x, x ∈ l -> heap' !! x = heap !! x) -> dl_seg heap' prev head l nxt.
Proof.
  revert prev head. induction l as [| p l IH]; intros prev head Hs Hf; [done |]. destruct Hs as (-> & v & Hp & Hv & Hs).
  split; [done |]. exists v. rewrite Hf by by left. split; [done |]. split; [done |]. apply IH; [done |]. intros x Hx. apply Hf. by right.
Qed.

(** A new first node. *)
Lemma dl_link_spec heap head l p : dl_rep heap head l -> is_Some (heap !! p) -> p ∉ l ->
  exists heap', dl_link heap head p = Done (heap', Some p) /\ dl_rep heap' (Some p) (p :: l) /\ same_data heap heap'.
Proof.
  intros [Hs Hn] [v Hp] Hl. unfold dl_link, upd. rewrite Hp. cbn [obind]. set (h1 := <[p := lk_set head None v]> heap).
  assert (same_data heap h1) as Hd1 by by apply same_data_upd. destruct l as [| q l]; cbn [dl_seg] in Hs.
  - subst head. cbn [upd_opt obind]. exists h1. split; [done |]. split; [| done]. split; [| by apply list.NoDup_singleton].
    split; [done |]. exists (lk_set None None v). unfold h1. rewrite lookup_insert_eq, lk_prev_set, lk_next_set. done.
  - destruct Hs as (-> & w & Hq & Hw & Hs). apply not_elem_of_cons in Hl as [Hpq Hl]. apply list.NoDup_cons in Hn as [Hql Hn].
    cbn [upd_opt]. unfold upd. assert (h1 !! q = Some w) as Hq1 by (unfold h1; by rewrite lookup_insert_ne). rewrite Hq1. cbn [obind].
    exists (<[q := set_prev (Some p) w]> h1). split; [done |]. split; [| eapply same_data_trans; [exact Hd1 | by apply same_data_upd]].
    split; [| apply list.NoDup_cons; split; [by apply not_elem_of_cons | by apply list.NoDup_cons]].
    split; [done |]. exists (lk_set (Some q) None v). rewrite lookup_insert_ne by done. unfold h1 at 1. rewrite lookup_insert_eq, lk_prev_set, lk_next_set.
    split; [done |]. split; [done |]. split; [done |]. exists (set_prev (Some p) w). rewrite lookup_insert_eq. unfold set_prev.
    rewrite lk_prev_set, lk_next_set. split; [done |]. split; [done |]. eapply dl_seg_frame; [exact Hs |]. intros x Hx. unfold h1.
    rewrite !lookup_insert_ne; [done | by intros -> | by intros ->].
Qed.

Fixpoint last_or (prev : option Z) l : option Z := match l with [] => prev | p :: l => last_or (Some p) l end.

Lemma last_or_snoc prev l q : last_or prev (l ++ [q]) = Some q.
Proof. revert prev. induction l as [| p l IH]; intros prev; [done | apply IH]. Qed.

Lemma dl_seg_app heap prev head l1 l2 nxt : dl_seg heap prev head (l1 ++ l2) nxt <->
  exists mid, dl_seg heap prev head l1 mid /\ dl_seg heap (last_or prev l1) mid l2 nxt.
Proof.
  revert prev head. induction l1 as [| p l1 IH]; intros prev head; cbn [app dl_seg last_or].
  - split; [intros Hs; by exists head | by intros (mid & -> & ?)].
  - setoid_rewrite IH. split.
    + intros (-> & v & Hp & Hv & mid & H1 & H2). exists mid. split; [| done]. split; [done |]. by exists v.
    + intros (mid & (-> & v & Hp & Hv & H1) & H2). split; [done |]. exists v. split; [done |]. split; [done |]. by exists mid.
Qed.

(** Redirecting the last node, and the first one. *)
Lemma dl_seg_set_next heap prev head l q v mid n : dl_seg heap prev head (l ++ [q]) mid -> q ∉ l -> heap !! q = Some v ->
  dl_seg (<[q := set_next n v]> heap) prev head (l ++ [q]) n.
Proof.
  intros Hs Hq Hv. apply dl_seg_app in Hs as (x & H1 & -> & w & Hw & Hprev & _). rewrite Hv in Hw. injection Hw as <-.
  apply dl_seg_app. exists (Some q). split.
  - eapply dl_seg_frame; [exact H1 |]. intros y Hy. apply lookup_insert_ne. by intros ->.
  - split; [done |]. exists (set_next n v). rewrite lookup_insert_eq. unfold set_next. rewrite lk_prev_set, lk_next_set. done.
Qed.

Lemma dl_seg_set_prev heap prev head r l v nxt p : dl_seg heap prev head (r :: l) nxt -> r ∉ l -> heap !! r = Some v ->
  dl_seg (<[r := set_prev p v]> heap) p head (r :: l) nxt.
Proof.
  intros (-> & w & Hw & _ & Hs) Hr Hv. rewrite Hv in Hw. injection Hw as <-. split; [done |]. exists (set_prev p v).
  rewrite lookup_insert_eq. unfold set_prev. rewrite lk_prev_set, lk_next_set. split; [done |]. split; [done |].
  eapply dl_seg_frame; [exact Hs |]. intros y Hy. apply lookup_insert_ne. by intros ->.
Qed.

(** The predecessor, or the head, is redirected. *)
Lemma unlink_before heap head l1 p v : dl_seg heap None head l1 (Some p) -> NoDup l1 -> lk_prev v = last_or None l1 ->
  exists heap' head', (let! heap := upd_opt heap (lk_prev v) (set_next (lk_next v)) in
                       Done (heap, match lk_prev v with Some _ => head | None => lk_next v end)) = Done (heap', head') /\
    dl_seg heap' None head' l1 (lk_next v) /\ same_data heap heap' /\ forall x, x ∉ l1 -> heap' !! x = heap !! x.
Proof.
  intros Hs Hn ->. destruct l1 as [| q l1 _] using rev_ind.
  { cbn [last_or upd_opt obind]. exists heap, (lk_next v). split; [done |]. split; [done |]. split; [by intros x | done]. }
  rewrite last_or_snoc. cbn [upd_opt]. pose proof Hs as Hs'. apply dl_seg_app in Hs' as (x & _ & _ & w & Hw & _). unfold upd. rewrite Hw. cbn [obind].
  eexists _, head. split; [done |]. apply list.NoDup_app in Hn as (Hn & Hd & _). split; [| split].
  - eapply dl_seg_set_next; [exact Hs | | done]. intros Hq. apply (Hd q Hq). by left.
  - by apply same_data_upd.
  - intros x' Hx. apply lookup_insert_ne. intros ->. apply Hx, elem_of_app. right. by left.
Qed.

Lemma unlink_after heap mid l2 prev p : dl_seg heap (Some p) mid l2 None -> NoDup l2 ->
  exists heap', upd_opt heap mid (set_prev prev) = Done heap' /\ dl_seg heap' prev mid l2 None /\ same_data heap heap' /\
    forall x, x ∉ l2 -> heap' !! x = heap !! x.
Proof.
  intros Hs Hn. destruct l2 as [| r l2].
  { cbn in Hs. subst mid. exists heap. split; [done |]. split; [done |]. split; [by intros x | done]. }
  pose proof Hs as (-> & w & Hw & _ & _). cbn [upd_opt]. unfold upd. rewrite Hw. eexists. split; [done |]. apply list.NoDup_cons in Hn as [Hr Hn].
  split; [by eapply dl_seg_set_prev |]. split; [by apply same_data_upd |]. intros x Hx. apply lookup_insert_ne. intros ->. apply Hx. by left.
Qed.

(** A node leaves, wherever it is. *)
Lemma dl_unlink_spec heap head l1 p l2 : dl_rep heap head (l1 ++ p :: l2) ->
  exists heap' head', dl_unlink heap head p = Done (heap', head') /\ dl_rep heap' head' (l1 ++ l2) /\ same_data heap heap'.
Proof.
  intros [Hs Hn]. apply dl_seg_app in Hs as (mid & H1 & -> & v & Hp & Hprev & H2).
  apply list.NoDup_app in Hn as (Hn1 & Hd & Hn2). apply list.NoDup_cons in Hn2 as [Hp2 Hn2].
  assert (p ∉ l1) as Hp1 by (intros Hx; apply (Hd p Hx); by left).
  assert (forall x, x ∈ l2 -> x ∉ l1) as H21 by (intros x Hx Hx1; apply (Hd x Hx1); by right).
  unfold dl_unlink. rewrite Hp. destruct (unlink_before heap head l1 p v H1 Hn1 Hprev) as (h1 & head' & E1 & Hs1 & Hd1 & Hf1).
  revert E1. destruct (upd_opt heap (lk_prev v) _) as [h1' | |]; cbn [obind]; [| done | done]. intros [= -> Hhead].
  destruct (unlink_after h1 (lk_next v) l2 (lk_prev v) p) as (h2 & -> & Hs2 & Hd2 & Hf2);
    [eapply dl_seg_frame; [exact H2 |]; intros x Hx; apply Hf1; by apply H21 | done |]. cbn [obind].
  assert (h2 !! p = Some v) as Hp' by (rewrite Hf2, Hf1 by done; done). unfold upd. rewrite Hp'. cbn [obind]. rewrite Hhead.
  eexists _, head'. split; [done |]. split.
  - split; [| apply list.NoDup_app; split; [done |]; split; [intros x Hx Hx2; by apply (H21 x) | done]].
    apply dl_seg_app. exists (lk_next v). rewrite <- Hprev. split.
    + eapply dl_seg_frame; [exact Hs1 |]. intros x Hx. rewrite lookup_insert_ne by by intros ->. apply Hf2. intros Hx2. by apply (H21 x).
    + eapply dl_seg_frame; [exact Hs2 |]. intros x Hx. rewrite lookup_insert_ne; [done |]. by intros ->.
  - eapply same_data_trans; [exact Hd1 |]. eapply same_data_trans; [exact Hd2 |]. by apply same_data_upd.
Qed.

(** Walking the list with a test; [fuel] bounds the nodes visited. *)
Fixpoint dl_find (fuel : nat) heap (test : V -> bool) (p : option Z) : outcome unit (option Z) :=
  match fuel with
  | O => Err tt
  | S fuel =>
      match p with
      | None => Done None
      | Some q =>
          match heap !! q with
          | None => Ub
          | Some v => if test v then Done (Some q) else dl_find fuel heap test (lk_next v)
          end
      end
  end.

(** The first node of the list that passes. *)
Fixpoint first_of heap (test : V -> bool) l : option Z :=
  match l with
  | [] => None
  | p :: l => match heap !! p with Some v => if test v then Some p else first_of heap test l | None => None end
  end.

Lemma dl_find_spec heap test : forall l prev head fuel, dl_seg heap prev head l None -> (length l < fuel)%nat ->
  dl_find fuel heap test head = Done (first_of heap test l).
Proof.
  induction l as [| p l IH]; intros prev head fuel Hs Hf; (destruct fuel as [| fuel]; [lia |]); cbn [dl_find dl_seg first_of] in *.
  - by subst head.
  - destruct Hs as (-> & v & Hp & _ & Hs). rewrite Hp. destruct (test v); [done |]. eapply IH; [exact Hs | cbn in Hf; lia].
Qed.

End Lists.

(** ** Wrappers *)

(** Callbacks and user data are names of code and data of the application. *)
Record nxp_api_conn := ApiConn {
  ac_conn : Z;
  ac_transport : Z;
  ac_timer : option Z;
  ac_owns_transport : bool;
  ac_on_connected : option Z;
  ac_on_closed : option Z;
  ac_cb_user_data : Z;
  ac_prev_state : nxp_conn_state;
  ac_app_user_data : Z;
  ac_stream_accept_cb : option Z;
  ac_stream_accept_ud : Z;
  ac_streams : option Z;
  ac_parent_listener : option Z;
  ac_next : option Z;
  ac_prev : option Z
}.
#[export] Instance eta_api_conn : Eta nxp_api_conn := fun a =>
  ApiConn (ac_conn a) (ac_transport a) (ac_timer a) (ac_owns_transport a) (ac_on_connected a) (ac_on_closed a)
    (ac_cb_user_data a) (ac_prev_state a) (ac_app_user_data a) (ac_stream_accept_cb a) (ac_stream_accept_ud a)
    (ac_streams a) (ac_parent_listener a) (ac_next a) (ac_prev a).

Record nxp_listener := ApiListener {
  ln_ls : Z;
  ln_transport : Z;
  ln_transport_ln : Z;
  ln_timer : option Z;
  ln_on_new_conn : option Z;
  ln_user_data : Z;
  ln_next : option Z;
  ln_prev : option Z
}.
#[export] Instance eta_api_listener : Eta nxp_listener := fun l =>
  ApiListener (ln_ls l) (ln_transport l) (ln_transport_ln l) (ln_timer l) (ln_on_new_conn l) (ln_user_data l) (ln_next l) (ln_prev l).

Record nxp_stream := ApiStream {
  st_id : Z;
  st_conn : Z;
  st_api_conn : option Z;
  st_on_data : option Z;
  st_on_writable : option Z;
  st_on_close : option Z;
  st_user_data : Z;
  st_last_dispatched : Z;
  st_fin_notified : bool;
  st_next : option Z
}.
#[export] Instance eta_api_stream : Eta nxp_stream := fun s =>
  ApiStream (st_id s) (st_conn s) (st_api_conn s) (st_on_data s) (st_on_writable s) (st_on_close s) (st_user_data s)
    (st_last_dispatched s) (st_fin_notified s) (st_next s).

#[export, refine] Instance api_conn_linked : Linked nxp_api_conn := {|
  lk_next := ac_next; lk_prev := ac_prev; lk_set n p a := a <| ac_next := n |> <| ac_prev := p |>
|}.
Proof. all: by intros; cbn; try destruct v. Defined.
#[export, refine] Instance listener_linked : Linked nxp_listener := {|
  lk_next := ln_next; lk_prev := ln_prev; lk_set n p l := l <| ln_next := n |> <| ln_prev := p |>
|}.
Proof. all: by intros; cbn; try destruct v. Defined.

(** [g_nxp] with the heaps of wrappers. *)
Record nxp_global := Global {
  g_conns : option Z;
  g_listeners : option Z;
  g_api_conns : gmap Z nxp_api_conn;
  g_api_listeners : gmap Z nxp_listener;
  g_streams : gmap Z nxp_stream
}.
#[export] Instance eta_global : Eta nxp_global := fun g =>
  Global (g_conns g) (g_listeners g) (g_api_conns g) (g_api_listeners g) (g_streams g).

Definition api_conn_link (g : nxp_global) (ac : Z) : outcome unit nxp_global :=
  let! (h, head) := dl_link (g_api_conns g) (g_conns g) ac in
  Done (g <| g_api_conns := h |> <| g_conns := head |>).
Definition api_conn_unlink (g : nxp_global) (ac : Z) : outcome unit nxp_global :=
  let! (h, head) := dl_unlink (g_api_conns g) (g_conns g) ac in
  Done (g <| g_api_conns := h |> <| g_conns := head |>).
Definition listener_link (g : nxp_global) (ln : Z) : outcome unit nxp_global :=
  let! (h, head) := dl_link (g_api_listeners g) (g_listeners g) ln in
  Done (g <| g_api_listeners := h |> <| g_listeners := head |>).
Definition listener_unlink (g : nxp_global) (ln : Z) : outcome unit nxp_global :=
  let! (h, head) := dl_unlink (g_api_listeners g) (g_listeners g) ln in
  Done (g <| g_api_listeners := h |> <| g_listeners := head |>).

(** Every wrapper is visited at most once. *)
Definition nxp_api_find_conn (g : nxp_global) (conn : Z) : outcome unit (option Z) :=
  dl_find (S (size (g_api_conns g))) (g_api_conns g) (fun ac => ac_conn ac =? conn) (g_conns g).

(** The wrappers in the list, newest first, and all are in it. *)
Definition conns_rep (g : nxp_global) (l : list Z) : Prop :=
  dl_rep (g_api_conns g) (g_conns g) l /\ forall x, is_Some (g_api_conns g !! x) -> x ∈ l.

Lemma dl_seg_some {V} `{Linked V} (heap : gmap Z V) l : forall prev head nxt x, dl_seg heap prev head l nxt -> x ∈ l -> is_Some (heap !! x).
Proof.
  induction l as [| p l IH]; intros prev head nxt x Hs Hx; [by apply not_elem_of_nil in Hx |]. destruct Hs as (_ & v & Hp & _ & Hs).
  apply elem_of_cons in Hx as [-> | Hx]; [by exists v | by eapply IH].
Qed.

Lemma rep_size {V} `{Linked V} (heap : gmap Z V) head l : dl_rep heap head l -> (length l <= size heap)%nat.
Proof.
  intros [Hs Hn]. rewrite <- size_dom, <- (size_list_to_set (C := gset Z) l) by done. apply subseteq_size.
  intros x Hx. apply elem_of_list_to_set in Hx. apply elem_of_dom. by eapply dl_seg_some.
Qed.

Lemma find_conn_spec g l conn : conns_rep g l -> nxp_api_find_conn g conn = Done (first_of (g_api_conns g) (fun ac => ac_conn ac =? conn) l).
Proof. intros [Hr _]. unfold nxp_api_find_conn. eapply dl_find_spec; [apply Hr |]. pose proof (rep_size _ _ _ Hr). lia. Qed.

Lemma first_of_some {V} (heap : gmap Z V) test l p : first_of heap test l = Some p -> exists v, heap !! p = Some v /\ test v = true.
Proof.
  induction l as [| q l IH]; cbn [first_of]; [done |]. destruct (heap !! q) as [v |] eqn:Hq; [| done]. destruct (test v) eqn:Ht; [| done].
  intros [= <-]. by exists v.
Qed.

(** Linking a new wrapper. *)
Lemma conn_link_spec g l ac v : conns_rep g l -> g_api_conns g !! ac = None ->
  exists g', api_conn_link (g <| g_api_conns := <[ac := v]> (g_api_conns g) |>) ac = Done g' /\
    conns_rep g' (ac :: l) /\ same_data (<[ac := v]> (g_api_conns g)) (g_api_conns g') /\ g_streams g' = g_streams g.
Proof.
  intros [Hr Hall] Hac. unfold api_conn_link.
  assert (ac ∉ l) as Hl by (intros Hx; destruct (dl_seg_some _ _ _ _ _ _ (proj1 Hr) Hx); congruence).
  set (h := <[ac := v]> (g_api_conns g)).
  assert (dl_rep h (g_conns g) l) as Hr'.
  { destruct Hr as [Hs Hn]. split; [| done]. eapply dl_seg_frame; [exact Hs |]. intros x Hx. apply lookup_insert_ne. by intros ->. }
  destruct (dl_link_spec h (g_conns g) l ac Hr') as (h' & E & Hr2 & Hd); [unfold h; rewrite lookup_insert_eq; by eexists | done |].
  change (g_api_conns (g <| g_api_conns := h |>)) with h. change (g_conns (g <| g_api_conns := h |>)) with (g_conns g).
  rewrite E. cbn [obind]. eexists. split; [done |]. split; [| by split]. split; [done |].
  intros x Hx. cbn in Hx. apply (same_data_some h h' x Hd) in Hx. destruct (decide (x = ac)) as [-> | Hne]; [by left |]. right.
  apply Hall. unfold h in Hx. by rewrite lookup_insert_ne in Hx.
Qed.

(** The lists of wrappers are exact: linking puts a wrapper in front, unlinking
    removes it from wherever it is and leaves its data, and looking up a connection
    visits the wrappers from the newest on and returns the first one for it; no
    freed wrapper is followed. *)
Theorem api_conn_list_exact g l : conns_rep g l ->
  (forall ac v, g_api_conns g !! ac = None -> exists g', api_conn_link (g <| g_api_conns := <[ac := v]> (g_api_conns g) |>) ac = Done g' /\
     conns_rep g' (ac :: l) /\ forall x, x <> ac -> data <$> g_api_conns g' !! x = data <$> g_api_conns g !! x) /\
  (forall l1 ac l2, l = l1 ++ ac :: l2 -> exists g', api_conn_unlink g ac = Done g' /\
     dl_rep (g_api_conns g') (g_conns g') (l1 ++ l2) /\ same_data (g_api_conns g) (g_api_conns g')) /\
  (forall conn, nxp_api_find_conn g conn = Done (first_of (g_api_conns g) (fun ac => ac_conn ac =? conn) l)).
Proof.
  intros [Hr Hall]. split; [| split].
  - intros ac v Hac. destruct (conn_link_spec g l ac v (conj Hr Hall) Hac) as (g' & Hg & Hrep & Hd & _). exists g'. split; [done |]. split; [done |].
    intros x Hx. rewrite <- (Hd x). by rewrite lookup_insert_ne.
  - intros l1 ac l2 ->. unfold api_conn_unlink. destruct (dl_unlink_spec _ _ _ _ _ Hr) as (h' & head' & -> & Hr' & Hd). cbn [obind].
    eexists. split; [done |]. by split.
  - intros conn. by apply find_conn_spec.
Qed.

(** ** Streams of a connection *)

(** [has_new_data || has_new_fin], for a stream with a callback that the engine knows. *)
Definition has_news (c : nxp_conn) (s : nxp_stream) : option nxp_stream_s :=
  match st_on_data s with
  | None => None
  | Some _ =>
      match cn_streams c !! st_id s with
      | None => None
      | Some inner =>
          let has_new_data := recv_offset (recv inner) >? st_last_dispatched s in
          let has_new_fin := fin_received (recv inner) && negb (st_fin_notified s) in
          if has_new_data || has_new_fin then Some inner else None
      end
  end.

Definition notified (inner : nxp_stream_s) (s : nxp_stream) : nxp_stream :=
  s <| st_last_dispatched := recv_offset (recv inner) |>
    <| st_fin_notified := if fin_received (recv inner) then true else st_fin_notified s |>.

(** The streams whose [on_data] is called; every wrapper is visited at most once. *)
Fixpoint dispatch_loop (fuel : nat) (c : nxp_conn) (h : gmap Z nxp_stream) (s : option Z) : outcome unit (list Z * gmap Z nxp_stream) :=
  match fuel with
  | O => Err tt
  | S fuel =>
      match s with
      | None => Done ([], h)
      | Some p =>
          match h !! p with
          | None => Ub
          | Some st =>
              match has_news c st with
              | None => dispatch_loop fuel c h (st_next st)
              | Some inner =>
                  let! (tr, h) := dispatch_loop fuel c (<[p := notified inner st]> h) (st_next st) in
                  Done (p :: tr, h)
              end
          end
      end
  end.

Definition dispatch_stream_data (c : nxp_conn) (g : nxp_global) (ac : nxp_api_conn) : outcome unit (list Z * nxp_global) :=
  let! (tr, h) := dispatch_loop (S (size (g_streams g))) c (g_streams g) (ac_streams ac) in
  Done (tr, g <| g_streams := h |>).

(** A new wrapper at address [p], first in the list of its connection. *)
Definition track_stream (g : nxp_global) (p : Z) (s : nxp_stream) (ac : option Z) : outcome unit nxp_global :=
  match ac with
  | None => Done (g <| g_streams := <[p := s <| st_api_conn := None |>]> (g_streams g) |>)
  | Some a =>
      match g_api_conns g !! a with
      | None => Ub
      | Some v =>
          Done (g <| g_streams := <[p := s <| st_api_conn := Some a |> <| st_next := ac_streams v |>]> (g_streams g) |>
                  <| g_api_conns := <[a := v <| ac_streams := Some p |>]> (g_api_conns g) |>)
      end
  end.

(** [mem] is what [calloc] returns; the second component is the stream handed to the
    application. *)
Definition on_new_remote_stream (mem : option Z) (g : nxp_global) (conn stream_id : Z) (ud : option Z)
  : outcome unit (nxp_global * option Z) :=
  match ud with
  | None => Done (g, None)
  | Some a =>
      match g_api_conns g !! a with
      | None => Ub
      | Some v =>
          match ac_stream_accept_cb v, mem with
          | None, _ | _, None => Done (g, None)
          | Some _, Some p =>
              let! g := track_stream g p (ApiStream stream_id conn None None None None 0 0 false None) (Some a) in
              Done (g, Some p)
          end
      end
  end.

(** [free(stream)] at the end of [nxp_stream_close]. *)
Definition free_stream (g : nxp_global) (p : Z) : outcome unit nxp_global :=
  match g_streams g !! p with
  | None => Ub
  | Some _ => Done (g <| g_streams := delete p (g_streams g) |>)
  end.

Definition nxp_stream_get_state (c : nxp_conn) (s : nxp_stream) : nxp_stream_state :=
  match cn_streams c !! st_id s with None => NXP_STREAM_CLOSED | Some inner => s_state inner end.

Definition nxp_stream_writable (c : nxp_conn) (s : nxp_stream) : Z :=
  match cn_streams c !! st_id s with
  | None => 0
  | Some inner =>
      let used := u64 (write_offset (send inner) - acked_offset (send inner)) in
      if used >=? sb_cap (send inner) then 0 else sb_cap (send inner) - used
  end.

Definition nxp_stream_readable (c : nxp_conn) (s : nxp_stream) : Z :=
  match cn_streams c !! st_id s with
  | None => 0
  | Some inner =>
      if recv_offset (recv inner) <=? read_offset (recv inner) then 0
      else u64 (recv_offset (recv inner) - read_offset (recv inner))
  end.

(** The wrappers from [s] on are [l]. *)
Fixpoint st_seg (h : gmap Z nxp_stream) (s : option Z) (l : list Z) : Prop :=
  match l with
  | [] => s = None
  | p :: l => s = Some p /\ exists v, h !! p = Some v /\ st_seg h (st_next v) l
  end.
Definition st_rep (h : gmap Z nxp_stream) (s : option Z) (l : list Z) : Prop := st_seg h s l /\ NoDup l.

Definition news_at (c : nxp_conn) (h : gmap Z nxp_stream) (p : Z) : bool :=
  match h !! p with Some v => bool_decide (is_Some (has_news c v)) | None => false end.

(** What a notification changes. *)
Definition after_notice (c : nxp_conn) (v : nxp_stream) : nxp_stream :=
  match has_news c v with Some inner => notified inner v | None => v end.

Lemma st_seg_frame h h' s l : st_seg h s l ->
  (forall p v, p ∈ l -> h !! p = Some v -> exists v', h' !! p = Some v' /\ st_next v' = st_next v) -> st_seg h' s l.
Proof.
  revert s. induction l as [| p l IH]; intros s Hs Hf; [done |]. destruct Hs as (-> & v & Hp & Hs). split; [done |].
  destruct (Hf p v ltac:(by left) Hp) as (v' & Hp' & Hn). exists v'. split; [done |]. rewrite Hn. apply IH; [done |].
  intros q w Hq. apply Hf. by right.
Qed.

Lemma notified_quiet c v inner : has_news c v = Some inner -> has_news c (notified inner v) = None.
Proof.
  unfold has_news. destruct (st_on_data v) as [cb |] eqn:Hcb; [| done]. destruct (cn_streams c !! st_id v) as [i |] eqn:Hi; [| done].
  destruct (_ || _); [| done]. intros [= <-]. change (st_on_data (notified i v)) with (st_on_data v). rewrite Hcb.
  change (st_id (notified i v)) with (st_id v). rewrite Hi. unfold notified. cbn.
  rewrite Z.gtb_ltb, Z.ltb_irrefl. cbn [orb]. by destruct (fin_received (recv i)).
Qed.

(** The streams of [l] with news. *)
Fixpoint with_news (c : nxp_conn) (h : gmap Z nxp_stream) (l : list Z) : list Z :=
  match l with
  | [] => []
  | p :: l => if news_at c h p then p :: with_news c h l else with_news c h l
  end.

Lemma with_news_frame c h h' l : (forall p, p ∈ l -> h' !! p = h !! p) -> with_news c h' l = with_news c h l.
Proof.
  induction l as [| p l IH]; intros Hf; [done |]. cbn [with_news]. unfold news_at. rewrite Hf by by left.
  rewrite IH; [done |]. intros q Hq. apply Hf. by right.
Qed.

Lemma dispatch_loop_spec c : forall l h s fuel, st_rep h s l -> (length l < fuel)%nat ->
  exists h', dispatch_loop fuel c h s = Done (with_news c h l, h') /\
    (forall p, p ∈ l -> h' !! p = after_notice c <$> h !! p) /\ forall p, p ∉ l -> h' !! p = h !! p.
Proof.
  induction l as [| p l IH]; intros h s fuel [Hs Hn] Hf; (destruct fuel as [| fuel]; [cbn in Hf; lia |]); cbn [dispatch_loop st_seg with_news] in *.
  { subst s. exists h. split; [done |]. split; [| done]. intros q Hq. by apply not_elem_of_nil in Hq. }
  destruct Hs as (-> & v & Hp & Hs). unfold news_at. rewrite Hp. apply list.NoDup_cons in Hn as [Hpl Hn].
  assert (forall x, st_seg (<[p := x]> h) (st_next v) l) as Hs'.
  { intros x. eapply st_seg_frame; [exact Hs |]. intros q w Hq Hw. exists w. rewrite lookup_insert_ne by by intros ->. done. }
  set (v' := after_notice c v).
  assert (exists h', dispatch_loop fuel c (<[p := v']> h) (st_next v) = Done (with_news c h l, h') /\
    (forall q, q ∈ p :: l -> h' !! q = after_notice c <$> h !! q) /\ forall q, q ∉ p :: l -> h' !! q = h !! q) as (h' & E & Hin & Hout).
  { destruct (IH (<[p := v']> h) (st_next v) fuel) as (h' & E & Hin & Hout); [by split | cbn in Hf; lia |].
    rewrite (with_news_frame c h) in E by (intros q Hq; apply lookup_insert_ne; by intros ->). exists h'. split; [done |]. split.
    - intros q [-> | Hq]%elem_of_cons; [rewrite Hout, lookup_insert_eq, Hp by done; done |].
      rewrite Hin by done. by rewrite lookup_insert_ne by by intros ->.
    - intros q [Hqp Hq]%not_elem_of_cons. rewrite Hout by done. by apply lookup_insert_ne. }
  unfold v', after_notice in E. destruct (has_news c v) as [inner |].
  - rewrite E. cbn [obind]. by exists h'.
  - rewrite insert_id in E by done. rewrite E. by exists h'.
Qed.

Lemma st_seg_some h s l p : st_seg h s l -> p ∈ l -> is_Some (h !! p).
Proof.
  revert s. induction l as [| q l IH]; intros s Hs Hp; [by apply not_elem_of_nil in Hp |]. destruct Hs as (_ & v & Hq & Hs).
  apply elem_of_cons in Hp as [-> | Hp]; [by exists v | by eapply IH].
Qed.

Lemma st_rep_size h s l : st_rep h s l -> (length l <= size h)%nat.
Proof.
  intros [Hs Hn]. rewrite <- size_dom, <- (size_list_to_set (C := gset Z) l) by done. apply subseteq_size.
  intros x Hx. apply elem_of_list_to_set in Hx. apply elem_of_dom. by eapply st_seg_some.
Qed.

Lemma with_news_elem c h l p : p ∈ with_news c h l <-> p ∈ l /\ news_at c h p = true.
Proof.
  induction l as [| q l IH]; cbn [with_news]; [rewrite !elem_of_nil; tauto |].
  destruct (news_at c h q) eqn:Hq; rewrite ?elem_of_cons, IH; naive_solver congruence.
Qed.
Lemma with_news_sublist c h l : sublist (with_news c h l) l.
Proof. induction l as [| q l IH]; cbn [with_news]; [done |]. destruct (news_at c h q); by constructor. Qed.

(** [v] has a callback, and [inner], the stream of the engine, received bytes or its end
    since the application was last told. *)
Definition unannounced (c : nxp_conn) (v : nxp_stream) (inner : nxp_stream_s) : Prop :=
  st_on_data v <> None /\ cn_streams c !! st_id v = Some inner /\
  (st_last_dispatched v < recv_offset (recv inner) \/ (fin_received (recv inner) = true /\ st_fin_notified v = false)).

Lemma has_news_iff c v inner : has_news c v = Some inner <-> unannounced c v inner.
Proof.
  unfold has_news, unannounced. destruct (st_on_data v) as [cb |]; [| naive_solver]. destruct (cn_streams c !! st_id v) as [i |]; [| naive_solver].
  rewrite Z.gtb_ltb. destruct (Z.ltb_spec (st_last_dispatched v) (recv_offset (recv i))); destruct (fin_received (recv i)) eqn:Hf, (st_fin_notified v); cbn; (split; [intros [= <-] | intros (_ & [= <-] & Hn)]); try done; try (split; [done |]; split; [done |]; rewrite ?Hf; auto); destruct Hn as [Hn | [Hn Hn']]; try done; try lia; congruence.
Qed.

Lemma news_at_iff c h p : news_at c h p = true <-> exists v inner, h !! p = Some v /\ unannounced c v inner.
Proof.
  unfold news_at. destruct (h !! p) as [v |]; [| naive_solver]. rewrite bool_decide_eq_true. split.
  - intros [inner Hi%has_news_iff]. by exists v, inner.
  - intros (w & inner & [= <-] & Hi%has_news_iff). by exists inner.
Qed.

(** The streams after a dispatch have no news. *)
Lemma dispatched_quiet c (h h' : gmap Z nxp_stream) l : (forall p, p ∈ l -> h' !! p = after_notice c <$> h !! p) ->
  with_news c h' l = [] /\ forall p, p ∈ l -> after_notice c <$> h' !! p = h' !! p.
Proof.
  intros Hin. assert (forall v, has_news c (after_notice c v) = None) as Hq.
  { intros v. unfold after_notice. destruct (has_news c v) eqn:Hv; [by apply notified_quiet | done]. }
  split.
  - assert (forall p, p ∈ l -> news_at c h' p = false) as Hno.
    { intros p Hp. unfold news_at. rewrite Hin by done. destruct (h !! p) as [v |]; [| done]. cbn. rewrite Hq. apply bool_decide_eq_false_2. by intros [? ?]. }
    clear -Hno. induction l as [| p l IH]; [done |]. cbn [with_news]. rewrite Hno by by left. apply IH. intros q Hq. apply Hno. by right.
  - intros p Hp. rewrite Hin by done. destruct (h !! p) as [v |]; [| done]. cbn. f_equal. unfold after_notice at 1. by rewrite Hq.
Qed.

(** C21: The application learns of new data exactly once: dispatching calls [on_data],
    in the order of the list and once each, for exactly the streams that have a
    callback and received bytes or their end since they were last announced; those
    remember how far they were announced, and no other wrapper changes.  Dispatching
    again without progress calls nothing and changes nothing. *)
Theorem dispatch_exact c g ac l : st_rep (g_streams g) (ac_streams ac) l ->
  exists called g', dispatch_stream_data c g ac = Done (called, g') /\ sublist called l /\
    (forall p, p ∈ called <-> p ∈ l /\ exists v inner, g_streams g !! p = Some v /\ unannounced c v inner) /\
    (forall p, p ∉ called -> g_streams g' !! p = g_streams g !! p) /\
    (forall p v inner, p ∈ called -> g_streams g !! p = Some v -> unannounced c v inner ->
       g_streams g' !! p = Some (v <| st_last_dispatched := recv_offset (recv inner) |>
         <| st_fin_notified := st_fin_notified v || fin_received (recv inner) |>)) /\
    dispatch_stream_data c g' ac = Done ([], g').
Proof.
  intros Hr. unfold dispatch_stream_data. pose proof (st_rep_size _ _ _ Hr) as Hsz.
  destruct (dispatch_loop_spec c l (g_streams g) (ac_streams ac) (S (size (g_streams g))) Hr) as (h' & -> & Hin & Hout); [lia |]. cbn [obind].
  eexists _, _. split; [done |]. change (g_streams (g <| g_streams := h' |>)) with h'. set (called := with_news c (g_streams g) l).
  assert (forall p, p ∈ called <-> p ∈ l /\ exists v inner, g_streams g !! p = Some v /\ unannounced c v inner) as Hcall
    by (intros p; unfold called; by rewrite with_news_elem, news_at_iff).
  split; [apply with_news_sublist |]. split; [done |]. split; [| split].
  - intros p Hp. destruct (decide (p ∈ l)) as [Hl | Hl]; [| by apply Hout]. rewrite Hin by done. destruct (g_streams g !! p) as [v |] eqn:Hv; [| done].
    cbn. unfold after_notice. destruct (has_news c v) as [inner |] eqn:Hn; [| done]. exfalso. apply Hp, Hcall. split; [done |]. exists v, inner. by rewrite <- has_news_iff.
  - intros p v inner [Hl _]%Hcall Hv Hu%has_news_iff. rewrite Hin, Hv by done. cbn. unfold after_notice. rewrite Hu. unfold notified. cbn.
    by destruct (fin_received (recv inner)), (st_fin_notified v).
  - destruct (dispatched_quiet c (g_streams g) h' l Hin) as [Hno Hsame].
    assert (st_rep h' (ac_streams ac) l) as Hr'.
    { destruct Hr as [Hs Hn]. split; [| done]. eapply st_seg_frame; [exact Hs |]. intros p v Hp Hv. rewrite Hin, Hv by done. eexists. split; [done |].
      unfold after_notice. by destruct (has_news c v). }
    pose proof (st_rep_size _ _ _ Hr') as Hsz'.
    destruct (dispatch_loop_spec c l h' (ac_streams ac) (S (size h')) Hr') as (h2 & -> & Hin2 & Hout2); [lia |]. cbn [obind]. rewrite Hno.
    assert (h2 = h') as -> by (apply map_eq; intros p; destruct (decide (p ∈ l)) as [Hp | Hp]; [by rewrite Hin2, Hsame | by apply Hout2]). done.
Qed.

(** A wrapper that is freed but left in the list of its connection is followed by the
    next dispatch. *)
Lemma freed_stream_dangles c g ac l p : st_rep (g_streams g) (ac_streams ac) l -> p ∈ l ->
  exists g', free_stream g p = Done g' /\ dispatch_stream_data c g' ac = Ub.
Proof.
  intros [Hs Hn] Hp. unfold free_stream. destruct (st_seg_some _ _ _ _ Hs Hp) as [v Hv]. rewrite Hv. eexists. split; [done |].
  unfold dispatch_stream_data. change (g_streams (g <| g_streams := _ |>)) with (delete p (g_streams g)).
  assert (forall l h s fuel, st_seg h s l -> NoDup l -> p ∈ l -> (length l <= fuel)%nat -> dispatch_loop fuel c (delete p h) s = Ub) as Hub.
  { clear. induction l as [| q l IH]; intros h s fuel Hs Hn Hp Hf; [by apply not_elem_of_nil in Hp |]. destruct fuel as [| fuel]; [cbn in Hf; lia |].
    destruct Hs as (-> & v & Hq & Hs). cbn [dispatch_loop]. apply list.NoDup_cons in Hn as [Hql Hn].
    destruct (decide (q = p)) as [-> | Hne]; [by rewrite lookup_delete_eq |]. rewrite lookup_delete_ne, Hq by done.
    apply elem_of_cons in Hp as [-> | Hp]; [done |]. cbn in Hf. destruct (has_news c v) as [inner |].
    - rewrite <- delete_insert_ne by done. rewrite IH; [done | | done | done | lia]. eapply st_seg_frame; [exact Hs |]. intros x w Hx Hw. exists w.
      rewrite lookup_insert_ne by by intros ->. done.
    - by apply IH; [| | | lia]. }
  rewrite (Hub l); [done | done | done | done |]. pose proof (st_rep_size _ _ _ (conj Hs Hn)). rewrite map_size_delete, Hv. lia.
Qed.
