(* ===== verification/ApiIo.v ===== *)
(** * Driving connections (src/src/api/nxp_api.c)

    The handlers that the event loop calls for client connections, over the engine,
    the timers and the epoll backend: receiving datagrams, reporting changes of state,
    flushing, notifying streams and re-arming the timer of a connection.  Callbacks
    of the application are recorded in the order of the calls, not run; transports,
    clock and allocator are a [System] that answers one call after the other.
    [Err tt] means that a loop of the code is still running when its fuel is used
    up. *)

From stdpp Require Import gmap.
From S2P Require Import Prelude Types Stream Crypto Connection ConnectionSend ConnectionInv ConnectionSafety.
From S2P Require Import PriorityQueue Sockets EventLoop Epoll ApiObjects.

(** ** Interfaces *)

(** [m] is defined, and [P] holds if it returns. *)
Definition safe {A} (m : outcome unit A) (P : A -> Prop) : Prop :=
  match m with Done a => P a | Err _ => True | Ub => False end.

Lemma safe_bind {A B} (m : outcome unit A) (k : A -> outcome unit B) P R :
  safe m P -> (forall a, P a -> safe (k a) R) -> safe (obind m k) R.
Proof. destruct m; cbn; auto. Qed.
Lemma safe_impl {A} (m : outcome unit A) (P R : A -> Prop) : safe m P -> (forall a, P a -> R a) -> safe m R.
Proof. destruct m; cbn; auto. Qed.

(** What the handlers use of the engine, whose result codes they ignore. *)
Class Engine := {
  eng_recv : nxp_conn -> list Z -> Z -> outcome unit nxp_conn;
  eng_send : bool -> nxp_conn -> list Z -> Z -> outcome unit (Z * list Z * nxp_conn);
  eng_on_timeout : nxp_conn -> Z -> outcome unit nxp_conn;
  eng_timeout : nxp_conn -> Z -> outcome unit Z;
  eng_recv_ok c data now : conn_ok c -> bytes_ok data -> safe (eng_recv c data now) (conn_next c);
  eng_send_ok ok c out now : conn_ok c -> zlen out = NXP_PACKET_BUF_SIZE ->
    safe (eng_send ok c out now) (fun '(n, out', c') => conn_next c c' /\ zlen out' = zlen out);
  eng_on_timeout_ok c now : conn_ok c -> 0 <= now -> safe (eng_on_timeout c now) (conn_next c);
  eng_timeout_ok c now : conn_ok c -> safe (eng_timeout c now) (fun _ => True)
}.

(** The [i]-th call of the system: the clock, a datagram from a transport ([None] where
    [recv] returns 0 or less), memory that is not in use, whether [realloc] succeeds, and what a push to the timers needs. *)
Class System (Q E : Type) `{TimerQueue Q E} := {
  sys_clock : nat -> Z;
  sys_recv : nat -> Z -> option (list Z);
  sys_malloc : nat -> gset Z -> option Z;
  sys_realloc : nat -> bool;
  sys_push : nat -> Q -> E;
  sys_clock_ok i : 0 <= sys_clock i < 2 ^ 64;
  sys_recv_ok i t data : sys_recv i t = Some data -> bytes_ok data /\ data <> [];
  sys_malloc_ok i used p : sys_malloc i used = Some p -> p ∉ used;
  sys_push_ok i q bag : tq_bag q bag -> tq_room (sys_push i q) q
}.

(** ** State *)

(** Calls of the application's callbacks, with the callback and its user data. *)
Inductive api_call : Type :=
| OnConnected (conn cb ud : Z)
| OnClosed (conn cb ud : Z)
| OnStream (conn stream cb ud : Z)
| OnData (stream : Z)
| OnNewConn (listener conn cb ud : Z).

(** The wrappers, the connections of the engine, the calls made and the datagrams
    handed to transports so far with their destination, and the number of system
    calls. *)
Record nxp_api := Api {
  ap_global : nxp_global;
  ap_conns : gmap Z nxp_conn;
  ap_calls : list api_call;
  ap_sent : list (Z * list Z * list Z);
  ap_tick : nat
}.
#[export] Instance eta_api : Eta nxp_api := fun a =>
  Api (ap_global a) (ap_conns a) (ap_calls a) (ap_sent a) (ap_tick a).

Definition wrappers (a : nxp_api) : gmap Z nxp_api_conn := g_api_conns (ap_global a).

(** Following a pointer to a wrapper, and to a connection. *)
Definition get_ac (a : nxp_api) (ac : Z) : outcome unit nxp_api_conn :=
  match wrappers a !! ac with None => Ub | Some v => Done v end.
Definition put_ac (a : nxp_api) (ac : Z) (v : nxp_api_conn) : nxp_api :=
  a <| ap_global := (ap_global a) <| g_api_conns := <[ac := v]> (wrappers a) |> |>.
Definition get_conn (a : nxp_api) (p : Z) : outcome unit nxp_conn :=
  match ap_conns a !! p with None => Ub | Some c => Done c end.
Definition put_conn (a : nxp_api) (p : Z) (c : nxp_conn) : nxp_api := a <| ap_conns := <[p := c]> (ap_conns a) |>.
Definition calls_made (a : nxp_api) (l : list api_call) : nxp_api := a <| ap_calls := ap_calls a ++ l |>.
Definition next_tick (a : nxp_api) : nxp_api := a <| ap_tick := S (ap_tick a) |>.

(** Names of the handlers as callbacks of the event loop. *)
Definition on_conn_event_cb : Z := 1.
Definition on_conn_timer_cb : Z := 2.

Section Handlers.
Context {Q E : Type} `{System Q E} `{Engine}.
Notation loop := (nxp_event_loop Q (nxp_epoll_loop * nxp_api)).

Definition el_api (l : loop) : nxp_api := (el_backend l).2.
Definition set_api (l : loop) (a : nxp_api) : loop := l <| el_backend := (el_epoll l, a) |>.

(** ** Sending *)

(** [out] is not initialised; its contents do not matter. *)
Fixpoint flush_loop (fuel : nat) (now : Z) (out : list Z) (v : nxp_api_conn) (a : nxp_api) : outcome unit nxp_api :=
  match fuel with
  | O => Err tt
  | S fuel =>
      let! c := get_conn a (ac_conn v) in
      let! (n, out, c) := eng_send (sys_realloc (ap_tick a)) c out now in
      let a := put_conn (next_tick a) (ac_conn v) c in
      if n <=? 0 then Done a else
      flush_loop fuel now out v (a <| ap_sent := ap_sent a ++ [(ac_transport v, ztake n out, cn_peer_addr c)] |>)
  end.

Definition nxp_api_flush_conn (fuel : nat) (a : nxp_api) (ac : Z) : outcome unit nxp_api :=
  let! v := get_ac a ac in
  flush_loop fuel (sys_clock (ap_tick a)) (zeros NXP_PACKET_BUF_SIZE) v (next_tick a).

(** ** Receiving *)

(** The calls for the step from [prev_state] to [cur]. *)
Definition transition_calls (v : nxp_api_conn) (cur : nxp_conn_state) : list api_call :=
  (if negb (bool_decide (ac_prev_state v = NXP_CONN_ESTABLISHED)) && bool_decide (cur = NXP_CONN_ESTABLISHED)
   then match ac_on_connected v with Some cb => [OnConnected (ac_conn v) cb (ac_cb_user_data v)] | None => [] end else []) ++
  (if (bool_decide (cur = NXP_CONN_CLOSED) || bool_decide (cur = NXP_CONN_DRAINING)) &&
      negb (bool_decide (ac_prev_state v = NXP_CONN_CLOSED)) && negb (bool_decide (ac_prev_state v = NXP_CONN_DRAINING))
   then match ac_on_closed v with Some cb => [OnClosed (ac_conn v) cb (ac_cb_user_data v)] | None => [] end else []).

(** The engine calls [on_new_remote_stream] for streams that the peer opened, with the
    wrapper as user data. *)
Fixpoint accept_streams (a : nxp_api) (ac : Z) (conn : Z) (l : list conn_notice) : outcome unit nxp_api :=
  match l with
  | [] => Done a
  | Writable _ _ :: l => accept_streams a ac conn l
  | NewStream id :: l =>
      let! v := get_ac a ac in
      let! (g, s) := on_new_remote_stream (sys_malloc (ap_tick a) (dom (g_streams (ap_global a)))) (ap_global a) conn id (Some ac) in
      let a := next_tick a <| ap_global := g |> in
      let a := match s, ac_stream_accept_cb v with
               | Some s, Some cb => calls_made a [OnStream conn s cb (ac_stream_accept_ud v)]
               | _, _ => a
               end in
      accept_streams a ac conn l
  end.

(** The notices of the engine are taken from the connection. *)
Definition recv_datagram (a : nxp_api) (ac : Z) (data : list Z) : outcome unit nxp_api :=
  let! v := get_ac a ac in
  let! c := get_conn a (ac_conn v) in
  let! c := eng_recv c data (sys_clock (ap_tick a)) in
  let a := put_conn (next_tick a) (ac_conn v) (c <| cn_notices := [] |>) in
  let! a := accept_streams a ac (ac_conn v) (cn_notices c) in
  let! v := get_ac a ac in
  Done (put_ac (calls_made a (transition_calls v (cn_state c))) ac (v <| ac_prev_state := cn_state c |>)).

Fixpoint recv_loop (fuel : nat) (a : nxp_api) (ac : Z) : outcome unit nxp_api :=
  match fuel with
  | O => Err tt
  | S fuel =>
      let! v := get_ac a ac in
      match sys_recv (ap_tick a) (ac_transport v) with
      | None => Done (next_tick a)
      | Some data => let! a := recv_datagram (next_tick a) ac data in recv_loop fuel a ac
      end
  end.

(** ** Handlers *)

Definition dispatch_data (a : nxp_api) (ac : Z) : outcome unit nxp_api :=
  let! v := get_ac a ac in
  let! c := get_conn a (ac_conn v) in
  let! (tr, g) := dispatch_stream_data c (ap_global a) v in
  Done (calls_made (a <| ap_global := g |>) (OnData <$> tr)).

Definition set_timer (l : loop) (ac : Z) (t : option Z) : outcome unit loop :=
  let! v := get_ac (el_api l) ac in
  Done (set_api l (put_ac (el_api l) ac (v <| ac_timer := t |>))).

Definition nxp_api_rearm_timer (l : loop) (ac : Z) : outcome unit loop :=
  let! v := get_ac (el_api l) ac in
  let! l := match ac_timer v with
            | None => Done l
            | Some t => let! l := nxp_event_loop_cancel_timer l (Some t) in set_timer l ac None
            end in
  let i := ap_tick (el_api l) in
  let! c := get_conn (el_api l) (ac_conn v) in
  let! deadline := eng_timeout c (sys_clock i) in
  let l := set_api l (next_tick (el_api l)) in
  if deadline =? UINT64_MAX then Done l else
  let! (t, l) := nxp_event_loop_add_timer (sys_malloc i (dom (el_heap l))) (sys_push i (el_timers l)) l deadline on_conn_timer_cb ac in
  set_timer l ac t.

(** What both handlers end with. *)
Definition conn_turn (fuel : nat) (l : loop) (a : nxp_api) (ac : Z) : outcome unit loop :=
  let! a := nxp_api_flush_conn fuel a ac in
  let! a := dispatch_data a ac in
  nxp_api_rearm_timer (set_api l a) ac.

Definition on_conn_event (fuel : nat) (events ac : Z) (l : loop) : outcome unit loop :=
  let! a := if negb ((events &&& NXP_EVENT_READ) =? 0) then recv_loop fuel (el_api l) ac else Done (el_api l) in
  conn_turn fuel l a ac.

Definition on_conn_timer (fuel : nat) (ac : Z) (l : loop) : outcome unit loop :=
  let! l := set_timer l ac None in
  let a := el_api l in
  let! v := get_ac a ac in
  let! c := get_conn a (ac_conn v) in
  let! c := eng_on_timeout c (sys_clock (ap_tick a)) in
  conn_turn fuel l (put_conn (next_tick a) (ac_conn v) c) ac.

(** ** The loop *)

(** A call through a pointer to anything else is undefined. *)
Definition api_on_timer (fuel : nat) (cb ud : Z) (l : loop) : outcome unit loop :=
  if cb =? on_conn_timer_cb then on_conn_timer fuel ud l else Ub.
Definition api_on_socket (fuel : nat) (src : nxp_epoll_source) (events : Z) (l : loop) : outcome unit loop :=
  if es_cb src =? on_conn_event_cb then on_conn_event fuel events (es_user_data src) l else Ub.

Definition api_backend (fuel : nat) (wait : Z -> wait_result) (ms : Z) (l : loop) : outcome unit (option nxp_error_code * loop) :=
  let! (r, _, l) := epoll_poll (api_on_socket fuel) wait ms l in Done (r, l).

(** [now] and [now'] are what the loop reads from the clock. *)
Definition nxp_poll (fuel : nat) (wait : Z -> wait_result) (now now' : Z) (l : loop) : outcome unit loop :=
  let! (_, _, l) := nxp_event_loop_run_once (api_on_timer fuel) (api_backend fuel wait) fuel now now' 1 l in Done l.

Definition nxp_run (fuel : nat) (wait : Z -> wait_result) (clock : nat -> Z * Z) (l : loop) : outcome unit loop :=
  let! (_, l) := nxp_event_loop_run (api_on_timer fuel) (api_backend fuel wait) fuel clock l in Done l.

End Handlers.

(** ** What the application is told *)

(** The order of the states. *)
Definition rank (st : nxp_conn_state) : Z :=
  match st with
  | NXP_CONN_IDLE => 0
  | NXP_CONN_HANDSHAKE_INITIAL => 1
  | NXP_CONN_HANDSHAKE_IN_PROGRESS => 2
  | NXP_CONN_ESTABLISHED => 3
  | NXP_CONN_CLOSING => 4
  | NXP_CONN_DRAINING => 5
  | NXP_CONN_CLOSED => 6
  end.

Lemma rank_mono a b : rtc (fun a b => is_valid_conn_state_transition a b = true) a b -> rank a <= rank b.
Proof.
  induction 1 as [a | a b c Hab _ IH]; [lia |]. transitivity (rank b); [| done]. clear -Hab. by destruct a, b.
Qed.

(** The calls of [on_connected] and [on_closed] for a connection. *)
Definition state_call (conn : Z) (call : api_call) : option bool :=
  match call with
  | OnConnected p _ _ => if decide (p = conn) then Some true else None
  | OnClosed p _ _ => if decide (p = conn) then Some false else None
  | _ => None
  end.
Definition state_calls (conn : Z) (calls : list api_call) : list bool := omap (state_call conn) calls.

(** What was told of a connection whose state was last seen to be [st]. *)
Definition told (st : nxp_conn_state) (es : list bool) : Prop :=
  if decide (5 <= rank st) then sublist es [true; false]
  else if decide (3 <= rank st) then sublist es [true]
  else es = [].

Lemma told_mono st st' es : told st es -> rank st <= rank st' -> told st' es.
Proof.
  unfold told. intros Ht Hr. repeat case_decide; try lia; try done.
  - etrans; [exact Ht |]. by apply sublist_skip, sublist_nil_l.
  - subst es. apply sublist_nil_l.
  - subst es. apply sublist_nil_l.
Qed.

Lemma transition_told v cur es : told (ac_prev_state v) es -> rank (ac_prev_state v) <= rank cur ->
  told cur (es ++ state_calls (ac_conn v) (transition_calls v cur)).
Proof.
  intros Ht Hr. pose proof (told_mono _ _ _ Ht Hr) as Hm. unfold transition_calls.
  destruct (negb (bool_decide (ac_prev_state v = NXP_CONN_ESTABLISHED)) && bool_decide (cur = NXP_CONN_ESTABLISHED)) eqn:He.
  - apply andb_true_iff in He as [Hne%negb_true_iff%bool_decide_eq_false ->%bool_decide_eq_true].
    assert (es = []) as -> by (unfold told in Ht; destruct (ac_prev_state v); cbn in Hr, Ht; try done; lia).
    rewrite (bool_decide_eq_false_2 (NXP_CONN_ESTABLISHED = NXP_CONN_CLOSED)), (bool_decide_eq_false_2 (NXP_CONN_ESTABLISHED = NXP_CONN_DRAINING)) by done.
    destruct (ac_on_connected v); [| apply sublist_nil_l]. unfold state_calls. cbn. rewrite decide_True by done. apply sublist_skip, sublist_nil_l.
  - cbn [app]. destruct (_ && _ && _) eqn:Hc; [| by rewrite app_nil_r].
    apply andb_true_iff in Hc as [[Hc Hn1%negb_true_iff%bool_decide_eq_false]%andb_true_iff Hn2%negb_true_iff%bool_decide_eq_false].
    assert (5 <= rank cur) as Hcur by (apply orb_true_iff in Hc as [->%bool_decide_eq_true | ->%bool_decide_eq_true]; cbn; lia).
    assert (sublist es [true]) as Hs.
    { clear -Ht Hn1 Hn2. revert Hn1 Hn2. unfold told in Ht. destruct (ac_prev_state v); cbn [rank] in Ht; intros Hn1 Hn2; repeat case_decide; try done; try lia; subst es; apply sublist_nil_l. }
    destruct (ac_on_closed v); [| by rewrite app_nil_r]. cbn. rewrite decide_True by done. unfold told. rewrite decide_True by done.
    by apply (sublist_app es [true] [false] [false]).
Qed.

Lemma state_calls_app conn l l' : state_calls conn (l ++ l') = state_calls conn l ++ state_calls conn l'.
Proof. apply omap_app. Qed.

(** Calls for other connections. *)
Lemma transition_other v cur p : p <> ac_conn v -> state_calls p (transition_calls v cur) = [].
Proof.
  intros Hp. unfold transition_calls. rewrite state_calls_app.
  destruct (_ && bool_decide _), (ac_on_connected v), (_ && _ && _), (ac_on_closed v); cbn; rewrite ?decide_False by congruence; done.
Qed.
