(* ===== verification/ApiInv.v ===== *)
(** * Invariant of the API's objects

    The wrappers, the connections of the engine and the streams of a library in use:
    what receiving, flushing and notifying streams keeps. *)

From stdpp Require Import gmap.
From S2P Require Import Prelude Types Stream Crypto Connection ConnectionSend ConnectionInv ConnectionSafety.
From S2P Require Import PriorityQueue Sockets EventLoop Epoll ApiObjects ApiIo.

Section Invariant.
(** The addresses that are allocated. *)
Context {used : Z -> Prop}.

Record api_ok (a : nxp_api) : Prop := ApiOk {
  ak_engine p c : ap_conns a !! p = Some c -> conn_ok c;
  ak_conn ac v : wrappers a !! ac = Some v -> exists c, ap_conns a !! ac_conn v = Some c /\ rank (ac_prev_state v) <= rank (cn_state c);
  ak_streams ac v : wrappers a !! ac = Some v -> exists l, st_rep (g_streams (ap_global a)) (ac_streams v) l;
  ak_inj ac ac' v v' : wrappers a !! ac = Some v -> wrappers a !! ac' = Some v' -> ac_conn v = ac_conn v' -> ac = ac';
  ak_told ac v : wrappers a !! ac = Some v -> told (ac_prev_state v) (state_calls (ac_conn v) (ap_calls a));
  ak_list : exists l, conns_rep (ap_global a) l;
  ak_owner p s : g_streams (ap_global a) !! p = Some s -> is_Some (ap_conns a !! st_conn s) /\
    forall ac, st_api_conn s = Some ac -> is_Some (wrappers a !! ac);
  ak_quiet p : ap_conns a !! p = None -> state_calls p (ap_calls a) = [];
  ak_used : (forall ac, is_Some (wrappers a !! ac) -> used ac) /\ (forall p, is_Some (ap_conns a !! p) -> used p)
}.

(** The same wrappers, except for the streams and the state last seen. *)
Definition core (v : nxp_api_conn) : nxp_api_conn := v <| ac_prev_state := NXP_CONN_IDLE |> <| ac_streams := None |>.
Definition same_core (a a' : nxp_api) : Prop := forall ac, core <$> wrappers a !! ac = core <$> wrappers a' !! ac.

Lemma same_core_trans a b c : same_core a b -> same_core b c -> same_core a c.
Proof. intros H1 H2 ac. by rewrite H1. Qed.
Lemma same_core_some a a' ac v : same_core a a' -> wrappers a !! ac = Some v -> exists v', wrappers a' !! ac = Some v' /\ core v = core v'.
Proof.
  intros Hs Hv. specialize (Hs ac). rewrite Hv in Hs. destruct (wrappers a' !! ac) as [v' |]; [| done]. exists v'. split; [done |].
  cbn [fmap option_fmap option_map] in Hs. congruence.
Qed.
Lemma same_core_sym a a' : same_core a a' -> same_core a' a.
Proof. intros Hs ac. by rewrite Hs. Qed.
Lemma core_fields v v' : core v = core v' -> ac_conn v = ac_conn v' /\ ac_timer v = ac_timer v' /\ ac_transport v = ac_transport v'.
Proof. destruct v, v'. cbn. by intros [=]. Qed.
Lemma same_core_dom a a' ac : same_core a a' -> is_Some (wrappers a !! ac) -> is_Some (wrappers a' !! ac).
Proof. intros Hc [v Hv]. destruct (same_core_some _ _ ac v Hc Hv) as (v' & ? & _). by exists v'. Qed.
Lemma same_core_put a a' ac v w : wrappers a !! ac = Some v -> wrappers a' = <[ac := w]> (wrappers a) -> core w = core v -> same_core a a'.
Proof.
  intros Hv Ha Hw x. rewrite Ha. destruct (decide (x = ac)) as [-> | Hne]; [| by rewrite lookup_insert_ne].
  rewrite lookup_insert_eq, Hv. cbn. by rewrite Hw.
Qed.

(** ** Changes of the state *)

(** Parts of the state that the invariant does not read. *)
Lemma api_ok_ext a a' : api_ok a -> ap_global a' = ap_global a -> ap_conns a' = ap_conns a -> ap_calls a' = ap_calls a -> api_ok a'.
Proof. intros [? ? ? ? ? ? ? ? ?] Hg Hc Hl. split; unfold wrappers in *; rewrite ?Hg, ?Hc, ?Hl; done. Qed.
Lemma tick_ok a : api_ok a -> api_ok (next_tick a).
Proof. intros Ha. by apply (api_ok_ext a). Qed.

(** The list of wrappers is unaffected by what is not a link. *)
Lemma dl_seg_put {V} `{Linked V} (h : gmap Z V) p v w l : h !! p = Some v -> lk_next w = lk_next v -> lk_prev w = lk_prev v ->
  forall prev head nxt, dl_seg h prev head l nxt -> dl_seg (<[p := w]> h) prev head l nxt.
Proof.
  intros Hv Hn Hp. induction l as [| q l IH]; intros prev head nxt Hs; [done |]. destruct Hs as (-> & u & Hq & Hu & Hs).
  split; [done |]. destruct (decide (q = p)) as [-> | Hne].
  - rewrite Hv in Hq. injection Hq as <-. exists w. rewrite lookup_insert_eq, Hn, Hp. auto.
  - exists u. rewrite lookup_insert_ne by done. auto.
Qed.

(** A wrapper, the streams and the calls change. *)
Definition rewrap (a : nxp_api) (ac : Z) (w : nxp_api_conn) (h : gmap Z nxp_stream) (calls : list api_call) : nxp_api :=
  calls_made (a <| ap_global := (ap_global a) <| g_streams := h |> <| g_api_conns := <[ac := w]> (wrappers a) |> |>) calls.

(** [w] is at the place of [v]. *)
Definition same_place (v w : nxp_api_conn) : Prop := ac_conn w = ac_conn v /\ ac_next w = ac_next v /\ ac_prev w = ac_prev v.

Lemma rewrap_ok a ac v w h calls : api_ok a -> wrappers a !! ac = Some v -> same_place v w ->
  (forall c, ap_conns a !! ac_conn v = Some c -> rank (ac_prev_state w) <= rank (cn_state c)) ->
  (exists l, st_rep h (ac_streams w) l) -> (forall s l, st_rep (g_streams (ap_global a)) s l -> st_rep h s l) ->
  (forall p s, h !! p = Some s -> is_Some (ap_conns a !! st_conn s) /\ forall x, st_api_conn s = Some x -> is_Some (wrappers a !! x)) ->
  told (ac_prev_state w) (state_calls (ac_conn v) (ap_calls a ++ calls)) -> (forall p, p <> ac_conn v -> state_calls p calls = []) ->
  api_ok (rewrap a ac w h calls).
Proof.
  intros [Heng Hc Hs Hi Ht [l [[Hl Hnd] Hall]] Ho Hqu Hus] Hv (Hcn & Hnx & Hpv) Hr Hst Hkeep Hown Htold Hquiet.
  assert (forall x y, wrappers (rewrap a ac w h calls) !! x = Some y -> (x = ac /\ y = w) \/ (x <> ac /\ wrappers a !! x = Some y)) as Hback.
  { intros x y Hx. change (<[ac := w]> (wrappers a) !! x = Some y) in Hx. apply lookup_insert_Some in Hx as [[-> ->] | [? ?]]; [by left | by right]. }
  assert (forall x y, wrappers (rewrap a ac w h calls) !! x = Some y -> exists z, wrappers a !! x = Some z /\ ac_conn z = ac_conn y) as Hconn
    by (intros x y [[-> ->] | [_ Hx]]%Hback; [by exists v | by exists y]).
  assert (forall x, is_Some (wrappers a !! x) -> is_Some (wrappers (rewrap a ac w h calls) !! x)) as Hdom.
  { intros x Hx. change (is_Some (<[ac := w]> (wrappers a) !! x)). apply lookup_insert_is_Some. destruct (decide (ac = x)); [by left | by right]. }
  split.
  - exact Heng.
  - intros x y [[-> ->] | [_ Hx]]%Hback; [| by apply (Hc x)]. destruct (Hc ac v Hv) as (c & Hcc & _). exists c. rewrite Hcn. split; [done | by apply Hr].
  - intros x y [[-> ->] | [_ Hx]]%Hback; [done |]. destruct (Hs x y Hx) as [l' Hl']. exists l'. by apply Hkeep.
  - intros x x' y y' Hx Hx' Heq. destruct (Hconn x y Hx) as (? & ? & ?), (Hconn x' y' Hx') as (? & ? & ?). eapply Hi; [done | done | congruence].
  - intros x y Hx. change (ap_calls (rewrap a ac w h calls)) with (ap_calls a ++ calls). destruct (Hback x y Hx) as [[-> ->] | [Hne Hx2]].
    + by rewrite Hcn.
    + rewrite state_calls_app, Hquiet, app_nil_r; [by apply (Ht x) |]. intros Heq. apply Hne. by eapply Hi.
  - exists l. split; [split; [| done] |].
    + by apply (dl_seg_put (wrappers a) ac v w l Hv).
    + intros x Hx. change (is_Some (<[ac := w]> (wrappers a) !! x)) in Hx. apply Hall. apply lookup_insert_is_Some in Hx as [<- | [_ Hx]]; [by exists v | done].
  - intros p s Hp. destruct (Hown p s Hp) as [? Hx]. split; [done | auto].
  - intros p Hp. change (ap_calls (rewrap a ac w h calls)) with (ap_calls a ++ calls). rewrite state_calls_app, Hqu, Hquiet; [done | | done].
    intros ->. destruct (Hc ac v Hv) as (c & Hcc & _). change (ap_conns (rewrap a ac w h calls)) with (ap_conns a) in Hp. congruence.
  - split; [| apply Hus]. intros x [y Hx]. destruct (Hconn x y Hx) as (z & Hz & _). apply (proj1 Hus). by exists z.
Qed.

(** Other fields of a wrapper. *)
Lemma edit_ok a ac v w : api_ok a -> wrappers a !! ac = Some v -> same_place v w -> ac_prev_state w = ac_prev_state v -> ac_streams w = ac_streams v ->
  api_ok (put_ac a ac w).
Proof.
  intros Ha Hv Hp Hst Hss. apply (api_ok_ext (rewrap a ac w (g_streams (ap_global a)) [])); [| | done | cbn; by rewrite app_nil_r].
  - apply (rewrap_ok a ac v w); try done.
    + intros c Hc. rewrite Hst. destruct (ak_conn a Ha ac v Hv) as (c' & Hc' & Hr). congruence.
    + rewrite Hss. by apply (ak_streams a Ha ac).
    + intros p s Hs. by apply (ak_owner a Ha p).
    + rewrite Hst, app_nil_r. by apply (ak_told a Ha ac).
  - unfold rewrap, put_ac. cbn. by destruct (ap_global a).
Qed.

Lemma put_conn_ok a p c c' : api_ok a -> ap_conns a !! p = Some c -> conn_next c c' -> api_ok (put_conn a p c').
Proof.
  intros [Heng Hc Hs Hi Ht Hl Ho Hqu Hus] Hp [Hok Hle]. split; [| | exact Hs | exact Hi | exact Ht | exact Hl | | |]; change (ap_conns (put_conn a p c')) with (<[p := c']> (ap_conns a)).
  - intros q d [[<- <-] | [_ Hq]]%lookup_insert_Some; [done | by apply (Heng q)].
  - intros ac v Hv. destruct (Hc ac v Hv) as (c1 & Hc1 & Hr). destruct (decide (ac_conn v = p)) as [He | Hne].
    + rewrite He, lookup_insert_eq. exists c'. split; [done |]. rewrite He, Hp in Hc1. injection Hc1 as <-. pose proof (rank_mono _ _ (cl_state _ _ Hle)). lia.
    + rewrite lookup_insert_ne by done. by exists c1.
  - intros q s Hq. destruct (Ho q s Hq) as [Hx Hy]. split; [| exact Hy]. apply lookup_insert_is_Some. destruct (decide (p = st_conn s)); [by left | by right].
  - intros q [Hq _]%lookup_insert_None. by apply Hqu.
  - split; [apply Hus |]. intros q [<- | [_ Hq]]%lookup_insert_is_Some; apply (proj2 Hus); [by exists c | done].
Qed.

(** Every connection moves forward. *)
Definition conns_next (h h' : gmap Z nxp_conn) : Prop := forall p c, h !! p = Some c -> exists c', h' !! p = Some c' /\ conn_next c c'.

Lemma conns_next_trans h1 h2 h3 : conns_next h1 h2 -> conns_next h2 h3 -> conns_next h1 h3.
Proof.
  intros H12 H23 p c Hp. destruct (H12 p c Hp) as (c2 & Hp2 & ?), (H23 p c2 Hp2) as (c3 & ? & ?). exists c3. split; [done | by eapply conn_next_trans].
Qed.
Lemma conns_next_refl a : api_ok a -> conns_next (ap_conns a) (ap_conns a).
Proof. intros Ha p c Hp. exists c. split; [done |]. by apply conn_next_refl, (ak_engine a Ha p). Qed.
Lemma conns_next_put a p c c' : api_ok a -> ap_conns a !! p = Some c -> conn_next c c' -> conns_next (ap_conns a) (<[p := c']> (ap_conns a)).
Proof.
  intros Ha Hp Hn q d Hq. destruct (decide (q = p)) as [-> | Hne].
  - exists c'. rewrite lookup_insert_eq. split; [done |]. congruence.
  - exists d. rewrite lookup_insert_ne by done. split; [done |]. by apply conn_next_refl, (ak_engine a Ha q).
Qed.

(** Every connection moves forward, and new ones appear. *)
Lemma conns_ok a h : api_ok a -> conns_next (ap_conns a) h -> (forall p c, h !! p = Some c -> conn_ok c) -> (forall p, is_Some (h !! p) -> used p) ->
  api_ok (a <| ap_conns := h |>).
Proof.
  intros [Heng Hc Hs Hi Ht Hl Ho Hqu Hus] Hn Hok Hup. split; [exact Hok | | exact Hs | exact Hi | exact Ht | exact Hl | | |]; change (ap_conns (a <| ap_conns := h |>)) with h.
  - intros ac v Hv. destruct (Hc ac v Hv) as (c1 & Hc1 & Hr). destruct (Hn _ c1 Hc1) as (c2 & Hc2 & [_ Hle]). exists c2. split; [done |].
    pose proof (rank_mono _ _ (cl_state _ _ Hle)). lia.
  - intros q s Hq. destruct (Ho q s Hq) as [[c1 Hx] Hy]. split; [| exact Hy]. destruct (Hn _ c1 Hx) as (c2 & ? & _). by exists c2.
  - intros q Hq. apply Hqu. apply eq_None_not_Some. intros [c1 Hx]. destruct (Hn q c1 Hx) as (c2 & ? & _). congruence.
  - split; [apply Hus | exact Hup].
Qed.

(** A new connection. *)
Lemma new_conn_ok a p c : api_ok a -> ap_conns a !! p = None -> conn_ok c -> used p -> api_ok (put_conn a p c).
Proof.
  intros [Heng Hc Hs Hi Ht Hl Ho Hqu Hus] Hp Hok Hup. split; [| | exact Hs | exact Hi | exact Ht | exact Hl | | |]; change (ap_conns (put_conn a p c)) with (<[p := c]> (ap_conns a)).
  - intros q d [[<- <-] | [_ Hq]]%lookup_insert_Some; [done | by apply (Heng q)].
  - intros ac v Hv. destruct (Hc ac v Hv) as (c1 & Hc1 & Hr). exists c1. split; [| done]. rewrite lookup_insert_ne; [done |]. intros ->. congruence.
  - intros q s Hq. destruct (Ho q s Hq) as [Hx Hy]. split; [| exact Hy]. apply lookup_insert_is_Some. destruct (decide (p = st_conn s)); [by left | by right].
  - intros q [Hq _]%lookup_insert_None. by apply Hqu.
  - split; [apply Hus |]. intros q [<- | [_ Hq]]%lookup_insert_is_Some; [done | by apply (proj2 Hus)].
Qed.

(** Calls that say nothing of the state. *)
Lemma other_calls_ok a l : api_ok a -> (forall p, state_calls p l = []) -> api_ok (calls_made a l).
Proof.
  intros [Heng Hc Hs Hi Ht Hl Ho Hqu Hus] Hcl. split; [exact Heng | exact Hc | exact Hs | exact Hi | | exact Hl | exact Ho | | exact Hus];
    change (ap_calls (calls_made a l)) with (ap_calls a ++ l).
  - intros ac v Hv. rewrite state_calls_app, Hcl, app_nil_r. by apply (Ht ac).
  - intros p Hp. rewrite state_calls_app, Hcl, app_nil_r. by apply Hqu.
Qed.

Lemma get_ac_some a ac v : wrappers a !! ac = Some v -> get_ac a ac = Done v.
Proof. intros Hv. unfold get_ac. by rewrite Hv. Qed.
Lemma get_conn_some a ac v : api_ok a -> wrappers a !! ac = Some v ->
  exists c, get_conn a (ac_conn v) = Done c /\ ap_conns a !! ac_conn v = Some c /\ conn_ok c /\ rank (ac_prev_state v) <= rank (cn_state c).
Proof.
  intros Ha Hv. destruct (ak_conn a Ha ac v Hv) as (c & Hc & Hr). exists c. unfold get_conn. rewrite Hc. split; [done |]. split; [done |].
  split; [by eapply ak_engine | done].
Qed.

(** The streams keep their places. *)
Lemma st_rep_keep h h' s l : (forall p v, h !! p = Some v -> exists v', h' !! p = Some v' /\ st_next v' = st_next v) -> st_rep h s l -> st_rep h' s l.
Proof. intros Hf [Hs Hn]. split; [| done]. eapply st_seg_frame; [exact Hs |]. intros p v _. apply Hf. Qed.
Lemma st_rep_fresh h s l p (v : nxp_stream) : h !! p = None -> st_rep h s l -> st_rep (<[p := v]> h) s l.
Proof.
  intros Hp. apply st_rep_keep. intros q w Hw. exists w. split; [| done]. apply lookup_insert_Some. right. split; [| done]. by intros ->; congruence.
Qed.

(** A new stream in front of the list of its connection. *)
Lemma track_ok a ac v p s : api_ok a -> wrappers a !! ac = Some v -> g_streams (ap_global a) !! p = None -> st_conn s = ac_conn v ->
  exists g, track_stream (ap_global a) p s (Some ac) = Done g /\ api_ok (a <| ap_global := g |>) /\ same_core a (a <| ap_global := g |>).
Proof.
  intros Ha Hv Hp Hsc. unfold track_stream. unfold wrappers in Hv. rewrite Hv. eexists. split; [done |].
  set (s' := s <| st_api_conn := Some ac |> <| st_next := ac_streams v |>). set (w := v <| ac_streams := Some p |>).
  destruct (ak_streams a Ha ac v Hv) as [l Hl]. split; [| by apply (same_core_put a _ ac v w)].
  apply (api_ok_ext (rewrap a ac w (<[p := s']> (g_streams (ap_global a))) [])); [| done | done | cbn; by rewrite app_nil_r].
  apply (rewrap_ok a ac v w); try done.
  - intros c Hc. destruct (ak_conn a Ha ac v Hv) as (c' & Hc' & Hr). change (ac_prev_state w) with (ac_prev_state v). congruence.
  - exists (p :: l). destruct (st_rep_fresh _ _ _ p s' Hp Hl) as [Hl' Hn]. split; [split; [done |]; exists s'; by rewrite lookup_insert_eq |].
    apply list.NoDup_cons. split; [| done]. intros Hin. destruct (st_seg_some _ _ _ _ (proj1 Hl) Hin). congruence.
  - intros s0 l0. by apply st_rep_fresh.
  - intros q s0 [[<- <-] | [_ Hq]]%lookup_insert_Some; [| by apply (ak_owner a Ha q)]. split.
    + change (st_conn s') with (st_conn s). rewrite Hsc. destruct (ak_conn a Ha ac v Hv) as (c & Hc & _). by exists c.
    + intros x [= <-]. by exists v.
  - rewrite app_nil_r. change (ac_prev_state w) with (ac_prev_state v). by apply (ak_told a Ha ac).
Qed.

Section Steps.
Context {Q E : Type} `{System Q E} `{Engine}.

(** An operation on wrappers and connections. *)
Definition api_step (a : nxp_api) (m : outcome unit nxp_api) : Prop := safe m (fun a' => api_ok a' /\ same_core a a').

(** ** Sending *)

Lemma flush_loop_ok fuel : forall now out ac v a, api_ok a -> wrappers a !! ac = Some v -> zlen out = NXP_PACKET_BUF_SIZE ->
  safe (flush_loop fuel now out v a) (fun a' => api_ok a' /\ ap_global a' = ap_global a /\ ap_calls a' = ap_calls a /\ conns_next (ap_conns a) (ap_conns a')).
Proof.
  induction fuel as [| fuel IH]; intros now out ac v a Ha Hv Hout; cbn [flush_loop]; [done |].
  destruct (get_conn_some a ac v Ha Hv) as (c & -> & Hc & Hok & _). cbn [obind].
  eapply safe_bind; [by apply eng_send_ok |]. intros [[n out'] c'] [Hn Hz].
  assert (api_ok (put_conn (next_tick a) (ac_conn v) c')) as Ha' by (eapply (put_conn_ok (next_tick a)); [by apply tick_ok | exact Hc | done]).
  assert (conns_next (ap_conns a) (ap_conns (put_conn (next_tick a) (ac_conn v) c'))) as Hnx by (by apply (conns_next_put a (ac_conn v) c)).
  destruct (n <=? 0); [done |]. eapply safe_impl; [eapply (IH now out' ac v); [by eapply api_ok_ext | exact Hv | congruence] |].
  intros a' (? & ? & ? & ?). split; [done |]. split; [done |]. split; [done |]. by eapply conns_next_trans.
Qed.

Lemma flush_ok fuel a ac : api_ok a -> is_Some (wrappers a !! ac) ->
  safe (nxp_api_flush_conn fuel a ac) (fun a' => api_ok a' /\ ap_global a' = ap_global a /\ ap_calls a' = ap_calls a /\ conns_next (ap_conns a) (ap_conns a')).
Proof.
  intros Ha [v Hv]. unfold nxp_api_flush_conn. rewrite (get_ac_some a ac v Hv). cbn [obind].
  by apply (flush_loop_ok fuel _ _ ac v (next_tick a)); [apply tick_ok | |].
Qed.

(** ** Receiving *)

Lemma accept_streams_ok l : forall a ac v, api_ok a -> wrappers a !! ac = Some v ->
  safe (accept_streams a ac (ac_conn v) l) (fun a' => api_ok a' /\ same_core a a' /\ ap_conns a' = ap_conns a /\
    forall p, state_calls p (ap_calls a') = state_calls p (ap_calls a)).
Proof.
  induction l as [| [id | cb id] l IH]; intros a ac v Ha Hv; cbn [accept_streams]; [done | | by apply IH].
  rewrite (get_ac_some a ac v Hv). cbn [obind].
  set (mem := sys_malloc (ap_tick a) (dom (g_streams (ap_global a)))). unfold on_new_remote_stream. unfold wrappers in Hv. rewrite Hv.
  assert (safe (accept_streams (next_tick a <| ap_global := ap_global a |>) ac (ac_conn v) l)
    (fun a' => api_ok a' /\ same_core a a' /\ ap_conns a' = ap_conns a /\ forall p, state_calls p (ap_calls a') = state_calls p (ap_calls a))) as Hskip.
  { eapply safe_impl; [apply (IH _ ac v); [by apply (api_ok_ext a) | done] | done]. }
  destruct (ac_stream_accept_cb v) as [cb |]; [| exact Hskip]. destruct mem as [p |] eqn:Hmem; [| exact Hskip].
  apply sys_malloc_ok in Hmem. apply not_elem_of_dom in Hmem.
  destruct (track_ok a ac v p (ApiStream id (ac_conn v) None None None None 0 0 false None) Ha Hv Hmem eq_refl) as (g & -> & Hg & Hcore). cbn [obind].
  set (a1 := calls_made _ _). assert (api_ok a1) as Ha1 by (apply other_calls_ok; [by apply (api_ok_ext (a <| ap_global := g |>)) | done]).
  destruct (same_core_some _ _ ac v Hcore Hv) as (v1 & Hv1 & [Hcn _]%core_fields). rewrite Hcn.
  eapply safe_impl; [apply (IH a1 ac v1 Ha1 Hv1) |]. intros a' (Ha' & Hcore' & Hconns & Hcalls). split; [done |].
  split; [by eapply (same_core_trans a (a <| ap_global := g |>)) |]. split; [done |]. intros q. rewrite Hcalls.
  change (ap_calls a1) with (ap_calls a ++ [OnStream (ac_conn v) p cb (ac_stream_accept_ud v)]). by rewrite state_calls_app, app_nil_r.
Qed.

(** The application is told of the state that is seen. *)
Lemma transition_ok a ac v c : api_ok a -> wrappers a !! ac = Some v -> ap_conns a !! ac_conn v = Some c ->
  let a' := put_ac (calls_made a (transition_calls v (cn_state c))) ac (v <| ac_prev_state := cn_state c |>) in api_ok a' /\ same_core a a'.
Proof.
  intros Ha Hv Hc a'. destruct (ak_conn a Ha ac v Hv) as (cx & Hcx & Hrk). rewrite Hc in Hcx. injection Hcx as <-.
  set (w := v <| ac_prev_state := cn_state c |>). split; [| by apply (same_core_put a _ ac v w)].
  apply (api_ok_ext (rewrap a ac w (g_streams (ap_global a)) (transition_calls v (cn_state c)))); [| | done | done].
  - apply (rewrap_ok a ac v w); try done.
    + intros d Hd2. rewrite Hc in Hd2. by injection Hd2 as <-.
    + by apply (ak_streams a Ha ac v).
    + intros p s Hp. by apply (ak_owner a Ha p).
    + rewrite state_calls_app. apply transition_told; [by apply (ak_told a Ha ac) | done].
    + intros p. apply transition_other.
  - unfold a', rewrap, put_ac. cbn. by destruct (ap_global a).
Qed.

Lemma recv_datagram_ok a ac data : api_ok a -> is_Some (wrappers a !! ac) -> bytes_ok data -> api_step a (recv_datagram a ac data).
Proof.
  intros Ha [v Hv] Hd. unfold recv_datagram, api_step. rewrite (get_ac_some a ac v Hv). cbn [obind].
  destruct (get_conn_some a ac v Ha Hv) as (c & -> & Hc & Hok & _). cbn [obind].
  eapply safe_bind; [by apply eng_recv_ok |]. intros c' Hn. set (c1 := c' <| cn_notices := [] |>).
  assert (conn_next c c1) as Hn1 by by apply next_notices.
  pose proof (put_conn_ok (next_tick a) (ac_conn v) c c1 (tick_ok a Ha) Hc Hn1) as Ha1. set (a1 := put_conn _ _ _) in *.
  eapply safe_bind; [by apply (accept_streams_ok (cn_notices c') a1 ac v Ha1) |]. intros a2 (Ha2 & Hcore & Hconns & _).
  destruct (same_core_some _ _ ac v Hcore Hv) as (v2 & Hv2 & Hcv). destruct (core_fields _ _ Hcv) as [Hcn _].
  rewrite (get_ac_some a2 ac v2 Hv2). cbn [obind safe].
  assert (ap_conns a2 !! ac_conn v2 = Some c1) as Hc2 by (rewrite Hconns, <- Hcn; apply lookup_insert_eq).
  destruct (transition_ok a2 ac v2 c1 Ha2 Hv2 Hc2) as [Hok2 Hcore2]. split; [exact Hok2 |].
  eapply (same_core_trans a a2); [exact Hcore | exact Hcore2].
Qed.

Lemma recv_loop_ok fuel : forall a ac, api_ok a -> is_Some (wrappers a !! ac) -> api_step a (recv_loop fuel a ac).
Proof.
  induction fuel as [| fuel IH]; intros a ac Ha [v Hv]; unfold api_step; cbn [recv_loop]; [done |].
  rewrite (get_ac_some a ac v Hv). cbn [obind]. destruct (sys_recv _ _) as [data |] eqn:Hd; [| by split; [apply tick_ok |]].
  apply sys_recv_ok in Hd as [Hd _]. eapply safe_bind; [apply (recv_datagram_ok (next_tick a) ac data (tick_ok a Ha)); [by exists v | done] |].
  intros a' [Ha' Hcore]. destruct (same_core_some _ _ ac v Hcore Hv) as (v' & Hv' & _).
  eapply safe_impl; [apply (IH a' ac Ha'); by exists v' |]. intros a2 [Ha2 Hcore2]. split; [done |]. by eapply same_core_trans.
Qed.

(** ** Notifying streams *)

Lemma dispatch_data_ok a ac : api_ok a -> is_Some (wrappers a !! ac) -> api_step a (dispatch_data a ac).
Proof.
  intros Ha [v Hv]. unfold dispatch_data, api_step. rewrite (get_ac_some a ac v Hv). cbn [obind].
  destruct (get_conn_some a ac v Ha Hv) as (c & -> & Hc & Hok & _). cbn [obind].
  destruct (ak_streams a Ha ac v Hv) as [l Hl]. unfold dispatch_stream_data. pose proof (st_rep_size _ _ _ Hl) as Hsz.
  destruct (dispatch_loop_spec c l (g_streams (ap_global a)) (ac_streams v) (S (size (g_streams (ap_global a)))) Hl) as (h' & -> & Hin & Hout); [lia |].
  assert (forall p s, h' !! p = Some s -> exists s0, g_streams (ap_global a) !! p = Some s0 /\ s = if decide (p ∈ l) then after_notice c s0 else s0) as Hback.
  { intros p s Hp. destruct (decide (p ∈ l)) as [Hpl | Hpl]; [| rewrite Hout in Hp by done; by exists s].
    rewrite Hin in Hp by done. destruct (g_streams (ap_global a) !! p) as [s0 |]; [| done]. exists s0. split; [done | by injection Hp]. }
  assert (forall s, st_next (after_notice c s) = st_next s /\ st_conn (after_notice c s) = st_conn s /\ st_api_conn (after_notice c s) = st_api_conn s) as Hnote
    by (intros s; unfold after_notice; by destruct (has_news c s)).
  cbn [obind safe]. split; [| done]. apply other_calls_ok; [| intros p; generalize (with_news c (g_streams (ap_global a)) l); intros l0; by induction l0].
  apply (api_ok_ext (rewrap a ac v h' [])); [| | done | cbn; by rewrite app_nil_r].
  - assert (forall s0 l0, st_rep (g_streams (ap_global a)) s0 l0 -> st_rep h' s0 l0) as Hkeep.
    { intros s0 l0. apply st_rep_keep. intros p s Hp. destruct (decide (p ∈ l)) as [Hpl | Hpl].
      - rewrite Hin, Hp by done. eexists. split; [done |]. apply Hnote.
      - rewrite Hout by done. by exists s. }
    apply (rewrap_ok a ac v v); try done.
    + intros d Hd. destruct (ak_conn a Ha ac v Hv) as (c' & Hc' & Hr). congruence.
    + exists l. by apply Hkeep.
    + intros p s Hp. destruct (Hback p s Hp) as (s0 & Hs0 & ->). destruct (Hnote s0) as (_ & E1 & E2).
      case_decide; rewrite ?E1, ?E2; by apply (ak_owner a Ha p).
    + rewrite app_nil_r. by apply (ak_told a Ha ac).
  - unfold rewrap. cbn. rewrite insert_id by done. unfold wrappers. by destruct (ap_global a).
Qed.

End Steps.

End Invariant.

Lemma api_ok_mono (used used' : Z -> Prop) a : api_ok (used := used) a -> (forall x, used x -> used' x) -> api_ok (used := used') a.
Proof. intros [? ? ? ? ? ? ? ? [? ?]] Hm. split; auto. Qed.
