(* ===== verification/ApiSafety.v ===== *)
(** * Safety of the API over the event loop

    The handlers of [ApiIo] keep the invariant of [ApiInv] and the discipline of
    timers and registered sockets; so polling and running the loop is safe, whatever
    the network does. *)

From stdpp Require Import gmap.
From S2P Require Import Prelude Types Stream Crypto Connection ConnectionSend ConnectionInv ConnectionSafety.
From S2P Require Import PriorityQueue Sockets EventLoop Epoll ApiObjects ApiIo ApiInv.

Section Safety.
Context {Q E : Type} `{System Q E} `{Engine}.
Context {used : Z -> Prop}.
Notation loop := (nxp_event_loop Q (nxp_epoll_loop * nxp_api)).
Notation api_ok := (api_ok (used := used)).

(** ** Timers *)

(** The timer that a wrapper names is pending and calls the wrapper's handler, and
    every timer that is not cancelled is named by its wrapper; [held] are timers whose
    callback is running. *)
Record timers_ok (l : loop) (held : list Z) : Prop := TimersOk {
  to_named ac v t : wrappers (el_api l) !! ac = Some v -> ac_timer v = Some t ->
    t ∉ held /\ exists d, el_heap l !! t = Some (Timer d on_conn_timer_cb ac false);
  to_all t tm : el_heap l !! t = Some tm -> tm_cancelled tm = false -> t ∉ held ->
    tm_cb tm = on_conn_timer_cb /\ exists v, wrappers (el_api l) !! tm_user_data tm = Some v /\ ac_timer v = Some t
}.

(** Registered sockets belong to wrappers. *)
Definition sources_ok (l : loop) : Prop := forall fd src, registered (el_epoll l) fd = Some src ->
  es_cb src = on_conn_event_cb /\ is_Some (wrappers (el_api l) !! es_user_data src).

Definition api_inv (l : loop) : Prop := api_ok (el_api l) /\ timers_ok l [] /\ sources_ok l.

Definition loop_inv (l : loop) : Prop := ep_inv (el_epoll l) /\ api_inv l.

(** What an operation of a handler does to the loop. *)
Record turn_ok (l : loop) (bag : list (Z * Z)) (held : list Z) (l' : loop) : Prop := TurnOk {
  tu_rep : exists new, loop_rep l' (new ++ bag) held;
  tu_kept : kept l l';
  tu_api : api_ok (el_api l');
  tu_timers : timers_ok l' held;
  tu_epoll : el_epoll l' = el_epoll l;
  tu_dom ac : is_Some (wrappers (el_api l) !! ac) -> is_Some (wrappers (el_api l') !! ac)
}.

Lemma set_api_rep l a bag held : loop_rep l bag held -> loop_rep (set_api l a) bag held.
Proof. by intros [? ? ? ? ?]. Qed.

Lemma put_timer_ok a ac v t : api_ok a -> wrappers a !! ac = Some v -> api_ok (put_ac a ac (v <| ac_timer := t |>)).
Proof. intros Ha Hv. by apply (edit_ok a ac v). Qed.

(** The timer of [ac] is cancelled and forgotten. *)
Lemma disarm_ok l bag held ac v : loop_rep l bag held -> api_ok (el_api l) -> timers_ok l held -> wrappers (el_api l) !! ac = Some v ->
  exists l' v', match ac_timer v with
            | None => Done l
            | Some t => let! l := nxp_event_loop_cancel_timer l (Some t) in set_timer l ac None
            end = Done l' /\ loop_rep l' bag held /\ kept l l' /\ api_ok (el_api l') /\ timers_ok l' held /\ el_epoll l' = el_epoll l /\
    wrappers (el_api l') = <[ac := v']> (wrappers (el_api l)) /\ ac_conn v' = ac_conn v /\ ac_timer v' = None /\ ap_conns (el_api l') = ap_conns (el_api l).
Proof.
  intros Hl Ha Ht Hv. destruct (ac_timer v) as [t |] eqn:Htm.
  2: { exists l, v. rewrite insert_id by done. auto 12 using kept_refl. }
  destruct (to_named _ _ Ht ac v t Hv Htm) as [Hheld [d Hd]].
  destruct (cancel_rep l bag held t Hl ltac:(by eexists)) as (l1 & E1 & Hl1 & Hk & Hsame).
  assert (el_backend l1 = el_backend l /\ forall t' tm, el_heap l1 !! t' = Some tm -> tm_cancelled tm = false -> t' <> t) as [Hb Hcanc].
  { unfold nxp_event_loop_cancel_timer in E1. rewrite Hd in E1. injection E1 as <-. split; [done |]. intros t' tm Ht' Hc ->.
    cbn in Ht'. rewrite lookup_insert_eq in Ht'. injection Ht' as <-. done. }
  rewrite E1. cbn [obind]. assert (el_api l1 = el_api l /\ el_epoll l1 = el_epoll l) as [Hap Hep] by (unfold el_api, el_epoll; by rewrite Hb).
  unfold set_timer. rewrite Hap, (get_ac_some _ ac v Hv). cbn [obind].
  eexists _, (v <| ac_timer := None |>). split; [done |]. split; [by apply set_api_rep |]. split; [done |]. split; [by apply (put_timer_ok (el_api l) ac v None) |].
  split; [| split; [done |]; by split]. split.
  - intros x y t' Hx Hy. change (<[ac := v <| ac_timer := None |>]> (wrappers (el_api l)) !! x = Some y) in Hx.
    apply lookup_insert_Some in Hx as [[<- <-] | [Hne Hx]]; [done |]. destruct (to_named _ _ Ht x y t' Hx Hy) as [Hh [d' Hd']]. split; [done |]. exists d'.
    change (el_heap l1 !! t' = Some (Timer d' on_conn_timer_cb x false)). rewrite Hsame; [done |]. intros ->. congruence.
  - intros t' tm Ht' Hc Hh. change (el_heap l1 !! t' = Some tm) in Ht'. pose proof (Hcanc t' tm Ht' Hc) as Hne. rewrite Hsame in Ht' by done.
    destruct (to_all _ _ Ht t' tm Ht' Hc Hh) as (Hcb & y & Hy & Hyt). split; [done |]. exists y. split; [| done].
    change (<[ac := v <| ac_timer := None |>]> (wrappers (el_api l)) !! tm_user_data tm = Some y). rewrite lookup_insert_ne; [done |].
    intros Heq. rewrite <- Heq in Hy. congruence.
Qed.

(** A new timer, named by [ac]. *)
Lemma arm_ok l bag held ac v mem env d : loop_rep l bag held -> api_ok (el_api l) -> timers_ok l held -> wrappers (el_api l) !! ac = Some v ->
  ac_timer v = None -> (forall t, mem = Some t -> el_heap l !! t = None) -> tq_room env (el_timers l) ->
  safe (let! (t, l) := nxp_event_loop_add_timer mem env l d on_conn_timer_cb ac in set_timer l ac t) (turn_ok l bag held).
Proof.
  intros Hl Ha Ht Hv Htm Hmem Hroom.
  assert (safe (set_timer l ac None) (turn_ok l bag held)) as Hnone.
  { unfold set_timer. rewrite (get_ac_some _ ac v Hv). cbn [obind safe].
    assert (v <| ac_timer := None |> = v) as Hid by (clear -Htm; destruct v; cbn in Htm; by subst).
    pose proof (put_timer_ok _ ac v None Ha Hv) as Ho. rewrite Hid in Ho |- *.
    split; [exists []; by apply set_api_rep | exact (kept_refl l) | done | | done |].
    - destruct Ht as [Hn Hall]. assert (wrappers (el_api (set_api l (put_ac (el_api l) ac v))) = wrappers (el_api l)) as Hw by by apply insert_id.
      split; rewrite Hw; [exact Hn | exact Hall].
    - intros x Hx. change (is_Some (<[ac := v]> (wrappers (el_api l)) !! x)). by rewrite insert_id. }
  destruct mem as [t |]; [| exact Hnone]. specialize (Hmem t eq_refl).
  destruct (add_timer_rep l bag held t env d on_conn_timer_cb ac Hl Hroom Hmem) as (r & l1 & E1 & Hr).
  assert (r = Some t -> el_backend l1 = el_backend l /\ el_heap l1 !! t = Some (Timer d on_conn_timer_cb ac false)) as Hb.
  { revert E1. unfold nxp_event_loop_add_timer. destruct (tq_push env (el_timers l) d t) as [[q |] | |]; cbn [obind]; [| | done | done].
    - intros [= <- <-] _. cbn. by rewrite lookup_insert_eq.
    - by intros [= <- <-]. }
  rewrite E1. cbn [obind]. destruct Hr as [[-> ->] | (-> & Hl1 & Hk & Hsame)]; [exact Hnone |]. destruct (Hb eq_refl) as [Hbk Htt]. clear Hb.
  assert (el_api l1 = el_api l /\ el_epoll l1 = el_epoll l) as [Hap Hep] by (unfold el_api, el_epoll; by rewrite Hbk).
  unfold set_timer. rewrite Hap, (get_ac_some _ ac v Hv). cbn [obind safe]. set (w := v <| ac_timer := Some t |>).
  assert (t ∉ held) as Hth by (intros Hin; destruct (lr_held _ _ _ Hl t Hin); congruence).
  split; [exists [(d, t)]; by apply set_api_rep | done | by apply put_timer_ok | | done |].
  - split.
    + intros x y t' Hx Hy. change (<[ac := w]> (wrappers (el_api l)) !! x = Some y) in Hx. change (el_heap (set_api l1 _)) with (el_heap l1).
      apply lookup_insert_Some in Hx as [[<- <-] | [Hne Hx]].
      * injection Hy as <-. split; [done |]. by exists d.
      * destruct (to_named _ _ Ht x y t' Hx Hy) as [Hh [d' Hd']]. split; [done |]. exists d'. rewrite Hsame; [done |]. intros ->. congruence.
    + intros t' tm Ht' Hc Hh. change (el_heap l1 !! t' = Some tm) in Ht'.
      change (wrappers (el_api (set_api l1 _))) with (<[ac := w]> (wrappers (el_api l))). destruct (decide (t' = t)) as [-> | Hne].
      * rewrite Htt in Ht'. injection Ht' as <-. split; [done |]. exists w. split; [apply lookup_insert_eq | done].
      * rewrite Hsame in Ht' by done. destruct (to_all _ _ Ht t' tm Ht' Hc Hh) as (Hcb & y & Hy & Hyt). split; [done |]. exists y.
        split; [| done]. rewrite lookup_insert_ne; [done |]. intros Heq. rewrite <- Heq in Hy. congruence.
  - intros x Hx. change (is_Some (<[ac := w]> (wrappers (el_api l)) !! x)). apply lookup_insert_is_Some. destruct (decide (ac = x)); [by left | by right].
Qed.

Lemma rearm_ok l bag held ac : loop_rep l bag held -> api_ok (el_api l) -> timers_ok l held -> is_Some (wrappers (el_api l) !! ac) ->
  safe (nxp_api_rearm_timer l ac) (turn_ok l bag held).
Proof.
  intros Hl Ha Ht [v Hv]. unfold nxp_api_rearm_timer. rewrite (get_ac_some _ ac v Hv). cbn [obind].
  destruct (disarm_ok l bag held ac v Hl Ha Ht Hv) as (l1 & v1 & -> & Hl1 & Hk1 & Ha1 & Ht1 & He1 & Hw1 & Hcn & Htm1 & Hc1). cbn [obind].
  destruct (get_conn_some _ ac v Ha Hv) as (c & _ & Hc & Hok & _). unfold get_conn. rewrite Hc1, Hc. cbn [obind].
  eapply safe_bind; [by apply eng_timeout_ok |]. intros deadline _. set (i := ap_tick (el_api l1)).
  assert (wrappers (el_api l1) !! ac = Some v1) as Hv1 by (rewrite Hw1; apply lookup_insert_eq).
  assert (forall x, is_Some (wrappers (el_api l) !! x) -> is_Some (wrappers (el_api l1) !! x)) as Hdom.
  { intros x Hx. rewrite Hw1. apply lookup_insert_is_Some. destruct (decide (ac = x)); [by left | by right]. }
  set (l2 := set_api l1 (next_tick (el_api l1))).
  assert (turn_ok l bag held l2) as Hstop.
  { split; [by exists []; apply set_api_rep | done | by apply tick_ok | by destruct Ht1 | done | done]. }
  destruct (deadline =? UINT64_MAX); [done |].
  eapply safe_impl; [apply (arm_ok l2 bag held ac v1); [by apply set_api_rep | by apply tick_ok | by destruct Ht1 | done | done | | ] |].
  - intros t Hm. apply sys_malloc_ok in Hm. by apply not_elem_of_dom in Hm.
  - by eapply sys_push_ok, (lr_bag _ _ _ Hl1).
  - intros l' [Hr Hk Ha' Ht' He' Hd']. split; [done | by eapply kept_trans | done | done | by etrans; [exact He' | exact He1] | auto].
Qed.

(** ** Handlers *)

(** The same wrappers with the same timers. *)
Definition same_timers (a a' : nxp_api) : Prop := forall ac, ac_timer <$> wrappers a !! ac = ac_timer <$> wrappers a' !! ac.

Lemma core_timers a a' : same_core a a' -> same_timers a a'.
Proof.
  intros Hc ac. specialize (Hc ac). destruct (wrappers a !! ac), (wrappers a' !! ac); cbn in *; try done. f_equal.
  assert (core n = core n0) as (_ & -> & _)%core_fields by congruence. done.
Qed.
Lemma same_timers_some a a' ac v : same_timers a a' -> wrappers a !! ac = Some v -> exists v', wrappers a' !! ac = Some v' /\ ac_timer v' = ac_timer v.
Proof.
  intros Hs Hv. specialize (Hs ac). rewrite Hv in Hs. destruct (wrappers a' !! ac) as [v' |]; [| done]. exists v'. split; [done |].
  cbn [fmap option_fmap option_map] in Hs. congruence.
Qed.

Lemma timers_same l a held : same_timers (el_api l) a -> timers_ok l held -> timers_ok (set_api l a) held.
Proof.
  intros Hc [Hn Ha]. split.
  - intros ac v t Hv Ht. destruct (same_timers_some a (el_api l) ac v ltac:(intros x; by rewrite Hc) Hv) as (v' & Hv' & Htm).
    apply (Hn ac v' t Hv'). congruence.
  - intros t tm Ht Hca Hh. destruct (Ha t tm Ht Hca Hh) as (Hcb & v & Hv & Htm). split; [done |].
    destruct (same_timers_some _ _ _ v Hc Hv) as (v' & Hv' & Htm'). exists v'. split; [done | congruence].
Qed.

Lemma conn_turn_ok fuel l bag held a ac : loop_rep l bag held -> timers_ok l held -> api_ok a -> same_core (el_api l) a ->
  is_Some (wrappers (el_api l) !! ac) -> safe (conn_turn fuel l a ac) (turn_ok l bag held).
Proof.
  intros Hl Ht Ha Hc Hac. unfold conn_turn. pose proof (same_core_dom _ _ ac Hc Hac) as Hac1.
  eapply safe_bind; [by apply (flush_ok (used := used)) |]. intros a1 (Ha1 & Hg & _).
  assert (same_core a a1) as Hc1 by (intros x; unfold wrappers; by rewrite Hg).
  eapply safe_bind; [apply (dispatch_data_ok a1 ac Ha1); by eapply same_core_dom |]. intros a2 [Ha2 Hc2].
  assert (same_core (el_api l) a2) as Hcore by (eapply same_core_trans; [exact Hc |]; by eapply same_core_trans).
  eapply safe_impl; [apply (rearm_ok (set_api l a2) bag held ac); [by apply set_api_rep | done | apply timers_same; [by apply core_timers | done] | by eapply (same_core_dom _ a2)] |].
  intros l' [Hr Hk Ha' Ht' He' Hd]. split; [done | done | done | done | done |]. intros x Hx. apply Hd. by eapply (same_core_dom _ a2).
Qed.

Lemma on_conn_event_ok fuel events ac l bag held : loop_rep l bag held -> timers_ok l held -> api_ok (el_api l) ->
  is_Some (wrappers (el_api l) !! ac) -> safe (on_conn_event fuel events ac l) (turn_ok l bag held).
Proof.
  intros Hl Ht Ha Hac. unfold on_conn_event. eapply (safe_bind _ _ (fun a => api_ok a /\ same_core (el_api l) a)).
  - destruct (negb _); [by apply recv_loop_ok | done].
  - intros a [Ha' Hc]. by apply conn_turn_ok.
Qed.

(** The timer of [ac] has been taken from the queue. *)
Lemma on_conn_timer_ok fuel l bag t ac d : loop_rep l bag [t] -> timers_ok l [] -> api_ok (el_api l) ->
  el_heap l !! t = Some (Timer d on_conn_timer_cb ac false) -> safe (on_conn_timer fuel ac l) (turn_ok l bag [t]).
Proof.
  intros Hl Ht Ha Htm. destruct (to_all _ _ Ht t _ Htm eq_refl) as (_ & v & Hv & Hvt); [apply not_elem_of_nil |]. cbn in Hv.
  unfold on_conn_timer, set_timer. rewrite (get_ac_some _ ac v Hv). cbn [obind]. set (w := v <| ac_timer := None |>).
  set (l1 := set_api l (put_ac (el_api l) ac w)).
  assert (wrappers (el_api l1) = <[ac := w]> (wrappers (el_api l))) as Hw by done.
  assert (timers_ok l1 [t]) as Ht1.
  { destruct Ht as [Hn Hall]. split; rewrite Hw; change (el_heap l1) with (el_heap l).
    - intros x y t' Hx Hy. apply lookup_insert_Some in Hx as [[<- <-] | [Hne Hx]]; [done |]. destruct (Hn x y t' Hx Hy) as [_ [d' Hd']].
      split; [| by exists d']. rewrite list_elem_of_singleton. intros ->. congruence.
    - intros t' tm Ht' Hc Hh. rewrite list_elem_of_singleton in Hh. destruct (Hall t' tm Ht' Hc) as (Hcb & y & Hy & Hyt); [apply not_elem_of_nil |].
      split; [done |]. exists y. split; [| done]. rewrite lookup_insert_ne; [done |]. intros Heq. rewrite <- Heq in Hy. congruence. }
  pose proof (put_timer_ok (el_api l) ac v None Ha Hv) as Ha1. assert (wrappers (el_api l1) !! ac = Some w) as Hw1 by (rewrite Hw; apply lookup_insert_eq).
  rewrite (get_ac_some _ ac w Hw1). cbn [obind]. destruct (get_conn_some _ ac w Ha1 Hw1) as (c & Hg & Hc & Hok & _).
  change (get_conn (el_api l1) (ac_conn w) = Done c) in Hg. rewrite Hg. cbn [obind].
  eapply safe_bind; [apply eng_on_timeout_ok; [done | apply sys_clock_ok] |]. intros c' Hn.
  eapply safe_impl; [apply (conn_turn_ok fuel l1 bag [t]); [by apply set_api_rep | done | | done | by exists w] |].
  - eapply (put_conn_ok (next_tick (el_api l1)) (ac_conn w) c); [by apply tick_ok | exact Hc | done].
  - intros l' [Hr Hk Ha' Ht' He' Hd]. split; [done | done | done | done | done |]. intros x Hx. apply Hd. rewrite Hw. apply lookup_insert_is_Some.
    destruct (decide (ac = x)); [by left | by right].
Qed.

Lemma sources_keep l l' : sources_ok l -> el_epoll l' = el_epoll l ->
  (forall ac, is_Some (wrappers (el_api l) !! ac) -> is_Some (wrappers (el_api l') !! ac)) -> sources_ok l'.
Proof. intros Hs He Hd fd src Hr. rewrite He in Hr. destruct (Hs fd src Hr). auto. Qed.

(** A timer that no wrapper names is freed. *)
Lemma free_inv l bag t l' : loop_rep l bag [t] -> api_ok (el_api l) -> sources_ok l ->
  (forall ac v t', wrappers (el_api l) !! ac = Some v -> ac_timer v = Some t' -> t' <> t /\ exists d, el_heap l !! t' = Some (Timer d on_conn_timer_cb ac false)) ->
  (forall t' tm, el_heap l !! t' = Some tm -> tm_cancelled tm = false -> t' <> t ->
    tm_cb tm = on_conn_timer_cb /\ exists v, wrappers (el_api l) !! tm_user_data tm = Some v /\ ac_timer v = Some t') ->
  ep_inv (el_epoll l) -> free_timer l t = Done l' -> loop_inv l'.
Proof.
  intros Hl Ha Hs Hn Hall He. unfold free_timer. destruct (el_heap l !! t); [| done]. intros [= <-]. split; [done |]. split; [done |]. split; [| done].
  split; cbn [el_heap].
  - intros ac v t' Hv Ht. destruct (Hn ac v t' Hv Ht) as [Hne [d Hd]]. split; [apply not_elem_of_nil |]. exists d. cbn. by rewrite lookup_delete_ne.
  - intros t' tm Ht Hc _. cbn in Ht. apply lookup_delete_Some in Ht as [Hne Ht]. by apply Hall.
Qed.

Lemma api_app_ok fuel now : app_ok (api_on_timer fuel) loop_inv false now.
Proof.
  split.
  - intros l bag t tm bag' q l' [Hl (He & Ha & Ht & Hs) Htm Hp Hq] Hc Hf. pose proof (pop_rep l bag [] _ t bag' q Hl Hp Hq) as Hl1.
    destruct Ht as [Hn Hall]. eapply (free_inv (l <| el_timers := q |>)); [exact Hl1 | done | done | | | done | exact Hf].
    + intros ac v t' Hv Hvt. destruct (Hn ac v t' Hv Hvt) as [_ [d Hd]]. split; [| by exists d]. intros ->. rewrite Hd in Htm. by injection Htm as <-.
    + intros t' tm' Ht' Hc' _. apply (Hall t' tm' Ht' Hc'), not_elem_of_nil.
  - intros l bag t tm bag' q [Hl (He & Ha & Ht & Hs) Htm Hp Hq] Hc _. pose proof (pop_rep l bag [] _ t bag' q Hl Hp Hq) as Hl1.
    destruct (to_all _ _ Ht t tm Htm Hc) as (Hcb & v & Hv & Hvt); [apply not_elem_of_nil |]. unfold api_on_timer. rewrite Hcb, Z.eqb_refl.
    assert (tm = Timer (tm_deadline_us tm) on_conn_timer_cb (tm_user_data tm) false) as Htm' by (destruct tm; cbn in *; congruence).
    rewrite Htm' in Htm. pose proof (on_conn_timer_ok fuel (l <| el_timers := q |>) bag' t (tm_user_data tm) _ Hl1 ltac:(by destruct Ht) Ha Htm) as Hsafe.
    destruct (on_conn_timer fuel (tm_user_data tm) _) as [l1 | |]; [| done | done]. destruct Hsafe as [[new Hr] Hk Ha' Ht' Hep Hd].
    exists new. split; [done |]. split; [done |]. split; [done |]. intros l' Hf. destruct Ht' as [Hn' Hall'].
    eapply (free_inv l1); [exact Hr | done | by eapply (sources_keep (l <| el_timers := q |>)) | | | by rewrite Hep | exact Hf].
    + intros ac w t' Hw Hwt. destruct (Hn' ac w t' Hw Hwt) as [Hne Hex]. rewrite list_elem_of_singleton in Hne. done.
    + intros t' tm2 Ht2 Hc2 Hne. apply (Hall' t' tm2 Ht2 Hc2). by rewrite list_elem_of_singleton.
Qed.

Lemma api_handlers_ok fuel : handlers_ok (api_on_socket fuel) api_inv.
Proof.
  intros fd src ev l ([bag Hl] & He & Ha & Ht & Hs) Hreg. destruct (Hs fd src Hreg) as [Hcb Hac]. unfold api_on_socket. rewrite Hcb, Z.eqb_refl.
  pose proof (on_conn_event_ok fuel ev (es_user_data src) l bag [] Hl Ht Ha Hac) as Hsafe.
  destruct (on_conn_event fuel ev (es_user_data src) l) as [l' | |]; [| done | done]. destruct Hsafe as [[new Hr] Hk Ha' Ht' Hep Hd].
  split; [| by rewrite Hep]. split; [by exists (new ++ bag) |]. rewrite Hep. split; [done |]. split; [done |]. split; [done |]. by eapply sources_keep.
Qed.

Lemma api_backend_ok fuel wait : poll_ok (api_backend fuel wait) loop_inv.
Proof.
  intros ms l bag Hl [He Ha]. unfold api_backend.
  pose proof (poll_safe (api_on_socket fuel) api_inv wait ms l (api_handlers_ok fuel) ltac:(split; [by exists bag | by split])) as Hp.
  destruct (epoll_poll _ wait ms l) as [[[r tr] l'] | |]; cbn [obind]; [| done | done]. destruct Hp as [([bag' Hl'] & He' & Ha') _].
  exists bag'. split; [done | by split].
Qed.

Lemma running_inv l b : loop_inv l -> loop_inv (l <| el_running := b |>).
Proof. intros (He & Ha & [Hn Hall] & Hs). split; [done |]. split; [done |]. split; [by split | done]. Qed.

(** The timers that are pending and the state of the library fit together. *)
Definition api_rep (l : loop) : Prop := (exists bag, loop_rep l bag []) /\ loop_inv l.

(** An operation on wrappers and connections in place. *)
Definition on_api (l : loop) (m : outcome unit nxp_api) : outcome unit loop := let! a := m in Done (set_api l a).

Lemma on_api_ok l m : api_rep l -> safe m (fun a => api_ok a /\ same_timers (el_api l) a) -> safe (on_api l m) api_rep.
Proof.
  intros ([bag Hl] & He & Ha & Ht & Hs) Hm. unfold on_api. eapply safe_bind; [exact Hm |]. intros a [Ha' Hsame].
  split; [exists bag; by apply set_api_rep |]. split; [done |]. split; [done |]. split; [by apply timers_same |].
  intros fd src Hr. destruct (Hs fd src Hr) as [Hcb [v Hv]]. split; [done |]. destruct (same_timers_some _ _ _ v Hsame Hv) as (v' & Hv' & _). by exists v'.
Qed.

(** Polling and running the library is safe for client connections. *)
Lemma poll_rep_safe fuel wait now now' l : api_rep l -> safe (nxp_poll fuel wait now now' l) api_rep.
Proof.
  intros [[bag Hl] Hi]. unfold nxp_poll.
  pose proof (run_once_safe _ _ _ false now now' 1 fuel l bag (api_app_ok fuel now') (api_backend_ok fuel wait) Hl Hi) as Hs.
  destruct (nxp_event_loop_run_once _ _ _ _ _ _ l) as [[[r tr] l'] | |]; [| done | done]. destruct Hs as (bag' & ? & ? & _). split; [by exists bag' | done].
Qed.

Lemma run_rep_safe fuel wait clock l : api_rep l -> safe (nxp_run fuel wait clock l) api_rep.
Proof.
  intros [[bag Hl] Hi]. unfold nxp_run, nxp_event_loop_run.
  pose proof (run_loop_safe _ _ _ clock (fun i => api_app_ok fuel _) (api_backend_ok fuel wait) fuel 0 (l <| el_running := true |>) bag) as Hs.
  destruct (run_loop _ _ _ _ _ _) as [[r l'] | |]; [| done |].
  - destruct Hs as (bag' & ? & ?); [by destruct Hl | by apply running_inv | split; [by exists bag' | done]].
  - apply Hs; [by destruct Hl | by apply running_inv].
Qed.

End Safety.
