(* ===== verification/ApiCalls.v ===== *)
(** * Calls of the application (src/src/api/nxp_api.c)

    The public operations on connections and streams, with what each keeps of the
    invariant of the library; what closing a stream leaves behind; and the end of a
    stream on which everything was sent. *)

From stdpp Require Import gmap.
From S2P Require Import Prelude Types Pacing Stream Scheduler Handshake Crypto Connection ConnectionSend ConnectionInv ConnectionSafety.
From S2P Require Import PriorityQueue Sockets EventLoop Epoll ApiObjects ApiIo ApiInv ApiSafety.

Section Calls.
Context {Q E : Type} `{System Q E} `{Engine} `{Allocator}.
Notation loop := (nxp_event_loop Q (nxp_epoll_loop * nxp_api)).

(** ** Connections; a null pointer is [None] *)

Definition nxp_conn_close (fuel : nat) (a : nxp_api) (conn : option Z) (error_code : Z) : outcome unit nxp_api :=
  match conn with
  | None => Done a
  | Some p =>
      let! c := get_conn a p in
      let a := match nxp_conn_initiate_close c error_code with Done c => put_conn a p c | _ => a end in
      let! ac := nxp_api_find_conn (ap_global a) p in
      match ac with None => Done a | Some ac => nxp_api_flush_conn fuel a ac end
  end.

Definition nxp_conn_get_stats (a : nxp_api) (conn : option Z) : outcome unit nxp_conn_stats :=
  match conn with None => Done stats_zero | Some p => let! c := get_conn a p in Done (cn_stats c) end.

(** [ac = nxp_api_find_conn(conn); if (ac == nullptr) return; ...] *)
Definition with_wrapper (a : nxp_api) (conn : option Z) (f : nxp_api_conn -> nxp_api_conn) : outcome unit nxp_api :=
  match conn with
  | None => Done a
  | Some p =>
      let! ac := nxp_api_find_conn (ap_global a) p in
      match ac with None => Done a | Some ac => let! v := get_ac a ac in Done (put_ac a ac (f v)) end
  end.

Definition nxp_conn_set_callbacks (a : nxp_api) (conn on_connected on_closed : option Z) (user_data : Z) : outcome unit nxp_api :=
  with_wrapper a conn (fun v => v <| ac_on_connected := on_connected |> <| ac_on_closed := on_closed |> <| ac_cb_user_data := user_data |>).

Definition nxp_conn_set_stream_accept_cb (a : nxp_api) (conn cb : option Z) (user_data : Z) : outcome unit nxp_api :=
  match conn with
  | None => Done a
  | Some p =>
      let! ac := nxp_api_find_conn (ap_global a) p in
      match ac with
      | None => Done a
      | Some ac =>
          let! v := get_ac a ac in
          let a := put_ac a ac (v <| ac_stream_accept_cb := cb |> <| ac_stream_accept_ud := user_data |>) in
          let! c := get_conn a p in
          Done (put_conn a p (c <| cn_on_new_stream := true |>))
      end
  end.

Definition nxp_conn_set_user_data (a : nxp_api) (conn : option Z) (data : Z) : outcome unit nxp_api :=
  with_wrapper a conn (fun v => v <| ac_app_user_data := data |>).

Definition nxp_conn_get_user_data (a : nxp_api) (conn : option Z) : outcome unit (option Z) :=
  match conn with
  | None => Done None
  | Some p =>
      let! ac := nxp_api_find_conn (ap_global a) p in
      match ac with None => Done None | Some ac => let! v := get_ac a ac in Done (Some (ac_app_user_data v)) end
  end.

(** ** Streams *)

Definition get_stream (a : nxp_api) (p : Z) : outcome unit nxp_stream :=
  match g_streams (ap_global a) !! p with None => Ub | Some s => Done s end.

Definition flush_opt (fuel : nat) (a : nxp_api) (ac : option Z) : outcome unit nxp_api :=
  match ac with None => Done a | Some ac => nxp_api_flush_conn fuel a ac end.

(** [conn] and [out_stream] are not null; the priority is ignored. *)
Definition nxp_stream_open (fuel : nat) (a : nxp_api) (conn : Z) (type : nxp_stream_type) (on_data on_writable on_close : option Z) (user_data : Z)
  : outcome unit ((nxp_error_code + Z) * nxp_api) :=
  let! c := get_conn a conn in
  match nxp_conn_open_stream c type false with
  | Ub => Ub
  | Err (e, c) => Done (inl e, put_conn a conn c)
  | Done (id, c) =>
      let mem := sys_malloc (ap_tick a) (dom (g_streams (ap_global a))) in
      let a := next_tick (put_conn a conn c) in
      match mem with
      | None => Done (inl NXP_ERR_OUT_OF_MEMORY, a)
      | Some p =>
          let! ac := nxp_api_find_conn (ap_global a) conn in
          let! g := track_stream (ap_global a) p (ApiStream id conn None on_data on_writable on_close user_data 0 false None) ac in
          let! a := flush_opt fuel (a <| ap_global := g |>) ac in
          Done (inr p, a)
      end
  end.

(** The engine's result, and the connection it leaves. *)
Definition engine_write (a : nxp_api) (s : nxp_stream) (data : list Z) (fin : bool) : outcome unit (Z * nxp_api) :=
  let! c := get_conn a (st_conn s) in
  match nxp_conn_stream_send c (st_id s) data fin with
  | Ub => Ub
  | Err (_, c) => Done (-1, put_conn a (st_conn s) c)
  | Done (n, c) => Done (n, put_conn a (st_conn s) c)
  end.

Definition nxp_stream_send (fuel : nat) (a : nxp_api) (stream : option Z) (data : list Z) (fin : bool) : outcome unit (Z * nxp_api) :=
  match stream with
  | None => Done (-1, a)
  | Some p =>
      let! s := get_stream a p in
      let! (written, a) := engine_write a s data fin in
      let! a := if written >? 0 then flush_opt fuel a (st_api_conn s) else Done a in
      Done (written, a)
  end.

(** The bytes read, [None] for -1, and the FIN flag. *)
Definition nxp_stream_recv (a : nxp_api) (stream : option Z) (buf_cap : Z) : outcome unit (option (list Z) * bool * nxp_api) :=
  match stream with
  | None => Done (None, false, a)
  | Some p =>
      let! s := get_stream a p in
      let! c := get_conn a (st_conn s) in
      match nxp_conn_stream_recv c (st_id s) buf_cap with
      | Ub => Ub
      | Err _ => Done (None, false, a)
      | Done (bytes, fin, c) => Done (bytes, fin, put_conn a (st_conn s) c)
      end
  end.

Inductive nxp_shutdown_dir : Type := NXP_SHUTDOWN_READ | NXP_SHUTDOWN_WRITE | NXP_SHUTDOWN_BOTH.

Definition nxp_stream_shutdown (fuel : nat) (a : nxp_api) (stream : option Z) (dir : nxp_shutdown_dir) : outcome unit nxp_api :=
  match stream, dir with
  | None, _ | _, NXP_SHUTDOWN_READ => Done a
  | Some p, _ =>
      let! s := get_stream a p in
      let! (_, a) := engine_write a s [] true in
      flush_opt fuel a (st_api_conn s)
  end.

Definition nxp_stream_close (fuel : nat) (a : nxp_api) (stream : option Z) : outcome unit nxp_api :=
  match stream with
  | None => Done a
  | Some p =>
      let! s := get_stream a p in
      let! (_, a) := engine_write a s [] true in
      let! a := flush_opt fuel a (st_api_conn s) in
      let! g := free_stream (ap_global a) p in
      Done (a <| ap_global := g |>)
  end.

Definition nxp_stream_get_id (a : nxp_api) (stream : option Z) : outcome unit Z :=
  match stream with None => Done UINT64_MAX | Some p => let! s := get_stream a p in Done (st_id s) end.

Definition nxp_stream_set_user_data (a : nxp_api) (stream : option Z) (data : Z) : outcome unit nxp_api :=
  match stream with
  | None => Done a
  | Some p =>
      let! s := get_stream a p in
      Done (a <| ap_global := (ap_global a) <| g_streams := <[p := s <| st_user_data := data |>]> (g_streams (ap_global a)) |> |>)
  end.

Definition nxp_stream_get_user_data (a : nxp_api) (stream : option Z) : outcome unit Z :=
  match stream with None => Done 0 | Some p => let! s := get_stream a p in Done (st_user_data s) end.

(** ** Safety of the calls *)

Context {used : Z -> Prop}.
Notation api_ok := (api_ok (used := used)).

Lemma find_ok a p : api_ok a -> exists r, nxp_api_find_conn (ap_global a) p = Done r /\
  forall ac, r = Some ac -> exists v, wrappers a !! ac = Some v /\ ac_conn v = p.
Proof.
  intros Ha. destruct (ak_list a Ha) as [l Hl]. rewrite (find_conn_spec _ l p Hl). eexists. split; [done |].
  intros ac Hac. apply first_of_some in Hac as (v & Hv & Ht%Z.eqb_eq). by exists v.
Qed.

(** What a call does. *)
Definition call_ok (a : nxp_api) (m : outcome unit nxp_api) : Prop := safe m (fun a' => api_ok a' /\ same_timers a a').

Lemma same_timers_refl a : same_timers a a.
Proof. done. Qed.
Lemma global_timers a a' : ap_global a' = ap_global a -> same_timers a a'.
Proof. intros Hg ac. unfold wrappers. by rewrite Hg. Qed.
Lemma same_timers_trans a b c : same_timers a b -> same_timers b c -> same_timers a c.
Proof. intros Hab Hbc ac. by rewrite Hab. Qed.
Lemma put_ac_timers a ac v w : wrappers a !! ac = Some v -> ac_timer w = ac_timer v -> same_timers a (put_ac a ac w).
Proof.
  intros Hv Hw x. change (wrappers (put_ac a ac w)) with (<[ac := w]> (wrappers a)). destruct (decide (x = ac)) as [-> | Hne]; [| by rewrite lookup_insert_ne].
  rewrite lookup_insert_eq, Hv. cbn. by rewrite Hw.
Qed.

Lemma flush_opt_ok fuel a ac : api_ok a -> (forall x, ac = Some x -> is_Some (wrappers a !! x)) ->
  safe (flush_opt fuel a ac) (fun a' => api_ok a' /\ ap_global a' = ap_global a).
Proof.
  intros Ha Hac. destruct ac as [ac |]; [| done]. eapply safe_impl; [apply (flush_ok (used := used)); [done | by apply Hac] |]. by intros a' (? & ? & _).
Qed.

Lemma conn_close_ok fuel a conn e : api_ok a -> (forall p, conn = Some p -> is_Some (ap_conns a !! p)) -> 0 <= e ->
  call_ok a (nxp_conn_close fuel a conn e).
Proof.
  intros Ha Hp He. destruct conn as [p |]; [| by split]. destruct (Hp p eq_refl) as [c Hc]. unfold nxp_conn_close, get_conn. rewrite Hc. cbn [obind].
  set (a1 := match nxp_conn_initiate_close c e with Done c => put_conn a p c | _ => a end).
  assert (api_ok a1 /\ ap_global a1 = ap_global a) as [Ha1 Hg].
  { unfold a1, nxp_conn_initiate_close. destruct (_ || _); [done |]. split; [| done]. eapply put_conn_ok; [done | exact Hc |].
    apply next_close_code; [| done]. apply next_close, conn_next_refl. by eapply ak_engine. }
  destruct (find_ok a1 p Ha1) as (r & -> & Hr). cbn [obind].
  eapply safe_impl; [apply (flush_opt_ok fuel a1 r Ha1); intros x ->; destruct (Hr x eq_refl) as (v & ? & _); by exists v |].
  intros a' [Ha' Hg']. split; [done |]. apply global_timers. congruence.
Qed.

Lemma with_wrapper_ok a conn f : api_ok a ->
  (forall v, same_place v (f v) /\ ac_prev_state (f v) = ac_prev_state v /\ ac_streams (f v) = ac_streams v /\ ac_timer (f v) = ac_timer v) ->
  call_ok a (with_wrapper a conn f).
Proof.
  intros Ha Hf. destruct conn as [p |]; [| by split]. unfold with_wrapper. destruct (find_ok a p Ha) as (r & -> & Hr). cbn [obind].
  destruct r as [ac |]; [| by split]. destruct (Hr ac eq_refl) as (v & Hv & _). rewrite (get_ac_some a ac v Hv). cbn [obind].
  destruct (Hf v) as (? & ? & ? & ?). split; [by apply (edit_ok a ac v) | by apply (put_ac_timers a ac v)].
Qed.

Lemma accept_cb_ok a conn cb ud : api_ok a -> call_ok a (nxp_conn_set_stream_accept_cb a conn cb ud).
Proof.
  intros Ha. destruct conn as [p |]; [| by split]. unfold nxp_conn_set_stream_accept_cb. destruct (find_ok a p Ha) as (r & -> & Hr). cbn [obind].
  destruct r as [ac |]; [| by split]. destruct (Hr ac eq_refl) as (v & Hv & <-). rewrite (get_ac_some a ac v Hv). cbn [obind].
  set (w := v <| ac_stream_accept_cb := cb |> <| ac_stream_accept_ud := ud |>). assert (api_ok (put_ac a ac w)) as Ha1 by by apply (edit_ok a ac v).
  destruct (get_conn_some a ac v Ha Hv) as (c & Hg & Hc & Hok & _).
  change (get_conn (put_ac a ac w) (ac_conn v)) with (get_conn a (ac_conn v)). rewrite Hg. cbn [obind].
  split; [| by apply (put_ac_timers a ac v w)]. eapply (put_conn_ok _ _ c); [done | exact Hc |]. by apply next_notify, conn_next_refl.
Qed.

Lemma engine_write_ok a p s data fin : api_ok a -> g_streams (ap_global a) !! p = Some s ->
  safe (engine_write a s data fin) (fun '(n, a') => api_ok a' /\ ap_global a' = ap_global a).
Proof.
  intros Ha Hs. destruct (ak_owner a Ha p s Hs) as [[c Hc] _]. unfold engine_write, get_conn. rewrite Hc. cbn [obind].
  pose proof (conn_stream_send_keeps c (st_id s) data fin (ak_engine a Ha _ c Hc)) as Hk.
  destruct (nxp_conn_stream_send c (st_id s) data fin) as [[n c'] | [e c'] |]; cbn in Hk |- *; [| | done].
  - split; [| done]. eapply put_conn_ok; [done | exact Hc | apply Hk].
  - split; [| done]. by eapply put_conn_ok.
Qed.

Lemma owner_some a p s a' : api_ok a -> g_streams (ap_global a) !! p = Some s -> ap_global a' = ap_global a ->
  forall x, st_api_conn s = Some x -> is_Some (wrappers a' !! x).
Proof. intros Ha Hs Hg x Hx. unfold wrappers. rewrite Hg. by apply (ak_owner a Ha p s Hs). Qed.

Lemma get_stream_some a p : is_Some (g_streams (ap_global a) !! p) -> exists s, g_streams (ap_global a) !! p = Some s /\ get_stream a p = Done s.
Proof. intros [s Hs]. exists s. split; [done |]. unfold get_stream. by rewrite Hs. Qed.

Lemma stream_send_ok fuel a stream data fin : api_ok a -> (forall p, stream = Some p -> is_Some (g_streams (ap_global a) !! p)) ->
  safe (nxp_stream_send fuel a stream data fin) (fun '(n, a') => api_ok a' /\ same_timers a a').
Proof.
  intros Ha Hp. destruct stream as [p |]; [| by split]. destruct (get_stream_some a p (Hp p eq_refl)) as (s & Hs & Eq). unfold nxp_stream_send. rewrite Eq. cbn [obind].
  eapply safe_bind; [by eapply engine_write_ok |]. intros [n a1] [Ha1 Hg1]. eapply (safe_bind _ _ (fun a2 => api_ok a2 /\ ap_global a2 = ap_global a1)).
  - destruct (n >? 0); [| done]. apply flush_opt_ok; [done | exact (owner_some a p s a1 Ha Hs Hg1)].
  - intros a2 [Ha2 Hg2]. split; [done |]. apply global_timers. congruence.
Qed.

Lemma shutdown_ok fuel a stream dir : api_ok a -> (forall p, stream = Some p -> is_Some (g_streams (ap_global a) !! p)) ->
  call_ok a (nxp_stream_shutdown fuel a stream dir).
Proof.
  intros Ha Hp. destruct stream as [p |]; [| by split]. destruct (get_stream_some a p (Hp p eq_refl)) as (s & Hs & Eq).
  assert (call_ok a (let! s := get_stream a p in let! (_, a) := engine_write a s [] true in flush_opt fuel a (st_api_conn s))) as Hgo.
  { rewrite Eq. cbn [obind]. unfold call_ok. eapply safe_bind; [by eapply engine_write_ok |]. intros [n a1] [Ha1 Hg1].
    eapply safe_impl; [apply flush_opt_ok; [done | exact (owner_some a p s a1 Ha Hs Hg1)] |]. intros a2 [Ha2 Hg2]. split; [done |]. apply global_timers. congruence. }
  destruct dir; [by split | exact Hgo | exact Hgo].
Qed.

Lemma stream_recv_ok a stream n : api_ok a -> (forall p, stream = Some p -> is_Some (g_streams (ap_global a) !! p)) -> 0 <= n <= NXP_STREAM_BUF_SIZE ->
  safe (nxp_stream_recv a stream n) (fun '(_, _, a') => api_ok a' /\ same_timers a a').
Proof.
  intros Ha Hp Hn. destruct stream as [p |]; [| by split]. destruct (get_stream_some a p (Hp p eq_refl)) as (s & Hs & Eq). unfold nxp_stream_recv. rewrite Eq. cbn [obind].
  destruct (ak_owner a Ha p s Hs) as [[c Hc] _]. unfold get_conn. rewrite Hc. cbn [obind].
  destruct (conn_stream_recv_keeps c (st_id s) n (ak_engine a Ha _ c Hc) Hn) as (b & f & c' & -> & Hnx). split; [| done]. by eapply put_conn_ok.
Qed.

Lemma untracked_ok a p s : api_ok a -> g_streams (ap_global a) !! p = None -> is_Some (ap_conns a !! st_conn s) ->
  exists g, track_stream (ap_global a) p s None = Done g /\ api_ok (a <| ap_global := g |>) /\ same_core a (a <| ap_global := g |>).
Proof.
  intros [Heng Hc Hs Hi Ht Hl Ho Hqu Hus] Hp Hsc. eexists. split; [done |]. split; [| done].
  split; [exact Heng | exact Hc | | exact Hi | exact Ht | exact Hl | | exact Hqu | exact Hus].
  - intros ac v Hv. destruct (Hs ac v Hv) as [l Hrep]. exists l. by apply st_rep_fresh.
  - intros q s0 Hq. change (<[p := s <| st_api_conn := None |>]> (g_streams (ap_global a)) !! q = Some s0) in Hq.
    apply lookup_insert_Some in Hq as [[<- <-] | [_ Hq]]; [by split | by apply (Ho q)].
Qed.

Lemma stream_open_ok fuel a conn type d w cl ud : api_ok a -> is_Some (ap_conns a !! conn) ->
  safe (nxp_stream_open fuel a conn type d w cl ud) (fun '(_, a') => api_ok a' /\ same_timers a a').
Proof.
  intros Ha [c Hc]. unfold nxp_stream_open, get_conn. rewrite Hc. cbn [obind]. pose proof (open_stream_keeps c type false (ak_engine a Ha _ c Hc)) as Hk.
  destruct (nxp_conn_open_stream c type false) as [[id c'] | [e c'] |]; cbn in Hk; [| | done].
  2: { split; [| done]. by eapply put_conn_ok. }
  destruct Hk as [Hn _]. set (mem := sys_malloc _ _). set (a1 := next_tick (put_conn a conn c')).
  assert (api_ok a1) as Ha1 by (apply tick_ok; by eapply put_conn_ok). destruct mem as [p |] eqn:Hm; [| by split].
  apply sys_malloc_ok, not_elem_of_dom in Hm. destruct (find_ok a1 conn Ha1) as (r & -> & Hr). cbn [obind]. set (s := ApiStream _ _ _ _ _ _ _ _ _ _).
  assert (exists g, track_stream (ap_global a1) p s r = Done g /\ api_ok (a1 <| ap_global := g |>) /\ same_core a1 (a1 <| ap_global := g |>)) as (g & -> & Hg & Hcore).
  { destruct r as [ac |].
    - destruct (Hr ac eq_refl) as (v & Hv & Hcv). by apply (track_ok a1 ac v p s).
    - apply untracked_ok; [done | done |]. change (ap_conns a1) with (<[conn := c']> (ap_conns a)). change (st_conn s) with conn.
      rewrite lookup_insert_eq. by eexists. }
  cbn [obind]. eapply safe_bind; [apply flush_opt_ok; [exact Hg |] |].
  - intros x ->. destruct (Hr x eq_refl) as (v & Hv & _). eapply (same_core_dom a1); [done | by exists v].
  - intros a2 [Ha2 Hg2]. split; [done |]. eapply (same_timers_trans a (a1 <| ap_global := g |>)); [by apply (core_timers a1) | by apply global_timers].
Qed.

Lemma stream_user_data_ok a stream d : api_ok a -> (forall p, stream = Some p -> is_Some (g_streams (ap_global a) !! p)) ->
  call_ok a (nxp_stream_set_user_data a stream d).
Proof.
  intros Ha Hp. destruct stream as [p |]; [| by split]. destruct (get_stream_some a p (Hp p eq_refl)) as (s & Hs & Eq).
  unfold nxp_stream_set_user_data. rewrite Eq. cbn [obind]. split; [| done]. destruct Ha as [Heng Hc Hst Hi Ht Hl Ho Hqu Hus].
  split; [exact Heng | exact Hc | | exact Hi | exact Ht | exact Hl | | exact Hqu | exact Hus].
  - intros ac v Hv. destruct (Hst ac v Hv) as [l Hrep]. exists l. eapply st_rep_keep; [| exact Hrep]. intros q u Hq.
    change (exists v', <[p := s <| st_user_data := d |>]> (g_streams (ap_global a)) !! q = Some v' /\ st_next v' = st_next u).
    destruct (decide (q = p)) as [-> | Hne]; [| rewrite lookup_insert_ne by done; by exists u]. rewrite lookup_insert_eq.
    assert (u = s) as -> by congruence. by eexists.
  - intros q u Hq. change (<[p := s <| st_user_data := d |>]> (g_streams (ap_global a)) !! q = Some u) in Hq.
    apply lookup_insert_Some in Hq as [[<- <-] | [_ Hq]]; [exact (Ho p s Hs) | by apply (Ho q)].
Qed.

(** The call itself is defined; what it leaves is the next theorem. *)
Lemma stream_close_defined fuel a stream : api_ok a -> (forall p, stream = Some p -> is_Some (g_streams (ap_global a) !! p)) ->
  safe (nxp_stream_close fuel a stream) (fun _ => True).
Proof.
  intros Ha Hp. destruct stream as [p |]; [| done]. destruct (get_stream_some a p (Hp p eq_refl)) as (s & Hs & Eq).
  unfold nxp_stream_close. rewrite Eq. cbn [obind]. eapply safe_bind; [by eapply engine_write_ok |]. intros [n a1] [Ha1 Hg1].
  eapply safe_bind; [apply flush_opt_ok; [done | exact (owner_some a p s a1 Ha Hs Hg1)] |]. intros a2 [Ha2 Hg2].
  assert (ap_global a2 = ap_global a) as Hg by congruence. unfold free_stream. by rewrite Hg, Hs.
Qed.

(** C40: Closing a stream frees its wrapper but leaves it in the list of its
    connection: the next event or timer of that connection follows the freed
    wrapper. *)
Theorem stream_close_use_after_free fuel a ac v l p : api_ok a -> wrappers a !! ac = Some v ->
  st_rep (g_streams (ap_global a)) (ac_streams v) l -> p ∈ l ->
  safe (nxp_stream_close fuel a (Some p)) (fun a' => dispatch_data a' ac = Ub).
Proof.
  intros Ha Hv Hl Hp. destruct (st_seg_some _ _ _ _ (proj1 Hl) Hp) as [s Hs]. unfold nxp_stream_close, get_stream. rewrite Hs. cbn [obind].
  eapply safe_bind; [by eapply engine_write_ok |]. intros [n a1] [Ha1 Hg1].
  eapply safe_bind; [apply flush_opt_ok; [done | exact (owner_some a p s a1 Ha Hs Hg1)] |]. intros a2 [Ha2 Hg2].
  assert (ap_global a2 = ap_global a) as Hg by congruence. assert (wrappers a2 !! ac = Some v) as Hv2 by (unfold wrappers; by rewrite Hg).
  destruct (get_conn_some a2 ac v Ha2 Hv2) as (c & Hc & _).
  destruct (freed_stream_dangles c (ap_global a2) v l p) as (g & Hf & Hub); [by rewrite Hg | done |]. rewrite Hf. cbn [obind safe].
  unfold dispatch_data, get_ac, wrappers. change (ap_global (a2 <| ap_global := g |>)) with g.
  assert (g_api_conns g = g_api_conns (ap_global a2)) as -> by (unfold free_stream in Hf; destruct (g_streams (ap_global a2) !! p); [by injection Hf as <- | done]).
  unfold wrappers in Hv2. rewrite Hv2. cbn [obind]. unfold get_conn in Hc |- *. change (ap_conns (a2 <| ap_global := g |>)) with (ap_conns a2).
  rewrite Hc. cbn [obind]. by rewrite Hub.
Qed.

End Calls.

(** ** The end of a stream *)

Section Fin.
Context `{OpenSSLLaws}.

(** Nothing is scheduled: a packet without control frames is not sent. *)
Lemma send_nothing fuel ok c out now : data_only c out now -> queued c [] -> exists c', nxp_conn_send (S fuel) ok c out now = Done (0, out, c').
Proof.
  intros [Hst Hhs Hpa Hct _ [Hcid Hout]] Hq. unfold nxp_conn_send.
  assert (match cn_handshake c with Some hs => nxp_handshake_has_data hs | None => false end = false) as -> by by destruct (cn_handshake c).
  rewrite Hst, bool_decide_true by done. cbn [negb orb]. cbv zeta. set (c1 := c <| cn_last_activity_us := now |> <| cn_pacer := _ |>).
  change (cn_pacer c1) with (Pacer.nxp_pacer_update (cn_pacer c) now). rewrite Hpa. cbn [negb andb].
  assert (has_control_frames c1 = false) as Hct1 by exact Hct. assert (queued c1 []) as [Hs1 _] by exact Hq. clearbody c1. unfold send_data_packet.
  destruct (zlen out <? _); [by eexists |]. set (space := if _ >? NXP_PACKET_BUF_SIZE then _ else _). clearbody space.
  unfold collect_frames. rewrite no_control_frames by done. cbn [obind]. set (b := Builder c1 (zeros NXP_PACKET_BUF_SIZE) 0 false []).
  assert (exists c2, stream_loop space (S fuel) now (cc_allows (bd_conn b)) b = Done (b <| bd_conn := c2 |>)) as [c2 ->]; [| by eexists].
  cbn [stream_loop]. destruct (loop_open space _ b); cbn [negb]; [| by exists c1].
  unfold stream_step. destruct (sched_next_ok (cn_streams (bd_conn b)) (cn_sched (bd_conn b)) [] Hs1) as (sc & -> & _); [by intros ? [] |].
  cbn [or_fail obind hd_error]. by eexists.
Qed.

(** Ending a stream on which everything was already sent does not reach the peer:
    [nxp_stream_shutdown] and [nxp_stream_close] mark the end of the stream but do not
    schedule the stream, because they write no bytes; sending then produces no
    packet, and the FIN stays unsent. *)
Theorem shutdown_fin_unsent fuel ok a s c st out now : ap_conns a !! st_conn s = Some c -> data_only c out now -> queued c [] ->
  cn_streams c !! st_id s = Some st -> s_state st = NXP_STREAM_OPEN -> sb_fin (send st) = false -> fin_sent (send st) = false ->
  exists a' c' st', engine_write a s [] true = Done (0, a') /\ ap_conns a' !! st_conn s = Some c' /\ cn_streams c' !! st_id s = Some st' /\
    sb_fin (send st') = true /\ fin_sent (send st') = false /\ exists c2, nxp_conn_send (S fuel) ok c' out now = Done (0, out, c2).
Proof.
  intros Hc Hdo Hq Hst Hop Hfin Hfs. unfold engine_write, get_conn. rewrite Hc. cbn [obind]. unfold nxp_conn_stream_send.
  rewrite (do_state _ _ _ Hdo), bool_decide_true by done. cbn [negb]. rewrite Hst. unfold nxp_stream_write. rewrite Hop, Hfin. change (zlen (@nil Z)) with 0.
  assert ((if 0 <? write_room st then 0 else write_room st) <= 0) as Hle by (destruct (Z.ltb_spec 0 (write_room st)); lia).
  assert (0 <= write_room st) as Hroom by (unfold write_room; repeat case_match; lia).
  assert ((if 0 <? write_room st then 0 else write_room st) = 0) as -> by (destruct (Z.ltb_spec 0 (write_room st)); lia).
  change (0 >? 0) with false. cbn [obind]. set (st' := st <| send := _ |>). set (c' := c <| cn_streams := _ |>).
  exists (put_conn a (st_conn s) c'), c', st'. split; [done |]. split; [apply lookup_insert_eq |]. split; [apply lookup_insert_eq |].
  split; [done |]. split; [done |]. apply send_nothing; [by destruct Hdo |]. destruct Hq as [Hs _]. split; [exact Hs | by intros ? []].
Qed.

End Fin.
