(* ===== verification/ApiLifecycle.v ===== *)
(** * Connecting (src/src/api/nxp_api.c)

    [nxp_connect] and [nxp_connect_url]: what they acquire and give back, and the
    client connection that they add to the loop.  The engine's connection is one token
    with what it owns. *)

From stdpp Require Import gmap strings.
From S2P Require Import Prelude CString Types Frame Stream Crypto Connection ConnectionSend ConnectionInv ConnectionSafety.
From S2P Require Import PriorityQueue Url Sockets Transports EventLoop Epoll ApiObjects ApiIo ApiInv ApiSafety ApiCalls.

(** Allocations and system calls that may fail. *)
Inductive api_alloc : Type := AConn | ACongestion | AWrapper | ASources | AEpollCtl | AListenerWrapper | AListener.

(** The settings that are used. *)
Record nxp_config := Config {
  cg_max_streams_bidi : Z;
  cg_max_streams_uni : Z;
  cg_idle_timeout_ms : Z;
  cg_heartbeat_interval_ms : Z
}.

Definition NXP_IDLE_TIMEOUT_DEFAULT : Z := 30000.

(** [config->idle_timeout_ms * 1000] and the limits, cut to 32 bits. *)
Definition connect_config (scid : nxp_conn_id) (peer_addr : list Z) (config : option nxp_config) : nxp_conn_config :=
  match config with
  | Some cfg => ConnConfig scid peer_addr (u64 (cg_idle_timeout_ms cfg * 1000)) NXP_DEFAULT_MAX_DATA NXP_DEFAULT_MAX_STREAM_DATA
                  (u32 (cg_max_streams_bidi cfg)) (u32 (cg_max_streams_uni cfg))
  | None => ConnConfig scid peer_addr (NXP_IDLE_TIMEOUT_DEFAULT * 1000) NXP_DEFAULT_MAX_DATA NXP_DEFAULT_MAX_STREAM_DATA
              NXP_MAX_STREAMS_DEFAULT NXP_MAX_STREAMS_DEFAULT
  end.

(** The application's callbacks for a connection. *)
Record conn_callbacks := ConnCallbacks {
  cc_on_connected : option Z;
  cc_on_closed : option Z;
  cc_user_data : Z
}.

(** What the random number generator delivers: the two connection IDs of 8 bytes and
    the private key of the handshake. *)
Record entropy := Entropy {
  en_scid : list Z;
  en_dcid : list Z;
  en_key : option (list Z)
}.

Definition transport_ptr (t : nxp_transport) : Z := match t with TUdp t _ _ _ _ | TTcp t _ _ _ | TWs t _ _ _ _ _ _ => t end.

Section Lifecycle.
Context {Q E : Type} `{System Q E} `{Engine} `{Allocator} `{OpenSSLLaws} `{InetPton}.
Notation loop := (nxp_event_loop Q (nxp_epoll_loop * nxp_api)).
Variable ok : call -> bool.
Variable hs_len : list Z -> list Z -> Z.
Variable grant : api_alloc -> bool.
(** The bytes of a [struct nxp_addr]. *)
Variable addr_image : nxp_addr -> list Z.

(** The transports after [nxp_init]. *)
Definition registered_transports : registry := nxp_transport_init ok hs_len registry_zero.

Definition set_epoll (l : loop) (e : nxp_epoll_loop) : loop := l <| el_backend := (e, el_api l) |>.

(** ** Connecting *)

(** The new wrapper is linked, the first packets go out and the timer is armed. *)
Definition attach (fuel : nat) (l : loop) (p : Z) (c : nxp_conn) (ac : Z) (v : nxp_api_conn) : outcome unit loop :=
  let a := put_conn (el_api l) p c in
  let! g := api_conn_link ((ap_global a) <| g_api_conns := <[ac := v]> (wrappers a) |>) ac in
  let! a := nxp_api_flush_conn fuel (a <| ap_global := g |>) ac in
  nxp_api_rearm_timer (set_api l a) ac.

(** From the configuration of the connection on; [heartbeat] is the interval of the
    settings in milliseconds, 0 for none.  The array of sent packets of the new
    connection is allocated: a failure, which [nxp_ack_init] does not check, makes the
    first packet with a short header a write through a null pointer. *)
Definition connect_over (fuel : nat) (l : loop) (t : nxp_transport) (cf : nxp_conn_config) (heartbeat : Z) (en : entropy) (cbs : conn_callbacks)
  : io ((nxp_error_code + Z) * loop) :=
  p ← acquire (grant AConn);
  match p, nxp_conn_create (grant AConn) (grant ACongestion) true cf false with
  | Some p, Some c =>
      match nxp_conn_start_handshake c (mk_conn_id (en_dcid en)) (en_key en) with
      | Ub => fun _ => Ub
      | Err (e, _) => _ ← release p; _ ← transport_close t; mret (inl e, l)
      | Done c =>
          let c := if heartbeat >? 0 then nxp_conn_set_heartbeat c (u64 (heartbeat * 1000)) else c in
          ac ← acquire (grant AWrapper);
          match ac with
          | None => _ ← release p; _ ← transport_close t; mret (inl NXP_ERR_OUT_OF_MEMORY, l)
          | Some ac =>
              let v := ApiConn p (transport_ptr t) None true (cc_on_connected cbs) (cc_on_closed cbs) (cc_user_data cbs) (cn_state c)
                         0 None 0 None None None None in
              re ← lift (epoll_add_socket (grant ASources) (grant AEpollCtl) (el_epoll l) (nxp_transport_get_socket t) NXP_EVENT_READ on_conn_event_cb ac);
              match re : option nxp_error_code * nxp_epoll_loop with
              | (Some e, ep) => _ ← release p; _ ← transport_close t; _ ← release ac; mret (inl e, set_epoll l ep)
              | (None, ep) => l ← lift (attach fuel (set_epoll l ep) p c ac v); mret (inr p, l)
              end
          end
      end
  | _, _ => _ ← transport_close t; mret (inl NXP_ERR_OUT_OF_MEMORY, l)
  end.

(** A library that is initialised; [host] and [out_conn] are not null. *)
Definition nxp_connect (fuel : nat) (l : loop) (config : option nxp_config) (host : list Z) (port : Z) (en : entropy) (cbs : conn_callbacks)
  : io ((nxp_error_code + Z) * loop) :=
  match nxp_addr_from_string host port with
  | inl e => mret (inl e, l)
  | inr peer_addr =>
      t ← nxp_transport_connect registered_transports (Some (api_url host port));
      match t with
      | inl e => mret (inl e, l)
      | inr t =>
          connect_over fuel l t (connect_config (mk_conn_id (en_scid en)) (addr_image peer_addr) config)
            (match config with Some cfg => cg_heartbeat_interval_ms cfg | None => 0 end) en cbs
      end
  end.

(** The peer's address is left zero. *)
Definition nxp_connect_url (fuel : nat) (l : loop) (url : list Z) (en : entropy) (cbs : conn_callbacks) : io ((nxp_error_code + Z) * loop) :=
  t ← nxp_transport_connect registered_transports (Some url);
  match t with
  | inl e => mret (inl e, l)
  | inr t => connect_over fuel l t (connect_config (mk_conn_id (en_scid en)) (addr_image (Addr 0 0 (zeros 16))) None) 0 en cbs
  end.

(** ** The new wrapper *)

Lemma data_fields (v w : nxp_api_conn) : data v = data w ->
  ac_conn v = ac_conn w /\ ac_timer v = ac_timer w /\ ac_prev_state v = ac_prev_state w /\ ac_streams v = ac_streams w.
Proof. destruct v, w. unfold data. cbn. by intros [=]. Qed.

Section Attach.
Context {used : Z -> Prop}.
Notation api_ok := (api_ok (used := used)).

Lemma link_ok a ac v c : api_ok a -> wrappers a !! ac = None -> ap_conns a !! ac_conn v = Some c ->
  (forall x w, wrappers a !! x = Some w -> ac_conn w <> ac_conn v) -> ac_prev_state v = cn_state c -> ac_streams v = None ->
  state_calls (ac_conn v) (ap_calls a) = [] -> used ac ->
  exists g, api_conn_link ((ap_global a) <| g_api_conns := <[ac := v]> (wrappers a) |>) ac = Done g /\ api_ok (a <| ap_global := g |>) /\
    (forall x, ac_timer <$> wrappers (a <| ap_global := g |>) !! x = ac_timer <$> <[ac := v]> (wrappers a) !! x).
Proof.
  intros [Heng Hc Hs Hi Ht [l Hl] Ho Hqu Hus] Hac Hcv Hnew Hst Hss Hcalls Hua.
  destruct (conn_link_spec (ap_global a) l ac v Hl Hac) as (g & Hg & Hrep & Hdata & Hstr). exists g. split; [exact Hg |].
  assert (forall x w, g_api_conns g !! x = Some w -> (x = ac /\ data w = data v) \/ (x <> ac /\ exists w0, wrappers a !! x = Some w0 /\ data w = data w0)) as Hback.
  { intros x w Hx. specialize (Hdata x). rewrite Hx in Hdata. destruct (decide (x = ac)) as [-> | Hne].
    - rewrite lookup_insert_eq in Hdata. left. split; [done |]. cbn [fmap option_fmap option_map] in Hdata. congruence.
    - rewrite lookup_insert_ne in Hdata by done. right. split; [done |]. unfold wrappers. destruct (g_api_conns (ap_global a) !! x) as [w0 |]; [| done].
      exists w0. split; [done |]. cbn [fmap option_fmap option_map] in Hdata. congruence. }
  assert (forall x, is_Some (wrappers a !! x) -> is_Some (g_api_conns g !! x)) as Hdom.
  { intros x Hx. apply (same_data_some _ _ x Hdata). apply lookup_insert_is_Some. destruct (decide (ac = x)); [by left | by right]. }
  split; [split |]; unfold wrappers; change (ap_global (a <| ap_global := g |>)) with g; rewrite ?Hstr.
  - exact Heng.
  - intros x w Hx. destruct (Hback x w Hx) as [[-> (-> & _ & -> & _)%data_fields] | (_ & w0 & Hw0 & (-> & _ & -> & _)%data_fields)].
    + exists c. split; [done |]. rewrite Hst. lia.
    + by apply (Hc x).
  - intros x w Hx. destruct (Hback x w Hx) as [[-> (_ & _ & _ & ->)%data_fields] | (_ & w0 & Hw0 & (_ & _ & _ & ->)%data_fields)].
    + rewrite Hss. exists []. split; [done | by apply list.NoDup_nil].
    + by apply (Hs x).
  - intros x x' w w' Hx Hx'.
    destruct (Hback x w Hx) as [[-> (-> & _)%data_fields] | (Hne & w0 & Hw0 & (-> & _)%data_fields)],
      (Hback x' w' Hx') as [[-> (-> & _)%data_fields] | (Hne' & w1 & Hw1 & (-> & _)%data_fields)]; [done | | |].
    + intros Heq. by destruct (Hnew x' w1 Hw1).
    + intros Heq. by destruct (Hnew x w0 Hw0).
    + by apply Hi.
  - intros x w Hx. destruct (Hback x w Hx) as [[-> (-> & _ & -> & _)%data_fields] | (_ & w0 & Hw0 & (-> & _ & -> & _)%data_fields)].
    + change (ap_calls (a <| ap_global := g |>)) with (ap_calls a). rewrite Hcalls. unfold told. repeat case_decide; [apply sublist_nil_l.. | done].
    + by apply (Ht x).
  - by exists (ac :: l).
  - intros p s Hp. destruct (Ho p s Hp) as [? Hx]. split; [done | auto].
  - exact Hqu.
  - split; [| apply Hus]. intros x [w Hx]. destruct (Hback x w Hx) as [[-> _] | (_ & w0 & Hw0 & _)]; [done | apply (proj1 Hus); by exists w0].
  - intros x. specialize (Hdata x). unfold wrappers in Hdata |- *.
    destruct (<[ac := v]> (g_api_conns (ap_global a)) !! x) as [w |], (g_api_conns g !! x) as [w' |]; cbn [fmap option_fmap option_map] in Hdata |- *; try done.
    f_equal. assert (data w = data w') as (_ & -> & _)%data_fields by congruence. done.
Qed.

(** The connection [p] with its wrapper [ac] joins the loop. *)
Lemma attach_ok fuel l bag p c ac v : loop_rep l bag [] -> ep_inv (el_epoll l) -> api_ok (el_api l) -> timers_ok l [] ->
  (forall fd src, registered (el_epoll l) fd = Some src -> es_cb src = on_conn_event_cb /\
    (es_user_data src = ac \/ is_Some (wrappers (el_api l) !! es_user_data src))) ->
  wrappers (el_api l) !! ac = None -> ap_conns (el_api l) !! p = None -> conn_ok c -> used p -> used ac ->
  ac_conn v = p -> ac_prev_state v = cn_state c -> ac_streams v = None -> ac_timer v = None ->
  safe (attach fuel l p c ac v) (fun l' => api_rep (used := used) l' /\ is_Some (wrappers (el_api l') !! ac) /\ el_epoll l' = el_epoll l).
Proof.
  intros Hl He Ha Ht Hsrc Hac Hp Hc Hup Hua Hvc Hvp Hvs Hvt. unfold attach. set (a := put_conn (el_api l) p c).
  pose proof (new_conn_ok (el_api l) p c Ha Hp Hc Hup) as Ha1.
  destruct (link_ok a ac v c Ha1 Hac) as (g & -> & Hg & Htm).
  - rewrite Hvc. change (ap_conns a) with (<[p := c]> (ap_conns (el_api l))). apply lookup_insert_eq.
  - intros x w Hw Heq. destruct (ak_conn _ Ha x w Hw) as (d & Hd & _). congruence.
  - done.
  - done.
  - rewrite Hvc. by apply (ak_quiet _ Ha).
  - done.
  - cbn [obind]. assert (forall x, is_Some (wrappers (a <| ap_global := g |>) !! x) <-> x = ac \/ is_Some (wrappers (el_api l) !! x)) as Hdom.
    { intros x. specialize (Htm x). change (wrappers a) with (wrappers (el_api l)) in Htm.
      rewrite <- (fmap_is_Some ac_timer), Htm, fmap_is_Some, lookup_insert_is_Some. destruct (decide (ac = x)); naive_solver. }
    assert (is_Some (wrappers (a <| ap_global := g |>) !! ac)) as Hin by (apply Hdom; by left).
    eapply safe_bind; [by apply (flush_ok (used := used)) |]. intros a2 (Ha2 & Hg2 & _).
    assert (wrappers a2 = wrappers (a <| ap_global := g |>)) as Hw2 by (unfold wrappers; by rewrite Hg2).
    assert (timers_ok (set_api l a2) []) as Ht2.
    { destruct Ht as [Hn Hall]. split; change (el_api (set_api l a2)) with a2; rewrite Hw2; change (el_heap (set_api l a2)) with (el_heap l).
      - intros x w t Hx Hxt. specialize (Htm x). rewrite Hx in Htm. change (wrappers a) with (wrappers (el_api l)) in Htm.
        destruct (decide (x = ac)) as [-> | Hne]; [rewrite lookup_insert_eq in Htm; cbn [fmap option_fmap option_map] in Htm; congruence |].
        rewrite lookup_insert_ne in Htm by done. destruct (wrappers (el_api l) !! x) as [w0 |] eqn:Hw0; [| done]. apply (Hn x w0 t Hw0). cbn [fmap option_fmap option_map] in Htm. congruence.
      - intros t tm Htt Hca Hh. destruct (Hall t tm Htt Hca Hh) as (Hcb & w0 & Hw0 & Hwt). split; [done |]. specialize (Htm (tm_user_data tm)).
        change (wrappers a) with (wrappers (el_api l)) in Htm. rewrite lookup_insert_ne, Hw0 in Htm by (intros Heq; congruence).
        destruct (wrappers _ !! tm_user_data tm) as [w |]; [| done]. exists w. split; [done |]. cbn [fmap option_fmap option_map] in Htm. congruence. }
    eapply safe_impl; [apply (rearm_ok (used := used) (set_api l a2) bag [] ac); [by apply set_api_rep | done | done |] |].
    + change (el_api (set_api l a2)) with a2. by rewrite Hw2.
    + intros l' [[new Hr] _ Ha' Ht' Hep Hd].
      split; [| split; [apply Hd; change (el_api (set_api l a2)) with a2; by rewrite Hw2 | done]].
      split; [by exists (new ++ bag) |]. split; [by rewrite Hep |]. split; [done |]. split; [done |]. intros fd src Hreg. rewrite Hep in Hreg. destruct (Hsrc fd src Hreg) as [Hcb Hor]. split; [done |]. apply Hd.
      change (el_api (set_api l a2)) with a2. rewrite Hw2. apply Hdom. destruct Hor; auto.
Qed.

End Attach.

(** ** Safety of connecting *)

Lemma safe_wp {A B} (m : io A) (k : A -> io B) s R : wp m (fun a s' => safe (k a s') R) s -> safe ((m ≫= k) s) R.
Proof. unfold wp. change ((m ≫= k) s) with (obind (m s) (fun '(a, s) => k a s)). by destruct (m s) as [[a s'] | |]. Qed.
Lemma safe_lift {A B} (m : outcome unit A) (k : A -> io B) s R : safe m (fun a => safe (k a s) R) -> safe ((lift m ≫= k) s) R.
Proof. change ((lift m ≫= k) s) with (obind (let! a := m in Done (a, s)) (fun '(a, s) => k a s)). by destruct m. Qed.

Definition held_by (s : os) (x : Z) : Prop := x ∈ os_held s.

(** The process and the library fit together. *)
Definition world_ok (s : os) (l : loop) : Prop := os_ok s /\ api_rep (used := held_by s) l.

Lemma api_rep_mono (used used' : Z -> Prop) l : api_rep (used := used) l -> (forall x, used x -> used' x) -> api_rep (used := used') l.
Proof. intros (Hb & He & Ha & Ht) Hm. split; [done |]. split; [done |]. split; [by eapply api_ok_mono | done]. Qed.

(** Another table with the same entries. *)
Definition same_view (l l' : loop) : Prop := el_api l' = el_api l /\ forall fd, view (el_epoll l') fd = view (el_epoll l) fd.

Lemma set_epoll_rep (used : Z -> Prop) l e : api_rep (used := used) l -> ep_inv e -> (forall fd, view e fd = view (el_epoll l) fd) ->
  api_rep (used := used) (set_epoll l e).
Proof.
  intros ([bag [? ? ? ? ?]] & _ & Ha & [? ?] & Hs) He Hv. split; [by exists bag |]. split; [done |]. split; [done |]. split; [by split |].
  intros fd src Hr. apply (Hs fd). specialize (Hv fd). unfold view in Hv. injection Hv as Hv _. by rewrite <- Hv.
Qed.

(** A failure gives everything back and changes nothing that can be seen; a success
    holds the connection, its wrapper and the transport, whose socket is watched for
    the wrapper. *)
Definition connected (held : list Z) (l : loop) (r : nxp_error_code + Z) (l' : loop) (s' : os) : Prop :=
  world_ok s' l' /\
  match r with
  | inl _ => os_held s' ≡ₚ held /\ same_view l l'
  | inr p => exists ac t sock src, os_held s' ≡ₚ p :: ac :: transport_tokens t ++ held /\ nxp_transport_get_socket t = Some sock /\
      is_Some (wrappers (el_api l') !! ac) /\ registered (el_epoll l') (so_fd sock) = Some src /\ es_user_data src = ac
  end.

Lemma world_back s l held : os_ok s -> api_rep (used := fun x => x ∈ held) l -> os_held s ≡ₚ held -> world_ok s l.
Proof. intros Hs Hl Hp. split; [done |]. eapply api_rep_mono; [exact Hl |]. intros x Hx. unfold held_by. by rewrite Hp. Qed.

(** Closing the transport after a failure. *)
Lemma fail_transport t s held l e (l' : loop) : os_ok s -> os_held s ≡ₚ transport_tokens t ++ held -> api_rep (used := fun x => x ∈ held) l' -> same_view l l' ->
  safe ((_ ← transport_close t; mret (inl e, l')) s) (fun '((r, l'), s') => connected held l r l' s').
Proof.
  intros Hs Hp Hl Hv. apply safe_wp. eapply wp_mono; [by eapply (wp_close transport_tokens _ t _ _ (transport_close_all t)) |].
  intros [] s' [Hs' Hp']. split; [by eapply world_back | by split].
Qed.

Lemma fail_conn t p s held l e (l' : loop) : os_ok s -> os_held s ≡ₚ p :: transport_tokens t ++ held -> api_rep (used := fun x => x ∈ held) l' -> same_view l l' ->
  safe ((_ ← release p; _ ← transport_close t; mret (inl e, l')) s) (fun '((r, l'), s') => connected held l r l' s').
Proof. intros Hs Hp Hl Hv. apply safe_wp. eapply wp_release; [done | exact Hp |]. intros s' Hs' Hp'. by eapply fail_transport. Qed.

(** A new address is not in use. *)
Lemma fresh_addr (used : Z -> Prop) a x : api_ok (used := used) a -> ~ used x -> wrappers a !! x = None /\ ap_conns a !! x = None.
Proof.
  intros Ha Hx. destruct (ak_used a Ha) as [Hw Hc]. split; apply eq_None_not_Some; [intros ?%Hw | intros ?%Hc]; by apply Hx.
Qed.

(** The socket is watched, and the connection joins the loop. *)
Lemma attach_connected fuel l ep p c ac v t sock s held : os_ok s -> os_held s ≡ₚ ac :: p :: transport_tokens t ++ held ->
  api_rep (used := fun x => x ∈ held) l -> ac ∉ held -> p ∉ held -> conn_ok c -> nxp_transport_get_socket t = Some sock ->
  ep_inv ep -> updates (el_epoll l) ep (so_fd sock) (Some (EpollSource (Some sock) on_conn_event_cb ac NXP_EVENT_READ true), Some (nxp_to_epoll_events NXP_EVENT_READ)) ->
  ac_conn v = p -> ac_prev_state v = cn_state c -> ac_streams v = None -> ac_timer v = None ->
  safe (attach fuel (set_epoll l ep) p c ac v) (fun l' => connected held l (inr p) l' s).
Proof.
  intros Hs Hh ([bag Hl] & _ & Ha & Ht & Hsrc) Hac Hp Hc Hsock Hep Hup Hv1 Hv2 Hv3 Hv4.
  assert (forall fd, registered ep fd = if decide (fd = so_fd sock) then Some (EpollSource (Some sock) on_conn_event_cb ac NXP_EVENT_READ true) else registered (el_epoll l) fd) as Hreg.
  { intros fd. specialize (Hup fd). unfold view in Hup. case_decide; by injection Hup. }
  assert (forall x, x ∈ held -> held_by s x) as Hmono by (intros x Hx; unfold held_by; rewrite Hh; do 2 right; apply elem_of_app; by right).
  destruct (fresh_addr _ _ ac Ha Hac) as [Hwac _], (fresh_addr _ _ p Ha Hp) as [_ Hcp].
  eapply safe_impl; [apply (attach_ok (used := held_by s) fuel (set_epoll l ep) bag p c ac v); try done |].
  - by destruct Hl.
  - by eapply api_ok_mono.
  - by destruct Ht.
  - intros fd src Hr. change (registered ep fd = Some src) in Hr. rewrite Hreg in Hr. case_decide; [injection Hr as <-; split; [done | by left] |].
    destruct (Hsrc fd src Hr). split; [done | by right].
  - unfold held_by. rewrite Hh. right. by left.
  - unfold held_by. rewrite Hh. by left.
  - intros l' (Hrep & Hin & He). split; [by split |]. exists ac, t, sock, (EpollSource (Some sock) on_conn_event_cb ac NXP_EVENT_READ true).
    split; [rewrite Hh; apply Permutation_swap |]. split; [done |]. split; [done |]. split; [| done]. rewrite He.
    change (el_epoll (set_epoll l ep)) with ep. rewrite Hreg. by rewrite decide_True.
Qed.

(** What the random number generator delivers. *)
Definition entropy_ok (en : entropy) : Prop := zlen (en_scid en) = 8 /\ zlen (en_dcid en) = 8 /\ bytes_ok (en_scid en) /\ bytes_ok (en_dcid en).

Lemma connect_over_ok fuel l t cf heartbeat en cbs s held sock : os_ok s -> os_held s ≡ₚ transport_tokens t ++ held ->
  api_rep (used := fun x => x ∈ held) l -> nxp_transport_get_socket t = Some sock -> fd_ok sock -> config_ok cf -> entropy_ok en ->
  safe (connect_over fuel l t cf heartbeat en cbs s) (fun '((r, l'), s') => connected held l r l' s').
Proof.
  intros Hs Hh Hl Hsock Hfd Hcf (_ & Hd8 & _ & Hdb). unfold connect_over. apply safe_wp.
  assert (same_view l l) as Hv by done.
  apply wp_acquire; [done | | intros _; by apply fail_transport]. intros Hg p s1 Hs1 Hh1 Hp1.
  destruct (nxp_conn_create (grant AConn) (grant ACongestion) true cf false) as [c |] eqn:Hc; [| rewrite Hg in Hc; done].
  pose proof (created_ok _ _ _ _ _ Hcf Hc) as Hok.
  assert (os_held s1 ≡ₚ p :: transport_tokens t ++ held) as Hp1' by (by rewrite Hh1, Hh).
  pose proof (start_handshake_keeps c (mk_conn_id (en_dcid en)) (en_key en) Hok) as Hk.
  destruct (nxp_conn_start_handshake c (mk_conn_id (en_dcid en)) (en_key en)) as [c1 | [e c1] |]; [| by apply fail_conn |].
  2: { apply Hk. exists (en_dcid en). split; [done |]. split; [rewrite Hd8; by_compute | done]. }
  assert (conn_ok c1) as Hok1. { apply Hk. exists (en_dcid en). split; [done |]. split; [rewrite Hd8; by_compute | done]. }
  set (c2 := if heartbeat >? 0 then _ else c1).
  assert (conn_ok c2) as Hok2. { unfold c2. destruct (heartbeat >? 0); [| done]. by apply (next_heartbeat c1 c1 _ (conn_next_refl c1 Hok1)). }
  clearbody c2. apply safe_wp. apply wp_acquire; [done | | intros _; by apply fail_conn]. intros _ ac s2 Hs2 Hh2 Hac.
  assert (os_held s2 ≡ₚ ac :: p :: transport_tokens t ++ held) as Hp2 by (by rewrite Hh2, Hp1').
  cbv zeta. rewrite Hsock. apply safe_lift.
  destruct (add_spec (grant ASources) (grant AEpollCtl) (el_epoll l) sock NXP_EVENT_READ on_conn_event_cb ac (proj1 (proj2 Hl)) Hfd) as (r & ep & -> & Hep & _ & Hr).
  cbn [safe]. destruct r as [e |].
  - destruct Hr as [_ Hview]. apply safe_wp. eapply wp_release; [done | rewrite Hp2; apply Permutation_swap |]. intros s3 Hs3 Hp3.
    apply safe_wp. eapply wp_mono; [eapply (wp_close transport_tokens _ t _ (ac :: held) (transport_close_all t)); [done |] |].
    { rewrite Hp3. apply Permutation_middle. }
    intros [] s4 [Hs4 Hp4]. apply safe_wp. eapply wp_release; [done | exact Hp4 |]. intros s5 Hs5 Hp5.
    split; [| by split]. eapply world_back; [done | by eapply set_epoll_rep | done].
  - apply safe_lift. eapply safe_impl; [eapply (attach_connected fuel l ep p c2 ac _ t sock s2 held); try done |].
    + intros Hin. apply Hac. rewrite Hp1'. right. apply elem_of_app. by right.
    + intros Hin. apply Hp1. rewrite Hh. apply elem_of_app. by right.
    + intros l' Hc'. exact Hc'.
Qed.

Lemma connect_config_ok scid peer config : conn_id_ok scid -> config_ok (connect_config scid peer config).
Proof.
  intros Hs. unfold connect_config. destruct config as [cfg |]; (split; [done |]); cbn [cf_idle_timeout_us cf_initial_max_data cf_initial_max_stream_data cf_max_streams_bidi cf_max_streams_uni].
  - pose proof (u64_range (cg_idle_timeout_ms cfg * 1000)). pose proof (u32_range (cg_max_streams_bidi cfg)). pose proof (u32_range (cg_max_streams_uni cfg)).
    unfold NXP_DEFAULT_MAX_DATA, NXP_DEFAULT_MAX_STREAM_DATA. lia.
  - unfold NXP_DEFAULT_MAX_DATA, NXP_DEFAULT_MAX_STREAM_DATA, NXP_IDLE_TIMEOUT_DEFAULT, NXP_MAX_STREAMS_DEFAULT. lia.
Qed.

Lemma udp_connect_kind url : ensures (fun r => match r with inr t => exists sock, nxp_transport_get_socket t = Some sock | inl _ => True end) (udp_connect_impl ok url).
Proof. unfold udp_connect_impl. repeat first [apply ensures_bind; intros ? | by apply ensures_ret | apply ensures_ret; by eexists | case_match]. Qed.

(** Descriptors are non-negative values of [int]. *)
Definition descriptors_ok (url : list Z) (s : os) : Prop := forall t s' sock,
  nxp_transport_connect registered_transports (Some url) s = Done (inr t, s') -> nxp_transport_get_socket t = Some sock -> fd_ok sock.

Lemma connect_ok fuel l config host port en cbs s : world_ok s l -> host_ok host -> 0 <= port < 65536 -> entropy_ok en ->
  descriptors_ok (api_url host port) s ->
  safe (nxp_connect fuel l config host port en cbs s) (fun '((r, l'), s') => connected (os_held s) l r l' s').
Proof.
  intros [Hs Hl] Hh Hp Hen Hfd. unfold nxp_connect. destruct (nxp_addr_from_string host port) as [e | peer]; [split; [by split | by split] |].
  destruct (url_roundtrip host port [] Hh Hp) as (Hty & Hu & _).
  assert (forall s, nxp_transport_connect registered_transports (Some (api_url host port)) s = udp_connect_impl ok (api_url host port) s) as Ec.
  { intros s'. unfold nxp_transport_connect, mbind, io_bind, lift. cbn [g_initialized registered_transports nxp_transport_init negb]. by rewrite Hty. }
  pose proof (udp_connect_kind (api_url host port) s) as Hkind. pose proof (udp_connect_acquires ok (api_url host port) _ Hu s (os_held s) Hs ltac:(reflexivity)) as Hacq.
  unfold descriptors_ok in Hfd. rewrite Ec in Hfd. apply safe_wp. unfold wp in Hacq |- *. rewrite Ec.
  destruct (udp_connect_impl ok (api_url host port) s) as [[[e | t] s1] | |] eqn:Et; [| | done | done].
  - destruct Hacq as [Hs1 Hp1]. split; [| by split]. by eapply world_back.
  - destruct Hacq as [Hs1 Hp1], Hkind as [sock Hsock]. eapply (connect_over_ok fuel l t _ _ en cbs s1 (os_held s) sock); try done.
    + by eapply Hfd.
    + apply connect_config_ok. exists (en_scid en). destruct Hen as (H8 & _ & Hb & _). split; [done |]. split; [rewrite H8; by_compute | done].
Qed.

(** C17: [nxp_connect] neither leaks nor leaves anything half done: whatever the
    system refuses and the network does, a failure gives back every descriptor and
    allocation and changes no wrapper, connection, timer or watched socket; a success
    holds exactly the connection, its wrapper and its transport, whose socket is
    watched with that wrapper as user data, and the library keeps its invariant. *)
Theorem connect_no_leak fuel l config host port en cbs s : world_ok s l -> host_ok host -> 0 <= port < 65536 -> entropy_ok en ->
  descriptors_ok (api_url host port) s ->
  safe (nxp_connect fuel l config host port en cbs s) (fun '((r, l'), s') => connected (os_held s) l r l' s').
Proof. intros. by apply connect_ok. Qed.

(** Through [nxp_connect_url] a transport without a socket is handed to the event
    loop as a null pointer. *)
Theorem connect_url_null_socket fuel l url en cbs s t s1 c c1 : nxp_transport_connect registered_transports (Some url) s = Done (inr t, s1) ->
  nxp_transport_get_socket t = None -> (forall x, grant x = true) ->
  nxp_conn_create true true true (connect_config (mk_conn_id (en_scid en)) (addr_image (Addr 0 0 (zeros 16))) None) false = Some c ->
  nxp_conn_start_handshake c (mk_conn_id (en_dcid en)) (en_key en) = Done c1 ->
  nxp_connect_url fuel l url en cbs s = Ub /\ cn_peer_addr c = addr_image (Addr 0 0 (zeros 16)).
Proof.
  intros Et Hsock Hg Hc Hhs. split.
  - unfold nxp_connect_url. unfold mbind, io_bind. rewrite Et. cbn [obind]. unfold connect_over, mbind, io_bind, acquire. rewrite !Hg. cbn [obind]. rewrite Hc. cbn [obind]. rewrite Hhs. cbn [obind].
    rewrite Hsock. done.
  - unfold nxp_conn_create in Hc. by injection Hc as <-.
Qed.

End Lifecycle.
