(* ===== verification/ApiHistory.v ===== *)
(** * Histories of a client

    The engine as the handlers use it, and every sequence of calls of a process with
    client connections: connecting, polling, opening streams, sending, receiving and,
    at the end, closing a stream. *)

From stdpp Require Import gmap.
From S2P Require Import Prelude CString Types Frame Ack Stream Crypto Connection ConnectionSend ConnectionInv ConnectionSafety.
From S2P Require Import PriorityQueue Url Sockets Transports EventLoop Epoll ApiObjects ApiIo ApiInv ApiSafety ApiCalls ApiLifecycle.

(** ** The engine

    Its safety is proved for fewer than 2^64 - 1 packets and fewer than 64 probe
    timeouts in a row; the model of a connection ends there. *)

Section EngineInstance.
Context `{Allocator} `{OpenSSLLaws}.

Definition in_range (b : bool) {A} (m : outcome unit A) : outcome unit A := if b then m else Err tt.

Lemma after_safe {A} (get : A -> nxp_conn) c r : conn_keeps c (fun a => conn_next c (get a)) r -> safe (after get r) (conn_next c).
Proof. destruct r as [a | [e c'] |]; auto. Qed.

Lemma conn_timeout_safe c now : pto_count (cn_ack c) < 64 -> safe (nxp_conn_timeout c now) (fun _ => True).
Proof.
  intros Hp. unfold nxp_conn_timeout. destruct (bool_decide _); [done |]. destruct (loss_timeout_defined (cn_ack c) Hp) as [t ->]. done.
Qed.

#[refine] Definition conn_engine (fuel : nat) : Engine := {|
  eng_recv c data now := after id (nxp_conn_recv c data now);
  eng_send ok c out now := in_range (cn_next_pkt_num c <? 2 ^ 64 - 1) (nxp_conn_send fuel ok c out now);
  eng_on_timeout c now := in_range (pto_count (cn_ack c) <? 64) (after id (nxp_conn_on_timeout c now));
  eng_timeout c now := in_range (pto_count (cn_ack c) <? 64) (nxp_conn_timeout c now)
|}.
Proof.
  - intros c data now Hc Hd. apply after_safe. by apply conn_recv_keeps.
  - intros ok c out now Hc Hout. unfold in_range. destruct (Z.ltb_spec (cn_next_pkt_num c) (2 ^ 64 - 1)) as [Hp | Hp]; [| done].
    destruct (conn_send_keeps fuel ok c out now Hc) as [[-> | (n & o & c' & -> & Hn & _ & Ho & _)] _]; [| done | done | done].
    rewrite Hout. split; by_compute.
  - intros c now Hc Hn. unfold in_range. destruct (Z.ltb_spec (pto_count (cn_ack c)) 64); [| done]. apply after_safe. by apply on_timeout_keeps.
  - intros c now Hc. unfold in_range. destruct (Z.ltb_spec (pto_count (cn_ack c)) 64); [| done]. by apply conn_timeout_safe.
Defined.

End EngineInstance.

(** ** Histories *)

Inductive client_op : Type :=
| DoConnect (config : option nxp_config) (host : list Z) (port : Z) (en : entropy) (cbs : conn_callbacks)
| DoPoll (wait : Z -> wait_result) (now now' : Z)
| DoRun (wait : Z -> wait_result) (clock : nat -> Z * Z)
| DoClose (conn : option Z) (error_code : Z)
| DoSetCallbacks (conn on_connected on_closed : option Z) (ud : Z)
| DoSetAccept (conn cb : option Z) (ud : Z)
| DoSetUserData (conn : option Z) (data : Z)
| DoStreamOpen (conn : Z) (type : nxp_stream_type) (on_data on_writable on_close : option Z) (ud : Z)
| DoStreamSend (stream : option Z) (data : list Z) (fin : bool)
| DoStreamRecv (stream : option Z) (buf_cap : Z)
| DoShutdown (stream : option Z) (dir : nxp_shutdown_dir)
| DoStreamUserData (stream : option Z) (data : Z)
| DoStreamClose (stream : option Z).

(** What closing a stream leaves behind is not safe to use
    ([stream_close_use_after_free]), so that histories end with it. *)
Definition closes_stream (op : client_op) : bool :=
  match op with DoStreamClose (Some _) => true | _ => false end.

Section Histories.
Context {Q E : Type} `{System Q E} `{Engine} `{Allocator} `{OpenSSLLaws} `{InetPton}.
Notation loop := (nxp_event_loop Q (nxp_epoll_loop * nxp_api)).
Variable ok : call -> bool.
Variable hs_len : list Z -> list Z -> Z.
Variable addr_image : nxp_addr -> list Z.

(** [grant] is what the allocator answers to this call. *)
Definition client_run (fuel : nat) (grant : api_alloc -> bool) (op : client_op) (w : os * loop) : outcome unit (os * loop) :=
  let '(s, l) := w in
  let here (m : outcome unit nxp_api) := let! l := on_api l m in Done (s, l) in
  match op with
  | DoConnect config host port en cbs =>
      let! (r, s) := nxp_connect ok hs_len grant addr_image fuel l config host port en cbs s in Done (s, r.2)
  | DoPoll wait now now' => let! l := nxp_poll fuel wait now now' l in Done (s, l)
  | DoRun wait clock => let! l := nxp_run fuel wait clock l in Done (s, l)
  | DoClose conn e => here (nxp_conn_close fuel (el_api l) conn e)
  | DoSetCallbacks conn f g ud => here (nxp_conn_set_callbacks (el_api l) conn f g ud)
  | DoSetAccept conn cb ud => here (nxp_conn_set_stream_accept_cb (el_api l) conn cb ud)
  | DoSetUserData conn data => here (nxp_conn_set_user_data (el_api l) conn data)
  | DoStreamOpen conn type d wr cl ud => here (let! (_, a) := nxp_stream_open fuel (el_api l) conn type d wr cl ud in Done a)
  | DoStreamSend stream data fin => here (let! (_, a) := nxp_stream_send fuel (el_api l) stream data fin in Done a)
  | DoStreamRecv stream n => here (let! (_, _, a) := nxp_stream_recv (el_api l) stream n in Done a)
  | DoShutdown stream dir => here (nxp_stream_shutdown fuel (el_api l) stream dir)
  | DoStreamUserData stream data => here (nxp_stream_set_user_data (el_api l) stream data)
  | DoStreamClose stream => here (nxp_stream_close fuel (el_api l) stream)
  end.

(** What the application must ensure: it uses pointers that it was given, error codes
    are not negative and read buffers at most 64 KiB. *)
Definition client_op_ok (op : client_op) (w : os * loop) : Prop :=
  let '(s, l) := w in
  let conn_ptr p := is_Some (ap_conns (el_api l) !! p) in
  let stream_ptr p := is_Some (g_streams (ap_global (el_api l)) !! p) in
  match op with
  | DoConnect _ host port en _ => host_ok host /\ 0 <= port < 65536 /\ entropy_ok en /\ descriptors_ok ok hs_len (api_url host port) s
  | DoClose conn e => (forall p, conn = Some p -> conn_ptr p) /\ 0 <= e
  | DoStreamOpen conn _ _ _ _ _ => conn_ptr conn
  | DoStreamSend stream _ _ | DoShutdown stream _ | DoStreamUserData stream _ | DoStreamClose stream => forall p, stream = Some p -> stream_ptr p
  | DoStreamRecv stream n => (forall p, stream = Some p -> stream_ptr p) /\ 0 <= n <= NXP_STREAM_BUF_SIZE
  | _ => True
  end.

(** The library after [nxp_init], with an empty queue of timers. *)
Definition init_loop (q : Q) (wakeup_fd : Z) : loop :=
  Loop q false ∅ (epoll_create wakeup_fd, Api (Global None None ∅ ∅ ∅) ∅ [] [] 0).

Inductive client_reachable : os * loop -> Prop :=
| reach_init s q wakeup_fd : os_ok s -> tq_bag q [] -> client_reachable (s, init_loop q wakeup_fd)
| reach_step fuel grant op w w' : client_reachable w -> client_op_ok op w -> closes_stream op = false ->
    client_run fuel grant op w = Done w' -> client_reachable w'.

Lemma init_world s q wakeup_fd : os_ok s -> tq_bag q [] -> world_ok s (init_loop q wakeup_fd).
Proof.
  intros Hs Hq. split; [done |]. split; [exists []; split; cbn | split; [apply epoll_create_inv | split; [| split]]].
  - done.
  - by apply list.NoDup_nil.
  - intros d t Hin. by apply not_elem_of_nil in Hin.
  - intros t Hin. by apply not_elem_of_nil in Hin.
  - intros t [? Ht]. by rewrite lookup_empty in Ht.
  - split; cbn; try (intros ? ? Hl; by rewrite lookup_empty in Hl).
    + intros ac ac' v v' Hl. by rewrite lookup_empty in Hl.
    + exists []. split; [split; [done | by apply list.NoDup_nil] |]. intros x [? Hx]. cbn in Hx. by rewrite lookup_empty in Hx.
    + done.
    + split; intros ? [? Hx]; by rewrite lookup_empty in Hx.
  - split; cbn.
    + intros ac v t Hv. by rewrite lookup_empty in Hv.
    + intros t tm Ht. by rewrite lookup_empty in Ht.
  - intros fd src Hr. exfalso. revert Hr. unfold registered, init_loop. cbn. destruct (fd <? 0); [done |].
    destruct (zget (replicate (Z.to_nat INITIAL_SOURCE_CAP) source_zero) fd) as [src0 |] eqn:Hz; [| done]. apply zget_zeros_source in Hz as ->. done.
Qed.

Lemma here_ok s l m : world_ok s l -> safe m (fun a => api_ok (used := held_by s) a /\ same_timers (el_api l) a) ->
  safe (let! l := on_api l m in Done (s, l)) (fun '(s', l') => world_ok s' l').
Proof. intros [Hs Hl] Hm. eapply safe_bind; [by apply (on_api_ok (used := held_by s)) |]. intros l' Hl'. by split. Qed.

Lemma close_step fuel grant op s l : world_ok s l -> client_op_ok op (s, l) -> closes_stream op = true ->
  safe (client_run fuel grant op (s, l)) (fun _ => True).
Proof.
  intros [_ (_ & _ & Ha & _)] Hop Hcl. destruct op as [| | | | | | | | | | | | [p |]]; try done. cbn [client_run client_op_ok] in *.
  eapply (safe_bind _ _ (fun _ => True)); [| by intros].
  eapply (safe_bind _ _ (fun _ => True)); [by apply (stream_close_defined (used := held_by s)) | by intros].
Qed.

Lemma client_step_ok fuel grant op w : world_ok w.1 w.2 -> client_op_ok op w ->
  safe (client_run fuel grant op w) (fun '(s', l') => closes_stream op = false -> world_ok s' l').
Proof.
  destruct w as [s l]. intros Hw Hop. destruct (closes_stream op) eqn:Hcl.
  { eapply safe_impl; [by apply close_step |]. by intros [s' l'] _. }
  apply (safe_impl _ (fun '(s', l') => world_ok s' l')); [| by intros [s' l'] Hx]. pose proof Hw as [Hs (Hb & He & Ha & Ht)]. cbn [fst snd client_run client_op_ok] in *.
  destruct op as [config host port en cbs | wait now now' | wait clock | conn e | conn f g ud | conn cb ud | conn data | conn type d wr cl ud
    | stream data fin | stream n | stream dir | stream data | [p |]]; [.. | done |].
  - destruct Hop as (Hh & Hp & Hen & Hfd). eapply safe_bind; [by apply connect_ok |]. intros [[r l'] s'] [Hw' _]. exact Hw'.
  - eapply safe_bind; [by apply (poll_rep_safe (used := held_by s)) |]. intros l' Hl'. by split.
  - eapply safe_bind; [by apply (run_rep_safe (used := held_by s)) |]. intros l' Hl'. by split.
  - destruct Hop. apply here_ok; [done |]. by apply conn_close_ok.
  - apply here_ok; [done |]. by apply with_wrapper_ok.
  - apply here_ok; [done |]. by apply accept_cb_ok.
  - apply here_ok; [done |]. by apply with_wrapper_ok.
  - apply here_ok; [done |]. eapply safe_bind; [by apply (stream_open_ok (used := held_by s)) |]. by intros [r a] Hx.
  - apply here_ok; [done |]. eapply safe_bind; [by apply (stream_send_ok (used := held_by s)) |]. by intros [r a] Hx.
  - destruct Hop. apply here_ok; [done |]. eapply safe_bind; [by apply (stream_recv_ok (used := held_by s)) |]. by intros [[r f] a] Hx.
  - apply here_ok; [done |]. by apply shutdown_ok.
  - apply here_ok; [done |]. by apply stream_user_data_ok.
  - apply here_ok; [done |]. by split.
Qed.

Lemma client_reachable_ok w : client_reachable w -> world_ok w.1 w.2.
Proof.
  induction 1 as [s q fd Hs Hq | fuel grant op w w' _ IH Hop Hcl Hrun]; [by apply init_world |].
  pose proof (client_step_ok fuel grant op w IH Hop) as Hs. rewrite Hrun in Hs. destruct w'. by apply Hs.
Qed.

(** C4: A client is safe until it closes a stream: after any sequence of connecting,
    polling, running and calls on connections and streams other than
    [nxp_stream_close], with any network, clock and failures of the system, the next
    operation, closing a stream included, is defined: it touches no freed timer,
    wrapper, stream or connection and stays inside every buffer and table.  Every
    connection satisfies the engine's invariant, has at most one live timer, the one
    its wrapper names, and the application was told at most once that it is
    established and at most once, and last, that it is closed. *)
Theorem client_history_safe fuel grant op w : client_reachable w -> client_op_ok op w ->
  safe (client_run fuel grant op w) (fun w' => closes_stream op = false -> client_reachable w') /\
  forall ac v, wrappers (el_api w.2) !! ac = Some v ->
    (exists c, ap_conns (el_api w.2) !! ac_conn v = Some c /\ conn_ok c) /\
    (forall t tm, el_heap w.2 !! t = Some tm -> tm_cancelled tm = false -> tm_user_data tm = ac -> ac_timer v = Some t) /\
    sublist (state_calls (ac_conn v) (ap_calls (el_api w.2))) [true; false].
Proof.
  intros Hw Hop. pose proof (client_reachable_ok w Hw) as Hok. split.
  - pose proof (client_step_ok fuel grant op w Hok Hop) as Hs. destruct (client_run fuel grant op w) as [w' | |] eqn:Er; [| done | done].
    intros Hcl. by eapply reach_step.
  - destruct Hok as (_ & _ & _ & Ha & Ht & _). intros ac v Hv. split; [| split].
    + destruct (get_conn_some _ ac v Ha Hv) as (c & _ & Hc & Hcok & _). by exists c.
    + intros t tm Htm Hc <-. destruct (to_all _ _ Ht t tm Htm Hc (not_elem_of_nil _)) as (_ & v' & Hv' & Ht'). congruence.
    + pose proof (ak_told _ Ha ac v Hv) as Htold. unfold told in Htold. repeat case_decide; [done | | rewrite Htold; apply sublist_nil_l].
      etrans; [exact Htold |]. apply sublist_skip, sublist_nil_l.
Qed.

End Histories.
