(* ===== verification/ApiSpin.v ===== *)
(** * A connection that the peer has closed

    A connection that drains does not send, so an acknowledgement that it owes stays
    due; its timer is re-armed for a time that has passed, and firing the timers does
    not end before the idle timeout. *)

From stdpp Require Import gmap.
From S2P Require Import Prelude CString Types Frame Pacing Ack Stream Heartbeat Handshake Crypto Connection ConnectionSend ConnectionInv ConnectionSafety.
From S2P Require Import PriorityQueue Sockets EventLoop Epoll ApiObjects ApiIo ApiInv ApiSafety ApiHistory.

Section Spin.
Context {Q E : Type} `{System Q E} `{Engine} {used : Z -> Prop}.
Notation loop := (nxp_event_loop Q (nxp_epoll_loop * nxp_api)).
Notation api_ok := (api_ok (used := used)).
Notation api_rep := (api_rep (used := used)).

(** Nothing happens to [c], and its timeout is not after [d]. *)
Definition dormant (c : nxp_conn) (d : Z) : Prop := forall i,
  eng_on_timeout c (sys_clock i) = Done c /\ (forall ok out, eng_send ok c out (sys_clock i) = Done (0, out, c)) /\
  exists t, eng_timeout c (sys_clock i) = Done t /\ t <= d /\ t <> UINT64_MAX.

(** Memory for [n] timers is always granted. *)
Definition timers_granted (n : nat) : Prop := (forall i s, is_Some (sys_malloc i s)) /\
  forall i q bag d t, tq_bag q bag -> (length bag <= n)%nat -> exists q', tq_push (sys_push i q) q d t = Done (Some q').

Lemma put_conn_id a p c : ap_conns a !! p = Some c -> put_conn a p c = a.
Proof. intros Hc. unfold put_conn. rewrite insert_id by done. by destruct a. Qed.

Lemma dispatch_data_done a ac v : api_ok a -> wrappers a !! ac = Some v ->
  exists a', dispatch_data a ac = Done a' /\ api_ok a' /\ ap_conns a' = ap_conns a /\ wrappers a' = wrappers a.
Proof.
  intros Ha Hv. pose proof (dispatch_data_ok a ac Ha ltac:(by exists v)) as Hs. unfold api_step, dispatch_data in *. rewrite (get_ac_some a ac v Hv) in *. cbn [obind] in *.
  destruct (get_conn_some a ac v Ha Hv) as (c & Hg & _). rewrite Hg in *. cbn [obind] in *. destruct (ak_streams a Ha ac v Hv) as [l Hl].
  unfold dispatch_stream_data in *. pose proof (st_rep_size _ _ _ Hl) as Hsz.
  destruct (dispatch_loop_spec c l (g_streams (ap_global a)) (ac_streams v) (S (size (g_streams (ap_global a)))) Hl) as (h' & Eq & _); [lia |].
  rewrite Eq in *. cbn [obind] in *. eexists. split; [done |]. split; [apply Hs | done].
Qed.

(** The timer of a dormant connection is armed again. *)
Lemma timer_rearms n fuel l bag t ac v c d d0 : timers_granted n -> (size (el_heap l) <= n)%nat -> dormant c d -> loop_rep l bag [t] -> timers_ok l [] -> api_ok (el_api l) ->
  el_heap l !! t = Some (Timer d0 on_conn_timer_cb ac false) -> wrappers (el_api l) !! ac = Some v -> ap_conns (el_api l) !! ac_conn v = Some c ->
  exists l' v' t' d', on_conn_timer (S fuel) ac l = Done l' /\ wrappers (el_api l') = <[ac := v']> (wrappers (el_api l)) /\ ac_conn v' = ac_conn v /\
    ap_conns (el_api l') = ap_conns (el_api l) /\ ac_timer v' = Some t' /\ el_heap l !! t' = None /\ el_heap l' = <[t' := Timer d' on_conn_timer_cb ac false]> (el_heap l) /\ d' <= d.
Proof.
  intros [Hmal Hpush] Hsz Hdo Hl Ht Ha Htm Hv Hc. unfold on_conn_timer, set_timer. rewrite (get_ac_some _ ac v Hv). cbn [obind].
  set (w := v <| ac_timer := None |>). set (a1 := put_ac (el_api l) ac w). change (el_api (set_api l a1)) with a1.
  pose proof (put_timer_ok _ ac v None Ha Hv) as Ha1.
  assert (wrappers a1 !! ac = Some w) as Hw by apply lookup_insert_eq. rewrite (get_ac_some a1 ac w Hw). cbn [obind]. unfold get_conn.
  change (ap_conns a1 !! ac_conn w) with (ap_conns (el_api l) !! ac_conn v). rewrite Hc. cbn [obind].
  destruct (Hdo (ap_tick a1)) as (-> & _). cbn [obind]. unfold conn_turn, nxp_api_flush_conn. change (ac_conn w) with (ac_conn v).
  rewrite (put_conn_id (next_tick a1) (ac_conn v) c Hc). set (a2 := next_tick a1).
  rewrite (get_ac_some a2 ac w Hw). cbn [obind flush_loop]. unfold get_conn. change (ap_conns (next_tick a2) !! ac_conn w) with (ap_conns (el_api l) !! ac_conn v). rewrite Hc. cbn [obind].
  destruct (Hdo (ap_tick a2)) as (_ & -> & _). cbn [obind]. change (0 <=? 0) with true. cbv iota. change (ac_conn w) with (ac_conn v).
  rewrite (put_conn_id (next_tick (next_tick a2)) (ac_conn v) c Hc). cbn [obind]. set (a3 := next_tick (next_tick a2)).
  destruct (dispatch_data_done a3 ac w) as (a4 & -> & Ha4 & Hc4 & Hw4); [by apply (api_ok_ext a1) | done |]. cbn [obind].
  unfold nxp_api_rearm_timer. change (el_api (set_api (set_api l a1) a4)) with a4.
  assert (wrappers a4 !! ac = Some w) as Hwa4 by by rewrite Hw4. rewrite (get_ac_some a4 ac w Hwa4). cbn [obind]. change (ac_timer w) with (@None Z). cbn [obind].
  set (l4 := set_api (set_api l a1) a4). change (el_api l4) with a4. unfold get_conn. rewrite Hc4. change (ap_conns a3) with (ap_conns (el_api l)).
  change (ac_conn w) with (ac_conn v). rewrite Hc. cbn [obind]. destruct (Hdo (ap_tick a4)) as (_ & _ & d' & -> & Hd' & Hmax). cbn [obind].
  rewrite (proj2 (Z.eqb_neq d' UINT64_MAX)) by done.
  change (el_heap (set_api l4 (next_tick a4))) with (el_heap l). change (el_timers (set_api l4 (next_tick a4))) with (el_timers l).
  destruct (Hmal (ap_tick a4) (dom (el_heap l))) as [t' Ht']. rewrite Ht'. unfold nxp_event_loop_add_timer.
  change (el_timers (set_api l4 (next_tick a4))) with (el_timers l).
  destruct (Hpush (ap_tick a4) (el_timers l) bag d' t' (lr_bag _ _ _ Hl)) as (q' & ->); [pose proof (bag_size _ _ _ Hl); lia |]. cbn [obind].
  match goal with |- context [set_timer ?l ac (Some t')] => set (l5 := l) end.
  assert (wrappers (el_api l5) !! ac = Some w) as Hw5 by exact Hwa4. unfold set_timer. rewrite (get_ac_some (el_api l5) ac w Hw5). cbn [obind].
  eexists _, (w <| ac_timer := Some t' |>), t', d'. split; [done |]. split; [| split; [done |]; split; [| split; [done |]; split; [| done]]].
  - change (<[ac := w <| ac_timer := Some t' |>]> (wrappers a4) = <[ac := w <| ac_timer := Some t' |>]> (wrappers (el_api l))). rewrite Hw4.
    change (wrappers a3) with (<[ac := w]> (wrappers (el_api l))). by rewrite insert_insert_eq.
  - change (ap_conns a4 = ap_conns (el_api l)). by rewrite Hc4.
  - apply sys_malloc_ok in Ht'. by apply not_elem_of_dom in Ht'.
Qed.

(** [ac] is the only connection; [c] belongs to it, and its timer, one of at most [n], is
    due. *)
Record spinning (n : nat) (now ac : Z) (c : nxp_conn) (l : loop) : Prop := Spinning {
  sp_rep : api_rep l;
  sp_size : (size (el_heap l) <= n)%nat;
  sp_only x : is_Some (wrappers (el_api l) !! x) -> x = ac;
  sp_due : exists v t d, wrappers (el_api l) !! ac = Some v /\ ap_conns (el_api l) !! ac_conn v = Some c /\ ac_timer v = Some t /\
    el_heap l !! t = Some (Timer d on_conn_timer_cb ac false) /\ d <= now
}.

Lemma freed (l : loop) t l' : free_timer l t = Done l' -> el_backend l' = el_backend l /\ el_heap l' = delete t (el_heap l).
Proof. unfold free_timer. destruct (el_heap l !! t); [| done]. by intros [= <-]. Qed.

(** Another timer at the head was cancelled. *)
Lemma spin_drop n now ac c l bag q x tm l' : spinning n now ac c l -> at_head (loop_inv (used := used)) l bag x tm q.1 q.2 -> tm_cancelled tm = true ->
  free_timer (l <| el_timers := q.2 |>) x = Done l' -> api_rep l' -> spinning n now ac c l'.
Proof.
  intros [_ Hsz Honly (v & t & d & Hv & Hc & Hvt & Htm & Hd)] [_ _ Hx _ _] Hcan Hf Hrep. destruct (freed _ _ _ Hf) as [Hb Hh].
  assert (el_api l' = el_api l) as Hap by (unfold el_api; by rewrite Hb). split; [done | | intros y; rewrite Hap; apply Honly |].
  { rewrite Hh. change (size (delete x (el_heap l)) <= n)%nat. rewrite map_size_delete_Some by by eexists. lia. }
  exists v, t, d. rewrite Hap, Hh. split; [done |]. split; [done |]. split; [done |]. split; [| done].
  change (delete x (el_heap l) !! t = Some (Timer d on_conn_timer_cb ac false)). rewrite lookup_delete_ne; [done |]. intros ->.
  rewrite Hx in Htm. injection Htm as ->. done.
Qed.

Lemma spin_step n f now ac c l : timers_granted n -> dormant c now -> spinning n now ac c l ->
  exists x tm q l', tq_is_empty (el_timers l) = false /\ tq_peek (el_timers l) = Done (Some (tm_deadline_us tm, x)) /\ tm_deadline_us tm <= now /\
    tq_pop (el_timers l) = Done (Some (tm_deadline_us tm, x), q) /\ el_heap l !! x = Some tm /\
    fire_timer (api_on_timer (S f)) (l <| el_timers := q |>) x tm = Done l' /\ spinning n now ac c l'.
Proof.
  intros Hgr Hdo Hsp. pose proof Hsp as [[[bag Hl] Hi] Hsz Honly (v & t & d & Hv & Hc & Hvt & Htm & Hd)].
  assert (t ∈ bag.*2) as Hin by (pose proof (lr_all _ _ _ Hl t ltac:(by eexists)) as Hx; by rewrite app_nil_r in Hx).
  apply list_elem_of_fmap in Hin as ([d1 t1] & -> & Hin). cbn [snd] in *. destruct (lr_heap _ _ _ Hl d1 t1 Hin) as (tm1 & Htm1 & Hd1).
  rewrite Htm in Htm1. injection Htm1 as <-. cbn in Hd1. subst d1.
  assert (tq_is_empty (el_timers l) = false) as He.
  { rewrite (tq_empty_spec _ bag (lr_bag _ _ _ Hl)). apply bool_decide_eq_false. intros ->. by apply not_elem_of_nil in Hin. }
  destruct (at_head_of _ l bag Hl Hi He) as (x & tm & bag' & q & Hpop & Hpeek & Hmin & Hh). pose proof (Hmin d t1 Hin) as Hle.
  exists x, tm, q. pose proof Hh as [_ _ Hx Hp Hq]. pose proof (fire_timer_spec _ _ false now l bag x tm bag' q (api_app_ok (S f) now) Hh ltac:(lia)) as Hfire.
  assert (forall l', fire_timer (api_on_timer (S f)) (l <| el_timers := q |>) x tm = Done l' -> api_rep l') as Hrep.
  { intros l' Ef. rewrite Ef in Hfire. destruct Hfire as (new & Hl' & Hi' & _). split; [by exists (new ++ bag') | done]. }
  pose proof (pop_rep l bag [] _ x bag' q Hl Hp Hq) as Hl1. destruct Hi as (_ & Ha & Ht & _). destruct (tm_cancelled tm) eqn:Hcan.
  - destruct (free_rep _ bag' [] x Hl1) as (l' & Ef & _). exists l'. unfold fire_timer in Hrep |- *. rewrite Hcan in Hrep |- *. cbn [obind] in Hrep |- *.
    split; [done |]. split; [done |]. split; [lia |]. split; [done |]. split; [done |]. split; [done |].
    eapply (spin_drop n now ac c l bag (bag', q) x tm); [done | exact Hh | done | exact Ef | by apply Hrep].
  - destruct (to_all _ _ Ht x tm Hx Hcan (not_elem_of_nil _)) as (Hcb & v' & Hv' & Hvx). assert (tm_user_data tm = ac) as Hud by (apply Honly; by exists v').
    rewrite Hud, Hv in Hv'. injection Hv' as <-. assert (x = t1) as -> by congruence. rewrite Htm in Hx. injection Hx as <-. clear Hud Hcb Hcan Hvx.
    assert (timers_ok (l <| el_timers := q |>) []) as Ht1 by (by destruct Ht). assert (size (el_heap (l <| el_timers := q |>)) <= n)%nat as Hsz1 by exact Hsz.
    destruct (timer_rearms n f _ bag' t1 ac v c now d Hgr Hsz1 Hdo Hl1 Ht1 Ha Htm Hv Hc)
      as (l2 & v2 & t2 & d2 & E2 & Hw2 & Hcn2 & Hc2 & Ht2 & Hf2 & Hh2 & Hd2). change (el_heap (l <| el_timers := q |>)) with (el_heap l) in Hf2, Hh2.
    unfold fire_timer in Hfire, Hrep |- *. cbn [tm_cancelled tm_cb tm_user_data] in Hfire, Hrep |- *. unfold api_on_timer in Hfire, Hrep |- *. rewrite Z.eqb_refl, E2 in Hfire, Hrep. rewrite Z.eqb_refl, E2. cbn [obind] in Hfire, Hrep |- *.
    destruct (free_timer l2 t1) as [l' | |] eqn:Ef; [| unfold free_timer in Ef; by destruct (el_heap l2 !! t1) | done].
    specialize (Hrep l' eq_refl). exists l'. split; [done |]. split; [done |]. split; [cbn in Hle |- *; lia |]. split; [done |]. split; [done |]. split; [done |].
    destruct (freed _ _ _ Ef) as [Hb Hhp]. assert (el_api l' = el_api l2) as Hap by (unfold el_api; by rewrite Hb). split; [done | | |].
    + rewrite Hhp, Hh2, map_size_delete_Some by (apply lookup_insert_is_Some; right; split; [congruence | by eexists]). rewrite map_size_insert_None by done. lia.
    + intros y. rewrite Hap, Hw2. rewrite lookup_insert_is_Some. intros [<- | [_ Hy]]; [done | by apply Honly].
    + assert (wrappers (el_api l') !! ac = Some v2) as Hv2 by (rewrite Hap, Hw2; apply lookup_insert_eq).
      exists v2, t2, d2. split; [done |]. split; [by rewrite Hap, Hc2, Hcn2 |]. split; [done |]. split; [| done].
      rewrite Hhp, Hh2, lookup_delete_ne by congruence. apply lookup_insert_eq.
Qed.

Lemma spin_forever n f now ac c : timers_granted n -> dormant c now -> forall fuel l, spinning n now ac c l -> fire_loop (api_on_timer (S f)) fuel now l = Err tt.
Proof.
  intros Hgr Hdo. induction fuel as [| fuel IH]; intros l Hsp; [done |].
  destruct (spin_step n f now ac c l Hgr Hdo Hsp) as (x & tm & q & l' & He & Hpeek & Hle & Hpop & Hx & Hf & Hsp').
  cbn [fire_loop]. rewrite He, Hpeek. cbn [obind]. rewrite Z.gtb_ltb, (proj2 (Z.ltb_ge now (tm_deadline_us tm))) by done. rewrite Hpop. cbn [obind].
  change (el_heap (l <| el_timers := q |>)) with (el_heap l). rewrite Hx, Hf. cbn [obind]. by rewrite (IH l' Hsp').
Qed.

End Spin.

(** ** With the engine *)

(** The peer has closed the connection and nothing is in flight, but an
    acknowledgement is due at [d]. *)
Record draining (c : nxp_conn) (d : Z) : Prop := Draining {
  dn_state : cn_state c = NXP_CONN_DRAINING;
  dn_handshake : match cn_handshake c with Some hs => nxp_handshake_has_data hs = false | None => True end;
  dn_ack : ack_needed (cn_ack c) = true /\ ack_delay_timer (cn_ack c) = d;
  dn_loss : loss_time (cn_ack c) = UINT64_MAX /\ bytes_in_flight (cn_ack c) = 0 /\ pto_count (cn_ack c) < 64;
  dn_heartbeat : Heartbeat.enabled (cn_heartbeat c) = false;
  dn_pkt_num : cn_next_pkt_num c < 2 ^ 64 - 1
}.

Section Draining.
Context {Q E : Type} `{System Q E} `{Allocator} `{OpenSSLLaws} {used : Z -> Prop}.
Notation loop := (nxp_event_loop Q (nxp_epoll_loop * nxp_api)).
Variable rounds : nat.
#[local] Instance engine : Engine := conn_engine rounds.

Lemma earlier_le t u : earlier t u <= t /\ earlier t u <= u.
Proof. unfold earlier. destruct (Z.ltb_spec t u); lia. Qed.

Lemma draining_timeout c d now : draining c d -> d < UINT64_MAX -> exists t, nxp_conn_timeout c now = Done t /\ t <= d /\ t <> UINT64_MAX.
Proof.
  intros [Hst _ [Hn Hd] (Hl & Hb & _) Hh _] Hmax. unfold nxp_conn_timeout. rewrite Hst, Hn, Hd, bool_decide_eq_false_2 by done.
  unfold nxp_ack_loss_timeout. rewrite Hl, Hb, Z.eqb_refl. cbn [negb obind]. unfold nxp_heartbeat_next_timeout. rewrite Hh. cbn [negb].
  eexists. split; [done |].
  assert (forall x, x <= d -> earlier UINT64_MAX x <= d /\ earlier UINT64_MAX x <> UINT64_MAX) as Hfin by (intros x Hx; pose proof (earlier_le UINT64_MAX x); lia).
  apply Hfin. assert (forall t u, t <= d \/ u <= d -> earlier t u <= d) as Hle by (intros t u Hor; pose proof (earlier_le t u); lia).
  destruct (Pacer.enabled (cn_pacer c)); [destruct (_ >? 0) |]; auto with lia.
Qed.

Lemma draining_on_timeout c d now : draining c d -> now < u64 (cn_last_activity_us c + cn_idle_timeout_us c) -> nxp_conn_on_timeout c now = Done c.
Proof.
  intros [Hst _ _ (Hl & Hb & _) Hh _] Hnow. unfold nxp_conn_on_timeout. rewrite Z.geb_leb, (proj2 (Z.leb_gt _ now)) by done. rewrite andb_false_r.
  unfold on_loss_timer, nxp_ack_loss_timeout. rewrite Hl, Hb, Z.eqb_refl. cbn [negb or_fail obind andb]. change (0 =? 0) with true. cbn [obind or_fail]. rewrite Z.eqb_refl. cbn [negb andb obind].
  unfold nxp_heartbeat_check. rewrite Hh. cbn [negb]. assert (c <| cn_heartbeat := cn_heartbeat c |> = c) as -> by by destruct c.
  unfold nxp_heartbeat_is_dead. by rewrite Hh.
Qed.

Lemma draining_send fuel ok c d out now : draining c d -> nxp_conn_send fuel ok c out now = Done (0, out, c).
Proof.
  intros [Hst Hhs _ _ _ _]. unfold nxp_conn_send. assert (match cn_handshake c with Some hs => nxp_handshake_has_data hs | None => false end = false) as ->
    by by destruct (cn_handshake c).
  by rewrite Hst, !bool_decide_eq_false_2.
Qed.

Lemma draining_dormant c d now : draining c d -> d <= now -> d < UINT64_MAX -> (forall i, sys_clock i < u64 (cn_last_activity_us c + cn_idle_timeout_us c)) -> dormant c now.
Proof.
  intros Hdr Hd Hmax Hclk i. pose proof Hdr as [_ _ _ (_ & _ & Hpto) _ Hpn]. cbn. unfold in_range.
  rewrite (proj2 (Z.ltb_lt _ _) Hpto). split; [by rewrite (draining_on_timeout c d) |]. split.
  - intros ok out. rewrite (proj2 (Z.ltb_lt _ _) Hpn). by apply (draining_send _ _ c d).
  - destruct (draining_timeout c d (sys_clock i) Hdr Hmax) as (t & Ht & Hle & Hne). exists t. split; [done |]. split; [lia | done].
Qed.

(** C38: After the peer closes a connection, firing the timers does not end: the
    acknowledgement of the closing packet stays due, because a draining connection
    does not send, and the connection's timer is re-armed for a time in the past and
    fired at once, for any number of rounds, until the idle timeout has passed. *)
Theorem draining_spins n fuel f now ac c d l : timers_granted n -> draining c d -> d <= now < UINT64_MAX ->
  (forall i, sys_clock i < u64 (cn_last_activity_us c + cn_idle_timeout_us c)) -> spinning (used := used) n now ac c l ->
  fire_loop (api_on_timer (S f)) fuel now l = Err tt.
Proof. intros Hgr Hdr Hd Hclk Hsp. apply (spin_forever (used := used) n f now ac c Hgr); [eapply draining_dormant; [exact Hdr | lia | lia | done] | done]. Qed.

End Draining.
