(* ===== verification/SessionExport.v ===== *)
(** * Session export and import (src/src/core/session_export.c)

    A server hands a connection to another server as a byte string: connection
    IDs, state, packet number, keys, flow control, round-trip times and the idle
    timeout, little-endian.  Streams, the receive history and the rest of the
    engine start afresh.  An imported connection is the exported one in the
    fields that are carried, the engine's invariant holds for it, and the peer
    still understands what it sends; it does not understand the peer, because
    the largest packet number it received is lost. *)

From stdpp Require Import gmap.
From S2P Require Import Prelude Types Varint Codec Frame Packet Pacing Bbr Ack Flow Stream LinkedList Scheduler.
From S2P Require Import Crypto Handshake Connection ConnectionSend ConnectionInv ConnectionSafety Session.

Definition NXP_SESSION_MAGIC : Z := 0x5350584E.
Definition NXP_SESSION_VERSION : Z := 1.
Definition NXP_AEAD_MAX_KEY_LEN : Z := 32.
Definition NXP_HP_KEY_LEN : Z := 32.
Definition SIZEOF_ADDR : Z := 28.

(** The values of the enumeration. *)
Definition conn_state_code (s : nxp_conn_state) : Z :=
  match s with
  | NXP_CONN_IDLE => 0
  | NXP_CONN_HANDSHAKE_INITIAL => 1
  | NXP_CONN_HANDSHAKE_IN_PROGRESS => 2
  | NXP_CONN_ESTABLISHED => 3
  | NXP_CONN_CLOSING => 4
  | NXP_CONN_DRAINING => 5
  | NXP_CONN_CLOSED => 6
  end.

Definition conn_state_of_code (z : Z) : option nxp_conn_state :=
  list_find (fun s => conn_state_code s = z)
    [NXP_CONN_IDLE; NXP_CONN_HANDSHAKE_INITIAL; NXP_CONN_HANDSHAKE_IN_PROGRESS; NXP_CONN_ESTABLISHED;
     NXP_CONN_CLOSING; NXP_CONN_DRAINING; NXP_CONN_CLOSED] ≫= fun p => Some p.2.

(** ** Wire helpers

    The source copies the integers from memory, on a little-endian machine. *)

Definition put_u8 (v : Z) : writer := put_byte v.
Definition put_u32 (v : Z) : writer := put_mem (le_bytes 4 v) 4.
Definition put_u64 (v : Z) : writer := put_mem (le_bytes 8 v) 8.
Definition put_bytes (src : list Z) (len : Z) : writer := put_mem src len.

(** [if ( *p + n > end) return false;] *)
Definition get_room (n : Z) : parser unit := pcheck (fun pos len => pos + n >? len).

Definition get_u8 : parser Z := (_ <- get_room 1 ;; get_byte)%P.
Definition get_bytes (len : Z) : parser (list Z) := (_ <- get_room len ;; get_mem len)%P.
Definition get_u32 : parser Z := (l <- get_bytes 4 ;; pret (le_val l))%P.
Definition get_u64 : parser Z := (l <- get_bytes 8 ;; pret (le_val l))%P.

(** ** Export *)

Definition nxp_session_export_size (conn : nxp_conn) : Z :=
  let size := 4 + 4 + 4 in
  let size := size + (1 + cid_len (cn_scid conn)) in
  let size := size + (1 + cid_len (cn_dcid conn)) in
  let size := size + (1 + 1) in
  let size := size + 8 in
  let size := size + SIZEOF_ADDR in
  let size := size + (1 + 1) in
  let size := size + (1 + NXP_AEAD_MAX_KEY_LEN + NXP_AEAD_IV_LEN + NXP_HP_KEY_LEN) in
  let size := size + (1 + NXP_AEAD_MAX_KEY_LEN + NXP_AEAD_IV_LEN + NXP_HP_KEY_LEN) in
  let size := size + 8 * 4 in
  let size := size + 8 * 3 in
  size + 8.

Definition put_conn_id (id : nxp_conn_id) : writer :=
  (put_u8 (cid_len id) ;; put_bytes (cid_data id) (cid_len id))%W.

Definition put_keys (k : nxp_crypto_keys) : writer :=
  (put_u8 (ck_key_len k) ;; put_bytes (ck_key k) NXP_AEAD_MAX_KEY_LEN ;;
   put_bytes (ck_iv k) NXP_AEAD_IV_LEN ;; put_bytes (ck_hp_key k) NXP_HP_KEY_LEN)%W.

Definition export_writer (conn : nxp_conn) : writer :=
  (put_u32 NXP_SESSION_MAGIC ;; put_u32 NXP_SESSION_VERSION ;; put_u32 (u32 (nxp_session_export_size conn)) ;;
   put_conn_id (cn_scid conn) ;; put_conn_id (cn_dcid conn) ;;
   put_u8 (conn_state_code (cn_state conn)) ;; put_u8 (if cn_is_server conn then 1 else 0) ;;
   put_u64 (cn_next_pkt_num conn) ;;
   put_bytes (cn_peer_addr conn) SIZEOF_ADDR ;;
   put_u8 (u8 (cs_algo (cn_crypto conn))) ;; put_u8 (if cs_available (cn_crypto conn) then 1 else 0) ;;
   put_keys (cs_send (cn_crypto conn)) ;; put_keys (cs_recv (cn_crypto conn)) ;;
   put_u64 (peer_max_data (cn_conn_flow conn)) ;; put_u64 (data_sent (cn_conn_flow conn)) ;;
   put_u64 (local_max_data (cn_conn_flow conn)) ;; put_u64 (data_recv (cn_conn_flow conn)) ;;
   put_u64 (smoothed_rtt (cn_ack conn)) ;; put_u64 (rtt_var (cn_ack conn)) ;; put_u64 (min_rtt (cn_ack conn)) ;;
   put_u64 (cn_idle_timeout_us conn))%W.

(** The number of bytes written and the buffer. *)
Definition nxp_session_export (conn : nxp_conn) (buf : list Z) : outcome nxp_error_code (Z * list Z) :=
  return_if zlen buf <? nxp_session_export_size conn with NXP_ERR_BUFFER_TOO_SMALL ;;
  match run_writer (export_writer conn) buf with
  | Done r => Done r
  | _ => Ub
  end.

(** ** Import *)

Definition get_conn_id : parser nxp_conn_id :=
  (len <- get_u8 ;;
   _ <- pguard (len >? NXP_MAX_CID_LEN) ;;
   data <- get_bytes len ;;
   pret (mk_conn_id data))%P.

Definition get_keys : parser nxp_crypto_keys :=
  (len <- get_u8 ;;
   key <- get_bytes NXP_AEAD_MAX_KEY_LEN ;;
   iv <- get_bytes NXP_AEAD_IV_LEN ;;
   hp_key <- get_bytes NXP_HP_KEY_LEN ;;
   pret (CryptoKeys key iv hp_key len))%P.

(** The local variables of the import, up to the header. *)
Record session_fields := SessionFields {
  sx_scid : nxp_conn_id;
  sx_dcid : nxp_conn_id;
  sx_state : Z;
  sx_is_server : Z;
  sx_next_pkt_num : Z;
  sx_peer_addr : list Z;
  sx_algo : Z;
  sx_available : Z;
  sx_send : nxp_crypto_keys;
  sx_recv : nxp_crypto_keys;
  sx_peer_max_data : Z;
  sx_data_sent : Z;
  sx_local_max_data : Z;
  sx_data_recv : Z;
  sx_smoothed_rtt : Z;
  sx_rtt_var : Z;
  sx_min_rtt : Z;
  sx_idle_timeout_us : Z
}.

Definition get_fields : parser session_fields :=
  (scid <- get_conn_id ;;
   dcid <- get_conn_id ;;
   state <- get_u8 ;;
   is_server <- get_u8 ;;
   next_pkt_num <- get_u64 ;;
   peer_addr <- get_bytes SIZEOF_ADDR ;;
   algo <- get_u8 ;;
   available <- get_u8 ;;
   send_keys <- get_keys ;;
   recv_keys <- get_keys ;;
   peer_max <- get_u64 ;;
   sent <- get_u64 ;;
   local_max <- get_u64 ;;
   recvd <- get_u64 ;;
   srtt <- get_u64 ;;
   var <- get_u64 ;;
   min <- get_u64 ;;
   idle <- get_u64 ;;
   pret (SessionFields scid dcid state is_server next_pkt_num peer_addr algo available send_keys recv_keys
     peer_max sent local_max recvd srtt var min idle))%P.

(** The connection with the state [st] of the enumeration. *)
Definition reconstruct (f : session_fields) (st : nxp_conn_state) (conn : nxp_conn) : nxp_conn :=
  conn <| cn_dcid := sx_dcid f |> <| cn_state := st |> <| cn_next_pkt_num := sx_next_pkt_num f |>
       <| cn_crypto := CryptoState (sx_send f) (sx_recv f) (sx_algo f) (negb (sx_available f =? 0)) |>
       <| cn_conn_flow := cn_conn_flow conn <| peer_max_data := sx_peer_max_data f |> <| data_sent := sx_data_sent f |>
            <| local_max_data := sx_local_max_data f |> <| data_recv := sx_data_recv f |> |>
       <| cn_ack := cn_ack conn <| smoothed_rtt := sx_smoothed_rtt f |> <| rtt_var := sx_rtt_var f |>
            <| min_rtt := sx_min_rtt f |> <| has_rtt := sx_smoothed_rtt f >? 0 |> |>.

(** A failed read is an invalid packet. *)
Definition run_parser {A} (p : parser A) (buf : list Z) (pos : Z) : outcome nxp_error_code (A * Z) :=
  match p buf pos with
  | Done r => Done r
  | Err _ => Err NXP_ERR_INVALID_PACKET
  | Ub => Ub
  end.

(** The state is not checked: a byte that is no value of the enumeration is
    stored all the same, which the model cannot follow and calls [Ub]. *)
Definition nxp_session_import (alloc_ok cc_ok sent_ok : bool) (buf : list Z) : outcome nxp_error_code nxp_conn :=
  let! (magic, pos) := run_parser get_u32 buf 0 in
  return_if negb (magic =? NXP_SESSION_MAGIC) with NXP_ERR_INVALID_PACKET ;;
  let! (version, pos) := run_parser get_u32 buf pos in
  return_if negb (version =? NXP_SESSION_VERSION) with NXP_ERR_VERSION_MISMATCH ;;
  let! (total_len, pos) := run_parser get_u32 buf pos in
  return_if total_len >? zlen buf with NXP_ERR_BUFFER_TOO_SMALL ;;
  let! (f, _) := run_parser get_fields buf pos in
  let config := ConnConfig (sx_scid f) (sx_peer_addr f) (sx_idle_timeout_us f) (sx_local_max_data f) 0 0 0 in
  match nxp_conn_create alloc_ok cc_ok sent_ok config (negb (sx_is_server f =? 0)) with
  | None => Err NXP_ERR_OUT_OF_MEMORY
  | Some conn =>
      match conn_state_of_code (sx_state f) with
      | Some st => Done (reconstruct f st conn)
      | None => Ub
      end
  end.

(** ** Wire images *)

Lemma state_of_code s : conn_state_of_code (conn_state_code s) = Some s.
Proof. by destruct s. Qed.

Lemma wfits_put src n : zlen src = n -> wfits (put_mem src n) src.
Proof.
  intros Hn. pose proof (zlen_nonneg src). rewrite <- (ztake_all n src) at 2 by lia. apply wfits_mem. lia.
Qed.

Lemma parses_get_u8 b : parses get_u8 [b] b.
Proof. apply parses_check_byte. intros pos len ? ?. rewrite Z.gtb_ltb. zcase; lia. Qed.

Lemma parses_get_bytes l n : zlen l = n -> parses (get_bytes n) l l.
Proof. intros Hn. apply parses_check_mem; [done |]. intros pos len ? ?. by rewrite Z.gtb_ltb. Qed.

Lemma parses_le n v : 0 <= v < 256 ^ Z.of_nat n ->
  parses (l <- get_bytes (Z.of_nat n) ;; pret (le_val l))%P (le_bytes n v) v.
Proof.
  intros Hv. rewrite <- (app_nil_r (le_bytes n v)). eapply parses_bind.
  - apply parses_get_bytes, zlen_le_bytes.
  - rewrite le_val_le_bytes by done. apply parses_ret.
Qed.

Lemma parses_get_u32 v : 0 <= v < 2 ^ 32 -> parses get_u32 (le_bytes 4 v) v.
Proof. apply (parses_le 4). Qed.

Lemma parses_get_u64 v : 0 <= v < 2 ^ 64 -> parses get_u64 (le_bytes 8 v) v.
Proof. apply (parses_le 8). Qed.

Definition keys_bytes (k : nxp_crypto_keys) : list Z := [ck_key_len k] ++ ck_key k ++ ck_iv k ++ ck_hp_key k.

(** The arrays of the structure have their sizes. *)
Definition keys_array (k : nxp_crypto_keys) : Prop :=
  zlen (ck_key k) = NXP_AEAD_MAX_KEY_LEN /\ zlen (ck_iv k) = NXP_AEAD_IV_LEN /\ zlen (ck_hp_key k) = NXP_HP_KEY_LEN.

Lemma wfits_conn_id id : conn_id_ok id -> wfits (put_conn_id id) (cid_image id).
Proof.
  intros (l & -> & Hl & _). destruct (zlen_mk_conn_id l Hl) as [Hd _].
  change (cid_image ?c) with ([cid_len c] ++ ztake (cid_len c) (cid_data c)).
  apply wfits_seq; [apply wfits_byte |]. apply wfits_mem. rewrite Hd. simpl. pose proof (zlen_nonneg l). lia.
Qed.

Lemma wfits_keys k : keys_array k -> wfits (put_keys k) (keys_bytes k).
Proof.
  intros (? & ? & ?). repeat (apply wfits_seq; [first [apply wfits_byte | by apply wfits_put] |]). by apply wfits_put.
Qed.

Lemma parses_conn_id id : conn_id_ok id -> parses get_conn_id (cid_image id) id.
Proof.
  intros (l & -> & Hl & _). destruct (zlen_mk_conn_id l Hl) as [_ Hc].
  change (cid_image ?c) with ([cid_len c] ++ ztake (cid_len c) (cid_data c)).
  eapply parses_bind; [apply parses_get_u8 |]. change (cid_len (mk_conn_id l)) with (zlen l). rewrite Hc.
  eapply (parses_bind _ _ [] l); [apply parses_guard; rewrite Z.gtb_ltb; by apply Z.ltb_ge |].
  eapply parses_eq; [symmetry; apply app_nil_r |].
  eapply parses_bind; [by apply parses_get_bytes | apply parses_ret].
Qed.

Lemma parses_keys k : keys_array k -> parses get_keys (keys_bytes k) k.
Proof.
  intros (? & ? & ?). unfold get_keys, keys_bytes. eapply parses_bind; [apply parses_get_u8 |].
  eapply parses_bind; [by apply parses_get_bytes |]. eapply parses_bind; [by apply parses_get_bytes |].
  rewrite <- (app_nil_r (ck_hp_key k)). eapply parses_bind; [by apply parses_get_bytes |].
  destruct k. apply parses_ret.
Qed.

(** What the types of the source say, and the two limits that a connection has
    after its creation. *)
Record exportable (c : nxp_conn) : Prop := Exportable {
  ex_conn : conn_ok c;
  ex_addr : zlen (cn_peer_addr c) = SIZEOF_ADDR;
  ex_keys : keys_array (cs_send (cn_crypto c)) /\ keys_array (cs_recv (cn_crypto c));
  ex_algo : byte (cs_algo (cn_crypto c));
  ex_rtt : 0 <= smoothed_rtt (cn_ack c) < 2 ^ 64 /\ 0 <= rtt_var (cn_ack c) < 2 ^ 64 /\ 0 <= min_rtt (cn_ack c) < 2 ^ 64;
  ex_limits : 0 < local_max_data (cn_conn_flow c) < 2 ^ 63 /\ 0 < cn_idle_timeout_us c
}.

Definition exported_fields (c : nxp_conn) : session_fields :=
  SessionFields (cn_scid c) (cn_dcid c) (conn_state_code (cn_state c)) (if cn_is_server c then 1 else 0)
    (cn_next_pkt_num c) (cn_peer_addr c) (cs_algo (cn_crypto c)) (if cs_available (cn_crypto c) then 1 else 0)
    (cs_send (cn_crypto c)) (cs_recv (cn_crypto c))
    (peer_max_data (cn_conn_flow c)) (data_sent (cn_conn_flow c)) (local_max_data (cn_conn_flow c))
    (data_recv (cn_conn_flow c)) (smoothed_rtt (cn_ack c)) (rtt_var (cn_ack c)) (min_rtt (cn_ack c))
    (cn_idle_timeout_us c).

Definition fields_bytes (f : session_fields) : list Z :=
  cid_image (sx_scid f) ++ cid_image (sx_dcid f) ++ [sx_state f] ++ [sx_is_server f] ++
  le_bytes 8 (sx_next_pkt_num f) ++ sx_peer_addr f ++ [sx_algo f] ++ [sx_available f] ++
  keys_bytes (sx_send f) ++ keys_bytes (sx_recv f) ++
  le_bytes 8 (sx_peer_max_data f) ++ le_bytes 8 (sx_data_sent f) ++ le_bytes 8 (sx_local_max_data f) ++
  le_bytes 8 (sx_data_recv f) ++ le_bytes 8 (sx_smoothed_rtt f) ++ le_bytes 8 (sx_rtt_var f) ++
  le_bytes 8 (sx_min_rtt f) ++ le_bytes 8 (sx_idle_timeout_us f).

Definition session_bytes (c : nxp_conn) : list Z :=
  le_bytes 4 NXP_SESSION_MAGIC ++ le_bytes 4 NXP_SESSION_VERSION ++ le_bytes 4 (nxp_session_export_size c) ++
  fields_bytes (exported_fields c).

Lemma zlen_keys_bytes k : keys_array k -> zlen (keys_bytes k) = 77.
Proof. intros (H1 & H2 & H3). unfold keys_bytes. rewrite !zlen_app, H1, H2, H3. done. Qed.

Lemma export_size_range c : conn_ok c -> 272 <= nxp_session_export_size c <= 312.
Proof.
  intros Hok. destruct (zlen_cid_image _ (co_scid c Hok)) as [_ ?]. destruct (zlen_cid_image _ (co_dcid c Hok)) as [_ ?].
  unfold nxp_session_export_size, NXP_MAX_CID_LEN, NXP_AEAD_MAX_KEY_LEN, NXP_AEAD_IV_LEN, NXP_HP_KEY_LEN, SIZEOF_ADDR in *. lia.
Qed.

Lemma zlen_session_bytes c : exportable c -> zlen (session_bytes c) = nxp_session_export_size c.
Proof.
  intros [Hok Ha [Hs Hr] _ _ _]. unfold session_bytes, fields_bytes. rewrite !zlen_app, !zlen_le_bytes. simpl sx_scid.
  cbn [exported_fields sx_scid sx_dcid sx_peer_addr sx_send sx_recv].
  rewrite (proj1 (zlen_cid_image _ (co_scid c Hok))), (proj1 (zlen_cid_image _ (co_dcid c Hok))), Ha,
    (zlen_keys_bytes _ Hs), (zlen_keys_bytes _ Hr), !zlen_cons, !zlen_nil.
  unfold nxp_session_export_size, NXP_AEAD_MAX_KEY_LEN, NXP_AEAD_IV_LEN, NXP_HP_KEY_LEN. lia.
Qed.

Lemma wfits_export c : exportable c -> wfits (export_writer c) (session_bytes c).
Proof.
  intros [Hok Ha [Hs Hr] Halgo _ _]. unfold export_writer, session_bytes, fields_bytes.
  rewrite u32_small by (pose proof (export_size_range c Hok); lia). rewrite u8_small by done.
  repeat (apply wfits_seq; [first [apply wfits_byte | by apply wfits_put; rewrite ?zlen_le_bytes
    | apply wfits_conn_id, Hok | by apply wfits_keys] |]).
  by apply wfits_put; rewrite zlen_le_bytes.
Qed.

Lemma parses_fields c : exportable c -> parses get_fields (fields_bytes (exported_fields c)) (exported_fields c).
Proof.
  intros [Hok Ha [Hs Hr] Halgo Hrtt Hlim]. pose proof (co_flow c Hok) as Hf. pose proof (co_limits c Hok) as Hl.
  unfold flow_ctrl_ok, limits_mem in *. pose proof (co_pkt_num c Hok). unfold get_fields, fields_bytes.
  cbn [exported_fields sx_scid sx_dcid sx_state sx_is_server sx_next_pkt_num sx_peer_addr sx_algo sx_available sx_send
    sx_recv sx_peer_max_data sx_data_sent sx_local_max_data sx_data_recv sx_smoothed_rtt sx_rtt_var sx_min_rtt sx_idle_timeout_us].
  repeat (eapply parses_bind; [first [apply parses_get_u8 | apply parses_get_u64; lia | apply parses_conn_id, Hok
    | by apply parses_keys | by apply parses_get_bytes] |]).
  eapply parses_last; [apply parses_get_u64; lia | done].
Qed.

(** ** Round trip *)

(** The fields that are carried are the same. *)
Record same_session (c c' : nxp_conn) : Prop := SameSession {
  ss_ids : cn_scid c' = cn_scid c /\ cn_dcid c' = cn_dcid c;
  ss_state : cn_state c' = cn_state c /\ cn_is_server c' = cn_is_server c;
  ss_pkt_num : cn_next_pkt_num c' = cn_next_pkt_num c;
  ss_addr : cn_peer_addr c' = cn_peer_addr c;
  ss_crypto : cn_crypto c' = cn_crypto c;
  ss_flow : peer_max_data (cn_conn_flow c') = peer_max_data (cn_conn_flow c) /\
    data_sent (cn_conn_flow c') = data_sent (cn_conn_flow c) /\
    local_max_data (cn_conn_flow c') = local_max_data (cn_conn_flow c) /\
    data_recv (cn_conn_flow c') = data_recv (cn_conn_flow c);
  ss_rtt : smoothed_rtt (cn_ack c') = smoothed_rtt (cn_ack c) /\ rtt_var (cn_ack c') = rtt_var (cn_ack c) /\
    min_rtt (cn_ack c') = min_rtt (cn_ack c);
  ss_idle : cn_idle_timeout_us c' = cn_idle_timeout_us c
}.

(** What is not carried is as in a new connection. *)
Record fresh_engine (c : nxp_conn) : Prop := FreshEngine {
  fe_handshake : cn_handshake c = None;
  fe_recv : largest_recv_pn (cn_ack c) = 0;
  fe_streams : cn_streams c = ∅ /\ cn_sched c = sched_empty ∅;
  fe_ids : cn_next_bidi_id c = 0 /\ cn_open_bidi_count c = 0 /\ cn_peer_max_streams_bidi c = NXP_MAX_STREAMS_DEFAULT;
  fe_control : has_control_frames c = false;
  fe_open : cc_allows c = true /\ cn_pacer c = Pacer.nxp_pacer_init;
  fe_limit : cn_initial_max_stream_data c = NXP_DEFAULT_MAX_STREAM_DATA
}.

Definition import_config (f : session_fields) : nxp_conn_config :=
  ConnConfig (sx_scid f) (sx_peer_addr f) (sx_idle_timeout_us f) (sx_local_max_data f) 0 0 0.

Lemma reconstruct_same c cc c0 : exportable c ->
  nxp_conn_create true cc true (import_config (exported_fields c)) (cn_is_server c) = Some c0 ->
  let c' := reconstruct (exported_fields c) (cn_state c) c0 in
  same_session c c' /\ conn_ok c' /\ fresh_engine c'.
Proof.
  intros [Hok Ha _ Halgo Hrtt [Hlm Hidle]] Hc0 c'. pose proof (co_flow c Hok) as Hf. pose proof (co_limits c Hok) as Hl.
  unfold flow_ctrl_ok, limits_mem in *.
  assert (config_ok (import_config (exported_fields c))) as Hcf.
  { split; [apply Hok |]. simpl. lia. }
  pose proof (created_ok _ _ _ _ _ Hcf Hc0) as Hok0. unfold nxp_conn_create in Hc0. cbn [negb] in Hc0. injection Hc0 as Hc0.
  assert (or_default (local_max_data (cn_conn_flow c)) NXP_DEFAULT_MAX_DATA = local_max_data (cn_conn_flow c)) as Hd.
  { unfold or_default. rewrite (proj2 (Z.eqb_neq _ 0)) by lia. done. }
  split_and!; [| | subst c' c0; destruct cc; by split].
  - split; subst c' c0; simpl; try done.
    + destruct (cn_crypto c) as [? ? ? []]; done.
    + unfold or_default. by rewrite (proj2 (Z.eqb_neq _ 0)) by lia.
  - destruct Hok0 as [T0 S0 D0 H0 M0 A0 F0 B0 L0 I0 P0 C0]. split; subst c'; try done.
    + simpl. apply Hok.
    + destruct A0. by split.
    + subst c0. unfold flow_ctrl_ok. simpl. rewrite Hd. lia.
    + destruct I0. by split.
    + simpl. apply Hok.
Qed.

Lemma run_parses {A} (p : parser A) buf pre bs post a n k : parses p bs a -> buf = pre ++ bs ++ post -> zlen buf < 2 ^ 63 ->
  n = zlen pre -> k = zlen bs -> run_parser p buf n = Done (a, n + k).
Proof. intros Hp -> Hl -> ->. unfold run_parser. by rewrite Hp. Qed.

(** An import of the bytes of [c], whatever follows them. *)
Lemma import_bytes c cc rest : exportable c -> zlen (session_bytes c ++ rest) < 2 ^ 63 ->
  exists c0, nxp_conn_create true cc true (import_config (exported_fields c)) (cn_is_server c) = Some c0 /\
    nxp_session_import true cc true (session_bytes c ++ rest) = Done (reconstruct (exported_fields c) (cn_state c) c0).
Proof.
  intros He Hl. pose proof (zlen_session_bytes c He) as Hlen. pose proof (export_size_range c (ex_conn c He)) as Hsz.
  pose proof (zlen_nonneg rest). unfold nxp_conn_create at 1. cbn [negb]. eexists. split; [reflexivity |].
  unfold nxp_session_import. assert (nxp_session_export_size c <= zlen (session_bytes c ++ rest)) as Hge by lenlia.
  remember (session_bytes c ++ rest) as buf eqn:Hbuf. unfold session_bytes in Hbuf. rewrite <- !app_assoc in Hbuf.
  set (m := le_bytes 4 NXP_SESSION_MAGIC) in *. set (v := le_bytes 4 NXP_SESSION_VERSION) in *.
  set (t := le_bytes 4 (nxp_session_export_size c)) in *.
  rewrite (run_parses get_u32 buf [] m _ _ 0 4 (parses_get_u32 NXP_SESSION_MAGIC ltac:(done)) Hbuf) by done.
  cbn [obind]. rewrite Z.eqb_refl. cbn [negb].
  rewrite (run_parses get_u32 buf m v _ _ (0 + 4) 4 (parses_get_u32 NXP_SESSION_VERSION ltac:(done)) Hbuf) by done.
  cbn [obind]. rewrite Z.eqb_refl. cbn [negb].
  rewrite (run_parses get_u32 buf (m ++ v) t (fields_bytes (exported_fields c) ++ rest) (nxp_session_export_size c) (0 + 4 + 4) 4
    (parses_get_u32 (nxp_session_export_size c) ltac:(lia)));
    [| by rewrite <- !app_assoc | done | by rewrite zlen_app | done].
  cbn [obind]. rewrite Z.gtb_ltb, (proj2 (Z.ltb_ge _ _)) by lia.
  rewrite (run_parses get_fields buf (m ++ v ++ t) (fields_bytes (exported_fields c)) rest _ (0 + 4 + 4 + 4) (zlen (fields_bytes (exported_fields c)))
    (parses_fields c He));
    [| by rewrite <- !app_assoc | done | by rewrite !zlen_app | done].
  assert (negb (sx_is_server (exported_fields c) =? 0) = cn_is_server c) as Hsrv by (simpl; by destruct (cn_is_server c)).
  cbn [obind]. rewrite Hsrv. unfold nxp_conn_create. cbn [negb]. cbn [exported_fields sx_state]. by rewrite state_of_code.
Qed.

Lemma export_fits c buf : exportable c -> nxp_session_export_size c <= zlen buf ->
  nxp_session_export c buf = Done (nxp_session_export_size c, splice buf 0 (session_bytes c)).
Proof.
  intros He Hb. pose proof (zlen_session_bytes c He) as Hlen. unfold nxp_session_export, run_writer.
  rewrite (proj2 (Z.ltb_ge _ _)) by lia. rewrite (wfits_export c He buf 0) by lia. by rewrite Hlen.
Qed.

(** C11: migration between servers is faithful.  With room for it, exporting a
    connection succeeds and writes the announced number of bytes; importing
    them, whatever follows, gives a connection that agrees with the exported
    one in identifiers, state, role, packet number, address, keys, flow control,
    round-trip times and idle timeout, and that satisfies the invariant of the
    engine.  Without room it fails and writes nothing. *)
Theorem session_roundtrip c buf cc rest : exportable c -> zlen buf + zlen rest < 2 ^ 63 ->
  if nxp_session_export_size c <=? zlen buf
  then exists out c', nxp_session_export c buf = Done (nxp_session_export_size c, out) /\ zlen out = zlen buf /\
    nxp_session_import true cc true (ztake (nxp_session_export_size c) out ++ rest) = Done c' /\ same_session c c' /\ conn_ok c'
  else nxp_session_export c buf = Err NXP_ERR_BUFFER_TOO_SMALL.
Proof.
  intros He Hl. pose proof (zlen_session_bytes c He) as Hlen.
  destruct (Z.leb_spec (nxp_session_export_size c) (zlen buf)) as [Hb | Hb].
  - destruct (import_bytes c cc rest He) as (c0 & Hc0 & Hi); [lenlia |].
    destruct (reconstruct_same c cc c0 He Hc0) as (Hs & Hok & _). do 2 eexists. split; [by apply export_fits |].
    split; [apply zlen_splice; lia |]. split; [| done]. rewrite splice_0, <- Hlen, ztake_app. exact Hi.
  - unfold nxp_session_export. by rewrite (proj2 (Z.ltb_lt _ _)) by lia.
Qed.

(** Importing what was exported. *)
Lemma export_import c buf n out cc c' : exportable c -> zlen buf < 2 ^ 63 -> nxp_session_export c buf = Done (n, out) ->
  nxp_session_import true cc true (ztake n out) = Done c' ->
  same_session c c' /\ conn_ok c' /\ fresh_engine c'.
Proof.
  intros He Hl Hx Hi. pose proof (zlen_session_bytes c He) as Hlen.
  destruct (Z.le_gt_cases (nxp_session_export_size c) (zlen buf)) as [Hb | Hb].
  2: { unfold nxp_session_export in Hx. by rewrite (proj2 (Z.ltb_lt _ _)) in Hx by lia. }
  rewrite export_fits in Hx by done. injection Hx as <- <-.
  rewrite splice_0, <- Hlen, ztake_app, <- (app_nil_r (session_bytes c)) in Hi.
  destruct (import_bytes c cc [] He) as (c0 & Hc0 & Hi'); [rewrite app_nil_r; lia |]. rewrite Hi' in Hi. injection Hi as <-.
  by apply (reconstruct_same c cc c0 He).
Qed.

(** With nothing received yet a truncated number stands for itself. *)
Lemma decode_from_zero t n : 1 <= n <= 4 -> 0 <= t < 256 ^ n -> nxp_pkt_decode_pkt_num 0 t n = t.
Proof.
  intros Hn Ht. unfold nxp_pkt_decode_pkt_num. rewrite Z.shiftl_1_l, (Z.mul_comm n), Z.pow_mul_r by lia.
  change (2 ^ 8) with 256. assert (256 <= 256 ^ n <= 2 ^ 32) as Hw.
  { split; [change 256 with (256 ^ 1) at 1 | change (2 ^ 32) with (256 ^ 4)]; apply Z.pow_le_mono_r; lia. }
  change (u64 (0 + 1)) with 1. rewrite (u64_small (256 ^ n)) by lia. rewrite (u64_small (256 ^ n - 1)) by lia.
  assert ((1 &&& (UINT64_MAX - (256 ^ n - 1))) ||| t = t) as ->.
  { rewrite Z.land_comm, (land_ones_mod _ 1) by lia. unfold UINT64_MAX.
    assert (n = 1 \/ n = 2 \/ n = 3 \/ n = 4) as [-> | [-> | [-> | ->]]] by lia; by rewrite Z.lor_0_l. }
  assert (128 <= 256 ^ n / 2 <= 2 ^ 31) by zlia. rewrite (u64_small (t + 256 ^ n / 2)) by lia.
  rewrite (proj2 (Z.leb_gt _ _)) by lia. rewrite andb_false_l, Z.geb_leb, (proj2 (Z.leb_gt (256 ^ n) t)) by lia.
  by rewrite andb_false_r.
Qed.

Section Migration.
Context `{Allocator} `{OpenSSLLaws}.

(** Both ends of a connection that migrates: it is established and shares keys
    with [r], which is close enough to reconstruct packet numbers and has not
    seen the first stream that the importing server will open. *)
Record migrating (c r : nxp_conn) (data : list Z) : Prop := Migrating {
  mi_conn : exportable c /\ cn_state c = NXP_CONN_ESTABLISHED;
  mi_peers : peers c r /\ open_state r /\ cn_is_server r = negb (cn_is_server c);
  mi_keys : hp_works (cn_crypto c) /\ aead_works (cn_crypto c);
  mi_pkt_num : 0 <= largest_recv_pn (cn_ack r) < cn_next_pkt_num c /\ cn_next_pkt_num c < 2 ^ 31;
  mi_data : bytes_ok data /\ 0 < zlen data <= 1100 /\
    data_sent (cn_conn_flow c) + zlen data <= peer_max_data (cn_conn_flow c) /\ zlen data <= cn_initial_max_stream_data r;
  mi_stream : let id := make_stream_id 0 NXP_STREAM_RELIABLE false (cn_is_server c) in
    cn_streams r !! id = None /\ alloc_stream id = true /\ put_stream id = true
}.

Lemma pacer_init_open now : Pacer.nxp_pacer_can_send (Pacer.nxp_pacer_update Pacer.nxp_pacer_init now) NXP_BBR_MAX_DATAGRAM_SIZE = true.
Proof. reflexivity. Qed.

Lemma migrated_ready c r data c1 now : migrating c r data -> same_session c c1 -> conn_ok c1 -> fresh_engine c1 ->
  exists c2, nxp_conn_open_stream c1 NXP_STREAM_RELIABLE false = Done (next_stream c1, c2) /\
    stream_ready c2 r (next_stream c1) data now.
Proof.
  intros [[He Hst] ((P1 & P2 & P3) & Hopen & Hrole) [Hw Hae] [Hpn Hmax] (Hb & Hd & Hfc & Hr) (Hnone & Ha & Hp)]
    [[_ Hdc] [Hst1 Hsrv] Hnum _ Hcr (F1 & F2 & _) _ _] Hok [Hhs Hlr [Hstr Hsch] (Hid & Hcnt & Hpm) Hct [Hcc Hpa] Hlim].
  assert (next_stream c1 = make_stream_id 0 NXP_STREAM_RELIABLE false (cn_is_server c)) as Hns
    by (unfold next_stream; by rewrite Hid, Hsrv).
  rewrite <- Hns in Hnone, Ha, Hp. destruct (open_stream_form c1) as (c2 & Ho & G); [rewrite Hcnt, Hpm; done | done | done |].
  exists c2. split; [done |]. pose proof (open_stream_keeps c1 NXP_STREAM_RELIABLE false Hok) as Hk. rewrite Ho in Hk.
  destruct G as (Gs & Gq & _ & _ & Gst & Ghs & Gct & Gcc & Gpa & Gfl & Gcr & Gd & Gn & Gack).
  assert (0 <= next_stream c1 <= NXP_MAX_STREAM_ID /\ stream_id_is_local (next_stream c1) (cn_is_server r) = false) as [Hrange Hloc].
  { rewrite Hns, Hrole. by destruct (cn_is_server c). }
  split; rewrite ?Gst, ?Ghs, ?Gct, ?Gcc, ?Gpa, ?Gfl, ?Gcr, ?Hcr, ?Hpa.
  - split; [apply Hk |]. split; [congruence |]. by rewrite Hhs.
  - split; [done |]. split; [| done]. rewrite Gq, Hsch. apply sched_empty_ok.
  - split; [done | apply pacer_init_open].
  - rewrite Gs. eexists _, _, _. split; [apply lookup_insert_eq |]. rewrite Hlim. unfold NXP_DEFAULT_MAX_STREAM_DATA. lia.
  - split; [done |]. split; [done |]. split; [done |]. unfold fc_remain. rewrite F1, F2, Z.gtb_ltb, (proj2 (Z.ltb_lt _ _)); lia.
  - done.
  - split; [unfold peers; by rewrite Gd, Gcr, Hdc, Hcr |]. split; [done |]. unfold pn_len, pn_recovered.
    rewrite Gn, Gack, Hlr, Hnum. destruct (pkt_num_len_spec (cn_next_pkt_num c) 0) as [_ Hwin]; lia.
  - done.
Qed.

(** C10: a migrated connection goes on.  After a server has exported a
    connection and another one has imported it, the application there can open
    a stream and what it writes, 1 to 1100 bytes within the windows of the
    connection, arrives at the peer of the original connection, which did not
    take part in the migration.  [migrating] says when: the connection was
    established with packet numbers below [2 ^ 31], and its peer does not have
    the stream of index 0, which the imported connection numbers its streams
    from.  This is the direction from the imported side to the peer;
    [session_forgets_pkt_nums] shows that the other one fails. *)
Theorem session_survives c r data buf n img cc c1 fin fuel ok out now now' m : migrating c r data ->
  zlen buf < 2 ^ 63 -> nxp_session_export c buf = Done (n, img) -> nxp_session_import true cc true (ztake n img) = Done c1 ->
  NXP_MIN_DATAGRAM <= zlen out <= NXP_PACKET_BUF_SIZE -> zlen data <= m ->
  exists id c2 c3 k out' c4 r' r'', nxp_conn_open_stream c1 NXP_STREAM_RELIABLE false = Done (id, c2) /\
    nxp_conn_stream_send c2 id data fin = Done (zlen data, c3) /\
    nxp_conn_send (S (S (S fuel))) ok c3 out now = Done (k, out', c4) /\
    nxp_conn_recv r (ztake k out') now' = Done r' /\ nxp_conn_stream_recv r' id m = Done (Some data, fin, r'').
Proof.
  intros Hm Hl Hx Hi Hout Hcap.
  destruct (export_import c buf n img cc c1 (proj1 (mi_conn _ _ _ Hm)) Hl Hx Hi) as (Hs & Hok & Hfe).
  destruct (migrated_ready c r data c1 now Hm Hs Hok Hfe) as (c2 & Ho & Hready).
  destruct (first_data_delivered c2 r (next_stream c1) data fin fuel ok out now now' m Hready Hout Hcap)
    as (c3 & k & out' & c4 & r' & r'' & ? & ? & ? & ?).
  exists (next_stream c1), c2, c3, k, out', c4, r', r''. done.
Qed.

(** but it does not understand the peer.  An imported connection starts
    with an empty receive history, so no packet number that exceeds the bytes
    it is sent in is reconstructed: such packets cannot be decrypted. *)
Theorem session_forgets_pkt_nums c buf n img cc c1 pn len :
  exportable c -> zlen buf < 2 ^ 63 -> nxp_session_export c buf = Done (n, img) ->
  nxp_session_import true cc true (ztake n img) = Done c1 -> 1 <= len <= 4 -> 256 ^ len <= pn ->
  nxp_pkt_decode_pkt_num (largest_recv_pn (cn_ack c1)) (pn mod 256 ^ len) len <> pn.
Proof.
  intros He Hl Hx Hi Hlen Hpn. destruct (export_import c buf n img cc c1 He Hl Hx Hi) as (_ & _ & [_ -> _ _ _ _ _]).
  assert (0 <= pn mod 256 ^ len < 256 ^ len) by (apply Z.mod_pos_bound; lia). rewrite decode_from_zero; lia.
Qed.

End Migration.

(** ** Arbitrary input *)

Lemma psafe_get_u8 : psafe get_u8 (fun b => byte b).
Proof. apply psafe_check_byte. intros pos len ? ?. rewrite Z.gtb_ltb. zcase; lia. Qed.

Lemma psafe_get_bytes n : 0 <= n -> psafe (get_bytes n) (fun l => zlen l = n /\ bytes_ok l).
Proof. intros Hn. apply psafe_check_mem; [done |]. intros pos len ? ?. by rewrite Z.gtb_ltb. Qed.

Lemma psafe_le n : 0 <= n -> psafe (l <- get_bytes n ;; pret (le_val l))%P (fun v => 0 <= v < 256 ^ n).
Proof.
  intros Hn. eapply psafe_bind; [by apply psafe_get_bytes |]. intros l [<- Hl]. by apply psafe_ret, le_val_range.
Qed.

Lemma psafe_get_u32 : psafe get_u32 (fun v => 0 <= v < 2 ^ 32).
Proof. by apply (psafe_le 4). Qed.
Lemma psafe_get_u64 : psafe get_u64 (fun v => 0 <= v < 2 ^ 64).
Proof. by apply (psafe_le 8). Qed.

Lemma psafe_get_conn_id : psafe get_conn_id conn_id_ok.
Proof.
  eapply psafe_bind; [apply psafe_get_u8 |]. intros len Hlen. cbv beta in Hlen. eapply psafe_bind; [apply psafe_guard |].
  intros ? Hmax. rewrite Z.gtb_ltb in Hmax. apply Z.ltb_ge in Hmax.
  eapply psafe_bind; [apply psafe_get_bytes; lia |]. intros l [Hl Hb]. apply psafe_ret. exists l. split; [done |]. by rewrite Hl.
Qed.

Lemma psafe_get_keys : psafe get_keys (fun k => keys_array k /\ byte (ck_key_len k)).
Proof.
  eapply psafe_bind; [apply psafe_get_u8 |]. intros len Hlen.
  do 3 (eapply psafe_bind; [by apply psafe_get_bytes |]; intros ? [? ?]). by apply psafe_ret.
Qed.

(** What the types of the local variables say. *)
Record fields_ok (f : session_fields) : Prop := FieldsOk {
  fo_ids : conn_id_ok (sx_scid f) /\ conn_id_ok (sx_dcid f);
  fo_bytes : byte (sx_state f) /\ byte (sx_is_server f) /\ byte (sx_algo f) /\ byte (sx_available f);
  fo_addr : zlen (sx_peer_addr f) = SIZEOF_ADDR;
  fo_keys : keys_array (sx_send f) /\ keys_array (sx_recv f);
  fo_pkt_num : 0 <= sx_next_pkt_num f < 2 ^ 64
}.

Lemma psafe_get_fields : psafe get_fields fields_ok.
Proof.
  do 2 (eapply psafe_bind; [apply psafe_get_conn_id |]; intros ? ?).
  do 2 (eapply psafe_bind; [apply psafe_get_u8 |]; intros ? ?).
  eapply psafe_bind; [apply psafe_get_u64 |]. intros ? ?.
  eapply psafe_bind; [by apply psafe_get_bytes |]. intros ? [? _].
  do 2 (eapply psafe_bind; [apply psafe_get_u8 |]; intros ? ?).
  do 2 (eapply psafe_bind; [apply psafe_get_keys |]; intros ? [? _]).
  do 8 (eapply psafe_bind; [apply psafe_get_u64 |]; intros ? ?).
  by apply psafe_ret.
Qed.

(** A parser that is safe either fails with an invalid packet or returns. *)
Lemma run_parser_safe {A} (p : parser A) Q buf pos : psafe p Q -> bytes_ok buf -> zlen buf < 2 ^ 63 -> 0 <= pos <= zlen buf ->
  run_parser p buf pos = Err NXP_ERR_INVALID_PACKET \/
  exists a pos', run_parser p buf pos = Done (a, pos') /\ Q a /\ pos <= pos' <= zlen buf.
Proof.
  intros Hp Hb Hl Hpos. specialize (Hp buf pos Hb Hl Hpos). unfold run_parser.
  destruct (p buf pos) as [[a pos'] | |]; [| by left | done]. right. eauto.
Qed.

Lemma run_u32_safe buf pos : bytes_ok buf -> zlen buf < 2 ^ 63 -> 0 <= pos <= zlen buf ->
  run_parser get_u32 buf pos = Err NXP_ERR_INVALID_PACKET \/
  exists v, run_parser get_u32 buf pos = Done (v, pos + 4) /\ pos + 4 <= zlen buf.
Proof.
  intros Hb Hl Hpos. unfold run_parser, get_u32, get_bytes, get_room, pbind, pcheck, get_mem, pret.
  rewrite Z.gtb_ltb. destruct (Z.ltb_spec (zlen buf) (pos + 4)); [by left | right]. cbn [obind].
  rewrite sub_buf_Done by lia. cbn [obind]. eauto.
Qed.

Lemma state_code_valid z : 0 <= z < 7 -> is_Some (conn_state_of_code z).
Proof.
  intros Hz. assert (z = 0 \/ z = 1 \/ z = 2 \/ z = 3 \/ z = 4 \/ z = 5 \/ z = 6)
    as [-> | [-> | [-> | [-> | [-> | [-> | ->]]]]]] by lia; by eexists.
Qed.

(** importing arbitrary bytes never leaves the buffer and fails only with
    the documented errors; an import that the model cannot follow has stored a
    state that is no value of the enumeration, which the code does not check. *)
Theorem session_import_total a cc so buf : bytes_ok buf -> zlen buf < 2 ^ 63 ->
  match nxp_session_import a cc so buf with
  | Done c => conn_id_ok (cn_scid c) /\ conn_id_ok (cn_dcid c) /\
      keys_array (cs_send (cn_crypto c)) /\ keys_array (cs_recv (cn_crypto c))
  | Err e => e = NXP_ERR_INVALID_PACKET \/ e = NXP_ERR_VERSION_MISMATCH \/ e = NXP_ERR_BUFFER_TOO_SMALL \/
      (e = NXP_ERR_OUT_OF_MEMORY /\ a = false)
  | Ub => exists f pos, run_parser get_fields buf 12 = Done (f, pos) /\ 7 <= sx_state f
  end.
Proof.
  intros Hb Hl. unfold nxp_session_import. pose proof (zlen_nonneg buf).
  destruct (run_u32_safe buf 0) as [-> | (magic & -> & H1)]; [done.. | by left |]. cbn [obind].
  destruct (negb (magic =? _)); [by left |].
  destruct (run_u32_safe buf (0 + 4)) as [-> | (version & -> & H2)]; [done | done | lia | by left |]. cbn [obind].
  destruct (negb (version =? _)); [by right; left |].
  destruct (run_u32_safe buf (0 + 4 + 4)) as [-> | (total & -> & H3)]; [done | done | lia | by left |]. cbn [obind].
  destruct (total >? zlen buf); [by right; right; left |]. change (0 + 4 + 4 + 4) with 12 in *.
  destruct (run_parser_safe get_fields fields_ok buf 12) as [-> | (f & pos & -> & [[Hs Hd] [Hst _] _ Hk _] & _)];
    [apply psafe_get_fields | done | done | lia | by left |]. cbn [obind].
  unfold nxp_conn_create. destruct a; [| by right; right; right]. cbn [negb].
  destruct (conn_state_of_code (sx_state f)) as [st |] eqn:Hcode; [done |]. exists f, pos. split; [done |].
  destruct (Z.lt_ge_cases (sx_state f) 7); [| done]. destruct (state_code_valid (sx_state f)); [lia | congruence].
Qed.
