(* ===== verification/Listener.v ===== *)
(** * The server listener (src/src/core/listener.c, listener_internal.h)

    The listener owns the connections of a server: it routes datagrams to them
    by the hash of the destination connection ID, creates a connection for an
    unknown Initial packet, polls the connections for outgoing datagrams in turn
    and fires their timers.

    Connections live in a heap addressed by pointers, because the array and the
    table share them: using a pointer that is not in the heap is undefined
    behaviour, and destroying a connection removes it.  The table of connections
    is the finite map that [HashMap] implements, the rate limiter is the model
    of [RateLimit].  The fields [cid_counter] and [retry_key] are never used by
    the code. *)

From stdpp Require Import gmap.
From S2P Require Import Prelude Types Varint Codec Frame Packet Pacing Ack Scheduler RateLimit.
From S2P Require Import Crypto Handshake Connection ConnectionSend.

Definition NXP_LISTENER_DEFAULT_MAX_CONNS : Z := 4096.
Definition NXP_LISTENER_CID_LEN : Z := 8.
Definition NXP_LISTENER_MAX_NODE_ID_LEN : Z := 4.

Record nxp_listener_config := ListenerConfig {
  lc_node_id : list Z;
  lc_node_id_len : Z;
  lc_max_connections : Z;
  lc_idle_timeout_us : Z;
  lc_initial_max_data : Z;
  lc_initial_max_stream_data : Z;
  lc_max_streams_bidi : Z;
  lc_max_streams_uni : Z;
  lc_require_retry : bool;
  lc_on_new_conn : bool
}.
#[export] Instance eta_listener_config : Eta nxp_listener_config := fun c =>
  ListenerConfig (lc_node_id c) (lc_node_id_len c) (lc_max_connections c) (lc_idle_timeout_us c)
    (lc_initial_max_data c) (lc_initial_max_stream_data c) (lc_max_streams_bidi c)
    (lc_max_streams_uni c) (lc_require_retry c) (lc_on_new_conn c).

(** What the environment decides during a call: the pointers of a new
    connection and of a new rate limiter bucket, the outcomes of the other
    allocations, the random bytes of a connection ID and of the handshake. *)
Record listener_env := ListenerEnv {
  le_conn : option Z;
  le_cc : bool;
  le_sent : bool;
  le_realloc : bool;
  le_put : bool;
  le_bucket : option Z;
  le_grow : bool;
  le_cid : list Z;
  le_key : option (list Z)
}.

Section Listener.
Context {S : Type} `{KeyStore S Z}.

(** [ls_heap] holds the connections; [ls_accepted] records the calls of
    [on_new_conn]. *)
Record nxp_listener_s := Listener {
  ls_conn_map : gmap Z Z;
  ls_conns : list (option Z);
  ls_conn_count : Z;
  ls_conn_cap : Z;
  ls_send_index : Z;
  ls_config : nxp_listener_config;
  ls_total_accepted : Z;
  ls_total_rejected : Z;
  ls_total_retried : Z;
  ls_rate_limiter : option (nxp_rate_limiter (S := S));
  ls_heap : gmap Z nxp_conn;
  ls_accepted : list Z
}.
#[export] Instance eta_listener : Eta nxp_listener_s := fun l =>
  Listener (ls_conn_map l) (ls_conns l) (ls_conn_count l) (ls_conn_cap l) (ls_send_index l) (ls_config l)
    (ls_total_accepted l) (ls_total_rejected l) (ls_total_retried l) (ls_rate_limiter l) (ls_heap l)
    (ls_accepted l).

Definition listener_result : Type := outcome (nxp_error_code * nxp_listener_s) nxp_listener_s.

(** FNV-1a over the bytes of the connection ID. *)
Definition cid_hash (cid : nxp_conn_id) : Z := addr_hash_loop 14695981039346656037 (cid_bytes cid).

(** ** Creation *)

(** [limiter]: the result of creating the rate limiter, whose failure is not
    checked. *)
Definition nxp_listener_create (alloc_ok : bool) (limiter : option nxp_rate_limiter) (config : nxp_listener_config)
  : option nxp_listener_s :=
  if negb alloc_ok then None else
  let config := if lc_max_connections config =? 0
                then config <| lc_max_connections := NXP_LISTENER_DEFAULT_MAX_CONNS |> else config in
  Some (Listener ∅ (replicate 64 None) 0 64 0 config 0 0 0 limiter ∅ []).

(** ** Connection IDs *)

Definition nxp_listener_generate_cid (ls : nxp_listener_s) (random : list Z) : nxp_conn_id :=
  let prefix_len := lc_node_id_len (ls_config ls) in
  let prefix_len := if prefix_len >? NXP_LISTENER_MAX_NODE_ID_LEN then NXP_LISTENER_MAX_NODE_ID_LEN else prefix_len in
  let data := zeros NXP_MAX_CID_LEN in
  let data := if prefix_len >? 0 then splice data 0 (ztake prefix_len (lc_node_id (ls_config ls))) else data in
  let random_len := NXP_LISTENER_CID_LEN - prefix_len in
  ConnId (if random_len >? 0 then splice data prefix_len (ztake random_len random) else data) NXP_LISTENER_CID_LEN.

Definition nxp_listener_extract_node_id (cid : nxp_conn_id) (node_id_len : Z) : option (list Z) :=
  if (cid_len cid <? node_id_len) || (node_id_len =? 0) then None
  else Some (ztake node_id_len (cid_data cid)).

(** ** Connection management *)

(** Register the connection and append it to the array. *)
Definition push_conn (env : listener_env) (ls : nxp_listener_s) (conn : Z) (scid : nxp_conn_id) : listener_result :=
  let map := if le_put env then <[cid_hash scid := conn]> (ls_conn_map ls) else ls_conn_map ls in
  if negb (ls_conn_count ls <? zlen (ls_conns ls)) then Ub else
  Done (ls <| ls_conn_map := map |>
           <| ls_conns := <[Z.to_nat (ls_conn_count ls) := Some conn]> (ls_conns ls) |>
           <| ls_conn_count := u32 (ls_conn_count ls + 1) |>).

(** The array doubles when it is full. *)
Definition listener_add_conn (env : listener_env) (ls : nxp_listener_s) (conn : Z) (scid : nxp_conn_id) : listener_result :=
  return_if ls_conn_count ls >=? lc_max_connections (ls_config ls) with (NXP_ERR_STREAM_LIMIT, ls) ;;
  let! ls :=
    if ls_conn_count ls >=? ls_conn_cap ls then
      return_if negb (le_realloc env) with (NXP_ERR_OUT_OF_MEMORY, ls) ;;
      let new_cap := u32 (ls_conn_cap ls * 2) in
      Done (ls <| ls_conns := ztake new_cap (ls_conns ls ++ replicate (Z.to_nat (new_cap - zlen (ls_conns ls))) None) |>
               <| ls_conn_cap := new_cap |>)
    else Done ls in
  push_conn env ls conn scid.

Definition nxp_listener_find_conn (ls : nxp_listener_s) (dcid : nxp_conn_id) : option Z :=
  ls_conn_map ls !! cid_hash dcid.

(** The index of a pointer among the first [n] entries. *)
Fixpoint find_conn_index (n : nat) (i : Z) (conns : list (option Z)) (conn : Z) : option Z :=
  match n, conns with
  | Datatypes.S n, c :: conns => if bool_decide (c = Some conn) then Some i else find_conn_index n (i + 1) conns conn
  | _, _ => None
  end.

(** The last entry takes the place of the removed one. *)
Definition array_remove (ls : nxp_listener_s) (conn : Z) : outcome (nxp_error_code * nxp_listener_s) nxp_listener_s :=
  match find_conn_index (Z.to_nat (ls_conn_count ls)) 0 (ls_conns ls) conn with
  | None => Done ls
  | Some i =>
      match ls_conns ls !! Z.to_nat (ls_conn_count ls - 1) with
      | None => Ub
      | Some last =>
          Done (ls <| ls_conns := <[Z.to_nat (ls_conn_count ls - 1) := None]> (<[Z.to_nat i := last]> (ls_conns ls)) |>
                   <| ls_conn_count := ls_conn_count ls - 1 |>)
      end
  end.

Definition nxp_listener_remove_conn (ls : nxp_listener_s) (conn : Z) : listener_result :=
  match ls_heap ls !! conn with
  | None => Ub
  | Some c =>
      let! ls := array_remove (ls <| ls_conn_map := delete (cid_hash (cn_scid c)) (ls_conn_map ls) |>) conn in
      Done (ls <| ls_heap := delete conn (ls_heap ls) |>)
  end.

Definition count_rejected (ls : nxp_listener_s) : nxp_listener_s :=
  ls <| ls_total_rejected := u64 (ls_total_rejected ls + 1) |>.

Section Operations.
Context `{Allocator} `{OpenSSL}.

(** ** Accepting *)

Definition conn_config (env : listener_env) (ls : nxp_listener_s) (from_addr : list Z) : nxp_conn_config :=
  let c := ls_config ls in
  ConnConfig (nxp_listener_generate_cid ls (le_cid env)) from_addr (lc_idle_timeout_us c)
    (lc_initial_max_data c) (lc_initial_max_stream_data c) (lc_max_streams_bidi c) (lc_max_streams_uni c).

(** The connection [conn] after an operation on it, whose result is dropped. *)
Definition store_conn (ls : nxp_listener_s) (conn : Z) (r : conn_result) : listener_result :=
  match r with
  | Done c | Err (_, c) => Done (ls <| ls_heap := <[conn := c]> (ls_heap ls) |>)
  | Ub => Ub
  end.

Definition listener_accept (env : listener_env) (ls : nxp_listener_s) (hdr : nxp_pkt_long_header) (data from_addr : list Z)
    (now_us : Z) : listener_result :=
  let config := conn_config env ls from_addr in
  match le_conn env, nxp_conn_create (bool_decide (is_Some (le_conn env))) (le_cc env) (le_sent env) config true with
  | Some conn, Some c =>
      let c := c <| cn_dcid := lh_scid hdr |> in
      match listener_add_conn env (ls <| ls_heap := <[conn := c]> (ls_heap ls) |>) conn (cn_scid c) with
      | Ub => Ub
      | Err (e, ls) => Err (e, count_rejected (ls <| ls_heap := delete conn (ls_heap ls) |>))
      | Done ls =>
          let ls := ls <| ls_total_accepted := u64 (ls_total_accepted ls + 1) |> in
          match nxp_conn_start_handshake c (lh_dcid hdr) (le_key env) with
          | Ub => Ub
          | Err (e, c) =>
              let! ls := nxp_listener_remove_conn (ls <| ls_heap := <[conn := c]> (ls_heap ls) |>) conn in
              Err (e, count_rejected ls)
          | Done c =>
              let! ls := store_conn ls conn (nxp_conn_recv c data now_us) in
              Done (if lc_on_new_conn (ls_config ls)
                    then ls <| ls_accepted := ls_accepted ls ++ [conn] |> else ls)
          end
      end
  | _, _ => Err (NXP_ERR_OUT_OF_MEMORY, count_rejected ls)
  end.

(** ** Receiving *)

(** Hand a datagram to an existing connection. *)
Definition forward (ls : nxp_listener_s) (conn : Z) (data : list Z) (now_us : Z) : listener_result :=
  match ls_heap ls !! conn with
  | None => Ub
  | Some c =>
      match nxp_conn_recv c data now_us with
      | Done c => Done (ls <| ls_heap := <[conn := c]> (ls_heap ls) |>)
      | Err (e, c) => Err (e, ls <| ls_heap := <[conn := c]> (ls_heap ls) |>)
      | Ub => Ub
      end
  end.

Definition recv_long (env : listener_env) (ls : nxp_listener_s) (data from_addr : list Z) (now_us : Z) : listener_result :=
  match nxp_pkt_decode_long_header data with
  | Ub => Ub
  | Err e => Err (e, ls)
  | Done hdr =>
      match nxp_listener_find_conn ls (lh_dcid hdr) with
      | Some conn => forward ls conn data now_us
      | None =>
          return_if negb (bool_decide (lh_type hdr = NXP_PKT_INITIAL)) with (NXP_ERR_INVALID_PACKET, ls) ;;
          return_if negb (lh_version hdr =? NXP_VERSION_CURRENT) with (NXP_ERR_VERSION_MISMATCH, ls) ;;
          return_if lc_require_retry (ls_config ls) && (lh_token_len hdr =? 0)
            with (NXP_ERR_TOKEN_INVALID, ls <| ls_total_retried := u64 (ls_total_retried ls + 1) |>) ;;
          listener_accept env ls hdr data from_addr now_us
      end
  end.

Definition recv_short (ls : nxp_listener_s) (data : list Z) (now_us : Z) : listener_result :=
  return_if zlen data <? 1 + NXP_LISTENER_CID_LEN with (NXP_ERR_INVALID_PACKET, ls) ;;
  let! cid := sub_buf data 1 NXP_LISTENER_CID_LEN in
  match nxp_listener_find_conn ls (ConnId cid NXP_LISTENER_CID_LEN) with
  | None => Err (NXP_ERR_INVALID_PACKET, ls)
  | Some conn => forward ls conn data now_us
  end.

(** The rate limiter's answer; a missing limiter admits everything. *)
Definition rate_check (env : listener_env) (ls : nxp_listener_s) (from_addr : list Z) (now_us : Z)
  : outcome (nxp_error_code * nxp_listener_s) (bool * nxp_listener_s) :=
  match ls_rate_limiter ls with
  | None => Done (true, ls)
  | Some rl =>
      match nxp_rate_limiter_check (le_bucket env) (le_grow env) rl from_addr now_us with
      | Done (b, rl) => Done (b, ls <| ls_rate_limiter := Some rl |>)
      | Err e => Err (e, ls)
      | Ub => Ub
      end
  end.

Definition nxp_listener_recv (env : listener_env) (ls : nxp_listener_s) (data from_addr : list Z) (now_us : Z)
  : listener_result :=
  return_if zlen data =? 0 with (NXP_ERR_INVALID_ARGUMENT, ls) ;;
  let! (allowed, ls) := rate_check env ls from_addr now_us in
  return_if negb allowed with (NXP_ERR_CONGESTION, count_rejected ls) ;;
  let! first := rd data 0 in
  if nxp_pkt_is_long_header first then recv_long env ls data from_addr now_us
  else recv_short ls data now_us.

(** ** Sending *)

(** The datagram's length, the buffer, the peer's address and the listener;
    [fuel] is that of [nxp_conn_send].  [n] connections remain to be asked. *)
Fixpoint send_loop (n fuel : nat) (realloc_ok : bool) (ls : nxp_listener_s) (out : list Z) (now_us : Z)
  : outcome unit (Z * list Z * option (list Z) * nxp_listener_s) :=
  match n with
  | O => Done (0, out, None, ls)
  | Datatypes.S n =>
      let idx := ls_send_index ls mod ls_conn_count ls in
      let ls := ls <| ls_send_index := u32 (ls_send_index ls + 1) |> in
      match ls_conns ls !! Z.to_nat idx with
      | None => Ub
      | Some None => send_loop n fuel realloc_ok ls out now_us
      | Some (Some conn) =>
          match ls_heap ls !! conn with
          | None => Ub
          | Some c =>
              let! (written, out, c) := nxp_conn_send fuel realloc_ok c out now_us in
              let ls := ls <| ls_heap := <[conn := c]> (ls_heap ls) |> in
              if written >? 0 then Done (written, out, Some (cn_peer_addr c), ls)
              else send_loop n fuel realloc_ok ls out now_us
          end
      end
  end.

Definition nxp_listener_send (fuel : nat) (realloc_ok : bool) (ls : nxp_listener_s) (out : list Z) (now_us : Z)
  : outcome unit (Z * list Z * option (list Z) * nxp_listener_s) :=
  if ls_conn_count ls =? 0 then Done (0, out, None, ls) else
  send_loop (Z.to_nat (ls_conn_count ls)) fuel realloc_ok ls out now_us.

(** ** Timers *)

Fixpoint timeout_loop (ls : nxp_listener_s) (conns : list (option Z)) (now_us earliest : Z) : outcome unit Z :=
  match conns with
  | [] => Done earliest
  | None :: conns => timeout_loop ls conns now_us earliest
  | Some conn :: conns =>
      match ls_heap ls !! conn with
      | None => Ub
      | Some c =>
          let! t := nxp_conn_timeout c now_us in
          timeout_loop ls conns now_us (if t <? earliest then t else earliest)
      end
  end.

Definition nxp_listener_timeout (ls : nxp_listener_s) (now_us : Z) : outcome unit Z :=
  timeout_loop ls (ztake (ls_conn_count ls) (ls_conns ls)) now_us UINT64_MAX.

(** Every iteration advances [i] or lowers [conn_count]. *)
Fixpoint expire_loop (fuel : nat) (ls : nxp_listener_s) (i now_us : Z) : listener_result :=
  if negb (i <? ls_conn_count ls) then Done ls else
  match fuel with
  | O => Ub
  | Datatypes.S fuel =>
      match ls_conns ls !! Z.to_nat i with
      | None => Ub
      | Some None => expire_loop fuel ls (i + 1) now_us
      | Some (Some conn) =>
          match ls_heap ls !! conn with
          | None => Ub
          | Some c =>
              let! ls := store_conn ls conn (nxp_conn_on_timeout c now_us) in
              match ls_heap ls !! conn with
              | None => Ub
              | Some c =>
                  if bool_decide (nxp_conn_get_state c = NXP_CONN_CLOSED) then
                    let! ls := nxp_listener_remove_conn ls conn in
                    expire_loop fuel ls i now_us
                  else expire_loop fuel ls (i + 1) now_us
              end
          end
      end
  end.

Definition nxp_listener_on_timeout (ls : nxp_listener_s) (now_us : Z) : listener_result :=
  expire_loop (Z.to_nat (ls_conn_count ls)) ls 0 now_us.

Definition nxp_listener_conn_count (ls : nxp_listener_s) : Z := ls_conn_count ls.

End Operations.
End Listener.
