(* ===== verification/ListenerSafety.v ===== *)
(** * Safety of the listener

    The invariant of a listener: the array lists every connection of the heap
    once, the table only points to live connections and under their own hash.
    Every operation keeps it, for arbitrary datagrams; datagrams change at most
    the connection they are addressed to; polling asks every connection once;
    the timer removes exactly the connections that it closes. *)

From stdpp Require Import gmap.
From S2P Require Import Prelude Types Varint Codec Frame Packet Pacing Ack Scheduler RateLimit.
From S2P Require Import Crypto Handshake Connection ConnectionSend ConnectionInv ConnectionSafety Session.
From S2P Require Import Listener.

(** ** The invariant *)

Section Safety.
Context {S : Type} `{KeyStore S Z} `{Allocator} `{OpenSSLLaws}.

Implicit Types (ls : nxp_listener_s (S := S)) (p q : Z) (live : list Z).

(** The first entries of the array are the pointers [live]. *)
Definition listed ls live : Prop :=
  exists tail, ls_conns ls = (Some <$> live) ++ tail /\ zlen live = ls_conn_count ls /\
    zlen (ls_conns ls) = ls_conn_cap ls.

Definition listener_config_ok (c : nxp_listener_config) : Prop :=
  zlen (lc_node_id c) = NXP_LISTENER_MAX_NODE_ID_LEN /\ bytes_ok (lc_node_id c) /\ 0 <= lc_node_id_len c < 256 /\
  0 <= lc_max_connections c <= 2 ^ 31 /\ 0 <= lc_idle_timeout_us c < 2 ^ 64 /\
  0 <= lc_initial_max_data c < 2 ^ 63 /\ 0 <= lc_initial_max_stream_data c < 2 ^ 64 /\
  0 <= lc_max_streams_bidi c < 2 ^ 32 /\ 0 <= lc_max_streams_uni c < 2 ^ 32.

Record listener_ok ls : Prop := ListenerOk {
  lo_heap : map_Forall (fun _ c => conn_ok c) (ls_heap ls);
  lo_array : exists live, listed ls live /\ NoDup live /\ forall p, p ∈ live <-> is_Some (ls_heap ls !! p);
  lo_map : forall k p, ls_conn_map ls !! k = Some p -> exists c, ls_heap ls !! p = Some c /\ cid_hash (cn_scid c) = k;
  lo_count : 0 <= ls_conn_count ls <= lc_max_connections (ls_config ls) /\ 64 <= ls_conn_cap ls < 2 ^ 32;
  lo_limiter : match ls_rate_limiter ls with Some rl => limiter_mem rl | None => True end;
  lo_config : listener_config_ok (ls_config ls);
  lo_index : 0 <= ls_send_index ls < 2 ^ 32
}.

Lemma created_listener_ok (a : bool) limiter config ls : listener_config_ok config ->
  match limiter with Some rl => limiter_mem rl | None => True end ->
  nxp_listener_create a limiter config = Some ls -> listener_ok ls.
Proof.
  intros Hc Hl. unfold nxp_listener_create. destruct a; [| done]. intros [= <-]. split; simpl.
  - apply map_Forall_empty.
  - exists []. split; [exists (replicate 64 None); done |]. split; [constructor |]. intros p.
    rewrite lookup_empty. split; [by intros ?%not_elem_of_nil | by intros []].
  - intros k p Hk. by rewrite lookup_empty in Hk.
  - unfold listener_config_ok in Hc. destruct (Z.eqb_spec (lc_max_connections config) 0); simpl;
      unfold NXP_LISTENER_DEFAULT_MAX_CONNS; lia.
  - done.
  - unfold listener_config_ok in *. destruct (_ =? 0); simpl; [| done].
    unfold NXP_LISTENER_DEFAULT_MAX_CONNS. intuition lia.
  - lia.
Qed.

(** ** Replacing a connection *)

Definition with_conn ls p (c : nxp_conn) : nxp_listener_s (S := S) := ls <| ls_heap := <[p := c]> (ls_heap ls) |>.

Lemma with_conn_ok ls p c c' : listener_ok ls -> ls_heap ls !! p = Some c -> conn_next c c' -> listener_ok (with_conn ls p c').
Proof.
  intros [Hh (live & Hl & Hnd & Hin) Hm Hc Hr Hcf Hi] Hp [Hok Hle]. split; simpl; try done.
  - by apply map_Forall_insert_2.
  - exists live. split; [done |]. split; [done |]. intros q. rewrite Hin, lookup_insert_is_Some'.
    split; [auto | intros [-> | ?]; eauto].
  - intros k q Hk. destruct (Hm k q Hk) as (c1 & Hc1 & Hh1). destruct (decide (q = p)) as [-> | N].
    + exists c'. rewrite lookup_insert_eq. split; [done |]. rewrite (cl_scid _ _ Hle). congruence.
    + exists c1. by rewrite lookup_insert_ne by done.
Qed.

Lemma live_conn_ok ls p c : listener_ok ls -> ls_heap ls !! p = Some c -> conn_ok c.
Proof. intros Hok Hp. by apply (lo_heap ls Hok p c). Qed.

(** ** Removing a connection *)

Lemma find_conn_index_spec l1 p l2 tail : p ∉ l1 -> forall i,
  find_conn_index (length (l1 ++ p :: l2)) i ((Some <$> l1 ++ p :: l2) ++ tail) p = Some (i + zlen l1).
Proof.
  induction l1 as [| q l1 IH]; intros Hn i; simpl.
  - rewrite bool_decide_true by done. change (zlen []) with 0. f_equal. lia.
  - apply not_elem_of_cons in Hn as [Hne Hn]. rewrite bool_decide_false by congruence.
    rewrite IH by done. rewrite zlen_cons. f_equal. lia.
Qed.

(** What follows the removed entry afterwards. *)
Definition moved (l2 : list Z) : list Z :=
  match rev l2 with q :: r => q :: rev r | [] => [] end.

Lemma moved_snoc l q : moved (l ++ [q]) = q :: l.
Proof. unfold moved. rewrite rev_unit. by rewrite rev_involutive. Qed.

Lemma moved_perm l2 : moved l2 ≡ₚ l2.
Proof.
  destruct l2 as [| q l2 _] using rev_ind; [done |]. rewrite moved_snoc. by rewrite Permutation_app_comm.
Qed.

Lemma insert_at {A} (l : list A) x y r n : n = length l -> <[n := y]> (l ++ x :: r) = l ++ y :: r.
Proof. intros ->. rewrite <- (Nat.add_0_r (length l)). by rewrite insert_app_r. Qed.

Lemma lookup_at {A} (l : list A) x r n : n = length l -> (l ++ x :: r) !! n = Some x.
Proof. intros ->. by apply list_lookup_middle. Qed.

Lemma array_remove_ok ls l1 p l2 : listed ls (l1 ++ p :: l2) -> p ∉ l1 ->
  exists conns, array_remove ls p = Done (ls <| ls_conns := conns |> <| ls_conn_count := zlen (l1 ++ l2) |>) /\
    exists tail, conns = (Some <$> l1 ++ moved l2) ++ tail /\ zlen conns = zlen (ls_conns ls).
Proof.
  intros (tail & Hc & Hn & _) Hp. unfold array_remove. rewrite <- Hn.
  replace (Z.to_nat (zlen (l1 ++ p :: l2))) with (length (l1 ++ p :: l2)) by (unfold zlen; lia).
  rewrite Hc, find_conn_index_spec by done. rewrite Z.add_0_l.
  assert (zlen (l1 ++ p :: l2) - 1 = zlen (l1 ++ l2)) as -> by (rewrite !zlen_app, zlen_cons; lia).
  destruct l2 as [| q l3 _] using rev_ind.
  - rewrite app_nil_r, fmap_app, <- app_assoc. simpl.
    rewrite lookup_at by (rewrite length_fmap; unfold zlen; lia).
    rewrite !insert_at by (rewrite length_fmap; unfold zlen; lia).
    eexists. split; [reflexivity |]. exists (None :: tail). rewrite app_nil_r. split; [done |].
    rewrite !zlen_app, !zlen_cons. lia.
  - rewrite moved_snoc, !fmap_app, fmap_cons, fmap_app, <- !app_assoc. simpl. rewrite <- app_assoc. simpl.
    assert (Z.to_nat (zlen (l1 ++ l3 ++ [q])) = length ((Some <$> l1) ++ Some p :: (Some <$> l3))) as Hlast.
    { unfold zlen. rewrite !length_app, !length_fmap, !length_cons, length_fmap. simpl. lia. }
    assert (forall x, (Some <$> l1) ++ x :: (Some <$> l3) ++ Some q :: tail =
      ((Some <$> l1) ++ x :: (Some <$> l3)) ++ Some q :: tail) as He by (intros x; by rewrite <- app_assoc).
    rewrite (He (Some p)), lookup_at by done. rewrite <- (He (Some p)).
    rewrite insert_at by (rewrite length_fmap; unfold zlen; lia).
    rewrite (He (Some q)), insert_at by (rewrite Hlast, !length_app; done).
    eexists. split; [reflexivity |]. exists (None :: tail). split; [done |].
    rewrite !zlen_app, !zlen_cons, !zlen_app, !zlen_cons. lia.
Qed.

(** Removing the pointer between [l1] and [l2]. *)
Lemma remove_conn_ok ls p c l1 l2 : listener_ok ls -> ls_heap ls !! p = Some c -> listed ls (l1 ++ p :: l2) ->
  NoDup (l1 ++ p :: l2) ->
  exists ls', nxp_listener_remove_conn ls p = Done ls' /\ listener_ok ls' /\ listed ls' (l1 ++ moved l2) /\
    ls_heap ls' = delete p (ls_heap ls) /\ ls_config ls' = ls_config ls.
Proof.
  intros [Hh (live & Hl & Hnd & Hin) Hm Hcnt Hr Hcf Hi] Hp Hl' Hnd'. unfold nxp_listener_remove_conn. rewrite Hp.
  assert (live = l1 ++ p :: l2) as ->.
  { destruct Hl as (t & He & Hn & _), Hl' as (t' & He' & Hn' & _). rewrite He in He'.
    apply app_inj_1 in He' as [He' _]; [| rewrite !length_fmap; unfold zlen in *; lia].
    by apply (inj (fmap Some)) in He'. }
  destruct (array_remove_ok (ls <| ls_conn_map := delete (cid_hash (cn_scid c)) (ls_conn_map ls) |>) l1 p l2)
    as (conns & -> & tail & Ht & Hz); [done | apply list.NoDup_app in Hnd' as (_ & Hd & _); intros Hi1; apply (Hd p Hi1), list_elem_of_here |].
  cbn [obind]. eexists. split; [reflexivity |].
  assert (zlen (l1 ++ moved l2) = zlen (l1 ++ l2)) as Hzl by (unfold zlen; by rewrite !length_app, moved_perm).
  assert (l1 ++ p :: l2 ≡ₚ p :: l1 ++ moved l2) as Hperm by (rewrite moved_perm; by rewrite Permutation_middle).
  assert (listed (ls <| ls_conn_map := delete (cid_hash (cn_scid c)) (ls_conn_map ls) |> <| ls_conns := conns |>
    <| ls_conn_count := zlen (l1 ++ l2) |> <| ls_heap := delete p (ls_heap ls) |>) (l1 ++ moved l2)) as Hlist.
  { exists tail. simpl. split; [done |]. split; [done |]. rewrite Hz. by destruct Hl as (? & _ & _ & ?). }
  split; [| done]. split; simpl; try done.
  - by apply map_Forall_delete.
  - exists (l1 ++ moved l2). split; [done |]. rewrite Hperm in Hnd. apply list.NoDup_cons in Hnd as [Hnp Hnd].
    split; [done |]. intros q. rewrite lookup_delete_is_Some, <- Hin, Hperm, elem_of_cons.
    split; [intros Hq; split; [by intros -> | by right] | by intros [? [-> | ?]]].
  - intros k q [Hne Hk]%lookup_delete_Some. destruct (Hm k q Hk) as (c1 & Hc1 & Hh1). exists c1. split; [| done].
    apply lookup_delete_Some. split; [| done]. intros <-. congruence.
  - destruct Hl as (_ & _ & Hlen & _). rewrite !zlen_app, zlen_cons in *. pose proof (zlen_nonneg l1).
    pose proof (zlen_nonneg l2). lia.
Qed.

(** ** Adding a connection *)

(** What an operation leaves as it is. *)
Definition same_setup ls ls' : Prop :=
  ls_config ls' = ls_config ls /\ ls_rate_limiter ls' = ls_rate_limiter ls.

Lemma listed_grow ls live : listed ls live -> 0 <= ls_conn_cap ls < 2 ^ 31 ->
  let new_cap := u32 (ls_conn_cap ls * 2) in
  let conns := ztake new_cap (ls_conns ls ++ replicate (Z.to_nat (new_cap - zlen (ls_conns ls))) None) in
  listed (ls <| ls_conns := conns |> <| ls_conn_cap := new_cap |>) live /\ new_cap = 2 * ls_conn_cap ls.
Proof.
  intros (tail & Hc & Hn & Hcap) Hmax. cbv zeta. rewrite u32_small by lia.
  rewrite ztake_all by (rewrite zlen_app, zlen_replicate; lia). split; [| lia].
  exists (tail ++ replicate (Z.to_nat (ls_conn_cap ls * 2 - zlen (ls_conns ls))) None). simpl.
  split; [by rewrite Hc, <- app_assoc |]. split; [done |]. rewrite zlen_app, zlen_replicate. lia.
Qed.

Lemma listed_fits ls live : listed ls live -> ls_conn_count ls <= ls_conn_cap ls.
Proof.
  intros (tail & Hc & Hn & <-). rewrite Hc, <- Hn, zlen_app. unfold zlen. rewrite length_fmap. lia.
Qed.

Lemma array_push_ok ls live p : listed ls live -> ls_conn_count ls < ls_conn_cap ls ->
  listed (ls <| ls_conns := <[Z.to_nat (ls_conn_count ls) := Some p]> (ls_conns ls) |>
             <| ls_conn_count := ls_conn_count ls + 1 |>) (live ++ [p]).
Proof.
  intros (tail & Hc & Hn & Hcap) Hlt. destruct tail as [| x tail].
  - rewrite Hc, app_nil_r in Hcap. unfold zlen in *. rewrite length_fmap in Hcap. lia.
  - exists tail. simpl. rewrite Hc, insert_at by (rewrite length_fmap; unfold zlen in *; lia).
    rewrite fmap_app, <- app_assoc, zlen_app. split; [done |]. split; [change (zlen [p]) with 1; lia |].
    rewrite Hc in Hcap. rewrite zlen_app, zlen_cons in *. done.
Qed.

Lemma push_conn_ok env ls live p c : map_Forall (fun _ c => conn_ok c) (ls_heap ls) -> conn_ok c ->
  listed ls live -> NoDup live -> p ∉ live -> (forall q, q ∈ live <-> is_Some (ls_heap ls !! q)) ->
  (forall k q, ls_conn_map ls !! k = Some q -> exists c, ls_heap ls !! q = Some c /\ cid_hash (cn_scid c) = k) ->
  0 <= ls_conn_count ls < lc_max_connections (ls_config ls) -> ls_conn_count ls < ls_conn_cap ls ->
  64 <= ls_conn_cap ls < 2 ^ 32 ->
  match ls_rate_limiter ls with Some rl => limiter_mem rl | None => True end ->
  listener_config_ok (ls_config ls) -> 0 <= ls_send_index ls < 2 ^ 32 ->
  exists ls', push_conn env (with_conn ls p c) p (cn_scid c) = Done ls' /\
    listener_ok ls' /\ ls_heap ls' = <[p := c]> (ls_heap ls) /\ same_setup ls ls'.
Proof.
  intros Hh Hok Hl Hnd Hnp Hin Hm Hcnt Hlt Hcap Hr Hcf Hi. pose proof (array_push_ok ls live p Hl Hlt) as Hpush.
  assert (zlen (ls_conns ls) = ls_conn_cap ls) as Hz by (by destruct Hl as (? & _ & _ & ?)).
  unfold push_conn. simpl. rewrite (proj2 (Z.ltb_lt _ _)) by lia. simpl.
  assert (ls_conn_count ls < 2 ^ 31) by (unfold listener_config_ok in Hcf; lia). rewrite u32_small by lia.
  eexists. split; [reflexivity |]. split; [| done]. split; simpl; try done; [| | | lia].
  - by apply map_Forall_insert_2.
  - exists (live ++ [p]). split; [exact Hpush |]. split.
    + apply list.NoDup_app. split; [done |]. split; [| apply NoDup_singleton].
      intros q Hq ->%list_elem_of_singleton. done.
    + intros q. rewrite elem_of_app, list_elem_of_singleton, Hin, lookup_insert_is_Some'. split; intros [? | ?]; auto.
  - intros k q Hk. assert ((k = cid_hash (cn_scid c) /\ q = p) \/ ls_conn_map ls !! k = Some q) as [[-> ->] | Hk'].
    { destruct (le_put env); [| auto]. apply lookup_insert_Some in Hk as [[<- <-] | [_ ?]]; auto. }
    + exists c. by rewrite lookup_insert_eq.
    + destruct (Hm k q Hk') as (c1 & Hc1 & ?). exists c1. split; [| done]. rewrite lookup_insert_ne; [done |].
      intros <-. apply Hnp, Hin. eauto.
Qed.

Lemma add_conn_ok env ls p c : listener_ok ls -> ls_heap ls !! p = None -> conn_ok c ->
  match listener_add_conn env (with_conn ls p c) p (cn_scid c) with
  | Done ls' => listener_ok ls' /\ ls_heap ls' = <[p := c]> (ls_heap ls) /\ same_setup ls ls'
  | Err (_, ls') => ls' = with_conn ls p c
  | Ub => False
  end.
Proof.
  intros [Hh (live & Hl & Hnd & Hin) Hm Hcnt Hr Hcf Hi] Hp Hok. unfold listener_add_conn. simpl.
  assert (p ∉ live) as Hnp by (rewrite Hin, Hp; by intros []).
  assert (lc_max_connections (ls_config ls) <= 2 ^ 31) as Hmax by apply Hcf.
  rewrite !Z.geb_leb. destruct (Z.leb_spec (lc_max_connections (ls_config ls)) (ls_conn_count ls)) as [| Hlim]; [done |].
  destruct (Z.leb_spec (ls_conn_cap ls) (ls_conn_count ls)) as [Hfull | Hroom].
  - destruct (le_realloc env); [| done]. cbn [negb obind]. pose proof (listed_fits ls live Hl).
    destruct (listed_grow ls live Hl ltac:(lia)) as [Hl' Hcap]. cbv zeta in Hl', Hcap.
    match type of Hl' with listed ?g _ =>
      change (push_conn _ _ _ _) with (push_conn env (with_conn g p c) p (cn_scid c));
      destruct (push_conn_ok env g live p c Hh Hok Hl' Hnd Hnp Hin Hm) as (ls' & -> & ?); simpl; (done || lia)
    end.
  - cbn [obind]. destruct (push_conn_ok env ls live p c Hh Hok Hl Hnd Hnp Hin Hm) as (ls' & -> & ?); (done || lia).
Qed.

(** ** Connection IDs *)

(** The number of bytes of the node ID that a connection ID carries. *)
Definition prefix_len ls : Z := Z.min (lc_node_id_len (ls_config ls)) NXP_LISTENER_MAX_NODE_ID_LEN.

Lemma generate_cid_form ls random : listener_config_ok (ls_config ls) -> zlen random = NXP_LISTENER_CID_LEN ->
  nxp_listener_generate_cid ls random =
    mk_conn_id (ztake (prefix_len ls) (lc_node_id (ls_config ls)) ++ ztake (NXP_LISTENER_CID_LEN - prefix_len ls) random).
Proof.
  intros (Hn & _ & Hl & _) Hr. unfold nxp_listener_generate_cid, prefix_len, NXP_LISTENER_MAX_NODE_ID_LEN, NXP_LISTENER_CID_LEN in *.
  cbv zeta. rewrite (Z.gtb_ltb (lc_node_id_len (ls_config ls)) 4).
  set (n := if 4 <? lc_node_id_len (ls_config ls) then 4 else lc_node_id_len (ls_config ls)).
  assert (Z.min (lc_node_id_len (ls_config ls)) 4 = n) as -> by (unfold n; zcase; lia).
  assert (n = 0 \/ n = 1 \/ n = 2 \/ n = 3 \/ n = 4) as Hcases by (unfold n; zcase; lia). clearbody n.
  destruct (lc_node_id (ls_config ls)) as [| a [| b [| c [| d [|]]]]]; try (unfold zlen in Hn; simpl in Hn; lia).
  destruct random as [| r1 [| r2 [| r3 [| r4 [| r5 [| r6 [| r7 [| r8 [|]]]]]]]]]; try (unfold zlen in Hr; simpl in Hr; lia).
  by destruct Hcases as [-> | [-> | [-> | [-> | ->]]]].
Qed.

Lemma generate_cid_ok ls random : listener_config_ok (ls_config ls) -> zlen random = NXP_LISTENER_CID_LEN -> bytes_ok random ->
  conn_id_ok (nxp_listener_generate_cid ls random) /\ cid_len (nxp_listener_generate_cid ls random) = NXP_LISTENER_CID_LEN.
Proof.
  intros Hc Hr Hb. rewrite generate_cid_form by done. destruct Hc as (Hn & Hnb & Hl & _).
  unfold prefix_len, NXP_LISTENER_MAX_NODE_ID_LEN, NXP_LISTENER_CID_LEN in *.
  set (l := ztake _ _ ++ ztake _ _).
  assert (zlen l = 8) as Hlen by (unfold l; rewrite zlen_app, !zlen_ztake; lia).
  split; [| exact Hlen]. exists l. split; [done |]. split; [unfold NXP_MAX_CID_LEN; lia |].
  apply Forall_app. split; by apply bytes_ok_take.
Qed.

(** ** Receiving *)

(** What is asked of the environment: enough random bytes, new pointers, and that
    the array of sent packets of a new connection is allocated, which the code does
    not check. *)
Definition env_ok ls (env : listener_env) : Prop :=
  zlen (le_cid env) = NXP_LISTENER_CID_LEN /\ bytes_ok (le_cid env) /\ le_sent env = true /\
  forall p, le_conn env = Some p -> ls_heap ls !! p = None.

(** The table of the rate limiter can still grow. *)
Definition limiter_room ls : Prop :=
  match ls_rate_limiter ls with Some rl => st_room (ip_buckets rl) | None => True end.

(** The pointer that a datagram is addressed to. *)
Definition addressee ls (data : list Z) : option Z :=
  match data with
  | [] => None
  | first :: rest =>
      if nxp_pkt_is_long_header first then
        match nxp_pkt_decode_long_header data with
        | Done hdr => nxp_listener_find_conn ls (lh_dcid hdr)
        | _ => None
        end
      else nxp_listener_find_conn ls (ConnId (ztake NXP_LISTENER_CID_LEN rest) NXP_LISTENER_CID_LEN)
  end.

(** What a datagram does to a listener: every connection stays, only the
    addressee changes, and a new connection has the pointer that the allocation
    returned. *)
Definition isolated ls env (data : list Z) ls' : Prop := listener_ok ls' /\
  (forall q c, ls_heap ls !! q = Some c -> exists c', ls_heap ls' !! q = Some c' /\ conn_next c c' /\
    (addressee ls data <> Some q -> c' = c)) /\
  (forall q, is_Some (ls_heap ls' !! q) -> is_Some (ls_heap ls !! q) \/ le_conn env = Some q).

Definition receives ls env (data : list Z) (r : listener_result) : Prop :=
  match r with Done ls' | Err (_, ls') => isolated ls env data ls' | Ub => False end.

Lemma isolated_same ls env data ls' : listener_ok ls -> listener_ok ls' -> ls_heap ls' = ls_heap ls -> isolated ls env data ls'.
Proof.
  intros Hok Hok' He. split; [done |]. rewrite He. split; [| auto]. intros q c Hq. exists c.
  split; [done |]. split; [| done]. by apply conn_next_refl, (live_conn_ok ls q).
Qed.

Lemma isolated_one ls env data p c c' ls' : listener_ok ls -> listener_ok ls' -> addressee ls data = Some p ->
  ls_heap ls !! p = Some c -> conn_next c c' -> ls_heap ls' = <[p := c']> (ls_heap ls) -> isolated ls env data ls'.
Proof.
  intros Hok Hok' Ha Hp Hn He. split; [done |]. rewrite He. split.
  - intros q d Hq. destruct (decide (q = p)) as [-> | Hne].
    + exists c'. rewrite lookup_insert_eq. assert (d = c) as -> by congruence. by rewrite Ha.
    + exists d. rewrite lookup_insert_ne by done. split; [done |]. split; [| done]. by apply conn_next_refl, (live_conn_ok ls q).
  - intros q. rewrite lookup_insert_is_Some'. intros [-> | ?]; eauto.
Qed.

Lemma isolated_new ls env data p c ls' : listener_ok ls -> listener_ok ls' -> le_conn env = Some p ->
  ls_heap ls !! p = None -> ls_heap ls' = <[p := c]> (ls_heap ls) -> isolated ls env data ls'.
Proof.
  intros Hok Hok' Ha Hp He. split; [done |]. rewrite He. split.
  - intros q d Hq. exists d. rewrite lookup_insert_ne by congruence. split; [done |]. split; [| done].
    by apply conn_next_refl, (live_conn_ok ls q).
  - intros q. rewrite lookup_insert_is_Some'. intros [-> | ?]; auto.
Qed.

Lemma forward_ok ls env p data now : listener_ok ls -> bytes_ok data -> addressee ls data = Some p -> 
  is_Some (ls_heap ls !! p) -> receives ls env data (forward ls p data now).
Proof.
  intros Hok Hb Ha [c Hp]. unfold forward. rewrite Hp.
  pose proof (conn_recv_keeps c data now (live_conn_ok ls p c Hok Hp) Hb) as Hk.
  destruct (nxp_conn_recv c data now) as [c' | [e c'] |]; simpl in *; [| | done].
  all: apply (isolated_one ls env data p c c'); try done; by apply (with_conn_ok ls p c c').
Qed.

Lemma find_conn_live ls cid p : listener_ok ls -> nxp_listener_find_conn ls cid = Some p -> is_Some (ls_heap ls !! p).
Proof. intros Hok Hf. destruct (lo_map ls Hok _ _ Hf) as (c & ? & _). eauto. Qed.

Lemma count_rejected_ok ls : listener_ok ls -> listener_ok (count_rejected ls).
Proof. by intros []. Qed.

Lemma config_conn_ok env ls from : listener_ok ls -> env_ok ls env -> config_ok (conn_config env ls from).
Proof.
  intros Hok (Hr & Hb & _). pose proof (lo_config ls Hok) as Hc. split; [by apply generate_cid_ok |].
  destruct Hc as (_ & _ & _ & _ & ? & ? & ? & ? & ?). done.
Qed.

(** The new connection, before the handshake. *)
Lemma accept_created env ls from p hdr c : listener_ok ls -> env_ok ls env -> conn_id_ok (lh_scid hdr) ->
  nxp_conn_create (bool_decide (is_Some (Some p))) (le_cc env) (le_sent env) (conn_config env ls from) true = Some c ->
  conn_ok (c <| cn_dcid := lh_scid hdr |>).
Proof.
  intros Hok Henv Hid Hc. apply (next_dcid c); [| done]. apply conn_next_refl.
  pose proof Henv as (_ & _ & Hse & _). rewrite Hse in Hc.
  by apply (created_ok _ _ _ _ _ (config_conn_ok env ls from Hok Henv) Hc).
Qed.

Lemma remove_new ls p c c' : listener_ok ls -> ls_heap ls !! p = Some c -> conn_next c c' ->
  exists ls', nxp_listener_remove_conn (with_conn ls p c') p = Done ls' /\ listener_ok ls' /\
    ls_heap ls' = delete p (ls_heap ls).
Proof.
  intros Hok Hp Hn. pose proof (with_conn_ok ls p c c' Hok Hp Hn) as Hok'.
  destruct (lo_array _ Hok') as (live & Hl & Hnd & Hin).
  assert (p ∈ live) as (l1 & l2 & ->)%list_elem_of_split by (apply Hin; simpl; rewrite lookup_insert_eq; eauto).
  destruct (remove_conn_ok _ p c' l1 l2 Hok' ltac:(apply lookup_insert_eq) Hl Hnd) as (ls' & -> & ? & _ & Hh & _).
  exists ls'. split; [done |]. split; [done |]. rewrite Hh. simpl. apply delete_insert_eq.
Qed.

Lemma accept_ok env ls hdr data from now : listener_ok ls -> env_ok ls env -> bytes_ok data ->
  conn_id_ok (lh_scid hdr) -> conn_id_ok (lh_dcid hdr) ->
  receives ls env data (listener_accept env ls hdr data from now).
Proof.
  intros Hok Henv Hb Hsid Hdid. unfold listener_accept.
  destruct (le_conn env) as [p |] eqn:Hp.
  2: { apply isolated_same; [done | by apply count_rejected_ok | done]. }
  assert (ls_heap ls !! p = None) as Hnone by (by apply Henv).
  destruct (nxp_conn_create _ _ _ _ _) as [c0 |] eqn:Hc.
  2: { apply isolated_same; [done | by apply count_rejected_ok | done]. }
  pose proof (accept_created env ls from p hdr c0 Hok Henv Hsid Hc) as Hok0.
  set (c := c0 <| cn_dcid := lh_scid hdr |>) in *. clearbody c.
  pose proof (add_conn_ok env ls p c Hok Hnone Hok0) as Hadd. fold (with_conn ls p c).
  destruct (listener_add_conn _ _ _ _) as [ls1 | [e ls1] |]; [| | done].
  2: { subst ls1. apply isolated_same; [done | |]; simpl; rewrite delete_insert_id by done; [| done].
       apply count_rejected_ok. by destruct ls, Hok. }
  destruct Hadd as (Hok1 & Hh1 & _). set (ls2 := ls1 <| ls_total_accepted := _ |>).
  assert (listener_ok ls2) as Hok2 by (by destruct Hok1). assert (ls_heap ls2 = <[p := c]> (ls_heap ls)) as Hh2 by done.
  clearbody ls2. clear ls1 Hok1 Hh1.
  assert (ls_heap ls2 !! p = Some c) as Hp2 by (rewrite Hh2; apply lookup_insert_eq).
  pose proof (start_handshake_keeps c (lh_dcid hdr) (le_key env) Hok0 Hdid) as Hst.
  destruct (nxp_conn_start_handshake _ _ _) as [c1 | [e c1] |]; simpl in Hst; [| | done].
  - pose proof (conn_recv_keeps c1 data now (proj1 Hst) Hb) as Hrv.
    assert (exists c2, store_conn ls2 p (nxp_conn_recv c1 data now) = Done (with_conn ls2 p c2) /\ conn_next c1 c2) as (c2 & -> & Hn2).
    { destruct (nxp_conn_recv _ _ _) as [c2 | [e c2] |]; simpl in Hrv; [eauto | eauto | done]. }
    cbn [obind receives]. pose proof (with_conn_ok ls2 p c c2 Hok2 Hp2 (conn_next_trans _ _ _ Hst Hn2)) as Hok3.
    apply (isolated_new ls env data p c2); try done; [by destruct (lc_on_new_conn _); destruct Hok3 |].
    transitivity (ls_heap (with_conn ls2 p c2)); [by destruct (lc_on_new_conn _) |]. simpl. rewrite Hh2. apply insert_insert_eq.
  - destruct (remove_new ls2 p c c1 Hok2 Hp2 Hst) as (ls3 & Hrm & Hok3 & Hh3). fold (with_conn ls2 p c1). rewrite Hrm.
    cbn [obind receives]. apply isolated_same; [done | by apply count_rejected_ok |].
    simpl. rewrite Hh3, Hh2. by apply delete_insert_id.
Qed.

Lemma rate_check_ok env ls from now : listener_ok ls -> limiter_room ls ->
  exists b rl, rate_check env ls from now = Done (b, ls <| ls_rate_limiter := rl |>) /\ listener_ok (ls <| ls_rate_limiter := rl |>).
Proof.
  intros Hok Hroom. unfold rate_check, limiter_room in *. pose proof (lo_limiter ls Hok) as Hmem.
  destruct (ls_rate_limiter ls) as [rl |] eqn:Hrl.
  - destruct (limiter_check_safe (le_bucket env) (le_grow env) rl from now Hmem Hroom) as (b & rl' & -> & Hmem').
    exists b, (Some rl'). split; [done |]. by destruct Hok.
  - exists true, None. split; [| by destruct Hok]. do 2 f_equal. destruct ls. simpl in *. by subst.
Qed.

Lemma recv_long_ok env ls data from now : listener_ok ls -> env_ok ls env -> bytes_ok data -> zlen data < 2 ^ 63 ->
  match data with b :: _ => nxp_pkt_is_long_header b = true | [] => False end ->
  receives ls env data (recv_long env ls data from now).
Proof.
  intros Hok Henv Hb Hlen Hlong. unfold recv_long. pose proof (long_decode_safe data Hb Hlen) as Hd.
  destruct (nxp_pkt_decode_long_header data) as [h | e |] eqn:Hdec; [| by apply isolated_same | done].
  destruct Hd as (_ & _ & Hdid & Hsid & _).
  destruct (nxp_listener_find_conn ls (lh_dcid h)) as [p |] eqn:Hf.
  - apply forward_ok; [done | done | | by apply (find_conn_live ls (lh_dcid h))].
    unfold addressee. destruct data as [| b data]; [done |]. by rewrite Hlong, Hdec.
  - destruct (negb _); [by apply isolated_same |]. destruct (negb _); [by apply isolated_same |].
    destruct (_ && _); [apply isolated_same; [done | by destruct Hok | done] |]. by apply accept_ok.
Qed.

Lemma recv_short_ok env ls data now : listener_ok ls -> bytes_ok data ->
  match data with b :: _ => nxp_pkt_is_long_header b = false | [] => False end ->
  receives ls env data (recv_short ls data now).
Proof.
  intros Hok Hb Hshort. unfold recv_short.
  destruct (Z.ltb_spec (zlen data) (1 + NXP_LISTENER_CID_LEN)) as [| Hl]; [by apply isolated_same |].
  rewrite sub_buf_Done by (unfold NXP_LISTENER_CID_LEN in *; lia). cbn [obind].
  destruct data as [| b rest]; [done |]. change (zdrop 1 (b :: rest)) with rest.
  destruct (nxp_listener_find_conn _ _) as [p |] eqn:Hf; [| by apply isolated_same].
  apply forward_ok; [done | done | | by eapply find_conn_live]. unfold addressee. by rewrite Hshort.
Qed.

Lemma listener_recv_ok env ls data from now : listener_ok ls -> env_ok ls env -> limiter_room ls ->
  bytes_ok data -> zlen data < 2 ^ 63 -> receives ls env data (nxp_listener_recv env ls data from now).
Proof.
  intros Hok Henv Hroom Hb Hlen. unfold nxp_listener_recv.
  destruct (Z.eqb_spec (zlen data) 0) as [| Hne]; [by apply isolated_same |].
  destruct (rate_check_ok env ls from now Hok Hroom) as (b & rl & Hadm & Hok1). rewrite Hadm. cbn [obind].
  destruct b; cbn [negb]; [| apply isolated_same; [done | by apply count_rejected_ok | done]].
  destruct data as [| first rest]; [done |].
  change (rd (first :: rest) 0) with (@Done (nxp_error_code * nxp_listener_s (S := S)) Z first). cbn [obind].
  set (ls1 := ls <| ls_rate_limiter := rl |>) in *.
  assert (forall r, receives ls1 env (first :: rest) r -> receives ls env (first :: rest) r) as Hgo by done.
  apply Hgo. destruct (nxp_pkt_is_long_header first) eqn:Hf; [by apply recv_long_ok | by apply recv_short_ok].
Qed.

(** ** Polling *)

(** The connection that is asked as the [i]-th from now. *)
Definition turn ls live (i : Z) : option Z := live !! Z.to_nat ((ls_send_index ls + i) mod ls_conn_count ls).

(** Connection [p] is asked for a datagram: what it returns and becomes. *)
Definition asked ls ls' p (fuel : nat) (ok : bool) (now n : Z) (out' : list Z) : Prop :=
  exists c o c', ls_heap ls !! p = Some c /\ nxp_conn_send fuel ok c o now = Done (n, out', c') /\
    ls_heap ls' !! p = Some c'.

Lemma turn_live ls live i : listed ls live -> 0 < ls_conn_count ls -> exists p, turn ls live i = Some p /\ p ∈ live /\
  ls_conns ls !! Z.to_nat ((ls_send_index ls + i) mod ls_conn_count ls) = Some (Some p).
Proof.
  intros (tail & Hc & Hn & _) Hpos. unfold turn. set (k := (ls_send_index ls + i) mod ls_conn_count ls).
  pose proof (Z.mod_pos_bound (ls_send_index ls + i) (ls_conn_count ls) Hpos) as Hk. fold k in Hk.
  destruct (lookup_lt_is_Some_2 live (Z.to_nat k)) as [p Hp]; [unfold zlen in Hn; lia |].
  exists p. split; [done |]. split; [by eapply list_elem_of_lookup_2 |].
  rewrite Hc, lookup_app_l by (rewrite length_fmap; by eapply lookup_lt_Some). by rewrite list_lookup_fmap, Hp.
Qed.

Lemma mod_distinct s i j m : 0 <= i < j -> j < i + m -> (s + i) mod m <> (s + j) mod m.
Proof.
  intros Hij Hm Heq. pose proof (Z.div_mod (s + i) m ltac:(lia)) as Hi. pose proof (Z.div_mod (s + j) m ltac:(lia)) as Hj.
  rewrite <- Heq in Hj. set (r := (s + i) mod m) in *. set (x := (s + i) / m) in *. set (y := (s + j) / m) in *.
  clearbody r x y. assert (x < y) by nia. assert (m * (x + 1) <= m * y) by nia. lia.
Qed.

Lemma turn_distinct ls live i j p q : NoDup live -> 0 < ls_conn_count ls -> 0 <= i < j -> j < i + ls_conn_count ls ->
  turn ls live i = Some p -> turn ls live j = Some q -> p <> q.
Proof.
  intros Hnd Hpos Hij Hm Hp Hq <-. pose proof (NoDup_lookup _ _ _ _ Hnd Hp Hq) as He.
  pose proof (Z.mod_pos_bound (ls_send_index ls + i) (ls_conn_count ls) Hpos).
  pose proof (Z.mod_pos_bound (ls_send_index ls + j) (ls_conn_count ls) Hpos).
  apply (mod_distinct (ls_send_index ls) i j (ls_conn_count ls) Hij Hm). apply Z2Nat.inj; [apply Z.mod_pos_bound; lia | apply Z.mod_pos_bound; lia | exact He].
Qed.

(** One connection is asked. *)
Definition poll ls p (c : nxp_conn) : nxp_listener_s (S := S) :=
  with_conn (ls <| ls_send_index := u32 (ls_send_index ls + 1) |>) p c.

Lemma poll_ok ls p c c' : listener_ok ls -> ls_heap ls !! p = Some c -> conn_next c c' -> listener_ok (poll ls p c').
Proof.
  intros Hok Hp Hn. apply (with_conn_ok _ p c c'); [| done | done]. pose proof (u32_range (ls_send_index ls + 1)).
  destruct Hok. by split.
Qed.

Definition grown ls ls' : Prop := forall q c, ls_heap ls !! q = Some c -> exists c', ls_heap ls' !! q = Some c' /\ conn_next c c'.

Lemma send_loop_safe fuel ok now n : forall ls out, listener_ok ls -> ((0 < n)%nat -> 0 < ls_conn_count ls) ->
  NXP_MIN_DATAGRAM <= zlen out < 2 ^ 62 ->
  (forall p c, ls_heap ls !! p = Some c -> cn_next_pkt_num c + Z.of_nat n < 2 ^ 64) ->
  send_loop n fuel ok ls out now = Err tt \/
  exists k out' addr ls', send_loop n fuel ok ls out now = Done (k, out', addr, ls') /\ listener_ok ls' /\
    0 <= k <= zlen out /\ zlen out' = zlen out /\ grown ls ls'.
Proof.
  induction n as [| n IH]; intros ls out Hok Hpos Hout Hpn; cbn [send_loop].
  { right. do 4 eexists. split; [reflexivity |]. unfold NXP_MIN_DATAGRAM in Hout. split_and!; (done || lia || idtac).
    intros q c Hq. exists c. split; [done |]. by apply conn_next_refl, (live_conn_ok ls q). }
  specialize (Hpos ltac:(lia)). destruct (lo_array ls Hok) as (live & Hl & Hnd & Hin).
  destruct (turn_live ls live 0 Hl Hpos) as (p & _ & Hp & Hix). rewrite Z.add_0_r in Hix.
  cbv zeta. simpl ls_conns. rewrite Hix. simpl ls_heap. apply Hin in Hp as [c Hc]. rewrite Hc.
  pose proof (live_conn_ok ls p c Hok Hc) as Hokc. specialize (Hpn p c Hc) as Hpc.
  destruct (conn_send_keeps fuel ok c out now Hokc Hout ltac:(lia)) as [[-> | (k & o & c' & -> & Hn & Hk & Ho & Hpk & _)] _]; [by left |].
  cbn [obind].
  pose proof (poll_ok ls p c c' Hok Hc Hn) as Hok'.
  assert (grown ls (poll ls p c')) as Hg.
  { intros q d Hq. simpl. destruct (decide (q = p)) as [-> | Hne].
    - exists c'. rewrite lookup_insert_eq. split; [done |]. congruence.
    - exists d. rewrite lookup_insert_ne by done. split; [done |]. by apply conn_next_refl, (live_conn_ok ls q). }
  rewrite Z.gtb_ltb. destruct (Z.ltb_spec 0 k) as [Hk0 | Hk0].
  { right. exists k, o, (Some (cn_peer_addr c')), (poll ls p c'). split; [reflexivity |]. split_and!; (done || lia). }
  change (send_loop n fuel ok _ o now) with (send_loop n fuel ok (poll ls p c') o now).
  destruct (IH (poll ls p c') o Hok') as [-> | (k2 & o2 & a & ls' & -> & Hok2 & Hk2 & Ho2 & Hg2)]; [done | lia | | by left |].
  - intros q d. simpl. destruct (decide (q = p)) as [-> | Hne].
    + rewrite lookup_insert_eq. intros [= <-]. lia.
    + rewrite lookup_insert_ne by done. intros Hq. specialize (Hpn q d Hq). lia.
  - right. do 4 eexists. split; [reflexivity |]. split_and!; try (done || lia).
    intros q d Hq. destruct (Hg q d Hq) as (d1 & Hd1 & Hn1). destruct (Hg2 q d1 Hd1) as (d2 & Hd2 & Hn2).
    exists d2. split; [done | by eapply conn_next_trans].
Qed.

(** The next [j] connections were asked and had nothing to send. *)
Definition polled ls live ls' (fuel : nat) (ok : bool) (now j : Z) : Prop := forall i, 0 <= i < j ->
  exists p n out, turn ls live i = Some p /\ asked ls ls' p fuel ok now n out /\ n <= 0.

(** The first connection with a datagram is the [j]-th, or none of the [n] has one. *)
Definition poll_result ls live ls' (fuel : nat) (ok : bool) (now n j k : Z) (out' : list Z) (addr : option (list Z)) : Prop :=
  (k = 0 /\ j = n) \/
  (0 < k /\ j < n /\ exists p c, turn ls live j = Some p /\ asked ls ls' p fuel ok now k out' /\
     ls_heap ls' !! p = Some c /\ addr = Some (cn_peer_addr c)).

Lemma turn_next ls live p c i : 0 <= ls_send_index ls -> ls_send_index ls + 1 < 2 ^ 32 ->
  turn (poll ls p c) live i = turn ls live (1 + i).
Proof. intros Hlo Hhi. unfold turn. simpl. rewrite u32_small by lia. do 3 f_equal. lia. Qed.

Lemma asked_later ls p0 c0 ls' p fuel ok now n out : p <> p0 -> asked (poll ls p0 c0) ls' p fuel ok now n out ->
  asked ls ls' p fuel ok now n out.
Proof. intros Hne (c & o & c' & Hc & Hs & Hc'). exists c, o, c'. simpl in Hc. by rewrite lookup_insert_ne in Hc. Qed.

Lemma send_loop_polls fuel ok now live n : forall ls out k out' addr ls', listed ls live -> NoDup live ->
  0 < ls_conn_count ls -> Z.of_nat n <= ls_conn_count ls -> 0 <= ls_send_index ls -> ls_send_index ls + Z.of_nat n < 2 ^ 32 ->
  send_loop n fuel ok ls out now = Done (k, out', addr, ls') ->
  exists j, 0 <= j <= Z.of_nat n /\ polled ls live ls' fuel ok now j /\
    (forall q, (forall i, 0 <= i <= j -> i < Z.of_nat n -> turn ls live i <> Some q) -> ls_heap ls' !! q = ls_heap ls !! q) /\
    poll_result ls live ls' fuel ok now (Z.of_nat n) j k out' addr.
Proof.
  induction n as [| n IH]; intros ls out k out' addr ls' Hl Hnd Hpos Hn Hi0 Hi Hs; cbn [send_loop] in Hs.
  { injection Hs as <- <- <- <-. exists 0. split; [lia |]. split; [intros i; lia |]. split; [done |]. by left. }
  destruct (turn_live ls live 0 Hl Hpos) as (p & Hp & _ & Hix). rewrite Z.add_0_r in Hix.
  cbv zeta in Hs. simpl ls_conns in Hs. rewrite Hix in Hs. simpl ls_heap in Hs.
  destruct (ls_heap ls !! p) as [c |] eqn:Hc; [| done].
  destruct (nxp_conn_send fuel ok c out now) as [[[w o] c'] | |] eqn:Hw; cbn [obind] in Hs; [| done | done].
  rewrite Z.gtb_ltb in Hs. destruct (Z.ltb_spec 0 w) as [Hw0 | Hw0].
  { injection Hs as <- <- <- <-. exists 0. split; [lia |]. split; [intros i; lia |]. split.
    - intros q Hq. simpl. rewrite lookup_insert_ne; [done |]. intros <-. by apply (Hq 0 ltac:(lia) ltac:(lia)).
    - right. split; [done |]. split; [lia |]. exists p, c'. simpl. rewrite lookup_insert_eq.
      split; [done |]. split; [| done]. exists c, out, c'. simpl. by rewrite lookup_insert_eq. }
  change (send_loop n fuel ok _ o now) with (send_loop n fuel ok (poll ls p c') o now) in Hs.
  assert (listed (poll ls p c') live) as Hl' by done.
  assert (ls_send_index (poll ls p c') = ls_send_index ls + 1) as Hidx by (simpl; apply u32_small; lia).
  destruct (IH (poll ls p c') o k out' addr ls' Hl' Hnd Hpos) as (j & Hj & Hpoll & Hother & Hres);
    [simpl; lia | lia | lia | done |].
  assert (forall i, 0 <= i < Z.of_nat n -> turn (poll ls p c') live i <> Some p) as Hnot.
  { intros i Hi' Ht. rewrite turn_next in Ht by lia.
    by apply (turn_distinct ls live 0 (1 + i) p p Hnd Hpos); [lia | lia | ..]. }
  assert (ls_heap ls' !! p = Some c') as Hp'.
  { rewrite Hother; [simpl; apply lookup_insert_eq |]. intros i ? ?. apply Hnot. lia. }
  exists (1 + j). split; [lia |]. split; [| split].
  - intros i Hi'. destruct (decide (i = 0)) as [-> | Hne].
    + exists p, w, o. split; [done |]. split; [| done]. exists c, out, c'. done.
    + destruct (Hpoll (i - 1) ltac:(lia)) as (q & m & o2 & Ht & Ha & Hm). exists q, m, o2.
      assert (q <> p) by (intros ->; by apply (Hnot (i - 1) ltac:(lia))).
      rewrite turn_next in Ht by lia. replace (1 + (i - 1)) with i in Ht by lia.
      split; [done |]. split; [by eapply asked_later | done].
  - intros q Hq. rewrite Hother; [simpl; rewrite lookup_insert_ne; [done |] |].
    + intros <-. by apply (Hq 0 ltac:(lia) ltac:(lia)).
    + intros i ? ?. rewrite turn_next by lia. apply Hq; lia.
  - destruct Hres as [[-> ->] | (Hk & Hjn & q & d & Ht & Ha & Hd & Haddr)]; [left; lia |].
    right. split; [done |]. split; [lia |]. exists q, d.
    assert (q <> p) by (intros ->; by apply (Hnot j ltac:(lia))).
    rewrite turn_next in Ht by lia. split; [done |]. split; [by eapply asked_later | done].
Qed.

(** ** Timers *)

(** A connection after its timer, and what the listener keeps of it. *)
Definition timed (now : Z) (c : nxp_conn) : nxp_conn :=
  match nxp_conn_on_timeout c now with Done c' | Err (_, c') => c' | Ub => c end.
Definition kept (now : Z) (c : nxp_conn) : option nxp_conn :=
  if bool_decide (cn_state (timed now c) = NXP_CONN_CLOSED) then None else Some (timed now c).

Lemma store_timed ls p c now : listener_ok ls -> ls_heap ls !! p = Some c -> 0 <= now -> pto_count (cn_ack c) < 64 ->
  store_conn ls p (nxp_conn_on_timeout c now) = Done (with_conn ls p (timed now c)) /\ conn_next c (timed now c).
Proof.
  intros Hok Hp Hnow Hpto. pose proof (on_timeout_keeps c now (live_conn_ok ls p c Hok Hp) Hpto Hnow) as Hk.
  unfold timed. by destruct (nxp_conn_on_timeout c now) as [c' | [e c'] |].
Qed.

Lemma nodup_mid (l1 : list Z) p l2 : NoDup (l1 ++ p :: l2) -> p ∉ l1 /\ p ∉ l2 /\ NoDup (l1 ++ l2).
Proof.
  rewrite <- Permutation_middle. intros [Hnp Hnd]%list.NoDup_cons. rewrite elem_of_app in Hnp. tauto.
Qed.

Lemma listed_lookup ls l1 p l2 : listed ls (l1 ++ p :: l2) -> ls_conns ls !! Z.to_nat (zlen l1) = Some (Some p).
Proof.
  intros (tail & -> & _). rewrite fmap_app, <- app_assoc. simpl. apply lookup_at. rewrite length_fmap. unfold zlen. lia.
Qed.

Lemma expire_loop_ok now : 0 <= now -> forall fuel ls l1 l2, listener_ok ls -> listed ls (l1 ++ l2) -> NoDup (l1 ++ l2) ->
  (forall q, q ∈ l2 -> exists c, ls_heap ls !! q = Some c /\ pto_count (cn_ack c) < 64) -> (length l2 <= fuel)%nat ->
  exists ls', expire_loop fuel ls (zlen l1) now = Done ls' /\ listener_ok ls' /\
    forall q, ls_heap ls' !! q = if decide (q ∈ l2) then ls_heap ls !! q ≫= kept now else ls_heap ls !! q.
Proof.
  intros Hnow. induction fuel as [| fuel IH]; intros ls l1 l2 Hok Hl Hnd Hpto Hf;
    assert (zlen (l1 ++ l2) = ls_conn_count ls) as Hcnt by (by destruct Hl as (? & _ & ? & _)); rewrite zlen_app in Hcnt.
  { destruct l2; [| simpl in Hf; lia]. rewrite zlen_nil in Hcnt. simpl. rewrite (proj2 (Z.ltb_ge _ _)) by lia. eauto. }
  destruct l2 as [| p l2]; cbn [expire_loop].
  { rewrite zlen_nil in Hcnt. rewrite (proj2 (Z.ltb_ge _ _)) by lia. eauto. }
  rewrite zlen_cons in Hcnt. pose proof (zlen_nonneg l2). rewrite (proj2 (Z.ltb_lt _ _)) by lia. cbn [negb].
  rewrite (listed_lookup ls l1 p l2 Hl).
  destruct (Hpto p ltac:(apply list_elem_of_here)) as (c & Hc & Hpc). rewrite Hc.
  destruct (store_timed ls p c now Hok Hc Hnow Hpc) as [-> Hn]. cbn [obind]. simpl ls_heap. rewrite lookup_insert_eq.
  pose proof (with_conn_ok ls p c _ Hok Hc Hn) as Hok'.
  destruct (nodup_mid l1 p l2 Hnd) as (Hp1 & Hp2 & Hnd2).
  assert (forall q, q ∈ l2 -> exists d, ls_heap (with_conn ls p (timed now c)) !! q = Some d /\ pto_count (cn_ack d) < 64) as Hpto'.
  { intros q Hq. simpl. rewrite lookup_insert_ne by (intros ->; done). apply Hpto. by right. }
  unfold nxp_conn_get_state. destruct (bool_decide (cn_state (timed now c) = NXP_CONN_CLOSED)) eqn:Hst.
  - destruct (remove_conn_ok (with_conn ls p (timed now c)) p (timed now c) l1 l2 Hok' ltac:(apply lookup_insert_eq) Hl Hnd)
      as (ls2 & -> & Hok2 & Hl2 & Hh2 & _). cbn [obind].
    assert (forall q, q <> p -> ls_heap ls2 !! q = ls_heap ls !! q) as Hsame.
    { intros q Hne. rewrite Hh2. simpl. by rewrite lookup_delete_ne, lookup_insert_ne. }
    destruct (IH ls2 l1 (moved l2) Hok2 Hl2) as (ls' & -> & Hok3 & Hh3).
    + by rewrite moved_perm.
    + intros q. rewrite moved_perm. intros Hq. rewrite Hsame by (intros ->; done). apply Hpto. by right.
    + rewrite moved_perm. simpl in Hf. lia.
    + exists ls'. split; [done |]. split; [done |]. intros q. rewrite Hh3. destruct (decide (q = p)) as [-> | Hne].
      * rewrite !decide_False by (by rewrite moved_perm). rewrite decide_True by apply list_elem_of_here.
        rewrite Hc. simpl. unfold kept. rewrite Hst, Hh2. apply lookup_delete_eq.
      * rewrite Hsame by done. erewrite decide_ext; [reflexivity |]. rewrite moved_perm, elem_of_cons. tauto.
  - replace (zlen l1 + 1) with (zlen (l1 ++ [p])) by (rewrite zlen_app; done).
    destruct (IH (with_conn ls p (timed now c)) (l1 ++ [p]) l2 Hok') as (ls' & -> & Hok3 & Hh3); rewrite <- ?app_assoc; try done.
    { simpl in Hf. lia. }
    exists ls'. split; [done |]. split; [done |]. intros q. rewrite Hh3. simpl. destruct (decide (q = p)) as [-> | Hne].
    + rewrite decide_False by done. rewrite decide_True by apply list_elem_of_here.
      rewrite Hc. simpl. unfold kept. rewrite Hst. apply lookup_insert_eq.
    + rewrite lookup_insert_ne by done. erewrite decide_ext; [reflexivity |]. rewrite elem_of_cons. tauto.
Qed.

Lemma timeout_loop_ok ls now live : forall earliest,
  (forall p, p ∈ live -> exists c, ls_heap ls !! p = Some c /\ pto_count (cn_ack c) < 64) ->
  exists t, timeout_loop ls (Some <$> live) now earliest = Done t /\ t <= earliest /\
    (t = earliest \/ exists p c, ls_heap ls !! p = Some c /\ nxp_conn_timeout c now = Done t) /\
    forall p, p ∈ live -> exists c t', ls_heap ls !! p = Some c /\ nxp_conn_timeout c now = Done t' /\ t <= t'.
Proof.
  induction live as [| p live IH]; intros earliest Hall; cbn [timeout_loop fmap list_fmap].
  { exists earliest. split; [done |]. split; [lia |]. split; [by left |]. by intros p ?%not_elem_of_nil. }
  destruct (Hall p ltac:(apply list_elem_of_here)) as (c & Hc & Hp). rewrite Hc.
  assert (exists t, nxp_conn_timeout c now = Done t) as [t Ht].
  { unfold nxp_conn_timeout. destruct (bool_decide _); [eauto |].
    destruct (loss_timeout_defined _ Hp) as [t ->]. cbn [obind]. eauto. }
  rewrite Ht. cbn [obind].
  destruct (IH (if t <? earliest then t else earliest)) as (t2 & -> & Hle & Hor & Hmin).
  { intros q Hq. apply Hall. by right. }
  exists t2. split; [done |]. split; [destruct (Z.ltb_spec t earliest); lia |]. split.
  - destruct Hor as [-> | ?]; [| by right]. destruct (t <? earliest); [right; eauto | by left].
  - intros q [-> | Hq]%elem_of_cons; [| by apply Hmin]. exists c, t. split; [done |]. split; [done |].
    destruct (Z.ltb_spec t earliest); lia.
Qed.

Lemma listed_live ls live : listed ls live -> ztake (ls_conn_count ls) (ls_conns ls) = Some <$> live.
Proof.
  intros (tail & -> & <- & _). replace (zlen live) with (zlen (Some <$> live)) by (unfold zlen; by rewrite length_fmap).
  apply ztake_app.
Qed.

(** ** Histories *)

Inductive listener_event : Type :=
| LRecv (env : listener_env) (data from_addr : list Z) (now : Z)
| LSend (fuel : nat) (realloc_ok : bool) (out : list Z) (now : Z)
| LTimer (now : Z)
| LRemove (conn : Z)
| LConn (conn : Z) (ev : conn_event).

Definition settled (r : listener_result) : outcome unit (nxp_listener_s (S := S)) :=
  match r with Done ls | Err (_, ls) => Done ls | Ub => Ub end.

Definition listener_run ls (ev : listener_event) : outcome unit (nxp_listener_s (S := S)) :=
  match ev with
  | LRecv env data from now => settled (nxp_listener_recv env ls data from now)
  | LSend fuel ok out now => let! (_, _, _, ls) := nxp_listener_send fuel ok ls out now in Done ls
  | LTimer now => settled (nxp_listener_on_timeout ls now)
  | LRemove p => settled (nxp_listener_remove_conn ls p)
  | LConn p ev =>
      match ls_heap ls !! p with
      | Some c => let! c := conn_run c ev in Done (with_conn ls p c)
      | None => Ub
      end
  end.

Definition all_conns ls (P : nxp_conn -> Prop) : Prop := forall p c, ls_heap ls !! p = Some c -> P c.

(** What the caller must ensure; the application may use and remove only
    connections that exist. *)
Definition listener_event_ok ls (ev : listener_event) : Prop :=
  match ev with
  | LRecv env data _ _ => env_ok ls env /\ limiter_room ls /\ bytes_ok data /\ zlen data < 2 ^ 63
  | LSend _ _ out _ => NXP_MIN_DATAGRAM <= zlen out < 2 ^ 62 /\
      all_conns ls (fun c => cn_next_pkt_num c + ls_conn_count ls < 2 ^ 64)
  | LTimer now => 0 <= now /\ all_conns ls (fun c => pto_count (cn_ack c) < 64)
  | LRemove p => is_Some (ls_heap ls !! p)
  | LConn p ev => exists c, ls_heap ls !! p = Some c /\ event_ok c ev
  end.

Inductive listener_reachable : nxp_listener_s (S := S) -> Prop :=
| listener_start a limiter config ls : listener_config_ok config ->
    match limiter with Some rl => limiter_mem rl | None => True end ->
    nxp_listener_create a limiter config = Some ls -> listener_reachable ls
| listener_step ls ev ls' : listener_reachable ls -> listener_event_ok ls ev -> listener_run ls ev = Done ls' ->
    listener_reachable ls'.

Lemma listener_send_ok fuel ok ls out now : listener_ok ls -> NXP_MIN_DATAGRAM <= zlen out < 2 ^ 62 ->
  all_conns ls (fun c => cn_next_pkt_num c + ls_conn_count ls < 2 ^ 64) ->
  nxp_listener_send fuel ok ls out now = Err tt \/
  exists k out' addr ls', nxp_listener_send fuel ok ls out now = Done (k, out', addr, ls') /\ listener_ok ls' /\
    0 <= k <= zlen out /\ zlen out' = zlen out.
Proof.
  intros Hok Hout Hpn. unfold nxp_listener_send. pose proof (lo_count ls Hok) as [Hc _].
  destruct (Z.eqb_spec (ls_conn_count ls) 0).
  { right. do 4 eexists. split; [reflexivity |]. unfold NXP_MIN_DATAGRAM in Hout. split_and!; (done || lia). }
  destruct (send_loop_safe fuel ok now (Z.to_nat (ls_conn_count ls)) ls out Hok) as [-> | (k & o & a & ls' & -> & ? & ? & ? & _)];
    [lia | done | | by left |].
  - intros p c Hp. specialize (Hpn p c Hp). simpl in Hpn. lia.
  - right. eauto 10.
Qed.

Lemma listener_expire_ok ls now : listener_ok ls -> 0 <= now -> all_conns ls (fun c => pto_count (cn_ack c) < 64) ->
  exists ls', nxp_listener_on_timeout ls now = Done ls' /\ listener_ok ls' /\
    forall q, ls_heap ls' !! q = ls_heap ls !! q ≫= kept now.
Proof.
  intros Hok Hnow Hpto. destruct (lo_array ls Hok) as (live & Hl & Hnd & Hin). unfold nxp_listener_on_timeout.
  destruct (expire_loop_ok now Hnow (Z.to_nat (ls_conn_count ls)) ls [] live Hok Hl Hnd) as (ls' & He & Hok' & Hh).
  - intros q [c Hq]%Hin. exists c. split; [done |]. by apply (Hpto q).
  - destruct Hl as (_ & _ & Hlen & _). unfold zlen in Hlen. lia.
  - exists ls'. split; [done |]. split; [done |]. intros q. rewrite Hh. destruct (decide (q ∈ live)) as [| Hnq]; [done |].
    destruct (ls_heap ls !! q) eqn:Hq; [| done]. exfalso. apply Hnq, Hin. eauto.
Qed.

Lemma listener_run_ok ls ev : listener_ok ls -> listener_event_ok ls ev ->
  listener_run ls ev = Err tt \/ exists ls', listener_run ls ev = Done ls' /\ listener_ok ls'.
Proof.
  intros Hok Hev. destruct ev as [env data from now | fuel ok out now | now | p | p ev]; cbn [listener_run listener_event_ok] in *.
  - destruct Hev as (He & Hr & Hb & Hl). pose proof (listener_recv_ok env ls data from now Hok He Hr Hb Hl) as Hk.
    right. destruct (nxp_listener_recv _ _ _ _ _) as [ls' | [e ls'] |]; simpl in *; [| | done]; (eexists; split; [reflexivity | apply Hk]).
  - destruct Hev as [Hout Hpn]. destruct (listener_send_ok fuel ok ls out now Hok Hout Hpn) as [-> | (k & o & a & ls' & -> & ? & _)];
      [by left | right; simpl; eauto].
  - destruct Hev as [Hnow Hpto]. destruct (listener_expire_ok ls now Hok Hnow Hpto) as (ls' & -> & ? & _). right. simpl. eauto.
  - destruct Hev as [c Hp]. destruct (remove_new ls p c c Hok Hp) as (ls' & Hrm & ? & _).
    { by apply conn_next_refl, (live_conn_ok ls p). }
    assert (with_conn ls p c = ls) as Heq by (unfold with_conn; rewrite insert_id by done; by destruct ls).
    rewrite Heq in Hrm. rewrite Hrm. right. simpl. eauto.
  - destruct Hev as (c & Hp & Hev). rewrite Hp.
    destruct (conn_run_ok c ev (live_conn_ok ls p c Hok Hp) Hev) as [(c' & -> & Hn) | (? & ? & ? & ? & _ & ->)]; [| by left].
    right. simpl. eexists. split; [reflexivity |]. by apply (with_conn_ok ls p c).
Qed.

Lemma listener_reachable_ok ls : listener_reachable ls -> listener_ok ls.
Proof.
  induction 1 as [a limiter config ls Hc Hl Hcr | ls ev ls' _ IH Hev Hrun]; [by eapply created_listener_ok |].
  destruct (listener_run_ok ls ev IH Hev) as [He | (ls2 & He & Hok)]; [congruence |]. by replace ls' with ls2 by congruence.
Qed.

(** ** Delivery *)

Lemma rate_check_form env ls from now b ls1 : rate_check env ls from now = Done (b, ls1) ->
  exists rl, ls1 = ls <| ls_rate_limiter := rl |>.
Proof.
  unfold rate_check. destruct (ls_rate_limiter ls) as [rl |] eqn:Hrl.
  - destruct (nxp_rate_limiter_check _ _ _ _ _) as [[b' rl'] | |]; [| done | done]. intros [= _ <-]. eauto.
  - intros [= _ <-]. exists None. destruct ls. simpl in *. by subst.
Qed.

Lemma recv_routed env ls ls1 first cid tl from now p r : rate_check env ls from now = Done (true, ls1) ->
  (first &&& NXP_PKT_FORM_BIT =? 0) = true -> zlen cid = NXP_LISTENER_CID_LEN ->
  ls_conn_map ls !! cid_hash (ConnId cid NXP_LISTENER_CID_LEN) = Some p -> ls_heap ls !! p = Some r ->
  nxp_listener_recv env ls (first :: cid ++ tl) from now = match nxp_conn_recv r (first :: cid ++ tl) now with
    | Done r' => Done (with_conn ls1 p r')
    | Err (e, r') => Err (e, with_conn ls1 p r')
    | Ub => Ub
    end.
Proof.
  intros Hadm Hf Hcid Hmap Hr. destruct (rate_check_form _ _ _ _ _ _ Hadm) as [rl ->]. unfold nxp_listener_recv.
  pose proof (zlen_nonneg tl). unfold NXP_LISTENER_CID_LEN in *.
  rewrite (proj2 (Z.eqb_neq _ _)) by (rewrite zlen_cons, zlen_app; lia). rewrite Hadm. cbn [obind negb].
  change (rd (first :: cid ++ tl) 0) with (@Done (nxp_error_code * nxp_listener_s (S := S)) Z first). cbn [obind].
  unfold nxp_pkt_is_long_header. rewrite Hf. cbn [negb]. unfold recv_short, NXP_LISTENER_CID_LEN.
  rewrite (proj2 (Z.ltb_ge _ _)) by (rewrite zlen_cons, zlen_app; lia).
  rewrite sub_buf_Done by (rewrite ?zlen_cons, ?zlen_app; lia). cbn [obind].
  change (zdrop 1 (first :: cid ++ tl)) with (cid ++ tl). rewrite <- Hcid at 1. rewrite ztake_app.
  unfold nxp_listener_find_conn. simpl ls_conn_map. rewrite Hmap. unfold forward. simpl ls_heap. by rewrite Hr.
Qed.

End Safety.

(** ** Properties *)

Section Properties.
Context {S : Type} `{KeyStore S Z} `{Allocator} `{OpenSSLLaws}.
Implicit Types ls : nxp_listener_s (S := S).

(** C7: no history of a listener leads to undefined behaviour: whatever
    datagrams arrive and whatever the application does with its connections, no
    freed connection is used, no array or buffer is left, the table only points
    to live connections, and the number of connections stays within its limit.
    Only sending may fail to return.  The allocations of connections, controllers
    and table entries may fail; the two that the code uses without a check may
    not, the array of sent packets ([le_sent]) and the table of the rate limiter
    ([limiter_mem]).  The caller sends into buffers of at least 1200 bytes, and
    no connection reaches a packet number of [2 ^ 64] or 64 timeouts in a row. *)
Theorem listener_history_safe ls ev : listener_reachable ls -> listener_event_ok ls ev ->
  listener_ok ls /\ (listener_run ls ev = Err tt \/ exists ls', listener_run ls ev = Done ls' /\ listener_ok ls').
Proof. intros Hr Hev. pose proof (listener_reachable_ok ls Hr). split; [done | by apply listener_run_ok]. Qed.

(** C8: a datagram affects at most one connection.  Receiving it, accepted or
    refused, loses no connection, changes none but the one that is registered
    for its destination connection ID, and that one only along the steps a
    connection can take; a connection that did not exist before is the one just
    allocated. *)
Theorem listener_isolation ls env data from now : listener_ok ls -> env_ok ls env -> limiter_room ls ->
  bytes_ok data -> zlen data < 2 ^ 63 ->
  match nxp_listener_recv env ls data from now with
  | Done ls' | Err (_, ls') => isolated ls env data ls'
  | Ub => False
  end.
Proof. intros Hok He Hroom Hb Hl. by apply listener_recv_ok. Qed.

(** polling is fair.  One call of [nxp_listener_send] asks connections in
    turn, each once, from where the last call stopped, and returns the first
    datagram with the address of its connection; it returns 0 only when every
    connection was asked and had nothing to send.  No other connection changes.
    (This holds until the 32-bit index wraps.) *)
Theorem listener_send_fair ls live fuel ok out now k out' addr ls' : listener_ok ls -> listed ls live ->
  ls_send_index ls + ls_conn_count ls < 2 ^ 32 ->
  nxp_listener_send fuel ok ls out now = Done (k, out', addr, ls') ->
  exists j, 0 <= j <= ls_conn_count ls /\ polled ls live ls' fuel ok now j /\
    (forall q, (forall i, 0 <= i <= j -> i < ls_conn_count ls -> turn ls live i <> Some q) -> ls_heap ls' !! q = ls_heap ls !! q) /\
    poll_result ls live ls' fuel ok now (ls_conn_count ls) j k out' addr.
Proof.
  intros Hok Hl Hi Hs. pose proof (lo_count ls Hok) as [Hc _].
  pose proof (lo_index ls Hok) as Hidx. destruct (lo_array ls Hok) as (live' & Hl' & Hnd & _).
  assert (live' = live) as -> by (apply (inj (fmap Some)); by rewrite <- (listed_live ls live Hl), <- (listed_live ls live' Hl')).
  unfold nxp_listener_send in Hs. destruct (Z.eqb_spec (ls_conn_count ls) 0) as [Hz |].
  - injection Hs as <- <- <- <-. exists 0. split; [lia |]. split; [intros i; lia |]. split; [done |]. left. lia.
  - rewrite <- (Z2Nat.id (ls_conn_count ls)) by lia.
    destruct (send_loop_polls fuel ok now live (Z.to_nat (ls_conn_count ls)) ls out k out' addr ls' Hl Hnd) as (j & ?); try done; try lia.
    exists j. done.
Qed.

(** the timer is exact.  The deadline a listener reports is the earliest
    deadline of its connections; when the timer fires, the timer of every
    connection is run once, exactly the connections that it closes are removed,
    and the others stay. *)
Theorem listener_timer_exact ls now : listener_ok ls -> 0 <= now ->
  all_conns ls (fun c => pto_count (cn_ack c) < 64) ->
  (exists t, nxp_listener_timeout ls now = Done t /\ t <= UINT64_MAX /\
    (t = UINT64_MAX \/ exists p c, ls_heap ls !! p = Some c /\ nxp_conn_timeout c now = Done t) /\
    forall p c, ls_heap ls !! p = Some c -> exists t', nxp_conn_timeout c now = Done t' /\ t <= t') /\
  exists ls', nxp_listener_on_timeout ls now = Done ls' /\ listener_ok ls' /\
    forall q, ls_heap ls' !! q = ls_heap ls !! q ≫= kept now.
Proof.
  intros Hok Hnow Hpto.
  split; [| by apply listener_expire_ok]. destruct (lo_array ls Hok) as (live & Hl & _ & Hin).
  unfold nxp_listener_timeout. rewrite (listed_live ls live Hl).
  destruct (timeout_loop_ok ls now live UINT64_MAX) as (t & -> & Hle & Hor & Hmin).
  { intros p [c Hp]%Hin. exists c. split; [done |]. by apply (Hpto p). }
  exists t. split; [done |]. split; [done |]. split; [done |]. intros p c Hp.
  destruct (Hmin p ltac:(apply Hin; eauto)) as (c' & t' & Hp' & ? & ?). exists t'. split; [congruence | done].
Qed.

(** C9: a client's datagram reaches its connection.  When an engine sends a
    datagram to the connection [r] of a listener, the listener (if its rate
    limiter admits it) routes it to [r] by the connection ID in the packet, and
    [r] processes exactly the frames that were sent; nothing else changes. *)
Theorem listener_delivers fuel ok c out now k out' c' env ls ls1 p r from now' :
  ls_heap ls !! p = Some r -> ls_conn_map ls !! cid_hash (cn_scid r) = Some p ->
  cid_len (cn_scid r) = NXP_LISTENER_CID_LEN -> rate_check env ls from now' = Done (true, ls1) ->
  conn_ok c -> peers c r -> open_state r -> hp_works (cn_crypto c) ->
  match cn_handshake c with Some hs => nxp_handshake_has_data hs = false | None => True end ->
  NXP_MIN_DATAGRAM <= zlen out <= NXP_PACKET_BUF_SIZE -> pn_recovered r (cn_next_pkt_num c) (pn_len c) ->
  nxp_conn_send fuel ok c out now = Done (k, out', c') -> 0 < k ->
  exists b, collect_frames (frame_room c out (pn_len c)) fuel (sending c now) now = Done b /\
    if pn_len c + bd_pos b <? 4
    then exists r', nxp_listener_recv env ls (ztake k out') from now' = Err (NXP_ERR_CRYPTO_FAIL, with_conn ls1 p r')
    else nxp_listener_recv env ls (ztake k out') from now' =
      match process_frames (received r k (cn_next_pkt_num c) now') (ztake (bd_pos b) (bd_buf b)) now' with
      | Done r' => Done (with_conn ls1 p r')
      | Err (e, r') => Err (e, with_conn ls1 p r')
      | Ub => Ub
      end.
Proof.
  intros Hp Hmap Hlen Hadm Hok Hpe Hopen Hw Hhs Hout Hpn Hs Hk.
  destruct (packet_received fuel ok c out now k out' c' r now' Hok Hpe Hopen Hw Hhs Hout Hpn Hs Hk) as (b & Hc & Hrecv).
  exists b. split; [done |]. destruct Hpe as (Hcid & _ & Hav). unfold NXP_PACKET_BUF_SIZE in Hout.
  destruct (sent_sealed fuel ok c out now k out' c' Hok Hav Hhs ltac:(lia) Hs Hk) as (b1 & ct & Hse).
  destruct (sent_routable fuel c out now k out' b1 ct Hok ltac:(lia) Hse) as (first & tl & Hpkt & Hf). rewrite <- Hcid in Hpkt.
  destruct (co_dcid c Hok) as (l & Hl & Hmax & _). rewrite <- Hcid in Hl.
  assert (zlen (cid_bytes (cn_scid r)) = NXP_LISTENER_CID_LEN) as Hz.
  { pose proof (zlen_mk_conn_id l Hmax) as [_ Ht]. unfold cid_bytes. rewrite Hl in *. simpl in *. by rewrite Ht. }
  rewrite Hpkt in *. rewrite (recv_routed env ls ls1 first (cid_bytes (cn_scid r)) tl from now' p r); try done.
  - destruct (_ <? 4); [destruct Hrecv as [r' ->]; eauto |]. by rewrite Hrecv.
  - unfold cid_hash, cid_bytes at 1. simpl. rewrite <- Hz at 1. rewrite ztake_all by lia. done.
Qed.

End Properties.
