(* ===== verification/ApiServer.v ===== *)
(** * Servers (src/src/api/nxp_api.c)

    The handlers of a listener over the engine's listener of [Listener]: receiving and
    routing datagrams, wrapping accepted connections, flushing, reporting changes of
    state, and re-arming the listener's timer.

    The array of the engine's listener and the wrappers point to the same connections:
    the listener borrows those of its array from the heap of the library, and what it
    destroys is gone for the wrappers, too.  The model of a listener ends, as that of
    a connection, beyond 2^64 packets, 64 probe timeouts in a row and the largest
    table of the rate limiter. *)

From stdpp Require Import gmap.
From S2P Require Import Prelude Types Ack RateLimit Stream Crypto Connection ConnectionSend ConnectionInv ConnectionSafety.
From S2P Require Import PriorityQueue Sockets Listener ListenerSafety EventLoop Epoll ApiObjects ApiIo ApiInv ApiSafety ApiCalls ApiLifecycle.

(** What a listener needs of the system besides: datagrams with the address they come
    from, and the memory and random bytes for a connection. *)
Class ServerSystem := {
  sys_from : nat -> Z -> option (list Z * list Z);
  sys_accept : nat -> gset Z -> listener_env;
  sys_from_ok i t data from : sys_from i t = Some (data, from) -> bytes_ok data /\ 0 < zlen data <= NXP_PACKET_BUF_SIZE;
  sys_accept_ok i used : zlen (le_cid (sys_accept i used)) = NXP_LISTENER_CID_LEN /\ bytes_ok (le_cid (sys_accept i used)) /\ le_sent (sys_accept i used) = true /\
    forall p, le_conn (sys_accept i used) = Some p -> p ∉ used
}.

Section Server.
Context {S : Type} `{KeyStore S Z} {room_dec : forall s : S, Decision (st_room s)}.
Context {Q E : Type} `{System Q E} `{ServerSystem} `{Engine} `{Allocator} `{OpenSSLLaws}.

(** ** State *)

(** The library, and the listeners of the engine. *)
Record nxp_server := Server {
  sv_api : nxp_api;
  sv_engines : gmap Z (nxp_listener_s (S := S))
}.
#[export] Instance eta_server : Eta nxp_server := fun s => Server (sv_api s) (sv_engines s).

Notation loop := (nxp_event_loop Q (nxp_epoll_loop * nxp_server)).
Implicit Types (ls : nxp_listener_s (S := S)) (sv : nxp_server) (h : gmap Z nxp_conn).

Definition el_server (l : loop) : nxp_server := (el_backend l).2.
Definition set_server (l : loop) sv : loop := l <| el_backend := (el_epoll l, sv) |>.
Definition set_sv_api sv (a : nxp_api) : nxp_server := sv <| sv_api := a |>.

Definition listeners sv : gmap Z nxp_listener := g_api_listeners (ap_global (sv_api sv)).
Definition get_ln sv (ln : Z) : outcome unit nxp_listener :=
  match listeners sv !! ln with None => Ub | Some v => Done v end.

(** The connections in the array. *)
Definition pointers ls : list Z := omap id (ztake (ls_conn_count ls) (ls_conns ls)).

(** The engine's listener with the connections of its array, and the heap after it. *)
Definition lend h ls : nxp_listener_s := ls <| ls_heap := filter (fun pc => pc.1 ∈ pointers ls) h |> <| ls_accepted := [] |>.
Definition take_back h ls ls' : gmap Z nxp_conn := ls_heap ls' ∪ filter (fun pc => pc.1 ∉ pointers ls) h.

Definition within ls : Prop := limiter_room ls /\
  map_Forall (fun _ c => cn_next_pkt_num c + ls_conn_count ls < 2 ^ 64 /\ pto_count (cn_ack c) < 64) (ls_heap ls).
#[export] Instance within_dec ls : Decision (within ls).
Proof using room_dec. unfold within, limiter_room. destruct (ls_rate_limiter ls); apply _. Defined.

(** [f] runs on the engine's listener at [p]. *)
Definition on_engine {A} sv (p : Z) (f : nxp_listener_s -> outcome unit (A * nxp_listener_s)) : outcome unit (A * nxp_server) :=
  match sv_engines sv !! p with
  | None => Ub
  | Some ls =>
      let h := ap_conns (sv_api sv) in
      if bool_decide (within (lend h ls)) then
        let! (x, ls') := f (lend h ls) in
        Done (x, Server (sv_api sv <| ap_conns := take_back h ls ls' |>) (<[p := ls']> (sv_engines sv)))
      else Err tt
  end.

(** ** Receiving *)

(** During [nxp_conn_recv] the engine calls [on_new_remote_stream] with the wrapper of
    the connection, if the application asked for it. *)
Fixpoint open_streams (a : nxp_api) (ps : list Z) : outcome unit nxp_api :=
  match ps with
  | [] => Done a
  | p :: ps =>
      let! c := get_conn a p in
      let! ac := nxp_api_find_conn (ap_global a) p in
      let a := put_conn a p (c <| cn_notices := [] |>) in
      let! a := match ac with None => Done a | Some ac => accept_streams a ac p (cn_notices c) end in
      open_streams a ps
  end.

Definition listener_on_new_conn_cb (ln : Z) (v : nxp_listener) (a : nxp_api) (conn : Z) : outcome unit nxp_api :=
  match sys_malloc (ap_tick a) (dom (wrappers a)) with
  | None => Done (next_tick a)
  | Some ac =>
      let! c := get_conn a conn in
      let w := ApiConn conn (ln_transport v) None false None None 0 (cn_state c) 0 None 0 None (Some ln) None None in
      let! g := api_conn_link ((ap_global a) <| g_api_conns := <[ac := w]> (wrappers a) |>) ac in
      let a := next_tick a <| ap_global := g |> in
      Done (match ln_on_new_conn v with Some cb => calls_made a [OnNewConn ln conn cb (ln_user_data v)] | None => a end)
  end.

(** The callback is the last action of [nxp_listener_recv], and at most one connection
    is accepted. *)
Definition listener_datagram sv (ln : Z) (v : nxp_listener) (data from : list Z) : outcome unit nxp_server :=
  let i := ap_tick (sv_api sv) in
  let env := sys_accept i (dom (ap_conns (sv_api sv))) in
  let! (news, sv) := on_engine (set_sv_api sv (next_tick (sv_api sv))) (ln_ls v) (fun ls =>
    let! ls := settled (nxp_listener_recv env ls data from (sys_clock i)) in Done ((pointers ls, ls_accepted ls), ls)) in
  let! a := open_streams (sv_api sv) news.1 in
  let! a := match news.2 with conn :: _ => listener_on_new_conn_cb ln v a conn | [] => Done a end in
  Done (set_sv_api sv a).

Fixpoint listener_recv_loop (fuel : nat) sv (ln : Z) : outcome unit nxp_server :=
  match fuel with
  | O => Err tt
  | Datatypes.S fuel =>
      let! v := get_ln sv ln in
      let i := ap_tick (sv_api sv) in
      let sv := set_sv_api sv (next_tick (sv_api sv)) in
      match sys_from i (ln_transport v) with
      | None => Done sv
      | Some (data, from) => let! sv := listener_datagram sv ln v data from in listener_recv_loop fuel sv ln
      end
  end.

(** ** Sending *)

Fixpoint listener_flush_loop (fuel : nat) (now : Z) (out peer_addr : list Z) (v : nxp_listener) sv : outcome unit nxp_server :=
  match fuel with
  | O => Err tt
  | Datatypes.S fuel' =>
      let i := ap_tick (sv_api sv) in
      let! (r, sv) := on_engine (set_sv_api sv (next_tick (sv_api sv))) (ln_ls v) (fun ls => nxp_listener_send fuel (sys_realloc i) ls out now) in
      let '(n, out, addr) := r in
      if n <=? 0 then Done sv else
      let peer_addr := default peer_addr addr in
      let a := sv_api sv in
      listener_flush_loop fuel' now out peer_addr v (set_sv_api sv (a <| ap_sent := ap_sent a ++ [(ln_transport v, ztake n out, peer_addr)] |>))
  end.

Definition nxp_api_flush_listener (fuel : nat) sv (ln : Z) : outcome unit nxp_server :=
  let! v := get_ln sv ln in
  let i := ap_tick (sv_api sv) in
  listener_flush_loop fuel (sys_clock i) (zeros NXP_PACKET_BUF_SIZE) [] v (set_sv_api sv (next_tick (sv_api sv))).

(** ** Reporting *)

(** One connection of the listener. *)
Definition report_conn (fuel : nat) (a : nxp_api) (ac : Z) (v : nxp_api_conn) : outcome unit nxp_api :=
  let! c := get_conn a (ac_conn v) in
  let cur := cn_state c in
  let! a := nxp_api_flush_conn fuel (calls_made a (transition_calls v cur)) ac in
  let! a := dispatch_data a ac in
  let! v := get_ac a ac in
  Done (put_ac a ac (v <| ac_prev_state := cur |>)).

Fixpoint report_loop (n fuel : nat) (ln : Z) (p : option Z) (a : nxp_api) : outcome unit nxp_api :=
  match p with
  | None => Done a
  | Some ac =>
      match n with
      | O => Ub
      | Datatypes.S n =>
          let! v := get_ac a ac in
          let! a := if bool_decide (ac_parent_listener v = Some ln) then report_conn fuel a ac v else Done a in
          let! v := get_ac a ac in
          report_loop n fuel ln (ac_next v) a
      end
  end.

(** Every wrapper is visited at most once. *)
Definition dispatch_listener_conn_events (fuel : nat) (a : nxp_api) (ln : Z) : outcome unit nxp_api :=
  report_loop (size (wrappers a)) fuel ln (g_conns (ap_global a)) a.

(** ** Handlers *)

Definition on_listener_event_cb : Z := 3.
Definition on_listener_timer_cb : Z := 4.

Definition set_ln_timer (l : loop) (ln : Z) (t : option Z) : outcome unit loop :=
  let sv := el_server l in
  let! v := get_ln sv ln in
  let g := ap_global (sv_api sv) in
  Done (set_server l (set_sv_api sv ((sv_api sv) <| ap_global := g <| g_api_listeners := <[ln := v <| ln_timer := t |>]> (listeners sv) |> |>))).

Definition nxp_api_rearm_listener_timer (l : loop) (ln : Z) : outcome unit loop :=
  let! v := get_ln (el_server l) ln in
  let! l := match ln_timer v with
            | None => Done l
            | Some t => let! l := nxp_event_loop_cancel_timer l (Some t) in set_ln_timer l ln None
            end in
  let sv := el_server l in
  let i := ap_tick (sv_api sv) in
  let! (deadline, sv) := on_engine (set_sv_api sv (next_tick (sv_api sv))) (ln_ls v) (fun ls =>
    let! d := nxp_listener_timeout ls (sys_clock i) in Done (d, ls)) in
  let l := set_server l sv in
  if deadline =? UINT64_MAX then Done l else
  let! (t, l) := nxp_event_loop_add_timer (sys_malloc i (dom (el_heap l))) (sys_push i (el_timers l)) l deadline on_listener_timer_cb ln in
  set_ln_timer l ln t.

(** What both handlers end with. *)
Definition listener_turn (fuel : nat) (l : loop) sv (ln : Z) : outcome unit loop :=
  let! sv := nxp_api_flush_listener fuel sv ln in
  let! a := dispatch_listener_conn_events fuel (sv_api sv) ln in
  nxp_api_rearm_listener_timer (set_server l (set_sv_api sv a)) ln.

Definition on_listener_event (fuel : nat) (events ln : Z) (l : loop) : outcome unit loop :=
  let! sv := if negb ((events &&& NXP_EVENT_READ) =? 0) then listener_recv_loop fuel (el_server l) ln else Done (el_server l) in
  listener_turn fuel l sv ln.

Definition on_listener_timer (fuel : nat) (ln : Z) (l : loop) : outcome unit loop :=
  let! l := set_ln_timer l ln None in
  let sv := el_server l in
  let i := ap_tick (sv_api sv) in
  let! v := get_ln sv ln in
  let! (_, sv) := on_engine (set_sv_api sv (next_tick (sv_api sv))) (ln_ls v) (fun ls =>
    let! ls := settled (nxp_listener_on_timeout ls (sys_clock i)) in Done (tt, ls)) in
  listener_turn fuel l sv ln.

End Server.
