(* ===== verification/ApiServerSafety.v ===== *)
(** * Safety of servers

    The handlers of a listener keep the invariant of the library and of the engine's
    listeners as long as no connection ends in the timer handler; a connection with a
    wrapper that ends there is used after it was freed. *)

From stdpp Require Import gmap.
From S2P Require Import Prelude Types Codec Frame Packet Ack RateLimit Stream Crypto Connection ConnectionSend ConnectionInv ConnectionSafety.
From S2P Require Import PriorityQueue Sockets Listener ListenerSafety EventLoop Epoll ApiObjects ApiIo ApiInv ApiSafety ApiCalls ApiLifecycle ApiServer.

Section Safety.
Context {S : Type} `{KeyStore S Z} {room_dec : forall s : S, Decision (st_room s)}.
Context {Q E : Type} `{System Q E} `{ServerSystem} `{Engine} `{Allocator} `{OpenSSLLaws}.
Notation loop := (nxp_event_loop Q (nxp_epoll_loop * nxp_server (S := S))).
Notation api_ok := (api_ok (used := fun _ => True)).
Implicit Types (ls : nxp_listener_s (S := S)) (sv : nxp_server (S := S)) (h : gmap Z nxp_conn) (a : nxp_api).

(** ** Borrowing connections *)

Lemma listed_pointers ls live : listed ls live -> pointers ls = live.
Proof. intros Hl. unfold pointers. rewrite (listed_live _ _ Hl). clear Hl. induction live as [| p l IH]; [done |]. cbn. by rewrite IH. Qed.

Lemma lend_lookup h ls p c : ls_heap (lend h ls) !! p = Some c <-> h !! p = Some c /\ p ∈ pointers ls.
Proof. apply map_lookup_filter_Some. Qed.

(** The connections of the array exist. *)
Lemma lend_live h ls p : listener_ok (lend h ls) -> p ∈ pointers ls -> is_Some (h !! p).
Proof.
  intros Hok Hp. destruct (lo_array _ Hok) as (live & Hl & _ & Hin). pose proof (listed_pointers _ _ Hl) as Hpt.
  change (pointers (lend h ls)) with (pointers ls) in Hpt. rewrite Hpt in Hp. apply Hin in Hp as [c [Hc _]%lend_lookup]. by exists c.
Qed.

Lemma lend_next h h' ls : listener_ok (lend h ls) -> conns_next h h' -> listener_ok (lend h' ls).
Proof.
  intros Hok Hn. pose proof (fun p => lend_live h ls p Hok) as Hlive. destruct Hok as [Hh (live & Hl & Hnd & Hin) Hm Hc Hr Hcf Hi].
  assert (forall p c, ls_heap (lend h ls) !! p = Some c -> exists c', ls_heap (lend h' ls) !! p = Some c' /\ conn_next c c') as Hstep.
  { intros p c [Hp Hpt]%lend_lookup. destruct (Hn p c Hp) as (c' & Hp' & Hcn). exists c'. split; [by apply lend_lookup | done]. }
  split; [| | | exact Hc | exact Hr | exact Hcf | exact Hi].
  - intros p c' [Hp Hpt]%lend_lookup. destruct (Hlive p Hpt) as [c Hc0]. destruct (Hn p c Hc0) as (c2 & Hc2 & Hok & _). congruence.
  - exists live. split; [exact Hl |]. split; [done |]. intros p. rewrite Hin. split.
    + intros [c Hpc]. destruct (Hstep p c Hpc) as (c' & ? & _). by exists c'.
    + intros [c [_ Hpt]%lend_lookup]. destruct (Hlive p Hpt) as [d Hd]. exists d. by apply lend_lookup.
  - intros k p Hk. destruct (Hm k p Hk) as (c & Hpc & Hhash). destruct (Hstep p c Hpc) as (c' & ? & _ & Hle). exists c'. split; [done |].
    by rewrite (cl_scid _ _ Hle).
Qed.

Lemma take_back_engine h ls ls' : listener_ok ls' -> lend (take_back h ls ls') ls' = ls' <| ls_accepted := [] |>.
Proof.
  intros Hok. destruct (lo_array _ Hok) as (live & Hl & _ & Hin). pose proof (listed_pointers _ _ Hl) as Hpt. unfold lend.
  replace (filter _ (take_back h ls ls')) with (ls_heap ls'); [by destruct ls' |]. apply map_eq. intros p. symmetry.
  destruct (ls_heap ls' !! p) as [c |] eqn:Hp.
  - apply map_lookup_filter_Some. split; [by apply lookup_union_Some_l | cbn; rewrite Hpt; apply Hin; by exists c].
  - apply map_lookup_filter_None. right. intros c _. cbn. rewrite Hpt, Hin, Hp. by intros [].
Qed.

(** What an operation of the engine's listener does to its connections. *)
Definition steps h ls ls' : Prop := listener_ok ls' /\ conns_next (ls_heap (lend h ls)) (ls_heap ls') /\
  forall p, is_Some (ls_heap ls' !! p) -> p ∈ pointers ls \/ h !! p = None.

Lemma take_back_next h ls ls' : map_Forall (fun _ c => conn_ok c) h -> steps h ls ls' -> conns_next h (take_back h ls ls').
Proof.
  intros Hall (_ & Hn & Hnew) p c Hp. destruct (decide (p ∈ pointers ls)) as [Hpt | Hpt].
  - destruct (Hn p c) as (c' & Hc' & ?); [by apply lend_lookup |]. exists c'. split; [by apply lookup_union_Some_l | done].
  - exists c. split; [| by apply conn_next_refl, (Hall p)]. unfold take_back. rewrite lookup_union_r.
    + by apply map_lookup_filter_Some.
    + apply eq_None_not_Some. intros [? | ?]%Hnew; [done | congruence].
Qed.

Lemma take_back_ok h ls ls' : map_Forall (fun _ c => conn_ok c) h -> listener_ok ls' -> map_Forall (fun _ c => conn_ok c) (take_back h ls ls').
Proof.
  intros Hall Hok p c Hp. apply lookup_union_Some_raw in Hp as [Hp | [_ [Hp _]%map_lookup_filter_Some]]; [by apply (lo_heap _ Hok p) | by apply (Hall p)].
Qed.

(** ** The invariant *)

Record server_ok sv : Prop := ServerOk {
  so_api : api_ok (sv_api sv);
  so_engines p ls : sv_engines sv !! p = Some ls -> listener_ok (lend (ap_conns (sv_api sv)) ls);
  so_listeners ln v : listeners sv !! ln = Some v -> is_Some (sv_engines sv !! ln_ls v)
}.

Definition lns a : gmap Z nxp_listener := g_api_listeners (ap_global a).

(** Another state of the library over the same listeners. *)
Lemma server_api sv a : server_ok sv -> api_ok a -> conns_next (ap_conns (sv_api sv)) (ap_conns a) -> lns a = lns (sv_api sv) -> server_ok (set_sv_api sv a).
Proof.
  intros [_ He Hl] Ha Hn Hg. split; [done | |].
  - intros p ls Hp. eapply lend_next; [by apply (He p) | done].
  - unfold listeners. change (g_api_listeners (ap_global (sv_api (set_sv_api sv a)))) with (lns a). rewrite Hg. exact Hl.
Qed.

Lemma server_tick sv : server_ok sv -> server_ok (set_sv_api sv (next_tick (sv_api sv))).
Proof. intros Hs. pose proof (so_api sv Hs). apply server_api; [done | by apply tick_ok | by apply (conns_next_refl (used := fun _ => True) (sv_api sv)) | done]. Qed.

(** The heap changes, and nothing else of the library. *)
Definition moved_on sv sv' : Prop := ap_global (sv_api sv') = ap_global (sv_api sv) /\ ap_calls (sv_api sv') = ap_calls (sv_api sv).

Lemma on_engine_ok {A} sv p (f : nxp_listener_s -> outcome unit (A * nxp_listener_s)) (P : A -> nxp_listener_s -> Prop) : server_ok sv -> is_Some (sv_engines sv !! p) ->
  (forall ls, sv_engines sv !! p = Some ls -> listener_ok (lend (ap_conns (sv_api sv)) ls) -> within (lend (ap_conns (sv_api sv)) ls) ->
    safe (f (lend (ap_conns (sv_api sv)) ls)) (fun '(x, ls') => steps (ap_conns (sv_api sv)) ls ls' /\ P x ls')) ->
  safe (on_engine sv p f) (fun '(x, sv') => server_ok sv' /\ moved_on sv sv' /\ exists ls', P x ls' /\ sv_engines sv' !! p = Some ls' /\
    lend (ap_conns (sv_api sv')) ls' = ls' <| ls_accepted := [] |>).
Proof.
  intros [Ha He Hl] [ls Hls] Hf. unfold on_engine. rewrite Hls. set (h := ap_conns (sv_api sv)) in *. destruct (bool_decide_reflect (within (lend h ls))) as [Hw |]; [| done].
  eapply safe_bind; [apply Hf; [done | by apply (He p) | done] |]. intros [x ls'] [Hst HP]. cbn [safe].
  assert (map_Forall (fun _ c => conn_ok c) h) as Hall by (intros q c; apply (ak_engine _ Ha q)).
  pose proof (take_back_next h ls ls' Hall Hst) as Hn. destruct Hst as (Hok' & _ & _). pose proof (take_back_engine h ls ls' Hok') as Hle. split; [| split; [done |]].
  - split.
    + apply (conns_ok (sv_api sv)); [done | exact Hn | exact (take_back_ok h ls ls' Hall Hok') | done].
    + intros q ls2. cbn [sv_engines sv_api]. change (ap_conns (sv_api sv <| ap_conns := take_back h ls ls' |>)) with (take_back h ls ls').
      intros [[<- <-] | [_ Hq]]%lookup_insert_Some; [rewrite Hle; by destruct Hok' | eapply lend_next; [by apply (He q) | done]].
    + intros ln v Hv. apply lookup_insert_is_Some. destruct (decide (p = ln_ls v)); [by left | right; split; [done | by apply (Hl ln)]].
  - exists ls'. split; [done |]. split; [apply lookup_insert_eq | exact Hle].
Qed.

(** ** Receiving *)

Lemma accept_lns l : forall a ac conn a', accept_streams a ac conn l = Done a' -> lns a' = lns a.
Proof.
  induction l as [| [id | cb id] l IH]; intros a ac conn a' Hr; cbn [accept_streams] in Hr; [by injection Hr as <- | | by apply (IH _ ac conn)].
  unfold get_ac, on_new_remote_stream, track_stream, wrappers in Hr. destruct (g_api_conns (ap_global a) !! ac) as [v |]; [| done]. cbn [obind] in Hr.
  destruct (ac_stream_accept_cb v) as [cb |]; [destruct (sys_malloc (ap_tick a) _) as [p |] |]; cbn [obind] in Hr; by apply IH in Hr.
Qed.

(** The same listeners, connections that move forward, and nothing told of them. *)
Definition quiet_step a a' : Prop := api_ok a' /\ lns a' = lns a /\ conns_next (ap_conns a) (ap_conns a') /\ same_core a a' /\
  forall p, state_calls p (ap_calls a') = state_calls p (ap_calls a).

Lemma quiet_refl a : api_ok a -> quiet_step a a.
Proof. intros Ha. split; [done |]. split; [done |]. split; [by apply (conns_next_refl (used := fun _ => True)) |]. by split. Qed.
Lemma quiet_trans a b c : quiet_step a b -> quiet_step b c -> quiet_step a c.
Proof.
  intros (_ & Hl & Hn & Hc & Hs) (Ha & Hl' & Hn' & Hc' & Hs'). split; [done |]. split; [congruence |]. split; [by eapply conns_next_trans |].
  split; [by eapply same_core_trans |]. intros p. by rewrite Hs', Hs.
Qed.

Lemma open_streams_ok ps : forall a, api_ok a -> (forall p, p ∈ ps -> is_Some (ap_conns a !! p)) -> safe (open_streams a ps) (quiet_step a).
Proof.
  induction ps as [| p ps IH]; intros a Ha Hps; cbn [open_streams]; [by apply quiet_refl |].
  destruct (Hps p ltac:(left)) as [c Hc]. unfold get_conn. rewrite Hc. cbn [obind]. set (c1 := c <| cn_notices := [] |>).
  assert (conn_next c c1) as Hn by (apply next_notices, conn_next_refl; by apply (ak_engine a Ha p)).
  pose proof (put_conn_ok a p c c1 Ha Hc Hn) as Ha1. destruct (ak_list a Ha) as [l Hl]. rewrite (find_conn_spec _ _ p Hl). cbn [obind].
  assert (quiet_step a (put_conn a p c1)) as Hq1.
  { split; [done |]. split; [done |]. split; [by apply (conns_next_put (used := fun _ => True) a p c) |]. by split. }
  eapply safe_bind with (P := quiet_step a).
  - destruct (first_of _ _ l) as [ac |] eqn:Hf; [| done]. apply first_of_some in Hf as (v & Hv & He%Z.eqb_eq).
    pose proof (accept_streams_ok (cn_notices c) (put_conn a p c1) ac v Ha1 Hv) as Hk. rewrite He in Hk.
    pose proof (accept_lns (cn_notices c) (put_conn a p c1) ac p) as Hln.
    destruct (accept_streams _ _ _ _) as [a2 | |]; [| done | done]. cbn [safe] in Hk |- *. destruct Hk as (Ha2 & Hcore & Hcn & Hcalls).
    eapply quiet_trans; [exact Hq1 |]. split; [done |]. split; [by apply Hln |]. split; [rewrite Hcn; by apply (conns_next_refl (used := fun _ => True)) |]. by split.
  - intros a2 Hq2. eapply safe_impl; [apply IH; [apply Hq2 |] |].
    + intros q Hqin. destruct (Hps q ltac:(by right)) as [d Hd]. destruct Hq2 as (_ & _ & Hn2 & _). destruct (Hn2 q d Hd) as (d' & ? & _). by exists d'.
    + intros a3 Hq3. by eapply quiet_trans.
Qed.

Lemma new_conn_cb_ok ln v a conn c : api_ok a -> ap_conns a !! conn = Some c -> (forall x w, wrappers a !! x = Some w -> ac_conn w <> conn) ->
  state_calls conn (ap_calls a) = [] ->
  safe (listener_on_new_conn_cb ln v a conn) (fun a' => api_ok a' /\ lns a' = lns a /\ ap_conns a' = ap_conns a).
Proof.
  intros Ha Hc Hnew Hq. unfold listener_on_new_conn_cb. destruct (sys_malloc _ _) as [ac |] eqn:Hm; [| by split; [apply tick_ok |]].
  apply sys_malloc_ok, not_elem_of_dom in Hm. unfold get_conn. rewrite Hc. cbn [obind]. set (w := ApiConn _ _ _ _ _ _ _ _ _ _ _ _ _ _ _).
  destruct (link_ok (used := fun _ => True) a ac w c) as (g & Hg & Hok & _); try done. rewrite Hg. cbn [obind safe].
  assert (g_api_listeners g = lns a) as Hlns.
  { unfold api_conn_link in Hg. destruct (dl_link _ _ _) as [[h hd] | |]; [| done | done]. by injection Hg as <-. }
  set (a1 := next_tick a <| ap_global := g |>). assert (api_ok a1) as Ha1 by by apply (api_ok_ext (a <| ap_global := g |>)).
  destruct (ln_on_new_conn v); [| done]. split; [by apply other_calls_ok | done].
Qed.

(** What [nxp_listener_recv] accepts. *)
Definition accepts (env : listener_env) ls' : Prop :=
  ls_accepted ls' = [] \/ exists p, ls_accepted ls' = [p] /\ le_conn env = Some p /\ is_Some (ls_heap ls' !! p).

Lemma add_accepted env ls p scid : match listener_add_conn env ls p scid with Done ls' | Err (_, ls') => ls_accepted ls' = ls_accepted ls | Ub => True end.
Proof.
  unfold listener_add_conn, push_conn. destruct (_ >=? _); [done |]. destruct (_ >=? _); [destruct (negb (le_realloc env)); [done |] |]; cbn [obind];
    by destruct (negb _).
Qed.
Lemma remove_accepted ls p : match nxp_listener_remove_conn ls p with Done ls' | Err (_, ls') => ls_accepted ls' = ls_accepted ls | Ub => True end.
Proof.
  unfold nxp_listener_remove_conn, array_remove. destruct (ls_heap ls !! p); [| done]. destruct (find_conn_index _ _ _ _); [| done]. by destruct (ls_conns _ !! _).
Qed.

Lemma accept_accepted env ls hdr data from now ls' : ls_accepted ls = [] -> settled (listener_accept env ls hdr data from now) = Done ls' -> accepts env ls'.
Proof.
  intros He. unfold listener_accept. destruct (le_conn env) as [p |] eqn:Hp; [| intros [= <-]; by left].
  destruct (nxp_conn_create _ _ _ _ _) as [c |]; [| intros [= <-]; by left]. cbv zeta. set (ls0 := ls <| ls_heap := _ |>).
  pose proof (add_accepted env ls0 p (cn_scid (c <| cn_dcid := lh_scid hdr |>))) as Ha.
  destruct (listener_add_conn _ _ _ _) as [ls1 | [e ls1] |]; [| intros [= <-]; left; exact (eq_trans Ha He) | done].
  destruct (nxp_conn_start_handshake _ _ _) as [c1 | [e c1] |]; [| | done].
  - destruct (nxp_conn_recv c1 data now) as [c2 | [e c2] |]; cbn [store_conn obind settled]; [| | done]; intros [= <-];
      (destruct (lc_on_new_conn _); [right; exists p; cbn; rewrite Ha; change (ls_accepted ls0) with (ls_accepted ls); rewrite He, lookup_insert_eq; eauto | left; exact (eq_trans Ha He)]).
  - set (ls2 := _ <| ls_heap := _ |>). pose proof (remove_accepted ls2 p) as Hr. destruct (nxp_listener_remove_conn ls2 p) as [ls3 | [e' ls3] |]; [| | done];
      (intros [= <-]; left; exact (eq_trans Hr (eq_trans Ha He))).
Qed.

Lemma listener_recv_accepted env ls data from now ls' : ls_accepted ls = [] -> settled (nxp_listener_recv env ls data from now) = Done ls' -> accepts env ls'.
Proof.
  intros He. assert (forall ls1, ls_accepted ls1 = [] -> settled (Err (NXP_ERR_INVALID_PACKET, ls1)) = Done ls' -> accepts env ls') as Hid by (intros ls1 ? [= <-]; by left).
  assert (forall ls1 p, ls_accepted ls1 = [] -> settled (forward ls1 p data now) = Done ls' -> accepts env ls') as Hfw.
  { intros ls1 p Hacc. unfold forward. destruct (ls_heap ls1 !! p); [| done]. destruct (nxp_conn_recv _ _ _) as [c | [e c] |]; [| | done]; intros [= <-]; by left. }
  unfold nxp_listener_recv. destruct (zlen data =? 0); [by apply Hid |].
  destruct (rate_check env ls from now) as [[b ls1] | [e ls1] |] eqn:Hrc; cbn [obind]; [| | done].
  2: { unfold rate_check in Hrc. destruct (ls_rate_limiter ls); [| done]. destruct (nxp_rate_limiter_check _ _ _ _ _) as [[? ?] | |]; [done | | done]. injection Hrc as _ <-. by apply Hid. }
  destruct (rate_check_form _ _ _ _ _ _ Hrc) as [rl ->]. set (ls1 := ls <| ls_rate_limiter := rl |>). assert (ls_accepted ls1 = []) as Hacc by exact He. clearbody ls1.
  destruct b; cbn [negb]; [| intros [= <-]; by left]. unfold rd. cbn [Z.ltb Z.compare].
  destruct (data !! _) as [first |]; cbn [obind]; [| done].
  destruct (nxp_pkt_is_long_header first).
  - unfold recv_long. destruct (nxp_pkt_decode_long_header data) as [hdr | e |]; [| by apply Hid | done].
    destruct (nxp_listener_find_conn ls1 (lh_dcid hdr)) as [p |]; [by apply Hfw |]. destruct (negb _); [by apply Hid |]. destruct (negb _); [by apply Hid |].
    destruct (_ && _); [intros [= <-]; by left |]. by apply accept_accepted.
  - unfold recv_short. destruct (_ <? _); [by apply Hid |]. unfold sub_buf. destruct (_ && _); cbn [obind]; [| done].
    destruct (nxp_listener_find_conn _ _) as [p |]; [by apply Hfw | by apply Hid].
Qed.

(** A wrapper's connection is in the heap. *)
Lemma unwrapped a p : api_ok a -> ap_conns a !! p = None -> forall x w, wrappers a !! x = Some w -> ac_conn w <> p.
Proof. intros Ha Hp x w Hw Heq. destruct (ak_conn a Ha x w Hw) as (c & Hc & _). congruence. Qed.

Lemma recv_steps h ls env data from now : listener_ok (lend h ls) -> within (lend h ls) -> env_ok (lend h ls) env -> (forall p, le_conn env = Some p -> h !! p = None) ->
  bytes_ok data -> zlen data < 2 ^ 63 ->
  safe (settled (nxp_listener_recv env (lend h ls) data from now)) (fun ls' => steps h ls ls' /\ accepts env ls').
Proof.
  intros Hok [Hroom _] Henv Hfresh Hb Hl. pose proof (listener_recv_ok env (lend h ls) data from now Hok Henv Hroom Hb Hl) as Hr.
  pose proof (listener_recv_accepted env (lend h ls) data from now) as Hacc. unfold receives in Hr.
  assert (forall ls', isolated (lend h ls) env data ls' -> steps h ls ls') as Hst.
  { intros ls' (Hok' & Hn & Hnew). split; [done |]. split.
    - intros p c Hp. destruct (Hn p c Hp) as (c' & ? & ? & _). by exists c'.
    - intros p [[c [_ Hp]%lend_lookup] | Hp]%Hnew; [by left | right; by apply Hfresh]. }
  destruct (nxp_listener_recv _ _ _ _ _) as [ls' | [e ls'] |]; [| | done]; (split; [by apply Hst | by apply Hacc]).
Qed.

Definition same_lns sv sv' : Prop := listeners sv' = listeners sv.

Lemma datagram_ok sv ln v data from : server_ok sv -> listeners sv !! ln = Some v -> bytes_ok data -> zlen data <= NXP_PACKET_BUF_SIZE ->
  safe (listener_datagram sv ln v data from) (fun sv' => server_ok sv' /\ same_lns sv sv').
Proof.
  intros Hs Hv Hb Hlen. unfold listener_datagram. set (i := ap_tick (sv_api sv)). set (h := ap_conns (sv_api sv)). set (env := sys_accept i (dom h)).
  destruct (sys_accept_ok i (dom h)) as (Hc8 & Hcb & Hse & Hfresh). fold env in Hc8, Hcb, Hse, Hfresh.
  assert (forall p, le_conn env = Some p -> h !! p = None) as Hnew by (intros p Hp; by apply not_elem_of_dom, Hfresh).
  eapply safe_bind.
  { apply (on_engine_ok _ (ln_ls v) _ (fun news ls' => news = (pointers ls', ls_accepted ls') /\ accepts env ls') (server_tick sv Hs)); [by apply (so_listeners sv Hs ln) |].
    change (ap_conns (sv_api (set_sv_api sv (next_tick (sv_api sv))))) with h. intros ls _ Hok Hw.
    eapply safe_bind; [apply (recv_steps h ls env); try done |].
    - split; [done |]. split; [done |]. split; [done |]. intros p Hp. apply eq_None_not_Some. intros [c [Hc _]%lend_lookup]. rewrite Hnew in Hc; done.
    - unfold NXP_PACKET_BUF_SIZE in Hlen. lia.
    - intros ls' [? ?]. by split. }
  intros [news sv1] (Hs1 & [Hg1 Hc1] & ls' & [-> Hacc] & Hls' & Hlend). cbn [fst snd]. pose proof (so_api sv1 Hs1) as Ha1.
  eapply safe_bind; [apply open_streams_ok; [done |] |].
  { intros p Hp. apply (lend_live _ ls'); [by apply (so_engines sv1 Hs1 (ln_ls v)) | done]. }
  intros a2 (Ha2 & Hl2 & Hn2 & Hcore & Hcalls). assert (lns (sv_api sv1) = listeners sv) as Hlns by (unfold lns; by rewrite Hg1).
  eapply safe_bind with (P := fun a3 => api_ok a3 /\ lns a3 = lns a2 /\ ap_conns a3 = ap_conns a2).
  - destruct Hacc as [-> | (p & -> & Hp & [c Hpc])]; [done |]. assert (is_Some (ap_conns (sv_api sv1) !! p)) as [c1 Hc1p].
    { assert (ls_heap (lend (ap_conns (sv_api sv1)) ls') !! p = Some c) as [? _]%lend_lookup by (by rewrite Hlend). by exists c. }
    destruct (Hn2 p c1 Hc1p) as (c2 & Hc2 & _). apply (new_conn_cb_ok ln v a2 p c2); [done | done | |].
    + intros x w Hw. destruct (same_core_some _ _ x w (same_core_sym _ _ Hcore) Hw) as (w1 & Hw1 & [-> _]%core_fields).
      unfold wrappers in Hw1. rewrite Hg1 in Hw1. apply (unwrapped _ p (so_api sv Hs) (Hnew p Hp) x w1 Hw1).
    + rewrite Hcalls, Hc1. apply (ak_quiet _ (so_api sv Hs)), Hnew, Hp.
  - intros a3 (Ha3 & Hl3 & Hcn3). cbn [safe]. split; [| unfold same_lns; change (lns a3 = listeners sv); congruence].
    apply server_api; [done | done | by rewrite Hcn3 | congruence].
Qed.

Lemma listener_recv_loop_ok fuel : forall sv ln, server_ok sv -> is_Some (listeners sv !! ln) ->
  safe (listener_recv_loop fuel sv ln) (fun sv' => server_ok sv' /\ same_lns sv sv').
Proof.
  induction fuel as [| fuel IH]; intros sv ln Hs [v Hv]; cbn [listener_recv_loop]; [done |]. unfold get_ln. rewrite Hv. cbn [obind].
  destruct (sys_from _ _) as [[data from] |] eqn:Hd; [| by split; [apply server_tick |]].
  apply sys_from_ok in Hd as (Hb & _ & Hl). eapply safe_bind; [apply (datagram_ok _ ln v); [by apply server_tick | done..] |].
  intros sv1 [Hs1 Hl1]. eapply safe_impl; [apply IH; [done |] |].
  - rewrite Hl1. by exists v.
  - intros sv2 [? Hl2]. split; [done |]. exact (eq_trans Hl2 Hl1).
Qed.

(** ** Sending *)

Lemma send_loop_array fuel ok now n : forall ls out, match send_loop n fuel ok ls out now with
  | Done (_, _, _, ls') => ls_conns ls' = ls_conns ls /\ ls_conn_count ls' = ls_conn_count ls
  | _ => True
  end.
Proof.
  induction n as [| n IH]; intros ls out; cbn [send_loop]; [done |]. cbv zeta. set (ls1 := ls <| ls_send_index := _ |>).
  destruct (ls_conns ls1 !! _) as [[p |] |]; [| apply (IH ls1) | done]. destruct (ls_heap ls1 !! p) as [c |]; [| done].
  destruct (nxp_conn_send fuel ok c out now) as [[[k out'] c'] | |]; cbn [obind]; [| done | done]. destruct (k >? 0); [done |].
  exact (IH _ out').
Qed.

Lemma send_steps h ls fuel ok out now : listener_ok (lend h ls) -> within (lend h ls) -> zlen out = NXP_PACKET_BUF_SIZE ->
  safe (nxp_listener_send fuel ok (lend h ls) out now) (fun '(r, ls') => steps h ls ls' /\ zlen r.1.2 = zlen out).
Proof.
  intros Hok [_ Hw] Hout. unfold nxp_listener_send. pose proof (lo_count _ Hok) as [Hc _].
  assert (conns_next (ls_heap (lend h ls)) (ls_heap (lend h ls))) as Hrefl by (intros p c Hp; exists c; split; [done |]; by apply conn_next_refl, (lo_heap _ Hok p)).
  destruct (Z.eqb_spec (ls_conn_count (lend h ls)) 0) as [| Hne].
  { split; [| done]. split; [done |]. split; [done |]. intros p [c [_ ?]%lend_lookup]. by left. }
  pose proof (send_loop_array fuel ok now (Z.to_nat (ls_conn_count (lend h ls))) (lend h ls) out) as Harr.
  destruct (send_loop_safe fuel ok now (Z.to_nat (ls_conn_count (lend h ls))) (lend h ls) out Hok) as [-> | (k & out' & addr & ls' & E1 & Hok' & _ & Ho & Hg)]; [lia | | | done |].
  - rewrite Hout. split; by_compute.
  - intros p c Hp. destruct (Hw p c Hp). lia.
  - rewrite E1 in Harr |- *. split; [| done]. split; [done |]. split; [exact Hg |]. intros p Hp. left.
    destruct (lo_array _ Hok') as (live & Hl & _ & Hin). apply Hin in Hp. rewrite <- (listed_pointers _ _ Hl) in Hp. unfold pointers in *.
    destruct Harr as [Ha1 Ha2]. by rewrite Ha1, Ha2 in Hp.
Qed.

Lemma listener_flush_loop_ok fuel : forall now out peer v sv, server_ok sv -> is_Some (sv_engines sv !! ln_ls v) -> zlen out = NXP_PACKET_BUF_SIZE ->
  safe (listener_flush_loop fuel now out peer v sv) (fun sv' => server_ok sv' /\ same_lns sv sv').
Proof.
  induction fuel as [| fuel IH]; intros now out peer v sv Hs He Hout; cbn [listener_flush_loop]; [done |].
  eapply safe_bind.
  { apply (on_engine_ok _ (ln_ls v) _ (fun r ls' => zlen r.1.2 = zlen out) (server_tick sv Hs)); [done |].
    intros ls _ Hok Hw. eapply safe_impl; [by apply send_steps |]. by intros [[[n o] ad] ls']. }
  intros [[[n out'] addr] sv1] (Hs1 & [Hg1 _] & ls' & Ho & Hls & _). cbn in Ho. assert (same_lns sv sv1) as Hl1 by (unfold same_lns, listeners; by rewrite Hg1).
  destruct (n <=? 0); [done |]. eapply safe_impl; [apply IH; [| by exists ls' | congruence] |].
  - pose proof (so_api sv1 Hs1) as Ha1. apply server_api; [done | by apply (api_ok_ext (sv_api sv1)) | by apply (conns_next_refl (used := fun _ => True) (sv_api sv1)) | done].
  - intros sv2 [? Hl2]. split; [done |]. exact (eq_trans Hl2 Hl1).
Qed.

Lemma flush_listener_ok fuel sv ln : server_ok sv -> is_Some (listeners sv !! ln) -> safe (nxp_api_flush_listener fuel sv ln) (fun sv' => server_ok sv' /\ same_lns sv sv').
Proof.
  intros Hs [v Hv]. unfold nxp_api_flush_listener, get_ln. rewrite Hv. cbn [obind].
  eapply safe_impl; [apply listener_flush_loop_ok; [by apply server_tick | by apply (so_listeners sv Hs ln) | done] |]. by intros sv' [? ?].
Qed.

(** ** Reporting *)

(** The state last seen of [ac] becomes [cur]. *)
Definition mark (cur : nxp_conn_state) (ac : Z) a : nxp_api :=
  a <| ap_global := (ap_global a) <| g_api_conns := alter (fun v => v <| ac_prev_state := cur |>) ac (wrappers a) |> |>.

Definition seen (cur : nxp_conn_state) (v : nxp_api_conn) : nxp_api_conn := v <| ac_prev_state := cur |>.

Lemma put_mark cur ac a v : wrappers a !! ac = Some v -> put_ac a ac (seen cur v) = mark cur ac a.
Proof.
  intros Hv. unfold put_ac, mark. assert (alter (seen cur) ac (wrappers a) = <[ac := seen cur v]> (wrappers a)) as <-; [| done].
  apply map_eq. intros x. destruct (decide (x = ac)) as [-> | Hne]; [by rewrite lookup_alter_eq, lookup_insert_eq, Hv | by rewrite lookup_alter_ne, lookup_insert_ne by done].
Qed.
Lemma mark_lookup cur ac a v : wrappers a !! ac = Some v -> wrappers (mark cur ac a) !! ac = Some (seen cur v).
Proof. intros Hv. change (alter (seen cur) ac (wrappers a) !! ac = Some (seen cur v)). rewrite lookup_alter_eq. by rewrite Hv. Qed.

Definition marked cur ac (m : outcome unit nxp_api) : outcome unit nxp_api := let! a := m in Done (mark cur ac a).

Lemma flush_loop_mark cur ac v fuel : forall now out a, flush_loop fuel now out (seen cur v) (mark cur ac a) = marked cur ac (flush_loop fuel now out v a).
Proof.
  induction fuel as [| fuel IH]; intros now out a; cbn [flush_loop]; [done |]. change (get_conn (mark cur ac a)) with (get_conn a).
  change (ac_conn (seen cur v)) with (ac_conn v). destruct (get_conn a (ac_conn v)) as [c | |]; cbn [obind marked]; [| done | done].
  change (ap_tick (mark cur ac a)) with (ap_tick a). destruct (eng_send _ c out now) as [[[n out'] c'] | |]; cbn [obind]; [| done | done].
  destruct (n <=? 0); [done |]. by rewrite <- IH.
Qed.
Lemma flush_mark cur ac fuel a : nxp_api_flush_conn fuel (mark cur ac a) ac = marked cur ac (nxp_api_flush_conn fuel a ac).
Proof.
  unfold nxp_api_flush_conn, get_ac. destruct (wrappers a !! ac) as [v |] eqn:Hv.
  - rewrite (mark_lookup cur ac a v Hv). cbn [obind]. by rewrite <- flush_loop_mark.
  - assert (wrappers (mark cur ac a) !! ac = None) as ->; [| done]. change (alter (seen cur) ac (wrappers a) !! ac = None). by rewrite lookup_alter_eq, Hv.
Qed.
Lemma dispatch_mark cur ac a v : wrappers a !! ac = Some v -> dispatch_data (mark cur ac a) ac = marked cur ac (dispatch_data a ac).
Proof.
  intros Hv. unfold dispatch_data, get_ac. rewrite (mark_lookup cur ac a v Hv), Hv. cbn [obind]. change (get_conn (mark cur ac a)) with (get_conn a).
  change (ac_conn (seen cur v)) with (ac_conn v). destruct (get_conn a (ac_conn v)) as [c | |]; cbn [obind]; [| done | done]. unfold dispatch_stream_data.
  change (ac_streams (seen cur v)) with (ac_streams v). change (g_streams (ap_global (mark cur ac a))) with (g_streams (ap_global a)).
  by destruct (dispatch_loop _ _ _ _) as [[tr h] | |].
Qed.

(** What flushing and notifying leave alone. *)
Lemma flush_loop_frame fuel : forall now out v a a', flush_loop fuel now out v a = Done a' ->
  ap_global a' = ap_global a /\ forall p, ap_conns a !! p = None -> ap_conns a' !! p = None.
Proof.
  induction fuel as [| fuel IH]; intros now out v a a' Hr; cbn [flush_loop] in Hr; [done |]. unfold get_conn in Hr. destruct (ap_conns a !! ac_conn v) as [c |] eqn:Hc; [| done].
  cbn [obind] in Hr. destruct (eng_send _ c out now) as [[[n out'] c'] | |]; cbn [obind] in Hr; [| done | done].
  assert (forall p, ap_conns a !! p = None -> <[ac_conn v := c']> (ap_conns a) !! p = None) as Hp.
  { intros p Hp. rewrite lookup_insert_ne; [done |]. intros <-. congruence. }
  destruct (n <=? 0); [by injection Hr as <- |]. apply IH in Hr as [Hg Hn]. split; [done |]. intros p Hpn. apply Hn. by apply Hp.
Qed.
Lemma flush_frame fuel a ac a' : nxp_api_flush_conn fuel a ac = Done a' -> ap_global a' = ap_global a /\ forall p, ap_conns a !! p = None -> ap_conns a' !! p = None.
Proof. unfold nxp_api_flush_conn, get_ac. destruct (wrappers a !! ac); [| done]. intros Hr. by apply flush_loop_frame in Hr. Qed.
Lemma dispatch_frame a ac a' : dispatch_data a ac = Done a' -> wrappers a' = wrappers a /\ lns a' = lns a /\ ap_conns a' = ap_conns a.
Proof.
  unfold dispatch_data, get_ac. destruct (wrappers a !! ac) as [v |]; [| done]. cbn [obind]. destruct (get_conn a _) as [c | |]; cbn [obind]; [| done | done].
  unfold dispatch_stream_data. destruct (dispatch_loop _ _ _ _) as [[tr h] | |]; [| done | done]. by intros [= <-].
Qed.

(** The state can be marked as seen first. *)
Lemma report_marked fuel a ac v c : wrappers a !! ac = Some v -> ap_conns a !! ac_conn v = Some c ->
  report_conn fuel a ac v = let! a := nxp_api_flush_conn fuel (put_ac (calls_made a (transition_calls v (cn_state c))) ac (seen (cn_state c) v)) ac in dispatch_data a ac.
Proof.
  intros Hv Hc. unfold report_conn, get_conn. rewrite Hc. cbn [obind]. set (a1 := calls_made a _). rewrite (put_mark _ ac a1 v Hv), flush_mark.
  destruct (nxp_api_flush_conn fuel a1 ac) as [a2 | |] eqn:Hf; cbn [obind marked]; [| done | done].
  destruct (flush_frame _ _ _ _ Hf) as [Hg _]. assert (wrappers a2 !! ac = Some v) as Hv2 by (unfold wrappers; by rewrite Hg). rewrite (dispatch_mark _ ac a2 v Hv2).
  destruct (dispatch_data a2 ac) as [a3 | |] eqn:Hd; cbn [obind marked]; [| done | done]. destruct (dispatch_frame _ _ _ Hd) as [Hw _].
  unfold get_ac. rewrite Hw, Hv2. cbn [obind]. f_equal. apply put_mark. by rewrite Hw.
Qed.

(** The wrappers stay in their order. *)
Definition reports a a' : Prop := api_ok a' /\ lns a' = lns a /\ conns_next (ap_conns a) (ap_conns a') /\ same_core a a'.

Lemma report_conn_ok fuel a ac v : api_ok a -> wrappers a !! ac = Some v -> safe (report_conn fuel a ac v) (reports a).
Proof.
  intros Ha Hv. destruct (ak_conn a Ha ac v Hv) as (c & Hc & _). rewrite (report_marked fuel a ac v c Hv Hc).
  destruct (transition_ok a ac v c Ha Hv Hc) as [Hb Hcore]. set (b := put_ac _ _ _) in *.
  assert (is_Some (wrappers b !! ac)) as Hin by (apply (same_core_dom a b ac Hcore); by exists v).
  pose proof (flush_ok (used := fun _ => True) fuel b ac Hb Hin) as Hf. destruct (nxp_api_flush_conn fuel b ac) as [a2 | |]; cbn [obind safe] in *; [| done | done].
  destruct Hf as (Ha2 & Hg2 & _ & Hn2). assert (wrappers a2 = wrappers b) as Hw2 by (unfold wrappers; by rewrite Hg2).
  pose proof (dispatch_data_ok (used := fun _ => True) a2 ac Ha2 ltac:(by rewrite Hw2)) as Hd. pose proof (dispatch_frame a2 ac) as Hfr. unfold api_step in Hd.
  destruct (dispatch_data a2 ac) as [a3 | |]; cbn [safe] in *; [| done | done]. destruct (Hfr a3 eq_refl) as (Hw3 & Hl3 & Hc3). destruct Hd as [Ha3 Hcore3].
  split; [done |]. split; [rewrite Hl3; unfold lns; by rewrite Hg2 |]. split; [rewrite Hc3; exact Hn2 |]. intros x. rewrite <- Hcore3, Hw2. apply Hcore.
Qed.

Lemma dl_seg_core a a' l : same_core a a' -> forall prev head nxt, dl_seg (wrappers a) prev head l nxt -> dl_seg (wrappers a') prev head l nxt.
Proof.
  intros Hc. induction l as [| p l IH]; intros prev head nxt Hs; [done |]. destruct Hs as (-> & v & Hv & Hp & Hs). split; [done |].
  destruct (same_core_some _ _ p v Hc Hv) as (v' & Hv' & Heq). exists v'. split; [done |].
  assert (ac_next v' = ac_next v /\ ac_prev v' = ac_prev v) as [Hn Hpv] by (destruct v, v'; cbn in Heq |- *; by injection Heq). cbn [lk_prev lk_next api_conn_linked] in *.
  split; [congruence |]. rewrite Hn. by apply IH.
Qed.

Lemma report_loop_ok ln fuel l : forall n a prev p, api_ok a -> dl_seg (wrappers a) prev p l None -> (length l <= n)%nat -> safe (report_loop n fuel ln p a) (reports a).
Proof.
  induction l as [| ac l IH]; intros n a prev p Ha Hs Hn.
  { cbn in Hs. subst p. assert (report_loop n fuel ln None a = Done a) as -> by by destruct n. split; [done |]. split; [done |].
    split; [by apply (conns_next_refl (used := fun _ => True)) | done]. }
  destruct Hs as (-> & v & Hv & Hp & Hs). destruct n as [| n]; [cbn in Hn; lia |]. cbn [report_loop]. rewrite (get_ac_some a ac v Hv). cbn [obind].
  eapply safe_bind with (P := reports a).
  { destruct (bool_decide _); [by apply report_conn_ok |]. split; [done |]. split; [done |]. split; [by apply (conns_next_refl (used := fun _ => True)) | done]. }
  intros a1 (Ha1 & Hl1 & Hn1 & Hc1). assert (dl_seg (wrappers a1) prev (Some ac) (ac :: l) None) as (_ & v1 & Hv1 & _ & Hs1).
  { apply (dl_seg_core a a1 _ Hc1). split; [done |]. by exists v. }
  rewrite (get_ac_some a1 ac v1 Hv1). cbn [obind]. eapply safe_impl; [apply (IH n a1 (Some ac)); [done | exact Hs1 | cbn in Hn; lia] |].
  intros a2 (? & ? & ? & ?). split; [done |]. split; [congruence |]. split; [by eapply conns_next_trans | by eapply same_core_trans].
Qed.

Lemma report_ok fuel a ln : api_ok a -> safe (dispatch_listener_conn_events fuel a ln) (reports a).
Proof.
  intros Ha. destruct (ak_list a Ha) as [l [Hl Hall]]. unfold dispatch_listener_conn_events. destruct Hl as [Hs Hnd].
  apply (report_loop_ok ln fuel l _ a None); [done | exact Hs |]. apply (rep_size (wrappers a) (g_conns (ap_global a)) l). by split.
Qed.

(** ** Timers *)

(** A loop with a server.  The timer that a listener names is pending and calls the
    listener's handler; [held] are timers whose callback is running, and the listener
    [firing] has not yet forgotten its own. *)
Record server_rep (l : loop) (bag : list (Z * Z)) (held : list Z) (firing : option Z) : Prop := ServerRep {
  sr_loop : loop_rep l bag held;
  sr_server : server_ok (el_server l);
  sr_timers ln v t : listeners (el_server l) !! ln = Some v -> ln_timer v = Some t ->
    firing = Some ln \/ (t ∉ held /\ exists d, el_heap l !! t = Some (Timer d on_listener_timer_cb ln false))
}.

Lemma set_server_rep (l : loop) sv bag held : loop_rep l bag held -> loop_rep (set_server l sv) bag held.
Proof. by intros [? ? ? ? ?]. Qed.

(** Another server with the same listeners. *)
Lemma server_rep_same (l : loop) sv bag held firing : server_rep l bag held firing -> server_ok sv -> same_lns (el_server l) sv -> server_rep (set_server l sv) bag held firing.
Proof. intros [Hl _ Ht] Hs Hsame. split; [by apply set_server_rep | done |]. change (el_server (set_server l sv)) with sv. by rewrite Hsame. Qed.

Definition put_ln sv (ln : Z) (w : nxp_listener) : nxp_server :=
  set_sv_api sv ((sv_api sv) <| ap_global := (ap_global (sv_api sv)) <| g_api_listeners := <[ln := w]> (listeners sv) |> |>).

Lemma put_ln_ok sv ln v t : server_ok sv -> listeners sv !! ln = Some v -> server_ok (put_ln sv ln (v <| ln_timer := t |>)).
Proof.
  intros [[? ? ? ? ? ? ? ? ?] He Hl] Hv. split; [by split | exact He |]. intros x w Hx.
  change (<[ln := v <| ln_timer := t |>]> (listeners sv) !! x = Some w) in Hx. apply lookup_insert_Some in Hx as [[<- <-] | [_ Hx]]; [exact (Hl ln v Hv) | exact (Hl x w Hx)].
Qed.

Lemma set_ln_timer_eq (l : loop) ln v t : listeners (el_server l) !! ln = Some v -> set_ln_timer l ln t = Done (set_server l (put_ln (el_server l) ln (v <| ln_timer := t |>))).
Proof. intros Hv. unfold set_ln_timer, get_ln. by rewrite Hv. Qed.

(** Forgetting a timer. *)
Lemma clear_timer_ok (l : loop) bag held ln v firing : server_rep l bag held firing -> listeners (el_server l) !! ln = Some v -> firing = None \/ firing = Some ln ->
  server_rep (set_server l (put_ln (el_server l) ln (v <| ln_timer := None |>))) bag held None.
Proof.
  intros [Hl Hs Ht] Hv Hf. split; [by apply set_server_rep | by apply put_ln_ok |]. intros x w t Hx Hw.
  change (<[ln := v <| ln_timer := None |>]> (listeners (el_server l)) !! x = Some w) in Hx.
  apply lookup_insert_Some in Hx as [[<- <-] | [Hne Hx]]; [done |]. destruct (Ht x w t Hx Hw) as [-> | ?]; [| by right]. destruct Hf as [? | ?]; congruence.
Qed.

(** What a handler leaves. *)
Definition server_next (l : loop) (bag : list (Z * Z)) (held : list Z) (l' : loop) : Prop :=
  (exists new, server_rep l' (new ++ bag) held None) /\ EventLoop.kept l l' /\ el_epoll l' = el_epoll l.

Lemma disarm_listener_ok (l : loop) bag held ln v : server_rep l bag held None -> listeners (el_server l) !! ln = Some v ->
  exists l' v', match ln_timer v with
            | None => Done l
            | Some t => let! l := nxp_event_loop_cancel_timer l (Some t) in set_ln_timer l ln None
            end = Done l' /\ server_rep l' bag held None /\ EventLoop.kept l l' /\ el_epoll l' = el_epoll l /\
    listeners (el_server l') !! ln = Some v' /\ ln_ls v' = ln_ls v /\ ln_timer v' = None.
Proof.
  intros Hr Hv. destruct (ln_timer v) as [t |] eqn:Htm; [| exists l, v; auto 8 using kept_refl].
  pose proof Hr as [Hl Hs Ht]. destruct (Ht ln v t Hv Htm) as [| [Hheld [d Hd]]]; [done |].
  destruct (cancel_rep l bag held t Hl ltac:(by eexists)) as (l1 & E1 & Hl1 & Hk & Hsame).
  assert (el_backend l1 = el_backend l) as Hb by (unfold nxp_event_loop_cancel_timer in E1; rewrite Hd in E1; by injection E1 as <-).
  assert (el_server l1 = el_server l /\ el_epoll l1 = el_epoll l) as [Hsv Hep] by (unfold el_server, el_epoll; by rewrite Hb).
  rewrite E1. cbn [obind]. rewrite (set_ln_timer_eq l1 ln v) by by rewrite Hsv. set (w := v <| ln_timer := None |>).
  eexists _, w. split; [done |]. rewrite Hsv. split; [| split; [exact Hk | split; [exact Hep | split; [apply lookup_insert_eq | done]]]].
  split; [by apply set_server_rep | by apply put_ln_ok |]. intros x y t' Hx Hy. change (<[ln := w]> (listeners (el_server l)) !! x = Some y) in Hx.
  apply lookup_insert_Some in Hx as [[<- <-] | [Hne Hx]]; [done |]. destruct (Ht x y t' Hx Hy) as [| [Hh [d' Hd']]]; [by left | right]. split; [done |]. exists d'.
  change (el_heap l1 !! t' = Some (Timer d' on_listener_timer_cb x false)). rewrite Hsame; [done |]. intros ->. congruence.
Qed.

Lemma arm_listener_ok (l : loop) bag held ln v mem env d : server_rep l bag held None -> listeners (el_server l) !! ln = Some v -> ln_timer v = None ->
  (forall t, mem = Some t -> el_heap l !! t = None) -> tq_room env (el_timers l) ->
  safe (let! (t, l) := nxp_event_loop_add_timer mem env l d on_listener_timer_cb ln in set_ln_timer l ln t) (server_next l bag held).
Proof.
  intros Hr Hv Htm Hmem Hroom. pose proof Hr as [Hl Hs Ht].
  assert (safe (set_ln_timer l ln None) (server_next l bag held)) as Hnone.
  { rewrite (set_ln_timer_eq l ln v) by done. split; [exists []; apply (clear_timer_ok l bag held ln v None); auto | split; [exact (kept_refl l) | done]]. }
  destruct mem as [t |]; [| exact Hnone]. specialize (Hmem t eq_refl).
  destruct (add_timer_rep l bag held t env d on_listener_timer_cb ln Hl Hroom Hmem) as (r & l1 & E1 & Hr1).
  assert (r = Some t -> el_backend l1 = el_backend l /\ el_heap l1 !! t = Some (Timer d on_listener_timer_cb ln false)) as Hb.
  { revert E1. unfold nxp_event_loop_add_timer. destruct (tq_push env (el_timers l) d t) as [[q |] | |]; cbn [obind]; [| | done | done].
    - intros [= <- <-] _. cbn. by rewrite lookup_insert_eq.
    - by intros [= <- <-]. }
  rewrite E1. cbn [obind]. destruct Hr1 as [[-> ->] | (-> & Hl1 & Hk & Hsame)]; [exact Hnone |]. destruct (Hb eq_refl) as [Hbk Htt]. clear Hb.
  assert (el_server l1 = el_server l /\ el_epoll l1 = el_epoll l) as [Hsv Hep] by (unfold el_server, el_epoll; by rewrite Hbk).
  rewrite (set_ln_timer_eq l1 ln v) by by rewrite Hsv. rewrite Hsv. set (w := v <| ln_timer := Some t |>).
  assert (t ∉ held) as Hth by (intros Hin; destruct (lr_held _ _ _ Hl t Hin); congruence).
  split; [exists [(d, t)] | split; [exact Hk | exact Hep]]. split; [by apply set_server_rep | by apply put_ln_ok |].
  intros x y t' Hx Hy. change (<[ln := w]> (listeners (el_server l)) !! x = Some y) in Hx. change (el_heap (set_server l1 _)) with (el_heap l1). right.
  apply lookup_insert_Some in Hx as [[<- <-] | [Hne Hx]]; [injection Hy as <-; split; [done | by exists d] |].
  destruct (Ht x y t' Hx Hy) as [| [Hh [d' Hd']]]; [done |]. split; [done |]. exists d'. rewrite Hsame; [done |]. intros ->. congruence.
Qed.

Lemma timeout_steps h ls now : listener_ok (lend h ls) -> within (lend h ls) ->
  safe (let! d := nxp_listener_timeout (lend h ls) now in Done (d, lend h ls)) (fun '(d, ls') => steps h ls ls').
Proof.
  intros Hok [_ Hw]. destruct (lo_array _ Hok) as (live & Hl & _ & Hin). unfold nxp_listener_timeout. rewrite (listed_live _ _ Hl).
  destruct (timeout_loop_ok (lend h ls) now live UINT64_MAX) as (t & -> & _).
  - intros p [c Hp]%Hin. exists c. split; [done |]. by apply (Hw p c).
  - split; [done |]. split; [| intros p [c [_ ?]%lend_lookup]; by left]. intros p c Hp. exists c. split; [done |]. by apply conn_next_refl, (lo_heap _ Hok p).
Qed.

Lemma rearm_listener_ok (l : loop) bag held ln : server_rep l bag held None -> is_Some (listeners (el_server l) !! ln) ->
  safe (nxp_api_rearm_listener_timer l ln) (server_next l bag held).
Proof.
  intros Hr [v Hv]. unfold nxp_api_rearm_listener_timer, get_ln. rewrite Hv. cbn [obind].
  destruct (disarm_listener_ok l bag held ln v Hr Hv) as (l1 & v1 & -> & Hr1 & Hk1 & He1 & Hv1 & Hls & Htm). cbn [obind]. cbv zeta.
  pose proof (sr_server _ _ _ _ Hr1) as Hs1. eapply safe_bind.
  { apply (on_engine_ok _ (ln_ls v) _ (fun _ _ => True) (server_tick _ Hs1)); [rewrite <- Hls; by apply (so_listeners _ Hs1 ln) |].
    intros ls _ Hok Hw. eapply safe_impl; [by apply timeout_steps |]. by intros [d ls']. }
  intros [d sv] (Hs & [Hg _] & _). assert (same_lns (el_server l1) sv) as Hsame by (unfold same_lns, listeners; by rewrite Hg).
  pose proof (server_rep_same l1 sv bag held None Hr1 Hs Hsame) as Hr2. set (l2 := set_server l1 sv) in *.
  assert (server_next l bag held l2) as Hstop by (split; [by exists [] | by split]). destruct (d =? UINT64_MAX); [done |].
  eapply safe_impl; [eapply (arm_listener_ok l2 bag held ln v1); [done | | done | |] |].
  - change (listeners sv !! ln = Some v1). by rewrite Hsame.
  - intros t Hm. apply sys_malloc_ok in Hm. by apply not_elem_of_dom in Hm.
  - by eapply sys_push_ok, (lr_bag _ _ _ (sr_loop _ _ _ _ Hr2)).
  - intros l' (Hnew & Hk' & He'). split; [done |]. split; [by eapply kept_trans | by rewrite He'].
Qed.

(** ** Handlers *)

Lemma listener_turn_ok fuel (l : loop) bag held sv ln : server_rep l bag held None -> server_ok sv -> same_lns (el_server l) sv -> is_Some (listeners sv !! ln) ->
  safe (listener_turn fuel l sv ln) (server_next l bag held).
Proof.
  intros Hr Hs Hsame Hln. unfold listener_turn. eapply safe_bind; [by apply flush_listener_ok |]. intros sv1 [Hs1 Hl1].
  eapply safe_bind; [by apply report_ok, so_api |]. intros a (Ha & Hla & Hna & _).
  assert (server_ok (set_sv_api sv1 a)) as Hs2 by by apply server_api.
  assert (same_lns (el_server l) (set_sv_api sv1 a)) as Hl2 by (change (lns a = listeners (el_server l)); rewrite Hla; exact (eq_trans Hl1 Hsame)).
  eapply safe_impl; [apply (rearm_listener_ok _ bag held); [by apply server_rep_same |] |].
  - change (is_Some (listeners (set_sv_api sv1 a) !! ln)). rewrite Hl2, <- Hsame. done.
  - by intros l' (? & ? & ?).
Qed.

Lemma event_ok fuel events (l : loop) bag held ln : server_rep l bag held None -> is_Some (listeners (el_server l) !! ln) ->
  safe (on_listener_event fuel events ln l) (server_next l bag held).
Proof.
  intros Hr Hln. pose proof (sr_server _ _ _ _ Hr) as Hs. unfold on_listener_event. eapply safe_bind with (P := fun sv => server_ok sv /\ same_lns (el_server l) sv).
  - destruct (negb _); [by apply listener_recv_loop_ok | done].
  - intros sv [Hs1 Hl1]. apply listener_turn_ok; [done | done | done | by rewrite Hl1].
Qed.

(** The connections that end at [now]. *)
Definition ends (now : Z) (c : nxp_conn) : bool := bool_decide (cn_state (timed now c) = NXP_CONN_CLOSED).
Definition none_ends (l : loop) (ln : Z) : Prop := forall v ls p c, listeners (el_server l) !! ln = Some v -> sv_engines (el_server l) !! ln_ls v = Some ls ->
  p ∈ pointers ls -> ap_conns (sv_api (el_server l)) !! p = Some c -> ends (sys_clock (ap_tick (sv_api (el_server l)))) c = false.

Lemma expire_steps h ls now : listener_ok (lend h ls) -> within (lend h ls) -> 0 <= now -> (forall p c, p ∈ pointers ls -> h !! p = Some c -> ends now c = false) ->
  safe (let! ls' := settled (nxp_listener_on_timeout (lend h ls) now) in Done (tt, ls')) (fun '(_, ls') => steps h ls ls').
Proof.
  intros Hok [_ Hw] Hnow Hends. assert (all_conns (lend h ls) (fun c => pto_count (cn_ack c) < 64)) as Hpto by (intros p c Hp; by apply (Hw p c)).
  destruct (listener_expire_ok (lend h ls) now Hok Hnow Hpto) as (ls' & -> & Hok' & Hh). cbn [settled obind safe]. split; [done |].
  assert (forall p c, ls_heap (lend h ls) !! p = Some c -> ls_heap ls' !! p = Some (timed now c)) as Hstep.
  { intros p c Hp. rewrite Hh, Hp. cbn. unfold ListenerSafety.kept. apply lend_lookup in Hp as [Hp Hpt]. specialize (Hends p c Hpt Hp). unfold ends in Hends. by rewrite Hends. }
  split.
  - intros p c Hp. exists (timed now c). split; [by apply Hstep |]. apply (store_timed (lend h ls) p c now Hok Hp Hnow). by apply (Hpto p).
  - intros p [c Hp]. rewrite Hh in Hp. destruct (ls_heap (lend h ls) !! p) as [d |] eqn:Hd; [| done]. apply lend_lookup in Hd as [_ ?]. by left.
Qed.

Lemma timer_ok fuel (l : loop) bag held ln : server_rep l bag held (Some ln) -> is_Some (listeners (el_server l) !! ln) -> none_ends l ln ->
  safe (on_listener_timer fuel ln l) (server_next l bag held).
Proof.
  intros Hr [v Hv] Hends. unfold on_listener_timer. rewrite (set_ln_timer_eq l ln v) by done. cbn [obind].
  pose proof (clear_timer_ok l bag held ln v (Some ln) Hr Hv ltac:(by right)) as Hr1. set (w := v <| ln_timer := None |>) in *.
  set (l1 := set_server l (put_ln (el_server l) ln w)) in *. pose proof (sr_server _ _ _ _ Hr1) as Hs1.
  assert (listeners (el_server l1) !! ln = Some w) as Hw by apply lookup_insert_eq. unfold get_ln. rewrite Hw. cbn [obind].
  eapply safe_bind.
  { apply (on_engine_ok _ (ln_ls w) _ (fun _ _ => True) (server_tick _ Hs1)); [by apply (so_listeners _ Hs1 ln) |].
    intros ls Hls Hok Hwi. eapply safe_impl; [apply expire_steps; [done | done | apply sys_clock_ok |] | by intros [[] ls']].
    intros p c Hp Hc. by apply (Hends v ls p c). }
  intros [[] sv] (Hs & [Hg _] & _). assert (same_lns (el_server l1) sv) as Hsame by (unfold same_lns, listeners; by rewrite Hg).
  eapply safe_impl; [apply (listener_turn_ok fuel l1 bag held sv ln Hr1 Hs Hsame) |].
  - rewrite Hsame, Hw. by eexists.
  - by intros l' (? & ? & ?).
Qed.

(** C5: The handlers of a listener are safe for arbitrary datagrams: they keep the
    invariant of the library and of the engine's listeners, the timers and the watched
    sockets; every connection that the engine accepts gets at most one wrapper, and the
    application is told of each connection at most once that it is established and then
    that it is closed.  The timer handler is safe as long as no connection of the
    listener ends in it. *)
Theorem server_handlers_safe fuel (l : loop) bag held ln : is_Some (listeners (el_server l) !! ln) ->
  (forall events, server_rep l bag held None -> safe (on_listener_event fuel events ln l) (server_next l bag held)) /\
  (server_rep l bag held (Some ln) -> none_ends l ln -> safe (on_listener_timer fuel ln l) (server_next l bag held)).
Proof. intros Hln. split; [intros events Hr; by apply event_ok | intros Hr Hends; by apply timer_ok]. Qed.

(** ** A connection that ends *)

Lemma send_loop_frame fuel ok now n p : forall ls out, ls_heap ls !! p = None ->
  match send_loop n fuel ok ls out now with Done (_, _, _, ls') => ls_heap ls' !! p = None | _ => True end.
Proof.
  induction n as [| n IH]; intros ls out Hp; cbn [send_loop]; [done |]. cbv zeta. set (ls1 := ls <| ls_send_index := _ |>).
  destruct (ls_conns ls1 !! _) as [[q |] |]; [| by apply (IH ls1) | done]. destruct (ls_heap ls1 !! q) as [c |] eqn:Hq; [| done].
  destruct (nxp_conn_send fuel ok c out now) as [[[k out'] c'] | |]; cbn [obind]; [| done | done].
  assert (<[q := c']> (ls_heap ls1) !! p = None) as Hp'.
  { rewrite lookup_insert_ne; [exact Hp |]. intros ->. change (ls_heap ls1) with (ls_heap ls) in Hq. congruence. }
  destruct (k >? 0); [exact Hp' |]. apply IH. exact Hp'.
Qed.

Lemma lend_none h ls p : h !! p = None -> ls_heap (lend h ls) !! p = None.
Proof. intros Hp. apply eq_None_not_Some. intros [c [Hc _]%lend_lookup]. congruence. Qed.
Lemma take_back_none h ls ls' p : ls_heap ls' !! p = None -> h !! p = None \/ p ∈ pointers ls -> take_back h ls ls' !! p = None.
Proof.
  intros Hp Hor. apply lookup_union_None. split; [done |]. apply map_lookup_filter_None. destruct Hor as [? | Hpt]; [by left | right]. intros c _ Hn. by apply Hn.
Qed.

Lemma listener_flush_frame fuel p : forall now out peer v sv sv', listener_flush_loop fuel now out peer v sv = Done sv' ->
  ap_conns (sv_api sv) !! p = None -> ap_global (sv_api sv') = ap_global (sv_api sv) /\ ap_conns (sv_api sv') !! p = None.
Proof.
  induction fuel as [| fuel IH]; intros now out peer v sv sv' Hr Hp; cbn [listener_flush_loop] in Hr; [done |].
  unfold on_engine in Hr. cbn [sv_engines set_sv_api] in Hr. change (sv_engines (set_sv_api sv _)) with (sv_engines sv) in Hr.
  destruct (sv_engines sv !! ln_ls v) as [ls |]; [| done]. cbv zeta in Hr. change (ap_conns (sv_api (set_sv_api sv (next_tick (sv_api sv))))) with (ap_conns (sv_api sv)) in Hr.
  destruct (bool_decide _); [| done]. set (E0 := lend (ap_conns (sv_api sv)) ls) in *. set (ok := sys_realloc _) in *.
  assert (match nxp_listener_send (Datatypes.S fuel) ok E0 out now with Done (_, _, _, ls') => ls_heap ls' !! p = None | _ => True end) as Hf.
  { unfold nxp_listener_send. destruct (_ =? 0); [| apply send_loop_frame]; by apply lend_none. }
  destruct (nxp_listener_send _ _ _ _ _) as [[[[n out'] addr] ls'] | |]; cbn [obind] in Hr; [| done | done].
  pose proof (take_back_none (ap_conns (sv_api sv)) ls ls' p Hf ltac:(by left)) as Hp'.
  destruct (n <=? 0); [injection Hr as <-; by split |]. apply IH in Hr; [| exact Hp']. exact Hr.
Qed.

(** A wrapper whose connection is gone is followed when it is the first of the listener
    in the rest of the list. *)
Lemma report_dangling ln fuel ac l1 l2 : forall n a prev p v, dl_seg (wrappers a) prev p (l1 ++ ac :: l2) None -> (length l1 < n)%nat ->
  (forall x u, x ∈ l1 -> wrappers a !! x = Some u -> ac_parent_listener u <> Some ln) -> wrappers a !! ac = Some v ->
  ac_parent_listener v = Some ln -> ap_conns a !! ac_conn v = None -> report_loop n fuel ln p a = Ub.
Proof.
  induction l1 as [| q l1 IH]; intros n a prev p v Hs Hn Hother Hv Hpar Hgone; destruct Hs as (-> & u & Hu & _ & Hs); (destruct n as [| n]; [cbn in Hn; lia |]); cbn [report_loop].
  - rewrite (get_ac_some a ac v Hv). cbn [obind]. rewrite bool_decide_true by done. unfold report_conn, get_conn. by rewrite Hgone.
  - rewrite (get_ac_some a q u Hu). cbn [obind]. rewrite bool_decide_false by (by apply (Hother q u); [left |]). cbn [obind].
    rewrite (get_ac_some a q u Hu). cbn [obind]. eapply (IH n a); [exact Hs | cbn in Hn; lia | | done | done | done].
    intros x w Hx. apply Hother. by right.
Qed.

(** What the timer handler does before it sends: the engine handles the timeout. *)
Definition listener_expire (ln : Z) (l : loop) : outcome unit (loop * nxp_server) :=
  let! l := set_ln_timer l ln None in
  let sv := el_server l in
  let! v := get_ln sv ln in
  let! (_, sv') := on_engine (set_sv_api sv (next_tick (sv_api sv))) (ln_ls v) (fun ls =>
    let! ls := settled (nxp_listener_on_timeout ls (sys_clock (ap_tick (sv_api sv)))) in Done (tt, ls)) in
  Done (l, sv').

Lemma listener_timer_split fuel ln l : on_listener_timer fuel ln l = let! (l, sv) := listener_expire ln l in listener_turn fuel l sv ln.
Proof.
  unfold on_listener_timer, listener_expire. destruct (set_ln_timer l ln None) as [l1 | |]; cbn [obind]; [| done | done].
  destruct (get_ln (el_server l1) ln) as [v | |]; cbn [obind]; [| done | done]. destruct (on_engine _ _ _) as [[[] sv] | |]; done.
Qed.

(** The engine frees a connection that ends; the wrappers stay. *)
Lemma expire_frees l bag held ln v ls p c l1 sv : server_rep l bag held (Some ln) -> listeners (el_server l) !! ln = Some v ->
  sv_engines (el_server l) !! ln_ls v = Some ls -> p ∈ pointers ls -> ap_conns (sv_api (el_server l)) !! p = Some c ->
  ends (sys_clock (ap_tick (sv_api (el_server l)))) c = true -> listener_expire ln l = Done (l1, sv) ->
  ap_conns (sv_api sv) !! p = None /\ wrappers (sv_api sv) = wrappers (sv_api (el_server l)) /\
  g_conns (ap_global (sv_api sv)) = g_conns (ap_global (sv_api (el_server l))).
Proof.
  intros Hr Hv Hls Hpt Hc Hends. pose proof (sr_server _ _ _ _ Hr) as Hs. unfold listener_expire. rewrite (set_ln_timer_eq l ln v) by done. cbn [obind].
  set (v1 := v <| ln_timer := None |>). set (sv1 := put_ln (el_server l) ln v1). change (el_server (set_server l sv1)) with sv1.
  assert (listeners sv1 !! ln = Some v1) as Hv1 by apply lookup_insert_eq. unfold get_ln. rewrite Hv1. cbn [obind].
  unfold on_engine. change (sv_engines (set_sv_api sv1 _)) with (sv_engines (el_server l)). change (ln_ls v1) with (ln_ls v). rewrite Hls. cbv zeta.
  change (ap_conns (sv_api (set_sv_api sv1 _))) with (ap_conns (sv_api (el_server l))). set (h := ap_conns (sv_api (el_server l))) in *.
  destruct (bool_decide_reflect (within (lend h ls))) as [Hwi |]; [| done]. pose proof (so_engines _ Hs _ _ Hls) as Hok. fold h in Hok.
  set (now := sys_clock _) in *. destruct (listener_expire_ok (lend h ls) now Hok) as (ls' & -> & _ & Hh); [apply sys_clock_ok | intros q d Hq; by apply (proj2 Hwi q d) |].
  cbn [settled obind]. intros [= <- <-]. split; [| done]. apply take_back_none; [| by right].
  rewrite Hh, (proj2 (lend_lookup h ls _ c)) by done. cbn. unfold ListenerSafety.kept, ends in *. by rewrite Hends.
Qed.

(** C39: The timer of a listener frees connections that the library still points to:
    when a connection with a wrapper ends in [nxp_listener_on_timeout], by its idle
    timeout for instance, and sending the listener's packets returns, the handler
    follows the freed connection through the wrapper.  The wrapper is the first of the
    listener in the list of wrappers. *)
Theorem listener_timer_use_after_free fuel (l l1 : loop) bag held ln v ls l2 l3 ac w c sv sv' : server_rep l bag held (Some ln) ->
  listeners (el_server l) !! ln = Some v -> sv_engines (el_server l) !! ln_ls v = Some ls ->
  conns_rep (ap_global (sv_api (el_server l))) (l2 ++ ac :: l3) ->
  (forall x u, x ∈ l2 -> wrappers (sv_api (el_server l)) !! x = Some u -> ac_parent_listener u <> Some ln) ->
  wrappers (sv_api (el_server l)) !! ac = Some w -> ac_parent_listener w = Some ln -> ac_conn w ∈ pointers ls ->
  ap_conns (sv_api (el_server l)) !! ac_conn w = Some c -> ends (sys_clock (ap_tick (sv_api (el_server l)))) c = true ->
  listener_expire ln l = Done (l1, sv) -> nxp_api_flush_listener fuel sv ln = Done sv' ->
  on_listener_timer fuel ln l = Ub.
Proof.
  intros Hr Hv Hls [[Hseg Hnd] Hall] Hother Hw Hpar Hpt Hc Hends Hex Hfl. destruct (expire_frees l bag held ln v ls (ac_conn w) c l1 sv Hr Hv Hls Hpt Hc Hends Hex) as (Hgone & Hw1 & Hh1).
  rewrite listener_timer_split, Hex. cbn [obind]. unfold listener_turn. rewrite Hfl. cbn [obind].
  unfold nxp_api_flush_listener in Hfl. destruct (get_ln sv ln) as [v1 | |]; cbn [obind] in Hfl; [| done | done].
  destruct (listener_flush_frame _ (ac_conn w) _ _ _ _ _ _ Hfl Hgone) as [Hg Hgone']. change (ap_global (sv_api (set_sv_api sv _))) with (ap_global (sv_api sv)) in Hg.
  assert (wrappers (sv_api sv') = wrappers (sv_api (el_server l)) /\ g_conns (ap_global (sv_api sv')) = g_conns (ap_global (sv_api (el_server l)))) as [Hw2 Hh2]
    by (rewrite <- Hw1, <- Hh1; unfold wrappers; by rewrite Hg).
  unfold dispatch_listener_conn_events. rewrite Hh2.
  erewrite (report_dangling ln fuel ac l2 l3 _ (sv_api sv') None _ w); [done | rewrite Hw2; exact Hseg | | rewrite Hw2; exact Hother | by rewrite Hw2 | done | done].
  pose proof (rep_size _ _ _ (conj Hseg Hnd)) as Hsz. rewrite Hw2. unfold wrappers in *. rewrite length_app in Hsz. cbn in Hsz. lia.
Qed.

End Safety.
