(* ===== verification/ApiShutdown.v ===== *)
(** * Listening and shutting down (src/src/api/nxp_api.c)

    [nxp_listen], [nxp_listen_url], [nxp_listener_close] and [nxp_shutdown]: what they
    acquire and give back.  As in [ApiLifecycle], a connection or a listener of the
    engine is one token with what it owns. *)

From stdpp Require Import gmap strings.
From S2P Require Import Prelude CString Types Frame RateLimit Stream Crypto Connection ConnectionSend ConnectionInv ConnectionSafety.
From S2P Require Import PriorityQueue Url Sockets Transports Listener ListenerSafety EventLoop Epoll ApiObjects ApiIo ApiInv ApiSafety ApiCalls ApiLifecycle ApiServer ApiServerSafety.

Definition transport_ln_ptr (ln : nxp_transport_listener) : Z := match ln with LUdp ln _ _ _ _ | LTcp ln _ _ _ _ _ => ln end.

(** [memset(&lc, 0, sizeof(lc))] and what is set after it; [listener_on_new_conn_cb] is
    the callback. *)
Definition listen_config (config : option nxp_config) : nxp_listener_config :=
  match config with
  | Some cfg => ListenerConfig (zeros NXP_LISTENER_MAX_NODE_ID_LEN) 0 NXP_LISTENER_DEFAULT_MAX_CONNS (u64 (cg_idle_timeout_ms cfg * 1000))
                  NXP_DEFAULT_MAX_DATA NXP_DEFAULT_MAX_STREAM_DATA (u32 (cg_max_streams_bidi cfg)) (u32 (cg_max_streams_uni cfg)) false true
  | None => ListenerConfig (zeros NXP_LISTENER_MAX_NODE_ID_LEN) 0 NXP_LISTENER_DEFAULT_MAX_CONNS (NXP_IDLE_TIMEOUT_DEFAULT * 1000)
              NXP_DEFAULT_MAX_DATA NXP_DEFAULT_MAX_STREAM_DATA NXP_MAX_STREAMS_DEFAULT NXP_MAX_STREAMS_DEFAULT false true
  end.

Section Shutdown.
Context {S : Type} `{KeyStore S Z} {room_dec : forall s : S, Decision (st_room s)}.
Context {Q E : Type} `{System Q E} `{ServerSystem} `{Engine} `{Allocator} `{OpenSSLLaws} `{InetPton}.
Notation loop := (nxp_event_loop Q (nxp_epoll_loop * nxp_server (S := S))).
Variable ok : call -> bool.
Variable hs_len : list Z -> list Z -> Z.
Variable grant : api_alloc -> bool.

(** The transports at their addresses. *)
Variable tr : gmap Z nxp_transport.
Variable tls : gmap Z nxp_transport_listener.

Definition globals (l : loop) : nxp_global := ap_global (sv_api (el_server l)).
Definition set_globals (l : loop) (g : nxp_global) : loop :=
  set_server l (set_sv_api (el_server l) (sv_api (el_server l) <| ap_global := g |>)).
Definition set_server_epoll (l : loop) (e : nxp_epoll_loop) : loop := l <| el_backend := (e, el_server l) |>.

(** ** Listening *)

(** The listener is linked and its timer armed. *)
Definition attach_listener (l : loop) (p : Z) (ls : nxp_listener_s (S := S)) (ln : Z) (v : nxp_listener) : outcome unit loop :=
  let sv := el_server l in
  let g := globals l in
  let! g := listener_link (g <| g_api_listeners := <[ln := v]> (g_api_listeners g) |>) ln in
  nxp_api_rearm_listener_timer (set_server l (Server (sv_api sv <| ap_global := g |>) (<[p := ls]> (sv_engines sv)))) ln.

(** [on_new_conn] and [user_data] of the application; [limiter] is the rate limiter
    that the engine's listener creates. *)
Definition listen_over (l : loop) (limiter : option nxp_rate_limiter) (lc : nxp_listener_config) (url : list Z) (on_new_conn : option Z) (user_data : Z)
  : io ((nxp_error_code + Z * nxp_transport * nxp_transport_listener) * loop) :=
  ln ← acquire (grant AListenerWrapper);
  match ln with
  | None => mret (inl NXP_ERR_OUT_OF_MEMORY, l)
  | Some ln =>
      r ← nxp_transport_listen (registered_transports ok hs_len) (Some url);
      match r with
      | inl e => _ ← release ln; mret (inl e, l)
      | inr tl =>
          t ← nxp_udp_transport_from_listener ok tl;
          match t with
          | None => _ ← listener_close tl; _ ← release ln; mret (inl NXP_ERR_OUT_OF_MEMORY, l)
          | Some t =>
              p ← acquire (grant AListener);
              match p, nxp_listener_create (grant AListener) limiter lc with
              | Some p, Some ls =>
                  re ← lift (epoll_add_socket (grant ASources) (grant AEpollCtl) (el_epoll l) (nxp_transport_get_socket t) NXP_EVENT_READ on_listener_event_cb ln);
                  match re : option nxp_error_code * nxp_epoll_loop with
                  | (Some e, ep) =>
                      _ ← release p; _ ← transport_close t; _ ← listener_close tl; _ ← release ln; mret (inl e, set_server_epoll l ep)
                  | (None, ep) =>
                      l ← lift (attach_listener (set_server_epoll l ep) p ls ln
                                  (ApiListener p (transport_ptr t) (transport_ln_ptr tl) None on_new_conn user_data None None));
                      mret (inr (ln, t, tl), l)
                  end
              | _, _ => _ ← transport_close t; _ ← listener_close tl; _ ← release ln; mret (inl NXP_ERR_OUT_OF_MEMORY, l)
              end
          end
      end
  end.

(** A library that is initialised; the pointers are not null. *)
Definition nxp_listen (l : loop) (limiter : option nxp_rate_limiter) (config : option nxp_config) (bind_addr : list Z) (port : Z) (on_new_conn : option Z) (user_data : Z) :=
  listen_over l limiter (listen_config config) (api_url bind_addr port) on_new_conn user_data.
Definition nxp_listen_url (l : loop) (limiter : option nxp_rate_limiter) (url : list Z) (on_new_conn : option Z) (user_data : Z) :=
  listen_over l limiter (listen_config None) url on_new_conn user_data.

(** ** Closing *)

Definition cancel_opt (l : loop) (t : option Z) : outcome unit loop :=
  match t with None => Done l | Some t => nxp_event_loop_cancel_timer l (Some t) end.

Definition unlink_conn (l : loop) (ac : Z) : outcome unit loop :=
  let! g := api_conn_unlink (globals l) ac in Done (set_globals l g).
Definition unlink_listener (l : loop) (ln : Z) : outcome unit loop :=
  let! g := listener_unlink (globals l) ln in Done (set_globals l g).

(** [free(ac)], [free(ln)] and [nxp_conn_destroy(conn)] *)
Definition free_wrapper (l : loop) (ac : Z) : io loop :=
  _ ← release ac; mret (set_globals l ((globals l) <| g_api_conns := delete ac (g_api_conns (globals l)) |>)).
Definition free_listener (l : loop) (ln : Z) : io loop :=
  _ ← release ln; mret (set_globals l ((globals l) <| g_api_listeners := delete ln (g_api_listeners (globals l)) |>)).
Definition destroy_conn (l : loop) (p : Z) : io loop :=
  _ ← release p;
  let sv := el_server l in
  mret (set_server l (set_sv_api sv (sv_api sv <| ap_conns := delete p (ap_conns (sv_api sv)) |>))).

(** [nxp_listener_destroy(ls)] destroys the connections of the array.  The token of
    the engine's listener stands for what is freed with it: the array, the table of
    connections, the limiter and its table.  The buckets of the limiter are not freed. *)
Fixpoint destroy_conns (l : loop) (ps : list Z) : io loop :=
  match ps with [] => mret l | p :: ps => l ← destroy_conn l p; destroy_conns l ps end.
Definition nxp_listener_destroy (l : loop) (p : Z) : io loop :=
  match sv_engines (el_server l) !! p with
  | None => fun _ => Ub
  | Some ls =>
      l ← destroy_conns l (pointers ls);
      _ ← release p;
      mret (set_server l (Server (sv_api (el_server l)) (delete p (sv_engines (el_server l)))))
  end.

(** Stop watching the socket of a transport and close the transport. *)
Definition close_transport (l : loop) (t : Z) : io loop :=
  match tr !! t with
  | None => fun _ => Ub
  | Some t =>
      ep ← lift (epoll_del_socket (el_epoll l) (nxp_transport_get_socket t));
      _ ← transport_close t;
      mret (set_server_epoll l ep)
  end.
Definition close_transport_listener (tl : Z) : io unit :=
  match tls !! tl with None => fun _ => Ub | Some tl => listener_close tl end.

(** The wrappers of the listener's connections are unlinked and freed; [n] bounds the
    wrappers visited. *)
Fixpoint drop_wrappers (n : nat) (ln : Z) (p : option Z) (l : loop) : io loop :=
  match p with
  | None => mret l
  | Some ac =>
      match n with
      | O => fun _ => Ub
      | Datatypes.S n =>
          v ← lift (get_ac (sv_api (el_server l)) ac);
          l ← (if bool_decide (ac_parent_listener v = Some ln)
               then l ← lift (unlink_conn l ac); l ← lift (cancel_opt l (ac_timer v)); free_wrapper l ac
               else mret l);
          drop_wrappers n ln (ac_next v) l
      end
  end.

Definition nxp_listener_close (l : loop) (ln : Z) : io loop :=
  l ← drop_wrappers (size (g_api_conns (globals l))) ln (g_conns (globals l)) l;
  l ← lift (unlink_listener l ln);
  v ← lift (get_ln (el_server l) ln);
  l ← lift (cancel_opt l (ln_timer v));
  l ← close_transport l (ln_transport v);
  _ ← close_transport_listener (ln_transport_ln v);
  l ← nxp_listener_destroy l (ln_ls v);
  free_listener l ln.

(** ** Shutting down *)

Fixpoint close_conns (n : nat) (l : loop) : io loop :=
  match g_conns (globals l) with
  | None => mret l
  | Some ac =>
      match n with
      | O => fun _ => Ub
      | Datatypes.S n =>
          v ← lift (get_ac (sv_api (el_server l)) ac);
          l ← lift (unlink_conn l ac);
          l ← lift (cancel_opt l (ac_timer v));
          l ← (if ac_owns_transport v then close_transport l (ac_transport v) else mret l);
          l ← destroy_conn l (ac_conn v);
          l ← free_wrapper l ac;
          close_conns n l
      end
  end.

Fixpoint close_listeners (n : nat) (l : loop) : io loop :=
  match g_listeners (globals l) with
  | None => mret l
  | Some ln =>
      match n with
      | O => fun _ => Ub
      | Datatypes.S n =>
          v ← lift (get_ln (el_server l) ln);
          l ← lift (unlink_listener l ln);
          l ← lift (cancel_opt l (ln_timer v));
          l ← close_transport l (ln_transport v);
          l ← nxp_listener_destroy l (ln_ls v);
          l ← free_listener l ln;
          close_listeners n l
      end
  end.

(** The timers are freed first; their memory is that of the loop. *)
Definition nxp_event_loop_destroy (handles : loop_handles) (l : loop) : io unit :=
  _ ← lift (nxp_event_loop_cleanup_base (Datatypes.S (size (el_heap l))) l);
  epoll_destroy handles.

(** [g_nxp] is cleared at the end. *)
Definition nxp_shutdown (handles : loop_handles) (l : loop) : io unit :=
  l ← close_conns (size (g_api_conns (globals l))) l;
  l ← close_listeners (size (g_api_listeners (globals l))) l;
  nxp_event_loop_destroy handles l.

(** ** Closing a listener *)

(** All but the wrappers of connections. *)
Definition beside (l l' : loop) : Prop := el_heap l' = el_heap l /\ el_epoll l' = el_epoll l /\ sv_engines (el_server l') = sv_engines (el_server l) /\
  g_api_listeners (globals l') = g_api_listeners (globals l) /\ g_listeners (globals l') = g_listeners (globals l) /\
  g_streams (globals l') = g_streams (globals l).

Lemma beside_trans a b c : beside a b -> beside b c -> beside a c.
Proof. intros (? & ? & ? & ? & ? & ?) (? & ? & ? & ? & ? & ?). repeat split; congruence. Qed.

(** [P] tells the wrappers of the listener, which have no timer. *)
Definition tells (P : Z -> bool) (ln : Z) (g : nxp_global) : Prop := forall x v, g_api_conns g !! x = Some v ->
  P x = bool_decide (ac_parent_listener v = Some ln) /\ (P x = true -> ac_timer v = None).

Lemma conn_data (v w : nxp_api_conn) : data v = data w -> ac_parent_listener v = ac_parent_listener w /\ ac_timer v = ac_timer w.
Proof. destruct v, w. unfold data. cbn. by intros [=]. Qed.

(** A wrapper is unlinked and freed. *)
Lemma unlink_free (l : loop) l1 ac l2 : conns_rep (globals l) (l1 ++ ac :: l2) ->
  exists l', unlink_conn l ac = Done l' /\ beside l l' /\
    let g := (globals l') <| g_api_conns := delete ac (g_api_conns (globals l')) |> in
    conns_rep g (l1 ++ l2) /\ (forall x v, g_api_conns g !! x = Some v -> exists v0, g_api_conns (globals l) !! x = Some v0 /\ data v0 = data v) /\
    (forall x v0, x <> ac -> g_api_conns (globals l) !! x = Some v0 -> exists v, g_api_conns g !! x = Some v /\ data v0 = data v).
Proof.
  intros [Hrep Hall]. unfold unlink_conn, api_conn_unlink. destruct (dl_unlink_spec _ _ _ _ _ Hrep) as (h & hd & -> & [Hs Hnd] & Hd). cbn [obind].
  eexists. split; [done |]. split; [done |]. cbv zeta. set (l' := set_globals l _). change (g_api_conns (globals l')) with h.
  assert (NoDup (l1 ++ ac :: l2)) as Hn0 by apply Hrep. rewrite <- Permutation_middle in Hn0. apply list.NoDup_cons in Hn0 as [Hac _].
  split; [split; [split; [| done] |] | split].
  - eapply dl_seg_frame; [exact Hs |]. intros x Hx. apply lookup_delete_ne. by intros ->.
  - intros x [v Hx]. change (delete ac h !! x = Some v) in Hx. apply lookup_delete_Some in Hx as [Hne Hx]. specialize (Hall x).
    assert (is_Some (g_api_conns (globals l) !! x)) as Hin%Hall by (apply (same_data_some _ _ x Hd); by exists v).
    apply elem_of_app in Hin as [? | [-> | ?]%elem_of_cons]; apply elem_of_app; [by left | done | by right].
  - intros x v Hx. change (delete ac h !! x = Some v) in Hx. apply lookup_delete_Some in Hx as [Hne Hx]. specialize (Hd x). rewrite Hx in Hd.
    destruct (g_api_conns (globals l) !! x) as [v0 |] eqn:Hv0; [| done]. exists v0. split; [done |]. cbn [fmap option_fmap option_map] in Hd. congruence.
  - intros x v0 Hne Hx. specialize (Hd x). rewrite Hx in Hd. destruct (h !! x) as [v |] eqn:Hv; [| done]. exists v. split; [by apply lookup_delete_Some |].
    cbn [fmap option_fmap option_map] in Hd. congruence.
Qed.

Lemma tells_same P ln g g' : tells P ln g -> (forall x v, g_api_conns g' !! x = Some v -> exists v0, g_api_conns g !! x = Some v0 /\ data v0 = data v) -> tells P ln g'.
Proof. intros Ht Hd x v Hx. destruct (Hd x v Hx) as (v0 & Hv0 & [<- <-]%conn_data). by apply Ht. Qed.

Definition first_ptr (l : list Z) : option Z := match l with [] => None | x :: _ => Some x end.

Lemma dl_seg_head {V} `{Linked V} (h : gmap Z V) prev p l : dl_seg h prev p l None -> p = first_ptr l.
Proof. destruct l; [done |]. by intros [-> _]. Qed.

Lemma drop_ok P ln l2 : forall n l1 (l : loop) s rest, os_ok s -> os_held s ≡ₚ List.filter P l2 ++ rest -> conns_rep (globals l) (l1 ++ l2) -> tells P ln (globals l) ->
  (length l2 <= n)%nat -> wp (drop_wrappers n ln (first_ptr l2) l) (fun l' s' => os_ok s' /\ os_held s' ≡ₚ rest /\ beside l l' /\
    conns_rep (globals l') (l1 ++ List.filter (fun x => negb (P x)) l2) /\ tells P ln (globals l')) s.
Proof.
  induction l2 as [| ac l2 IH]; intros n l1 l s rest Hs Hh Hrep Htell Hn.
  { assert (drop_wrappers n ln (first_ptr []) l = mret l) as -> by by destruct n. by apply wp_ret. }
  destruct n as [| n]; [cbn in Hn; lia |]. cbn [drop_wrappers first_ptr].
  assert (exists v, wrappers (sv_api (el_server l)) !! ac = Some v /\ ac_next v = first_ptr l2) as (v & Hv & Hnext).
  { destruct Hrep as [[Hseg _] _]. apply dl_seg_app in Hseg as (mid & _ & -> & v & Hv & _ & Hrest). exists v. split; [exact Hv |]. by apply dl_seg_head in Hrest. }
  apply wp_bind. eapply (wp_lift _ v); [by apply get_ac_some |]. rewrite Hnext. destruct (Htell ac v Hv) as [HP Htm]. cbn [List.filter] in Hh |- *. rewrite <- HP.
  destruct (P ac) eqn:HPac; cbn [negb].
  - destruct (unlink_free l l1 ac l2 Hrep) as (l3 & Hu & Hb & Hrep3 & Hd3 & _). apply wp_bind, wp_bind. eapply (wp_lift _ l3); [done |]. rewrite Htm by done.
    apply wp_bind. eapply (wp_lift _ l3); [done |]. unfold free_wrapper. apply wp_bind. eapply wp_release; [done | exact Hh |]. intros s1 Hs1 Hh1. apply wp_ret.
    eapply wp_mono; [apply (IH n l1); [done | exact Hh1 | exact Hrep3 | exact (tells_same P ln _ _ Htell Hd3) | cbn in Hn; lia] |].
    intros l4 s4 (? & ? & Hb4 & ? & ?). split; [done |]. split; [done |]. split; [| done]. eapply beside_trans; [exact Hb | exact Hb4].
  - apply wp_bind, wp_ret. replace (l1 ++ ac :: l2) with ((l1 ++ [ac]) ++ l2) in Hrep by by rewrite <- app_assoc.
    eapply wp_mono; [apply (IH n (l1 ++ [ac])); [done | exact Hh | exact Hrep | done | cbn in Hn; lia] |]. intros l4 s4. by rewrite <- app_assoc.
Qed.

(** A listener [v] at [ln] with its transport, its socket and the engine's listener. *)
Record listening (l : loop) (ln : Z) (v : nxp_listener) (t : nxp_transport) (tl : nxp_transport_listener) (sock : nxp_socket) (ls : nxp_listener_s (S := S)) : Prop := Listening {
  li_listener : listeners (el_server l) !! ln = Some v;
  li_list : exists lns, dl_rep (g_api_listeners (globals l)) (g_listeners (globals l)) lns /\ ln ∈ lns;
  li_timer x : ln_timer v = Some x -> is_Some (el_heap l !! x);
  li_epoll : ep_inv (el_epoll l);
  li_engine : sv_engines (el_server l) !! ln_ls v = Some ls;
  li_transport : tr !! ln_transport v = Some t;
  li_socket : nxp_transport_get_socket t = Some sock;
  li_transport_ln : tls !! ln_transport_ln v = Some tl
}.

Lemma listener_data (v w : nxp_listener) : data v = data w -> ln_ls v = ln_ls w /\ ln_transport v = ln_transport w /\ ln_transport_ln v = ln_transport_ln w /\ ln_timer v = ln_timer w.
Proof. destruct v, w. unfold data. cbn. by intros [=]. Qed.

(** The listener leaves the list; its wrapper is still there. *)
Lemma unlink_listener_ok (l : loop) ln v t tl sock ls : listening l ln v t tl sock ls ->
  exists l' v', unlink_listener l ln = Done l' /\ el_heap l' = el_heap l /\ el_epoll l' = el_epoll l /\ sv_engines (el_server l') = sv_engines (el_server l) /\
    g_api_conns (globals l') = g_api_conns (globals l) /\ g_streams (globals l') = g_streams (globals l) /\
    listeners (el_server l') !! ln = Some v' /\ data v = data v'.
Proof.
  intros [Hv (lns & Hrep & (l1 & l2 & ->)%list_elem_of_split) _ _ _ _ _ _]. unfold unlink_listener, listener_unlink.
  destruct (dl_unlink_spec _ _ _ _ _ Hrep) as (h & hd & -> & _ & Hd). cbn [obind]. specialize (Hd ln). unfold listeners in Hv. fold (globals l) in Hv. rewrite Hv in Hd.
  destruct (h !! ln) as [v' |] eqn:Hv'; [| done]. cbn [fmap option_fmap option_map] in Hd.
  eexists _, v'. split; [done |]. repeat (split; [reflexivity |]). split; [exact Hv' | congruence].
Qed.

Lemma cancel_opt_ok (l : loop) x : (forall y, x = Some y -> is_Some (el_heap l !! y)) -> exists l', cancel_opt l x = Done l' /\ el_backend l' = el_backend l.
Proof.
  intros Hx. destruct x as [y |]; [| by exists l]. destruct (Hx y eq_refl) as [tm Ht]. unfold cancel_opt, nxp_event_loop_cancel_timer. rewrite Ht. eexists. by split.
Qed.

(** The timers are as they were. *)
Definition same_loop (l l' : loop) : Prop := forall bag held, loop_rep l bag held -> loop_rep l' bag held.

Lemma close_transport_ok (l : loop) x t sock s rest : tr !! x = Some t -> nxp_transport_get_socket t = Some sock -> ep_inv (el_epoll l) -> os_ok s ->
  os_held s ≡ₚ transport_tokens t ++ rest ->
  wp (close_transport l x) (fun l' s' => os_ok s' /\ os_held s' ≡ₚ rest /\ el_server l' = el_server l /\ same_loop l l' /\ registered (el_epoll l') (so_fd sock) = None) s.
Proof.
  intros Ht Hsock He Hs Hh. unfold close_transport. rewrite Ht, Hsock. destruct (del_spec (el_epoll l) sock He) as (e & Hdel & _ & _ & Hu).
  assert (registered e (so_fd sock) = None) as Hreg.
  { destruct (registered (el_epoll l) (so_fd sock)) eqn:Hr; [| by subst e]. specialize (Hu (so_fd sock)). rewrite decide_True in Hu by done. unfold view in Hu. by injection Hu. }
  apply wp_bind. eapply (wp_lift _ e); [done |]. apply wp_bind. eapply wp_mono; [by eapply (wp_close transport_tokens _ t _ _ (transport_close_all t)) |].
  intros [] s1 [Hs1 Hh1]. apply wp_ret. split; [done |]. split; [done |]. split; [done |]. split; [by intros bag held [] | done].
Qed.

Lemma destroy_conns_ok ps : forall (l : loop) s rest, os_ok s -> os_held s ≡ₚ ps ++ rest ->
  wp (destroy_conns l ps) (fun l' s' => os_ok s' /\ os_held s' ≡ₚ rest /\ sv_engines (el_server l') = sv_engines (el_server l) /\ globals l' = globals l /\ el_epoll l' = el_epoll l /\ same_loop l l') s.
Proof.
  induction ps as [| p ps IH]; intros l s rest Hs Hh; cbn [destroy_conns]; [apply wp_ret; repeat (split; [done |]); by intros bag held Hl |]. apply wp_bind. unfold destroy_conn. apply wp_bind.
  eapply wp_release; [done | exact Hh |]. intros s1 Hs1 Hh1. apply wp_ret. eapply wp_mono; [by apply IH |].
  intros l' s' (? & ? & ? & ? & ? & Hsl). repeat (split; [done |]). intros bag held Hl. apply Hsl. by destruct Hl.
Qed.

Lemma listener_destroy_ok (l : loop) p ls s rest : sv_engines (el_server l) !! p = Some ls -> os_ok s -> os_held s ≡ₚ pointers ls ++ p :: rest ->
  wp (nxp_listener_destroy l p) (fun l' s' => os_ok s' /\ os_held s' ≡ₚ rest /\ globals l' = globals l /\ el_epoll l' = el_epoll l /\ same_loop l l') s.
Proof.
  intros Hls Hs Hh. unfold nxp_listener_destroy. rewrite Hls. apply wp_bind. eapply wp_mono; [by eapply destroy_conns_ok |].
  intros l1 s1 (Hs1 & Hh1 & _ & Hg & He & Hsl). apply wp_bind. eapply wp_release; [done | exact Hh1 |]. intros s2 Hs2 Hh2. apply wp_ret.
  repeat (split; [done |]). intros bag held Hl. specialize (Hsl bag held Hl). by destruct Hsl.
Qed.

(** What closing a listener does not give back: the wrappers of streams, and the
    buckets of the rate limiter. *)
Definition leaked (l : loop) (ls : nxp_listener_s (S := S)) : list Z :=
  (map_to_list (g_streams (globals l))).*1 ++
  match ls_rate_limiter ls with Some rl => (map_to_list (RateLimit.heap rl)).*1 | None => [] end.

(** C19: Closing a listener gives back, each once, the wrappers of its connections,
    the connections, the transport, the transport's listener with the socket, the
    engine's listener and the listener itself; no wrapper of a connection remains, and
    its socket is no longer watched.  It does not give back the wrappers of the
    streams of its connections nor the buckets of its rate limiter: these stay
    allocated. *)
Theorem listener_close_frees (l : loop) ln v t tl sock ls P lst s rest : listening l ln v t tl sock ls -> conns_rep (globals l) lst -> tells P ln (globals l) -> os_ok s ->
  os_held s ≡ₚ List.filter P lst ++ transport_tokens t ++ listener_tokens tl ++ pointers ls ++ ln_ls v :: ln :: leaked l ls ++ rest ->
  wp (nxp_listener_close l ln) (fun l' s' => os_held s' ≡ₚ leaked l ls ++ rest /\ g_streams (globals l') = g_streams (globals l) /\
    listeners (el_server l') !! ln = None /\ registered (el_epoll l') (so_fd sock) = None /\
    forall ac w, g_api_conns (globals l') !! ac = Some w -> ac_parent_listener w <> Some ln) s.
Proof.
  intros Hli Hrep Htell Hs Hh. unfold nxp_listener_close. assert (g_conns (globals l) = first_ptr lst) as Hhead by apply (dl_seg_head _ _ _ _ (proj1 (proj1 Hrep))).
  rewrite Hhead. apply wp_bind. eapply wp_mono; [eapply (drop_ok P ln lst _ []); [done | exact Hh | exact Hrep | done | apply (rep_size _ _ _ (proj1 Hrep))] |].
  intros l1 s1 (Hs1 & Hh1 & (Hb1 & Hb2 & Hb3 & Hb4 & Hb5 & Hb6) & Hrep1 & Htell1). cbn [app] in Hrep1.
  assert (listening l1 ln v t tl sock ls) as Hli1.
  { destruct Hli. split; rewrite ?Hb1, ?Hb2, ?Hb3, ?Hb4, ?Hb5; try done. unfold listeners. fold (globals l1). by rewrite Hb4. }
  destruct (unlink_listener_ok _ _ _ _ _ _ _ Hli1) as (l2 & v2 & Hu & Hq1 & Hq2 & Hq3 & Hq4 & Hq5 & Hv2 & (El & Et & Etl & Etm)%listener_data).
  apply wp_bind. eapply (wp_lift _ l2); [done |]. apply wp_bind. eapply (wp_lift _ v2); [unfold get_ln; by rewrite Hv2 |].
  destruct (cancel_opt_ok l2 (ln_timer v2)) as (l3 & Hc & Hbk); [rewrite Hq1, <- Etm; apply Hli1 |].
  assert (el_server l3 = el_server l2 /\ el_epoll l3 = el_epoll l2) as [Hsv3 Hep3] by (unfold el_server, el_epoll; by rewrite Hbk).
  apply wp_bind. eapply (wp_lift _ l3); [done |]. apply wp_bind. eapply wp_mono.
  { eapply (close_transport_ok l3 (ln_transport v2) t sock); [rewrite <- Et; apply Hli1 | apply Hli1 | rewrite Hep3, Hq2; apply Hli1 | done | exact Hh1]. }
  intros l4 s4 (Hs4 & Hh4 & Hsv4 & _ & Hreg4). apply wp_bind. unfold close_transport_listener. rewrite <- Etl, (li_transport_ln _ _ _ _ _ _ _ Hli1).
  eapply wp_mono; [by eapply (wp_close listener_tokens _ tl _ _ (listener_close_all tl)) |]. intros [] s5 [Hs5 Hh5].
  apply wp_bind. eapply wp_mono; [eapply (listener_destroy_ok l4 (ln_ls v2) ls); [rewrite Hsv4, Hsv3, Hq3, <- El; apply Hli1 | done | rewrite <- El; exact Hh5] |].
  intros l6 s6 (Hs6 & Hh6 & Hg6 & He6 & _). unfold free_listener. apply wp_bind. eapply wp_release; [done | exact Hh6 |]. intros s7 _ Hh7. apply wp_ret.
  assert (g_streams (globals l6) = g_streams (globals l)) as Hst6.
  { rewrite Hg6. unfold globals at 1. rewrite Hsv4, Hsv3. fold (globals l2). by rewrite Hq5, Hb6. }
  split; [exact Hh7 |]. split; [exact Hst6 |]. split; [apply lookup_delete_eq |]. split; [change (registered (el_epoll l6) (so_fd sock) = None); by rewrite He6 |].
  intros ac w Hw Hpar. change (g_api_conns (globals l6) !! ac = Some w) in Hw. rewrite Hg6 in Hw. unfold globals in Hw at 1. rewrite Hsv4, Hsv3 in Hw. fold (globals l2) in Hw. rewrite Hq4 in Hw.
  destruct (Htell1 ac w Hw) as [HP _]. rewrite bool_decide_true in HP by done. destruct Hrep1 as [_ Hall]. specialize (Hall ac (ltac:(by exists w))).
  apply list_elem_of_In, filter_In in Hall as [_ Hn]. by rewrite HP in Hn.
Qed.

(** ** Listening *)

(** The new listener of the engine has no connections, and nothing to wait for. *)
Lemma fresh_engine h (limiter : option nxp_rate_limiter) config (ls : nxp_listener_s (S := S)) : nxp_listener_create true limiter (listen_config config) = Some ls ->
  lend h ls = ls /\ pointers ls = [] /\ ls_heap ls = ∅ /\ ls_rate_limiter ls = limiter /\ forall now, nxp_listener_timeout ls now = Done UINT64_MAX.
Proof.
  unfold nxp_listener_create. cbn [negb]. intros [= <-]. assert (forall c, pointers (Listener ∅ (replicate 64 None) 0 64 0 c 0 0 0 limiter ∅ []) = []) as Hp by done.
  split; [| done]. unfold lend. rewrite Hp. assert (filter (fun pc : Z * nxp_conn => pc.1 ∈ ([] : list Z)) h = ∅) as ->; [| done].
  apply map_eq. intros p. rewrite lookup_empty. apply map_lookup_filter_None. right. intros c _. apply not_elem_of_nil.
Qed.

Lemma listen_config_ok config : listener_config_ok (listen_config config).
Proof.
  unfold listener_config_ok, listen_config, NXP_LISTENER_DEFAULT_MAX_CONNS, NXP_DEFAULT_MAX_DATA, NXP_DEFAULT_MAX_STREAM_DATA, NXP_IDLE_TIMEOUT_DEFAULT, NXP_MAX_STREAMS_DEFAULT.
  assert (bytes_ok (zeros NXP_LISTENER_MAX_NODE_ID_LEN)) as Hz by (vm_compute; repeat constructor; discriminate).
  destruct config as [cfg |]; (split; [done |]; split; [exact Hz |]);
    cbn [lc_node_id_len lc_max_connections lc_idle_timeout_us lc_initial_max_data lc_initial_max_stream_data lc_max_streams_bidi lc_max_streams_uni]; [| lia].
  pose proof (u64_range (cg_idle_timeout_ms cfg * 1000)). pose proof (u32_range (cg_max_streams_bidi cfg)). pose proof (u32_range (cg_max_streams_uni cfg)). lia.
Qed.

(** The lists of listeners and the addresses in use. *)
Definition listeners_ok (l : loop) (used : Z -> Prop) : Prop :=
  (exists lns, dl_rep (g_api_listeners (globals l)) (g_listeners (globals l)) lns) /\
  (forall ln, is_Some (g_api_listeners (globals l) !! ln) -> used ln) /\ (forall p, is_Some (sv_engines (el_server l) !! p) -> used p).

(** A new listener with a new engine; the others are as before. *)
Lemma relink_rep (l : loop) bag p ls h' hd : server_rep l bag [] None -> listener_ok (lend (ap_conns (sv_api (el_server l))) ls) ->
  (forall x w, h' !! x = Some w -> (ln_ls w = p /\ ln_timer w = None) \/
    exists w0, listeners (el_server l) !! x = Some w0 /\ ln_ls w0 = ln_ls w /\ ln_timer w0 = ln_timer w) ->
  server_rep (set_server l (Server (sv_api (el_server l) <| ap_global := (globals l) <| g_api_listeners := h' |> <| g_listeners := hd |> |>) (<[p := ls]> (sv_engines (el_server l))))) bag [] None.
Proof.
  intros [Hl [[? ? ? ? ? ? ? ? ?] He Hls] Ht] Hok Hold. split; [by apply set_server_rep | split; [by split | |] |].
  - intros q ls0. change (<[p := ls]> (sv_engines (el_server l)) !! q = Some ls0 -> listener_ok (lend (ap_conns (sv_api (el_server l))) ls0)).
    intros [[<- <-] | [_ Hq]]%lookup_insert_Some; [done | by apply (He q)].
  - intros x w Hx. apply lookup_insert_is_Some. destruct (Hold x w Hx) as [[-> _] | (w0 & Hw0 & <- & _)]; [by left |].
    destruct (decide (p = ln_ls w0)); [by left | right]. split; [done | by apply (Hls x)].
  - intros x w y Hx Hy. destruct (Hold x w Hx) as [[_ Hn] | (w0 & Hw0 & _ & Etw)]; [congruence |]. apply (Ht x w0 y Hw0). congruence.
Qed.

(** The timer of a listener without connections stays off. *)
Lemma rearm_idle (l : loop) bag ln v ls : server_rep l bag [] None -> listeners (el_server l) !! ln = Some v -> ln_timer v = None ->
  sv_engines (el_server l) !! ln_ls v = Some ls -> lend (ap_conns (sv_api (el_server l))) ls = ls -> within ls ->
  (forall now, nxp_listener_timeout ls now = Done UINT64_MAX) ->
  exists l', nxp_api_rearm_listener_timer l ln = Done l' /\ server_rep l' bag [] None /\ el_epoll l' = el_epoll l /\ el_heap l' = el_heap l /\
    globals l' = globals l /\ sv_engines (el_server l') !! ln_ls v = Some ls.
Proof.
  intros Hr Hv Htm Hls Hlend Hwi Hto. unfold nxp_api_rearm_listener_timer, get_ln. rewrite Hv. cbn [obind]. rewrite Htm. cbn [obind]. cbv zeta.
  set (svt := set_sv_api (el_server l) _). set (now := sys_clock _).
  pose proof (on_engine_ok svt (ln_ls v) (fun ls => let! d := nxp_listener_timeout ls now in Done (d, ls)) (fun _ _ => True) (server_tick _ (sr_server _ _ _ _ Hr))) as Hk.
  specialize (Hk ltac:(by exists ls)). unfold on_engine in Hk |- *. change (sv_engines svt) with (sv_engines (el_server l)) in Hk |- *. rewrite Hls in Hk |- *. cbv zeta in Hk |- *.
  change (ap_conns (sv_api svt)) with (ap_conns (sv_api (el_server l))) in Hk |- *. rewrite Hlend in Hk |- *. rewrite bool_decide_true in Hk |- * by exact Hwi.
  rewrite Hto in Hk |- *. cbn [obind safe] in Hk |- *. destruct Hk as (Hs2 & [Hg2 _] & _).
  { intros ls0 _ Hok0 Hw0. eapply safe_impl; [by apply timeout_steps |]. by intros [d ls']. }
  rewrite Z.eqb_refl. match type of Hs2 with server_ok ?x => set (sv2 := x) in * end. eexists. split; [done |].
  split; [apply (server_rep_same l sv2 bag [] None Hr Hs2); by unfold same_lns, listeners; rewrite Hg2 |]. split; [done |]. split; [done |]. split; [done |].
  apply lookup_insert_eq.
Qed.

(** [v] at [ln] is ready, with the engine's listener [ls]. *)
Lemma attach_listener_ok (l : loop) bag limiter config ls ln v used : server_rep l bag [] None -> listeners_ok l used -> ~ used ln ->
  nxp_listener_create true limiter (listen_config config) = Some ls -> match limiter with Some rl => limiter_mem rl /\ st_room (ip_buckets rl) | None => True end ->
  ln_timer v = None ->
  exists l' v', attach_listener l (ln_ls v) ls ln v = Done l' /\ server_rep l' bag [] None /\ el_epoll l' = el_epoll l /\ el_heap l' = el_heap l /\
    g_api_conns (globals l') = g_api_conns (globals l) /\ g_conns (globals l') = g_conns (globals l) /\
    sv_engines (el_server l') !! ln_ls v = Some ls /\ listeners (el_server l') !! ln = Some v' /\ data v' = data v /\
    exists lns, dl_rep (g_api_listeners (globals l')) (g_listeners (globals l')) lns /\ ln ∈ lns.
Proof.
  intros Hr ((lns & [Hseg Hnd]) & Hul & Hup) Hln Hcr Hlim Hvt.
  destruct (fresh_engine (ap_conns (sv_api (el_server l))) limiter config ls Hcr) as (Hlend & Hptr & Hheap & Hrl & Hto).
  assert (g_api_listeners (globals l) !! ln = None) as Hnone by (apply eq_None_not_Some; intros ?%Hul; done).
  set (h := <[ln := v]> (g_api_listeners (globals l))). assert (ln ∉ lns) as Hnin by (intros Hx; destruct (dl_seg_some _ _ _ _ _ _ Hseg Hx); congruence).
  assert (dl_rep h (g_listeners (globals l)) lns) as Hrep by (split; [eapply dl_seg_frame; [exact Hseg |]; intros x Hx; apply lookup_insert_ne; by intros <- | done]).
  destruct (dl_link_spec h (g_listeners (globals l)) lns ln Hrep) as (h' & Hlink & Hrep' & Hd); [unfold h; rewrite lookup_insert_eq; by eexists | done |].
  unfold attach_listener, listener_link. cbv zeta. fold h. change (g_api_listeners (globals l <| g_api_listeners := h |>)) with h.
  change (g_listeners (globals l <| g_api_listeners := h |>)) with (g_listeners (globals l)). rewrite Hlink. cbn [obind].
  assert (exists v', h' !! ln = Some v' /\ data v' = data v) as (v' & Hv' & Hdv).
  { specialize (Hd ln). unfold h in Hd. rewrite lookup_insert_eq in Hd. destruct (h' !! ln) as [v' |]; [| done]. exists v'. split; [done |]. cbn [fmap option_fmap option_map] in Hd. congruence. }
  destruct (listener_data _ _ Hdv) as (Els & _ & _ & Etm). rewrite Hvt in Etm.
  pose proof (relink_rep l bag (ln_ls v) ls h' (Some ln) Hr) as Hr1. set (l1 := set_server l _) in Hr1.
  destruct (rearm_idle l1 bag ln v' ls) as (l' & Hre & Hr' & Hq1 & Hq2 & Hq3 & Hq4); [| done | done | rewrite Els; apply lookup_insert_eq | exact Hlend | | exact Hto |].
  - apply Hr1.
    + rewrite Hlend. eapply created_listener_ok; [apply (listen_config_ok config) | | exact Hcr]. by destruct limiter; [apply Hlim |].
    + intros x w Hx. destruct (decide (x = ln)) as [-> | Hne]; [left; by replace w with v' by congruence |]. right. specialize (Hd x). unfold h in Hd.
      rewrite Hx, lookup_insert_ne in Hd by done. destruct (g_api_listeners (globals l) !! x) as [w0 |] eqn:Hw0; [| done]. exists w0.
      cbn [fmap option_fmap option_map] in Hd. assert (data w0 = data w) as (? & _ & _ & ?)%listener_data by congruence. done.
  - split; [unfold limiter_room; rewrite Hrl; destruct limiter; [apply Hlim | done] | rewrite Hheap; apply map_Forall_empty].
  - exists l', v'. split; [exact Hre |]. split; [done |]. split; [done |]. split; [done |]. rewrite Hq3. split; [done |]. split; [done |].
    split; [by rewrite <- Els |]. split; [unfold listeners; fold (globals l'); by rewrite Hq3 |]. split; [done |]. exists (ln :: lns). split; [exact Hrep' | left].
Qed.

(** The descriptor of the socket is a non-negative [int]. *)
Definition listen_fd_ok (url : list Z) (s : os) : Prop := forall ln s1 tl s2, acquire (grant AListenerWrapper) s = Done (Some ln, s1) ->
  nxp_transport_listen (registered_transports ok hs_len) (Some url) s1 = Done (inr tl, s2) -> match tl with LUdp _ _ sock _ _ => fd_ok sock | LTcp _ _ _ _ _ _ => True end.

(** A failure gives everything back and changes nothing that can be seen; a success
    holds the listener, the engine's listener and both transports, and the socket is
    watched for the listener. *)
Definition listened (held : list Z) (bag : list (Z * Z)) (l : loop) (r : nxp_error_code + Z * nxp_transport * nxp_transport_listener) (l' : loop) (s' : os) : Prop :=
  os_ok s' /\ server_rep l' bag [] None /\
  match r with
  | inl _ => os_held s' ≡ₚ held /\ el_server l' = el_server l /\ forall fd, view (el_epoll l') fd = view (el_epoll l) fd
  | inr (ln, t, tl) => exists v sock ls src, os_held s' ≡ₚ transport_tokens t ++ listener_tokens tl ++ ln_ls v :: ln :: held /\ pointers ls = [] /\
      registered (el_epoll l') (so_fd sock) = Some src /\ es_user_data src = ln /\ es_cb src = on_listener_event_cb /\
      (tr !! transport_ptr t = Some t -> tls !! transport_ln_ptr tl = Some tl -> listening l' ln v t tl sock ls)
  end.

Lemma set_epoll_server_rep (l : loop) bag e : server_rep l bag [] None -> server_rep (set_server_epoll l e) bag [] None.
Proof. intros [[? ? ? ? ?] Hs Ht]. split; [by split | exact Hs | exact Ht]. Qed.

(** Giving back the transports and the wrapper. *)
Lemma listen_fail (l l' : loop) bag held ln t tl e s : server_rep l' bag [] None -> el_server l' = el_server l -> (forall fd, view (el_epoll l') fd = view (el_epoll l) fd) ->
  os_ok s -> os_held s ≡ₚ transport_tokens t ++ listener_tokens tl ++ ln :: held ->
  wp (_ ← transport_close t; _ ← listener_close tl; _ ← release ln; mret (inl e, l')) (fun '(r, l') s' => listened held bag l r l' s') s.
Proof.
  intros Hr Hsv Hv Hs Hh. apply wp_bind. eapply wp_mono; [by eapply (wp_close transport_tokens _ t _ _ (transport_close_all t)) |]. intros [] s1 [Hs1 Hh1].
  apply wp_bind. eapply wp_mono; [by eapply (wp_close listener_tokens _ tl _ _ (listener_close_all tl)) |]. intros [] s2 [Hs2 Hh2].
  apply wp_bind. eapply wp_release; [done | exact Hh2 |]. intros s3 Hs3 Hh3. apply wp_ret. by split.
Qed.

(** From the transport on. *)
Lemma listen_rest (l : loop) bag limiter config ln t tl sock on_new ud s held : server_rep l bag [] None -> listeners_ok l (fun x => x ∈ held) -> ep_inv (el_epoll l) ->
  match limiter with Some rl => limiter_mem rl /\ st_room (ip_buckets rl) | None => True end -> nxp_transport_get_socket t = Some sock -> fd_ok sock ->
  os_ok s -> os_held s ≡ₚ transport_tokens t ++ listener_tokens tl ++ ln :: held -> ln ∉ held ->
  wp (p ← acquire (grant AListener);
      match p, nxp_listener_create (grant AListener) limiter (listen_config config) with
      | Some p, Some ls =>
          re ← lift (epoll_add_socket (grant ASources) (grant AEpollCtl) (el_epoll l) (nxp_transport_get_socket t) NXP_EVENT_READ on_listener_event_cb ln);
          match re : option nxp_error_code * nxp_epoll_loop with
          | (Some e, ep) => _ ← release p; _ ← transport_close t; _ ← listener_close tl; _ ← release ln; mret (inl e, set_server_epoll l ep)
          | (None, ep) =>
              l ← lift (attach_listener (set_server_epoll l ep) p ls ln (ApiListener p (transport_ptr t) (transport_ln_ptr tl) None on_new ud None None));
              mret (inr (ln, t, tl), l)
          end
      | _, _ => _ ← transport_close t; _ ← listener_close tl; _ ← release ln; mret (inl NXP_ERR_OUT_OF_MEMORY, l)
      end) (fun '(r, l') s' => listened held bag l r l' s') s.
Proof.
  intros Hr Hlo Hep Hlim Hsock Hfd Hs Hh Hln. apply wp_bind. apply wp_acquire; [done | | intros _; by apply listen_fail].
  intros Hg p s1 Hs1 Hh1 Hp. rewrite Hg. destruct (nxp_listener_create true limiter (listen_config config)) as [ls |] eqn:Hcr; [| done].
  assert (os_held s1 ≡ₚ p :: transport_tokens t ++ listener_tokens tl ++ ln :: held) as Hh1' by (by rewrite Hh1, Hh).
  rewrite Hsock. apply wp_bind. destruct (add_spec (grant ASources) (grant AEpollCtl) (el_epoll l) sock NXP_EVENT_READ on_listener_event_cb ln Hep Hfd) as (r & ep & Hadd & Hep' & _ & Hres).
  eapply (wp_lift _ (r, ep)); [exact Hadd |]. pose proof (set_epoll_server_rep l bag ep Hr) as Hr1. destruct r as [e |].
  - destruct Hres as [_ Hview]. apply wp_bind. eapply wp_release; [done | exact Hh1' |]. intros s2 Hs2 Hh2. by apply listen_fail.
  - set (v := ApiListener p _ _ None on_new ud None None). destruct (attach_listener_ok (set_server_epoll l ep) bag limiter config ls ln v (fun x => x ∈ held)) as (l' & v' & Ha & Hr' & He' & Hhp & _ & _ & Hen & Hv' & Hd & Hlns); try done.
    apply wp_bind. eapply (wp_lift _ l'); [exact Ha |]. apply wp_ret. split; [done |]. split; [done |].
    destruct (listener_data _ _ Hd) as (Els & Et & Etl & Etm). change (el_epoll (set_server_epoll l ep)) with ep in He'.
    specialize (Hres (so_fd sock)). rewrite decide_True in Hres by done. unfold view in Hres. injection Hres as Hreg _.
    eexists v', sock, ls, _. rewrite Els, He'. split; [rewrite Hh1'; cbn [ln_ls v]; solve_Permutation |]. split; [by apply (fresh_engine ∅ limiter config ls Hcr) |].
    split; [exact Hreg |]. split; [done |]. split; [done |]. intros Htr Htl.
    split; [done | done | rewrite Etm; done | by rewrite He' | by rewrite Els | by rewrite Et | done | by rewrite Etl].
Qed.

Lemma from_listener_socket a b sock c d : ensures (fun y => match y with Some t => nxp_transport_get_socket t = Some sock | None => True end)
  (nxp_udp_transport_from_listener ok (LUdp a b sock c d)).
Proof. unfold nxp_udp_transport_from_listener. repeat first [apply ensures_bind; intros ? | by apply ensures_ret | case_match]. Qed.

(** C18: [nxp_listen] neither leaks nor leaves anything half done: whatever the system
    refuses, a failure gives back every descriptor and allocation and changes nothing
    that can be seen; a success holds exactly the listener, the engine's listener and
    both transports over one socket, which is watched with that listener as user data,
    has no connection and no timer yet, and keeps the invariant of the server. *)
Theorem listen_no_leak (l : loop) bag limiter config host port on_new ud s : server_rep l bag [] None -> listeners_ok l (fun x => x ∈ os_held s) -> ep_inv (el_epoll l) ->
  match limiter with Some rl => limiter_mem rl /\ st_room (ip_buckets rl) | None => True end -> host_ok host -> 0 <= port < 65536 -> os_ok s ->
  listen_fd_ok (api_url host port) s ->
  wp (nxp_listen l limiter config host port on_new ud) (fun '(r, l') s' => listened (os_held s) bag l r l' s') s.
Proof.
  intros Hr Hlo Hep Hlim Hh Hp Hs Hfd. destruct (url_roundtrip host port [] Hh Hp) as (Hty & _ & Hu & _). unfold nxp_listen, listen_over.
  assert (forall s, nxp_transport_listen (registered_transports ok hs_len) (Some (api_url host port)) s = udp_listen_impl ok (api_url host port) s) as El.
  { intros s'. unfold nxp_transport_listen, mbind, io_bind, lift. cbn [g_initialized registered_transports nxp_transport_init negb]. by rewrite Hty. }
  apply wp_bind. pose proof (wp_acquire (grant AListenerWrapper) (fun r s' => os_ok s' /\ match r with Some x => os_held s' = x :: os_held s /\ x ∉ os_held s | None => s' = s end) s Hs
    (fun _ r s' Hs' Hh' Hr' => conj Hs' (conj Hh' Hr')) (fun _ => conj Hs eq_refl)) as Ha. unfold listen_fd_ok in Hfd. unfold wp in Ha |- * at 1.
  destruct (acquire (grant AListenerWrapper) s) as [[[ln |] s1] | |]; [| destruct Ha as [_ ->]; by apply wp_ret | done | done].
  destruct Ha as [Hs1 [Hh1 Hln]]. specialize (Hfd ln s1). rewrite El in Hfd. apply wp_bind.
  pose proof (udp_listen_kind ok (api_url host port) s1) as Hkind. pose proof (udp_listen_acquires ok (api_url host port) _ Hu s1 (ln :: os_held s) Hs1 ltac:(by rewrite Hh1)) as Hacq.
  unfold wp in Hacq |- * at 1. rewrite El. destruct (udp_listen_impl ok (api_url host port) s1) as [[[e | tl] s2] | |]; [| | done | done]; destruct Hacq as [Hs2 Hh2]; cbn [sum_tokens app] in Hh2.
  { apply wp_bind. eapply wp_release; [done | exact Hh2 |]. intros s3 Hs3 Hh3. apply wp_ret. by split. }
  destruct tl as [a b sock c d |]; [| done]. specialize (Hfd _ s2 eq_refl eq_refl). cbn in Hfd. apply wp_bind.
  pose proof (from_listener_acquires ok (LUdp a b sock c d) I s2 _ Hs2 Hh2) as Hacq. pose proof (from_listener_socket a b sock c d s2) as Hfrom.
  unfold wp in Hacq |- * at 1. destruct (nxp_udp_transport_from_listener ok _ s2) as [[[t |] s3] | |]; [| | done | done]; destruct Hacq as [Hs3 Hh3]; cbn [option_tokens app] in Hh3.
  - eapply listen_rest; [done | exact Hlo | done | done | exact Hfrom | done | done | exact Hh3 | done].
  - apply wp_bind. eapply wp_mono; [by eapply (wp_close listener_tokens _ _ _ _ (listener_close_all _)) |]. intros [] s4 [Hs4 Hh4].
    apply wp_bind. eapply wp_release; [done | exact Hh4 |]. intros s5 Hs5 Hh5. apply wp_ret. by split.
Qed.

(** ** Shutting down *)

(** Shutting down leaks the socket of every listener: [nxp_shutdown] closes the
    transport, which does not own the socket, and never the transport's listener,
    which does; everything else of a listener without connections is given back,
    the event loop included. *)
Theorem shutdown_leaks_listener (l : loop) bag handles ln v t tl sock ls s rest : listening l ln v t tl sock ls -> loop_rep l bag [] ->
  g_conns (globals l) = None -> dl_rep (g_api_listeners (globals l)) (g_listeners (globals l)) [ln] -> pointers ls = [] -> ln_timer v = None -> os_ok s ->
  os_held s ≡ₚ transport_tokens t ++ ln_ls v :: ln :: handle_tokens handles ++ listener_tokens tl ++ rest ->
  wp (nxp_shutdown handles l) (fun _ s' => os_held s' ≡ₚ listener_tokens tl ++ rest) s.
Proof.
  intros [Hv _ _ Hep Hen Htr Hsock _] Hl Hgc Hrep Hpt Htm Hs Hh. unfold nxp_shutdown. apply wp_bind.
  assert (close_conns (size (g_api_conns (globals l))) l = mret l) as -> by (destruct (size _); cbn [close_conns]; by rewrite Hgc). apply wp_ret. apply wp_bind.
  unfold listeners in Hv. fold (globals l) in Hv. assert (exists n, size (g_api_listeners (globals l)) = Datatypes.S n) as [n ->].
  { destruct (size _) as [| n] eqn:Hsz; [| by exists n]. apply map_size_empty_inv in Hsz. rewrite Hsz, lookup_empty in Hv. done. }
  assert (g_listeners (globals l) = Some ln) as Hgl by apply (dl_seg_head _ _ _ _ (proj1 Hrep)). cbn [close_listeners]. rewrite Hgl.
  apply wp_bind. eapply (wp_lift _ v); [unfold get_ln, listeners; fold (globals l); by rewrite Hv |]. unfold unlink_listener, listener_unlink.
  destruct (dl_unlink_spec _ _ [] ln [] Hrep) as (h & hd & -> & [Hnil _] & _). cbn in Hnil. subst hd. apply wp_bind. eapply wp_lift; [done |]. rewrite Htm.
  apply wp_bind. eapply wp_lift; [done |]. set (l1 := set_globals l _). apply wp_bind. eapply wp_mono; [by eapply (close_transport_ok l1) |].
  intros l2 s2 (Hs2 & Hh2 & Hsv & Hsl2 & _). apply wp_bind. eapply wp_mono; [eapply (listener_destroy_ok l2 (ln_ls v) ls); [by rewrite Hsv | done | rewrite Hpt; exact Hh2] |].
  intros l3 s3 (Hs3 & Hh3 & Hg3 & _ & Hsl3). unfold free_listener. apply wp_bind, wp_bind. eapply wp_release; [done | exact Hh3 |]. intros s4 Hs4 Hh4. apply wp_ret.
  set (l4 := set_globals l3 _). assert (close_listeners n l4 = mret l4) as ->.
  { assert (g_listeners (globals l4) = None) as Hn by (change (g_listeners (globals l3) = None); rewrite Hg3; unfold globals; by rewrite Hsv). destruct n; cbn [close_listeners]; by rewrite Hn. }
  apply wp_ret. unfold nxp_event_loop_destroy. assert (loop_rep l4 bag []) as Hl4 by (assert (loop_rep l1 bag []) as Hl1 by (by destruct Hl); by destruct (Hsl3 _ _ (Hsl2 _ _ Hl1))).
  destruct (cleanup_frees (Datatypes.S (size (el_heap l4))) l4 bag Hl4) as (l5 & Hcl & _); [pose proof (bag_size _ _ _ Hl4); lia |].
  apply wp_bind. eapply (wp_lift _ l5); [exact Hcl |]. eapply wp_mono; [by eapply (loop_destroy_all handles) |]. by intros [] s5 [_ ?].
Qed.

(** What is not held any more stays so. *)
Definition shrinks (s s' : os) : Prop := os_ok s' /\ forall x, x ∈ os_held s' -> x ∈ os_held s.

Lemma io_done {A B} (m : io A) (k : A -> io B) s r : (m ≫= k) s = Done r -> exists a s1, m s = Done (a, s1) /\ k a s1 = Done r.
Proof. change ((m ≫= k) s) with (obind (m s) (fun '(a, s) => k a s)). destruct (m s) as [[a s1] | |]; [| done | done]. intros Hk. by exists a, s1. Qed.
Lemma lift_done {A} (m : outcome unit A) s r : lift m s = Done r -> m = Done r.1 /\ r.2 = s.
Proof. unfold lift. destruct m; [| done | done]. by intros [= <-]. Qed.

Lemma release_done x s u s' : os_ok s -> release x s = Done (u, s') -> shrinks s s' /\ x ∈ os_held s /\ x ∉ os_held s'.
Proof.
  intros Hs Hr. destruct (decide (x ∈ os_held s)) as [Hx | Hx].
  - destruct (remove_token_perm x (os_held s) Hx) as (rest & _ & Hp). pose proof (wp_release x rest (fun _ s' => os_ok s' /\ os_held s' ≡ₚ rest) s Hs Hp (fun s' H1 H2 => conj H1 H2)) as Hw.
    unfold wp in Hw. rewrite Hr in Hw. destruct Hw as [Hs' Hp']. split; [split; [done |] |]; [intros y Hy; rewrite Hp; right; by rewrite <- Hp' |]. split; [done |].
    destruct Hs as [Hn _]. rewrite Hp in Hn. apply list.NoDup_cons in Hn as [Hn _]. by rewrite Hp'.
  - exfalso. unfold release in Hr. assert (remove_token x (os_held s) = None) as Hn; [| by rewrite Hn in Hr]. clear Hr Hs. induction (os_held s) as [| y l IH]; [done |]. cbn [remove_token].
    destruct (Z.eqb_spec y x) as [-> | _]; [exfalso; apply Hx; left |]. rewrite IH; [done |]. intros ?. apply Hx. by right.
Qed.
Lemma shrinks_trans s1 s2 s3 : shrinks s1 s2 -> shrinks s2 s3 -> shrinks s1 s3.
Proof. intros [_ H12] [Hok H23]. split; [done |]. auto. Qed.
Lemma release_all_done l : forall s u s', os_ok s -> release_all l s = Done (u, s') -> shrinks s s'.
Proof.
  induction l as [| x l IH]; intros s u s' Hs Hr; cbn [release_all] in Hr; [injection Hr as _ <-; by split |].
  apply io_done in Hr as ([] & s1 & Hx & Hr). apply release_done in Hx as [Hx _]; [| done]. eapply shrinks_trans; [exact Hx |]. eapply IH; [apply Hx | exact Hr].
Qed.
Lemma close_transport_done (l : loop) x s l' s' : os_ok s -> close_transport l x s = Done (l', s') -> shrinks s s' /\ el_server l' = el_server l.
Proof.
  intros Hs Hr. unfold close_transport in Hr. destruct (tr !! x) as [t |]; [| done]. apply io_done in Hr as (ep & s1 & [_ Hs1]%lift_done & Hr). cbn in Hs1. subst s1.
  apply io_done in Hr as ([] & s2 & Ht & Hr). injection Hr as <- <-. rewrite transport_close_all in Ht. split; [| done]. by eapply release_all_done.
Qed.

Lemma cancel_opt_done (l : loop) x l' : cancel_opt l x = Done l' -> el_backend l' = el_backend l.
Proof. destruct x as [y |]; cbn [cancel_opt nxp_event_loop_cancel_timer]; [destruct (el_heap l !! y); [| done] |]; by intros [= <-]. Qed.

(** Closing the connections gives back each of them. *)
Lemma close_conns_done lst : forall n (l : loop) s l' s', os_ok s -> conns_rep (globals l) lst -> close_conns n l s = Done (l', s') ->
  shrinks s s' /\ sv_engines (el_server l') = sv_engines (el_server l) /\ g_api_listeners (globals l') = g_api_listeners (globals l) /\
  g_listeners (globals l') = g_listeners (globals l) /\ forall ac v, g_api_conns (globals l) !! ac = Some v -> ac_conn v ∉ os_held s'.
Proof.
  induction lst as [| ac lst IH]; intros n l s l' s' Hs Hrep Hr; assert (g_conns (globals l) = first_ptr _) as Hgc by apply (dl_seg_head _ _ _ _ (proj1 (proj1 Hrep))).
  { destruct n; cbn [close_conns] in Hr; rewrite Hgc in Hr; injection Hr as <- <-; (split; [by split |]); (repeat (split; [done |])); intros ac v Hv; destruct Hrep as [_ Hall];
      by destruct (not_elem_of_nil ac (Hall ac ltac:(by exists v))). }
  destruct n as [| n]; cbn [close_conns] in Hr; rewrite Hgc in Hr; [done |]. cbn [first_ptr] in Hr.
  apply io_done in Hr as (w & s0 & [Hw Hs0]%lift_done & Hr). cbn in Hw, Hs0. subst s0. destruct (unlink_free l [] ac lst Hrep) as (l1 & Hu & (_ & _ & Hb1 & Hb2 & Hb3 & _) & Hrep1 & _ & Hd1).
  apply io_done in Hr as (l1' & s0 & [Hl1 Hs0]%lift_done & Hr). cbn in Hl1, Hs0. subst s0. rewrite Hu in Hl1. injection Hl1 as <-.
  apply io_done in Hr as (l2 & s0 & [Hl2 Hs0]%lift_done & Hr). cbn in Hl2, Hs0. subst s0. apply cancel_opt_done in Hl2. assert (el_server l2 = el_server l1) as Hsv2 by (unfold el_server; by rewrite Hl2).
  apply io_done in Hr as (l3 & s3 & Ht & Hr). assert (shrinks s s3 /\ el_server l3 = el_server l2) as [Hsh3 Hsv3].
  { destruct (ac_owns_transport w); [by eapply close_transport_done | injection Ht as <- <-; by split]. }
  unfold destroy_conn, free_wrapper in Hr. apply io_done in Hr as (l4 & s4 & Hd4 & Hr). apply io_done in Hd4 as ([] & s4' & Hrel & Hd4). injection Hd4 as <- <-.
  apply release_done in Hrel as (Hsh4 & _ & Hgone); [| apply Hsh3]. apply io_done in Hr as (l5 & s5 & Hd5 & Hr). apply io_done in Hd5 as ([] & s5' & Hrel & Hd5). injection Hd5 as <- <-.
  apply release_done in Hrel as (Hsh5 & _); [| apply Hsh4]. set (l5 := set_globals _ _) in Hr.
  assert (globals l5 = (globals l1) <| g_api_conns := delete ac (g_api_conns (globals l1)) |>) as Hg5 by (unfold l5, globals; cbn; by rewrite Hsv3, Hsv2).
  apply (IH n l5) in Hr as (Hsh & Hq1 & Hq2 & Hq3 & Hq4); [| apply Hsh5 | rewrite Hg5; exact Hrep1].
  assert (sv_engines (el_server l5) = sv_engines (el_server l1)) as He5 by (unfold l5; cbn; by rewrite Hsv3, Hsv2). rewrite Hg5 in Hq2, Hq3, Hq4.
  split; [by eapply shrinks_trans, shrinks_trans, shrinks_trans |]. split; [by rewrite Hq1, He5 |]. split; [by rewrite Hq2 |]. split; [by rewrite Hq3 |]. intros x v Hx.
  destruct (decide (x = ac)) as [-> | Hne].
  - unfold get_ac, wrappers in Hw. fold (globals l) in Hw. rewrite Hx in Hw. injection Hw as <-. intros Hin. apply Hgone, Hsh5, Hsh, Hin.
  - destruct (Hd1 x v Hne Hx) as (v1 & Hv1 & (-> & _)%data_fields). by apply (Hq4 x).
Qed.

Lemma destroy_conns_gone p ps : forall (l : loop) s r, os_ok s -> p ∈ ps -> p ∉ os_held s -> destroy_conns l ps s <> Done r.
Proof.
  induction ps as [| q ps IH]; intros l s r Hs Hin Hp Hr; [by apply not_elem_of_nil in Hin |]. cbn [destroy_conns] in Hr. unfold destroy_conn in Hr.
  apply io_done in Hr as (l1 & s1 & Hd & Hr). apply io_done in Hd as ([] & s2 & Hrel & Hd). injection Hd as <- <-. apply release_done in Hrel as ([Hs2 Hsub] & Hq & _); [| done].
  apply elem_of_cons in Hin as [-> | Hin]; [done |]. eapply IH; [exact Hs2 | done | | exact Hr]. intros ?. by apply Hp, Hsub.
Qed.

(** Shutting down a server with a connection frees the connection twice: it is
    destroyed through its wrapper, and again with the engine's listener that still
    lists it. *)
Theorem shutdown_double_free (l : loop) handles lst ac w ln v ls s : conns_rep (globals l) lst -> g_api_conns (globals l) !! ac = Some w ->
  g_listeners (globals l) = Some ln -> listeners (el_server l) !! ln = Some v -> sv_engines (el_server l) !! ln_ls v = Some ls -> ac_conn w ∈ pointers ls -> os_ok s ->
  forall r, nxp_shutdown handles l s <> Done r.
Proof.
  intros Hrep Hw Hgl Hv Hls Hpt Hs r Hr. unfold nxp_shutdown in Hr. apply io_done in Hr as (l1 & s1 & Hc & Hr).
  destruct (close_conns_done lst _ l s l1 s1 Hs Hrep Hc) as ([Hs1 _] & He1 & Hg1 & Hh1 & Hgone). specialize (Hgone ac w Hw).
  apply io_done in Hr as (l2 & s2 & Hln & _). destruct (size (g_api_listeners (globals l1))) as [| n]; cbn [close_listeners] in Hln; rewrite Hh1, Hgl in Hln; [done |].
  apply io_done in Hln as (v1 & s3 & [Hv1 Hs3]%lift_done & Hln). cbn in Hv1, Hs3. subst s3. unfold get_ln, listeners in Hv1. fold (globals l1) in Hv1. rewrite Hg1 in Hv1.
  unfold listeners in Hv. fold (globals l) in Hv. rewrite Hv in Hv1. injection Hv1 as <-.
  apply io_done in Hln as (l3 & s3 & [Hl3 Hs3]%lift_done & Hln). cbn in Hl3, Hs3. subst s3.
  assert (sv_engines (el_server l3) = sv_engines (el_server l1)) as He3.
  { unfold unlink_listener in Hl3. destruct (listener_unlink (globals l1) ln); [| done | done]. by injection Hl3 as <-. }
  apply io_done in Hln as (l4 & s4 & [Hl4 Hs4]%lift_done & Hln). cbn in Hl4, Hs4. subst s4. apply cancel_opt_done in Hl4.
  apply io_done in Hln as (l5 & s5 & [[Hs5 Hsub] Hsv5]%close_transport_done & Hln); [| done]. apply io_done in Hln as (l6 & s6 & Hd & _). unfold nxp_listener_destroy in Hd.
  assert (el_server l4 = el_server l3) as Hsv4 by (unfold el_server; by rewrite Hl4). rewrite Hsv5, Hsv4, He3, He1, Hls in Hd. apply io_done in Hd as (l7 & s7 & Hd & _).
  eapply (destroy_conns_gone (ac_conn w)); [exact Hs5 | exact Hpt | | exact Hd]. intros ?. by apply Hgone, Hsub.
Qed.

End Shutdown.
