(* ===== verification/Scenarios.v ===== *)
(** * Scenarios: concrete connections

    A client and a server as [nxp_conn_create] makes them, with the sample
    cryptography of [Crypto] and an allocator that never fails, and the
    properties of the connection engine at these connections. *)

From Stdlib Require Import ZArith Lia List Bool.
From stdpp Require Import base list gmap.
From S2P Require Import Prelude Types Codec Frame Packet Pacing Bbr Ack Flow Stream LinkedList.
From S2P Require Import Scheduler Crypto Handshake Connection ConnectionSend ConnectionInv.
From S2P Require Import ConnectionSafety Session StreamLimits SessionExport HashMap RateLimit Listener ListenerSafety.
Import Crypto.Sample.
Open Scope Z_scope.

#[local] Opaque NXP_STREAM_BUF_SIZE.

#[export] Instance sample_allocator : Allocator := {| alloc_stream _ := true; put_stream _ := true |}.

Definition peer_id (b : Z) : nxp_conn_id := mk_conn_id [b; 2; 3; 4; 5; 6; 7; 8].

Definition sample_config (b : Z) : nxp_conn_config := ConnConfig (peer_id b) (zeros 28) 0 0 0 0 0.

Lemma peer_id_ok b : byte b -> conn_id_ok (peer_id b).
Proof.
  intros Hb. exists [b; 2; 3; 4; 5; 6; 7; 8]. split; [done |]. split; [done |].
  repeat constructor; (apply Hb || done).
Qed.

Lemma sample_config_ok b : byte b -> config_ok (sample_config b).
Proof. intros Hb. split; [by apply peer_id_ok | done]. Qed.

Definition created (o : option nxp_conn) : match o with Some _ => nxp_conn | None => unit end :=
  match o with Some c => c | None => tt end.

Definition fresh (is_server : bool) : nxp_conn :=
  created (nxp_conn_create true true true (sample_config (if is_server then 1 else 0)) is_server).

Lemma fresh_created (is_server : bool) :
  nxp_conn_create true true true (sample_config (if is_server then 1 else 0)) is_server = Some (fresh is_server).
Proof. done. Qed.

Lemma fresh_reachable (is_server : bool) : conn_reachable (fresh is_server).
Proof.
  exists true, true, (sample_config (if is_server then 1 else 0)), is_server, (fresh is_server).
  split; [apply sample_config_ok; by destruct is_server | split; [done | apply steps_refl]].
Qed.

Lemma steps_one c ev c' : event_ok c ev -> conn_run c ev = Done c' -> conn_steps c c'.
Proof. intros He Hr. apply (steps_next c ev c' c'); [done.. | apply steps_refl]. Qed.

Lemma reachable_step c ev c' : conn_reachable c -> event_ok c ev -> conn_run c ev = Done c' -> conn_reachable c'.
Proof.
  intros (a & b & cf & s & c0 & Hcf & Hc0 & Hst) He Hr. exists a, b, cf, s, c0. split; [done |]. split; [done |].
  clear Hcf Hc0. induction Hst as [c | c ev' c1 c2 He' Hr' _ IH]; [by apply (steps_one c ev) |].
  by apply (steps_next c ev' c1 c'); [..| apply IH].
Qed.

Lemma min_zeros : NXP_MIN_DATAGRAM <= zlen (zeros 1200) < 2 ^ 62.
Proof. rewrite zlen_zeros by lia. unfold NXP_MIN_DATAGRAM. lia. Qed.

Lemma unlimited_fresh is_server : unlimited (fresh is_server) /\ queued (fresh is_server) [].
Proof. split; [intros id s Hs; destruct (lookup_empty_Some (M := gmap Z) id s Hs) | split; [apply sched_empty_ok | done]]. Qed.

Definition opened (c : nxp_conn) : nxp_conn :=
  match nxp_conn_open_stream c NXP_STREAM_RELIABLE false with Done (_, c') => c' | _ => c end.

Definition established (is_server : bool) : nxp_conn :=
  nxp_conn_set_established (fresh is_server) (peer_id (if is_server then 0 else 1)).

Lemma established_reachable (is_server : bool) : conn_reachable (established is_server).
Proof.
  apply (reachable_step (fresh is_server) (EvSetEstablished (peer_id (if is_server then 0 else 1)))).
  - apply fresh_reachable.
  - apply peer_id_ok. by destruct is_server.
  - done.
Qed.

Lemma opened_eq c : cn_open_bidi_count c < cn_peer_max_streams_bidi c ->
  nxp_conn_open_stream c NXP_STREAM_RELIABLE false = Done (next_stream c, opened c).
Proof.
  intros Hlim. unfold opened, nxp_conn_open_stream. rewrite Z.geb_leb, (proj2 (Z.leb_gt _ _)) by done. reflexivity.
Qed.

(** The new stream, and what opening it leaves. *)
Lemma opened_form c : cn_open_bidi_count c < cn_peer_max_streams_bidi c ->
  let id := next_stream c in
  let max := cn_initial_max_stream_data c in
  cn_streams (opened c) = <[id := stream_with_cap NXP_STREAM_BUF_SIZE id NXP_STREAM_RELIABLE max max]> (cn_streams c) /\
  cn_sched (opened c) = cn_sched c <| links := <[id := Node None None]> (links (cn_sched c)) |> /\
  cn_open_bidi_count (opened c) = u32 (cn_open_bidi_count c + 1) /\
  cn_peer_max_streams_bidi (opened c) = cn_peer_max_streams_bidi c /\
  cn_state (opened c) = cn_state c /\ cn_handshake (opened c) = cn_handshake c /\
  has_control_frames (opened c) = has_control_frames c /\ cc_allows (opened c) = cc_allows c /\
  cn_pacer (opened c) = cn_pacer c /\ cn_conn_flow (opened c) = cn_conn_flow c /\
  cn_crypto (opened c) = cn_crypto c /\ cn_dcid (opened c) = cn_dcid c /\
  cn_next_pkt_num (opened c) = cn_next_pkt_num c /\ cn_ack (opened c) = cn_ack c.
Proof.
  intros Hlim. destruct (open_stream_form c Hlim) as (c' & Ho & Hf); [done.. |]. rewrite (opened_eq c Hlim) in Ho.
  injection Ho as <-. exact Hf.
Qed.

Lemma opened_ok c : conn_ok c -> cn_open_bidi_count c < cn_peer_max_streams_bidi c -> conn_ok (opened c).
Proof.
  intros Hok Hlim. pose proof (open_stream_keeps c NXP_STREAM_RELIABLE false Hok) as Hk.
  rewrite (opened_eq c Hlim) in Hk. apply Hk.
Qed.

Lemma stream_ids_unique_witness :
  next_stream (fresh true) <> next_stream (opened (fresh true)) /\
  cn_streams (opened (fresh true)) !! next_stream (opened (fresh true)) = None /\
  stream_id_is_local (next_stream (opened (fresh true))) (cn_is_server (fresh true)) = true.
Proof.
  apply (stream_ids_unique (fresh true) (opened (fresh true)) (opened (fresh true)) (opened (opened (fresh true)))
    NXP_STREAM_RELIABLE false (next_stream (fresh true)) NXP_STREAM_RELIABLE false (next_stream (opened (fresh true)))).
  - apply fresh_reachable.
  - apply opened_eq. reflexivity.
  - apply steps_refl.
  - apply opened_eq. pose proof (opened_form (fresh true) eq_refl) as (_ & _ & -> & -> & _). reflexivity.
Defined.

Lemma opened_reachable c : conn_reachable c -> cn_open_bidi_count c < cn_peer_max_streams_bidi c -> conn_reachable (opened c).
Proof.
  intros Hr Hlim. apply (reachable_step c (EvOpenStream NXP_STREAM_RELIABLE false)); [done | done |].
  cbn [conn_run]. by rewrite (opened_eq c Hlim).
Qed.

(** ** A stream with data *)

(** The client has opened a stream and written two bytes. *)
Definition writing : nxp_conn :=
  match nxp_conn_stream_send (opened (established false)) 0 [104; 105] true with Done (_, c) => c | _ => opened (established false) end.

Lemma writing_runs :
  match nxp_conn_stream_send (opened (established false)) 0 [104; 105] true with Done (n, _) => n =? 2 | _ => false end = true.
Proof. vm_compute. reflexivity. Qed.

Lemma writing_run : conn_run (opened (established false)) (EvStreamSend 0 [104; 105] true) = Done writing.
Proof.
  pose proof writing_runs as Hr. unfold writing. cbn [conn_run].
  by destruct (nxp_conn_stream_send (opened (established false)) 0 [104; 105] true) as [[n c] | |].
Qed.

Lemma opened_established : cn_open_bidi_count (established false) < cn_peer_max_streams_bidi (established false).
Proof. reflexivity. Qed.

Lemma writing_reachable : conn_reachable writing.
Proof.
  pose proof (opened_reachable _ (established_reachable false) opened_established) as Hr.
  exact (reachable_step _ (EvStreamSend 0 [104; 105] true) _ Hr I writing_run).
Qed.

(** The stream that was written to is scheduled. *)
Lemma written_scheduled c w type max : conn_ok c -> cn_state c = NXP_CONN_ESTABLISHED -> queued c [] ->
  cn_streams c = <[0 := stream_with_cap NXP_STREAM_BUF_SIZE 0 type max max]> ∅ -> 2 <= max ->
  conn_run c (EvStreamSend 0 [104; 105] true) = Done w -> queued w [0] /\ unlimited w.
Proof.
  intros Hok Hst Hq Hs Hmax Hw. cbn [conn_run] in Hw.
  destruct (send_first c 0 type max max [104; 105] true Hok Hst Hq) as (s & q & Hsend & _ & _ & Hrate & Hsq & _);
    [rewrite Hs; apply lookup_insert_eq | split; [reflexivity | discriminate] | exact Hmax |].
  rewrite Hsend in Hw. cbn [after snd] in Hw. injection Hw as <-. split.
  - split; [exact Hsq |]. intros id [<- | []]. cbn. rewrite lookup_insert_eq. eauto.
  - intros id x. cbn. rewrite Hs, lookup_insert. case_decide; [by intros [= <-] |]. by rewrite lookup_insert_ne by done.
Qed.

Lemma writing_scheduled : queued writing [0] /\ unlimited writing.
Proof.
  destruct (opened_form _ opened_established) as (Hs & Hq & _ & _ & Hst & _).
  refine (written_scheduled (opened (established false)) writing NXP_STREAM_RELIABLE (cn_initial_max_stream_data (established false))
    (opened_ok _ (conn_reachable_ok _ (established_reachable false)) opened_established) _ _ _ _ writing_run).
  - rewrite Hst. reflexivity.
  - split; [rewrite Hq; apply sched_empty_ok | intros id []].
  - rewrite Hs. reflexivity.
  - vm_compute. discriminate.
Qed.

(** The packet: the header with the connection ID, and the STREAM frame. *)
Definition stream_packet : list Z := [64; 1; 2; 3; 4; 5; 6; 7; 8; 0; 11; 0; 2; 104; 105].

Lemma writing_sends :
  match nxp_conn_send 9 true writing (zeros 1200) 7 with Done (k, out', _) => (k, ztake k out') | _ => (0, []) end = (15, stream_packet).
Proof. vm_compute. reflexivity. Qed.

(** A client that has been established, has opened a stream and written to it gets
    a datagram. *)
Lemma conn_history_safe_witness : conn_reachable writing /\
  (conn_ok writing /\
   ((exists c', conn_run writing (EvRecv [64; 0; 2; 3; 4; 5; 6; 7; 8; 0; 11; 1; 2; 7; 7] 5) = Done c' /\ conn_next writing c') \/
    (exists fuel ok out now, EvRecv [64; 0; 2; 3; 4; 5; 6; 7; 8; 0; 11; 1; 2; 7; 7] 5 = EvSend fuel ok out now /\
       conn_run writing (EvRecv [64; 0; 2; 3; 4; 5; 6; 7; 8; 0; 11; 1; 2; 7; 7] 5) = Err tt))).
Proof.
  split; [exact writing_reachable |].
  refine (conn_history_safe writing (EvRecv [64; 0; 2; 3; 4; 5; 6; 7; 8; 0; 11; 1; 2; 7; 7] 5) writing_reachable _).
  repeat constructor; done.
Defined.

Lemma conn_send_terminates_witness : exists n out' c',
  nxp_conn_send 10 true writing (zeros 1200) 7 = Done (n, out', c') /\
  conn_next writing c' /\ -1 <= n <= zlen (zeros 1200) /\ zlen out' = zlen (zeros 1200).
Proof.
  assert (cn_next_pkt_num writing < 2 ^ 64 - 1) as Hn by (vm_compute; reflexivity).
  refine (conn_send_terminates 10 true writing (zeros 1200) 7 [0] writing_reachable min_zeros Hn
    (proj2 writing_scheduled) (proj1 writing_scheduled) _). cbn. lia.
Defined.

Lemma log_quiet c ev c1 log c2 : event_ok c ev -> conn_run c ev = Done c1 -> sent_data c ev = [] -> conn_log c1 log c2 -> conn_log c log c2.
Proof. intros He Hr Hs Hl. change log with ([] ++ log). rewrite <- Hs. by apply (log_step c ev c1). Qed.

Lemma writing_state : cn_handshake writing = None /\ cn_next_pkt_num writing = 0.
Proof. split; vm_compute; reflexivity. Qed.

Lemma writing_sent : exists c, conn_run writing (EvSend 9 true (zeros 1200) 7) = Done c /\
  sent_data writing (EvSend 9 true (zeros 1200) 7) = [DataPacket writing (zeros 1200) 7 stream_packet].
Proof.
  pose proof writing_sends as Hs. cbn [conn_run]. unfold sent_data. rewrite (proj1 writing_state).
  destruct (nxp_conn_send 9 true writing (zeros 1200) 7) as [[[k out'] c] | |]; [| discriminate Hs..].
  injection Hs as -> ->. by exists c.
Qed.

Lemma writing_log : exists c, conn_log (fresh false) [DataPacket writing (zeros 1200) 7 stream_packet] c.
Proof.
  destruct writing_sent as (c & Hr & Hd). exists c.
  assert (event_ok writing (EvSend 9 true (zeros 1200) 7)) as He by (split; [apply min_zeros | by rewrite (proj2 writing_state)]).
  pose proof (log_step writing _ c [] c He Hr (log_nil c)) as Hlog. rewrite Hd, app_nil_r in Hlog.
  pose proof writing_run as Hw. revert Hw Hlog. generalize (DataPacket writing (zeros 1200) 7 stream_packet). generalize writing.
  intros w pk Hw Hlog.
  assert (event_ok (fresh false) (EvSetEstablished (peer_id 1))) as H1 by (cbn [event_ok]; apply peer_id_ok; split; [discriminate | reflexivity]).
  assert (conn_run (established false) (EvOpenStream NXP_STREAM_RELIABLE false) = Done (opened (established false))) as H2
    by (cbn [conn_run]; by rewrite (opened_eq _ opened_established)).
  refine (log_quiet _ _ _ _ _ H1 eq_refl eq_refl (log_quiet _ _ _ _ _ _ H2 eq_refl (log_quiet _ _ _ _ _ _ Hw eq_refl Hlog))); done.
Qed.


(** ** Established connections with keys *)

Definition sample_key (n : Z) : nxp_crypto_keys := CryptoKeys (n :: zeros 31) (zeros 12) (n :: zeros 31) 32.

Definition keyed (is_server : bool) : nxp_conn :=
  established is_server <| cn_crypto :=
    if is_server then CryptoState (sample_key 2) (sample_key 1) NXP_AEAD_AES_256_GCM true
    else CryptoState (sample_key 1) (sample_key 2) NXP_AEAD_AES_256_GCM true |>.

Lemma keyed_ok (is_server : bool) : conn_ok (keyed is_server).
Proof. apply (next_crypto (established is_server)), conn_next_refl, conn_reachable_ok, established_reachable. Qed.

Lemma keyed_peers : peers (keyed false) (keyed true) /\ open_state (keyed true).
Proof. done. Qed.

Lemma sample_hp_works keys : cs_algo keys = NXP_AEAD_AES_256_GCM -> hp_works keys.
Proof. intros Ha sample _. unfold generate_hp_mask. rewrite Ha. eexists. reflexivity. Qed.

Lemma all_bytes_true l : bytes_ok l -> all_bytes l = true.
Proof.
  intros Hl. apply forallb_forall. intros z Hz. pose proof (proj1 (Forall_forall _ _) Hl z) as Hz'.
  apply andb_true_iff. rewrite Z.leb_le, Z.ltb_lt. by apply Hz'.
Qed.

Lemma sample_aead_works keys : cs_algo keys = NXP_AEAD_AES_256_GCM -> aead_works keys.
Proof.
  intros Ha nonce aad p Hp. unfold nxp_aead_encrypt. rewrite Ha. cbn -[all_bytes be_bytes].
  rewrite (all_bytes_true p Hp). eexists. reflexivity.
Qed.

Lemma keyed_pn c : cn_next_pkt_num c = 0 -> cn_ack c = nxp_ack_init true -> pn_recovered (keyed true) (cn_next_pkt_num c) (pn_len c).
Proof. intros Hn Ha. unfold pn_len. rewrite Hn, Ha. done. Qed.

Lemma keyed_ready : stream_ready (opened (keyed false)) (keyed true) 0 [104; 105] 7.
Proof.
  assert (cn_open_bidi_count (keyed false) < cn_peer_max_streams_bidi (keyed false)) as Hlim by reflexivity.
  pose proof (opened_ok _ (keyed_ok false) Hlim) as Hok.
  destruct (opened_form _ Hlim) as (Hs & Hq & _ & _ & Hst & Hhs & Hct & Hcc & Hpa & Hfl & Hcr & Hd & Hn & Ha).
  set (c := opened (keyed false)) in *. clearbody c.
  split.
  - rewrite Hst, Hhs. done.
  - rewrite Hct. split; [reflexivity |]. split; [| done]. rewrite Hq. apply sched_empty_ok.
  - rewrite Hcc, Hpa. split; reflexivity.
  - rewrite Hs. eexists _, _, _. split; [apply lookup_insert_eq | done].
  - rewrite Hfl. split; [done |]. split; [repeat constructor; done |]. done.
  - rewrite Hcr. split; [by apply sample_hp_works | by apply sample_aead_works].
  - split; [| split; [done |]].
    + unfold peers. rewrite Hd, Hcr. apply keyed_peers.
    + by apply keyed_pn; rewrite ?Hn, ?Ha.
  - done.
Qed.

Lemma stream_data_delivered_witness : exists c1 k out' c2 r' r'',
  nxp_conn_stream_send (opened (keyed false)) 0 [104; 105] true = Done (zlen [104; 105], c1) /\
  nxp_conn_send 3 true c1 (zeros 1200) 7 = Done (k, out', c2) /\
  nxp_conn_recv (keyed true) (ztake k out') 9 = Done r' /\
  nxp_conn_stream_recv r' 0 100 = Done (Some [104; 105], true, r'').
Proof.
  apply (stream_data_delivered (opened (keyed false)) (keyed true) 0 [104; 105] true 0 true (zeros 1200) 7 9 100).
  - apply keyed_ready.
  - rewrite zlen_zeros by lia. split; vm_compute; discriminate.
  - vm_compute. discriminate.
Defined.

(** ** Closing *)

Definition closing (c : nxp_conn) : nxp_conn :=
  match nxp_conn_initiate_close c 7 with Done c' => c' | _ => c end.

Lemma closing_run c : conn_run c (EvClose 7) = Done (closing c).
Proof. cbn [conn_run]. unfold closing, nxp_conn_initiate_close. by destruct (_ || _). Qed.

Lemma closing_reachable c : conn_reachable c -> conn_reachable (closing c).
Proof. intros Hr. apply (reachable_step c (EvClose 7)); [done | done | apply closing_run]. Qed.

Lemma closing_ok c : conn_ok c -> conn_ok (closing c).
Proof.
  intros Hok. destruct (conn_run_ok c (EvClose 7) Hok ltac:(done)) as [(c' & Hr & Hn) | (? & ? & ? & ? & [=] & _)].
  rewrite closing_run in Hr. injection Hr as ->. apply Hn.
Qed.

(** A packet with a CONNECTION_CLOSE frame goes out. *)
(** A connection whose array of sent packets was not allocated is created all the
    same, and its first packet is a write through a null pointer. *)
Theorem sent_array_unchecked :
  match nxp_conn_create true true false (sample_config 0) false with
  | Some c => nxp_conn_send 1 true (closing (nxp_conn_set_established c (peer_id 1))) (zeros 1200) 7 = Ub
  | None => False
  end.
Proof. vm_compute. reflexivity. Qed.

Lemma closing_keyed_sent :
  match nxp_conn_send 1 true (closing (keyed false)) (zeros 1200) 7 with Done (n, _, _) => n | _ => 0 end = 29.
Proof. vm_compute. reflexivity. Qed.

(** A PING goes out, then the application closes the connection. *)
Definition pinging : nxp_conn := keyed false <| cn_send_ping := true |>.

Lemma pinging_ok : conn_ok pinging.
Proof. apply (next_ping (keyed false)), conn_next_refl, keyed_ok. Qed.

Lemma two_packets_sent :
  match nxp_conn_send 1 true pinging (zeros 1200) 7 with
  | Done (k, _, c1) =>
      match nxp_conn_send 1 true (closing c1) (zeros 1200) 9 with
      | Done (k', _, _) => 0 < k /\ 0 < k' /\ cn_next_pkt_num (closing c1) < 100 /\
          cn_handshake (closing c1) = None /\ cn_crypto (closing c1) = cn_crypto pinging
      | _ => False
      end
  | _ => False
  end.
Proof. vm_compute. repeat split. Qed.

Lemma two_packets : exists k out' c1 k' o' c3,
  nxp_conn_send 1 true pinging (zeros 1200) 7 = Done (k, out', c1) /\
  nxp_conn_send 1 true (closing c1) (zeros 1200) 9 = Done (k', o', c3) /\
  0 < k /\ 0 < k' /\ cn_next_pkt_num (closing c1) < 100 /\ app_send_keys (closing c1) = Some (cn_crypto pinging).
Proof.
  pose proof two_packets_sent as Hrun.
  destruct (nxp_conn_send 1 true pinging (zeros 1200) 7) as [[[k out'] c1] | |]; [| destruct Hrun..].
  destruct (nxp_conn_send 1 true (closing c1) (zeros 1200) 9) as [[[k' o'] c3] | |] eqn:Hs'; [| destruct Hrun..].
  destruct Hrun as (Hk & Hk' & Hpn & Hhs & Hcr). exists k, out', c1, k', o', c3.
  split; [reflexivity |]. split; [exact Hs' |]. split; [exact Hk |]. split; [exact Hk' |]. split; [exact Hpn |].
  unfold app_send_keys. rewrite Hhs, Hcr. reflexivity.
Qed.

Lemma pinging_keys : app_send_keys pinging = Some (cn_crypto pinging).
Proof. reflexivity. Qed.

Lemma pinging_send : event_ok pinging (EvSend 1 true (zeros 1200) 7).
Proof. split; [apply min_zeros | reflexivity]. Qed.

Lemma pinging_iv : zlen (ck_iv (cs_send (cn_crypto pinging))) = NXP_AEAD_IV_LEN.
Proof. reflexivity. Qed.

Lemma nonces_unique_witness : exists k out' c1 k' o' c3,
  nxp_conn_send 1 true pinging (zeros 1200) 7 = Done (k, out', c1) /\
  nxp_conn_send 1 true (closing c1) (zeros 1200) 9 = Done (k', o', c3) /\
  let iv := ck_iv (cs_send (cn_crypto pinging)) in
  let nonce := nxp_crypto_make_nonce iv (cn_next_pkt_num pinging) in
  let nonce' := nxp_crypto_make_nonce iv (cn_next_pkt_num (closing c1)) in
  (exists n img pt, sealed_as (cn_crypto pinging) nonce n img pt (ztake k out')) /\
  (exists n img pt, sealed_as (cn_crypto pinging) nonce' n img pt (ztake k' o')) /\ nonce <> nonce'.
Proof.
  destruct two_packets as (k & out' & c1 & k' & o' & c3 & Hs & Hs' & Hk & Hk' & Hpn & Hkeys).
  assert (conn_steps c1 (closing c1)) as Hst by (apply (steps_one c1 (EvClose 7)); [done | apply closing_run]).
  assert (event_ok (closing c1) (EvSend 1 true (zeros 1200) 9)) as Hev by (split; [apply min_zeros | lia]).
  pose proof (nonces_unique 1 true pinging (zeros 1200) 7 k out' c1 (cn_crypto pinging) (closing c1) 1 true (zeros 1200) 9 k' o' c3
    (cn_crypto pinging) pinging_ok pinging_send pinging_keys Hs Hk Hst Hev Hkeys Hs' Hk') as (H1 & H2 & H3).
  exists k, out', c1, k', o', c3. split; [exact Hs |]. split; [exact Hs' |]. split; [exact H1 |]. split; [exact H2 |].
  exact (H3 eq_refl pinging_iv).
Defined.

Lemma datagram_delivered_witness : exists k out' c' b,
  nxp_conn_send 1 true (closing (keyed false)) (zeros 1200) 7 = Done (k, out', c') /\
  collect_frames (frame_room (closing (keyed false)) (zeros 1200) (pn_len (closing (keyed false)))) 1
    (sending (closing (keyed false)) 7) 7 = Done b /\
  if pn_len (closing (keyed false)) + bd_pos b <? 4
  then exists r', nxp_conn_recv (keyed true) (ztake k out') 9 = Err (NXP_ERR_CRYPTO_FAIL, r')
  else nxp_conn_recv (keyed true) (ztake k out') 9 =
    process_frames (received (keyed true) k (cn_next_pkt_num (closing (keyed false))) 9) (ztake (bd_pos b) (bd_buf b)) 9.
Proof.
  pose proof closing_keyed_sent as Hn.
  destruct (nxp_conn_send 1 true (closing (keyed false)) (zeros 1200) 7) as [[[k out'] c'] | |] eqn:Hs; [| discriminate..].
  exists k, out', c'.
  destruct (datagram_delivered 1 true (closing (keyed false)) (zeros 1200) 7 k out' c' (keyed true) 9) as [b Hb].
  - apply closing_ok, keyed_ok.
  - split; [reflexivity | split; reflexivity].
  - split; discriminate.
  - apply sample_hp_works. reflexivity.
  - exact I.
  - rewrite zlen_zeros by lia. split; vm_compute; discriminate.
  - apply keyed_pn; reflexivity.
  - exact Hs.
  - subst k. lia.
  - exists b. split; [reflexivity | exact Hb].
Defined.

(** ** Migration to another server *)

Definition moving : nxp_conn := keyed true <| cn_next_pkt_num := 1 |>.

Lemma moving_exportable : exportable moving.
Proof.
  split; try done.
  apply (next_pkt_num (keyed true)); [apply conn_next_refl, keyed_ok | done].
Qed.

Lemma session_roundtrip_witness :
  if nxp_session_export_size moving <=? zlen (zeros 300)
  then exists out c', nxp_session_export moving (zeros 300) = Done (nxp_session_export_size moving, out) /\
    zlen out = zlen (zeros 300) /\
    nxp_session_import true true true (ztake (nxp_session_export_size moving) out ++ [7]) = Done c' /\
    same_session moving c' /\ conn_ok c'
  else nxp_session_export moving (zeros 300) = Err NXP_ERR_BUFFER_TOO_SMALL.
Proof. apply (session_roundtrip moving (zeros 300) true [7]); [apply moving_exportable | reflexivity]. Defined.

Lemma moving_migrates : migrating moving (keyed false) [104; 105].
Proof.
  split; try done.
  - split; [apply moving_exportable | done].
  - split; [by apply sample_hp_works | by apply sample_aead_works].
  - split; [repeat constructor; done | done].
Qed.

(** The bytes on the wire, and the connection they give. *)
Lemma moving_moved : exists img c1, nxp_session_export moving (zeros 300) = Done (nxp_session_export_size moving, img) /\
  nxp_session_import true true true (ztake (nxp_session_export_size moving) img) = Done c1.
Proof.
  destruct (import_bytes moving true [] moving_exportable) as (c0 & _ & Hi); [reflexivity |].
  do 2 eexists. split; [apply export_fits; [apply moving_exportable | by vm_compute] |].
  rewrite splice_0, <- (zlen_session_bytes moving moving_exportable), ztake_app.
  rewrite app_nil_r in Hi. exact Hi.
Qed.

Lemma session_survives_witness : exists c1 id c2 c3 k out' c4 r' r'',
  nxp_conn_open_stream c1 NXP_STREAM_RELIABLE false = Done (id, c2) /\
  nxp_conn_stream_send c2 id [104; 105] true = Done (zlen [104; 105], c3) /\
  nxp_conn_send 3 true c3 (zeros 1200) 7 = Done (k, out', c4) /\
  nxp_conn_recv (keyed false) (ztake k out') 9 = Done r' /\ nxp_conn_stream_recv r' id 100 = Done (Some [104; 105], true, r'').
Proof.
  destruct moving_moved as (img & c1 & Hx & Hi). exists c1.
  apply (session_survives moving (keyed false) [104; 105] (zeros 300) (nxp_session_export_size moving) img true c1
    true 0 true (zeros 1200) 7 9 100).
  - apply moving_migrates.
  - reflexivity.
  - exact Hx.
  - exact Hi.
  - rewrite zlen_zeros by lia. split; vm_compute; discriminate.
  - vm_compute. discriminate.
Defined.

Lemma session_forgets_pkt_nums_witness : exists c1,
  nxp_pkt_decode_pkt_num (largest_recv_pn (cn_ack c1)) (300 mod 256 ^ 1) 1 <> 300.
Proof.
  destruct moving_moved as (img & c1 & Hx & Hi). exists c1.
  apply (session_forgets_pkt_nums moving (zeros 300) (nxp_session_export_size moving) img true c1 300 1).
  - apply moving_exportable.
  - reflexivity.
  - exact Hx.
  - exact Hi.
  - lia.
  - vm_compute. discriminate.
Defined.

Lemma session_import_total_witness :
  match nxp_session_import true true true (zeros 300) with
  | Done c => conn_id_ok (cn_scid c) /\ conn_id_ok (cn_dcid c) /\
      keys_array (cs_send (cn_crypto c)) /\ keys_array (cs_recv (cn_crypto c))
  | Err e => e = NXP_ERR_INVALID_PACKET \/ e = NXP_ERR_VERSION_MISMATCH \/ e = NXP_ERR_BUFFER_TOO_SMALL \/
      (e = NXP_ERR_OUT_OF_MEMORY /\ true = false)
  | Ub => exists f pos, run_parser get_fields (zeros 300) 12 = Done (f, pos) /\ 7 <= sx_state f
  end.
Proof.
  apply (session_import_total true true true (zeros 300)); [apply Forall_replicate; done | reflexivity].
Defined.

(** ** A stream that has used up its rate limit *)

Definition limited_stream : nxp_stream_s :=
  match nxp_stream_write (stream_with_cap 4 0 NXP_STREAM_RELIABLE 100 100) [1; 2] 2 false with
  | Done (_, s) => s <| rate_limit := StreamRate.StreamRate 8000 0 7 4800 true true |>
  | _ => stream_with_cap 4 0 NXP_STREAM_RELIABLE 100 100
  end.

Definition limited : nxp_conn :=
  established false <| cn_streams := {[0 := limited_stream]} |>
    <| cn_sched := match nxp_sched_add (sched_empty {[0 := Node None None]}) 0 with Done q => q | _ => sched_empty ∅ end |>.

Lemma limited_queued : queued limited [0].
Proof.
  split; [| intros id [<- | []]; eexists; apply lookup_insert_eq].
  destruct (sched_add_ok (sched_empty {[0 := Node None None]}) [] 0 (sched_empty_ok _)) as (q & Hq & Hok & _).
  { eexists. apply lookup_insert_eq. }
  unfold limited. simpl cn_sched. by rewrite Hq.
Qed.

Lemma send_never_returns_witness : nxp_conn_send 1000 true limited (zeros 1200) 7 = Err tt.
Proof.
  apply (send_never_returns 1000 true limited (zeros 1200) 7 0 []).
  - split; try reflexivity.
    + split; reflexivity.
    + split; [discriminate | rewrite zlen_zeros by lia; discriminate].
  - apply limited_queued.
  - intros a [<- | []]. exists limited_stream. split; [apply lookup_insert_eq | split_and!; reflexivity].
Defined.

(** ** A listener *)

Definition listener : Type := nxp_listener_s (S := nxp_hash_map Z).

Definition sample_listener_config : nxp_listener_config := ListenerConfig [9; 8; 7; 6] 2 4 0 0 0 0 0 false true.

Definition listening : listener := Listener ∅ (replicate 64 None) 0 64 0 sample_listener_config 0 0 0 (Some sample_limiter) ∅ [].

Lemma sample_listener_config_ok : listener_config_ok sample_listener_config.
Proof. unfold listener_config_ok. split_and!; try done. repeat constructor; done. Qed.

Lemma sample_limiter_mem : limiter_mem sample_limiter.
Proof.
  exists ∅. destruct sample_limiter_ok as (Hrep & _). split; [done |]. intros k p Hk. by rewrite lookup_empty in Hk.
Qed.

Lemma listening_reachable : listener_reachable listening.
Proof.
  apply (listener_start true (Some sample_limiter) sample_listener_config);
    [apply sample_listener_config_ok | apply sample_limiter_mem | reflexivity].
Qed.

(** An Initial packet that no key opens. *)
Definition initial_packet : list Z :=
  [192; 78; 88; 80; 1; 2; 21; 22; 2; 31; 32; 0; 20; 5; 1; 2; 3; 4; 5; 6; 7; 8; 9; 10; 11; 12; 13; 14; 15; 16; 17; 18; 19].

Definition sample_env : listener_env := ListenerEnv (Some 5) true true true true (Some 6) true [41; 42; 43; 44; 45; 46; 47; 48] (Some (zeros 32)).

Lemma sample_env_ok ls : ls_heap ls !! 5 = None -> env_ok (S := nxp_hash_map Z) ls sample_env.
Proof. intros Hp. split; [done |]. split; [repeat constructor; done |]. split; [done |]. by intros p [= <-]. Qed.

Lemma initial_packet_ok : bytes_ok initial_packet /\ zlen initial_packet < 2 ^ 63.
Proof. split; [repeat constructor; done | done]. Qed.

Lemma listener_history_safe_witness :
  let ev := LRecv sample_env initial_packet [127; 1] 10 in
  listener_ok listening /\
  (listener_run listening ev = Err tt \/ exists ls', listener_run listening ev = Done ls' /\ listener_ok ls').
Proof.
  intros ev. apply (listener_history_safe listening ev).
  - apply listening_reachable.
  - split; [by apply sample_env_ok |]. split; [vm_compute; discriminate |]. apply initial_packet_ok.
Defined.

(** A listener with one connection. *)
Definition serving (c : nxp_conn) : listener :=
  Listener {[cid_hash (cn_scid c) := 7]} (Some 7 :: replicate 63 None) 1 64 1 sample_listener_config 0 1 0 None {[7 := c]} [].

Lemma serving_listed c : listed (serving c) [7].
Proof. exists (replicate 63 None). done. Qed.

Lemma serving_ok c : conn_ok c -> listener_ok (serving c).
Proof.
  intros Hok. split; simpl; try done.
  - by apply map_Forall_singleton.
  - exists [7]. split; [apply serving_listed |]. split; [apply NoDup_singleton |]. intros p.
    rewrite lookup_singleton_is_Some, list_elem_of_singleton. done.
  - intros k p [<- <-]%lookup_singleton_Some. exists c. by rewrite lookup_singleton_eq.
  - apply sample_listener_config_ok.
Qed.

(** A datagram for the connection: its short header names it. *)
Definition routed_packet : list Z := [64; 1; 2; 3; 4; 5; 6; 7; 8; 9].

Lemma listener_isolation_witness :
  match nxp_listener_recv sample_env (serving (keyed true)) routed_packet [127; 1] 10 with
  | Done ls' | Err (_, ls') => isolated (serving (keyed true)) sample_env routed_packet ls'
  | Ub => False
  end.
Proof.
  apply (listener_isolation (serving (keyed true)) sample_env routed_packet [127; 1] 10).
  - apply serving_ok, keyed_ok.
  - by apply sample_env_ok.
  - exact I.
  - repeat constructor; done.
  - reflexivity.
Defined.

(** The server closes: the listener has a datagram to send. *)
Lemma serving_sent :
  match nxp_listener_send 1 true (serving (closing (keyed true))) (zeros 1200) 7 with Done (n, _, _, _) => n | _ => 0 end = 29.
Proof. vm_compute. reflexivity. Qed.

Lemma listener_send_fair_witness : exists k out' addr ls',
  let ls := serving (closing (keyed true)) in
  nxp_listener_send 1 true ls (zeros 1200) 7 = Done (k, out', addr, ls') /\
  exists j, 0 <= j <= ls_conn_count ls /\ polled ls [7] ls' 1 true 7 j /\
    (forall q, (forall i, 0 <= i <= j -> i < ls_conn_count ls -> turn ls [7] i <> Some q) -> ls_heap ls' !! q = ls_heap ls !! q) /\
    poll_result ls [7] ls' 1 true 7 (ls_conn_count ls) j k out' addr.
Proof.
  pose proof serving_sent as Hn.
  destruct (nxp_listener_send 1 true (serving (closing (keyed true))) (zeros 1200) 7) as [[[[k out'] addr] ls'] | |] eqn:Hs; [| discriminate..].
  exists k, out', addr, ls'. split; [exact Hs |].
  apply (listener_send_fair (serving (closing (keyed true))) [7] 1 true (zeros 1200) 7 k out' addr ls').
  - apply serving_ok, closing_ok, keyed_ok.
  - apply serving_listed.
  - reflexivity.
  - exact Hs.
Defined.

Lemma listener_timer_exact_witness : let ls := serving (keyed true) in
  (exists t, nxp_listener_timeout ls 9 = Done t /\ t <= UINT64_MAX /\
    (t = UINT64_MAX \/ exists p c, ls_heap ls !! p = Some c /\ nxp_conn_timeout c 9 = Done t) /\
    forall p c, ls_heap ls !! p = Some c -> exists t', nxp_conn_timeout c 9 = Done t' /\ t <= t') /\
  exists ls', nxp_listener_on_timeout ls 9 = Done ls' /\ listener_ok ls' /\
    forall q, ls_heap ls' !! q = ls_heap ls !! q ≫= kept 9.
Proof.
  intros ls. apply (listener_timer_exact ls 9).
  - apply serving_ok, keyed_ok.
  - lia.
  - intros p c Hp. by destruct (proj1 (lookup_singleton_Some (M := gmap Z) 7 p (keyed true) c) Hp) as [_ <-].
Defined.

Lemma listener_delivers_witness : exists k out' c' b,
  let c := closing (keyed false) in
  let ls := serving (keyed true) in
  nxp_conn_send 1 true c (zeros 1200) 7 = Done (k, out', c') /\
  collect_frames (frame_room c (zeros 1200) (pn_len c)) 1 (sending c 7) 7 = Done b /\
  if pn_len c + bd_pos b <? 4
  then exists r', nxp_listener_recv sample_env ls (ztake k out') [127; 1] 9 = Err (NXP_ERR_CRYPTO_FAIL, with_conn ls 7 r')
  else nxp_listener_recv sample_env ls (ztake k out') [127; 1] 9 =
    match process_frames (received (keyed true) k (cn_next_pkt_num c) 9) (ztake (bd_pos b) (bd_buf b)) 9 with
    | Done r' => Done (with_conn ls 7 r')
    | Err (e, r') => Err (e, with_conn ls 7 r')
    | Ub => Ub
    end.
Proof.
  pose proof closing_keyed_sent as Hn.
  destruct (nxp_conn_send 1 true (closing (keyed false)) (zeros 1200) 7) as [[[k out'] c'] | |] eqn:Hs; [| discriminate..].
  exists k, out', c'.
  destruct (listener_delivers 1 true (closing (keyed false)) (zeros 1200) 7 k out' c' sample_env (serving (keyed true))
    (serving (keyed true)) 7 (keyed true) [127; 1] 9) as [b Hb].
  - apply lookup_singleton_eq.
  - apply lookup_singleton_eq.
  - reflexivity.
  - reflexivity.
  - apply closing_ok, keyed_ok.
  - split; [reflexivity | split; reflexivity].
  - split; discriminate.
  - apply sample_hp_works. reflexivity.
  - exact I.
  - rewrite zlen_zeros by lia. split; vm_compute; discriminate.
  - apply keyed_pn; reflexivity.
  - exact Hs.
  - subst k. lia.
  - exists b. split; [exact Hs | exact Hb].
Defined.
