(* ===== verification/ApiScenarios.v ===== *)
(** * Scenarios: concrete libraries

    A process with client connections and one with a listener, over the priority queue,
    the connections of [Scenarios] and a system that grants everything, and the
    properties of the public interface at these processes. *)

From stdpp Require Import gmap strings.
From S2P Require Import Prelude LinkedList CString Types Frame Pacing Ack Flow Scheduler Heartbeat RateLimit HashMap Stream Crypto Connection ConnectionSend ConnectionInv ConnectionSafety.
From S2P Require Import PriorityQueue Url Sockets Transports Listener ListenerSafety EventLoop Epoll ApiObjects ApiIo ApiInv ApiSafety ApiCalls ApiLifecycle ApiHistory ApiSpin.
From S2P Require Import ApiServer ApiServerSafety ApiShutdown Scenarios.
Import Crypto.Sample.
Open Scope Z_scope.

#[local] Opaque NXP_STREAM_BUF_SIZE.

(** ** The system *)

(** The clock stands at [clk], nothing arrives, and every allocation succeeds. *)
#[refine] Definition sample_system (clk : Z) : System (nxp_priority_queue Z) pq_env := {|
  sys_clock _ := u64 clk;
  sys_recv _ _ := None;
  sys_malloc _ used := Some (base.fresh used);
  sys_realloc _ := true;
  sys_push _ q := pq_grow q
|}.
Proof.
  - intros _. apply u64_range.
  - done.
  - intros _ used p [= <-]. apply is_fresh.
  - intros _ q bag _. apply pq_grow_room.
Defined.

Definition empty_queue : nxp_priority_queue Z := PQ (replicate 16 (PqEntry 0 0)) 0 16.

Lemma empty_queue_bag : tq_bag empty_queue [].
Proof. cbn. split; [by_compute | by_compute | | done]. intros j Hj. simpl in Hj. lia. Qed.

#[local] Existing Instance sample_pton.
#[local] Instance sys : System (nxp_priority_queue Z) pq_env := sample_system 1000.
#[local] Instance eng : Engine := conn_engine 10.

(** ** Lists of wrappers *)

Definition owned_wrapper (conn : Z) (owner : option Z) (st : nxp_conn_state) : nxp_api_conn :=
  ApiConn conn 60 None (if owner then false else true) (Some 1) (Some 2) 0 st 0 None 0 None owner None None.
Definition sample_wrapper (conn : Z) : nxp_conn_state -> nxp_api_conn := owned_wrapper conn None.

Lemma empty_api_ok (used : Z -> Prop) : api_ok (used := used) (Api (Global None None ∅ ∅ ∅) ∅ [] [] 0).
Proof.
  destruct (init_world (Os 1 []) empty_queue 9) as (_ & _ & _ & Ha & _).
  - split; [by apply list.NoDup_nil | by apply Forall_nil].
  - apply empty_queue_bag.
  - eapply api_ok_mono; [exact Ha |]. intros x Hx. unfold held_by in Hx. by apply not_elem_of_nil in Hx.
Qed.

Lemma api_conn_list_exact_witness : let g := Global None None ∅ ∅ ∅ in
  exists g', api_conn_link (g <| g_api_conns := <[1 := sample_wrapper 50 NXP_CONN_IDLE]> ∅ |>) 1 = Done g' /\ conns_rep g' [1].
Proof.
  intros g. assert (conns_rep g []) as Hr.
  { split; [split; [done | by apply list.NoDup_nil] |]. intros x [? Hx]. cbn in Hx. by rewrite lookup_empty in Hx. }
  destruct (api_conn_list_exact g [] Hr) as (Hl & _). destruct (Hl 1 (sample_wrapper 50 NXP_CONN_IDLE)) as (g' & Hg & Hrep & _); [apply lookup_empty |]. by exists g'.
Defined.

(** ** A connection with a stream *)

Definition talking : nxp_conn := opened (established false).

Lemma talking_ok : conn_ok talking.
Proof. apply opened_ok; [apply conn_reachable_ok, established_reachable | reflexivity]. Qed.

Definition talking_stream : nxp_stream := ApiStream 0 50 None (Some 3) None None 0 0 false None.

(** The library with the connection at 50, its wrapper at 1 and a stream at 2. *)
Definition talking_api : nxp_api :=
  Api (Global (Some 1) None {[1 := sample_wrapper 50 NXP_CONN_ESTABLISHED <| ac_streams := Some 2 |>]} ∅
         {[2 := talking_stream <| st_api_conn := Some 1 |>]}) {[50 := talking]} [] [] 0.

Lemma talking_state : cn_state talking = NXP_CONN_ESTABLISHED.
Proof. unfold talking. by destruct (opened_form (established false) eq_refl) as (_ & _ & _ & _ & -> & _). Qed.

Lemma wrapped_ok (used : Z -> Prop) p owner c st : conn_ok c -> cn_state c = st -> used p -> used 1 ->
  api_ok (used := used) (Api (Global (Some 1) None {[1 := owned_wrapper p owner st]} ∅ ∅) {[p := c]} [] [] 0).
Proof.
  intros Hc Hst Hup Hu1. pose proof (new_conn_ok _ p c (empty_api_ok used) (lookup_empty _) Hc Hup) as Ha1. set (a1 := put_conn _ p c) in Ha1.
  destruct (link_ok a1 1 (owned_wrapper p owner st) c Ha1) as (g & Hg & Hok & _); try done; [apply lookup_insert_eq |].
  injection Hg as <-. exact Hok.
Qed.

Lemma talking_api_ok : api_ok (used := fun _ => True) talking_api.
Proof.
  pose proof (wrapped_ok (fun _ => True) 50 None talking _ talking_ok talking_state I I) as Ha. set (a := Api _ _ _ _ _) in Ha.
  destruct (track_ok a 1 (sample_wrapper 50 NXP_CONN_ESTABLISHED) 2 talking_stream Ha) as (g & Hg & Hok & _); [done | done | done |].
  injection Hg as <-. exact Hok.
Qed.

(** A stream on which the engine received two bytes that were not announced, and one
    that is up to date. *)
Definition fed_stream (n : Z) : nxp_stream_s := let s := stream_with_cap 4 0 NXP_STREAM_RELIABLE 100 100 in s <| recv := recv s <| recv_offset := n |> |>.
Definition fed_conn : nxp_conn := established false <| cn_streams := <[0 := fed_stream 2]> {[4 := fed_stream 0]} |>.
Definition fed_global : nxp_global := Global None None ∅ ∅ (<[2 := talking_stream <| st_next := Some 3 |>]> {[3 := talking_stream <| st_id := 4 |>]}).

Lemma dispatch_exact_witness : exists g', dispatch_stream_data fed_conn fed_global (sample_wrapper 50 NXP_CONN_ESTABLISHED <| ac_streams := Some 2 |>) = Done ([2], g').
Proof.
  destruct (dispatch_exact fed_conn fed_global (sample_wrapper 50 NXP_CONN_ESTABLISHED <| ac_streams := Some 2 |>) [2; 3]) as (called & g' & Hd & Hsub & Hin & _).
  - split; [| by apply (bool_decide_unpack _); vm_compute]. split; [done |]. eexists. split; [reflexivity |]. split; [done |]. eexists. split; [reflexivity | done].
  - exists g'. rewrite Hd. f_equal. f_equal.
    assert (2 ∈ called) as H2 by (apply Hin; split; [left |]; exists (talking_stream <| st_next := Some 3 |>), (fed_stream 2); split; [reflexivity |]; split; [done |]; split; [reflexivity |]; by left).
    assert (3 ∉ called) as H3.
    { intros [_ (v & inner & Hv & _ & Hi & Hn)]%Hin. injection Hv as <-. injection Hi as <-. by destruct Hn as [Hn | [Hn _]]. }
    clear -H2 H3 Hsub. apply sublist_cons_r in Hsub as [Hsub | (k & -> & Hsub)].
    + apply sublist_cons_r in Hsub as [->%sublist_nil_r | (k & -> & _)]; [by apply not_elem_of_nil in H2 | exfalso; apply H3; left].
    + apply sublist_cons_r in Hsub as [->%sublist_nil_r | (k' & -> & _)]; [done | exfalso; apply H3; right; left].
Defined.

Lemma stream_close_use_after_free_witness :
  safe (nxp_stream_close 5 talking_api (Some 2)) (fun a' => dispatch_data a' 1 = Ub).
Proof.
  apply (stream_close_use_after_free (used := fun _ => True) 5 talking_api 1 (sample_wrapper 50 NXP_CONN_ESTABLISHED <| ac_streams := Some 2 |>) [2] 2).
  - apply talking_api_ok.
  - reflexivity.
  - split; [| apply NoDup_singleton]. split; [done |]. eexists. split; [reflexivity | done].
  - by apply list_elem_of_singleton.
Defined.

(** A connection whose stream has nothing to send. *)
Definition idle_stream : nxp_stream_s := stream_with_cap 4 0 NXP_STREAM_RELIABLE 100 100.
Definition idle_conn : nxp_conn := established false <| cn_streams := {[0 := idle_stream]} |> <| cn_sched := sched_empty {[0 := Node None None]} |>.

Lemma shutdown_fin_unsent_witness : exists a' c' st',
  engine_write (Api (Global None None ∅ ∅ ∅) {[50 := idle_conn]} [] [] 0) talking_stream [] true = Done (0, a') /\
  ap_conns a' !! 50 = Some c' /\ cn_streams c' !! 0 = Some st' /\ sb_fin (send st') = true /\ fin_sent (send st') = false /\
  exists c2, nxp_conn_send 9 true c' (zeros 1200) 7 = Done (0, zeros 1200, c2).
Proof.
  apply (shutdown_fin_unsent 8 true _ talking_stream idle_conn idle_stream (zeros 1200) 7).
  - reflexivity.
  - split; try reflexivity.
    + split; reflexivity.
    + split; [discriminate | rewrite zlen_zeros by lia; discriminate].
  - split; [apply sched_empty_ok | by intros ? []].
  - reflexivity.
  - reflexivity.
  - reflexivity.
  - reflexivity.
Defined.

(** ** A client *)

Definition sample_client : nxp_event_loop (nxp_priority_queue Z) (nxp_epoll_loop * nxp_api) := init_loop empty_queue 9.
Definition sample_image (_ : nxp_addr) : list Z := zeros 28.
Definition sample_entropy : entropy := Entropy [1; 2; 3; 4; 5; 6; 7; 8] [8; 7; 6; 5; 4; 3; 2; 1] (Some (zeros 32)).
Definition every {A} (_ : A) : bool := true.
Definition no_handshake (_ _ : list Z) : Z := 0.

Lemma sample_entropy_ok : entropy_ok sample_entropy.
Proof. split; [done |]. split; [done |]. split; by repeat constructor. Qed.

Lemma empty_process_ok : os_ok (Os 1 []).
Proof. split; [by apply list.NoDup_nil | by apply Forall_nil]. Qed.

Lemma sample_descriptors : descriptors_ok every no_handshake (api_url (ascii "127.0.0.1") 4433) (Os 1 []).
Proof.
  intros t s' sock Hc. vm_compute in Hc. injection Hc as <- <-. intros [= <-]. by vm_compute.
Qed.

Lemma sample_host_ok : host_ok (ascii "127.0.0.1").
Proof. split; [by repeat constructor | by_compute]. Qed.

Lemma connect_no_leak_witness :
  safe (nxp_connect every no_handshake every sample_image 5 sample_client None (ascii "127.0.0.1") 4433 sample_entropy (ConnCallbacks None None 0) (Os 1 []))
    (fun '((r, l'), s') => connected [] sample_client r l' s').
Proof.
  apply (connect_no_leak every no_handshake every sample_image 5 sample_client None (ascii "127.0.0.1") 4433 sample_entropy (ConnCallbacks None None 0) (Os 1 [])).
  - apply init_world; [apply empty_process_ok | apply empty_queue_bag].
  - apply sample_host_ok.
  - split; by_compute.
  - apply sample_entropy_ok.
  - apply sample_descriptors.
Defined.

(** A client that has connected, and then opened a stream. *)
Notation sample_run op w := (client_run every no_handshake sample_image 5 every op w).
Notation sample_reachable := (client_reachable every no_handshake sample_image).

Definition sample_connect : client_op := DoConnect None (ascii "127.0.0.1") 4433 sample_entropy (ConnCallbacks None None 0).

Definition client_world : Type := os * nxp_event_loop (nxp_priority_queue Z) (nxp_epoll_loop * nxp_api).

Definition run_to (op : client_op) (w : client_world) : client_world := match sample_run op w with Done w' => w' | _ => w end.

Definition connecting : client_world := run_to sample_connect (Os 1 [], sample_client).
Definition streaming : client_world := run_to (DoStreamOpen 5 NXP_STREAM_RELIABLE None None None 0) connecting.

Definition runs (op : client_op) (w : client_world) : bool := match sample_run op w with Done _ => true | _ => false end.

Lemma run_to_done op w : runs op w = true -> sample_run op w = Done (run_to op w).
Proof. unfold runs, run_to. by destruct (sample_run op w). Qed.

Lemma found {A} (o : option A) : match o with Some _ => true | None => false end = true -> is_Some o.
Proof. destruct o; [by eexists | done]. Qed.

Lemma connecting_reachable : sample_reachable connecting.
Proof.
  apply (reach_step _ _ _ 5 every sample_connect (Os 1 [], sample_client)).
  - apply reach_init; [apply empty_process_ok | apply empty_queue_bag].
  - split; [apply sample_host_ok |]. split; [split; by_compute |]. split; [apply sample_entropy_ok | apply sample_descriptors].
  - reflexivity.
  - apply run_to_done. vm_compute. reflexivity.
Qed.

Lemma streaming_reachable : sample_reachable streaming.
Proof.
  assert (is_Some (ap_conns (el_api connecting.2) !! 5)) as Hp.
  { apply found. vm_compute. reflexivity. }
  apply (reach_step _ _ _ 5 every (DoStreamOpen 5 NXP_STREAM_RELIABLE None None None 0) connecting streaming connecting_reachable).
  - revert Hp. generalize connecting. intros [s l] Hp. exact Hp.
  - reflexivity.
  - apply run_to_done. vm_compute. reflexivity.
Qed.

Lemma streaming_stream : is_Some (g_streams (ap_global (el_api streaming.2)) !! 0).
Proof. apply found. vm_compute. reflexivity. Qed.

(** The next call writes to the stream. *)
Lemma client_history_safe_witness : sample_reachable streaming /\
  safe (sample_run (DoStreamSend (Some 0) [1; 2] true) streaming)
    (fun w' => closes_stream (DoStreamSend (Some 0) [1; 2] true) = false -> sample_reachable w').
Proof.
  split; [exact streaming_reachable |].
  assert (client_op_ok every no_handshake (DoStreamSend (Some 0) [1; 2] true) streaming) as Hop.
  { pose proof streaming_stream as Hp. revert Hp. generalize streaming. intros [s l] Hp p [= <-]. exact Hp. }
  exact (proj1 (client_history_safe every no_handshake sample_image 5 every (DoStreamSend (Some 0) [1; 2] true) streaming
    streaming_reachable Hop)).
Defined.

(** ** A connection that the peer has closed *)

Definition drained : nxp_conn :=
  established false <| cn_state := NXP_CONN_DRAINING |> <| cn_ack := nxp_ack_init true <| ack_needed := true |> <| ack_delay_timer := 500 |> |>.

Lemma drained_ok : conn_ok drained.
Proof.
  pose proof (conn_reachable_ok _ (established_reachable false)) as [? ? ? ? ? ? ? ? Hl Hi ? ?].
  split; try done. by destruct Hi.
Qed.

(** Its wrapper is at 1, and its timer, at 5, is due at 500. *)
Definition drained_loop : nxp_event_loop (nxp_priority_queue Z) (nxp_epoll_loop * nxp_api) :=
  Loop (PQ (PqEntry 500 5 :: replicate 15 (PqEntry 0 0)) 1 16) true {[5 := Timer 500 on_conn_timer_cb 1 false]}
    (epoll_create 9, Api (Global (Some 1) None {[1 := sample_wrapper 50 NXP_CONN_DRAINING <| ac_timer := Some 5 |>]} ∅ ∅) {[50 := drained]} [] [] 0).

Lemma nothing_registered fd : registered (epoll_create 9) fd = None.
Proof.
  unfold registered. destruct (fd <? 0); [done |]. unfold epoll_create. cbn.
  destruct (zget (replicate (Z.to_nat INITIAL_SOURCE_CAP) source_zero) fd) as [src |] eqn:Hz; [| done]. by apply zget_zeros_source in Hz as ->.
Qed.

Lemma drained_heap t : el_heap drained_loop !! t = ({[5 := Timer 500 on_conn_timer_cb 1 false]} : gmap Z nxp_timer) !! t.
Proof. done. Qed.
Lemma drained_wrappers ac : wrappers (el_api drained_loop) !! ac =
  ({[1 := sample_wrapper 50 NXP_CONN_DRAINING <| ac_timer := Some 5 |>]} : gmap Z nxp_api_conn) !! ac.
Proof. done. Qed.

Lemma drained_rep : api_rep (used := fun _ => True) drained_loop.
Proof.
  split; [exists [(500, 5)]; split | split; [apply epoll_create_inv | split; [| split]]].
  - cbn. split; [by_compute | by_compute | | done]. intros j Hj. simpl in Hj. lia.
  - apply NoDup_singleton.
  - intros d t [= -> ->]%list_elem_of_singleton. by eexists.
  - intros t Ht. by apply not_elem_of_nil in Ht.
  - intros t [tm Ht]. rewrite drained_heap in Ht. apply lookup_singleton_Some in Ht as [<- _]. by apply list_elem_of_singleton.
  - pose proof (put_timer_ok _ 1 _ (Some 5) (wrapped_ok (fun _ => True) 50 None drained NXP_CONN_DRAINING drained_ok eq_refl I I) eq_refl) as Ha. exact Ha.
  - split.
    + intros ac v t Hv. rewrite drained_wrappers in Hv. apply lookup_singleton_Some in Hv as [<- <-]. intros [= <-]. split; [apply not_elem_of_nil | by exists 500].
    + intros t tm Ht _ _. rewrite drained_heap in Ht. apply lookup_singleton_Some in Ht as [<- <-]. split; [done |]. by eexists.
  - intros fd src Hr. by rewrite nothing_registered in Hr.
Qed.

Lemma sample_granted n : Z.of_nat n < 16 -> timers_granted n.
Proof.
  intros Hn. split; [intros i s; by eexists |]. intros i q bag d t Hq Hlen. pose proof Hq as [Hs Hr _ Hb]. apply Permutation_length in Hb.
  assert (pq_count q < pq_capacity q) as Hroom.
  { rewrite length_fmap in Hb. assert (zlen (ztake (pq_count q) (pq_entries q)) = pq_count q) as Hz by (apply zlen_ztake; lia). unfold zlen in Hz. lia. }
  change (exists q', plain (nxp_pq_push (pe_ok (pq_grow q)) (pe_junk (pq_grow q)) q d t) = Done (Some q')). unfold nxp_pq_push.
  rewrite Z.geb_leb, (proj2 (Z.leb_gt _ _)) by done. destruct (push_room q _ d t Hq Hroom) as (q' & -> & _). by exists q'.
Qed.

Lemma draining_spins_witness : fire_loop (api_on_timer 5) 100 1000 drained_loop = Err tt.
Proof.
  pose proof (draining_spins (used := fun _ => True) 10 1 100 4 1000 1 drained 500 drained_loop) as Hs. refine (Hs _ _ _ _ _); clear Hs.
  - apply sample_granted. lia.
  - split; [done | exact I | done | done | done | by_compute].
  - split; by_compute.
  - intros i. by_compute.
  - split; [apply drained_rep | by_compute | |].
    + intros x [v Hx]. rewrite drained_wrappers in Hx. by apply lookup_singleton_Some in Hx as [<- _].
    + exists (sample_wrapper 50 NXP_CONN_DRAINING <| ac_timer := Some 5 |>), 5, 500. split; [done |]. split; [done |]. split; [done |]. split; [done |]. lia.
Defined.

(** ** A server *)

#[local] Instance map_room_dec (m : nxp_hash_map Z) : Decision (st_room m) := Z.le_dec (capacity m) (2 ^ 25).

(** Nothing arrives, and accepting a connection gets a new pointer. *)
#[local, refine] Instance server_sys : ServerSystem := {|
  sys_from _ _ := None;
  sys_accept _ used := ListenerEnv (Some (base.fresh used)) true true true true (Some 6) true [41; 42; 43; 44; 45; 46; 47; 48] (Some (zeros 32))
|}.
Proof.
  - done.
  - intros _ used. split; [done |]. split; [by repeat constructor |]. split; [done |]. intros p [= <-]. apply is_fresh.
Defined.

Notation server_loop := (nxp_event_loop (nxp_priority_queue Z) (nxp_epoll_loop * nxp_server (S := nxp_hash_map Z))).

(** The listener at 3 with the engine's listener at 30, and the connection at 7 with
    its wrapper at 1. *)
Definition sample_listener : nxp_listener := ApiListener 30 60 62 None (Some 4) 0 None None.
Definition server_api (c : nxp_conn) : nxp_api :=
  Api (Global (Some 1) (Some 3) {[1 := owned_wrapper 7 (Some 3) (cn_state c)]} {[3 := sample_listener]} ∅) {[7 := c]} [] [] 0.
Definition serving_loop (c : nxp_conn) : server_loop :=
  Loop empty_queue true ∅ (epoll_create 9, Server (server_api c) {[30 := serving c]}).

Lemma server_wrappers c ac : g_api_conns (globals (serving_loop c)) !! ac = ({[1 := owned_wrapper 7 (Some 3) (cn_state c)]} : gmap Z nxp_api_conn) !! ac.
Proof. done. Qed.
Lemma server_listeners c ln : listeners (el_server (serving_loop c)) !! ln = ({[3 := sample_listener]} : gmap Z nxp_listener) !! ln.
Proof. done. Qed.
Lemma server_engines c p : sv_engines (el_server (serving_loop c)) !! p = ({[30 := serving c]} : gmap Z listener) !! p.
Proof. done. Qed.

Lemma empty_queue_rep {B} (b : B) (q : bool) : loop_rep (Loop empty_queue q ∅ b) [] [].
Proof.
  split; [apply empty_queue_bag | by apply list.NoDup_nil | | |].
  - intros d t Hin. by apply not_elem_of_nil in Hin.
  - intros t Hin. by apply not_elem_of_nil in Hin.
  - intros t [? Ht]. cbn in Ht. by rewrite lookup_empty in Ht.
Qed.

Lemma lend_serving c : lend {[7 := c]} (serving c) = serving c.
Proof. unfold lend. by rewrite (map_filter_singleton_True (M := gmap Z)) by by apply list_elem_of_singleton. Qed.

Lemma serving_rep c firing : conn_ok c -> server_rep (serving_loop c) [] [] firing.
Proof.
  intros Hc. split; [apply empty_queue_rep | split |].
  - pose proof (wrapped_ok (fun _ => True) 7 (Some 3) c (cn_state c) Hc eq_refl I I) as [? ? ? ? ? ? ? ? ?]. by split.
  - intros p ls. rewrite server_engines. intros [<- <-]%lookup_singleton_Some. cbn. rewrite lend_serving. by apply serving_ok.
  - intros ln v. rewrite server_listeners. intros [<- <-]%lookup_singleton_Some. by eexists.
  - intros ln v t. rewrite server_listeners. by intros [<- <-]%lookup_singleton_Some.
Qed.

Lemma serving_conns c : conn_ok c -> conns_rep (globals (serving_loop c)) [1].
Proof.
  intros Hc. split; [split; [| apply NoDup_singleton] |]; [split; [done |]; by eexists |].
  intros x [v Hx]. rewrite server_wrappers in Hx. apply lookup_singleton_Some in Hx as [<- _]. by apply list_elem_of_singleton.
Qed.

(** A connection that is idle since 10, for longer than it may be. *)
Definition idling : nxp_conn := established true <| cn_last_activity_us := 10 |> <| cn_idle_timeout_us := 500 |>.

Lemma idling_ok : conn_ok idling.
Proof. pose proof (conn_reachable_ok _ (established_reachable true)) as [? ? ? ? ? ? ? ? Hl Hi ? ?]. split; try done. by destruct Hi. Qed.

Lemma server_handlers_safe_witness :
  safe (on_listener_event 5 NXP_EVENT_READ 3 (serving_loop (established true))) (server_next (serving_loop (established true)) [] []) /\
  safe (on_listener_timer 5 3 (serving_loop (established true))) (server_next (serving_loop (established true)) [] []).
Proof.
  pose proof (conn_reachable_ok _ (established_reachable true)) as Hc.
  pose proof (server_handlers_safe 5 (serving_loop (established true)) [] [] 3) as [He Ht]; [by eexists |].
  split; [apply He, serving_rep, Hc | apply Ht; [apply serving_rep, Hc |]].
  intros v ls p c. rewrite server_listeners, server_engines. intros [_ <-]%lookup_singleton_Some [_ <-]%lookup_singleton_Some ->%list_elem_of_singleton.
  intros Hp. assert (c = established true) as -> by by injection Hp. by vm_compute.
Defined.

(** The connection is freed, and the listener has nothing to send. *)
Lemma idling_expires : match listener_expire 3 (serving_loop idling) with
  | Done (_, sv) => match nxp_api_flush_listener 5 sv 3 with Done _ => true | _ => false end
  | _ => false
  end = true.
Proof. vm_compute. reflexivity. Qed.

Lemma listener_timer_use_after_free_witness : on_listener_timer 5 3 (serving_loop idling) = Ub.
Proof.
  pose proof idling_expires as Hex. destruct (listener_expire 3 (serving_loop idling)) as [[l1 sv] | |] eqn:He; [| done | done].
  destruct (nxp_api_flush_listener 5 sv 3) as [sv' | |] eqn:Hf; [| done | done].
  apply (listener_timer_use_after_free 5 (serving_loop idling) l1 [] [] 3 sample_listener (serving idling) [] [] 1 (owned_wrapper 7 (Some 3) NXP_CONN_ESTABLISHED) idling sv sv').
  - apply serving_rep, idling_ok.
  - reflexivity.
  - reflexivity.
  - apply serving_conns, idling_ok.
  - intros x u Hx. by apply not_elem_of_nil in Hx.
  - reflexivity.
  - reflexivity.
  - by apply list_elem_of_singleton.
  - reflexivity.
  - by vm_compute.
  - exact He.
  - exact Hf.
Defined.

(** ** Listening and closing *)

Definition sample_server : server_loop := Loop empty_queue true ∅ (epoll_create 9, Server (Api (Global None None ∅ ∅ ∅) ∅ [] [] 0) ∅).

Lemma sample_server_rep : server_rep sample_server [] [] None.
Proof.
  split; [apply empty_queue_rep | split |].
  - apply empty_api_ok.
  - intros p ls Hp. by destruct (lookup_empty_Some (M := gmap Z) p ls Hp).
  - intros ln v Hv. by destruct (lookup_empty_Some (M := gmap Z) ln v Hv).
  - intros ln v t Hv. by destruct (lookup_empty_Some (M := gmap Z) ln v Hv).
Qed.

Lemma sample_listen_fd : listen_fd_ok every no_handshake every (api_url (ascii "0.0.0.0") 4433) (Os 1 []).
Proof. intros ln s1 tl s2 [= <- <-] Hl. vm_compute in Hl. injection Hl as <- <-. by vm_compute. Qed.

Lemma listen_no_leak_witness :
  wp (nxp_listen every no_handshake every sample_server None None (ascii "0.0.0.0") 4433 (Some 4) 0) (fun '(r, l') s' => listened ∅ ∅ [] [] sample_server r l' s') (Os 1 []).
Proof.
  pose proof (listen_no_leak every no_handshake every ∅ ∅ sample_server [] None None (ascii "0.0.0.0") 4433 (Some 4) 0 (Os 1 [])) as Hl.
  refine (Hl _ _ _ _ _ _ _ _); clear Hl.
  - apply sample_server_rep.
  - split; [exists []; split; [done | by apply list.NoDup_nil] |]. split; intros x [y Hx]; by destruct (lookup_empty_Some (M := gmap Z) x y Hx).
  - apply epoll_create_inv.
  - exact I.
  - split; [by repeat constructor | by_compute].
  - split; by_compute.
  - apply empty_process_ok.
  - apply sample_listen_fd.
Defined.

(** The transports of [serving_loop], which share the socket. *)
Definition shared_socket : nxp_socket := Socket 64 65 SockOther.
Definition server_transport : nxp_transport := TUdp 60 61 shared_socket false None.
Definition server_transport_ln : nxp_transport_listener := LUdp 62 63 shared_socket None 4433.
Definition server_tr : gmap Z nxp_transport := {[60 := server_transport]}.
Definition server_tls : gmap Z nxp_transport_listener := {[62 := server_transport_ln]}.

Lemma serving_list c : dl_rep (g_api_listeners (globals (serving_loop c))) (g_listeners (globals (serving_loop c))) [3].
Proof. split; [| apply NoDup_singleton]. split; [done |]. exists sample_listener. done. Qed.

Lemma serving_listening c : ApiShutdown.listening server_tr server_tls (serving_loop c) 3 sample_listener server_transport server_transport_ln shared_socket (serving c).
Proof.
  split; try reflexivity.
  - exists [3]. split; [apply serving_list | by apply list_elem_of_singleton].
  - done.
  - apply epoll_create_inv.
Qed.


Lemma serving_tells c : tells (fun _ => true) 3 (globals (serving_loop c)).
Proof. intros x v. rewrite server_wrappers. intros [_ <-]%lookup_singleton_Some. by split. Qed.

(** Everything that [serving_loop] holds, and a descriptor of the application. *)
Definition serving_os : os := Os 100 (1 :: transport_tokens server_transport ++ listener_tokens server_transport_ln ++ [7; 30; 3; 99]).

Lemma serving_os_ok : os_ok serving_os.
Proof. split; [by apply (bool_decide_unpack _); vm_compute | by repeat constructor]. Qed.

(** The same server with a stream of its connection, whose wrapper is at 80, and a
    bucket of its limiter at 81. *)
Definition busy_engine : listener := serving (established true) <| ls_rate_limiter := Some (RateLimiter (ip_buckets sample_limiter) {[81 := RateBucket 1 0]}) |>.
Definition busy_loop : server_loop :=
  Loop empty_queue true ∅ (epoll_create 9,
    Server (server_api (established true) <| ap_global := (globals (serving_loop (established true))) <| g_streams := {[80 := ApiStream 0 7 (Some 1) None None None 0 0 false None]} |> |>) {[30 := busy_engine]}).

Definition busy_os : os := Os 100 (1 :: transport_tokens server_transport ++ listener_tokens server_transport_ln ++ [7; 30; 3; 80; 81; 99]).

Lemma busy_os_ok : os_ok busy_os.
Proof. split; [by apply (bool_decide_unpack _); vm_compute | by repeat constructor]. Qed.

Lemma busy_listening : ApiShutdown.listening server_tr server_tls busy_loop 3 sample_listener server_transport server_transport_ln shared_socket busy_engine.
Proof.
  split; try reflexivity.
  - exists [3]. split; [exact (serving_list (established true)) | by apply list_elem_of_singleton].
  - done.
  - apply epoll_create_inv.
Qed.

Lemma listener_close_frees_witness :
  wp (nxp_listener_close server_tr server_tls busy_loop 3) (fun l' s' => os_held s' ≡ₚ [80; 81; 99] /\
    g_streams (globals l') = g_streams (globals busy_loop) /\ listeners (el_server l') !! 3 = None /\
    registered (el_epoll l') 65 = None /\ forall ac w, g_api_conns (globals l') !! ac = Some w -> ac_parent_listener w <> Some 3) busy_os.
Proof.
  pose proof (listener_close_frees server_tr server_tls busy_loop 3 sample_listener server_transport server_transport_ln shared_socket
    busy_engine (fun _ => true) [1] busy_os [99]) as Hc.
  refine (Hc _ _ _ _ _); clear Hc.
  - exact busy_listening.
  - exact (serving_conns (established true) (conn_reachable_ok _ (established_reachable true))).
  - exact (serving_tells (established true)).
  - exact busy_os_ok.
  - reflexivity.
Defined.

Lemma shutdown_double_free_witness : forall r, nxp_shutdown server_tr (LoopHandles 90 91 92 93) (serving_loop (established true)) serving_os <> Done r.
Proof.
  apply (shutdown_double_free server_tr (serving_loop (established true)) (LoopHandles 90 91 92 93) [1] 1 (owned_wrapper 7 (Some 3) NXP_CONN_ESTABLISHED) 3 sample_listener
    (serving (established true)) serving_os).
  - apply serving_conns, conn_reachable_ok, established_reachable.
  - reflexivity.
  - reflexivity.
  - reflexivity.
  - reflexivity.
  - by apply list_elem_of_singleton.
  - apply serving_os_ok.
Defined.
